(* ===== verification/_CoqProject ===== *)
-Q . S2P
Prelude.v
Errors.v
FileSystem.v
PooledTasks.v
Target.v
GraphUtils.v
Shapes.v
Config.v
EnvVar.v
EnvVarTheorems.v
Query.v
Constraints.v
Affected.v
AffectedFacts.v
ActionContext.v
Action.v
Dag.v
DiGraph.v
NodeMaps.v
ProjectGraph.v
ProjectGraphFacts.v
TaskDeps.v
TaskDepsFacts.v
InheritedTasks.v
TasksBuilder.v
TasksBuilderFacts.v
TasksBuilderTheorems.v
ProjectBuilder.v
WorkspaceData.v
WorkspaceDataFacts.v
WorkspaceNodes.v
TaskGraph.v
TaskGraphFacts.v
WorkspaceGraph.v
WorkspaceGraphFacts.v
WorkspaceAsync.v
WorkspaceBuilds.v
WorkspaceAsyncFacts.v
WorkspaceLoad.v
WorkspaceResult.v
WorkspaceBuilder.v
WorkspaceBuilderFacts.v
WorkspaceBuilderTasks.v
WorkspaceBuilderResult.v
WorkspaceCache.v
WorkspaceCacheFacts.v
WorkspaceExamples.v
WorkspaceTheorems.v
WorkspaceCases.v
GraphTheorems.v
Dispatcher.v
ActionGraphBuilder.v
BuilderFacts.v
BuilderTasks.v
BuilderRuns.v
BuilderSync.v
BuilderTerm.v
Pipeline.v
PipelineFacts.v
PipelineLive.v
PipelineRuns.v
BuilderGraph.v
Blobs.v
Manifest.v
CacheStorage.v
CacheFacts.v
LocalStorageFacts.v
CacheGc.v
CacheRoundTrip.v
CacheExamples.v
CacheTheorems.v
TokenExpander.v
TokenFacts.v
TokenTheorems.v
TaskRunner.v
TaskRunnerFacts.v
TaskRunnerExamples.v
TaskRunnerTheorems.v
TaskRunnerReuse.v
OutputTheorems.v
