(* ===== verification/Prelude.v ===== *)
(** * A verification development for moon

moon is a build system and task runner for repositories of many projects.  The
development is a shallow embedding of the part of it that decides what is run
and in which order: from the configuration of projects and tasks, over the
graphs that are made of them, to the actions of one invocation, the pipeline
that executes them, the runner of a task and the cache of its outputs.  Every definition names the Rust item it translates; paths
are relative to [src/].

** The program

- A workspace builder ([crates/workspace]) locates the projects, has a
  [ProjectBuilder] ([crates/project-builder]) build each of them, and a
  [TasksBuilder] its tasks out of inherited and local configurations, has a
  [TaskDepsBuilder] ([crates/task-builder]) resolve the dependencies of their
  tasks, and links projects and tasks into a [ProjectGraph] and a [TaskGraph]
  ([crates/project-graph], [crates/task-graph]).  There are two builders: one
  recursive and sequential, one that builds projects in a pool.  Both keep what
  they have built in a cache.
- A [WorkspaceGraph] ([crates/workspace-graph]) answers lookups and queries
  ([crates/query]) on both graphs, and expands tasks when they are asked for
  ([crates/task-expander]).
- The [AffectedTracker] ([crates/affected]) decides which projects and tasks are
  touched by a set of changed files.
- The [ActionGraphBuilder] ([crates/action-graph]) turns the targets of an
  invocation into a graph of actions.
- The [ActionPipeline] ([crates/action-pipeline]) runs that graph: a dispatcher
  chooses jobs, jobs run concurrently under a number of permits, and a loop
  receives their results.
- The [TaskRunner] ([crates/task-runner]) is the body of the action that runs a
  task: it hashes the task, decides from the cached state whether the task has
  to run, runs its checks and its command with its retries, and archives or
  restores its outputs.
- The cache ([crates/cache-storage], [crates/cache-local], [crates/cas],
  [crates/manifest], [crates/blob], [crates/hash]) keeps outputs as blobs under
  their hash, and a manifest of them for every run, and collects what is not
  used any more.
- Environment variables ([crates/env-var]) are found in text, replaced and read
  from env files.

** The files

Foundations
- [Prelude.v]: the [outcome] of fallible code, loops, the string functions of
  the Rust standard library, tactics and hints.
- [Errors.v]: the error enumerations, and [Report].
- [FileSystem.v]: paths ([common/src/path.rs]) and the files that an operation
  sees, as a map from paths.
- [PooledTasks.v]: [crates/async-utils], [run_pooled_tasks].
- [Dag.v], [DiGraph.v]: the interfaces of the graph libraries [daggy] and
  [petgraph] as classes with laws, and an instance on lists for each.

Data
- [Target.v]: [crates/target], targets and locators.
- [Shapes.v]: inputs, outputs, file groups, arguments and merge strategies
  ([config/src/shapes], [crates/file-group], [task_arg.rs], [merging.rs]).
- [EnvVar.v], [EnvVarTheorems.v]: [crates/env-var].
- [Config.v]: the records of projects, tasks and their configuration
  ([crates/config], [crates/project], [crates/task]).
- [Action.v], [ActionContext.v]: [crates/action], [crates/action-context].
- [Query.v]: [crates/query], the grammar, the criteria, their matching.
- [Constraints.v]: [crates/project-constraints].

Graphs
- [GraphUtils.v], [NodeMaps.v]: [crates/graph-utils] and what both graphs share.
- [ProjectGraph.v], [ProjectGraphFacts.v]: [crates/project-graph] and
  [crates/project-expander].
- [TaskGraph.v], [TaskGraphFacts.v]: [crates/task-graph], and of
  [task_expander.rs] the steps after tokens are replaced.
- [TokenExpander.v], [TokenFacts.v], [TokenTheorems.v]: the rest of
  [crates/task-expander] and of [crates/file-group], as the implementation of
  the class [TaskHost] that the task graph is given.
- [WorkspaceGraph.v], [WorkspaceGraphFacts.v], [GraphTheorems.v]:
  [crates/workspace-graph].

Builders
- [TaskDeps.v], [TaskDepsFacts.v]: [task_deps_builder.rs].
- [InheritedTasks.v]: [inherited_tasks_config.rs], [inherited_tasks_manager.rs].
- [TasksBuilder.v], [TasksBuilderFacts.v], [TasksBuilderTheorems.v]:
  [tasks_builder.rs] of [crates/task-builder].
- [ProjectBuilder.v]: [crates/project-builder].
- [WorkspaceData.v], [WorkspaceDataFacts.v], [WorkspaceNodes.v]: what both
  workspace builders share ([build_data.rs], [projects_locator.rs] and so on).
- [WorkspaceAsync.v], [WorkspaceBuilds.v], [WorkspaceAsyncFacts.v],
  [WorkspaceLoad.v], [WorkspaceResult.v]: [projects_builder.rs],
  [tasks_builder.rs] and [workspace_builder_async.rs].
- [WorkspaceBuilder.v], [WorkspaceBuilderFacts.v], [WorkspaceBuilderTasks.v],
  [WorkspaceBuilderResult.v]: [workspace_builder.rs].
- [WorkspaceCache.v], [WorkspaceCacheFacts.v]: [workspace_cache.rs] and
  [new_with_cache] of both builders.
- [WorkspaceExamples.v], [WorkspaceTheorems.v], [WorkspaceCases.v]: example
  workspaces, the theorems about both builders, and where they differ.

Running
- [Affected.v], [AffectedFacts.v]: [crates/affected].
- [Dispatcher.v]: [action_graph.rs] and [job_dispatcher.rs].
- [ActionGraphBuilder.v], [BuilderFacts.v], [BuilderTasks.v], [BuilderRuns.v],
  [BuilderSync.v], [BuilderTerm.v], [BuilderGraph.v]:
  [action_graph_builder.rs], its invariants, its termination, and the graph it
  hands to the pipeline.
- [Pipeline.v], [PipelineFacts.v], [PipelineLive.v], [PipelineRuns.v]:
  [crates/action-pipeline] as a transition system.
- [TaskRunner.v], [TaskRunnerFacts.v], [TaskRunnerExamples.v],
  [TaskRunnerTheorems.v], [TaskRunnerReuse.v], [OutputTheorems.v]:
  [crates/task-runner], with [crates/cache-item] and the parts of
  [crates/process] and [crates/cache] it uses.

The cache
- [Blobs.v]: [crates/hash], [crates/blob], [crates/cas].
- [Manifest.v]: [crates/manifest], packing, unpacking and the messages of the
  remote execution protocol.
- [CacheStorage.v]: [crates/cache-storage] and [crates/cache-local].
- [CacheFacts.v], [LocalStorageFacts.v], [CacheGc.v], [CacheRoundTrip.v],
  [CacheExamples.v], [CacheTheorems.v]: their facts, instances of the libraries
  that evaluate, and the theorems.

** State and effects

Fallible functions return [outcome Report A].  Code that changes a value takes
it and returns it; the action graph builder, the workspace graph, the cache and
the task runner use a state and error monad, over a [World] of files, time and
remote services where they touch files, and the runner has a calculus of
weakest preconditions for it.  Caches that are shared ([OnceCell]s and concurrent maps) are
part of the state that is passed on, and the theorems say that their content
does not change a result.  Concurrent code is modelled in two ways: a pool of
futures is a schedule that is an argument of the definition, and theorems hold
for every schedule; the pipeline is a step relation on the shared state, with
one step for each access to it, and its theorems are invariants of every
reachable state.

Code outside the repository is a parameter.  Graph libraries, plugins, the file
system, hash maps with an unspecified order of iteration, and the parts of
[moon] that only wrap them are classes ([DagOps], [DiGraphOps], [IdSyntax],
[ProjectHost], [TasksHost], [FileExists], [WorkspaceHost], [TaskHost],
[QueryHost], [Host], [CacheHost], [ConfigSyntax], [RelativePathLib], [TokenLib],
[DirWalk], [Sha256], [ManifestJson], [RunnerHost]); their laws ([RunnerLaws],
[Sha256Laws] and so on) state documented behaviour, and every class has an
instance on which the theorems are evaluated.

** What the theorems show

- The pipeline: a job starts only after what it requires has completed, at most
  the configured number of jobs run at once, a run ends within a bounded number
  of steps and without a signal always can go on, every action that was
  dispatched has a result; and three runs in which it does not do what it means
  to.
- The action graph: with dependencies in scope at any depth, every task that a
  run adds is linked to all tasks its dependencies resolve to, except those that
  are not to run in CI; the graph that is handed to the pipeline is acyclic and is what the pipeline's theorems ask
  for, all recursions end, and syncing projects never fails on a cycle.
- The workspace: both builders end and make graphs that keep their invariants,
  with exactly the declared dependencies (up to cycles, which the sequential
  one cuts), the errors that loading tasks can end with are known, and the
  asynchronous builder is independent of its schedule; the cache of the
  sequential one is transparent.
- The graphs: queries return exactly the projects their text describes, where a
  negated comparison only asks for one value that differs; lookups by path
  return the innermost project, partitions sort topologically; expanding the
  tasks of a graph of the asynchronous builder ends, unless tokens stand for
  tokens again, and an expanded task has exactly the outputs it declares.
- Building tasks: which tasks a project has, what they depend on under the
  filters and merge strategies of their configurations, which toolchains they
  use, and that every option is the one that was configured last; chains of
  tasks that extend each other are found exactly if they end.
- Running a task: the state that is recorded says what happened, the outcome of
  a command that failed is not reused (in the cache modes other than [read]),
  the first dependency that is not complete decides that a task is skipped or
  fails, retries are bounded; and every run that stops at an unmet requirement
  after a success is taken for a success by the next one.
- The cache: manifests never refer to blobs that are gone, the collector keeps
  what is used and keeps the budget, output files that were archived in the
  local cache are restored, requests are split into batches exactly, and
  manifests survive the format of the remote cache.
- Data: targets and queries can be printed and parsed back, dependencies of
  tasks are resolved as configured, affected tracking marks the projects with
  changed files and what their scopes reach, and the sequential and asynchronous
  trackers agree.

** Fuel

Recursive functions that are not structural take a fuel argument and return
[OutOfFuel] when it is used up.  Every theorem that says that such a function
returns gives the fuel: the number of nodes or of projects and tasks that are
not visited yet, the number of toolchains that are not on the path yet, the
number of tasks of a project, or the length of the string that is left.  For
tokens, whose loops need not end, the theorem says that from some fuel on the
result is the same.  The loops of the Rust code have no such
bound, so a definition with enough fuel returns what the loop returns.

** Not modelled

Plugins (WASM), the spawning of processes, the network (the gRPC and HTTP
backends of the remote cache), the terminal, the daemon and version control:
effects on the outside world that the modelled code only calls, and that appear
as parameters where their result is used.  The runner is modelled without a
daemon; the command line of a task ([command_builder.rs]) and the content that
is hashed of it ([crates/task-hasher]) are results of its host.  Files are
modelled on Unix; directories are implied by the files below them.  Characters
are bytes, and their classes those of ASCII; sums of sizes do not overflow.
Serialization formats and JSON schemas are those of libraries.
Durations and time stamps are left out where no modelled decision depends on
them, as are log messages and the texts of error messages that have no
enumeration of their own. *)

From Stdlib Require Export Ascii String.
From stdpp Require Export gmap strings list fin_maps fin_sets relations sorting.
#[export] Set Default Goal Selector "!".
#[global] Arguments String.append !_ _ : simpl nomatch.

(** The development's notations live in a scope of their own. *)
Declare Scope moon_scope.
Delimit Scope moon_scope with moon.
#[global] Open Scope moon_scope.

(** ** Fallible computations

[outcome E A] is Rust's [Result<A, E>], with one more constructor for the
recursive functions that are defined on a fuel argument: [OutOfFuel] says the
fuel was used up before the call returned.  No Rust code produces it; each
theorem that needs a call to return proves that some explicit fuel is enough. *)
Inductive outcome (E A : Type) : Type :=
| Ok (a : A)
| Err (e : E)
| OutOfFuel.
Arguments Ok {E A} a.
Arguments Err {E A} e.
Arguments OutOfFuel {E A}.

Definition obind {E A B : Type} (m : outcome E A) (k : A → outcome E B) :
  outcome E B :=
  match m with
  | Ok a => k a
  | Err e => Err e
  | OutOfFuel => OutOfFuel
  end.

(** [let? x := m in k] is [let x = m?; k]. *)
Notation "'let?' x := m 'in' k" := (obind m (λ x, k))
  (at level 10, x name, m at level 100, k at level 200) : moon_scope.
Notation "'let?' ' p := m 'in' k" := (obind m (λ z, match z with p => k end))
  (at level 10, p pattern, m at level 100, k at level 200) : moon_scope.
Notation "m ';;?' k" := (obind m (λ _, k))
  (at level 100, k at level 200, right associativity) : moon_scope.

(** [Result::map_err]. *)
Definition map_err {E F A : Type} (f : E → F) (m : outcome E A) : outcome F A :=
  match m with
  | Ok a => Ok a
  | Err e => Err (f e)
  | OutOfFuel => OutOfFuel
  end.

(** [Option::ok_or]. *)
Definition ok_or {E A : Type} (o : option A) (e : E) : outcome E A :=
  match o with Some a => Ok a | None => Err e end.

(** [for x in l { s = f(s, x)?; }] *)
Fixpoint ofold {E A S : Type} (f : S → A → outcome E S) (s : S) (l : list A) :
  outcome E S :=
  match l with
  | [] => Ok s
  | x :: l' => let? s' := f s x in ofold f s' l'
  end.

(** [l.iter().map(f).collect::<Result<Vec<_>, _>>()] *)
Fixpoint omap_list {E A B : Type} (f : A → outcome E B) (l : list A) :
  outcome E (list B) :=
  match l with
  | [] => Ok []
  | x :: l' => let? y := f x in let? ys := omap_list f l' in Ok (y :: ys)
  end.

Definition is_ok {E A : Type} (m : outcome E A) : bool :=
  match m with Ok _ => true | _ => false end.

(** The state of a builder is a big term: results are compared through what is
    read off them. *)
Definition err_of {E A : Type} (m : outcome E A) : option E :=
  match m with Err e => Some e | _ => None end.

Lemma is_ok_Ok {E A : Type} (m : outcome E A) : is_ok m = true → ∃ a, m = Ok a.
Proof. destruct m; [by eauto|done..]. Qed.

Lemma is_ok_obind {E A B : Type} (m : outcome E A) (k : A → outcome E B) :
  is_ok (obind m k) = true → ∃ a, m = Ok a ∧ is_ok (k a) = true.
Proof. destruct m; [by eauto|done..]. Qed.

Lemma err_of_Err {E A : Type} (m : outcome E A) e : err_of m = Some e → m = Err e.
Proof. destruct m; cbn; congruence. Qed.

(** ** Strings

A Rust [str] is its sequence of UTF-8 bytes, so [str::len] is
[String.length]. *)

Definition str_chars (s : string) : list ascii := list_ascii_of_string s.

Definition str_all (P : ascii → bool) (s : string) : bool :=
  forallb P (str_chars s).

(** [s.contains(c)] *)
Definition str_contains (c : ascii) (s : string) : bool :=
  existsb (Ascii.eqb c) (str_chars s).

#[global] Arguments str_all : simpl never.
#[global] Arguments str_contains : simpl never.

(** [s.strip_prefix(p)] *)
Fixpoint strip_prefix (p s : string) : option string :=
  match p, s with
  | EmptyString, _ => Some s
  | String a p', String b s' =>
      if Ascii.eqb a b then strip_prefix p' s' else None
  | String _ _, EmptyString => None
  end.

(** [s.starts_with(p)] *)
Definition starts_with (p s : string) : bool :=
  match strip_prefix p s with Some _ => true | None => false end.

#[global] Arguments strip_prefix : simpl never.
#[global] Arguments starts_with : simpl never.
#[global] Arguments Ascii.eqb : simpl never.

(** [s.contains(p)] for a string pattern. *)
Fixpoint str_contains_str (p s : string) : bool :=
  starts_with p s ||
  match s with
  | EmptyString => false
  | String _ s' => str_contains_str p s'
  end.

(** [s.split_once(c)] *)
Fixpoint split_once (c : ascii) (s : string) : option (string * string) :=
  match s with
  | EmptyString => None
  | String a s' =>
      if Ascii.eqb a c then Some (EmptyString, s')
      else match split_once c s' with
           | Some (l, r) => Some (String a l, r)
           | None => None
           end
  end.

(** [s.trim_start_matches(c)] *)
Fixpoint trim_start_matches (c : ascii) (s : string) : string :=
  match s with
  | EmptyString => EmptyString
  | String a s' => if Ascii.eqb a c then trim_start_matches c s' else s
  end.

(** [s[0..n]] and [s[n..]]; the sources only slice inside the string. *)
Fixpoint str_take (n : nat) (s : string) : string :=
  match n, s with
  | 0, _ => EmptyString
  | S n', String a s' => String a (str_take n' s')
  | S _, EmptyString => EmptyString
  end.

Fixpoint str_drop (n : nat) (s : string) : string :=
  match n, s with
  | 0, _ => s
  | S n', String _ s' => str_drop n' s'
  | S _, EmptyString => EmptyString
  end.

(** [s.replace(p, r)] for a non-empty pattern: non-overlapping occurrences from
    the left.  Every round drops at least one byte, so [S (length s)] rounds
    are enough. *)
Fixpoint str_replace_fuel (fuel : nat) (p r s : string) : string :=
  match fuel with
  | 0 => s
  | S fuel' =>
      match strip_prefix p s with
      | Some rest => String.append r (str_replace_fuel fuel' p r rest)
      | None =>
          match s with
          | EmptyString => EmptyString
          | String a s' => String a (str_replace_fuel fuel' p r s')
          end
      end
  end.

Definition str_replace (p r s : string) : string :=
  str_replace_fuel (S (String.length s)) p r s.

(** [xs.join(sep)] *)
Fixpoint str_join (sep : string) (xs : list string) : string :=
  match xs with
  | [] => EmptyString
  | [x] => x
  | x :: xs' => String.append x (String.append sep (str_join sep xs'))
  end.

(** [s.split(c)] *)
Fixpoint split_on (c : ascii) (s : string) : list string :=
  match s with
  | EmptyString => [EmptyString]
  | String a s' =>
      match split_on c s' with
      | part :: parts =>
          if Ascii.eqb a c then EmptyString :: part :: parts else String a part :: parts
      | [] => []
      end
  end.

(** [s.find(c)], [s.rfind(c)] *)
Fixpoint find_char (c : ascii) (s : string) : option nat :=
  match s with
  | EmptyString => None
  | String a s' => if Ascii.eqb a c then Some 0 else S <$> find_char c s'
  end.

Fixpoint rfind_char (c : ascii) (s : string) : option nat :=
  match s with
  | EmptyString => None
  | String a s' =>
      match rfind_char c s' with
      | Some n => Some (S n)
      | None => if Ascii.eqb a c then Some 0 else None
      end
  end.

(** [s.split_once(p)] for a string pattern. *)
Fixpoint split_once_str (p s : string) : option (string * string) :=
  match strip_prefix p s with
  | Some rest => Some (EmptyString, rest)
  | None =>
      match s with
      | EmptyString => None
      | String a s' =>
          match split_once_str p s' with
          | Some (l, r) => Some (String a l, r)
          | None => None
          end
      end
  end.

(** [s.strip_suffix(p)], [s.ends_with(p)] *)
Definition strip_suffix (p s : string) : option string :=
  let n := String.length s - String.length p in
  if decide (s = String.append (str_take n s) p) then Some (str_take n s) else None.

Definition ends_with (p s : string) : bool :=
  match strip_suffix p s with Some _ => true | None => false end.

(** [s.trim_start_matches(p)] and [s.trim_end_matches(p)] for a non-empty string
    pattern; every round shortens the string. *)
Fixpoint trim_matches_fuel (strip : string → option string) (fuel : nat) (s : string) : string :=
  match fuel with
  | 0 => s
  | S fuel' => match strip s with Some s' => trim_matches_fuel strip fuel' s' | None => s end
  end.

Definition trim_start_str (p s : string) : string :=
  trim_matches_fuel (strip_prefix p) (String.length s) s.

Definition trim_end_str (p s : string) : string :=
  trim_matches_fuel (strip_suffix p) (String.length s) s.

(** ASCII character classes. *)
Definition in_range (lo hi : ascii) (c : ascii) : bool :=
  (nat_of_ascii lo <=? nat_of_ascii c) && (nat_of_ascii c <=? nat_of_ascii hi).

Definition is_upper : ascii → bool := in_range "A" "Z".
Definition is_lower : ascii → bool := in_range "a" "z".
Definition is_digit : ascii → bool := in_range "0" "9".
Definition is_alpha (c : ascii) : bool := is_upper c || is_lower c.

(** [str::trim], of ASCII white space. *)
Definition is_space (c : ascii) : bool :=
  let n := nat_of_ascii c in Nat.eqb n 32 || ((9 <=? n) && (n <=? 13)).

Fixpoint trim_start_space (s : string) : string :=
  match s with
  | String c s' => if is_space c then trim_start_space s' else s
  | EmptyString => s
  end.

Definition str_rev (s : string) : string := string_of_list_ascii (rev (str_chars s)).

Definition str_trim (s : string) : string := str_rev (trim_start_space (str_rev (trim_start_space s))).

(** [s.rfind(p)] for a string pattern. *)
Fixpoint rfind_str (p s : string) : option nat :=
  match s with
  | EmptyString => if starts_with p EmptyString then Some 0 else None
  | String _ s' =>
      match rfind_str p s' with
      | Some n => Some (S n)
      | None => if starts_with p s then Some 0 else None
      end
  end.

(** The longest prefix of characters of a class, and what follows it. *)
Fixpoint span_while (P : ascii → bool) (s : string) : string * string :=
  match s with
  | EmptyString => (EmptyString, EmptyString)
  | String a s' =>
      if P a then let '(l, r) := span_while P s' in (String a l, r) else (EmptyString, s)
  end.

(** ** Machine integers *)

(** [n as u8] *)
Definition as_u8 (n : nat) : nat := n mod 256.

(** [n as u16]; also [u16] addition where overflow checks are off. *)
Definition as_u16 (n : nat) : nat := n mod N.to_nat 65536.
#[global] Arguments as_u16 : simpl never.

(** ** Automation *)

Create HintDb moon discriminated.
Create Rewrite HintDb moon.
#[export] Hint Constants Opaque : moon.

(** Split a successful [let?] chain in a hypothesis into its steps. *)
Ltac step_ok :=
  repeat match goal with
  | H : obind ?m _ = Ok _ |- _ =>
      let E := fresh "E" in
      destruct m eqn:E; cbn [obind] in H; [|discriminate H|discriminate H]
  | H : Ok _ = Ok _ |- _ => injection H as <-
  | H : Ok _ = Ok _ |- _ => injection H as ->
  | H : Ok _ = Ok _ |- _ => injection H as H
  | H : Err _ = Ok _ |- _ => discriminate H
  | H : OutOfFuel = Ok _ |- _ => discriminate H
  end.

(** Case analysis on the boolean tests of the goal and the hypotheses. *)
Ltac bool_cases :=
  repeat match goal with
  | H : (_ && _)%bool = true |- _ => apply andb_true_iff in H as [? ?]
  | H : (_ || _)%bool = false |- _ => apply orb_false_iff in H as [? ?]
  | H : negb _ = true |- _ => apply negb_true_iff in H
  | H : negb _ = false |- _ => apply negb_false_iff in H
  | H : Ascii.eqb _ _ = true |- _ => apply Ascii.eqb_eq in H
  | H : Ascii.eqb _ _ = false |- _ => apply Ascii.eqb_neq in H
  | H : String.eqb _ _ = true |- _ => apply String.eqb_eq in H
  | H : String.eqb _ _ = false |- _ => apply String.eqb_neq in H
  end.

(** ** Generic lemmas *)

Section Outcome.
Context {E A B S : Type}.
Implicit Types (m : outcome E A).

Lemma obind_Ok m (k : A → outcome E B) b :
  obind m k = Ok b ↔ ∃ a, m = Ok a ∧ k a = Ok b.
Proof. destruct m; naive_solver. Qed.

Lemma obind_assoc {C} m (k : A → outcome E B) (h : B → outcome E C) :
  obind (obind m k) h = obind m (λ a, obind (k a) h).
Proof. by destruct m. Qed.

Lemma ofold_app (f : S → A → outcome E S) s l1 l2 :
  ofold f s (l1 ++ l2) = (let? s' := ofold f s l1 in ofold f s' l2).
Proof.
  revert s. induction l1 as [|x l1 IH]; intros s; cbn; [done|].
  destruct (f s x); cbn; auto.
Qed.

Lemma ofold_ext (f g : S → A → outcome E S) l s : (∀ s x, f s x = g s x) → ofold f s l = ofold g s l.
Proof. intros Hfg. revert s. induction l as [|x l IH]; intros s; cbn; [done|]. rewrite Hfg. by destruct (g s x); cbn. Qed.

Lemma obind_returns m (k : A → outcome E B) :
  m ≠ OutOfFuel → (∀ a, k a ≠ OutOfFuel) → obind m k ≠ OutOfFuel.
Proof. intros Hm Hk. destruct m; cbn; [apply Hk|done..]. Qed.

Lemma ofold_returns (f : S → A → outcome E S) s l :
  (∀ s x, f s x ≠ OutOfFuel) → ofold f s l ≠ OutOfFuel.
Proof.
  intros Hf. revert s. induction l as [|x l IH]; intros s; cbn; [done|].
  pose proof (Hf s x). destruct (f s x); cbn; [apply IH|done..].
Qed.

(** An invariant of the loop body is an invariant of the loop. *)
Lemma ofold_ind (I : S → Prop) (f : S → A → outcome E S) s l s' :
  (∀ t x t', x ∈ l → I t → f t x = Ok t' → I t') →
  I s → ofold f s l = Ok s' → I s'.
Proof.
  revert s. induction l as [|x l IH]; intros s Hf Hs Heq; cbn in Heq.
  - by simplify_eq.
  - step_ok. eapply IH; [|eapply Hf; [left|exact Hs|exact E0]|exact Heq].
    intros. eapply Hf; [by right|eauto..].
Qed.

(** An error of a fold is the error of one of its steps. *)
Lemma ofold_Err (f : S → A → outcome E S) s l e :
  ofold f s l = Err e → ∃ t x, x ∈ l ∧ f t x = Err e.
Proof.
  revert s. induction l as [|x l IH]; intros s; cbn; [done|]. destruct (f s x) as [s'|e'|] eqn:Hx; cbn; [|intros [= ->]|done].
  - intros (t & y & ? & ?)%IH. exists t, y. split; [by right|done].
  - exists s, x. split; [by left|done].
Qed.

Lemma omap_list_Ok (f : A → outcome E B) l ys :
  omap_list f l = Ok ys ↔ Forall2 (λ x y, f x = Ok y) l ys.
Proof.
  revert ys. induction l as [|x l IH]; intros ys; cbn.
  - split; [by intros [= <-]|by inversion 1].
  - split.
    + intros H. step_ok. constructor; [done|]. by apply IH.
    + inversion 1 as [|? y ? ys' Hx Hl]; subst.
      rewrite Hx; cbn. by rewrite (proj2 (IH ys') Hl).
Qed.

Lemma omap_list_total (f : A → outcome E B) l :
  (∀ x, x ∈ l → f x ≠ OutOfFuel) → omap_list f l ≠ OutOfFuel.
Proof.
  induction l as [|x l IH]; intros Hf; cbn; [done|]. pose proof (Hf x ltac:(by left)).
  destruct (f x); cbn; [|done..]. assert (omap_list f l ≠ OutOfFuel) by (apply IH; intros; apply Hf; by right).
  by destruct (omap_list f l).
Qed.

Lemma omap_list_is_ok (f : A → outcome E B) l :
  (∀ x, x ∈ l → ∃ y, f x = Ok y) → ∃ ys, omap_list f l = Ok ys.
Proof.
  induction l as [|x l IH]; intros Hf; cbn; [eauto|]. destruct (Hf x ltac:(by left)) as [y ->].
  destruct IH as [ys ->]; [intros; apply Hf; by right|]. cbn. eauto.
Qed.

Lemma omap_list_Err (f : A → outcome E B) l e :
  omap_list f l = Err e → ∃ x, x ∈ l ∧ f x = Err e.
Proof.
  induction l as [|x l IH]; cbn; [done|]. destruct (f x) as [y|e'|] eqn:Hx; cbn; [|intros [= ->]|done].
  - destruct (omap_list f l); cbn; [done| |done]. intros [= ->].
    destruct IH as (z & Hz & ?); [done|]. exists z. split; [by right|done].
  - exists x. split; [by left|done].
Qed.
End Outcome.

(** *** Strings *)

Lemma str_append_nil_r s : String.append s EmptyString = s.
Proof. induction s as [|a s IH]; cbn; [done|by rewrite IH]. Qed.

Lemma str_append_assoc a b c :
  String.append (String.append a b) c = String.append a (String.append b c).
Proof. induction a as [|x a IH]; cbn; [done|by rewrite IH]. Qed.

Lemma str_append_length a b :
  String.length (String.append a b) = String.length a + String.length b.
Proof. induction a as [|x a IH]; cbn; [done|by rewrite IH]. Qed.

Lemma str_chars_append a b :
  str_chars (String.append a b) = str_chars a ++ str_chars b.
Proof. unfold str_chars. induction a as [|x a IH]; cbn; [done|by rewrite IH]. Qed.

Lemma str_contains_append c a b :
  str_contains c (String.append a b) = str_contains c a || str_contains c b.
Proof. unfold str_contains. by rewrite str_chars_append, existsb_app. Qed.

Lemma str_contains_cons c x s :
  str_contains c (String x s) = Ascii.eqb c x || str_contains c s.
Proof. done. Qed.

Lemma str_all_cons P x s : str_all P (String x s) = P x && str_all P s.
Proof. done. Qed.

Lemma str_all_not_contains P c s :
  P c = false → str_all P s = true → str_contains c s = false.
Proof.
  intros Hc. induction s as [|x s IH]; [done|].
  rewrite str_all_cons, str_contains_cons. intros ?; bool_cases.
  rewrite IH by done. destruct (Ascii.eqb_spec c x) as [->|]; [congruence|done].
Qed.

Lemma strip_prefix_cons a p b s :
  strip_prefix (String a p) (String b s) =
  if Ascii.eqb a b then strip_prefix p s else None.
Proof. done. Qed.

Lemma strip_prefix_nil s : strip_prefix EmptyString s = Some s.
Proof. by destruct s. Qed.

Lemma strip_prefix_Some p s r :
  strip_prefix p s = Some r ↔ s = String.append p r.
Proof.
  revert s. induction p as [|a p IH]; intros s.
  - rewrite strip_prefix_nil. cbn. split; congruence.
  - destruct s as [|b s]; [by split|]. rewrite strip_prefix_cons. cbn.
    destruct (Ascii.eqb_spec a b) as [->|Hne].
    + rewrite IH. split; congruence.
    + split; congruence.
Qed.

Lemma strip_prefix_append p s : strip_prefix p (String.append p s) = Some s.
Proof. by apply strip_prefix_Some. Qed.

Lemma trim_start_matches_id c s :
  strip_prefix (String c EmptyString) s = None → trim_start_matches c s = s.
Proof.
  destruct s as [|a s]; [done|]. rewrite strip_prefix_cons, strip_prefix_nil. cbn.
  destruct (Ascii.eqb_spec c a), (Ascii.eqb_spec a c); congruence.
Qed.

Lemma split_once_Some c s l r :
  split_once c s = Some (l, r) →
  s = String.append l (String c r) ∧ str_contains c l = false.
Proof.
  revert l. induction s as [|a s IH]; intros l; cbn; [done|].
  destruct (Ascii.eqb_spec a c) as [->|Hne]; [by intros [= <- <-]|].
  destruct (split_once c s) as [[l' r']|] eqn:E; [|done].
  intros [= <- <-]. destruct (IH l' eq_refl) as [-> Hl].
  split; [done|]. rewrite str_contains_cons, Hl.
  destruct (Ascii.eqb_spec c a); [congruence|done].
Qed.

Lemma split_once_append c l r :
  str_contains c l = false →
  split_once c (String.append l (String c r)) = Some (l, r).
Proof.
  induction l as [|a l IH]; cbn.
  - by rewrite Ascii.eqb_refl.
  - rewrite str_contains_cons. intros ?; bool_cases.
    destruct (Ascii.eqb_spec a c); [congruence|]. by rewrite IH.
Qed.

Lemma split_once_None c s : split_once c s = None ↔ str_contains c s = false.
Proof.
  induction s as [|a s IH]; cbn; [done|]. rewrite str_contains_cons.
  destruct (Ascii.eqb_spec a c) as [->|Hne].
  - by rewrite Ascii.eqb_refl.
  - destruct (Ascii.eqb_spec c a); [congruence|]. cbn.
    destruct (split_once c s) as [[??]|]; naive_solver.
Qed.

Lemma str_take_append l r : str_take (String.length l) (String.append l r) = l.
Proof. induction l as [|a l IH]; cbn; [by destruct r|by rewrite IH]. Qed.

Lemma str_drop_append l r : str_drop (String.length l) (String.append l r) = r.
Proof. induction l as [|a l IH]; cbn; [by destruct r|by rewrite IH]. Qed.

Lemma str_take_length n s : n ≤ String.length s → String.length (str_take n s) = n.
Proof.
  revert s. induction n as [|n IH]; intros [|a s]; cbn; try lia.
  intros. rewrite IH; lia.
Qed.

Lemma str_take_append_le n l r :
  n ≤ String.length l → str_take n (String.append l r) = str_take n l.
Proof.
  revert l. induction n as [|n IH]; intros [|a l]; cbn; try lia; try done.
  intros. rewrite IH; [done|lia].
Qed.

#[export] Hint Rewrite str_append_nil_r str_append_length str_chars_append
  str_contains_append : moon.

(** *** Lists and sets *)

(** A list without repeated keys has one element per key. *)
Lemma NoDup_fmap_inj {A B} (f : A → B) l x y :
  NoDup (f <$> l) → x ∈ l → y ∈ l → f x = f y → x = y.
Proof.
  intros Hnd (i & Hi)%list_elem_of_lookup (j & Hj)%list_elem_of_lookup Heq.
  assert (i = j) as ->; [|congruence].
  eapply NoDup_lookup; [exact Hnd|by rewrite list_lookup_fmap, Hi|].
  rewrite list_lookup_fmap, Hj. cbn. by rewrite Heq.
Qed.

Lemma list_to_set_size_le `{Countable A} (l : list A) :
  size (list_to_set l : gset A) ≤ length l.
Proof.
  induction l as [|x l IH]; cbn; [by rewrite size_empty|].
  rewrite size_union_alt, size_singleton.
  assert (size ((list_to_set l : gset A) ∖ {[x]}) ≤ size (list_to_set l : gset A))
    by (apply subseteq_size; set_solver). lia.
Qed.

(** ** Sizes and sums *)

(** Sizes of sets. *)
Section SetSizes.
Context `{Countable A} {B : Type} `{Countable B}.

Lemma size_union_le (X Y : gset A) : size (X ∪ Y) ≤ size X + size Y.
Proof.
  rewrite size_union_alt. pose proof (subseteq_size (Y ∖ X) Y ltac:(set_solver)). lia.
Qed.

Lemma size_list_to_set_le (l : list A) : size (list_to_set l : gset A) ≤ length l.
Proof.
  induction l as [|x l IH]; [done|]. rewrite list_to_set_cons, length_cons.
  pose proof (size_union_alt {[x]} (list_to_set l : gset A)) as Hs.
  rewrite size_singleton in Hs.
  pose proof (subseteq_size (list_to_set l ∖ {[x]} : gset A) (list_to_set l) ltac:(set_solver)). lia.
Qed.
End SetSizes.

Lemma size_set_map_le `{Countable A, Countable B} (f : A → B) (X : gset A) :
  size (set_map f X : gset B) ≤ size X.
Proof.
  unfold set_map. etrans; [apply size_list_to_set_le|]. by rewrite length_fmap.
Qed.

Lemma sum_list_with_le {A} (f f' : A → nat) l :
  (∀ i, i ∈ l → f' i ≤ f i) → sum_list_with f' l ≤ sum_list_with f l.
Proof.
  induction l as [|y l IH]; cbn; [done|]. intros Hle.
  pose proof (Hle y ltac:(by left)). assert (sum_list_with f' l ≤ sum_list_with f l); [|lia].
  apply IH. intros i Hi. apply Hle. by right.
Qed.

Lemma sum_list_with_lt {A} (f f' : A → nat) l x k :
  (∀ i, i ∈ l → f' i ≤ f i) → x ∈ l → f' x + k ≤ f x →
  sum_list_with f' l + k ≤ sum_list_with f l.
Proof.
  intros Hle Hx Hk. induction l as [|y l IH]; [by apply not_elem_of_nil in Hx|]. cbn.
  pose proof (Hle y ltac:(by left)). apply elem_of_cons in Hx as [->|Hx].
  - assert (sum_list_with f' l ≤ sum_list_with f l); [|lia].
    apply sum_list_with_le. intros i Hi. apply Hle. by right.
  - specialize (IH (λ i Hi, Hle i (list_elem_of_further _ _ _ Hi)) Hx). lia.
Qed.
