(* ===== verification/Errors.v ===== *)
(** * Errors

The error enumerations of the modelled crates, and [Report], the type
[miette::Report] that every fallible function of moon returns its errors in.
Errors of code outside the repository (an invalid [Id], a plugin call, a file
system call) are the constructor [Foreign], which carries only a message. *)

From S2P Require Import Prelude.

(** [crates/target/src/target_error.rs] *)
Inductive TargetError : Type :=
| InvalidFormat (value : string)
| NoDepsInRunContext
| NoSelfInRunContext
| ProjectScopeRequired (id : string)
| TaskScopeRequired (id : string)
| TagNotValidForDefaultProject (value : string)
| TooWild.

(** [crates/action-graph/src/action_graph_error.rs] *)
Inductive ActionGraphError : Type :=
| CycleDetected (labels : string)
| InvalidJobIndex (index total : nat)
| InvalidPlanJobs
| MissingToolchainRequirement (id dep_id : string)
| MismatchedPlanJobTotals (plan_total total : nat)
| AG_WouldCycle (source_action target_action : string).

(** [crates/project-graph/src/project_graph_error.rs] *)
Inductive ProjectGraphError : Type :=
| NoDefaultProject
| NoDefaultProjectForTask (task_id : string)
| InvalidDefaultId (id : string)
| MissingFromPath (dir : string)
| UnconfiguredID (id : string)
| PG_WouldCycle (source_id target_id : string).

(** [crates/project/src/project_error.rs] *)
Inductive ProjectError : Type :=
| UnknownFileGroup (group_id project_id : string)
| UnknownTask (task_id project_id : string).

(** [crates/query/src/query_error.rs]; what the parser reports is a message. *)
Inductive QueryError : Type :=
| EmptyInput
| LogicalOperatorMismatch
| UnknownField (field : string)
| UnknownFieldValue (field value : string)
| UnsupportedLikeOperator (field : string)
| ParseFailure (message : string).

(** [LayerType] ([config/src/project_config.rs]) *)
Inductive LayerType : Type :=
| Application | Automation | Configuration | Library | Scaffolding | Tool
| UnknownLayer.

(** [crates/project-constraints/src/lib.rs] *)
Inductive ProjectConstraintsError : Type :=
| InvalidLayerRelationship (source_id : string) (source_layer : LayerType)
    (dep_id : string) (dep_layer : LayerType) (allowed : list LayerType)
| InvalidTagRelationship (source_id : string) (source_tag : string) (dep_id : string)
    (allowed : list string).

(** [crates/task-builder/src/tasks_builder_error.rs]: with the identifiers of the
    targets. *)
Inductive TasksBuilderError : Type :=
| InvalidCommandSyntax (task command position : string)
| UnknownExtendsSource (source_id target_id : string)
| UnknownProjectInput (dep task : string)
| UnsupportedCommandSyntax (task : string)
| AllowFailureDepRequirement (dep task : string)
| RunInCiDepRequirement (dep task : string)
| PersistentDepRequirement (dep task : string)
| UnknownDepTarget (dep task : string)
| UnknownDepTargetParentScope (dep task : string)
| UnknownDepTargetTagScope (dep task : string)
| UnsupportedTargetScopeInDeps (dep task : string).

(** [crates/file-group/src/file_group_error.rs] *)
Inductive FileGroupError : Type :=
| MissingGlobs (group : string)
| NoTokens (group : string).

(** [crates/env-var/src/dotenv_error.rs]: a failure with the error it reports. *)
Inductive DotEnvError : Type :=
| EmptyKey
| InvalidKey (key : string)
| InvalidKeyPrefix (key : string)
| MissingAssignment
| DotEnvParseFailure (line : nat) (error : DotEnvError) (path : string).

(** [crates/task-expander/src/token_expander_error.rs] *)
Inductive TokenExpanderError : Type :=
| InvalidTokenIndex (target token index : string)
| InvalidTokenIndexReference (target token : string)
| InvalidTokenScope (target token scope : string)
| MissingInIndex (index : N) (target token : string)
| MissingOutIndex (index : N) (target token : string)
| UnknownToken (token : string).

(** [crates/task-graph/src/task_graph_error.rs] *)
Inductive TaskGraphError : Type :=
| TG_WouldCycle (source_target target_target : string).

(** [crates/workspace/src/workspace_builder_error.rs] *)
Inductive WorkspaceBuilderError : Type :=
| DuplicateProjectId (id old_source new_source : string)
| MissingProjectAtSource (source : string).

(** [crates/hash/src/hash_error.rs] *)
Inductive HashError : Type :=
| InvalidContentHash (hash : string).

(** [crates/cas/src/cas_error.rs] *)
Inductive CasError : Type :=
| CasNotFound (hash : string)
| IntegrityMismatch (expected actual : string).

(** [crates/manifest/src/manifest_error.rs] *)
Inductive ManifestError : Type :=
| OutputSymlinkOutsideOfWorkspace (output target : string)
| OutputFileOutsideOfWorkspace (output : string).

(** [crates/process/src/process_error.rs] *)
Inductive ProcessError : Type :=
| ExitNonZero (bin status : string) (code : option Z)
| ExitNonZeroWithOutput (bin status : string) (code : option Z) (output : string).

(** [crates/task-runner/src/task_runner_error.rs] *)
Inductive TaskRunnerError : Type :=
| RunFailed (target : string) (error : ProcessError)
| FingerprintCheckFailed (target script : string) (error : ProcessError)
| RequirementCheckFailed (target script : string) (error : ProcessError)
| MissingDependencyHash (dep_target target : string)
| MissingOutputs (target : string)
| OutputFileNotDeclared (target output : string).

(** [miette::Report] *)
Inductive Report : Type :=
| RTarget (e : TargetError)
| RActionGraph (e : ActionGraphError)
| RProjectGraph (e : ProjectGraphError)
| RProject (e : ProjectError)
| RQuery (e : QueryError)
| RProjectConstraints (e : ProjectConstraintsError)
| RTasksBuilder (e : TasksBuilderError)
| RTaskGraph (e : TaskGraphError)
| RFileGroup (e : FileGroupError)
| RDotEnv (e : DotEnvError)
| RTokenExpander (e : TokenExpanderError)
| RWorkspaceBuilder (e : WorkspaceBuilderError)
| RHash (e : HashError)
| RCas (e : CasError)
| RManifest (e : ManifestError)
| RTaskRunner (e : TaskRunnerError)
| Foreign (message : string).

(** [miette::Result<A>] *)
Abbreviation result := (outcome Report).

(** ** Methods of shared objects

[stateful S A]: a fallible method that reads and writes the state [S] of an
object others have access to as well, such as a cache; what it wrote stays
when it fails. *)
Definition stateful (S A : Type) : Type := S → result A * S.

#[export] Instance stateful_ret {S} : MRet (stateful S) := λ A a s, (Ok a, s).
#[export] Instance stateful_bind {S} : MBind (stateful S) := λ A B f m s,
  match m s with
  | (Ok a, s') => f a s'
  | (Err e, s') => (Err e, s')
  | (OutOfFuel, s') => (OutOfFuel, s')
  end.

(** A fallible computation that does not touch the state. *)
Definition pure_result {S A} (r : result A) : stateful S A := λ s, (r, s).

(** [l.iter().map(f).collect::<Result<Vec<_>, _>>()] *)
Fixpoint stateful_map {S A B} (f : A → stateful S B) (l : list A) : stateful S (list B) :=
  match l with
  | [] => mret []
  | x :: l' => y ← f x; ys ← stateful_map f l'; mret (y :: ys)
  end.

(** What a lookup that panics when there is no entry stands for. *)
Definition index_or_panic {A} (o : option A) : result A := ok_or o (Foreign "no entry found for key").

(** [m] returns [r] in every state that satisfies the invariant [I], and keeps
    it. *)
Definition returns {S A} (I : S → Prop) (m : stateful S A) (r : result A) : Prop :=
  ∀ s, I s → (m s).1 = r ∧ I (m s).2.

Section Returns.
Context {S : Type} (I : S → Prop).

Lemma returns_bind {A B} (m : stateful S A) r (k : A → stateful S B) (h : A → result B) :
  returns I m r → (∀ a, r = Ok a → returns I (k a) (h a)) →
  returns I (m ≫= k) (let? a := r in h a).
Proof.
  intros Hm Hk s Hs. destruct (Hm s Hs) as [<- Hs']. unfold mbind, stateful_bind.
  destruct (m s) as [[a|e|] s'] eqn:Hms; [by apply Hk|done..].
Qed.

Lemma returns_pure {A} (r : result A) : returns I (pure_result r) r.
Proof. by intros s Hs. Qed.

Lemma returns_ret {A} (a : A) : returns I (mret a) (Ok a).
Proof. by intros s Hs. Qed.

Lemma returns_map {A B} (f : A → stateful S B) (h : A → result B) l :
  (∀ x, x ∈ l → returns I (f x) (h x)) → returns I (stateful_map f l) (omap_list h l).
Proof.
  intros Hf. induction l as [|x l IH]; cbn; [apply returns_ret|].
  apply returns_bind; [apply Hf; by left|]. intros y _.
  apply returns_bind; [apply IH; intros; apply Hf; by right|]. intros ys _. apply returns_ret.
Qed.
End Returns.
