(* ===== verification/FileSystem.v ===== *)
(** * Paths and the file system ([crates/common/src/path.rs], [crates/blob/src/perms.rs])

Paths as lists of components, the path helpers of [moon_common], and the file
system that the cache crates read and write: a map from paths to files and
symbolic links. *)

From S2P Require Import Prelude Errors.

(** ** Paths

A [std::path::Path] is the list of its components: ["/"] for the root, ["."]
for the current directory, [".."] for the parent directory. *)
Abbreviation Path := (list string).

Definition significant (part : string) : Prop := part ≠ ""%string ∧ part ≠ "."%string.

#[export] Instance significant_dec part : Decision (significant part).
Proof. unfold significant. apply _. Defined.

(** [Path::new(s).components()] on Unix: empty components and [.] are dropped,
    except for a [.] at the start. *)
Definition path_components (s : string) : Path :=
  match split_on "/" s with
  | part :: ((_ :: _) as parts) =>
      if decide (part = ""%string) then "/"%string :: filter significant parts
      else if decide (part = "."%string) then "."%string :: filter significant parts
      else filter significant (part :: parts)
  | [part] => if decide (part = ""%string) then [] else [part]
  | [] => []
  end.

(** [path.strip_prefix(prefix)] *)
Fixpoint path_strip_prefix (prefix path : Path) : option Path :=
  match prefix, path with
  | [], _ => Some path
  | a :: prefix', b :: path' => if decide (a = b) then path_strip_prefix prefix' path' else None
  | _ :: _, [] => None
  end.

(** [path.starts_with(prefix)] *)
Definition path_has_prefix (prefix path : Path) : bool :=
  match path_strip_prefix prefix path with Some _ => true | None => false end.

(** [path.relative_to(root)] of the crate [relative_path], the components of the
    result. *)
Class RelativeTo : Type := {
  relative_to : Path → Path → option Path;
}.

(** What it documents: a path below [root] is relative to it by the components
    that are left. *)
Class RelativeToLaws (R : RelativeTo) : Prop := {
  relative_to_below : ∀ root path rest, path_strip_prefix root path = Some rest →
    relative_to path root = Some rest;
}.


(** [path.is_absolute()], [path.has_root()]: the same on Unix. *)
Definition is_absolute (path : Path) : bool :=
  match path with part :: _ => String.eqb part "/" | [] => false end.

(** [path.push(component)] *)
Definition path_push (path : Path) (part : string) : Path :=
  if decide (part = "/"%string) then ["/"%string] else path ++ [part].

(** [path.parent()], and [path.pop()], which does nothing where there is none. *)
Definition path_parent (path : Path) : option Path :=
  match reverse path with
  | part :: rest => if decide (part = "/"%string) then None else Some (reverse rest)
  | [] => None
  end.

Definition path_pop (path : Path) : Path := default path (path_parent path).

(** [path.display()] *)
Definition path_display (path : Path) : string :=
  match path with
  | part :: rest =>
      if decide (part = "/"%string) then String.append part (str_join "/" rest)
      else str_join "/" path
  | [] => EmptyString
  end.

(** ** Cleaning a path ([clean_components]) *)

Record Cleaning : Type := mkCleaning {
  cleaned : Path;
  leading_parent_dots : nat;
  component_count : nat;
}.

(** One round of its loop. *)
Definition clean_component (s : Cleaning) (component : string) : Cleaning :=
  if decide (component = "."%string) then s
  else if decide (component = "/"%string) then
    mkCleaning (path_push (cleaned s) component) (leading_parent_dots s) (S (component_count s))
  else if decide (component = ".."%string) then
    if bool_decide (component_count s = 1) && is_absolute (cleaned s) then s
    else if decide (component_count s = leading_parent_dots s) then
      mkCleaning (path_push (cleaned s) "..") (S (leading_parent_dots s)) (S (component_count s))
    else
      mkCleaning (path_pop (cleaned s)) (leading_parent_dots s) (component_count s - 1)
  else
    mkCleaning (path_push (cleaned s) component) (leading_parent_dots s) (S (component_count s)).

Definition clean_components (path : Path) : Path :=
  let s := fold_left clean_component path (mkCleaning [] 0 0) in
  if decide (component_count s = 0) then path_push (cleaned s) "." else cleaned s.

(** [paths_are_equal] *)
Definition paths_are_equal (left right : Path) : bool :=
  bool_decide (clean_components left = clean_components right).

(** ** Files

Times are nanoseconds since the epoch.  Directories are implied by the files
below them; links in the directory part of a path are not followed. *)
Inductive Node : Type :=
| FileNode (bytes : string) (mode : Z) (mtime : Z)
| LinkNode (target : Path).

Abbreviation FileSystem := (gmap Path Node).

(** What a file operation sees: the files, the time, and the state [R] of the
    remote services. *)
Record World (R : Type) : Type := mkWorld {
  w_fs : FileSystem;
  w_now : Z;
  w_remote : R;
}.
#[global] Arguments mkWorld {R}.
#[global] Arguments w_fs {R}.
#[global] Arguments w_now {R}.
#[global] Arguments w_remote {R}.

Definition w_set_fs {R} (w : World R) (fs : FileSystem) : World R :=
  mkWorld fs (w_now w) (w_remote w).

(** [path.is_dir()], for a path that is no link. *)
Definition dir_at (fs : FileSystem) (path : Path) : bool :=
  existsb (λ other,
    path_has_prefix path other && negb (bool_decide (other = path))) (map_to_list fs).*1.

(** What a link at [path] stands for: a relative target starts from its directory. *)
Definition link_target (path target : Path) : Path :=
  if is_absolute target then target
  else clean_components (default [] (path_parent path) ++ target).

(** The path that a chain of links ends in; after 40 of them the operating system
    gives up. *)
Fixpoint follow_links (fuel : nat) (fs : FileSystem) (path : Path) : option Path :=
  match fs !! path with
  | Some (LinkNode target) =>
      match fuel with 0 => None | S fuel' => follow_links fuel' fs (link_target path target) end
  | _ => Some path
  end.

Definition follow (fs : FileSystem) (path : Path) : option Path := follow_links 40 fs path.

(** The file that a path leads to. *)
Definition file_at (fs : FileSystem) (path : Path) : option (string * Z * Z) :=
  target ← follow fs path;
  match fs !! target with Some (FileNode bytes mode mtime) => Some (bytes, mode, mtime) | _ => None end.

(** [path.is_file()], [path.is_dir()], [path.is_symlink()], [path.exists()] *)
Definition is_file (fs : FileSystem) (path : Path) : bool :=
  match file_at fs path with Some _ => true | None => false end.

Definition is_dir (fs : FileSystem) (path : Path) : bool :=
  match follow fs path with Some target => dir_at fs target | None => false end.

Definition is_symlink (fs : FileSystem) (path : Path) : bool :=
  match fs !! path with Some (LinkNode _) => true | _ => false end.

Definition path_exists (fs : FileSystem) (path : Path) : bool := is_file fs path || is_dir fs path.

Definition not_found {A} (path : Path) : result A :=
  Err (Foreign (String.append "no such file: " (path_display path))).

Section Files.
Context {R : Type}.

(** [fs::read_file_bytes], [fs::metadata] *)
Definition read_file_bytes (path : Path) : stateful (World R) string := λ w,
  (match file_at (w_fs w) path with Some (bytes, _, _) => Ok bytes | None => not_found path end, w).

Definition fs_metadata (path : Path) : stateful (World R) (string * Z * Z) := λ w,
  (match file_at (w_fs w) path with Some file => Ok file | None => not_found path end, w).

(** The mode of a file that is created: [rw-r--r--]. *)
Definition default_mode : Z := 420.

(** [fs::write_file], and [fs::create_file] followed by [write_all]: through a
    link into the file it leads to. *)
Definition fs_write_file (path : Path) (bytes : string) : stateful (World R) unit := λ w,
  match follow (w_fs w) path with
  | Some target =>
      let mode := match w_fs w !! target with Some (FileNode _ mode _) => mode | _ => default_mode end in
      (Ok tt, w_set_fs w (<[target := FileNode bytes mode (w_now w)]> (w_fs w)))
  | None => (not_found path, w)
  end.

(** [fs::reflink_file]: the copy has the contents and the mode of its source. *)
Definition reflink_file (source dest : Path) : stateful (World R) unit := λ w,
  match file_at (w_fs w) source with
  | Some (bytes, mode, _) =>
      (Ok tt, w_set_fs w (<[dest := FileNode bytes mode (w_now w)]> (w_fs w)))
  | None => (not_found source, w)
  end.

(** [fs::remove_file], which accepts a file that does not exist, and
    [fs::remove], which also removes a directory. *)
Definition fs_remove_file (path : Path) : stateful (World R) unit := λ w,
  (Ok tt, w_set_fs w (delete path (w_fs w))).

Definition fs_remove (path : Path) : stateful (World R) unit := λ w,
  (Ok tt, w_set_fs w (filter (λ kv, path_has_prefix path kv.1 = false) (w_fs w))).

(** [file.set_modified], [file.set_permissions] on an open file. *)
Definition set_modified (path : Path) (mtime : Z) : stateful (World R) unit := λ w,
  match w_fs w !! path with
  | Some (FileNode bytes mode _) =>
      (Ok tt, w_set_fs w (<[path := FileNode bytes mode mtime]> (w_fs w)))
  | _ => (not_found path, w)
  end.

Definition set_permissions (path : Path) (mode : Z) : stateful (World R) unit := λ w,
  match w_fs w !! path with
  | Some (FileNode bytes _ mtime) =>
      (Ok tt, w_set_fs w (<[path := FileNode bytes mode mtime]> (w_fs w)))
  | _ => (not_found path, w)
  end.

(** [grant_owner_write_access] ([blob/src/perms.rs]) *)
Definition grant_owner_write_access (path : Path) : stateful (World R) unit := λ w,
  match fs_metadata path w with
  | (Ok (_, mode, _), w) => set_permissions path (Z.lor mode 128) w
  | (Err e, w) => (Err e, w)
  | (OutOfFuel, w) => (OutOfFuel, w)
  end.

(** [symlink]: refused where something exists. *)
Definition fs_symlink (target path : Path) : stateful (World R) unit := λ w,
  match w_fs w !! path with
  | Some _ => (Err (Foreign (String.append "file exists: " (path_display path))), w)
  | None => (Ok tt, w_set_fs w (<[path := LinkNode target]> (w_fs w)))
  end.
End Files.

(** ** Properties *)

(** A component that stays below where it starts. *)
Definition clean_part (part : string) : Prop :=
  part ≠ "/"%string ∧ part ≠ "."%string ∧ part ≠ ".."%string.

#[export] Instance clean_part_dec part : Decision (clean_part part).
Proof. unfold clean_part. apply _. Defined.

Lemma path_pop_snoc path part : part ≠ "/"%string → path_pop (path ++ [part]) = path.
Proof.
  intros. unfold path_pop, path_parent. rewrite reverse_snoc.
  rewrite decide_False by done. cbn. by rewrite reverse_involutive.
Qed.

(** A component that names a file or a directory. *)
Definition plain_part (part : string) : Prop :=
  clean_part part ∧ part ≠ ""%string ∧ str_contains "/" part = false.

#[export] Instance plain_part_dec part : Decision (plain_part part).
Proof. unfold plain_part. apply _. Defined.

Lemma plain_clean parts : Forall plain_part parts → Forall clean_part parts.
Proof. intros Hparts. eapply Forall_impl; [exact Hparts|]. by intros part [? _]. Qed.

(** The state of the loop of [clean_components] after the root and [rest]. *)
Lemma clean_absolute_loop rest :
  Forall (λ part, part ≠ "/"%string) rest →
  ∃ body, Forall clean_part body ∧
    fold_left clean_component rest (mkCleaning ["/"%string] 0 1) =
    mkCleaning ("/"%string :: body) 0 (S (length body)).
Proof.
  induction rest as [|part rest IH] using rev_ind; intros Hrest; [by exists []|].
  apply Forall_app in Hrest as [Hrest Hpart]. apply Forall_inv in Hpart.
  destruct (IH Hrest) as (body & Hbody & Heq). rewrite fold_left_app, Heq. cbn [fold_left].
  unfold clean_component. cbn [cleaned leading_parent_dots component_count].
  case_decide as Hdot; [by exists body|]. rewrite (decide_False (P := part = "/"%string)) by exact Hpart.
  case_decide as Hparent.
  - destruct body as [|b body _] using rev_ind; [by exists []|].
    apply Forall_app in Hbody as [Hbody Hb]. apply Forall_inv in Hb. exists body.
    rewrite length_app. cbn [length]. rewrite Nat.add_1_r. cbn [Nat.sub].
    rewrite bool_decide_eq_false_2 by lia. cbn [andb]. rewrite decide_False by lia.
    split; [done|]. f_equal.
    change ("/"%string :: body ++ [b]) with (("/"%string :: body) ++ [b]).
    apply path_pop_snoc. apply Hb.
  - exists (body ++ [part]). split; [|unfold path_push; rewrite decide_False by done; by rewrite length_app, Nat.add_comm].
    apply Forall_app. split; [done|]. by apply Forall_singleton.
Qed.

(** A cleaned absolute path has no [.] and no [..] left. *)
Lemma clean_absolute rest :
  Forall (λ part, part ≠ "/"%string) rest →
  ∃ body, Forall clean_part body ∧ clean_components ("/"%string :: rest) = "/"%string :: body.
Proof.
  intros Hrest. destruct (clean_absolute_loop rest Hrest) as (body & Hbody & Heq).
  exists body. split; [done|]. unfold clean_components. cbn [fold_left].
  change (clean_component (mkCleaning [] 0 0) "/") with (mkCleaning ["/"%string] 0 1).
  rewrite Heq. cbn [component_count]. by rewrite decide_False.
Qed.

(** A path that is clean already is left alone. *)
Lemma clean_plain body :
  Forall clean_part body → clean_components ("/"%string :: body) = "/"%string :: body.
Proof.
  intros Hbody. unfold clean_components. cbn [fold_left].
  change (clean_component (mkCleaning [] 0 0) "/") with (mkCleaning ["/"%string] 0 1).
  assert (fold_left clean_component body (mkCleaning ["/"%string] 0 1) =
    mkCleaning ("/"%string :: body) 0 (S (length body))) as ->; [|cbn; by rewrite decide_False].
  induction body as [|part body IH] using rev_ind; [done|].
  apply Forall_app in Hbody as [Hbody Hpart]. apply Forall_inv in Hpart as (? & ? & ?).
  rewrite fold_left_app, IH by done. cbn. unfold clean_component. rewrite !decide_False by done.
  unfold path_push. cbn. rewrite decide_False by done. by rewrite length_app, Nat.add_comm.
Qed.

Lemma path_strip_prefix_Some prefix path rest :
  path_strip_prefix prefix path = Some rest ↔ path = prefix ++ rest.
Proof.
  revert path. induction prefix as [|a prefix IH]; intros [|b path]; cbn; [naive_solver..|].
  destruct (decide (a = b)) as [->|]; [rewrite IH|]; naive_solver.
Qed.

Lemma path_has_prefix_true prefix path :
  path_has_prefix prefix path = true ↔ ∃ rest, path = prefix ++ rest.
Proof.
  unfold path_has_prefix. setoid_rewrite <- path_strip_prefix_Some.
  destruct (path_strip_prefix prefix path); naive_solver.
Qed.

Lemma file_at_file fs path bytes mode mtime :
  fs !! path = Some (FileNode bytes mode mtime) → file_at fs path = Some (bytes, mode, mtime).
Proof. intros E. unfold file_at, follow, follow_links. by rewrite E; cbn; rewrite E. Qed.
