(* ===== verification/PooledTasks.v ===== *)
(** * Pooled tasks ([crates/async-utils])

[run_pooled_tasks] spawns a future per input, at most [concurrency] at a time,
and hands their outputs to a consumer in input order, whatever order the
futures complete in. *)

From S2P Require Import Prelude Errors.

Section Pool.
Context {I O C : Type}.

(** [num_cpus::get()], and the choices of the executor: the position in the
    join set of the task that the [k]-th call of [join_next] returns. *)
Variables (concurrency : nat) (sched : nat → nat).

(** [on_input] makes the future of an input, represented by what it resolves
    to; [on_output] is the consumer, which threads its own state. *)
Variables (on_input : I → result (result O)) (on_output : C → O → result C).

Record pool : Type := mkPool {
  queue : list I;
  join_set : list (nat * result O);
  next_index : nat;
  flush_index : nat;
  completed : gmap nat O;
  consumer : C;
  joins : nat;
}.

(** The head of the loop body: start the next input, if there is one. *)
Definition spawn_next (p : pool) : result pool :=
  match queue p with
  | [] => Ok p
  | input :: queue' =>
      let? future := on_input input in
      Ok (mkPool queue' (join_set p ++ [(next_index p, future)]) (S (next_index p))
            (flush_index p) (completed p) (consumer p) (joins p))
  end.

(** [set.join_next().await] *)
Definition join_next (p : pool) : option (nat * result O * pool) :=
  let pos := sched (joins p) mod length (join_set p) in
  match join_set p !! pos with
  | None => None
  | Some (index, r) =>
      Some (index, r,
            mkPool (queue p) (delete pos (join_set p)) (next_index p)
              (flush_index p) (completed p) (consumer p) (S (joins p)))
  end.

(** [while let Some(output) = completed.remove(&flush_index)]: every round
    removes an entry. *)
Fixpoint flush (fuel flush_index : nat) (completed : gmap nat O) (c : C) :
  result (nat * gmap nat O * C) :=
  match fuel with
  | 0 => OutOfFuel
  | S fuel' =>
      match completed !! flush_index with
      | None => Ok (flush_index, completed, c)
      | Some output =>
          let? c := on_output c output in
          flush fuel' (S flush_index) (delete flush_index completed) c
      end
  end.

Fixpoint pool_loop (fuel : nat) (p : pool) : result C :=
  match fuel with
  | 0 => OutOfFuel
  | S fuel' =>
      let? p := spawn_next p in
      if (length (join_set p) <? concurrency) &&
         match queue p with [] => false | _ => true end
      then pool_loop fuel' p
      else
        match join_next p with
        | None => Ok (consumer p)
        | Some (index, r, p) =>
            let? output := r in
            let completed := <[index := output]> (completed p) in
            let? ' (flush_index, completed, c) :=
              flush (S (size completed)) (flush_index p) completed (consumer p) in
            pool_loop fuel'
              (mkPool (queue p) (join_set p) (next_index p) flush_index completed c
                 (joins p))
        end
  end.

(** Every round starts an input or ends a task, and there is one more to leave
    the loop. *)
Definition run_pooled_tasks (inputs : list I) (c : C) : result C :=
  pool_loop (S (2 * length inputs)) (mkPool inputs [] 0 0 ∅ c 0).

(** ** Specification: one input after the other *)

Definition run_one (c : C) (input : I) : result C :=
  let? future := on_input input in let? output := future in on_output c output.

Definition run_sequentially (inputs : list I) (c : C) : result C :=
  ofold run_one c inputs.

(** Some part of the computation does not return. *)
Definition diverges (inputs : list I) : Prop :=
  (∃ i, i ∈ inputs ∧ (on_input i = OutOfFuel ∨ on_input i = Ok OutOfFuel)) ∨
  (∃ c o, on_output c o = OutOfFuel).

(** What a run of the pool may return. *)
Definition pool_result (inputs : list I) (c0 : C) (r : result C) : Prop :=
  match r with
  | Ok c => run_sequentially inputs c0 = Ok c
  | Err _ => ∀ c, run_sequentially inputs c0 ≠ Ok c
  | OutOfFuel => diverges inputs ∧ ∀ c, run_sequentially inputs c0 ≠ Ok c
  end.

Record pool_inv (l : list I) (c0 : C) (p : pool) : Prop := {
  inv_next : next_index p ≤ length l;
  inv_flush : flush_index p ≤ next_index p;
  inv_queue : queue p = drop (next_index p) l;
  inv_set : ∀ i r, (i, r) ∈ join_set p →
    flush_index p ≤ i < next_index p ∧ ∃ x, l !! i = Some x ∧ on_input x = Ok r;
  inv_completed : ∀ i o, completed p !! i = Some o →
    flush_index p ≤ i < next_index p ∧ ∃ x, l !! i = Some x ∧ on_input x = Ok (Ok o);
  inv_covered : ∀ i, flush_index p ≤ i < next_index p →
    i ∈ (join_set p).*1 ∨ is_Some (completed p !! i);
  inv_nodup : NoDup (join_set p).*1;
  inv_disjoint : ∀ i, i ∈ (join_set p).*1 → completed p !! i = None;
  inv_consumer : run_sequentially (take (flush_index p) l) c0 = Ok (consumer p);
}.

Lemma run_sequentially_take l c0 k c x :
  run_sequentially (take k l) c0 = Ok c → l !! k = Some x →
  run_sequentially (take (S k) l) c0 = run_one c x.
Proof.
  intros Hk Hx. unfold run_sequentially in *.
  rewrite (take_S_r _ _ x), ofold_app, Hk by done. cbn. by destruct (run_one c x).
Qed.

(** An input whose own step fails makes the sequential run fail. *)
Lemma run_sequentially_fails l c0 i x :
  l !! i = Some x → (∀ c c', run_one c x ≠ Ok c') →
  ∀ c, run_sequentially l c0 ≠ Ok c.
Proof.
  intros Hx Hf c. rewrite <- (take_drop_middle l i x) by done.
  unfold run_sequentially. rewrite ofold_app.
  destruct (ofold run_one c0 (take i l)) as [c1| |]; cbn; try done.
  destruct (run_one c1 x) eqn:E; cbn; try done. by apply Hf in E.
Qed.

(** A failing prefix makes the whole run fail. *)
Lemma run_sequentially_prefix l c0 k :
  (∀ c, run_sequentially (take k l) c0 ≠ Ok c) → ∀ c, run_sequentially l c0 ≠ Ok c.
Proof.
  intros Hk c Hc. rewrite <- (take_drop k l) in Hc.
  unfold run_sequentially in *. rewrite ofold_app in Hc.
  destruct (ofold run_one c0 (take k l)) eqn:E; try done. by eapply Hk.
Qed.

(** Flushing keeps the invariant and leaves nothing to flush, or fails the way
    the sequential run does. *)
Lemma flush_spec l c0 fuel q js ni fi cm c j :
  pool_inv l c0 (mkPool q js ni fi cm c j) → size cm < fuel →
  match flush fuel fi cm c with
  | Ok (fi', cm', c') =>
      pool_inv l c0 (mkPool q js ni fi' cm' c' j) ∧ cm' !! fi' = None
  | Err _ => ∀ c, run_sequentially l c0 ≠ Ok c
  | OutOfFuel => diverges l ∧ ∀ c, run_sequentially l c0 ≠ Ok c
  end.
Proof.
  revert fi cm c. induction fuel as [|fuel IH]; intros fi cm c Hinv Hsize; cbn; [lia|].
  destruct (cm !! fi) as [o|] eqn:Ho; [|done].
  pose proof Hinv as [Hn Hf Hq Hset Hcm Hcov Hnd Hdis Hc]. cbn in *.
  destruct (Hcm _ _ Ho) as ([_ Hlt] & x & Hx & Hin).
  pose proof (run_sequentially_take _ _ _ _ _ Hc Hx) as Hnext.
  unfold run_one in Hnext. rewrite Hin in Hnext. cbn in Hnext.
  destruct (on_output c o) as [c'|e|] eqn:Hout; cbn.
  - apply IH; [|rewrite map_size_delete, Ho; assert (size cm ≠ 0); [|lia];
      apply map_size_non_empty_iff; intros ->; set_solver].
    constructor; cbn; try done; try lia.
    + intros i r Hi. destruct (Hset i r Hi) as (? & ?). split; [|done].
      assert (i ≠ fi); [|lia]. intros ->.
      rewrite Hdis in Ho by (apply list_elem_of_fmap; by exists (fi, r)). done.
    + intros i o' [Hne Hi]%lookup_delete_Some. destruct (Hcm i o' Hi). split; [lia|done].
    + intros i Hi. rewrite lookup_delete_ne by lia. apply Hcov. lia.
    + intros i Hi. apply lookup_delete_None. right. by apply Hdis.
  - apply (run_sequentially_prefix _ _ (S fi)). by rewrite Hnext.
  - split; [right; by exists c, o|].
    apply (run_sequentially_prefix _ _ (S fi)). by rewrite Hnext.
Qed.

#[local] Arguments flush : simpl never.

Lemma spawn_inv l c0 p :
  pool_inv l c0 p →
  match spawn_next p with
  | Ok p' =>
      pool_inv l c0 p' ∧ flush_index p' = flush_index p ∧ completed p' = completed p ∧
      (p' = p ∧ queue p = [] ∨
       length (queue p) = S (length (queue p')) ∧
       length (join_set p') = S (length (join_set p)))
  | Err _ => ∀ c, run_sequentially l c0 ≠ Ok c
  | OutOfFuel => diverges l ∧ ∀ c, run_sequentially l c0 ≠ Ok c
  end.
Proof.
  destruct p as [q js ni fi cm c j]. intros [Hn Hf Hq Hset Hcm Hcov Hnd Hdis Hc].
  cbn in *. unfold spawn_next; cbn. destruct q as [|x q]; [split_and!; auto|].
  { by constructor. }
  assert (l !! ni = Some x) as Hx.
  { rewrite <- (Nat.add_0_r ni), <- lookup_drop, <- Hq. done. }
  assert (q = drop (S ni) l) as Hq'.
  { rewrite (drop_S _ x) in Hq by done. congruence. }
  apply lookup_lt_Some in Hx as Hlt.
  destruct (on_input x) as [r|e|] eqn:Hin; cbn.
  - split; [|split_and!; try done; right; rewrite length_app; cbn; lia].
    constructor; cbn; try done; try lia.
    + intros i r' [Hi|[= -> ->]%list_elem_of_singleton]%elem_of_app.
      * destruct (Hset _ _ Hi). split; [lia|done].
      * split; [lia|eauto].
    + intros i o Hi. destruct (Hcm _ _ Hi). split; [lia|done].
    + intros i Hi. rewrite fmap_app, elem_of_app. cbn.
      destruct (decide (i = ni)) as [->|]; [left; right; set_solver|].
      destruct (Hcov i) as [?|?]; [lia|by left; left|by right].
    + rewrite fmap_app. apply NoDup_app. split_and!; [done| |apply NoDup_singleton].
      intros i ((i', r') & -> & Hi)%list_elem_of_fmap. cbn.
      rewrite list_elem_of_singleton. destruct (Hset _ _ Hi). lia.
    + intros i. rewrite fmap_app, elem_of_app. cbn.
      intros [?| ->%list_elem_of_singleton]; [by apply Hdis|].
      destruct (cm !! ni) eqn:E; [|done]. destruct (Hcm _ _ E). lia.
  - eapply run_sequentially_fails; [done|]. intros. unfold run_one. by rewrite Hin.
  - split; [left; exists x; split; [by eapply list_elem_of_lookup_2|by left]|].
    eapply run_sequentially_fails; [done|]. intros. unfold run_one. by rewrite Hin.
Qed.

(** With nothing queued or running, everything has been flushed. *)
Lemma pool_inv_done l c0 p :
  pool_inv l c0 p → completed p !! flush_index p = None →
  queue p = [] → join_set p = [] → run_sequentially l c0 = Ok (consumer p).
Proof.
  intros [Hn Hf Hq Hset Hcm Hcov Hnd Hdis Hc] Hfl Hq0 Hjs0.
  rewrite Hq0 in Hq. assert (length l ≤ next_index p).
  { apply (f_equal length) in Hq. rewrite length_drop in Hq. cbn in Hq. lia. }
  destruct (decide (flush_index p < next_index p)).
  - destruct (Hcov (flush_index p)) as [Hi|[o Ho]]; [lia| |congruence].
    rewrite Hjs0 in Hi. by apply not_elem_of_nil in Hi.
  - by rewrite take_ge in Hc by lia.
Qed.

(** Moving an output from the join set to the completed outputs. *)
Lemma join_inv l c0 p index o p' :
  pool_inv l c0 p → join_next p = Some (index, Ok o, p') →
  pool_inv l c0 (mkPool (queue p') (join_set p') (next_index p') (flush_index p')
    (<[index := o]> (completed p')) (consumer p') (joins p')).
Proof.
  destruct p as [q js ni fi cm c j]. intros [Hn Hf Hq Hset Hcm Hcov Hnd Hdis Hc].
  unfold join_next; cbn in *. set (pos := _ mod _).
  destruct (js !! pos) as [[i r]|] eqn:Hpos; [|done]. intros [= -> -> <-]. cbn.
  pose proof (list_elem_of_lookup_2 _ _ _ Hpos) as Hin.
  assert (js ≡ₚ (index, Ok o) :: delete pos js) as Hperm
    by by apply delete_Permutation.
  generalize dependent (delete pos js). intros js' Hperm.
  rewrite Hperm in Hnd. cbn in Hnd. apply NoDup_cons in Hnd as [Hni Hnd].
  destruct (Hset _ _ Hin) as (Hb & Hx).
  assert (∀ y, y ∈ js' → y ∈ js) as Hsub by (intros y; rewrite Hperm; set_solver).
  constructor; cbn; try done.
  - intros i r Hi. apply (Hset i r). auto.
  - intros i o' [[<- <-]|[? Hi]]%lookup_insert_Some; [done|by apply Hcm].
  - intros i Hi. destruct (decide (i = index)) as [->|].
    + right. by rewrite lookup_insert_eq.
    + rewrite lookup_insert_ne by done. destruct (Hcov i Hi) as [Hj|]; [|by right].
      left. rewrite Hperm in Hj. cbn in Hj. set_solver.
  - intros i Hi. rewrite lookup_insert_ne by (intros ->; done).
    apply Hdis. rewrite Hperm. cbn. by right.
Qed.

Lemma join_next_length p index r p' :
  join_next p = Some (index, r, p') →
  queue p' = queue p ∧ length (join_set p) = S (length (join_set p')) ∧
  (index, r) ∈ join_set p.
Proof.
  unfold join_next. destruct (_ !! _) as [[i r']|] eqn:E; [|done]. intros [= -> -> <-].
  split; [done|]. cbn. rewrite length_delete by eauto.
  apply lookup_lt_Some in E as ?. split; [lia|by eapply list_elem_of_lookup_2].
Qed.

Lemma join_next_None p : join_next p = None → join_set p = [].
Proof.
  unfold join_next. destruct (_ !! _) as [[i r']|] eqn:E; [done|].
  apply lookup_ge_None in E. destruct (join_set p) as [|x js] eqn:Hjs; [done|].
  pose proof (Nat.mod_upper_bound (sched (joins p)) (length (x :: js))). cbn in *. lia.
Qed.

Lemma pool_loop_spec l c0 fuel p :
  pool_inv l c0 p → completed p !! flush_index p = None →
  2 * length (queue p) + length (join_set p) < fuel →
  pool_result l c0 (pool_loop fuel p).
Proof.
  revert p. induction fuel as [|fuel IH]; intros p Hinv Hfl Hfuel; [lia|]. cbn.
  pose proof (spawn_inv _ _ _ Hinv) as Hsp.
  destruct (spawn_next p) as [p1|e|]; cbn; [|done..].
  destruct Hsp as (Hinv1 & Hfi & Hcm & Hlen).
  rewrite <- Hfi, <- Hcm in Hfl. clear Hinv Hfi Hcm.
  destruct (_ && _) eqn:Hcont.
  { bool_cases. apply IH; [done..|].
    destruct Hlen as [[-> Hq0]|[??]]; [by rewrite Hq0 in *|lia]. }
  destruct (join_next p1) as [[[index r] p2]|] eqn:Hj.
  2: { cbn. apply join_next_None in Hj as Hjs. apply pool_inv_done; [done..| |done].
       destruct Hlen as [[-> ?]|[_ Hl]]; [done|]. rewrite Hjs in Hl. done. }
  destruct (join_next_length _ _ _ _ Hj) as (Hq & Hjs & Hin).
  destruct (inv_set _ _ _ Hinv1 _ _ Hin) as (_ & x & Hx & Hon).
  assert (r = OutOfFuel → diverges l) as Hdiv.
  { intros ->. left. exists x. split; [by eapply list_elem_of_lookup_2|by right]. }
  assert ((∀ o, r ≠ Ok o) → ∀ c, run_sequentially l c0 ≠ Ok c) as Hfail.
  { intros Hr. eapply run_sequentially_fails; [done|]. intros c c'. unfold run_one.
    rewrite Hon. cbn. destruct r; naive_solver. }
  destruct r as [o|e|]; cbn; [|by apply Hfail|by auto].
  pose proof (flush_spec _ _ (S (size (<[index:=o]> (completed p2)))) _ _ _ _ _ _ _
    (join_inv _ _ _ _ _ _ Hinv1 Hj) ltac:(lia)) as Hflush.
  destruct (flush _ _ _ _) as [[[fi cm] c]|e|]; cbn; [|done..].
  destruct Hflush as [Hinv2 Hfl2]. apply IH; [done..|]. cbn.
  rewrite Hq. destruct Hlen as [[-> Hq0]|[??]]; [rewrite Hq0 in *; cbn in *|]; lia.
Qed.

Lemma pool_inv_start l c : pool_inv l c (mkPool l [] 0 0 ∅ c 0).
Proof. constructor; cbn; try done; try lia; first [set_solver|apply NoDup_nil_2]. Qed.

Lemma run_pooled_tasks_spec l c : pool_result l c (run_pooled_tasks l c).
Proof. apply pool_loop_spec; [apply pool_inv_start|done|cbn; lia]. Qed.
End Pool.

Lemma pool_result_Ok {I O C} (on_input : I → result (result O))
    (on_output : C → O → result C) inputs c r c' :
  pool_result on_input on_output inputs c r →
  r = Ok c' ↔ run_sequentially on_input on_output inputs c = Ok c'.
Proof.
  intros H. destruct r as [c1|e|]; cbn in H.
  - rewrite H. split; congruence.
  - split; [done|]. by intros ?%H.
  - split; [done|]. by intros ?%(proj2 H).
Qed.

(** For every concurrency limit and every order in which the futures
    complete, [run_pooled_tasks] succeeds exactly when handling the inputs one
    after the other does, and leaves the consumer in the same state: outputs
    are applied in input order, none lost and none repeated. *)
Theorem run_pooled_tasks_in_order {I O C} concurrency sched
    (on_input : I → result (result O)) (on_output : C → O → result C) inputs c c' :
  run_pooled_tasks concurrency sched on_input on_output inputs c = Ok c' ↔
  run_sequentially on_input on_output inputs c = Ok c'.
Proof.
  apply pool_result_Ok, run_pooled_tasks_spec.
Qed.

(** The loop of [run_pooled_tasks] ends within two rounds per input and one
    more, if every future resolves and the consumer returns: it does so with
    the consumer's state or with an error, and it only returns an error when
    handling the inputs one after the other fails too. *)
Theorem run_pooled_tasks_terminates {I O C} concurrency sched
    (on_input : I → result (result O)) (on_output : C → O → result C) inputs c :
  ¬ diverges on_input on_output inputs →
  (∃ c', run_pooled_tasks concurrency sched on_input on_output inputs c = Ok c') ∨
  (∃ e, run_pooled_tasks concurrency sched on_input on_output inputs c = Err e ∧
        ∀ c', run_sequentially on_input on_output inputs c ≠ Ok c').
Proof.
  intros Hdiv.
  pose proof (run_pooled_tasks_spec concurrency sched on_input on_output inputs c) as H.
  destruct (run_pooled_tasks _ _ _ _ _ _) as [c1|e|]; cbn in H; [by eauto..|].
  destruct H as [H _]. contradiction.
Qed.

(** Three inputs, two at a time, the later one always first. *)
Lemma run_pooled_tasks_terminates_witness :
  (∃ c', run_pooled_tasks 2 (λ _, 1) (λ n, Ok (Ok n)) (λ c o, Ok (c ++ [o])) [5; 6; 7] [] = Ok c') ∨
  (∃ e, run_pooled_tasks 2 (λ _, 1) (λ n, Ok (Ok n)) (λ c o, Ok (c ++ [o])) [5; 6; 7] [] = Err e ∧
        ∀ c', run_sequentially (λ n, Ok (Ok n)) (λ c o, Ok (c ++ [o])) [5; 6; 7] [] ≠ Ok c').
Proof.
  apply (run_pooled_tasks_terminates 2 (λ _, 1)).
  intros [(i & _ & [?|?])|(c & o & ?)]; discriminate.
Defined.
