(* ===== verification/Target.v ===== *)
(** * Targets ([crates/target])

[TargetProjectScope], [TargetTaskScope], [Target] and [TargetLocator]: the
parser of target strings, the accessors that slice the parsed string, and the
printers.  Two things come from outside the repository and are parameters
([IdSyntax]): the character class [ID_CHARS ID_SYMBOLS] of the [starbase_id]
crate, out of which the regular expression [TARGET_PATTERN] is built, and the
validation that [Id::new] performs. *)

From S2P Require Import Prelude Errors.

(** ** Identifiers (the [starbase_id] crate) *)

Class IdSyntax : Type := {
  (** a character of the class [[{ID_CHARS}{ID_SYMBOLS}]] *)
  id_char : ascii → bool;
  (** [Id::new(s).is_ok()] *)
  id_new : string → bool;
}.

(** What the code relies on, as documented ([website/docs/concepts/project.mdx]:
    alphabetic characters, [0-9], and the symbols underscore, dash, slash and
    dot): the punctuation of a target is not an identifier character, and a
    valid identifier is not empty and made of identifier characters, except
    that it may start with the [@] of an npm scope
    ([crates/common/tests/id_test.rs]). *)
Class IdLaws (I : IdSyntax) : Prop := {
  id_char_colon : id_char ":" = false;
  id_char_hash : id_char "#" = false;
  id_char_at : id_char "@" = false;
  id_new_chars : ∀ s, id_new s = true →
    ∃ c r, s = String c r ∧ (id_char c = true ∨ c = "@"%char) ∧
           str_all id_char r = true;
}.

(** ** Scopes ([target_scope.rs]) *)

Inductive TargetDependencyScope : Type :=
| Build | Development | Peer | Production.

Inductive TargetProjectScope : Type :=
| All
| Deps
| DepsOf (scope : TargetDependencyScope)
| PId
| OwnSelf
| PTag.

Inductive TargetTaskScope : Type :=
| TId
| TTag.

#[export] Instance TargetDependencyScope_eq_dec : EqDecision TargetDependencyScope.
Proof. solve_decision. Defined.
#[export] Instance TargetProjectScope_eq_dec : EqDecision TargetProjectScope.
Proof. solve_decision. Defined.
#[export] Instance TargetTaskScope_eq_dec : EqDecision TargetTaskScope.
Proof. solve_decision. Defined.

Section Target.
Context `{I : IdSyntax}.

(** [Id::new(id)?] *)
Definition id_check (id : string) : result unit :=
  if id_new id then Ok tt else Err (Foreign id).

(** [TargetProjectScope::parse] *)
Definition TargetProjectScope_parse (value : string) : result TargetProjectScope :=
  if decide (value = "") then Ok All
  else if decide (value = "^") then Ok Deps
  else if decide (value = "^build") then Ok (DepsOf Build)
  else if decide (value = "^dev" ∨ value = "^development") then Ok (DepsOf Development)
  else if decide (value = "^peer") then Ok (DepsOf Peer)
  else if decide (value = "^prod" ∨ value = "^production") then Ok (DepsOf Production)
  else if decide (value = "~") then Ok OwnSelf
  else match strip_prefix "#" value with
       | Some id => id_check id ;;? Ok PTag
       | None => id_check value ;;? Ok PId
       end.

(** [TargetTaskScope::parse] *)
Definition TargetTaskScope_parse (value : string) : result TargetTaskScope :=
  match strip_prefix "#" value with
  | Some id => id_check id ;;? Ok TTag
  | None => id_check value ;;? Ok TId
  end.

(** ** Targets ([target.rs]) *)

Record Target : Type := mkTarget {
  id : string;
  project : TargetProjectScope;
  task : TargetTaskScope;
  index : nat;  (* u8: position of the colon, for slicing *)
}.

(** The class [[A-Za-z@#_]] a project scope starts with. *)
Definition project_start (c : ascii) : bool :=
  let n := nat_of_ascii c in
  (65 <=? n) && (n <=? 90) || (97 <=? n) && (n <=? 122) ||
  Ascii.eqb c "@" || Ascii.eqb c "#" || Ascii.eqb c "_".

(** [TARGET_PATTERN.captures]: the optional group [project], a colon, and the
    group [task].  No class of the pattern contains a colon, so the colon is
    the first one of the string. *)
Definition project_group (p : string) : bool :=
  match p with
  | EmptyString => true (* the group is optional *)
  | String c r =>
      (project_start c && str_all id_char r) ||
      (Ascii.eqb c "^" &&
        bool_decide (r ∈ [""; "build"; "development"; "dev"; "peer";
                          "production"; "prod"]%string)) ||
      bool_decide (p = "~"%string)
  end.

Definition task_group (t : string) : bool :=
  let t := default t (strip_prefix "#" t) in
  bool_decide (t ≠ ""%string) && str_all id_char t.

Definition TARGET_PATTERN_captures (s : string) : option (string * string) :=
  match split_once ":" s with
  | Some (p, t) => if project_group p && task_group t then Some (p, t) else None
  | None => None
  end.

(** [Target::new] *)
Definition Target_new (project_id task_id : string) : result Target :=
  let id := String.append project_id (String ":" task_id) in
  let? p := map_err (λ _, RTarget (InvalidFormat id))
              (TargetProjectScope_parse project_id) in
  let? t := map_err (λ _, RTarget (InvalidFormat id))
              (TargetTaskScope_parse task_id) in
  Ok {| index := as_u8 (String.length project_id);
        project := p; task := t; id := id |}.

(** [Target::new_self] *)
Definition Target_new_self (task_id : string) : result Target :=
  let id := String.append "~:" task_id in
  let? t := map_err (λ _, RTarget (InvalidFormat id))
              (TargetTaskScope_parse task_id) in
  Ok {| index := 1; project := OwnSelf; task := t; id := id |}.

(** [Target::parse] *)
Definition Target_parse (target_id : string) : result Target :=
  if decide (target_id = ":"%string) then Err (RTarget TooWild)
  else if negb (str_contains ":" target_id) then Target_new_self target_id
  else match TARGET_PATTERN_captures target_id with
       | None => Err (RTarget (InvalidFormat target_id))
       | Some (project_id, task_id) => Target_new project_id task_id
       end.

(** [Target::parse_strict] *)
Definition Target_parse_strict (target_id : string) : result Target :=
  if negb (str_contains ":" target_id)
  then Err (RTarget (ProjectScopeRequired target_id))
  else Target_parse target_id.

End Target.

(** [Target::get_project_scope] *)
Definition get_project_scope (t : Target) : TargetProjectScope * string :=
  let project_str := str_take (index t) (id t) in
  match project t with
  | DepsOf scope => (DepsOf scope, trim_start_matches "^" project_str)
  | PId => (PId, project_str)
  | PTag => (PTag, trim_start_matches "#" project_str)
  | s => (s, EmptyString)
  end.

(** [Target::get_task_scope] *)
Definition get_task_scope (t : Target) : TargetTaskScope * string :=
  let value := str_drop (index t + 1) (id t) in
  match strip_prefix "#" value with
  | Some tag => (TTag, tag)
  | None => (TId, value)
  end.

(** [Target::get_project_id] *)
Definition get_project_id (t : Target) : result string :=
  let '(scope, value) := get_project_scope t in
  match scope with
  | PId => Ok value
  | _ => Err (RTarget (ProjectScopeRequired (id t)))
  end.

(** [Target::get_project_tag] *)
Definition get_project_tag (t : Target) : option string :=
  let '(scope, value) := get_project_scope t in
  match scope with PTag => Some value | _ => None end.

(** [Target::get_task_id] *)
Definition get_task_id (t : Target) : result string :=
  let '(scope, value) := get_task_scope t in
  match scope with
  | TId => Ok value
  | _ => Err (RTarget (TaskScopeRequired (id t)))
  end.

(** [Target::get_task_tag] *)
Definition get_task_tag (t : Target) : option string :=
  let '(scope, value) := get_task_scope t in
  match scope with TTag => Some value | _ => None end.

(** [Target::is_all_task] *)
Definition is_all_task (t : Target) (task_id : string) : bool :=
  match project t, get_task_id t with
  | All, Ok inner_id =>
      match strip_prefix ":" task_id with
      | Some i => bool_decide (inner_id = i)
      | None => bool_decide (inner_id = task_id)
      end
  | _, _ => false
  end.

(** [Target::is_fully_qualified] *)
Definition Target_is_fully_qualified (t : Target) : bool :=
  match project t, task t with
  | PId, TId | OwnSelf, TId => true
  | _, _ => false
  end.

(** [Target::default] *)
Definition Target_default : Target :=
  {| id := "~:unknown"; project := OwnSelf; task := TId; index := 1 |}.

#[export] Instance Target_eq_dec : EqDecision Target.
Proof. solve_decision. Defined.

(** [impl Deserialize] and [impl Serialize]: a target is stored as its string. *)
Definition Target_deserialize `{IdSyntax} (s : string) : result Target := Target_parse s.
Definition Target_serialize (t : Target) : string := id t.

(** ** Locators ([target_locator.rs]) *)

Inductive TargetLocator : Type :=
| DefaultProject (task_id : string)
| GlobMatch (original : string) (project : option TargetProjectScope)
    (project_glob : option string) (task_glob : string)
| Qualified (target : Target).

Section Locator.
Context `{I : IdSyntax}.

(** [value.contains(['*', '?', '[', ']', '{', '}', '!'])] *)
Definition has_glob_char (value : string) : bool :=
  existsb (λ c, bool_decide (c ∈ ["*"; "?"; "["; "]"; "{"; "}"; "!"]%char))
    (str_chars value).

(** [TargetLocator::parse_glob] *)
Definition TargetLocator_parse_glob (value base_project base_task : string) :
  result TargetLocator :=
  let? '(project, project_glob) :=
    (if decide (base_project ∈ [""; "*"; "**"; "**/*"; "..."]%string)
     then Ok (Some All, None)
     else if decide (base_project ∈ ["~"; "^"; "^build"; "^dev"; "^development";
                                     "^peer"; "^prod"; "^production"]%string)
     then let? p := TargetProjectScope_parse base_project in Ok (Some p, None)
     else Ok (None, Some (str_replace "..." "**/*" base_project))) in
  Ok (GlobMatch value project project_glob base_task).

(** [TargetLocator::parse]; the [unwrap] of [split_once] cannot fail, since the
    value contains a colon. *)
Definition TargetLocator_parse (value : string) : result TargetLocator :=
  if str_contains ":" value then
    if has_glob_char value || str_contains_str "..." value then
      match split_once ":" value with
      | Some (base_project, base_task) =>
          TargetLocator_parse_glob value base_project base_task
      | None => Err (Foreign "unwrap")
      end
    else let? t := Target_parse value in Ok (Qualified t)
  else if starts_with "#" value
  then Err (RTarget (TagNotValidForDefaultProject value))
  else id_check value ;;? Ok (DefaultProject value).

End Locator.

(** [TargetLocator::as_str] *)
Definition TargetLocator_as_str (l : TargetLocator) : string :=
  match l with
  | DefaultProject task_id => task_id
  | GlobMatch original _ _ _ => original
  | Qualified target => id target
  end.

(** [TargetLocator::is_fully_qualified] *)
Definition TargetLocator_is_fully_qualified (l : TargetLocator) : bool :=
  match l with
  | Qualified target => Target_is_fully_qualified target
  | _ => false
  end.

(** ** Properties *)

(** The part of a project scope that [get_project_scope] is to return. *)
Definition project_value (scope : TargetProjectScope) (p : string) : string :=
  match scope with
  | DepsOf _ => default p (strip_prefix "^" p)
  | PId => p
  | PTag => default p (strip_prefix "#" p)
  | _ => EmptyString
  end.

(** The part of a task scope that [get_task_scope] is to return. *)
Definition task_value (t : string) : string := default t (strip_prefix "#" t).

Section Theorems.
Context `{I : IdSyntax, L : !IdLaws I}.

Lemma id_check_Ok s u : id_check s = Ok u → id_new s = true.
Proof. unfold id_check. by destruct (id_new s). Qed.

Lemma id_new_not_empty s : id_new s = true → s ≠ ""%string.
Proof. by intros (c & r & -> & _)%id_new_chars. Qed.

Lemma id_new_no_char c s :
  id_char c = false → c ≠ "@"%char → id_new s = true → str_contains c s = false.
Proof.
  intros Hc Hat (d & r & -> & Hd & Hr)%id_new_chars.
  rewrite str_contains_cons, (str_all_not_contains id_char c r) by done.
  destruct (Ascii.eqb_spec c d) as [->|]; [|done]. destruct Hd; congruence.
Qed.

Lemma id_new_task_group s :
  id_new s = true → starts_with "@" s = false →
  bool_decide (s ≠ ""%string) && str_all id_char s = true.
Proof.
  intros (c & r & -> & Hc & Hr)%id_new_chars Hat. cbn.
  rewrite str_all_cons, Hr. destruct Hc as [->| ->]; [done|].
  by unfold starts_with in Hat.
Qed.

Lemma strip_hash_id s : id_new s = true → strip_prefix "#" s = None.
Proof.
  intros Hs. destruct (strip_prefix "#" s) as [r|] eqn:E; [|done].
  apply strip_prefix_Some in E as ->.
  by pose proof (id_new_no_char "#" _ id_char_hash ltac:(done) Hs).
Qed.

(** What a parsed project scope says about the string. *)
Lemma TargetProjectScope_parse_Ok p s :
  TargetProjectScope_parse p = Ok s →
  match s with
  | All => p = ""%string
  | Deps => p = "^"%string
  | DepsOf Build => p = "^build"%string
  | DepsOf Development => p = "^dev"%string ∨ p = "^development"%string
  | DepsOf Peer => p = "^peer"%string
  | DepsOf Production => p = "^prod"%string ∨ p = "^production"%string
  | OwnSelf => p = "~"%string
  | PTag => ∃ i, p = String "#" i ∧ id_new i = true
  | PId => id_new p = true ∧ strip_prefix "#" p = None
  end.
Proof.
  unfold TargetProjectScope_parse. intros H.
  repeat case_decide; simplify_eq/=; auto.
  destruct (strip_prefix "#" p) as [i|] eqn:E.
  - step_ok. apply strip_prefix_Some in E as ->. exists i. split; eauto using id_check_Ok.
  - step_ok. eauto using id_check_Ok.
Qed.

Lemma TargetTaskScope_parse_Ok t s :
  TargetTaskScope_parse t = Ok s →
  match s with
  | TTag => ∃ i, t = String "#" i ∧ id_new i = true
  | TId => id_new t = true ∧ strip_prefix "#" t = None
  end.
Proof.
  unfold TargetTaskScope_parse. intros H.
  destruct (strip_prefix "#" t) as [i|] eqn:E; step_ok.
  - apply strip_prefix_Some in E as ->. exists i. split; eauto using id_check_Ok.
  - eauto using id_check_Ok.
Qed.

Lemma Target_new_Ok p t tg :
  Target_new p t = Ok tg →
  TargetProjectScope_parse p = Ok (project tg) ∧
  TargetTaskScope_parse t = Ok (task tg) ∧
  id tg = String.append p (String ":" t) ∧
  index tg = as_u8 (String.length p).
Proof.
  unfold Target_new. intros H.
  destruct (TargetProjectScope_parse p) eqn:Ep; [|discriminate H..].
  destruct (TargetTaskScope_parse t) eqn:Et; [|discriminate H..].
  by injection H as <-.
Qed.

Lemma Target_new_self_Ok t tg :
  Target_new_self t = Ok tg →
  tg = {| id := String.append "~:" t; project := OwnSelf;
          task := task tg; index := 1 |} ∧
  TargetTaskScope_parse t = Ok (task tg).
Proof.
  unfold Target_new_self. intros H.
  destruct (TargetTaskScope_parse t) eqn:Et; [|discriminate H..].
  by injection H as <-.
Qed.

Lemma TARGET_PATTERN_captures_Some s p t :
  TARGET_PATTERN_captures s = Some (p, t) →
  s = String.append p (String ":" t) ∧ str_contains ":" p = false ∧
  project_group p = true ∧ task_group t = true.
Proof.
  unfold TARGET_PATTERN_captures.
  destruct (split_once ":" s) as [[p' t']|] eqn:E; [|done].
  apply split_once_Some in E as [-> Hp].
  destruct (project_group p' && task_group t') eqn:Eg; [|done].
  intros [= <- <-]. bool_cases. done.
Qed.

(** Slicing at the recorded index undoes the concatenation of [Target::new]. *)
Lemma slice_new p t :
  str_take (String.length p) (String.append p (String ":" t)) = p ∧
  str_drop (String.length p + 1) (String.append p (String ":" t)) = t.
Proof.
  split; [apply str_take_append|].
  replace (String.append p (String ":" t))
    with (String.append (String.append p ":") t) by (by rewrite str_append_assoc).
  replace (String.length p + 1) with (String.length (String.append p ":"))
    by (by rewrite str_append_length).
  apply str_drop_append.
Qed.

(** The accessors of a target return the strings it was made of: for a
    project scope shorter than 256 bytes, [Target::new(p, t)] followed by
    [get_project_scope] and [get_task_scope] gives the parsed scopes with the
    project (or tag, or dependency scope) and the task (or tag) of [p] and [t]. *)
Theorem Target_new_accessors p t tg :
  Target_new p t = Ok tg → String.length p < 256 →
  get_project_scope tg = (project tg, project_value (project tg) p) ∧
  get_task_scope tg = (task tg, task_value t).
Proof.
  intros (Hp & Ht & Hid & Hix)%Target_new_Ok Hlen.
  unfold as_u8 in Hix. rewrite Nat.mod_small in Hix by done.
  destruct (slice_new p t) as [H1 H2].
  unfold get_project_scope, get_task_scope. rewrite Hid, Hix, H1, H2. split.
  - apply TargetProjectScope_parse_Ok in Hp.
    destruct (project tg) as [| |[]| | |]; cbn in *; try naive_solver.
    destruct Hp as (i & -> & Hi).
    rewrite strip_prefix_cons, strip_prefix_nil. cbn.
    by rewrite trim_start_matches_id by (by apply strip_hash_id).
  - apply TargetTaskScope_parse_Ok in Ht. unfold task_value.
    destruct (task tg); [by destruct Ht as [_ ->]|].
    by destruct Ht as (i & -> & _).
Qed.

(** Identifiers that are neither scopes nor tags, and whose length fits the index of
    a target. *)
Definition plain_project (p : string) : bool :=
  match TargetProjectScope_parse p with Ok PId => String.length p <? 256 | _ => false end.

Definition plain_task (t : string) : bool :=
  match TargetTaskScope_parse t with Ok TId => true | _ => false end.

Lemma Target_new_plain p t tg :
  Target_new p t = Ok tg → plain_project p = true → plain_task t = true →
  get_project_id tg = Ok p ∧ get_task_id tg = Ok t.
Proof.
  intros (Hpp & Htt & Hid & Hix)%Target_new_Ok Hp Ht. unfold plain_project, plain_task in *.
  rewrite Hpp in Hp. rewrite Htt in Ht.
  destruct (project tg) eqn:Ep; [done..| |done|done]. destruct (task tg) eqn:Et; [|done].
  apply Nat.ltb_lt in Hp. unfold as_u8 in Hix. rewrite Nat.mod_small in Hix by done.
  destruct (slice_new p t) as [H1 H2].
  apply TargetTaskScope_parse_Ok in Htt as [_ Hh].
  unfold get_project_id, get_task_id, get_project_scope, get_task_scope.
  by rewrite Hid, Hix, H1, H2, Ep, Hh.
Qed.

(** The separator position is stored in a byte, so a project identifier of
    256 bytes or more is sliced wrongly: [get_project_id] succeeds with a proper
    prefix of the identifier instead of the identifier. *)
Theorem Target_new_long_project p t tg :
  Target_new p t = Ok tg → project tg = PId → 256 ≤ String.length p →
  get_project_id tg = Ok (str_take (String.length p mod 256) p) ∧
  get_project_id tg ≠ Ok p.
Proof.
  intros (Hp & Ht & Hid & Hix)%Target_new_Ok Hs Hlen.
  unfold get_project_id, get_project_scope. rewrite Hs, Hid, Hix. unfold as_u8.
  pose proof (Nat.mod_upper_bound (String.length p) 256).
  rewrite str_take_append_le by lia. split; [done|]. intros [= E].
  apply (f_equal String.length) in E. rewrite str_take_length in E; lia.
Qed.

Lemma Target_parse_colon s tg :
  Target_parse s = Ok tg → str_contains ":" s = true →
  id tg = s ∧ ∃ p t, TARGET_PATTERN_captures s = Some (p, t) ∧ Target_new p t = Ok tg.
Proof.
  unfold Target_parse. intros H Hc. case_decide; [done|]. rewrite Hc in H.
  cbn in H. destruct (TARGET_PATTERN_captures s) as [[p t]|] eqn:E; [|done].
  split; [|by eauto].
  apply TARGET_PATTERN_captures_Some in E as (-> & _).
  by apply Target_new_Ok in H as (_ & _ & -> & _).
Qed.

Lemma Target_parse_self s tg :
  Target_parse s = Ok tg → str_contains ":" s = false → Target_new_self s = Ok tg.
Proof.
  unfold Target_parse. intros H Hc. case_decide; [subst; done|].
  by rewrite Hc in H.
Qed.

(** A target string with a task part that matches the pattern parses back. *)
Lemma Target_parse_self_id t tg :
  Target_new_self t = Ok tg → task_group t = true →
  Target_parse (id tg) = Ok tg.
Proof.
  intros H Hg. pose proof H as (Heq & Ht)%Target_new_self_Ok.
  assert (Target_new "~" t = Ok tg) as Hn.
  { unfold Target_new. rewrite Ht.
    change (TargetProjectScope_parse "~") with (@Ok Report _ OwnSelf).
    cbn [map_err obind]. by rewrite Heq. }
  replace (id tg) with (String.append "~" (String ":" t)) by (by rewrite Heq).
  unfold Target_parse, TARGET_PATTERN_captures.
  rewrite decide_False by (by destruct t).
  rewrite str_contains_append, str_contains_cons, split_once_append by done.
  by rewrite Hg.
Qed.

Lemma task_group_value t ts :
  TargetTaskScope_parse t = Ok ts →
  task_group t = true ↔ starts_with "@" (task_value t) = false.
Proof.
  intros Hts. unfold task_group, task_value.
  assert (id_new (default t (strip_prefix "#" t)) = true) as Hid.
  { apply TargetTaskScope_parse_Ok in Hts. destruct ts.
    - by destruct Hts as [? ->].
    - destruct Hts as (i & -> & ?).
      by rewrite strip_prefix_cons, strip_prefix_nil. }
  generalize dependent (default t (strip_prefix "#" t)). intros v Hid. split.
  - intros H. bool_cases. unfold starts_with.
    destruct (strip_prefix "@" v) as [r|] eqn:E; [|done].
    apply strip_prefix_Some in E as ->. cbn in *.
    rewrite str_all_cons in *. bool_cases. by rewrite id_char_at in *.
  - by apply id_new_task_group.
Qed.

(** The serialised form of a target reads back as the same target exactly
    when its task part does not start with an at sign.  In particular every
    target written with a colon does, and a scoped task name given without a
    project is accepted by the parser but refused when it is read back. *)
Theorem Target_serde_roundtrip s tg :
  Target_parse s = Ok tg →
  Target_deserialize (Target_serialize tg) = Ok tg ↔
  (str_contains ":" s = true ∨ starts_with "@" (task_value s) = false).
Proof.
  intros H. unfold Target_deserialize, Target_serialize.
  destruct (str_contains ":" s) eqn:Hc.
  { destruct (Target_parse_colon s tg H Hc) as [-> _]. naive_solver. }
  pose proof (Target_parse_self s tg H Hc) as Hs.
  pose proof Hs as (Heq & Ht)%Target_new_self_Ok.
  rewrite <- (task_group_value s (task tg) Ht). split.
  - intros Hr. right.
    assert (id tg = String.append "~" (String ":" s)) as Hid by (by rewrite Heq).
    apply Target_parse_colon in Hr as (_ & p & t & Hcap & _); [|by rewrite Hid].
    unfold TARGET_PATTERN_captures in Hcap. rewrite Hid in Hcap.
    rewrite split_once_append in Hcap by done.
    destruct (task_group s); [done|]. by rewrite andb_false_r in Hcap.
  - intros [?|Hg]; [done|]. by apply (Target_parse_self_id s).
Qed.

Lemma TargetLocator_parse_glob_Ok v p t l :
  TargetLocator_parse_glob v p t = Ok l → TargetLocator_as_str l = v.
Proof. unfold TargetLocator_parse_glob. intros H. step_ok. destruct a. by step_ok. Qed.

(** A locator prints as the string it was parsed from. *)
Theorem TargetLocator_roundtrip v l :
  TargetLocator_parse v = Ok l → TargetLocator_as_str l = v.
Proof.
  unfold TargetLocator_parse. intros H.
  destruct (str_contains ":" v) eqn:Hc.
  - destruct (has_glob_char v || str_contains_str "..." v).
    + destruct (split_once ":" v) as [[p t]|]; [|done].
      by apply TargetLocator_parse_glob_Ok in H.
    + step_ok. cbn. by apply Target_parse_colon in E as [? _].
  - destruct (starts_with "#" v); [done|]. by step_ok.
Qed.

End Theorems.

(** ** A concrete identifier syntax

ASCII letters, digits and the symbols underscore, dash, slash and dot, with an
optional leading at sign: the documented syntax restricted to ASCII.  It is
what the examples below are evaluated with. *)

#[export] Instance ascii_ids : IdSyntax := {
  id_char c := is_alpha c || is_digit c ||
    bool_decide (c ∈ ["_"; "-"; "/"; "."]%char);
  id_new s :=
    match s with
    | EmptyString => false
    | String c r =>
        (is_alpha c || bool_decide (c = "_"%char) || bool_decide (c = "@"%char)) &&
        str_all (λ c, is_alpha c || is_digit c ||
          bool_decide (c ∈ ["_"; "-"; "/"; "."]%char)) r
    end
}.

#[export] Instance ascii_ids_laws : IdLaws ascii_ids.
Proof.
  split; [done..|]. intros [|c r]; [done|]. cbn [id_new ascii_ids]. intros H.
  bool_cases. exists c, r. split; [done|]. split; [|done].
  apply orb_true_iff in H as [H|H%bool_decide_eq_true]; [|by right].
  left. cbn [id_char ascii_ids]. apply orb_true_iff in H as [-> | ->%bool_decide_eq_true]; done.
Qed.

Example Target_parse_examples :
  Target_parse "foo:build" =
    Ok {| id := "foo:build"; project := PId; task := TId; index := 3 |} ∧
  Target_parse "^development:lint" =
    Ok {| id := "^development:lint"; project := DepsOf Development;
          task := TId; index := 12 |} ∧
  Target_parse "build" =
    Ok {| id := "~:build"; project := OwnSelf; task := TId; index := 1 |} ∧
  Target_parse "foo:@build" = Err (RTarget (InvalidFormat "foo:@build")) ∧
  Target_parse "@a1" =
    Ok {| id := "~:@a1"; project := OwnSelf; task := TId; index := 1 |} ∧
  Target_parse ":" = Err (RTarget TooWild).
Proof. vm_compute. done. Qed.

Lemma Target_new_accessors_witness :
  get_project_scope {| id := "#web:build"; project := PTag; task := TId; index := 4 |}
    = (PTag, "web"%string) ∧
  get_task_scope {| id := "#web:build"; project := PTag; task := TId; index := 4 |}
    = (TId, "build"%string).
Proof.
  apply (Target_new_accessors "#web" "build"); [vm_compute; reflexivity|cbn; lia].
Defined.

(** A project identifier of 258 bytes. *)
Definition long_project : string :=
  string_of_list_ascii (replicate 258 "a"%char).

Lemma Target_new_long_project_witness :
  ∃ tg, Target_new long_project "b" = Ok tg ∧
        get_project_id tg = Ok "aa"%string ∧ get_project_id tg ≠ Ok long_project.
Proof.
  eexists. split; [vm_compute; reflexivity|].
  apply (Target_new_long_project long_project "b"); vm_compute;
    [reflexivity|reflexivity|lia].
Defined.

Lemma Target_serde_roundtrip_witness :
  Target_deserialize (Target_serialize
    {| id := "~:@a1"; project := OwnSelf; task := TId; index := 1 |}) ≠
    Ok {| id := "~:@a1"; project := OwnSelf; task := TId; index := 1 |}.
Proof.
  intros H. apply (Target_serde_roundtrip "@a1") in H; [|vm_compute; reflexivity].
  destruct H as [H|H]; vm_compute in H; discriminate H.
Defined.

Lemma TargetLocator_roundtrip_witness :
  TargetLocator_as_str (GlobMatch "app-...:lint" None (Some "app-**/*"%string) "lint")
    = "app-...:lint"%string.
Proof. apply TargetLocator_roundtrip. vm_compute. reflexivity. Defined.
