(* ===== verification/GraphUtils.v ===== *)
(** * Graph traversal ([crates/graph-utils])

The traits [GraphData], [GraphConnections] and [GraphConversions], and the
function [traverse_deep] behind [deep_dependencies_of] and
[deep_dependents_of].  A graph is a [petgraph::DiGraph], code from outside the
repository: the class [GraphConnections] has the calls of it that the trait
makes, next to the methods a graph implements the trait with. *)

From S2P Require Import Prelude.

(** [petgraph::Direction] *)
Inductive Direction : Type := Outgoing | Incoming.

(** [N] are the nodes a graph is about (projects, tasks, actions), [K] their
    keys.  Node indexes ([petgraph::NodeIndex]) are natural numbers. *)
Class GraphConnections (N K : Type) : Type := {
  (** [get_graph().node_weights()]: every node is weighted by its own index *)
  node_weights : list nat;
  (** [get_graph().neighbors_directed(index, direction)] *)
  neighbors_directed : nat → Direction → list nat;
  get_node_by_index : nat → N;
  get_node_key : N → K;
  get_node_index : N → nat;
}.

(** What the implementations guarantee: the graph's nodes and the node store
    agree, neighbours are nodes of the graph, keys identify nodes, and the two
    directions describe the same edges. *)
Class GraphConnectionsOk {N K} (G : GraphConnections N K) : Prop := {
  node_index_of_weight : ∀ i, i ∈ node_weights →
    get_node_index (get_node_by_index i) = i;
  neighbors_are_nodes : ∀ i d j, i ∈ node_weights →
    j ∈ neighbors_directed i d → j ∈ node_weights;
  node_keys_inj : ∀ i j, i ∈ node_weights → j ∈ node_weights →
    get_node_key (get_node_by_index i) = get_node_key (get_node_by_index j) →
    i = j;
  neighbors_flip : ∀ i j, i ∈ node_weights → j ∈ node_weights →
    j ∈ neighbors_directed i Outgoing ↔ i ∈ neighbors_directed j Incoming;
}.

Section Traverse.
Context {N K : Type} `{Countable K} `{G : !GraphConnections N K}.

(** [GraphConnections::dependencies_of] and [dependents_of] *)
Definition connections_of (node : N) (d : Direction) : list K :=
  map (λ idx, get_node_key (get_node_by_index idx))
    (neighbors_directed (get_node_index node) d).
Definition dependencies_of (node : N) : list K := connections_of node Outgoing.
Definition dependents_of (node : N) : list K := connections_of node Incoming.

(** [GraphConnections::get_node_keys] *)
Definition get_node_keys : list K :=
  map (λ ni, get_node_key (get_node_by_index ni)) node_weights.

(** The loop state of [traverse_deep].  The vector [queue] is used as a stack;
    the head of the list is its last element. *)
Record traverse_state : Type := mkTraverse {
  deps : gmap K nat;
  dep_order : nat;
  queue : list N;
  visited : gset K;
}.

(** [if !deps.contains_key(&k) { deps.insert(k, dep_order); dep_order += 1; }] *)
Definition record_dep (s : gmap K nat * nat) (dep_key : K) : gmap K nat * nat :=
  let '(deps, dep_order) := s in
  match deps !! dep_key with
  | Some _ => (deps, dep_order)
  | None => (<[dep_key := dep_order]> deps, S dep_order)
  end.

(** The nodes of the graph whose key is one of [dep_keys], in graph order. *)
Definition nodes_with_keys (dep_keys : list K) : list N :=
  omap (λ index,
    let dep_node := get_node_by_index index in
    if decide (get_node_key dep_node ∈ dep_keys) then Some dep_node else None)
    node_weights.

(** One round of the [while let Some(node) = queue.pop()] loop. *)
Definition traverse_step (for_dependents : bool) (node : N) (s : traverse_state) :
  traverse_state :=
  let key := get_node_key node in
  if decide (key ∈ visited s) then s
  else
    let visited' := {[key]} ∪ visited s in
    let dep_keys := if for_dependents then dependents_of node
                    else dependencies_of node in
    if decide (dep_keys = []) then
      {| deps := deps s; dep_order := dep_order s; queue := queue s;
         visited := visited' |}
    else
      let '(deps', dep_order') :=
        fold_left record_dep dep_keys (deps s, dep_order s) in
      {| deps := deps'; dep_order := dep_order';
         queue := reverse (nodes_with_keys dep_keys) ++ queue s;
         visited := visited' |}.

Fixpoint traverse_loop (fuel : nat) (for_dependents : bool) (s : traverse_state) :
  option traverse_state :=
  match fuel with
  | 0 => None
  | S fuel' =>
      match queue s with
      | [] => Some s
      | node :: queue' =>
          traverse_loop fuel' for_dependents
            (traverse_step for_dependents node
               {| deps := deps s; dep_order := dep_order s; queue := queue';
                  visited := visited s |})
      end
  end.

(** The order in which [deps.sort_by_key(|a| a.1)] arranges the entries. *)
Definition by_order (a b : K * nat) : Prop := a.2 ≤ b.2.

#[export] Instance by_order_dec : RelDecision by_order.
Proof. intros a b. unfold by_order. apply _. Defined.

(** [traverse_deep]; [None] when the fuel runs out, see [traverse_fuel]. *)
Definition traverse_deep_fuel (fuel : nat) (node : N) (for_dependents : bool) :
  option (list K) :=
  match traverse_loop fuel for_dependents
          {| deps := ∅; dep_order := 0; queue := [node]; visited := ∅ |} with
  | Some s => Some (map fst (merge_sort by_order (map_to_list (deps s))))
  | None => None
  end.

(** Every node is expanded once and then pushes at most every node. *)
Definition traverse_fuel : nat :=
  S (S (length node_weights * length node_weights)).

Definition traverse_deep (node : N) (for_dependents : bool) : list K :=
  default [] (traverse_deep_fuel traverse_fuel node for_dependents).

(** [GraphConnections::deep_dependencies_of] and [deep_dependents_of] *)
Definition deep_dependencies_of (node : N) : list K := traverse_deep node false.
Definition deep_dependents_of (node : N) : list K := traverse_deep node true.

(** [GraphConversions::to_focused_graph]: the node indexes that are kept. *)
Definition focused_nodes (focus_node : N) (with_dependents : bool) : list nat :=
  let upstream : gset K := list_to_set (deep_dependencies_of focus_node) in
  let downstream : gset K :=
    list_to_set (if with_dependents then deep_dependents_of focus_node else []) in
  let focus_key := get_node_key focus_node in
  filter (λ node,
    let node_key := get_node_key (get_node_by_index node) in
    node_key = focus_key ∨ node_key ∈ upstream ∨ node_key ∈ downstream)
    node_weights.

End Traverse.

Arguments traverse_state N K {_ _}.

(** ** Properties *)

Section Reachability.
Context {A : Type} (R : relation A).

(** A set that contains [x] and is closed under [R] contains what [x] reaches. *)
Lemma rtc_closed (P : A → Prop) x y :
  P x → (∀ a b, P a → R a b → P b) → rtc R x y → P y.
Proof. intros Hx Hc Hr. induction Hr; eauto. Qed.

Lemma rtc_tc_step x y z : rtc R x y → R y z → tc R x z.
Proof. intros Hxy Hyz. eapply tc_rtc_l; [exact Hxy|by apply tc_once]. Qed.

(** The last edge of a path. *)
Lemma tc_last x z : tc R x z → ∃ y, rtc R x y ∧ R y z.
Proof.
  induction 1 as [x y Hxy|x y z Hxy Hyz (w & Hyw & Hwz)].
  - by exists x.
  - exists w. split; [by eapply rtc_l|done].
Qed.
End Reachability.

Section Theorems.
Context {N K : Type} `{Countable K} {G : GraphConnections N K}.
Context {L : GraphConnectionsOk G}.

(** The direction [traverse_deep] follows. *)
Definition direction_of (for_dependents : bool) : Direction :=
  if for_dependents then Incoming else Outgoing.

(** There is an edge of the graph from [i] to [j] (or back, for [Incoming]). *)
Definition graph_edge (d : Direction) (i j : nat) : Prop :=
  i ∈ node_weights ∧ j ∈ neighbors_directed i d.

Definition node_key (i : nat) : K := get_node_key (get_node_by_index i).

Lemma graph_edge_node d i j : graph_edge d i j → j ∈ node_weights.
Proof. intros [Hi Hj]. by eapply neighbors_are_nodes. Qed.

Lemma rtc_graph_edge_node d i j :
  i ∈ node_weights → rtc (graph_edge d) i j → j ∈ node_weights.
Proof. intros Hi Hr. induction Hr; eauto using graph_edge_node. Qed.

Lemma connections_of_elem i d k :
  i ∈ node_weights →
  k ∈ connections_of (get_node_by_index i) d ↔
  ∃ j, graph_edge d i j ∧ node_key j = k.
Proof.
  intros Hi. unfold connections_of, graph_edge.
  rewrite node_index_of_weight by done. rewrite list_elem_of_fmap.
  unfold node_key. naive_solver.
Qed.

Lemma nodes_with_keys_elem ks (nd : N) :
  nd ∈ nodes_with_keys ks ↔
  ∃ j, j ∈ node_weights ∧ nd = get_node_by_index j ∧ node_key j ∈ ks.
Proof.
  unfold nodes_with_keys. rewrite list_elem_of_omap. unfold node_key.
  split; [intros (j & ? & ?)|intros (j & ? & -> & ?)]; exists j; case_decide; naive_solver.
Qed.

Lemma nodes_with_keys_length ks : length (nodes_with_keys ks) ≤ length node_weights.
Proof.
  unfold nodes_with_keys. generalize node_weights as l.
  induction l as [|i l IH]; cbn; [lia|]. case_decide; cbn; lia.
Qed.

Lemma record_dep_dom (s : gmap K nat * nat) (k : K) : dom (record_dep s k).1 = dom s.1 ∪ {[k]}.
Proof.
  destruct s as [m n]. cbn. destruct (m !! k) eqn:E; cbn.
  - apply elem_of_dom_2 in E. set_solver.
  - rewrite dom_insert_L. set_solver.
Qed.

Lemma fold_record_dep_dom (ks : list K) (s : gmap K nat * nat) :
  dom (fold_left record_dep ks s).1 = dom s.1 ∪ list_to_set ks.
Proof.
  revert s. induction ks as [|k ks IH]; intros s; cbn; [set_solver|].
  rewrite IH, record_dep_dom. set_solver.
Qed.

(** The invariant of the traversal loop from node [i0]: queued and visited
    nodes are reachable, the successors of a visited node are recorded and
    visited or queued, recorded keys are proper successors. *)
Record traverse_inv (d : Direction) (i0 : nat) (s : traverse_state N K) : Prop := {
  inv_queue : ∀ nd, nd ∈ queue s →
    ∃ i, nd = get_node_by_index i ∧ rtc (graph_edge d) i0 i;
  inv_visited : ∀ k, k ∈ visited s →
    ∃ i, node_key i = k ∧ rtc (graph_edge d) i0 i ∧
      ∀ j, graph_edge d i j →
        node_key j ∈ dom (deps s) ∧
        (node_key j ∈ visited s ∨ get_node_by_index j ∈ queue s);
  inv_deps : ∀ k, k ∈ dom (deps s) →
    ∃ j, node_key j = k ∧ tc (graph_edge d) i0 j;
  inv_start : node_key i0 ∈ visited s ∨ get_node_by_index i0 ∈ queue s;
}.

Lemma visited_expand d i0 s s' i ks nq :
  i0 ∈ node_weights → rtc (graph_edge d) i0 i →
  traverse_inv d i0 s →
  queue s = get_node_by_index i :: nq →
  node_key i ∉ visited s →
  visited s' = {[node_key i]} ∪ visited s →
  dom (deps s') = dom (deps s) ∪ list_to_set ks →
  ks = connections_of (get_node_by_index i) d →
  (∀ nd, nd ∈ queue s' ↔ nd ∈ nodes_with_keys ks ∨ nd ∈ nq) →
  traverse_inv d i0 s'.
Proof.
  intros Hi0 Hri [IQ IV ID IS] Hq Hnv Hv Hd -> Hq'.
  pose proof (rtc_graph_edge_node _ _ _ Hi0 Hri) as Hi.
  split.
  - intros nd [Hnd|Hnd]%Hq'.
    + apply nodes_with_keys_elem in Hnd as (j & Hj & -> & Hk).
      apply connections_of_elem in Hk as (j' & He & Hk); [|done].
      exists j. split; [done|].
      assert (j = j') as ->.
      { apply node_keys_inj; eauto using graph_edge_node. }
      by eapply rtc_r.
    + apply IQ. rewrite Hq. by right.
  - intros k. rewrite Hv. intros [->%elem_of_singleton|Hk]%elem_of_union.
    + exists i. split; [done|]. split; [done|]. intros j Hj. split.
      * rewrite Hd. apply elem_of_union; right. apply elem_of_list_to_set.
        apply connections_of_elem; eauto.
      * right. apply Hq'. left. apply nodes_with_keys_elem. exists j.
        split; [by eapply graph_edge_node|]. split; [done|].
        apply connections_of_elem; eauto.
    + destruct (IV k Hk) as (i' & ? & ? & Hsucc). exists i'. split; [done|].
      split; [done|]. intros j Hj. destruct (Hsucc j Hj) as [? Hvq].
      split; [rewrite Hd; set_solver|].
      destruct Hvq as [|Hin]; [left; set_solver|].
      rewrite Hq in Hin. apply elem_of_cons in Hin as [Heq|Hin].
      * left. unfold node_key in *. rewrite Heq. set_solver.
      * right. apply Hq'. by right.
  - intros k. rewrite Hd. intros [Hk|Hk]%elem_of_union; [by apply ID|].
    apply elem_of_list_to_set, connections_of_elem in Hk as (j & He & Hk); [|done].
    exists j. split; [done|]. by eapply rtc_tc_step.
  - rewrite Hv. destruct IS as [|Hin]; [left; set_solver|].
    rewrite Hq in Hin. apply elem_of_cons in Hin as [Heq|Hin].
    + left. unfold node_key in *. rewrite Heq. set_solver.
    + right. apply Hq'. by right.
Qed.

Lemma traverse_step_inv b i0 s nd nq :
  i0 ∈ node_weights →
  traverse_inv (direction_of b) i0 s → queue s = nd :: nq →
  traverse_inv (direction_of b) i0
    (traverse_step b nd (mkTraverse (deps s) (dep_order s) nq (visited s))).
Proof.
  intros Hi0 Hinv Hq.
  destruct (inv_queue _ _ _ Hinv nd) as (i & -> & Hri); [rewrite Hq; by left|].
  unfold traverse_step. cbn [visited deps queue dep_order].
  change (get_node_key (get_node_by_index i)) with (node_key i).
  case_decide as Hv.
  { destruct Hinv as [IQ IV ID IS]. split; cbn; [|clear IQ|done|clear IQ IV].
    - intros nd' ?. apply IQ. rewrite Hq. by right.
    - intros k Hk. destruct (IV k Hk) as (i' & ? & ? & Hsucc). exists i'.
      split; [done|]. split; [done|]. intros j Hj.
      destruct (Hsucc j Hj) as [? [?|Hin]]; [by auto|].
      rewrite Hq in Hin. apply elem_of_cons in Hin as [Heq|Hin]; [|by auto].
      split; [done|left]. unfold node_key in *. by rewrite Heq.
    - destruct IS as [?|Hin]; [by left|]. rewrite Hq in Hin.
      apply elem_of_cons in Hin as [Heq|Hin]; [|by right].
      left. unfold node_key in *. by rewrite Heq. }
  set (ks := if b then dependents_of (get_node_by_index i)
             else dependencies_of (get_node_by_index i)).
  assert (ks = connections_of (get_node_by_index i) (direction_of b)) as Hks
    by (by destruct b).
  case_decide as Hnil.
  - eapply (visited_expand _ i0 s _ i ks nq); cbn; eauto.
    + rewrite Hnil. set_solver.
    + intros nd'. rewrite Hnil. rewrite nodes_with_keys_elem. set_solver.
  - destruct (fold_left record_dep ks _) as [m n] eqn:Ef.
    eapply (visited_expand _ i0 s _ i ks nq); cbn; eauto.
    + pose proof (fold_record_dep_dom ks (deps s, dep_order s)) as Hdom.
      by rewrite Ef in Hdom.
    + intros nd'. by rewrite elem_of_app, elem_of_reverse.
Qed.

(** The traversal's measure: queued nodes, plus what unvisited nodes can queue. *)
Definition traverse_measure (s : traverse_state N K) : nat :=
  length (queue s) +
  (length node_weights - size (visited s)) * length node_weights.

Lemma visited_bound d i0 s :
  i0 ∈ node_weights → traverse_inv d i0 s →
  ∀ i, i ∈ node_weights → node_key i ∉ visited s →
  size (visited s) < length node_weights.
Proof.
  intros Hi0 Hinv i Hi Hn.
  assert (visited s ∪ {[node_key i]} ⊆ list_to_set (map node_key node_weights)) as Hsub.
  { intros k [Hk|Hk]%elem_of_union; apply elem_of_list_to_set, list_elem_of_fmap.
    - destruct (inv_visited _ _ _ Hinv k Hk) as (i' & <- & Hr & _).
      exists i'. split; [done|]. exact (rtc_graph_edge_node _ _ _ Hi0 Hr).
    - apply elem_of_singleton in Hk as ->. by exists i. }
  apply subseteq_size in Hsub. rewrite size_union in Hsub by set_solver.
  rewrite size_singleton in Hsub.
  pose proof (list_to_set_size_le (map node_key node_weights)) as Hle.
  rewrite length_map in Hle. lia.
Qed.

Lemma traverse_step_measure b i0 s nd nq :
  i0 ∈ node_weights →
  traverse_inv (direction_of b) i0 s → queue s = nd :: nq →
  traverse_measure
    (traverse_step b nd (mkTraverse (deps s) (dep_order s) nq (visited s)))
  < traverse_measure s.
Proof.
  intros Hi0 Hinv Hq.
  destruct (inv_queue _ _ _ Hinv nd) as (i & -> & Hri); [rewrite Hq; by left|].
  pose proof (rtc_graph_edge_node _ _ _ Hi0 Hri) as Hi.
  unfold traverse_measure. rewrite Hq. unfold traverse_step.
  cbn [visited deps queue dep_order length].
  change (get_node_key (get_node_by_index i)) with (node_key i).
  case_decide as Hv; [cbn; lia|].
  pose proof (visited_bound _ _ _ Hi0 Hinv i Hi Hv) as Hlt.
  assert (size ({[node_key i]} ∪ visited s) = S (size (visited s))) as Hsz.
  { rewrite size_union by set_solver. by rewrite size_singleton. }
  case_decide; [cbn; rewrite Hsz; nia|].
  destruct (fold_left _ _ _) as [m n]. cbn [queue visited].
  rewrite Hsz, length_app, length_reverse.
  match goal with |- context [nodes_with_keys ?ks] =>
    pose proof (nodes_with_keys_length ks) end. nia.
Qed.

Lemma traverse_loop_total b i0 fuel s :
  i0 ∈ node_weights →
  traverse_inv (direction_of b) i0 s → traverse_measure s < fuel →
  ∃ s', traverse_loop fuel b s = Some s' ∧
        traverse_inv (direction_of b) i0 s' ∧ queue s' = [].
Proof.
  intros Hi0. revert s. induction fuel as [|fuel IH]; intros s Hinv Hm; [lia|].
  cbn. destruct (queue s) as [|nd nq] eqn:Hq; [by eauto|].
  apply IH; [by apply traverse_step_inv|].
  pose proof (traverse_step_measure b i0 s nd nq Hi0 Hinv Hq). lia.
Qed.

Lemma traverse_inv_init d i0 :
  traverse_inv d i0 (mkTraverse ∅ 0 [get_node_by_index i0] ∅).
Proof.
  split; cbn; [|set_solver..|right; by left].
  intros nd ->%list_elem_of_singleton. by exists i0.
Qed.

(** When the queue is empty every reachable node was visited. *)
Lemma traverse_done_visited d i0 s i :
  i0 ∈ node_weights → traverse_inv d i0 s → queue s = [] →
  rtc (graph_edge d) i0 i → node_key i ∈ visited s.
Proof.
  intros Hi0 [IQ IV ID IS] Hq.
  apply (rtc_closed _ (λ i, node_key i ∈ visited s)); [rewrite Hq in IS; set_solver|].
  intros a b Ha [Hn Hab].
  destruct (IV _ Ha) as (a' & Heq & Hra' & Hsucc).
  assert (a' = a) as ->
    by (apply node_keys_inj; eauto using rtc_graph_edge_node).
  destruct (Hsucc b) as [_ [?|Hin]]; [done..|]. rewrite Hq in Hin. set_solver.
Qed.

(** When the queue is empty the recorded keys are the proper successors. *)
Lemma traverse_done d i0 s k :
  i0 ∈ node_weights → traverse_inv d i0 s → queue s = [] →
  k ∈ dom (deps s) ↔ ∃ j, node_key j = k ∧ tc (graph_edge d) i0 j.
Proof.
  intros Hi0 Hinv Hq. split; [by apply (inv_deps _ _ _ Hinv)|].
  intros (j & <- & (i & Hi & Hij)%tc_last).
  destruct (inv_visited _ _ _ Hinv (node_key i)) as (i' & Heq & Hr & Hsucc).
  { by eapply traverse_done_visited. }
  assert (i' = i) as ->
    by (apply node_keys_inj; eauto using rtc_graph_edge_node).
  by apply Hsucc.
Qed.

Lemma traverse_deep_fuel_spec i0 b :
  i0 ∈ node_weights →
  ∃ ks, traverse_deep_fuel traverse_fuel (get_node_by_index i0) b = Some ks ∧
        NoDup ks ∧
        ∀ k, k ∈ ks ↔ ∃ j, node_key j = k ∧ tc (graph_edge (direction_of b)) i0 j.
Proof.
  intros Hi0. unfold traverse_deep_fuel.
  destruct (traverse_loop_total b i0 traverse_fuel
    (mkTraverse ∅ 0 [get_node_by_index i0] ∅)) as (s & -> & Hinv & Hq).
  { done. }
  { apply traverse_inv_init. }
  { unfold traverse_measure, traverse_fuel. cbn. rewrite size_empty. lia. }
  eexists. split; [done|].
  pose proof (merge_sort_Permutation by_order (map_to_list (deps s))) as Hp.
  split.
  - change (NoDup (fst <$> merge_sort by_order (map_to_list (deps s)))).
    rewrite Hp. apply NoDup_fst_map_to_list.
  - intros k. rewrite <- (traverse_done _ i0 s) by done.
    change (map fst ?l) with (fst <$> l). rewrite Hp, elem_of_dom.
    rewrite list_elem_of_fmap. split.
    + intros ([k' n] & -> & Hin). apply elem_of_map_to_list in Hin. by eexists.
    + intros [n Hn]. exists (k, n). split; [done|]. by apply elem_of_map_to_list.
Qed.

Lemma traverse_deep_elem i0 b k :
  i0 ∈ node_weights →
  k ∈ traverse_deep (get_node_by_index i0) b ↔
  ∃ j, node_key j = k ∧ tc (graph_edge (direction_of b)) i0 j.
Proof.
  intros Hi0. destruct (traverse_deep_fuel_spec i0 b Hi0) as (ks & Hks & _ & Hel).
  unfold traverse_deep. by rewrite Hks.
Qed.

Definition opposite (d : Direction) : Direction :=
  match d with Outgoing => Incoming | Incoming => Outgoing end.

Lemma graph_edge_flip d i j : graph_edge d i j → graph_edge (opposite d) j i.
Proof.
  intros [Hi Hij]. pose proof (neighbors_are_nodes _ _ _ Hi Hij) as Hj.
  split; [done|]. destruct d; by apply neighbors_flip.
Qed.

Lemma tc_graph_edge_flip d i j :
  tc (graph_edge d) i j → tc (graph_edge (opposite d)) j i.
Proof.
  induction 1 as [i j Hij|i k j Hik Hkj IH].
  - by apply tc_once, graph_edge_flip.
  - eapply tc_r; [exact IH|by apply graph_edge_flip].
Qed.

Lemma tc_graph_edge_node d i j : i ∈ node_weights → tc (graph_edge d) i j → j ∈ node_weights.
Proof. intros Hi Ht%tc_rtc. by eapply rtc_graph_edge_node. Qed.

(** [traverse_deep] terminates within [traverse_fuel] rounds and returns
    the key of every node the start node reaches through at least one edge of
    the requested direction, each exactly once, and no other key. *)
Theorem traverse_deep_correct i0 b :
  i0 ∈ node_weights →
  ∃ ks, traverse_deep_fuel traverse_fuel (get_node_by_index i0) b = Some ks ∧
        NoDup ks ∧
        ∀ k, k ∈ ks ↔ ∃ j, node_key j = k ∧ tc (graph_edge (direction_of b)) i0 j.
Proof. apply traverse_deep_fuel_spec. Qed.

(** The focused graph of a node keeps exactly the node itself, the nodes it
    depends on, directly or not, and, when dependents are asked for, the nodes
    that depend on it, each node once and in the order of the graph. *)
Lemma focused_nodes_correct i0 (with_dependents : bool) :
  i0 ∈ node_weights → NoDup node_weights →
  NoDup (focused_nodes (get_node_by_index i0) with_dependents) ∧
  ∀ j, j ∈ focused_nodes (get_node_by_index i0) with_dependents ↔
    rtc (graph_edge Outgoing) i0 j ∨
    (with_dependents = true ∧ j ∈ node_weights ∧ tc (graph_edge Outgoing) j i0).
Proof.
  intros Hi0 Hnd. unfold focused_nodes, deep_dependencies_of, deep_dependents_of.
  split; [by apply NoDup_filter|]. intros j.
  rewrite list_elem_of_filter, !elem_of_list_to_set, traverse_deep_elem by done.
  change (get_node_key (get_node_by_index ?i)) with (node_key i). cbn [direction_of].
  assert (∀ j', j ∈ node_weights → j' ∈ node_weights → node_key j' = node_key j → j' = j)
    as Hinj by (intros; by apply node_keys_inj).
  split.
  - intros [[Heq|[(j' & Heq & Ht)|Hd]] Hj].
    + left. by rewrite (Hinj i0).
    + left. rewrite <- (Hinj j'); eauto using tc_graph_edge_node, tc_rtc.
    + right. destruct with_dependents; [|set_solver]. split; [done|]. split; [done|].
      apply traverse_deep_elem in Hd as (j' & Heq & Ht); [|done]. cbn in Ht.
      rewrite <- (Hinj j') by eauto using tc_graph_edge_node.
      exact (tc_graph_edge_flip Incoming _ _ Ht).
  - intros [Hr|(-> & Hj & Ht)].
    + split; [|exact (rtc_graph_edge_node _ _ _ Hi0 Hr)].
      apply rtc_tc in Hr as [->|Ht]; [by left|right; left; by eauto].
    + split; [|done]. right; right. apply traverse_deep_elem; [done|].
      exists j. split; [done|]. exact (tc_graph_edge_flip Outgoing _ _ Ht).
Qed.

(** A traversal only looks at the key and the index of the node it starts from. *)
Lemma traverse_deep_same (n1 n2 : N) b :
  get_node_key n1 = get_node_key n2 → get_node_index n1 = get_node_index n2 →
  traverse_deep n1 b = traverse_deep n2 b.
Proof.
  intros Hk Hi. unfold traverse_deep, traverse_deep_fuel, traverse_fuel.
  cbn [traverse_loop queue]. unfold traverse_step. cbn [visited].
  unfold dependents_of, dependencies_of, connections_of. by rewrite Hk, Hi.
Qed.

Lemma focused_nodes_same (n1 n2 : N) with_dependents :
  get_node_key n1 = get_node_key n2 → get_node_index n1 = get_node_index n2 →
  focused_nodes n1 with_dependents = focused_nodes n2 with_dependents.
Proof.
  intros Hk Hi. unfold focused_nodes, deep_dependencies_of, deep_dependents_of.
  by rewrite (traverse_deep_same n1 n2 false), (traverse_deep_same n1 n2 true), Hk by done.
Qed.
End Theorems.

(** ** A concrete graph

Nodes [0 .. n-1] given by a list of edges, to evaluate the definitions on. *)

Definition edge_list_graph (n : nat) (es : list (nat * nat)) :
  GraphConnections nat nat := {|
  node_weights := seq 0 n;
  neighbors_directed i d :=
    match d with
    | Outgoing => map snd (filter (λ e, e.1 = i) es)
    | Incoming => map fst (filter (λ e, e.2 = i) es)
    end;
  get_node_by_index i := i;
  get_node_key i := i;
  get_node_index i := i;
|}.

Lemma edge_list_graph_ok n es :
  Forall (λ e, e.1 < n ∧ e.2 < n) es → GraphConnectionsOk (edge_list_graph n es).
Proof.
  intros Hes. rewrite Forall_forall in Hes. split; cbn; [done| |done|].
  - intros i d j _ Hj. apply elem_of_seq.
    destruct d; apply list_elem_of_fmap in Hj as (e & -> & He);
      apply list_elem_of_filter in He as [_ He]; specialize (Hes e He); lia.
  - intros i j _ _. rewrite !list_elem_of_fmap. split.
    + intros ([a b] & -> & [? ?]%list_elem_of_filter). cbn in *. subst.
      exists (i, b). by rewrite list_elem_of_filter.
    + intros ([a b] & -> & [? ?]%list_elem_of_filter). cbn in *. subst.
      exists (a, j). by rewrite list_elem_of_filter.
Qed.

(** A cycle 0 - 1 - 2 that node 3 depends on, and the isolated node 4. *)
Definition sample_graph : GraphConnections nat nat :=
  edge_list_graph 5 [(0, 1); (1, 2); (2, 0); (3, 0)].

Lemma sample_graph_ok : GraphConnectionsOk sample_graph.
Proof. apply edge_list_graph_ok. repeat constructor. Qed.

Example traverse_deep_sample :
  @deep_dependencies_of _ _ _ _ sample_graph 3 = [0; 1; 2] ∧
  @deep_dependents_of _ _ _ _ sample_graph 0 = [2; 3; 1; 0] ∧
  @deep_dependencies_of _ _ _ _ sample_graph 4 = [].
Proof. vm_compute. repeat split. Qed.

Lemma traverse_deep_correct_witness :
  ∃ ks, @traverse_deep_fuel _ _ _ _ sample_graph
          (@traverse_fuel _ _ sample_graph) 3 false = Some ks ∧ NoDup ks.
Proof.
  destruct (@traverse_deep_correct _ _ _ _ sample_graph sample_graph_ok 3 false)
    as (ks & Hks & Hnd & _).
  - apply elem_of_seq. lia.
  - exists ks. split; [exact Hks|exact Hnd].
Defined.
