(* ===== verification/Shapes.v ===== *)
(** * Shapes of configured values ([crates/config/src/shapes])

File paths, globs, inputs and outputs of tasks and how they are parsed from
strings, the patterns they are recognised with ([patterns.rs]), the arguments of
a command ([crates/task/src/task_arg.rs]), and the strategies that merge
inherited values ([merging.rs]). *)

From S2P Require Import Prelude Errors Target.
#[local] Open Scope string_scope.

(** [ParseError::new] *)
Abbreviation parse_error message := (Err (Foreign message)).

(** What libraries do with configured strings: [RegexSetting::new(s).is_ok()] (the
    crate [regex]), and [path.join(other)] (the crate [relative_path]). *)
Class ConfigSyntax : Type := {
  regex_new : string → bool;
  path_join : string → string → string;
}.

(** ** Patterns ([patterns.rs]) *)

(** [ENV_VAR_DISTINCT], [ENV_VAR_GLOB_DISTINCT] *)
Definition env_char (c : ascii) : bool := is_upper c || is_digit c || Ascii.eqb c "_".

Definition ENV_VAR_DISTINCT (value : string) : bool :=
  match strip_prefix "$" value with
  | Some name => negb (bool_decide (name = "")) && str_all env_char name
  | None => false
  end.

Definition ENV_VAR_GLOB_DISTINCT (value : string) : bool :=
  match strip_prefix "$" value with
  | Some name =>
      negb (bool_decide (name = "")) && str_all (λ c, env_char c || Ascii.eqb c "*") name
  | None => false
  end.

(** [TOKEN_FUNC] at the start of a string: the name, the argument and what
    follows; [TOKEN_FUNC_DISTINCT] *)
Definition token_arg_char (c : ascii) : bool :=
  is_digit c || is_alpha c || Ascii.eqb c "_" || Ascii.eqb c "-".

Definition match_token_func (value : string) : option (string * string * string) :=
  match strip_prefix "@" value with
  | None => None
  | Some rest =>
      let '(name, rest) := span_while is_lower rest in
      match strip_prefix "(" rest with
      | None => None
      | Some rest =>
          let '(arg, rest) := span_while token_arg_char rest in
          match strip_prefix ")" rest with
          | None => None
          | Some rest =>
              if decide (name = "" ∨ arg = "") then None else Some (name, arg, rest)
          end
      end
  end.

Definition TOKEN_FUNC_DISTINCT (value : string) : bool :=
  match match_token_func value with Some (_, _, "") => true | _ => false end.

(** [TOKEN_VAR]: the names, in the order of the alternatives;
    [TOKEN_VAR_DISTINCT] *)
Definition token_vars : list string :=
  ["arch"; "language"; "osFamily"; "os"; "projectAliases"; "projectAlias"; "projectChannel";
   "projectId"; "projectLayer"; "projectName"; "projectTitle"; "projectOwner"; "projectRoot";
   "projectSource"; "projectStack"; "project"; "target"; "taskId"; "taskToolchains";
   "taskToolchain"; "taskType"; "task"; "timestamp"; "datetime"; "date"; "time"; "vcsBranch";
   "vcsRepository"; "vcsRevision"; "workingDir"; "workspaceRoot"].

Definition TOKEN_VAR_DISTINCT (value : string) : bool :=
  match strip_prefix "$" value with
  | Some name => bool_decide (name ∈ token_vars)
  | None => false
  end.

(** ** Paths ([portable_path.rs], [common/src/path.rs]) *)

(** [standardize_separators] *)
Definition standardize_separators (path : string) : string := str_replace "\" "/" path.

(** [is_root_level_source] *)
Definition is_root_level_source (source : string) : bool :=
  bool_decide (source = "") || bool_decide (source = ".").

(** [expand_to_workspace_relative]: from a project with this source, or from the
    workspace *)
Definition expand_to_workspace_relative `{ConfigSyntax} (from_project : option string)
  (path : string) : string :=
  let path := standardize_separators path in
  match from_project with
  | None => path
  | Some source =>
      if is_root_level_source source then path
      else
        let project_source := standardize_separators source in
        match strip_prefix "!" path with
        | Some negated_glob => path_join ("!" ++ project_source) negated_glob
        | None => path_join project_source path
        end
  end.

(** [is_glob_like]: the loop over the braces first; [search_from] grows in every
    round. *)
Fixpoint has_glob_braces (fuel : nat) (value : string) (search_from : nat) : bool :=
  match fuel with
  | 0 => false
  | S fuel' =>
      match find_char "{" (str_drop search_from value) with
      | None => false
      | Some offset =>
          let l := (search_from + offset)%nat in
          match find_char "}" (str_drop l value) with
          | None => false
          | Some r_offset =>
              let r := (l + r_offset)%nat in
              if (0 <? l)%nat && bool_decide (String.get (l - 1) value = Some "$"%char) then
                let inside := str_take (r - (l + 1)) (str_drop (l + 1) value) in
                if str_contains "," inside || str_contains_str ".." inside then true
                else has_glob_braces fuel' value (r + 1)
              else true
          end
      end
  end.

Definition has_glob_brackets (value : string) : bool :=
  match find_char "[" value, find_char "]" value with
  | Some l, Some r => (l <? r)%nat
  | _, _ => false
  end.

Definition is_glob_like (value : string) : bool :=
  starts_with "!" value || str_contains_str "**" value || str_contains "*" value ||
  has_glob_braces (S (String.length value)) value 0 ||
  has_glob_brackets value ||
  str_contains "?" value || str_contains "|" value.

(** [validate_child_relative_path] *)
Definition validate_child_relative_path (value : string) : result unit :=
  if str_contains_str ".." value
  then parse_error "parent directory traversal (..) is not supported"
  else Ok tt.

(** [GlobPath], [FilePath]: compared by their strings. *)
Abbreviation GlobPath := string.
Abbreviation FilePath := string.

(** [GlobPath::parse] *)
Definition GlobPath_parse (value : string) : result GlobPath :=
  let value := match strip_prefix "/!" value with Some s => "!/" ++ s | None => value end in
  let value := match strip_prefix "!" value with
               | Some suffix => "!" ++ trim_start_str "./" suffix
               | None => trim_start_str "./" value
               end in
  validate_child_relative_path value ;;?
  Ok value.

(** [FilePath::parse] *)
Definition FilePath_parse (value : string) : result FilePath :=
  validate_child_relative_path value ;;?
  if is_glob_like value then parse_error "globs are not supported, expected a literal file path"
  else Ok (trim_start_str "./" value).

(** [to_workspace_relative] of files and of globs ([macros.rs]): paths that start
    with a slash are relative to the workspace. *)
Definition file_to_workspace_relative `{ConfigSyntax} (file : FilePath) (project_source : string) :
  string :=
  match strip_prefix "/" file with
  | Some path => expand_to_workspace_relative None path
  | None => expand_to_workspace_relative (Some project_source) file
  end.

Definition glob_to_workspace_relative `{ConfigSyntax} (glob : GlobPath) (project_source : string) :
  string :=
  match strip_prefix "!/" glob, strip_prefix "/" glob with
  | Some path, _ => expand_to_workspace_relative None ("!" ++ path)
  | None, Some path => expand_to_workspace_relative None path
  | None, None => expand_to_workspace_relative (Some project_source) glob
  end.

(** ** URIs ([shapes/mod.rs]) *)

Record Uri : Type := mkUri {
  uri_scheme : string;
  uri_path : string;
  uri_query : list (string * string);
}.

Definition parse_segment (segment : string) : string * string :=
  match split_once "=" segment with Some kv => kv | None => (segment, "") end.

(** [Uri::parse] *)
Definition Uri_parse (value : string) : result Uri :=
  match split_once_str "://" value with
  | None => parse_error "missing scheme (protocol before ://)"
  | Some (scheme, suffix) =>
      match rfind_char "?" suffix with
      | Some index =>
          if decide (index ≠ (String.length suffix - 1)%nat ∧ index ≠ 0%nat) then
            Ok (mkUri scheme (str_take index suffix)
                  (parse_segment <$> split_on "&" (str_drop (index + 1) suffix)))
          else Ok (mkUri scheme suffix [])
      | None => Ok (mkUri scheme suffix [])
      end
  end.

(** [parse_bool_field] *)
Definition parse_bool_field (key value : string) : result bool :=
  if decide (value = "" ∨ value = "true") then Ok true
  else if decide (value = "false") then Ok false
  else parse_error ("unsupported value for `" ++ key ++ "`").

(** [Input::create_uri], [Output::create_uri] *)
Definition create_uri (value : string) : result Uri :=
  let value := standardize_separators value in
  Uri_parse
    (if str_contains_str "://" value then value
     else if is_glob_like value then "glob://" ++ str_replace "?" "__QM__" value
     else "file://" ++ value).

(** ** Inputs ([input.rs]) *)

Record FileInput : Type := mkFileInput {
  fin_file : FilePath;
  fin_content : option string; (* a regular expression, by its pattern *)
  fin_optional : option bool;
}.

Inductive FileGroupInputFormat : Type :=
| FormatStatic | FormatDirs | FormatEnvs | FormatFiles | FormatGlobs | FormatRoot.

Record FileGroupInput : Type := mkFileGroupInput {
  gin_group : string;
  gin_format : FileGroupInputFormat;
}.

Record GlobInput : Type := mkGlobInput {
  glin_glob : GlobPath;
  glin_cache : bool;
}.

Record ProjectInput : Type := mkProjectInput {
  pin_project : string;
  pin_filter : list string;
  pin_group : option string;
}.

Inductive Input : Type :=
| InEnvVar (name : string)
| InEnvVarGlob (name : string)
| InFile (input : FileInput)
| InFileGroup (input : FileGroupInput)
| InGlob (input : GlobInput)
| InProject (input : ProjectInput)
| InTokenFunc (token : string)
| InTokenVar (token : string).

Section Parsers.
Context `{IdSyntax} `{ConfigSyntax}.

(** [Id::new(value).map_err(map_parse_error)?] *)
Definition Id_parse (value : string) : result string :=
  if id_new value then Ok value else parse_error ("invalid identifier " ++ value).

(** [FileInput::from_uri], the body of its loop first *)
Definition file_input_field (input : FileInput) (field : string * string) : result FileInput :=
  let '(key, value) := field in
  if decide (key ∈ ["content"; "match"; "matches"]) then
    if decide (value = "") then Ok input
    else if regex_new value then Ok (mkFileInput (fin_file input) (Some value) (fin_optional input))
    else parse_error "invalid regular expression"
  else if decide (key = "optional") then
    let? b := parse_bool_field key value in
    Ok (mkFileInput (fin_file input) (fin_content input) (Some b))
  else parse_error ("unknown file field `" ++ key ++ "`").

Definition FileInput_from_uri (uri : Uri) : result FileInput :=
  let? file := FilePath_parse (uri_path uri) in
  ofold file_input_field (mkFileInput file None None) (uri_query uri).

(** [FileGroupInputFormat::from_str] *)
Definition FileGroupInputFormat_from_str (value : string) : result FileGroupInputFormat :=
  if decide (value = "static") then Ok FormatStatic
  else if decide (value = "dirs") then Ok FormatDirs
  else if decide (value = "envs") then Ok FormatEnvs
  else if decide (value = "files") then Ok FormatFiles
  else if decide (value = "globs") then Ok FormatGlobs
  else if decide (value = "root") then Ok FormatRoot
  else parse_error ("unknown enum variant " ++ value).

(** [FileGroupInput::from_uri] *)
Definition file_group_field (input : FileGroupInput) (field : string * string) :
  result FileGroupInput :=
  let '(key, value) := field in
  if decide (key ∈ ["as"; "format"]) then
    let? format := FileGroupInputFormat_from_str value in
    Ok (mkFileGroupInput (gin_group input) format)
  else parse_error ("unknown file group field `" ++ key ++ "`").

Definition FileGroupInput_from_uri (uri : Uri) : result FileGroupInput :=
  if decide (uri_path uri = "") then parse_error "a file group identifier is required"
  else
    let? group := Id_parse (uri_path uri) in
    ofold file_group_field (mkFileGroupInput group FormatStatic) (uri_query uri).

(** [GlobInput::from_uri]; the default of [cache] is [true] *)
Definition glob_input_field (input : GlobInput) (field : string * string) : result GlobInput :=
  let '(key, value) := field in
  if decide (key = "cache") then
    let? cache := parse_bool_field key value in
    Ok (mkGlobInput (glin_glob input) cache)
  else parse_error ("unknown glob field `" ++ key ++ "`").

Definition GlobInput_from_uri (uri : Uri) : result GlobInput :=
  let? glob := GlobPath_parse (str_replace "__QM__" "?" (uri_path uri)) in
  ofold glob_input_field (mkGlobInput glob true) (uri_query uri).

(** [ProjectInput::from_uri] *)
Definition project_input_field (input : ProjectInput) (field : string * string) :
  result ProjectInput :=
  let '(key, value) := field in
  if decide (key = "filter") then
    if decide (value = "") then Ok input
    else Ok (mkProjectInput (pin_project input) (pin_filter input ++ [value])%list
               (pin_group input))
  else if decide (key ∈ ["fileGroup"; "filegroup"; "group"]) then
    if decide (value = "") then Ok input
    else
      let? group := Id_parse value in
      Ok (mkProjectInput (pin_project input) (pin_filter input) (Some group))
  else parse_error ("unknown project field `" ++ key ++ "`").

Definition ProjectInput_from_uri (uri : Uri) : result ProjectInput :=
  if decide (uri_path uri = "") then parse_error "a project identifier is required"
  else
    let? project := if starts_with "^" (uri_path uri) then Ok (uri_path uri)
                    else Id_parse (uri_path uri) in
    ofold project_input_field (mkProjectInput project [] None) (uri_query uri).

(** [Input::from_str], which is [Input::parse] *)
Definition Input_of_uri (uri : Uri) : result Input :=
  let scheme := uri_scheme uri in
  if decide (scheme = "file") then let? input := FileInput_from_uri uri in Ok (InFile input)
  else if decide (scheme = "glob") then let? input := GlobInput_from_uri uri in Ok (InGlob input)
  else if decide (scheme ∈ ["group"; "filegroup"; "fileGroup"]) then
    let? input := FileGroupInput_from_uri uri in Ok (InFileGroup input)
  else if decide (scheme = "project") then
    let? input := ProjectInput_from_uri uri in Ok (InProject input)
  else parse_error ("input protocol `" ++ scheme ++ "://` is not supported").

Definition Input_parse (value : string) : result Input :=
  if starts_with "@" value && TOKEN_FUNC_DISTINCT value then Ok (InTokenFunc value)
  else
    let from_uri := let? uri := create_uri value in Input_of_uri uri in
    match strip_prefix "$" value with
    | Some var =>
        if ENV_VAR_DISTINCT value then Ok (InEnvVar var)
        else if ENV_VAR_GLOB_DISTINCT value then Ok (InEnvVarGlob var)
        else if TOKEN_VAR_DISTINCT value then Ok (InTokenVar value)
        else from_uri
    | None => from_uri
    end.
End Parsers.

(** [Input::as_str] *)
Definition Input_as_str (input : Input) : string :=
  match input with
  | InEnvVar value | InEnvVarGlob value | InTokenFunc value | InTokenVar value => value
  | InFile value => fin_file value
  | InFileGroup value => gin_group value
  | InGlob value => glin_glob value
  | InProject value => pin_project value
  end.

(** ** Outputs ([output.rs]) *)

Record FileOutput : Type := mkFileOutput {
  fout_file : FilePath;
  fout_optional : option bool;
}.

Record GlobOutput : Type := mkGlobOutput {
  gout_glob : GlobPath;
  gout_optional : option bool;
}.

Inductive Output : Type :=
| OutFile (output : FileOutput)
| OutGlob (output : GlobOutput)
| OutTokenFunc (token : string)
| OutTokenVar (token : string).

(** [FileOutput::from_uri], [GlobOutput::from_uri] *)
Definition FileOutput_from_uri (uri : Uri) : result FileOutput :=
  let? file := FilePath_parse (uri_path uri) in
  ofold (λ output '(key, value),
    if decide (key = "optional") then
      let? b := parse_bool_field key value in Ok (mkFileOutput (fout_file output) (Some b))
    else parse_error ("unknown file field `" ++ key ++ "`"))
    (mkFileOutput file None) (uri_query uri).

Definition GlobOutput_from_uri (uri : Uri) : result GlobOutput :=
  let? glob := GlobPath_parse (str_replace "__QM__" "?" (uri_path uri)) in
  ofold (λ output '(key, value),
    if decide (key = "optional") then
      let? b := parse_bool_field key value in Ok (mkGlobOutput (gout_glob output) (Some b))
    else parse_error ("unknown glob field `" ++ key ++ "`"))
    (mkGlobOutput glob None) (uri_query uri).

(** [Output::from_str], which is [Output::parse] *)
Definition Output_parse (value : string) : result Output :=
  if starts_with "@" value && TOKEN_FUNC_DISTINCT value then Ok (OutTokenFunc value)
  else if ENV_VAR_DISTINCT value then
    parse_error "environment variable is not supported by itself"
  else if ENV_VAR_GLOB_DISTINCT value then
    parse_error "environment variable globs are not supported"
  else if TOKEN_VAR_DISTINCT value then Ok (OutTokenVar value)
  else
    let? uri := create_uri value in
    if decide (uri_scheme uri = "file") then
      let? output := FileOutput_from_uri uri in Ok (OutFile output)
    else if decide (uri_scheme uri = "glob") then
      let? output := GlobOutput_from_uri uri in Ok (OutGlob output)
    else parse_error ("output protocol `" ++ uri_scheme uri ++ "://` is not supported").

(** [Output::as_str], [is_glob], [is_optional] *)
Definition Output_as_str (output : Output) : string :=
  match output with
  | OutTokenFunc value | OutTokenVar value => value
  | OutFile value => fout_file value
  | OutGlob value => gout_glob value
  end.

Definition Output_is_optional (output : Output) : bool :=
  match output with
  | OutFile value => default false (fout_optional value)
  | OutGlob value => default false (gout_optional value)
  | _ => false
  end.

(** ** File groups ([crates/file-group]) *)

Record FileGroup : Type := mkFileGroup {
  fg_env : list string;
  fg_files : list string;
  fg_globs : list string;
  fg_id : string;
}.

Section FileGroups.
Context `{IdSyntax} `{ConfigSyntax}.

(** [FileGroup::new], [add], [add_many] *)
Definition FileGroup_new (id : string) : result FileGroup :=
  if id_new id then Ok (mkFileGroup [] [] [] id) else Err (Foreign "invalid identifier").

Definition FileGroup_add (project_source : string) (group : FileGroup) (input : Input) :
  result FileGroup :=
  match input with
  | InEnvVar var | InEnvVarGlob var =>
      Ok (mkFileGroup (fg_env group ++ [var])%list (fg_files group) (fg_globs group) (fg_id group))
  | InTokenFunc _ | InTokenVar _ => Err (RFileGroup (NoTokens (fg_id group)))
  | InFile file =>
      Ok (mkFileGroup (fg_env group)
            (fg_files group ++ [file_to_workspace_relative (fin_file file) project_source])%list
            (fg_globs group) (fg_id group))
  | InGlob glob =>
      Ok (mkFileGroup (fg_env group) (fg_files group)
            (fg_globs group ++ [glob_to_workspace_relative (glin_glob glob) project_source])%list
            (fg_id group))
  | InFileGroup _ | InProject _ => Ok group
  end.

Definition FileGroup_add_many (group : FileGroup) (inputs : list Input) (project_source : string) :
  result FileGroup := ofold (FileGroup_add project_source) group inputs.
End FileGroups.

(** ** Arguments ([task_arg.rs]) *)

Record TaskArg : Type := mkTaskArg {
  ta_quoted_value : option string;
  ta_value : string;
}.

Definition double_quote : string := String "034" "".

(** The quotes an argument is recognised by. *)
Definition arg_quotes : list (string * string) :=
  [(double_quote, double_quote); ("'", "'"); ("$" ++ double_quote, double_quote); ("$'", "'");
   ("%(", ")"); ("r#'", "'#")].

(** [TaskArg::new], [new_quoted], [new_unquoted] *)
Definition TaskArg_new (base_value : string) : TaskArg :=
  match List.find (λ '(start, stop), starts_with start base_value && ends_with stop base_value)
          arg_quotes with
  | Some (start, stop) =>
      mkTaskArg (Some base_value) (trim_end_str stop (trim_start_str start base_value))
  | None => mkTaskArg None base_value
  end.

Definition TaskArg_new_quoted (without_quotes with_quotes : string) : TaskArg :=
  mkTaskArg (Some with_quotes) without_quotes.

Definition TaskArg_new_unquoted (value : string) : TaskArg := mkTaskArg None value.

(** [get_value] *)
Definition TaskArg_get_value (arg : TaskArg) : string := default (ta_value arg) (ta_quoted_value arg).

(** ** Checks ([task/checks_config.rs]) *)

Inductive TaskCheckFingerprint : Type :=
| HashExitCode | HashStderr | HashStdout | HashEnabled (state : bool).

Inductive TaskCheck : Type :=
| CheckCondition (script : string)
| CheckRequirement (script : string)
| CheckFingerprint (script : string) (hash : TaskCheckFingerprint).

(** [get_script] *)
Definition TaskCheck_get_script (check : TaskCheck) : string :=
  match check with
  | CheckCondition script | CheckRequirement script | CheckFingerprint script _ => script
  end.

(** ** Merging ([merging.rs]) *)

Inductive MergeStrategy : Type := MergeAppend | MergePrepend | MergePreserve | MergeReplace.

(** The items that are not in the list yet, in order: the closure [append] of
    [merge_vec] without [force]. *)
Definition append_items {A} `{EqDecision A} (dedupe : bool) (start items : list A) : list A :=
  fold_left (λ found item,
    if negb dedupe || bool_decide (item ∉ found) then (found ++ [item])%list else found) items start.

(** [merge_vec] *)
Definition merge_vec {A} `{EqDecision A} (base next : list A) (strategy : MergeStrategy)
  (index : nat) (dedupe : bool) : list A :=
  match strategy with
  | MergeAppend => if decide (next = []) then base else append_items dedupe base next
  | MergePrepend => if decide (next = []) then base else append_items dedupe next base
  | MergePreserve => if decide (index = 0%nat) then next else base
  | MergeReplace => next
  end.

(** [IndexMap::insert]: an entry keeps its place; [extend]. *)
Fixpoint index_insert {A} (map : list (string * A)) (key : string) (value : A) :
  list (string * A) :=
  match map with
  | [] => [(key, value)]
  | (k, v) :: map' =>
      if decide (k = key) then (key, value) :: map' else (k, v) :: index_insert map' key value
  end.

Definition index_extend {A} (map next : list (string * A)) : list (string * A) :=
  fold_left (λ map '(key, value), index_insert map key value) next map.

(** [merge_index_map] *)
Definition merge_index_map {A} (base next : list (string * A)) (strategy : MergeStrategy)
  (index : nat) : list (string * A) :=
  match strategy with
  | MergeAppend => match next with [] => base | _ => index_extend (index_extend [] base) next end
  | MergePrepend => match next with [] => base | _ => index_extend (index_extend [] next) base end
  | MergePreserve => if decide (index = 0%nat) then next else base
  | MergeReplace => next
  end.

(** [IndexMap::get] *)
Definition index_get {A} (map : list (string * A)) (key : string) : option A :=
  snd <$> List.find (λ '(k, _), bool_decide (k = key)) map.

#[export] Instance FileInput_eq_dec : EqDecision FileInput.
Proof. solve_decision. Defined.
#[export] Instance FileGroupInputFormat_eq_dec : EqDecision FileGroupInputFormat.
Proof. solve_decision. Defined.
#[export] Instance FileGroupInput_eq_dec : EqDecision FileGroupInput.
Proof. solve_decision. Defined.
#[export] Instance GlobInput_eq_dec : EqDecision GlobInput.
Proof. solve_decision. Defined.
#[export] Instance ProjectInput_eq_dec : EqDecision ProjectInput.
Proof. solve_decision. Defined.
#[export] Instance Input_eq_dec : EqDecision Input.
Proof. solve_decision. Defined.
#[export] Instance FileOutput_eq_dec : EqDecision FileOutput.
Proof. solve_decision. Defined.
#[export] Instance GlobOutput_eq_dec : EqDecision GlobOutput.
Proof. solve_decision. Defined.
#[export] Instance Output_eq_dec : EqDecision Output.
Proof. solve_decision. Defined.
#[export] Instance TaskArg_eq_dec : EqDecision TaskArg.
Proof. solve_decision. Defined.
#[export] Instance TaskCheckFingerprint_eq_dec : EqDecision TaskCheckFingerprint.
Proof. solve_decision. Defined.
#[export] Instance TaskCheck_eq_dec : EqDecision TaskCheck.
Proof. solve_decision. Defined.
#[export] Instance MergeStrategy_eq_dec : EqDecision MergeStrategy.
Proof. solve_decision. Defined.


(** ** Properties of merging *)

Section Merge.
Context {A : Type} `{EqDecision A}.
Implicit Types (base next items start : list A).

Lemma append_items_cons dedupe start x items :
  append_items dedupe start (x :: items) =
  append_items dedupe
    (if negb dedupe || bool_decide (x ∉ start) then (start ++ [x])%list else start) items.
Proof. done. Qed.

Lemma append_items_elem dedupe start items x :
  x ∈ append_items dedupe start items ↔ x ∈ start ∨ x ∈ items.
Proof.
  revert start. induction items as [|y items IH]; intros start; [cbn; set_solver|].
  rewrite append_items_cons, IH. destruct dedupe; cbn; [case_bool_decide|]; set_solver.
Qed.

Lemma append_items_NoDup start items : NoDup start → NoDup (append_items true start items).
Proof.
  revert start. induction items as [|y items IH]; intros start Hs; [done|].
  rewrite append_items_cons. cbn. apply IH. case_bool_decide; [|done].
  apply NoDup_app. split; [done|]. split; [|apply NoDup_singleton]. set_solver.
Qed.

(** Without duplicates to drop, the items are appended as they are. *)
Lemma append_items_app dedupe start items :
  (dedupe = true → NoDup items ∧ ∀ x, x ∈ items → x ∉ start) →
  append_items dedupe start items = (start ++ items)%list.
Proof.
  revert start. induction items as [|y items IH]; intros start Hd; [by rewrite app_nil_r|].
  rewrite append_items_cons.
  assert (negb dedupe || bool_decide (y ∉ start) = true) as ->.
  { destruct dedupe; [|done]. apply bool_decide_eq_true. apply Hd; [done|]. by left. }
  rewrite IH, <-app_assoc; [done|]. intros ->. destruct Hd as [Hnd Hs]; [done|].
  apply NoDup_cons in Hnd as [Hy Hnd]. split; [done|]. intros x Hx.
  rewrite elem_of_app, list_elem_of_singleton. intros [Hx'| ->]; [|done].
  apply (Hs x); [by right|done].
Qed.

(** What a merged list holds. *)
Lemma merge_vec_elem base next strategy index dedupe x :
  x ∈ merge_vec base next strategy index dedupe ↔
  match strategy with
  | MergeAppend | MergePrepend => x ∈ base ∨ x ∈ next
  | MergePreserve => if decide (index = 0%nat) then x ∈ next else x ∈ base
  | MergeReplace => x ∈ next
  end.
Proof.
  destruct strategy; cbn; repeat case_decide; subst; rewrite ?append_items_elem; set_solver.
Qed.

Lemma merge_vec_NoDup base next strategy index :
  NoDup base → NoDup next → NoDup (merge_vec base next strategy index true).
Proof.
  intros Hb Hn. destruct strategy; cbn; repeat case_decide; auto using append_items_NoDup.
Qed.
End Merge.

(** A map without two entries for a key. *)
Definition index_map_ok {A} (map : list (string * A)) : Prop := NoDup map.*1.

Section IndexMaps.
Context {A : Type}.
Implicit Types (map next : list (string * A)).

Lemma index_insert_keys map key value k :
  k ∈ (index_insert map key value).*1 ↔ k = key ∨ k ∈ map.*1.
Proof.
  induction map as [|[k' v'] map IH]; cbn; [set_solver|]. case_decide; subst; cbn; set_solver.
Qed.

Lemma index_insert_ok map key value : index_map_ok map → index_map_ok (index_insert map key value).
Proof.
  unfold index_map_ok. induction map as [|[k' v'] map IH]; cbn; [intros; apply NoDup_singleton|].
  intros [Hk Hm]%NoDup_cons. case_decide; subst; cbn; apply NoDup_cons; [done|].
  split; [|by apply IH]. rewrite index_insert_keys. naive_solver.
Qed.

Lemma index_extend_ok map next : index_map_ok map → index_map_ok (index_extend map next).
Proof.
  revert map. induction next as [|[k v] next IH]; intros map Hm; [done|].
  apply IH, index_insert_ok, Hm.
Qed.

Lemma index_insert_get map key value k :
  index_get (index_insert map key value) k =
  if decide (k = key) then Some value else index_get map k.
Proof.
  unfold index_get. induction map as [|[k' v'] map IH].
  - cbn. destruct (decide (k = key)) as [->|Hk]; case_bool_decide; cbn; congruence.
  - cbn [index_insert List.find]. destruct (decide (k' = key)) as [->|Hk']; cbn [List.find].
    + destruct (decide (k = key)) as [->|Hk].
      * by rewrite bool_decide_eq_true_2.
      * by rewrite !bool_decide_eq_false_2.
    + destruct (decide (k' = k)) as [->|Hk].
      * rewrite decide_False by congruence. by rewrite bool_decide_eq_true_2.
      * rewrite !bool_decide_eq_false_2 by done. apply IH.
Qed.

Lemma index_get_None map k : index_get map k = None ↔ k ∉ map.*1.
Proof.
  unfold index_get. induction map as [|[k' v'] map IH]; cbn; [set_solver|].
  case_bool_decide; subst; cbn; [set_solver|]. rewrite IH. set_solver.
Qed.

(** The entries of the map that is added win. *)
Lemma index_extend_get map next k :
  index_map_ok next →
  index_get (index_extend map next) k =
  match index_get next k with Some v => Some v | None => index_get map k end.
Proof.
  unfold index_map_ok. revert map. induction next as [|[k' v'] next IH]; intros map Hn; [done|].
  cbn in Hn. apply NoDup_cons in Hn as [Hk Hn]. cbn [index_extend fold_left].
  change (index_get (index_extend (index_insert map k' v') next) k =
          match index_get ((k', v') :: next) k with Some v => Some v | None => index_get map k end).
  rewrite (IH _ Hn), index_insert_get. unfold index_get at 3. cbn. case_bool_decide; subst; cbn.
  - apply index_get_None in Hk as ->. by case_decide.
  - fold (index_get next k). destruct (index_get next k); [done|]. case_decide; congruence.
Qed.

Lemma merge_index_map_ok base next strategy index :
  index_map_ok base → index_map_ok next → index_map_ok (merge_index_map base next strategy index).
Proof.
  intros Hb Hn. destruct strategy; cbn; try case_decide; try done; destruct next; try done;
    apply index_extend_ok, index_extend_ok; constructor.
Qed.

(** The value of a key after merging. *)
Lemma merge_index_map_get base next strategy index k :
  index_map_ok base → index_map_ok next →
  index_get (merge_index_map base next strategy index) k =
  match strategy with
  | MergeAppend =>
      match index_get next k with Some v => Some v | None => index_get base k end
  | MergePrepend =>
      match index_get base k with Some v => Some v | None => index_get next k end
  | MergePreserve => if decide (index = 0%nat) then index_get next k else index_get base k
  | MergeReplace => index_get next k
  end.
Proof.
  intros Hb Hn. destruct strategy; cbn [merge_index_map]; [| |by case_decide|done].
  - destruct next as [|e next]; [done|]. rewrite !index_extend_get by done. cbn.
    by destruct (index_get base k).
  - destruct next as [|e next]; [by cbn; destruct (index_get base k)|].
    rewrite !index_extend_get by done. by destruct (index_get base k), (index_get (e :: next) k).
Qed.
End IndexMaps.

(** ** Round trips *)

(** A path that was parsed may be refused when it is read again: the leading [./] that
    hides the exclamation mark is gone. *)
Lemma FilePath_parse_twice : ∃ path,
  FilePath_parse "./!a" = Ok path ∧ is_ok (FilePath_parse path) = false.
Proof. by exists "!a". Qed.

(** The fields of a [GlobInput] in its serialized form: [cache] is skipped if it is
    false, and true if it is missing. *)
Definition GlobInput_serialize (input : GlobInput) : GlobPath * option bool :=
  (glin_glob input, if glin_cache input then Some true else None).

Definition GlobInput_deserialize (fields : GlobPath * option bool) : GlobInput :=
  mkGlobInput fields.1 (default true fields.2).

(** So [cache: false] is lost, and everything else is kept. *)
Lemma GlobInput_serde input :
  GlobInput_deserialize (GlobInput_serialize input) = input ↔ glin_cache input = true.
Proof. by destruct input as [glob []]. Qed.

(** What an argument was parsed from is what it is printed as. *)
Lemma TaskArg_new_value s : TaskArg_get_value (TaskArg_new s) = s.
Proof. unfold TaskArg_new. by destruct (List.find _ _) as [[]|]. Qed.
