(* ===== verification/Config.v ===== *)
(** * Projects and tasks ([crates/config], [crates/project], [crates/task])

The data the other components work on: the fields of [Project], [Task] and of
their configuration that the modelled code reads, and the methods it calls.
Settings that no modelled function reads (those for Docker, owners and so on)
are left out. *)

From S2P Require Import Prelude Errors Target Shapes.

(** [moon_common::Id] *)
Abbreviation Id := string.

(** [WorkspaceRelativePathBuf], as its slash-separated string. *)
Abbreviation WorkspaceRelativePath := string.

(** ** Projects *)

(** [DependencyScope] ([config/src/project/dep_config.rs]) *)
Inductive DependencyScope : Type :=
| SBuild | SDevelopment | SPeer | SProduction | SRoot.

Definition is_development_group (s : DependencyScope) : bool :=
  match s with SDevelopment | SBuild | SRoot => true | _ => false end.

Definition is_production_group (s : DependencyScope) : bool :=
  match s with SProduction | SPeer => true | _ => false end.

(** [ProjectDependencyConfig] *)
Record ProjectDependencyConfig : Type := mkProjectDep {
  pdep_id : Id;
  pdep_scope : DependencyScope;
}.

(** [is_root_scope] *)
Definition is_root_scope (d : ProjectDependencyConfig) : bool :=
  match pdep_scope d with SRoot => true | _ => false end.

(** [StackType] ([config/src/project_config.rs]) *)
Inductive StackType : Type :=
| Backend | Data | Frontend | Infrastructure | Systems | UnknownStack.

(** [LanguageType] ([config/src/project/language.rs]) *)
Inductive LanguageType : Type :=
| Bash | Batch | CPlusPlus | CSharp | DotNet | Go | Java | JavaScript | Kotlin | Php | Python
| Ruby | Rust | Swift | TypeScript
| UnknownLanguage
| OtherLanguage (id : Id).

(** ** Toolchains *)

(** [Id::stable], [Id::unstable], [Id::stable_and_unstable] ([common/src/id.rs]) *)
Definition Id_stable (id : Id) : Id :=
  match strip_prefix "unstable_" id with Some suffix => suffix | None => id end.

Definition Id_unstable (id : Id) : Id :=
  if starts_with "unstable_" id then id else String.append "unstable_" id.

Definition stable_and_unstable (id : Id) : Id * Id := (Id_stable id, Id_unstable id).

(** [ToolchainPluginConfig] ([config/src/toolchains_config.rs]): the settings the
    modelled code reads.  A version is its string form. *)
Record ToolchainPluginConfig : Type := mkToolchainPluginConfig {
  tc_inherit_aliases : bool;
  tc_install_dependencies : bool;
  tc_version : option string;
}.

(** [ToolchainsConfig] *)
Record ToolchainsConfig : Type := mkToolchainsConfig {
  tcs_plugins : gmap Id ToolchainPluginConfig;
  tcs_proto_version : string;
}.

(** [get_plugin_config] of both kinds of toolchain settings. *)
Definition lookup_plugin {A} (plugins : gmap Id A) (id : Id) : option A :=
  let '(stable_id, unstable_id) := stable_and_unstable id in
  match plugins !! stable_id with
  | Some config => Some config
  | None => plugins !! unstable_id
  end.

(** [ToolchainsConfig::get_plugin_config], [requires_proto] *)
Definition ToolchainsConfig_get_plugin_config (c : ToolchainsConfig) (id : Id) :
  option ToolchainPluginConfig := lookup_plugin (tcs_plugins c) id.

Definition requires_proto (c : ToolchainsConfig) : bool :=
  existsb (λ '(_, config), match tc_version config with Some _ => true | None => false end)
    (map_to_list (tcs_plugins c)).

(** [ProjectToolchainEntry] ([config/src/project/overrides_config.rs]) *)
Inductive ProjectToolchainEntry : Type :=
| EntryDisabled
| EntryEnabled (state : bool)
| EntryObject (config : ToolchainPluginConfig).

Definition ProjectToolchainEntry_is_enabled (e : ProjectToolchainEntry) : bool :=
  match e with EntryDisabled => false | EntryEnabled state => state | EntryObject _ => true end.

Definition ProjectToolchainEntry_get_version (e : ProjectToolchainEntry) : option string :=
  match e with EntryObject config => tc_version config | _ => None end.

(** [PipelineActionSwitch] ([config/src/workspace/pipeline_config.rs]) *)
Inductive PipelineActionSwitch : Type :=
| SwitchDefault
| SwitchEnabled (value : bool)
| SwitchOnly (list : list Id).

Definition PipelineActionSwitch_is_enabled (s : PipelineActionSwitch) (id : Id) : bool :=
  match s with
  | SwitchDefault => true
  | SwitchEnabled value => value
  | SwitchOnly list => bool_decide (id ∈ list)
  end.

(** ** Tasks *)

(** [EnvMap]: an [IndexMap], its entries in insertion order. *)
Abbreviation EnvMap := (list (string * option string)).

(** [TaskDependencyType]: the weight of an edge between tasks. *)
Inductive TaskDependencyType : Type := Cleanup | Required | Optional.

(** [TaskDependencyCacheStrategy] *)
Inductive TaskDependencyCacheStrategy : Type := CacheHash | CacheIgnored | CacheOutputs.

(** [TaskDependencyConfig] ([config/src/task_config.rs]) *)
Record TaskDependencyConfig : Type := mkTaskDep {
  dep_args : list string;
  dep_cache_strategy : option TaskDependencyCacheStrategy;
  dep_env : EnvMap;
  dep_target : Target;
  dep_optional : option bool;
}.

(** [TaskOptionRunInCI], [TaskPriority] ([config/src/task_options_config.rs]) *)
Inductive TaskOptionRunInCI : Type :=
| Always | AffectedOnly | Only | Skip | Enabled (state : bool).

(** [is_enabled], from [generate_switch!] ([config/src/macros.rs]) *)
Definition TaskOptionRunInCI_is_enabled (r : TaskOptionRunInCI) : bool :=
  match r with Enabled false => false | _ => true end.

Inductive TaskPriority : Type := Critical | High | Normal | Low.

(** [TaskPriority::get_level] *)
Definition get_level (p : TaskPriority) : nat :=
  match p with Critical => 0 | High => 1 | Normal => 2 | Low => 3 end.

(** [TaskType] *)
Inductive TaskType : Type := TypeBuild | TypeRun | TypeTest.

(** [TaskOptionAffectedFilesPattern], [TaskOptionAffectedFilesConfig],
    [TaskOptionAffectedFilesEntry] *)
Inductive TaskOptionAffectedFilesPattern : Type :=
| PassArgs | PassEnv | PassEnabled (state : bool).

Record TaskOptionAffectedFilesConfig : Type := mkAffectedFilesConfig {
  afc_filter : list GlobPath;
  afc_ignore_project_boundary : option bool;
  afc_pass : TaskOptionAffectedFilesPattern;
  afc_pass_inputs_when_no_match : option bool;
  afc_pass_dot_when_no_results : option bool;
}.

Inductive TaskOptionAffectedFilesEntry : Type :=
| AffectedPattern (pattern : TaskOptionAffectedFilesPattern)
| AffectedObject (config : TaskOptionAffectedFilesConfig).

(** [TaskOptionCache], [TaskOptionEnvFile] *)
Inductive TaskOptionCache : Type := CacheLocal | CacheRemote | CacheEnabled (state : bool).

Inductive TaskOptionEnvFile : Type :=
| EnvFileEnabled (state : bool)
| EnvFileFile (path : FilePath)
| EnvFileFiles (paths : list FilePath).

(** [is_enabled] of [generate_switch!], [is_local_enabled], [is_remote_enabled] *)
Definition TaskOptionCache_is_enabled (c : TaskOptionCache) : bool :=
  match c with CacheEnabled false => false | _ => true end.

Definition is_local_enabled (c : TaskOptionCache) : bool :=
  match c with CacheEnabled true | CacheLocal => true | _ => false end.

Definition is_remote_enabled (c : TaskOptionCache) : bool :=
  match c with CacheEnabled true | CacheRemote => true | _ => false end.

(** [TaskOutputStyle], [TaskOperatingSystem], [TaskUnixShell], [TaskWindowsShell] *)
Inductive TaskOutputStyle : Type :=
| StyleBuffer | StyleBufferOnlyFailure | StyleHash | StyleNone | StyleStream.

Inductive TaskOperatingSystem : Type := Linux | Macos | Windows.

Inductive TaskUnixShell : Type :=
| UnixBash | UnixElvish | UnixFish | UnixIon | UnixMurex | UnixNu | UnixPwsh | UnixSh | UnixXonsh
| UnixZsh.

Inductive TaskWindowsShell : Type :=
| WinBash | WinElvish | WinFish | WinMurex | WinNu | WinPwsh | WinPowerShell | WinXonsh.

(** [is_current_system], with the constant [consts::OS] *)
Definition is_current_system (os : string) (s : TaskOperatingSystem) : bool :=
  match s with
  | Linux => bool_decide (os = "linux"%string) || ends_with "bsd" os
  | Macos => bool_decide (os = "macos"%string)
  | Windows => bool_decide (os = "windows"%string)
  end.

(** [TaskOptionsConfig] ([config/src/task_options_config.rs]); [OneOrMany] is the
    list it converts to. *)
Record TaskOptionsConfig : Type := mkTaskOptionsConfig {
  oc_affected_files : option TaskOptionAffectedFilesEntry;
  oc_allow_failure : option bool;
  oc_cache : option TaskOptionCache;
  oc_cache_key : option string;
  oc_cache_lifetime : option string;
  oc_env_file : option TaskOptionEnvFile;
  oc_infer_inputs : option bool;
  oc_interactive : option bool;
  oc_internal : option bool;
  oc_merge : option MergeStrategy;
  oc_merge_args : option MergeStrategy;
  oc_merge_checks : option MergeStrategy;
  oc_merge_deps : option MergeStrategy;
  oc_merge_env : option MergeStrategy;
  oc_merge_inputs : option MergeStrategy;
  oc_merge_outputs : option MergeStrategy;
  oc_merge_tags : option MergeStrategy;
  oc_merge_toolchains : option MergeStrategy;
  oc_mutex : option string;
  oc_os : option (list TaskOperatingSystem);
  oc_output_style : option TaskOutputStyle;
  oc_persistent : option bool;
  oc_priority : option TaskPriority;
  oc_retry_count : option nat;
  oc_run_deps_in_parallel : option bool;
  oc_run_in_ci : option TaskOptionRunInCI;
  oc_run_in_sync_phase : option bool;
  oc_run_from_workspace_root : option bool;
  oc_shell : option bool;
  oc_timeout : option nat;
  oc_unix_shell : option TaskUnixShell;
  oc_windows_shell : option TaskWindowsShell;
}.

(** [TaskOptionsConfig::default] *)
Definition TaskOptionsConfig_default : TaskOptionsConfig :=
  mkTaskOptionsConfig None None None None None None None None None None None None None None None
    None None None None None None None None None None None None None None None None None.

(** [TaskOptionAffectedFiles], [TaskOptions] ([task/src/task_options.rs]) *)
Record TaskOptionAffectedFiles : Type := mkAffectedFiles {
  af_filter : list string;
  af_ignore_project_boundary : bool;
  af_pass : TaskOptionAffectedFilesPattern;
  af_pass_inputs_when_no_match : bool;
  af_pass_dot_when_no_results : bool;
}.

Record TaskOptions : Type := mkTaskOptions {
  o_affected_files : option TaskOptionAffectedFiles;
  o_allow_failure : bool;
  o_cache : TaskOptionCache;
  o_cache_key : option string;
  o_cache_lifetime : option string;
  o_env_files : option (list Input);
  o_infer_inputs : bool;
  o_internal : bool;
  o_interactive : bool;
  o_merge_args : MergeStrategy;
  o_merge_checks : MergeStrategy;
  o_merge_deps : MergeStrategy;
  o_merge_env : MergeStrategy;
  o_merge_inputs : MergeStrategy;
  o_merge_outputs : MergeStrategy;
  o_merge_tags : MergeStrategy;
  o_merge_toolchains : MergeStrategy;
  o_mutex : option string;
  o_os : option (list TaskOperatingSystem);
  o_output_style : option TaskOutputStyle;
  o_persistent : bool;
  o_priority : TaskPriority;
  o_retry_count : nat; (* at most 255 *)
  o_run_deps_in_parallel : bool;
  o_run_in_ci : TaskOptionRunInCI;
  o_run_in_sync_phase : bool;
  o_run_from_workspace_root : bool;
  o_shell : option bool;
  o_timeout : option nat;
  o_unix_shell : TaskUnixShell;
  o_windows_shell : TaskWindowsShell;
}.

(** [TaskOptions::default] *)
Definition TaskOptions_default : TaskOptions :=
  mkTaskOptions None false (CacheEnabled true) None None None false false false MergeAppend
    MergeAppend MergeAppend MergeAppend MergeAppend MergeAppend MergeAppend MergeAppend None None
    None false Normal 0 true (Enabled true) false false (Some true) None UnixBash WinPwsh.

(** Options with other values for what relates a task to those that depend on it. *)
Definition options_with (o : TaskOptions) (allow_failure persistent run_deps_in_parallel : bool)
  (run_in_ci : TaskOptionRunInCI) : TaskOptions :=
  mkTaskOptions (o_affected_files o) allow_failure (o_cache o) (o_cache_key o) (o_cache_lifetime o)
    (o_env_files o) (o_infer_inputs o) (o_internal o) (o_interactive o) (o_merge_args o)
    (o_merge_checks o) (o_merge_deps o) (o_merge_env o) (o_merge_inputs o) (o_merge_outputs o)
    (o_merge_tags o) (o_merge_toolchains o) (o_mutex o) (o_os o) (o_output_style o) persistent
    (o_priority o) (o_retry_count o) run_deps_in_parallel run_in_ci (o_run_in_sync_phase o)
    (o_run_from_workspace_root o) (o_shell o) (o_timeout o) (o_unix_shell o) (o_windows_shell o).

(** [TaskPreset], [TaskArgs], [TaskDependency] ([config/src/task_config.rs]) *)
Inductive TaskPreset : Type := PresetUtility | PresetServer.

Inductive TaskArgs : Type :=
| ArgsNoop
| ArgsString (line : string)
| ArgsList (args : list string).

Inductive TaskDependency : Type :=
| DependencyTarget (target : Target)
| DependencyObject (config : TaskDependencyConfig).

(** [TaskDependency::into_config] *)
Definition into_config (dep : TaskDependency) : TaskDependencyConfig :=
  match dep with
  | DependencyObject config => config
  | DependencyTarget target => mkTaskDep [] None [] target None
  end.

(** [TaskConfig] *)
Record TaskConfig : Type := mkTaskConfig {
  cfg_extends : option Id;
  cfg_description : option string;
  cfg_command : TaskArgs;
  cfg_args : TaskArgs;
  cfg_checks : option (list TaskCheck);
  cfg_deps : option (list TaskDependency);
  cfg_env : option EnvMap;
  cfg_global_inputs : list Input;
  cfg_inputs : option (list Input);
  cfg_outputs : option (list Output);
  cfg_options : TaskOptionsConfig;
  cfg_preset : option TaskPreset;
  cfg_script : option string;
  cfg_tags : option (list Id);
  cfg_toolchains : option (list Id);
  cfg_type_of : option TaskType;
}.

(** [TaskFileInput]: the content matcher is a regular expression, by its
    pattern. *)
Record TaskFileInput : Type := mkTaskFileInput {
  fi_content : option string;
  fi_optional : option bool;
}.

(** [TaskState] ([task/src/task.rs]) *)
Record TaskState : Type := mkTaskState {
  ts_default_inputs : bool;
  ts_empty_inputs : bool;
  ts_expanded : bool;
  ts_root_level : bool;
  ts_set_run_in_ci : bool;
  ts_shell_disabled : bool;
}.

(** [TaskState::default] *)
Definition TaskState_default : TaskState := mkTaskState false false false false false false.

(** [Task] ([task/src/task.rs]).  The sets and maps the code iterates over are
    in iteration order: [input_env], [input_globs] and [output_globs] are
    lists.  The parameter of a glob only says whether walking it is cached, and is
    left out. *)
Record Task : Type := mkTask {
  t_command : TaskArg;
  t_args : list TaskArg;
  t_checks : list TaskCheck;
  t_deps : list TaskDependencyConfig;
  t_description : option string;
  t_env : EnvMap;
  t_id : Id;
  t_inputs : list Input;
  t_input_env : list string;
  t_input_files : gmap WorkspaceRelativePath TaskFileInput;
  t_input_globs : list string;
  t_options : TaskOptions;
  t_outputs : list Output;
  t_output_files : gmap WorkspaceRelativePath bool; (* whether it is optional *)
  t_output_globs : list string;
  t_preset : option TaskPreset;
  t_script : option string;
  t_state : TaskState;
  t_tags : list Id;
  t_target : Target;
  t_toolchains : list Id;
  t_type_of : TaskType;
}.

(** [Task::default] *)
Definition Task_default : Task :=
  mkTask (TaskArg_new "noop") [] [] [] None [] "" [] [] ∅ [] TaskOptions_default [] ∅ [] None None
    TaskState_default [] (mkTarget "~:unknown" OwnSelf TId 1) ["system"%string] TypeTest.

(** Tasks with other dependencies, and with other files and globs as inputs. *)
Definition set_deps (t : Task) (deps : list TaskDependencyConfig) : Task :=
  mkTask (t_command t) (t_args t) (t_checks t) deps (t_description t) (t_env t) (t_id t) (t_inputs t)
    (t_input_env t) (t_input_files t) (t_input_globs t) (t_options t) (t_outputs t)
    (t_output_files t) (t_output_globs t) (t_preset t) (t_script t) (t_state t) (t_tags t)
    (t_target t) (t_toolchains t) (t_type_of t).

Definition set_inputs (t : Task) (files : gmap WorkspaceRelativePath TaskFileInput)
  (globs : list string) : Task :=
  mkTask (t_command t) (t_args t) (t_checks t) (t_deps t) (t_description t) (t_env t) (t_id t)
    (t_inputs t) (t_input_env t) files globs (t_options t) (t_outputs t) (t_output_files t)
    (t_output_globs t) (t_preset t) (t_script t) (t_state t) (t_tags t) (t_target t)
    (t_toolchains t) (t_type_of t).

(** [Task::is_internal], [is_interactive], [is_persistent] *)
Definition is_internal (t : Task) : bool := o_internal (t_options t).
Definition is_interactive (t : Task) : bool := o_interactive (t_options t).
Definition is_persistent (t : Task) : bool := o_persistent (t_options t).

(** [Task::has_outputs] *)
Definition has_outputs (t : Task) : bool :=
  negb (bool_decide (t_outputs t = [])) || negb (bool_decide (t_output_files t = ∅)) ||
  negb (bool_decide (t_output_globs t = [])).

(** [Task::is_no_op] *)
Definition is_no_op (t : Task) : bool :=
  bool_decide (ta_value (t_command t) ∈ ["nop"; "noop"; "no-op"]%string) &&
  match t_script t with None => true | Some _ => false end.

(** [Task::should_run] *)
Definition should_run (t : Task) (in_ci : bool) : bool :=
  if in_ci then
    match o_run_in_ci (t_options t) with
    | Skip => false
    | Enabled state => state
    | _ => true
    end
  else
    match o_run_in_ci (t_options t) with Only => false | _ => true end.

(** ** Projects *)

(** [ProjectDependsOn] *)
Inductive ProjectDependsOn : Type :=
| DependsOnString (id : Id)
| DependsOnObject (config : ProjectDependencyConfig).

(** [ProjectWorkspaceInheritedTasksConfig], [ProjectWorkspaceConfig] with its
    merge strategies ([config/src/project/overrides_config.rs]) *)
Record ProjectWorkspaceInheritedTasksConfig : Type := mkInheritedTasksFilters {
  filter_exclude : list Id;
  filter_include : option (list Id);
  filter_rename : gmap Id Id;
}.

Record ProjectWorkspaceConfig : Type := mkProjectWorkspaceConfig {
  pwc_inherited_tasks : ProjectWorkspaceInheritedTasksConfig;
  pwc_merge_env : option MergeStrategy;
  pwc_merge_file_groups : option MergeStrategy;
}.

Definition ProjectWorkspaceConfig_default : ProjectWorkspaceConfig :=
  mkProjectWorkspaceConfig (mkInheritedTasksFilters [] None ∅) None None.

(** [ProjectMetadataConfig]; custom fields are JSON values, by their text. *)
Record ProjectMetadataConfig : Type := mkProjectMetadata {
  md_title : option string;
  md_description : option string;
  md_owner : option string;
  md_maintainers : list string;
  md_channel : option string;
  md_metadata : gmap string string;
}.

(** [ProjectConfig]: the settings the modelled code reads. *)
Record ProjectConfig : Type := mkProjectConfig {
  config_depends_on : list ProjectDependsOn;
  config_env : EnvMap;
  config_file_groups : gmap Id (list Input);
  config_id : option Id;
  config_language : LanguageType;
  config_layer : LayerType;
  config_project : option ProjectMetadataConfig;
  config_stack : StackType;
  config_tags : list Id;
  config_tasks : gmap Id TaskConfig;
  config_task_options : option TaskOptionsConfig;
  config_toolchains_default : option (list Id);
  config_toolchains : gmap Id ProjectToolchainEntry;
  config_workspace : ProjectWorkspaceConfig;
}.

(** [ProjectConfig::default] *)
Definition ProjectConfig_default : ProjectConfig :=
  mkProjectConfig [] [] ∅ None UnknownLanguage UnknownLayer None UnknownStack [] ∅ None None ∅
    ProjectWorkspaceConfig_default.

(** [Project] ([project/src/project.rs]) *)
Record Project : Type := mkProject {
  p_aliases : list string;
  p_config : ProjectConfig;
  p_dependencies : list ProjectDependencyConfig;
  p_file_groups : list (Id * FileGroup); (* in the order of the identifiers *)
  p_id : Id;
  p_language : LanguageType;
  p_layer : LayerType;
  p_root : string; (* an absolute path *)
  p_source : WorkspaceRelativePath;
  p_stack : StackType;
  p_task_targets : list Target;
  p_tasks : list (Id * Task); (* in the order of the identifiers *)
  p_toolchains : list Id;
}.

(** [Project::is_root_level] *)
Definition is_root_level (p : Project) : bool := is_root_level_source (p_source p).

(** [Project::get_dependency_ids] *)
Definition get_dependency_ids (p : Project) : list Id := map pdep_id (p_dependencies p).

(** [Project::matches_locator] *)
Definition matches_locator (p : Project) (locator : string) : bool :=
  bool_decide (p_id p = locator) || bool_decide (locator ∈ p_aliases p).

(** The file system, the environment and the pattern matching libraries, which
    are outside the repository. *)
Class Host : Type := {
  env_get : string → option string;
  file_exists : WorkspaceRelativePath → bool;
  read_file : WorkspaceRelativePath → result string;
  regex_is_match : string → string → bool;
  path_starts_with : WorkspaceRelativePath → WorkspaceRelativePath → bool;
  split_patterns : list string → list string * list string;
  GlobSet : Type;
  GlobSet_new_split : list string → list string → result GlobSet;
  GlobSet_matches : GlobSet → string → bool;
}.

(** [Task::create_globset] *)
Definition create_globset `{Host} (t : Task) : result GlobSet :=
  let '(gi, ni) := split_patterns (t_input_globs t) in
  let '(go, no) := split_patterns (t_output_globs t) in
  GlobSet_new_split gi (go ++ ni ++ no).

(** Decidable equality and countability of the types used as keys. *)
#[export] Instance DependencyScope_eq_dec : EqDecision DependencyScope.
Proof. solve_decision. Defined.
#[export] Instance LayerType_eq_dec : EqDecision LayerType.
Proof. solve_decision. Defined.
#[export] Instance LanguageType_eq_dec : EqDecision LanguageType.
Proof. solve_decision. Defined.
#[export] Instance StackType_eq_dec : EqDecision StackType.
Proof. solve_decision. Defined.
#[export] Instance TaskDependencyCacheStrategy_eq_dec : EqDecision TaskDependencyCacheStrategy.
Proof. solve_decision. Defined.
#[export] Instance TaskDependencyConfig_eq_dec : EqDecision TaskDependencyConfig.
Proof. solve_decision. Defined.
#[export] Instance TaskType_eq_dec : EqDecision TaskType.
Proof. solve_decision. Defined.
#[export] Instance TaskOptionRunInCI_eq_dec : EqDecision TaskOptionRunInCI.
Proof. solve_decision. Defined.

#[export] Instance TargetDependencyScope_countable : Countable TargetDependencyScope.
Proof.
  refine (inj_countable'
    (λ s, match s with Build => 0 | Development => 1 | Peer => 2 | Production => 3 end)
    (λ n, match n with 0 => Build | 1 => Development | 2 => Peer | _ => Production end)
    _). by intros [].
Defined.

#[export] Instance TargetProjectScope_countable : Countable TargetProjectScope.
Proof.
  refine (inj_countable'
    (λ s, match s with
          | All => inl 0 | Deps => inl 1 | DepsOf d => inr d
          | PId => inl 2 | OwnSelf => inl 3 | PTag => inl 4 end)
    (λ n, match n with
          | inl 0 => All | inl 1 => Deps | inr d => DepsOf d
          | inl 2 => PId | inl 3 => OwnSelf | inl _ => PTag end) _).
  by intros [].
Defined.

#[export] Instance TargetTaskScope_countable : Countable TargetTaskScope.
Proof.
  refine (inj_countable'
    (λ s, match s with TId => false | TTag => true end)
    (λ b, match b with false => TId | true => TTag end) _).
  by intros [].
Defined.

#[export] Instance Target_countable : Countable Target.
Proof.
  refine (inj_countable'
    (λ t, (id t, project t, task t, index t))
    (λ '(i, p, t, x), mkTarget i p t x) _).
  by intros [].
Defined.
