(* ===== verification/EnvVar.v ===== *)
(** * Environment variables ([crates/env-var])

Finding variables in text, replacing them, and reading env files.  Text is ASCII
where a pattern asks for a character or a letter. *)

From S2P Require Import Prelude Errors Shapes Config.

#[local] Open Scope string_scope.

(** ** Patterns ([lib.rs]) *)

(** What can follow [$] before the name, in the order in which it is tried: the
    namespaces, in which a dot stands for any character but a line feed, and
    nothing. *)
Definition any_char (s : string) : option (string * string) :=
  match s with
  | EmptyString => None
  | String c s' => if Ascii.eqb c "010" then None else Some (String c "", s')
  end.

Definition literal_namespace (p rest : string) : option (string * string) := pair p <$> strip_prefix p rest.
Definition dotted_namespace (p rest : string) : option (string * string) :=
  '(c, rest) ← strip_prefix p rest ≫= any_char; Some (p ++ c, rest).

Definition namespaces (rest : string) : list (string * string) :=
  (omap (λ p, literal_namespace p rest) ["E:"; "env::"; "env:"] ++
   omap (λ p, dotted_namespace p rest) ["env"; "ENV"] ++ [("", rest)])%list.

(** The first namespace that is followed by a name: the namespace, the name and the rest. *)
Definition namespaced_name (rest : string) : option (string * string * string) :=
  head (omap (λ '(namespace, rest),
    match span_while env_char rest with
    | (EmptyString, _) => None
    | (name, rest) => Some (namespace, name, rest)
    end) (namespaces rest)).

(** [ENV_VAR] at the start of a string *)
Definition ENV_VAR (s : string) : option (string * string * string) :=
  strip_prefix "$" s ≫= namespaced_name.

Record EnvCapture : Type := mkCapture {
  cap_namespace : string;
  cap_name : string;
  cap_flag : option string;
  cap_fallback : string;
}.

(** The flag, in the order of the alternatives, and the fallback before the closing bracket. *)
Definition env_flag (s : string) : option string * string :=
  match head (omap (λ p, pair (Some p) <$> strip_prefix p s) ["!"; "?"; ":-"; ":+"; "-"; "+"; ":"]) with
  | Some found => found
  | None => (None, s)
  end.

(** [ENV_VAR_BRACKETS] at the start of a string *)
Definition ENV_VAR_BRACKETS (s : string) : option (EnvCapture * string) :=
  '(namespace, name, rest) ← strip_prefix "${" s ≫= namespaced_name;
  let '(flag, rest) := env_flag rest in
  '(fallback, rest) ← split_once "}" rest;
  Some (mkCapture namespace name flag fallback, rest).

Definition is_some {A} (o : option A) : bool := match o with Some _ => true | None => false end.

(** [contains_env_var] *)
Fixpoint contains_env_var (s : string) : bool :=
  is_some (ENV_VAR s) || is_some (ENV_VAR_BRACKETS s) ||
  match s with EmptyString => false | String _ s' => contains_env_var s' end.

(** ** The environment of the process ([global_bag.rs]) *)

(** With the variables of the process itself. *)
Record GlobalEnvBag : Type := mkBag {
  bag_inherited : gmap string string;
  bag_added : gmap string string;
  bag_removed : gset string;
  bag_process : gmap string string;
}.

(** [instance], when it is first asked for *)
Definition GlobalEnvBag_instance (process : gmap string string) : GlobalEnvBag :=
  mkBag process ∅ ∅ process.

(** [has] *)
Definition bag_has (b : GlobalEnvBag) (key : string) : bool :=
  is_some (bag_inherited b !! key) || is_some (bag_added b !! key).

(** [get]; a variable that is only found in the process is inherited from then on *)
Definition bag_get (b : GlobalEnvBag) (key : string) : option string * GlobalEnvBag :=
  match bag_added b !! key with
  | Some value => (Some value, b)
  | None =>
      match bag_inherited b !! key with
      | Some value => (Some value, b)
      | None =>
          match bag_process b !! key with
          | Some value =>
              (Some value, mkBag (<[key := value]> (bag_inherited b)) (bag_added b) (bag_removed b) (bag_process b))
          | None => (None, b)
          end
      end
  end.

(** [s.contains(p)] for a string pattern *)
Definition str_has (p s : string) : bool := is_some (rfind_str p s).

(** Whether a variable is also set in the process. *)
Definition is_propagated (key : string) : bool :=
  starts_with "PROTO" key || starts_with "STARBASE" key || starts_with "WARPGATE" key || str_has "COLOR" key ||
  bool_decide (key = "PATH") || bool_decide (key = "MOON_VERSION").

(** [set], [remove] *)
Definition bag_set (b : GlobalEnvBag) (key value : string) : GlobalEnvBag :=
  mkBag (bag_inherited b) (<[key := value]> (bag_added b)) (bag_removed b)
    (if is_propagated key then <[key := value]> (bag_process b) else bag_process b).

Definition bag_remove (b : GlobalEnvBag) (key : string) : GlobalEnvBag :=
  mkBag (delete key (bag_inherited b)) (delete key (bag_added b)) ({[key]} ∪ bag_removed b) (bag_process b).

(** [list], [list_added] *)
Definition bag_list (b : GlobalEnvBag) : list (string * string) :=
  (map_to_list (bag_inherited b) ++ map_to_list (bag_added b))%list.

Definition bag_list_added (b : GlobalEnvBag) : list (string * string) := map_to_list (bag_added b).
Definition bag_list_removed (b : GlobalEnvBag) : list string := elements (bag_removed b).

(** ** Substitution ([env_substitutor.rs]) *)

(** [EnvSubstitutor]; the names that were replaced are the result of a substitution. *)
Record EnvSubstitutor : Type := mkSubstitutor {
  sub_global_vars : option GlobalEnvBag;
  sub_local_vars : EnvMap;
}.

Definition EnvSubstitutor_default : EnvSubstitutor := mkSubstitutor None [].

(** [with_global_vars], [with_local_vars] *)
Definition with_global_vars (s : EnvSubstitutor) (vars : GlobalEnvBag) : EnvSubstitutor :=
  mkSubstitutor (Some vars) (sub_local_vars s).
Definition with_local_vars (s : EnvSubstitutor) (vars : EnvMap) : EnvSubstitutor :=
  mkSubstitutor (sub_global_vars s) (index_extend (sub_local_vars s) vars).

(** [get_replacement_value] *)
Definition get_replacement_value (s : EnvSubstitutor) (key : string) (parent_key : option string) : string :=
  let global := default "" (bag ← sub_global_vars s; (bag_get bag key).1) in
  if decide (parent_key = Some key) then global
  else match index_get (sub_local_vars s) key with
       | Some (Some value) => value
       | _ => global
       end.

(** [get_token_value] *)
Definition get_token_value (namespace key : string) : string :=
  if decide (namespace = "env::") then "${" ++ namespace ++ key ++ "}" else "$" ++ namespace ++ key.

(** [pattern.replace_all(value, replacer)]: matches from the left that do not overlap.
    A match is not empty, so as many rounds as the text has bytes are enough. *)
Fixpoint replace_all_fuel {A} (fuel : nat) (pattern : string → option (A * string)) (replacer : A → string)
    (s : string) : string * list A :=
  match fuel with
  | 0 => (s, [])
  | S fuel' =>
      match pattern s with
      | Some (a, rest) =>
          let '(rest, found) := replace_all_fuel fuel' pattern replacer rest in
          (replacer a ++ rest, a :: found)
      | None =>
          match s with
          | EmptyString => (EmptyString, [])
          | String c s' =>
              let '(rest, found) := replace_all_fuel fuel' pattern replacer s' in (String c rest, found)
          end
      end
  end.

Definition replace_all {A} (pattern : string → option (A * string)) (replacer : A → string) (s : string) :
  string * list A :=
  replace_all_fuel (S (String.length s)) pattern replacer s.

Definition env_var_name (s : string) : option (string * string) :=
  '(_, name, rest) ← ENV_VAR s; Some (name, rest).

(** What replaces a variable in brackets. *)
Definition bracket_value (s : EnvSubstitutor) (parent_key : option string) (c : EnvCapture) : string :=
  let value := get_replacement_value s (cap_name c) parent_key in
  match cap_flag c with
  | Some flag =>
      if decide (flag = "!") then get_token_value (cap_namespace c) (cap_name c)
      else if decide (flag = "?") then
        if decide (value = "") then get_token_value (cap_namespace c) (cap_name c) else value
      else if decide (flag ∈ [":"; ":-"; "-"]) then if decide (value = "") then cap_fallback c else value
      else if decide (flag ∈ [":+"; "+"]) then if decide (value = "") then value else cap_fallback c
      else value
  | None => value
  end.

(** [substituted.insert(key)], and [remove] where it is not expanded *)
Definition mark_bracket (substituted : gset string) (c : EnvCapture) : gset string :=
  if decide (cap_flag c = Some "!") then ({[cap_name c]} ∪ substituted) ∖ {[cap_name c]}
  else {[cap_name c]} ∪ substituted.

(** [do_substitute]: without brackets first *)
Definition do_substitute (s : EnvSubstitutor) (value : string) (parent_key : option string) : string * gset string :=
  if str_contains "$" value then
    let '(value, names) := replace_all env_var_name (λ name, get_replacement_value s name parent_key) value in
    let '(value, captures) := replace_all ENV_VAR_BRACKETS (bracket_value s parent_key) value in
    (value, fold_left mark_bracket captures (list_to_set names))
  else (value, ∅).

(** [substitute], [substitute_with_key], [substitute_all] *)
Definition substitute (s : EnvSubstitutor) (value : string) : string := (do_substitute s value None).1.

Definition substitute_with_key (s : EnvSubstitutor) (key value : string) : string :=
  (do_substitute s value (Some key)).1.

Definition substitute_all (s : EnvSubstitutor) (vars : EnvMap) : EnvMap :=
  fold_left (λ map '(key, value), index_insert map key (substitute_with_key s key <$> value)) vars [].

(** ** Scanning ([env_scanner.rs]) *)

(** [scan]: the names that are found; the text is left as it is *)
Definition scan (value : string) : gset string :=
  if str_contains "$" value then
    list_to_set ((replace_all env_var_name (λ _, "") value).2 ++
                 (cap_name <$> (replace_all ENV_VAR_BRACKETS (λ _, "") value).2))%list
  else ∅.

(** ** Env files ([dotenv.rs]) *)

Inductive QuoteStyle : Type := QuoteSingle | QuoteDouble | Unquoted.

#[export] Instance QuoteStyle_eq_dec : EqDecision QuoteStyle.
Proof. solve_decision. Defined.

Definition single_quote : ascii := "'".
Definition quote_char : ascii := "034".

(** [get_quote_indices] *)
Definition quote_pair (quote : ascii) (value : string) : option (nat * nat) :=
  match find_char quote value, rfind_char quote value with
  | Some l, Some r => if decide (l = r) then None else Some (l, r)
  | _, _ => None
  end.

Definition get_quote_indices (value : string) : option (nat * nat) :=
  match quote_pair single_quote value with
  | Some indices => Some indices
  | None => quote_pair quote_char value
  end.

(** [unescape] *)
Definition unescape_char (c : ascii) : option ascii :=
  if Ascii.eqb c "n" then Some "010"%char
  else if Ascii.eqb c "r" then Some "013"%char
  else if Ascii.eqb c "t" then Some "009"%char
  else if Ascii.eqb c "\" then Some "\"%char
  else if Ascii.eqb c quote_char then Some quote_char
  else if Ascii.eqb c single_quote then Some single_quote
  else None.

Fixpoint unescape (value : string) : string :=
  match value with
  | EmptyString => EmptyString
  | String ch value' =>
      if Ascii.eqb ch "\" then
        match value' with
        | EmptyString => String "\" EmptyString
        | String next_ch value'' =>
            match unescape_char next_ch with
            | Some c => String c (unescape value'')
            | None => String "\" (String next_ch (unescape value''))
            end
        end
      else String ch (unescape value')
  end.

(** [parse_key].  The classes of characters are those of ASCII; Rust also takes the
    letters and digits of Unicode ([is_alphabetic], [is_alphanumeric]). *)
Definition key_start (c : ascii) : bool := is_alpha c || Ascii.eqb c "_".
Definition key_char (c : ascii) : bool := is_alpha c || is_digit c || Ascii.eqb c "_".

Definition parse_key (key : string) : outcome DotEnvError string :=
  match key with
  | EmptyString => Err EmptyKey
  | String first _ =>
      if negb (key_start first) then Err (InvalidKeyPrefix key)
      else if str_all key_char key then Ok key
      else Err (InvalidKey key)
  end.

(** Whether a value is in these quotes, and what is between them. *)
Definition in_quotes (quote : ascii) (value : string) : option string :=
  if (2 <=? String.length value)%nat && starts_with (String quote "") value && ends_with (String quote "") value
  then Some (str_take (String.length value - 2) (str_drop 1 value))
  else None.

(** [parse_value] *)
Definition parse_value (value : string) : string * QuoteStyle :=
  let value := str_trim value in
  match in_quotes single_quote value with
  | Some inner => (inner, QuoteSingle)
  | None =>
      match in_quotes quote_char value with
      | Some inner => (unescape inner, QuoteDouble)
      | None => (value, Unquoted)
      end
  end.

(** The text before a trailing comment. *)
Definition strip_comment (line : string) : string :=
  match rfind_str " #" line with
  | Some index =>
      match get_quote_indices line with
      | Some (_, r) => if (r <? index)%nat then str_take index line else line
      | None => str_take index line
      end
  | None => line
  end.

(** [parse_line] *)
Definition parse_line (line : string) : outcome DotEnvError (option (string * string * QuoteStyle)) :=
  let trimmed := str_trim line in
  if bool_decide (trimmed = "") || starts_with "#" trimmed then Ok None
  else
    let line_content := strip_comment (default trimmed (strip_prefix "export " trimmed)) in
    match split_once "=" line_content with
    | None => Err MissingAssignment
    | Some (key, value_part) =>
        let? key := parse_key (str_trim key) in
        let '(value, quote) := parse_value (str_trim value_part) in
        Ok (Some (key, value, quote))
    end.

(** [DotEnv] *)
Record DotEnv : Type := mkDotEnv {
  dot_global_vars : option GlobalEnvBag;
  dot_local_vars : EnvMap;
}.

Definition DotEnv_default : DotEnv := mkDotEnv None [].

(** [with_global_vars], [with_local_vars] *)
Definition DotEnv_with_global_vars (d : DotEnv) (vars : GlobalEnvBag) : DotEnv :=
  mkDotEnv (Some vars) (dot_local_vars d).
Definition DotEnv_with_local_vars (d : DotEnv) (vars : EnvMap) : DotEnv :=
  mkDotEnv (dot_global_vars d) (index_extend (dot_local_vars d) vars).

(** [substitute_value] *)
Definition substitute_value (d : DotEnv) (key value : string) (env : EnvMap) : string :=
  let substitutor := with_local_vars EnvSubstitutor_default env in
  let substitutor :=
    match dot_global_vars d with Some vars => with_global_vars substitutor vars | None => substitutor end in
  substitute_with_key substitutor key value.

(** [s.lines()]: a carriage return before a line feed is dropped, and so is an empty last line. *)
Definition drop_return (line : string) : string :=
  default line (strip_suffix (String "013" "") line).

Definition str_lines (s : string) : list string :=
  match reverse (split_on "010" s) with
  | last :: parts => ((drop_return <$> reverse parts) ++ (if decide (last = "") then [] else [last]))%list
  | [] => []
  end.

(** The body of the loop of [load] *)
Definition load_line (d : DotEnv) (path : string) (vars : EnvMap) (line : nat * string) :
  outcome DotEnvError EnvMap :=
  let '(i, line) := line in
  match parse_line line with
  | Ok (Some (key, value, quote)) =>
      Ok (index_insert vars key
        (if decide (value = "null" ∨ value = "nil") then None
         else if decide (quote = QuoteSingle) then Some value
         else Some (substitute_value d key value vars)))
  | Ok None => Ok vars
  | Err error => Err (DotEnvParseFailure (i + 1) error path)
  | OutOfFuel => OutOfFuel
  end.

(** [load] *)
Definition DotEnv_load (d : DotEnv) (content path : string) : outcome DotEnvError EnvMap :=
  ofold (load_line d path) [] (imap pair (str_lines content)).
