(* ===== verification/EnvVarTheorems.v ===== *)
(** * Properties of environment variables

What a line of an env file means, and which variables a text refers to. *)

From S2P Require Import Prelude Errors Shapes Config EnvVar.

(** ** Trimming *)

Definition ends_open (s : string) : Prop :=
  ∃ c s' d s'', s = String c s' ∧ str_rev s = String d s'' ∧ is_space c = false ∧ is_space d = false.

Lemma str_rev_involutive s : str_rev (str_rev s) = s.
Proof.
  unfold str_rev, str_chars. rewrite list_ascii_of_string_of_list_ascii, rev_involutive.
  apply string_of_list_ascii_of_string.
Qed.

Lemma str_rev_append a b : str_rev (String.append a b) = String.append (str_rev b) (str_rev a).
Proof.
  unfold str_rev. rewrite str_chars_append, rev_app_distr.
  assert (∀ x y, string_of_list_ascii (x ++ y) = String.append (string_of_list_ascii x) (string_of_list_ascii y)) as ->; [|done].
  induction x as [|c x IH]; intros y; cbn; [done|]. by rewrite IH.
Qed.

(** Text that neither starts nor ends with white space is left alone. *)
Lemma str_trim_ends s : ends_open s → str_trim s = s.
Proof.
  intros (c & s' & d & s'' & -> & Hrev & Hc & Hd). unfold str_trim. cbn [trim_start_space]. rewrite Hc, Hrev.
  cbn [trim_start_space]. rewrite Hd, <- Hrev. apply str_rev_involutive.
Qed.

Lemma ends_open_between c s d : is_space c = false → is_space d = false → ends_open (String c (String.append s (String d ""))).
Proof.
  intros Hc Hd. exists c, (String.append s (String d "")), d, (str_rev (String c s)). split_and!; [done| |done|done].
  change (String c (String.append s (String d ""))) with (String.append (String c s) (String d "")).
  by rewrite str_rev_append.
Qed.

(** ** Quotes and comments *)

Lemma find_char_append c a b :
  str_contains c a = false → find_char c (String.append a (String c b)) = Some (String.length a).
Proof.
  induction a as [|x a IH]; cbn; [by rewrite Ascii.eqb_refl|]. rewrite str_contains_cons.
  intros [Hx Ha]%orb_false_iff. rewrite Ascii.eqb_sym, Hx, IH by done. done.
Qed.

Lemma rfind_char_last c a : rfind_char c (String.append a (String c "")) = Some (String.length a).
Proof. induction a as [|x a IH]; cbn; [by rewrite Ascii.eqb_refl|]. by rewrite IH. Qed.

Lemma rfind_str_bound p s n : rfind_str p s = Some n → n + String.length p ≤ String.length s.
Proof.
  revert n. induction s as [|c s IH]; intros n; cbn.
  - unfold starts_with. destruct (strip_prefix p "") as [r|] eqn:E; [|done]. intros [= <-].
    apply strip_prefix_Some in E. destruct p; [done|]. discriminate E.
  - destruct (rfind_str p s) as [m|] eqn:E; [intros [= <-]; specialize (IH m eq_refl); lia|].
    unfold starts_with. destruct (strip_prefix p (String c s)) as [r|] eqn:Ep; [|done]. intros [= <-].
    apply strip_prefix_Some in Ep. change (S (String.length s)) with (String.length (String c s)).
    rewrite Ep, str_append_length. lia.
Qed.

(** A quoted value at the end of a line protects what looks like a comment. *)
Lemma strip_comment_quoted a b :
  str_contains single_quote a = false →
  strip_comment (String.append a (String single_quote (String.append b (String single_quote "")))) =
  String.append a (String single_quote (String.append b (String single_quote ""))).
Proof.
  intros Ha. set (line := String.append a _). unfold strip_comment.
  destruct (rfind_str " #" line) as [index|] eqn:Hi; [|done]. apply rfind_str_bound in Hi. cbn in Hi.
  assert (line = String.append (String.append a (String single_quote b)) (String single_quote "")) as Hline
    by (unfold line; by rewrite str_append_assoc).
  unfold get_quote_indices, quote_pair. unfold line at 1. rewrite find_char_append by done.
  assert (rfind_char single_quote line = Some (String.length a + S (String.length b))) as ->.
  { rewrite Hline, rfind_char_last, str_append_length. done. }
  rewrite Hline, str_append_length, str_append_length in Hi. cbn [String.length] in Hi.
  rewrite decide_False by lia. by rewrite (proj2 (Nat.ltb_ge _ _)) by lia.
Qed.

Lemma in_quotes_between quote b : in_quotes quote (String quote (String.append b (String quote ""))) = Some b.
Proof.
  unfold in_quotes. cbn [String.length]. rewrite str_append_length. cbn [String.length].
  rewrite (proj2 (Nat.leb_le 2 _)) by lia. unfold starts_with, ends_with. rewrite strip_prefix_cons, Ascii.eqb_refl, strip_prefix_nil.
  unfold strip_suffix. cbn [String.length]. rewrite str_append_length. cbn [String.length].
  replace (S (String.length b + 1) - 1) with (String.length (String quote b)) by (cbn; lia).
  change (String quote (String.append b (String quote ""))) with (String.append (String quote b) (String quote "")).
  rewrite str_take_append, decide_True by done. cbn [andb]. f_equal.
  cbn [str_drop append]. replace (S (String.length b + 1) - 2) with (String.length b) by lia. apply str_take_append.
Qed.

(** ** Keys *)

Lemma key_char_plain c :
  key_char c = true → is_space c = false ∧ Ascii.eqb c "#" = false ∧ Ascii.eqb " " c = false ∧ Ascii.eqb "=" c = false ∧
    Ascii.eqb single_quote c = false.
Proof. destruct c as [[] [] [] [] [] [] [] []]; vm_compute; repeat split; discriminate. Qed.

Lemma key_start_char c : key_start c = true → key_char c = true.
Proof. unfold key_start, key_char. intros [->| ->]%orb_true_iff; [done|]. by rewrite !orb_true_r. Qed.

Lemma key_without key c : str_all key_char key = true → (∀ d, key_char d = true → Ascii.eqb c d = false) →
  str_contains c key = false.
Proof.
  intros Hkey Hc. induction key as [|d key IH]; [done|]. rewrite str_all_cons in Hkey. apply andb_true_iff in Hkey as [Hd Hkey].
  rewrite str_contains_cons, (Hc d Hd). by apply IH.
Qed.

(** A key has no white space at its ends. *)
Lemma str_trim_key key : str_all key_char key = true → str_trim key = key.
Proof.
  intros Hkey. destruct key as [|c key]; [done|]. rewrite str_all_cons in Hkey. apply andb_true_iff in Hkey as [Hc Hkey].
  apply str_trim_ends. exists c, key. destruct (str_rev (String c key)) as [|d s''] eqn:Hrev.
  - pose proof (str_rev_involutive (String c key)) as Hinv. rewrite Hrev in Hinv. discriminate Hinv.
  - exists d, s''. split_and!; [done|done|by apply key_char_plain|].
    assert (str_all key_char (str_rev (String c key)) = true) as Hall.
    { unfold str_all, str_rev, str_chars. rewrite list_ascii_of_string_of_list_ascii. apply forallb_forall.
      intros x Hx%in_rev. revert x Hx. apply forallb_forall. apply andb_true_iff. by split. }
    rewrite Hrev, str_all_cons in Hall. apply andb_true_iff in Hall as [Hd _]. by apply key_char_plain.
Qed.

(** No assignment of a key is an export. *)
Lemma key_not_export key rest :
  str_all key_char key = true → strip_prefix "export " (String.append key (String "=" rest)) = None.
Proof.
  intros Hkey. destruct (strip_prefix "export " _) as [r|] eqn:E; [|done]. exfalso.
  apply strip_prefix_Some in E.
  assert (split_once "=" (String.append key (String "=" rest)) = Some (key, rest)) as Hsplit.
  { apply split_once_append. apply key_without; [done|]. intros d Hd. by apply key_char_plain. }
  rewrite E in Hsplit. cbn in Hsplit. destruct (split_once "=" r) as [[l r']|]; [|done]. injection Hsplit as <- _.
  by vm_compute in Hkey.
Qed.

(** C35: a single-quoted value is taken as it is: for every valid key and every text, the line that
    assigns the text in single quotes to the key is read by [parse_line] as exactly this key and this text,
    whatever quotes, white space, comments and variables the text has. (Loading a file then takes the words for
    no value, [null] and the like, as such.) *)
Theorem dotenv_single_quoted key value :
  parse_key key = Ok key →
  parse_line (String.append key (String "=" (String single_quote (String.append value (String single_quote ""))))) =
  Ok (Some (key, value, QuoteSingle)).
Proof.
  intros Hkey.
  assert (∃ c key', key = String c key' ∧ key_start c = true ∧ str_all key_char key = true) as (c & key' & Hc & Hstart & Hall).
  { unfold parse_key in Hkey. destruct key as [|c key']; [done|]. exists c, key'.
    destruct (key_start c); [|done]. cbn in Hkey. by destruct (str_all key_char (String c key')). }
  set (quoted := String single_quote (String.append value (String single_quote ""))).
  set (line := String.append key (String "=" quoted)).
  assert (ends_open quoted) as Hquoted by by apply ends_open_between.
  assert (str_trim line = line) as Htrim.
  { apply str_trim_ends. unfold line, quoted. rewrite Hc. cbn [append].
    replace (String.append key' (String "=" (String single_quote (String.append value (String single_quote "")))))
      with (String.append (String.append key' (String "=" (String single_quote value))) (String single_quote ""))
      by (rewrite str_append_assoc; done).
    apply ends_open_between; [by apply key_char_plain, key_start_char|done]. }
  unfold parse_line. rewrite Htrim. rewrite bool_decide_eq_false_2 by (unfold line; by rewrite Hc). cbn [orb].
  assert (starts_with "#" line = false) as ->.
  { unfold line, starts_with. rewrite Hc. cbn [append]. rewrite strip_prefix_cons, Ascii.eqb_sym.
    by destruct (key_char_plain c (key_start_char _ Hstart)) as (_ & -> & _). }
  assert (strip_prefix "export " line = None) as -> by by apply key_not_export. cbn [default].
  assert (strip_comment line = line) as ->.
  { unfold line, quoted. replace (String.append key (String "=" (String single_quote _))) with
      (String.append (String.append key (String "=" "")) (String single_quote (String.append value (String single_quote ""))))
      by (rewrite str_append_assoc; done).
    apply strip_comment_quoted. rewrite str_contains_append, orb_false_iff. split; [|done].
    apply key_without; [done|]. intros d Hd. by apply key_char_plain. }
  unfold line. rewrite split_once_append by (apply key_without; [done|]; intros d Hd; by apply key_char_plain).
  rewrite str_trim_key by done. rewrite Hkey. cbn [obind]. unfold parse_value. rewrite (str_trim_ends quoted), (str_trim_ends quoted) by done.
  unfold quoted. by rewrite in_quotes_between.
Qed.

Lemma dotenv_single_quoted_witness :
  parse_line (String.append "KEY" (String "=" (String single_quote (String.append "it's # $HOME " (String single_quote ""))))) =
  Ok (Some ("KEY"%string, "it's # $HOME "%string, QuoteSingle)).
Proof. apply dotenv_single_quoted. reflexivity. Defined.

(** ** Which variables are seen *)

Lemma replace_all_ext {A} (pattern : string → option (A * string)) f g s :
  (∀ a, f a = g a) → replace_all pattern f s = replace_all pattern g s.
Proof.
  intros Hfg. unfold replace_all. generalize (S (String.length s)) as fuel. intros fuel. revert s.
  induction fuel as [|fuel IH]; intros s; cbn; [done|].
  destruct (pattern s) as [[a rest]|]; [by rewrite IH, Hfg|]. destruct s; [done|]. by rewrite IH.
Qed.

(** The local variables that an env file is loaded with have no effect: whatever variables are
    given to [with_local_vars], the file means the same, so that a value cannot refer to the variables of the task or to
    those of an earlier env file, as the callers assume. *)
Theorem dotenv_local_vars_ignored d vars content path :
  DotEnv_load (DotEnv_with_local_vars d vars) content path = DotEnv_load d content path.
Proof. apply ofold_ext. intros env [i line]. reflexivity. Qed.

Lemma span_while_all p s : str_all p s = true → span_while p s = (s, ""%string).
Proof.
  induction s as [|c s IH]; [done|]. rewrite str_all_cons. intros [Hc Hs]%andb_true_iff. cbn. by rewrite Hc, IH.
Qed.

Lemma env_namespaces c rest :
  env_char c = true →
  namespaces (String.append "ENV" (String c rest)) =
  [(String.append "ENV" (String c ""), rest); (""%string, String.append "ENV" (String c rest))].
Proof. destruct c as [[] [] [] [] [] [] [] []]; intros Hc; try discriminate Hc; vm_compute; reflexivity. Qed.

(** The dot of the namespace is any character: of a name that starts with ENV the next character is
    dropped as well, so that [$ENV_NAME] is the variable [NAME], and [$ENVIRONMENT] the variable [RONMENT]. *)
Theorem env_namespace_swallows c d name :
  env_char c = true → str_all env_char (String d name) = true →
  ENV_VAR (String.append "$ENV" (String c (String d name))) =
  Some (String.append "ENV" (String c ""), String d name, ""%string).
Proof.
  intros Hc Hname.
  change (ENV_VAR _) with (namespaced_name (String.append "ENV" (String c (String d name)))).
  unfold namespaced_name. rewrite env_namespaces by done. cbn -[span_while]. by rewrite span_while_all.
Qed.

(** A variable never refers to its own local value, which would be the one that is being computed. *)
Theorem substitute_with_key_own bag vars value_of_key key value :
  substitute_with_key (mkSubstitutor bag (index_insert vars key value_of_key)) key value =
  substitute_with_key (mkSubstitutor bag (index_insert vars key None)) key value.
Proof.
  assert (∀ name, get_replacement_value (mkSubstitutor bag (index_insert vars key value_of_key)) name (Some key) =
    get_replacement_value (mkSubstitutor bag (index_insert vars key None)) name (Some key)) as Hget.
  { intros name. unfold get_replacement_value. cbn [sub_local_vars sub_global_vars]. case_decide as Hname; [done|].
    assert (key ≠ name) by congruence. rewrite !index_insert_get. by rewrite !decide_False. }
  unfold substitute_with_key, do_substitute. destruct (str_contains "$" value); [|done].
  rewrite (replace_all_ext env_var_name _ _ value Hget).
  destruct (replace_all env_var_name _ value) as [value' names].
  rewrite (replace_all_ext ENV_VAR_BRACKETS _ (bracket_value (mkSubstitutor bag (index_insert vars key None)) (Some key)) value');
    [done|].
  intros capture. unfold bracket_value. by rewrite Hget.
Qed.

(** A variable of the process that is removed is found again when it is read. *)
Lemma removed_variable_returns process key value :
  process !! key = Some value → (bag_get (bag_remove (GlobalEnvBag_instance process) key) key).1 = Some value.
Proof. intros Hkey. unfold bag_get. cbn. by rewrite lookup_delete_eq, lookup_delete_eq, Hkey. Qed.

(** Single quotes inside double quotes decide where a comment can start. *)
Lemma comment_in_double_quotes :
  let line := String.append "A=" (String quote_char (String.append "a 'b' # c" (String quote_char ""))) in
  parse_line line = Ok (Some ("A"%string, String quote_char "a 'b'", Unquoted)).
Proof. vm_compute. reflexivity. Qed.
