(* ===== verification/Query.v ===== *)
(** * Queries ([crates/query])

The query language: its grammar ([mql.pest]) as a parser, the criteria that are
built from a parsed query, and how a condition matches values.

A grammar of [pest] is a parsing expression grammar: choices are ordered,
repetitions take as much as they can, and, except inside of atomic rules, spaces
are skipped between the parts of a sequence and of a repetition. *)

From S2P Require Import Prelude Errors Config.

(** ** Syntax ([parser.rs]) *)

Inductive LogicalOperator : Type := LAnd | LOr.

Inductive ComparisonOperator : Type := Equal | NotEqual | Like | NotLike.

Inductive AstNode : Type :=
| Comparison (field : string) (op : ComparisonOperator) (value : list string)
| Op (op : LogicalOperator)
| Group (nodes : list AstNode).

#[export] Instance LogicalOperator_eq_dec : EqDecision LogicalOperator.
Proof. solve_decision. Defined.
#[export] Instance ComparisonOperator_eq_dec : EqDecision ComparisonOperator.
Proof. solve_decision. Defined.

(** *** Characters *)

Definition in_range_of (lo hi c : ascii) : bool :=
  (nat_of_ascii lo <=? nat_of_ascii c) && (nat_of_ascii c <=? nat_of_ascii hi).

Definition ascii_alphanumeric (c : ascii) : bool :=
  in_range_of "0" "9" c || in_range_of "A" "Z" c || in_range_of "a" "z" c.

(** The characters of the rules [value] and [value_glob]. *)
Definition value_char (c : ascii) : bool :=
  ascii_alphanumeric c || bool_decide (c ∈ ["-"; "_"; "/"; "."; "@"]%char).

Definition glob_char (c : ascii) : bool :=
  ascii_alphanumeric c ||
  bool_decide (c ∈ ["-"; "_"; "*"; "!"; "."; ","; "/"; "\"; "{"; "}"; "<"; ">"; "["; "]"; "?";
                    "$"; ":"; "@"]%char).

(** *** Parts of rules *)

(** Implicit [WHITESPACE*] *)
Fixpoint skip_spaces (s : string) : string :=
  match s with
  | String c s' => if Ascii.eqb c " " then skip_spaces s' else s
  | EmptyString => EmptyString
  end.

(** [p*] and [p+] of an atomic rule *)
Fixpoint span (p : ascii → bool) (s : string) : string * string :=
  match s with
  | String c s' => if p c then let '(a, b) := span p s' in (String c a, b) else (EmptyString, s)
  | EmptyString => (EmptyString, EmptyString)
  end.

Definition many1 (p : ascii → bool) (s : string) : option (string * string) :=
  match span p s with
  | (EmptyString, _) => None
  | r => Some r
  end.

(** The first of the literals that the input starts with. *)
Fixpoint literals {A} (l : list (string * A)) (s : string) : option (A * string) :=
  match l with
  | [] => None
  | (p, a) :: l' =>
      match strip_prefix p s with
      | Some s' => Some (a, s')
      | None => literals l' s
      end
  end.

Definition logic_op : string → option (LogicalOperator * string) :=
  literals [("&&", LAnd); ("AND", LAnd); ("||", LOr); ("OR", LOr)]%string.
Definition cmp_op : string → option (ComparisonOperator * string) :=
  literals [("=", Equal); ("!=", NotEqual)]%string.
Definition like_op : string → option (ComparisonOperator * string) :=
  literals [("~", Like); ("!~", NotLike)]%string.

#[global] Arguments logic_op : simpl never.
#[global] Arguments cmp_op : simpl never.
#[global] Arguments like_op : simpl never.

(** [("," ~ value)*] *)
Fixpoint more_values (fuel : nat) (s : string) : list string * string :=
  match fuel with
  | 0 => ([], s)
  | S fuel' =>
      match strip_prefix "," (skip_spaces s) with
      | Some s1 =>
          match many1 value_char (skip_spaces s1) with
          | Some (v, s2) => let '(vs, s3) := more_values fuel' s2 in (v :: vs, s3)
          | None => ([], s)
          end
      | None => ([], s)
      end
  end.

(** [value_list] *)
Definition value_list (s : string) : option (list string * string) :=
  match strip_prefix "[" s with
  | Some s1 =>
      match many1 value_char (skip_spaces s1) with
      | Some (v, s2) =>
          let '(vs, s3) := more_values (String.length s2) s2 in
          match strip_prefix "]" (skip_spaces s3) with
          | Some s4 => Some (v :: vs, s4)
          | None => None
          end
      | None => None
      end
  | None => None
  end.

(** [comparison_wildcard], [comparison_literal], [comparison] *)
Definition comparison_wildcard (s : string) : option (AstNode * string) :=
  match many1 ascii_alphanumeric s with
  | Some (key, s1) =>
      match like_op (skip_spaces s1) with
      | Some (op, s2) =>
          match many1 glob_char (skip_spaces s2) with
          | Some (v, s3) => Some (Comparison key op [v], s3)
          | None => None
          end
      | None => None
      end
  | None => None
  end.

Definition comparison_literal (s : string) : option (AstNode * string) :=
  match many1 ascii_alphanumeric s with
  | Some (key, s1) =>
      match cmp_op (skip_spaces s1) with
      | Some (op, s2) =>
          match value_list (skip_spaces s2) with
          | Some (vs, s3) => Some (Comparison key op vs, s3)
          | None =>
              match many1 value_char (skip_spaces s2) with
              | Some (v, s3) => Some (Comparison key op [v], s3)
              | None => None
              end
          end
      | None => None
      end
  | None => None
  end.

Definition comparison (s : string) : option (AstNode * string) :=
  match comparison_wildcard s with
  | Some r => Some r
  | None => comparison_literal s
  end.

#[global] Arguments comparison : simpl never.

(** [expr], and the repetition in it *)
Fixpoint expr (fuel : nat) (s : string) : option (list AstNode * string) :=
  match fuel with
  | 0 => None
  | S fuel' =>
      match comparison s with
      | Some (c, s1) => let '(nodes, s2) := expr_tail fuel' s1 in Some (c :: nodes, s2)
      | None => None
      end
  end
with expr_tail (fuel : nat) (s : string) : list AstNode * string :=
  match fuel with
  | 0 => ([], s)
  | S fuel' =>
      match logic_op (skip_spaces s) with
      | None => ([], s)
      | Some (op, s1) =>
          match comparison (skip_spaces s1) with
          | Some (c, s2) =>
              let '(nodes, s3) := expr_tail fuel' s2 in (Op op :: c :: nodes, s3)
          | None =>
              match expr_group fuel' (skip_spaces s1) with
              | Some (group, s2) =>
                  let '(nodes, s3) := expr_tail fuel' s2 in (Op op :: Group group :: nodes, s3)
              | None => ([], s)
              end
          end
      end
  end
with expr_group (fuel : nat) (s : string) : option (list AstNode * string) :=
  match fuel with
  | 0 => None
  | S fuel' =>
      match strip_prefix "(" s with
      | Some s1 =>
          match expr fuel' (skip_spaces s1) with
          | Some (nodes, s2) =>
              match strip_prefix ")" (skip_spaces s2) with
              | Some s3 => Some (nodes, s3)
              | None => None
              end
          | None => None
          end
      | None => None
      end
  end.

(** Each rule takes a character before another one is entered, so this much is
    enough ([expr_fuel_enough]). *)
Definition query_fuel (s : string) : nat := S (String.length s).

(** [parse_query]: the rule [query]; [parse_ast] keeps the comparisons, the
    operators and the groups of it. *)
Definition parse_query (input : string) : outcome string (list AstNode) :=
  match expr (query_fuel input) (skip_spaces input) with
  | Some (nodes, rest) =>
      if decide (skip_spaces rest = ""%string) then Ok nodes else Err "expected EOI"%string
  | None => Err "expected expr"%string
  end.

(** ** Criteria ([builder.rs]) *)

Inductive Field : Type :=
| FLanguage (languages : list LanguageType)
| FProject (values : list string)
| FProjectAlias (values : list string)
| FProjectId (values : list string)
| FProjectLayer (layers : list LayerType)
| FProjectSource (values : list string)
| FProjectStack (stacks : list StackType)
| FProjectTag (values : list string)
| FTask (values : list string)
| FTaskTag (values : list string)
| FTaskToolchain (values : list string)
| FTaskType (types : list TaskType).

Inductive Condition : Type :=
| ConditionField (field : Field) (op : ComparisonOperator)
| ConditionCriteria (criteria : Criteria)
with Criteria : Type :=
| mkCriteria (op : LogicalOperator) (conditions : list Condition) (input : option string).

Definition criteria_op (c : Criteria) : LogicalOperator := let '(mkCriteria op _ _) := c in op.
Definition criteria_conditions (c : Criteria) : list Condition :=
  let '(mkCriteria _ conditions _) := c in conditions.
Definition criteria_input (c : Criteria) : option string :=
  let '(mkCriteria _ _ input) := c in input.

(** What the builder takes from other crates: the [FromStr] of the enums, which
    are derived, and the globs of [starbase_utils]. *)
Class QueryHost : Type := {
  LanguageType_from_str : string → option LanguageType;
  LayerType_from_str : string → option LayerType;
  StackType_from_str : string → option StackType;
  TaskType_from_str : string → option TaskType;
  QueryGlobs : Type;
  QueryGlobs_new : list string → result QueryGlobs;
  is_included : QueryGlobs → string → bool;
}.

Section Builder.
Context `{QueryHost}.

(** [Condition::matches], [matches_list], [matches_enum] on a [Condition::Field]
    with the operator [op]; the callers only have such conditions. *)
Definition Condition_matches (op : ComparisonOperator) (haystack : list string) (needle : string) :
  result bool :=
  match op with
  | Equal => Ok (bool_decide (needle ∈ haystack))
  | NotEqual => Ok (negb (bool_decide (needle ∈ haystack)))
  | Like => let? globs := QueryGlobs_new haystack in Ok (is_included globs needle)
  | NotLike => let? globs := QueryGlobs_new haystack in Ok (negb (is_included globs needle))
  end.

Fixpoint matches_list (op : ComparisonOperator) (haystack needles : list string) : result bool :=
  match needles with
  | [] => Ok false
  | needle :: needles' =>
      let? matches := Condition_matches op haystack needle in
      if matches then Ok true else matches_list op haystack needles'
  end.

Definition matches_enum {T} `{EqDecision T} (op : ComparisonOperator) (haystack : list T)
  (needle : T) : bool :=
  match op with
  | Equal => bool_decide (needle ∈ haystack)
  | NotEqual => negb (bool_decide (needle ∈ haystack))
  | _ => false
  end.

(** [build_criteria_enum] *)
Definition build_criteria_enum {T} (from_str : string → option T) (field : string)
  (op : ComparisonOperator) (values : list string) : result (list T) :=
  match op with
  | Like | NotLike => Err (RQuery (UnsupportedLikeOperator field))
  | _ => omap_list (λ value, ok_or (from_str value) (RQuery (UnknownFieldValue field value))) values
  end.

(** The field of a comparison, in [build_criteria]. *)
Definition build_field (field : string) (op : ComparisonOperator) (value : list string) :
  result Field :=
  if decide (field = "language"%string) then
    let? l := build_criteria_enum LanguageType_from_str field op value in Ok (FLanguage l)
  else if decide (field = "project"%string) then Ok (FProject value)
  else if decide (field ∈ ["projectAlias"; "projectAliases"]%string) then Ok (FProjectAlias value)
  else if decide (field = "projectLayer"%string) then
    let? l := build_criteria_enum LayerType_from_str field op value in Ok (FProjectLayer l)
  else if decide (field = "projectId"%string) then Ok (FProjectId value)
  else if decide (field = "projectSource"%string) then Ok (FProjectSource value)
  else if decide (field = "projectStack"%string) then
    let? l := build_criteria_enum StackType_from_str field op value in Ok (FProjectStack l)
  else if decide (field ∈ ["projectTag"; "projectTags"; "tag"]%string) then Ok (FProjectTag value)
  else if decide (field = "task"%string) then Ok (FTask value)
  else if decide (field ∈ ["taskTag"; "taskTags"]%string) then Ok (FTaskTag value)
  else if decide (field ∈ ["taskToolchain"; "taskToolchains"]%string) then Ok (FTaskToolchain value)
  else if decide (field = "taskType"%string) then
    let? l := build_criteria_enum TaskType_from_str field op value in Ok (FTaskType l)
  else Err (RQuery (UnknownField field)).

(** The operator and the conditions so far, in [build_criteria]. *)
Abbreviation build_state := (option LogicalOperator * list Condition)%type.

Definition finish_criteria (st : build_state) : Criteria :=
  mkCriteria (default LAnd st.1) st.2 None.

(** The body of the loop of [build_criteria]. *)
Fixpoint build_node (st : build_state) (node : AstNode) {struct node} : result build_state :=
  let '(op, conditions) := st in
  match node with
  | Comparison field cmp value =>
      let? f := build_field field cmp value in
      Ok (op, conditions ++ [ConditionField f cmp])
  | Op next_op =>
      match op with
      | Some current_op =>
          if decide (next_op = current_op) then Ok st
          else Err (RQuery LogicalOperatorMismatch)
      | None => Ok (Some next_op, conditions)
      end
  | Group nodes =>
      let? inner :=
        (fix loop (st : build_state) (nodes : list AstNode) : result build_state :=
           match nodes with
           | [] => Ok st
           | node' :: nodes' => let? st' := build_node st node' in loop st' nodes'
           end) (None, []) nodes in
      Ok (op, conditions ++ [ConditionCriteria (finish_criteria inner)])
  end.

(** [build_criteria] *)
Definition build_criteria (ast : list AstNode) : result Criteria :=
  let? st := ofold build_node (None, []) ast in Ok (finish_criteria st).

(** [build_query] *)
Definition build_query (input : string) : result Criteria :=
  if decide (input = ""%string) then Err (RQuery EmptyInput)
  else
    let? ast := map_err (λ e, RQuery (ParseFailure e)) (parse_query input) in
    let? criteria := build_criteria ast in
    Ok (mkCriteria (criteria_op criteria) (criteria_conditions criteria) (Some input)).

(** ** Evaluation

The loop of [does_project_match_criteria] and [does_task_match_criteria]
([workspace-graph/src/query_projects.rs], [query_tasks.rs]), which only differ
in what a field is compared with: [leaf]. *)
Section Evaluation.
Context {S : Type}.

(** The loop over the conditions; [eval] is the [match] on a condition. *)
Fixpoint criteria_loop (eval : Condition → stateful S bool) (op : LogicalOperator)
  (matched_any : bool) (conditions : list Condition) : stateful S bool :=
  match conditions with
  | [] => mret matched_any
  | condition :: conditions' =>
      matches ← eval condition;
      match matches, op with
      | true, LAnd => criteria_loop eval op true conditions'
      | true, LOr => mret true
      | false, LAnd => mret false
      | false, LOr => criteria_loop eval op matched_any conditions'
      end
  end.

Context (leaf : Field → ComparisonOperator → stateful S bool).

Fixpoint condition_matches (condition : Condition) : stateful S bool :=
  match condition with
  | ConditionField field op => leaf field op
  | ConditionCriteria criteria => does_match_criteria criteria
  end
with does_match_criteria (query : Criteria) : stateful S bool :=
  match query with
  | mkCriteria op conditions _ => criteria_loop condition_matches op false conditions
  end.
End Evaluation.
End Builder.

(** ** The grammar as a relation, and printing *)

(** What a comparison of the grammar looks like. *)
Definition word (p : ascii → bool) (s : string) : Prop := s ≠ ""%string ∧ str_all p s = true.

Definition wf_comparison (field : string) (op : ComparisonOperator) (values : list string) : Prop :=
  word ascii_alphanumeric field ∧
  match op with
  | Like | NotLike => ∃ v, values = [v] ∧ word glob_char v
  | _ => values ≠ [] ∧ Forall (word value_char) values
  end.

(** The sequences of nodes the grammar can produce: a comparison, then operators
    that are each followed by a comparison or a group. *)
Inductive wf_expr : list AstNode → Prop :=
| wf_expr_intro field op values nodes :
    wf_comparison field op values → wf_tail nodes →
    wf_expr (Comparison field op values :: nodes)
with wf_tail : list AstNode → Prop :=
| wf_tail_nil : wf_tail []
| wf_tail_comparison lop field op values nodes :
    wf_comparison field op values → wf_tail nodes →
    wf_tail (Op lop :: Comparison field op values :: nodes)
| wf_tail_group lop group nodes :
    wf_expr group → wf_tail nodes → wf_tail (Op lop :: Group group :: nodes).

Scheme wf_expr_mut := Induction for wf_expr Sort Prop
with wf_tail_mut := Induction for wf_tail Sort Prop.
Combined Scheme wf_nodes_ind from wf_expr_mut, wf_tail_mut.

(** A query with the nodes [nodes]. *)
Definition print_cmp (op : ComparisonOperator) : string :=
  match op with Equal => "=" | NotEqual => "!=" | Like => "~" | NotLike => "!~" end.

Definition print_values (values : list string) : string :=
  match values with
  | [v] => v
  | vs => "[" +:+ str_join "," vs +:+ "]"
  end.

Fixpoint print_node (node : AstNode) : string :=
  match node with
  | Comparison field op values => field +:+ print_cmp op +:+ print_values values
  | Op LAnd => " && "
  | Op LOr => " || "
  | Group nodes => "(" +:+ foldr (λ n s, print_node n +:+ s) "" nodes +:+ ")"
  end.

Definition print_query (nodes : list AstNode) : string :=
  foldr (λ n s, print_node n +:+ s) ""%string nodes.

(** *** Lemmas on the parts of rules *)

(** [stops p s]: the repetition of [p] ends where [s] starts. *)
Definition stops (p : ascii → bool) (s : string) : Prop :=
  match s with String c _ => p c = false | EmptyString => True end.

Lemma span_append p a b : str_all p a = true → stops p b → span p (a +:+ b) = (a, b).
Proof.
  intros Ha Hb. induction a as [|c a IH]; cbn.
  - destruct b as [|c b]; cbn in *; [done|by rewrite Hb].
  - rewrite str_all_cons in Ha. bool_cases. by rewrite H, IH.
Qed.

Lemma many1_word p a b : word p a → stops p b → many1 p (a +:+ b) = Some (a, b).
Proof.
  intros [Hne Ha] Hb. unfold many1. rewrite span_append by done. by destruct a.
Qed.

Lemma span_Some p s a b : span p s = (a, b) → s = a +:+ b ∧ str_all p a = true.
Proof.
  revert a b. induction s as [|c s IH]; intros a b; cbn; [by intros [= <- <-]|].
  destruct (p c) eqn:Hc; [|by intros [= <- <-]].
  destruct (span p s) as [a' b'] eqn:Hs. intros [= <- <-].
  destruct (IH _ _ eq_refl) as [-> Ha]. split; [done|]. by rewrite str_all_cons, Hc.
Qed.

Lemma many1_Some p s a b : many1 p s = Some (a, b) → s = a +:+ b ∧ word p a.
Proof.
  unfold many1. destruct (span p s) as [a' b'] eqn:Hs. apply span_Some in Hs as [-> Ha].
  destruct a' as [|c a']; [done|]. intros [= <- <-]. by repeat split.
Qed.

(** The first character of a word. *)
Lemma word_cons p s : word p s → ∃ c s', s = String c s' ∧ p c = true.
Proof.
  intros [Hne Hs]. destruct s as [|c s]; [done|]. rewrite str_all_cons in Hs. bool_cases. eauto.
Qed.

Lemma skip_spaces_stops s : stops (Ascii.eqb " ") s → skip_spaces s = s.
Proof.
  destruct s as [|c s]; cbn; [done|]. intros Hc.
  destruct (Ascii.eqb_spec c " ") as [->|]; [done|done].
Qed.

Lemma word_no_space p s t : word p s → p " "%char = false → skip_spaces (s +:+ t) = s +:+ t.
Proof.
  intros Hs Hp. apply skip_spaces_stops. destruct (word_cons _ _ Hs) as (c & s' & -> & Hc). cbn.
  destruct (Ascii.eqb_spec " "%char c) as [<-|]; congruence.
Qed.

Lemma skip_spaces_length s : String.length (skip_spaces s) ≤ String.length s.
Proof. induction s as [|c s IH]; cbn; [done|]. destruct (Ascii.eqb c " "); cbn; lia. Qed.

Lemma literals_length {A} (l : list (string * A)) s a r :
  Forall (λ '(p, _), 1 ≤ String.length p) l →
  literals l s = Some (a, r) → String.length r < String.length s.
Proof.
  induction l as [|[p a'] l IH]; cbn; [done|]. intros Hl.
  inversion Hl as [|? ? Hp Hl']; subst.
  destruct (strip_prefix p s) as [s'|] eqn:Hs.
  - intros [= -> ->]. apply strip_prefix_Some in Hs as ->. rewrite str_append_length. lia.
  - by apply IH.
Qed.

Lemma logic_op_length s op r : logic_op s = Some (op, r) → String.length r < String.length s.
Proof. apply literals_length. repeat constructor. Qed.

Lemma many1_length p s a r : many1 p s = Some (a, r) → String.length r < String.length s.
Proof.
  intros [-> [Ha _]]%many1_Some. rewrite str_append_length. destruct a; cbn; [done|lia].
Qed.

(** *** Comparisons *)

Lemma more_values_sound fuel s vs r :
  more_values fuel s = (vs, r) →
  Forall (word value_char) vs ∧ String.length r ≤ String.length s.
Proof.
  revert s vs r. induction fuel as [|fuel IH]; intros s vs r; cbn; [by intros [= <- <-]|].
  destruct (strip_prefix "," (skip_spaces s)) as [s1|] eqn:H1; [|by intros [= <- <-]].
  destruct (many1 value_char (skip_spaces s1)) as [[v s2]|] eqn:H2; [|by intros [= <- <-]].
  destruct (more_values fuel s2) as [vs' s3] eqn:H3. intros [= <- <-].
  destruct (IH _ _ _ H3) as [Hvs Hlen].
  pose proof (proj2 (many1_Some _ _ _ _ H2)) as Hv. apply many1_length in H2.
  apply strip_prefix_Some in H1. pose proof (skip_spaces_length s) as Hs. rewrite H1 in Hs.
  cbn in Hs. pose proof (skip_spaces_length s1). split; [by constructor|lia].
Qed.

Lemma value_list_sound s vs r :
  value_list s = Some (vs, r) →
  vs ≠ [] ∧ Forall (word value_char) vs ∧ String.length r < String.length s.
Proof.
  unfold value_list. destruct (strip_prefix "[" s) as [s1|] eqn:H1; [|done].
  destruct (many1 value_char (skip_spaces s1)) as [[v s2]|] eqn:H2; [|done].
  destruct (more_values (String.length s2) s2) as [vs' s3] eqn:H3.
  destruct (strip_prefix "]" (skip_spaces s3)) as [s4|] eqn:H4; [|done]. intros [= <- <-].
  destruct (more_values_sound _ _ _ _ H3) as [Hvs Hlen].
  pose proof (proj2 (many1_Some _ _ _ _ H2)) as Hv. apply many1_length in H2.
  apply strip_prefix_Some in H1 as ->. apply strip_prefix_Some in H4.
  pose proof (skip_spaces_length s3) as Hs. rewrite H4 in Hs. cbn in *.
  pose proof (skip_spaces_length s1). repeat split; [done|by constructor|lia].
Qed.

Lemma cmp_op_sound s op r :
  cmp_op s = Some (op, r) →
  (op = Equal ∨ op = NotEqual) ∧ String.length r < String.length s.
Proof.
  intros H. split; [|by eapply literals_length; [|exact H]; repeat constructor].
  revert H. unfold cmp_op. cbn.
  destruct (strip_prefix "=" s); [intros [= <- <-]; auto|].
  destruct (strip_prefix "!=" s); [intros [= <- <-]; auto|done].
Qed.

Lemma like_op_sound s op r :
  like_op s = Some (op, r) →
  (op = Like ∨ op = NotLike) ∧ String.length r < String.length s.
Proof.
  intros H. split; [|by eapply literals_length; [|exact H]; repeat constructor].
  revert H. unfold like_op. cbn.
  destruct (strip_prefix "~" s); [intros [= <- <-]; auto|].
  destruct (strip_prefix "!~" s); [intros [= <- <-]; auto|done].
Qed.

(** [node] is a comparison the grammar allows. *)
Definition good_comparison (node : AstNode) : Prop :=
  match node with Comparison field op values => wf_comparison field op values | _ => False end.

Lemma comparison_wildcard_sound s node r :
  comparison_wildcard s = Some (node, r) →
  good_comparison node ∧ String.length r < String.length s.
Proof.
  unfold comparison_wildcard.
  destruct (many1 ascii_alphanumeric s) as [[key s1]|] eqn:H1; [|done].
  destruct (like_op (skip_spaces s1)) as [[op s2]|] eqn:H2; [|done].
  destruct (many1 glob_char (skip_spaces s2)) as [[v s3]|] eqn:H3; [|done]. intros [= <- <-].
  pose proof (proj2 (many1_Some _ _ _ _ H1)) as Hk. apply many1_length in H1.
  pose proof (proj2 (many1_Some _ _ _ _ H3)) as Hv. apply many1_length in H3.
  destruct (like_op_sound _ _ _ H2) as [Hop Hlen].
  pose proof (skip_spaces_length s1). pose proof (skip_spaces_length s2).
  split; [|lia]. split; [done|]. destruct Hop as [-> | ->]; eauto.
Qed.

Lemma comparison_literal_sound s node r :
  comparison_literal s = Some (node, r) →
  good_comparison node ∧ String.length r < String.length s.
Proof.
  unfold comparison_literal.
  destruct (many1 ascii_alphanumeric s) as [[key s1]|] eqn:H1; [|done].
  destruct (cmp_op (skip_spaces s1)) as [[op s2]|] eqn:H2; [|done].
  pose proof (proj2 (many1_Some _ _ _ _ H1)) as Hk. apply many1_length in H1.
  destruct (cmp_op_sound _ _ _ H2) as [Hop Hlen].
  pose proof (skip_spaces_length s1). pose proof (skip_spaces_length s2).
  destruct (value_list (skip_spaces s2)) as [[vs s3]|] eqn:H3.
  - intros [= <- <-]. destruct (value_list_sound _ _ _ H3) as (Hne & Hvs & ?).
    split; [|lia]. split; [done|]. by destruct Hop as [-> | ->].
  - destruct (many1 value_char (skip_spaces s2)) as [[v s3]|] eqn:H4; [|done]. intros [= <- <-].
    pose proof (proj2 (many1_Some _ _ _ _ H4)) as Hv. apply many1_length in H4.
    split; [|lia]. split; [done|]. destruct Hop as [-> | ->]; (split; [done|by constructor]).
Qed.

Lemma comparison_sound s node r :
  comparison s = Some (node, r) → good_comparison node ∧ String.length r < String.length s.
Proof.
  unfold comparison. destruct (comparison_wildcard s) as [[n s1]|] eqn:H.
  - intros [= <- <-]. by apply comparison_wildcard_sound.
  - apply comparison_literal_sound.
Qed.

(** *** What is parsed has the shape of the grammar *)

Lemma expr_sound fuel :
  (∀ s nodes r, expr fuel s = Some (nodes, r) →
     wf_expr nodes ∧ String.length r < String.length s) ∧
  (∀ s nodes r, expr_tail fuel s = (nodes, r) →
     wf_tail nodes ∧ String.length r ≤ String.length s) ∧
  (∀ s nodes r, expr_group fuel s = Some (nodes, r) →
     wf_expr nodes ∧ String.length r < String.length s).
Proof.
  induction fuel as [|fuel (IHe & IHt & IHg)]; cbn.
  { split; [done|split; [|done]]. intros s nodes r [= <- <-]. split; [constructor|lia]. }
  split; [|split]; intros s nodes r.
  - destruct (comparison s) as [[c s1]|] eqn:Hc; [|done]. apply comparison_sound in Hc as [Hc ?].
    destruct (expr_tail fuel s1) as [ns s2] eqn:Ht. intros [= <- <-].
    apply IHt in Ht as [Ht ?]. destruct c; [|done..]. split; [by constructor|lia].
  - destruct (logic_op (skip_spaces s)) as [[op s1]|] eqn:Ho;
      [|intros [= <- <-]; split; [constructor|lia]].
    apply logic_op_length in Ho. pose proof (skip_spaces_length s). pose proof (skip_spaces_length s1).
    destruct (comparison (skip_spaces s1)) as [[c s2]|] eqn:Hc.
    + apply comparison_sound in Hc as [Hc ?]. destruct (expr_tail fuel s2) as [ns s3] eqn:Ht.
      intros [= <- <-]. apply IHt in Ht as [Ht ?]. destruct c; [|done..].
      split; [by constructor|lia].
    + destruct (expr_group fuel (skip_spaces s1)) as [[g s2]|] eqn:Hg;
        [|intros [= <- <-]; split; [constructor|lia]].
      destruct (expr_tail fuel s2) as [ns s3] eqn:Ht. intros [= <- <-].
      apply IHg in Hg as [Hg ?]. apply IHt in Ht as [Ht ?]. split; [by constructor|lia].
  - destruct (strip_prefix "(" s) as [s1|] eqn:Hs; [|done]. apply strip_prefix_Some in Hs as ->.
    destruct (expr fuel (skip_spaces s1)) as [[ns s2]|] eqn:He; [|done].
    destruct (strip_prefix ")" (skip_spaces s2)) as [s3|] eqn:Hs3; [|done]. intros [= <- <-].
    apply IHe in He as [He ?]. apply strip_prefix_Some in Hs3.
    pose proof (skip_spaces_length s1). pose proof (skip_spaces_length s2) as Hl.
    rewrite Hs3 in Hl. cbn in *. split; [done|lia].
Qed.

Lemma parse_query_sound input nodes : parse_query input = Ok nodes → wf_expr nodes.
Proof.
  unfold parse_query. destruct (expr (query_fuel input) (skip_spaces input)) as [[ns r]|] eqn:He;
    [|done].
  destruct (decide _); [|done]. intros [= <-]. by apply (proj1 (expr_sound _)) in He as [? _].
Qed.

(** *** Fuel *)

Lemma expr_fuel_enough f1 f2 s :
  String.length s < f1 → String.length s < f2 →
  expr f1 s = expr f2 s ∧ expr_tail f1 s = expr_tail f2 s ∧ expr_group f1 s = expr_group f2 s.
Proof.
  revert f2 s. induction f1 as [|f1 IH]; intros [|f2] s H1 H2; [lia..|]. cbn.
  split; [|split].
  - destruct (comparison s) as [[c s1]|] eqn:Hc; [|done]. apply comparison_sound in Hc as [_ ?].
    by rewrite (proj1 (proj2 (IH f2 s1 ltac:(lia) ltac:(lia)))).
  - destruct (logic_op (skip_spaces s)) as [[op s1]|] eqn:Ho; [|done].
    apply logic_op_length in Ho. pose proof (skip_spaces_length s). pose proof (skip_spaces_length s1).
    destruct (comparison (skip_spaces s1)) as [[c s2]|] eqn:Hc.
    + apply comparison_sound in Hc as [_ ?].
      by rewrite (proj1 (proj2 (IH f2 s2 ltac:(lia) ltac:(lia)))).
    + rewrite (proj2 (proj2 (IH f2 (skip_spaces s1) ltac:(lia) ltac:(lia)))).
      destruct (expr_group f2 (skip_spaces s1)) as [[g s2]|] eqn:Hg; [|done].
      apply (proj2 (proj2 (expr_sound _))) in Hg as [_ ?].
      by rewrite (proj1 (proj2 (IH f2 s2 ltac:(lia) ltac:(lia)))).
  - destruct (strip_prefix "(" s) as [s1|] eqn:Hs; [|done]. apply strip_prefix_Some in Hs as ->.
    cbn in *. pose proof (skip_spaces_length s1).
    by rewrite (proj1 (IH f2 (skip_spaces s1) ltac:(lia) ltac:(lia))).
Qed.

(** *** Parsing what was printed *)

(** What comes after a comparison or a group: the end, a closing parenthesis or
    a space. *)
Definition follows (s : string) : Prop :=
  match s with
  | EmptyString => True
  | String c _ => c = ")"%char ∨ c = " "%char
  end.

(** What comes after an expression. *)
Definition closes (s : string) : Prop :=
  match s with EmptyString => True | String c _ => c = ")"%char end.

Lemma follows_stops p s :
  p ")"%char = false → p " "%char = false → follows s → stops p s.
Proof. destruct s as [|c s]; cbn; [done|]. by intros ? ? [-> | ->]. Qed.

Lemma closes_follows s : closes s → follows s.
Proof. destruct s; cbn; auto. Qed.

Lemma skip_word s : skip_spaces (String " " s) = skip_spaces s.
Proof. done. Qed.

Lemma strip_char c s : strip_prefix (String c EmptyString) (String c s) = Some s.
Proof. by rewrite strip_prefix_cons, Ascii.eqb_refl, strip_prefix_nil. Qed.

Definition print_more (values : list string) : string :=
  foldr (λ v s, "," +:+ v +:+ s) ""%string values.

Lemma str_join_more v vs : str_join "," (v :: vs) = v +:+ print_more vs.
Proof.
  revert v. induction vs as [|w vs IH]; intros v; [by rewrite str_append_nil_r|].
  change (str_join "," (v :: w :: vs)) with (v +:+ "," +:+ str_join "," (w :: vs)).
  by rewrite IH.
Qed.

Lemma print_more_stops vs r :
  stops value_char (print_more vs +:+ String "]" r).
Proof. by destruct vs. Qed.

Lemma more_values_print fuel vs r :
  Forall (word value_char) vs →
  String.length (print_more vs) ≤ fuel →
  more_values fuel (print_more vs +:+ String "]" r) = (vs, String "]" r).
Proof.
  revert fuel. induction vs as [|v vs IH]; intros fuel Hvs Hfuel.
  - by destruct fuel.
  - inversion Hvs as [|? ? Hv Hvs']; subst.
    change (print_more (v :: vs)) with (String "," (v +:+ print_more vs)) in *.
    cbn in Hfuel. destruct fuel as [|fuel]; [lia|]. rewrite str_append_length in Hfuel.
    change (String "," (v +:+ print_more vs) +:+ String "]" r)
      with (String "," ((v +:+ print_more vs) +:+ String "]" r)).
    rewrite str_append_assoc. cbn [more_values]. rewrite skip_spaces_stops by done.
    rewrite strip_char, (word_no_space value_char), (many1_word _ _ _ Hv) by
      (done || apply print_more_stops).
    rewrite IH by (done || lia). done.
Qed.

Lemma value_list_print v vs r :
  Forall (word value_char) (v :: vs) →
  value_list (String "[" (str_join "," (v :: vs) +:+ String "]" r)) = Some (v :: vs, r).
Proof.
  intros Hvs. inversion Hvs as [|? ? Hv Hvs']; subst. unfold value_list.
  rewrite strip_char, str_join_more, str_append_assoc, (word_no_space value_char), (many1_word _ _ _ Hv) by (done || apply print_more_stops).
  rewrite more_values_print by (done || rewrite str_append_length; lia).
  rewrite skip_spaces_stops by done. by rewrite strip_char.
Qed.

Lemma value_list_word v r : word value_char v → value_list (v +:+ r) = None.
Proof.
  intros Hv. destruct (word_cons _ _ Hv) as (c & v' & -> & Hc). cbn. unfold value_list.
  rewrite strip_prefix_cons. destruct (Ascii.eqb_spec "["%char c) as [<-|]; [done|done].
Qed.

Lemma print_values_parse values r :
  values ≠ [] → Forall (word value_char) values → stops value_char r →
  match value_list (skip_spaces (print_values values +:+ r)) with
  | Some (vs, s) => vs = values ∧ s = r
  | None => ∃ v, values = [v] ∧ many1 value_char (skip_spaces (print_values values +:+ r)) = Some (v, r)
  end.
Proof.
  intros Hne Hvs Hr. destruct values as [|v [|w vs]]; [done|..].
  - inversion Hvs as [|? ? Hv _]; subst. cbn [print_values].
    rewrite (word_no_space value_char), value_list_word by done. exists v.
    by rewrite many1_word.
  - cbn [print_values]. rewrite !str_append_assoc.
    rewrite skip_spaces_stops by done. cbn [String.append].
    change ("" +:+ str_join "," (v :: w :: vs) +:+ "]" +:+ r)
      with (str_join "," (v :: w :: vs) +:+ String "]" r).
    by rewrite value_list_print.
Qed.

Lemma key_print field op r :
  word ascii_alphanumeric field →
  many1 ascii_alphanumeric (field +:+ print_cmp op +:+ r) = Some (field, print_cmp op +:+ r).
Proof. intros Hf. apply many1_word; [done|]. by destruct op. Qed.

Lemma comparison_print field op values r :
  wf_comparison field op values → follows r →
  comparison (print_node (Comparison field op values) +:+ r) =
  Some (Comparison field op values, r).
Proof.
  intros [Hf Hvs] Hr. cbn [print_node]. rewrite !str_append_assoc. unfold comparison.
  unfold comparison_wildcard, comparison_literal. rewrite key_print by done.
  assert (∀ x, skip_spaces (print_cmp op +:+ x) = print_cmp op +:+ x) as -> by
    (intros; apply skip_spaces_stops; by destruct op).
  assert (stops glob_char r ∧ stops value_char r) as [Hg Hv] by
    (split; by apply follows_stops).
  destruct op.
  - change (like_op _) with (@None (ComparisonOperator * string)).
    change (cmp_op _) with (Some (Equal, print_values values +:+ r)).
    destruct Hvs as [Hne Hvs]. cbv iota beta. pose proof (print_values_parse _ _ Hne Hvs Hv) as Hp.
    destruct (value_list _) as [[vs s]|]; [by destruct Hp as [-> ->]|].
    by destruct Hp as (v & -> & ->).
  - change (like_op _) with (@None (ComparisonOperator * string)).
    change (cmp_op _) with (Some (NotEqual, print_values values +:+ r)).
    destruct Hvs as [Hne Hvs]. cbv iota beta. pose proof (print_values_parse _ _ Hne Hvs Hv) as Hp.
    destruct (value_list _) as [[vs s]|]; [by destruct Hp as [-> ->]|].
    by destruct Hp as (v & -> & ->).
  - destruct Hvs as (v & -> & Hw). change (like_op _) with (Some (Like, v +:+ r)).
    cbv iota beta. by rewrite (word_no_space glob_char), many1_word.
  - destruct Hvs as (v & -> & Hw). change (like_op _) with (Some (NotLike, v +:+ r)).
    cbv iota beta. by rewrite (word_no_space glob_char), many1_word.
Qed.

Lemma print_query_cons node nodes r :
  print_query (node :: nodes) +:+ r = print_node node +:+ print_query nodes +:+ r.
Proof. unfold print_query. cbn [foldr]. by rewrite str_append_assoc. Qed.

Lemma print_comparison_length field op values :
  wf_comparison field op values → 1 ≤ String.length (print_node (Comparison field op values)).
Proof.
  intros [Hf _]. destruct (word_cons _ _ Hf) as (c & f & -> & _). cbn. lia.
Qed.

Lemma tail_follows nodes r : wf_tail nodes → closes r → follows (print_query nodes +:+ r).
Proof.
  intros [|[] | []] Hr; [by apply closes_follows|..]; rewrite print_query_cons; cbn; auto.
Qed.

(** What a printed operator is read as, and where the next comparison or group
    starts. *)
Lemma logic_op_print lop s :
  ∃ s', logic_op (skip_spaces (print_node (Op lop) +:+ s)) = Some (lop, s') ∧
    skip_spaces s' = skip_spaces s.
Proof.
  destruct lop; (eexists; split; [reflexivity|done]).
Qed.

Lemma comparison_no_space field op values r :
  wf_comparison field op values →
  skip_spaces (print_node (Comparison field op values) +:+ r) =
  print_node (Comparison field op values) +:+ r.
Proof.
  intros [Hf _]. cbn [print_node]. rewrite !str_append_assoc.
  by apply (word_no_space ascii_alphanumeric).
Qed.

Lemma print_query_length node nodes :
  String.length (print_query (node :: nodes)) =
  String.length (print_node node) + String.length (print_query nodes).
Proof. unfold print_query. cbn [foldr]. by rewrite str_append_length. Qed.

Lemma print_group nodes : print_node (Group nodes) = String "(" (print_query nodes +:+ ")").
Proof. done. Qed.

#[local] Arguments print_query : simpl never.
#[local] Arguments print_node : simpl never.

Lemma expr_print :
  (∀ nodes, wf_expr nodes → ∀ fuel r,
     String.length (print_query nodes) ≤ fuel → closes r →
     expr fuel (print_query nodes +:+ r) = Some (nodes, r)) ∧
  (∀ nodes, wf_tail nodes → ∀ fuel r,
     String.length (print_query nodes) ≤ fuel → closes r →
     expr_tail fuel (print_query nodes +:+ r) = (nodes, r)).
Proof.
  apply wf_nodes_ind.
  - intros field op values nodes Hc Ht IH fuel r Hfuel Hr.
    rewrite print_query_length in Hfuel. pose proof (print_comparison_length _ _ _ Hc).
    rewrite print_query_cons. destruct fuel as [|fuel]; [lia|]. cbn [expr].
    rewrite comparison_print by (done || by apply tail_follows).
    by rewrite IH by (done || lia).
  - intros fuel r _ Hr. destruct fuel as [|fuel]; [done|]. cbn.
    destruct r as [|c r]; [done|]. cbn in Hr. by subst c.
  - intros lop field op values nodes Hc Ht IH fuel r Hfuel Hr.
    rewrite !print_query_length in Hfuel. pose proof (print_comparison_length _ _ _ Hc).
    rewrite !print_query_cons. destruct fuel as [|fuel]; [lia|]. cbn [expr_tail].
    destruct (logic_op_print lop (print_node (Comparison field op values) +:+
      print_query nodes +:+ r)) as (s' & -> & ->).
    rewrite comparison_no_space by done.
    rewrite comparison_print by (done || by apply tail_follows).
    by rewrite IH by (done || lia).
  - intros lop group nodes Hg IHg Ht IH fuel r Hfuel Hr.
    rewrite !print_query_length, print_group in Hfuel. cbn [String.length] in Hfuel.
    rewrite str_append_length in Hfuel.
    rewrite !print_query_cons. destruct fuel as [|fuel]; [lia|]. cbn [expr_tail].
    destruct (logic_op_print lop (print_node (Group group) +:+ print_query nodes +:+ r))
      as (s' & -> & ->).
    assert (2 ≤ String.length (print_node (Op lop))) by (destruct lop; cbv; lia).
    rewrite print_group. cbn [String.append]. rewrite skip_spaces_stops by done.
    change (comparison (String "(" _)) with (@None (AstNode * string)). cbv iota beta.
    destruct fuel as [|fuel]; [lia|]. cbn [expr_group]. rewrite strip_char, str_append_assoc.
    inversion Hg as [field op values nodes' Hc Ht']; subst.
    rewrite print_query_cons at 1. rewrite comparison_no_space by done. rewrite <- print_query_cons.
    rewrite IHg by (done || lia). cbn [String.append].
    rewrite skip_spaces_stops, strip_char by done.
    by rewrite IH by (done || lia).
Qed.

Lemma parse_print nodes : wf_expr nodes → parse_query (print_query nodes) = Ok nodes.
Proof.
  intros Hn. unfold parse_query, query_fuel.
  pose proof (proj1 expr_print _ Hn (S (String.length (print_query nodes))) "" ltac:(lia) I) as He.
  rewrite str_append_nil_r in He. inversion Hn as [field op values nodes' Hc Ht]; subst.
  rewrite <- (str_append_nil_r (print_query _)) at 2.
  rewrite print_query_cons, comparison_no_space, <- print_query_cons, str_append_nil_r by done.
  by rewrite He.
Qed.

(** ** What a query means *)

(** The same loop, on results. *)
Fixpoint eval_conditions (eval : Condition → result bool) (op : LogicalOperator) (matched_any : bool)
  (conditions : list Condition) : result bool :=
  match conditions with
  | [] => Ok matched_any
  | condition :: conditions' =>
      let? matches := eval condition in
      match matches, op with
      | true, LAnd => eval_conditions eval op true conditions'
      | true, LOr => Ok true
      | false, LAnd => Ok false
      | false, LOr => eval_conditions eval op matched_any conditions'
      end
  end.

Section Eval.
Context (leaf : Field → ComparisonOperator → result bool).

Fixpoint eval_condition (condition : Condition) : result bool :=
  match condition with
  | ConditionField field op => leaf field op
  | ConditionCriteria criteria => eval_criteria criteria
  end
with eval_criteria (query : Criteria) : result bool :=
  match query with
  | mkCriteria op conditions _ => eval_conditions eval_condition op false conditions
  end.
End Eval.

(** Induction on conditions and criteria. *)
Section CriteriaInd.
Context (P : Condition → Prop) (Q : Criteria → Prop).
Context (Hfield : ∀ field op, P (ConditionField field op)).
Context (Hcriteria : ∀ c, Q c → P (ConditionCriteria c)).
Context (Hconditions : ∀ op conditions input, Forall P conditions → Q (mkCriteria op conditions input)).

Fixpoint condition_ind' (c : Condition) : P c :=
  match c with
  | ConditionField field op => Hfield field op
  | ConditionCriteria c => Hcriteria c (criteria_ind' c)
  end
with criteria_ind' (c : Criteria) : Q c :=
  match c with
  | mkCriteria op conditions input =>
      Hconditions op conditions input
        ((fix loop (l : list Condition) : Forall P l :=
            match l with
            | [] => List.Forall_nil P
            | x :: l' => List.Forall_cons P x l' (condition_ind' x) (loop l')
            end) conditions)
  end.
End CriteriaInd.

Section Meaning.
Context `{QueryHost}.
Context (holds : Field → ComparisonOperator → bool).

(** Criteria as formulas. *)
Fixpoint condition_holds (c : Condition) : bool :=
  match c with
  | ConditionField field op => holds field op
  | ConditionCriteria c => criteria_holds c
  end
with criteria_holds (c : Criteria) : bool :=
  match c with
  | mkCriteria LAnd conditions _ =>
      negb (bool_decide (conditions = [])) && forallb condition_holds conditions
  | mkCriteria LOr conditions _ => existsb condition_holds conditions
  end.

(** The text of a query, read from left to right: a comparison holds when its
    field does, [&&] and [||] are the connectives. *)
Fixpoint node_holds (node : AstNode) : bool :=
  match node with
  | Comparison field op value =>
      match build_field field op value with Ok f => holds f op | _ => false end
  | Op _ => false
  | Group nodes =>
      match nodes with
      | [] => false
      | node' :: nodes' =>
          (fix rest (acc : bool) (nodes : list AstNode) : bool :=
             match nodes with
             | Op LAnd :: node :: nodes' => rest (acc && node_holds node) nodes'
             | Op LOr :: node :: nodes' => rest (acc || node_holds node) nodes'
             | _ => acc
             end) (node_holds node') nodes'
      end
  end.

Fixpoint rest_holds (acc : bool) (nodes : list AstNode) : bool :=
  match nodes with
  | Op LAnd :: node :: nodes' => rest_holds (acc && node_holds node) nodes'
  | Op LOr :: node :: nodes' => rest_holds (acc || node_holds node) nodes'
  | _ => acc
  end.

Definition query_holds (nodes : list AstNode) : bool := node_holds (Group nodes).

Lemma query_holds_cons node nodes : query_holds (node :: nodes) = rest_holds (node_holds node) nodes.
Proof. done. Qed.

(** The loop of [build_criteria] inside of a group is that loop. *)
Lemma build_node_group op conditions nodes :
  build_node (op, conditions) (Group nodes) =
  (let? c := build_criteria nodes in Ok (op, conditions ++ [ConditionCriteria c])).
Proof.
  cbn [build_node]. unfold build_criteria. rewrite obind_assoc. f_equal.
  generalize (@None LogicalOperator, @nil Condition) as st.
  induction nodes as [|n nodes IH]; intros st; [done|]. cbn.
  destruct (build_node st n); cbn; [apply IH|done..].
Qed.

(** What the operator and the conditions so far stand for. *)
Definition state_holds (st : option LogicalOperator * list Condition) : bool :=
  match st with
  | (Some LOr, conditions) => existsb condition_holds conditions
  | (_, conditions) => forallb condition_holds conditions
  end.

(** Without an operator there is one condition. *)
Definition state_ok (st : option LogicalOperator * list Condition) : Prop :=
  match st with
  | (None, conditions) => ∃ c, conditions = [c]
  | (Some _, conditions) => conditions ≠ []
  end.

Lemma finish_criteria_holds st : state_ok st → criteria_holds (finish_criteria st) = state_holds st.
Proof.
  destruct st as [[[]|] conditions]; cbn; [by destruct conditions|done|].
  by intros [c ->].
Qed.

(** Adding an operator and a condition. *)
Lemma state_step st lop c st1 :
  state_ok st → build_node st (Op lop) = Ok st1 →
  state_ok (st1.1, st1.2 ++ [c]) ∧
  state_holds (st1.1, st1.2 ++ [c]) =
    match lop with
    | LAnd => state_holds st && condition_holds c
    | LOr => state_holds st || condition_holds c
    end.
Proof.
  intros Hok. destruct st as [[op|] conditions]; cbn [build_node].
  - destruct (decide (lop = op)) as [->|]; [|done]. intros [= <-]. cbn.
    split; [by destruct conditions|].
    destruct op; [rewrite forallb_app|rewrite existsb_app]; cbn;
      by rewrite ?andb_true_r, ?orb_false_r.
  - intros [= <-]. destruct Hok as [c0 ->]. cbn. split; [done|].
    by destruct lop, (condition_holds c0); cbn; rewrite ?andb_true_r, ?orb_false_r.
Qed.

Lemma build_meaning :
  (∀ nodes, wf_expr nodes → ∀ c, build_criteria nodes = Ok c →
     criteria_holds c = query_holds nodes) ∧
  (∀ nodes, wf_tail nodes → ∀ st st', state_ok st → ofold build_node st nodes = Ok st' →
     state_ok st' ∧ state_holds st' = rest_holds (state_holds st) nodes).
Proof.
  apply wf_nodes_ind.
  - intros field op values nodes Hc Ht IH c. unfold build_criteria. cbn [ofold build_node].
    rewrite query_holds_cons. cbn [node_holds].
    destruct (build_field field op values) as [f|e|]; [|done..]. cbn [obind]. intros He. step_ok.
    destruct (IH (None, [ConditionField f op]) a ltac:(by exists (ConditionField f op)) E)
      as [Hok Hst].
    rewrite finish_criteria_holds, Hst by done. cbn. by rewrite andb_true_r.
  - intros st st' Hok [= <-]. done.
  - intros lop field op values nodes Hc Ht IH st st' Hok He. cbn [ofold] in He.
    destruct (build_node st (Op lop)) as [[op1 cs1]| |] eqn:Hop; [|done..].
    cbn [obind build_node] in He. cbn [rest_holds node_holds].
    destruct (build_field field op values) as [f| |]; [|done..]. cbn [obind] in He.
    destruct (state_step _ _ (ConditionField f op) _ Hok Hop) as [Hok1 Hst].
    cbn [fst snd] in Hok1, Hst.
    destruct (IH _ _ Hok1 He) as [Hok' ->]. rewrite Hst. by destruct lop.
  - intros lop group nodes Hg IHg Ht IH st st' Hok He. cbn [ofold] in He.
    destruct (build_node st (Op lop)) as [[op1 cs1]| |] eqn:Hop; [|done..].
    cbn [obind] in He. rewrite build_node_group in He. cbn [rest_holds].
    destruct (build_criteria group) as [c| |]; [|done..]. cbn [obind] in He.
    destruct (state_step _ _ (ConditionCriteria c) _ Hok Hop) as [Hok1 Hst].
    cbn [fst snd] in Hok1, Hst.
    destruct (IH _ _ Hok1 He) as [Hok' ->]. rewrite Hst.
    change (condition_holds (ConditionCriteria c)) with (criteria_holds c).
    rewrite (IHg c eq_refl). by destruct lop.
Qed.

(** The loop over the conditions computes the formula, or returns the error of
    one of the fields. *)
Context (leaf : Field → ComparisonOperator → result bool).
Context (leaf_holds : ∀ field op,
  leaf field op = Ok (holds field op) ∨ ∃ e, leaf field op = Err e).

Definition computes (r : result bool) (b : bool) : Prop :=
  r = Ok b ∨ ∃ field op e, leaf field op = Err e ∧ r = Err e.

Lemma does_match_holds c : computes (eval_criteria leaf c) (criteria_holds c).
Proof.
  revert c. apply (criteria_ind' (λ c, computes (eval_condition leaf c) (condition_holds c))).
  - intros field op. destruct (leaf_holds field op) as [Hl|[e Hl]]; cbn; [by left|].
    right. eauto 6.
  - intros c Hc. done.
  - intros op conditions input Hcs. cbn [criteria_holds].
    change (eval_criteria leaf (mkCriteria op conditions input))
      with (eval_conditions (eval_condition leaf) op false conditions).
    assert (∀ any, computes (eval_conditions (eval_condition leaf) op any conditions)
      match op with
      | LAnd => (any || negb (bool_decide (conditions = []))) && forallb condition_holds conditions
      | LOr => any || existsb condition_holds conditions
      end) as Hloop.
    { induction Hcs as [|c cs Hc Hcs IH]; intros any.
      - left. by destruct op, any.
      - cbn [eval_conditions].
        destruct Hc as [-> | (f & o & e & He & ->)]; [|right; eauto 6]. cbn [obind].
        destruct (condition_holds c) eqn:Hb, op; cbn [forallb existsb]; rewrite Hb;
          rewrite ?bool_decide_eq_false_2, ?orb_true_r by done; cbn.
        + apply (IH true).
        + by left.
        + by left.
        + apply IH. }
    destruct op; [apply (Hloop false)|apply (Hloop false)].
Qed.
End Meaning.

(** The loop returns what it does on results, when the fields do. *)
Lemma does_match_returns {S} (I : S → Prop) leaf h c :
  (∀ field op, returns I (leaf field op) (h field op)) →
  returns I (does_match_criteria leaf c) (eval_criteria h c).
Proof.
  intros Hleaf. revert c.
  apply (criteria_ind' (λ c, returns I (condition_matches leaf c) (eval_condition h c))).
  - intros field op. apply Hleaf.
  - intros c Hc. exact Hc.
  - intros op conditions input Hcs.
    change (returns I (criteria_loop (condition_matches leaf) op false conditions)
      (eval_conditions (eval_condition h) op false conditions)).
    generalize false as any. induction Hcs as [|c cs Hc Hcs IH]; intros any; [apply returns_ret|].
    cbn [eval_conditions criteria_loop]. apply returns_bind; [exact Hc|]. intros [] _; destruct op.
    + apply IH.
    + apply returns_ret.
    + apply returns_ret.
    + apply IH.
Qed.

(** A query that can be built evaluates to what its text means. *)
Lemma build_query_meaning `{QueryHost} holds leaf input nodes c :
  (∀ field op, leaf field op = Ok (holds field op) ∨ ∃ e, leaf field op = Err e) →
  parse_query input = Ok nodes → build_query input = Ok c →
  computes leaf (eval_criteria leaf c) (query_holds holds nodes).
Proof.
  intros Hleaf Hparse. unfold build_query. rewrite Hparse.
  destruct (decide (input = ""%string)); [done|]. intros Hb. cbn [map_err obind] in Hb. step_ok.
  rewrite <- (proj1 (build_meaning holds) _ (parse_query_sound _ _ Hparse) _ E).
  destruct a as [op cs i]. apply (does_match_holds holds leaf Hleaf (mkCriteria op cs (Some input))).
Qed.

(** ** The meaning of a query, apart from how it is evaluated *)

Section AstInd.
Context (P : AstNode → Prop).
Context (Hcomparison : ∀ field op value, P (Comparison field op value)) (Hop : ∀ op, P (Op op)).
Context (Hgroup : ∀ nodes, Forall P nodes → P (Group nodes)).

Fixpoint ast_ind' (node : AstNode) : P node :=
  match node with
  | Comparison field op value => Hcomparison field op value
  | Op op => Hop op
  | Group nodes =>
      Hgroup nodes
        ((fix loop (l : list AstNode) : Forall P l :=
            match l with
            | [] => List.Forall_nil P
            | x :: l' => List.Forall_cons P x l' (ast_ind' x) (loop l')
            end) nodes)
  end.
End AstInd.

Section Means.
Context (P : string → ComparisonOperator → list string → Prop).

(** The comparisons of a text hold as [P] says, groups are parentheses, and [&&] and [||] are
    the connectives, from left to right. *)
Fixpoint node_means (node : AstNode) : Prop :=
  match node with
  | Comparison field op value => P field op value
  | Op _ => False
  | Group nodes =>
      match nodes with
      | [] => False
      | node' :: nodes' =>
          (fix rest (acc : Prop) (nodes : list AstNode) : Prop :=
             match nodes with
             | Op LAnd :: node :: nodes' => rest (acc ∧ node_means node) nodes'
             | Op LOr :: node :: nodes' => rest (acc ∨ node_means node) nodes'
             | _ => acc
             end) (node_means node') nodes'
      end
  end.

Definition query_means (nodes : list AstNode) : Prop := node_means (Group nodes).

Context `{QueryHost} (holds : Field → ComparisonOperator → bool).
Context (Hleaf : ∀ field op value,
  match build_field field op value with Ok f => holds f op | _ => false end = true ↔ P field op value).

Lemma node_means_holds node : node_holds holds node = true ↔ node_means node.
Proof.
  induction node as [field op value|l|nodes IH] using ast_ind'; [apply Hleaf|done|].
  destruct IH as [|node nodes Hnode Hnodes]; [done|]. cbn [node_holds node_means].
  revert Hnode. generalize (node_means node), (node_holds holds node). clear node.
  remember (length nodes) as n eqn:Hn. assert (length nodes ≤ n) as Hle by lia. clear Hn. revert nodes Hnodes Hle.
  induction n as [|n IHn]; intros [|[field op value|l|group] [|node nodes]] Hall Hle accP acc Hacc; cbn in Hle;
    try lia; try exact Hacc; [destruct l; exact Hacc|].
  apply Forall_cons in Hall as [_ [Hnode Hall]%Forall_cons].
  destruct l; (apply IHn; [done|lia|]); [rewrite andb_true_iff|rewrite orb_true_iff]; rewrite Hacc, Hnode; reflexivity.
Qed.

Lemma query_means_holds nodes : query_holds holds nodes = true ↔ query_means nodes.
Proof. apply node_means_holds. Qed.
End Means.

(** What a comparison of one value means: it is listed, or matched by one of the globs. A glob
    that cannot be read compares with nothing. *)
Definition compares `{QueryHost} (op : ComparisonOperator) (values : list string) (value : string) : Prop :=
  match op with
  | Equal => value ∈ values
  | NotEqual => value ∉ values
  | Like => ∃ globs, QueryGlobs_new values = Ok globs ∧ is_included globs value = true
  | NotLike => ∃ globs, QueryGlobs_new values = Ok globs ∧ is_included globs value = false
  end.

(** The values of an enumeration can only be listed. *)
Definition compares_enum {T} (from_str : string → option T) (op : ComparisonOperator)
    (values : list string) (value : T) : Prop :=
  ∃ l, Forall2 (λ s x, from_str s = Some x) values l ∧
    match op with Equal => value ∈ l | NotEqual => value ∉ l | _ => False end.

Section Compares.
Context `{QueryHost}.

Lemma Condition_matches_spec op values value :
  Condition_matches op values value = Ok true ↔ compares op values value.
Proof.
  destruct op; cbn.
  - split; [by intros [= ?%bool_decide_eq_true]|intros ?; by rewrite bool_decide_eq_true_2].
  - split; [by intros [= ?%negb_true_iff%bool_decide_eq_false]|intros ?; by rewrite bool_decide_eq_false_2].
  - destruct (QueryGlobs_new values) as [globs| |]; cbn; [|by split; [|intros (? & ? & ?)]..].
    split; [intros [= Hi]; eauto|by intros (? & [= <-] & ->)].
  - destruct (QueryGlobs_new values) as [globs| |]; cbn; [|by split; [|intros (? & ? & ?)]..].
    split; [intros [= Hi%negb_true_iff]; eauto|by intros (? & [= <-] & ->)].
Qed.

(** Reading globs fails for all values or for none. *)
Lemma Condition_matches_uniform op values v v' e :
  Condition_matches op values v = Ok true → Condition_matches op values v' ≠ Err e ∧ Condition_matches op values v' ≠ OutOfFuel.
Proof. destruct op; cbn; [done..| |]; by destruct (QueryGlobs_new values). Qed.

Lemma matches_list_spec op values l :
  matches_list op values l = Ok true ↔ ∃ value, value ∈ l ∧ compares op values value.
Proof.
  setoid_rewrite <- Condition_matches_spec. induction l as [|x l IH]; cbn; [set_solver|]. split.
  - destruct (Condition_matches op values x) as [[]| |] eqn:Hx; cbn; [|rewrite IH|done|done]; set_solver.
  - intros (v & [->|Hin]%elem_of_cons & Hv); [by rewrite Hv|].
    destruct (Condition_matches op values x) as [[]|e|] eqn:Hx; cbn; [done| | |].
    + apply IH. eauto.
    + by destruct (Condition_matches_uniform op values v x e Hv).
    + by destruct (Condition_matches_uniform op values v x (Foreign "") Hv).
Qed.

Lemma matches_enum_spec {T} `{EqDecision T} (from_str : string → option T) field op values value :
  match build_criteria_enum from_str field op values with Ok l => matches_enum op l value | _ => false end = true ↔
  compares_enum from_str op values value.
Proof.
  assert (∀ l, omap_list (λ v, ok_or (from_str v) (RQuery (UnknownFieldValue field v))) values = Ok l ↔
    Forall2 (λ s x, from_str s = Some x) values l) as Hl.
  { intros l. rewrite omap_list_Ok. split; (intros Hf; eapply Forall2_impl; [exact Hf|]); cbn; intros s x;
      by destruct (from_str s); cbn; intros [= ->]. }
  unfold compares_enum, build_criteria_enum. setoid_rewrite <- Hl. clear Hl.
  destruct op; [| |by split; [|intros (? & _ & [])]..].
  - destruct (omap_list _ values) as [l|e|]; [|by split; [|intros (? & ? & _)]..].
    cbn. rewrite bool_decide_eq_true. split; [eauto|by intros (? & [= <-] & ?)].
  - destruct (omap_list _ values) as [l|e|]; [|by split; [|intros (? & ? & _)]..].
    cbn. rewrite negb_true_iff, bool_decide_eq_false. split; [eauto|by intros (? & [= <-] & ?)].
Qed.

(** The error of a comparison is one of reading globs. *)
Lemma Condition_matches_Err op values value e :
  Condition_matches op values value = Err e → ∃ patterns, QueryGlobs_new patterns = Err e.
Proof. destruct op; cbn; [done..| |]; destruct (QueryGlobs_new values) eqn:Hg; cbn; naive_solver. Qed.

Lemma matches_list_Err op values l e :
  matches_list op values l = Err e → ∃ patterns, QueryGlobs_new patterns = Err e.
Proof.
  induction l as [|x l IH]; cbn; [done|].
  destruct (Condition_matches op values x) as [[]| |] eqn:Hx; cbn; [done|done| |done].
  intros [= ->]. by eapply Condition_matches_Err.
Qed.
End Compares.
