(* ===== verification/Constraints.v ===== *)
(** * Project constraints ([crates/project-constraints])

[enforce_layer_relationships] and [enforce_tag_relationships], which decide
whether one project may depend on another. *)

From S2P Require Import Prelude Errors Target Config.

(** [get_layers]: from the top layer down, with whether a project may depend on
    another one of its own layer. *)
Definition get_layers : list (LayerType * bool) :=
  [(Automation, false); (Application, false); (Tool, true); (Library, true);
   (Scaffolding, true); (Configuration, true); (UnknownLayer, true)].

(** The loop over [get_layers()] that fills [allowed]. *)
Definition allowed_step (source_layer : LayerType) (s : list LayerType * bool)
    (l : LayerType * bool) : list LayerType * bool :=
  let '(allowed, found_layer) := s in
  let '(layer, can_use_self) := l in
  if found_layer then (allowed ++ [layer], found_layer)
  else if decide (source_layer = layer) then
    (if can_use_self then allowed ++ [layer] else allowed, true)
  else (allowed, found_layer).

Definition allowed_layers (source_layer : LayerType) : list LayerType :=
  (fold_left (allowed_step source_layer) get_layers ([], false)).1.

(** [enforce_layer_relationships] *)
Definition enforce_layer_relationships (source dependency : Project)
    (dependency_scope : DependencyScope) : outcome ProjectConstraintsError unit :=
  if decide (dependency_scope = SBuild ∨ dependency_scope = SRoot) then Ok tt
  else if decide (config_stack (p_config source) ≠ config_stack (p_config dependency) ∧
                  config_stack (p_config source) ≠ UnknownStack ∧
                  config_stack (p_config dependency) ≠ UnknownStack) then Ok tt
  else if decide (p_layer source = UnknownLayer) then Ok tt
  else
    let allowed := allowed_layers (p_layer source) in
    if existsb (λ layer, bool_decide (p_layer dependency = layer)) allowed then Ok tt
    else Err (InvalidLayerRelationship (p_id source) (p_layer source)
                (p_id dependency) (p_layer dependency) allowed).

(** [enforce_tag_relationships] *)
Definition enforce_tag_relationships (source : Project) (source_tag : Id)
    (dependency : Project) (required_tags : list Id) :
  outcome ProjectConstraintsError unit :=
  if decide (required_tags = []) then Ok tt
  else if decide (source_tag = ""%string ∨ config_tags (p_config source) = [] ∨
                  source_tag ∉ config_tags (p_config source)) then Ok tt
  else if decide (source_tag ∈ config_tags (p_config dependency)) then Ok tt
  else if existsb (λ tag, bool_decide (tag ∈ required_tags))
            (config_tags (p_config dependency)) then Ok tt
  else Err (InvalidTagRelationship (p_id source) source_tag (p_id dependency)
              (required_tags ++ [source_tag])).

(** ** Properties *)

(** The position of a layer, from the top. *)
Definition layer_rank (l : LayerType) : nat :=
  match l with
  | Automation => 0 | Application => 1 | Tool => 2 | Library => 3
  | Scaffolding => 4 | Configuration => 5 | UnknownLayer => 6
  end.

(** Top layers may not be depended on by their own kind. *)
Definition may_use_own_layer (l : LayerType) : bool := 1 <? layer_rank l.

Lemma allowed_layers_spec l d :
  d ∈ allowed_layers l ↔
  layer_rank l < layer_rank d ∨ (l = d ∧ may_use_own_layer l = true).
Proof.
  split.
  - revert d. apply Forall_forall. destruct l; by apply (bool_decide_unpack _).
  - intros [Hlt|[-> Hown]].
    + destruct l, d; cbn in Hlt; try lia; by apply (bool_decide_unpack _).
    + destruct d; cbn in Hown; try done; by apply (bool_decide_unpack _).
Qed.

Lemma existsb_bool_decide {A} `{EqDecision A} (x : A) l :
  existsb (λ y, bool_decide (x = y)) l = true ↔ x ∈ l.
Proof.
  rewrite existsb_exists. split.
  - intros (y & Hy & ->%bool_decide_eq_true). by apply list_elem_of_In.
  - intros Hx. exists x. split; [by apply list_elem_of_In|by apply bool_decide_eq_true].
Qed.

(** When the layer of a dependency is looked at at all. *)
Definition layers_apply (source dependency : Project) (scope : DependencyScope) : Prop :=
  scope ≠ SBuild ∧ scope ≠ SRoot ∧ p_layer source ≠ UnknownLayer ∧
  (config_stack (p_config source) = config_stack (p_config dependency) ∨
   config_stack (p_config source) = UnknownStack ∨
   config_stack (p_config dependency) = UnknownStack).

(** A dependency passes the layer check exactly when the check does not
    apply to it (build or root scope, different stacks, unknown source layer) or
    its layer is strictly below the source's, or is the source's own and not one
    of the two top layers. *)
Theorem enforce_layer_spec source dependency scope :
  enforce_layer_relationships source dependency scope = Ok tt ↔
  (layers_apply source dependency scope →
   layer_rank (p_layer source) < layer_rank (p_layer dependency) ∨
   (p_layer source = p_layer dependency ∧
    may_use_own_layer (p_layer source) = true)).
Proof.
  unfold enforce_layer_relationships, layers_apply.
  case_decide as H1; [naive_solver|]. case_decide as H2; [naive_solver|].
  case_decide as H3; [naive_solver|].
  rewrite <- allowed_layers_spec, <- (existsb_bool_decide (p_layer dependency)).
  destruct (existsb _ _) eqn:E; [done|]. split; [done|]. intros H.
  exfalso. discriminate H. split_and!; [naive_solver..|].
  destruct (decide (config_stack (p_config source) = UnknownStack)); [by auto|].
  destruct (decide (config_stack (p_config dependency) = UnknownStack)); [by auto|].
  left. destruct (decide (config_stack (p_config source) = config_stack (p_config dependency)));
    naive_solver.
Qed.

(** The dependencies along a path of projects that all passed the check. *)
Definition layered (source dependency : Project) : Prop :=
  ∃ scope, layers_apply source dependency scope ∧
    enforce_layer_relationships source dependency scope = Ok tt.

Lemma layered_rank p q :
  layered p q → layer_rank (p_layer p) ≤ layer_rank (p_layer q) ∧
  (layer_rank (p_layer p) = layer_rank (p_layer q) → 1 < layer_rank (p_layer p)).
Proof.
  intros (scope & Hap & Hok).
  unfold enforce_layer_relationships, layers_apply in *.
  rewrite decide_False in Hok by naive_solver.
  rewrite decide_False in Hok by naive_solver.
  rewrite decide_False in Hok by naive_solver.
  destruct (existsb _ _) eqn:E; [|done].
  apply existsb_bool_decide, allowed_layers_spec in E.
  unfold may_use_own_layer in E. destruct E as [?|[-> ?%Nat.ltb_lt]]; lia.
Qed.

(** No application or automation project depends on itself through a chain
    of dependencies that the layer check applied to: a cycle of such
    dependencies stays within one layer, and that layer is not one of the top
    two. *)
Theorem layered_cycle p q :
  tc layered p q → tc layered q p →
  p_layer p = p_layer q ∧ 1 < layer_rank (p_layer p).
Proof.
  assert (∀ a b, tc layered a b → layer_rank (p_layer a) ≤ layer_rank (p_layer b) ∧
    (layer_rank (p_layer a) = layer_rank (p_layer b) → 1 < layer_rank (p_layer a)))
    as Hmono.
  { induction 1 as [a b Hab%layered_rank|a b c Hab%layered_rank Hbc IH]; lia. }
  intros [Hpq Hs]%Hmono [Hqp _]%Hmono.
  split; [destruct (p_layer p), (p_layer q); cbn in *; (done || lia)|lia].
Qed.

(** A dependency passes the check of a tag exactly when the source does not
    carry the tag, the tag has no requirement, or the dependency carries the
    tag itself or one of the required tags; the error names the tags that would
    have been accepted. *)
Theorem enforce_tag_spec source tag dependency required :
  enforce_tag_relationships source tag dependency required =
  if bool_decide (required ≠ [] ∧ tag ≠ ""%string ∧
                  tag ∈ config_tags (p_config source) ∧
                  Forall (λ t, t ∉ required ++ [tag])
                    (config_tags (p_config dependency)))
  then Err (InvalidTagRelationship (p_id source) tag (p_id dependency) (required ++ [tag]))
  else Ok tt.
Proof.
  unfold enforce_tag_relationships.
  case_decide as H1; [rewrite bool_decide_false by naive_solver; done|].
  case_decide as H2.
  { rewrite bool_decide_false; [done|]. intros (_ & ? & Hin & _).
    destruct H2 as [?|[Hnil|?]]; [done| |done]. rewrite Hnil in Hin. by apply not_elem_of_nil in Hin. }
  case_decide as H3.
  { rewrite bool_decide_false; [done|]. intros (_ & _ & _ & H). rewrite Forall_forall in H. apply (H tag H3). set_solver. }
  destruct (existsb _ _) eqn:E.
  - apply existsb_exists in E as (t & Ht%list_elem_of_In & Hr%bool_decide_eq_true).
    rewrite bool_decide_false; [done|]. intros (_ & _ & _ & H). rewrite Forall_forall in H. apply (H t Ht). set_solver.
  - rewrite bool_decide_true; [done|]. split_and!; [done|naive_solver| |].
    + destruct (decide (tag ∈ config_tags (p_config source))); naive_solver.
    + apply Forall_forall. intros t Ht [Hr| ->%list_elem_of_singleton]%elem_of_app; [|done].
      apply Bool.not_true_iff_false in E. apply E, existsb_exists. exists t.
      by rewrite <- list_elem_of_In, bool_decide_eq_true.
Qed.

(** Two libraries that depend on each other. *)
Definition sample_library (name : Id) : Project :=
  mkProject [] ProjectConfig_default [] [] name UnknownLanguage Library name name UnknownStack [] [] [].

Lemma layered_cycle_witness :
  tc layered (sample_library "a") (sample_library "b") ∧
  p_layer (sample_library "a") = p_layer (sample_library "b") ∧
  1 < layer_rank (p_layer (sample_library "a")).
Proof.
  assert (∀ x y, tc layered (sample_library x) (sample_library y)) as H.
  { intros x y. apply tc_once. exists SProduction. split; [|by vm_compute].
    unfold layers_apply. split_and!; try done. by right; left. }
  split; [apply H|]. exact (layered_cycle _ _ (H "a"%string "b"%string) (H "b"%string "a"%string)).
Defined.
