(* ===== verification/Affected.v ===== *)
(** * Affected tracking ([crates/affected])

Which projects and tasks are affected by a set of changed files: the
[AffectedTracker] that walks the workspace sequentially, and the
[ProjectTracker] and [TaskTracker] it starts for every project and task in its
asynchronous variants. *)

From S2P Require Import Prelude Errors PooledTasks Target GraphUtils Config.

(** ** Data ([affected.rs]) *)

Inductive AffectedBy : Type :=
| AlreadyMarked
| AlwaysAffected
| ChangedFile (file : WorkspaceRelativePath)
| DownstreamProject (project_id : Id)
| DownstreamTask (target : Target)
| EnvironmentVariable (name : string)
| ByTask (target : Target)
| UpstreamProject (project_id : Id)
| UpstreamTask (target : Target).

#[export] Instance AffectedBy_eq_dec : EqDecision AffectedBy.
Proof. solve_decision. Defined.

#[export] Instance AffectedBy_countable : Countable AffectedBy.
Proof.
  refine (inj_countable'
    (λ b, match b with
     | AlreadyMarked => (0, inl ""%string)
     | AlwaysAffected => (1, inl ""%string)
     | ChangedFile f => (2, inl f)
     | DownstreamProject i => (3, inl i)
     | DownstreamTask t => (0, inr t)
     | EnvironmentVariable n => (4, inl n)
     | ByTask t => (1, inr t)
     | UpstreamProject i => (5, inl i)
     | UpstreamTask t => (2, inr t)
     end)
    (λ p, match p with
     | (0, inl _) => AlreadyMarked
     | (1, inl _) => AlwaysAffected
     | (2, inl f) => ChangedFile f
     | (3, inl i) => DownstreamProject i
     | (0, inr t) => DownstreamTask t
     | (4, inl n) => EnvironmentVariable n
     | (1, inr t) => ByTask t
     | (_, inl i) => UpstreamProject i
     | (_, inr t) => UpstreamTask t
     end) _).
  by intros [].
Defined.

(** Dependents. *)
Inductive DownstreamScope : Type := DownNone | DownDirect | DownDeep.

(** Dependencies. *)
Inductive UpstreamScope : Type := UpNone | UpDirect | UpDeep.

#[export] Instance DownstreamScope_eq_dec : EqDecision DownstreamScope.
Proof. solve_decision. Defined.
#[export] Instance UpstreamScope_eq_dec : EqDecision UpstreamScope.
Proof. solve_decision. Defined.

(** [DownstreamScope::is_in_scope], [UpstreamScope::is_in_scope] *)
Definition DownstreamScope_is_in_scope (s : DownstreamScope) (depth : nat) : bool :=
  match s with DownNone => false | DownDirect => depth =? 0 | DownDeep => true end.

Definition UpstreamScope_is_in_scope (s : UpstreamScope) (depth : nat) : bool :=
  match s with UpNone => false | UpDirect => depth =? 0 | UpDeep => true end.

Record AffectedProjectState : Type := mkAffectedProject {
  aps_files : gset WorkspaceRelativePath;
  aps_tasks : gset Target;
  aps_upstream : gset Id;
  aps_downstream : gset Id;
  aps_other : bool;
}.

(** The body of the loop of [AffectedProjectState::from]. *)
Definition AffectedProjectState_add (s : AffectedProjectState) (by_ : AffectedBy) :
  AffectedProjectState :=
  let '(mkAffectedProject f t u d o) := s in
  match by_ with
  | DownstreamProject id => mkAffectedProject f t u ({[id]} ∪ d) o
  | ChangedFile file => mkAffectedProject ({[file]} ∪ f) t u d o
  | UpstreamProject id => mkAffectedProject f t ({[id]} ∪ u) d o
  | ByTask target => mkAffectedProject f ({[target]} ∪ t) u d o
  | _ => mkAffectedProject f t u d true
  end.

Definition AffectedProjectState_from (l : gset AffectedBy) : AffectedProjectState :=
  fold_left AffectedProjectState_add (elements l) (mkAffectedProject ∅ ∅ ∅ ∅ false).

Record AffectedTaskState : Type := mkAffectedTask {
  ats_env : gset string;
  ats_files : gset WorkspaceRelativePath;
  ats_projects : gset Id;
  ats_upstream : gset Target;
  ats_downstream : gset Target;
  ats_other : bool;
}.

Definition AffectedTaskState_add (s : AffectedTaskState) (by_ : AffectedBy) :
  AffectedTaskState :=
  let '(mkAffectedTask e f p u d o) := s in
  match by_ with
  | DownstreamTask target => mkAffectedTask e f p u ({[target]} ∪ d) o
  | EnvironmentVariable name => mkAffectedTask ({[name]} ∪ e) f p u d o
  | ChangedFile file => mkAffectedTask e ({[file]} ∪ f) p u d o
  | UpstreamTask target => mkAffectedTask e f p ({[target]} ∪ u) d o
  | UpstreamProject id => mkAffectedTask e f ({[id]} ∪ p) u d o
  | _ => mkAffectedTask e f p u d true
  end.

Definition AffectedTaskState_from (l : gset AffectedBy) : AffectedTaskState :=
  fold_left AffectedTaskState_add (elements l) (mkAffectedTask ∅ ∅ ∅ ∅ ∅ false).

Record Affected : Type := mkAffected {
  affected_projects : gmap Id AffectedProjectState;
  affected_should_check : bool;
  affected_tasks : gmap Target AffectedTaskState;
}.

(** [Affected::is_project_affected], [Affected::is_task_affected] *)
Definition Affected_is_project_affected (a : Affected) (id : Id) : bool :=
  affected_should_check a && bool_decide (is_Some (affected_projects a !! id)).

Definition Affected_is_task_affected (a : Affected) (target : Target) : bool :=
  affected_should_check a && bool_decide (is_Some (affected_tasks a !! target)).

(** ** Marks: [FxHashMap<K, FxHashSet<AffectedBy>>] *)

Abbreviation marks K := (gmap K (gset AffectedBy)).

(** [m.entry(k).or_default().insert(by)] *)
Definition mark `{Countable K} (k : K) (by_ : AffectedBy) (m : marks K) : marks K :=
  <[k := {[by_]} ∪ default ∅ (m !! k)]> m.

(** [for (k, affected) in w { m.entry(k).or_default().extend(affected) }] *)
Definition extend_marks `{Countable K} (m w : marks K) : marks K :=
  map_fold (λ k affected (acc : marks K), <[k := default ∅ (acc !! k) ∪ affected]> acc) m w.

(** The [matches!] of [is_project_marked_ignoring_relations]. *)
Definition ignoring_relations (by_ : AffectedBy) : bool :=
  match by_ with
  | AlwaysAffected | ChangedFile _ | EnvironmentVariable _ => true
  | _ => false
  end.

Definition marked_ignoring_relations `{Countable K} (k : K) (m : marks K) : bool :=
  match m !! k with
  | Some by_list => existsb ignoring_relations (elements by_list)
  | None => false
  end.

(** ** The workspace graph, as the trackers use it *)

Record WorkspaceView : Type := mkWorkspaceView {
  get_projects : result (list Project);
  get_project : Id → result Project;
  project_dependents_of : Project → list Id;
  get_tasks_with_internal : result (list Task);
  get_task : Target → result Task;
  task_dependents_of : Task → list Target;
}.

(** ** The depth-first walk

The eight [track_{project,task}_{dependencies,dependents}] functions of the
three trackers have the same body, over different relations.  The recursion
stops at keys that are in [cycle], so its depth is bounded by the number of
keys; [fuel] bounds it.  [depth] is a [u16]. *)
Section Walk.
Context {N K : Type} `{Countable K}.
Variables (key : N → K) (next : N → list K) (get : K → result N) (by_ : K → AffectedBy).
Variables (scope_none scope_direct : bool).

Fixpoint track_relations (fuel : nat) (node : N) (depth : nat) (s : marks K * gset K) :
  result (marks K * gset K) :=
  match fuel with
  | 0 => OutOfFuel
  | S fuel' =>
      let '(m, cycle) := s in
      if decide (key node ∈ cycle) then Ok (m, cycle) else
      let cycle := {[key node]} ∪ cycle in
      if scope_none then Ok (m, cycle) else
      ofold (λ s dep,
        let '(m, cycle) := s in
        let m := mark dep (by_ (key node)) m in
        if (depth =? 0) && scope_direct then Ok (m, cycle) else
        let? dep_node := get dep in
        track_relations fuel' dep_node (as_u16 (S depth)) (m, cycle))
        (m, cycle) (next node)
  end.

(** A walk from a node, with an empty [cycle]. *)
Definition track_from (fuel : nat) (node : N) (m : marks K) : result (marks K) :=
  let? ' (m, _) := track_relations fuel node 0 (m, ∅) in Ok m.
End Walk.

(** The walks visit a key at most once below each other, so one more round than
    there are keys is enough. *)
Definition project_fuel (wg : WorkspaceView) : nat :=
  match get_projects wg with Ok l => S (length l) | _ => 0 end.

Definition task_fuel (wg : WorkspaceView) : nat :=
  match get_tasks_with_internal wg with Ok l => S (length l) | _ => 0 end.

(** The four relations that are walked. *)
Definition walk_project_dependencies (wg : WorkspaceView) (upstream : UpstreamScope) :=
  track_relations p_id get_dependency_ids (get_project wg) DownstreamProject
    (bool_decide (upstream = UpNone)) (bool_decide (upstream = UpDirect)).

Definition walk_project_dependents (wg : WorkspaceView) (downstream : DownstreamScope) :=
  track_relations p_id (project_dependents_of wg) (get_project wg) UpstreamProject
    (bool_decide (downstream = DownNone)) (bool_decide (downstream = DownDirect)).

Definition walk_task_dependencies (wg : WorkspaceView) (upstream : UpstreamScope) :=
  track_relations t_target (λ t, map dep_target (t_deps t)) (get_task wg) DownstreamTask
    (bool_decide (upstream = UpNone)) (bool_decide (upstream = UpDirect)).

Definition walk_task_dependents (wg : WorkspaceView) (downstream : DownstreamScope) :=
  track_relations t_target (task_dependents_of wg) (get_task wg) UpstreamTask
    (bool_decide (downstream = DownNone)) (bool_decide (downstream = DownDirect)).

Section Trackers.
Context `{Host}.

(** ** [ProjectTracker] ([project_tracker.rs]) *)

Record ProjectTracker : Type := mkProjectTracker {
  pt_changed_files : list WorkspaceRelativePath;
  pt_downstream : DownstreamScope;
  pt_project : Project;
  pt_tracked : marks Id;
  pt_upstream : UpstreamScope;
  pt_workspace_graph : WorkspaceView;
}.

Definition pt_set_tracked (t : ProjectTracker) (m : marks Id) : ProjectTracker :=
  mkProjectTracker (pt_changed_files t) (pt_downstream t) (pt_project t) m
    (pt_upstream t) (pt_workspace_graph t).

(** [changed_files.iter().find(..).map(ChangedFile)], by the level of the
    project. *)
Definition find_changed_file (changed_files : list WorkspaceRelativePath) (p : Project) :
  option AffectedBy :=
  ChangedFile <$>
    (if is_root_level p then
       List.find (λ file, negb (starts_with "." file)) changed_files
     else
       List.find (λ file, path_starts_with file (p_source p)) changed_files).

Definition ProjectTracker_is_project_affected (t : ProjectTracker) (p : Project) :
  option AffectedBy :=
  find_changed_file (pt_changed_files t) p.

Definition ProjectTracker_track_project_dependencies (t : ProjectTracker) (p : Project)
    (depth : nat) (cycle : gset Id) : result (ProjectTracker * gset Id) :=
  let wg := pt_workspace_graph t in
  let? ' (m, cycle) := walk_project_dependencies wg (pt_upstream t)
                         (project_fuel wg) p depth (pt_tracked t, cycle) in
  Ok (pt_set_tracked t m, cycle).

Definition ProjectTracker_track_project_dependents (t : ProjectTracker) (p : Project)
    (depth : nat) (cycle : gset Id) : result (ProjectTracker * gset Id) :=
  let wg := pt_workspace_graph t in
  let? ' (m, cycle) := walk_project_dependents wg (pt_downstream t)
                         (project_fuel wg) p depth (pt_tracked t, cycle) in
  Ok (pt_set_tracked t m, cycle).

Definition ProjectTracker_mark_project_affected (t : ProjectTracker) (p : Project)
    (affected : AffectedBy) : result ProjectTracker :=
  if decide (affected = AlreadyMarked) then
    let? ' (t, _) := ProjectTracker_track_project_dependencies t p 0 ∅ in
    let? ' (t, _) := ProjectTracker_track_project_dependents t p 0 ∅ in
    Ok t
  else
    let t := pt_set_tracked t (mark (p_id p) affected (pt_tracked t)) in
    let? ' (t, _) := ProjectTracker_track_project_dependencies t p 0 ∅ in
    let? ' (t, _) := ProjectTracker_track_project_dependents t p 0 ∅ in
    Ok t.

(** [ProjectTracker::track] *)
Definition ProjectTracker_track (t : ProjectTracker) : result ProjectTracker :=
  match ProjectTracker_is_project_affected t (pt_project t) with
  | Some affected => ProjectTracker_mark_project_affected t (pt_project t) affected
  | None => Ok t
  end.

(** ** [TaskTracker] ([task_tracker.rs]) *)

Record TaskTracker : Type := mkTaskTracker {
  tt_changed_files : list WorkspaceRelativePath;
  tt_ci : bool;
  tt_downstream : DownstreamScope;
  tt_task : Task;
  tt_tracked : marks Target;
  tt_tracked_projects : marks Id;
  tt_upstream : UpstreamScope;
  tt_workspace_graph : WorkspaceView;
}.

Definition tt_set_tracked (t : TaskTracker) (m : marks Target) : TaskTracker :=
  mkTaskTracker (tt_changed_files t) (tt_ci t) (tt_downstream t) (tt_task t) m
    (tt_tracked_projects t) (tt_upstream t) (tt_workspace_graph t).

Definition tt_set_tracked_projects (t : TaskTracker) (m : marks Id) : TaskTracker :=
  mkTaskTracker (tt_changed_files t) (tt_ci t) (tt_downstream t) (tt_task t)
    (tt_tracked t) m (tt_upstream t) (tt_workspace_graph t).

(** Whether one changed file affects a task. *)
Definition file_affects_task (globset : GlobSet) (t : Task)
    (file : WorkspaceRelativePath) : result bool :=
  match t_input_files t !! file with
  | Some params =>
      match fi_content params with
      | Some matcher =>
          if file_exists file then
            let? content := read_file file in Ok (regex_is_match matcher content)
          else Ok false
      | None => Ok true
      end
  | None => Ok (GlobSet_matches globset file)
  end.

(** The loop over the changed files. *)
Fixpoint find_affected_file (globset : GlobSet) (t : Task)
    (files : list WorkspaceRelativePath) : result (option AffectedBy) :=
  match files with
  | [] => Ok None
  | file :: files' =>
      let? affected := file_affects_task globset t file in
      if affected then Ok (Some (ChangedFile file))
      else find_affected_file globset t files'
  end.

(** The loop over the input variables. *)
Definition find_input_env (names : list string) : option string :=
  List.find (λ name, match env_get name with
                     | Some var => negb (bool_decide (var = ""%string))
                     | None => false
                     end) names.

Inductive ci_verdict : Type := CiAlways | CiNever | CiCheck.

(** The [match (self.ci, &task.options.run_in_ci)] *)
Definition ci_check (ci : bool) (run_in_ci : TaskOptionRunInCI) : ci_verdict :=
  match ci, run_in_ci with
  | true, Always => CiAlways
  | true, Enabled false | true, Skip | false, Only => CiNever
  | _, _ => CiCheck
  end.

(** [is_task_affected] without the check for existing marks. *)
Definition check_task_affected (ci : bool) (changed_files : list WorkspaceRelativePath)
    (t : Task) : result (option AffectedBy) :=
  match ci_check ci (o_run_in_ci (t_options t)) with
  | CiAlways => Ok (Some AlwaysAffected)
  | CiNever => Ok None
  | CiCheck =>
      if ts_empty_inputs (t_state t) then Ok None else
      match find_input_env (t_input_env t) with
      | Some name => Ok (Some (EnvironmentVariable name))
      | None =>
          let? globset := create_globset t in
          find_affected_file globset t changed_files
      end
  end.

Definition TaskTracker_is_task_affected (t : TaskTracker) (task : Task) :
  result (option AffectedBy) :=
  check_task_affected (tt_ci t) (tt_changed_files t) task.

Definition TaskTracker_track_task_dependencies (t : TaskTracker) (task : Task)
    (depth : nat) (cycle : gset Target) : result (TaskTracker * gset Target) :=
  let wg := tt_workspace_graph t in
  let? ' (m, cycle) := walk_task_dependencies wg (tt_upstream t)
                         (task_fuel wg) task depth (tt_tracked t, cycle) in
  Ok (tt_set_tracked t m, cycle).

Definition TaskTracker_track_task_dependents (t : TaskTracker) (task : Task)
    (depth : nat) (cycle : gset Target) : result (TaskTracker * gset Target) :=
  let wg := tt_workspace_graph t in
  let? ' (m, cycle) := walk_task_dependents wg (tt_downstream t)
                         (task_fuel wg) task depth (tt_tracked t, cycle) in
  Ok (tt_set_tracked t m, cycle).

Definition TaskTracker_mark_task_affected (t : TaskTracker) (task : Task)
    (affected : AffectedBy) : result TaskTracker :=
  if decide (affected = AlreadyMarked) then
    let? ' (t, _) := TaskTracker_track_task_dependencies t task 0 ∅ in
    let? ' (t, _) := TaskTracker_track_task_dependents t task 0 ∅ in
    Ok t
  else
    let t := tt_set_tracked t (mark (t_target task) affected (tt_tracked t)) in
    let? ' (t, _) := TaskTracker_track_task_dependencies t task 0 ∅ in
    let? ' (t, _) := TaskTracker_track_task_dependents t task 0 ∅ in
    Ok (match get_project_id (t_target task) with
        | Ok project_id =>
            tt_set_tracked_projects t
              (mark project_id (ByTask (t_target task)) (tt_tracked_projects t))
        | _ => t
        end).

(** [TaskTracker::track] *)
Definition TaskTracker_track (t : TaskTracker) : result TaskTracker :=
  let? affected := TaskTracker_is_task_affected t (tt_task t) in
  match affected with
  | Some affected => TaskTracker_mark_task_affected t (tt_task t) affected
  | None => Ok t
  end.

(** ** [AffectedTracker] ([affected_tracker.rs]) *)

Record AffectedTracker : Type := mkAffectedTracker {
  at_ci : bool;
  at_workspace_graph : WorkspaceView;
  at_changed_files : list WorkspaceRelativePath;
  at_projects : marks Id;
  at_project_downstream : DownstreamScope;
  at_project_upstream : UpstreamScope;
  at_tasks : marks Target;
  at_task_downstream : DownstreamScope;
  at_task_upstream : UpstreamScope;
}.

(** [AffectedTracker::new] *)
Definition AffectedTracker_new (wg : WorkspaceView)
    (changed_files : list WorkspaceRelativePath) : AffectedTracker :=
  mkAffectedTracker false wg changed_files ∅ DownNone UpDeep ∅ DownNone UpDeep.

Definition at_set_marks (t : AffectedTracker) (projects : marks Id)
    (tasks : marks Target) : AffectedTracker :=
  mkAffectedTracker (at_ci t) (at_workspace_graph t) (at_changed_files t) projects
    (at_project_downstream t) (at_project_upstream t) tasks
    (at_task_downstream t) (at_task_upstream t).

Definition at_set_projects (t : AffectedTracker) (m : marks Id) : AffectedTracker :=
  at_set_marks t m (at_tasks t).

Definition at_set_tasks (t : AffectedTracker) (m : marks Target) : AffectedTracker :=
  at_set_marks t (at_projects t) m.

(** [set_ci_check], [set_project_scopes], [set_task_scopes], [set_scopes] *)
Definition set_ci_check (t : AffectedTracker) (ci : bool) : AffectedTracker :=
  mkAffectedTracker ci (at_workspace_graph t) (at_changed_files t) (at_projects t)
    (at_project_downstream t) (at_project_upstream t) (at_tasks t)
    (at_task_downstream t) (at_task_upstream t).

Definition set_project_scopes (t : AffectedTracker) (up : UpstreamScope)
    (down : DownstreamScope) : AffectedTracker :=
  mkAffectedTracker (at_ci t) (at_workspace_graph t) (at_changed_files t)
    (at_projects t) down up (at_tasks t) (at_task_downstream t) (at_task_upstream t).

Definition set_task_scopes (t : AffectedTracker) (up : UpstreamScope)
    (down : DownstreamScope) : AffectedTracker :=
  mkAffectedTracker (at_ci t) (at_workspace_graph t) (at_changed_files t)
    (at_projects t) (at_project_downstream t) (at_project_upstream t) (at_tasks t)
    down up.

Definition set_scopes (t : AffectedTracker) (up : UpstreamScope)
    (down : DownstreamScope) : AffectedTracker :=
  set_task_scopes (set_project_scopes t up down) up down.

(** [AffectedTracker::build] *)
Definition AffectedTracker_build (t : AffectedTracker) : Affected :=
  mkAffected (AffectedProjectState_from <$> at_projects t)
    (match at_changed_files t with [] => false | _ => true end)
    (AffectedTaskState_from <$> at_tasks t).

Definition is_project_marked (t : AffectedTracker) (p : Project) : bool :=
  bool_decide (is_Some (at_projects t !! p_id p)).

Definition is_project_marked_ignoring_relations (t : AffectedTracker) (p : Project) : bool :=
  marked_ignoring_relations (p_id p) (at_projects t).

(** [AffectedTracker::is_project_affected] *)
Definition is_project_affected (t : AffectedTracker) (p : Project) : option AffectedBy :=
  if is_project_marked_ignoring_relations t p then Some AlreadyMarked
  else find_changed_file (at_changed_files t) p.

Definition track_project_dependencies (t : AffectedTracker) (p : Project) (depth : nat)
    (cycle : gset Id) : result (AffectedTracker * gset Id) :=
  let wg := at_workspace_graph t in
  let? ' (m, cycle) := walk_project_dependencies wg (at_project_upstream t)
                         (project_fuel wg) p depth (at_projects t, cycle) in
  Ok (at_set_projects t m, cycle).

Definition track_project_dependents (t : AffectedTracker) (p : Project) (depth : nat)
    (cycle : gset Id) : result (AffectedTracker * gset Id) :=
  let wg := at_workspace_graph t in
  let? ' (m, cycle) := walk_project_dependents wg (at_project_downstream t)
                         (project_fuel wg) p depth (at_projects t, cycle) in
  Ok (at_set_projects t m, cycle).

(** [AffectedTracker::mark_project_affected] *)
Definition mark_project_affected (t : AffectedTracker) (p : Project)
    (affected : AffectedBy) : result AffectedTracker :=
  if decide (affected = AlreadyMarked) then
    let? ' (t, _) := track_project_dependencies t p 0 ∅ in
    let? ' (t, _) := track_project_dependents t p 0 ∅ in
    Ok t
  else
    let t := at_set_projects t (mark (p_id p) affected (at_projects t)) in
    let? ' (t, _) := track_project_dependencies t p 0 ∅ in
    let? ' (t, _) := track_project_dependents t p 0 ∅ in
    Ok t.

(** The loop body of [track_projects]. *)
Definition track_project (t : AffectedTracker) (p : Project) : result AffectedTracker :=
  match is_project_affected t p with
  | Some affected => mark_project_affected t p affected
  | None => Ok t
  end.

(** [AffectedTracker::track_projects] *)
Definition track_projects (t : AffectedTracker) : result AffectedTracker :=
  let? projects := get_projects (at_workspace_graph t) in
  ofold track_project t projects.

(** [AffectedTracker::track_projects_async]: the futures only read values that
    do not change while the pool runs. *)
Definition project_tracker_of (t : AffectedTracker) (p : Project) : ProjectTracker :=
  mkProjectTracker (at_changed_files t) (at_project_downstream t) p ∅
    (at_project_upstream t) (at_workspace_graph t).

Definition merge_project_tracker (t : AffectedTracker) (tracker : ProjectTracker) :
  result AffectedTracker :=
  Ok (at_set_projects t (extend_marks (at_projects t) (pt_tracked tracker))).

Definition track_projects_async (concurrency : nat) (sched : nat → nat)
    (t : AffectedTracker) : result AffectedTracker :=
  let? projects := get_projects (at_workspace_graph t) in
  run_pooled_tasks concurrency sched
    (λ p, Ok (ProjectTracker_track (project_tracker_of t p)))
    merge_project_tracker projects t.

Definition is_task_marked (t : AffectedTracker) (task : Task) : bool :=
  bool_decide (is_Some (at_tasks t !! t_target task)).

Definition is_task_marked_ignoring_relations (t : AffectedTracker) (task : Task) : bool :=
  marked_ignoring_relations (t_target task) (at_tasks t).

(** [AffectedTracker::is_task_affected] *)
Definition is_task_affected (t : AffectedTracker) (task : Task) :
  result (option AffectedBy) :=
  if is_task_marked_ignoring_relations t task then Ok (Some AlreadyMarked)
  else check_task_affected (at_ci t) (at_changed_files t) task.

Definition track_task_dependencies (t : AffectedTracker) (task : Task) (depth : nat)
    (cycle : gset Target) : result (AffectedTracker * gset Target) :=
  let wg := at_workspace_graph t in
  let? ' (m, cycle) := walk_task_dependencies wg (at_task_upstream t)
                         (task_fuel wg) task depth (at_tasks t, cycle) in
  Ok (at_set_tasks t m, cycle).

Definition track_task_dependents (t : AffectedTracker) (task : Task) (depth : nat)
    (cycle : gset Target) : result (AffectedTracker * gset Target) :=
  let wg := at_workspace_graph t in
  let? ' (m, cycle) := walk_task_dependents wg (at_task_downstream t)
                         (task_fuel wg) task depth (at_tasks t, cycle) in
  Ok (at_set_tasks t m, cycle).

(** [AffectedTracker::mark_task_affected] *)
Definition mark_task_affected (t : AffectedTracker) (task : Task)
    (affected : AffectedBy) : result AffectedTracker :=
  if decide (affected = AlreadyMarked) then
    let? ' (t, _) := track_task_dependencies t task 0 ∅ in
    let? ' (t, _) := track_task_dependents t task 0 ∅ in
    Ok t
  else
    let t := at_set_tasks t (mark (t_target task) affected (at_tasks t)) in
    let? ' (t, _) := track_task_dependencies t task 0 ∅ in
    let? ' (t, _) := track_task_dependents t task 0 ∅ in
    Ok (match get_project_id (t_target task) with
        | Ok project_id =>
            at_set_projects t
              (mark project_id (ByTask (t_target task)) (at_projects t))
        | _ => t
        end).

(** The loop body of [track_tasks_by_instance]. *)
Definition track_task (t : AffectedTracker) (task : Task) : result AffectedTracker :=
  let? affected := is_task_affected t task in
  match affected with
  | Some affected => mark_task_affected t task affected
  | None => Ok t
  end.

Definition track_tasks_by_instance (t : AffectedTracker) (tasks : list Task) :
  result AffectedTracker :=
  ofold track_task t tasks.

Definition track_tasks (t : AffectedTracker) : result AffectedTracker :=
  let? tasks := get_tasks_with_internal (at_workspace_graph t) in
  track_tasks_by_instance t tasks.

Definition task_tracker_of (t : AffectedTracker) (task : Task) : TaskTracker :=
  mkTaskTracker (at_changed_files t) (at_ci t) (at_task_downstream t) task ∅ ∅
    (at_task_upstream t) (at_workspace_graph t).

Definition merge_task_tracker (t : AffectedTracker) (tracker : TaskTracker) :
  result AffectedTracker :=
  let t := at_set_tasks t (extend_marks (at_tasks t) (tt_tracked tracker)) in
  Ok (at_set_projects t (extend_marks (at_projects t) (tt_tracked_projects tracker))).

(** [AffectedTracker::track_tasks_by_instance_async] *)
Definition track_tasks_by_instance_async (concurrency : nat) (sched : nat → nat)
    (t : AffectedTracker) (tasks : list Task) : result AffectedTracker :=
  run_pooled_tasks concurrency sched
    (λ task, Ok (TaskTracker_track (task_tracker_of t task)))
    merge_task_tracker tasks t.

Definition track_tasks_async (concurrency : nat) (sched : nat → nat)
    (t : AffectedTracker) : result AffectedTracker :=
  let? tasks := get_tasks_with_internal (at_workspace_graph t) in
  track_tasks_by_instance_async concurrency sched t tasks.

(** [AffectedTracker::track_tasks_by_target] *)
Definition track_tasks_by_target (t : AffectedTracker) (targets : list Target) :
  result AffectedTracker :=
  ofold (λ t target,
    let? task := get_task (at_workspace_graph t) target in track_task t task) t targets.

Definition track_tasks_by_target_async (concurrency : nat) (sched : nat → nat)
    (t : AffectedTracker) (targets : list Target) : result AffectedTracker :=
  let? tasks := omap_list (get_task (at_workspace_graph t)) targets in
  track_tasks_by_instance_async concurrency sched t tasks.
End Trackers.
