(* ===== verification/AffectedFacts.v ===== *)
(** * Properties of affected tracking

The marks the trackers leave behind, as a relation; the sequential and the
asynchronous trackers agree; and what ends up affected. *)

From S2P Require Import Prelude Errors PooledTasks Target GraphUtils Shapes Config Affected.

(** ** Marks as a join semilattice *)

Section Marks.
Context `{Countable K}.
Implicit Types (m w : marks K) (k : K) (b : AffectedBy).

Definition marked m k b : Prop := b ∈ default ∅ (m !! k).

(** No key is present without a reason. *)
Definition reasoned m : Prop := ∀ k s, m !! k = Some s → s ≠ ∅.

Definition join m w : marks K := union_with (λ s1 s2, Some (s1 ∪ s2)) m w.

Lemma lookup_join m w k :
  join m w !! k = union_with (λ s1 s2, Some (s1 ∪ s2)) (m !! k) (w !! k).
Proof. apply lookup_union_with. Qed.

Lemma join_assoc m1 m2 m3 : join m1 (join m2 m3) = join (join m1 m2) m3.
Proof.
  apply map_eq. intros k. rewrite !lookup_join.
  destruct (m1 !! k), (m2 !! k), (m3 !! k); cbn; try done. apply (f_equal Some). set_solver.
Qed.

Lemma join_comm m1 m2 : join m1 m2 = join m2 m1.
Proof.
  apply map_eq. intros k. rewrite !lookup_join.
  destruct (m1 !! k), (m2 !! k); cbn; try done. apply (f_equal Some). set_solver.
Qed.

Lemma join_idemp m : join m m = m.
Proof.
  apply map_eq. intros k. rewrite !lookup_join.
  destruct (m !! k); cbn; try done. apply (f_equal Some). set_solver.
Qed.

Lemma join_empty_r m : join m ∅ = m.
Proof. apply map_eq. intros k. rewrite lookup_join, lookup_empty. by destruct (m !! k). Qed.

Lemma join_empty_l m : join ∅ m = m.
Proof. by rewrite join_comm, join_empty_r. Qed.

Lemma mark_join k b m : mark k b m = join m {[k := {[b]}]}.
Proof.
  apply map_eq. intros k'. unfold mark. rewrite lookup_join.
  destruct (decide (k' = k)) as [->|].
  - rewrite lookup_insert_eq, lookup_singleton_eq. destruct (m !! k); cbn; apply (f_equal Some); set_solver.
  - rewrite lookup_insert_ne, lookup_singleton_ne by done. by destruct (m !! k').
Qed.

Lemma extend_marks_join m w : extend_marks m w = join m w.
Proof.
  unfold extend_marks.
  apply (map_fold_weak_ind (λ r w, r = join m w)); [by rewrite join_empty_r|].
  intros k s w' r Hk ->. apply map_eq. intros k'. rewrite !lookup_join.
  destruct (decide (k' = k)) as [->|].
  - rewrite !lookup_insert_eq, Hk. destruct (m !! k); cbn; apply (f_equal Some); set_solver.
  - by rewrite !lookup_insert_ne, !lookup_join by done.
Qed.

Lemma marked_join m w k b : marked (join m w) k b ↔ marked m k b ∨ marked w k b.
Proof.
  unfold marked. rewrite lookup_join.
  destruct (m !! k), (w !! k); cbn; set_solver.
Qed.

Lemma marked_singleton k b k' b' : marked {[k := {[b]}]} k' b' ↔ k' = k ∧ b' = b.
Proof.
  unfold marked. destruct (decide (k' = k)) as [->|].
  - rewrite lookup_singleton_eq. set_solver.
  - rewrite lookup_singleton_ne by done. set_solver.
Qed.

Lemma marked_empty k b : ¬ marked ∅ k b.
Proof. unfold marked. rewrite lookup_empty. set_solver. Qed.

Lemma reasoned_join m w : reasoned m → reasoned w → reasoned (join m w).
Proof.
  intros Hm Hw k s. rewrite lookup_join.
  destruct (m !! k) eqn:Em, (w !! k) eqn:Ew; cbn; intros [= <-]; eauto.
  apply Hm in Em. set_solver.
Qed.

Lemma reasoned_singleton k b : reasoned {[k := {[b]}]}.
Proof.
  intros k' s [<- <-]%lookup_singleton_Some. set_solver.
Qed.

Lemma reasoned_empty : reasoned ∅.
Proof. intros k s. by rewrite lookup_empty. Qed.

Lemma reasoned_lookup m k : reasoned m → is_Some (m !! k) ↔ ∃ b, marked m k b.
Proof.
  intros Hm. unfold marked. destruct (m !! k) as [s|] eqn:Hs; cbn.
  - destruct (set_choose_L s) as [b Hb]; [by eapply Hm|]. naive_solver.
  - split; [by intros [? ?]|set_solver].
Qed.

Lemma marked_ignoring_relations_spec m k :
  marked_ignoring_relations k m = true ↔ ∃ b, marked m k b ∧ ignoring_relations b = true.
Proof.
  unfold marked_ignoring_relations, marked. destruct (m !! k) as [s|]; cbn; [|set_solver].
  rewrite existsb_exists. setoid_rewrite <- list_elem_of_In. setoid_rewrite elem_of_elements.
  naive_solver.
Qed.
End Marks.

#[export] Hint Resolve reasoned_join reasoned_singleton reasoned_empty : moon.

#[global] Arguments join : simpl never.
#[global] Arguments mark : simpl never.

(** ** The walk *)

Section WalkFacts.
Context {N K : Type} `{Countable K}.
Variables (key : N → K) (next : N → list K) (get : K → result N) (by_ : K → AffectedBy).
Variables (scope_none scope_direct : bool).
Notation track := (track_relations key next get by_ scope_none scope_direct).

(** The body of the loop over the relations of [node]. *)
Definition visit (fuel depth : nat) (node : N) (s : marks K * gset K) (dep : K) :
  result (marks K * gset K) :=
  let '(m, cycle) := s in
  let m := mark dep (by_ (key node)) m in
  if (depth =? 0) && scope_direct then Ok (m, cycle) else
  let? dep_node := get dep in
  track fuel dep_node (as_u16 (S depth)) (m, cycle).

Lemma track_S fuel node depth m cycle :
  track (S fuel) node depth (m, cycle) =
  if decide (key node ∈ cycle) then Ok (m, cycle) else
  if scope_none then Ok (m, {[key node]} ∪ cycle) else
  ofold (visit fuel depth node) (m, {[key node]} ∪ cycle) (next node).
Proof. done. Qed.

(** What a computation adds to the marks does not depend on them. *)
Definition framed (f : marks K * gset K → result (marks K * gset K)) : Prop :=
  ∀ m c, f (m, c) = (let? ' (w, c') := f (∅, c) in Ok (join m w, c')).

Lemma framed_ofold (f : K → marks K * gset K → result (marks K * gset K)) l :
  (∀ x, framed (f x)) → framed (λ s, ofold (λ s x, f x s) s l).
Proof.
  intros Hf. induction l as [|x l IH]; intros m c; cbn; [by rewrite join_empty_r|].
  rewrite Hf. destruct (f x (∅, c)) as [[w c']|e|]; cbn; [|done..].
  rewrite (IH (join m w)), (IH w).
  destruct (ofold _ _ l) as [[w2 c2]|e|]; cbn; [|done..]. by rewrite join_assoc.
Qed.

Lemma framed_loop_of fuel node depth l :
  (∀ n d, framed (track fuel n d)) →
  framed (λ s, ofold (visit fuel depth node) s l).
Proof.
  intros IH. apply (framed_ofold (λ x s, visit fuel depth node s x)).
  intros x m c. unfold visit.
  rewrite !mark_join, join_empty_l. destruct (_ && _); cbn; [done|].
  destruct (get x) as [dn| |]; cbn; [|done..].
  rewrite (IH dn _ (join m _)), (IH dn _ {[x := _]}).
  destruct (track _ _ _ _) as [[w c2]|e|]; cbn; [|done..]. by rewrite join_assoc.
Qed.

Lemma framed_track fuel node depth : framed (track fuel node depth).
Proof.
  revert node depth. induction fuel as [|fuel IH]; intros node depth; [done|].
  pose proof (framed_loop_of fuel node depth (next node) IH) as Hloop.
  intros m c. rewrite !track_S. destruct (decide _); [cbn; by rewrite join_empty_r|].
  destruct scope_none; [cbn; by rewrite join_empty_r|]. apply Hloop.
Qed.

Lemma framed_loop fuel node depth l : framed (λ s, ofold (visit fuel depth node) s l).
Proof. apply framed_loop_of, framed_track. Qed.

(** Every mark a walk adds is a relation. *)
Lemma track_by (P : AffectedBy → Prop) fuel node depth m c w c' :
  (∀ x, P (by_ x)) → (∀ k b, marked m k b → P b) →
  track fuel node depth (m, c) = Ok (w, c') → ∀ k b, marked w k b → P b.
Proof.
  intros HP. revert node depth m c w c'.
  induction fuel as [|fuel IH]; intros node depth m c w c' Hm; [done|].
  rewrite track_S. destruct (decide _); [by intros [= <- <-]|].
  assert (scope_none = true ∨ scope_none = false) as [Hs|Hs]
    by (clear; destruct scope_none; auto); rewrite Hs; [by intros [= <- <-]|].
  intros Hfold.
  refine (ofold_ind (λ s : marks K * gset K, ∀ k b, marked s.1 k b → P b)
    _ (m, _) _ (w, c') _ Hm Hfold).
  intros [m1 c1] x [m2 c2] _ Hm1 Hv. cbn in *.
  assert (∀ k b, marked (mark x (by_ (key node)) m1) k b → P b) as Hmark.
  { intros k b. rewrite mark_join, marked_join, marked_singleton. naive_solver. }
  destruct (_ && _); [by simplify_eq|]. step_ok. by eapply IH.
Qed.

Lemma track_from_by fuel node w k b :
  (∀ x, ignoring_relations (by_ x) = false) →
  track_from key next get by_ scope_none scope_direct fuel node ∅ = Ok w →
  marked w k b → ignoring_relations b = false.
Proof.
  intros HP Hw. unfold track_from in Hw. step_ok. destruct a as [w' c']. step_ok.
  revert k b. eapply (track_by (λ b, ignoring_relations b = false));
    [exact HP| |exact E]. intros k b []%marked_empty.
Qed.

Lemma track_from_framed fuel node m :
  track_from key next get by_ scope_none scope_direct fuel node m =
  (let? w := track_from key next get by_ scope_none scope_direct fuel node ∅ in
   Ok (join m w)).
Proof.
  unfold track_from. rewrite (framed_track fuel node 0 m ∅).
  by destruct (track _ _ _ _) as [[w c]|e|].
Qed.
End WalkFacts.

(** *** What a walk marks

In a graph where every relation leads to a known node, the walk returns, and it
marks the relations of exactly the nodes in its scope. *)
Section WalkReach.
Context {N K : Type} `{Countable K}.
Variables (key : N → K) (next : N → list K) (get : K → result N) (by_ : K → AffectedBy).

(** An edge between keys. *)
Definition related (x y : K) : Prop := ∃ n, get x = Ok n ∧ key n = x ∧ y ∈ next n.

Record graph_closed (known : list N) : Prop := {
  closed_get : ∀ n, n ∈ known → get (key n) = Ok n;
  closed_next : ∀ n y, n ∈ known → y ∈ next n → ∃ n', n' ∈ known ∧ key n' = y;
}.

(** The nodes whose relations are marked when the walk starts at [start]. *)
Definition in_walk (scope_none scope_direct : bool) (start x : K) : Prop :=
  scope_none = false ∧
  if scope_direct then x = start else rtc related start x.

Context (known : list N) (Hknown : graph_closed known).
Let keys : gset K := list_to_set (key <$> known).

Lemma related_known n y : n ∈ known → related (key n) y ↔ y ∈ next n.
Proof.
  intros Hn. pose proof (closed_get _ Hknown n Hn) as Hg. split.
  - intros (n' & Hg' & _ & Hy). congruence.
  - intros Hy. by exists n.
Qed.

Lemma key_known n : n ∈ known → key n ∈ keys.
Proof. intros. apply elem_of_list_to_set, list_elem_of_fmap. eauto. Qed.

(** What a deep walk from [starts] leaves behind, beyond the marks in [base]. *)
Record walk_post (starts : list K) (base : K → AffectedBy → Prop) (c c' : gset K)
    (w : marks K) : Prop := {
  post_mono : c ⊆ c';
  post_starts : ∀ x, x ∈ starts → x ∈ c';
  post_reach : ∀ x, x ∈ c' → x ∉ c → ∃ s, s ∈ starts ∧ rtc related s x;
  post_closed : ∀ x y, x ∈ c' → x ∉ c → related x y → y ∈ c';
  post_marks : ∀ k b, marked w k b ↔
    base k b ∨ ∃ x, x ∈ c' ∧ x ∉ c ∧ related x k ∧ b = by_ x;
  post_reasoned : reasoned w;
}.

Lemma walk_post_cons x l (base1 base2 : K → AffectedBy → Prop) c c1 c2 w1 w2 :
  walk_post [x] base1 c c1 w1 → walk_post l base2 c1 c2 w2 →
  walk_post (x :: l) (λ k b, base1 k b ∨ base2 k b) c c2 (join w1 w2).
Proof.
  intros [M1 S1 R1 C1 K1 E1] [M2 S2 R2 C2 K2 E2]. constructor.
  - set_solver.
  - intros y [->|Hy]%elem_of_cons; [apply M2, S1; by left|by apply S2].
  - intros y Hy Hn. destruct (decide (y ∈ c1)) as [Hy1|Hy1].
    + destruct (R1 y Hy1 Hn) as (s & ->%list_elem_of_singleton & Hr).
      exists x. split; [by left|done].
    + destruct (R2 y Hy Hy1) as (s & Hs & Hr). exists s. split; [by right|done].
  - intros y z Hy Hn Hr. destruct (decide (y ∈ c1)); eauto.
  - intros k b. rewrite marked_join, K1, K2. split.
    + intros [[?|(y & Hy & Hn & ?)]|[?|(y & Hy & Hn & ?)]]; eauto.
      * right. exists y. split_and!; naive_solver.
      * right. exists y. split_and!; [naive_solver| |naive_solver..]. set_solver.
    + intros [[?|?]|(y & Hy & Hn & ?)]; eauto.
      destruct (decide (y ∈ c1)); [left; right|right; right]; exists y; naive_solver.
  - auto with moon.
Qed.

Notation track := (track_relations key next get by_ false false).

Lemma walk_post_nil c : walk_post [] (λ _ _, False) c c ∅.
Proof.
  constructor; [set_solver..|apply reasoned_empty].
Qed.

Lemma walk_post_base l (base base' : K → AffectedBy → Prop) c c' w :
  (∀ k b, base k b ↔ base' k b) → walk_post l base c c' w → walk_post l base' c c' w.
Proof. intros Hb []. constructor; try done. intros k b. by rewrite <- Hb. Qed.

Lemma walk_post_mark x b0 c c' w :
  walk_post [x] (λ _ _, False) c c' w →
  walk_post [x] (λ k b, k = x ∧ b = b0) c c' (join {[x := {[b0]}]} w).
Proof.
  intros []. constructor; try done; [|auto with moon].
  intros k b. rewrite marked_join, marked_singleton. naive_solver.
Qed.

(** The loop over the relations of [node], if the recursive calls are right. *)
Lemma deep_loop fuel node depth c1 l :
  (∀ n c, n ∈ known → c1 ⊆ c → ∃ w c',
     track fuel n (as_u16 (S depth)) (∅, c) = Ok (w, c') ∧
     walk_post [key n] (λ _ _, False) c c' w) →
  (∀ y, y ∈ l → ∃ n, n ∈ known ∧ key n = y) →
  ∀ c, c1 ⊆ c → ∃ w c',
    ofold (visit key next get by_ false false fuel depth node) (∅, c) l = Ok (w, c') ∧
    walk_post l (λ k b, k ∈ l ∧ b = by_ (key node)) c c' w.
Proof.
  intros IH. induction l as [|y l IHl]; intros Hl c Hc.
  { exists ∅, c. split; [done|]. eapply walk_post_base; [|apply walk_post_nil]. set_solver. }
  destruct (Hl y) as (ny & Hny & <-); [by left|].
  destruct (IH ny c Hny Hc) as (w1 & c2 & Ht & Hp1).
  pose proof (post_mono _ _ _ _ _ Hp1) as Hc2.
  destruct (IHl (λ y Hy, Hl y (list_elem_of_further _ _ _ Hy)) c2) as (w2 & c3 & Hfold & Hp2);
    [set_solver|].
  exists (join (join {[key ny := {[by_ (key node)]}]} w1) w2), c3. split.
  - cbn. rewrite andb_false_r, (closed_get _ Hknown) by done. cbn.
    rewrite mark_join, join_empty_l, framed_track, Ht. cbn.
    by rewrite framed_loop, Hfold.
  - eapply walk_post_base; [|eapply walk_post_cons; [by apply walk_post_mark|exact Hp2]].
    intros k b. cbn. set_solver.
Qed.

Lemma deep_walk fuel node depth c :
  node ∈ known → size (keys ∖ c) < fuel →
  ∃ w c', track fuel node depth (∅, c) = Ok (w, c') ∧
    walk_post [key node] (λ _ _, False) c c' w.
Proof.
  revert node depth c. induction fuel as [|fuel IH]; intros node depth c Hn Hf; [lia|].
  rewrite track_S. destruct (decide (key node ∈ c)) as [Hc|Hc].
  { exists ∅, c. split; [done|]. destruct (walk_post_nil c). constructor; set_solver. }
  destruct (deep_loop fuel node depth ({[key node]} ∪ c) (next node)) with
    (c := {[key node]} ∪ c) as (w & c' & Hfold & [M S R C Km E]); [| |done|].
  - intros n c2 Hn2 Hc2. apply IH; [done|].
    enough (size (keys ∖ c2) < size (keys ∖ c)) by lia.
    apply subset_size. pose proof (key_known _ Hn). set_solver.
  - intros y Hy. by apply (closed_next _ Hknown node).
  - exists w, c'. split; [done|]. pose proof (related_known node) as Hrel.
    assert (key node ∈ c') by set_solver. constructor.
    + set_solver.
    + set_solver.
    + intros x Hx Hxc. exists (key node). split; [by left|].
      destruct (decide (x = key node)) as [->|]; [done|].
      destruct (R x Hx) as (s & Hs & Hr); [set_solver|].
      eapply rtc_l; [by apply Hrel|done].
    + intros x y Hx Hxc Hxy. destruct (decide (x = key node)) as [->|].
      * apply S. by apply Hrel in Hxy.
      * eapply C; [done|set_solver|done].
    + intros k b. rewrite Km. split.
      * intros [[Hk ->]|(x & ?)]; right; [exists (key node)|exists x; set_solver].
        split_and!; try done. by apply Hrel.
      * intros [[]|(x & Hx & Hxc & Hxk & ->)].
        destruct (decide (x = key node)) as [->|]; [left; split; [by apply Hrel|done]|].
        right. exists x. set_solver.
    + done.
Qed.

Lemma direct_loop fuel node l m c :
  reasoned m → ∃ w,
    ofold (visit key next get by_ false true fuel 0 node) (m, c) l = Ok (w, c) ∧
    reasoned w ∧
    ∀ k b, marked w k b ↔ marked m k b ∨ (k ∈ l ∧ b = by_ (key node)).
Proof.
  revert m. induction l as [|y l IH]; intros m Hm; cbn.
  - exists m. split_and!; [done..|set_solver].
  - destruct (IH (mark y (by_ (key node)) m)) as (w & Hw & Hr & Hk).
    { rewrite mark_join. auto with moon. }
    exists w. split_and!; [done..|]. intros k b.
    rewrite Hk, mark_join, marked_join, marked_singleton. set_solver.
Qed.

(** The marks of a walk with an empty [cycle]. *)
Lemma track_from_spec scope_none scope_direct fuel node :
  node ∈ known → length known < fuel →
  ∃ w, track_from key next get by_ scope_none scope_direct fuel node ∅ = Ok w ∧
    reasoned w ∧
    ∀ k b, marked w k b ↔
      ∃ x, in_walk scope_none scope_direct (key node) x ∧ related x k ∧ b = by_ x.
Proof.
  intros Hn Hf. unfold track_from, in_walk. destruct scope_none.
  { destruct fuel; [lia|]. rewrite track_S, decide_False by set_solver.
    exists ∅. split_and!; [done|apply reasoned_empty|].
    intros. split; [by intros ?%marked_empty|naive_solver]. }
  destruct scope_direct.
  { destruct fuel as [|fuel]; [lia|]. rewrite track_S, decide_False by set_solver.
    destruct (direct_loop fuel node (next node) ∅ ({[key node]} ∪ ∅) reasoned_empty)
      as (w & -> & Hr & Hk).
    exists w. split_and!; [done..|]. intros k b. rewrite Hk. split.
    - intros [[]%marked_empty|[? ->]]. exists (key node).
      split_and!; try done. by apply related_known.
    - intros (x & [_ ->] & Hx & ->). right. split; [|done]. by apply related_known. }
  destruct (deep_walk fuel node 0 ∅ Hn) as (w & c' & -> & [M S R C Km E]).
  { assert (size (keys ∖ ∅) ≤ length known); [|lia].
    etrans; [apply subseteq_size, subseteq_difference_l; reflexivity|].
    etrans; [apply list_to_set_size_le|]. by rewrite length_fmap. }
  exists w. split_and!; [done..|]. intros k b. rewrite Km. split.
  - intros [[]|(x & Hx & Hxe & ? & ?)]. exists x. split_and!; try done.
    by destruct (R x Hx Hxe) as (s & ->%list_elem_of_singleton & ?).
  - intros (x & [_ Hx] & ? & ?). right. exists x. split; [|set_solver].
    apply (rtc_closed related (λ x, x ∈ c') (key node)); [apply S; by left| |done].
    intros a b' Ha Hab. eapply C; [done|set_solver|done].
Qed.
End WalkReach.

(** ** Sequential and asynchronous tracking

Both add to the marks what each node contributes on its own.  The sequential
trackers skip the check of a node that is already marked for a reason of its
own; they agree with the asynchronous ones as long as such a node has already
contributed its marks. *)
Section Agree.
Context {N A : Type} (op : A → A → A) (bot : A).
Context `{!Assoc (=) op, !Comm (=) op, !IdemP (=) op, !RightId (=) bot op}.
Variables (direct : A → N → bool) (check : N → result (option AffectedBy))
  (own : N → AffectedBy → A) (relations : N → result A).

(** What a node contributes. *)
Definition contribution (n : N) : result A :=
  let? affected := check n in
  match affected with
  | Some b => let? r := relations n in Ok (op (own n b) r)
  | None => Ok bot
  end.

Definition contribute (m : A) (n : N) : result A :=
  let? d := contribution n in Ok (op m d).

Definition contribute_once (m : A) (n : N) : result A :=
  if direct m n then let? r := relations n in Ok (op m r) else contribute m n.

(** A node whose whole contribution is in [m]. *)
Definition settled (m : A) (n : N) : Prop :=
  ∃ b r, check n = Ok (Some b) ∧ relations n = Ok r ∧ op m (op (own n b) r) = m.

(** A contribution marks only its own node for a reason of its own. *)
Variable nodes : list N.
Hypothesis direct_op : ∀ m n p d, n ∈ nodes → p ∈ nodes → contribution p = Ok d →
  direct (op m d) n = true → direct m n = true ∨ p = n ∧ ∃ b, check p = Ok (Some b).

Lemma settled_contribute m n :
  settled m n → contribute_once m n = Ok m ∧ contribute m n = Ok m.
Proof.
  intros (b & r & Hc & Hr & Hm). unfold contribute_once, contribute, contribution.
  rewrite Hc. cbn. rewrite Hr. cbn. rewrite Hm. split; [|done].
  destruct (direct m n); [|done]. f_equal.
  rewrite <- Hm at 1. rewrite <- !(assoc op). by rewrite (idemp op r), Hm.
Qed.

Lemma settled_op m d n : settled m n → settled (op m d) n.
Proof.
  intros (b & r & Hc & Hr & Hm). exists b, r. split_and!; [done..|].
  rewrite <- (assoc op m d), (comm op d), (assoc op m). by rewrite Hm.
Qed.

Lemma contribution_settled m n d b :
  contribution n = Ok d → check n = Ok (Some b) → settled (op m d) n.
Proof.
  intros Hd Hc. unfold contribution in Hd. rewrite Hc in Hd. cbn in Hd. step_ok.
  exists b, a. split_and!; [done..|]. by rewrite <- (assoc op m), (idemp op).
Qed.

Lemma contribute_agree l m :
  (∀ n, n ∈ l → n ∈ nodes) →
  (∀ n, n ∈ l → direct m n = true → settled m n) →
  ofold contribute_once m l = ofold contribute m l.
Proof.
  revert m. induction l as [|n l IH]; intros m Hl Hset; cbn; [done|].
  assert (contribute_once m n = contribute m n) as ->.
  { destruct (direct m n) eqn:Hd.
    - destruct (settled_contribute m n) as [-> ->]; [|done]. apply Hset; [by left|done].
    - unfold contribute_once. by rewrite Hd. }
  destruct (contribute m n) as [m1| |] eqn:Hm1; cbn; [|done..].
  apply obind_Ok in Hm1 as (d & Hn & [= <-]).
  apply IH; [intros; apply Hl; by right|]. intros q Hq Hdq.
  destruct (direct_op m q n d (Hl q (list_elem_of_further _ _ _ Hq))
    (Hl n (list_elem_of_here _ _)) Hn Hdq) as [Hm|[-> [b Hb]]].
  - apply settled_op, Hset; [by right|done].
  - by eapply contribution_settled.
Qed.
End Agree.

#[export] Instance join_Assoc `{Countable K} : Assoc (=) (join (K := K)).
Proof. intros ???. apply join_assoc. Qed.
#[export] Instance join_Comm `{Countable K} : Comm (=) (join (K := K)).
Proof. intros ??. apply join_comm. Qed.
#[export] Instance join_IdemP `{Countable K} : IdemP (=) (join (K := K)).
Proof. intros ?. apply join_idemp. Qed.
#[export] Instance join_RightId `{Countable K} : RightId (=) ∅ (join (K := K)).
Proof. intros ?. apply join_empty_r. Qed.

(** Marks of tasks together with marks of projects. *)
Definition join2 (m w : marks Target * marks Id) : marks Target * marks Id :=
  (join m.1 w.1, join m.2 w.2).

#[export] Instance join2_Assoc : Assoc (=) join2.
Proof. intros ???. unfold join2; cbn. by rewrite !join_assoc. Qed.
#[export] Instance join2_Comm : Comm (=) join2.
Proof. intros [??] [??]. unfold join2; cbn. f_equal; apply join_comm. Qed.
#[export] Instance join2_IdemP : IdemP (=) join2.
Proof. intros [??]. unfold join2; cbn. by rewrite !join_idemp. Qed.
#[export] Instance join2_RightId : RightId (=) (∅, ∅) join2.
Proof. intros [??]. unfold join2; cbn. by rewrite !join_empty_r. Qed.

Section TrackerFacts.
Context `{Host}.
Implicit Types (t : AffectedTracker) (p : Project) (task : Task).

(** *** Projects *)

(** The marks of both walks from a project. *)
Definition project_relations t p : result (marks Id) :=
  let wg := at_workspace_graph t in
  let? w1 := track_from p_id get_dependency_ids (get_project wg) DownstreamProject
    (bool_decide (at_project_upstream t = UpNone))
    (bool_decide (at_project_upstream t = UpDirect)) (project_fuel wg) p ∅ in
  let? w2 := track_from p_id (project_dependents_of wg) (get_project wg) UpstreamProject
    (bool_decide (at_project_downstream t = DownNone))
    (bool_decide (at_project_downstream t = DownDirect)) (project_fuel wg) p ∅ in
  Ok (join w1 w2).

Definition project_contribution t : Project → result (marks Id) :=
  contribution join ∅ (λ p, Ok (find_changed_file (at_changed_files t) p))
    (λ p b, {[p_id p := {[b]}]}) (project_relations t).

(** Two walks one after the other, on the marks [m]. *)
Ltac frame_walks :=
  unfold track_from;
  do 2 (rewrite framed_track;
        destruct (track_relations _ _ _ _ _ _ _ _ _ (∅, ∅)) as [[? ?]|?|]; cbn;
        [|done..]);
  by rewrite ?join_empty_l, ?join_assoc.

Lemma project_walks t p :
  (let? ' (t1, _) := track_project_dependencies t p 0 ∅ in
   let? ' (t2, _) := track_project_dependents t1 p 0 ∅ in Ok t2) =
  (let? r := project_relations t p in Ok (at_set_projects t (join (at_projects t) r))).
Proof.
  unfold track_project_dependencies, track_project_dependents,
    walk_project_dependencies, walk_project_dependents, project_relations. cbn.
  frame_walks.
Qed.

Lemma mark_project_affected_eq t p a :
  a ≠ AlreadyMarked →
  mark_project_affected t p a =
  (let? r := project_relations t p in
   Ok (at_set_projects t (join (at_projects t) (join {[p_id p := {[a]}]} r)))).
Proof.
  intros Ha. unfold mark_project_affected. rewrite decide_False by done.
  rewrite project_walks. cbn.
  change (project_relations (at_set_projects _ _) p) with (project_relations t p).
  destruct (project_relations t p); cbn; [|done..]. by rewrite mark_join, join_assoc.
Qed.

Lemma find_changed_file_not_marked files p b :
  find_changed_file files p = Some b → ∃ f, b = ChangedFile f ∧ f ∈ files.
Proof.
  unfold find_changed_file. intros Hb. apply fmap_Some in Hb as (f & Hf & ->).
  exists f. split; [done|].
  destruct (is_root_level p); by apply find_some in Hf as [?%list_elem_of_In _].
Qed.

(** One round of the sequential loop, on the marks alone. *)
Lemma track_project_eq t m p :
  track_project (at_set_projects t m) p =
  (let? m' := contribute_once join ∅ (λ m p, marked_ignoring_relations (p_id p) m)
      (λ p, Ok (find_changed_file (at_changed_files t) p))
      (λ p b, {[p_id p := {[b]}]}) (project_relations t) m p in
   Ok (at_set_projects t m')).
Proof.
  unfold track_project, is_project_affected, is_project_marked_ignoring_relations,
    contribute_once, contribute, contribution. cbn.
  destruct (marked_ignoring_relations _ _).
  - unfold mark_project_affected. rewrite decide_True by done. rewrite project_walks.
    change (project_relations (at_set_projects _ _) p) with (project_relations t p).
    by destruct (project_relations t p).
  - destruct (find_changed_file _ p) as [b|] eqn:Hb; cbn; [|by rewrite join_empty_r].
    rewrite mark_project_affected_eq
      by (apply find_changed_file_not_marked in Hb as (f & -> & _); done).
    change (project_relations (at_set_projects _ _) p) with (project_relations t p).
    by destruct (project_relations t p).
Qed.

Lemma track_projects_eq t m l :
  ofold track_project (at_set_projects t m) l =
  (let? m' := ofold (contribute_once join ∅ (λ m p, marked_ignoring_relations (p_id p) m)
      (λ p, Ok (find_changed_file (at_changed_files t) p))
      (λ p b, {[p_id p := {[b]}]}) (project_relations t)) m l in
   Ok (at_set_projects t m')).
Proof.
  revert m. induction l as [|p l IH]; intros m; cbn; [done|].
  rewrite track_project_eq. destruct (contribute_once _ _ _ _ _ _ _ _); cbn; auto.
Qed.

(** What the tracker of one project collects. *)
Lemma ProjectTracker_track_eq t p :
  (let? tr := ProjectTracker_track (project_tracker_of t p) in Ok (pt_tracked tr)) =
  project_contribution t p.
Proof.
  unfold ProjectTracker_track, ProjectTracker_is_project_affected, project_contribution,
    contribution. cbn.
  destruct (find_changed_file _ p) as [b|] eqn:Hb; cbn; [|done].
  apply find_changed_file_not_marked in Hb as (f & -> & _).
  unfold ProjectTracker_mark_project_affected. rewrite decide_False by done.
  unfold ProjectTracker_track_project_dependencies, ProjectTracker_track_project_dependents,
    walk_project_dependencies, walk_project_dependents, project_relations. cbn.
  rewrite mark_join. frame_walks.
Qed.

Lemma merge_projects_eq t m l :
  run_sequentially (λ p, Ok (ProjectTracker_track (project_tracker_of t p)))
    merge_project_tracker l (at_set_projects t m) =
  (let? m' := ofold (contribute join ∅ (λ p, Ok (find_changed_file (at_changed_files t) p))
      (λ p b, {[p_id p := {[b]}]}) (project_relations t)) m l in
   Ok (at_set_projects t m')).
Proof.
  revert m. induction l as [|p l IH]; intros m; cbn; [done|].
  unfold run_one. cbn. unfold contribute at 1. fold (project_contribution t p).
  rewrite <- ProjectTracker_track_eq.
  destruct (ProjectTracker_track _) as [tr| |]; cbn; [|done..].
  rewrite extend_marks_join. apply IH.
Qed.

Lemma project_relations_by t p w k b :
  project_relations t p = Ok w → marked w k b → ignoring_relations b = false.
Proof.
  unfold project_relations. intros Hw. step_ok. rewrite marked_join.
  intros [Hb|Hb]; eapply track_from_by in Hb; try eassumption; done.
Qed.

(** A mark that is no relation is on the contributing node itself. *)
Lemma contribution_direct {N K} `{Countable K} (key : N → K) check relations n w k :
  (∀ w k b, relations n = Ok w → marked w k b → ignoring_relations b = false) →
  contribution join ∅ check (λ n b, {[key n := {[b]}]}) relations n = Ok w →
  marked_ignoring_relations k w = true → k = key n ∧ ∃ b, check n = Ok (Some b).
Proof.
  intros Hrel Hw (b & Hb & Hi)%marked_ignoring_relations_spec.
  unfold contribution in Hw. step_ok. destruct a as [b'|]; step_ok.
  - apply marked_join in Hb as [[-> ->]%marked_singleton|Hb]; [by eauto|].
    apply (Hrel a k b) in Hb; congruence.
  - by apply marked_empty in Hb.
Qed.

Lemma marked_ignoring_join {K} `{Countable K} (m w : marks K) k :
  marked_ignoring_relations k (join m w) = true →
  marked_ignoring_relations k m = true ∨ marked_ignoring_relations k w = true.
Proof.
  rewrite !marked_ignoring_relations_spec. intros (b & [?|?]%marked_join & ?); eauto.
Qed.

Lemma track_projects_agree t l :
  NoDup (p_id <$> l) →
  (∀ p, p ∈ l → is_project_marked_ignoring_relations t p = false) →
  ofold track_project t l =
  run_sequentially (λ p, Ok (ProjectTracker_track (project_tracker_of t p)))
    merge_project_tracker l t.
Proof.
  intros Hnd Hunmarked.
  assert (at_set_projects t (at_projects t) = t) as Ht by by destruct t.
  pose proof (track_projects_eq t (at_projects t) l) as H1.
  pose proof (merge_projects_eq t (at_projects t) l) as H2.
  rewrite Ht in H1, H2. rewrite H1, H2.
  rewrite (contribute_agree join ∅ _ _ _ _ l); [done| |done|].
  - intros m q p d Hq Hp Hd [?|Hi]%marked_ignoring_join; [by left|]. right.
    eapply contribution_direct in Hi as [Hk [b Hb]]; [| |exact Hd].
    + split; [|by eauto]. by eapply (NoDup_fmap_inj p_id l).
    + intros. by eapply project_relations_by.
  - intros p Hp Hm. specialize (Hunmarked p Hp).
    unfold is_project_marked_ignoring_relations in Hunmarked. congruence.
Qed.

(** *** Tasks *)

Definition task_relations t task : result (marks Target * marks Id) :=
  let wg := at_workspace_graph t in
  let? w1 := track_from t_target (λ task, map dep_target (t_deps task)) (get_task wg) DownstreamTask
    (bool_decide (at_task_upstream t = UpNone))
    (bool_decide (at_task_upstream t = UpDirect)) (task_fuel wg) task ∅ in
  let? w2 := track_from t_target (task_dependents_of wg) (get_task wg) UpstreamTask
    (bool_decide (at_task_downstream t = DownNone))
    (bool_decide (at_task_downstream t = DownDirect)) (task_fuel wg) task ∅ in
  Ok (join w1 w2, ∅).

(** The mark of a task, and the one it puts on its project. *)
Definition task_own task (b : AffectedBy) : marks Target * marks Id :=
  ({[t_target task := {[b]}]},
   match get_project_id (t_target task) with
   | Ok project_id => {[project_id := {[ByTask (t_target task)]}]}
   | _ => ∅
   end).

Definition task_contribution t : Task → result (marks Target * marks Id) :=
  contribution join2 (∅, ∅) (check_task_affected (at_ci t) (at_changed_files t))
    task_own (task_relations t).

Definition set_both t (m : marks Target * marks Id) : AffectedTracker :=
  at_set_marks t m.2 m.1.

Lemma task_walks t task :
  (let? ' (t1, _) := track_task_dependencies t task 0 ∅ in
   let? ' (t2, _) := track_task_dependents t1 task 0 ∅ in Ok t2) =
  (let? r := task_relations t task in Ok (at_set_tasks t (join (at_tasks t) r.1))).
Proof.
  unfold track_task_dependencies, track_task_dependents,
    walk_task_dependencies, walk_task_dependents, task_relations. cbn.
  frame_walks.
Qed.

Lemma find_affected_file_not_marked g task files b :
  find_affected_file g task files = Ok (Some b) → b ≠ AlreadyMarked.
Proof.
  induction files as [|f files IH]; cbn; [done|]. intros Hb. step_ok.
  destruct a; [|by apply IH]. by simplify_eq.
Qed.

Lemma check_task_not_marked ci files task b :
  check_task_affected ci files task = Ok (Some b) → b ≠ AlreadyMarked.
Proof.
  unfold check_task_affected. intros Hb.
  destruct (ci_check _ _); [by simplify_eq|done|].
  destruct (ts_empty_inputs (t_state task)); [done|].
  destruct (find_input_env _); [by simplify_eq|]. step_ok.
  by eapply find_affected_file_not_marked.
Qed.

Lemma mark_task_affected_eq t task a :
  a ≠ AlreadyMarked →
  mark_task_affected t task a =
  (let? r := task_relations t task in
   Ok (set_both t (join2 (at_tasks t, at_projects t) (join2 (task_own task a) r)))).
Proof.
  intros Ha. unfold mark_task_affected. rewrite decide_False by done.
  pose proof (task_walks (at_set_tasks t (mark (t_target task) a (at_tasks t))) task) as Hw.
  change (task_relations (at_set_tasks _ _) task) with (task_relations t task) in Hw.
  destruct (track_task_dependencies _ _ _ _) as [[t1 c1]| |]; cbn in *;
    [|by destruct (task_relations t task)..].
  destruct (track_task_dependents _ _ _ _) as [[t2 c2]| |]; cbn in *;
    [|by destruct (task_relations t task)..].
  unfold task_relations in *. step_ok.
  destruct (track_from t_target _ _ _ _ _ _ task _) as [w1| |]; cbn in *; [|done..].
  destruct (track_from t_target (task_dependents_of _) _ _ _ _ _ task _) as [w2| |];
    cbn in *; [|done..].
  simplify_eq. unfold set_both, join2, task_own, at_set_tasks, at_set_projects, at_set_marks.
  cbn. rewrite mark_join, !join_assoc.
  destruct (get_project_id _); cbn; by rewrite ?mark_join, ?join_empty_r.
Qed.

Lemma track_task_eq t m task :
  track_task (set_both t m) task =
  (let? m' := contribute_once join2 (∅, ∅)
      (λ m task, marked_ignoring_relations (t_target task) m.1)
      (check_task_affected (at_ci t) (at_changed_files t)) task_own (task_relations t)
      m task in
   Ok (set_both t m')).
Proof.
  unfold track_task, is_task_affected, is_task_marked_ignoring_relations,
    contribute_once, contribute, contribution. cbn.
  destruct (marked_ignoring_relations _ _); cbn.
  - unfold mark_task_affected. rewrite decide_True by done. rewrite task_walks.
    change (task_relations (set_both _ _) task) with (task_relations t task).
    unfold task_relations. destruct (track_from _ _ _ _ _ _ _ _ _); cbn; [|done..].
    destruct (track_from _ _ _ _ _ _ _ _ _); cbn; [|done..].
    unfold set_both, join2. cbn. by rewrite join_empty_r.
  - destruct (check_task_affected _ _ task) as [[b|]| |] eqn:Hb; cbn; [| |done..].
    + rewrite mark_task_affected_eq by (by eapply check_task_not_marked).
      change (task_relations (set_both _ _) task) with (task_relations t task).
      by destruct (task_relations t task), m.
    + unfold join2. cbn. rewrite !join_empty_r. by destruct m.
Qed.

Lemma track_tasks_eq t m l :
  ofold track_task (set_both t m) l =
  (let? m' := ofold (contribute_once join2 (∅, ∅)
      (λ m task, marked_ignoring_relations (t_target task) m.1)
      (check_task_affected (at_ci t) (at_changed_files t)) task_own (task_relations t))
      m l in
   Ok (set_both t m')).
Proof.
  revert m. induction l as [|task l IH]; intros m; cbn; [done|].
  rewrite track_task_eq. destruct (contribute_once _ _ _ _ _ _ _ _); cbn; auto.
Qed.

(** What the tracker of one task collects. *)
Lemma TaskTracker_track_eq t task :
  (let? tr := TaskTracker_track (task_tracker_of t task) in
   Ok (tt_tracked tr, tt_tracked_projects tr)) =
  task_contribution t task.
Proof.
  unfold TaskTracker_track, TaskTracker_is_task_affected, task_contribution,
    contribution. cbn.
  destruct (check_task_affected _ _ task) as [[b|]| |] eqn:Hb; cbn; [|done..].
  unfold TaskTracker_mark_task_affected.
  rewrite decide_False by (by eapply check_task_not_marked).
  unfold TaskTracker_track_task_dependencies, TaskTracker_track_task_dependents,
    walk_task_dependencies, walk_task_dependents, task_relations, task_own, join2,
    track_from. cbn.
  do 2 (rewrite framed_track;
        destruct (track_relations _ _ _ _ _ _ _ _ _ (∅, ∅)) as [[? ?]|?|]; cbn;
        [|done..]).
  rewrite mark_join, join_empty_l, join_empty_r, join_assoc.
  destruct (get_project_id _); cbn; by rewrite ?mark_join, ?join_empty_l.
Qed.

#[local] Arguments merge_task_tracker : simpl never.

Lemma merge_tasks_eq t m l :
  run_sequentially (λ task, Ok (TaskTracker_track (task_tracker_of t task)))
    merge_task_tracker l (set_both t m) =
  (let? m' := ofold (contribute join2 (∅, ∅)
      (check_task_affected (at_ci t) (at_changed_files t)) task_own (task_relations t))
      m l in
   Ok (set_both t m')).
Proof.
  revert m. induction l as [|task l IH]; intros m; cbn; [done|].
  unfold run_one. cbn. unfold contribute at 1. fold (task_contribution t task).
  rewrite <- TaskTracker_track_eq.
  destruct (TaskTracker_track _) as [tr| |]; cbn; [|done..].
  rewrite <- (IH (join2 m (tt_tracked tr, tt_tracked_projects tr))).
  assert (merge_task_tracker (set_both t m) tr =
    Ok (set_both t (join2 m (tt_tracked tr, tt_tracked_projects tr)))) as Hmerge.
  { unfold merge_task_tracker. cbn. by rewrite !extend_marks_join. }
  by rewrite Hmerge.
Qed.

Lemma task_relations_by t task w k b :
  task_relations t task = Ok w → marked w.1 k b → ignoring_relations b = false.
Proof.
  unfold task_relations. intros Hw. step_ok. cbn. rewrite marked_join.
  intros [Hb|Hb]; eapply track_from_by in Hb; try eassumption; done.
Qed.

Lemma task_contribution_direct t task w k :
  task_contribution t task = Ok w → marked_ignoring_relations k w.1 = true →
  k = t_target task ∧
  ∃ b, check_task_affected (at_ci t) (at_changed_files t) task = Ok (Some b).
Proof.
  intros Hw (b & Hb & Hi)%marked_ignoring_relations_spec.
  unfold task_contribution, contribution in Hw. step_ok. destruct a as [b'|]; step_ok.
  - cbn in Hb. apply marked_join in Hb as [[-> ->]%marked_singleton|Hb]; [by eauto|].
    apply (task_relations_by t task a) in Hb; congruence.
  - by apply marked_empty in Hb.
Qed.

Lemma track_tasks_agree t l :
  (∀ a b, a ∈ l → b ∈ l → t_target a = t_target b → a = b) →
  (∀ task, task ∈ l → is_task_marked_ignoring_relations t task = false) →
  ofold track_task t l =
  run_sequentially (λ task, Ok (TaskTracker_track (task_tracker_of t task)))
    merge_task_tracker l t.
Proof.
  intros Hinj Hunmarked.
  assert (set_both t (at_tasks t, at_projects t) = t) as Ht by by destruct t.
  pose proof (track_tasks_eq t (at_tasks t, at_projects t) l) as H1.
  pose proof (merge_tasks_eq t (at_tasks t, at_projects t) l) as H2.
  rewrite Ht in H1, H2. rewrite H1, H2.
  rewrite (contribute_agree join2 (∅, ∅) _ _ _ _ l); [done| |done|].
  - intros m q p d Hq Hp Hd [?|Hi]%marked_ignoring_join; [by left|]. right.
    eapply task_contribution_direct in Hi as [Hk [b Hb]]; [|exact Hd].
    split; [by apply Hinj|by eauto].
  - intros task Hin Hm. specialize (Hunmarked task Hin).
    unfold is_task_marked_ignoring_relations in Hunmarked. cbn in Hm. congruence.
Qed.
End TrackerFacts.

(** ** What ends up affected *)

(** All contributions together. *)
Lemma contribute_all `{Countable K} {N} check (own : N → AffectedBy → marks K) relations l m :
  (∀ n, n ∈ l → ∃ d, contribution join ∅ check own relations n = Ok d ∧ reasoned d) →
  reasoned m →
  ∃ m', ofold (contribute join ∅ check own relations) m l = Ok m' ∧ reasoned m' ∧
    ∀ k b, marked m' k b ↔ marked m k b ∨
      ∃ n d, n ∈ l ∧ contribution join ∅ check own relations n = Ok d ∧ marked d k b.
Proof.
  revert m. induction l as [|n l IH]; intros m Hl Hm; cbn.
  { exists m. split_and!; [done..|]. set_solver. }
  destruct (Hl n) as (d & Hd & Hrd); [by left|].
  unfold contribute at 1. rewrite Hd. cbn.
  destruct (IH (join m d)) as (m' & Hm' & Hr & Hk); [set_solver|auto with moon|].
  exists m'. split_and!; [done..|]. intros k b. rewrite Hk, marked_join. split.
  - intros [[?|?]|(n' & d' & ? & ? & ?)]; [by left|right|right]; repeat esplit; eauto;
      [by left|by right].
  - intros [?|(n' & d' & [->|?]%elem_of_cons & Hd' & ?)]; [by auto| |by eauto 10].
    left. right. congruence.
Qed.

(** What a workspace graph promises for its projects: they have distinct ids,
    and every id that a relation mentions is one of them. The dependents that the
    graph lists need not be the converse of the dependencies: the edges to a
    root-level project that its dependents declare with the root scope are left
    out of the graph. *)
Record projects_ok (wg : WorkspaceView) (ps : list Project) : Prop := {
  pk_all : get_projects wg = Ok ps;
  pk_nodup : NoDup (p_id <$> ps);
  pk_deps : graph_closed p_id get_dependency_ids (get_project wg) ps;
  pk_dependents : graph_closed p_id (project_dependents_of wg) (get_project wg) ps;
}.

(** The project [x] lists [y] as a dependency. *)
Definition depends_on (wg : WorkspaceView) : Id → Id → Prop :=
  related p_id get_dependency_ids (get_project wg).

(** The graph lists [y] as a dependent of the project [x]. *)
Definition dependent_of (wg : WorkspaceView) : Id → Id → Prop :=
  related p_id (project_dependents_of wg) (get_project wg).

(** A changed file belongs to a project: to one at the workspace root, unless
    its path starts with a dot; to any other, if its path is below the
    source of the project. *)
Inductive owns_file `{Host} (p : Project) (file : WorkspaceRelativePath) : Prop :=
  | owns_at_root :
      p_source p = "" ∨ p_source p = "." →
      (∀ rest, file ≠ String.append "." rest) → owns_file p file
  | owns_below :
      p_source p ≠ "" → p_source p ≠ "." →
      path_starts_with file (p_source p) = true → owns_file p file.

(** The relation that a scope lets through. *)
Definition upstream_of (scope : UpstreamScope) (R : Id → Id → Prop) : Id → Id → Prop :=
  match scope with UpNone => λ _ _, False | UpDirect => R | UpDeep => tc R end.

Definition downstream_of (scope : DownstreamScope) (R : Id → Id → Prop) : Id → Id → Prop :=
  match scope with DownNone => λ _ _, False | DownDirect => R | DownDeep => tc R end.

Section ProjectsAffected.
Context `{Host} (wg : WorkspaceView) (ps : list Project) (Hok : projects_ok wg ps).

Lemma related_in_scope {N K} `{Countable K} (key : N → K) next get (none direct : bool) start k :
  (∃ x, in_walk key next get none direct start x ∧ related key next get x k) ↔
  none = false ∧
  (if direct then related key next get start k else tc (related key next get) start k).
Proof.
  unfold in_walk. split.
  - intros (x & [-> Hx] & Hk). split; [done|].
    destruct direct; [by subst|by eapply rtc_tc_step].
  - intros [-> Hk]. destruct direct; [by exists start|].
    destruct (tc_last _ _ _ Hk) as (x & Hx & Hxk). by exists x.
Qed.

Context (files : list WorkspaceRelativePath) (up : UpstreamScope) (down : DownstreamScope).
Let t := set_project_scopes (AffectedTracker_new wg files) up down.

(** What a project adds to the marks, if it has a changed file. *)
Definition project_adds (p : Project) (k : Id) (b : AffectedBy) : Prop :=
  find_changed_file files p = Some b ∧ k = p_id p ∨
  is_Some (find_changed_file files p) ∧
  ((∃ x, in_walk p_id get_dependency_ids (get_project wg) (bool_decide (up = UpNone))
           (bool_decide (up = UpDirect)) (p_id p) x ∧
         depends_on wg x k ∧ b = DownstreamProject x) ∨
   (∃ x, in_walk p_id (project_dependents_of wg) (get_project wg)
           (bool_decide (down = DownNone)) (bool_decide (down = DownDirect)) (p_id p) x ∧
         dependent_of wg x k ∧ b = UpstreamProject x)).

Lemma project_contribution_spec p :
  p ∈ ps → ∃ d, project_contribution t p = Ok d ∧ reasoned d ∧
    ∀ k b, marked d k b ↔ project_adds p k b.
Proof.
  intros Hp. unfold project_contribution, contribution, project_adds. cbn.
  destruct (find_changed_file files p) as [a|]; cbn.
  2: { exists ∅. split_and!; [done|apply reasoned_empty|]. intros k b.
       split; [by intros ?%marked_empty|]. intros [[? _]|[[] _]]; done. }
  unfold project_relations. cbn.
  assert (length ps < project_fuel wg) as Hfuel.
  { unfold project_fuel. rewrite (pk_all _ _ Hok). lia. }
  destruct (track_from_spec p_id get_dependency_ids (get_project wg) DownstreamProject ps
    (pk_deps _ _ Hok) (bool_decide (up = UpNone)) (bool_decide (up = UpDirect)) _ p Hp Hfuel)
    as (w1 & -> & Hr1 & Hk1).
  destruct (track_from_spec p_id (project_dependents_of wg) (get_project wg) UpstreamProject ps
    (pk_dependents _ _ Hok) (bool_decide (down = DownNone)) (bool_decide (down = DownDirect))
    _ p Hp Hfuel) as (w2 & -> & Hr2 & Hk2). cbn.
  exists (join {[p_id p := {[a]}]} (join w1 w2)). split_and!; [done|auto with moon|].
  intros k b. rewrite !marked_join, marked_singleton, Hk1, Hk2.
  assert (is_Some (Some a)) by eauto. split.
  - intros [[-> ->]|?]; [by left|by right].
  - intros [[[= ->] ->]|[_ ?]]; [by left|by right].
Qed.

Lemma track_projects_marks :
  ∃ t', track_projects t = Ok t' ∧ at_changed_files t' = files ∧
    reasoned (at_projects t') ∧
    ∀ k b, marked (at_projects t') k b ↔ ∃ p, p ∈ ps ∧ project_adds p k b.
Proof.
  unfold track_projects. change (at_workspace_graph t) with wg. rewrite (pk_all _ _ Hok).
  cbn [obind]. rewrite track_projects_agree by (done || apply (pk_nodup _ _ Hok)).
  change t with (at_set_projects t ∅) at 2. rewrite merge_projects_eq.
  destruct (contribute_all (λ p, Ok (find_changed_file (at_changed_files t) p))
    (λ p b, {[p_id p := {[b]}]}) (project_relations t) ps ∅) as (m & -> & Hr & Hk).
  - intros p (d & ? & ? & _)%project_contribution_spec. by exists d.
  - apply reasoned_empty.
  - cbn. eexists. split_and!; [done..|]. cbn. intros k b. rewrite Hk. split.
    + intros [[]%marked_empty|(p & d & Hp & Hd & Hb)]. exists p. split; [done|].
      destruct (project_contribution_spec p Hp) as (d' & Hd' & _ & Hm).
      apply Hm. unfold project_contribution in Hd'. congruence.
    + intros (p & Hp & Hb). right. exists p.
      destruct (project_contribution_spec p Hp) as (d & Hd & _ & Hm).
      exists d. split_and!; [done..|by apply Hm].
Qed.

Lemma project_adds_some p k :
  (∃ b, project_adds p k b) ↔
  is_Some (find_changed_file files p) ∧
  (k = p_id p ∨ upstream_of up (depends_on wg) (p_id p) k ∨
   downstream_of down (dependent_of wg) (p_id p) k).
Proof.
  pose proof (related_in_scope p_id get_dependency_ids (get_project wg)
    (bool_decide (up = UpNone)) (bool_decide (up = UpDirect)) (p_id p) k) as Hup.
  pose proof (related_in_scope p_id (project_dependents_of wg) (get_project wg)
    (bool_decide (down = DownNone)) (bool_decide (down = DownDirect)) (p_id p) k) as Hdown.
  assert (upstream_of up (depends_on wg) (p_id p) k ↔
    ∃ x, in_walk p_id get_dependency_ids (get_project wg) (bool_decide (up = UpNone))
      (bool_decide (up = UpDirect)) (p_id p) x ∧ depends_on wg x k) as ->.
  { unfold depends_on at 2. rewrite Hup. destruct up; cbn; naive_solver. }
  assert (downstream_of down (dependent_of wg) (p_id p) k ↔
    ∃ x, in_walk p_id (project_dependents_of wg) (get_project wg)
      (bool_decide (down = DownNone)) (bool_decide (down = DownDirect)) (p_id p) x ∧
      dependent_of wg x k) as ->.
  { unfold dependent_of at 2. rewrite Hdown. destruct down; cbn; naive_solver. }
  unfold project_adds. destruct (find_changed_file files p) as [a|]; cbn.
  - split.
    + intros (b & [[_ ->]|[_ [(x & ? & ? & _)|(x & ? & ? & _)]]]); eauto 10.
    + intros [_ [->|[(x & ? & ?)|(x & ? & ?)]]]; eauto 12.
  - split; [intros (b & [[? _]|[[] _]]); done|intros [[] _]; done].
Qed.
End ProjectsAffected.

Lemma find_is_Some {A} (f : A → bool) l :
  is_Some (List.find f l) ↔ ∃ x, x ∈ l ∧ f x = true.
Proof.
  split.
  - intros [x [Hx%list_elem_of_In Hf]%find_some]. eauto.
  - intros (x & Hx%list_elem_of_In & Hf). destruct (List.find f l) eqn:E; [done|].
    by rewrite (find_none _ _ E x Hx) in Hf.
Qed.

Lemma find_changed_file_owns `{Host} files p :
  is_Some (find_changed_file files p) ↔ ∃ file, file ∈ files ∧ owns_file p file.
Proof.
  assert (∀ file, starts_with "." file = false ↔ ∀ rest, file ≠ String.append "." rest) as Hdot.
  { intros [|c file]; [by split|]. unfold starts_with.
    change (strip_prefix "." (String c file)) with (if Ascii.eqb "." c then Some file else None).
    destruct (Ascii.eqb_spec "." c) as [<-|Hc]; split; try done.
    - intros Hr. by destruct (Hr file).
    - intros _ rest [= ? _]. by subst. }
  unfold find_changed_file. rewrite fmap_is_Some.
  destruct (is_root_level p) eqn:Hroot;
    unfold is_root_level, is_root_level_source in Hroot; rewrite find_is_Some.
  - rewrite orb_true_iff, !bool_decide_eq_true in Hroot.
    setoid_rewrite negb_true_iff. setoid_rewrite Hdot. split.
    + intros (file & ? & ?). exists file. split; [done|by left].
    + intros (file & ? & [|]); [by exists file|naive_solver].
  - rewrite orb_false_iff, !bool_decide_eq_false in Hroot. destruct Hroot. split.
    + intros (file & ? & ?). exists file. split; [done|by right].
    + intros (file & ? & [|]); [naive_solver|by exists file].
Qed.

(** At the workspace root a changed file whose path starts with a dot is no
    reason for a project to be affected. *)
Lemma dot_file_ignored_at_root `{Host} p rest :
  is_root_level p = true → find_changed_file [String.append "." rest] p = None.
Proof.
  intros Hroot. unfold find_changed_file. by rewrite Hroot.
Qed.

(** C33: in a workspace graph with distinct project ids, whose relations only
    mention its projects, [track_projects] returns, and the resulting [Affected]
    reports a project exactly when it has a changed file, or it is in the
    upstream scope of one that has (a dependency that the projects list, at any
    distance for the deep scope), or in the downstream scope of one (a dependent
    that the graph lists). The file of a project at the workspace root is any
    changed file whose path does not start with a dot, the file of another one is
    a changed file below its source. *)
Theorem track_projects_affected `{Host} wg ps files up down :
  projects_ok wg ps →
  ∃ t', track_projects (set_project_scopes (AffectedTracker_new wg files) up down) = Ok t' ∧
    ∀ k, Affected_is_project_affected (AffectedTracker_build t') k = true ↔
      ∃ p, p ∈ ps ∧ (∃ file, file ∈ files ∧ owns_file p file) ∧
        (k = p_id p ∨ upstream_of up (depends_on wg) (p_id p) k ∨
         downstream_of down (dependent_of wg) (p_id p) k).
Proof.
  intros Hok.
  destruct (track_projects_marks wg ps Hok files up down) as (t' & Ht & Hfiles & Hr & Hk).
  exists t'. split; [done|]. intros k.
  setoid_rewrite <- find_changed_file_owns. setoid_rewrite <- (project_adds_some wg files up down).
  unfold Affected_is_project_affected, AffectedTracker_build. cbn.
  rewrite Hfiles, andb_true_iff, bool_decide_eq_true, lookup_fmap, fmap_is_Some,
    (reasoned_lookup _ _ Hr).
  setoid_rewrite Hk. split; [naive_solver|].
  intros (p & Hp & b & Hb). split; [|naive_solver].
  assert (is_Some (find_changed_file files p)) as [a Ha]
    by (apply (project_adds_some wg files up down p k); eauto).
  apply find_changed_file_not_marked in Ha as (f & _ & Hf).
  destruct files; [by apply not_elem_of_nil in Hf|done].
Qed.

(** On a tracker in which no project is marked for a reason of its own yet,
    [track_projects_async] and [track_projects] succeed together and leave the
    same tracker, for every concurrency limit and completion order. *)
Theorem track_projects_async_agrees `{Host} concurrency sched t l t' :
  get_projects (at_workspace_graph t) = Ok l →
  NoDup (p_id <$> l) →
  (∀ p, p ∈ l → is_project_marked_ignoring_relations t p = false) →
  track_projects_async concurrency sched t = Ok t' ↔ track_projects t = Ok t'.
Proof.
  intros Hl Hnd Hun. unfold track_projects_async, track_projects. rewrite Hl.
  cbn [obind].
  rewrite (track_projects_agree t l Hnd Hun).
  by apply pool_result_Ok, run_pooled_tasks_spec.
Qed.

(** The same for tasks, also when a task is given more than once: the
    marks the tasks leave on their projects included. *)
Theorem track_tasks_async_agrees `{Host} concurrency sched t l t' :
  (∀ a b, a ∈ l → b ∈ l → t_target a = t_target b → a = b) →
  (∀ task, task ∈ l → is_task_marked_ignoring_relations t task = false) →
  track_tasks_by_instance_async concurrency sched t l = Ok t' ↔
  track_tasks_by_instance t l = Ok t'.
Proof.
  intros Hinj Hun. unfold track_tasks_by_instance_async, track_tasks_by_instance.
  rewrite (track_tasks_agree t l Hinj Hun).
  by apply pool_result_Ok, run_pooled_tasks_spec.
Qed.

(** A task that is not to run in the environment, by [Task::should_run], is
    never found affected, whatever files changed and whatever its inputs. *)
Theorem affected_task_should_run `{Host} ci files task :
  should_run task ci = false → check_task_affected ci files task = Ok None.
Proof.
  unfold should_run, check_task_affected, ci_check.
  destruct ci, (o_run_in_ci (t_options task)) as [| | | |[]]; done.
Qed.

(** ** A concrete workspace: [app] depends on [lib], [lib] on [core]. *)

Definition sample_host : Host := {|
  env_get := λ _, None;
  file_exists := λ _, true;
  read_file := λ _, Ok ""%string;
  regex_is_match := λ _ _, false;
  path_starts_with := λ file source, starts_with (String.append source "/") file;
  split_patterns := λ l, (l, []);
  GlobSet := list string;
  GlobSet_new_split := λ g _, Ok g;
  GlobSet_matches := λ g file, bool_decide (file ∈ g);
|}.

Definition sample_project (name : Id) (deps : list Id) : Project :=
  mkProject [] ProjectConfig_default ((λ d, mkProjectDep d SProduction) <$> deps) []
    name UnknownLanguage UnknownLayer name name UnknownStack [] [] [].

Definition sample_projects : list Project :=
  [sample_project "app" ["lib"]; sample_project "lib" ["core"]; sample_project "core" []]%string.

Definition sample_task (target : Target) (deps : list Target) (globs : list string) : Task :=
  mkTask (TaskArg_new "make") [] [] ((λ d, mkTaskDep [] None [] d None) <$> deps) None [] "build" []
    [] ∅ globs TaskOptions_default [] ∅ [] None None TaskState_default [] target [] TypeBuild.

Definition app_build : Target := mkTarget "app:build" PId TId 3.
Definition lib_build : Target := mkTarget "lib:build" PId TId 3.

Definition sample_tasks : list Task :=
  [sample_task app_build [lib_build] []; sample_task lib_build [] ["lib/x"%string]].

Definition sample_workspace : WorkspaceView := {|
  get_projects := Ok sample_projects;
  get_project := λ id, ok_or (List.find (λ p, bool_decide (p_id p = id)) sample_projects)
                   (RProjectGraph (UnconfiguredID id));
  project_dependents_of := λ p,
    p_id <$> List.filter (λ q, bool_decide (p_id p ∈ get_dependency_ids q)) sample_projects;
  get_tasks_with_internal := Ok sample_tasks;
  get_task := λ target, ok_or (List.find (λ t, bool_decide (t_target t = target)) sample_tasks)
                   (Foreign "unknown task");
  task_dependents_of := λ t,
    t_target <$> List.filter (λ u, bool_decide (t_target t ∈ dep_target <$> t_deps u)) sample_tasks;
|}.

Lemma sample_projects_ok : projects_ok sample_workspace sample_projects.
Proof.
  constructor.
  - done.
  - by apply (bool_decide_unpack _).
  - split.
    + apply Forall_forall. repeat constructor.
    + intros n y Hn Hy.
      assert (Forall (λ n, Forall (λ y, y ∈ p_id <$> sample_projects) (get_dependency_ids n))
        sample_projects) as Hall by by apply (bool_decide_unpack _).
      rewrite !Forall_forall in Hall. specialize (Hall n Hn). rewrite Forall_forall in Hall.
      apply Hall, list_elem_of_fmap in Hy as (q & -> & Hq). eauto.
  - split.
    + apply Forall_forall. repeat constructor.
    + intros n y Hn (q & -> & Hq)%list_elem_of_fmap. exists q. split; [|done].
      apply list_elem_of_In in Hq. apply filter_In in Hq as [? _]. by apply list_elem_of_In.
Qed.

Lemma track_projects_affected_witness :
  ∃ t', track_projects (H := sample_host)
      (set_project_scopes (AffectedTracker_new sample_workspace ["lib/x"%string]) UpDeep DownDeep)
      = Ok t' ∧
    ∀ k, Affected_is_project_affected (AffectedTracker_build t') k = true ↔
      ∃ p, p ∈ sample_projects ∧
        (∃ file, file ∈ ["lib/x"%string] ∧ owns_file (H := sample_host) p file) ∧
        (k = p_id p ∨ upstream_of UpDeep (depends_on sample_workspace) (p_id p) k ∨
         downstream_of DownDeep (dependent_of sample_workspace) (p_id p) k).
Proof. apply (track_projects_affected (H := sample_host)), sample_projects_ok. Defined.

Lemma track_projects_async_agrees_witness :
  let t := AffectedTracker_new sample_workspace ["lib/x"%string] in
  is_ok (track_projects (H := sample_host) t) = true ∧
  ∃ t', track_projects (H := sample_host) t = Ok t' ∧
    track_projects_async (H := sample_host) 4 (λ n, n) t = Ok t'.
Proof.
  intros t. assert (is_ok (track_projects (H := sample_host) t) = true) as Hok
    by (vm_compute; reflexivity).
  split; [exact Hok|].
  destruct (track_projects (H := sample_host) t) as [t'| |] eqn:E; [|discriminate..].
  exists t'. split; [reflexivity|].
  apply (track_projects_async_agrees (H := sample_host) 4 (λ n, n) t sample_projects);
    [done|by apply (bool_decide_unpack _)|done|exact E].
Defined.

Lemma track_tasks_async_agrees_witness :
  let t := AffectedTracker_new sample_workspace ["lib/x"%string] in
  is_ok (track_tasks_by_instance (H := sample_host) t sample_tasks) = true ∧
  ∃ t', track_tasks_by_instance (H := sample_host) t sample_tasks = Ok t' ∧
    track_tasks_by_instance_async (H := sample_host) 4 (λ n, n) t sample_tasks = Ok t'.
Proof.
  intros t.
  assert (is_ok (track_tasks_by_instance (H := sample_host) t sample_tasks) = true) as Hok
    by (vm_compute; reflexivity).
  split; [exact Hok|].
  destruct (track_tasks_by_instance (H := sample_host) t sample_tasks) as [t'| |] eqn:E;
    [|discriminate..].
  exists t'. split; [reflexivity|].
  apply (track_tasks_async_agrees (H := sample_host) 4 (λ n, n) t sample_tasks);
    [|done|exact E].
  intros a b. apply NoDup_fmap_inj. by apply (bool_decide_unpack _).
Defined.

(** The trackers do mark something in the sample workspace. *)
Example sample_affected :
  match track_projects (H := sample_host)
          (AffectedTracker_new sample_workspace ["lib/x"%string]) with
  | Ok t => bool_decide (elements (dom (at_projects t)) = ["core"; "lib"]%string)
  | _ => false
  end = true.
Proof. vm_compute. reflexivity. Qed.

Lemma affected_task_should_run_witness :
  check_task_affected (H := sample_host) true ["lib/x"%string]
    (mkTask (TaskArg_new "make") [] [] [] None [] "build" [] [] ∅ ["lib/x"%string]
       (options_with TaskOptions_default false false true Skip) [] ∅ [] None None TaskState_default
       [] lib_build [] TypeBuild) = Ok None.
Proof. apply (affected_task_should_run (H := sample_host)). reflexivity. Defined.
