(* ===== verification/ActionContext.v ===== *)
(** * The action context ([crates/action-context])

What the actions of one pipeline run share: the targets that were asked for,
the states of the tasks that ran, and the named mutexes. *)

From S2P Require Import Prelude Errors Target Config Affected.

Inductive TargetState : Type :=
| TPassed (hash : string)
| TPassthrough
| TFailed
| TSkipped
| TSkippedConditional (hash : string).

#[export] Instance TargetState_eq_dec : EqDecision TargetState.
Proof. solve_decision. Defined.

(** [TargetState::from_hash] *)
Definition from_hash (hash : option string) : TargetState :=
  match hash with Some hash => TPassed hash | None => TPassthrough end.

Definition TargetState_is_complete (s : TargetState) : bool :=
  match s with TPassed _ | TPassthrough | TSkippedConditional _ => true | _ => false end.

Definition TargetState_is_skipped (s : TargetState) : bool :=
  match s with TSkipped | TSkippedConditional _ => true | _ => false end.

(** A named mutex is identified by the number it was created with.  Sets that
    are iterated are in iteration order. *)
Record ActionContext : Type := mkActionContext {
  ctx_affected : option Affected;
  ctx_initial_targets : list TargetLocator;
  ctx_named_mutexes : gmap string nat;
  ctx_ignored_dependencies : gmap Target (gset Target);
  ctx_passthrough_args : list string;
  ctx_primary_targets : gset Target;
  ctx_target_states : gmap Target TargetState;
  ctx_changed_files : list WorkspaceRelativePath;
}.

Definition ActionContext_default : ActionContext :=
  mkActionContext None [] ∅ ∅ [] ∅ ∅ [].

Definition ctx_set_states (c : ActionContext) (states : gmap Target TargetState) : ActionContext :=
  mkActionContext (ctx_affected c) (ctx_initial_targets c) (ctx_named_mutexes c)
    (ctx_ignored_dependencies c) (ctx_passthrough_args c) (ctx_primary_targets c)
    states (ctx_changed_files c).

(** [ActionContext::get_or_create_mutex] *)
Definition get_or_create_mutex (c : ActionContext) (name : string) : nat * ActionContext :=
  match ctx_named_mutexes c !! name with
  | Some mutex => (mutex, c)
  | None =>
      let mutex := size (ctx_named_mutexes c) in
      (mutex,
       mkActionContext (ctx_affected c) (ctx_initial_targets c)
         (<[name := mutex]> (ctx_named_mutexes c)) (ctx_ignored_dependencies c)
         (ctx_passthrough_args c) (ctx_primary_targets c) (ctx_target_states c)
         (ctx_changed_files c))
  end.

Definition get_target_states (c : ActionContext) : gmap Target TargetState :=
  ctx_target_states c.

Definition is_primary_target (c : ActionContext) (target : Target) : bool :=
  bool_decide (target ∈ ctx_primary_targets c).

Definition is_dependency_ignored (c : ActionContext) (target dependency : Target) : bool :=
  match ctx_ignored_dependencies c !! target with
  | Some dependencies => bool_decide (dependency ∈ dependencies)
  | None => false
  end.

(** [ActionContext::set_target_state]: [scc::HashMap::insert_sync] refuses a key
    that is present, and the result is dropped. *)
Definition set_target_state (c : ActionContext) (target : Target) (state : TargetState) :
  ActionContext :=
  match ctx_target_states c !! target with
  | Some _ => c
  | None => ctx_set_states c (<[target := state]> (ctx_target_states c))
  end.

(** [ActionContext::should_inherit_args] *)
Definition should_inherit_args (c : ActionContext) (target : Target) : bool :=
  match ctx_passthrough_args c with
  | [] => false
  | _ =>
      bool_decide (target ∈ ctx_primary_targets c) ||
      existsb (λ other_target,
        match get_task_id target, other_target with
        | Ok task_id, Qualified other_target => is_all_task other_target task_id
        | _, _ => false
        end) (ctx_initial_targets c)
  end.

(** ** Properties *)

Lemma set_target_state_lookup c target state t :
  ctx_target_states (set_target_state c target state) !! t =
  match ctx_target_states c !! t with
  | Some s => Some s
  | None => if decide (t = target) then Some state else None
  end.
Proof.
  unfold set_target_state. destruct (ctx_target_states c !! target) eqn:E; cbn.
  - destruct (ctx_target_states c !! t) eqn:Et; [done|]. case_decide; congruence.
  - case_decide as Ht; [subst; by rewrite lookup_insert_eq, E|].
    rewrite lookup_insert_ne by done. by destruct (ctx_target_states c !! t).
Qed.

(** The state of a target is the first one that was set: of any sequence of
    [set_target_state] calls on a context, later ones for the same target have
    no effect. *)
Theorem set_target_state_first_wins c (calls : list (Target * TargetState)) target :
  ctx_target_states (fold_left (λ c '(t, s), set_target_state c t s) calls c) !! target =
  match ctx_target_states c !! target with
  | Some s => Some s
  | None => snd <$> List.find (λ '(t, _), bool_decide (t = target)) calls
  end.
Proof.
  revert c. induction calls as [|[t s] calls IH]; intros c; cbn.
  { by destruct (ctx_target_states c !! target). }
  rewrite IH, set_target_state_lookup.
  destruct (ctx_target_states c !! target) as [s'|]; [done|].
  case_decide as Ht; case_bool_decide; [done|congruence|congruence|done].
Qed.

(** Names and mutexes are in one-to-one correspondence. *)
Definition mutexes_ok (c : ActionContext) : Prop :=
  (∀ n m, ctx_named_mutexes c !! n = Some m → m < size (ctx_named_mutexes c)) ∧
  ∀ n1 n2 m, ctx_named_mutexes c !! n1 = Some m → ctx_named_mutexes c !! n2 = Some m → n1 = n2.

Lemma get_or_create_mutex_spec c n m c' :
  mutexes_ok c → get_or_create_mutex c n = (m, c') →
  mutexes_ok c' ∧ ctx_named_mutexes c' !! n = Some m ∧
  ∀ k v, ctx_named_mutexes c !! k = Some v → ctx_named_mutexes c' !! k = Some v.
Proof.
  intros [Hlt Hinj]. unfold get_or_create_mutex.
  destruct (ctx_named_mutexes c !! n) as [m'|] eqn:E; intros [= <- <-]; [by split_and!|].
  cbn. split_and!.
  - unfold mutexes_ok. cbn. rewrite map_size_insert_None by done. split.
    + intros k v [[<- <-]|[_ Hk%Hlt]]%lookup_insert_Some; lia.
    + intros k1 k2 v [[<- <-]|[Hn1 Hk1]]%lookup_insert_Some
        [[<- Hv]|[Hn2 Hk2]]%lookup_insert_Some; [done| | |by eapply Hinj].
      * apply Hlt in Hk2. lia.
      * subst v. apply Hlt in Hk1. lia.
  - apply lookup_insert_eq.
  - intros k v Hk. rewrite lookup_insert_ne; [done|]. intros ->. congruence.
Qed.

(** [get_or_create_mutex] keeps mutexes and names in one-to-one
    correspondence: asking for a name again gives the same mutex, and two names
    never share one. *)
Theorem get_or_create_mutex_ok c n1 n2 m1 c1 m2 c2 :
  mutexes_ok c →
  get_or_create_mutex c n1 = (m1, c1) → get_or_create_mutex c1 n2 = (m2, c2) →
  mutexes_ok c2 ∧ (m1 = m2 ↔ n1 = n2).
Proof.
  intros Hok H1 H2. destruct (get_or_create_mutex_spec _ _ _ _ Hok H1) as (Hok1 & Hl1 & _).
  destruct (get_or_create_mutex_spec _ _ _ _ Hok1 H2) as (Hok2 & Hl2 & Hmono).
  split; [done|]. apply Hmono in Hl1. split; [intros ->; by eapply Hok2|congruence].
Qed.

Lemma get_or_create_mutex_ok_witness :
  let '(m1, c1) := get_or_create_mutex ActionContext_default "a" in
  let '(m2, c2) := get_or_create_mutex c1 "b" in
  mutexes_ok c2 ∧ (m1 = m2 ↔ "a"%string = "b"%string).
Proof.
  assert (mutexes_ok ActionContext_default) as Hok
    by (split; intros *; cbn; by rewrite lookup_empty).
  destruct (get_or_create_mutex ActionContext_default "a") as [m1 c1] eqn:E1.
  destruct (get_or_create_mutex c1 "b") as [m2 c2] eqn:E2.
  exact (get_or_create_mutex_ok _ _ _ _ _ _ _ Hok E1 E2).
Defined.
