(* ===== verification/Action.v ===== *)
(** * Actions ([crates/action], [crates/toolchain])

The nodes of the action graph, the operations an action records, and the
action itself with its status transitions.  Time stamps and durations are left
out, as nothing modelled reads them. *)

From S2P Require Import Prelude Errors Target Config.

(** ** Toolchain specifications ([toolchain/src/spec.rs])

A version requirement is its string form. *)
Record ToolchainSpec : Type := mkToolchainSpec {
  spec_id : Id;
  spec_req : option string;
}.

Definition ToolchainSpec_new (id : Id) (req : string) : ToolchainSpec :=
  mkToolchainSpec id (Some req).

Definition ToolchainSpec_new_global (id : Id) : ToolchainSpec := mkToolchainSpec id None.

Definition ToolchainSpec_is_system (s : ToolchainSpec) : bool :=
  bool_decide (spec_id s = "system"%string).

(** [ToolchainSpec::target] *)
Definition ToolchainSpec_target (s : ToolchainSpec) : string :=
  match spec_req s with
  | Some spec =>
      String.append (spec_id s) (String.append ":" (str_replace " " "" spec))
  | None => spec_id s
  end.

(** ** Nodes ([action_node.rs]) *)

Record InstallDependenciesNode : Type := mkInstallDependencies {
  install_members : option (list string);
  install_project_id : option Id;
  install_root : WorkspaceRelativePath;
  install_toolchain_id : Id;
}.

Record SetupEnvironmentNode : Type := mkSetupEnvironment {
  env_project_id : option Id;
  env_root : WorkspaceRelativePath;
  env_toolchain_id : Id;
}.

(** The environment is an [IndexMap]: its entries in insertion order. *)
Record RunTaskNode : Type := mkRunTask {
  run_args : list string;
  run_env : list (string * option string);
  run_interactive : bool;
  run_persistent : bool;
  run_priority : nat;
  run_target : Target;
  run_id : option N;
}.

Inductive ActionNode : Type :=
| NoAction
| InstallDependencies (inner : InstallDependenciesNode)
| RunTask (inner : RunTaskNode)
| SetupEnvironment (inner : SetupEnvironmentNode)
| SetupProto (version : string)
| SetupToolchain (toolchain : ToolchainSpec)
| SyncProject (project_id : Id)
| SyncWorkspace.

(** What is written to a [Hasher], and the hash function, which is the
    [rustc-hash] library's. *)
Inductive hash_write : Type :=
| WBytes (bytes : string)
| WU8 (n : nat)
| WOther (writes : string).

Class FxHasher : Type := { hash_finish : list hash_write → N }.

(** [RunTaskNode::new] *)
Definition RunTaskNode_new (target : Target) : RunTaskNode :=
  mkRunTask [] [] false false 2 target None.

(** The writes of [RunTaskNode::calculate_id]. *)
Definition RunTaskNode_id_writes (n : RunTaskNode) : list hash_write :=
  [WBytes (id (run_target n))] ++
  (if run_persistent n then [WU8 100] else []) ++
  (if run_interactive n then [WU8 50] else []).

Definition calculate_id `{FxHasher} (n : RunTaskNode) : RunTaskNode :=
  mkRunTask (run_args n) (run_env n) (run_interactive n) (run_persistent n)
    (run_priority n) (run_target n) (Some (hash_finish (RunTaskNode_id_writes n))).

(** [ActionNode::run_task] *)
Definition ActionNode_run_task `{FxHasher} (n : RunTaskNode) : ActionNode :=
  RunTask (calculate_id n).

Definition ActionNode_get_id (n : ActionNode) : N :=
  match n with RunTask inner => default 0%N (run_id inner) | _ => 0%N end.

Definition ActionNode_get_spec (n : ActionNode) : option ToolchainSpec :=
  match n with SetupToolchain toolchain => Some toolchain | _ => None end.

Definition ActionNode_get_priority (n : ActionNode) : nat :=
  match n with RunTask inner => run_priority inner | _ => 0 end.

Definition ActionNode_is_interactive (n : ActionNode) : bool :=
  match n with RunTask inner => run_interactive inner | _ => false end.

Definition ActionNode_is_persistent (n : ActionNode) : bool :=
  match n with RunTask inner => run_persistent inner | _ => false end.

Definition ActionNode_is_standard (n : ActionNode) : bool :=
  match n with
  | RunTask inner => negb (run_interactive inner) && negb (run_persistent inner)
  | _ => true
  end.

(** [format!("{name}({args})")] *)
Definition call_label (name : string) (args : list string) : string :=
  String.append name (String.append "(" (String.append (str_join ", " args) ")")).

(** [ActionNode::label], outside of tests. *)
Definition ActionNode_label (n : ActionNode) : string :=
  match n with
  | InstallDependencies inner =>
      if decide (install_root inner = ""%string)
      then call_label "InstallDependencies" [install_toolchain_id inner]
      else call_label "InstallDependencies" [install_toolchain_id inner; install_root inner]
  | RunTask inner =>
      call_label
        (if run_persistent inner then "RunPersistentTask"
         else if run_interactive inner then "RunInteractiveTask" else "RunTask")
        [id (run_target inner)]
  | SetupEnvironment inner =>
      if decide (env_root inner = ""%string)
      then call_label "SetupEnvironment" [env_toolchain_id inner]
      else call_label "SetupEnvironment" [env_toolchain_id inner; env_root inner]
  | SetupProto version => call_label "SetupProto" [version]
  | SetupToolchain toolchain => call_label "SetupToolchain" [ToolchainSpec_target toolchain]
  | SyncProject project_id => call_label "SyncProject" [project_id]
  | SyncWorkspace => "SyncWorkspace"
  | NoAction => "None"
  end.

(** [Hash for ActionNode], on [RunTask] nodes. *)
Definition RunTaskNode_hash_writes (n : RunTaskNode) : list hash_write :=
  [WBytes (ActionNode_label (RunTask n))] ++
  (WBytes <$> run_args n) ++
  concat ((λ '(key, value),
     WBytes key :: match value with Some v => [WBytes v] | None => [] end) <$> run_env n).

(** [==] on [RunTask] nodes: two [IndexMap]s are equal when they have the same
    entries, in any order. *)
Definition RunTaskNode_eqb (a b : RunTaskNode) : bool :=
  bool_decide (run_args a = run_args b) &&
  bool_decide (list_to_map (run_env a) =@{gmap string (option string)} list_to_map (run_env b)) &&
  bool_decide (run_interactive a = run_interactive b) &&
  bool_decide (run_persistent a = run_persistent b) &&
  bool_decide (run_priority a = run_priority b) &&
  bool_decide (run_target a = run_target b) &&
  bool_decide (run_id a = run_id b).

#[export] Instance ToolchainSpec_eq_dec : EqDecision ToolchainSpec.
Proof. solve_decision. Defined.
#[export] Instance InstallDependenciesNode_eq_dec : EqDecision InstallDependenciesNode.
Proof. solve_decision. Defined.
#[export] Instance SetupEnvironmentNode_eq_dec : EqDecision SetupEnvironmentNode.
Proof. solve_decision. Defined.
#[export] Instance RunTaskNode_eq_dec : EqDecision RunTaskNode.
Proof. solve_decision. Defined.
#[export] Instance ActionNode_eq_dec : EqDecision ActionNode.
Proof. solve_decision. Defined.

#[export] Instance ActionNode_countable : Countable ActionNode.
Proof.
  refine (inj_countable'
    (λ n, match n with
     | NoAction => inl (inl false)
     | SyncWorkspace => inl (inl true)
     | SyncProject p => inl (inr (inl p))
     | SetupProto v => inl (inr (inr (inl v)))
     | SetupToolchain t => inl (inr (inr (inr (spec_id t, spec_req t))))
     | InstallDependencies (mkInstallDependencies m p r t) => inr (inl (m, p, r, t))
     | SetupEnvironment (mkSetupEnvironment p r t) => inr (inr (inl (p, r, t)))
     | RunTask (mkRunTask a e i p pr t d) => inr (inr (inr (a, e, i, p, pr, t, d)))
     end)
    (λ c, match c with
     | inl (inl false) => NoAction
     | inl (inl true) => SyncWorkspace
     | inl (inr (inl p)) => SyncProject p
     | inl (inr (inr (inl v))) => SetupProto v
     | inl (inr (inr (inr (i, r)))) => SetupToolchain (mkToolchainSpec i r)
     | inr (inl (m, p, r, t)) => InstallDependencies (mkInstallDependencies m p r t)
     | inr (inr (inl (p, r, t))) => SetupEnvironment (mkSetupEnvironment p r t)
     | inr (inr (inr (a, e, i, p, pr, t, d))) => RunTask (mkRunTask a e i p pr t d)
     end) _).
  by intros [|[]|[]|[]| |[]| |].
Defined.

(** ** Operations ([operation.rs], [operation_list.rs], [operation_meta.rs]) *)

Inductive ActionStatus : Type :=
| Cached | CachedFromRemote | Failed | Invalid | Passed | Running | Skipped
| TimedOut | Aborted.

#[export] Instance ActionStatus_eq_dec : EqDecision ActionStatus.
Proof. solve_decision. Defined.

Inductive ActionPipelineStatus : Type :=
| PipelineAborted | PipelineCompleted | PipelineInterrupted | PipelineTerminated
| PipelinePending.

#[export] Instance ActionPipelineStatus_eq_dec : EqDecision ActionPipelineStatus.
Proof. solve_decision. Defined.

(** The exit code of a process that ran, and its captured output. *)
Record OperationMetaProcessOutput : Type := mkProcessOutput {
  out_command : option string;
  out_exit_code : option Z;
  out_stderr : option string;
  out_stdout : option string;
}.

Inductive OperationMeta : Type :=
| NoOperation
| OutputHydration (output : OperationMetaProcessOutput)
| ProcessExecution (output : OperationMetaProcessOutput)
| SetupOperation (changed_files : list string)
| SyncOperation (changed_files : list string)
| TaskExecution (output : OperationMetaProcessOutput)
| ArchiveCreation
| HashGeneration (hash : option string)
| MutexAcquisition.

Record Operation : Type := mkOperation {
  op_meta : OperationMeta;
  op_status : ActionStatus;
}.

Definition is_task_execution (m : OperationMeta) : bool :=
  match m with TaskExecution _ => true | _ => false end.

Definition is_hash_generation (m : OperationMeta) : bool :=
  match m with HashGeneration _ => true | _ => false end.

(** The kinds of [OperationList::get_last_process]. *)
Definition is_process_based (m : OperationMeta) : bool :=
  match m with
  | NoOperation | OutputHydration _ | ProcessExecution _ | SyncOperation _
  | TaskExecution _ => true
  | _ => false
  end.

(** The kinds of [OperationList::get_last_metric]. *)
Definition is_metric_based (m : OperationMeta) : bool :=
  match m with ArchiveCreation | HashGeneration _ | MutexAcquisition => true | _ => false end.

(** [Operation::get_exec_output] *)
Definition get_exec_output (o : Operation) : option OperationMetaProcessOutput :=
  match op_meta o with
  | OutputHydration output | ProcessExecution output | TaskExecution output => Some output
  | _ => None
  end.

(** [Operation::finish] *)
Definition Operation_finish (o : Operation) (status : ActionStatus) : Operation :=
  mkOperation (op_meta o) status.

(** [set_stderr], [set_stdout]: empty output is not recorded. *)
Definition set_output (old : option string) (output : string) : option string :=
  if decide (output = ""%string) then old else Some output.

(** [Operation::finish_from_output]; [status] is the code of the exit status,
    if the process left one, and whether it is a success. *)
Definition finish_from_output (o : Operation) (status : option (bool * option Z))
    (stdout stderr : string) : Operation :=
  let update output :=
    mkProcessOutput (out_command output)
      (match status with Some (_, code) => code | None => out_exit_code output end)
      (set_output (out_stderr output) stderr) (set_output (out_stdout output) stdout) in
  let success := match status with Some (success, _) => success | None => false end in
  match op_meta o with
  | OutputHydration output =>
      mkOperation (OutputHydration (update output)) (if success then Passed else Failed)
  | ProcessExecution output =>
      mkOperation (ProcessExecution (update output)) (if success then Passed else Failed)
  | TaskExecution output =>
      mkOperation (TaskExecution (update output)) (if success then Passed else Failed)
  | _ => Operation_finish o Failed
  end.

Definition status_has_failed (s : ActionStatus) : bool :=
  match s with Aborted | Failed | TimedOut => true | _ => false end.

Definition status_has_passed (s : ActionStatus) : bool :=
  match s with Cached | CachedFromRemote | Passed => true | _ => false end.

Definition status_is_cached (s : ActionStatus) : bool :=
  match s with Cached | CachedFromRemote => true | _ => false end.

(** [Operation::has_failed], [has_passed], [is_cached] *)
Definition Operation_has_failed (o : Operation) : bool := status_has_failed (op_status o).
Definition Operation_has_passed (o : Operation) : bool := status_has_passed (op_status o).
Definition Operation_is_cached (o : Operation) : bool := status_is_cached (op_status o).

(** [OperationList]: oldest first. *)
Abbreviation OperationList := (list Operation).

(** [self.0.iter().rfind(..)] *)
Definition rfind (P : Operation → bool) (l : OperationList) : option Operation :=
  List.find P (reverse l).

Definition get_last_metric (l : OperationList) : option Operation :=
  rfind (λ o, is_metric_based (op_meta o)) l.

Definition get_last_process (l : OperationList) : option Operation :=
  rfind (λ o, is_process_based (op_meta o)) l.

Definition get_last_execution (l : OperationList) : option Operation :=
  rfind (λ o, is_task_execution (op_meta o)) l.

Definition get_final_status (l : OperationList) : ActionStatus :=
  match get_last_process l with Some op => op_status op | None => Invalid end.

(** [OperationList::get_hash] *)
Definition get_hash (l : OperationList) : option string :=
  match List.find (λ o, is_hash_generation (op_meta o)) l with
  | Some op => match op_meta op with HashGeneration hash => hash | _ => None end
  | None => None
  end.

(** [OperationList::is_flaky] *)
Definition flaky_step (s : nat * bool * bool) (o : Operation) : nat * bool * bool :=
  let '(attempt_count, any_failed, last_passed) := s in
  if is_task_execution (op_meta o) then
    (S attempt_count, any_failed || Operation_has_failed o, Operation_has_passed o)
  else (attempt_count, any_failed, last_passed).

Definition is_flaky (l : OperationList) : bool :=
  let '(attempt_count, any_failed, last_passed) := fold_left flaky_step l (0, false, false) in
  (0 <? attempt_count) && any_failed && last_passed.

(** ** Actions ([action.rs]) *)

Record Action : Type := mkAction {
  a_allow_failure : bool;
  a_error : option string;
  a_error_report : option Report;
  a_flaky : bool;
  a_label : string;
  a_node : ActionNode;
  a_node_index : nat;
  a_operations : OperationList;
  a_status : ActionStatus;
}.

(** [Action::new] *)
Definition Action_new (node : ActionNode) : Action :=
  mkAction false None None false (ActionNode_label node) node 0 [] Running.

Definition action_with_index (a : Action) (index : nat) : Action :=
  mkAction (a_allow_failure a) (a_error a) (a_error_report a) (a_flaky a) (a_label a)
    (a_node a) index (a_operations a) (a_status a).

(** [Action::finish] *)
Definition Action_finish (a : Action) (status : ActionStatus) : Action :=
  mkAction (a_allow_failure a) (a_error a) (a_error_report a) (a_flaky a) (a_label a)
    (a_node a) (a_node_index a) (a_operations a) status.

(** [Action::abort] *)
Definition Action_abort (a : Action) : Action := Action_finish a Aborted.

(** [Action::fail]; [to_string] is the message of the report. *)
Definition Action_fail (a : Action) (message : string) (error : Report) : Action :=
  mkAction (a_allow_failure a) (Some message) (Some error) (a_flaky a) (a_label a)
    (a_node a) (a_node_index a) (a_operations a) (a_status a).

Definition Action_has_error (a : Action) : bool :=
  bool_decide (is_Some (a_error a)) || match a_error_report a with Some _ => true | None => false end.

Definition Action_has_failed (a : Action) : bool := status_has_failed (a_status a).

(** [Action::get_error]: the report is moved out of the action. *)
Definition Action_get_error (a : Action) : Report * Action :=
  match a_error_report a with
  | Some report =>
      (report, mkAction (a_allow_failure a) (a_error a) None (a_flaky a) (a_label a)
                 (a_node a) (a_node_index a) (a_operations a) (a_status a))
  | None =>
      (Foreign (match a_error a with Some error => error | None => "Unknown error!"%string end), a)
  end.

(** [Action::get_exit_code] *)
Definition get_exit_code (a : Action) : option Z :=
  op ← get_last_execution (a_operations a);
  output ← get_exec_output op;
  out_exit_code output.

(** [Action::should_abort] *)
Definition Action_should_abort (a : Action) : bool :=
  bool_decide (a_status a = Aborted) ||
  match get_last_execution (a_operations a) with
  | Some exec => bool_decide (op_status exec = Aborted)
  | None => false
  end.

(** [Action::should_bail] *)
Definition Action_should_bail (a : Action) : bool :=
  negb (a_allow_failure a) && Action_has_failed a.

(** [Action::was_cached] *)
Definition was_cached (a : Action) : bool := status_is_cached (a_status a).

(** ** Properties *)

Lemma rfind_snoc P l o : rfind P (l ++ [o]) = if P o then Some o else rfind P l.
Proof. unfold rfind. rewrite reverse_app. cbn. by destruct (P o). Qed.

Lemma flaky_fold l :
  fold_left flaky_step l (0, false, false) =
  (length (List.filter (λ o, is_task_execution (op_meta o)) l),
   existsb (λ o, is_task_execution (op_meta o) && Operation_has_failed o) l,
   match get_last_execution l with Some o => Operation_has_passed o | None => false end).
Proof.
  induction l as [|o l IH] using rev_ind; [done|].
  rewrite fold_left_app, IH. cbn. unfold get_last_execution.
  rewrite rfind_snoc, List.filter_app, length_app, existsb_app. cbn.
  destruct (is_task_execution (op_meta o)); cbn.
  - f_equal; [f_equal; [lia|by rewrite orb_false_r]].
  - f_equal; [f_equal; [lia|by rewrite orb_false_r]].
Qed.

(** An action is flaky exactly when some execution of its task failed and
    the last one passed. *)
Theorem is_flaky_spec l :
  is_flaky l = true ↔
  (∃ o, o ∈ l ∧ is_task_execution (op_meta o) = true ∧ Operation_has_failed o = true) ∧
  (∃ o, get_last_execution l = Some o ∧ Operation_has_passed o = true).
Proof.
  unfold is_flaky. rewrite flaky_fold.
  rewrite !andb_true_iff, Nat.ltb_lt, existsb_exists.
  setoid_rewrite andb_true_iff. setoid_rewrite <- list_elem_of_In.
  destruct (get_last_execution l) as [o|] eqn:El; [|naive_solver].
  split; [naive_solver|]. intros [(o' & Hin & Hex & Hf) (o2 & [= ->] & Hp)].
  split_and!; [|by eauto|done].
  destruct (List.filter _ l) as [|] eqn:Ef; [|cbn; lia].
  assert (o' ∈ List.filter (λ o, is_task_execution (op_meta o)) l) as Habs
    by (apply list_elem_of_In, filter_In; by rewrite <- list_elem_of_In).
  rewrite Ef in Habs. by apply not_elem_of_nil in Habs.
Qed.

(** Two [RunTask] nodes that differ only in the order of their environment
    are equal but write different sequences to the hasher, so [Hash] and [Eq]
    of [ActionNode] do not agree. *)
Theorem RunTaskNode_hash_eq_disagree (t : Target) :
  ∃ a b, run_target a = t ∧ run_target b = t ∧ RunTaskNode_eqb a b = true ∧
    RunTaskNode_hash_writes a ≠ RunTaskNode_hash_writes b.
Proof.
  exists (mkRunTask [] [("A", Some "1"); ("B", Some "2")]%string false false 2 t None).
  exists (mkRunTask [] [("B", Some "2"); ("A", Some "1")]%string false false 2 t None).
  split_and!; [done..| |by intros [=]].
  unfold RunTaskNode_eqb. cbn [run_args run_interactive run_persistent run_priority run_target run_id run_env].
  rewrite !andb_true_iff. split_and!; by apply bool_decide_eq_true.
Qed.

(** A successful exit is what makes a recorded process pass: the status
    after [finish_from_output] is [Passed] exactly for a process-like operation
    whose exit status was a success, and [Failed] otherwise; the exit code is
    the one of that status. *)
Theorem finish_from_output_status o status stdout stderr :
  (op_status (finish_from_output o status stdout stderr) = Passed ↔
   is_Some (get_exec_output o) ∧ ∃ code, status = Some (true, code)) ∧
  (op_status (finish_from_output o status stdout stderr) ≠ Passed →
   op_status (finish_from_output o status stdout stderr) = Failed) ∧
  (∀ success code, status = Some (success, code) → is_Some (get_exec_output o) →
   out_exit_code <$> get_exec_output (finish_from_output o status stdout stderr) = Some code).
Proof.
  destruct o as [[] st], status as [[[] code]|]; cbn;
    split_and!; try done; try naive_solver;
    (split; [done|intros [[? ?] ?]; done]) || (split; [done|intros [_ [? ?]]; done]) || done.
Qed.
