(* ===== verification/Dag.v ===== *)
(** * Directed acyclic graphs

The graph library [daggy], code from outside the repository, as an interface:
the calls that moon makes, and the documented behaviour it relies on.  Nodes
and edges are numbered in the order they are added; [add_edge] refuses an edge
that would close a cycle. *)

From S2P Require Import Prelude GraphUtils.

Class DagOps (N E : Type) : Type := {
  Dag : Type;
  dag_new : Dag;
  (** [add_node(weight)], with the new index *)
  dag_add_node : Dag → N → nat * Dag;
  (** [add_edge(a, b, weight)]: the new index, or [None] for [WouldCycle] *)
  dag_add_edge : Dag → nat → nat → E → option (nat * Dag);
  dag_find_edge : Dag → nat → nat → option nat;
  dag_node_weight : Dag → nat → option N;
  dag_node_count : Dag → nat;
  (** the outgoing edges of a node, with the node they lead to *)
  dag_children : Dag → nat → list (nat * nat);
}.

(** The edge relation of a list of edges. *)
Definition edge_of {E} (es : list (nat * nat * E)) (a b : nat) : Prop :=
  ∃ e, (a, b, e) ∈ es.

(** What the library documents, through the nodes and edges of a graph in the
    order they were added. *)
Class DagLaws {N E} (D : DagOps N E) : Type := {
  dag_nodes : Dag → list N;
  dag_edges : Dag → list (nat * nat * E);
  dag_wf : Dag → Prop;
  dag_new_wf : dag_wf dag_new;
  dag_new_nodes : dag_nodes dag_new = [];
  dag_new_edges : dag_edges dag_new = [];
  dag_add_node_law : ∀ d n i d', dag_wf d → dag_add_node d n = (i, d') →
    dag_wf d' ∧ i = length (dag_nodes d) ∧ dag_nodes d' = dag_nodes d ++ [n] ∧
    dag_edges d' = dag_edges d;
  dag_add_edge_Some : ∀ d a b e i d', dag_wf d →
    a < length (dag_nodes d) → b < length (dag_nodes d) →
    dag_add_edge d a b e = Some (i, d') →
    dag_wf d' ∧ i = length (dag_edges d) ∧ dag_nodes d' = dag_nodes d ∧
    dag_edges d' = dag_edges d ++ [(a, b, e)] ∧ ¬ rtc (edge_of (dag_edges d)) b a;
  dag_add_edge_None : ∀ d a b e, dag_wf d →
    a < length (dag_nodes d) → b < length (dag_nodes d) →
    dag_add_edge d a b e = None → rtc (edge_of (dag_edges d)) b a;
  dag_find_edge_Some : ∀ d a b i, dag_wf d → dag_find_edge d a b = Some i →
    ∃ e, dag_edges d !! i = Some (a, b, e);
  dag_find_edge_None : ∀ d a b, dag_wf d → dag_find_edge d a b = None →
    ¬ edge_of (dag_edges d) a b;
  dag_node_weight_law : ∀ d i, dag_node_weight d i = dag_nodes d !! i;
  dag_node_count_law : ∀ d, dag_node_count d = length (dag_nodes d);
  dag_children_law : ∀ d a i b, dag_wf d →
    (i, b) ∈ dag_children d a ↔ ∃ e, dag_edges d !! i = Some (a, b, e);
  dag_edges_range : ∀ d a b e, dag_wf d → (a, b, e) ∈ dag_edges d →
    a < length (dag_nodes d) ∧ b < length (dag_nodes d);
}.

Definition acyclic (R : nat → nat → Prop) : Prop := ∀ x, ¬ tc R x x.

Lemma tc_mono {A} (R1 R2 : A → A → Prop) x y :
  (∀ a b, R1 a b → R2 a b) → tc R1 x y → tc R2 x y.
Proof. intros HR. induction 1; [by apply tc_once; auto|eapply tc_l; eauto]. Qed.

Lemma edge_of_snoc {E} (es : list (nat * nat * E)) a b e x y :
  edge_of (es ++ [(a, b, e)]) x y ↔ edge_of es x y ∨ (x = a ∧ y = b).
Proof.
  unfold edge_of. split.
  - intros (e' & [?|[= -> -> ->]%list_elem_of_singleton]%elem_of_app); eauto.
  - intros [[e' ?]|[-> ->]].
    + exists e'. apply elem_of_app. by left.
    + exists e. apply elem_of_app. right. by apply list_elem_of_singleton.
Qed.

(** A path that uses a new edge [a -> b] reaches [a] without it first, and
    leaves [b] without it last. *)
Lemma tc_new_edge (R : nat → nat → Prop) a b x y :
  tc (λ x y, R x y ∨ (x = a ∧ y = b)) x y →
  tc R x y ∨ (rtc R x a ∧ rtc R b y).
Proof.
  induction 1 as [x y [Hxy|[-> ->]]|x y z [Hxy|[-> ->]] _ IH].
  - left. by apply tc_once.
  - by right.
  - destruct IH as [IH|[IH1 IH2]].
    + left. by eapply tc_l.
    + right. split; [by eapply rtc_l|done].
  - right. split; [done|]. destruct IH as [IH|[IH1 IH2]]; [by apply tc_rtc|done].
Qed.

Lemma acyclic_add_edge {E} (es : list (nat * nat * E)) a b e :
  acyclic (edge_of es) → ¬ rtc (edge_of es) b a → acyclic (edge_of (es ++ [(a, b, e)])).
Proof.
  intros Hac Hba x Hx.
  assert (tc (λ x y, edge_of es x y ∨ (x = a ∧ y = b)) x x) as Hx'.
  { eapply tc_mono; [|exact Hx]. intros ??. by rewrite edge_of_snoc. }
  apply tc_new_edge in Hx' as [Ht|[H1 H2]]; [by eapply Hac|].
  apply Hba. by etrans.
Qed.

(** ** The interface can be met: a graph as its lists of nodes and edges *)

Section ListDag.
Context {N E : Type}.

Record list_dag : Type := mkListDag {
  ld_nodes : list N;
  ld_edges : list (nat * nat * E);
}.

(** Whether [b] leads to [a]. *)
Definition ld_reaches (d : list_dag) (b a : nat) : bool :=
  bool_decide (a = b) ||
  bool_decide (a ∈ @traverse_deep nat nat _ _
    (edge_list_graph (length (ld_nodes d)) (ld_edges d).*1) b false).

Fixpoint find_index (P : nat * nat * E → bool) (l : list (nat * nat * E)) : option nat :=
  match l with
  | [] => None
  | e :: l' => if P e then Some 0 else S <$> find_index P l'
  end.

Definition ld_children (d : list_dag) (a : nat) : list (nat * nat) :=
  omap (λ '(i, (x, b, _)), if decide (x = a) then Some (i, b) else None)
    (imap pair (ld_edges d)).

#[export] Instance list_dag_ops : DagOps N E := {|
  Dag := list_dag;
  dag_new := mkListDag [] [];
  dag_add_node d n := (length (ld_nodes d), mkListDag (ld_nodes d ++ [n]) (ld_edges d));
  dag_add_edge d a b e :=
    if ld_reaches d b a then None
    else Some (length (ld_edges d), mkListDag (ld_nodes d) (ld_edges d ++ [(a, b, e)]));
  dag_find_edge d a b :=
    find_index (λ '(x, y, _), bool_decide (x = a) && bool_decide (y = b)) (ld_edges d);
  dag_node_weight d i := ld_nodes d !! i;
  dag_node_count d := length (ld_nodes d);
  dag_children := ld_children;
|}.

Definition ld_wf (d : list_dag) : Prop :=
  Forall (λ e : nat * nat * E, e.1.1 < length (ld_nodes d) ∧ e.1.2 < length (ld_nodes d))
    (ld_edges d).

Lemma ld_edge_graph d a b :
  ld_wf d →
  @graph_edge nat nat (edge_list_graph (length (ld_nodes d)) (ld_edges d).*1) Outgoing a b ↔
  edge_of (ld_edges d) a b.
Proof.
  intros Hwf. unfold graph_edge, edge_of. cbn. split.
  - intros [_ ([x y] & -> & [Hx Hin]%list_elem_of_filter)%list_elem_of_fmap]. cbn in *. subst.
    apply list_elem_of_fmap in Hin as ([[? ?] e] & [= -> ->] & ?). by exists e.
  - intros (e & He). unfold ld_wf in Hwf. rewrite Forall_forall in Hwf.
    destruct (Hwf _ He). cbn in *. split; [apply elem_of_seq; lia|].
    apply list_elem_of_fmap. exists (a, b). split; [done|].
    apply list_elem_of_filter. split; [done|].
    apply list_elem_of_fmap. by exists (a, b, e).
Qed.

Lemma ld_reaches_spec d b a :
  ld_wf d → b < length (ld_nodes d) →
  ld_reaches d b a = true ↔ rtc (edge_of (ld_edges d)) b a.
Proof.
  intros Hwf Hb. unfold ld_reaches. rewrite orb_true_iff, !bool_decide_eq_true.
  assert (GraphConnectionsOk (edge_list_graph (length (ld_nodes d)) (ld_edges d).*1)) as Hok.
  { apply edge_list_graph_ok. unfold ld_wf in Hwf. by rewrite Forall_fmap. }
  pose proof (@traverse_deep_elem nat nat _ _ _ Hok b false a) as Hel. cbn in Hel.
  rewrite Hel by (apply elem_of_seq; lia). clear Hel. split.
  - intros [->|(j & <- & Hj)]; [done|]. apply tc_rtc.
    eapply tc_mono; [|exact Hj]. intros x y. by rewrite ld_edge_graph.
  - intros [->|Hr]%rtc_tc; [by left|]. right. exists a. split; [done|].
    eapply tc_mono; [|exact Hr]. intros x y. by rewrite ld_edge_graph.
Qed.

Lemma find_index_Some P l i : find_index P l = Some i → ∃ e, l !! i = Some e ∧ P e = true.
Proof.
  revert i. induction l as [|e l IH]; intros i; cbn; [done|].
  destruct (P e) eqn:He; [intros [= <-]; by exists e|].
  intros (j & Hj & ->)%fmap_Some. by apply IH in Hj.
Qed.

Lemma find_index_None P l e : find_index P l = None → e ∈ l → P e = false.
Proof.
  induction l as [|x l IH]; cbn; [set_solver|].
  destruct (P x) eqn:Hx; [done|]. intros Hn%fmap_None [->|He]%elem_of_cons; auto.
Qed.

#[export] Instance list_dag_laws : DagLaws list_dag_ops.
Proof.
  refine {| dag_nodes := ld_nodes : Dag → _; dag_edges := ld_edges : Dag → _;
            dag_wf := ld_wf : Dag → _ |}.
  - constructor.
  - done.
  - done.
  - intros d n i d' Hwf [= <- <-]. split_and!; [|done..].
    eapply Forall_impl; [exact Hwf|]. intros [[x y] e]. cbn. rewrite length_app. cbn. lia.
  - intros d a b e i d' Hwf Ha Hb. cbn.
    destruct (ld_reaches d b a) eqn:Hr; [done|]. intros [= <- <-]. split_and!; try done.
    + apply Forall_app. split; [done|]. by repeat constructor.
    + rewrite <- ld_reaches_spec by done. by rewrite Hr.
  - intros d a b e Hwf Ha Hb. cbn.
    destruct (ld_reaches d b a) eqn:Hr; [|done]. intros _. by apply ld_reaches_spec.
  - intros d a b i Hwf. cbn. intros ([[x y] e] & He & [->%bool_decide_eq_true
      ->%bool_decide_eq_true]%andb_true_iff)%find_index_Some. by exists e.
  - intros d a b Hwf. cbn. intros Hn (e & He).
    apply (find_index_None _ _ _ Hn) in He. cbn in He. by rewrite !bool_decide_true in He.
  - done.
  - done.
  - intros d a i b Hwf. cbn. unfold ld_children. rewrite list_elem_of_omap. split.
    + intros ([j [[x y] e]] & Hj & Hd). case_decide; [|done]. simplify_eq.
      apply list_elem_of_lookup in Hj as (k & Hk). rewrite list_lookup_imap in Hk.
      destruct (ld_edges d !! k) as [[[x' y'] e']|] eqn:Hke; simplify_eq/=. by eauto.
    + intros (e & He). exists (i, (a, b, e)). split; [|by rewrite decide_True].
      apply list_elem_of_lookup. exists i. by rewrite list_lookup_imap, He.
  - intros d a b e Hwf He. cbn in *. unfold ld_wf in Hwf. rewrite Forall_forall in Hwf.
    by apply (Hwf _ He).
Defined.
End ListDag.
