(* ===== verification/DiGraph.v ===== *)
(** * Directed graphs

The graph library [petgraph], code from outside the repository, as an interface:
the calls that moon makes on a [DiGraph], and the documented behaviour it relies
on.  Nodes are numbered in the order they are added; parallel edges and cycles
are allowed. *)

From S2P Require Import Prelude GraphUtils Dag.

Class DiGraphOps (N E : Type) : Type := {
  DiGraph : Type;
  dg_new : DiGraph;
  (** [add_node(weight)], with the new index *)
  dg_add_node : DiGraph → N → nat * DiGraph;
  (** [add_edge(a, b, weight)] *)
  dg_add_edge : DiGraph → nat → nat → E → DiGraph;
  (** [update_edge(a, b, weight)]: replaces the weight of an edge that exists *)
  dg_update_edge : DiGraph → nat → nat → E → DiGraph;
  dg_node_count : DiGraph → nat;
  dg_node_weight : DiGraph → nat → option N;
  (** [graph[index] = weight], for an index of the graph *)
  dg_set_weight : DiGraph → nat → N → DiGraph;
  (** [edge_references()]: source, target and weight *)
  dg_edge_references : DiGraph → list (nat * nat * E);
  (** [neighbors_directed(index, direction)] *)
  dg_neighbors : DiGraph → nat → Direction → list nat;
  (** [find_edge(a, b)] and then [edge_weight] *)
  dg_edge_weight : DiGraph → nat → nat → option E;
  (** [has_path_connecting(&EdgeFiltered::from_fn(graph, keep), from, to)] *)
  dg_has_path : DiGraph → (E → bool) → nat → nat → bool;
}.

(** [filter_map(|index, node| .., |_, edge| Some(edge))]: the graph of the nodes
    that are kept, with new weights. *)
Class DiGraphMap {N M E} (D : DiGraphOps N E) (D' : DiGraphOps M E) : Type := {
  dg_filter_map : DiGraph (DiGraphOps := D) → (nat → N → option M) → DiGraph (DiGraphOps := D');
}.

(** The edges whose weight is kept. *)
Definition edges_where {E} (keep : E → bool) (es : list (nat * nat * E)) : list (nat * nat * E) :=
  filter (λ e, keep e.2 = true) es.

(** The next node along an edge, in a direction. *)
Definition edge_towards {E} (es : list (nat * nat * E)) (d : Direction) (a b : nat) : Prop :=
  match d with Outgoing => edge_of es a b | Incoming => edge_of es b a end.

(** What the library documents, through the nodes and the edges of a graph. *)
Class DiGraphLaws {N E} (D : DiGraphOps N E) : Type := {
  dg_nodes : DiGraph → list N;
  dg_edges : DiGraph → list (nat * nat * E);
  dg_wf : DiGraph → Prop;
  dg_new_law : dg_wf dg_new ∧ dg_nodes dg_new = [] ∧ dg_edges dg_new = [];
  dg_add_node_law : ∀ g n, dg_wf g →
    dg_wf (dg_add_node g n).2 ∧ (dg_add_node g n).1 = length (dg_nodes g) ∧
    dg_nodes (dg_add_node g n).2 = dg_nodes g ++ [n] ∧
    dg_edges (dg_add_node g n).2 = dg_edges g;
  dg_add_edge_law : ∀ g a b e, dg_wf g → a < length (dg_nodes g) → b < length (dg_nodes g) →
    dg_wf (dg_add_edge g a b e) ∧ dg_nodes (dg_add_edge g a b e) = dg_nodes g ∧
    dg_edges (dg_add_edge g a b e) = dg_edges g ++ [(a, b, e)];
  dg_update_edge_law : ∀ g a b e, dg_wf g → a < length (dg_nodes g) → b < length (dg_nodes g) →
    dg_wf (dg_update_edge g a b e) ∧ dg_nodes (dg_update_edge g a b e) = dg_nodes g ∧
    (¬ edge_of (dg_edges g) a b → dg_edges (dg_update_edge g a b e) = dg_edges g ++ [(a, b, e)]) ∧
    (∀ l1 e0 l2, dg_edges g = l1 ++ (a, b, e0) :: l2 → ¬ edge_of (l1 ++ l2) a b →
       dg_edges (dg_update_edge g a b e) = l1 ++ (a, b, e) :: l2);
  dg_node_count_law : ∀ g, dg_node_count g = length (dg_nodes g);
  dg_node_weight_law : ∀ g i, dg_node_weight g i = dg_nodes g !! i;
  dg_set_weight_law : ∀ g i n, dg_wf g → i < length (dg_nodes g) →
    dg_wf (dg_set_weight g i n) ∧ dg_nodes (dg_set_weight g i n) = <[i := n]> (dg_nodes g) ∧
    dg_edges (dg_set_weight g i n) = dg_edges g;
  dg_edge_references_law : ∀ g, dg_wf g → dg_edge_references g = dg_edges g;
  dg_neighbors_law : ∀ g i d j, dg_wf g → i < length (dg_nodes g) →
    j ∈ dg_neighbors g i d ↔ edge_towards (dg_edges g) d i j;
  dg_edge_weight_Some : ∀ g a b e, dg_wf g → dg_edge_weight g a b = Some e →
    (a, b, e) ∈ dg_edges g;
  dg_edge_weight_None : ∀ g a b, dg_wf g → dg_edge_weight g a b = None → ¬ edge_of (dg_edges g) a b;
  dg_has_path_law : ∀ g keep a b, dg_wf g → a < length (dg_nodes g) → b < length (dg_nodes g) →
    dg_has_path g keep a b = true ↔ rtc (edge_of (edges_where keep (dg_edges g))) a b;
  dg_edges_range : ∀ g a b e, dg_wf g → (a, b, e) ∈ dg_edges g →
    a < length (dg_nodes g) ∧ b < length (dg_nodes g);
}.

(** The nodes of the new graph are the kept ones of the old graph; [old] maps the
    new indexes to the old ones. *)
Class DiGraphMapLaws {N M E} {D : DiGraphOps N E} {D' : DiGraphOps M E} (F : DiGraphMap D D')
    (L : DiGraphLaws D) (L' : DiGraphLaws D') : Prop := {
  dg_filter_map_law : ∀ g f, dg_wf g → ∃ old : list nat,
    NoDup old ∧ dg_wf (dg_filter_map g f) ∧
    (∀ i, i ∈ old ↔ ∃ n, dg_nodes g !! i = Some n ∧ is_Some (f i n)) ∧
    (∀ i, dg_nodes (dg_filter_map g f) !! i =
       o ← old !! i; n ← dg_nodes g !! o; f o n) ∧
    length (dg_nodes (dg_filter_map g f)) = length old ∧
    (∀ a b e, (a, b, e) ∈ dg_edges (dg_filter_map g f) ↔
       ∃ oa ob, old !! a = Some oa ∧ old !! b = Some ob ∧ (oa, ob, e) ∈ dg_edges g);
}.

(** A [Dag] of [daggy] is a [DiGraph]: [dag.graph()]. *)
Class DagGraph {N E} (D : DagOps N E) (G : DiGraphOps N E) : Type := {
  dag_graph : Dag (DagOps := D) → DiGraph (DiGraphOps := G);
}.

Class DagGraphLaws {N E} {D : DagOps N E} {G : DiGraphOps N E} (C : DagGraph D G)
    (LD : DagLaws D) (LG : DiGraphLaws G) : Prop := {
  dag_graph_wf : ∀ d, dag_wf d → dg_wf (dag_graph d);
  dag_graph_nodes : ∀ d, dag_wf d → dg_nodes (dag_graph d) = dag_nodes d;
  dag_graph_edges : ∀ d, dag_wf d → dg_edges (dag_graph d) = dag_edges d;
}.

(** [update_edge] and [filter_map] of a [Dag]. *)
Class DagUpdate {N E} (D : DagOps N E) : Type := {
  dag_update_edge : Dag (DagOps := D) → nat → nat → E → option (nat * Dag (DagOps := D));
  (** [*node_weight_mut(index).unwrap() = weight] *)
  dag_set_weight : Dag (DagOps := D) → nat → N → Dag (DagOps := D);
}.

Class DagMap {N M E} (D : DagOps N E) (D' : DagOps M E) : Type := {
  dag_filter_map : Dag (DagOps := D) → (nat → N → option M) → Dag (DagOps := D');
}.

Class DagUpdateLaws {N E} {D : DagOps N E} (U : DagUpdate D) (L : DagLaws D) : Prop := {
  dag_set_weight_law : ∀ d i n, dag_wf d → i < length (dag_nodes d) →
    dag_wf (dag_set_weight d i n) ∧ dag_nodes (dag_set_weight d i n) = <[i := n]> (dag_nodes d) ∧
    dag_edges (dag_set_weight d i n) = dag_edges d;
  dag_update_edge_Some : ∀ d a b e i d', dag_wf d →
    a < length (dag_nodes d) → b < length (dag_nodes d) →
    dag_update_edge d a b e = Some (i, d') →
    dag_wf d' ∧ dag_nodes d' = dag_nodes d ∧
    (¬ edge_of (dag_edges d) a b →
       dag_edges d' = dag_edges d ++ [(a, b, e)] ∧ ¬ rtc (edge_of (dag_edges d)) b a) ∧
    (∀ l1 e0 l2, dag_edges d = l1 ++ (a, b, e0) :: l2 → ¬ edge_of (l1 ++ l2) a b →
       dag_edges d' = l1 ++ (a, b, e) :: l2);
  dag_update_edge_None : ∀ d a b e, dag_wf d →
    a < length (dag_nodes d) → b < length (dag_nodes d) → dag_update_edge d a b e = None →
    ¬ edge_of (dag_edges d) a b ∧ rtc (edge_of (dag_edges d)) b a;
}.

Class DagMapLaws {N M E} {D : DagOps N E} {D' : DagOps M E} (F : DagMap D D')
    (L : DagLaws D) (L' : DagLaws D') : Prop := {
  dag_filter_map_law : ∀ d f, dag_wf d → ∃ old : list nat,
    NoDup old ∧ dag_wf (dag_filter_map d f) ∧
    (∀ i, i ∈ old ↔ ∃ n, dag_nodes d !! i = Some n ∧ is_Some (f i n)) ∧
    (∀ i, dag_nodes (dag_filter_map d f) !! i =
       o ← old !! i; n ← dag_nodes d !! o; f o n) ∧
    length (dag_nodes (dag_filter_map d f)) = length old ∧
    (∀ a b e, (a, b, e) ∈ dag_edges (dag_filter_map d f) ↔
       ∃ oa ob, old !! a = Some oa ∧ old !! b = Some ob ∧ (oa, ob, e) ∈ dag_edges d);
}.

(** [petgraph::algo::toposort]: the nodes, the source of an edge before its
    target, or [None] when there is a cycle. *)
Class DiGraphSort {N E} (D : DiGraphOps N E) : Type := {
  dg_toposort : DiGraph → option (list nat);
}.

Definition dg_toposort_ok {N E} {D : DiGraphOps N E} {L : DiGraphLaws D} (S : DiGraphSort D)
    (g : DiGraph) : Prop :=
  acyclic (edge_of (dg_edges g)) →
  ∃ l, dg_toposort g = Some l ∧ NoDup l ∧ (∀ i, i ∈ l ↔ i < length (dg_nodes g)) ∧
    ∀ i a b, l !! i = Some a → edge_of (dg_edges g) a b → ∃ j, i < j ∧ l !! j = Some b.

(** ** The interface can be met: a graph as its lists of nodes and edges *)

Section ListGraph.
Context {N E : Type}.

Abbreviation edge := (nat * nat * E)%type.

Definition is_edge (a b : nat) (e : edge) : bool := bool_decide (e.1.1 = a) && bool_decide (e.1.2 = b).

(** The first edge from [a] to [b] gets the weight [w]; without one, it is added. *)
Fixpoint update_or_add (es : list edge) (a b : nat) (w : E) : list edge :=
  match es with
  | [] => [(a, b, w)]
  | e :: es' => if is_edge a b e then (a, b, w) :: es' else e :: update_or_add es' a b w
  end.

Definition lg_neighbors (g : @list_dag N E) (i : nat) (d : Direction) : list nat :=
  match d with
  | Outgoing => (filter (λ e : edge, e.1.1 = i) (ld_edges g)).*1.*2
  | Incoming => (filter (λ e : edge, e.1.2 = i) (ld_edges g)).*1.*1
  end.

#[export] Instance list_graph_ops : DiGraphOps N E := {|
  DiGraph := list_dag;
  dg_new := mkListDag [] [];
  dg_add_node g n := (length (ld_nodes g), mkListDag (ld_nodes g ++ [n]) (ld_edges g));
  dg_add_edge g a b e := mkListDag (ld_nodes g) (ld_edges g ++ [(a, b, e)]);
  dg_update_edge g a b e := mkListDag (ld_nodes g) (update_or_add (ld_edges g) a b e);
  dg_node_count g := length (ld_nodes g);
  dg_node_weight g i := ld_nodes g !! i;
  dg_set_weight g i n := mkListDag (<[i := n]> (ld_nodes g)) (ld_edges g);
  dg_edge_references := ld_edges;
  dg_neighbors := lg_neighbors;
  dg_edge_weight g a b := snd <$> List.find (is_edge a b) (ld_edges g);
  dg_has_path g keep a b := ld_reaches (mkListDag (ld_nodes g) (edges_where keep (ld_edges g))) a b;
|}.

Lemma is_edge_true a b e : is_edge a b e = true ↔ e = (a, b, e.2).
Proof.
  unfold is_edge. rewrite andb_true_iff, !bool_decide_eq_true. destruct e as [[x y] w]. cbn.
  naive_solver.
Qed.

Lemma is_edge_false es a b e : ¬ edge_of es a b → e ∈ es → is_edge a b e = false.
Proof.
  intros Hn He. destruct (is_edge a b e) eqn:H; [|done]. apply is_edge_true in H.
  destruct Hn. exists e.2. by rewrite <- H.
Qed.

Lemma update_or_add_new es a b w : ¬ edge_of es a b → update_or_add es a b w = es ++ [(a, b, w)].
Proof.
  intros Hn. induction es as [|e es IH]; [done|]. cbn.
  rewrite (is_edge_false (e :: es)) by (done || left).
  rewrite IH; [done|]. intros (w' & Hw). destruct Hn. exists w'. by right.
Qed.

Lemma update_or_add_old l1 a b w0 l2 w :
  ¬ edge_of (l1 ++ l2) a b →
  update_or_add (l1 ++ (a, b, w0) :: l2) a b w = l1 ++ (a, b, w) :: l2.
Proof.
  intros Hn. induction l1 as [|e l1 IH]; cbn.
  - by rewrite (proj2 (is_edge_true a b (a, b, w0)) eq_refl).
  - rewrite (is_edge_false (e :: l1 ++ l2)) by (done || left).
    rewrite IH; [done|]. intros (w' & Hw). destruct Hn. exists w'. by right.
Qed.

Lemma update_or_add_edges es a b w e : e ∈ update_or_add es a b w → e ∈ es ∨ e = (a, b, w).
Proof.
  induction es as [|x es IH]; cbn; [set_solver|]. destruct (is_edge a b x); set_solver.
Qed.

Lemma list_wf_edge (g : @list_dag N E) es a b e :
  ld_wf g → a < length (ld_nodes g) → b < length (ld_nodes g) →
  (∀ x, x ∈ es → x ∈ ld_edges g ∨ x = (a, b, e)) → ld_wf (mkListDag (ld_nodes g) es).
Proof.
  unfold ld_wf. intros Hwf Ha Hb Hes. rewrite Forall_forall in *. cbn. intros x Hx.
  destruct (Hes x Hx) as [?| ->]; [by apply Hwf|done].
Qed.

Lemma lg_neighbors_spec g i d j : j ∈ lg_neighbors g i d ↔ edge_towards (ld_edges g) d i j.
Proof.
  unfold lg_neighbors, edge_towards, edge_of. destruct d.
  - rewrite list_elem_of_fmap. setoid_rewrite list_elem_of_fmap.
    setoid_rewrite list_elem_of_filter. split.
    + intros ([x y] & -> & [[x' y'] e] & Hxy & Hx & He). cbn in *. simplify_eq. eauto.
    + intros (e & He). exists (i, j). split; [done|]. by exists (i, j, e).
  - rewrite list_elem_of_fmap. setoid_rewrite list_elem_of_fmap.
    setoid_rewrite list_elem_of_filter. split.
    + intros ([x y] & -> & [[x' y'] e] & Hxy & Hx & He). cbn in *. simplify_eq. eauto.
    + intros (e & He). exists (j, i). split; [done|]. by exists (j, i, e).
Qed.

#[export] Instance list_graph_laws : DiGraphLaws list_graph_ops.
Proof.
  refine {| dg_nodes := ld_nodes : DiGraph → _; dg_edges := ld_edges : DiGraph → _;
            dg_wf := ld_wf : DiGraph → _ |}.
  - repeat split. constructor.
  - intros g n Hwf. repeat split. eapply Forall_impl; [exact Hwf|].
    intros [[x y] e]. cbn. rewrite length_app. cbn. lia.
  - intros g a b e Hwf Ha Hb. repeat split. eapply (list_wf_edge g _ a b e); [done..|]. set_solver.
  - intros g a b e Hwf Ha Hb. repeat split.
    + eapply (list_wf_edge g _ a b e); [done..|]. apply update_or_add_edges.
    + apply update_or_add_new.
    + cbn. intros l1 e0 l2 -> Hn. by apply update_or_add_old.
  - done.
  - done.
  - intros g i n Hwf Hi. repeat split. unfold ld_wf in *. cbn. by rewrite length_insert.
  - done.
  - intros g i d j _ _. apply lg_neighbors_spec.
  - intros g a b e Hwf. cbn. intros (x & Hx & ->)%fmap_Some.
    apply find_some in Hx as [Hin He]. apply is_edge_true in He. rewrite <- He.
    by apply list_elem_of_In.
  - intros g a b Hwf. cbn. intros Hn%fmap_None (e & He).
    pose proof (find_none _ _ Hn (a, b, e) (proj1 (list_elem_of_In _ _) He)) as Hf.
    by rewrite (proj2 (is_edge_true a b (a, b, e)) eq_refl) in Hf.
  - intros g keep a b Hwf Ha Hb. cbn. apply ld_reaches_spec; [|done]. unfold ld_wf in *. cbn.
    rewrite Forall_forall in *. intros x [_ Hx]%list_elem_of_filter. by apply Hwf.
  - intros g a b e Hwf He. cbn in *. unfold ld_wf in Hwf. rewrite Forall_forall in Hwf.
    by apply (Hwf _ He).
Defined.
End ListGraph.

#[export] Instance list_dag_graph {N E} : DagGraph (N := N) (E := E) list_dag_ops list_graph_ops :=
  {| dag_graph d := d |}.

#[export] Instance list_dag_graph_laws {N E} :
  DagGraphLaws (N := N) (E := E) list_dag_graph list_dag_laws list_graph_laws.
Proof. by constructor. Qed.

Section ListMap.
Context {N M E : Type}.

Definition kept (g : @list_dag N E) (f : nat → N → option M) : list nat :=
  filter (λ i, is_Some (n ← ld_nodes g !! i; f i n)) (seq 0 (length (ld_nodes g))).

Fixpoint position (l : list nat) (x : nat) : option nat :=
  match l with
  | [] => None
  | y :: l' => if decide (x = y) then Some 0 else S <$> position l' x
  end.

Definition lg_filter_map (g : @list_dag N E) (f : nat → N → option M) : @list_dag M E :=
  mkListDag
    (omap (λ i, n ← ld_nodes g !! i; f i n) (kept g f))
    (omap (λ e : nat * nat * E,
       a ← position (kept g f) e.1.1; b ← position (kept g f) e.1.2; Some (a, b, e.2)) (ld_edges g)).

#[export] Instance list_graph_map : DiGraphMap (N := N) (M := M) (E := E)
    list_graph_ops list_graph_ops := {| dg_filter_map := lg_filter_map |}.

Lemma position_Some l x i : NoDup l → position l x = Some i ↔ l !! i = Some x.
Proof.
  intros Hnd. revert i. induction Hnd as [|y l Hy Hnd IH]; intros i; cbn; [done|].
  destruct (decide (x = y)) as [->|Hne].
  - destruct i as [|i]; cbn; [done|]. split; [done|]. intros Hi.
    destruct Hy. by eapply list_elem_of_lookup_2.
  - destruct i as [|i]; cbn.
    + split; [by intros (j & Hj & [=])%fmap_Some|]. congruence.
    + rewrite <- IH. destruct (position l x); cbn; [naive_solver|done].
Qed.

Lemma omap_all_lookup {A B} (f : A → option B) l i :
  Forall (λ x, is_Some (f x)) l → omap f l !! i = x ← l !! i; f x.
Proof.
  intros Hl. revert i. induction Hl as [|x l [y Hy] Hl IH]; intros i; [done|].
  cbn. rewrite Hy. destruct i as [|i]; cbn; [by rewrite Hy|apply IH].
Qed.

Lemma omap_all_length {A B} (f : A → option B) l :
  Forall (λ x, is_Some (f x)) l → length (omap f l) = length l.
Proof. induction 1 as [|x l [y Hy] Hl IH]; [done|]. cbn. by rewrite Hy, <- IH. Qed.

#[export] Instance list_graph_map_laws : DiGraphMapLaws list_graph_map list_graph_laws list_graph_laws.
Proof.
  constructor. intros g f Hwf. exists (kept g f).
  assert (NoDup (kept g f)) as Hnd by apply NoDup_filter, NoDup_seq.
  assert (Forall (λ i, is_Some (n ← ld_nodes g !! i; f i n)) (kept g f)) as Hall.
  { apply Forall_forall. by intros i [? _]%list_elem_of_filter. }
  assert (∀ a b e, (a, b, e) ∈ ld_edges (lg_filter_map g f) ↔
    ∃ oa ob, kept g f !! a = Some oa ∧ kept g f !! b = Some ob ∧ (oa, ob, e) ∈ ld_edges g) as Hes.
  { intros a b e. cbn. rewrite list_elem_of_omap. split.
    - intros ([[x y] e'] & He & Hab). cbn in Hab.
      apply bind_Some in Hab as (a' & Ha & Hab). apply bind_Some in Hab as (b' & Hb & [= -> -> ->]).
      apply position_Some in Ha, Hb; [|done..]. eauto.
    - intros (oa & ob & Ha & Hb & He). exists (oa, ob, e). split; [done|]. cbn.
      apply position_Some in Ha, Hb; [|done..]. rewrite Ha. cbn. by rewrite Hb. }
  split; [done|]. split; [|split; [|split; [|split]]].
  - apply Forall_forall. intros [[a b] e] He. apply Hes in He as (oa & ob & Ha & Hb & _). cbn.
    rewrite omap_all_length by done. split; by eapply lookup_lt_Some.
  - intros i. unfold kept. rewrite list_elem_of_filter, elem_of_seq. cbn. split.
    + intros [[m Hm] Hi]. apply bind_Some in Hm as (n & Hn & Hf). exists n. eauto.
    + intros (n & Hn & Hf). rewrite Hn. split; [done|]. apply lookup_lt_Some in Hn. lia.
  - intros i. cbn. by apply omap_all_lookup.
  - cbn. by apply omap_all_length.
  - exact Hes.
Qed.

#[export] Instance list_dag_map : DagMap (N := N) (M := M) (E := E) list_dag_ops list_dag_ops :=
  {| dag_filter_map := lg_filter_map |}.

#[export] Instance list_dag_map_laws : DagMapLaws list_dag_map list_dag_laws list_dag_laws.
Proof. constructor. exact dg_filter_map_law. Qed.
End ListMap.

#[export] Instance list_dag_update {N E} : DagUpdate (N := N) (E := E) list_dag_ops := {|
  dag_update_edge d a b e :=
    match find_index (is_edge a b) (ld_edges d) with
    | Some i => Some (i, mkListDag (ld_nodes d) (update_or_add (ld_edges d) a b e))
    | None => dag_add_edge d a b e
    end;
  dag_set_weight d i n := mkListDag (<[i := n]> (ld_nodes d)) (ld_edges d);
|}.

#[export] Instance list_dag_update_laws {N E} :
  DagUpdateLaws (N := N) (E := E) list_dag_update list_dag_laws.
Proof.
  constructor.
  - exact (dg_set_weight_law (DiGraphLaws := list_graph_laws)).
  - intros d a b e i d' Hwf Ha Hb. unfold dag_update_edge, list_dag_update.
    destruct (find_index (is_edge a b) (ld_edges d)) as [j|] eqn:Hf.
    + intros [= <- <-]. apply find_index_Some in Hf as (x & Hx & He).
      assert (edge_of (ld_edges d) a b) as Hab.
      { exists x.2. apply is_edge_true in He. rewrite <- He. by eapply list_elem_of_lookup_2. }
      destruct (dg_update_edge_law (DiGraphLaws := list_graph_laws) d a b e Hwf Ha Hb) as (H1 & H2 & _ & H4).
      split; [exact H1|]. split; [exact H2|]. split; [done|exact H4].
    + intros Hadd. destruct (dag_add_edge_Some (DagLaws := list_dag_laws) d a b e i d' Hwf Ha Hb Hadd)
        as (H1 & _ & H3 & H4 & H5). split; [done|]. split; [done|]. split; [done|].
      intros l1 e0 l2 Hl. assert (is_edge a b (a, b, e0) = false) as He.
      { apply (find_index_None _ _ _ Hf). change (ld_edges d) with (dag_edges d). rewrite Hl.
        apply elem_of_app. right. by left. }
      by rewrite (proj2 (is_edge_true a b (a, b, e0)) eq_refl) in He.
  - intros d a b e Hwf Ha Hb. unfold dag_update_edge, list_dag_update.
    destruct (find_index (is_edge a b) (ld_edges d)) as [j|] eqn:Hf; [done|]. intros Hadd. split.
    + intros (w & Hw). apply (find_index_None _ _ _ Hf) in Hw.
      by rewrite (proj2 (is_edge_true a b (a, b, w)) eq_refl) in Hw.
    + by apply (dag_add_edge_None (DagLaws := list_dag_laws)) in Hadd.
Qed.

(** ** Consequences *)

Lemma edges_where_cons {E} (keep : E → bool) e es :
  edges_where keep (e :: es) = (if keep e.2 then [e] else []) ++ edges_where keep es.
Proof.
  unfold edges_where. rewrite filter_cons. destruct (keep e.2) eqn:He; by case_decide.
Qed.

Lemma edges_where_elem {E} (keep : E → bool) es a b e :
  (a, b, e) ∈ edges_where keep es ↔ (a, b, e) ∈ es ∧ keep e = true.
Proof. unfold edges_where. rewrite list_elem_of_filter. cbn. tauto. Qed.

(** Fewer edges have fewer cycles. *)
Lemma acyclic_mono (R1 R2 : nat → nat → Prop) :
  (∀ a b, R1 a b → R2 a b) → acyclic R2 → acyclic R1.
Proof. intros HR Hac x Hx. apply (Hac x). by eapply tc_mono. Qed.

(** Cycles of a graph of renamed nodes would be cycles of the graph. *)
Lemma acyclic_rename {E} (keep : E → bool) (es es' : list (nat * nat * E)) (old : list nat) :
  (∀ x y e, (x, y, e) ∈ es' →
     ∃ ox oy, old !! x = Some ox ∧ old !! y = Some oy ∧ (ox, oy, e) ∈ es) →
  acyclic (edge_of (edges_where keep es)) → acyclic (edge_of (edges_where keep es')).
Proof.
  intros Hren Hac x Hx.
  assert (∀ y z, tc (edge_of (edges_where keep es')) y z →
    ∃ oy oz, old !! y = Some oy ∧ old !! z = Some oz ∧ tc (edge_of (edges_where keep es)) oy oz) as Htc.
  { intros y z. induction 1 as [y z (e & He)|y w z (e & He) _ (ow & oz & How & Hoz & IH)].
    - apply edges_where_elem in He as [He Hk]. destruct (Hren _ _ _ He) as (oy & oz & Hy & Hz & He').
      exists oy, oz. split_and!; [done..|]. apply tc_once. exists e. by apply edges_where_elem.
    - apply edges_where_elem in He as [He Hk]. destruct (Hren _ _ _ He) as (oy & ow' & Hy & Hw & He').
      exists oy, oz. split_and!; [done..|]. eapply tc_l; [|exact IH].
      rewrite How in Hw. injection Hw as <-. exists e. by apply edges_where_elem. }
  destruct (Htc x x Hx) as (o1 & o2 & H1 & H2 & Ht). rewrite H1 in H2. injection H2 as <-.
  by apply (Hac o1).
Qed.

Lemma edges_where_all {E} (es : list (nat * nat * E)) : edges_where (λ _, true) es = es.
Proof.
  unfold edges_where. induction es as [|e es IH]; [done|]. by rewrite filter_cons, decide_True, IH.
Qed.

Lemma acyclic_rename_all {E} (es es' : list (nat * nat * E)) (old : list nat) :
  (∀ x y e, (x, y, e) ∈ es' →
     ∃ ox oy, old !! x = Some ox ∧ old !! y = Some oy ∧ (ox, oy, e) ∈ es) →
  acyclic (edge_of es) → acyclic (edge_of es').
Proof.
  intros Hren. rewrite <- (edges_where_all es), <- (edges_where_all es'). by apply acyclic_rename with old.
Qed.

Section Graph.
Context {N E : Type} {D : DiGraphOps N E} {L : DiGraphLaws D}.
Implicit Types (g : DiGraph).

Lemma dg_add_edge_where keep g a b e :
  dg_wf g → a < length (dg_nodes g) → b < length (dg_nodes g) →
  edges_where keep (dg_edges (dg_add_edge g a b e)) =
  edges_where keep (dg_edges g) ++ (if keep e then [(a, b, e)] else []).
Proof.
  intros Hwf Ha Hb. destruct (dg_add_edge_law g a b e Hwf Ha Hb) as (_ & _ & ->).
  unfold edges_where. rewrite filter_app. f_equal. rewrite filter_cons. cbn.
  destruct (keep e); by rewrite ?decide_True, ?decide_False by done.
Qed.

(** Adding an edge that would not close a cycle among the kept edges. *)
Lemma add_edge_acyclic keep g a b e :
  dg_wf g → a < length (dg_nodes g) → b < length (dg_nodes g) →
  acyclic (edge_of (edges_where keep (dg_edges g))) →
  (keep e = true → dg_has_path g keep b a = false) →
  acyclic (edge_of (edges_where keep (dg_edges (dg_add_edge g a b e)))).
Proof.
  intros Hwf Ha Hb Hac Hp. rewrite dg_add_edge_where by done.
  destruct (keep e); [|by rewrite app_nil_r]. apply acyclic_add_edge; [done|].
  rewrite <- dg_has_path_law by done. by rewrite Hp.
Qed.
End Graph.
