(* ===== verification/NodeMaps.v ===== *)
(** * Graphs and their node stores

The project graph and the task graph both keep a [DiGraph] whose nodes are
weighted by their own index, a map from indexes to keys, and a map from keys to
nodes, and implement the traits of [crates/graph-utils] on them in the same
way. *)

From S2P Require Import Prelude GraphUtils Dag DiGraph.

(** [get_graph().node_weights()], in the order of the indexes *)
Definition node_weights_of {E} {G : DiGraphOps nat E} (graph : DiGraph) : list nat :=
  omap (dg_node_weight graph) (seq 0 (dg_node_count graph)).

(** [GraphData] and [GraphConnections]: [idx] and [val] are the fields of the
    nodes that are stored, [key] is [get_node_key].  A missing entry is a panic,
    here [absent]; a store that is [store_ok] has none. *)
Definition store_connections {K V N E} `{Countable K} {G : DiGraphOps nat E}
  (idx : V → nat) (val : V → N) (key : N → K) (absent : N)
  (graph : DiGraph) (indexes : gmap nat K) (nodes : gmap K V) : GraphConnections N K := {|
  node_weights := node_weights_of graph;
  neighbors_directed := dg_neighbors graph;
  get_node_by_index index := default absent (k ← indexes !! index; val <$> nodes !! k);
  get_node_key := key;
  get_node_index node := default 0 (idx <$> nodes !! key node);
|}.

(** A relation on indexes and the relation it is on the keys of the indexes. *)
Section Keys.
Context {K : Type} (Ri : nat → nat → Prop) (Rk : K → K → Prop) (key : gmap nat K).
Context (same : ∀ i j a b, key !! i = Some a → key !! j = Some b → Ri i j ↔ Rk a b).

Lemma tc_to_key i a j :
  (∀ x y, Ri x y → ∃ b, key !! y = Some b) → key !! i = Some a → tc Ri i j →
  ∃ b, key !! j = Some b ∧ tc Rk a b.
Proof.
  intros Hkey Ha Ht. revert a Ha. induction Ht as [i j He|i k j He Ht IH]; intros a Ha.
  - destruct (Hkey _ _ He) as [b Hb]. exists b. split; [done|]. apply tc_once. by eapply same.
  - destruct (Hkey _ _ He) as [b Hb]. destruct (IH b Hb) as (c & Hc & Hbc).
    exists c. split; [done|]. eapply tc_l; [|exact Hbc]. by eapply same.
Qed.

Lemma tc_to_index a b i :
  (∀ x y, Rk x y → ∃ j, key !! j = Some y) → key !! i = Some a → tc Rk a b →
  ∃ j, key !! j = Some b ∧ tc Ri i j.
Proof.
  intros Hkey Ha Ht. revert i Ha. induction Ht as [a b He|a b c He Ht IH]; intros i Ha.
  - destruct (Hkey _ _ He) as [j Hj]. exists j. split; [done|]. apply tc_once. by eapply same.
  - destruct (Hkey _ _ He) as [k Hk]. destruct (IH k Hk) as (j & Hj & Hkj).
    exists j. split; [done|]. eapply tc_l; [|exact Hkj]. by eapply same.
Qed.
End Keys.

Lemma omap_lookup_seq {A} (l : list A) : omap (λ i, l !! i) (seq 0 (length l)) = l.
Proof.
  apply list_eq. intros i. rewrite omap_all_lookup.
  - destruct (decide (i < length l)) as [Hi|Hi].
    + by rewrite lookup_seq_lt by done.
    + by rewrite lookup_seq_ge, lookup_ge_None_2 by lia.
  - apply Forall_forall. intros j [_ Hj]%elem_of_seq. apply lookup_lt_is_Some. lia.
Qed.

Section Store.
Context {K V N E : Type} `{Countable K} {G : DiGraphOps nat E} {LG : DiGraphLaws G}.
Context (idx : V → nat) (val : V → N) (key : N → K) (absent : N).

Lemma weights_of_nodes (graph : DiGraph) : node_weights_of graph = dg_nodes graph.
Proof.
  rewrite <- (omap_lookup_seq (dg_nodes graph)). unfold node_weights_of.
  rewrite dg_node_count_law. induction (seq 0 (length (dg_nodes graph))) as [|i l IH]; [done|].
  cbn. rewrite dg_node_weight_law. by destruct (dg_nodes graph !! i); rewrite IH.
Qed.

(** The maps describe the nodes [0 .. n - 1]: every index has a node, every node
    has one index, under its own key. *)
Record store_ok (n : nat) (indexes : gmap nat K) (nodes : gmap K V) : Prop := {
  so_range : ∀ i, is_Some (indexes !! i) ↔ i < n;
  so_index : ∀ i k, indexes !! i = Some k ↔ ∃ v, nodes !! k = Some v ∧ idx v = i;
  so_key : ∀ k v, nodes !! k = Some v → key (val v) = k;
}.

Context (n : nat) (indexes : gmap nat K) (nodes : gmap K V) (ok : store_ok n indexes nodes).

Lemma store_node i :
  i < n → ∃ k v, indexes !! i = Some k ∧ nodes !! k = Some v ∧ idx v = i ∧ key (val v) = k.
Proof.
  intros Hi. destruct (proj2 (so_range _ _ _ ok i) Hi) as [k Hk].
  destruct (proj1 (so_index _ _ _ ok i k) Hk) as (v & Hv & Hx). exists k, v.
  split_and!; [done..|]. by apply (so_key _ _ _ ok) in Hv.
Qed.

Lemma store_lookup k v : nodes !! k = Some v → indexes !! idx v = Some k ∧ idx v < n.
Proof.
  intros Hv. assert (indexes !! idx v = Some k) as Hi by (apply (so_index _ _ _ ok); eauto).
  split; [done|]. apply (so_range _ _ _ ok). eauto.
Qed.

Lemma store_index_inj i j k : indexes !! i = Some k → indexes !! j = Some k → i = j.
Proof.
  intros (v & Hv & Hi)%(so_index _ _ _ ok) (w & Hw & Hj)%(so_index _ _ _ ok). congruence.
Qed.

Lemma store_is_Some k : is_Some (nodes !! k) ↔ ∃ i, indexes !! i = Some k.
Proof.
  split.
  - intros [v Hv]. destruct (store_lookup _ _ Hv). eauto.
  - intros (i & (v & Hv & _)%(so_index _ _ _ ok)). eauto.
Qed.

(** ** The graph traits *)

Context (graph : DiGraph) (wf : dg_wf graph) (own : dg_nodes graph = seq 0 n).

Abbreviation connections := (store_connections idx val key absent graph indexes nodes).

Lemma store_length : length (dg_nodes graph) = n.
Proof. by rewrite own, length_seq. Qed.

Lemma store_weights : @node_weights _ _ connections = seq 0 n.
Proof.
  change (@node_weights _ _ connections) with (node_weights_of graph). by rewrite weights_of_nodes.
Qed.

Lemma store_weight i : i ∈ @node_weights _ _ connections ↔ i < n.
Proof. rewrite store_weights, elem_of_seq. lia. Qed.

(** The node with an index. *)
Lemma node_by_index i :
  i < n → ∃ k v, indexes !! i = Some k ∧ nodes !! k = Some v ∧ idx v = i ∧ key (val v) = k ∧
    @get_node_by_index _ _ connections i = val v.
Proof.
  intros Hi. destruct (store_node i Hi) as (k & v & H1 & H2 & H3 & H4).
  exists k, v. split_and!; [done..|]. cbn. rewrite H1. cbn. by rewrite H2.
Qed.

Lemma store_edge d i j :
  i < n → j ∈ @neighbors_directed _ _ connections i d ↔ edge_towards (dg_edges graph) d i j.
Proof. intros Hi. apply dg_neighbors_law; [done|]. by rewrite store_length. Qed.

Lemma edge_towards_range d i j : edge_towards (dg_edges graph) d i j → j < n.
Proof.
  intros He. rewrite <- store_length.
  destruct d, He as (e & He); apply dg_edges_range in He as [? ?]; done.
Qed.

(** A graph with its store keeps the promises of the graph traits. *)
Lemma store_connections_ok : GraphConnectionsOk connections.
Proof.
  constructor; setoid_rewrite store_weight.
  - intros i Hi. destruct (node_by_index i Hi) as (k & v & _ & Hn & Hx & Hk & ->).
    cbn. by rewrite Hk, Hn.
  - intros i d j Hi Hj. apply store_edge in Hj; [|done]. by eapply edge_towards_range.
  - intros i j Hi Hj. destruct (node_by_index i Hi) as (k & v & Hik & _ & _ & Hk & ->).
    destruct (node_by_index j Hj) as (l & w & Hjl & _ & _ & Hl & ->). cbn.
    rewrite Hk, Hl. intros ->. by eapply store_index_inj.
  - intros i j Hi Hj. by rewrite (store_edge Outgoing), (store_edge Incoming).
Qed.

(** [a] leads to [b] along an edge. *)
Definition key_edge (a b : K) : Prop :=
  ∃ i j, indexes !! i = Some a ∧ indexes !! j = Some b ∧ edge_of (dg_edges graph) i j.

Lemma key_edge_index i j a b :
  indexes !! i = Some a → indexes !! j = Some b → edge_of (dg_edges graph) i j ↔ key_edge a b.
Proof.
  intros Ha Hb. split; [intros He; by exists i, j|]. intros (i' & j' & Hi & Hj & He).
  by rewrite (store_index_inj i i' a Ha Hi), (store_index_inj j j' b Hb Hj).
Qed.

Lemma graph_edge_index i j :
  i < n → @graph_edge _ _ connections Outgoing i j ↔ edge_of (dg_edges graph) i j.
Proof.
  intros Hi. unfold graph_edge. rewrite store_weight, store_edge by done. cbn. tauto.
Qed.

Lemma edge_index_key i j : edge_of (dg_edges graph) i j → ∃ b, indexes !! j = Some b.
Proof.
  intros He. apply (so_range _ _ _ ok). by apply (edge_towards_range Outgoing i).
Qed.

Lemma key_edge_key a b : key_edge a b → ∃ j, indexes !! j = Some b.
Proof. intros (i & j & _ & Hj & _). eauto. Qed.

(** What a node reaches, by index and by key. *)
Lemma tc_graph_edge_key i j a b :
  indexes !! i = Some a → indexes !! j = Some b →
  tc (@graph_edge _ _ connections Outgoing) i j ↔ tc key_edge a b.
Proof.
  intros Ha Hb.
  assert (∀ x y c d, indexes !! x = Some c → indexes !! y = Some d →
    @graph_edge _ _ connections Outgoing x y ↔ key_edge c d) as Hsame.
  { intros x y c d Hc Hd. rewrite <- (key_edge_index x y) by done. apply graph_edge_index.
    apply (so_range _ _ _ ok). eauto. }
  split.
  - intros Ht. destruct (tc_to_key _ _ _ Hsame i a j) as (b' & Hb' & Hab); [|done..|congruence].
    intros x y [Hx He]. apply store_weight in Hx. apply (edge_index_key x). by apply store_edge in He.
  - intros Ht. destruct (tc_to_index _ _ _ Hsame a b i key_edge_key Ha Ht) as (j' & Hj' & Hij).
    by rewrite (store_index_inj j j' b Hb Hj').
Qed.

(** ** Ranks

In a graph without cycles, the number of nodes that a node reaches decreases
along the edges. *)

Lemma store_reaches k v x :
  nodes !! k = Some v →
  x ∈ @deep_dependencies_of N K _ _ connections (val v) ↔ tc key_edge k x.
Proof.
  intros Hv. destruct (store_lookup k v Hv) as [Hi Hlt].
  destruct (node_by_index (idx v) Hlt) as (k' & v' & Hk' & Hv' & _ & _ & Hget).
  assert (v' = v) as -> by congruence. unfold deep_dependencies_of. rewrite <- Hget.
  rewrite (@traverse_deep_elem N K _ _ connections store_connections_ok (idx v) false x)
    by (by apply store_weight). cbn [direction_of]. split.
  - intros (j & Hj & Ht).
    assert (j ∈ @node_weights _ _ connections) as Hjn.
    { pose proof store_connections_ok as Hc. eapply (tc_graph_edge_node (G := connections)); [|exact Ht].
      by apply store_weight. }
    apply store_weight in Hjn. destruct (node_by_index j Hjn) as (kj & vj & Hkj & _ & _ & Hkey & Hg).
    assert (kj = x) as -> by (rewrite <- Hj, <- Hkey, <- Hg; done).
    by apply (tc_graph_edge_key (idx v) j k x).
  - intros Ht. destruct (tc_to_index (edge_of (dg_edges graph)) key_edge indexes
      key_edge_index k x (idx v) key_edge_key Hi Ht) as (j & Hj & _). exists j. split.
    + assert (j < n) as Hjn by (apply (so_range _ _ _ ok); eauto).
      destruct (node_by_index j Hjn) as (kj & vj & Hkj & _ & _ & Hkey & Hg).
      unfold node_key. rewrite Hg. cbn. congruence.
    + by apply (tc_graph_edge_key (idx v) j k x).
Qed.

Lemma store_reaches_NoDup k v :
  nodes !! k = Some v → NoDup (@deep_dependencies_of N K _ _ connections (val v)).
Proof.
  intros Hv. destruct (store_lookup k v Hv) as [Hi Hlt].
  destruct (node_by_index (idx v) Hlt) as (k' & v' & Hk' & Hv' & _ & _ & Hget).
  assert (v' = v) as -> by congruence. unfold deep_dependencies_of, traverse_deep. rewrite <- Hget.
  destruct (@traverse_deep_fuel_spec N K _ _ connections store_connections_ok (idx v) false)
    as (ks & -> & Hnd & _); [by apply store_weight|done].
Qed.

Definition store_rank (k : K) : nat :=
  match nodes !! k with
  | Some v => length (@deep_dependencies_of N K _ _ connections (val v))
  | None => 0
  end.

Context (acy : acyclic (edge_of (dg_edges graph))).

Lemma key_edge_acyclic k : ¬ tc key_edge k k.
Proof.
  intros Ht. assert (∃ i, indexes !! i = Some k) as [i Hi].
  { destruct (tc_last _ _ _ Ht) as (y & _ & He). by eapply key_edge_key. }
  destruct (tc_to_index (edge_of (dg_edges graph)) key_edge indexes key_edge_index k k i
    key_edge_key Hi Ht) as (j & Hj & Hij).
  rewrite (store_index_inj j i k Hj Hi) in Hij. by apply (acy i).
Qed.

Lemma store_rank_decr a b : key_edge a b → store_rank b < store_rank a.
Proof.
  intros Hab. unfold store_rank.
  assert (is_Some (nodes !! a) ∧ is_Some (nodes !! b)) as [[va Ha] [vb Hb]].
  { destruct Hab as (i & j & Hi & Hj & _). split; apply store_is_Some; eauto. }
  rewrite Ha, Hb.
  set (la := @deep_dependencies_of N K _ _ connections (val va)).
  set (lb := @deep_dependencies_of N K _ _ connections (val vb)).
  assert (length (b :: lb) ≤ length la) as Hle; [|cbn in Hle; lia].
  apply submseteq_length, NoDup_submseteq.
  - constructor; [|by apply (store_reaches_NoDup b)].
    intros Hin. apply (store_reaches b vb b Hb) in Hin. by apply (key_edge_acyclic b).
  - intros x [->|Hx]%elem_of_cons; apply (store_reaches a va _ Ha); [by apply tc_once|].
    apply (store_reaches b vb x Hb) in Hx. by eapply tc_l.
Qed.

Lemma store_rank_bound k : store_rank k ≤ n.
Proof.
  unfold store_rank. destruct (nodes !! k) as [v|] eqn:Hv; [|lia].
  set (l := @deep_dependencies_of N K _ _ connections (val v)).
  assert (NoDup l) as Hnd by (by apply (store_reaches_NoDup k)).
  assert (∃ ixs, Forall2 (λ x i, indexes !! i = Some x) l ixs) as [ixs His].
  { assert (∀ x, x ∈ l → ∃ i, indexes !! i = Some x) as Hl.
    { intros x Hx. apply (store_reaches k v x Hv) in Hx. destruct (tc_last _ _ _ Hx) as (y & _ & He).
      by eapply key_edge_key. }
    clear Hnd. revert Hl. generalize l as m. clear l Hv. induction m as [|x l IH]; intros Hl; [by exists []|].
    destruct (Hl x) as [i Hi]; [by left|]. destruct IH as [ixs His]; [intros; apply Hl; by right|].
    exists (i :: ixs). by constructor. }
  rewrite (Forall2_length _ _ _ His). trans (length (seq 0 n)); [|by rewrite length_seq].
  apply submseteq_length, NoDup_submseteq.
  - clear -Hnd His. induction His as [|x i l ixs Hi His IH]; [constructor|].
    apply NoDup_cons in Hnd as [Hx Hnd]. constructor; [|by apply IH].
    intros (m & Hm)%list_elem_of_lookup. destruct (Forall2_lookup_r _ _ _ _ _ His Hm) as (y & Hy & Hyi).
    destruct Hx. rewrite Hi in Hyi. injection Hyi as ->. by eapply list_elem_of_lookup_2.
  - intros i (m & Hm)%list_elem_of_lookup. destruct (Forall2_lookup_r _ _ _ _ _ His Hm) as (y & _ & Hyi).
    apply elem_of_seq. split; [lia|]. apply (so_range _ _ _ ok). eauto.
Qed.
End Store.
