(* ===== verification/ProjectGraph.v ===== *)
(** * The project graph ([crates/project-graph], [crates/project-expander])

The graph of the projects of a workspace: the union of all dependency edges, and
its two partitions by the scope of the edges, each of them acyclic.  Projects are
looked up by identifier, alias or path; what was expanded or searched before is
kept in caches that a graph shares with the graphs that are focused from it. *)

From stdpp Require Import pretty.
From S2P Require Import Prelude Errors FileSystem Target GraphUtils Config Dag DiGraph NodeMaps.

(** ** Data *)

(** [ScopePartition] *)
Inductive ScopePartition : Type := PProduction | PDevelopment.

#[export] Instance ScopePartition_eq_dec : EqDecision ScopePartition.
Proof. solve_decision. Defined.

Definition ScopePartition_of (scope : DependencyScope) : ScopePartition :=
  if is_production_group scope then PProduction else PDevelopment.

(** [would_cycle_in_scope] *)
Definition would_cycle_in_scope {N} {D : DiGraphOps N DependencyScope} (g : DiGraph)
  (source target : nat) (scope : DependencyScope) : bool :=
  let partition := is_production_group scope in
  dg_has_path g (λ edge, Bool.eqb (is_production_group edge) partition) target source.

(** [ProjectNode] *)
Record ProjectNode : Type := mkProjectNode {
  pn_index : nat;
  pn_project : Project;
}.

(** [ProjectGraph], without its caches; of the context the graph reads the
    workspace root and the working directory. *)
Record ProjectGraph {G : DiGraphOps nat DependencyScope} {D : DagOps nat DependencyScope} : Type :=
  mkProjectGraph {
  pg_workspace_root : Path;
  pg_working_dir : Path;
  pg_aliases : gmap string Id;
  pg_default_id : option Id;
  pg_graph : DiGraph;
  pg_production_graph : Dag;
  pg_development_graph : Dag;
  pg_indexes : gmap nat Id;
  pg_nodes : gmap Id ProjectNode;
}.
Arguments ProjectGraph : clear implicits.

(** The caches [fs_cache] and [projects], behind [Arc]s. *)
Record ProjectCaches : Type := mkProjectCaches {
  fs_cache : gmap Path Id;
  cached_projects : gmap Id Project;
}.

(** ** Expanding a project ([ProjectExpander]) *)

Definition set_dependencies (p : Project) (deps : list ProjectDependencyConfig) : Project :=
  mkProject (p_aliases p) (p_config p) deps (p_file_groups p) (p_id p) (p_language p) (p_layer p) (p_root p)
    (p_source p) (p_stack p) (p_task_targets p) (p_tasks p) (p_toolchains p).

(** The body of the loop of [expand_deps]. *)
Definition expand_dep (aliases : gmap string Id) (depends_on : gmap Id ProjectDependencyConfig)
  (dep_config : ProjectDependencyConfig) : gmap Id ProjectDependencyConfig :=
  let new_dep_id := default (pdep_id dep_config) (aliases !! pdep_id dep_config) in
  <[new_dep_id := mkProjectDep new_dep_id (pdep_scope dep_config)]> depends_on.

(** [ProjectExpander::expand] *)
Definition ProjectExpander_expand (aliases : gmap string Id) (project : Project) : Project :=
  set_dependencies project
    (map_to_list (fold_left (expand_dep aliases) (p_dependencies project) ∅)).*2.

Section Graph.
Context {G : DiGraphOps nat DependencyScope} {D : DagOps nat DependencyScope} `{!RelativeTo}.
Implicit Types (g : ProjectGraph G D).

(** [ProjectGraph::new], as [Default] fills it in *)
Definition ProjectGraph_new (workspace_root working_dir : Path) : ProjectGraph G D :=
  mkProjectGraph _ _ workspace_root working_dir ∅ None dg_new dag_new dag_new ∅ ∅.

Definition ProjectCaches_new : ProjectCaches := mkProjectCaches ∅ ∅.

Definition pg_with_graphs g (graph : DiGraph) (production development : Dag) : ProjectGraph G D :=
  mkProjectGraph _ _ (pg_workspace_root g) (pg_working_dir g) (pg_aliases g) (pg_default_id g)
    graph production development (pg_indexes g) (pg_nodes g).

(** ** Lookups *)

(** [resolve_id] *)
Definition resolve_id g (id_or_alias : string) : Id :=
  if decide (is_Some (pg_nodes g !! id_or_alias)) then id_or_alias
  else default id_or_alias (pg_aliases g !! id_or_alias).

(** [get_unexpanded] *)
Definition get_unexpanded g (id_or_alias : string) : result Project :=
  let id := resolve_id g id_or_alias in
  let? node := ok_or (pg_nodes g !! id) (RProjectGraph (UnconfiguredID id)) in
  Ok (pn_project node).

(** [internal_get], and [get] *)
Definition ProjectGraph_get g (id_or_alias : string) : stateful ProjectCaches Project := λ c,
  let id := resolve_id g id_or_alias in
  match cached_projects c !! id with
  | Some project => (Ok project, c)
  | None =>
      match get_unexpanded g id with
      | Ok p =>
          let project := ProjectExpander_expand (pg_aliases g) p in
          (Ok project, mkProjectCaches (fs_cache c) (<[id := project]> (cached_projects c)))
      | Err e => (Err e, c)
      | OutOfFuel => (OutOfFuel, c)
      end
  end.

(** [get_all], [get_all_unexpanded] *)
Definition ProjectGraph_get_all g : stateful ProjectCaches (list Project) :=
  stateful_map (ProjectGraph_get g) (map_to_list (pg_nodes g)).*1.

Definition get_all_unexpanded g : list Project := pn_project <$> (map_to_list (pg_nodes g)).*2.

(** [get_default] *)
Definition get_default g : stateful ProjectCaches Project :=
  match pg_default_id g with
  | Some id => ProjectGraph_get g id
  | None => pure_result (Err (RProjectGraph NoDefaultProject))
  end.

(** The loop of [internal_search]: the number of components that are left, and
    the identifier that was found. *)
Fixpoint search_nodes (search : Path) (nodes : list (Id * ProjectNode))
  (remaining_length : nat) (possible_id : Id) : Id :=
  match nodes with
  | [] => possible_id
  | (id, node) :: nodes' =>
      let source := path_components (p_source (pn_project node)) in
      if path_has_prefix source search then
        match relative_to search source with
        | Some diff =>
            if decide (length diff = 0) then id
            else if length diff <? remaining_length
            then search_nodes search nodes' (length diff) id
            else search_nodes search nodes' remaining_length possible_id
        | None => search_nodes search nodes' remaining_length possible_id
        end
      else search_nodes search nodes' remaining_length possible_id
  end.

(** [internal_search] *)
Definition internal_search g (search : Path) : stateful ProjectCaches Id := λ c,
  match fs_cache c !! search with
  | Some id => (Ok id, c)
  | None =>
      let possible_id := search_nodes search (map_to_list (pg_nodes g)) 1000 "" in
      if decide (possible_id = ""%string)
      then (Err (RProjectGraph (MissingFromPath (str_join "/" search))), c)
      else (Ok possible_id,
            mkProjectCaches (<[search := possible_id]> (fs_cache c)) (cached_projects c))
  end.

(** [get_from_path] *)
Definition get_from_path g (starting_file : option Path) : stateful ProjectCaches Project :=
  let current_file := default (pg_working_dir g) starting_file in
  let file :=
    if decide (current_file = pg_workspace_root g) then ["."%string]
    else default current_file (path_strip_prefix (pg_workspace_root g) current_file) in
  id ← internal_search g file;
  ProjectGraph_get g id.

(** ** Partitions *)

(** [label_index] *)
Definition label_index g (index : nat) : string :=
  default (pretty index) (pg_indexes g !! index).

(** The nodes of a partition: the indexes of the graph. *)
Definition mirror_nodes (count : nat) : Dag :=
  fold_left (λ dag index, (dag_add_node dag index).2) (seq 0 count) dag_new.

(** The body of the loop over the edges of [set_graph]. *)
Definition route_edge g (graphs : Dag * Dag) (edge : nat * nat * DependencyScope) :
  result (Dag * Dag) :=
  let '(production, development) := graphs in
  let '(source, target, scope) := edge in
  let would_cycle := RProjectGraph (PG_WouldCycle (label_index g source) (label_index g target)) in
  if is_production_group scope then
    let? ' (_, production') := ok_or (dag_add_edge production source target scope) would_cycle in
    Ok (production', development)
  else
    let? ' (_, development') := ok_or (dag_add_edge development source target scope) would_cycle in
    Ok (production, development').

(** [for index in 0..graph.node_count() { graph[index] = index; }] *)
Definition rewrite_weights (graph : DiGraph) : DiGraph :=
  fold_left (λ graph index, dg_set_weight graph index index) (seq 0 (dg_node_count graph)) graph.

(** [set_graph] *)
Definition set_graph g (graph : DiGraph) : result (ProjectGraph G D) :=
  let graph := rewrite_weights graph in
  let nodes := mirror_nodes (dg_node_count graph) in
  let? ' (production, development) :=
    ofold (route_edge g) (nodes, nodes) (dg_edge_references graph) in
  Ok (pg_with_graphs g graph production development).

Section Partitions.
Context `{!DagGraph D G, !DiGraphSort G}.

(** [partitioned_graph], [production_graph], [development_graph] *)
Definition partitioned_graph g (partition : ScopePartition) : DiGraph :=
  dag_graph (match partition with
             | PProduction => pg_production_graph g
             | PDevelopment => pg_development_graph g
             end).

Definition production_graph g : DiGraph := partitioned_graph g PProduction.
Definition development_graph g : DiGraph := partitioned_graph g PDevelopment.

(** [self.indexes[&index].clone()], for every index *)
Definition ids_of g (indexes : list nat) : result (list Id) :=
  omap_list (λ index, index_or_panic (pg_indexes g !! index)) indexes.

(** [self.nodes[&project.id].index] *)
Definition index_of g (project : Project) : result nat :=
  let? node := index_or_panic (pg_nodes g !! p_id project) in Ok (pn_index node).

(** [partitioned_toposort]; a cycle is a panic. *)
Definition partitioned_toposort g (partition : ScopePartition) : result (list Id) :=
  let? indices := ok_or (dg_toposort (partitioned_graph g partition))
    (Foreign "Partitioned graphs are always acyclic!") in
  ids_of g (reverse indices).

(** [partitioned_neighbors_of] *)
Definition partitioned_neighbors_of g (project : Project) (partition : ScopePartition)
  (direction : Direction) : result (list Id) :=
  let? index := index_of g project in
  ids_of g (dg_neighbors (partitioned_graph g partition) index direction).

(** The loops of [partitioned_traverse].  The inner one goes over the neighbours
    of a node and returns the new [visited], [results] and [queue]; the results
    are kept as indexes, and looked up at the end. *)
Definition visit_neighbor (s : gset nat * list nat * list nat) (next_index : nat) :
  gset nat * list nat * list nat :=
  let '(visited, results, queue) := s in
  if decide (next_index ∈ visited) then s
  else ({[next_index]} ∪ visited, results ++ [next_index], queue ++ [next_index]).

Fixpoint traverse_partition (fuel : nat) (graph : DiGraph) (direction : Direction)
  (s : gset nat * list nat * list nat) : result (list nat) :=
  match fuel with
  | 0 => OutOfFuel
  | S fuel' =>
      let '(visited, results, queue) := s in
      match queue with
      | [] => Ok results
      | index :: queue' =>
          traverse_partition fuel' graph direction
            (fold_left visit_neighbor (dg_neighbors graph index direction)
               (visited, results, queue'))
      end
  end.

(** [partitioned_traverse]: a node enters the queue once. *)
Definition partitioned_traverse g (project : Project) (partition : ScopePartition)
  (direction : Direction) : result (list Id) :=
  let graph := partitioned_graph g partition in
  let? start := index_of g project in
  let? results := traverse_partition (S (S (dg_node_count graph))) graph direction
    ({[start]}, [], [start]) in
  ids_of g results.

(** [partitioned_dependencies_of], [partitioned_dependents_of],
    [partitioned_deep_dependencies_of], [partitioned_deep_dependents_of] *)
Definition partitioned_dependencies_of g project partition : result (list Id) :=
  partitioned_neighbors_of g project partition Outgoing.
Definition partitioned_dependents_of g project partition : result (list Id) :=
  partitioned_neighbors_of g project partition Incoming.
Definition partitioned_deep_dependencies_of g project partition : result (list Id) :=
  partitioned_traverse g project partition Outgoing.
Definition partitioned_deep_dependents_of g project partition : result (list Id) :=
  partitioned_traverse g project partition Incoming.
End Partitions.

(** ** The graph traits *)

Definition no_project : Project :=
  mkProject [] ProjectConfig_default [] [] "" UnknownLanguage UnknownLayer "" "" UnknownStack
    [] [] [].

(** [GraphData] and [GraphConnections] for [ProjectGraph] *)
Definition project_connections g : GraphConnections Project Id :=
  store_connections pn_index pn_project p_id no_project (pg_graph g) (pg_indexes g) (pg_nodes g).

(** [dependencies_of], [dependents_of] of the trait, on projects *)
Definition pg_dependencies_of g (p : Project) : list Id :=
  @dependencies_of Project Id (project_connections g) p.
Definition pg_dependents_of g (p : Project) : list Id :=
  @dependents_of Project Id (project_connections g) p.

(** ** Focus *)

Section Focus.
Context `{!DiGraphMap G G}.

(** [to_focused_graph]: the nodes that [focused_nodes] keeps. *)
Definition to_focused_graph g (focus_node : Project) (with_dependents : bool) : DiGraph :=
  let focused := @focused_nodes Project Id _ _ (project_connections g) focus_node with_dependents in
  dg_filter_map (pg_graph g) (λ _ node, if decide (node ∈ focused) then Some node else None).

(** The maps and the graph that the loop over the nodes of [focus_for] fills. *)
Definition focus_node_step g (s : gmap nat Id * gmap Id ProjectNode * DiGraph)
  (node : nat * nat) : result (gmap nat Id * gmap Id ProjectNode * DiGraph) :=
  let '(indexes, projects, graph) := s in
  let '(new_index, old_index) := node in
  let? id := index_or_panic (pg_indexes g !! old_index) in
  let? old := index_or_panic (pg_nodes g !! id) in
  Ok (<[new_index := id]> indexes,
      <[id := mkProjectNode new_index (pn_project old)]> projects,
      (dg_add_node graph new_index).2).

(** [focus_for], after the lookup of the project *)
Definition focus_on g (project : Project) (with_dependents : bool) : result (ProjectGraph G D) :=
  let focused_graph := to_focused_graph g project with_dependents in
  let? ' (indexes, projects, graph) :=
    ofold (focus_node_step g) (∅, ∅, dg_new) (imap pair (node_weights_of focused_graph)) in
  let graph :=
    fold_left (λ graph '(source, target, scope), dg_update_edge graph source target scope)
      (dg_edge_references focused_graph) graph in
  let aliases := filter (λ '(_, id), is_Some (projects !! id)) (pg_aliases g) in
  let focused := mkProjectGraph _ _ (pg_workspace_root g) (pg_working_dir g) aliases
    (pg_default_id g) dg_new dag_new dag_new indexes projects in
  set_graph focused graph.

(** [focus_for] *)
Definition focus_for g (id_or_alias : Id) (with_dependents : bool) :
  stateful ProjectCaches (ProjectGraph G D) :=
  project ← ProjectGraph_get g id_or_alias;
  pure_result (focus_on g project with_dependents).
End Focus.
End Graph.
