(* ===== verification/ProjectGraphFacts.v ===== *)
(** * Properties of the project graph

The partitions of the graph, its lookups and their caches, the graph traits it
implements, and the graphs that are focused from it. *)

From S2P Require Import Prelude Errors FileSystem Target GraphUtils Config Dag DiGraph NodeMaps ProjectGraph.

(** The edges of a partition. *)
Definition in_partition (production : bool) (scope : DependencyScope) : bool :=
  Bool.eqb (is_production_group scope) production.

Abbreviation scoped b es := (edges_where (in_partition b) es).

Lemma edge_of_app {E} (l1 l2 : list (nat * nat * E)) a b : edge_of l1 a b → edge_of (l1 ++ l2) a b.
Proof. intros (e & He). exists e. apply elem_of_app. by left. Qed.

Section Facts.
Context {G : DiGraphOps nat DependencyScope} {D : DagOps nat DependencyScope}.
Context {LG : DiGraphLaws G} {LD : DagLaws D}.
Implicit Types (g : ProjectGraph G D).

(** ** [set_graph] *)

Lemma mirror_nodes_ok count :
  dag_wf (mirror_nodes count) ∧ dag_nodes (mirror_nodes count) = seq 0 count ∧
  dag_edges (mirror_nodes count) = [].
Proof.
  unfold mirror_nodes. induction count as [|n IH].
  - cbn. by rewrite dag_new_nodes, dag_new_edges; auto using dag_new_wf.
  - rewrite seq_S, fold_left_app. cbn. destruct IH as (Hwf & Hns & Hes).
    destruct (dag_add_node _ n) as [i d'] eqn:Ha.
    destruct (dag_add_node_law _ _ _ _ Hwf Ha) as (? & _ & Hn & He). cbn.
    by rewrite Hn, He, Hns, Hes.
Qed.

Lemma rewrite_weights_ok graph :
  dg_wf graph →
  dg_wf (rewrite_weights graph) ∧
  dg_nodes (rewrite_weights graph) = seq 0 (length (dg_nodes graph)) ∧
  dg_edges (rewrite_weights graph) = dg_edges graph.
Proof.
  intros Hwf. unfold rewrite_weights. rewrite dg_node_count_law.
  assert (∀ n, n ≤ length (dg_nodes graph) →
    let h := fold_left (λ graph index, dg_set_weight graph index index) (seq 0 n) graph in
    dg_wf h ∧ dg_nodes h = seq 0 n ++ drop n (dg_nodes graph) ∧ dg_edges h = dg_edges graph) as H.
  { induction n as [|n IH]; intros Hn; cbn zeta; [done|].
    rewrite seq_S, Nat.add_0_l, fold_left_app. cbn [fold_left].
    destruct (IH ltac:(lia)) as (Hw & Hns & Hes). set (h := fold_left _ _ _) in *.
    assert (n < length (dg_nodes h)) as Hlt by (rewrite Hns, length_app, length_seq, length_drop; lia).
    destruct (dg_set_weight_law h n n Hw Hlt) as (? & -> & ->). split; [done|]. split; [|done].
    rewrite Hns, insert_app_r_alt by (rewrite length_seq; lia). rewrite length_seq, Nat.sub_diag.
    destruct (drop n (dg_nodes graph)) as [|x l] eqn:Hd.
    { apply (f_equal length) in Hd. rewrite length_drop in Hd. cbn in Hd. lia. }
    cbn. rewrite <- (assoc_L (++)). cbn. repeat f_equal.
    apply (f_equal (drop 1)) in Hd. rewrite drop_drop in Hd. cbn in Hd.
    by replace (n + 1) with (S n) in Hd by lia. }
  destruct (H _ (le_n _)) as (? & -> & ->). rewrite drop_all, app_nil_r. done.
Qed.

(** Both partitions, with the nodes [0 .. n - 1]. *)
Definition graphs_ok (n : nat) (graphs : Dag * Dag) : Prop :=
  dag_wf graphs.1 ∧ dag_wf graphs.2 ∧
  dag_nodes graphs.1 = seq 0 n ∧ dag_nodes graphs.2 = seq 0 n ∧
  acyclic (edge_of (dag_edges graphs.1)) ∧ acyclic (edge_of (dag_edges graphs.2)).

(** The partition an edge with the scope [scope] is routed to. *)
Definition graph_for (graphs : Dag * Dag) (production : bool) : Dag :=
  if production then graphs.1 else graphs.2.

Lemma route_edge_spec g n graphs a b scope :
  graphs_ok n graphs → a < n → b < n →
  match route_edge g graphs (a, b, scope) with
  | Ok graphs' => graphs_ok n graphs' ∧
      ∀ p, dag_edges (graph_for graphs' p) =
           dag_edges (graph_for graphs p) ++ scoped p [(a, b, scope)]
  | Err e => e = RProjectGraph (PG_WouldCycle (label_index g a) (label_index g b)) ∧
      rtc (edge_of (dag_edges (graph_for graphs (is_production_group scope)))) b a
  | OutOfFuel => False
  end.
Proof.
  destruct graphs as [p d]. intros (Hp & Hd & Hnp & Hnd & Hap & Had) Ha Hb. cbn in *.
  assert (∀ b0, scoped b0 [(a, b, scope)] =
    if Bool.eqb (is_production_group scope) b0 then [(a, b, scope)] else []) as Hs.
  { intros b0. rewrite edges_where_cons. unfold in_partition. cbn.
    destruct (Bool.eqb _ _); done. }
  destruct (is_production_group scope); cbn in *.
  - destruct (dag_add_edge p a b scope) as [[i p']|] eqn:He; cbn.
    + apply dag_add_edge_Some in He as (? & _ & Hn & Hes & Hr); [|rewrite ?Hnp, ?length_seq; done..].
      split; [unfold graphs_ok; cbn; rewrite Hes, Hn; split_and!; auto using acyclic_add_edge|].
      intros [|]; cbn; rewrite Hs; cbn; [done|by rewrite app_nil_r].
    + split; [done|]. by eapply dag_add_edge_None in He; [|rewrite ?Hnp, ?length_seq; done..].
  - destruct (dag_add_edge d a b scope) as [[i d']|] eqn:He; cbn.
    + apply dag_add_edge_Some in He as (? & _ & Hn & Hes & Hr); [|rewrite ?Hnd, ?length_seq; done..].
      split; [unfold graphs_ok; cbn; rewrite Hes, Hn; split_and!; auto using acyclic_add_edge|].
      intros [|]; cbn; rewrite Hs; cbn; [by rewrite app_nil_r|done].
    + split; [done|]. by eapply dag_add_edge_None in He; [|rewrite ?Hnd, ?length_seq; done..].
Qed.

(** The loop over the edges. *)
Lemma route_edges_spec g n es graphs :
  graphs_ok n graphs → Forall (λ e, e.1.1 < n ∧ e.1.2 < n) es →
  match ofold (route_edge g) graphs es with
  | Ok graphs' => graphs_ok n graphs' ∧
      ∀ p, dag_edges (graph_for graphs' p) = dag_edges (graph_for graphs p) ++ scoped p es
  | Err e => ∃ a b scope, (a, b, scope) ∈ es ∧
      e = RProjectGraph (PG_WouldCycle (label_index g a) (label_index g b)) ∧
      ¬ acyclic (edge_of (dag_edges (graph_for graphs (is_production_group scope)) ++
                          scoped (is_production_group scope) es))
  | OutOfFuel => False
  end.
Proof.
  intros Hok Hes. revert graphs Hok. induction Hes as [|[[a b] scope] es [Ha Hb] Hes IH];
    intros graphs Hok.
  - cbn. split; [done|]. intros p. by rewrite app_nil_r.
  - cbn in Ha, Hb. cbn [ofold]. pose proof (route_edge_spec g n graphs a b scope Hok Ha Hb) as Hr.
    destruct (route_edge g graphs (a, b, scope)) as [graphs'|e|]; cbn [obind]; [|..|done].
    + destruct Hr as [Hok' He]. specialize (IH _ Hok'). destruct (ofold _ graphs' es) as [fin|e|].
      * destruct IH as [Hfin Hf]. split; [done|]. intros p.
        rewrite Hf, He, (edges_where_cons _ (a, b, scope) es), <- (assoc_L (++)).
        by rewrite edges_where_cons, app_nil_r.
      * destruct IH as (x & y & s & Hin & -> & Hc). exists x, y, s.
        split; [by right|]. split; [done|]. rewrite He in Hc.
        rewrite (edges_where_cons _ (a, b, scope) es), (assoc_L (++)).
        by rewrite edges_where_cons, app_nil_r in Hc.
      * done.
    + destruct Hr as [-> Hr]. exists a, b, scope. split; [left|]. split; [done|].
      intros Hac. apply (Hac a). eapply tc_rtc_r.
      * apply tc_once. exists scope. apply elem_of_app. right.
        apply edges_where_elem. split; [left|]. unfold in_partition. apply Bool.eqb_reflx.
      * eapply rtc_subrel; [|exact Hr]. intros x y. apply edge_of_app.
Qed.

(** The graphs of [g] are [graph] and its two partitions. *)
Record graphs_of g (graph : DiGraph) : Prop := {
  go_wf : dg_wf (pg_graph g);
  go_nodes : dg_nodes (pg_graph g) = seq 0 (length (dg_nodes graph));
  go_edges : dg_edges (pg_graph g) = dg_edges graph;
  go_partitions : graphs_ok (length (dg_nodes graph)) (pg_production_graph g, pg_development_graph g);
  go_production : dag_edges (pg_production_graph g) = scoped true (dg_edges graph);
  go_development : dag_edges (pg_development_graph g) = scoped false (dg_edges graph);
}.

Lemma set_graph_ok g graph :
  dg_wf graph →
  match set_graph g graph with
  | Ok g' => graphs_of g' graph ∧
      g' = pg_with_graphs g (pg_graph g') (pg_production_graph g') (pg_development_graph g')
  | Err e => ∃ a b scope, (a, b, scope) ∈ dg_edges graph ∧
      e = RProjectGraph (PG_WouldCycle (label_index g a) (label_index g b)) ∧
      ¬ acyclic (edge_of (scoped (is_production_group scope) (dg_edges graph)))
  | OutOfFuel => False
  end.
Proof.
  intros Hwf. unfold set_graph. destruct (rewrite_weights_ok _ Hwf) as (Hw & Hn & He).
  rewrite dg_node_count_law, Hn, length_seq, dg_edge_references_law, He by done.
  destruct (mirror_nodes_ok (length (dg_nodes graph))) as (Hmw & Hmn & Hme).
  set (n := length (dg_nodes graph)) in *.
  assert (graphs_ok n (mirror_nodes n, mirror_nodes n)) as Hok.
  { unfold graphs_ok. cbn. rewrite Hme. split_and!; try done.
    all: intros x Hx; inversion Hx as [? ? [? ?]|? ? ? [? ?]]; set_solver. }
  assert (Forall (λ e, e.1.1 < n ∧ e.1.2 < n) (dg_edges graph)) as Hr.
  { apply Forall_forall. intros [[a b] s] Hin. by eapply dg_edges_range. }
  pose proof (route_edges_spec g n _ _ Hok Hr) as Hs.
  destruct (ofold (route_edge g) (mirror_nodes n, mirror_nodes n) (dg_edges graph))
    as [[p d]|e|]; cbn.
  - destruct Hs as [Hfin Hed]. split; [|done]. pose proof (Hed true) as H1. pose proof (Hed false) as H2.
    cbn in H1, H2. rewrite Hme in H1, H2. by constructor.
  - destruct Hs as (a & b & s & Hin & -> & Hc). exists a, b, s. split; [done|]. split; [done|].
    by destruct (is_production_group s); cbn in Hc; rewrite Hme in Hc.
  - done.
Qed.

(** ** The maps of the graph *)

Abbreviation maps_ok := (store_ok pn_index pn_project p_id).

(** A project graph after [set_graph]. *)
Record pg_ok g : Prop := {
  pg_ok_graphs : graphs_of g (pg_graph g);
  pg_ok_maps : maps_ok (length (dg_nodes (pg_graph g))) (pg_indexes g) (pg_nodes g);
}.

Lemma set_graph_pg_ok g graph g' :
  dg_wf graph → maps_ok (length (dg_nodes graph)) (pg_indexes g) (pg_nodes g) →
  set_graph g graph = Ok g' → pg_ok g'.
Proof.
  intros Hwf Hm Hs. pose proof (set_graph_ok g graph Hwf) as H. rewrite Hs in H.
  destruct H as [[Hw Hn He Hp Hpe Hde] Heq].
  assert (length (dg_nodes (pg_graph g')) = length (dg_nodes graph)) as Hlen
    by (by rewrite Hn, length_seq).
  split.
  - constructor; rewrite ?Hlen, ?He; done.
  - rewrite Hlen, Heq. done.
Qed.

(** ** The graph traits *)

Section Traits.
Context g (Hok : pg_ok g).

Lemma pg_wf : dg_wf (pg_graph g).
Proof. apply (go_wf _ _ (pg_ok_graphs g Hok)). Qed.

Lemma pg_own : dg_nodes (pg_graph g) = seq 0 (length (dg_nodes (pg_graph g))).
Proof. apply (go_nodes _ _ (pg_ok_graphs g Hok)). Qed.

(** The project graph keeps the promises of the graph traits. *)
Lemma project_connections_ok : GraphConnectionsOk (project_connections g).
Proof. exact (store_connections_ok _ _ _ _ _ _ _ (pg_ok_maps g Hok) _ pg_wf pg_own). Qed.

Lemma project_node_weight i :
  i ∈ @node_weights _ _ (project_connections g) ↔ i < length (dg_nodes (pg_graph g)).
Proof. exact (store_weight pn_index pn_project p_id no_project _ _ _ _ pg_own i). Qed.

Lemma project_index_range i id :
  pg_indexes g !! i = Some id → i < length (dg_nodes (pg_graph g)).
Proof. intros Hi. apply (so_range _ _ _ _ _ _ (pg_ok_maps g Hok)). eauto. Qed.

Lemma project_index_inj i j id :
  pg_indexes g !! i = Some id → pg_indexes g !! j = Some id → i = j.
Proof. exact (store_index_inj _ _ _ _ _ _ (pg_ok_maps g Hok) i j id). Qed.

Lemma project_lookup id node :
  pg_nodes g !! id = Some node →
  pg_indexes g !! pn_index node = Some id ∧ pn_index node < length (dg_nodes (pg_graph g)).
Proof. exact (store_lookup _ _ _ _ _ _ (pg_ok_maps g Hok) id node). Qed.

Lemma project_at i :
  i < length (dg_nodes (pg_graph g)) →
  ∃ id p, pg_indexes g !! i = Some id ∧ pg_nodes g !! id = Some (mkProjectNode i p) ∧ p_id p = id.
Proof.
  intros Hi. destruct (store_node _ _ _ _ _ _ (pg_ok_maps g Hok) i Hi) as (id & [x p] & H1 & H2 & H3 & H4).
  cbn in *. subst x. eauto.
Qed.

Lemma project_is_Some id : is_Some (pg_nodes g !! id) ↔ ∃ i, pg_indexes g !! i = Some id.
Proof. exact (store_is_Some _ _ _ _ _ _ (pg_ok_maps g Hok) id). Qed.

Lemma project_own_id id node : pg_nodes g !! id = Some node → p_id (pn_project node) = id.
Proof. exact (so_key _ _ _ _ _ _ (pg_ok_maps g Hok) id node). Qed.
End Traits.

(** ** Lookups and their caches *)

(** What [get] returns, without the cache. *)
Definition pure_get g (id_or_alias : string) : result Project :=
  let? p := get_unexpanded g (resolve_id g id_or_alias) in
  Ok (ProjectExpander_expand (pg_aliases g) p).

Section Caches.
Context `{!RelativeTo}.

(** What [internal_search] returns, without the cache. *)
Definition pure_search g (search : Path) : result Id :=
  let possible_id := search_nodes search (map_to_list (pg_nodes g)) 1000 "" in
  if decide (possible_id = ""%string)
  then Err (RProjectGraph (MissingFromPath (str_join "/" search))) else Ok possible_id.

(** The caches hold what would be computed. *)
Record caches_ok g (c : ProjectCaches) : Prop := {
  co_projects : ∀ id p, cached_projects c !! id = Some p →
    (let? q := get_unexpanded g id in Ok (ProjectExpander_expand (pg_aliases g) q)) = Ok p;
  co_search : ∀ path id, fs_cache c !! path = Some id → pure_search g path = Ok id;
}.

Lemma caches_new_ok g : caches_ok g ProjectCaches_new.
Proof. split; cbn; intros ? ?; by rewrite lookup_empty. Qed.

Lemma get_returns g id : returns (caches_ok g) (ProjectGraph_get g id) (pure_get g id).
Proof.
  intros c Hc. unfold ProjectGraph_get, pure_get.
  destruct (cached_projects c !! resolve_id g id) as [p|] eqn:Hp.
  - split; [|done]. cbn. symmetry. by apply (co_projects g c Hc).
  - destruct (get_unexpanded g (resolve_id g id)) as [p|e|] eqn:Hg; cbn; [|done..].
    split; [done|]. destruct Hc as [Hc1 Hc2]. split; [|done]. cbn. intros id' p'.
    destruct (decide (id' = resolve_id g id)) as [->|Hne].
    + rewrite lookup_insert_eq. intros [= <-]. by rewrite Hg.
    + rewrite lookup_insert_ne by done. apply Hc1.
Qed.

Lemma search_returns g search : returns (caches_ok g) (internal_search g search) (pure_search g search).
Proof.
  intros c Hc. unfold internal_search. destruct (fs_cache c !! search) as [id|] eqn:Hs.
  - split; [|done]. symmetry. by apply (co_search g c Hc).
  - unfold pure_search. destruct (decide _) as [He|He] eqn:Hd; [done|]. cbn. split; [done|].
    destruct Hc as [Hc1 Hc2]. split; [done|]. cbn. intros path id.
    destruct (decide (path = search)) as [->|Hne].
    + rewrite lookup_insert_eq. intros [= <-]. unfold pure_search. by rewrite Hd.
    + rewrite lookup_insert_ne by done. apply Hc2.
Qed.

Lemma get_all_returns g :
  returns (caches_ok g) (ProjectGraph_get_all g) (omap_list (pure_get g) (map_to_list (pg_nodes g)).*1).
Proof. apply returns_map. intros. apply get_returns. Qed.

(** The path that [get_from_path] searches for. *)
Definition search_path g (starting_file : option Path) : Path :=
  let current_file := default (pg_working_dir g) starting_file in
  if decide (current_file = pg_workspace_root g) then ["."%string]
  else default current_file (path_strip_prefix (pg_workspace_root g) current_file).

Lemma get_from_path_returns g file :
  returns (caches_ok g) (get_from_path g file) (let? id := pure_search g (search_path g file) in pure_get g id).
Proof. apply returns_bind; [apply search_returns|]. intros id _. apply get_returns. Qed.

(** *** The closest source *)

(** The components of the source of a node. *)
Definition source_of (node : ProjectNode) : Path := path_components (p_source (pn_project node)).

Context {LR : RelativeToLaws _}.

(** The loop keeps the longest source that is a prefix: [id] if it is not beaten
    by one of [nodes]. *)
Lemma search_nodes_spec search nodes remaining id :
  1 ≤ remaining →
  let found := search_nodes search nodes remaining id in
  (found = id ∧ ∀ id' node, (id', node) ∈ nodes → path_has_prefix (source_of node) search = true →
     length (source_of node) + remaining ≤ length search) ∨
  ∃ node, (found, node) ∈ nodes ∧ path_has_prefix (source_of node) search = true ∧
    length search < length (source_of node) + remaining ∧
    ∀ id' node', (id', node') ∈ nodes → path_has_prefix (source_of node') search = true →
      length (source_of node') ≤ length (source_of node).
Proof.
  revert remaining id. induction nodes as [|[x node] nodes IH]; intros remaining id H1;
    cbn -[Nat.ltb].
  { left. split; [done|]. set_solver. }
  change (path_components (p_source (pn_project node))) with (source_of node).
  destruct (path_has_prefix (source_of node) search) eqn:Hp.
  2: { destruct (IH remaining id H1) as [[-> Hall]|(n & Hin & Hn & Hr & Hall)].
       - left. split; [done|]. intros id' n [[= -> ->]|Hin]%elem_of_cons Hpre; [congruence|eauto].
       - right. exists n. split; [by right|]. split; [done|]. split; [done|].
         intros id' n' [[= -> ->]|Hin']%elem_of_cons Hpre; [congruence|eauto]. }
  pose proof Hp as [rest Hrest]%path_has_prefix_true.
  rewrite (relative_to_below _ _ rest) by (by apply path_strip_prefix_Some).
  assert (length search = length (source_of node) + length rest) as Hlen
    by (by rewrite Hrest, length_app).
  destruct (decide (length rest = 0)) as [H0|H0].
  { right. exists node. split; [left|]. split; [done|]. split; [lia|].
    intros id' n' _ [r Hr]%path_has_prefix_true.
    apply (f_equal length) in Hr. rewrite length_app in Hr. lia. }
  destruct (Nat.ltb_spec (length rest) remaining) as [Hlt|Hge].
  - right. destruct (IH (length rest) x ltac:(lia)) as [[-> Hall]|(n & Hin & Hn & Hr & Hall)].
    + exists node. split; [left|]. split; [done|]. split; [lia|].
      intros id' n' [[= -> ->]|Hin]%elem_of_cons Hpre; [done|].
      specialize (Hall _ _ Hin Hpre). lia.
    + exists n. split; [by right|]. split; [done|]. split; [lia|].
      intros id' n' [[= -> ->]|Hin']%elem_of_cons Hpre; [lia|eauto].
  - destruct (IH remaining id H1) as [[-> Hall]|(n & Hin & Hn & Hr & Hall)].
    + left. split; [done|]. intros id' n [[= -> ->]|Hin]%elem_of_cons Hpre; [lia|eauto].
    + right. exists n. split; [by right|]. split; [done|]. split; [done|].
      intros id' n' [[= -> ->]|Hin']%elem_of_cons Hpre; [lia|eauto].
Qed.

(** The search finds a project whose source is the longest one that leads to the
    path, and fails when there is none. *)
Lemma pure_search_spec g search :
  pg_nodes g !! ""%string = None → length search < 1000 →
  match pure_search g search with
  | Ok id => ∃ node, pg_nodes g !! id = Some node ∧
      path_has_prefix (source_of node) search = true ∧
      ∀ id' node', pg_nodes g !! id' = Some node' → path_has_prefix (source_of node') search = true →
        length (source_of node') ≤ length (source_of node)
  | Err e => e = RProjectGraph (MissingFromPath (str_join "/" search)) ∧
      ∀ id node, pg_nodes g !! id = Some node → path_has_prefix (source_of node) search = false
  | OutOfFuel => False
  end.
Proof.
  intros Hempty Hlen. unfold pure_search.
  destruct (search_nodes_spec search (map_to_list (pg_nodes g)) 1000 "" ltac:(lia))
    as [[-> Hall]|(node & Hin & Hp & _ & Hall)].
  - rewrite decide_True by done. split; [done|]. intros id node Hn%elem_of_map_to_list.
    destruct (path_has_prefix (source_of node) search) eqn:Hpre; [|done].
    specialize (Hall _ _ Hn Hpre). lia.
  - apply elem_of_map_to_list in Hin. rewrite decide_False.
    + exists node. split; [done|]. split; [done|]. intros id' node' Hn'%elem_of_map_to_list. eauto.
    + intros He. congruence.
Qed.
End Caches.

(** ** Orders and reachability in a partition *)

Section Partitions.
Context {C : DagGraph D G} {T : DiGraphSort G} {LC : DagGraphLaws C LD LG}.

(** The edges of a partition, between projects. *)
Definition partition_edge g (partition : ScopePartition) (a b : Id) : Prop :=
  ∃ i j scope, pg_indexes g !! i = Some a ∧ pg_indexes g !! j = Some b ∧
    (i, j, scope) ∈ dg_edges (pg_graph g) ∧ ScopePartition_of scope = partition.

Lemma partitioned_graph_ok g partition :
  pg_ok g →
  dg_wf (partitioned_graph g partition) ∧
  dg_nodes (partitioned_graph g partition) = seq 0 (length (dg_nodes (pg_graph g))) ∧
  dg_edges (partitioned_graph g partition) =
    scoped (bool_decide (partition = PProduction)) (dg_edges (pg_graph g)) ∧
  acyclic (edge_of (dg_edges (partitioned_graph g partition))).
Proof.
  intros [[_ _ _ (Hp & Hd & Hpn & Hdn & Hpa & Hda) Hpe Hde] _]. unfold partitioned_graph. cbn in *.
  destruct partition; (split; [by apply dag_graph_wf|]); rewrite dag_graph_nodes, dag_graph_edges by done;
    done.
Qed.

Lemma in_partition_of p scope :
  in_partition (bool_decide (p = PProduction)) scope = true ↔ ScopePartition_of scope = p.
Proof. unfold in_partition, ScopePartition_of. by destruct p, (is_production_group scope). Qed.

(** An edge of the partition's graph is one between its projects. *)
Lemma partitioned_graph_edge g partition i j a b :
  pg_ok g → pg_indexes g !! i = Some a → pg_indexes g !! j = Some b →
  edge_of (dg_edges (partitioned_graph g partition)) i j ↔ partition_edge g partition a b.
Proof.
  intros Hok Ha Hb. destruct (partitioned_graph_ok g partition Hok) as (_ & _ & -> & _).
  unfold edge_of. setoid_rewrite edges_where_elem. setoid_rewrite in_partition_of. split.
  - intros (scope & He & Hs). by exists i, j, scope.
  - intros (i' & j' & scope & Hi & Hj & He & Hs). exists scope.
    pose proof (project_index_inj g Hok i i' a Ha Hi) as ->.
    by pose proof (project_index_inj g Hok j j' b Hb Hj) as ->.
Qed.

Lemma ids_of_ok g l :
  pg_ok g → Forall (λ i, i < length (dg_nodes (pg_graph g))) l →
  ∃ ids, ids_of g l = Ok ids ∧ Forall2 (λ i id, pg_indexes g !! i = Some id) l ids.
Proof.
  intros Hok Hl. unfold ids_of.
  assert (∃ ids, Forall2 (λ i id, index_or_panic (pg_indexes g !! i) = Ok id) l ids) as [ids Hids].
  { induction Hl as [|i l Hi Hl [ids IH]]; [by exists []|].
    destruct (project_at g Hok i Hi) as (id & _ & Hid & _).
    exists (id :: ids). constructor; [by rewrite Hid|done]. }
  exists ids. split; [by apply omap_list_Ok|]. eapply Forall2_impl; [exact Hids|].
  intros i id. unfold index_or_panic. destruct (pg_indexes g !! i); cbn; naive_solver.
Qed.

(** Distinct indexes are distinct projects. *)
Lemma ids_of_NoDup g l ids :
  pg_ok g → Forall2 (λ i id, pg_indexes g !! i = Some id) l ids → NoDup l → NoDup ids.
Proof.
  intros Hok Hids. induction Hids as [|i id l ids Hi Hids IH]; intros Hnd; [constructor|].
  inversion Hnd as [|? ? Hni Hnd']; subst. constructor; [|by apply IH].
  intros (k & Hk)%list_elem_of_lookup.
  destruct (Forall2_lookup_r _ _ _ _ _ Hids Hk) as (j & Hj & Hjd).
  pose proof (project_index_inj g Hok i j id Hi Hjd) as ->.
  destruct Hni. by eapply list_elem_of_lookup_2.
Qed.

Lemma partitioned_toposort_ok g partition :
  pg_ok g → dg_toposort_ok T (partitioned_graph g partition) →
  ∃ ids, partitioned_toposort g partition = Ok ids ∧ NoDup ids ∧
    (∀ id, id ∈ ids ↔ is_Some (pg_nodes g !! id)) ∧
    ∀ i a b, ids !! i = Some a → partition_edge g partition a b → ∃ j, j < i ∧ ids !! j = Some b.
Proof.
  intros Hok Hsort. destruct (partitioned_graph_ok g partition Hok) as (Hwf & Hn & He & Hac).
  destruct (Hsort Hac) as (l & Hl & Hnd & Hel & Hord). unfold partitioned_toposort.
  rewrite Hl. cbn [ok_or obind]. rewrite Hn, length_seq in Hel.
  destruct (ids_of_ok g (reverse l) Hok) as (ids & Hids & Hall).
  { apply Forall_forall. intros i. rewrite elem_of_reverse. apply Hel. }
  exists ids. split; [done|]. split; [eapply ids_of_NoDup; [done..|by rewrite reverse_Permutation]|]. split.
  - intros id. split.
    + intros (k & Hk)%list_elem_of_lookup. destruct (Forall2_lookup_r _ _ _ _ _ Hall Hk) as (j & _ & Hj).
      apply project_is_Some; eauto.
    + intros [node Hnode]. destruct (project_lookup g Hok _ _ Hnode) as [Hi Hlt].
      apply Hel in Hlt. rewrite <- elem_of_reverse in Hlt. apply list_elem_of_lookup in Hlt as (k & Hk).
      destruct (Forall2_lookup_l _ _ _ _ _ Hall Hk) as (id' & Hid' & Hx).
      apply list_elem_of_lookup. exists k. congruence.
  - intros i a b Hia Hab. destruct (Forall2_lookup_r _ _ _ _ _ Hall Hia) as (x & Hx & Hxa).
    pose proof Hab as (_ & y & _ & _ & Hyb & _).
    pose proof (proj2 (partitioned_graph_edge g partition x y a b Hok Hxa Hyb) Hab) as Hxy.
    apply lookup_lt_Some in Hx as Hlt. rewrite length_reverse in Hlt.
    rewrite reverse_lookup in Hx by done.
    destruct (Hord _ _ _ Hx Hxy) as (k & Hk & Hky). apply lookup_lt_Some in Hky as Hkl.
    assert (reverse l !! (length l - S k) = Some y) as Hry.
    { rewrite reverse_lookup by lia.
      by replace (length l - S (length l - S k)) with k by lia. }
    destruct (Forall2_lookup_l _ _ _ _ _ Hall Hry) as (b' & Hb' & Hyb').
    exists (length l - S k). split; [lia|]. congruence.
Qed.

(** The inner loop adds the neighbours that were not seen before. *)
Lemma visit_neighbors ns (V : gset nat) (R Q : list nat) :
  ∃ new, fold_left visit_neighbor ns (V, R, Q) = (list_to_set new ∪ V, R ++ new, Q ++ new) ∧
    NoDup new ∧ (∀ x, x ∈ new ↔ x ∈ ns ∧ x ∉ V).
Proof.
  revert V R Q. induction ns as [|x ns IH]; intros V R Q; cbn.
  - exists []. rewrite !app_nil_r. split; [f_equal; f_equal; set_solver|].
    split; [constructor|]. set_solver.
  - destruct (decide (x ∈ V)) as [Hx|Hx].
    + destruct (IH V R Q) as (new & -> & Hnd & Hel). exists new. split; [done|]. split; [done|].
      set_solver.
    + destruct (IH ({[x]} ∪ V) (R ++ [x]) (Q ++ [x])) as (new & -> & Hnd & Hel).
      exists (x :: new). rewrite <- !(assoc_L (++)). split; [f_equal; f_equal; set_solver|].
      split; [constructor; [set_solver|done]|]. intros y.
      rewrite !elem_of_cons, Hel, not_elem_of_union, not_elem_of_singleton.
      destruct (decide (y = x)) as [->|]; tauto.
Qed.

Section Walk.
Context (graph : DiGraph) (d : Direction) (start : nat).
Context (Hwf : dg_wf graph) (Hstart : start < length (dg_nodes graph)).

Abbreviation step_edge := (edge_towards (dg_edges graph) d).

Record walk_inv (V : gset nat) (R Q : list nat) : Prop := {
  wi_visited : ∀ x, x ∈ V ↔ x = start ∨ x ∈ R;
  wi_results : NoDup R ∧ start ∉ R ∧ ∀ x, x ∈ R → tc step_edge start x ∧ x < length (dg_nodes graph);
  wi_queue : ∀ x, x ∈ Q → x ∈ V;
  wi_done : ∀ x y, x ∈ V → x ∉ Q → step_edge x y → y ∈ V;
}.

Lemma walk_inv_bound V R Q : walk_inv V R Q → length R < length (dg_nodes graph).
Proof.
  intros [_ (Hnd & Hs & Hr) _ _].
  assert (length (start :: R) ≤ length (seq 0 (length (dg_nodes graph)))) as Hle.
  { apply submseteq_length, NoDup_submseteq; [by constructor|].
    intros x [->|Hx]%elem_of_cons; apply elem_of_seq; [lia|]. destruct (Hr x Hx). lia. }
  rewrite length_seq in Hle. cbn in Hle. lia.
Qed.

Lemma walk_step V R Q index :
  walk_inv V R (index :: Q) →
  ∃ new, fold_left visit_neighbor (dg_neighbors graph index d) (V, R, Q) =
      (list_to_set new ∪ V, R ++ new, Q ++ new) ∧
    walk_inv (list_to_set new ∪ V) (R ++ new) (Q ++ new).
Proof.
  intros [Hv (Hnd & Hs & Hr) Hq Hd].
  destruct (visit_neighbors (dg_neighbors graph index d) V R Q) as (new & Hf & Hnn & Hnew).
  exists new. split; [done|].
  assert (index ∈ V) as Hi by (apply Hq; left).
  assert (index < length (dg_nodes graph)) as Hlt.
  { apply Hv in Hi as [->|Hi]; [done|]. by apply Hr. }
  assert (rtc step_edge start index) as Hreach.
  { apply Hv in Hi as [->|Hi]; [done|]. apply tc_rtc. by apply Hr. }
  assert (∀ x, x ∈ new → step_edge index x ∧ x ∉ V) as Hnew'.
  { intros x [Hx Hxv]%Hnew. split; [|done]. by apply dg_neighbors_law in Hx. }
  split.
  - intros x. rewrite elem_of_union, elem_of_list_to_set, elem_of_app, Hv. tauto.
  - split_and!.
    + apply NoDup_app. split_and!; [done| |done]. intros x Hx Hxn.
      apply Hnew' in Hxn as [_ []]. apply Hv. by right.
    + intros [?|Hx]%elem_of_app; [done|]. apply Hnew' in Hx as [_ []]. apply Hv. by left.
    + intros x [Hx|Hx]%elem_of_app; [by apply Hr|]. apply Hnew' in Hx as [He _]. split.
      * by eapply rtc_tc_step.
      * destruct d, He as (e & He); apply dg_edges_range in He; tauto.
  - intros x [Hx|Hx]%elem_of_app; apply elem_of_union; [right|left; by apply elem_of_list_to_set].
    apply Hq. by right.
  - intros x y Hx Hxq He. apply elem_of_union in Hx as [Hx|Hx].
    + exfalso. apply Hxq, elem_of_app. right. by apply elem_of_list_to_set in Hx.
    + destruct (decide (x = index)) as [->|Hne].
      * destruct (decide (y ∈ V)) as [|Hy]; [by apply elem_of_union; right|]. apply elem_of_union. left.
        apply elem_of_list_to_set, Hnew. split; [|done]. by apply dg_neighbors_law.
      * apply elem_of_union. right. apply (Hd x y); [done| |done].
        intros [?|?]%elem_of_cons; [done|]. apply Hxq, elem_of_app. by left.
Qed.

Lemma traverse_partition_total fuel V R Q :
  walk_inv V R Q → length (dg_nodes graph) + length Q < fuel + S (length R) →
  ∃ R', traverse_partition fuel graph d (V, R, Q) = Ok R' ∧ NoDup R' ∧
    ∀ x, x ∈ R' ↔ x ≠ start ∧ tc step_edge start x.
Proof.
  revert V R Q. induction fuel as [|fuel IH]; intros V R Q Hinv Hfuel.
  { pose proof (walk_inv_bound _ _ _ Hinv). lia. }
  cbn [traverse_partition]. destruct Q as [|index Q].
  - exists R. split; [done|]. destruct Hinv as [Hv (Hnd & Hs & Hr) _ Hd]. split; [done|].
    intros x. split.
    + intros Hx. split; [congruence|]. by apply Hr.
    + intros [Hne Ht%tc_rtc]. assert (x ∈ V) as Hx.
      { apply (rtc_closed step_edge (λ y, y ∈ V) start x); [by apply Hv; left| |done].
        intros y z Hy He. apply (Hd y z); [done| |done]. apply not_elem_of_nil. }
      apply Hv in Hx as [?|?]; done.
  - destruct (walk_step _ _ _ _ Hinv) as (new & -> & Hinv'). apply IH; [done|].
    rewrite !length_app. cbn in Hfuel. lia.
Qed.
End Walk.

(** The projects next to a project, in a direction. *)
Definition partition_towards g (partition : ScopePartition) (d : Direction) (a b : Id) : Prop :=
  match d with
  | Outgoing => partition_edge g partition a b
  | Incoming => partition_edge g partition b a
  end.

Lemma partition_towards_edge g partition d i j a b :
  pg_ok g → pg_indexes g !! i = Some a → pg_indexes g !! j = Some b →
  edge_towards (dg_edges (partitioned_graph g partition)) d i j ↔ partition_towards g partition d a b.
Proof. intros Hok Ha Hb. destruct d; by apply partitioned_graph_edge. Qed.

Lemma edge_towards_index g partition d i j :
  pg_ok g → edge_towards (dg_edges (partitioned_graph g partition)) d i j →
  ∃ b, pg_indexes g !! j = Some b.
Proof.
  intros Hok He. destruct (partitioned_graph_ok g partition Hok) as (Hwf & Hn & _).
  apply (so_range _ _ _ _ _ _ (pg_ok_maps g Hok)).
  destruct d, He as (e & He); apply dg_edges_range in He; [|done| |done];
    rewrite Hn, length_seq in He; tauto.
Qed.

Lemma tc_partition_towards g partition d i a j :
  pg_ok g → pg_indexes g !! i = Some a →
  tc (edge_towards (dg_edges (partitioned_graph g partition)) d) i j →
  ∃ b, pg_indexes g !! j = Some b ∧ tc (partition_towards g partition d) a b.
Proof.
  intros Hok. apply tc_to_key.
  - intros. by apply partition_towards_edge.
  - intros x y. by apply edge_towards_index.
Qed.

Lemma tc_partition_index g partition d a b i :
  pg_ok g → pg_indexes g !! i = Some a → tc (partition_towards g partition d) a b →
  ∃ j, pg_indexes g !! j = Some b ∧
    tc (edge_towards (dg_edges (partitioned_graph g partition)) d) i j.
Proof.
  intros Hok. apply tc_to_index.
  - intros. by apply partition_towards_edge.
  - intros x y H. destruct d, H as (? & ? & ? & ? & ? & _); eauto.
Qed.

Lemma acyclic_towards {E} (es : list (nat * nat * E)) d :
  acyclic (edge_of es) → acyclic (edge_towards es d).
Proof.
  intros Hac. destruct d; [done|]. intros x Hx. apply (Hac x).
  assert (∀ y z, tc (edge_towards es Incoming) y z → tc (edge_of es) z y) as Hflip; [|by apply Hflip].
  intros y z. induction 1 as [y z He|y z w He _ IH]; [by apply tc_once|].
  by eapply tc_r.
Qed.

Lemma partitioned_traverse_ok g project partition d :
  pg_ok g → is_Some (pg_nodes g !! p_id project) →
  ∃ ids, partitioned_traverse g project partition d = Ok ids ∧ NoDup ids ∧
    ∀ id, id ∈ ids ↔ tc (partition_towards g partition d) (p_id project) id.
Proof.
  intros Hok [node Hnode]. destruct (partitioned_graph_ok g partition Hok) as (Hwf & Hn & _ & Hac).
  destruct (project_lookup g Hok _ _ Hnode) as [Hi Hlt].
  assert (pn_index node < length (dg_nodes (partitioned_graph g partition))) as Hlt'
    by (by rewrite Hn, length_seq).
  unfold partitioned_traverse, index_of. rewrite Hnode. cbn [index_or_panic ok_or obind].
  destruct (traverse_partition_total (partitioned_graph g partition) d (pn_index node) Hwf Hlt'
    (S (S (dg_node_count (partitioned_graph g partition)))) {[pn_index node]} [] [pn_index node])
    as (R & -> & Hnd & HR).
  { split; [set_solver| |set_solver|].
    - split; [constructor|]. split; [apply not_elem_of_nil|]. intros x Hx.
      by apply not_elem_of_nil in Hx.
    - intros x y Hx%elem_of_singleton Hq. destruct Hq. subst x. by left. }
  { rewrite dg_node_count_law. cbn. lia. }
  cbn [obind]. destruct (ids_of_ok g R Hok) as (ids & Hids & Hall).
  { apply Forall_forall. intros x [_ Ht]%HR.
    destruct (tc_partition_towards g partition d _ _ x Hok Hi Ht) as (b & Hb & _).
    by eapply project_index_range. }
  exists ids. split; [done|]. split; [by eapply ids_of_NoDup|]. intros id. split.
  - intros (k & Hk)%list_elem_of_lookup. destruct (Forall2_lookup_r _ _ _ _ _ Hall Hk) as (x & Hx & Hxi).
    apply list_elem_of_lookup_2, HR in Hx as [_ Ht].
    destruct (tc_partition_towards g partition d _ _ x Hok Hi Ht) as (b & Hb & Htb). congruence.
  - intros Ht. destruct (tc_partition_index g partition d _ id _ Hok Hi Ht) as (j & Hj & Htj).
    assert (j ∈ R) as (k & Hk)%list_elem_of_lookup.
    { apply HR. split; [|done]. intros ->. by apply (acyclic_towards _ d Hac (pn_index node)). }
    destruct (Forall2_lookup_l _ _ _ _ _ Hall Hk) as (id' & Hid' & Hx).
    apply list_elem_of_lookup. exists k. congruence.
Qed.
End Partitions.

(** ** Focus *)

Section Focus.
Context `{R : !RelativeTo} {F : DiGraphMap G G} {LF : DiGraphMapLaws F LG LG}.

(** [a] depends on [b] directly, in any scope. *)
Definition depends_on g (a b : Id) : Prop :=
  ∃ i j scope, pg_indexes g !! i = Some a ∧ pg_indexes g !! j = Some b ∧
    (i, j, scope) ∈ dg_edges (pg_graph g).

(** *** The nodes of the focused graph *)

(** The maps after the nodes [old] were copied. *)
Record copied g (old : list nat) (indexes : gmap nat Id) (projects : gmap Id ProjectNode) : Prop := {
  cp_index : ∀ i, indexes !! i = o ← old !! i; pg_indexes g !! o;
  cp_node : ∀ id node, projects !! id = Some node ↔
    ∃ i o old_node, old !! i = Some o ∧ pg_nodes g !! id = Some old_node ∧ pn_index old_node = o ∧
      node = mkProjectNode i (pn_project old_node);
}.

Lemma copied_maps g old indexes projects :
  pg_ok g → NoDup old → Forall (λ o, o < length (dg_nodes (pg_graph g))) old →
  copied g old indexes projects → maps_ok (length old) indexes projects.
Proof.
  intros Hok Hnd Hold [Hi Hn]. split.
  - intros i. rewrite Hi. destruct (old !! i) as [o|] eqn:Ho; cbn.
    + split; [intros _; by eapply lookup_lt_Some|]. intros _.
      destruct (project_at g Hok o) as (id & p & Hid & _); [|eauto].
      by apply (Forall_lookup_1 _ _ _ _ Hold Ho).
    + split; [by intros []|]. apply lookup_ge_None in Ho. lia.
  - intros i id. rewrite Hi. split.
    + intros (o & Ho & Hid)%bind_Some.
      destruct (project_at g Hok o (project_index_range g Hok _ _ Hid)) as (id' & p & Hid' & Hp & _).
      replace id' with id in * by congruence.
      exists (mkProjectNode i p). split; [|done]. apply Hn. by exists i, o, (mkProjectNode o p).
    + intros (v & Hv & Hx). apply Hn in Hv as (i' & o & node & Ho & Hnode & <- & ->). cbn in Hx. subst i'.
      rewrite Ho. cbn. by apply (project_lookup g Hok) in Hnode as [? _].
  - intros id node (i & o & old_node & _ & Ho & _ & ->)%Hn. cbn. by apply (project_own_id g Hok) in Ho.
Qed.

Lemma copied_snoc g old indexes projects o :
  pg_ok g → o < length (dg_nodes (pg_graph g)) → o ∉ old → copied g old indexes projects →
  ∃ id node, pg_indexes g !! o = Some id ∧ pg_nodes g !! id = Some node ∧
    copied g (old ++ [o]) (<[length old := id]> indexes)
      (<[id := mkProjectNode (length old) (pn_project node)]> projects).
Proof.
  intros Hok Ho Hno [Hi Hn].
  destruct (project_at g Hok o Ho) as (id & p & Hid & Hnode & Hpid).
  exists id, (mkProjectNode o p). split; [done|]. split; [done|]. split.
  - intros i. destruct (decide (i = length old)) as [->|Hne].
    + rewrite lookup_insert_eq, lookup_app_r, Nat.sub_diag by lia. by cbn; rewrite Hid.
    + rewrite lookup_insert_ne by done. rewrite Hi.
      destruct (decide (i < length old)) as [Hlt|Hge]; [by rewrite lookup_app_l|].
      rewrite lookup_ge_None_2 by lia. rewrite lookup_ge_None_2; [done|].
      rewrite length_app. cbn. lia.
  - intros id' node'. destruct (decide (id' = id)) as [->|Hne].
    + rewrite lookup_insert_eq. split.
      * intros [= <-]. exists (length old), o, (mkProjectNode o p).
        by rewrite lookup_app_r, Nat.sub_diag.
      * intros (i & o' & old_node & Hoi & Hold & <- & ->). rewrite Hnode in Hold. injection Hold as <-.
        cbn in *. f_equal. destruct (decide (i < length old)) as [Hlt|Hge].
        { rewrite lookup_app_l in Hoi by done. destruct Hno. by eapply list_elem_of_lookup_2. }
        apply lookup_lt_Some in Hoi. rewrite length_app in Hoi. cbn in Hoi.
        by replace i with (length old) by lia.
    + rewrite lookup_insert_ne by done. rewrite Hn. split.
      * intros (i & o' & old_node & Hoi & ?). exists i, o', old_node. split; [|done].
        by apply lookup_app_l_Some.
      * intros (i & o' & old_node & Hoi & Hold & Hix & ->). exists i, o', old_node. split_and!; try done.
        apply lookup_app_Some in Hoi as [?|[_ Hoi]]; [done|].
        apply list_lookup_singleton_Some in Hoi as [_ ->].
        apply (project_lookup g Hok) in Hold as [Hx _]. rewrite Hix in Hx. congruence.
Qed.

(** The loop over the nodes. *)
Lemma focus_nodes_ok g old :
  pg_ok g → NoDup old → Forall (λ o, o < length (dg_nodes (pg_graph g))) old →
  ∃ indexes projects graph,
    ofold (focus_node_step g) (∅, ∅, dg_new) (imap pair old) = Ok (indexes, projects, graph) ∧
    copied g old indexes projects ∧ dg_wf graph ∧
    length (dg_nodes graph) = length old ∧ dg_edges graph = [].
Proof.
  intros Hok. induction old as [|o old IH] using rev_ind; intros Hnd Hold.
  - destruct dg_new_law as (Hw & Hn & He). exists ∅, ∅, dg_new. cbn. split; [done|].
    split; [|by rewrite Hn]. split; [by intros i; rewrite lookup_empty|].
    intros id node. rewrite lookup_empty. split; [done|]. by intros (? & ? & ? & ? & _).
  - apply NoDup_app in Hnd as (Hnd & Hno & _). apply Forall_app in Hold as [Hold Ho].
    rewrite Forall_singleton in Ho.
    destruct (IH Hnd Hold) as (indexes & projects & graph & Hf & Hc & Hw & Hn & He).
    destruct (copied_snoc g old indexes projects o Hok Ho ltac:(set_solver) Hc)
      as (id & node & Hid & Hnode & Hc').
    rewrite imap_app, ofold_app, Hf. cbn. rewrite Hid. cbn. rewrite Hnode. cbn.
    rewrite Nat.add_0_r. destruct (dg_add_node_law graph (length old) Hw) as (Hw' & _ & Hn' & He').
    eexists _, _, _. split; [done|]. split; [done|]. split; [done|].
    rewrite Hn', He', !length_app, Hn. done.
Qed.

(** *** Its edges *)

Lemma edge_of_fst {E} (es : list (nat * nat * E)) a b : edge_of es a b ↔ (a, b) ∈ es.*1.
Proof.
  unfold edge_of. rewrite list_elem_of_fmap. split.
  - intros (e & He). by exists (a, b, e).
  - intros ([[x y] e] & [= -> ->] & He). by exists e.
Qed.

(** [update_edge] on a graph without parallel edges. *)
Lemma update_edge_simple (graph : DiGraph) a b e :
  dg_wf graph → NoDup (dg_edges graph).*1 →
  a < length (dg_nodes graph) → b < length (dg_nodes graph) →
  let graph' := dg_update_edge graph a b e in
  dg_wf graph' ∧ dg_nodes graph' = dg_nodes graph ∧ NoDup (dg_edges graph').*1 ∧
  (∀ x, x ∈ (dg_edges graph').*1 ↔ x = (a, b) ∨ x ∈ (dg_edges graph).*1) ∧
  ∀ x, x ∈ dg_edges graph' → x = (a, b, e) ∨ x ∈ dg_edges graph.
Proof.
  intros Hwf Hnd Ha Hb graph'.
  destruct (dg_update_edge_law graph a b e Hwf Ha Hb) as (Hwf' & Hn & Hnew & Hold).
  split; [done|]. split; [done|]. destruct (decide ((a, b) ∈ (dg_edges graph).*1)) as [Hin|Hin].
  - apply list_elem_of_fmap in Hin as ([[x y] e0] & [= <- <-] & Hin).
    apply list_elem_of_split in Hin as (l1 & l2 & Hes).
    rewrite Hes, fmap_app, fmap_cons in Hnd. cbn in Hnd.
    assert ((a, b) ∉ (l1 ++ l2).*1 ∧ NoDup (l1 ++ l2).*1) as [Hno Hnd'].
    { rewrite fmap_app. rewrite <- Permutation_middle in Hnd.
      by apply NoDup_cons in Hnd. }
    assert (dg_edges graph' = l1 ++ (a, b, e) :: l2) as ->.
    { apply (Hold l1 e0 l2 Hes). by rewrite edge_of_fst. }
    rewrite Hes. split_and!.
    + rewrite fmap_app, fmap_cons. cbn. done.
    + intros x. rewrite !fmap_app, !fmap_cons. cbn. rewrite !elem_of_app, !elem_of_cons. tauto.
    + intros x. rewrite !elem_of_app, !elem_of_cons. tauto.
  - assert (dg_edges graph' = dg_edges graph ++ [(a, b, e)]) as -> by (apply Hnew; by rewrite edge_of_fst).
    split_and!.
    + rewrite fmap_app. cbn. rewrite <- Permutation_cons_append. by constructor.
    + intros x. rewrite fmap_app. cbn. rewrite elem_of_app, list_elem_of_singleton. tauto.
    + intros x. rewrite elem_of_app, list_elem_of_singleton. tauto.
Qed.

Lemma update_edges_ok es (graph : DiGraph) :
  dg_wf graph → NoDup (dg_edges graph).*1 →
  Forall (λ e, e.1.1 < length (dg_nodes graph) ∧ e.1.2 < length (dg_nodes graph)) es →
  let graph' := fold_left (λ graph '(source, target, scope), dg_update_edge graph source target scope)
                  es graph in
  dg_wf graph' ∧ dg_nodes graph' = dg_nodes graph ∧
  (∀ x, x ∈ (dg_edges graph').*1 ↔ x ∈ es.*1 ∨ x ∈ (dg_edges graph).*1) ∧
  ∀ x, x ∈ dg_edges graph' → x ∈ es ∨ x ∈ dg_edges graph.
Proof.
  revert graph. induction es as [|[[a b] e] es IH]; intros graph Hwf Hnd Hes.
  - cbn. split; [done|]. split; [done|]. split; [|auto]. intros x. rewrite elem_of_nil. tauto.
  - inversion Hes as [|? ? [Ha Hb] Hes']; subst. cbn in Ha, Hb.
    destruct (update_edge_simple graph a b e Hwf Hnd Ha Hb) as (Hw1 & Hn1 & Hnd1 & Hx1 & Hy1).
    cbn [fold_left]. rewrite <- Hn1 in Hes'. destruct (IH _ Hw1 Hnd1 Hes') as (Hw2 & Hn2 & Hx2 & Hy2).
    split; [done|]. split; [by rewrite Hn2|]. split.
    + intros x. rewrite Hx2, Hx1, fmap_cons, elem_of_cons. cbn. tauto.
    + intros x [Hx|Hx]%Hy2; [left; by right|]. apply Hy1 in Hx as [->|Hx]; [left; left|by right].
Qed.

(** *** The focused graph *)

Lemma depends_on_index g i j a b :
  pg_ok g → pg_indexes g !! i = Some a → pg_indexes g !! j = Some b →
  edge_of (dg_edges (pg_graph g)) i j ↔ depends_on g a b.
Proof.
  intros Hok Ha Hb. split; [intros (s & He); by exists i, j, s|].
  intros (i' & j' & s & Hi & Hj & He).
  pose proof (project_index_inj g Hok i i' a Ha Hi) as ->.
  pose proof (project_index_inj g Hok j j' b Hb Hj) as ->. by exists s.
Qed.

Lemma key_edge_depends_on g a b : key_edge (pg_indexes g) (pg_graph g) a b ↔ depends_on g a b.
Proof. unfold key_edge, depends_on, edge_of. naive_solver. Qed.

Lemma tc_depends_on g i j a b :
  pg_ok g → pg_indexes g !! i = Some a → pg_indexes g !! j = Some b →
  tc (@graph_edge _ _ (project_connections g) Outgoing) i j ↔ tc (depends_on g) a b.
Proof.
  intros Hok Ha Hb. unfold project_connections.
  rewrite (tc_graph_edge_key _ _ _ _ _ _ _ (pg_ok_maps g Hok) _ (pg_wf g Hok) (pg_own g Hok) i j a b)
    by done.
  split; apply tc_mono; intros x y; apply key_edge_depends_on.
Qed.

(** Which projects the focused graph keeps. *)
Definition in_focus g (focus : Id) (with_dependents : bool) (id : Id) : Prop :=
  rtc (depends_on g) focus id ∨ (with_dependents = true ∧ tc (depends_on g) id focus).

Lemma focused_nodes_ids g p node with_dependents i id :
  pg_ok g → pg_nodes g !! p_id p = Some node → pg_indexes g !! i = Some id →
  i ∈ @focused_nodes Project Id _ _ (project_connections g) p with_dependents ↔
  in_focus g (p_id p) with_dependents id.
Proof.
  intros Hok Hnode Hid. destruct (project_lookup g Hok _ _ Hnode) as [Hi0 Hlt0].
  remember (pn_index node) as i0 eqn:Hix.
  destruct (project_at g Hok i0 Hlt0) as (id0 & q & Hid0 & Hq & Hqid).
  assert (id0 = p_id p) as -> by congruence.
  assert (@get_node_by_index _ _ (project_connections g) i0 = q) as Hget.
  { cbn. rewrite Hid0. cbn. by rewrite Hq. }
  rewrite (@focused_nodes_same _ _ _ _ (project_connections g) p q with_dependents) by
    (cbn; by rewrite Hqid).
  rewrite <- Hget. pose proof (project_connections_ok g Hok) as Hcon.
  destruct (@focused_nodes_correct _ _ _ _ (project_connections g) Hcon i0 with_dependents) as [_ ->].
  { by apply project_node_weight. }
  { change (@node_weights _ _ (project_connections g)) with (node_weights_of (pg_graph g)).
    rewrite weights_of_nodes, (pg_own g Hok). apply NoDup_seq. }
  rewrite project_node_weight by done. unfold in_focus.
  rewrite !rtc_tc, (tc_depends_on g i0 i), (tc_depends_on g i i0) by done. split.
  - intros [[->|?]|(-> & _ & ?)]; [left; left; congruence|by left; right|by right].
  - intros [[Heq|?]|(-> & ?)]; [left; left|by left; right|right].
    + apply (project_index_inj g Hok i0 i id); congruence.
    + split; [done|]. split; [by eapply project_index_range|done].
Qed.

(** The nodes that are kept, by their indexes in the graph. *)
Lemma to_focused_graph_ok g p node with_dependents :
  pg_ok g → pg_nodes g !! p_id p = Some node →
  ∃ old, NoDup old ∧ dg_nodes (to_focused_graph g p with_dependents) = old ∧
    dg_wf (to_focused_graph g p with_dependents) ∧
    (∀ o, o ∈ old ↔ o < length (dg_nodes (pg_graph g)) ∧
       o ∈ @focused_nodes Project Id _ _ (project_connections g) p with_dependents) ∧
    ∀ a b e, (a, b, e) ∈ dg_edges (to_focused_graph g p with_dependents) ↔
      ∃ oa ob, old !! a = Some oa ∧ old !! b = Some ob ∧ (oa, ob, e) ∈ dg_edges (pg_graph g).
Proof.
  intros Hok Hnode. pose proof (go_wf _ _ (pg_ok_graphs g Hok)) as Hwf.
  pose proof (go_nodes _ _ (pg_ok_graphs g Hok)) as Hseq.
  unfold to_focused_graph. set (f := λ _ node, if decide (node ∈ _) then Some node else None).
  destruct (dg_filter_map_law (pg_graph g) f Hwf) as (old & Hnd & Hw & Hold & Hn & Hlen & He).
  assert (∀ o n, dg_nodes (pg_graph g) !! o = Some n → n = o) as Hid.
  { intros o n Ho. rewrite Hseq in Ho. apply lookup_seq in Ho as [-> _]. lia. }
  exists old. split; [done|]. split; [|split; [done|split; [|done]]].
  - apply list_eq. intros i. rewrite Hn. destruct (old !! i) as [o|] eqn:Ho; [|done]. cbn.
    destruct (proj1 (Hold o) (list_elem_of_lookup_2 _ _ _ Ho)) as (n & Hon & [m Hm]).
    rewrite Hon. cbn. rewrite Hm. f_equal. rewrite <- (Hid _ _ Hon). unfold f in Hm.
    destruct (decide _); congruence.
  - intros o. rewrite Hold. split.
    + intros (n & Hon & [m Hm]). pose proof (lookup_lt_Some _ _ _ Hon). split; [done|].
      rewrite <- (Hid _ _ Hon). unfold f in Hm. by destruct (decide _).
    + intros [Hlt Hin]. destruct (lookup_lt_is_Some_2 _ _ Hlt) as [n Hon]. exists n.
      split; [done|]. rewrite (Hid _ _ Hon). unfold f. by rewrite decide_True.
Qed.

Record focused_from g g' (focus : Id) (with_dependents : bool) : Prop := {
  ff_nodes : ∀ id, is_Some (pg_nodes g' !! id) ↔
    is_Some (pg_nodes g !! id) ∧ in_focus g focus with_dependents id;
  ff_projects : ∀ id node', pg_nodes g' !! id = Some node' →
    ∃ node, pg_nodes g !! id = Some node ∧ pn_project node' = pn_project node;
  ff_edges : ∀ a b, depends_on g' a b ↔
    depends_on g a b ∧ is_Some (pg_nodes g' !! a) ∧ is_Some (pg_nodes g' !! b);
  ff_partitions : ∀ partition a b, partition_edge g' partition a b → partition_edge g partition a b;
}.

(** The graph that results from copying the nodes [old] and their edges. *)
Lemma focused_from_copied g g' p node with_dependents old :
  pg_ok g → pg_ok g' → pg_nodes g !! p_id p = Some node →
  copied g old (pg_indexes g') (pg_nodes g') →
  (∀ o, o ∈ old ↔ o < length (dg_nodes (pg_graph g)) ∧
     o ∈ @focused_nodes Project Id _ _ (project_connections g) p with_dependents) →
  (∀ a b oa ob, old !! a = Some oa → old !! b = Some ob →
     edge_of (dg_edges (pg_graph g)) oa ob → edge_of (dg_edges (pg_graph g')) a b) →
  (∀ a b e, (a, b, e) ∈ dg_edges (pg_graph g') → ∃ oa ob,
     old !! a = Some oa ∧ old !! b = Some ob ∧ (oa, ob, e) ∈ dg_edges (pg_graph g)) →
  focused_from g g' (p_id p) with_dependents.
Proof.
  intros Hok Hok' Hnode [Hci Hcn] Hold Hadd Hren.
  assert (∀ i id, pg_indexes g' !! i = Some id ↔ ∃ o, old !! i = Some o ∧ pg_indexes g !! o = Some id)
    as Hix by (intros i id; rewrite Hci; apply bind_Some).
  split.
  - intros id. rewrite (project_is_Some g' Hok'), (project_is_Some g Hok). setoid_rewrite Hix. split.
    + intros (i & o & Ho & Hid). split; [eauto|].
      apply list_elem_of_lookup_2, Hold in Ho as [_ Ho]. by eapply focused_nodes_ids.
    + intros [[o Hid] Hf]. rewrite <- (focused_nodes_ids g p node with_dependents o id) in Hf by done.
      assert (o ∈ old) as (i & Hi)%list_elem_of_lookup; [|eauto].
      apply Hold. split; [|done]. by eapply project_index_range.
  - intros id node' (i & o & old_node & _ & Hon & _ & ->)%Hcn. eauto.
  - intros a b. rewrite !(project_is_Some g' Hok'). split.
    + intros (i & j & e & Hi & Hj & He). split_and!; [|eauto..].
      apply Hren in He as (oi & oj & Hoi & Hoj & He). exists oi, oj, e.
      apply Hix in Hi as (? & ? & ?), Hj as (? & ? & ?). split_and!; [congruence..|done].
    + intros (Hab & [i Hi] & [j Hj]). apply (depends_on_index g' i j); [done..|].
      apply Hix in Hi as (oi & Hoi & Hi), Hj as (oj & Hoj & Hj).
      eapply Hadd; [done..|]. by apply (depends_on_index g oi oj a b).
  - intros partition a b (i & j & e & Hi & Hj & He & Hs).
    apply Hren in He as (oi & oj & Hoi & Hoj & He). exists oi, oj, e.
    apply Hix in Hi as (? & ? & ?), Hj as (? & ? & ?). split_and!; [congruence..|done|done].
Qed.

Lemma focus_on_ok g p with_dependents :
  pg_ok g → is_Some (pg_nodes g !! p_id p) →
  ∃ g', focus_on g p with_dependents = Ok g' ∧ pg_ok g' ∧
    focused_from g g' (p_id p) with_dependents.
Proof.
  intros Hok [node Hnode].
  destruct (to_focused_graph_ok g p node with_dependents Hok Hnode)
    as (old & Hnd & Hfn & Hfw & Hold & Hfe).
  assert (Forall (λ o, o < length (dg_nodes (pg_graph g))) old) as Hrange.
  { apply Forall_forall. intros o Ho. by apply Hold. }
  unfold focus_on. rewrite weights_of_nodes, Hfn, dg_edge_references_law by done.
  destruct (focus_nodes_ok g old Hok Hnd Hrange) as (ixs & prs & graph & -> & Hc & Hw & Hn & He).
  cbn [obind]. set (fes := dg_edges (to_focused_graph g p with_dependents)) in *.
  assert (Forall (λ e, e.1.1 < length (dg_nodes graph) ∧ e.1.2 < length (dg_nodes graph)) fes) as Hfr.
  { apply Forall_forall. intros [[a b] e] Hin. cbn. rewrite Hn, <- Hfn. by eapply dg_edges_range. }
  destruct (update_edges_ok fes graph Hw) as (Hw' & Hn' & Hx & Hy); [by rewrite He; constructor|done|].
  set (graph' := fold_left _ fes graph) in *. rewrite He in Hx, Hy.
  set (focused := mkProjectGraph _ _ _ _ _ _ _ _ _ ixs prs).
  pose proof (copied_maps g old ixs prs Hok Hnd Hrange Hc) as Hm'.
  assert (∀ a b e, (a, b, e) ∈ dg_edges graph' → ∃ oa ob, old !! a = Some oa ∧ old !! b = Some ob ∧
    (oa, ob, e) ∈ dg_edges (pg_graph g)) as Hren.
  { intros a b e [Hin|Hin]%Hy; [by apply Hfe|by apply not_elem_of_nil in Hin]. }
  pose proof (set_graph_ok focused graph' Hw') as Hs.
  destruct (set_graph focused graph') as [g'|e|] eqn:Hset; [|exfalso|done].
  2: { destruct Hs as (a & b & sc & _ & _ & []).
       eapply acyclic_rename; [exact Hren|].
       destruct (go_partitions _ _ (pg_ok_graphs g Hok)) as (_ & _ & _ & _ & Hap & Had). cbn in Hap, Had.
       rewrite (go_production _ _ (pg_ok_graphs g Hok)) in Hap.
       rewrite (go_development _ _ (pg_ok_graphs g Hok)) in Had.
       by destruct (is_production_group sc). }
  assert (pg_ok g') as Hok'.
  { eapply set_graph_pg_ok; [exact Hw'| |exact Hset]. by rewrite Hn', Hn. }
  exists g'. split; [done|]. split; [done|]. destruct Hs as [[_ _ Hge _ _ _] Heq].
  assert (pg_indexes g' = ixs ∧ pg_nodes g' = prs) as [Hgi Hgn] by (by rewrite Heq).
  eapply (focused_from_copied g g' p node with_dependents old); [done..|by rewrite Hgi, Hgn|done| |].
  - intros a b oa ob Ha Hb (e & Hin). rewrite Hge. apply edge_of_fst, Hx. left.
    apply edge_of_fst. exists e. apply Hfe. eauto.
  - by rewrite Hge.
Qed.

(** [focus_for] fails only if the project is unknown, whatever is cached. *)
Lemma focus_for_returns g id with_dependents :
  returns (caches_ok g) (focus_for g id with_dependents)
    (let? p := pure_get g id in focus_on g p with_dependents).
Proof. apply returns_bind; [apply get_returns|]. intros p _. apply returns_pure. Qed.

Lemma pure_get_id g id p :
  pg_ok g → pure_get g id = Ok p → p_id p = resolve_id g (resolve_id g id) ∧
    is_Some (pg_nodes g !! p_id p).
Proof.
  intros Hok. unfold pure_get, get_unexpanded.
  destruct (pg_nodes g !! resolve_id g (resolve_id g id)) as [node|] eqn:Hn; [|done].
  cbn. intros [= <-]. cbn. rewrite (project_own_id g Hok _ _ Hn). rewrite Hn. eauto.
Qed.
End Focus.
End Facts.
