(* ===== verification/TaskDeps.v ===== *)
(** * Dependencies of tasks ([crates/task-builder/src/task_deps_builder.rs])

[TaskDepsBuilder] replaces the dependencies of a task, which may be scopes such
as [^:build] or [#tag:build], by those on concrete tasks, and adds the projects
of these tasks to the dependencies of the project. *)

From S2P Require Import Prelude Errors Target Config.

(** [TasksQuerent]: what the builder asks about the other projects and tasks. *)
Record TasksQuerent : Type := mkTasksQuerent {
  query_projects_by_tag : string → result (list Id);
  querent_tasks : list Id → TargetTaskScope * string → result (list (Target * TaskOptions));
  query_task_has_outputs : Target → bool;
}.

Definition add_dependency (p : Project) (dep : ProjectDependencyConfig) : Project :=
  mkProject (p_aliases p) (p_config p) (p_dependencies p ++ [dep]) (p_file_groups p) (p_id p) (p_language p)
    (p_layer p) (p_root p) (p_source p) (p_stack p) (p_task_targets p) (p_tasks p) (p_toolchains p).

(** [create_project_dep_from_task_dep] *)
Definition create_project_dep_from_task_dep (task_dep : TaskDependencyConfig) (project_id : Id)
  (root_project_id : option Id) (already_exists : Id → bool) : option ProjectDependencyConfig :=
  match get_project_id (dep_target task_dep) with
  | Ok dep_project_id =>
      if bool_decide (project_id = dep_project_id) || already_exists dep_project_id then None
      else Some (mkProjectDep dep_project_id
                   (if decide (root_project_id = Some dep_project_id) then SRoot else SBuild))
  | _ => None
  end.

Definition config_scope (scope : TargetDependencyScope) : DependencyScope :=
  match scope with
  | Build => SBuild
  | Development => SDevelopment
  | Peer => SPeer
  | Production => SProduction
  end.

Section Builder.
Context (querent : TasksQuerent) (root_project_id : option Id).

(** [check_and_create_dep] *)
Definition check_and_create_dep (task : Task) (dep_task_target : Target)
  (dep_task_options : TaskOptions) (dep_config : TaskDependencyConfig) :
  result TaskDependencyConfig :=
  if o_allow_failure dep_task_options then
    Err (RTasksBuilder (AllowFailureDepRequirement (id dep_task_target) (id (t_target task))))
  else if negb (TaskOptionRunInCI_is_enabled (o_run_in_ci dep_task_options)) &&
          TaskOptionRunInCI_is_enabled (o_run_in_ci (t_options task)) &&
          negb (bool_decide (o_run_in_ci dep_task_options = Skip)) &&
          negb (bool_decide (o_run_in_ci (t_options task) = Skip)) then
    Err (RTasksBuilder (RunInCiDepRequirement (id dep_task_target) (id (t_target task))))
  else if o_persistent dep_task_options && negb (o_persistent (t_options task)) then
    Err (RTasksBuilder (PersistentDepRequirement (id dep_task_target) (id (t_target task))))
  else
    let default_strategy :=
      if query_task_has_outputs querent dep_task_target then CacheHash else CacheIgnored in
    Ok (mkTaskDep (dep_args dep_config)
          (Some (default default_strategy (dep_cache_strategy dep_config)))
          (dep_env dep_config) dep_task_target (dep_optional dep_config)).

(** The projects a dependency is looked for in, whether it may be missing, and
    whether it links projects: the [match scope] of [build]. *)
Definition dep_scope_projects (project : Project) (task : Task) (dep_config : TaskDependencyConfig) :
  result (list Id * bool * bool) :=
  let optional_or := λ b, default b (dep_optional dep_config) in
  match get_project_scope (dep_target dep_config) with
  | (All, _) =>
      Err (RTasksBuilder (UnsupportedTargetScopeInDeps (id (dep_target dep_config)) (id (t_target task))))
  | (Deps, _) => Ok (map pdep_id (p_dependencies project), optional_or true, false)
  | (DepsOf scope, _) =>
      Ok (map pdep_id (filter (λ dep, pdep_scope dep = config_scope scope) (p_dependencies project)),
          optional_or true, false)
  | (OwnSelf, _) => Ok ([p_id project], optional_or false, false)
  | (PId, scope_value) => Ok ([scope_value], optional_or false, true)
  | (PTag, scope_value) =>
      let? ids := query_projects_by_tag querent scope_value in
      Ok (filter (λ id, id ≠ p_id project) ids, optional_or true, true)
  end.

(** The error of a dependency without matches. *)
Definition missing_dep (task : Task) (dep_config : TaskDependencyConfig) : TasksBuilderError :=
  let dep := id (dep_target dep_config) in
  let task := id (t_target task) in
  match project (dep_target dep_config) with
  | Deps | DepsOf _ => UnknownDepTargetParentScope dep task
  | PTag => UnknownDepTargetTagScope dep task
  | _ => UnknownDepTarget dep task
  end.

(** The body of the loop over the matches of a dependency. *)
Definition dep_match_step (task : Task) (dep_config : TaskDependencyConfig) (link : bool)
  (s : Project * list TaskDependencyConfig) (found : Target * TaskOptions) :
  result (Project * list TaskDependencyConfig) :=
  let '(project, deps) := s in
  let '(dep_task_target, dep_task_options) := found in
  let own_project :=
    match get_project_id dep_task_target with Ok pid => bool_decide (pid = p_id project) | _ => false end in
  let? same :=
    if own_project then
      let? dep_task_id := get_task_id dep_task_target in
      let? task_id := get_task_id (t_target task) in
      Ok (bool_decide (dep_task_id = task_id))
    else Ok false in
  if same : bool then Ok s
  else
    let? task_dep := check_and_create_dep task dep_task_target dep_task_options dep_config in
    let project' :=
      if link then
        match create_project_dep_from_task_dep task_dep (p_id project) root_project_id
          (λ dep_project_id,
             bool_decide (dep_project_id ∈ p_aliases project) ||
             bool_decide (dep_project_id ∈ map pdep_id (p_dependencies project))) with
        | Some project_dep => add_dependency project project_dep
        | None => project
        end
      else project in
    Ok (project', if decide (task_dep ∈ deps) then deps else deps ++ [task_dep]).

(** The body of the loop over the dependencies. *)
Definition dep_config_step (task : Task) (s : Project * list TaskDependencyConfig)
  (dep_config : TaskDependencyConfig) : result (Project * list TaskDependencyConfig) :=
  let '(project, deps) := s in
  let? ' (project_ids, skip_if_missing, link) := dep_scope_projects project task dep_config in
  let? results := querent_tasks querent project_ids (get_task_scope (dep_target dep_config)) in
  if bool_decide (results = []) && negb skip_if_missing
  then Err (RTasksBuilder (missing_dep task dep_config))
  else ofold (dep_match_step task dep_config link) (project, deps) results.

(** [TaskDepsBuilder::build]: the project and the task, which it both changes *)
Definition TaskDepsBuilder_build (project : Project) (task : Task) : result (Project * Task) :=
  let? ' (project', deps) := ofold (dep_config_step task) (project, []) (t_deps task) in
  Ok (project', set_deps task deps).
End Builder.
