(* ===== verification/TaskDepsFacts.v ===== *)
(** * Properties of [TaskDepsBuilder]

The dependencies of a built task are those its configuration describes: nothing
is missing, nothing is listed twice, and each of them may be depended on. *)

From S2P Require Import Prelude Errors Target Config TaskDeps.

(** [p'] is [p] with more dependencies. *)
Definition extends (p p' : Project) : Prop :=
  ∃ more, p' = mkProject (p_aliases p) (p_config p) (p_dependencies p ++ more) (p_file_groups p) (p_id p) (p_language p)
    (p_layer p) (p_root p) (p_source p) (p_stack p) (p_task_targets p) (p_tasks p) (p_toolchains p).

Lemma extends_refl p : extends p p.
Proof. exists []. rewrite app_nil_r. by destruct p. Qed.

Lemma extends_trans p1 p2 p3 : extends p1 p2 → extends p2 p3 → extends p1 p3.
Proof. intros [m1 ->] [m2 ->]. exists (m1 ++ m2). cbn. by rewrite (assoc_L (++)). Qed.

Lemma extends_add p dep : extends p (add_dependency p dep).
Proof. by exists [dep]. Qed.

Lemma extends_id p p' : extends p p' → p_id p' = p_id p.
Proof. by intros [more ->]. Qed.

Lemma extends_link (link : bool) (dep : option ProjectDependencyConfig) p :
  extends p (if link then match dep with Some d => add_dependency p d | None => p end else p).
Proof. destruct link, dep; [apply extends_add|apply extends_refl..]. Qed.

(** The match is the task itself. *)
Definition is_own_task (pid : Id) (task : Task) (target : Target) : bool :=
  match get_project_id target, get_task_id target, get_task_id (t_target task) with
  | Ok p, Ok t, Ok t' => bool_decide (p = pid) && bool_decide (t = t')
  | _, _, _ => false
  end.

Section Facts.
Context (querent : TasksQuerent) (root_project_id : option Id).

Abbreviation step := (dep_match_step querent root_project_id).

(** What a match adds. *)
Lemma dep_match_step_Ok task dep_config link project deps target o project' deps' :
  step task dep_config link (project, deps) (target, o) = Ok (project', deps') →
  extends project project' ∧
  (is_own_task (p_id project) task target = true ∧ deps' = deps ∨
   ∃ d, check_and_create_dep querent task target o dep_config = Ok d ∧
     deps' = if decide (d ∈ deps) then deps else deps ++ [d]).
Proof.
  unfold dep_match_step, is_own_task. intros Hs.
  destruct (get_project_id target) as [pid| |]; cbn [obind] in Hs.
  - destruct (bool_decide (pid = p_id project)) eqn:Hp.
    + destruct (get_task_id target) as [tid| |]; [cbn [obind] in Hs|done..].
      destruct (get_task_id (t_target task)) as [tid'| |]; [cbn [obind] in Hs|done..].
      destruct (bool_decide (tid = tid')) eqn:Ht; cbn [obind] in Hs.
      * simplify_eq. split; [apply extends_refl|by left].
      * step_ok. split; [apply extends_link|right; eauto].
    + cbn [obind] in Hs. step_ok. split; [apply extends_link|right; eauto].
  - step_ok. split; [apply extends_link|right; eauto].
  - step_ok. split; [apply extends_link|right; eauto].
Qed.

(** [d] comes from one of the matches [l] of [dep_config]. *)
Definition made_from (task : Task) (dep_config : TaskDependencyConfig) (l : list (Target * TaskOptions))
  (d : TaskDependencyConfig) : Prop :=
  ∃ target o, (target, o) ∈ l ∧ check_and_create_dep querent task target o dep_config = Ok d.

(** Every match is the task itself, or a dependency was made of it. *)
Definition covered (task : Task) (pid : Id) (dep_config : TaskDependencyConfig)
  (l : list (Target * TaskOptions)) (deps : list TaskDependencyConfig) : Prop :=
  ∀ target o, (target, o) ∈ l → is_own_task pid task target = true ∨
    ∃ d, d ∈ deps ∧ check_and_create_dep querent task target o dep_config = Ok d.

Lemma covered_mono task pid dep_config l deps deps' :
  (∀ d, d ∈ deps → d ∈ deps') → covered task pid dep_config l deps →
  covered task pid dep_config l deps'.
Proof.
  intros Hsub Hc target o Hin. destruct (Hc target o Hin) as [?|(d & ? & ?)]; [by left|right; eauto].
Qed.

Lemma dep_matches_Ok task dep_config link l project deps project' deps' :
  NoDup deps →
  ofold (step task dep_config link) (project, deps) l = Ok (project', deps') →
  extends project project' ∧ NoDup deps' ∧ (∀ d, d ∈ deps → d ∈ deps') ∧
  (∀ d, d ∈ deps' → d ∈ deps ∨ made_from task dep_config l d) ∧
  covered task (p_id project) dep_config l deps'.
Proof.
  revert project deps. induction l as [|[target o] l IH]; intros project deps Hnd Hs; cbn [ofold] in Hs.
  { simplify_eq. split_and!; [apply extends_refl|done|done|by left|]. intros target o Hin.
    by apply elem_of_nil in Hin. }
  destruct (step task dep_config link (project, deps) (target, o)) as [[p1 deps1]| |] eqn:H1; [|done..].
  cbn [obind] in Hs. apply dep_match_step_Ok in H1 as [He1 H1].
  assert (NoDup deps1 ∧ (∀ d, d ∈ deps → d ∈ deps1) ∧
    (∀ d, d ∈ deps1 → d ∈ deps ∨ made_from task dep_config ((target, o) :: l) d) ∧
    covered task (p_id project) dep_config [(target, o)] deps1) as (Hnd1 & Hsub1 & Hfrom1 & Hcov1).
  { destruct H1 as [[Hown ->]|(d & Hd & ->)].
    - split_and!; [done|done|by left|]. intros t' o' [= -> ->]%list_elem_of_singleton. by left.
    - destruct (decide (d ∈ deps)) as [Hin|Hin].
      + split_and!; [done|done|by left|]. intros t' o' [= -> ->]%list_elem_of_singleton. right. eauto.
      + split_and!.
        * apply NoDup_app. split; [done|]. split; [|apply NoDup_singleton].
          intros x Hx ->%list_elem_of_singleton. done.
        * intros x Hx. apply elem_of_app. by left.
        * intros x [Hx|Hx%list_elem_of_singleton]%elem_of_app; [by left|]. subst x. right.
          exists target, o. split; [left|done].
        * intros t' o' [= -> ->]%list_elem_of_singleton. right. exists d. split; [|done].
          apply elem_of_app. right. by left. }
  destruct (IH _ _ Hnd1 Hs) as (He & Hnd' & Hsub & Hfrom & Hcov). split_and!.
  - by eapply extends_trans.
  - done.
  - auto.
  - intros d Hd. destruct (Hfrom d Hd) as [Hd1|(t' & o' & Hin & Hc)]; [by apply Hfrom1|].
    right. exists t', o'. split; [by right|done].
  - intros t' o' [Heq|Hin]%elem_of_cons.
    + eapply covered_mono; [exact Hsub|exact Hcov1|]. rewrite Heq. left.
    + rewrite <- (extends_id _ _ He1). by apply Hcov.
Qed.

(** What one configured dependency is resolved to, for the project [p]. *)
Record resolved (task : Task) (p : Project) (dep_config : TaskDependencyConfig)
    (l : list (Target * TaskOptions)) : Prop := {
  rs_found : ∃ ids skip link, dep_scope_projects querent p task dep_config = Ok (ids, skip, link) ∧
    querent_tasks querent ids (get_task_scope (dep_target dep_config)) = Ok l ∧
    (l = [] → skip = true);
}.

Lemma dep_config_step_Ok task dep_config project deps project' deps' :
  NoDup deps →
  dep_config_step querent root_project_id task (project, deps) dep_config = Ok (project', deps') →
  extends project project' ∧ NoDup deps' ∧ (∀ d, d ∈ deps → d ∈ deps') ∧
  ∃ l, resolved task project dep_config l ∧
    (∀ d, d ∈ deps' → d ∈ deps ∨ made_from task dep_config l d) ∧
    covered task (p_id project) dep_config l deps'.
Proof.
  intros Hnd. unfold dep_config_step.
  destruct (dep_scope_projects querent project task dep_config) as [[[ids skip] link]| |] eqn:H1; [|done..].
  cbn [obind]. destruct (querent_tasks querent ids _) as [l| |] eqn:H2; [|done..]. cbn [obind].
  destruct (bool_decide (l = []) && negb skip) eqn:Hsk; [done|]. intros Hs.
  destruct (dep_matches_Ok _ _ _ _ _ _ _ _ Hnd Hs) as (? & ? & ? & ? & ?).
  split_and!; [done..|]. exists l. split_and!; [|done..]. constructor. exists ids, skip, link.
  split_and!; [done..|]. intros ->. by destruct skip.
Qed.

(** All of them, for the projects in between. *)
Lemma dep_configs_Ok task configs project deps project' deps' :
  NoDup deps →
  ofold (dep_config_step querent root_project_id task) (project, deps) configs = Ok (project', deps') →
  extends project project' ∧ NoDup deps' ∧ (∀ d, d ∈ deps → d ∈ deps') ∧
  (∀ d, d ∈ deps' → d ∈ deps ∨ ∃ c p l, c ∈ configs ∧ extends project p ∧ extends p project' ∧
     resolved task p c l ∧ made_from task c l d) ∧
  (∀ c, c ∈ configs → ∃ p l, extends project p ∧ extends p project' ∧ resolved task p c l ∧
     covered task (p_id project) c l deps').
Proof.
  revert project deps. induction configs as [|c configs IH]; intros project deps Hnd Hs; cbn [ofold] in Hs.
  { simplify_eq. split_and!; [apply extends_refl|done|done|by left|]. intros c Hc.
    by apply elem_of_nil in Hc. }
  destruct (dep_config_step _ _ task (project, deps) c) as [[p1 deps1]| |] eqn:H1; [|done..].
  cbn [obind] in Hs.
  destruct (dep_config_step_Ok _ _ _ _ _ _ Hnd H1) as (He1 & Hnd1 & Hsub1 & l & Hr1 & Hf1 & Hc1).
  destruct (IH _ _ Hnd1 Hs) as (He & Hnd' & Hsub & Hf & Hc). split_and!.
  - by eapply extends_trans.
  - done.
  - auto.
  - intros d Hd. destruct (Hf d Hd) as [Hd1|(c' & p & l' & Hin & Hp & Hp' & Hr & Hm)].
    + destruct (Hf1 d Hd1) as [?|Hm]; [by left|]. right. exists c, project, l.
      split_and!; [left|apply extends_refl|by eapply extends_trans|done|done].
    + right. exists c', p, l'. split_and!; [by right|by eapply extends_trans|done..].
  - intros c' [->|Hin]%elem_of_cons.
    + exists project, l. split_and!; [apply extends_refl|by eapply extends_trans|done|].
      by eapply covered_mono.
    + destruct (Hc c' Hin) as (p & l' & Hp & Hp' & Hr & Hcov). exists p, l'.
      split_and!; [by eapply extends_trans|done|done|]. by rewrite <- (extends_id _ _ He1).
Qed.

(** *** What the scope of a dependency stands for *)

(** The projects a configured dependency of the project [p] is looked for in, and whether it
    may match nothing if that is not configured: all dependencies of [p] for [^], those of one
    scope for [^build] and the like, [p] itself for [~], one project by its identifier, or the
    other projects with a tag. *)
Inductive asks (p : Project) (c : TaskDependencyConfig) : list Id → bool → Prop :=
| asks_deps :
    project (dep_target c) = Deps → asks p c (pdep_id <$> p_dependencies p) true
| asks_deps_of scope :
    project (dep_target c) = DepsOf scope →
    asks p c (pdep_id <$> filter (λ dep, pdep_scope dep = config_scope scope) (p_dependencies p)) true
| asks_self :
    project (dep_target c) = OwnSelf → asks p c [p_id p] false
| asks_id pid :
    get_project_id (dep_target c) = Ok pid → asks p c [pid] false
| asks_tag tag ids :
    get_project_tag (dep_target c) = Some tag → query_projects_by_tag querent tag = Ok ids →
    asks p c (filter (λ id, id ≠ p_id p) ids) true.

(** [l] are the tasks of the projects asked for, and there are some unless they may be missing. *)
Definition resolves (p : Project) (c : TaskDependencyConfig) (l : list (Target * TaskOptions)) : Prop :=
  ∃ ids optional, asks p c ids optional ∧
    querent_tasks querent ids (get_task_scope (dep_target c)) = Ok l ∧
    (l = [] → default optional (dep_optional c) = true).

Lemma resolved_resolves task p c l : resolved task p c l → resolves p c l.
Proof.
  intros [(ids & skip & link & Hs & Hl & Hskip)]. unfold dep_scope_projects, get_project_scope in Hs.
  destruct (project (dep_target c)) eqn:Hp; simplify_eq.
  - eexists _, true. split; [by apply asks_deps|done].
  - eexists _, true. split; [exact (asks_deps_of p c _ Hp)|done].
  - eexists _, false. split; [|done]. apply asks_id. unfold get_project_id, get_project_scope. by rewrite Hp.
  - eexists _, false. split; [by apply asks_self|done].
  - destruct (query_projects_by_tag querent _) as [found| |] eqn:Hq; simplify_eq/=. eexists _, true. split; [|done].
    eapply asks_tag; [|done]. unfold get_project_tag, get_project_scope. by rewrite Hp.
Qed.

(** *** What is added to the project *)

(** The dependency of the project [pid] on the project of the task dependency [d]. *)
Definition dep_links (pid : Id) (d : TaskDependencyConfig) (dep : ProjectDependencyConfig) : Prop :=
  get_project_id (dep_target d) = Ok (pdep_id dep) ∧ pdep_id dep ≠ pid ∧
  pdep_scope dep = (if decide (root_project_id = Some (pdep_id dep)) then SRoot else SBuild).

Definition only_linked (p : Project) (s : Project * list TaskDependencyConfig) : Prop :=
  p_id s.1 = p_id p ∧
  ∀ dep, dep ∈ p_dependencies s.1 → dep ∈ p_dependencies p ∨ ∃ d, d ∈ s.2 ∧ dep_links (p_id p) d dep.

Lemma only_linked_step p s task c link found s' :
  only_linked p s → step task c link s found = Ok s' → only_linked p s'.
Proof.
  destruct s as [p1 deps], found as [target o]. intros [Hid Hs] Hstep. cbn in Hid, Hs. unfold dep_match_step in Hstep.
  step_ok. destruct a; [by simplify_eq|]. step_ok. rename a into d.
  set (deps' := if decide (d ∈ deps) then deps else _).
  assert (d ∈ deps' ∧ ∀ x, x ∈ deps → x ∈ deps') as [Hd Hsub]
    by (unfold deps'; case_decide; set_solver).
  assert (∀ dep, dep ∈ p_dependencies p1 → dep ∈ p_dependencies p ∨ ∃ d, d ∈ deps' ∧ dep_links (p_id p) d dep) as Hold.
  { intros dep [?|(x & ? & ?)]%Hs; [by left|right; eauto]. }
  destruct link; [|done]. destruct (create_project_dep_from_task_dep _ _ _ _) as [dep'|] eqn:Hdep; [|done].
  split; [done|]. cbn. intros dep [?| ->%list_elem_of_singleton]%elem_of_app; [by apply Hold|]. right. exists d. split; [done|].
  unfold create_project_dep_from_task_dep in Hdep. destruct (get_project_id (dep_target d)) as [pid| |] eqn:Hpid; [|done..].
  case_bool_decide as Hne; [done|]. destruct (_ || _); [done|]. injection Hdep as <-. cbn. split; [done|]. split; [intros Heq; apply Hne; rewrite Hid; done|done].
Qed.

Lemma dep_configs_linked task configs project s :
  ofold (dep_config_step querent root_project_id task) (project, []) configs = Ok s → only_linked project s.
Proof.
  apply (ofold_ind (only_linked project)); [|split; [done|by left]].
  intros [p1 deps] c s' _ Hs. unfold dep_config_step. intros Hstep. step_ok. destruct a as [[ids skip] link].
  step_ok. destruct (_ && _); [done|]. revert Hstep. apply (ofold_ind (only_linked project)); [|done].
  intros. by eapply only_linked_step.
Qed.

(** The checks of a dependency. *)
Definition dep_allowed (task : Task) (o : TaskOptions) : Prop :=
  o_allow_failure o = false ∧ (o_persistent o = true → o_persistent (t_options task) = true) ∧
  (TaskOptionRunInCI_is_enabled (o_run_in_ci o) = false →
   TaskOptionRunInCI_is_enabled (o_run_in_ci (t_options task)) = true →
   o_run_in_ci (t_options task) = Skip).

Lemma check_and_create_dep_Ok task target o dep_config d :
  check_and_create_dep querent task target o dep_config = Ok d →
  dep_allowed task o ∧ dep_target d = target ∧ dep_args d = dep_args dep_config ∧
  dep_env d = dep_env dep_config ∧ dep_optional d = dep_optional dep_config ∧
  dep_cache_strategy d = Some (default (if query_task_has_outputs querent target then CacheHash
                                        else CacheIgnored) (dep_cache_strategy dep_config)).
Proof.
  unfold check_and_create_dep, dep_allowed. destruct (o_allow_failure o); [done|].
  destruct (TaskOptionRunInCI_is_enabled (o_run_in_ci o)) eqn:H1,
    (TaskOptionRunInCI_is_enabled (o_run_in_ci (t_options task))) eqn:H2; cbn;
    repeat case_bool_decide; cbn;
    destruct (o_persistent o), (o_persistent (t_options task)); cbn; intros [= <-]; cbn;
    split_and!; try done; exfalso;
    match goal with Hs : o_run_in_ci o = Skip |- _ => by rewrite Hs in H1 end.
Qed.
End Facts.
