(* ===== verification/InheritedTasks.v ===== *)
(** * Inherited configuration ([crates/config])

The configuration that projects inherit from the files under [.moon/tasks]
([inherited_tasks_config.rs]): which files apply to a project, in which order, and
what is added to their tasks ([inherited_tasks_manager.rs]). *)

From S2P Require Import Prelude Errors Target Shapes Config.
#[local] Open Scope string_scope.

(** [InheritFor] *)
Record InheritFor : Type := mkInheritFor {
  for_language : option LanguageType;
  for_layer : option LayerType;
  for_root : option string;
  for_stack : option StackType;
  for_tags : option (list Id);
  for_toolchains : option (list Id);
}.

(** [InheritedClauseConfig] and [matches] *)
Record InheritedClauseConfig : Type := mkInheritedClause {
  clause_and : option (list Id);
  clause_or : option (list Id);
  clause_not : option (list Id);
}.

Definition clause_matches (c : InheritedClauseConfig) (values : list Id) : bool :=
  let holds (test : list Id → bool) (ids : option (list Id)) : bool :=
    match ids with Some ids => test ids | None => true end in
  let contained (id : Id) : bool := bool_decide (id ∈ values) in
  match clause_not c, clause_and c, clause_or c with
  | None, None, None => false
  | _, _, _ =>
      holds (λ ids, negb (existsb contained ids)) (clause_not c) &&
      holds (forallb contained) (clause_and c) &&
      holds (existsb contained) (clause_or c)
  end.

(** [InheritedConditionConfig] and [matches] *)
Inductive InheritedConditionConfig : Type :=
| ConditionOne (id : Id)
| ConditionMany (ids : list Id)
| ConditionClause (clause : InheritedClauseConfig).

Definition condition_matches (c : InheritedConditionConfig) (values : list Id) : bool :=
  match c with
  | ConditionClause inner => clause_matches inner values
  | ConditionMany inner => existsb (λ value, bool_decide (value ∈ inner)) values
  | ConditionOne inner => bool_decide (inner ∈ values)
  end.

(** [InheritedByConfig] *)
Record InheritedByConfig : Type := mkInheritedBy {
  by_order : option nat;
  by_files : option (list FilePath);
  by_languages : option (list LanguageType);
  by_layers : option (list LayerType);
  by_stacks : option (list StackType);
  by_tags : option InheritedConditionConfig;
  by_toolchains : option InheritedConditionConfig;
}.

(** [default_toolchain] *)
Definition default_toolchain (by_ : InheritedByConfig) : option Id :=
  match by_toolchains by_ with
  | Some (ConditionOne id) | Some (ConditionMany [id]) => Some id
  | _ => None
  end.

(** [order] *)
Definition inherited_order (by_ : InheritedByConfig) : nat :=
  let amount {A} (o : option A) (n : nat) : nat := match o with Some _ => n | None => 0 end in
  match by_order by_ with
  | Some order => order
  | None =>
      (match by_toolchains by_, by_languages by_ with None, None => 0 | _, _ => 50 end +
       amount (by_stacks by_) 100 + amount (by_layers by_) 150 + amount (by_tags by_) 500)%nat
  end.

(** [InheritedTasksConfig]; the tasks are in the order of their identifiers *)
Record InheritedTasksConfig : Type := mkInheritedTasksConfig {
  itc_env : EnvMap;
  itc_file_groups : gmap Id (list Input);
  itc_implicit_deps : list TaskDependency;
  itc_implicit_inputs : list Input;
  itc_inherited_by : option InheritedByConfig;
  itc_tasks : list (Id * TaskConfig);
  itc_task_options : option TaskOptionsConfig;
}.

(** [InheritedTasks]: the configurations by their path, in order, and the paths a
    task is inherited from *)
Record InheritedTasks : Type := mkInheritedTasks {
  it_configs : list (string * InheritedTasksConfig);
  it_layers : gmap string (list string);
}.

(** [InheritedTasksEntry]; an [InheritedTasksManager] is the list of its entries. *)
Record InheritedTasksEntry : Type := mkInheritedTasksEntry {
  ite_input : WorkspaceRelativePath;
  ite_config : InheritedTasksConfig;
}.

(** [root.join(file).exists()] *)
Class FileExists : Type := {
  exists_in : string → FilePath → bool;
}.

(** A condition applies when it is configured and the value is known. *)
Definition condition_holds {A B} (condition : option A) (value : option B) (test : A → B → bool) :
  bool :=
  match condition, value with
  | Some condition, Some value => test condition value
  | _, _ => true
  end.

(** [InheritedByConfig::matches] *)
Definition by_matches `{FileExists} (by_ : InheritedByConfig) (input : InheritFor) : bool :=
  condition_holds (by_stacks by_) (for_stack input) (λ l v, bool_decide (v ∈ l)) &&
  condition_holds (by_languages by_) (for_language input) (λ l v, bool_decide (v ∈ l)) &&
  condition_holds (by_layers by_) (for_layer input) (λ l v, bool_decide (v ∈ l)) &&
  condition_holds (by_tags by_) (for_tags input) condition_matches &&
  condition_holds (by_toolchains by_) (for_toolchains input) condition_matches &&
  condition_holds (by_files by_) (for_root input) (λ files root, existsb (exists_in root) files).

(** The order of the entries: by [order], then by path. *)
Definition entry_order (entry : InheritedTasksEntry) : nat :=
  match itc_inherited_by (ite_config entry) with
  | Some by_ => inherited_order by_
  | None => 0
  end.

Definition entry_le (e1 e2 : InheritedTasksEntry) : Prop :=
  (entry_order e1 < entry_order e2)%nat ∨
  entry_order e1 = entry_order e2 ∧ String.le (ite_input e1) (ite_input e2).

#[export] Instance entry_le_dec : RelDecision entry_le.
Proof. intros e1 e2. unfold entry_le. apply _. Defined.

(** [map.entry(key).or_default().push(value)] *)
Definition layers_push (layers : gmap string (list string)) (key value : string) :
  gmap string (list string) :=
  <[key := (default [] (layers !! key) ++ [value])%list]> layers.

Section Manager.
Context `{IdSyntax, ConfigSyntax, FileExists}.

(** [match_inherited_configs_in_order] *)
Definition entry_matches (input : InheritFor) (entry : InheritedTasksEntry) : bool :=
  match itc_inherited_by (ite_config entry) with
  | Some by_ => by_matches by_ input
  | None => true
  end.

Definition match_inherited_configs_in_order (configs : list InheritedTasksEntry)
  (input : InheritFor) : list InheritedTasksEntry :=
  merge_sort entry_le (filter (λ entry, entry_matches input entry = true) configs).

(** What a task inherits from the file it is configured in. *)
Definition inherit_source (source_input : Input) (toolchain : option Id) (task : TaskConfig) :
  TaskConfig :=
  mkTaskConfig (cfg_extends task) (cfg_description task) (cfg_command task) (cfg_args task)
    (cfg_checks task) (cfg_deps task) (cfg_env task) (cfg_global_inputs task ++ [source_input])%list
    (cfg_inputs task) (cfg_outputs task) (cfg_options task) (cfg_preset task) (cfg_script task)
    (cfg_tags task)
    (match cfg_toolchains task with Some ids => Some ids | None => (λ id, [id]) <$> toolchain end)
    (cfg_type_of task).

(** The body of the loop of [get_inherited_config] *)
Definition inherit_entry (inherited : InheritedTasks) (entry : InheritedTasksEntry) :
  result InheritedTasks :=
  let source_path := standardize_separators (ite_input entry) in
  let config := ite_config entry in
  let toolchain := itc_inherited_by config ≫= default_toolchain in
  let? tasks := omap_list (λ '(task_id, task),
    let? source_input := Input_parse ("/" ++ source_path) in
    Ok (task_id, inherit_source source_input toolchain task)) (itc_tasks config) in
  Ok (mkInheritedTasks
        (index_insert (it_configs inherited) source_path
           (mkInheritedTasksConfig (itc_env config) (itc_file_groups config)
              (itc_implicit_deps config) (itc_implicit_inputs config) (itc_inherited_by config)
              tasks (itc_task_options config)))
        (fold_left (λ layers '(task_id, _), layers_push layers task_id source_path) (itc_tasks config)
           (it_layers inherited))).

(** [get_inherited_config] *)
Definition get_inherited_config (configs : list InheritedTasksEntry) (input : InheritFor) :
  result InheritedTasks :=
  ofold inherit_entry (mkInheritedTasks [] ∅) (match_inherited_configs_in_order configs input).
End Manager.

(** ** Properties *)

#[export] Instance entry_le_trans : Transitive entry_le.
Proof.
  intros e1 e2 e3 [H12|[H12 H12']] [H23|[H23 H23']]; [left; lia..|].
  right. split; [congruence|]. by etrans.
Qed.

#[export] Instance entry_le_total : Total entry_le.
Proof.
  intros e1 e2. unfold entry_le.
  destruct (lt_eq_lt_dec (entry_order e1) (entry_order e2)) as [[Hlt|Heq]|Hlt]; [by left; left| |by right; left].
  destruct (total String.le (ite_input e1) (ite_input e2)) as [Hle|Hle]; [left|right]; right; auto.
Qed.

Section Order.
Context `{FileExists}.

(** The files that apply to a project do not depend on the order in which they were
    found. *)
Lemma match_inherited_configs_perm configs configs' input :
  NoDup (map ite_input configs) → configs ≡ₚ configs' →
  match_inherited_configs_in_order configs input = match_inherited_configs_in_order configs' input.
Proof.
  intros Hnd Hp. unfold match_inherited_configs_in_order.
  set (l := filter _ configs). set (l' := filter _ configs').
  assert (l ≡ₚ l') as Hl by by apply filter_Permutation.
  apply (StronglySorted_unique_strong entry_le).
  - intros e1 e2. rewrite !merge_sort_Permutation, <-Hl. unfold l.
    rewrite !list_elem_of_filter. intros [_ He1] [_ He2] H1 H2.
    apply (NoDup_fmap_inj ite_input configs); [done..|].
    destruct H1 as [H1|[H1 H1']], H2 as [H2|[H2 H2']]; [lia..|]. by apply (anti_symm String.le).
  - apply StronglySorted_merge_sort; apply _.
  - apply StronglySorted_merge_sort; apply _.
  - by rewrite !merge_sort_Permutation.
Qed.
End Order.
