(* ===== verification/TasksBuilder.v ===== *)
(** * Building tasks ([crates/task-builder/src/tasks_builder.rs])

[TasksBuilder] collects the tasks a project inherits and those it configures, follows
what they extend, merges the configurations of each task, and builds the [Task].  The
parser of command lines ([starbase_args]), the plugins and the operating system are
parameters. *)

From S2P Require Import Prelude Errors Target Shapes Config EnvVar InheritedTasks.
#[local] Open Scope string_scope.

(** ** The crate [starbase_args], as the code inspects its results *)

(** [Value]: whether it is one of the kinds that need a shell (an expansion or a
    substitution; a Murex brace quotation or a Nu raw quotation), its text without
    quotes if it is quoted, and [to_string] and [as_str]. *)
Record ArgValue : Type := mkArgValue {
  av_expands : bool;
  av_shell_quoted : bool;
  av_quoted_value : option string;
  av_to_string : string;
  av_as_str : string;
}.

(** [Argument]: a value, an assignment [key=value], or something else; the last two
    with their text. *)
Inductive Argument : Type :=
| ArgumentValue (value : ArgValue)
| ArgumentEnvVar (key : string) (value : ArgValue) (text : string)
| ArgumentOther (text : string).

Inductive Sequence : Type :=
| SequenceStart (command : list Argument)
| SequenceThen (command : list Argument)
| SequencePassthrough (command : list Argument)
| SequenceStop (term : string)
| SequenceOther.

Inductive ArgPipeline : Type :=
| PipelineStart (commands : list Sequence)
| PipelineOther.

(** What building tasks needs from elsewhere. *)
Class TasksHost : Type := {
  (** [starbase_args::parse]: the command line, or the position of the error *)
  parse_args : string → (list ArgPipeline) + string;
  (** the metadata [exe_names] of a toolchain, after loading its plugin *)
  plugin_exe_names : Id → result (list string);
  (** [define_requirements_many] for all plugins: what each of them requires *)
  plugin_requirements : result (list (Id * list string));
  (** [is_command_on_path], [consts::OS] *)
  command_on_path : string → bool;
  current_os : string;
  (** [config_loader.dir_prefix], and the extensions of configuration files *)
  config_dir_prefix : string;
  config_extensions : list string;
}.

(** ** Toolchains ([crates/toolchain], [crates/toolchain-plugin]) *)

(** An [IndexSet] is the list of its elements in the order they were added. *)
Definition index_set_insert (l : list Id) (id : Id) : list Id :=
  if decide (id ∈ l) then l else (l ++ [id])%list.

(** [filter_and_resolve_toolchain_ids] *)
Definition resolve_toolchain_step (enabled_list : list Id) (out_list : list Id) (id : Id) : list Id :=
  if decide (id = "system") then index_set_insert out_list id
  else
    let '(stable_id, unstable_id) := stable_and_unstable id in
    if decide (unstable_id ∈ enabled_list) then index_set_insert out_list unstable_id
    else if decide (stable_id ∈ enabled_list) then index_set_insert out_list stable_id
    else out_list.

Definition filter_and_resolve_toolchain_ids (enabled_list in_list : list Id) (fallback_system : bool) :
  list Id :=
  let out_list := fold_left (resolve_toolchain_step enabled_list) in_list [] in
  if bool_decide (out_list = []) && fallback_system then ["system"] else out_list.

(** [ToolchainPlugin::detect_task_usage], with the executables of the plugin *)
Definition plugin_detect_task_usage (exe_names : list string) (command : string) : bool :=
  bool_decide (command ∈ exe_names) ||
  existsb (λ exe,
    match split_once "-" exe with
    | Some (name, version) =>
        bool_decide (name = exe) && str_all (λ ch, is_digit ch || Ascii.eqb ch ".") version
    | None => false
    end) exe_names.

Section Toolchains.
Context `{TasksHost}.

(** [ToolchainRegistry::detect_task_usage] *)
Definition detect_task_usage (ids : list Id) (command : string) : result (list Id) :=
  let? toolchains := omap_list (λ id, let? exe_names := plugin_exe_names id in Ok (id, exe_names)) ids in
  Ok (elements (list_to_set
        (filter (λ '(_, exe_names), plugin_detect_task_usage exe_names command = true) toolchains).*1
      : gset Id)).

(** [ToolchainRegistry::expand_task_usage] *)
Definition expand_usage_step `{IdSyntax} (expanded : gset Id) (requirement : Id * list string) :
  result (gset Id) :=
  let '(id, requires) := requirement in
  if bool_decide (id ∈ expanded) || existsb (λ id, bool_decide (id ∈ expanded)) requires then
    let? expanded := ofold (λ expanded require_id,
      let? require_id := Id_parse require_id in Ok ({[require_id]} ∪ expanded)) expanded requires in
    Ok ({[id]} ∪ expanded)
  else Ok expanded.

Definition expand_task_usage `{IdSyntax} (ids : list Id) : result (list Id) :=
  let? results := plugin_requirements in
  let? expanded := ofold expand_usage_step (list_to_set ids : gset Id) results in
  Ok (elements expanded).
End Toolchains.

(** ** Environment variables ([crates/env-var/src/lib.rs]) *)

(** [encode_component] ([common/src/path.rs]) *)
Definition encode_char (c : ascii) : list ascii :=
  if decide (c ∈ ["@"; "*"]%char) then []
  else if decide (c ∈ ["/"; ":"]%char) then ["-"%char]
  else [c].

Fixpoint trim_start_chars (l : list ascii) : list ascii :=
  match l with
  | c :: l' => if decide (c ∈ ["-"; "."]%char) then trim_start_chars l' else l
  | [] => []
  end.

Definition encode_component (value : string) : string :=
  string_of_list_ascii (rev (trim_start_chars (rev (trim_start_chars
    (flat_map encode_char (str_chars value)))))).

(** ** The builder *)

(** [CommandLineParseResult]; [command] is only set by [get_command_line] *)
Record CommandLineParseResult : Type := mkCommandLine {
  cl_command : option TaskArg;
  cl_args : option (list TaskArg);
  cl_env : option EnvMap;
  cl_requires_shell : bool;
}.

Definition CommandLine_default : CommandLineParseResult := mkCommandLine None None None false.

(** [ConfigChain] *)
Record ConfigChain : Type := mkConfigChain {
  link_config : TaskConfig;
  link_inherited : bool;
}.

(** The configurations of a task: the inherited ones, then its own. *)
Definition task_configs (local_tasks : gmap Id TaskConfig) (global_tasks : gmap Id (list TaskConfig))
  (task_id : Id) : list ConfigChain :=
  (((λ config, mkConfigChain config true) <$> default [] (global_tasks !! task_id)) ++
   match local_tasks !! task_id with Some config => [mkConfigChain config false] | None => [] end)%list.

(** [extract_config]: a task comes after the task it extends.  Nothing bounds the
    recursion but [fuel]. *)
Fixpoint extract_config (fuel : nat) (local_tasks : gmap Id TaskConfig)
  (global_tasks : gmap Id (list TaskConfig)) (task_id : Id) : result (list ConfigChain) :=
  match fuel with
  | 0 => OutOfFuel
  | S fuel' =>
      ofold (λ stack link,
        match cfg_extends (link_config link) with
        | Some extend_task_id =>
            let? extended_stack := extract_config fuel' local_tasks global_tasks extend_task_id in
            match extended_stack with
            | [] => Err (RTasksBuilder (UnknownExtendsSource task_id extend_task_id))
            | _ :: _ => Ok (stack ++ extended_stack ++ [link])%list
            end
        | None => Ok (stack ++ [link])%list
        end) [] (task_configs local_tasks global_tasks task_id)
  end.

(** [TasksBuilder], with the parts of [TasksBuilderContext] that are not behind
    [TasksHost] *)
Record TasksBuilder : Type := mkTasksBuilder {
  tb_enabled_toolchains : list Id;
  tb_monorepo : bool;
  tb_project_id : Id;
  tb_project_dependencies : list ProjectDependencyConfig;
  tb_project_env : gmap string (option string);
  tb_project_source : WorkspaceRelativePath;
  tb_project_toolchains : list Id;
  tb_implicit_deps : list TaskDependency;
  tb_implicit_inputs : list Input;
  tb_task_ids : gset Id;
  tb_global_tasks : gmap Id (list TaskConfig);
  tb_local_tasks : gmap Id TaskConfig;
  tb_shared_task_options : list TaskOptionsConfig;
  tb_filters : option ProjectWorkspaceInheritedTasksConfig;
}.

(** [TasksBuilder::new] *)
Definition TasksBuilder_new (project_id : Id) (project_dependencies : list ProjectDependencyConfig)
  (project_source : WorkspaceRelativePath) (project_toolchains enabled_toolchains : list Id)
  (monorepo : bool) : TasksBuilder :=
  mkTasksBuilder enabled_toolchains monorepo project_id project_dependencies ∅ project_source
    project_toolchains [] [] ∅ ∅ ∅ [] None.

(** Whether the filters let a task be inherited, and under which identifier. *)
Definition is_inherited (filters : option ProjectWorkspaceInheritedTasksConfig) (task_id : Id) : bool :=
  match filters with
  | Some filters =>
      match filter_include filters with
      | Some include => bool_decide (task_id ∈ include)
      | None => true
      end && negb (bool_decide (task_id ∈ filter_exclude filters))
  | None => true
  end.

Definition inherited_key (filters : option ProjectWorkspaceInheritedTasksConfig) (task_id : Id) : Id :=
  match filters with
  | Some filters => default task_id (filter_rename filters !! task_id)
  | None => task_id
  end.

(** The body of the loop over the tasks of a configuration. *)
Definition inherit_task (filters : option ProjectWorkspaceInheritedTasksConfig)
  (acc : gset Id * gmap Id (list TaskConfig)) (task : Id * TaskConfig) :
  gset Id * gmap Id (list TaskConfig) :=
  let '(ids, global_tasks) := acc in
  let '(task_id, task_config) := task in
  if is_inherited filters task_id then
    let task_key := inherited_key filters task_id in
    ({[task_key]} ∪ ids,
     <[task_key := (default [] (global_tasks !! task_key) ++ [task_config])%list]> global_tasks)
  else acc.

(** The body of the loop of [inherit_global_tasks]. *)
Definition inherit_config (filters : option ProjectWorkspaceInheritedTasksConfig) (b : TasksBuilder)
  (config : InheritedTasksConfig) : TasksBuilder :=
  let '(ids, global_tasks) :=
    fold_left (inherit_task filters) (itc_tasks config) (tb_task_ids b, tb_global_tasks b) in
  mkTasksBuilder (tb_enabled_toolchains b) (tb_monorepo b) (tb_project_id b)
    (tb_project_dependencies b) (tb_project_env b) (tb_project_source b) (tb_project_toolchains b)
    (tb_implicit_deps b ++ itc_implicit_deps config)%list
    (tb_implicit_inputs b ++ itc_implicit_inputs config)%list
    ids global_tasks (tb_local_tasks b)
    (tb_shared_task_options b ++ option_list (itc_task_options config))%list (tb_filters b).

(** [inherit_global_tasks] *)
Definition inherit_global_tasks (b : TasksBuilder) (global_configs : list (string * InheritedTasksConfig))
  (filters : option ProjectWorkspaceInheritedTasksConfig) : TasksBuilder :=
  let b := fold_left (inherit_config filters) global_configs.*2 b in
  mkTasksBuilder (tb_enabled_toolchains b) (tb_monorepo b) (tb_project_id b)
    (tb_project_dependencies b) (tb_project_env b) (tb_project_source b) (tb_project_toolchains b)
    (tb_implicit_deps b) (tb_implicit_inputs b) (tb_task_ids b) (tb_global_tasks b)
    (tb_local_tasks b) (tb_shared_task_options b) filters.

(** [load_local_tasks] *)
Definition load_local_tasks (b : TasksBuilder) (local_config : ProjectConfig) : TasksBuilder :=
  mkTasksBuilder (tb_enabled_toolchains b) (tb_monorepo b) (tb_project_id b)
    (tb_project_dependencies b)
    (fold_left (λ env '(key, value), <[key := value]> env) (config_env local_config) (tb_project_env b))
    (tb_project_source b) (tb_project_toolchains b) (tb_implicit_deps b) (tb_implicit_inputs b)
    (dom (config_tasks local_config) ∪ tb_task_ids b) (tb_global_tasks b)
    (config_tasks local_config ∪ tb_local_tasks b)
    (tb_shared_task_options b ++ option_list (config_task_options local_config))%list (tb_filters b).

(** Tasks in the order of their identifiers. *)
Definition task_le (t1 t2 : Id * Task) : Prop := String.le t1.1 t2.1.
#[export] Instance task_le_dec : RelDecision task_le := λ t1 t2, decide (String.le t1.1 t2.1).

Section Build.
Context `{TasksHost, IdSyntax, ConfigSyntax}.
Implicit Types (b : TasksBuilder).

(** [get_config_inherit_chain]: the recursion visits a task once, unless tasks extend
    each other. *)
Definition get_config_inherit_chain b (id : Id) : result (list ConfigChain) :=
  extract_config (S (size (dom (tb_local_tasks b) ∪ dom (tb_global_tasks b)))) (tb_local_tasks b)
    (tb_global_tasks b) id.

(** *** Command lines *)

(** What the closure [handle_arg] changes: the arguments, the environment and
    [requires_shell]. *)
Abbreviation arg_state := (list TaskArg * EnvMap * bool)%type.

Definition handle_arg (extract_env : bool) (s : arg_state) (arg : Argument) : arg_state :=
  let '(args, env, requires_shell) := s in
  match arg with
  | ArgumentValue value =>
      ((args ++ [match av_quoted_value value with
                 | Some quoted => TaskArg_new_quoted quoted (av_to_string value)
                 | None => TaskArg_new_unquoted (av_to_string value)
                 end])%list,
       env, requires_shell || av_expands value || av_shell_quoted value)
  | ArgumentEnvVar key value text =>
      if extract_env then
        (args, if av_expands value then env else index_insert env key (Some (av_as_str value)),
         requires_shell)
      else ((args ++ [TaskArg_new_unquoted text])%list, env, requires_shell)
  | ArgumentOther text => ((args ++ [TaskArg_new_unquoted text])%list, env, requires_shell)
  end.

Definition is_env_var (arg : Argument) : bool :=
  match arg with ArgumentEnvVar _ _ _ => true | _ => false end.

(** The loop over the arguments of a command: variables are only taken from its
    start. *)
Fixpoint handle_command (extract_env : bool) (s : arg_state) (command : list Argument) : arg_state :=
  match command with
  | [] => s
  | arg :: command' =>
      handle_command (extract_env && is_env_var arg) (handle_arg extract_env s arg) command'
  end.

(** [Argument::Value(Value::Unquoted("--".into()))] *)
Definition dashes : Argument := ArgumentValue (mkArgValue false false None "--" "--").

(** The body of the loop over the sequences, with [allow_next_sequence]. *)
Definition handle_sequence (target : Target) (acc : arg_state * bool) (sequence : Sequence) :
  result (arg_state * bool) :=
  let '(s, allow_next_sequence) := acc in
  let unsupported := Err (RTasksBuilder (UnsupportedCommandSyntax (Target.id target))) in
  match sequence with
  | SequenceStart command | SequenceThen command =>
      if allow_next_sequence then Ok (handle_command true s command, forallb is_env_var command)
      else unsupported
  | SequencePassthrough command =>
      Ok (fold_left (handle_arg false) (dashes :: command) s, allow_next_sequence)
  | SequenceStop term =>
      if decide (term = "--") then Ok (handle_arg false s dashes, allow_next_sequence)
      else if decide (term = ";" ∨ term = String "010" "") then Ok acc
      else unsupported
  | SequenceOther => unsupported
  end.

Definition handle_pipeline (target : Target) (s : arg_state) (pipeline : ArgPipeline) :
  result arg_state :=
  match pipeline with
  | PipelineStart commands =>
      let? ' (s, _) := ofold (handle_sequence target) (s, true) commands in Ok s
  | PipelineOther => Err (RTasksBuilder (UnsupportedCommandSyntax (Target.id target)))
  end.

(** [parse_command_line] *)
Definition parse_command_line (target : Target) (args : TaskArgs) : result CommandLineParseResult :=
  match args with
  | ArgsNoop | ArgsString "" => Ok CommandLine_default
  | ArgsList list => Ok (mkCommandLine None (Some (TaskArg_new <$> list)) None false)
  | ArgsString cmd =>
      match parse_args cmd with
      | inr position => Err (RTasksBuilder (InvalidCommandSyntax (Target.id target) cmd position))
      | inl command_line =>
          let? ' (args, env, requires_shell) :=
            ofold (handle_pipeline target) ([], [], false) command_line in
          Ok (mkCommandLine None
                (match args with [] => None | _ => Some args end)
                (match env with [] => None | _ => Some env end) requires_shell)
      end
  end.

(** [get_command_line]; [args.remove(0)] panics on an empty list *)
Definition get_command_line (target : Target) (config : TaskConfig) :
  result (option CommandLineParseResult) :=
  match cfg_script config with
  | Some _ => Ok None
  | None =>
      let? parsed := parse_command_line target (cfg_command config) in
      let? ' (command, args) :=
        match cl_args parsed with
        | Some (command :: args) => Ok (Some command, Some args)
        | Some [] => Err (Foreign "removal index (is 0) should be < len (is 0)")
        | None => Ok (None, None)
        end in
      let? more := parse_command_line target (cfg_args config) in
      Ok (Some (mkCommandLine command
            (match cl_args more with
             | Some more_args => Some (default [] args ++ more_args)%list
             | None => args
             end)
            (match cl_env parsed, cl_env more with
             | None, None => None
             | env, more_env =>
                 Some (index_extend (index_extend [] (default [] env)) (default [] more_env))
             end)
            (cl_requires_shell parsed || cl_requires_shell more)))
  end.

(** *** Options *)

(** [get_task_options_from_preset], without the flag [set_run_in_ci] *)
Definition get_task_options_from_preset (preset : option TaskPreset) : TaskOptions :=
  let d := TaskOptions_default in
  match preset with
  | Some PresetUtility =>
      mkTaskOptions (o_affected_files d) (o_allow_failure d) (CacheEnabled false) (o_cache_key d)
        (o_cache_lifetime d) (o_env_files d) (o_infer_inputs d) (o_internal d) true
        (o_merge_args d) (o_merge_checks d) (o_merge_deps d) (o_merge_env d) (o_merge_inputs d)
        (o_merge_outputs d) (o_merge_tags d) (o_merge_toolchains d) (o_mutex d) (o_os d)
        (Some StyleStream) false (o_priority d) (o_retry_count d) (o_run_deps_in_parallel d) Skip
        (o_run_in_sync_phase d) (o_run_from_workspace_root d) (o_shell d) (o_timeout d)
        (o_unix_shell d) (o_windows_shell d)
  | Some PresetServer =>
      mkTaskOptions (o_affected_files d) (o_allow_failure d) (CacheEnabled false) (o_cache_key d)
        (o_cache_lifetime d) (o_env_files d) (o_infer_inputs d) (o_internal d) (o_interactive d)
        (o_merge_args d) (o_merge_checks d) (o_merge_deps d) (o_merge_env d) (o_merge_inputs d)
        (o_merge_outputs d) (o_merge_tags d) (o_merge_toolchains d) (o_mutex d) (o_os d)
        (Some StyleStream) true Low (o_retry_count d) (o_run_deps_in_parallel d) (Enabled false)
        (o_run_in_sync_phase d) (o_run_from_workspace_root d) (o_shell d) (o_timeout d)
        (o_unix_shell d) (o_windows_shell d)
  | None => d
  end.

(** [default_unix_shell], [default_windows_shell] *)
Definition default_unix_shell : TaskUnixShell := if command_on_path "bash" then UnixBash else UnixSh.
Definition default_windows_shell : TaskWindowsShell :=
  if command_on_path "pwsh" then WinPwsh else WinPowerShell.

(** [resolve_env_files] *)
Definition resolve_env_files (task_id : Id) (env_file : TaskOptionEnvFile) :
  result (option (list Input)) :=
  let paths :=
    match env_file with
    | EnvFileEnabled true =>
        let encoded_task_id := encode_component task_id in
        ["/.env"; "/.env.local"; ".env"; ".env.local"; ".env." ++ encoded_task_id;
         ".env." ++ encoded_task_id ++ ".local"]
    | EnvFileEnabled false => []
    | EnvFileFile path => [path]
    | EnvFileFiles paths => paths
    end in
  let? inputs := omap_list Input_parse paths in
  Ok (match inputs with [] => None | _ => Some inputs end).

(** The option [affected_files] *)
Definition affected_files_of (entry : TaskOptionAffectedFilesEntry) : TaskOptionAffectedFiles :=
  match entry with
  | AffectedPattern pattern => mkAffectedFiles [] false pattern false true
  | AffectedObject opt =>
      mkAffectedFiles (afc_filter opt) (default false (afc_ignore_project_boundary opt))
        (afc_pass opt) (default false (afc_pass_inputs_when_no_match opt))
        (default true (afc_pass_dot_when_no_results opt))
  end.

(** The value of a setting, or what is there without it. *)
Definition or_else {A} (setting previous : option A) : option A :=
  match setting with Some value => Some value | None => previous end.

(** Options with the flags [set_run_in_ci] and [shell_disabled] of the state. *)
Record OptionsState : Type := mkOptionsState {
  os_options : TaskOptions;
  os_set_run_in_ci : bool;
  os_shell_disabled : bool;
}.

(** The body of the loop of [build_task_options] *)
Definition merge_options (id : Id) (s : OptionsState) (c : TaskOptionsConfig) : result OptionsState :=
  let o := os_options s in
  let strategy (field : option MergeStrategy) (previous : MergeStrategy) : MergeStrategy :=
    default (default previous (oc_merge c)) field in
  let? env_files := match oc_env_file c with
                    | Some env_file => resolve_env_files id env_file
                    | None => Ok (o_env_files o)
                    end in
  Ok (mkOptionsState
        (mkTaskOptions
           (or_else (affected_files_of <$> oc_affected_files c) (o_affected_files o))
           (default (o_allow_failure o) (oc_allow_failure c))
           (default (o_cache o) (oc_cache c))
           (or_else (oc_cache_key c) (o_cache_key o))
           (or_else (oc_cache_lifetime c) (o_cache_lifetime o))
           env_files
           (default (o_infer_inputs o) (oc_infer_inputs c))
           (default (o_internal o) (oc_internal c))
           (default (o_interactive o) (oc_interactive c))
           (strategy (oc_merge_args c) (o_merge_args o))
           (strategy (oc_merge_checks c) (o_merge_checks o))
           (strategy (oc_merge_deps c) (o_merge_deps o))
           (strategy (oc_merge_env c) (o_merge_env o))
           (strategy (oc_merge_inputs c) (o_merge_inputs o))
           (strategy (oc_merge_outputs c) (o_merge_outputs o))
           (strategy (oc_merge_tags c) (o_merge_tags o))
           (strategy (oc_merge_toolchains c) (o_merge_toolchains o))
           (or_else (oc_mutex c) (o_mutex o))
           (or_else (oc_os c) (o_os o))
           (or_else (oc_output_style c) (o_output_style o))
           (default (o_persistent o) (oc_persistent c))
           (default (o_priority o) (oc_priority c))
           (default (o_retry_count o) (oc_retry_count c))
           (default (o_run_deps_in_parallel o) (oc_run_deps_in_parallel c))
           (default (o_run_in_ci o) (oc_run_in_ci c))
           (default (o_run_in_sync_phase o) (oc_run_in_sync_phase c))
           (default (o_run_from_workspace_root o) (oc_run_from_workspace_root c))
           (or_else (oc_shell c) (o_shell o))
           (or_else (oc_timeout c) (o_timeout o))
           (default (o_unix_shell o) (oc_unix_shell c))
           (default (o_windows_shell o) (oc_windows_shell c)))
        (match oc_run_in_ci c with Some _ => true | None => os_set_run_in_ci s end)
        (match oc_shell c with Some shell => negb shell | None => os_shell_disabled s end)).

(** Options with other values for what the special cases change. *)
Definition set_run (o : TaskOptions) (output_style : option TaskOutputStyle)
  (run_in_ci : TaskOptionRunInCI) (shell : option bool) : TaskOptions :=
  mkTaskOptions (o_affected_files o) (o_allow_failure o) (o_cache o) (o_cache_key o)
    (o_cache_lifetime o) (o_env_files o) (o_infer_inputs o) (o_internal o) (o_interactive o)
    (o_merge_args o) (o_merge_checks o) (o_merge_deps o) (o_merge_env o) (o_merge_inputs o)
    (o_merge_outputs o) (o_merge_tags o) (o_merge_toolchains o) (o_mutex o) (o_os o) output_style
    (o_persistent o) (o_priority o) (o_retry_count o) (o_run_deps_in_parallel o) run_in_ci
    (o_run_in_sync_phase o) (o_run_from_workspace_root o) shell (o_timeout o) (o_unix_shell o)
    (o_windows_shell o).

(** The options of a preset, with the shells of the system. *)
Definition initial_options (preset : option TaskPreset) : OptionsState :=
  let o := get_task_options_from_preset preset in
  mkOptionsState
    (mkTaskOptions (o_affected_files o) (o_allow_failure o) (o_cache o) (o_cache_key o)
       (o_cache_lifetime o) (o_env_files o) (o_infer_inputs o) (o_internal o) (o_interactive o)
       (o_merge_args o) (o_merge_checks o) (o_merge_deps o) (o_merge_env o) (o_merge_inputs o)
       (o_merge_outputs o) (o_merge_tags o) (o_merge_toolchains o) (o_mutex o) (o_os o)
       (o_output_style o) (o_persistent o) (o_priority o) (o_retry_count o)
       (o_run_deps_in_parallel o) (o_run_in_ci o) (o_run_in_sync_phase o)
       (o_run_from_workspace_root o) (o_shell o) (o_timeout o) default_unix_shell
       default_windows_shell)
    (match preset with Some _ => true | None => false end) false.

(** Interactive tasks stream, and do not run in CI. *)
Definition finish_options (s : OptionsState) : OptionsState :=
  let o := os_options s in
  if o_interactive o then
    if decide (o_run_in_ci o = Skip)
    then mkOptionsState (set_run o (Some StyleStream) Skip (o_shell o)) (os_set_run_in_ci s)
           (os_shell_disabled s)
    else mkOptionsState (set_run o (Some StyleStream) (Enabled false) (o_shell o)) true
           (os_shell_disabled s)
  else s.

(** [build_task_options] *)
Definition build_task_options b (id : Id) (preset : option TaskPreset) : result OptionsState :=
  let? links := get_config_inherit_chain b id in
  let chain := (tb_shared_task_options b ++ ((λ link, cfg_options (link_config link)) <$> links))%list in
  let? s := ofold (merge_options id) (initial_options preset) chain in
  Ok (finish_options s).

(** *** Inherited values *)

(** [inherit_global_deps], [inherit_global_inputs], [inherit_project_env] *)
Definition inherit_global_deps b : list TaskDependencyConfig := into_config <$> tb_implicit_deps b.

Definition config_glob : string :=
  "/" ++ config_dir_prefix ++ "/*.{" ++ str_join "," config_extensions ++ "}".

Definition inherit_global_inputs b (options : TaskOptions) : result (list Input) :=
  let? config_input := Input_parse config_glob in
  Ok (tb_implicit_inputs b ++ [config_input] ++ default [] (o_env_files options))%list.

Definition inherit_project_env b : EnvMap := map_to_list (tb_project_env b).

(** [apply_filters_to_deps], the body of its loop first; the [unwrap] of [new_self]
    panics when a task is renamed to something that is not an identifier *)
Definition filter_dep b (filters : ProjectWorkspaceInheritedTasksConfig)
  (next_deps : list TaskDependencyConfig) (dep : TaskDependencyConfig) :
  result (list TaskDependencyConfig) :=
  let is_own :=
    match Target.project (dep_target dep), get_project_id (dep_target dep) with
    | OwnSelf, _ => true
    | _, Ok id => bool_decide (id = tb_project_id b)
    | _, _ => false
    end in
  if is_own then
    match get_task_id (dep_target dep) with
    | Ok task_id =>
        if decide (task_id ∈ filter_exclude filters) then Ok next_deps
        else
          match filter_rename filters !! task_id with
          | Some new_task_id =>
              let? target := Target_new_self new_task_id in
              Ok (next_deps ++ [mkTaskDep (dep_args dep) (dep_cache_strategy dep) (dep_env dep) target
                                  (dep_optional dep)])%list
          | None => Ok (next_deps ++ [dep])%list
          end
    | _ => Ok (next_deps ++ [dep])%list
    end
  else Ok (next_deps ++ [dep])%list.

Definition apply_filters_to_deps b (deps : list TaskDependencyConfig) :
  result (list TaskDependencyConfig) :=
  match tb_filters b with
  | None => Ok deps
  | Some filters => ofold (filter_dep b filters) [] deps
  end.

(** [ProjectInput::get_deps_scope] *)
Definition get_deps_scope (input : ProjectInput) : option DependencyScope :=
  let project := pin_project input in
  if decide (project ∈ ["^dev"; "^development"]) then Some SDevelopment
  else if decide (project ∈ ["^prod"; "^production"]) then Some SProduction
  else if decide (project = "^peer") then Some SPeer
  else if decide (project = "^build") then Some SBuild
  else None.

(** [resolve_task_inputs], the body of its loop first *)
Definition resolve_input b (target : Target) (inputs : list Input) (input : Input) :
  result (list Input) :=
  match input with
  | InProject inner =>
      let with_project (dep : ProjectDependencyConfig) : Input :=
        InProject (mkProjectInput (pdep_id dep) (pin_filter inner) (pin_group inner)) in
      let deps := tb_project_dependencies b in
      if decide (pin_project inner = "^") then Ok (inputs ++ (with_project <$> deps))%list
      else
        match get_deps_scope inner with
        | Some scope =>
            Ok (inputs ++ (with_project <$> filter (λ dep, pdep_scope dep = scope) deps))%list
        | None =>
            if decide (pin_project inner ∈ (pdep_id <$> deps)) then Ok (inputs ++ [input])%list
            else Err (RTasksBuilder (UnknownProjectInput (pin_project inner) (Target.id target)))
        end
  | _ => Ok (inputs ++ [input])%list
  end.

Definition resolve_task_inputs b (target : Target) (inputs : list Input) : result (list Input) :=
  ofold (resolve_input b target) [] inputs.

(** [resolve_task_toolchains] *)
Definition resolve_task_toolchains b (toolchains : list Id) (command : TaskArg) : result (list Id) :=
  let? toolchains :=
    match toolchains with
    | [] => detect_task_usage (tb_enabled_toolchains b) (ta_value command)
    | _ => Ok (fold_left index_set_insert toolchains [])
    end in
  let toolchains := match toolchains with
                    | [] => fold_left index_set_insert (tb_project_toolchains b) []
                    | _ => toolchains
                    end in
  let? toolchains := expand_task_usage toolchains in
  Ok (filter_and_resolve_toolchain_ids (tb_enabled_toolchains b) toolchains true).

(** *** Building a task *)

(** What the first loop over the chain collects. *)
Record CommandParts : Type := mkCommandParts {
  cp_preset : option TaskPreset;
  cp_command : TaskArg;
  cp_args_sets : list (list TaskArg);
  cp_env_sets : list EnvMap;
  cp_requires_shell : bool;
}.

Definition collect_command (target : Target) (p : CommandParts) (link : ConfigChain) :
  result CommandParts :=
  let config := link_config link in
  let preset := or_else (cfg_preset config) (cp_preset p) in
  let? line := get_command_line target config in
  let line := default CommandLine_default line in
  Ok (mkCommandParts preset (default (cp_command p) (cl_command line))
        (cp_args_sets p ++ option_list (cl_args line))%list
        (cp_env_sets p ++ option_list (cl_env line))%list
        (cp_requires_shell p || cl_requires_shell line)).

(** The preset that comes with an identifier. *)
Definition implied_preset (id : Id) : option TaskPreset :=
  if decide (id ∈ ["dev"; "serve"; "start"]) then Some PresetServer else None.

(** What the second loop over the chain merges. *)
Record TaskParts : Type := mkTaskParts {
  tp_script : option string;
  tp_checks : list TaskCheck;
  tp_deps : list TaskDependencyConfig;
  tp_env : EnvMap;
  tp_global_inputs : list Input;
  tp_configured_inputs : nat;
  tp_has_configured_inputs : bool;
  tp_inputs : list Input;
  tp_outputs : list Output;
  tp_tags : list Id;
  tp_toolchains : list Id;
  tp_description : option string;
  tp_type_of : option TaskType; (* with [has_set_type] *)
}.

(** A list that is merged if it is configured. *)
Definition merge_configured {A} `{EqDecision A} (base : list A) (next : option (list A))
  (strategy : MergeStrategy) (index : nat) : list A :=
  match next with Some next => merge_vec base next strategy index true | None => base end.

(** The dependencies a link configures; the filters apply to inherited ones. *)
Definition link_deps b (link : ConfigChain) : result (option (list TaskDependencyConfig)) :=
  match cfg_deps (link_config link) with
  | Some deps =>
      let? deps := if link_inherited link then apply_filters_to_deps b (into_config <$> deps)
                   else Ok (into_config <$> deps) in
      Ok (Some deps)
  | None => Ok None
  end.

Definition merge_link b (o : TaskOptions) (p : TaskParts) (entry : nat * ConfigChain) :
  result TaskParts :=
  let '(index, link) := entry in
  let config := link_config link in
  let? deps := link_deps b link in
  Ok (mkTaskParts
        (or_else (cfg_script config) (tp_script p))
        (merge_configured (tp_checks p) (cfg_checks config) (o_merge_checks o) index)
        (merge_configured (tp_deps p) deps (o_merge_deps o) index)
        (match cfg_env config with
         | Some env => merge_index_map (tp_env p) env (o_merge_env o) index
         | None => tp_env p
         end)
        (tp_global_inputs p ++ cfg_global_inputs config)%list
        (match cfg_inputs config with
         | Some inputs =>
             if bool_decide (inputs = []) && bool_decide (o_merge_inputs o = MergeReplace) then 0%nat
             else (tp_configured_inputs p + length inputs)%nat
         | None => tp_configured_inputs p
         end)
        (match cfg_inputs config with Some _ => true | None => tp_has_configured_inputs p end)
        (merge_configured (tp_inputs p) (cfg_inputs config) (o_merge_inputs o) index)
        (merge_configured (tp_outputs p) (cfg_outputs config) (o_merge_outputs o) index)
        (merge_configured (tp_tags p) (cfg_tags config) (o_merge_tags o) index)
        (merge_configured (tp_toolchains p) (cfg_toolchains config) (o_merge_toolchains o) index)
        (or_else (cfg_description config) (tp_description p))
        (or_else (cfg_type_of config) (tp_type_of p))).

(** Whether inputs were disabled or are the default, and the inputs. *)
Definition default_glob : Input := InGlob (mkGlobInput "**/*" true).

Definition finish_inputs b (root_level : bool) (p : TaskParts) : list Input * bool * bool :=
  let inputs := tp_inputs p in
  if decide (tp_configured_inputs p = 0%nat) then
    if tp_has_configured_inputs p || (tb_monorepo b && root_level) then (inputs, false, true)
    else ((inputs ++ [default_glob])%list, true, false)
  else if decide (tp_configured_inputs p = 1%nat) then
    (inputs, match inputs with first :: _ => bool_decide (Input_as_str first = "**/*") | [] => false end,
     false)
  else (inputs, false, false).

(** The command of a script is its first word. *)
Definition script_command (script : string) : TaskArg :=
  TaskArg_new (match find_char " " script with Some i => str_take i script | None => script end).

Definition noop : TaskArg := TaskArg_new_unquoted "noop".

(** The type of a task that configures none. *)
Definition infer_type (outputs : list Output) (preset : option TaskPreset) (o : TaskOptions) : TaskType :=
  match outputs, preset with
  | _ :: _, _ => TypeBuild
  | [], Some _ => TypeRun
  | [], None => if o_persistent o then TypeRun else TypeTest
  end.

(** Whether the arguments need a shell. *)
Definition needs_shell (command : TaskArg) (args : list TaskArg) : bool :=
  existsb (λ arg, is_glob_like (ta_value arg)) args || contains_env_var (ta_value command) ||
  existsb (λ arg, contains_env_var (ta_value arg)) args.

(** Whether a task is for another operating system. *)
Definition for_other_system (o : TaskOptions) : bool :=
  match o_os o with
  | Some os_list => negb (existsb (is_current_system current_os) os_list)
  | None => false
  end.

(** [build_task], after the loops *)
Definition finish_task b (id : Id) (target : Target) (c : CommandParts) (args : list TaskArg)
  (s : OptionsState) (p : TaskParts) : result Task :=
  let root_level := is_root_level_source (tb_project_source b) in
  let '(inputs, default_inputs, empty_inputs) := finish_inputs b root_level p in
  let '(command, args) :=
    match tp_script p with Some script => (script_command script, []) | None => (cp_command c, args) end in
  let command := if decide (ta_value command = "") then noop else command in
  let deps := match inherit_global_deps b with
              | [] => tp_deps p
              | global_deps => merge_vec (tp_deps p) global_deps MergeAppend 1000 true
              end in
  let inputs := match tp_global_inputs p with
                | [] => inputs
                | global_inputs => merge_vec inputs global_inputs MergeAppend 1000 true
                end in
  let o := os_options s in
  let type_of := default (infer_type (tp_outputs p) (cp_preset c) o) (tp_type_of p) in
  let run_in_ci :=
    if os_set_run_in_ci s then o_run_in_ci o
    else Enabled (match type_of with TypeBuild | TypeTest => true | TypeRun => false end) in
  let requires_shell :=
    negb (os_shell_disabled s) && (cp_requires_shell c || needs_shell command args) in
  let shell := match requires_shell, tp_script p with
               | false, None => o_shell o
               | _, _ => Some true
               end in
  let other_system := for_other_system o in
  let? inputs := resolve_task_inputs b target inputs in
  let command := if other_system then noop else command in
  let? toolchains := resolve_task_toolchains b (tp_toolchains p) command in
  Ok (mkTask command (if other_system then [] else args) (tp_checks p) deps (tp_description p)
        (tp_env p) id inputs [] ∅ [] (set_run o (o_output_style o) run_in_ci shell)
        (if other_system then [] else tp_outputs p) ∅ [] (cp_preset c)
        (if other_system then None else tp_script p)
        (mkTaskState default_inputs empty_inputs false root_level (os_set_run_in_ci s)
           (os_shell_disabled s))
        (tp_tags p) target toolchains type_of).

(** [build_task] *)
Definition build_task b (id : Id) : result Task :=
  let? target := Target_new (tb_project_id b) id in
  let? chain := get_config_inherit_chain b id in
  let? c := ofold (collect_command target)
    (mkCommandParts (implied_preset id) (TaskArg_new "noop") [] [] false) chain in
  let? s := build_task_options b id (cp_preset c) in
  let o := os_options s in
  let? global_inputs := inherit_global_inputs b o in
  let args := fold_left (λ args '(index, next), merge_vec args next (o_merge_args o) index false)
    (imap pair (cp_args_sets c)) [] in
  let env := fold_left (λ env '(index, next), merge_index_map env next (o_merge_env o) index)
    (imap pair (cp_env_sets c)) (inherit_project_env b) in
  let? p := ofold (merge_link b o)
    (mkTaskParts None [] [] env global_inputs 0 false [] [] [] [] None None) (imap pair chain) in
  finish_task b id target c args s p.

(** [build] *)
Definition TasksBuilder_build b : result (list (Id * Task)) :=
  let? tasks := omap_list (λ id, let? task := build_task b id in Ok (id, task))
    (elements (tb_task_ids b)) in
  Ok (merge_sort task_le tasks).
End Build.
