(* ===== verification/TasksBuilderFacts.v ===== *)
(** * Properties of the builder of tasks

Following what tasks extend ends exactly when it does not go round in circles; a built
task has its own target; its options are those that were configured last; and what its
lists hold. *)

From S2P Require Import Prelude Errors Target Shapes Config InheritedTasks TasksBuilder.
#[local] Open Scope string_scope.

(** ** Extended tasks *)

Section Extends.
Context (local_tasks : gmap Id TaskConfig) (global_tasks : gmap Id (list TaskConfig)).

Abbreviation configs_of := (task_configs local_tasks global_tasks).
Abbreviation extract fuel id := (extract_config fuel local_tasks global_tasks id).

(** A configuration of [a] extends [b]. *)
Definition extends_to (a b : Id) : Prop :=
  ∃ link, link ∈ configs_of a ∧ cfg_extends (link_config link) = Some b.

(** A task that is configured somewhere. *)
Definition known (id : Id) : Prop := configs_of id ≠ [].

(** The links that a link of the chain stands for: those of the task it extends, and
    itself. *)
Definition link_chain (fuel : nat) (task_id : Id) (link : ConfigChain) : result (list ConfigChain) :=
  match cfg_extends (link_config link) with
  | Some b =>
      let? stack := extract fuel b in
      match stack with
      | [] => Err (RTasksBuilder (UnknownExtendsSource task_id b))
      | _ :: _ => Ok (stack ++ [link])%list
      end
  | None => Ok [link]
  end.

Lemma extract_config_S fuel id :
  extract (S fuel) id =
  let? chains := omap_list (link_chain fuel id) (configs_of id) in Ok (concat chains).
Proof.
  cbn [extract_config].
  enough (∀ stack links,
    ofold (λ stack link,
        match cfg_extends (link_config link) with
        | Some b =>
            let? extended_stack := extract fuel b in
            match extended_stack with
            | [] => Err (RTasksBuilder (UnknownExtendsSource id b))
            | _ :: _ => Ok (stack ++ extended_stack ++ [link])%list
            end
        | None => Ok (stack ++ [link])%list
        end) stack links =
    let? chains := omap_list (link_chain fuel id) links in Ok (stack ++ concat chains)%list) as ->; [done|].
  intros stack links. revert stack. induction links as [|link links IH]; intros stack.
  { cbn. by rewrite app_nil_r. }
  cbn [ofold omap_list]. unfold link_chain at 1. destruct (cfg_extends (link_config link)) as [b|].
  - destruct (extract fuel b) as [[|x stack']|e|]; cbn [obind]; [done| |done..].
    rewrite IH. destruct (omap_list _ links) as [chains|e|]; cbn; [|done..].
    f_equal. rewrite <-!app_assoc. cbn. by rewrite <-!app_assoc.
  - cbn [obind]. rewrite IH. destruct (omap_list _ links) as [chains|e|]; cbn; [|done..].
    by rewrite <-app_assoc.
Qed.

(** The chain is empty only for a task that is not configured. *)
Lemma extract_config_nil fuel id l : extract fuel id = Ok l → l = [] ↔ configs_of id = [].
Proof.
  destruct fuel as [|fuel]; [done|]. rewrite extract_config_S. intros Hl. step_ok.
  apply omap_list_Ok in E. destruct E as [|link chain links chains Hlink]; [done|].
  split; [|done]. cbn. intros [-> _]%app_nil. unfold link_chain in Hlink.
  destruct (cfg_extends _); [|done]. step_ok. destruct a; [done|]. by destruct a.
Qed.

(** The tasks that are extended are extracted as well. *)
Lemma extract_config_extends fuel id l b :
  extract (S fuel) id = Ok l → extends_to id b → known b ∧ is_ok (extract fuel b) = true.
Proof.
  rewrite extract_config_S. intros Hl (link & Hlink & Hb). step_ok.
  apply omap_list_Ok in E. apply list_elem_of_lookup in Hlink as (i & Hi).
  destruct (Forall2_lookup_l _ _ _ _ _ E Hi) as (chain & _ & Hc). unfold link_chain in Hc.
  rewrite Hb in Hc. step_ok. destruct a0 as [|x a0]; [done|]. split; [|done].
  intros Hn. by apply (extract_config_nil _ _ _ E0) in Hn.
Qed.

(** Tasks that extend each other are never extracted: no depth of the recursion is
    enough. *)
Lemma extract_config_cycle fuel id l : tc extends_to id id → extract fuel id ≠ Ok l.
Proof.
  revert id l. induction fuel as [|fuel IH]; intros id l Hc Hl; [done|].
  assert (∃ b, extends_to id b ∧ tc extends_to b b) as (b & Hb & Hbb).
  { inversion Hc as [x y Hb|x b y Hb Hc']; subst; [exists id; by split|].
    exists b. split; [done|]. by eapply tc_r. }
  destruct (extract_config_extends _ _ _ _ Hl Hb) as [_ [l' Hl']%is_ok_Ok]. by eapply IH.
Qed.

(** If all of them exist, there is no error. *)
Lemma extract_config_no_error fuel id e :
  (∀ a b, rtc extends_to id a → extends_to a b → known b) → extract fuel id ≠ Err e.
Proof.
  revert id. induction fuel as [|fuel IH]; intros id Hknown; [done|]. rewrite extract_config_S.
  destruct (omap_list (link_chain fuel id) (configs_of id)) as [chains|e'|] eqn:Hm; cbn; [done| |done].
  intros [= ->]. apply omap_list_Err in Hm as (link & Hlink & He). unfold link_chain in He.
  destruct (cfg_extends (link_config link)) as [b|] eqn:Hb; [|done].
  assert (extends_to id b) as Hidb by (by exists link).
  destruct (extract fuel b) as [[|x l]|e'|] eqn:Hl; cbn in He; simplify_eq.
  - apply (Hknown id b); [done..|]. by apply (extract_config_nil _ _ _ Hl).
  - apply (IH b); [|done]. intros a c Ha. apply Hknown. by eapply rtc_l.
Qed.

(** All tasks with a configuration. *)
Definition configured_ids : gset Id := dom local_tasks ∪ dom global_tasks.

Lemma known_configured id : known id → id ∈ configured_ids.
Proof.
  unfold known, configured_ids, task_configs. rewrite elem_of_union, !elem_of_dom.
  destruct (local_tasks !! id), (global_tasks !! id); cbn; naive_solver.
Qed.

(** Otherwise the recursion is as deep as there are tasks. *)
Lemma extract_config_total fuel visited id :
  (∀ a b, rtc extends_to id a → extends_to a b → known b) →
  (∀ a, rtc extends_to id a → ¬ tc extends_to a a) →
  (∀ a, a ∈ visited → tc extends_to a id) → visited ⊆ configured_ids →
  (size (configured_ids ∖ visited) < fuel)%nat →
  is_ok (extract fuel id) = true.
Proof.
  revert visited id. induction fuel as [|fuel IH]; intros visited id Hknown Hacyclic Hv Hvs Hsize; [lia|].
  rewrite extract_config_S.
  destruct (omap_list_is_ok (link_chain fuel id) (configs_of id)) as [chains ->]; [|done].
  intros link Hlink. unfold link_chain. destruct (cfg_extends (link_config link)) as [b|] eqn:Hb; [|eauto].
  assert (extends_to id b) as Hidb by (by exists link).
  assert (known b) as Hkb by (by eapply Hknown).
  assert (is_ok (extract fuel b) = true) as [l Hl]%is_ok_Ok.
  { assert (id ∉ visited) as Hid by (intros Hid; by eapply Hacyclic, Hv).
    assert (id ∈ configured_ids) as Hc.
    { apply known_configured. unfold known. by destruct (configs_of id); [set_solver|]. }
    apply (IH ({[id]} ∪ visited)).
    - intros a c Ha. apply Hknown. by eapply rtc_l.
    - intros a Ha. apply Hacyclic. by eapply rtc_l.
    - intros a [->%elem_of_singleton|Ha]%elem_of_union; [by apply tc_once|]. eapply tc_r; eauto.
    - set_solver.
    - assert (size (configured_ids ∖ ({[id]} ∪ visited)) < size (configured_ids ∖ visited))%nat; [|lia].
      apply subset_size. set_solver. }
  rewrite Hl. cbn. destruct l as [|x l]; [|eauto].
  exfalso. apply Hkb. by apply (extract_config_nil _ _ _ Hl).
Qed.

(** With the depth [get_config_inherit_chain] has, a chain is returned if and only if
    every task that is extended exists, and none of them extends itself in the end. *)
Lemma extract_config_ok id :
  is_ok (extract (S (size configured_ids)) id) = true ↔
  (∀ a b, rtc extends_to id a → extends_to a b → known b) ∧
  (∀ a, rtc extends_to id a → ¬ tc extends_to a a).
Proof.
  split.
  - generalize (S (size configured_ids)). intros fuel [l Hl]%is_ok_Ok.
    assert (∀ a, rtc extends_to id a → ∃ fuel l, extract fuel a = Ok l) as Hr.
    { clear -Hl. intros a Ha. revert fuel l Hl. induction Ha as [a|a b c Hab _ IH]; intros fuel l Hl; [eauto|].
      destruct fuel as [|fuel]; [done|].
      destruct (extract_config_extends _ _ _ _ Hl Hab) as [_ [l' Hl']%is_ok_Ok]. by eapply IH. }
    split.
    + intros a b Ha Hab. destruct (Hr a Ha) as (fuel' & l' & Hl'). destruct fuel' as [|fuel']; [done|].
      by destruct (extract_config_extends _ _ _ _ Hl' Hab).
    + intros a Ha Hc. destruct (Hr a Ha) as (fuel' & l' & Hl'). by eapply extract_config_cycle.
  - intros [Hk Ha]. apply (extract_config_total _ ∅); [done..|set_solver|set_solver|].
    rewrite difference_empty_L. lia.
Qed.
End Extends.

(** ** Options *)

(** The value that was configured last. *)
Definition last_set {A B} (f : A → option B) (d : B) (l : list A) : B := default d (last (omap f l)).

Lemma last_set_cons {A B} (f : A → option B) d x l :
  last_set f d (x :: l) = last_set f (default d (f x)) l.
Proof.
  unfold last_set. cbn. destruct (f x) as [y|]; [|done]. cbn. destruct (omap f l) as [|z zs]; [done|].
  by rewrite !last_cons_cons || cbn; destruct (last (z :: zs)) eqn:E; [|by apply last_None in E].
Qed.

Lemma ofold_last_set {E S A B} (get : S → B) (f : A → option B) (step : S → A → outcome E S) s l s' :
  (∀ s x s', step s x = Ok s' → get s' = default (get s) (f x)) →
  ofold step s l = Ok s' → get s' = last_set f (get s) l.
Proof.
  intros Hstep. revert s. induction l as [|x l IH]; intros s Hs; cbn [ofold] in Hs; [by step_ok|].
  step_ok. rewrite last_set_cons, <-(Hstep _ _ _ E0). by apply IH.
Qed.

Section Options.
Context `{TasksHost, IdSyntax, ConfigSyntax}.
Implicit Types (b : TasksBuilder).

(** The options of a task: every one of them is what was configured last, or its
    default [d]; interactive tasks stream. What runs in CI and in a shell also depends
    on the task. *)
Record options_configured (id : Id) (cs : list TaskOptionsConfig) (d o : TaskOptions) : Prop := {
  configured_affected_files : o_affected_files o =
    last_set (λ c, Some <$> (affected_files_of <$> oc_affected_files c)) (o_affected_files d) cs;
  configured_allow_failure : o_allow_failure o = last_set oc_allow_failure (o_allow_failure d) cs;
  configured_cache : o_cache o = last_set oc_cache (o_cache d) cs;
  configured_cache_key : o_cache_key o = last_set (λ c, Some <$> oc_cache_key c) (o_cache_key d) cs;
  configured_cache_lifetime : o_cache_lifetime o =
    last_set (λ c, Some <$> oc_cache_lifetime c) (o_cache_lifetime d) cs;
  configured_env_files :
    match last (omap oc_env_file cs) with
    | Some env_file => resolve_env_files id env_file = Ok (o_env_files o)
    | None => o_env_files o = o_env_files d
    end;
  configured_infer_inputs : o_infer_inputs o = last_set oc_infer_inputs (o_infer_inputs d) cs;
  configured_internal : o_internal o = last_set oc_internal (o_internal d) cs;
  configured_interactive : o_interactive o = last_set oc_interactive (o_interactive d) cs;
  configured_merge_args : o_merge_args o =
    last_set (λ c, or_else (oc_merge_args c) (oc_merge c)) (o_merge_args d) cs;
  configured_merge_checks : o_merge_checks o =
    last_set (λ c, or_else (oc_merge_checks c) (oc_merge c)) (o_merge_checks d) cs;
  configured_merge_deps : o_merge_deps o =
    last_set (λ c, or_else (oc_merge_deps c) (oc_merge c)) (o_merge_deps d) cs;
  configured_merge_env : o_merge_env o =
    last_set (λ c, or_else (oc_merge_env c) (oc_merge c)) (o_merge_env d) cs;
  configured_merge_inputs : o_merge_inputs o =
    last_set (λ c, or_else (oc_merge_inputs c) (oc_merge c)) (o_merge_inputs d) cs;
  configured_merge_outputs : o_merge_outputs o =
    last_set (λ c, or_else (oc_merge_outputs c) (oc_merge c)) (o_merge_outputs d) cs;
  configured_merge_tags : o_merge_tags o =
    last_set (λ c, or_else (oc_merge_tags c) (oc_merge c)) (o_merge_tags d) cs;
  configured_merge_toolchains : o_merge_toolchains o =
    last_set (λ c, or_else (oc_merge_toolchains c) (oc_merge c)) (o_merge_toolchains d) cs;
  configured_mutex : o_mutex o = last_set (λ c, Some <$> oc_mutex c) (o_mutex d) cs;
  configured_os : o_os o = last_set (λ c, Some <$> oc_os c) (o_os d) cs;
  configured_output_style : o_output_style o =
    if o_interactive o then Some StyleStream
    else last_set (λ c, Some <$> oc_output_style c) (o_output_style d) cs;
  configured_persistent : o_persistent o = last_set oc_persistent (o_persistent d) cs;
  configured_priority : o_priority o = last_set oc_priority (o_priority d) cs;
  configured_retry_count : o_retry_count o = last_set oc_retry_count (o_retry_count d) cs;
  configured_run_deps_in_parallel : o_run_deps_in_parallel o =
    last_set oc_run_deps_in_parallel (o_run_deps_in_parallel d) cs;
  configured_run_in_sync_phase : o_run_in_sync_phase o =
    last_set oc_run_in_sync_phase (o_run_in_sync_phase d) cs;
  configured_run_from_workspace_root : o_run_from_workspace_root o =
    last_set oc_run_from_workspace_root (o_run_from_workspace_root d) cs;
  configured_timeout : o_timeout o = last_set (λ c, Some <$> oc_timeout c) (o_timeout d) cs;
  configured_unix_shell : o_unix_shell o = last_set oc_unix_shell (o_unix_shell d) cs;
  configured_windows_shell : o_windows_shell o = last_set oc_windows_shell (o_windows_shell d) cs;
}.

(** Whether a task runs in CI: an interactive one does not; another one does as it is
    configured or as its preset has it, and otherwise if it builds or tests. *)
Definition run_in_ci_of (interactive : bool) (preset : option TaskPreset) (type_of : TaskType)
  (cs : list TaskOptionsConfig) (d : TaskOptionRunInCI) : TaskOptionRunInCI :=
  let configured := last_set oc_run_in_ci d cs in
  if interactive then if decide (configured = Skip) then Skip else Enabled false
  else
    match preset, last (omap oc_run_in_ci cs), type_of with
    | None, None, TypeRun => Enabled false
    | None, None, (TypeBuild | TypeTest) => Enabled true
    | _, _, _ => configured
    end.

(** Whether a task runs in a shell: a script does; a command that uses the syntax of a
    shell does, unless that is disabled; and otherwise as it is configured. *)
Definition shell_of (script : option string) (syntax : bool) (cs : list TaskOptionsConfig)
  (d : option bool) : option bool :=
  match script, last (omap oc_shell cs) with
  | Some _, _ => Some true
  | None, Some shell => Some shell
  | None, None => if syntax then Some true else d
  end.

(** A field of the merged options is the one configured last. *)
Ltac by_last_set Hs :=
  match goal with
  | |- ?get (os_options _) = last_set ?f _ _ =>
      refine (ofold_last_set (λ s, get (os_options s)) f _ _ _ _ _ Hs);
      let Hstep := fresh in
      intros ? ? ? Hstep; unfold merge_options in Hstep; step_ok; cbn; unfold or_else;
      repeat case_match; simplify_eq; done
  end.

Lemma finish_options_spec s :
  os_options (finish_options s) =
  set_run (os_options s)
    (if o_interactive (os_options s) then Some StyleStream else o_output_style (os_options s))
    (if o_interactive (os_options s)
     then if decide (o_run_in_ci (os_options s) = Skip) then Skip else Enabled false
     else o_run_in_ci (os_options s))
    (o_shell (os_options s)).
Proof.
  unfold finish_options. destruct (o_interactive (os_options s)) eqn:Hi; [by case_decide|].
  by destruct s as [[]].
Qed.

Lemma merged_env_files id s cs s' :
  ofold (merge_options id) s cs = Ok s' →
  match last (omap oc_env_file cs) with
  | Some env_file => resolve_env_files id env_file = Ok (o_env_files (os_options s'))
  | None => o_env_files (os_options s') = o_env_files (os_options s)
  end.
Proof.
  revert s'. induction cs as [|c cs IH] using rev_ind; intros s' Hs; [cbn in Hs; by step_ok|].
  rewrite ofold_app in Hs. step_ok. cbn [ofold] in Hs. step_ok. specialize (IH a eq_refl).
  rewrite omap_app. cbn [omap list_omap]. unfold merge_options in E0.
  destruct (oc_env_file c) as [env_file|]; step_ok; cbn [os_options o_env_files];
    [by rewrite last_snoc|by rewrite app_nil_r].
Qed.

(** Whether the built task runs in a shell. *)
Lemma built_shell (s : OptionsState) script syntax cs d :
  o_shell (os_options s) = last_set (λ c, Some <$> oc_shell c) d cs →
  os_shell_disabled s = last_set (λ c, negb <$> oc_shell c) false cs →
  match negb (os_shell_disabled s) && syntax, script with
  | false, None => o_shell (os_options s)
  | _, _ => Some true
  end = shell_of script syntax cs d.
Proof.
  intros -> ->. unfold shell_of.
  assert (∀ B (g : bool → B) d, last_set (λ c, g <$> oc_shell c) d cs =
    match last (omap oc_shell cs) with Some shell => g shell | None => d end) as Hlast.
  { intros B g d'. unfold last_set. induction cs as [|c cs IH] using rev_ind; [done|].
    rewrite !omap_app. cbn. destruct (oc_shell c); cbn; [by rewrite !last_snoc|by rewrite !app_nil_r]. }
  rewrite !Hlast. by destruct script, (last (omap oc_shell cs)) as [[]|], syntax.
Qed.

(** The flags of the state, from what was configured. *)
Lemma merged_flags id s cs s' :
  ofold (merge_options id) s cs = Ok s' →
  os_set_run_in_ci s' =
    match last (omap oc_run_in_ci cs) with Some _ => true | None => os_set_run_in_ci s end ∧
  os_shell_disabled s' = last_set (λ c, negb <$> oc_shell c) (os_shell_disabled s) cs.
Proof.
  intros Hs. split.
  - revert s' Hs. induction cs as [|c cs IH] using rev_ind; intros s' Hs; [cbn in Hs; by step_ok|].
    rewrite ofold_app in Hs. step_ok. cbn [ofold] in Hs. step_ok. specialize (IH a eq_refl).
    rewrite omap_app. cbn [omap list_omap]. unfold merge_options in E0. step_ok.
    cbn [os_set_run_in_ci]. destruct (oc_run_in_ci c); [by rewrite last_snoc|by rewrite app_nil_r].
  - refine (ofold_last_set os_shell_disabled _ _ _ _ _ _ Hs).
    intros x c x' Hstep. unfold merge_options in Hstep. step_ok. cbn. by destruct (oc_shell c).
Qed.

(** The options before what depends on the task, and the flags. *)
Lemma build_task_options_configured b id preset s :
  build_task_options b id preset = Ok s →
  ∃ links, get_config_inherit_chain b id = Ok links ∧
    let cs := (tb_shared_task_options b ++ ((λ link, cfg_options (link_config link)) <$> links))%list in
    let d := os_options (initial_options preset) in
    options_configured id cs d (os_options s) ∧
    o_shell (os_options s) = last_set (λ c, Some <$> oc_shell c) (o_shell d) cs ∧
    os_shell_disabled s = last_set (λ c, negb <$> oc_shell c) false cs ∧
    ∀ type_of, run_in_ci_of (o_interactive (os_options s)) preset type_of cs (o_run_in_ci d) =
      if os_set_run_in_ci s then o_run_in_ci (os_options s)
      else Enabled (match type_of with TypeBuild | TypeTest => true | TypeRun => false end).
Proof.
  unfold build_task_options. intros Hb. step_ok. rename a into links, E0 into Hs. exists links. split; [done|].
  generalize dependent (tb_shared_task_options b ++ ((λ link, cfg_options (link_config link)) <$> links))%list.
  intros cs Hs.
  assert (o_run_in_ci (os_options a0) = last_set oc_run_in_ci (o_run_in_ci (os_options (initial_options preset))) cs)
    as Hci by by_last_set Hs.
  assert (o_output_style (os_options a0) = last_set (λ c, Some <$> oc_output_style c)
    (o_output_style (os_options (initial_options preset))) cs) as Hstyle by by_last_set Hs.
  assert (o_shell (os_options a0) = last_set (λ c, Some <$> oc_shell c)
    (o_shell (os_options (initial_options preset))) cs) as Hshell by by_last_set Hs.
  pose proof (merged_env_files _ _ _ _ Hs) as Henv. destruct (merged_flags _ _ _ _ Hs) as [Hset Hdis].
  cbv zeta. rewrite finish_options_spec. split_and!.
  - split; cbn -[initial_options os_options last_set]; rewrite ?Hstyle; try reflexivity;
      first [exact Henv|by_last_set Hs].
  - exact Hshell.
  - etrans; [|exact Hdis]. unfold finish_options. by repeat case_match.
  - cbn -[initial_options os_options last_set]. intros type_of. unfold run_in_ci_of. rewrite <- Hci.
    unfold finish_options. destruct (o_interactive (os_options a0)).
    + case_decide as Hskip; cbn -[initial_options]; [|done].
      rewrite Hset. rewrite Hci in Hskip. unfold last_set in Hskip.
      destruct (last (omap oc_run_in_ci cs)); [done|]. by destruct preset as [[]|].
    + rewrite Hset. by destruct preset, (last (omap oc_run_in_ci cs)), type_of.
Qed.
End Options.

(** ** Merged lists *)

(** The lists of the links of a chain, merged. *)
Definition merge_sets {A} `{EqDecision A} (strategy : MergeStrategy) (sets : list (option (list A))) :
  list A :=
  fold_left (λ base '(index, next), merge_configured base next strategy index) (imap pair sets) [].

Section Merged.
Context {A : Type} `{EqDecision A}.
Implicit Types (sets : list (option (list A))).

Lemma merge_sets_snoc strategy sets next :
  merge_sets strategy (sets ++ [next])%list =
  merge_configured (merge_sets strategy sets) next strategy (length sets).
Proof. unfold merge_sets. rewrite imap_app, fold_left_app. cbn. by rewrite Nat.add_0_r. Qed.

(** What the merged list holds: everything, what was configured last, or what the
    first link configures. *)
Definition merged_elem (strategy : MergeStrategy) sets (x : A) : Prop :=
  match strategy with
  | MergeAppend | MergePrepend => ∃ l, Some l ∈ sets ∧ x ∈ l
  | MergeReplace => ∃ l, last (omap (λ o, o) sets) = Some l ∧ x ∈ l
  | MergePreserve => ∃ l, head sets = Some (Some l) ∧ x ∈ l
  end.

Lemma merge_sets_elem strategy sets x :
  x ∈ merge_sets strategy sets ↔ merged_elem strategy sets x.
Proof.
  unfold merged_elem. induction sets as [|next sets IH] using rev_ind.
  { unfold merge_sets. cbn. destruct strategy; cbn; set_solver. }
  rewrite merge_sets_snoc. unfold merge_configured. destruct next as [next|].
  - rewrite merge_vec_elem. destruct strategy.
    + rewrite IH. setoid_rewrite elem_of_app. setoid_rewrite list_elem_of_singleton. naive_solver.
    + rewrite IH. setoid_rewrite elem_of_app. setoid_rewrite list_elem_of_singleton. naive_solver.
    + destruct sets as [|y sets]; cbn; [naive_solver|]. by rewrite IH.
    + rewrite omap_app. cbn. rewrite last_snoc. naive_solver.
  - rewrite IH. destruct strategy; setoid_rewrite elem_of_app || idtac.
    + setoid_rewrite list_elem_of_singleton. naive_solver.
    + setoid_rewrite list_elem_of_singleton. naive_solver.
    + destruct sets; cbn; naive_solver.
    + rewrite omap_app. cbn. by rewrite app_nil_r.
Qed.

Lemma merge_sets_NoDup strategy sets :
  (∀ l, Some l ∈ sets → NoDup l) → NoDup (merge_sets strategy sets).
Proof.
  induction sets as [|next sets IH] using rev_ind; intros Hs; [constructor|].
  rewrite merge_sets_snoc. unfold merge_configured.
  assert (NoDup (merge_sets strategy sets)) by (apply IH; intros; apply Hs; set_solver).
  destruct next as [next|]; [|done]. apply merge_vec_NoDup; [done|]. apply Hs. set_solver.
Qed.
End Merged.

(** ** Built tasks *)

Section Built.
Context `{TasksHost, IdSyntax, ConfigSyntax}.
Implicit Types (b : TasksBuilder).

(** What merging the links of a chain gives. *)
Record links_merged b (o : TaskOptions) (chain : list ConfigChain) (global_inputs : list Input)
    (deps : list (option (list TaskDependencyConfig))) (p : TaskParts) : Prop := {
  merged_link_deps : Forall2 (λ link d, link_deps b link = Ok d) chain deps;
  merged_deps : tp_deps p = merge_sets (o_merge_deps o) deps;
  merged_checks :
    tp_checks p = merge_sets (o_merge_checks o) ((λ l, cfg_checks (link_config l)) <$> chain);
  merged_inputs :
    tp_inputs p = merge_sets (o_merge_inputs o) ((λ l, cfg_inputs (link_config l)) <$> chain);
  merged_outputs :
    tp_outputs p = merge_sets (o_merge_outputs o) ((λ l, cfg_outputs (link_config l)) <$> chain);
  merged_tags : tp_tags p = merge_sets (o_merge_tags o) ((λ l, cfg_tags (link_config l)) <$> chain);
  merged_toolchains :
    tp_toolchains p = merge_sets (o_merge_toolchains o) ((λ l, cfg_toolchains (link_config l)) <$> chain);
  merged_global_inputs :
    tp_global_inputs p = (global_inputs ++ flat_map (λ l, cfg_global_inputs (link_config l)) chain)%list;
  merged_script : tp_script p = last_set (λ l, Some <$> cfg_script (link_config l)) None chain;
  merged_type : tp_type_of p = last_set (λ l, Some <$> cfg_type_of (link_config l)) None chain;
  merged_configured : tp_has_configured_inputs p =
    existsb (λ l, match cfg_inputs (link_config l) with Some _ => true | None => false end) chain;
}.

Lemma last_set_snoc {A B} (f : A → option B) d l x :
  last_set f d (l ++ [x])%list = default (last_set f d l) (f x).
Proof.
  unfold last_set. rewrite omap_app. cbn. destruct (f x); cbn; [by rewrite last_snoc|].
  by rewrite app_nil_r.
Qed.

Lemma merge_links b o env global_inputs chain p :
  ofold (merge_link b o) (mkTaskParts None [] [] env global_inputs 0 false [] [] [] [] None None)
    (imap pair chain) = Ok p →
  ∃ deps, links_merged b o chain global_inputs deps p.
Proof.
  revert p. induction chain as [|link chain IH] using rev_ind; intros p Hp.
  { cbn in Hp. step_ok. exists []. split; cbn; try done. by rewrite app_nil_r. }
  rewrite imap_app, ofold_app in Hp. cbn [imap] in Hp. step_ok. cbn [ofold] in Hp. step_ok.
  destruct (IH a) as (deps & Hm); [done|]. cbn in E0. unfold compose in E0. cbn in E0. step_ok.
  exists (deps ++ [a1])%list. destruct Hm as [Hd -> -> -> -> -> -> -> -> -> ->].
  rewrite Nat.add_0_r. pose proof (Forall2_length _ _ _ Hd) as Hlen.
  split; cbn [tp_deps tp_checks tp_inputs tp_outputs tp_tags tp_toolchains tp_global_inputs tp_script
    tp_type_of tp_has_configured_inputs]; rewrite ?fmap_app; cbn [fmap list_fmap];
    rewrite ?merge_sets_snoc, ?length_fmap, ?last_set_snoc, ?flat_map_app, ?existsb_app; try reflexivity.
  - apply Forall2_app; [done|]. by repeat constructor.
  - by rewrite Hlen.
  - cbn. by rewrite app_nil_r, app_assoc.
  - by destruct (cfg_script _).
  - by destruct (cfg_type_of _).
  - cbn. destruct (cfg_inputs (link_config link)); by rewrite ?orb_true_r, ?orb_false_r.
Qed.

(** Whether the command line of a link uses the syntax of a shell. *)
Definition link_needs_shell (target : Target) (link : ConfigChain) : bool :=
  match get_command_line target (link_config link) with
  | Ok (Some line) => cl_requires_shell line
  | _ => false
  end.

Lemma collect_commands target c0 chain c :
  ofold (collect_command target) c0 chain = Ok c →
  cp_preset c = last_set (λ link, Some <$> cfg_preset (link_config link)) (cp_preset c0) chain ∧
  cp_requires_shell c = cp_requires_shell c0 || existsb (link_needs_shell target) chain.
Proof.
  revert c. induction chain as [|link chain IH] using rev_ind; intros c Hc.
  { cbn in Hc. step_ok. by rewrite orb_false_r. }
  rewrite ofold_app in Hc. step_ok. cbn [ofold] in Hc. step_ok. destruct (IH a) as [Hp Hs]; [done|].
  unfold collect_command in E0. step_ok. cbn [cp_preset cp_requires_shell].
  rewrite last_set_snoc, existsb_app, <- Hp, Hs. cbn [existsb]. rewrite orb_false_r, orb_assoc. split.
  - by destruct (cfg_preset _).
  - f_equal. unfold link_needs_shell. rewrite E1. by case_match.
Qed.

(** The steps of building a task. *)
Record task_built b (id : Id) (t : Task) : Prop := {
  built_target : Target_new (tb_project_id b) id = Ok (t_target t);
  built_id : t_id t = id;
  built_parts : ∃ chain c s gi deps p args,
    get_config_inherit_chain b id = Ok chain ∧
    cp_preset c = last_set (λ link, Some <$> cfg_preset (link_config link)) (implied_preset id) chain ∧
    cp_requires_shell c = existsb (link_needs_shell (t_target t)) chain ∧
    build_task_options b id (cp_preset c) = Ok s ∧
    inherit_global_inputs b (os_options s) = Ok gi ∧
    links_merged b (os_options s) chain gi deps p ∧
    finish_task b id (t_target t) c args s p = Ok t;
}.

Lemma finish_task_target b id target c args s p t :
  finish_task b id target c args s p = Ok t → t_target t = target ∧ t_id t = id.
Proof.
  unfold finish_task. destruct (finish_inputs _ _ _) as [[??]?].
  destruct (match tp_script p with Some _ => _ | None => _ end). intros Ht. by step_ok.
Qed.

Lemma build_task_built b id t : build_task b id = Ok t → task_built b id t.
Proof.
  unfold build_task. intros Ht. step_ok. pose proof Ht as [Htarget Hid]%finish_task_target.
  apply merge_links in E4 as [deps Hp]. apply collect_commands in E1 as [Hpreset Hshell].
  split; [congruence|done|]. rewrite Htarget. by eexists _, _, _, _, _, _, _.
Qed.
(** [build]: one task for every identifier, in their order. *)
Lemma TasksBuilder_build_tasks b tasks :
  TasksBuilder_build b = Ok tasks →
  StronglySorted String.le tasks.*1 ∧ NoDup tasks.*1 ∧
  (∀ id, id ∈ tasks.*1 ↔ id ∈ tb_task_ids b) ∧
  ∀ id t, (id, t) ∈ tasks → task_built b id t.
Proof.
  unfold TasksBuilder_build. intros Ht. step_ok. apply omap_list_Ok in E.
  assert (a.*1 = elements (tb_task_ids b)) as Hids.
  { clear -E. induction E as [|id [id' t] ids a Hid _ IH]; [done|]. cbn. f_equal; [|done].
    cbn in Hid. by destruct (build_task b id); simplify_eq/=. }
  pose proof (merge_sort_Permutation task_le a) as Hp.
  split_and!.
  - assert (StronglySorted task_le (merge_sort task_le a)) as Hs.
    { apply StronglySorted_merge_sort; [|intros t1 t2; apply String.le_total].
      intros t1 t2 t3. apply (transitivity (R := String.le)). }
    revert Hs. generalize (merge_sort task_le a). clear. intros l Hs.
    induction Hs as [|x l Hs IH Hx]; cbn; constructor; [done|]. by apply Forall_fmap.
  - rewrite Hp, Hids. apply NoDup_elements.
  - intros id. rewrite Hp, Hids. apply elem_of_elements.
  - intros id t. rewrite Hp. intros (i & Hi)%list_elem_of_lookup.
    destruct (Forall2_lookup_r _ _ _ _ _ E Hi) as (id' & _ & Hid). cbn in Hid.
    destruct (build_task b id') eqn:Hb; simplify_eq/=. by apply build_task_built.
Qed.

(** *** Inputs *)

Definition is_project_input (input : Input) : bool :=
  match input with InProject _ => true | _ => false end.

(** Inputs of other projects are those of dependencies; the others are kept. *)
Lemma resolve_task_inputs_spec b target inputs l :
  resolve_task_inputs b target inputs = Ok l →
  (∀ inner, InProject inner ∈ l → pin_project inner ∈ pdep_id <$> tb_project_dependencies b) ∧
  (∀ input, is_project_input input = false → input ∈ l ↔ input ∈ inputs).
Proof.
  unfold resolve_task_inputs. revert l. induction inputs as [|input inputs IH] using rev_ind; intros l Hl.
  { cbn in Hl. step_ok. set_solver. }
  rewrite ofold_app in Hl. step_ok. cbn [ofold] in Hl. step_ok. destruct (IH a) as [Hp Hk]; [done|].
  assert (∃ more, a0 = (a ++ more)%list ∧
    (∀ inner, InProject inner ∈ more → pin_project inner ∈ pdep_id <$> tb_project_dependencies b) ∧
    ∀ i, is_project_input i = false → i ∈ more ↔ i = input) as (more & -> & Hmp & Hmk).
  { clear IH E. destruct input as [| | | | |inner| |]; cbn in E0;
      try (by step_ok; eexists; split; [done|]; set_solver).
    case_decide; [|destruct (get_deps_scope inner); [|case_decide; [|done]]]; step_ok;
      (eexists; split; [done|]); split.
    - intros i (dep & Hd & Hin)%list_elem_of_fmap. simplify_eq. cbn. by apply list_elem_of_fmap_2.
    - intros i Hi. split; [intros (dep & -> & _)%list_elem_of_fmap|intros ->]; done.
    - intros i (dep & Hd & [_ Hin]%list_elem_of_filter)%list_elem_of_fmap. simplify_eq. cbn.
      by apply list_elem_of_fmap_2.
    - intros i Hi. split; [intros (dep & -> & _)%list_elem_of_fmap|intros ->]; done.
    - intros i Hi%list_elem_of_singleton. by simplify_eq.
    - intros i Hi. by rewrite list_elem_of_singleton. }
  split; [set_solver|]. intros i Hi. rewrite !elem_of_app, list_elem_of_singleton, Hk, Hmk by done. done.
Qed.

(** *** What a built task holds *)

Lemma finish_task_lists b id target c args s p t :
  finish_task b id target c args s p = Ok t →
  t_deps t = merge_vec (tp_deps p) (inherit_global_deps b) MergeAppend 1000 true ∧
  resolve_task_inputs b target
    (merge_vec (finish_inputs b (is_root_level_source (tb_project_source b)) p).1.1
       (tp_global_inputs p) MergeAppend 1000 true) = Ok (t_inputs t) ∧
  t_checks t = tp_checks p ∧ t_tags t = tp_tags p ∧
  (if for_other_system (os_options s)
   then t_command t = noop ∧ t_args t = [] ∧ t_outputs t = [] ∧ t_script t = None
   else t_outputs t = tp_outputs p ∧ t_script t = tp_script p) ∧
  t_type_of t = default (infer_type (tp_outputs p) (cp_preset c) (os_options s)) (tp_type_of p) ∧
  o_run_in_ci (t_options t) =
    if os_set_run_in_ci s then o_run_in_ci (os_options s)
    else Enabled (match t_type_of t with TypeBuild | TypeTest => true | TypeRun => false end).
Proof.
  unfold finish_task. destruct (finish_inputs _ _ _) as [[inputs d] e]. cbn [fst].
  destruct (match tp_script p with Some _ => _ | None => _ end). intros Ht. step_ok. cbn.
  split; [by destruct (inherit_global_deps b)|]. split.
  { rewrite <-E. f_equal. by destruct (tp_global_inputs p). }
  split; [done|]. split; [done|]. split; [by destruct (for_other_system _)|done].
Qed.

(** The options that depend on the task, and its toolchains. *)
Lemma finish_task_options b id target c args s p t :
  finish_task b id target c args s p = Ok t →
  t_preset t = cp_preset c ∧
  resolve_task_toolchains b (tp_toolchains p) (t_command t) = Ok (t_toolchains t) ∧
  ∃ command args,
    (for_other_system (os_options s) = false → tp_script p = None →
     command = t_command t ∧ args = t_args t) ∧
    t_options t = set_run (os_options s) (o_output_style (os_options s))
      (if os_set_run_in_ci s then o_run_in_ci (os_options s)
       else Enabled (match t_type_of t with TypeBuild | TypeTest => true | TypeRun => false end))
      (match negb (os_shell_disabled s) && (cp_requires_shell c || needs_shell command args),
         tp_script p with
       | false, None => o_shell (os_options s)
       | _, _ => Some true
       end).
Proof.
  unfold finish_task. destruct (finish_inputs _ _ _) as [[inputs d] e].
  destruct (match tp_script p with Some _ => _ | None => _ end) as [command args'].
  intros Ht. step_ok. cbn. split; [done|]. split; [done|].
  eexists _, args'. split; [|done]. by intros ->.
Qed.
End Built.

(** ** The tasks of a project *)

Section Inherited.
Implicit Types (b : TasksBuilder) (filters : option ProjectWorkspaceInheritedTasksConfig).

(** The filters let a task through: it is one of those to include, if they are listed,
    and none of those to exclude. *)
Definition let_through filters (task_id : Id) : Prop :=
  ∀ f, filters = Some f →
    (∀ include, filter_include f = Some include → task_id ∈ include) ∧
    task_id ∉ filter_exclude f.

(** The name that the filters give a task. *)
Definition given_name filters (task_id id : Id) : Prop :=
  (∃ f, filters = Some f ∧ filter_rename f !! task_id = Some id) ∨
  id = task_id ∧ ∀ f, filters = Some f → filter_rename f !! task_id = None.

(** A task of an inherited configuration that the filters let through, under the
    name they give it. *)
Definition inherits filters (config : InheritedTasksConfig) (id : Id) : Prop :=
  ∃ task_id task_config, (task_id, task_config) ∈ itc_tasks config ∧
    let_through filters task_id ∧ given_name filters task_id id.

Lemma is_inherited_spec filters task_id : is_inherited filters task_id = true ↔ let_through filters task_id.
Proof.
  unfold is_inherited, let_through. destruct filters as [f|]; [|by split].
  rewrite andb_true_iff, negb_true_iff, bool_decide_eq_false.
  destruct (filter_include f) as [include|] eqn:Hi; rewrite ?bool_decide_eq_true; naive_solver.
Qed.

Lemma inherited_key_spec filters task_id id :
  inherited_key filters task_id = id ↔ given_name filters task_id id.
Proof.
  unfold inherited_key, given_name. destruct filters as [f|]; [|naive_solver].
  destruct (filter_rename f !! task_id) eqn:Hr; cbn; naive_solver.
Qed.

Lemma inherit_tasks_ids filters tasks acc id :
  id ∈ (fold_left (inherit_task filters) tasks acc).1 ↔
  id ∈ acc.1 ∨ ∃ task_id task_config, (task_id, task_config) ∈ tasks ∧
    let_through filters task_id ∧ given_name filters task_id id.
Proof.
  setoid_rewrite <- is_inherited_spec. setoid_rewrite <- inherited_key_spec.
  revert acc. induction tasks as [|[task_id task_config] tasks IH]; intros [ids globals]; cbn.
  { set_solver. }
  rewrite IH. destruct (is_inherited filters task_id) eqn:Hi; cbn [fst].
  - rewrite elem_of_union, elem_of_singleton. split.
    + intros [[->|Hid]|(tid & tc & Hin & ?)]; [right|by left|right; exists tid, tc; set_solver].
      exists task_id, task_config. set_solver.
    + intros [Hid|(tid & tc & [Heq|Hin]%elem_of_cons & Hx & Hk)]; [by left; right| |right; eauto].
      injection Heq as -> ->. left. by left.
  - split; [intros [Hid|(tid & tc & Hin & ?)]; [by left|right; exists tid, tc; set_solver]|].
    intros [Hid|(tid & tc & [Heq|Hin]%elem_of_cons & Hx & Hk)]; [by left|congruence|right; eauto].
Qed.

Lemma inherit_global_tasks_ids b configs filters id :
  id ∈ tb_task_ids (inherit_global_tasks b configs filters) ↔
  id ∈ tb_task_ids b ∨ ∃ path config, (path, config) ∈ configs ∧ inherits filters config id.
Proof.
  unfold inherit_global_tasks. cbn [tb_task_ids].
  enough (∀ b, id ∈ tb_task_ids (fold_left (inherit_config filters) configs.*2 b) ↔
    id ∈ tb_task_ids b ∨ ∃ path config, (path, config) ∈ configs ∧ inherits filters config id) by done.
  clear b. induction configs as [|[path config] configs IH]; intros b; cbn [fmap list_fmap fold_left]; [set_solver|].
  rewrite IH. unfold inherit_config at 1.
  pose proof (inherit_tasks_ids filters (itc_tasks config) (tb_task_ids b, tb_global_tasks b) id) as Hids.
  change (config) with ((path, config).2) in Hids. cbn [snd] in *.
  destruct (fold_left (inherit_task filters) (itc_tasks config) _) as [ids globals]. cbn in *.
  rewrite Hids. setoid_rewrite elem_of_cons. unfold inherits at 2. split.
  - intros [[Hb|Hx]|Hx]; [by left| |]; right; [exists path, config; eauto|].
    destruct Hx as (p & c & Hx & Hi). eauto.
  - intros [Hb|(p & c & [Heq|Hin] & Hi)]; [by left; left| |]; [|by right; eauto].
    injection Heq as -> ->. left. by right.
Qed.

Lemma inherit_global_tasks_project b configs filters :
  tb_project_id (inherit_global_tasks b configs filters) = tb_project_id b.
Proof.
  unfold inherit_global_tasks. cbn [tb_project_id]. revert b.
  induction configs as [|[path config] configs IH]; intros b; [done|]. cbn [fmap list_fmap fold_left].
  rewrite IH. unfold inherit_config. by destruct (fold_left _ (itc_tasks _) _).
Qed.

Lemma inherit_global_tasks_dependencies b configs filters :
  tb_project_dependencies (inherit_global_tasks b configs filters) = tb_project_dependencies b.
Proof.
  unfold inherit_global_tasks. cbn [tb_project_dependencies]. revert b.
  induction configs as [|[path config] configs IH]; intros b; [done|]. cbn [fmap list_fmap fold_left].
  rewrite IH. unfold inherit_config. by destruct (fold_left _ (itc_tasks _) _).
Qed.

Lemma inherit_global_tasks_implicit b configs filters dep :
  dep ∈ tb_implicit_deps (inherit_global_tasks b configs filters) ↔
  dep ∈ tb_implicit_deps b ∨ ∃ path config, (path, config) ∈ configs ∧ dep ∈ itc_implicit_deps config.
Proof.
  unfold inherit_global_tasks. cbn [tb_implicit_deps]. revert b.
  induction configs as [|[path config] configs IH]; intros b; cbn [fmap list_fmap fold_left].
  { set_solver. }
  rewrite IH. unfold inherit_config. destruct (fold_left _ (itc_tasks _) _). cbn [tb_implicit_deps snd].
  rewrite elem_of_app. setoid_rewrite elem_of_cons. naive_solver.
Qed.

(** The tasks of a project: those it inherits, and its own. *)
Lemma project_task_ids project_id deps source toolchains enabled monorepo configs filters local id :
  id ∈ tb_task_ids
    (load_local_tasks
       (inherit_global_tasks (TasksBuilder_new project_id deps source toolchains enabled monorepo)
          configs filters) local) ↔
  is_Some (config_tasks local !! id) ∨
  ∃ path config, (path, config) ∈ configs ∧ inherits filters config id.
Proof.
  cbn [load_local_tasks tb_task_ids]. rewrite elem_of_union, elem_of_dom, inherit_global_tasks_ids.
  cbn [tb_task_ids TasksBuilder_new]. set_solver.
Qed.
End Inherited.

(** ** Dependencies *)

Section Dependencies.
Context `{TasksHost, IdSyntax, ConfigSyntax}.
Implicit Types (b : TasksBuilder).

(** A dependency on a task of the project itself. *)
Definition is_own_dep (project_id : Id) (dep : TaskDependencyConfig) (task_id : Id) : Prop :=
  (Target.project (dep_target dep) = OwnSelf ∨ get_project_id (dep_target dep) = Ok project_id) ∧
  get_task_id (dep_target dep) = Ok task_id.

(** What the filters make of a dependency: one on an excluded task is dropped, one on a
    renamed task follows the new name, and all others are kept. *)
Inductive filtered_dep (project_id : Id) (filters : ProjectWorkspaceInheritedTasksConfig) :
  TaskDependencyConfig → TaskDependencyConfig → Prop :=
| dep_kept dep :
    (∀ task_id, is_own_dep project_id dep task_id →
       task_id ∉ filter_exclude filters ∧ filter_rename filters !! task_id = None) →
    filtered_dep project_id filters dep dep
| dep_renamed dep task_id new_task_id target :
    is_own_dep project_id dep task_id → task_id ∉ filter_exclude filters →
    filter_rename filters !! task_id = Some new_task_id → Target_new_self new_task_id = Ok target →
    filtered_dep project_id filters dep
      (mkTaskDep (dep_args dep) (dep_cache_strategy dep) (dep_env dep) target (dep_optional dep)).

Lemma own_dep_spec b dep :
  match Target.project (dep_target dep), get_project_id (dep_target dep) with
  | OwnSelf, _ => true
  | _, Ok id => bool_decide (id = tb_project_id b)
  | _, _ => false
  end = true ↔
  Target.project (dep_target dep) = OwnSelf ∨ get_project_id (dep_target dep) = Ok (tb_project_id b).
Proof.
  destruct (Target.project (dep_target dep)), (get_project_id (dep_target dep)) as [p|e|];
    rewrite ?bool_decide_eq_true; naive_solver.
Qed.

(** A dependency that the filters cannot change. *)
Lemma unfiltered_dep project_id filters dep dep' :
  (∀ task_id, is_own_dep project_id dep task_id →
     task_id ∉ filter_exclude filters ∧ filter_rename filters !! task_id = None) →
  dep' ∈ [dep] ↔ filtered_dep project_id filters dep dep'.
Proof.
  intros Hkept. rewrite list_elem_of_singleton. split; [intros ->; by apply dep_kept|].
  intros Hf. inversion Hf as [|? task_id new target Hown _ Hr]; subst; [done|].
  destruct (Hkept _ Hown). congruence.
Qed.

Lemma filter_dep_spec b filters next dep l :
  filter_dep b filters next dep = Ok l →
  ∃ more, l = (next ++ more)%list ∧
    ∀ dep', dep' ∈ more ↔ filtered_dep (tb_project_id b) filters dep dep'.
Proof.
  unfold filter_dep. pose proof (own_dep_spec b dep) as Hspec.
  destruct (match Target.project (dep_target dep) with OwnSelf => _ | _ => _ end).
  2: { intros Hl. step_ok. eexists. split; [done|]. intros dep'. apply unfiltered_dep.
       intros task_id [Ho%Hspec _]. done. }
  destruct Hspec as [Ho _]. specialize (Ho eq_refl).
  destruct (get_task_id (dep_target dep)) as [task_id|e|] eqn:Ht.
  2,3: intros Hl; step_ok; eexists; (split; [done|]); intros dep'; apply unfiltered_dep;
    intros task_id [_ Ht']; congruence.
  assert (is_own_dep (tb_project_id b) dep task_id) as Hown by done.
  assert (∀ x, is_own_dep (tb_project_id b) dep x → x = task_id) as Huniq
    by (intros x [_ Hx]; rewrite Ht in Hx; by simplify_eq).
  case_decide as Hx; intros Hl; [step_ok; exists []; split; [by rewrite app_nil_r|]|].
  { intros dep'. split; [by intros ?%not_elem_of_nil|]. intros Hf.
    inversion Hf as [? Hk|? x new target Hox Hnx]; subst; [by destruct (Hk _ Hown)|].
    by rewrite (Huniq x Hox) in Hnx. }
  destruct (filter_rename filters !! task_id) as [new|] eqn:Hr; step_ok; eexists; (split; [done|]);
    intros dep'.
  - rewrite list_elem_of_singleton. split; [intros ->; by eapply dep_renamed|]. intros Hf.
    inversion Hf as [? Hk|? x new' target Hox _ Hrx Htx]; subst; [destruct (Hk _ Hown); congruence|].
    rewrite (Huniq x Hox) in Hrx. congruence.
  - apply unfiltered_dep. intros x ->%Huniq. done.
Qed.

Lemma apply_filters_to_deps_spec b filters deps l :
  tb_filters b = Some filters → apply_filters_to_deps b deps = Ok l →
  ∀ dep', dep' ∈ l ↔ ∃ dep, dep ∈ deps ∧ filtered_dep (tb_project_id b) filters dep dep'.
Proof.
  unfold apply_filters_to_deps. intros ->. revert l.
  induction deps as [|dep deps IH] using rev_ind; intros l Hl dep'.
  { cbn in Hl. step_ok. set_solver. }
  rewrite ofold_app in Hl. step_ok. cbn [ofold] in Hl. step_ok.
  apply filter_dep_spec in E0 as (more & -> & Hmore).
  rewrite elem_of_app, (IH a eq_refl), Hmore. setoid_rewrite elem_of_app.
  setoid_rewrite list_elem_of_singleton. naive_solver.
Qed.

(** A link of the chain configures a dependency; the filters apply to inherited ones. *)
Definition contributes (project_id : Id) (filters : option ProjectWorkspaceInheritedTasksConfig)
  (link : ConfigChain) (dep : TaskDependencyConfig) : Prop :=
  ∃ deps dep0, cfg_deps (link_config link) = Some deps ∧ dep0 ∈ deps ∧
    match link_inherited link, filters with
    | true, Some filters => filtered_dep project_id filters (into_config dep0) dep
    | _, _ => dep = into_config dep0
    end.

Lemma link_deps_spec b link d :
  link_deps b link = Ok d →
  (cfg_deps (link_config link) = None ↔ d = None) ∧
  ∀ dep, contributes (tb_project_id b) (tb_filters b) link dep ↔ ∃ l, d = Some l ∧ dep ∈ l.
Proof.
  unfold link_deps, contributes. destruct (cfg_deps (link_config link)) as [deps|]; intros Hd; step_ok.
  2: { split; [done|]. naive_solver. }
  split; [done|]. intros dep. transitivity (dep ∈ a); [|naive_solver].
  destruct (link_inherited link); [destruct (tb_filters b) as [filters|] eqn:Hf|]; step_ok.
  - rewrite (apply_filters_to_deps_spec _ _ _ _ Hf E).
    setoid_rewrite list_elem_of_fmap. naive_solver.
  - unfold apply_filters_to_deps in E. rewrite Hf in E. step_ok.
    rewrite list_elem_of_fmap. naive_solver.
  - rewrite list_elem_of_fmap. naive_solver.
Qed.

(** The dependencies that a chain merges to: those of all links, of the last link that
    configures some, or of the first link. *)
Definition merged_dep (strategy : MergeStrategy) (project_id : Id)
  (filters : option ProjectWorkspaceInheritedTasksConfig) (chain : list ConfigChain)
  (dep : TaskDependencyConfig) : Prop :=
  match strategy with
  | MergeAppend | MergePrepend =>
      ∃ link, link ∈ chain ∧ contributes project_id filters link dep
  | MergeReplace =>
      ∃ before link after, chain = (before ++ link :: after)%list ∧
        Forall (λ l, cfg_deps (link_config l) = None) after ∧
        contributes project_id filters link dep
  | MergePreserve =>
      ∃ link rest, chain = link :: rest ∧ contributes project_id filters link dep
  end.

Lemma last_configured b chain deps dep :
  Forall2 (λ link d, link_deps b link = Ok d) chain deps →
  (∃ l, last (omap (λ o, o) deps) = Some l ∧ dep ∈ l) ↔
  merged_dep MergeReplace (tb_project_id b) (tb_filters b) chain dep.
Proof.
  revert deps. induction chain as [|link chain IH] using rev_ind; intros deps Hd.
  { apply Forall2_nil_inv_l in Hd as ->. cbn. split; [naive_solver|].
    intros (before & link & after & Heq & _). by destruct before. }
  apply Forall2_app_inv_l in Hd as (deps' & last' & Hd & Hl & ->).
  apply Forall2_cons_inv_l in Hl as (d & ? & Hlink & ->%Forall2_nil_inv_l & ->).
  destruct (link_deps_spec _ _ _ Hlink) as [Hnone Hcontr]. rewrite omap_app. cbn [omap list_omap].
  destruct d as [l|].
  - rewrite last_snoc. split.
    + intros (l' & [= <-] & Hin). exists chain, link, []. split_and!; [done|done|].
      apply Hcontr. eauto.
    + intros (before & link' & after & Heq & Hafter & Hc). exists l. split; [done|].
      destruct after as [|x after _] using rev_ind.
      * apply app_inj_tail in Heq as [_ ->]. apply Hcontr in Hc as (l' & [= <-] & ?). done.
      * rewrite app_comm_cons, app_assoc in Heq. apply app_inj_tail in Heq as [_ ->].
        apply Forall_app in Hafter as [_ Hx]. apply Forall_cons in Hx as [Hx _].
        by apply Hnone in Hx.
  - rewrite app_nil_r, (IH deps' Hd). assert (cfg_deps (link_config link) = None) as Hno by by apply Hnone.
    split; intros (before & link' & after & Heq & Hafter & Hc).
    + exists before, link', (after ++ [link])%list. rewrite Heq, <- app_assoc. split_and!; [done| |done].
      apply Forall_app. split; [done|by repeat constructor].
    + destruct after as [|x after _] using rev_ind.
      * apply app_inj_tail in Heq as [_ ->]. apply Hcontr in Hc as (? & ? & ?). done.
      * rewrite app_comm_cons, app_assoc in Heq. apply app_inj_tail in Heq as [-> ->].
        exists before, link', after. apply Forall_app in Hafter as [? _]. done.
Qed.

Lemma merge_sets_dep b chain deps strategy dep :
  Forall2 (λ link d, link_deps b link = Ok d) chain deps →
  dep ∈ merge_sets strategy deps ↔
  merged_dep strategy (tb_project_id b) (tb_filters b) chain dep.
Proof.
  intros Hd. rewrite merge_sets_elem. unfold merged_elem.
  assert ((∃ l, Some l ∈ deps ∧ dep ∈ l) ↔
    ∃ link, link ∈ chain ∧ contributes (tb_project_id b) (tb_filters b) link dep) as Hall.
  { split.
    - intros (l & Hl & Hin). apply list_elem_of_lookup in Hl as (i & Hi).
      destruct (Forall2_lookup_r _ _ _ _ _ Hd Hi) as (link & Hlink & Hok).
      exists link. split; [by eapply list_elem_of_lookup_2|]. apply (link_deps_spec _ _ _ Hok). eauto.
    - intros (link & Hl & Hc). apply list_elem_of_lookup in Hl as (i & Hi).
      destruct (Forall2_lookup_l _ _ _ _ _ Hd Hi) as (d & Hdi & Hok).
      destruct (proj1 (proj2 (link_deps_spec _ _ _ Hok) dep) Hc) as (l & Heq & Hin).
      exists l. split; [|done]. rewrite <- Heq. by eapply list_elem_of_lookup_2. }
  destruct strategy; cbn [merged_dep]; [exact Hall|exact Hall| |by apply last_configured].
  destruct Hd as [|link d chain deps Hok _]; cbn; [split; intros ?; naive_solver|].
  pose proof (proj2 (link_deps_spec _ _ _ Hok) dep) as Hc. clear Hall. split.
  - intros (l & [= ->] & Hin). exists link, chain. split; [done|]. apply Hc. eauto.
  - intros (link' & rest & [= <- <-] & (l & -> & Hin)%Hc). eauto.
Qed.

(** The dependencies of a built task. *)
Lemma task_built_deps b id t :
  task_built b id t →
  ∃ chain, get_config_inherit_chain b id = Ok chain ∧
    (∀ dep, dep ∈ t_deps t ↔
       merged_dep (o_merge_deps (t_options t)) (tb_project_id b) (tb_filters b) chain dep ∨
       dep ∈ into_config <$> tb_implicit_deps b) ∧
    ((∀ link l, link ∈ chain → link_deps b link = Ok (Some l) → NoDup l) → NoDup (t_deps t)).
Proof.
  intros [_ _ (chain & c & s & gi & deps & p & args & Hchain & _ & _ & _ & _ & Hm & Hf)].
  pose proof (finish_task_options _ _ _ _ _ _ _ _ Hf) as (_ & _ & ? & ? & _ & ->).
  apply finish_task_lists in Hf as (Hdeps & _). rewrite (merged_deps _ _ _ _ _ _ Hm) in Hdeps.
  exists chain. split; [done|]. destruct Hm as [Hlinks _ _ _ _ _ _ _ _ _ _]. rewrite Hdeps. split.
  - intros dep. rewrite merge_vec_elem, (merge_sets_dep _ _ _ _ _ Hlinks). done.
  - intros Hn. assert (∀ l, Some l ∈ deps → NoDup l) as Hnd.
    { intros l Hl. apply list_elem_of_lookup in Hl as (i & Hi).
      destruct (Forall2_lookup_r _ _ _ _ _ Hlinks Hi) as (link & Hlink & Hok).
      by eapply Hn; [eapply list_elem_of_lookup_2|]. }
    cbn. case_decide; [by apply merge_sets_NoDup|]. by apply append_items_NoDup, merge_sets_NoDup.
Qed.

(** The inputs of other projects are those of dependencies. *)
Lemma task_built_inputs b id t :
  task_built b id t →
  ∀ input, InProject input ∈ t_inputs t → pin_project input ∈ pdep_id <$> tb_project_dependencies b.
Proof.
  intros [_ _ (chain & c & s & gi & deps & p & args & _ & _ & _ & _ & _ & _ & Hf)].
  apply finish_task_lists in Hf as (_ & Hinputs & _). by apply (resolve_task_inputs_spec _ _ _ _ Hinputs).
Qed.
End Dependencies.

(** A plugin is never detected by the name of an executable with a version: the part
    of a name before a dash is not the name. *)
Lemma plugin_detect_task_usage_exact exe_names command :
  plugin_detect_task_usage exe_names command = bool_decide (command ∈ exe_names).
Proof.
  unfold plugin_detect_task_usage.
  assert (existsb (λ exe,
    match split_once "-" exe with
    | Some (name, version) =>
        bool_decide (name = exe) && str_all (λ ch, is_digit ch || Ascii.eqb ch ".") version
    | None => false
    end) exe_names = false) as ->; [|by rewrite orb_false_r].
  induction exe_names as [|exe exe_names IH]; [done|]. cbn. rewrite IH, orb_false_r.
  destruct (split_once "-" exe) as [[name version]|] eqn:Hs; [|done].
  apply split_once_Some in Hs as [-> _]. rewrite bool_decide_eq_false_2; [done|].
  intros Heq%(f_equal String.length). rewrite str_append_length in Heq. cbn in Heq. lia.
Qed.

(** ** Toolchains *)

(** Which plugins are in use, from those in [base]: in the order of the plugins, one
    that is in use, or requires one that is, is in use with all that it requires. *)
Fixpoint in_use (base : Id → Prop) (requirements : list (Id * list string)) : Id → Prop :=
  match requirements with
  | [] => base
  | (id, requires) :: requirements =>
      in_use (λ x, base x ∨
        (base id ∨ ∃ r, r ∈ requires ∧ base r) ∧ (x = id ∨ x ∈ requires)) requirements
  end.

(** The enabled plugin that an identifier stands for, the unstable one first. *)
Inductive stands_for (enabled : list Id) (y : Id) : Id → Prop :=
| stands_system : y = "system" → stands_for enabled y "system"
| stands_unstable : y ≠ "system" → Id_unstable y ∈ enabled → stands_for enabled y (Id_unstable y)
| stands_stable :
    y ≠ "system" → Id_unstable y ∉ enabled → Id_stable y ∈ enabled →
    stands_for enabled y (Id_stable y).

Lemma index_set_insert_elem l id x : x ∈ index_set_insert l id ↔ x ∈ l ∨ x = id.
Proof. unfold index_set_insert. case_decide; set_solver. Qed.

Lemma index_set_insert_NoDup l id : NoDup l → NoDup (index_set_insert l id).
Proof.
  unfold index_set_insert. case_decide; [done|]. intros Hl. apply NoDup_app. split_and!; [done| |].
  - set_solver.
  - apply NoDup_singleton.
Qed.

Lemma index_set_insert_all ids l x :
  x ∈ fold_left index_set_insert ids l ↔ x ∈ l ∨ x ∈ ids.
Proof.
  revert l. induction ids as [|id ids IH]; intros l; cbn; [set_solver|].
  rewrite IH, index_set_insert_elem. set_solver.
Qed.

Lemma filter_and_resolve_spec enabled ids :
  NoDup (filter_and_resolve_toolchain_ids enabled ids true) ∧
  ∀ x, x ∈ filter_and_resolve_toolchain_ids enabled ids true ↔
    (∃ y, y ∈ ids ∧ stands_for enabled y x) ∨
    x = "system" ∧ ∀ y z, y ∈ ids → ¬ stands_for enabled y z.
Proof.
  unfold filter_and_resolve_toolchain_ids. rewrite andb_true_r.
  assert (∀ l y x, x ∈ resolve_toolchain_step enabled l y ↔ x ∈ l ∨ stands_for enabled y x) as Hstep.
  { intros l y x. unfold resolve_toolchain_step, stable_and_unstable.
    assert (stands_for enabled y x ↔
      if decide (y = "system") then x = "system"
      else if decide (Id_unstable y ∈ enabled) then x = Id_unstable y
      else Id_stable y ∈ enabled ∧ x = Id_stable y) as ->.
    { repeat case_decide; (split; [by inversion 1; subst|]).
      - intros ->. by constructor.
      - intros ->. by constructor.
      - intros [? ->]. by constructor. }
    repeat case_decide; rewrite ?index_set_insert_elem; naive_solver. }
  assert (∀ l x, x ∈ fold_left (resolve_toolchain_step enabled) ids l ↔
    x ∈ l ∨ ∃ y, y ∈ ids ∧ stands_for enabled y x) as Hfold.
  { induction ids as [|y ids IH]; intros l x; cbn; [set_solver|]. rewrite IH, Hstep.
    setoid_rewrite elem_of_cons. naive_solver. }
  assert (∀ l, NoDup l → NoDup (fold_left (resolve_toolchain_step enabled) ids l)) as Hnd.
  { clear. induction ids as [|y ids IH]; intros l Hl; cbn; [done|]. apply IH.
    unfold resolve_toolchain_step, stable_and_unstable.
    repeat case_decide; auto using index_set_insert_NoDup. }
  specialize (Hfold []). specialize (Hnd [] (NoDup_nil_2 )).
  case_bool_decide as Hnil.
  - rewrite Hnil in Hfold. split; [apply NoDup_singleton|]. intros x.
    rewrite list_elem_of_singleton. split.
    + intros ->. right. split; [done|]. intros y z Hy Hs.
      apply (not_elem_of_nil z), Hfold. eauto.
    + intros [(y & Hy & Hs)|[? _]]; [|done]. exfalso. apply (not_elem_of_nil x), Hfold. eauto.
  - split; [done|]. intros x. rewrite Hfold. split; [set_solver|].
    intros [?|[_ Hno]]; [by right|]. exfalso. apply Hnil.
    destruct (fold_left _ ids []) as [|z l] eqn:E; [done|].
    destruct (proj1 (Hfold z)) as [?%not_elem_of_nil|(y & Hy & Hs)]; [by left|done|].
    by destruct (Hno y z).
Qed.

Section Usage.
Context `{TasksHost, IdSyntax, ConfigSyntax}.
Implicit Types (b : TasksBuilder).

Lemma require_all requires expanded expanded' :
  ofold (λ expanded require_id,
    let? require_id := Id_parse require_id in Ok ({[require_id]} ∪ expanded)) expanded requires
  = Ok expanded' → ∀ x : Id, x ∈ (expanded' : gset Id) ↔ x ∈ expanded ∨ x ∈ requires.
Proof.
  revert expanded. induction requires as [|r requires IH]; intros expanded He x; cbn [ofold] in He.
  { step_ok. set_solver. }
  step_ok. rewrite (IH _ He). unfold Id_parse in E0. destruct (id_new r); step_ok. set_solver.
Qed.

Lemma expand_usage_spec base expanded requirements expanded' :
  (∀ x, x ∈ expanded ↔ base x) → ofold expand_usage_step expanded requirements = Ok expanded' →
  ∀ x, x ∈ expanded' ↔ in_use base requirements x.
Proof.
  revert base expanded. induction requirements as [|[id requires] requirements IH];
    intros base expanded Hbase He; cbn [ofold] in He; [by step_ok|].
  step_ok. cbn [in_use]. apply (IH _ a); [|done]. clear IH He. intros x. unfold expand_usage_step in E.
  assert ((bool_decide (id ∈ expanded) || existsb (λ id, bool_decide (id ∈ expanded)) requires) = true ↔
    base id ∨ ∃ r, r ∈ requires ∧ base r) as Huse.
  { rewrite orb_true_iff, bool_decide_eq_true, existsb_exists, Hbase.
    setoid_rewrite bool_decide_eq_true. setoid_rewrite Hbase. setoid_rewrite list_elem_of_In. done. }
  destruct (_ || _).
  - step_ok. apply require_all with (x := x) in E0.
    rewrite elem_of_union, elem_of_singleton, E0, Hbase. naive_solver.
  - step_ok. rewrite Hbase. naive_solver.
Qed.

(** The plugin lists the command as an executable, literally. *)
Definition detected b (command : string) (x : Id) : Prop :=
  x ∈ tb_enabled_toolchains b ∧
  ∃ exe_names, plugin_exe_names x = Ok exe_names ∧ command ∈ exe_names.

Lemma detect_task_usage_spec b command found :
  detect_task_usage (tb_enabled_toolchains b) command = Ok found →
  ∀ x, x ∈ found ↔ detected b command x.
Proof.
  unfold detect_task_usage, detected. intros Hf id. step_ok. apply omap_list_Ok in E.
  rewrite elem_of_elements, elem_of_list_to_set, list_elem_of_fmap. split.
  - intros ([id' names] & -> & [Hd Hin]%list_elem_of_filter). cbn.
    apply list_elem_of_lookup in Hin as (i & Hi).
    destruct (Forall2_lookup_r _ _ _ _ _ E Hi) as (x & Hx & Heq). cbn in Heq.
    destruct (plugin_exe_names x) eqn:Hn; simplify_eq/=. rewrite plugin_detect_task_usage_exact in Hd.
    apply bool_decide_eq_true in Hd. split; [by eapply list_elem_of_lookup_2|]. eauto.
  - intros [Hin (names & Hn & Hc)]. apply list_elem_of_lookup in Hin as (i & Hi).
    destruct (Forall2_lookup_l _ _ _ _ _ E Hi) as (x & Hx & Heq). cbn in Heq. rewrite Hn in Heq. cbn in Heq.
    injection Heq as <-. exists (id, names). split; [done|]. apply list_elem_of_filter.
    split; [|by eapply list_elem_of_lookup_2].
    rewrite plugin_detect_task_usage_exact. by apply bool_decide_eq_true.
Qed.

(** The toolchains a task starts from: those it configures; otherwise those whose
    plugins know its command; and otherwise those of its project. *)
Definition base_toolchains b (configured : list Id) (command : string) (x : Id) : Prop :=
  match configured with
  | _ :: _ => x ∈ configured
  | [] => detected b command x ∨
      (∀ y, ¬ detected b command y) ∧ x ∈ tb_project_toolchains b
  end.

Lemma resolve_task_toolchains_spec b configured command l :
  resolve_task_toolchains b configured command = Ok l →
  ∃ requirements, plugin_requirements = Ok requirements ∧ NoDup l ∧
    let used := in_use (base_toolchains b configured (ta_value command)) requirements in
    ∀ x, x ∈ l ↔
      (∃ y, used y ∧ stands_for (tb_enabled_toolchains b) y x) ∨
      x = "system" ∧ ∀ y z, used y → ¬ stands_for (tb_enabled_toolchains b) y z.
Proof.
  unfold resolve_task_toolchains. intros Hl. step_ok. rename a into found.
  unfold expand_task_usage in E0. step_ok. exists a. split; [done|].
  destruct (filter_and_resolve_spec (tb_enabled_toolchains b) (elements a1)) as [Hnd Hin].
  split; [done|]. intros x. rewrite Hin.
  set (used := in_use _ _).
  assert (∀ y, y ∈ elements a1 ↔ used y) as Hused.
  { intros y. rewrite elem_of_elements. revert y. eapply expand_usage_spec; [|exact E2].
    intros y. rewrite elem_of_list_to_set. unfold base_toolchains. destruct configured as [|z configured].
    - pose proof (detect_task_usage_spec _ _ _ E) as Hd. destruct found as [|z found].
      + rewrite index_set_insert_all. split; [intros [?%not_elem_of_nil|?]; [done|]|].
        * right. split; [|done]. intros w Hw%Hd. by apply not_elem_of_nil in Hw.
        * intros [Hy%Hd|[_ ?]]; [by apply not_elem_of_nil in Hy|by right].
      + rewrite Hd. split; [by left|]. intros [?|[Hno _]]; [done|]. destruct (Hno z). apply Hd. by left.
    - assert (∀ w, w ∈ found ↔ w ∈ z :: configured) as Hall.
      { intros w. injection E as <-.
        change (w ∈ fold_left index_set_insert (z :: configured) [] ↔ w ∈ z :: configured).
        rewrite index_set_insert_all. set_solver. }
      destruct found as [|w found]; [|by rewrite Hall].
      exfalso. apply (not_elem_of_nil z), Hall. by left. }
  by setoid_rewrite Hused.
Qed.
End Usage.
