(* ===== verification/TasksBuilderTheorems.v ===== *)
(** * What building tasks promises

The theorems about the tasks of a project, evaluated on a project that inherits a task
and extends another one. *)

From S2P Require Import Prelude Errors Target Shapes Config InheritedTasks TasksBuilder.
From S2P Require Import TasksBuilderFacts.
#[local] Open Scope string_scope.

Section Theorems.
Context `{TasksHost, IdSyntax, ConfigSyntax}.
Implicit Types (b : TasksBuilder).

(** C25: the chain of configurations of a task is found if and only if every task that
    is extended on the way exists, and none of them extends itself in the end. The
    recursion is then never deeper than the number of tasks. *)
Theorem get_config_inherit_chain_ok b id :
  let extends := extends_to (tb_local_tasks b) (tb_global_tasks b) in
  is_ok (get_config_inherit_chain b id) = true ↔
  (∀ x y, rtc extends id x → extends x y → known (tb_local_tasks b) (tb_global_tasks b) y) ∧
  (∀ x, rtc extends id x → ¬ tc extends x x).
Proof. apply extract_config_ok. Qed.

(** Tasks that extend each other are followed forever. If all tasks that are
    extended exist, and the task extends itself in the end, no depth of the recursion
    [extract_config] is enough, so that the program overflows its stack instead of
    reporting an error. *)
Theorem extends_cycle_diverges b id fuel :
  let extends := extends_to (tb_local_tasks b) (tb_global_tasks b) in
  (∀ x y, rtc extends id x → extends x y → known (tb_local_tasks b) (tb_global_tasks b) y) →
  tc extends id id →
  extract_config fuel (tb_local_tasks b) (tb_global_tasks b) id = OutOfFuel.
Proof.
  intros extends Hknown Hcycle.
  destruct (extract_config fuel _ _ id) as [l|e|] eqn:He; [| |done].
  - by apply extract_config_cycle in He.
  - by apply extract_config_no_error in He.
Qed.

(** C24: the options of a built task are, one by one, what was configured last: by the
    options shared by all tasks of the project, then by the tasks that are extended, the
    inherited configurations and the task itself. What is not configured is the default
    of the preset, which is the one configured last or comes with the identifier; the
    files of environment variables are those the last setting stands for; an interactive
    task streams its output and does not run in CI. A task that neither configures
    whether it runs in CI nor has a preset does so if it builds or tests; a script runs
    in a shell, and so does a command that uses the syntax of one, unless the option is
    configured. *)
Theorem task_options_configured b id t :
  build_task b id = Ok t →
  ∃ links command args, get_config_inherit_chain b id = Ok links ∧
    let cs := (tb_shared_task_options b ++ ((λ link, cfg_options (link_config link)) <$> links))%list in
    let d := os_options (initial_options (t_preset t)) in
    let script := last_set (λ link, Some <$> cfg_script (link_config link)) None links in
    t_preset t = last_set (λ link, Some <$> cfg_preset (link_config link)) (implied_preset id) links ∧
    options_configured id cs d (t_options t) ∧
    o_run_in_ci (t_options t) =
      run_in_ci_of (o_interactive (t_options t)) (t_preset t) (t_type_of t) cs (o_run_in_ci d) ∧
    (for_other_system (t_options t) = false → script = None →
     command = t_command t ∧ args = t_args t) ∧
    o_shell (t_options t) =
      shell_of script (existsb (link_needs_shell (t_target t)) links || needs_shell command args)
        cs (o_shell d).
Proof.
  intros [_ _ (chain & c & s & gi & deps & p & args & Hchain & Hpreset & Hneeds & Hs & _ & Hm & Hf)]
    %build_task_built.
  apply finish_task_options in Hf as (Ht & _ & command & args' & Hcmd & Ho).
  apply build_task_options_configured in Hs as (links & Hlinks & Hc & Hshell & Hdis & Hci).
  rewrite Hchain in Hlinks. injection Hlinks as <-. rewrite <- Ht in *.
  rewrite (merged_script _ _ _ _ _ _ Hm) in *.
  exists chain, command, args'. rewrite Ho. split; [done|]. cbv zeta. split_and!.
  - done.
  - by destruct Hc; split.
  - by rewrite <- Hci.
  - done.
  - rewrite <- Hneeds. by apply built_shell.
Qed.

(** C12: the tasks of a project are the inherited ones that its filters let through,
    under the names the filters give them, and its own. There is one task for each of
    them, in the order of their identifiers, with the target of the project and that
    identifier. Its dependencies are the implicit ones of the inherited configurations and
    those that the links of its chain of configurations contribute, of all links, the last
    or the first one by its merge strategy; of the dependencies of an inherited link, those
    on excluded tasks are dropped and those on renamed ones follow the new name. There are
    no repetitions if no link has some; and the task only has inputs of projects that the
    project depends on. *)
Theorem project_tasks_built project_id deps source toolchains enabled monorepo configs filters local
    tasks :
  let b := load_local_tasks
    (inherit_global_tasks (TasksBuilder_new project_id deps source toolchains enabled monorepo) configs
       filters) local in
  TasksBuilder_build b = Ok tasks →
  StronglySorted String.le tasks.*1 ∧ NoDup tasks.*1 ∧
  (∀ id, id ∈ tasks.*1 ↔
     is_Some (config_tasks local !! id) ∨
     ∃ path config, (path, config) ∈ configs ∧ inherits filters config id) ∧
  (∀ id t, (id, t) ∈ tasks →
     t_id t = id ∧ Target_new project_id id = Ok (t_target t) ∧
     (∃ chain, get_config_inherit_chain b id = Ok chain ∧
        (∀ dep, dep ∈ t_deps t ↔
           merged_dep (o_merge_deps (t_options t)) project_id filters chain dep ∨
           ∃ path config dep0, (path, config) ∈ configs ∧ dep0 ∈ itc_implicit_deps config ∧
             dep = into_config dep0) ∧
        ((∀ link l, link ∈ chain → link_deps b link = Ok (Some l) → NoDup l) → NoDup (t_deps t))) ∧
     (∀ input, InProject input ∈ t_inputs t → pin_project input ∈ pdep_id <$> deps)).
Proof.
  intros b Hb. pose proof Hb as (Hs & Hnd & Hids & Hbuilt)%TasksBuilder_build_tasks.
  split; [done|]. split; [done|]. split; [intros id; by rewrite Hids, <-project_task_ids|].
  intros id t Hin. pose proof (Hbuilt id t Hin) as Ht.
  pose proof (task_built_deps _ _ _ Ht) as (chain & Hchain & Hdeps & Hrep).
  pose proof (task_built_inputs _ _ _ Ht) as Hinputs.
  destruct Ht as [Htarget Hid _]. split; [done|].
  assert (tb_project_id b = project_id ∧ tb_project_dependencies b = deps ∧ tb_filters b = filters)
    as (Hp & Hd & Hfilters).
  { unfold b. cbn [load_local_tasks tb_project_id tb_project_dependencies tb_filters].
    by rewrite inherit_global_tasks_project, inherit_global_tasks_dependencies. }
  rewrite Hp in *. rewrite Hd in *. rewrite Hfilters in *. split_and!; [done| |done].
  exists chain. split_and!; [done| |done].
  intros dep. rewrite Hdeps, list_elem_of_fmap. unfold b at 1. cbn [load_local_tasks tb_implicit_deps].
  setoid_rewrite inherit_global_tasks_implicit. cbn [TasksBuilder_new tb_implicit_deps]. set_solver.
Qed.

(** C36: the toolchains of a built task. It starts from those its chain of
    configurations merges to; if there are none, from the enabled ones whose plugin lists
    its command as an executable, literally; and if there are none either, from those of
    its project. These are extended, in the order of the plugins, by what they require and
    by the plugins that require one of them; and they are the enabled plugins that the
    identifiers stand for, or [system] if there are none. The binaries with a version, such
    as [node-20.1], that a comment of the code means to support are never detected: the
    code compares the name of an executable with its own part before the dash. *)
Theorem task_toolchains_exact b id t :
  build_task b id = Ok t →
  ∃ chain configured requirements,
    get_config_inherit_chain b id = Ok chain ∧
    (∀ x, x ∈ configured ↔ merged_elem (o_merge_toolchains (t_options t))
       ((λ link, cfg_toolchains (link_config link)) <$> chain) x) ∧
    plugin_requirements = Ok requirements ∧ NoDup (t_toolchains t) ∧
    let used := in_use (base_toolchains b configured (ta_value (t_command t))) requirements in
    ∀ x, x ∈ t_toolchains t ↔
      (∃ y, used y ∧ stands_for (tb_enabled_toolchains b) y x) ∨
      x = "system" ∧ ∀ y z, used y → ¬ stands_for (tb_enabled_toolchains b) y z.
Proof.
  intros [_ _ (chain & c & s & gi & deps & p & args & Hchain & _ & _ & _ & _ & Hm & Hf)]
    %build_task_built.
  apply finish_task_options in Hf as (_ & Ht & command & args' & _ & Ho).
  apply resolve_task_toolchains_spec in Ht as (requirements & Hreq & Hnd & Hin).
  exists chain, (tp_toolchains p), requirements. split_and!; try done.
  intros x. rewrite Ho, (merged_toolchains _ _ _ _ _ _ Hm). apply merge_sets_elem.
Qed.
End Theorems.

(** ** A project that extends and inherits tasks *)

Section Example.
#[local] Existing Instance ascii_ids.

#[local] Instance tasks_host : TasksHost := {
  parse_args _ := inr "0:0";
  plugin_exe_names id := Ok [id];
  plugin_requirements := Ok [];
  command_on_path _ := true;
  current_os := "linux";
  config_dir_prefix := ".moon";
  config_extensions := ["yml"; "yaml"];
}.

#[local] Instance tasks_syntax : ConfigSyntax := {
  regex_new _ := true;
  path_join root path := root +:+ "/" +:+ path;
}.

Definition own_dep (task : Id) : TaskDependency :=
  DependencyTarget (match Target_new_self task with Ok t => t | _ => Target_default end).

(** A task that runs [command], extends another one and depends on tasks. *)
Definition task_config (command : string) (extends : option Id) (deps : list TaskDependency)
  (options : TaskOptionsConfig) : TaskConfig :=
  mkTaskConfig extends None (ArgsList [command]) ArgsNoop None (Some deps) None [] None None options None
    None None None None.

Definition retry (count : nat) : TaskOptionsConfig :=
  mkTaskOptionsConfig None None None None None None None None None None None None None None None None
    None None None None None None None (Some count) None None None None None None None None.

(** [lint] and [test] are inherited, but [test] is renamed and [fmt] is excluded;
    [build] extends [lint]. *)
Definition example_filters : ProjectWorkspaceInheritedTasksConfig :=
  mkInheritedTasksFilters ["fmt"] None {["test" := "unit"]}.

Definition example_global : InheritedTasksConfig :=
  mkInheritedTasksConfig [] ∅ [] [] None
    [("fmt", task_config "fmt" None [] TaskOptionsConfig_default);
     ("lint", task_config "lint" None [own_dep "fmt"; own_dep "test"] (retry 1));
     ("test", task_config "test" None [] TaskOptionsConfig_default)] (Some (retry 3)).

Definition example_local : ProjectConfig :=
  mkProjectConfig [] [] ∅ None UnknownLanguage UnknownLayer None UnknownStack []
    {["build" := task_config "make" (Some "lint") [own_dep "lint"] TaskOptionsConfig_default]} None None ∅
    (mkProjectWorkspaceConfig example_filters None None).

Definition example_builder (local : ProjectConfig) : TasksBuilder :=
  load_local_tasks
    (inherit_global_tasks (TasksBuilder_new "app" [] "app" ["node"] ["node"] true)
       [(".moon/tasks.yml", example_global)] (Some example_filters)) local.

(** The tasks and what they depend on; of the dependencies of [lint], the one on [fmt]
    is dropped and the one on [test] follows the new name. *)
Example example_tasks :
  (let? tasks := TasksBuilder_build (example_builder example_local) in
   Ok ((λ t, (t.1, (λ d, Target.id (dep_target d)) <$> t_deps t.2, o_retry_count (t_options t.2),
              t_toolchains t.2)) <$> tasks)) =
  Ok [("build", ["~:unit"; "~:lint"], 1%nat, ["node"]); ("lint", ["~:unit"], 1%nat, ["node"]);
      ("unit", [], 3%nat, ["node"])].
Proof. by vm_compute. Qed.

Lemma task_options_configured_witness : ∃ t links,
  build_task (example_builder example_local) "build" = Ok t ∧
  get_config_inherit_chain (example_builder example_local) "build" = Ok links ∧
  options_configured "build"
    (tb_shared_task_options (example_builder example_local) ++
     ((λ link, cfg_options (link_config link)) <$> links))%list
    (os_options (initial_options (t_preset t))) (t_options t).
Proof.
  destruct (is_ok_Ok (build_task (example_builder example_local) "build")) as [t Ht]; [by vm_compute|].
  destruct (task_options_configured (example_builder example_local) "build" t Ht)
    as (links & _ & _ & Hl & _ & Ho & _).
  exists t, links. split; [assumption|]. split; assumption.
Defined.

Lemma project_tasks_built_witness : ∃ tasks,
  TasksBuilder_build (example_builder example_local) = Ok tasks ∧
  ("unit" ∈ tasks.*1 ↔
     is_Some (config_tasks example_local !! "unit") ∨
     ∃ path config, (path, config) ∈ [(".moon/tasks.yml", example_global)] ∧
       inherits (Some example_filters) config "unit").
Proof.
  destruct (is_ok_Ok (TasksBuilder_build (example_builder example_local))) as [tasks Ht];
    [by vm_compute|].
  destruct (project_tasks_built "app" [] "app" ["node"] ["node"] true [(".moon/tasks.yml", example_global)]
    (Some example_filters) example_local tasks Ht) as (_ & _ & Hids & _).
  exists tasks. split; [assumption|apply Hids].
Defined.

(** The plugin lists [node] as its executable; the command [make] is not known, so that
    the task has the toolchains of the project. *)
Lemma task_toolchains_exact_witness : ∃ t configured,
  build_task (example_builder example_local) "build" = Ok t ∧
  ∀ x, x ∈ t_toolchains t ↔
    (∃ y, in_use (base_toolchains (example_builder example_local) configured "make") [] y ∧
       stands_for ["node"] y x) ∨
    x = "system" ∧ ∀ y z,
      in_use (base_toolchains (example_builder example_local) configured "make") [] y →
      ¬ stands_for ["node"] y z.
Proof.
  destruct (is_ok_Ok (build_task (example_builder example_local) "build")) as [t Ht]; [by vm_compute|].
  destruct (task_toolchains_exact (example_builder example_local) "build" t Ht)
    as (chain & configured & reqs & _ & _ & [= <-] & _ & Hin).
  exists t, configured. split; [assumption|].
  assert (ta_value (t_command t) = "make") as Hmake; [|rewrite Hmake in Hin; exact Hin].
  assert ((let? t := build_task (example_builder example_local) "build" in
    Ok (ta_value (t_command t))) = Ok "make") as Hm by by vm_compute.
  rewrite Ht in Hm. injection Hm as Hm. exact Hm.
Defined.

(** A binary with a version is not detected. *)
Example versioned_binary_not_detected :
  detect_task_usage ["node"; "python"] "node-20.1" = Ok [].
Proof. by vm_compute. Qed.

(** [a] extends [b], and [b] extends [a]. *)
Definition cyclic_local : ProjectConfig :=
  mkProjectConfig [] [] ∅ None UnknownLanguage UnknownLayer None UnknownStack []
    {["a" := task_config "a" (Some "b") [] TaskOptionsConfig_default;
      "b" := task_config "b" (Some "a") [] TaskOptionsConfig_default]} None None ∅
    ProjectWorkspaceConfig_default.

Lemma cyclic_extends x y :
  extends_to (config_tasks cyclic_local) ∅ x y → (x = "a" ∧ y = "b") ∨ (x = "b" ∧ y = "a").
Proof.
  intros (link & Hl & Hy). unfold task_configs in Hl. rewrite lookup_empty in Hl. cbn [default fmap list_fmap app] in Hl.
  destruct (config_tasks cyclic_local !! x) as [c|] eqn:Hc; [|by apply elem_of_nil in Hl].
  apply list_elem_of_singleton in Hl as ->. unfold cyclic_local in Hc. cbn [config_tasks] in Hc.
  apply lookup_insert_Some in Hc as [[<- <-]|[_ [<- <-]%lookup_singleton_Some]]; cbn in Hy; naive_solver.
Qed.

Lemma extends_cycle_diverges_witness :
  extract_config 100 (config_tasks cyclic_local) ∅ "a" = OutOfFuel.
Proof.
  pose (b := mkTasksBuilder [] false "app" [] ∅ "app" [] [] [] ∅ ∅ (config_tasks cyclic_local) [] None).
  apply (extends_cycle_diverges b "a" 100); cbn [b tb_local_tasks tb_global_tasks].
  - intros x y _ Hxy. destruct (cyclic_extends x y Hxy) as [[-> ->]|[-> ->]]; by vm_compute.
  - apply tc_l with "b"; [|apply tc_once].
    + exists (mkConfigChain (task_config "a" (Some "b") [] TaskOptionsConfig_default) false).
      split; [|reflexivity]. vm_compute. by left.
    + exists (mkConfigChain (task_config "b" (Some "a") [] TaskOptionsConfig_default) false).
      split; [|reflexivity]. vm_compute. by left.
Defined.
End Example.
