(* ===== verification/ProjectBuilder.v ===== *)
(** * Building a project ([crates/project-builder], [crates/toolchain])

[ProjectBuilder] collects the configuration of a project, what plugins extend it
with and the toolchains it uses, and builds the [Project] with its file groups and its
tasks.  The plugins and the configuration files are parameters. *)

From S2P Require Import Prelude Errors Target Shapes Config TaskDeps InheritedTasks TasksBuilder.

(** [ProjectBuilderContext], the parts that are not behind [ProjectHost]. *)
Record ProjectBuilderContext : Type := mkProjectBuilderContext {
  pbc_enabled_toolchains : list Id;
  pbc_monorepo : bool;
  pbc_root_project_id : option Id;
}.

(** The plugin registry and the configuration files. *)
Class ProjectHost : Type := {
  source_exists : WorkspaceRelativePath → bool;
  project_root : WorkspaceRelativePath → string;
  detect_project_language : string → result LanguageType;
  detect_project_toolchain_from_language : LanguageType → result (list Id);
  detect_project_toolchain_from_usage : string → ProjectConfig → result (list Id);
  load_project_config : string → result ProjectConfig;
  (** the [InheritedTasksManager], with the files that were found *)
  tasks_manager : list InheritedTasksEntry;
  project_syntax :: ConfigSyntax;
  project_files :: FileExists;
  project_tasks :: TasksHost;
}.

Section Builder.
Context `{ProjectHost, IdSyntax}.

(** [ProjectBuilder] *)
Record ProjectBuilder : Type := mkProjectBuilder {
  pb_context : ProjectBuilderContext;
  pb_global_configs : option InheritedTasks;
  pb_local_config : option ProjectConfig;
  pb_id : Id;
  pb_source : WorkspaceRelativePath;
  pb_aliases : list string;
  pb_root : string;
  pb_language : LanguageType;
  pb_toolchains : list Id;
  pb_toolchains_inheritance : list Id;
  pb_enabled_toolchains : list Id;
}.

(** [ProjectBuilder::new] *)
Definition ProjectBuilder_new (id : Id) (source : WorkspaceRelativePath)
  (context : ProjectBuilderContext) : ProjectBuilder :=
  mkProjectBuilder context None None id source [] (project_root source) UnknownLanguage [] []
    (pbc_enabled_toolchains context).

Definition pb_set_local (b : ProjectBuilder) (config : ProjectConfig) (language : LanguageType)
  (toolchains inheritance : list Id) : ProjectBuilder :=
  mkProjectBuilder (pb_context b) (pb_global_configs b) (Some config) (pb_id b) (pb_source b)
    (pb_aliases b) (pb_root b) language toolchains inheritance (pb_enabled_toolchains b).

Definition pb_set_config (b : ProjectBuilder) (config : ProjectConfig) : ProjectBuilder :=
  pb_set_local b config (pb_language b) (pb_toolchains b) (pb_toolchains_inheritance b).

(** The configuration with another environment. *)
Definition set_env (c : ProjectConfig) (env : EnvMap) : ProjectConfig :=
  mkProjectConfig (config_depends_on c) env (config_file_groups c) (config_id c) (config_language c)
    (config_layer c) (config_project c) (config_stack c) (config_tags c) (config_tasks c) (config_task_options c)
    (config_toolchains_default c) (config_toolchains c) (config_workspace c).

(** [merge_global_env] *)
Definition merge_global_env (global : InheritedTasks) (local : ProjectConfig) : ProjectConfig :=
  match filter (λ env, env ≠ []) (itc_env <$> (it_configs global).*2) with
  | [] => local
  | chain =>
      let strategy := default MergeAppend (pwc_merge_env (config_workspace local)) in
      let chain := match config_env local with [] => chain | env => chain ++ [env] end in
      set_env local
        (fold_left (λ env '(index, next_env), merge_index_map env next_env strategy index)
           (imap pair chain) [])
  end.

(** [inherit_global_configs] *)
Definition inherit_global_configs (b : ProjectBuilder) : result ProjectBuilder :=
  let? local_config := ok_or (pb_local_config b)
    (Foreign "Local config must be loaded before global config!") in
  let? global := get_inherited_config tasks_manager
    (mkInheritFor (Some (config_language local_config)) (Some (config_layer local_config))
       (Some (pb_root b)) (Some (config_stack local_config)) (Some (config_tags local_config))
       (Some (pb_toolchains_inheritance b))) in
  Ok (mkProjectBuilder (pb_context b) (Some global) (Some (merge_global_env global local_config))
        (pb_id b) (pb_source b) (pb_aliases b) (pb_root b) (pb_language b) (pb_toolchains b)
        (pb_toolchains_inheritance b) (pb_enabled_toolchains b)).

Definition is_unknown (language : LanguageType) : bool :=
  match language with UnknownLanguage => true | _ => false end.

(** The toolchains that plugins are enabled or disabled for. *)
Definition override_toolchain (toolchains : gset Id) (plugin : Id * ProjectToolchainEntry) : gset Id :=
  let '(plugin_id, override_config) := plugin in
  if ProjectToolchainEntry_is_enabled override_config then {[plugin_id]} ∪ toolchains
  else toolchains ∖ {[plugin_id]}.

(** [inherit_local_config] *)
Definition inherit_local_config (b : ProjectBuilder) (config : ProjectConfig) : result ProjectBuilder :=
  let? language :=
    if is_unknown (config_language config) then detect_project_language (pb_root b)
    else Ok (config_language config) in
  let infer_toolchain_from_language := negb (is_unknown (config_language config)) in
  let configured := default [] (config_toolchains_default config) in
  let? inferred :=
    if infer_toolchain_from_language && negb (is_unknown language)
    then detect_project_toolchain_from_language language else Ok [] in
  let? detected := detect_project_toolchain_from_usage (pb_root b) config in
  let toolchains : gset Id :=
    fold_left override_toolchain (map_to_list (config_toolchains config))
      (list_to_set configured ∪ list_to_set inferred ∪ list_to_set detected) in
  Ok (pb_set_local b config language
        (filter_and_resolve_toolchain_ids (pb_enabled_toolchains b) (elements toolchains) true)
        (elements (set_map Id_stable toolchains : gset Id))).

(** [load_local_config] *)
Definition load_local_config (b : ProjectBuilder) : result ProjectBuilder :=
  let? config := load_project_config (pb_root b) in
  inherit_local_config b config.

(** [extend_with_dependency], [extend_with_task], [set_aliases] *)
Definition extend_with_dependency (b : ProjectBuilder) (dep : ProjectDependencyConfig) :
  result ProjectBuilder :=
  let? c := ok_or (pb_local_config b)
    (Foreign "Local config must be loaded before extending dependencies!") in
  Ok (pb_set_config b (mkProjectConfig (config_depends_on c ++ [DependsOnObject dep]) (config_env c)
        (config_file_groups c) (config_id c) (config_language c) (config_layer c) (config_project c) (config_stack c)
        (config_tags c) (config_tasks c) (config_task_options c) (config_toolchains_default c)
        (config_toolchains c) (config_workspace c))).

Definition extend_with_task (b : ProjectBuilder) (task_id : Id) (config : TaskConfig) :
  result ProjectBuilder :=
  let? c := ok_or (pb_local_config b)
    (Foreign "Local config must be loaded before extending tasks!") in
  let tasks := match config_tasks c !! task_id with
               | Some _ => config_tasks c
               | None => <[task_id := config]> (config_tasks c)
               end in
  Ok (pb_set_config b (mkProjectConfig (config_depends_on c) (config_env c) (config_file_groups c)
        (config_id c) (config_language c) (config_layer c) (config_project c) (config_stack c) (config_tags c) tasks
        (config_task_options c) (config_toolchains_default c) (config_toolchains c)
        (config_workspace c))).

Definition set_aliases (b : ProjectBuilder) (aliases : list string) : ProjectBuilder :=
  mkProjectBuilder (pb_context b) (pb_global_configs b) (pb_local_config b) (pb_id b) (pb_source b)
    aliases (pb_root b) (pb_language b) (pb_toolchains b) (pb_toolchains_inheritance b)
    (pb_enabled_toolchains b).

(** [build_dependencies]: [DependencyScope::default()] is production. *)
Definition depends_on_config (dep_on : ProjectDependsOn) : ProjectDependencyConfig :=
  match dep_on with
  | DependsOnString id => mkProjectDep id SProduction
  | DependsOnObject config => config
  end.

Definition build_dependencies (b : ProjectBuilder) : list ProjectDependencyConfig :=
  let deps : gmap Id ProjectDependencyConfig :=
    match pb_local_config b with
    | Some local =>
        fold_left (λ deps dep_on,
          let dep_config := depends_on_config dep_on in
          <[pdep_id dep_config := dep_config]> deps) (config_depends_on local) ∅
    | None => ∅
    end in
  (map_to_list deps).*2.

(** [build_file_groups]: the inputs of every group, from the inherited configurations
    and from the local one. *)
Definition add_chains (chains : gmap Id (list (list Input))) (groups : gmap Id (list Input)) :
  gmap Id (list (list Input)) :=
  union_with (λ chain next, Some (chain ++ next)) chains ((λ inputs, [inputs]) <$> groups).

Definition group_le (g1 g2 : Id * list (list Input)) : Prop := String.le g1.1 g2.1.
#[local] Instance group_le_dec : RelDecision group_le := λ g1 g2, decide (String.le g1.1 g2.1).

Definition build_file_groups (b : ProjectBuilder) : result (list (Id * FileGroup)) :=
  let chains := match pb_global_configs b with
                | Some global => fold_left add_chains (itc_file_groups <$> (it_configs global).*2) ∅
                | None => ∅
                end in
  let '(strategy, chains) :=
    match pb_local_config b with
    | Some local =>
        (default MergeAppend (pwc_merge_file_groups (config_workspace local)),
         add_chains chains (config_file_groups local))
    | None => (MergeAppend, chains)
    end in
  omap_list (λ '(id, chain),
    let inputs := fold_left (λ inputs '(index, next), merge_vec inputs next strategy index false)
                    (imap pair chain) [] in
    let? group := FileGroup_new id in
    let? group := FileGroup_add_many group inputs (pb_source b) in
    Ok (id, group)) (merge_sort group_le (map_to_list chains)).

(** [build_tasks] *)
Definition build_tasks (b : ProjectBuilder) (dependencies : list ProjectDependencyConfig) :
  result (list (Id * Task)) :=
  let tasks_builder := TasksBuilder_new (pb_id b) dependencies (pb_source b) (pb_toolchains b)
    (pb_enabled_toolchains b) (pbc_monorepo (pb_context b)) in
  let tasks_builder :=
    match pb_global_configs b with
    | Some global_configs =>
        inherit_global_tasks tasks_builder (it_configs global_configs)
          ((λ cfg, pwc_inherited_tasks (config_workspace cfg)) <$> pb_local_config b)
    | None => tasks_builder
    end in
  let tasks_builder :=
    match pb_local_config b with
    | Some local_config => load_local_tasks tasks_builder local_config
    | None => tasks_builder
    end in
  TasksBuilder_build tasks_builder.

(** The body of the loops of [resolve_project_dependencies]. *)
Definition implicit_dep_step (project : Project) (root_project_id : option Id)
  (deps : list ProjectDependencyConfig) (task_dep : TaskDependencyConfig) :
  list ProjectDependencyConfig :=
  match create_project_dep_from_task_dep task_dep (p_id project) root_project_id
    (λ dep_project_id,
       bool_decide (dep_project_id ∈ map pdep_id deps) ||
       bool_decide (dep_project_id ∈ map pdep_id (p_dependencies project)) ||
       bool_decide (dep_project_id ∈ p_aliases project)) with
  | Some dep_config => deps ++ [dep_config]
  | None => deps
  end.

(** [resolve_project_dependencies] *)
Definition resolve_project_dependencies (project : Project) (root_project_id : option Id) : Project :=
  let deps := fold_left (implicit_dep_step project root_project_id)
                (flat_map (λ t, t_deps t.2) (p_tasks project)) [] in
  mkProject (p_aliases project) (p_config project) (p_dependencies project ++ deps)
    (p_file_groups project) (p_id project) (p_language project) (p_layer project) (p_root project) (p_source project) (p_stack project)
    (p_task_targets project) (p_tasks project) (p_toolchains project).

(** [build] *)
Definition ProjectBuilder_build (b : ProjectBuilder) : result Project :=
  let dependencies := build_dependencies b in
  let? tasks := build_tasks b dependencies in
  let? file_groups := build_file_groups b in
  let config := default ProjectConfig_default (pb_local_config b) in
  Ok (resolve_project_dependencies
        (mkProject (pb_aliases b) config dependencies file_groups (pb_id b) (pb_language b)
           (config_layer config) (pb_root b) (pb_source b) (config_stack config) (map (λ t, t_target t.2) tasks) tasks
           (merge_sort String.le (pb_toolchains b)))
        (pbc_root_project_id (pb_context b))).
End Builder.
