(* ===== verification/WorkspaceData.v ===== *)
(** * The data of the workspace builders ([crates/workspace])

What both workspace builders share: where projects are located, the build data
of projects and how it is loaded, renamed and extended by plugins, the type of
the repository, and the constraints on the finished graph. *)

From S2P Require Import Prelude Errors FileSystem Target GraphUtils Config Constraints Dag DiGraph NodeMaps.
From S2P Require Import ProjectGraph TaskDeps ProjectBuilder Shapes.

(** [NodeState] ([crates/graph-utils/src/lib.rs]) *)
Inductive NodeState (T : Type) : Type :=
| Loaded (node : T)
| Loading.
Arguments Loaded {T} _.
Arguments Loading {T}.

(** [RepoType] ([repo_type.rs]) *)
Inductive RepoType : Type := RepoUnknown | Monorepo | MonorepoWithRoot | Polyrepo.

Definition is_monorepo (r : RepoType) : bool :=
  match r with Monorepo | MonorepoWithRoot => true | _ => false end.

(** [WorkspaceProjects], [WorkspaceProjectGlobFormat]: the map of sources in the
    order it is iterated. *)
Inductive WorkspaceProjectGlobFormat : Type := DirName | SourcePath.

Inductive WorkspaceProjects : Type :=
| ProjectsBoth (glob_format : WorkspaceProjectGlobFormat) (globs : list string)
    (sources : list (Id * string))
| ProjectsGlobs (globs : list string)
| ProjectsSources (sources : list (Id * string)).

(** [ExtendProjectOutput], [ExtendProjectGraphOutput] ([crates/pdk-api]): what
    plugins return. *)
Record ExtendProjectOutput : Type := mkExtendProjectOutput {
  ext_alias : option string;
  ext_dependencies : list ProjectDependencyConfig;
  ext_tasks : list (Id * string);
}.

Record ExtendProjectGraphOutput : Type := mkExtendProjectGraphOutput {
  extended_projects : list (Id * ExtendProjectOutput);
  ext_input_files : list Path;
}.

(** [WorkspaceBuilderContext], with the settings of [WorkspaceConfig] the builders
    read *)
Record WorkspaceBuilderContext : Type := mkWorkspaceContext {
  ctx_enabled_toolchains : list Id;
  ctx_toolchains_config : ToolchainsConfig;
  ctx_working_dir : Path;
  ctx_workspace_root : Path;
  ctx_default_project : option Id;
  ctx_projects : WorkspaceProjects;
  ctx_enforce_layer_relationships : bool;
  ctx_tag_relationships : list (Id * list Id);
}.

(** The file system, the version control system, the configuration files and the
    plugins. *)
Class WorkspaceHost : Type := {
  id_clean : string → result Id;
  (** [glob::walk_fast_with_options], sorted; what is a file and what a directory *)
  walk_globs : list string → result (list Path);
  is_file : Path → bool;
  is_dir : Path → bool;
  is_ignored : Path → bool;
  project_file_names : list string;
  source_join : WorkspaceRelativePath → string → WorkspaceRelativePath;
  load_project_config_from_source : WorkspaceRelativePath → result ProjectConfig;
  (** the files of the configuration directory, relative to the workspace *)
  workspace_config_files : result (list WorkspaceRelativePath);
  (** [file.starts_with(root)] and [relative_to(root)] *)
  workspace_relative : Path → Path → option WorkspaceRelativePath;
  finalize_task_config : string → result TaskConfig;
  (** [extend_project_graph_all] of a registry, for the sources of the projects *)
  extend_with_extensions : gmap Id WorkspaceRelativePath →
    result (list (Id * ExtendProjectGraphOutput));
  extend_with_toolchains : gmap Id WorkspaceRelativePath →
    result (list (Id * ExtendProjectGraphOutput));
  extensions_configured : bool;
  toolchains_configured : bool;
  (** what [build] reads from the version control system *)
  read_vcs : result unit;
}.

(** [ProjectBuildData] ([projects_builder.rs]) *)
Record ProjectBuildData : Type := mkBuildData {
  bd_aliases : gmap string Id;
  bd_config : option ProjectConfig;
  bd_extensions : list ExtendProjectOutput;
  bd_id : option Id;
  bd_node_index : option nat;
  bd_source : WorkspaceRelativePath;
}.

Abbreviation ProjectBuildDataMap := (gmap Id ProjectBuildData).

Definition bd_set_index (d : ProjectBuildData) (index : nat) : ProjectBuildData :=
  mkBuildData (bd_aliases d) (bd_config d) (bd_extensions d) (bd_id d) (Some index) (bd_source d).

Definition bd_set_id (d : ProjectBuildData) (id : option Id) : ProjectBuildData :=
  mkBuildData (bd_aliases d) (bd_config d) (bd_extensions d) id (bd_node_index d) (bd_source d).

Definition bd_add_alias (d : ProjectBuildData) (alias plugin_id : Id) : ProjectBuildData :=
  mkBuildData (<[alias := plugin_id]> (bd_aliases d)) (bd_config d) (bd_extensions d) (bd_id d)
    (bd_node_index d) (bd_source d).

Definition bd_extend (d : ProjectBuildData) (e : ExtendProjectOutput) : ProjectBuildData :=
  mkBuildData (bd_aliases d) (bd_config d) (bd_extensions d ++ [e]) (bd_id d) (bd_node_index d)
    (bd_source d).

(** [rename_id_if_configured] *)
Definition rename_id_if_configured (d : ProjectBuildData) : option (Id * Id) :=
  match bd_id d, bd_config d with
  | Some old_id, Some config =>
      match config_id config with
      | Some new_id => if decide (new_id ≠ old_id) then Some (old_id, new_id) else None
      | None => None
      end
  | _, _ => None
  end.

(** [ProjectBuildData::resolve_id] *)
Definition resolve_build_id (id_or_alias : string) (project_data : ProjectBuildDataMap) : Id :=
  if decide (is_Some (project_data !! id_or_alias)) then id_or_alias
  else
    match List.find (λ d, bool_decide (is_Some (bd_aliases d.2 !! id_or_alias)))
            (map_to_list project_data) with
    | Some (project_id, _) => project_id
    | None => id_or_alias
    end.

(** ** Locating projects ([projects_locator.rs]) *)

(** The path a project is configured at, without leading [./]. *)
Definition project_source_of (s : string) : WorkspaceRelativePath :=
  trim_start_str "./" s.

(** [path.file_name()] of a path that has a last component, [path.parent()] *)
Definition file_name (path : Path) : option string := last path.

Definition parent (path : Path) : Path := removelast path.

(** [is_hidden] *)
Definition is_hidden (path : Path) : bool :=
  match file_name path with Some name => starts_with "." name | None => false end.

Section Data.
Context `{ProjectHost, WorkspaceHost, IdSyntax}.

(** [infer_project_id_and_source] *)
Definition infer_project_id_and_source (path : Path) (format : WorkspaceProjectGlobFormat) :
  result (Id * WorkspaceRelativePath) :=
  let source := str_join "/" path in
  let name := match format with
              | DirName => default source (last path)
              | SourcePath => source
              end in
  let? id := id_clean name in
  Ok (id, project_source_of source).

(** The body of the loop over the potential projects. *)
Definition locate_step (ctx : WorkspaceBuilderContext) (format : WorkspaceProjectGlobFormat)
  (s : bool * list (Id * WorkspaceRelativePath)) (found : Path) :
  result (bool * list (Id * WorkspaceRelativePath)) :=
  let '(add_root_level, sources) := s in
  let root := ctx_workspace_root ctx in
  let locate := λ project_root,
    if is_hidden project_root then Ok s
    else
      let? path := ok_or (path_strip_prefix root project_root)
        (Foreign "called `Result::unwrap()` on an `Err` value") in
      let project_source := str_join "/" path in
      if bool_decide (project_source = ""%string) || starts_with ".moon" project_source ||
         starts_with ".config/moon" project_source then Ok s
      else if is_ignored project_root then Ok s
      else
        let? source := infer_project_id_and_source path format in
        Ok (add_root_level, sources ++ [source]) in
  if is_file found then
    let is_config_file := existsb (λ name, bool_decide (last found = Some name)) project_file_names in
    if decide (parent found = root) then Ok (add_root_level || is_config_file, sources)
    else locate (parent found)
  else if is_dir found && bool_decide (found = root) then Ok (true, sources)
  else locate found.

(** [locate_projects_with_globs] *)
Definition locate_projects_with_globs (ctx : WorkspaceBuilderContext) (globs : list string)
  (sources : list (Id * WorkspaceRelativePath)) (format : WorkspaceProjectGlobFormat) :
  result (list (Id * WorkspaceRelativePath)) :=
  let has_root_level := existsb (λ s, is_root_level_source s.2) sources in
  let add_root_level := bool_decide ("."%string ∈ globs) in
  let locate_globs := filter (λ glob, glob ≠ "."%string) globs in
  let? potential_projects := walk_globs locate_globs in
  let? ' (add_root_level, sources) :=
    ofold (locate_step ctx format) (add_root_level, sources) potential_projects in
  if add_root_level && negb has_root_level then
    let? id := id_clean (default ""%string (file_name (ctx_workspace_root ctx))) in
    Ok (sources ++ [(id, "."%string)])
  else Ok sources.

(** The sources of [preload_build_data] and of [WorkspaceProjectsBuilder::load]. *)
Definition configured_sources (sources : list (Id * string)) : list (Id * WorkspaceRelativePath) :=
  map (λ s, (s.1, project_source_of s.2)) sources.

Definition gather_sources (ctx : WorkspaceBuilderContext) : result (list (Id * WorkspaceRelativePath)) :=
  let '(glob_format, globs, sources) :=
    match ctx_projects ctx with
    | ProjectsSources map => (DirName, [], configured_sources map)
    | ProjectsGlobs list => (DirName, list, [])
    | ProjectsBoth format globs map => (format, globs, configured_sources map)
    end in
  if decide (globs = []) then Ok sources
  else locate_projects_with_globs ctx globs sources glob_format.

(** ** Build data *)

(** The loaded projects, the renamed identifiers, and those renamed twice. *)
Definition load_state : Type := ProjectBuildDataMap * gmap Id Id * gset Id.

(** [track_id_rename], and the same lines of [load_project_build_data] *)
Definition track_id_rename (renamed_ids : gmap Id Id) (duplicate_ids : gset Id) (old_id new_id : Id) :
  gmap Id Id * gset Id :=
  match renamed_ids !! old_id with
  | Some _ => (renamed_ids, {[old_id]} ∪ duplicate_ids)
  | None => (<[old_id := new_id]> renamed_ids, duplicate_ids)
  end.

(** What both builders do with a project whose configuration was loaded: rename
    it, check for duplicates, and keep it. *)
Definition load_step (s : load_state) (project : Id * WorkspaceRelativePath) : result load_state :=
  let '(data, renamed, dupes) := s in
  let '(id, source) := project in
  let? config := load_project_config_from_source source in
  let build_data := mkBuildData ∅ (Some config) [] (Some id) None source in
  let '(renamed, dupes, id) :=
    match rename_id_if_configured build_data with
    | Some (old_id, new_id) => (track_id_rename renamed dupes old_id new_id, new_id)
    | None => (renamed, dupes, id)
    end in
  let insert := Ok (<[id := bd_set_id build_data None]> data, renamed, dupes) in
  match data !! id with
  | Some existing_data =>
      if decide (bd_source existing_data = source) then insert
      else Err (RWorkspaceBuilder (DuplicateProjectId id (bd_source existing_data) source))
  | None => insert
  end.

(** The loop of [load_project_build_data] and of [load_build_data], and the
    identifiers that stand for more than one project; the projects in the order
    in which their configuration arrives. *)
Definition load_build_data (renamed : gmap Id Id) (sources : list (Id * WorkspaceRelativePath)) :
  result (ProjectBuildDataMap * gmap Id Id) :=
  let? ' (data, renamed, dupes) := ofold load_step (∅, renamed, ∅) sources in
  Ok (data, filter (λ r, r.1 ∉ dupes) renamed).

(** [default_project] has to exist. *)
Definition check_default_project (ctx : WorkspaceBuilderContext) (data : ProjectBuildDataMap) :
  result unit :=
  match ctx_default_project ctx with
  | Some default_id =>
      if decide (is_Some (data !! default_id)) then Ok tt
      else Err (RProjectGraph (InvalidDefaultId default_id))
  | None => Ok tt
  end.

(** ** Plugins *)

(** [track_alias] *)
Definition track_alias (aliases : gmap string Id) (data : ProjectBuildDataMap) (id : Id)
  (alias : string) (plugin_id : Id) : result (gmap string Id * ProjectBuildDataMap) :=
  if negb (id_new alias) then Ok (aliases, data)
  else if bool_decide (alias ≠ id) && bool_decide (is_Some (data !! alias)) then Ok (aliases, data)
  else
    match aliases !! alias with
    | Some _ => Ok (aliases, data)
    | None =>
        let? build_data := ok_or (data !! id) (Foreign "Project build data not found!") in
        Ok (if decide (alias ≠ id) then <[alias := id]> aliases else aliases,
            <[id := bd_add_alias build_data alias plugin_id]> data)
    end.

(** The body of the loop over the projects a plugin extends. *)
Definition extend_step (inherit_aliases : bool) (plugin_id : Id)
  (s : gmap string Id * ProjectBuildDataMap) (extended : Id * ExtendProjectOutput) :
  result (gmap string Id * ProjectBuildDataMap) :=
  let '(aliases, data) := s in
  let '(project_id, project_extend) := extended in
  if decide (data !! project_id = None) then Err (RProjectGraph (UnconfiguredID project_id))
  else
    let? ' (aliases, data, project_extend) :=
      match inherit_aliases, ext_alias project_extend with
      | true, Some alias =>
          let? s := track_alias aliases data project_id alias plugin_id in
          Ok (s, mkExtendProjectOutput None (ext_dependencies project_extend) (ext_tasks project_extend))
      | _, _ => Ok (aliases, data, project_extend)
      end in
    match data !! project_id with
    | Some build_data => Ok (aliases, <[project_id := bd_extend build_data project_extend]> data)
    | None => Ok (aliases, data)
    end.

(** [map_plugin_input_paths] ([workspace_cache.rs]) *)
Definition map_plugin_input_paths (root : Path) (input_files : list Path)
  (paths : gset WorkspaceRelativePath) : gset WorkspaceRelativePath :=
  fold_left (λ paths file,
    match workspace_relative root file with Some rel_file => {[rel_file]} ∪ paths | None => paths end)
    input_files paths.

(** [apply_extend_output], and the body of the loop of [extend_build_data] *)
Definition apply_extend_output (ctx : WorkspaceBuilderContext)
  (s : gset WorkspaceRelativePath * gmap string Id * ProjectBuildDataMap) (plugin_id : Id)
  (output : ExtendProjectGraphOutput) (is_toolchain : bool) :
  result (gset WorkspaceRelativePath * gmap string Id * ProjectBuildDataMap) :=
  let '(paths, aliases, data) := s in
  let paths := map_plugin_input_paths (ctx_workspace_root ctx) (ext_input_files output) paths in
  let inherit_aliases :=
    if is_toolchain then
      match ToolchainsConfig_get_plugin_config (ctx_toolchains_config ctx) plugin_id with
      | Some cfg => tc_inherit_aliases cfg
      | None => true
      end
    else true in
  let? ' (aliases, data) :=
    ofold (extend_step inherit_aliases plugin_id) (aliases, data) (extended_projects output) in
  Ok (paths, aliases, data).

(** [map_project_sources] *)
Definition map_project_sources (data : ProjectBuildDataMap) : gmap Id WorkspaceRelativePath :=
  bd_source <$> data.

(** [determine_repo_type]: the type, and the root project of a monorepo *)
Definition determine_repo_type (data : ProjectBuildDataMap) (root_id : option Id) :
  RepoType * option Id :=
  let single_project := bool_decide (size data = 1) in
  let root := List.find (λ d, is_root_level_source (bd_source d.2)) (map_to_list data) in
  match single_project, root with
  | true, Some _ => (Polyrepo, root_id)
  | false, Some (id, _) => (MonorepoWithRoot, Some id)
  | _, None => (Monorepo, root_id)
  end.

(** ** Building a project *)

(** The loops over the extensions of a project. *)
Definition extend_builder (resolve : Id → Id) (builder : ProjectBuilder) (e : ExtendProjectOutput) :
  result ProjectBuilder :=
  let? builder := ofold (λ b dep_config,
    extend_with_dependency b (mkProjectDep (resolve (pdep_id dep_config)) (pdep_scope dep_config)))
    builder (ext_dependencies e) in
  ofold (λ b task, let? config := finalize_task_config task.2 in extend_with_task b task.1 config)
    builder (ext_tasks e).

(** [build_project]: one builder resolves the identifiers of the dependencies that
    plugins add ([WorkspaceBuilder]), the other one does not. *)
Definition build_project_with (resolve : Id → Id) (ctx : WorkspaceBuilderContext)
  (build_data : ProjectBuildData) (id : Id) (root_id : option Id) (monorepo : bool) : result Project :=
  if negb (source_exists (bd_source build_data))
  then Err (RWorkspaceBuilder (MissingProjectAtSource (bd_source build_data)))
  else
    let builder := ProjectBuilder_new id (bd_source build_data)
      (mkProjectBuilderContext (ctx_enabled_toolchains ctx) monorepo root_id) in
    let? builder := match bd_config build_data with
                    | Some config => inherit_local_config builder config
                    | None => load_local_config builder
                    end in
    let? builder := inherit_global_configs builder in
    let? builder := ofold (extend_builder resolve) builder (bd_extensions build_data) in
    ProjectBuilder_build (set_aliases builder (map_to_list (bd_aliases build_data)).*1).

(** [build_project] ([projects_builder.rs]) *)
Definition build_project (ctx : WorkspaceBuilderContext) (build_data : ProjectBuildData) (id : Id)
  (root_id : option Id) (monorepo : bool) : result Project :=
  build_project_with (λ id, id) ctx build_data id root_id monorepo.
End Data.

(** ** Constraints *)

Section Constraints.
Context {G : DiGraphOps (NodeState Project) DependencyScope}.

(** The dependencies of a project that are loaded, with a scope. *)
Definition constrained_deps (graph : DiGraph) (project_index : nat) :
  list (Project * DependencyScope) :=
  omap (λ dep_index,
    match dg_node_weight graph dep_index with
    | Some (Loaded dep) => Some (dep, default SBuild (dg_edge_weight graph project_index dep_index))
    | _ => None
    end) (dg_neighbors graph project_index Outgoing).

Definition enforce_dep (ctx : WorkspaceBuilderContext) (project : Project)
  (dep : Project * DependencyScope) : result unit :=
  let? _ := if ctx_enforce_layer_relationships ctx
            then map_err RProjectConstraints (enforce_layer_relationships project dep.1 dep.2)
            else Ok tt in
  ofold (λ _ '(source_tag, required_tags),
    map_err RProjectConstraints (enforce_tag_relationships project source_tag dep.1 required_tags))
    tt (ctx_tag_relationships ctx).

(** [enforce_constraints] *)
Definition enforce_constraints (ctx : WorkspaceBuilderContext) (graph : DiGraph) : result unit :=
  if negb (ctx_enforce_layer_relationships ctx) && bool_decide (ctx_tag_relationships ctx = [])
  then Ok tt
  else
    ofold (λ _ project_index,
      match dg_node_weight graph project_index with
      | Some (Loaded project) =>
          ofold (λ _ dep, enforce_dep ctx project dep) tt (constrained_deps graph project_index)
      | _ => Ok tt
      end) tt (seq 0 (dg_node_count graph)).
End Constraints.
