(* ===== verification/WorkspaceDataFacts.v ===== *)
(** * Properties of the build data

Aliases never hide a project, a project is built under its own identifier, and
the order in which configurations arrive does not matter. *)

From S2P Require Import Prelude Errors FileSystem Target GraphUtils Config Constraints Dag DiGraph NodeMaps.
From S2P Require Import ProjectGraph TaskDeps TaskDepsFacts TasksBuilder TasksBuilderFacts ProjectBuilder WorkspaceData Shapes.

(** ** Loops whose order does not matter *)

Section Permute.
Context {E S A : Type} (f : S → A → outcome E S) (R : S → S → Prop).
Context `{!Equivalence R}.
Context (f_proper : ∀ s t x s', R s t → f s x = Ok s' → ∃ t', f t x = Ok t' ∧ R s' t').
Context (f_commute : ∀ s x y s1 s2, f s x = Ok s1 → f s1 y = Ok s2 →
  ∃ t1 t2, f s y = Ok t1 ∧ f t1 x = Ok t2 ∧ R s2 t2).

Lemma ofold_equiv l s t s' :
  R s t → ofold f s l = Ok s' → ∃ t', ofold f t l = Ok t' ∧ R s' t'.
Proof.
  revert s t. induction l as [|x l IH]; intros s t HR Hs; cbn in *; [simplify_eq; eauto|].
  destruct (f s x) as [s1| |] eqn:H1; [|done..]. destruct (f_proper _ _ _ _ HR H1) as (t1 & -> & HR1).
  by eapply IH.
Qed.

Lemma ofold_permute l l' s s' :
  l ≡ₚ l' → ofold f s l = Ok s' → ∃ t', ofold f s l' = Ok t' ∧ R s' t'.
Proof.
  intros Hp. revert s s'. induction Hp as [|x l l' Hp IH|x y l|l1 l2 l3 _ IH1 _ IH2]; intros s s' Hs.
  - exists s'. split; [done|reflexivity].
  - cbn in *. destruct (f s x) as [s1| |]; [|done..]. by apply IH.
  - cbn in *. destruct (f s y) as [s1| |] eqn:H1; [|done..]. cbn in Hs.
    destruct (f s1 x) as [s2| |] eqn:H2; [|done..].
    destruct (f_commute _ _ _ _ _ H1 H2) as (t1 & t2 & -> & H3 & HR). cbn. rewrite H3. cbn.
    by eapply ofold_equiv.
  - destruct (IH1 _ _ Hs) as (t & Ht & HR1). destruct (IH2 _ _ Ht) as (u & Hu & HR2).
    exists u. split; [done|by etrans].
Qed.
End Permute.

Section Data.
Context `{HP : ProjectHost, HW : WorkspaceHost, HI : IdSyntax}.

(** ** Aliases *)

(** An alias stands for a project, and is not one itself. *)
Definition alias_ok (aliases : gmap string Id) (data : ProjectBuildDataMap) : Prop :=
  ∀ a id, aliases !! a = Some id → data !! a = None ∧ is_Some (data !! id).

Lemma alias_ok_dom aliases data data' :
  dom data' = dom data → alias_ok aliases data → alias_ok aliases data'.
Proof.
  intros Hd Hok a id Ha. destruct (Hok a id Ha) as [H1 H2].
  rewrite <- not_elem_of_dom, Hd, not_elem_of_dom. rewrite <- elem_of_dom, Hd, elem_of_dom. done.
Qed.

Lemma track_alias_ok aliases data id alias plugin aliases' data' :
  alias_ok aliases data → track_alias aliases data id alias plugin = Ok (aliases', data') →
  alias_ok aliases' data' ∧ dom data' = dom data.
Proof.
  intros Hok. unfold track_alias. destruct (id_new alias); [cbn|by intros [= <- <-]].
  destruct (bool_decide (alias ≠ id) && _) eqn:Hc; [by intros [= <- <-]|].
  destruct (aliases !! alias) eqn:Ha; [by intros [= <- <-]|].
  destruct (data !! id) as [d|] eqn:Hd; [|done]. cbn. intros [= <- <-].
  assert (dom (<[id := bd_add_alias d alias plugin]> data) = dom data) as Hdom by
    (apply dom_insert_lookup_L; eauto).
  split; [|done]. eapply alias_ok_dom; [exact Hdom|].
  destruct (decide (alias ≠ id)) as [Hne|]; [|done]. intros a i.
  rewrite lookup_insert_Some. intros [[<- <-]|[_ ?]]; [|by apply Hok].
  rewrite bool_decide_true in Hc by done. cbn in Hc. apply bool_decide_eq_false in Hc.
  split; [by apply eq_None_not_Some|eauto].
Qed.

Lemma extend_step_ok inherit plugin aliases data e aliases' data' :
  alias_ok aliases data → extend_step inherit plugin (aliases, data) e = Ok (aliases', data') →
  alias_ok aliases' data' ∧ dom data' = dom data.
Proof.
  intros Hok. unfold extend_step. destruct e as [pid ext].
  destruct (decide (data !! pid = None)); [done|].
  assert (∀ al da ex, alias_ok al da → dom da = dom data →
    match da !! pid with
    | Some build_data => Ok (al, <[pid := bd_extend build_data ex]> da)
    | None => Ok (al, da)
    end = (Ok (aliases', data') : result _) → alias_ok aliases' data' ∧ dom data' = dom data) as Hfin.
  { intros al da ex Hal Hdom. destruct (da !! pid) as [d|] eqn:Hd; intros [= <- <-]; [|done].
    assert (dom (<[pid := bd_extend d ex]> da) = dom da) as Hdd by (apply dom_insert_lookup_L; eauto).
    split; [by eapply alias_ok_dom|by rewrite Hdd]. }
  destruct inherit; [destruct (ext_alias ext) as [alias|]|]; cbn [obind]; [|by apply Hfin..].
  destruct (track_alias aliases data pid alias plugin) as [[al da]| |] eqn:Ht; [|done..]. cbn [obind].
  destruct (track_alias_ok _ _ _ _ _ _ _ Hok Ht) as [Hal Hdom]. by apply Hfin.
Qed.

Lemma apply_extend_ok ctx paths aliases data plugin output tc paths' aliases' data' :
  alias_ok aliases data →
  apply_extend_output ctx (paths, aliases, data) plugin output tc = Ok (paths', aliases', data') →
  alias_ok aliases' data' ∧ dom data' = dom data.
Proof.
  intros Hok. unfold apply_extend_output. destruct (ofold _ _ _) as [[al da]| |] eqn:Hf; [|done..].
  cbn [obind]. intros [= _ <- <-].
  apply (ofold_ind (λ s, alias_ok s.1 s.2 ∧ dom s.2 = dom data)) in Hf; [done| |done].
  intros [al1 da1] e [al2 da2] _ [H1 H2] Hs. apply extend_step_ok in Hs as [? Hd]; [|done].
  split; [done|]. cbn in *. by rewrite Hd.
Qed.

(** The names the build data records are the aliases. *)
Definition alias_exact (aliases : gmap string Id) (data : ProjectBuildDataMap) : Prop :=
  ∀ a id, a ≠ id → aliases !! a = Some id ↔ ∃ d, data !! id = Some d ∧ is_Some (bd_aliases d !! a).

(** An update that keeps the names of a project. *)
Lemma alias_exact_update aliases data id d d' :
  data !! id = Some d → bd_aliases d' = bd_aliases d →
  alias_exact aliases data → alias_exact aliases (<[id := d']> data).
Proof.
  intros Hd Heq Hex a i Hne. rewrite (Hex a i Hne). split.
  - intros (x & Hx & Ha). destruct (decide (i = id)) as [->|Hi].
    + exists d'. rewrite lookup_insert_eq. split; [done|]. rewrite Heq. by simplify_eq.
    + exists x. by rewrite lookup_insert_ne.
  - intros (x & Hx & Ha). apply lookup_insert_Some in Hx as [[<- <-]|[Hi Hx]]; [|eauto].
    exists d. split; [done|]. by rewrite <- Heq.
Qed.

Lemma track_alias_exact aliases data id alias plugin aliases' data' :
  alias_exact aliases data → track_alias aliases data id alias plugin = Ok (aliases', data') →
  alias_exact aliases' data'.
Proof.
  intros Hex. unfold track_alias. destruct (id_new alias); [cbn|by intros [= <- <-]].
  destruct (bool_decide (alias ≠ id) && _) eqn:Hc; [by intros [= <- <-]|].
  destruct (aliases !! alias) eqn:Hal; [by intros [= <- <-]|].
  destruct (data !! id) as [d|] eqn:Hd; [|done]. cbn. intros [= <- <-] a i Hne.
  assert (∀ x, data !! i = Some x → is_Some (bd_aliases x !! a) → aliases !! a = Some i) as Hold
    by (intros x Hx Hs; apply Hex; eauto).
  assert ((if decide (alias ≠ id) then <[alias := id]> aliases else aliases) !! a = Some i ↔
    aliases !! a = Some i ∨ (a = alias ∧ i = id)) as ->.
  { destruct (decide (alias ≠ id)) as [Hn|Hn%dec_stable].
    - rewrite lookup_insert_Some. split; [naive_solver|]. intros [Ha|[-> ->]]; [|by left].
      right. split; [congruence|done].
    - subst. naive_solver. }
  rewrite (Hex a i Hne). split.
  - intros [(x & Hx & Hs)|[-> ->]].
    + destruct (decide (i = id)) as [->|Hi].
      * simplify_eq. exists (bd_add_alias d alias plugin). rewrite lookup_insert_eq. split; [done|]. cbn.
        apply lookup_insert_is_Some. destruct (decide (alias = a)); [by left|by right].
      * exists x. by rewrite lookup_insert_ne.
    + eexists. rewrite lookup_insert_eq. split; [done|]. cbn. rewrite lookup_insert_eq. by eexists.
  - intros (x & Hx & Hs). apply lookup_insert_Some in Hx as [[<- <-]|[Hi Hx]]; [|left; eauto].
    cbn in Hs. apply lookup_insert_is_Some in Hs as [->|[_ Hs]]; [by right|left; eauto].
Qed.

Lemma extend_step_exact inherit plugin aliases data e aliases' data' :
  alias_exact aliases data → extend_step inherit plugin (aliases, data) e = Ok (aliases', data') →
  alias_exact aliases' data'.
Proof.
  intros Hex. unfold extend_step. destruct e as [pid ext]. destruct (decide (data !! pid = None)); [done|].
  assert (∀ al da ex, alias_exact al da →
    match da !! pid with
    | Some build_data => Ok (al, <[pid := bd_extend build_data ex]> da)
    | None => Ok (al, da)
    end = (Ok (aliases', data') : result _) → alias_exact aliases' data') as Hfin.
  { intros al da ex Hal. destruct (da !! pid) as [d|] eqn:Hd; intros [= <- <-]; [|done].
    by eapply alias_exact_update. }
  destruct inherit; [destruct (ext_alias ext) as [alias|]|]; cbn [obind]; [|by apply Hfin..].
  destruct (track_alias aliases data pid alias plugin) as [[al da]| |] eqn:Ht; [|done..]. cbn [obind].
  apply Hfin. by eapply track_alias_exact.
Qed.

Lemma apply_extend_exact ctx paths aliases data plugin output tc paths' aliases' data' :
  alias_exact aliases data →
  apply_extend_output ctx (paths, aliases, data) plugin output tc = Ok (paths', aliases', data') →
  alias_exact aliases' data'.
Proof.
  intros Hex. unfold apply_extend_output. destruct (ofold _ _ _) as [[al da]| |] eqn:Hf; [|done..].
  cbn [obind]. intros [= _ <- <-].
  apply (ofold_ind (λ s, alias_exact s.1 s.2)) in Hf; [done| |done].
  intros [al1 da1] e [al2 da2] _ H1 Hs. by eapply extend_step_exact.
Qed.

(** Looking up an alias in the build data is looking it up in the aliases. *)
Lemma resolve_build_id_spec aliases data k :
  alias_ok aliases data → alias_exact aliases data →
  resolve_build_id k data = default k (aliases !! k).
Proof.
  intros Hok Hex. unfold resolve_build_id. destruct (decide (is_Some (data !! k))) as [Hk|Hk].
  { destruct (aliases !! k) as [i|] eqn:Ha; [|done]. apply Hok in Ha as [Hn _]. rewrite Hn in Hk.
    by destruct Hk. }
  destruct (List.find _ _) as [[i d]|] eqn:Hf.
  - apply find_some in Hf as [Hin Ha%bool_decide_eq_true]. apply list_elem_of_In, elem_of_map_to_list in Hin.
    cbn in Ha. assert (k ≠ i) as Hne by (intros ->; apply Hk; eauto).
    rewrite (proj2 (Hex k i Hne)); [done|eauto].
  - destruct (aliases !! k) as [i|] eqn:Ha; [|done].
    assert (k ≠ i) as Hne by (intros ->; apply Hk, (Hok _ _ Ha)).
    apply (Hex k i Hne) in Ha as (d & Hd & Hs).
    eapply find_none in Hf; [|apply list_elem_of_In, elem_of_map_to_list; exact Hd].
    cbn in Hf. by rewrite bool_decide_true in Hf.
Qed.

(** ** Projects are built under their own identifier *)

Lemma build_project_builder resolve ctx data id root mono p :
  build_project_with resolve ctx data id root mono = Ok p →
  ∃ b, pb_id b = id ∧ ProjectBuilder_build b = Ok p.
Proof.
  unfold build_project_with. destruct (negb _); [done|]. intros Hb.
  set (b0 := ProjectBuilder_new id _ _) in Hb.
  assert (∀ b c b', pb_id b = id → inherit_local_config b c = Ok b' → pb_id b' = id) as Hl.
  { intros b c b' Hid Hs. unfold inherit_local_config in Hs. by step_ok. }
  assert (∀ b b', pb_id b = id → inherit_global_configs b = Ok b' → pb_id b' = id) as Hg.
  { intros b b' Hid Hs. unfold inherit_global_configs in Hs. by step_ok. }
  assert (∀ b e b', pb_id b = id → extend_builder resolve b e = Ok b' → pb_id b' = id) as He.
  { intros b e b' Hid Hs. unfold extend_builder in Hs. step_ok.
    eapply (ofold_ind (λ b, pb_id b = id)) in Hs; [done| |].
    - intros t x t' _ Ht Hx. cbn in Hx. unfold extend_with_task in Hx. by step_ok.
    - eapply (ofold_ind (λ b, pb_id b = id)) in E; [done| |done].
      intros t x t' _ Ht Hx. unfold extend_with_dependency in Hx. by step_ok. }
  destruct (match bd_config data with Some c => inherit_local_config b0 c | None => load_local_config b0 end)
    as [b1| |] eqn:H1; [|done..]. cbn [obind] in Hb.
  assert (pb_id b1 = id) as Hid1.
  { destruct (bd_config data) as [c|]; [by apply (Hl b0 c)|]. unfold load_local_config in H1. step_ok.
    by eapply (Hl b0). }
  destruct (inherit_global_configs b1) as [b2| |] eqn:H2; [|done..]. cbn [obind] in Hb.
  destruct (ofold _ b2 _) as [b3| |] eqn:H3; [|done..]. cbn [obind] in Hb.
  eexists. split; [|exact Hb]. change (pb_id b3 = id).
  eapply (ofold_ind (λ b, pb_id b = id)); [|by eapply Hg|exact H3].
  intros t e t' _ Ht Hx. by eapply He.
Qed.

Lemma build_project_id resolve ctx data id root mono p :
  build_project_with resolve ctx data id root mono = Ok p → p_id p = id.
Proof.
  intros (b & Hid & Hb)%build_project_builder. unfold ProjectBuilder_build in Hb. by step_ok.
Qed.

(** The tasks of a project are its own, one for every identifier. *)
Lemma build_project_tasks resolve ctx data id root mono p :
  build_project_with resolve ctx data id root mono = Ok p →
  NoDup (p_tasks p).*1 ∧ ∀ k t, (k, t) ∈ p_tasks p → Target_new id k = Ok (t_target t).
Proof.
  intros (b & Hid & Hb)%build_project_builder. unfold ProjectBuilder_build in Hb. step_ok. cbn.
  rename E into Ht. unfold build_tasks in Ht.
  match type of Ht with TasksBuilder_build ?tb = _ => assert (tb_project_id tb = id) as Htb end.
  { by destruct (pb_local_config b), (pb_global_configs b); cbn [load_local_tasks tb_project_id];
      rewrite ?inherit_global_tasks_project. }
  apply TasksBuilder_build_tasks in Ht as (_ & Hnd & _ & Hown). split; [done|].
  intros k t Hkt. rewrite <-Htb. by apply Hown.
Qed.

(** ** The order in which configurations arrive *)

(** The renamed identifiers that stand for one project. *)
Definition unique_renames (renamed : gmap Id Id) (dupes : gset Id) : gmap Id Id :=
  filter (λ r, r.1 ∉ dupes) renamed.

(** States that lead to the same result. *)
Definition same_loads (s t : load_state) : Prop :=
  s.1.1 = t.1.1 ∧ s.2 = t.2 ∧ dom s.1.2 = dom t.1.2 ∧
  unique_renames s.1.2 s.2 = unique_renames t.1.2 t.2.

#[local] Instance same_loads_equiv : Equivalence same_loads.
Proof.
  split; [by intros s| |].
  - intros s t (? & ? & ? & ?). by split_and!.
  - intros s t u (? & ? & ? & ?) (? & ? & ? & ?). split_and!; congruence.
Qed.

(** The two parts of a step: where a project goes, and what it was renamed from. *)
Definition load_target (id : Id) (config : ProjectConfig) : Id :=
  default id (config_id config).

Definition rename_step (id : Id) (config : ProjectConfig) (rd : gmap Id Id * gset Id) :
  gmap Id Id * gset Id :=
  if decide (load_target id config = id) then rd
  else track_id_rename rd.1 rd.2 id (load_target id config).

Lemma load_step_eq data renamed dupes id source :
  load_step (data, renamed, dupes) (id, source) =
  (let? config := load_project_config_from_source source in
   let target := load_target id config in
   match data !! target with
   | Some existing =>
       if decide (bd_source existing = source)
       then Ok (<[target := mkBuildData ∅ (Some config) [] None None source]> data,
                (rename_step id config (renamed, dupes)).1, (rename_step id config (renamed, dupes)).2)
       else Err (RWorkspaceBuilder (DuplicateProjectId target (bd_source existing) source))
   | None => Ok (<[target := mkBuildData ∅ (Some config) [] None None source]> data,
                (rename_step id config (renamed, dupes)).1, (rename_step id config (renamed, dupes)).2)
   end).
Proof.
  unfold load_step. destruct (load_project_config_from_source source) as [config| |]; [|done..]. cbn.
  unfold rename_id_if_configured, rename_step, load_target. cbn.
  destruct (config_id config) as [new|]; cbn; [|by rewrite decide_True].
  destruct (decide (new = id)) as [->|Hne]; [by rewrite decide_False by tauto|].
  rewrite decide_True by done. by destruct (track_id_rename renamed dupes id new).
Qed.

(** The same, as a relation: all projects under an identifier have one source. *)
Lemma load_step_Ok data renamed dupes id source s' :
  load_step (data, renamed, dupes) (id, source) = Ok s' ↔
  ∃ config, load_project_config_from_source source = Ok config ∧
    (∀ d, data !! load_target id config = Some d → bd_source d = source) ∧
    s' = (<[load_target id config := mkBuildData ∅ (Some config) [] None None source]> data,
          (rename_step id config (renamed, dupes)).1, (rename_step id config (renamed, dupes)).2).
Proof.
  rewrite load_step_eq. destruct (load_project_config_from_source source) as [config| |]; cbn;
    [|naive_solver..].
  destruct (data !! load_target id config) as [d|] eqn:Hd; [destruct (decide (bd_source d = source))|];
    naive_solver.
Qed.

Lemma track_same r1 r2 d old new1 new2 :
  dom r1 = dom r2 → unique_renames r1 d = unique_renames r2 d → new1 = new2 →
  let t1 := track_id_rename r1 d old new1 in
  let t2 := track_id_rename r2 d old new2 in
  dom t1.1 = dom t2.1 ∧ t1.2 = t2.2 ∧ unique_renames t1.1 t1.2 = unique_renames t2.1 t2.2.
Proof.
  intros Hdom Huni ->. cbn. unfold track_id_rename.
  assert (is_Some (r1 !! old) ↔ is_Some (r2 !! old)) as Hio by
    (by rewrite <- !elem_of_dom, Hdom).
  destruct (r1 !! old) as [x|] eqn:H1, (r2 !! old) as [y|] eqn:H2; cbn.
  - split_and!; [done..|]. apply map_eq. intros k. apply (f_equal (.!! k)) in Huni.
    unfold unique_renames in *. apply option_eq. intros v.
    rewrite !map_lookup_filter_Some in *. cbn.
    apply (f_equal (λ o, o = Some v)) in Huni.
    assert ((filter (λ r, r.1 ∉ d) r1 !! k = Some v) ↔ (filter (λ r, r.1 ∉ d) r2 !! k = Some v)) as Hk
      by by rewrite Huni.
    rewrite !map_lookup_filter_Some in Hk. cbn in Hk. set_solver.
  - destruct (proj1 Hio ltac:(eauto)). congruence.
  - destruct (proj2 Hio ltac:(eauto)). congruence.
  - split; [by rewrite !dom_insert_L, Hdom|]. split; [done|]. unfold unique_renames in *.
    destruct (decide (old ∈ d)) as [Hd|Hd].
    + rewrite !map_filter_insert_False by (cbn; tauto).
      rewrite !delete_id by done. done.
    + rewrite !map_filter_insert_True by done. by rewrite Huni.
Qed.

Lemma rename_proper id config rd1 rd2 :
  dom rd1.1 = dom rd2.1 → rd1.2 = rd2.2 → unique_renames rd1.1 rd1.2 = unique_renames rd2.1 rd2.2 →
  let t1 := rename_step id config rd1 in
  let t2 := rename_step id config rd2 in
  dom t1.1 = dom t2.1 ∧ t1.2 = t2.2 ∧ unique_renames t1.1 t1.2 = unique_renames t2.1 t2.2.
Proof.
  destruct rd1 as [r1 d], rd2 as [r2 d2]. cbn. intros Hdom <- Huni. unfold rename_step.
  destruct (decide _); [done|]. by apply track_same.
Qed.

(** Renaming two projects, in either order. *)
Lemma track_commute r d i j x y :
  let t1 := track_id_rename (track_id_rename r d i x).1 (track_id_rename r d i x).2 j y in
  let t2 := track_id_rename (track_id_rename r d j y).1 (track_id_rename r d j y).2 i x in
  dom t1.1 = dom t2.1 ∧ t1.2 = t2.2 ∧ unique_renames t1.1 t1.2 = unique_renames t2.1 t2.2.
Proof.
  unfold track_id_rename. destruct (decide (i = j)) as [<-|Hne].
  - destruct (r !! i) as [v|] eqn:Hv; cbn; rewrite ?Hv, ?lookup_insert_eq; cbn; [done|].
    split; [by rewrite !dom_insert_L|]. split; [done|]. unfold unique_renames.
    rewrite !map_filter_insert_False by set_solver. done.
  - destruct (r !! i) as [v|] eqn:Hv, (r !! j) as [w|] eqn:Hw; cbn;
      rewrite ?lookup_insert_ne, ?Hv, ?Hw by done; cbn.
    + assert ({[j]} ∪ ({[i]} ∪ d) = {[i]} ∪ ({[j]} ∪ d)) as -> by set_solver. done.
    + done.
    + done.
    + by rewrite insert_insert_ne.
Qed.

Lemma rename_commute id1 c1 id2 c2 rd :
  let t1 := rename_step id2 c2 (rename_step id1 c1 rd) in
  let t2 := rename_step id1 c1 (rename_step id2 c2 rd) in
  dom t1.1 = dom t2.1 ∧ t1.2 = t2.2 ∧ unique_renames t1.1 t1.2 = unique_renames t2.1 t2.2.
Proof.
  destruct rd as [r d]. unfold rename_step.
  destruct (decide (load_target id1 c1 = id1)), (decide (load_target id2 c2 = id2)); try done.
  apply track_commute.
Qed.

Lemma load_step_proper s t x s' :
  same_loads s t → load_step s x = Ok s' → ∃ t', load_step t x = Ok t' ∧ same_loads s' t'.
Proof.
  destruct s as [[d1 r1] u1], t as [[d2 r2] u2], x as [id source]. intros (H1 & H2 & H3 & H4).
  cbn in H1, H2, H3, H4. subst d2 u2. rewrite load_step_Ok. intros (config & Hc & Hd & ->).
  eexists. rewrite load_step_Ok. split; [eauto|]. cbn.
  destruct (rename_proper id config (r1, u1) (r2, u1) H3 eq_refl H4) as (? & ? & ?). by split_and!.
Qed.

Lemma load_step_commute s x y s1 s2 :
  load_step s x = Ok s1 → load_step s1 y = Ok s2 →
  ∃ t1 t2, load_step s y = Ok t1 ∧ load_step t1 x = Ok t2 ∧ same_loads s2 t2.
Proof.
  destruct s as [[d r] u], x as [i1 src1], y as [i2 src2].
  rewrite load_step_Ok. intros (c1 & Hc1 & Hd1 & ->).
  rewrite load_step_Ok. intros (c2 & Hc2 & Hd2 & ->).
  setoid_rewrite load_step_Ok. eexists _, _. split; [|split].
  - exists c2. split; [done|]. split; [|done]. intros b Hb.
    destruct (decide (load_target i1 c1 = load_target i2 c2)) as [Heq|Hne].
    + rewrite Heq in Hd2, Hd1. specialize (Hd2 _ (lookup_insert_eq _ _ _)). cbn in Hd2.
      rewrite <- Hd2. by apply Hd1.
    + apply Hd2. by rewrite lookup_insert_ne.
  - rewrite load_step_Ok. exists c1. split; [done|]. split; [|done]. intros b Hb.
    destruct (decide (load_target i1 c1 = load_target i2 c2)) as [Heq|Hne].
    + rewrite <- Heq in Hb, Hd2. rewrite lookup_insert_eq in Hb. injection Hb as <-. cbn.
      specialize (Hd2 _ (lookup_insert_eq _ _ _)). by cbn in Hd2.
    + rewrite lookup_insert_ne in Hb by done. by apply Hd1.
  - destruct (rename_commute i1 c1 i2 c2 (r, u)) as (? & ? & ?).
    rewrite <- !surjective_pairing. split_and!; [|done..]. cbn.
    destruct (decide (load_target i1 c1 = load_target i2 c2)) as [Heq|Hne].
    + rewrite Heq in *. specialize (Hd2 _ (lookup_insert_eq _ _ _)). cbn in Hd2. subst src2.
      assert (c1 = c2) as -> by congruence. done.
    + by apply insert_insert_ne.
Qed.

(** The result does not depend on the order. *)
Lemma load_build_data_order renamed sources sources' r :
  sources ≡ₚ sources' → load_build_data renamed sources = Ok r →
  load_build_data renamed sources' = Ok r.
Proof.
  intros Hp. unfold load_build_data.
  destruct (ofold load_step _ sources) as [s| |] eqn:Hs; [|done..].
  destruct (ofold_permute load_step same_loads load_step_proper load_step_commute _ _ _ _ Hp Hs)
    as (t & -> & HR). destruct s as [[d u] v], t as [[d' u'] v']. cbn.
  destruct HR as (H1 & H2 & H3 & H4). cbn in *. unfold unique_renames in H4.
  intros [= <-]. by rewrite H1, H4.
Qed.
End Data.
