(* ===== verification/WorkspaceNodes.v ===== *)
(** * Nodes under construction

Both workspace builders keep a graph whose nodes are loading or loaded, with a
map from keys to their indexes, and make the stores of the finished graphs of
it.  The lemmas here are about such maps, for projects and for tasks. *)

From S2P Require Import Prelude Errors FileSystem Target GraphUtils Config Dag DiGraph NodeMaps ProjectGraph.
From S2P Require Import WorkspaceData.

Section Nodes.
Context {K N : Type} `{Countable K} (key : N → K).

(** Every node has one key, and a loaded node has its own. *)
Record keyed (index : gmap K nat) (nodes : list (NodeState N)) : Prop := {
  kd_range : ∀ k i, index !! k = Some i → i < length nodes;
  kd_inj : ∀ k1 k2 i, index !! k1 = Some i → index !! k2 = Some i → k1 = k2;
  kd_cover : ∀ i, i < length nodes → ∃ k, index !! k = Some i;
  kd_loaded : ∀ k i n, index !! k = Some i → nodes !! i = Some (Loaded n) → key n = k;
}.

Lemma keyed_empty : keyed ∅ [].
Proof. split; cbn; try done. intros i Hi. lia. Qed.

Lemma keyed_new index nodes k s :
  keyed index nodes → index !! k = None → (∀ n, s = Loaded n → key n = k) →
  keyed (<[k := length nodes]> index) (nodes ++ [s]).
Proof.
  intros [Hr Hi Hc Hl] Hk Hs. split.
  - intros k' i. rewrite lookup_insert_Some, length_app. cbn.
    intros [[_ <-]|[_ ?%Hr]]; lia.
  - intros k1 k2 i. rewrite !lookup_insert_Some.
    intros [[<- <-]|[? H1]] [[<- ?]|[? H2]]; simplify_eq; try done.
    + apply Hr in H2. lia.
    + apply Hr in H1. lia.
    + by eapply Hi.
  - intros i. rewrite length_app. cbn. intros Hlt. destruct (decide (i = length nodes)) as [->|Hne].
    + exists k. by rewrite lookup_insert_eq.
    + destruct (Hc i) as [k' Hk']; [lia|]. exists k'. rewrite lookup_insert_ne; congruence.
  - intros k' i n. rewrite lookup_insert_Some. intros [[<- <-]|[Hne Hk']].
    + rewrite lookup_app_r, Nat.sub_diag by done. cbn. intros [= ->]. by apply Hs.
    + rewrite lookup_app_l by (by eapply Hr). by apply Hl.
Qed.

Lemma keyed_set index nodes i n :
  keyed index nodes → index !! key n = Some i → keyed index (<[i := Loaded n]> nodes).
Proof.
  intros [Hr Hi Hc Hl] Hk. split.
  - intros k j. rewrite length_insert. apply Hr.
  - done.
  - intros j. rewrite length_insert. apply Hc.
  - intros k j m Hj. destruct (decide (i = j)) as [<-|Hne].
    + rewrite list_lookup_insert_eq by (by eapply Hr). intros [= <-]. by eapply Hi.
    + rewrite list_lookup_insert_ne by done. by apply Hl.
Qed.

(** ** The finished store *)

Context {V : Type} (idx : V → nat) (val : V → N) (mk : nat → N → V).
Context (idx_mk : ∀ i n, idx (mk i n) = i) (val_mk : ∀ i n, val (mk i n) = n).

(** The loop that fills the maps. *)
Definition fin_step (new : nat → option nat) (loaded : nat → option (NodeState N))
  (s : gmap nat K * gmap K V) (index : nat) : result (gmap nat K * gmap K V) :=
  let '(indexes, nodes) := s in
  let? old_index := index_or_panic (new index) in
  match loaded old_index with
  | Some (Loaded n) => Ok (<[index := key n]> indexes, <[key n := mk index n]> nodes)
  | _ => Err (Foreign "called `Option::unwrap()` on a `None` value")
  end.

Context (old : list nat) (loaded : nat → option (NodeState N)).

(** The node with the new index [i]. *)
Definition kept_node (i : nat) (n : N) : Prop :=
  ∃ o, old !! i = Some o ∧ loaded o = Some (Loaded n).

Context (all_loaded : ∀ o, o ∈ old → ∃ n, loaded o = Some (Loaded n)).
Context (one_key : ∀ i j n m, kept_node i n → kept_node j m → key n = key m → i = j).

Lemma kept_node_at i : i < length old → ∃ n, kept_node i n.
Proof.
  intros Hi. apply lookup_lt_is_Some in Hi as [o Ho].
  destruct (all_loaded o) as [n Hn]; [by eapply list_elem_of_lookup_2|]. exists n. by exists o.
Qed.

Lemma kept_node_fun i n m : kept_node i n → kept_node i m → n = m.
Proof. intros (o & Ho & Hn) (o' & Ho' & Hm). congruence. Qed.

(** What the maps hold after the first [k] rounds. *)
Record filled (k : nat) (indexes : gmap nat K) (nodes : gmap K V) : Prop := {
  fl_index : ∀ i x, indexes !! i = Some x ↔ i < k ∧ ∃ n, kept_node i n ∧ key n = x;
  fl_node : ∀ x v, nodes !! x = Some v ↔ ∃ i n, i < k ∧ kept_node i n ∧ key n = x ∧ v = mk i n;
}.

Lemma filled_step k indexes nodes n :
  filled k indexes nodes → kept_node k n →
  filled (S k) (<[k := key n]> indexes) (<[key n := mk k n]> nodes).
Proof.
  intros [Hi Hn] Hk. split.
  - intros i x. rewrite lookup_insert_Some, Hi. split.
    + intros [[<- <-]|[Hne [Hlt Hx]]]; [split; [lia|eauto]|split; [lia|done]].
    + intros [Hlt (m & Hm & <-)]. destruct (decide (k = i)) as [<-|Hne].
      * left. by rewrite (kept_node_fun _ _ _ Hk Hm).
      * right. split; [done|]. split; [lia|eauto].
  - intros x v. rewrite lookup_insert_Some, Hn. split.
    + intros [[<- <-]|[Hne (i & m & ? & ?)]]; [exists k, n|exists i, m]; (split; [lia|done]).
    + intros (i & m & Hlt & Hm & <- & ->). destruct (decide (i = k)) as [->|Hne].
      * left. by rewrite (kept_node_fun _ _ _ Hk Hm).
      * right. split; [intros He; destruct Hne; by eapply one_key|]. exists i, m. split; [lia|done].
Qed.

Lemma fin_loop new k :
  (∀ i, new i = old !! i) → k ≤ length old →
  ∃ indexes nodes, ofold (fin_step new loaded) (∅, ∅) (seq 0 k) = Ok (indexes, nodes) ∧
    filled k indexes nodes.
Proof.
  intros Hnew. induction k as [|k IH]; intros Hk.
  - exists ∅, ∅. split; [done|]. split.
    + intros i x. rewrite lookup_empty. split; [done|]. intros [? _]. lia.
    + intros x v. rewrite lookup_empty. split; [done|]. intros (i & n & ? & _). lia.
  - destruct (IH ltac:(lia)) as (indexes & nodes & Hf & Hfl).
    destruct (kept_node_at k ltac:(lia)) as (n & Hn). destruct (Hn) as (o & Ho & Hl).
    exists (<[k := key n]> indexes), (<[key n := mk k n]> nodes).
    split; [|by apply filled_step].
    rewrite seq_S, ofold_app, Hf. cbn. by rewrite Hnew, Ho; cbn; rewrite Hl.
Qed.

Lemma filled_store indexes nodes :
  filled (length old) indexes nodes → store_ok idx val key (length old) indexes nodes.
Proof.
  intros [Hi Hn]. split.
  - intros i. split.
    + by intros [x [? _]%Hi].
    + intros Hlt. destruct (kept_node_at i Hlt) as [n Hk]. exists (key n). apply Hi. eauto.
  - intros i x. rewrite Hi. setoid_rewrite Hn. split.
    + intros [Hlt (n & Hk & <-)]. exists (mk i n). split; [eauto 7|apply idx_mk].
    + intros (v & (j & n & Hlt & Hk & <- & ->) & <-). rewrite idx_mk. eauto.
  - intros x v (i & n & _ & _ & <- & ->)%Hn. by rewrite val_mk.
Qed.
End Nodes.

(** ** Linking nodes by their keys

[named] are the edges of a graph by the keys of their ends.  The edges are
partitioned by [part], and no partition may have a cycle. *)
Section Linked.
Context {K N E : Type} `{Countable K} (key : N → K) (part : E → bool).

(** The edges of a partition, by indexes and by keys. *)
Definition in_part (p : bool) (e : E) : bool := Bool.eqb (part e) p.

Definition named_edge (named : list (K * K * E)) (p : bool) (a b : K) : Prop :=
  ∃ e, (a, b, e) ∈ named ∧ part e = p.

Definition named_acyclic (named : list (K * K * E)) : Prop :=
  ∀ p a, ¬ tc (named_edge named p) a a.

Definition edge_named (index : gmap K nat) (e : nat * nat * E) (n : K * K * E) : Prop :=
  index !! n.1.1 = Some e.1.1 ∧ index !! n.1.2 = Some e.1.2 ∧ n.2 = e.2.

Record linked (named : list (K * K * E)) (index : gmap K nat) (nodes : list (NodeState N))
    (edges : list (nat * nat * E)) : Prop := {
  lk_keyed : keyed key index nodes;
  lk_edges : Forall2 (edge_named index) edges named;
  lk_acyclic : ∀ p, acyclic (edge_of (edges_where (in_part p) edges));
}.

Lemma linked_empty : linked [] ∅ [] [].
Proof.
  split; [apply keyed_empty|constructor|]. intros p x Hx.
  inversion Hx as [? ? [e He]|? ? ? [e He]]; by apply elem_of_nil in He.
Qed.

Lemma edge_named_mono index index' edges named :
  index ⊆ index' → Forall2 (edge_named index) edges named → Forall2 (edge_named index') edges named.
Proof.
  intros Hsub Hf. eapply Forall2_impl; [exact Hf|]. intros e n (H1 & H2 & H3). split_and!; [..|done].
  all: by eapply lookup_weaken.
Qed.

Lemma linked_new named index nodes edges k s :
  linked named index nodes edges → index !! k = None → (∀ n, s = Loaded n → key n = k) →
  linked named (<[k := length nodes]> index) (nodes ++ [s]) edges.
Proof.
  intros [Hk He Ha] Hn Hs. split; [by apply keyed_new| |done].
  eapply edge_named_mono; [|exact He]. by apply insert_subseteq.
Qed.

Lemma linked_set named index nodes edges i n :
  linked named index nodes edges → index !! key n = Some i →
  linked named index (<[i := Loaded n]> nodes) edges.
Proof. intros [Hk He Ha] Hn. split; [by apply keyed_set|done|done]. Qed.

(** An edge of the graph is a named one, and the other way around. *)
Lemma linked_named named index nodes edges i j a b e :
  linked named index nodes edges → index !! a = Some i → index !! b = Some j →
  (i, j, e) ∈ edges ↔ (a, b, e) ∈ named.
Proof.
  intros [Hk He _] Ha Hb. split.
  - intros Hin. apply list_elem_of_lookup in Hin as [x Hx].
    destruct (Forall2_lookup_l _ _ _ _ _ He Hx) as ([[a' b'] e'] & Hn & H1 & H2 & H3). cbn in *. subst e'.
    rewrite (kd_inj _ _ _ Hk _ _ _ Ha H1), (kd_inj _ _ _ Hk _ _ _ Hb H2).
    by eapply list_elem_of_lookup_2.
  - intros Hin. apply list_elem_of_lookup in Hin as [x Hx].
    destruct (Forall2_lookup_r _ _ _ _ _ He Hx) as ([[i' j'] e'] & Hn & H1 & H2 & H3). cbn in *. subst e'.
    simplify_eq. by eapply list_elem_of_lookup_2.
Qed.

Lemma linked_ends named index nodes edges a b e :
  linked named index nodes edges → (a, b, e) ∈ named →
  ∃ i j, index !! a = Some i ∧ index !! b = Some j ∧ (i, j, e) ∈ edges.
Proof.
  intros [Hk He _] Hin. apply list_elem_of_lookup in Hin as [x Hx].
  destruct (Forall2_lookup_r _ _ _ _ _ He Hx) as ([[i j] e'] & Hn & H1 & H2 & H3). cbn in *. subst e'.
  exists i, j. split_and!; [done..|]. by eapply list_elem_of_lookup_2.
Qed.

Lemma part_edge_elem p edges i j :
  edge_of (edges_where (in_part p) edges) i j ↔ ∃ e, (i, j, e) ∈ edges ∧ part e = p.
Proof.
  unfold edge_of. setoid_rewrite edges_where_elem. unfold in_part.
  setoid_rewrite Bool.eqb_true_iff. done.
Qed.

(** A path between keys is one between their indexes. *)
Lemma linked_tc named index nodes edges p a b i j :
  linked named index nodes edges → index !! a = Some i → index !! b = Some j →
  tc (named_edge named p) a b ↔ tc (edge_of (edges_where (in_part p) edges)) i j.
Proof.
  intros Hl Ha Hb. split.
  - intros Ht. revert i Ha. induction Ht as [a b (e & He & Hp)|a c b (e & He & Hp) _ IH]; intros i Ha.
    + apply tc_once, part_edge_elem. exists e. split; [|done]. by eapply linked_named.
    + destruct (linked_ends _ _ _ _ _ _ _ Hl He) as (i' & k & Hi' & Hk & Hik). simplify_eq.
      eapply tc_l; [|by apply IH]. apply part_edge_elem. eauto.
  - intros Ht. revert a Ha. induction Ht as [i j He|i k j He _ IH]; intros a Ha;
      apply part_edge_elem in He as (e & He & Hp).
    + apply tc_once. exists e. split; [|done]. by eapply linked_named.
    + assert (∃ c, index !! c = Some k) as [c Hc].
      { destruct Hl as [_ Hf _]. apply list_elem_of_lookup in He as [x Hx].
        destruct (Forall2_lookup_l _ _ _ _ _ Hf Hx) as ([[a' c] e'] & _ & _ & Hc & _). eauto. }
      eapply tc_l; [|by apply IH]. exists e. split; [|done]. by eapply linked_named.
Qed.

Lemma linked_named_acyclic named index nodes edges :
  linked named index nodes edges → named_acyclic named.
Proof.
  intros Hl p a Ht. assert (∃ i, index !! a = Some i) as [i Hi].
  { inversion Ht as [? ? (e & He & _)|? ? ? (e & He & _)]; subst;
      destruct (linked_ends _ _ _ _ _ _ _ Hl He) as (i & _ & Hi & _); eauto. }
  apply (lk_acyclic _ _ _ _ Hl p i). by eapply linked_tc.
Qed.

(** Adding an edge: there is a path back, or not. *)
Lemma linked_edge named index nodes edges a b i j e :
  linked named index nodes edges → index !! a = Some i → index !! b = Some j →
  ¬ rtc (edge_of (edges_where (in_part (part e)) edges)) j i →
  linked (named ++ [(a, b, e)]) index nodes (edges ++ [(i, j, e)]).
Proof.
  intros [Hk He Hac] Ha Hb Hr. split; [done|apply Forall2_app; [done|by constructor; [split_and!|constructor]]|].
  intros p. unfold edges_where. rewrite filter_app, filter_cons. cbn.
  case_decide as Hp; [|rewrite app_nil_r; apply Hac].
  apply acyclic_add_edge; [apply Hac|]. apply Bool.eqb_prop in Hp. by subst p.
Qed.

Lemma named_cycle named index nodes edges a b i j e :
  linked named index nodes edges → index !! a = Some i → index !! b = Some j →
  rtc (edge_of (edges_where (in_part (part e)) edges)) j i →
  tc (named_edge (named ++ [(a, b, e)]) (part e)) a a.
Proof.
  intros Hl Ha Hb Hr.
  assert (named_edge (named ++ [(a, b, e)]) (part e) a b) as Hab.
  { exists e. split; [apply elem_of_app; right; by left|done]. }
  apply rtc_tc in Hr as [->|Ht].
  - assert (a = b) as <- by (by eapply (kd_inj _ _ _ (lk_keyed _ _ _ _ Hl))). by apply tc_once.
  - eapply tc_l; [exact Hab|]. apply (linked_tc _ _ _ _ _ _ _ _ _ Hl Hb Ha) in Ht.
    eapply tc_mono; [|exact Ht]. intros x y (w & Hw & Hp). exists w. split; [|done].
    apply elem_of_app. by left.
Qed.

(** More edges have more cycles. *)
Lemma named_acyclic_mono named named' :
  (∀ x, x ∈ named → x ∈ named') → named_acyclic named' → named_acyclic named.
Proof.
  intros Hsub Hac p a Ht. apply (Hac p a). eapply tc_mono; [|exact Ht].
  intros x y (e & He & Hp). exists e. split; [by apply Hsub|done].
Qed.

(** The edges between loaded nodes. *)
Lemma linked_loaded named index nodes edges i j n m e :
  linked named index nodes edges → nodes !! i = Some (Loaded n) → nodes !! j = Some (Loaded m) →
  (i, j, e) ∈ edges ↔ (key n, key m, e) ∈ named.
Proof.
  intros Hl Hn Hm. pose proof (lk_keyed _ _ _ _ Hl) as Hk.
  destruct (kd_cover _ _ _ Hk i) as [a Ha]; [by eapply lookup_lt_Some|].
  destruct (kd_cover _ _ _ Hk j) as [b Hb]; [by eapply lookup_lt_Some|].
  rewrite (kd_loaded _ _ _ Hk _ _ _ Ha Hn), (kd_loaded _ _ _ Hk _ _ _ Hb Hm).
  by eapply linked_named.
Qed.
End Linked.

(** Linking two projects: there is a path back in the partition of the scope, or
    the edge is added. *)
Section LinkProjects.
Context {GB : DiGraphOps (NodeState Project) DependencyScope} {LB : DiGraphLaws GB}.

(** A path in the partition of the scope. *)
Definition scope_path (named : list (Id * Id * DependencyScope)) (scope : DependencyScope) : Id → Id → Prop :=
  rtc (named_edge is_production_group named (is_production_group scope)).

Lemma link_scope_edge (g : DiGraph) named index a c i j scope :
  dg_wf g → linked p_id is_production_group named index (dg_nodes g) (dg_edges g) →
  index !! a = Some i → index !! c = Some j →
  if would_cycle_in_scope g i j scope then scope_path named scope c a
  else let g' := dg_add_edge g i j scope in
    dg_wf g' ∧ dg_nodes g' = dg_nodes g ∧
    linked p_id is_production_group (named ++ [(a, c, scope)]) index (dg_nodes g') (dg_edges g').
Proof.
  intros Hw Hl Hi Hj. pose proof (lk_keyed _ _ _ _ _ _ Hl) as Hk.
  assert (i < length (dg_nodes g)) as Hlt by by eapply (kd_range _ _ _ Hk).
  assert (j < length (dg_nodes g)) as Hlt' by by eapply (kd_range _ _ _ Hk).
  unfold would_cycle_in_scope.
  pose proof (dg_has_path_law g (in_part is_production_group (is_production_group scope)) j i Hw Hlt' Hlt)
    as Hpath.
  unfold in_part in Hpath. destruct (dg_has_path _ _ j i).
  - destruct Hpath as [Hpath _]. specialize (Hpath eq_refl). apply rtc_tc in Hpath as [->|Ht].
    + rewrite (kd_inj _ _ _ Hk _ _ _ Hi Hj). apply rtc_refl.
    + apply rtc_tc. right. by apply (linked_tc _ _ _ _ _ _ _ _ _ _ _ Hl Hj Hi).
  - destruct (dg_add_edge_law g i j scope Hw Hlt Hlt') as (H1 & H2 & H3).
    split; [done|]. split; [done|]. rewrite H2, H3. apply linked_edge; [done..|].
    intros Hr. by apply Hpath in Hr.
Qed.

(** A path back is a cycle. *)
Lemma scope_path_cycle named named' a c scope :
  scope_path named scope c a → (∀ x, x ∈ named → x ∈ named') → (a, c, scope) ∈ named' →
  ¬ named_acyclic is_production_group named'.
Proof.
  intros Hp Hsub Hin Hac. apply (Hac (is_production_group scope) a). eapply tc_rtc_r.
  - apply tc_once. by exists scope.
  - eapply rtc_subrel; [|exact Hp]. intros x y (e & He & Hs). exists e. split; [by apply Hsub|done].
Qed.

Lemma scope_path_mono named named' scope a c :
  (∀ x, x ∈ named → x ∈ named') → scope_path named scope a c → scope_path named' scope a c.
Proof.
  intros Hsub Hp. eapply rtc_subrel; [|exact Hp]. intros x y (e & He & Hs). exists e.
  split; [by apply Hsub|done].
Qed.
End LinkProjects.
