(* ===== verification/TaskGraph.v ===== *)
(** * The task graph ([crates/task-graph], [crates/task-expander])

The graph of the tasks of a workspace.  A task is expanded when it is asked for;
what was expanded is kept in cells that are initialised once and shared with the
graphs that are focused from it.  Expanding a task can ask for the tasks it
depends on. *)

From S2P Require Import Prelude Errors FileSystem Target GraphUtils Shapes Config Dag DiGraph NodeMaps ProjectGraph.

(** ** Expanding a task ([TaskExpander]) *)

(** What expanding needs from elsewhere: the tokens and variables of a task
    ([TokenExpander] and [EnvSubstitutor], for a task and its project), the file
    system, and what libraries do with paths. *)
Class TaskHost : Type := {
  (** script or command, environment and its files, dependencies, inputs, outputs
      and arguments, in this order *)
  expand_tokens : Project → Task → result Task;
  path_is_dir : WorkspaceRelativePath → bool;
  task_syntax :: ConfigSyntax;
}.

(** [input_globs.entry(glob).or_default()]: a glob is listed once. *)
Definition add_glob (globs : list string) (glob : string) : list string :=
  if decide (glob ∈ globs) then globs else globs ++ [glob].

(** The outputs of a dependency become inputs of the task, unless they are
    already. *)
Definition inject_outputs (task dep_task : Task) : Task :=
  set_inputs task
    (t_input_files task ∪
       ((λ optional, mkTaskFileInput None (Some optional)) <$> t_output_files dep_task))
    (fold_left add_glob (t_output_globs dep_task) (t_input_globs task)).

Definition has_cached_outputs (dep : TaskDependencyConfig) : bool :=
  match dep_cache_strategy dep with Some CacheOutputs => true | _ => false end.

Section Expander.
Context `{TaskHost} {S : Type}.

(** [inject_deps_outputs], the body of its loop first; [get_task] is the lookup. *)
Definition inject_dep (get_task : Target → stateful S Task) (task : Task)
  (dep : TaskDependencyConfig) : stateful S Task :=
  if has_cached_outputs dep then
    dep_task ← get_task (dep_target dep);
    if decide (t_output_files dep_task = ∅ ∧ t_output_globs dep_task = []) then mret task
    else mret (inject_outputs task dep_task)
  else mret task.

Fixpoint inject_deps (get_task : Target → stateful S Task) (task : Task)
  (deps : list TaskDependencyConfig) : stateful S Task :=
  match deps with
  | [] => mret task
  | dep :: deps' => task' ← inject_dep get_task task dep; inject_deps get_task task' deps'
  end.

Definition inject_deps_outputs (get_task : Target → stateful S Task) (task : Task) :
  stateful S Task := inject_deps get_task task (t_deps task).

(** [move_input_dirs_to_globs] *)
Definition is_moved (task : Task) (file : WorkspaceRelativePath) : bool :=
  bool_decide (is_Some (t_output_files task !! file)) || path_is_dir file.

Definition move_input_dir (task : Task) (globs : list string) (file : WorkspaceRelativePath) :
  list string :=
  if decide (is_Some (t_output_files task !! file)) then globs
  else if path_is_dir file then add_glob globs (path_join file "**/*")
  else globs.

Definition move_input_dirs_to_globs (task : Task) : Task :=
  set_inputs task
    (filter (λ '(file, _), is_moved task file = false) (t_input_files task))
    (fold_left (move_input_dir task) (map_to_list (t_input_files task)).*1 (t_input_globs task)).

(** [remove_input_output_overlaps] *)
Definition remove_input_output_overlaps (task : Task) : Task :=
  set_inputs task
    (filter (λ '(file, _), t_output_files task !! file = None) (t_input_files task))
    (filter (λ glob, glob ∉ t_output_globs task) (t_input_globs task)).

(** [expand] *)
Definition TaskExpander_expand (project : Project) (get_task : Target → stateful S Task)
  (task : Task) : stateful S Task :=
  task ← pure_result (expand_tokens project task);
  task ← inject_deps_outputs get_task task;
  mret (remove_input_output_overlaps (move_input_dirs_to_globs task)).
End Expander.

(** ** The graph *)

(** [TaskNode], [TaskGraph] *)
Record TaskNode : Type := mkTaskNode {
  tn_index : nat;
  tn_task : Task;
}.

Record TaskGraph {G : DiGraphOps nat DependencyScope} {D : DagOps nat DependencyScope}
    {T : DagOps nat TaskDependencyType} : Type := mkTaskGraph {
  tg_graph : Dag;
  tg_indexes : gmap nat Target;
  tg_nodes : gmap Target TaskNode;
  tg_project_graph : ProjectGraph G D;
}.
Arguments TaskGraph : clear implicits.

(** The cells behind [tasks]: those that are initialised, and those that are
    being initialised. *)
Record TaskCaches : Type := mkTaskCaches {
  task_cells : gmap Target Task;
  task_running : gset Target;
}.

Definition TaskCaches_new : TaskCaches := mkTaskCaches ∅ ∅.

Section Graph.
Context {G : DiGraphOps nat DependencyScope} {D : DagOps nat DependencyScope}
  {T : DagOps nat TaskDependencyType} `{TaskHost}.
Implicit Types (g : TaskGraph G D T).

(** [TaskGraph::new] *)
Definition TaskGraph_new (project_graph : ProjectGraph G D) : TaskGraph G D T :=
  mkTaskGraph _ _ _ dag_new ∅ ∅ project_graph.

(** [get_unexpanded]: without a project or task identifier in the target the
    error itself panics. *)
Definition task_get_unexpanded g (target : Target) : result Task :=
  match tg_nodes g !! target with
  | Some node => Ok (tn_task node)
  | None =>
      let? task_id := get_task_id target in
      let? project_id := get_project_id target in
      Err (RProject (UnknownTask task_id project_id))
  end.

(** [get_all_unexpanded], [get_many_unexpanded] *)
Definition task_get_all_unexpanded g : list Task := tn_task <$> (map_to_list (tg_nodes g)).*2.

Definition get_many_unexpanded g (targets : list Target) : result (list Task) :=
  omap_list (task_get_unexpanded g) targets.

(** [OnceCell::get_or_try_init] on the cell of [target]: a cell that is already
    being initialised by the caller never returns. *)
Definition get_or_try_init (target : Target) (init : stateful TaskCaches Task) :
  stateful TaskCaches Task := λ c,
  match task_cells c !! target with
  | Some task => (Ok task, c)
  | None =>
      if decide (target ∈ task_running c)
      then (Err (Foreign "deadlock"), c)
      else
        let '(r, c') := init (mkTaskCaches (task_cells c) ({[target]} ∪ task_running c)) in
        let running := task_running c' ∖ {[target]} in
        match r with
        | Ok task => (Ok task, mkTaskCaches (<[target := task]> (task_cells c')) running)
        | _ => (r, mkTaskCaches (task_cells c') running)
        end
  end.

(** [internal_get], which is [get] and [TaskLookup::get_task] as well; the depth
    of the recursion is bounded by [fuel]. *)
Fixpoint TaskGraph_get (fuel : nat) g (target : Target) : stateful TaskCaches Task :=
  match fuel with
  | 0 => pure_result OutOfFuel
  | S fuel' =>
      get_or_try_init target
        (project_id ← pure_result (get_project_id target);
         project ← pure_result (get_unexpanded (tg_project_graph g) project_id);
         task ← pure_result (task_get_unexpanded g target);
         TaskExpander_expand project (TaskGraph_get fuel' g) task)
  end.

(** [get_all], [get_many] *)
Definition TaskGraph_get_all (fuel : nat) g : stateful TaskCaches (list Task) :=
  stateful_map (TaskGraph_get fuel g) (map_to_list (tg_nodes g)).*1.

Definition get_many (fuel : nat) g (targets : list Target) : stateful TaskCaches (list Task) :=
  stateful_map (TaskGraph_get fuel g) targets.

(** ** The graph traits *)

Section Traits.
Context {GT : DiGraphOps nat TaskDependencyType} {C : DagGraph T GT}.

Definition no_task : Task :=
  Task_default.

(** [GraphData] and [GraphConnections] for [TaskGraph] *)
Definition task_connections g : GraphConnections Task Target :=
  store_connections tn_index tn_task t_target no_task (dag_graph (tg_graph g)) (tg_indexes g)
    (tg_nodes g).

(** [dependencies_of], [dependents_of] of the trait, on tasks *)
Definition tg_dependencies_of g (t : Task) : list Target :=
  @dependencies_of Task Target (task_connections g) t.
Definition tg_dependents_of g (t : Task) : list Target :=
  @dependents_of Task Target (task_connections g) t.

(** ** Focus *)

Context {U : DagUpdate T} {F : DiGraphMap GT GT}.

(** The maps and the graph that the loop over the nodes of [focus_for] fills. *)
Definition focus_task_step g (s : gmap nat Target * gmap Target TaskNode * Dag)
  (node : nat * nat) : result (gmap nat Target * gmap Target TaskNode * Dag) :=
  let '(indexes, tasks, dag) := s in
  let '(new_index, old_index) := node in
  let? target := index_or_panic (tg_indexes g !! old_index) in
  let? old := index_or_panic (tg_nodes g !! target) in
  Ok (<[new_index := target]> indexes,
      <[target := mkTaskNode new_index (tn_task old)]> tasks,
      (dag_add_node dag new_index).2).

(** The loop over the edges; [unwrap] panics on a cycle. *)
Definition focus_edge_step (dag : Dag) (edge : nat * nat * TaskDependencyType) : result Dag :=
  let '(source, target, weight) := edge in
  let? ' (_, dag') := ok_or (dag_update_edge dag source target weight) (Foreign "WouldCycle") in
  Ok dag'.

(** [focus_for], after the lookup of the task *)
Definition focus_on_task g (task : Task) (with_dependents : bool) : result (TaskGraph G D T) :=
  let focused := @focused_nodes Task Target _ _ (task_connections g) task with_dependents in
  let graph := dg_filter_map (dag_graph (tg_graph g))
    (λ _ node, if decide (node ∈ focused) then Some node else None) in
  let? ' (indexes, tasks, dag) :=
    ofold (focus_task_step g) (∅, ∅, dag_new) (imap pair (node_weights_of graph)) in
  let? dag := ofold focus_edge_step dag (dg_edge_references graph) in
  Ok (mkTaskGraph _ _ _ dag indexes tasks (tg_project_graph g)).

(** [focus_for] *)
Definition task_focus_for (fuel : nat) g (target : Target) (with_dependents : bool) :
  stateful TaskCaches (TaskGraph G D T) :=
  task ← TaskGraph_get fuel g target;
  pure_result (focus_on_task g task with_dependents).
End Traits.
End Graph.
