(* ===== verification/TaskGraphFacts.v ===== *)
(** * Properties of the task graph

Expanding a task keeps its outputs out of its inputs; the cells hold what
expanding without them gives; a task is expanded within a number of nested
lookups that is bounded by the size of the graph, and never waits for a cell it
is initialising itself. *)

From S2P Require Import Prelude Errors FileSystem Target GraphUtils Shapes Config Dag DiGraph NodeMaps ProjectGraph.
From S2P Require Import TaskGraph.

(** ** Expanding *)

Section Expander.
Context `{TaskHost}.

Lemma overlaps_inputs t :
  (∀ file, is_Some (t_input_files (remove_input_output_overlaps t) !! file) ↔
     is_Some (t_input_files t !! file) ∧ t_output_files t !! file = None) ∧
  ∀ glob, glob ∈ t_input_globs (remove_input_output_overlaps t) ↔
     glob ∈ t_input_globs t ∧ glob ∉ t_output_globs t.
Proof.
  split.
  - intros file. cbn. unfold is_Some. setoid_rewrite map_lookup_filter_Some. naive_solver.
  - intros glob. cbn. rewrite list_elem_of_filter. naive_solver.
Qed.

(** An expansion without state, from a pure lookup. *)
Definition pure_expand (project : Project) (get : Target → result Task) (task : Task) : result Task :=
  (TaskExpander_expand (S := unit) project (λ target _, (get target, tt)) task tt).1.

Lemma pure_inject_cons (get : Target → result Task) task dep deps :
  (inject_deps (S := unit) (λ target _, (get target, tt)) task (dep :: deps) tt).1 =
  (let? task' := (inject_dep (λ target _, (get target, tt)) task dep tt).1 in
   (inject_deps (λ target _, (get target, tt)) task' deps tt).1).
Proof.
  cbn. unfold mbind, stateful_bind.
  destruct (inject_dep _ task dep tt) as [[t|e|] []]; done.
Qed.

Section Returns.
Context {S : Type} (I : S → Prop) (get : Target → stateful S Task) (h : Target → result Task).

Lemma inject_dep_returns task dep :
  (has_cached_outputs dep = true → returns I (get (dep_target dep)) (h (dep_target dep))) →
  returns I (inject_dep get task dep) (inject_dep (S := unit) (λ x _, (h x, tt)) task dep tt).1.
Proof.
  intros Hget. unfold inject_dep. destruct (has_cached_outputs dep); [|apply returns_ret].
  intros s Hs. destruct (Hget eq_refl s Hs) as [Hr Hi]. unfold mbind, stateful_bind.
  destruct (get (dep_target dep) s) as [r s']. cbn in Hr, Hi. subst r.
  destruct (h (dep_target dep)) as [t|e|]; [|done..].
  destruct (decide _); by apply returns_ret.
Qed.

Lemma inject_deps_returns task deps :
  (∀ dep, dep ∈ deps → has_cached_outputs dep = true →
     returns I (get (dep_target dep)) (h (dep_target dep))) →
  returns I (inject_deps get task deps) (inject_deps (S := unit) (λ x _, (h x, tt)) task deps tt).1.
Proof.
  revert task. induction deps as [|dep deps IH]; intros task Hget; [apply returns_ret|].
  rewrite pure_inject_cons. apply returns_bind.
  - apply inject_dep_returns. apply Hget. left.
  - intros t _. apply IH. intros d Hd. apply Hget. by right.
Qed.

Lemma expand_returns project task :
  (∀ t dep, expand_tokens project task = Ok t → dep ∈ t_deps t → has_cached_outputs dep = true →
     returns I (get (dep_target dep)) (h (dep_target dep))) →
  returns I (TaskExpander_expand project get task) (pure_expand project h task).
Proof.
  intros Hget s Hs. unfold pure_expand, TaskExpander_expand, pure_result, mbind, stateful_bind.
  destruct (expand_tokens project task) as [t|e|] eqn:Ht; [|done..].
  unfold inject_deps_outputs.
  destruct (inject_deps_returns t (t_deps t) (λ dep Hin, Hget t dep eq_refl Hin) s Hs) as [Hr Hi].
  destruct (inject_deps get t (t_deps t) s) as [r s'].
  destruct (inject_deps (S := unit) (λ x _, (h x, tt)) t (t_deps t) tt) as [r' []].
  cbn in Hr, Hi. subst r'. by destruct r.
Qed.
End Returns.

(** Expanding with two lookups that agree on the dependencies. *)
Lemma pure_expand_ext project task h1 h2 :
  (∀ t dep, expand_tokens project task = Ok t → dep ∈ t_deps t → has_cached_outputs dep = true →
     h1 (dep_target dep) = h2 (dep_target dep)) →
  pure_expand project h1 task = pure_expand project h2 task.
Proof.
  intros Hh.
  destruct (expand_returns (S := unit) (λ _, True) (λ x _, (h1 x, tt)) h2 project task) with tt
    as [Heq _]; [|done|].
  { intros t dep Ht Hdep Hc [] _. split; [|done]. cbn. by apply (Hh t). }
  exact Heq.
Qed.

(** What expanding leaves of the inputs and outputs. *)
Lemma pure_expand_disjoint project h task t :
  pure_expand project h task = Ok t →
  (∀ file, is_Some (t_input_files t !! file) → t_output_files t !! file = None) ∧
  ∀ glob, glob ∈ t_input_globs t → glob ∉ t_output_globs t.
Proof.
  unfold pure_expand, TaskExpander_expand, pure_result, mbind, stateful_bind.
  destruct (expand_tokens project task) as [t0|e|]; [|done..].
  destruct (inject_deps_outputs _ t0 tt) as [[t1|e|] []]; [|done..]. cbn. intros [= <-].
  destruct (overlaps_inputs (move_input_dirs_to_globs t1)) as [Hf Hg]. split.
  - intros file. rewrite Hf. by intros [_ ?].
  - intros glob. rewrite Hg. by intros [_ ?].
Qed.
End Expander.

(** ** The cells *)

Section Cells.
Context {G : DiGraphOps nat DependencyScope} {D : DagOps nat DependencyScope}
  {T : DagOps nat TaskDependencyType} `{TaskHost}.
Context (g : TaskGraph G D T).

(** A task expanded without cells. *)
Fixpoint pure_task (fuel : nat) (target : Target) : result Task :=
  match fuel with
  | 0 => OutOfFuel
  | S fuel' =>
      let? project_id := get_project_id target in
      let? project := get_unexpanded (tg_project_graph g) project_id in
      let? task := task_get_unexpanded g target in
      pure_expand project (pure_task fuel') task
  end.

(** Expanding [target] looks up [dep]. *)
Definition looks_up (target dep : Target) : Prop :=
  ∃ project_id project task t d,
    get_project_id target = Ok project_id ∧
    get_unexpanded (tg_project_graph g) project_id = Ok project ∧
    task_get_unexpanded g target = Ok task ∧ expand_tokens project task = Ok t ∧
    d ∈ t_deps t ∧ has_cached_outputs d = true ∧ dep = dep_target d.

(** Expanding the tokens of the tasks of the graph ends. *)
Definition tokens_end : Prop :=
  ∀ target project_id project task,
    get_project_id target = Ok project_id → get_unexpanded (tg_project_graph g) project_id = Ok project →
    task_get_unexpanded g target = Ok task → expand_tokens project task ≠ OutOfFuel.

(** A rank that lookups decrease. *)
Context (rank : Target → nat) (rank_decr : ∀ target dep, looks_up target dep → rank dep < rank target).

Lemma pure_task_fuel fuel target :
  rank target < fuel → pure_task fuel target = pure_task (S (rank target)) target.
Proof.
  intros Hf. remember (rank target) as r eqn:Hr. revert fuel target Hf Hr.
  induction (lt_wf r) as [r _ IH]. intros [|fuel] target Hf Hr; [lia|]. cbn [pure_task].
  destruct (get_project_id target) as [pid|e|] eqn:H1; [|done..]. cbn [obind].
  destruct (get_unexpanded (tg_project_graph g) pid) as [p|e|] eqn:H2; [|done..]. cbn [obind].
  destruct (task_get_unexpanded g target) as [task|e|] eqn:H3; [|done..]. cbn [obind].
  apply pure_expand_ext. intros t dep Ht Hdep Hc.
  assert (rank (dep_target dep) < r) as Hlt.
  { rewrite Hr. apply rank_decr. by exists pid, p, task, t, dep. }
  rewrite (IH _ Hlt fuel _ ltac:(lia) eq_refl). symmetry. by apply (IH _ Hlt r _ Hlt eq_refl).
Qed.

(** The cells hold what expanding gives, and [running] are being initialised. *)
Definition cells_ok (running : gset Target) (c : TaskCaches) : Prop :=
  task_running c = running ∧
  ∀ target t, task_cells c !! target = Some t → pure_task (S (rank target)) target = Ok t.

Lemma cells_new_ok : cells_ok ∅ TaskCaches_new.
Proof. split; [done|]. intros target t. cbn. by rewrite lookup_empty. Qed.

Lemma get_or_try_init_returns running target init :
  target ∉ running →
  returns (cells_ok ({[target]} ∪ running)) init (pure_task (S (rank target)) target) →
  returns (cells_ok running) (get_or_try_init target init) (pure_task (S (rank target)) target).
Proof.
  intros Hnot Hinit c [Hr Hc]. unfold get_or_try_init.
  destruct (task_cells c !! target) as [t|] eqn:Ht; [by rewrite (Hc _ _ Ht)|].
  rewrite decide_False by (by rewrite Hr).
  destruct (Hinit (mkTaskCaches (task_cells c) ({[target]} ∪ task_running c))) as [Hi [Hr' Hc']].
  { split; [cbn; by rewrite Hr|done]. }
  destruct (init _) as [r c']. cbn [fst snd] in Hi, Hr', Hc'. subst r.
  assert (task_running c' ∖ {[target]} = running) as Hrun by (rewrite Hr'; set_solver).
  destruct (pure_task (S (rank target)) target) as [t|e|] eqn:Hp.
  - split; [done|]. split; [done|]. cbn. intros x u.
    destruct (decide (x = target)) as [->|Hne].
    + rewrite lookup_insert_eq. intros [= <-]. done.
    + rewrite lookup_insert_ne by done. apply Hc'.
  - split; [done|]. by split.
  - split; [done|]. by split.
Qed.

(** A lookup returns what expanding without cells gives, whatever was expanded
    before, unless a task it needs is being initialised. *)
Lemma get_task_returns fuel target running :
  rank target < fuel → (∀ x, x ∈ running → rank target < rank x) →
  returns (cells_ok running) (TaskGraph_get fuel g target) (pure_task (S (rank target)) target).
Proof.
  revert target running. induction fuel as [|fuel IH]; intros target running Hf Hrun; [lia|].
  cbn [TaskGraph_get]. apply get_or_try_init_returns.
  { intros Hin. specialize (Hrun _ Hin). lia. }
  cbn [pure_task]. apply returns_bind; [apply returns_pure|]. intros pid H1.
  apply returns_bind; [apply returns_pure|]. intros p H2.
  apply returns_bind; [apply returns_pure|]. intros task H3.
  apply expand_returns. intros t dep Ht Hdep Hc.
  assert (rank (dep_target dep) < rank target) as Hlt.
  { apply rank_decr. by exists pid, p, task, t, dep. }
  rewrite pure_task_fuel by done. apply IH; [lia|].
  intros x [->%elem_of_singleton|Hx]%elem_of_union; [done|]. specialize (Hrun _ Hx). lia.
Qed.

(** Nothing is computed without end, if the tokens are not. *)
Lemma pure_task_total target :
  tokens_end →
  (∀ t, get_project_id t ≠ OutOfFuel ∧ get_task_id t ≠ OutOfFuel) →
  pure_task (S (rank target)) target ≠ OutOfFuel.
Proof.
  intros Htok Hid. remember (rank target) as r eqn:Hr. revert target Hr.
  induction (lt_wf r) as [r _ IH]. intros target Hr. cbn [pure_task].
  destruct (get_project_id target) as [pid|e|] eqn:H1; [|done|by destruct (Hid target)]. cbn [obind].
  destruct (get_unexpanded (tg_project_graph g) pid) as [p|e|] eqn:H2; [|done|].
  2: { unfold get_unexpanded in H2. by destruct (pg_nodes _ !! _). }
  cbn [obind]. destruct (task_get_unexpanded g target) as [task|e|] eqn:H3; [|done|].
  2: { unfold task_get_unexpanded in H3. destruct (tg_nodes g !! target); [done|].
       destruct (Hid target). destruct (get_task_id target); [|done..]. cbn in H3.
       by destruct (get_project_id target). }
  cbn [obind]. unfold pure_expand, TaskExpander_expand, pure_result, mbind, stateful_bind.
  specialize (Htok _ _ _ _ H1 H2 H3). destruct (expand_tokens p task) as [t|e|] eqn:Ht; [|done..].
  unfold inject_deps_outputs.
  assert (∀ deps u, (∀ d, d ∈ deps → d ∈ t_deps t) →
    (inject_deps (S := unit) (λ x _, (pure_task r x, tt)) u deps tt).1 ≠ OutOfFuel) as Hinj.
  { induction deps as [|d deps IHd]; intros u Hd; [done|]. rewrite pure_inject_cons.
    unfold inject_dep, mbind, stateful_bind.
    destruct (has_cached_outputs d) eqn:Hc; [|apply IHd; set_solver].
    assert (rank (dep_target d) < r) as Hlt.
    { rewrite Hr. apply rank_decr. exists pid, p, task, t, d. split_and!; try done. apply Hd. left. }
    rewrite pure_task_fuel by done. specialize (IH _ Hlt _ eq_refl).
    destruct (pure_task _ (dep_target d)) as [x|e|]; [|done..].
    destruct (decide _); cbn; apply IHd; set_solver. }
  specialize (Hinj (t_deps t) t (λ d Hd, Hd)).
  destruct (inject_deps _ t (t_deps t) tt) as [[x|e|] []]; done.
Qed.
End Cells.

(** ** A graph without cycles *)

Section Acyclic.
Context {G : DiGraphOps nat DependencyScope} {D : DagOps nat DependencyScope}
  {T : DagOps nat TaskDependencyType} {GT : DiGraphOps nat TaskDependencyType}
  {C : DagGraph T GT} {LT : DagLaws T} {LG : DiGraphLaws GT} {LC : DagGraphLaws C LT LG} `{TaskHost}.
Context (g : TaskGraph G D T).

(** The graph and its maps agree, and it has no cycle. *)
Record tg_ok : Prop := {
  tg_wf : dag_wf (tg_graph g);
  tg_own : dag_nodes (tg_graph g) = seq 0 (length (dag_nodes (tg_graph g)));
  tg_acyclic : acyclic (edge_of (dag_edges (tg_graph g)));
  tg_maps : store_ok tn_index tn_task t_target (length (dag_nodes (tg_graph g))) (tg_indexes g)
              (tg_nodes g);
}.

(** [a] has an edge to [b]. *)
Definition task_edge : Target → Target → Prop := key_edge (tg_indexes g) (dag_graph (tg_graph g)).

(** Lookups follow the edges. *)
Definition lookups_linked : Prop := ∀ target dep, looks_up g target dep → task_edge target dep.

Definition task_rank : Target → nat :=
  store_rank tn_index tn_task t_target no_task (tg_indexes g) (tg_nodes g) (dag_graph (tg_graph g)).

Context (ok : tg_ok).

Lemma tg_graph_wf : dg_wf (dag_graph (tg_graph g)).
Proof. apply dag_graph_wf, ok. Qed.

Lemma tg_graph_own : dg_nodes (dag_graph (tg_graph g)) = seq 0 (length (dag_nodes (tg_graph g))).
Proof. rewrite dag_graph_nodes by apply ok. apply ok. Qed.

(** The task graph keeps the promises of the graph traits. *)
Lemma task_connections_ok : GraphConnectionsOk (task_connections g).
Proof. exact (store_connections_ok _ _ _ _ _ _ _ (tg_maps ok) _ tg_graph_wf tg_graph_own). Qed.

Lemma task_rank_decr : lookups_linked → ∀ target dep, looks_up g target dep →
  task_rank dep < task_rank target.
Proof.
  intros Hl target dep Hd.
  eapply (store_rank_decr _ _ _ _ _ _ _ (tg_maps ok) _ tg_graph_wf tg_graph_own); [|by apply Hl].
  rewrite dag_graph_edges by apply ok. apply ok.
Qed.

Lemma task_rank_bound target : task_rank target ≤ dag_node_count (tg_graph g).
Proof.
  rewrite dag_node_count_law.
  apply (store_rank_bound _ _ _ _ _ _ _ (tg_maps ok) _ tg_graph_wf tg_graph_own).
Qed.

(** What is cached between two lookups. *)
Definition task_caches_ok (c : TaskCaches) : Prop := cells_ok g task_rank ∅ c.

(** Every task, expanded without cells. *)
Definition expanded_task (target : Target) : result Task :=
  pure_task g (S (dag_node_count (tg_graph g))) target.

Lemma task_get_returns target :
  lookups_linked →
  returns task_caches_ok (TaskGraph_get (S (dag_node_count (tg_graph g))) g target)
    (expanded_task target).
Proof.
  intros Hl. unfold expanded_task. pose proof (task_rank_bound target).
  rewrite (pure_task_fuel g task_rank (task_rank_decr Hl)) by lia.
  apply get_task_returns; [by apply task_rank_decr|lia|]. intros x Hx. set_solver.
Qed.

Lemma expanded_task_total target :
  lookups_linked → tokens_end g →
  expanded_task target ≠ OutOfFuel.
Proof.
  intros Hl Ht. unfold expanded_task. pose proof (task_rank_bound target).
  rewrite (pure_task_fuel g task_rank (task_rank_decr Hl)) by lia.
  apply pure_task_total; [by apply task_rank_decr|done|].
  intros t. unfold get_project_id, get_task_id.
  destruct (get_project_scope t) as [[] ?], (get_task_scope t) as [[] ?]; done.
Qed.

Lemma task_get_all_returns :
  lookups_linked →
  returns task_caches_ok (TaskGraph_get_all (S (dag_node_count (tg_graph g))) g)
    (omap_list expanded_task (map_to_list (tg_nodes g)).*1).
Proof. intros Hl. apply returns_map. intros. by apply task_get_returns. Qed.

Lemma get_many_returns targets :
  lookups_linked →
  returns task_caches_ok (get_many (S (dag_node_count (tg_graph g))) g targets)
    (omap_list expanded_task targets).
Proof. intros Hl. apply returns_map. intros. by apply task_get_returns. Qed.
End Acyclic.
