(* ===== verification/WorkspaceGraph.v ===== *)
(** * The workspace graph ([crates/workspace-graph])

The project graph and the task graph of a workspace behind one interface, and
the queries on them, whose results are kept by the text of the query. *)

From S2P Require Import Prelude Errors FileSystem Target GraphUtils Shapes Config Query Dag DiGraph NodeMaps.
From S2P Require Import ProjectGraph TaskGraph.

(** [WorkspaceGraph], without its caches *)
Record WorkspaceGraph {G : DiGraphOps nat DependencyScope} {D : DagOps nat DependencyScope}
    {T : DagOps nat TaskDependencyType} : Type := mkWorkspaceGraph {
  wg_projects : ProjectGraph G D;
  wg_tasks : TaskGraph G D T;
  wg_root : Path;
}.
Arguments WorkspaceGraph : clear implicits.

(** [WorkspaceGraph::new], with [WorkspaceCaches_new] *)
Definition WorkspaceGraph_new {G D T} (projects : ProjectGraph G D) (tasks : TaskGraph G D T)
  (root : Path) : WorkspaceGraph G D T := mkWorkspaceGraph _ _ _ projects tasks root.

(** The caches of a workspace graph, with those of its two graphs. *)
Record WorkspaceCaches : Type := mkWorkspaceCaches {
  wc_projects : ProjectCaches;
  wc_tasks : TaskCaches;
  project_query_cache : gmap string (list Id);
  task_query_cache : gmap string (list Target);
}.

Definition WorkspaceCaches_new : WorkspaceCaches :=
  mkWorkspaceCaches ProjectCaches_new TaskCaches_new ∅ ∅.

(** A method of one of the two graphs. *)
Definition on_projects {A} (m : stateful ProjectCaches A) : stateful WorkspaceCaches A := λ c,
  let '(r, p) := m (wc_projects c) in
  (r, mkWorkspaceCaches p (wc_tasks c) (project_query_cache c) (task_query_cache c)).

Definition on_tasks {A} (m : stateful TaskCaches A) : stateful WorkspaceCaches A := λ c,
  let '(r, t) := m (wc_tasks c) in
  (r, mkWorkspaceCaches (wc_projects c) t (project_query_cache c) (task_query_cache c)).

(** The order of [Id]s, which is that of their bytes, and of [Target]s, which is
    that of their [id]s. *)
Abbreviation Id_le := String.le.
Definition Target_le (a b : Target) : Prop := Id_le (id a) (id b).

#[export] Instance Target_le_dec : RelDecision Target_le := λ a b, decide (Id_le (id a) (id b)).

(** [result.unwrap_or_default()] *)
Definition unwrap_or_default (r : result bool) : bool := match r with Ok b => b | _ => false end.

(** [BTreeMap::insert] *)
Fixpoint tasks_insert (k : Id) (t : Task) (tasks : list (Id * Task)) : list (Id * Task) :=
  match tasks with
  | [] => [(k, t)]
  | (k', t') :: tasks' =>
      if decide (k = k') then (k, t) :: tasks'
      else if decide (Id_le k k') then (k, t) :: tasks
      else (k', t') :: tasks_insert k t tasks'
  end.

Definition set_tasks (p : Project) (tasks : list (Id * Task)) : Project :=
  mkProject (p_aliases p) (p_config p) (p_dependencies p) (p_file_groups p) (p_id p) (p_language p) (p_layer p)
    (p_root p) (p_source p) (p_stack p) (p_task_targets p) tasks (p_toolchains p).

Section Graph.
Context {G : DiGraphOps nat DependencyScope} {D : DagOps nat DependencyScope}
  {T : DagOps nat TaskDependencyType} `{TaskHost, RelativeTo, IdSyntax}.
Implicit Types (g : WorkspaceGraph G D T).

(** The depth of nested lookups of tasks: see [task_get_returns]. *)
Definition wg_fuel g : nat := S (dag_node_count (tg_graph (wg_tasks g))).

(** ** Lookups ([lib.rs]) *)

Definition wg_get_default_project g : stateful WorkspaceCaches Project :=
  on_projects (get_default (wg_projects g)).

Definition wg_get_project g (id_or_alias : string) : stateful WorkspaceCaches Project :=
  on_projects (ProjectGraph_get (wg_projects g) id_or_alias).

Definition wg_get_project_from_path g (starting_file : option Path) :
  stateful WorkspaceCaches Project :=
  on_projects (get_from_path (wg_projects g) starting_file).

Definition wg_get_projects g : stateful WorkspaceCaches (list Project) :=
  on_projects (ProjectGraph_get_all (wg_projects g)).

Definition wg_get_projects_unexpanded g : list Project := get_all_unexpanded (wg_projects g).

Definition wg_get_projects_by_id g (ids : list string) : stateful WorkspaceCaches (list Project) :=
  stateful_map (wg_get_project g) ids.

Definition wg_get_task g (target : Target) : stateful WorkspaceCaches Task :=
  on_tasks (TaskGraph_get (wg_fuel g) (wg_tasks g) target).

Definition wg_get_task_from_project g (project_id_or_alias task_id : string) :
  stateful WorkspaceCaches Task :=
  let project_id := resolve_id (wg_projects g) project_id_or_alias in
  target ← pure_result (Target_new project_id task_id);
  wg_get_task g target.

Definition wg_get_tasks_from_project g (project_id_or_alias : string) :
  stateful WorkspaceCaches (list Task) :=
  project ← wg_get_project g project_id_or_alias;
  all ← stateful_map (wg_get_task g) (p_task_targets project);
  mret (filter (λ t, is_internal t = false) all).

Definition wg_get_project_with_tasks g (id_or_alias : string) : stateful WorkspaceCaches Project :=
  project ← wg_get_project g id_or_alias;
  tasks ← wg_get_tasks_from_project g (p_id project);
  mret (set_tasks project
    (fold_left (λ acc task, tasks_insert (t_id task) task acc) tasks (p_tasks project))).

Definition wg_get_tasks_with_internal g : stateful WorkspaceCaches (list Task) :=
  on_tasks (TaskGraph_get_all (wg_fuel g) (wg_tasks g)).

Definition wg_get_tasks g : stateful WorkspaceCaches (list Task) :=
  tasks ← wg_get_tasks_with_internal g;
  mret (filter (λ t, is_internal t = false) tasks).

Definition wg_get_tasks_unexpanded_with_internal g : list Task :=
  task_get_all_unexpanded (wg_tasks g).

Definition wg_get_tasks_unexpanded g : list Task :=
  filter (λ t, is_internal t = false) (task_get_all_unexpanded (wg_tasks g)).

(** ** Queries of projects ([query_projects.rs]) *)

Section Queries.
Context `{QueryHost}.

(** [self.tasks.get_many(&project.task_targets)?.iter().any(f)] *)
Definition any_task g (project : Project) (f : Task → bool) : stateful WorkspaceCaches bool :=
  tasks ← on_tasks (get_many (wg_fuel g) (wg_tasks g) (p_task_targets project));
  mret (existsb f tasks).

(** The [match field] of [does_project_match_criteria]. *)
Definition project_matches g (project : Project) (field : Field) (op : ComparisonOperator) :
  stateful WorkspaceCaches bool :=
  match field with
  | FLanguage langs => mret (matches_enum op langs (p_language project))
  | FProject ids =>
      pure_result (
        let? matches := Condition_matches op ids (p_id project) in
        if matches then Ok true
        else if decide (p_aliases project = []) then Ok false
        else matches_list op ids (p_aliases project))
  | FProjectAlias aliases =>
      if decide (p_aliases project = []) then mret false
      else pure_result (matches_list op aliases (p_aliases project))
  | FProjectLayer types => mret (matches_enum op types (p_layer project))
  | FProjectId ids => pure_result (Condition_matches op ids (p_id project))
  | FProjectSource sources => pure_result (Condition_matches op sources (p_source project))
  | FProjectStack types => mret (matches_enum op types (p_stack project))
  | FProjectTag tags => pure_result (matches_list op tags (config_tags (p_config project)))
  | FTask ids =>
      mret (existsb (λ target, unwrap_or_default (
        let? task_id := get_task_id target in Condition_matches op ids task_id))
        (p_task_targets project))
  | FTaskTag tags =>
      any_task g project (λ task, unwrap_or_default (matches_list op tags (t_tags task)))
  | FTaskToolchain ids =>
      any_task g project (λ task, unwrap_or_default (matches_list op ids
        (flat_map (λ id, let '(stable_id, unstable_id) := stable_and_unstable id in
                         [stable_id; unstable_id]) (t_toolchains task))))
  | FTaskType types => any_task g project (λ task, matches_enum op types (t_type_of task))
  end.

(** [does_project_match_criteria] *)
Definition does_project_match_criteria g (project : Project) (query : Criteria) :
  stateful WorkspaceCaches bool := does_match_criteria (project_matches g project) query.

(** The loop over all projects of [internal_query_projects]. *)
Fixpoint matching_projects g (query : Criteria) (projects : list Project) :
  stateful WorkspaceCaches (list Id) :=
  match projects with
  | [] => mret []
  | project :: projects' =>
      matches ← does_project_match_criteria g project query;
      ids ← matching_projects g query projects';
      mret (if matches : bool then p_id project :: ids else ids)
  end.

(** [internal_query_projects]; a query without its input is a panic. *)
Definition internal_query_projects g (query : Criteria) : stateful WorkspaceCaches (list Id) := λ c,
  match criteria_input query with
  | None => (Err (Foreign "Querying the project graph requires a query input string."), c)
  | Some cache_key =>
      match project_query_cache c !! cache_key with
      | Some ids => (Ok ids, c)
      | None =>
          let '(r, c') := matching_projects g query (get_all_unexpanded (wg_projects g)) c in
          match r with
          | Ok project_ids =>
              let ids := merge_sort Id_le project_ids in
              (Ok ids, mkWorkspaceCaches (wc_projects c') (wc_tasks c')
                         (<[cache_key := ids]> (project_query_cache c')) (task_query_cache c'))
          | _ => (r, c')
          end
      end
  end.

(** [query_projects] *)
Definition wg_query_projects g (query : Criteria) : stateful WorkspaceCaches (list Project) :=
  ids ← internal_query_projects g query;
  stateful_map (wg_get_project g) ids.

(** ** Queries of tasks ([query_tasks.rs]) *)

(** [get_task_parent_project] *)
Definition get_task_parent_project g (task : Task) : result (option Project) :=
  match get_project_id (t_target task) with
  | Ok project_id => let? project := get_unexpanded (wg_projects g) project_id in Ok (Some project)
  | _ => Ok None
  end.

(** The [match field] of [does_task_match_criteria]. *)
Definition task_matches g (task : Task) (field : Field) (op : ComparisonOperator) : result bool :=
  match field with
  | FProject ids =>
      match get_project_id (t_target task) with
      | Ok project_id =>
          let? matches := Condition_matches op ids project_id in
          if matches then Ok true
          else
            let? parent := get_task_parent_project g task in
            match parent with
            | Some project =>
                if decide (p_aliases project = []) then Ok false
                else matches_list op ids (p_aliases project)
            | None => Ok false
            end
      | _ => Ok false
      end
  | FTask ids => Condition_matches op ids (t_id task)
  | FTaskTag tags => matches_list op tags (t_tags task)
  | FTaskToolchain ids => matches_list op ids (t_toolchains task)
  | FTaskType types => Ok (matches_enum op types (t_type_of task))
  | _ => Ok false
  end.

(** [does_task_match_criteria] *)
Definition does_task_match_criteria g (task : Task) (query : Criteria) :
  stateful WorkspaceCaches bool :=
  does_match_criteria (λ field op, pure_result (task_matches g task field op)) query.

(** The loop over all tasks of [internal_query_tasks]. *)
Fixpoint matching_tasks g (query : Criteria) (tasks : list Task) :
  stateful WorkspaceCaches (list Target) :=
  match tasks with
  | [] => mret []
  | task :: tasks' =>
      matches ← does_task_match_criteria g task query;
      targets ← matching_tasks g query tasks';
      mret (if matches : bool then t_target task :: targets else targets)
  end.

(** [internal_query_tasks] *)
Definition internal_query_tasks g (query : Criteria) : stateful WorkspaceCaches (list Target) := λ c,
  match criteria_input query with
  | None => (Err (Foreign "Querying the task graph requires a query input string."), c)
  | Some cache_key =>
      match task_query_cache c !! cache_key with
      | Some targets => (Ok targets, c)
      | None =>
          let '(r, c') := matching_tasks g query (task_get_all_unexpanded (wg_tasks g)) c in
          match r with
          | Ok targets =>
              let targets := merge_sort Target_le targets in
              (Ok targets, mkWorkspaceCaches (wc_projects c') (wc_tasks c') (project_query_cache c')
                             (<[cache_key := targets]> (task_query_cache c')))
          | _ => (r, c')
          end
      end
  end.

(** [query_tasks] *)
Definition wg_query_tasks g (query : Criteria) : stateful WorkspaceCaches (list Task) :=
  targets ← internal_query_tasks g query;
  stateful_map (wg_get_task g) targets.
End Queries.
End Graph.
