(* ===== verification/WorkspaceGraphFacts.v ===== *)
(** * Facts on the workspace graph

With the caches of its two graphs and of its queries, a workspace graph
returns what it would return without them, and a query returns the projects or
the tasks that its text describes. *)

From S2P Require Import Prelude Errors FileSystem Target GraphUtils Shapes Config Query Dag DiGraph NodeMaps.
From S2P Require Import ProjectGraph ProjectGraphFacts TaskGraph TaskGraphFacts WorkspaceGraph.

(** The values of a map that satisfy [P], by their keys. *)
Lemma filter_values `{Countable K} {N V} (m : gmap K N) (val : N → V) (key : V → K) (P : V → Prop)
    `{∀ x, Decision (P x)} :
  (∀ k n, m !! k = Some n → key (val n) = k) →
  let found := key <$> filter P (val <$> (map_to_list m).*2) in
  NoDup found ∧ ∀ k, k ∈ found ↔ ∃ n, m !! k = Some n ∧ P (val n).
Proof.
  intros Hkey found. split.
  - apply (sublist_NoDup _ (key <$> (val <$> (map_to_list m).*2))).
    + rewrite <- !list_fmap_compose.
      rewrite (list_fmap_ext _ fst); [apply NoDup_fst_map_to_list|].
      intros i [k n] Hi. cbn. apply Hkey, elem_of_map_to_list. by eapply list_elem_of_lookup_2.
    + apply fmap_sublist, sublist_filter.
  - intros k. unfold found. rewrite list_elem_of_fmap. setoid_rewrite list_elem_of_filter.
    setoid_rewrite list_elem_of_fmap. setoid_rewrite list_elem_of_fmap. split.
    + intros (v & -> & HP & n & -> & [k' n'] & -> & Hin). apply elem_of_map_to_list in Hin. cbn in *.
      rewrite (Hkey _ _ Hin). eauto.
    + intros (n & Hn & HP). exists (val n). rewrite (Hkey _ _ Hn). split; [done|]. split; [done|].
      exists n. split; [done|]. exists (k, n). split; [done|by apply elem_of_map_to_list].
Qed.

Lemma elem_of_values `{Countable K} {N V} (m : gmap K N) (val : N → V) x :
  x ∈ val <$> (map_to_list m).*2 ↔ ∃ k n, m !! k = Some n ∧ x = val n.
Proof.
  rewrite list_elem_of_fmap. setoid_rewrite list_elem_of_fmap. split.
  - intros (n & -> & [k n'] & -> & Hin). apply elem_of_map_to_list in Hin. eauto.
  - intros (k & n & Hn & ->). exists n. split; [done|]. exists (k, n). by rewrite elem_of_map_to_list.
Qed.

Section Facts.
Context {G : DiGraphOps nat DependencyScope} {D : DagOps nat DependencyScope}
  {LGP : DiGraphLaws G} {LDP : DagLaws D}
  {T : DagOps nat TaskDependencyType} {GT : DiGraphOps nat TaskDependencyType}
  {C : DagGraph T GT} {LT : DagLaws T} {LG : DiGraphLaws GT} {LC : DagGraphLaws C LT LG}
  `{TaskHost, RelativeTo, IdSyntax, QueryHost}.
Context (g : WorkspaceGraph G D T).

(** The same lookups and queries, without caches. *)
Abbreviation ws_project := (pure_get (wg_projects g)).
Abbreviation ws_task := (expanded_task (wg_tasks g)).

Definition pure_any_task (project : Project) (f : Task → bool) : result bool :=
  let? tasks := omap_list ws_task (p_task_targets project) in Ok (existsb f tasks).

Definition project_leaf (project : Project) (field : Field) (op : ComparisonOperator) : result bool :=
  match field with
  | FTaskTag tags =>
      pure_any_task project (λ task, unwrap_or_default (matches_list op tags (t_tags task)))
  | FTaskToolchain ids =>
      pure_any_task project (λ task, unwrap_or_default (matches_list op ids
        (flat_map (λ id, let '(stable_id, unstable_id) := stable_and_unstable id in
                         [stable_id; unstable_id]) (t_toolchains task))))
  | FTaskType types => pure_any_task project (λ task, matches_enum op types (t_type_of task))
  | _ => (project_matches g project field op WorkspaceCaches_new).1
  end.

(** The elements of [l] that match the query. *)
Fixpoint pure_matching {A B} (leaf : A → Field → ComparisonOperator → result bool) (out : A → B)
  (query : Criteria) (l : list A) : result (list B) :=
  match l with
  | [] => Ok []
  | x :: l' =>
      let? matches := eval_criteria (leaf x) query in
      let? found := pure_matching leaf out query l' in
      Ok (if matches : bool then out x :: found else found)
  end.

Definition pure_query_projects (query : Criteria) : result (list Id) :=
  let? ids := pure_matching project_leaf p_id query (get_all_unexpanded (wg_projects g)) in
  Ok (merge_sort Id_le ids).

Definition pure_query_tasks (query : Criteria) : result (list Target) :=
  let? targets := pure_matching (task_matches g) t_target query (task_get_all_unexpanded (wg_tasks g)) in
  Ok (merge_sort Target_le targets).

(** The caches hold what the lookups and the queries return. *)
Record ws_caches_ok (c : WorkspaceCaches) : Prop := {
  wo_projects : caches_ok (wg_projects g) (wc_projects c);
  wo_tasks : task_caches_ok (wg_tasks g) (wc_tasks c);
  wo_project_query : ∀ key ids, project_query_cache c !! key = Some ids →
    ∃ q, build_query key = Ok q ∧ pure_query_projects q = Ok ids;
  wo_task_query : ∀ key targets, task_query_cache c !! key = Some targets →
    ∃ q, build_query key = Ok q ∧ pure_query_tasks q = Ok targets;
}.

Lemma ws_caches_new : ws_caches_ok WorkspaceCaches_new.
Proof. split; [apply caches_new_ok|apply cells_new_ok|done|done]. Qed.

(** What the two graphs do, the workspace graph does. *)
Lemma on_projects_returns {A} (m : stateful ProjectCaches A) r :
  returns (caches_ok (wg_projects g)) m r → returns ws_caches_ok (on_projects m) r.
Proof.
  intros Hm c [Hp Ht Hq Hq']. unfold on_projects. destruct (Hm _ Hp) as [Hr Hp'].
  destruct (m (wc_projects c)) as [r' p]. by cbn in *.
Qed.

Lemma on_tasks_returns {A} (m : stateful TaskCaches A) r :
  returns (task_caches_ok (wg_tasks g)) m r → returns ws_caches_ok (on_tasks m) r.
Proof.
  intros Hm c [Hp Ht Hq Hq']. unfold on_tasks. destruct (Hm _ Ht) as [Hr Ht'].
  destruct (m (wc_tasks c)) as [r' t]. by cbn in *.
Qed.

Context (ok : tg_ok (wg_tasks g)) (linked : lookups_linked (wg_tasks g)).

Lemma ws_get_project_returns id : returns ws_caches_ok (wg_get_project g id) (ws_project id).
Proof. apply on_projects_returns, get_returns. Qed.

Lemma ws_get_task_returns target : returns ws_caches_ok (wg_get_task g target) (ws_task target).
Proof. by apply on_tasks_returns, task_get_returns. Qed.

Lemma any_task_returns project f :
  returns ws_caches_ok (any_task g project f) (pure_any_task project f).
Proof.
  apply returns_bind; [by apply on_tasks_returns, get_many_returns|]. intros tasks _. apply returns_ret.
Qed.

Lemma project_matches_returns project field op :
  returns ws_caches_ok (project_matches g project field op) (project_leaf project field op).
Proof.
  destruct field; cbn [project_matches project_leaf]; try apply any_task_returns;
    try apply returns_pure; try apply returns_ret.
  destruct (decide _); [apply returns_ret|apply returns_pure].
Qed.

Lemma matching_projects_returns q projects :
  returns ws_caches_ok (matching_projects g q projects) (pure_matching project_leaf p_id q projects).
Proof.
  induction projects as [|p ps IH]; [apply returns_ret|]. cbn.
  apply returns_bind; [apply does_match_returns, project_matches_returns|]. intros matches _.
  apply returns_bind; [exact IH|]. intros ids _. apply returns_ret.
Qed.

Lemma matching_tasks_returns q tasks :
  returns ws_caches_ok (matching_tasks g q tasks) (pure_matching (task_matches g) t_target q tasks).
Proof.
  induction tasks as [|t ts IH]; [apply returns_ret|]. cbn.
  apply returns_bind; [apply does_match_returns; intros; apply returns_pure|]. intros matches _.
  apply returns_bind; [exact IH|]. intros ids _. apply returns_ret.
Qed.

Lemma build_query_input input q : build_query input = Ok q → criteria_input q = Some input.
Proof. unfold build_query. destruct (decide _); [done|]. intros Hb. by step_ok. Qed.

Lemma internal_query_projects_returns input q :
  build_query input = Ok q →
  returns ws_caches_ok (internal_query_projects g q) (pure_query_projects q).
Proof.
  intros Hq c Hc. unfold internal_query_projects. rewrite (build_query_input _ _ Hq).
  destruct (project_query_cache c !! input) as [ids|] eqn:Hi.
  - destruct (wo_project_query c Hc _ _ Hi) as (q' & Hq' & Hids).
    rewrite Hq' in Hq. simplify_eq. by rewrite Hids.
  - destruct (matching_projects_returns q (get_all_unexpanded (wg_projects g)) c Hc) as [Hr Hc'].
    destruct (matching_projects g q _ c) as [r c']. cbn in Hr, Hc'. unfold pure_query_projects.
    rewrite <- Hr. destruct r as [ids|e|]; [|done..]. split; [done|].
    destruct Hc' as [Hp Ht Hpq Htq]. split; [done|done| |done]. cbn. intros key ids'.
    rewrite lookup_insert_Some. intros [[<- <-]|[_ Hl]]; [|by apply Hpq]. exists q.
    split; [done|]. unfold pure_query_projects. by rewrite <- Hr.
Qed.

Lemma internal_query_tasks_returns input q :
  build_query input = Ok q →
  returns ws_caches_ok (internal_query_tasks g q) (pure_query_tasks q).
Proof.
  intros Hq c Hc. unfold internal_query_tasks. rewrite (build_query_input _ _ Hq).
  destruct (task_query_cache c !! input) as [ids|] eqn:Hi.
  - destruct (wo_task_query c Hc _ _ Hi) as (q' & Hq' & Hids).
    rewrite Hq' in Hq. simplify_eq. by rewrite Hids.
  - destruct (matching_tasks_returns q (task_get_all_unexpanded (wg_tasks g)) c Hc) as [Hr Hc'].
    destruct (matching_tasks g q _ c) as [r c']. cbn in Hr, Hc'. unfold pure_query_tasks.
    rewrite <- Hr. destruct r as [ids|e|]; [|done..]. split; [done|].
    destruct Hc' as [Hp Ht Hpq Htq]. split; [done|done|done|]. cbn. intros key ids'.
    rewrite lookup_insert_Some. intros [[<- <-]|[_ Hl]]; [|by apply Htq]. exists q.
    split; [done|]. unfold pure_query_tasks. by rewrite <- Hr.
Qed.

Lemma query_projects_returns input q :
  build_query input = Ok q →
  returns ws_caches_ok (wg_query_projects g q)
    (let? ids := pure_query_projects q in omap_list ws_project ids).
Proof.
  intros Hq. apply returns_bind; [by eapply internal_query_projects_returns|]. intros ids _.
  apply returns_map. intros id _. apply ws_get_project_returns.
Qed.

Lemma query_tasks_returns input q :
  build_query input = Ok q →
  returns ws_caches_ok (wg_query_tasks g q)
    (let? targets := pure_query_tasks q in omap_list ws_task targets).
Proof.
  intros Hq. apply returns_bind; [by eapply internal_query_tasks_returns|]. intros ids _.
  apply returns_map. intros id _. apply ws_get_task_returns.
Qed.

(** ** What a query finds *)

Section Found.
Context {A B : Type} (leaf : A → Field → ComparisonOperator → result bool) (out : A → B).
Context (leaf_total : ∀ x field op, leaf x field op ≠ OutOfFuel).

Definition leaf_holds (x : A) (field : Field) (op : ComparisonOperator) : bool :=
  unwrap_or_default (leaf x field op).

Lemma leaf_holds_spec x field op :
  leaf x field op = Ok (leaf_holds x field op) ∨ ∃ e, leaf x field op = Err e.
Proof.
  unfold leaf_holds. pose proof (leaf_total x field op).
  destruct (leaf x field op); [by left|right; eauto|done].
Qed.

Lemma pure_matching_spec input nodes q l :
  parse_query input = Ok nodes → build_query input = Ok q →
  match pure_matching leaf out q l with
  | Ok found => found = out <$> filter (λ x, query_holds (leaf_holds x) nodes = true) l
  | Err e => ∃ x field op, x ∈ l ∧ leaf x field op = Err e
  | OutOfFuel => False
  end.
Proof.
  intros Hp Hb. induction l as [|x l IH]; [done|]. cbn [pure_matching].
  destruct (build_query_meaning _ _ _ _ _ (leaf_holds_spec x) Hp Hb) as [-> | (f & o & e & He & ->)];
    cbn [obind]; [|exists x, f, o; split; [by left|done]].
  destruct (pure_matching leaf out q l) as [found|e|]; [|destruct IH as (y & f & o & Hy & He); exists y, f, o;
    split; [by right|done]|done].
  cbn [obind]. rewrite filter_cons. subst found. by destruct (query_holds _ _); case_decide.
Qed.
End Found.

(** The libraries behind tokens and globs return. *)
Record host_returns : Prop := {
  hr_tokens : tokens_end (wg_tasks g);
  hr_globs : ∀ patterns, QueryGlobs_new patterns ≠ OutOfFuel;
}.

Context (hosts : host_returns).

Lemma Condition_matches_total op haystack needle : Condition_matches op haystack needle ≠ OutOfFuel.
Proof.
  destruct op; cbn; try done; pose proof (hr_globs hosts haystack); by destruct (QueryGlobs_new haystack).
Qed.

Lemma matches_list_total op haystack needles : matches_list op haystack needles ≠ OutOfFuel.
Proof.
  induction needles as [|x l IH]; cbn; [done|]. pose proof (Condition_matches_total op haystack x).
  by destruct (Condition_matches op haystack x) as [[]| |].
Qed.

Lemma pure_any_task_total project f : pure_any_task project f ≠ OutOfFuel.
Proof.
  unfold pure_any_task. enough (omap_list ws_task (p_task_targets project) ≠ OutOfFuel) as Ho by
    by destruct (omap_list ws_task _).
  apply omap_list_total. intros target _. apply expanded_task_total; [done|done|apply hosts].
Qed.

Lemma project_leaf_total project field op : project_leaf project field op ≠ OutOfFuel.
Proof.
  destruct field; cbn; try apply pure_any_task_total; try apply Condition_matches_total;
    try apply matches_list_total; try done.
  - pose proof (Condition_matches_total op values (p_id project)).
    destruct (Condition_matches op values (p_id project)) as [[]| |]; cbn; try done.
    case_decide; [done|apply matches_list_total].
  - case_decide; [done|apply matches_list_total].
Qed.

Lemma task_matches_total task field op : task_matches g task field op ≠ OutOfFuel.
Proof.
  destruct field; cbn; try apply Condition_matches_total; try apply matches_list_total; try done.
  unfold get_task_parent_project. destruct (get_project_id (t_target task)) as [id| |]; try done.
  pose proof (Condition_matches_total op values id).
  destruct (Condition_matches op values id) as [[]| |]; cbn; try done.
  unfold get_unexpanded. destruct (pg_nodes (wg_projects g) !! resolve_id (wg_projects g) id); cbn; [|done].
  case_decide; [done|apply matches_list_total].
Qed.

(** *** What a comparison says of a project *)

(** The tasks of a project, expanded. *)
Definition tasks_of (project : Project) (tasks : list Task) : Prop :=
  Forall2 (λ target task, ws_task target = Ok task) (p_task_targets project) tasks.

(** The fields of the query language. A field with several values, such as the tags, compares
    if one of its values does; this is also how negated operators are read. *)
Inductive project_describes (project : Project) : string → ComparisonOperator → list string → Prop :=
| desc_language op values :
    compares_enum LanguageType_from_str op values (p_language project) →
    project_describes project "language" op values
| desc_project op values name :
    name ∈ p_id project :: p_aliases project → compares op values name →
    project_describes project "project" op values
| desc_alias field op values alias :
    field ∈ ["projectAlias"; "projectAliases"]%string → alias ∈ p_aliases project →
    compares op values alias → project_describes project field op values
| desc_layer op values :
    compares_enum LayerType_from_str op values (p_layer project) →
    project_describes project "projectLayer" op values
| desc_id op values :
    compares op values (p_id project) → project_describes project "projectId" op values
| desc_source op values :
    compares op values (p_source project) → project_describes project "projectSource" op values
| desc_stack op values :
    compares_enum StackType_from_str op values (p_stack project) →
    project_describes project "projectStack" op values
| desc_tag field op values tag :
    field ∈ ["projectTag"; "projectTags"; "tag"]%string → tag ∈ config_tags (p_config project) →
    compares op values tag → project_describes project field op values
| desc_task op values target id :
    target ∈ p_task_targets project → get_task_id target = Ok id → compares op values id →
    project_describes project "task" op values
| desc_task_tag field op values tasks task tag :
    field ∈ ["taskTag"; "taskTags"]%string → tasks_of project tasks → task ∈ tasks →
    tag ∈ t_tags task → compares op values tag → project_describes project field op values
| desc_task_toolchain field op values tasks task id name :
    field ∈ ["taskToolchain"; "taskToolchains"]%string → tasks_of project tasks → task ∈ tasks →
    id ∈ t_toolchains task → name ∈ [Id_stable id; Id_unstable id] → compares op values name →
    project_describes project field op values
| desc_task_type op values tasks task :
    tasks_of project tasks → task ∈ tasks →
    compares_enum TaskType_from_str op values (t_type_of task) →
    project_describes project "taskType" op values.

Lemma unwrap_true r : unwrap_or_default r = true ↔ r = Ok true.
Proof. destruct r as [[]| |]; cbn; split; congruence. Qed.

Lemma any_task_true project f :
  unwrap_or_default (pure_any_task project f) = true ↔
  ∃ tasks task, tasks_of project tasks ∧ task ∈ tasks ∧ f task = true.
Proof.
  rewrite unwrap_true. unfold pure_any_task, tasks_of. setoid_rewrite <- omap_list_Ok.
  destruct (omap_list _ _) as [tasks|e|]; cbn; [|by split; [|intros (? & ? & ? & _)]..]. split.
  - intros [= (task & Hin%list_elem_of_In & Hf)%existsb_exists]. eauto.
  - intros (? & task & [= <-] & Hin%list_elem_of_In & Hf). f_equal. apply existsb_exists. eauto.
Qed.

Lemma enum_field {E} `{EqDecision E} (from_str : string → option E) (mk : list E → Field) project field op values v :
  (∀ l, leaf_holds project_leaf project (mk l) op = matches_enum op l v) →
  match (let? l := build_criteria_enum from_str field op values in Ok (mk l)) with
  | Ok f => leaf_holds project_leaf project f op | _ => false end = true ↔
  compares_enum from_str op values v.
Proof.
  intros Hmk. rewrite <- (matches_enum_spec from_str field).
  destruct (build_criteria_enum _ _ _ _); cbn; [by rewrite Hmk|done..].
Qed.

Lemma type_field project field op values :
  match (let? l := build_criteria_enum TaskType_from_str field op values in Ok (FTaskType l)) with
  | Ok f => leaf_holds project_leaf project f op | _ => false end = true ↔
  ∃ tasks task, tasks_of project tasks ∧ task ∈ tasks ∧ compares_enum TaskType_from_str op values (t_type_of task).
Proof.
  setoid_rewrite <- (matches_enum_spec TaskType_from_str field).
  destruct (build_criteria_enum _ _ _ _) as [l|e|]; cbn; [apply any_task_true|by split; [|intros (? & ? & _ & _ & ?)]..].
Qed.

(** The field that is built for one of the names in [Hf]. *)
Ltac by_field Hf :=
  lazymatch type of Hf with _ ∈ ?names =>
    match goal with |- context [build_field ?field ?op ?values] =>
      let r := eval cbv in (head names) in
      match r with Some ?name =>
        let f := eval vm_compute in (build_field name op values) in
        assert (build_field field op values = f) as -> by
          (repeat (apply elem_of_cons in Hf as [->|Hf]; [reflexivity|]); by apply elem_of_nil in Hf)
      end
    end
  end.

(** A comparison of a text means what it says. *)
Lemma project_leaf_describes project field op values :
  match build_field field op values with Ok f => leaf_holds project_leaf project f op | _ => false end = true ↔
  project_describes project field op values.
Proof.
  split.
  - unfold build_field. repeat case_decide; [..|done]; try subst field.
    + rewrite (enum_field _ _ _ _ _ _ (p_language project)) by done. apply desc_language.
    + unfold leaf_holds. rewrite unwrap_true. cbn.
      destruct (Condition_matches op values (p_id project)) as [[]| |] eqn:Hm; cbn; [| |done..]; intros Hn.
      * apply Condition_matches_spec in Hm. eapply desc_project; [by left|done].
      * case_decide; [done|]. apply matches_list_spec in Hn as (name & Hin & Hc). eapply desc_project; [by right|done].
    + unfold leaf_holds. rewrite unwrap_true. cbn. case_decide; [done|].
      intros (alias & Hin & Hc)%matches_list_spec. by eapply desc_alias.
    + rewrite (enum_field _ _ _ _ _ _ (p_layer project)) by done. apply desc_layer.
    + unfold leaf_holds. rewrite unwrap_true. intros Hm%Condition_matches_spec. by apply desc_id.
    + unfold leaf_holds. rewrite unwrap_true. intros Hm%Condition_matches_spec. by apply desc_source.
    + rewrite (enum_field _ _ _ _ _ _ (p_stack project)) by done. apply desc_stack.
    + unfold leaf_holds. rewrite unwrap_true. intros (tag & Hin & Hc)%matches_list_spec. by eapply desc_tag.
    + unfold leaf_holds. cbn. intros (target & Hin%list_elem_of_In & Hm)%existsb_exists.
      apply unwrap_true in Hm. destruct (get_task_id target) as [id| |] eqn:Hid; [|done..]. cbn in Hm.
      apply Condition_matches_spec in Hm. by eapply desc_task.
    + intros (tasks & task & Ht & Hin & Hm)%any_task_true. apply unwrap_true, matches_list_spec in Hm as (tag & ? & ?).
      by eapply desc_task_tag.
    + intros (tasks & task & Ht & Hin & Hm)%any_task_true. apply unwrap_true, matches_list_spec in Hm as (name & Hn & ?).
      apply list_elem_of_In, in_flat_map in Hn as (id & Hid%list_elem_of_In & Hn%list_elem_of_In).
      by eapply desc_task_toolchain.
    + rewrite type_field. intros (tasks & task & ? & ? & ?). by eapply desc_task_type.
  - intros Hd. destruct Hd as [op values Hc|op values name Hn Hc|field op values alias Hf Hin Hc|op values Hc|op values Hc
      |op values Hc|op values Hc|field op values tag Hf Hin Hc|op values target id Hin Hid Hc
      |field op values tasks task tag Hf Ht Hin Htag Hc|field op values tasks task id name Hf Ht Hin Hid Hn Hc
      |op values tasks task Ht Hin Hc]; try by_field Hf.
    + exact (proj2 (enum_field LanguageType_from_str FLanguage project "language" op values (p_language project) (λ _, eq_refl)) Hc).
    + apply unwrap_true. cbn. destruct (Condition_matches op values (p_id project)) as [[]|e|] eqn:Hm; cbn; [done|..].
      * assert (name ∈ p_aliases project) as Hin.
        { apply elem_of_cons in Hn as [->|?]; [|done]. apply Condition_matches_spec in Hc. congruence. }
        rewrite decide_False by (by intros Hnil; rewrite Hnil in Hin; apply elem_of_nil in Hin).
        apply matches_list_spec. eauto.
      * apply Condition_matches_spec in Hc. by destruct (Condition_matches_uniform op values name (p_id project) e Hc).
      * apply Condition_matches_spec in Hc. by destruct (Condition_matches_uniform op values name (p_id project) (Foreign "") Hc).
    + apply unwrap_true. cbn. rewrite decide_False by (by intros Hnil; rewrite Hnil in Hin; apply elem_of_nil in Hin).
      apply matches_list_spec. eauto.
    + exact (proj2 (enum_field LayerType_from_str FProjectLayer project "projectLayer" op values (p_layer project) (λ _, eq_refl)) Hc).
    + by apply unwrap_true, Condition_matches_spec.
    + by apply unwrap_true, Condition_matches_spec.
    + exact (proj2 (enum_field StackType_from_str FProjectStack project "projectStack" op values (p_stack project) (λ _, eq_refl)) Hc).
    + apply unwrap_true, matches_list_spec. eauto.
    + apply existsb_exists. exists target. split; [by apply list_elem_of_In|]. apply unwrap_true. rewrite Hid. cbn.
      by apply Condition_matches_spec.
    + apply any_task_true. exists tasks, task. split_and!; [done..|]. apply unwrap_true, matches_list_spec. eauto.
    + apply any_task_true. exists tasks, task. split_and!; [done..|]. apply unwrap_true, matches_list_spec.
      exists name. split; [|done]. apply list_elem_of_In, in_flat_map. exists id. split; by apply list_elem_of_In.
    + apply (proj2 (type_field project "taskType" op values)). eauto.
Qed.

(** A comparison fails only on a glob or on the expansion of a task of the project. *)
Definition leaf_error (project : Project) (e : Report) : Prop :=
  (∃ patterns, QueryGlobs_new patterns = Err e) ∨
  (∃ target, target ∈ p_task_targets project ∧ ws_task target = Err e).

Lemma project_leaf_Err project field op e : project_leaf project field op = Err e → leaf_error project e.
Proof.
  assert (∀ f, pure_any_task project f = Err e → leaf_error project e) as Hany.
  { intros f. unfold pure_any_task. destruct (omap_list _ _) as [tasks|e'|] eqn:Ht; cbn; [done| |done]. intros [= ->].
    right. apply omap_list_Err in Ht as (target & ? & ?). eauto. }
  destruct field; cbn; try done; try apply Hany; try (intros Hm%Condition_matches_Err; by left);
    try (intros Hm%matches_list_Err; by left).
  - destruct (Condition_matches op values (p_id project)) as [[]|e'|] eqn:Hm; cbn; [done| | |done].
    + case_decide; [done|]. intros Hl%matches_list_Err. by left.
    + intros [= ->]. apply Condition_matches_Err in Hm. by left.
  - case_decide; [done|]. intros Hl%matches_list_Err. by left.
Qed.

(** [project] is described by the query. *)
Definition project_described (nodes : list AstNode) (project : Project) : Prop :=
  query_means (project_describes project) nodes.

Lemma project_described_holds nodes project :
  query_holds (leaf_holds project_leaf project) nodes = true ↔ project_described nodes project.
Proof. apply query_means_holds. intros field op values. apply project_leaf_describes. Qed.

Definition task_described (nodes : list AstNode) (task : Task) : Prop :=
  query_holds (leaf_holds (task_matches g) task) nodes = true.

#[local] Instance Target_le_total : Total Target_le.
Proof. intros a b. apply (String.le_total (id a) (id b)). Qed.

#[local] Instance Target_le_trans : Transitive Target_le.
Proof. intros a b c. unfold Target_le. apply transitivity. Qed.

(** The projects a query finds. *)
Lemma query_projects_found input nodes q :
  pg_ok (wg_projects g) → parse_query input = Ok nodes → build_query input = Ok q →
  match pure_query_projects q with
  | Ok ids => StronglySorted Id_le ids ∧ NoDup ids ∧
      ∀ id, id ∈ ids ↔ ∃ node, pg_nodes (wg_projects g) !! id = Some node ∧
        project_described nodes (pn_project node)
  | Err e => ∃ id node, pg_nodes (wg_projects g) !! id = Some node ∧ leaf_error (pn_project node) e
  | OutOfFuel => False
  end.
Proof.
  intros Hok Hp Hb. unfold pure_query_projects.
  pose proof (pure_matching_spec project_leaf p_id project_leaf_total input nodes q
    (get_all_unexpanded (wg_projects g)) Hp Hb) as Hm.
  destruct (pure_matching project_leaf p_id q _) as [found|e|]; [|..|done]; cbn.
  - split; [by apply StronglySorted_merge_sort; apply _|]. setoid_rewrite merge_sort_Permutation. subst found.
    setoid_rewrite <- project_described_holds. apply filter_values. intros id node. by apply project_own_id.
  - destruct Hm as (p & f & o & Hin & He). apply elem_of_values in Hin as (id & n & Hn & ->).
    exists id, n. split; [done|]. by eapply project_leaf_Err.
Qed.

(** The tasks a query finds. *)
Lemma query_tasks_found input nodes q :
  parse_query input = Ok nodes → build_query input = Ok q →
  match pure_query_tasks q with
  | Ok targets => StronglySorted Target_le targets ∧ NoDup targets ∧
      ∀ target, target ∈ targets ↔ ∃ node, tg_nodes (wg_tasks g) !! target = Some node ∧
        task_described nodes (tn_task node)
  | Err e => ∃ target node field op, tg_nodes (wg_tasks g) !! target = Some node ∧
      task_matches g (tn_task node) field op = Err e
  | OutOfFuel => False
  end.
Proof.
  intros Hp Hb. unfold pure_query_tasks.
  pose proof (pure_matching_spec (task_matches g) t_target task_matches_total input nodes q
    (task_get_all_unexpanded (wg_tasks g)) Hp Hb) as Hm.
  destruct (pure_matching _ t_target q _) as [found|e|]; [|..|done]; cbn.
  - split; [by apply StronglySorted_merge_sort; apply _|]. setoid_rewrite merge_sort_Permutation. subst found.
    apply filter_values. intros target node Hn. by apply (so_key _ _ _ _ _ _ (tg_maps _ ok)).
  - destruct Hm as (p & f & o & Hin & He). apply elem_of_values in Hin as (id & n & Hn & ->).
    by exists id, n, f, o.
Qed.
End Facts.
