(* ===== verification/WorkspaceAsync.v ===== *)
(** * The asynchronous workspace builder ([crates/workspace])

[WorkspaceProjectsBuilder] ([projects_builder.rs]) builds the projects in a pool
and links them in the order of their identifiers, [WorkspaceTasksBuilder]
([tasks_builder.rs]) links their tasks, and [WorkspaceBuilderAsync]
([workspace_builder_async.rs]) makes the workspace graph of both. *)

From S2P Require Import Prelude Errors FileSystem PooledTasks Target GraphUtils Config Constraints Dag DiGraph.
From S2P Require Import NodeMaps ProjectGraph TaskDeps ProjectBuilder WorkspaceData TaskGraph.
From S2P Require Import WorkspaceGraph Shapes.

(** ** [WorkspaceTasksQuerent] ([tasks_querent.rs]) *)

Section Querent.
Context (aliases_to_ids : gmap string Id) (ids_to_target_options : gmap Id (gmap Target TaskOptions))
  (tags_to_ids : gmap Id (list Id)) (tags_to_targets : gmap Id (list Target))
  (target_to_has_outputs : gmap Target bool).

(** Whether a task of a project is in the scope, in [query_tasks]. *)
Definition task_in_scope (task_scope : TargetTaskScope * string) (target : Target) : result bool :=
  match task_scope with
  | (TId, task_id) => let? id := get_task_id target in Ok (bool_decide (id = task_id))
  | (TTag, tag_id) =>
      Ok (match tags_to_targets !! tag_id with
          | Some targets => bool_decide (target ∈ targets)
          | None => false
          end)
  end.

Definition scope_step (task_scope : TargetTaskScope * string) (found : list (Target * TaskOptions))
  (task : Target * TaskOptions) : result (list (Target * TaskOptions)) :=
  let? matches := task_in_scope task_scope task.1 in
  Ok (if matches : bool then found ++ [task] else found).

(** [query_tasks] *)
Definition workspace_query_tasks (project_ids : list Id) (task_scope : TargetTaskScope * string) :
  result (list (Target * TaskOptions)) :=
  ofold (λ found project_id,
    let project_id := default project_id (aliases_to_ids !! project_id) in
    match ids_to_target_options !! project_id with
    | Some tasks => ofold (scope_step task_scope) found (map_to_list tasks)
    | None => Ok found
    end) [] project_ids.

Definition WorkspaceTasksQuerent : TasksQuerent :=
  mkTasksQuerent (λ tag, Ok (default [] (tags_to_ids !! tag))) workspace_query_tasks
    (λ target, default false (target_to_has_outputs !! target)).
End Querent.

(** ** Projects *)

(** [WorkspaceProjectsBuilder] *)
Record WorkspaceProjectsBuilder {G : DiGraphOps (NodeState Project) DependencyScope} : Type :=
  mkProjectsBuilder {
  aliases_to_ids : gmap string Id;
  build_data : ProjectBuildDataMap;
  pbs_config_paths : gset WorkspaceRelativePath;
  pbs_plugin_input_paths : gset WorkspaceRelativePath;
  ids_to_indexes : gmap Id nat;
  ids_to_target_options : gmap Id (gmap Target TaskOptions);
  target_to_has_outputs : gmap Target bool;
  pbs_graph : DiGraph;
  renamed_ids : gmap Id Id;
  pbs_repo_type : RepoType;
  pbs_root_id : option Id;
  tags_to_ids : gmap Id (list Id);
  tags_to_targets : gmap Id (list Target);
}.
Arguments WorkspaceProjectsBuilder : clear implicits.

(** [map.entry(key).or_default().push(value)] *)
Definition entry_push {A} (m : gmap Id (list A)) (key : Id) (value : A) : gmap Id (list A) :=
  <[key := default [] (m !! key) ++ [value]]> m.

Section Projects.
Context {GB : DiGraphOps (NodeState Project) DependencyScope} `{ProjectHost, WorkspaceHost, IdSyntax}.
Implicit Types (b : WorkspaceProjectsBuilder GB).

(** [WorkspaceProjectsBuilder::new] *)
Definition WorkspaceProjectsBuilder_new : WorkspaceProjectsBuilder GB :=
  mkProjectsBuilder _ ∅ ∅ ∅ ∅ ∅ ∅ ∅ dg_new ∅ RepoUnknown None ∅ ∅.

(** The builder with another graph and its indexes, another state of the graph, or
    other data. *)
Definition pbs_set_graph b (indexes : gmap Id nat) (graph : DiGraph) : WorkspaceProjectsBuilder GB :=
  mkProjectsBuilder _ (aliases_to_ids b) (build_data b) (pbs_config_paths b)
    (pbs_plugin_input_paths b) indexes (ids_to_target_options b) (target_to_has_outputs b) graph
    (renamed_ids b) (pbs_repo_type b) (pbs_root_id b) (tags_to_ids b) (tags_to_targets b).

Definition pbs_set_tasks b (options : gmap Id (gmap Target TaskOptions)) (outputs : gmap Target bool)
  (tag_ids : gmap Id (list Id)) (tag_targets : gmap Id (list Target)) : WorkspaceProjectsBuilder GB :=
  mkProjectsBuilder _ (aliases_to_ids b) (build_data b) (pbs_config_paths b)
    (pbs_plugin_input_paths b) (ids_to_indexes b) options outputs (pbs_graph b) (renamed_ids b)
    (pbs_repo_type b) (pbs_root_id b) tag_ids tag_targets.

Definition pbs_set_data b (data : ProjectBuildDataMap) (config_paths : gset WorkspaceRelativePath)
  (renamed : gmap Id Id) : WorkspaceProjectsBuilder GB :=
  mkProjectsBuilder _ (aliases_to_ids b) data config_paths (pbs_plugin_input_paths b)
    (ids_to_indexes b) (ids_to_target_options b) (target_to_has_outputs b) (pbs_graph b) renamed
    (pbs_repo_type b) (pbs_root_id b) (tags_to_ids b) (tags_to_targets b).

Definition pbs_set_plugins b (paths : gset WorkspaceRelativePath) (aliases : gmap string Id) :
  WorkspaceProjectsBuilder GB :=
  mkProjectsBuilder _ aliases (build_data b) (pbs_config_paths b) paths (ids_to_indexes b)
    (ids_to_target_options b) (target_to_has_outputs b) (pbs_graph b) (renamed_ids b)
    (pbs_repo_type b) (pbs_root_id b) (tags_to_ids b) (tags_to_targets b).

Definition pbs_set_repo b (repo_type : RepoType) (root_id : option Id) : WorkspaceProjectsBuilder GB :=
  mkProjectsBuilder _ (aliases_to_ids b) (build_data b) (pbs_config_paths b)
    (pbs_plugin_input_paths b) (ids_to_indexes b) (ids_to_target_options b)
    (target_to_has_outputs b) (pbs_graph b) (renamed_ids b) repo_type root_id (tags_to_ids b)
    (tags_to_targets b).

(** [resolve_id] *)
Definition pbs_resolve_id b (id_or_alias : string) : Id :=
  default id_or_alias (aliases_to_ids b !! id_or_alias).

(** [get_or_insert_node] *)
Definition pbs_get_or_insert_node b (id_or_alias : string) : nat * WorkspaceProjectsBuilder GB :=
  let id := pbs_resolve_id b id_or_alias in
  match ids_to_indexes b !! id with
  | Some index => (index, b)
  | None =>
      let '(index, graph) := dg_add_node (pbs_graph b) Loading in
      (index, pbs_set_graph b (<[id := index]> (ids_to_indexes b)) graph)
  end.

(** [insert_or_update_node] *)
Definition pbs_insert_or_update_node b (project : Project) : WorkspaceProjectsBuilder GB :=
  let insert :=
    let '(index, graph) := dg_add_node (pbs_graph b) (Loaded project) in
    pbs_set_graph b (<[p_id project := index]> (ids_to_indexes b)) graph in
  match ids_to_indexes b !! p_id project with
  | Some index =>
      match dg_node_weight (pbs_graph b) index with
      | Some _ => pbs_set_graph b (ids_to_indexes b) (dg_set_weight (pbs_graph b) index (Loaded project))
      | None => insert
      end
  | None => insert
  end.

(** ** Loading *)

(** [load_build_data]: [arrived] are the sources in the order in which their
    configuration was loaded. *)
Definition pbs_load_build_data b (sources arrived : list (Id * WorkspaceRelativePath)) :
  result (ProjectBuildDataMap * WorkspaceProjectsBuilder GB) :=
  let paths := list_to_set (flat_map (λ s, map (source_join s.2) project_file_names) sources) in
  let? ' (data, renamed) := load_build_data (renamed_ids b) arrived in
  Ok (data, pbs_set_data b (build_data b) (pbs_config_paths b ∪ paths) renamed).

(** [load]; [arrive] is the order in which configurations are loaded. *)
Definition pbs_load (ctx : WorkspaceBuilderContext)
  (arrive : list (Id * WorkspaceRelativePath) → list (Id * WorkspaceRelativePath)) b :
  result (ProjectBuildDataMap * WorkspaceProjectsBuilder GB) :=
  let? sources := gather_sources ctx in
  let? ' (data, b) := pbs_load_build_data b sources (arrive sources) in
  let? files := workspace_config_files in
  let? _ := check_default_project ctx data in
  Ok (data, pbs_set_data b (build_data b) (pbs_config_paths b ∪ list_to_set files) ∅).

(** [preload] *)
Definition pbs_preload (ctx : WorkspaceBuilderContext)
  (arrive : list (Id * WorkspaceRelativePath) → list (Id * WorkspaceRelativePath)) b :
  result (WorkspaceProjectsBuilder GB) :=
  let? ' (data, b) := pbs_load ctx arrive b in
  Ok (pbs_set_data b data (pbs_config_paths b) (renamed_ids b)).

(** [extend_project_build_data_with_plugins] *)
Definition extend_project_build_data_with_plugins (sources : gmap Id WorkspaceRelativePath) :
  result (list (Id * ExtendProjectGraphOutput * bool)) :=
  let? toolchains := extend_with_toolchains sources in
  let? extensions := extend_with_extensions sources in
  Ok (map (λ o, (o, true)) toolchains ++ map (λ o, (o, false)) extensions).

(** [extend_build_data] *)
Definition extend_build_data (ctx : WorkspaceBuilderContext) b (data : ProjectBuildDataMap) :
  result (ProjectBuildDataMap * WorkspaceProjectsBuilder GB) :=
  let? outputs := extend_project_build_data_with_plugins (map_project_sources data) in
  let? ' (paths, aliases, data) :=
    ofold (λ s '(plugin_id, output, is_toolchain),
             apply_extend_output ctx s plugin_id output is_toolchain)
      (pbs_plugin_input_paths b, aliases_to_ids b, data) outputs in
  Ok (data, pbs_set_plugins b paths aliases).

(** ** Linking *)

(** The body of the loop over the dependencies of a project: the builder, and the
    dependencies with their identifiers resolved. *)
Definition link_dep_step (project_id : Id) (from_index : nat)
  (s : WorkspaceProjectsBuilder GB * list ProjectDependencyConfig) (dep : ProjectDependencyConfig) :
  result (WorkspaceProjectsBuilder GB * list ProjectDependencyConfig) :=
  let '(b, deps) := s in
  let dep := mkProjectDep (pbs_resolve_id b (pdep_id dep)) (pdep_scope dep) in
  if is_root_scope dep then Ok (b, deps ++ [dep])
  else
    let '(to_index, b) := pbs_get_or_insert_node b (pdep_id dep) in
    if would_cycle_in_scope (pbs_graph b) from_index to_index (pdep_scope dep)
    then Err (RProjectGraph (PG_WouldCycle project_id (pdep_id dep)))
    else Ok (pbs_set_graph b (ids_to_indexes b)
               (dg_add_edge (pbs_graph b) from_index to_index (pdep_scope dep)),
             deps ++ [dep]).

(** The options [TaskDepsBuilder] reads. *)
Definition dep_options (options : TaskOptions) : TaskOptions :=
  options_with TaskOptions_default (o_allow_failure options) (o_persistent options)
    (o_run_deps_in_parallel TaskOptions_default) (o_run_in_ci options).

(** The body of the loop over the tasks of a project. *)
Definition extract_task_data (project_id : Id) b (task : Task) : WorkspaceProjectsBuilder GB :=
  pbs_set_tasks b
    (<[project_id := <[t_target task := dep_options (t_options task)]>
         (default ∅ (ids_to_target_options b !! project_id))]> (ids_to_target_options b))
    (<[t_target task := has_outputs task]> (target_to_has_outputs b))
    (tags_to_ids b)
    (fold_left (λ tags tag, entry_push tags tag (t_target task)) (t_tags task) (tags_to_targets b)).

(** The consumer of [build_graph], called for every project that was built. *)
Definition add_project b (project : Project) : result (WorkspaceProjectsBuilder GB) :=
  let '(from_index, b) := pbs_get_or_insert_node b (p_id project) in
  let? ' (b, deps) :=
    ofold (link_dep_step (p_id project) from_index) (b, []) (p_dependencies project) in
  let project := set_dependencies project deps in
  let b := pbs_set_tasks b (ids_to_target_options b) (target_to_has_outputs b)
    (fold_left (λ tags tag, entry_push tags tag (p_id project)) (config_tags (p_config project))
       (tags_to_ids b)) (tags_to_targets b) in
  let b := fold_left (extract_task_data (p_id project)) (p_tasks project).*2 b in
  Ok (pbs_insert_or_update_node b project).

(** The number of processors, and the choices of the executor. *)
Context (concurrency : nat) (sched : nat → nat).

Definition by_id (x y : Id * ProjectBuildData) : Prop := Id_le x.1 y.1.

#[local] Instance by_id_dec : RelDecision by_id := λ x y, decide (Id_le x.1 y.1).

(** [ids.as_ref().is_none_or(|list| list.contains(id))] *)
Definition requested (ids : option (list Id)) (id : Id) : bool :=
  match ids with Some list => bool_decide (id ∈ list) | None => true end.

(** The queue of [build_graph]. *)
Definition build_queue (ids : option (list Id)) (data : ProjectBuildDataMap) :
  list (Id * ProjectBuildData) :=
  merge_sort by_id
    (filter (λ d, requested ids d.1 = true) (map_to_list data)).

(** [build_graph] *)
Definition build_graph (ctx : WorkspaceBuilderContext) b (ids : option (list Id))
  (data : ProjectBuildDataMap) : result (WorkspaceProjectsBuilder GB) :=
  run_pooled_tasks concurrency sched
    (λ '(id, data), Ok (build_project ctx data id (pbs_root_id b) (is_monorepo (pbs_repo_type b))))
    add_project (build_queue ids data) b.

(** [build] *)
Definition pbs_build (ctx : WorkspaceBuilderContext)
  (arrive : list (Id * WorkspaceRelativePath) → list (Id * WorkspaceRelativePath)) b
  (ids : option (list Id)) : result (WorkspaceProjectsBuilder GB) :=
  let? ' (data, b) :=
    if decide (build_data b = ∅) then pbs_load ctx arrive b
    else Ok (build_data b, pbs_set_data b ∅ (pbs_config_paths b) (renamed_ids b)) in
  let? ' (data, b) := extend_build_data ctx b data in
  let '(repo_type, root_id) := determine_repo_type data (pbs_root_id b) in
  build_graph ctx (pbs_set_repo b repo_type root_id) ids data.

(** ** Extracting the tasks *)

(** The body of the loop over the tasks that are taken out of a project. *)
Definition extract_task (querent : TasksQuerent) (root_id : option Id) (s : Project * list Task)
  (task : Task) : result (Project * list Task) :=
  let '(project, tasks) := s in
  if decide (t_deps task = []) then Ok (project, tasks ++ [task])
  else
    let? ' (project, task) := TaskDepsBuilder_build querent root_id project task in
    Ok (project, tasks ++ [task]).

(** The body of the loop over the nodes. *)
Definition extract_node (querent : TasksQuerent) (root_id : option Id) (s : DiGraph * list Task)
  (index : nat) : result (DiGraph * list Task) :=
  let '(graph, tasks) := s in
  match dg_node_weight graph index with
  | Some (Loaded project) =>
      let? ' (project, tasks) :=
        ofold (extract_task querent root_id) (set_tasks project [], tasks) (p_tasks project).*2 in
      Ok (dg_set_weight graph index (Loaded project), tasks)
  | _ => Ok s
  end.

(** [extract_tasks] *)
Definition extract_tasks b : result (list Task * WorkspaceProjectsBuilder GB) :=
  let querent := WorkspaceTasksQuerent (aliases_to_ids b) (ids_to_target_options b) (tags_to_ids b)
    (tags_to_targets b) (target_to_has_outputs b) in
  let? ' (graph, tasks) :=
    ofold (extract_node querent (pbs_root_id b)) (pbs_graph b, []) (seq 0 (dg_node_count (pbs_graph b))) in
  Ok (tasks, pbs_set_tasks (pbs_set_graph b (ids_to_indexes b) graph) ∅ ∅ ∅ ∅).

(** ** The finished project graph *)

Section Finalize.
Context {G : DiGraphOps nat DependencyScope} {D : DagOps nat DependencyScope} {M : DiGraphMap GB G}.

(** The body of the loop that fills the maps of the project graph. *)
Definition finalize_project (loaded : DiGraph (DiGraphOps := GB)) (graph : DiGraph (DiGraphOps := G))
  (s : gmap nat Id * gmap Id ProjectNode) (index : nat) : result (gmap nat Id * gmap Id ProjectNode) :=
  let '(indexes, nodes) := s in
  let? old_index := index_or_panic (dg_node_weight graph index) in
  match dg_node_weight loaded old_index with
  | Some (Loaded project) =>
      Ok (<[index := p_id project]> indexes, <[p_id project := mkProjectNode index project]> nodes)
  | _ => Err (Foreign "called `Option::unwrap()` on a `None` value")
  end.

(** [finalize], and the same part of [WorkspaceBuilder::build] *)
Definition finalize_projects (ctx : WorkspaceBuilderContext) (aliases : gmap string Id)
  (loaded : DiGraph (DiGraphOps := GB)) : result (ProjectGraph G D) :=
  let graph := dg_filter_map loaded
    (λ ni node, match node with Loading => None | Loaded _ => Some ni end) in
  let? ' (indexes, nodes) :=
    ofold (finalize_project loaded graph) (∅, ∅) (seq 0 (dg_node_count graph)) in
  set_graph (mkProjectGraph _ _ (ctx_workspace_root ctx) (ctx_working_dir ctx) aliases
    (ctx_default_project ctx) dg_new dag_new dag_new indexes nodes) graph.

Definition pbs_finalize (ctx : WorkspaceBuilderContext) b : result (ProjectGraph G D) :=
  finalize_projects ctx (aliases_to_ids b) (pbs_graph b).
End Finalize.
End Projects.

(** ** Tasks *)

(** [WorkspaceTasksBuilder] *)
Record WorkspaceTasksBuilder {T : DagOps (NodeState Task) TaskDependencyType} : Type :=
  mkTasksBuilder {
  tbs_graph : Dag;
  targets_to_indexes : gmap Target nat;
}.
Arguments WorkspaceTasksBuilder : clear implicits.

(** The weight of the edge of a dependency. *)
Definition dep_type (dep_config : TaskDependencyConfig) : TaskDependencyType :=
  match dep_optional dep_config with Some true => Optional | _ => Required end.

Section Tasks.
Context {TB : DagOps (NodeState Task) TaskDependencyType} {UB : DagUpdate TB}.
Implicit Types (b : WorkspaceTasksBuilder TB).

(** [WorkspaceTasksBuilder::new] *)
Definition WorkspaceTasksBuilder_new : WorkspaceTasksBuilder TB := mkTasksBuilder _ dag_new ∅.

(** [get_or_insert_node] *)
Definition tbs_get_or_insert_node b (target : Target) : nat * WorkspaceTasksBuilder TB :=
  match targets_to_indexes b !! target with
  | Some index => (index, b)
  | None =>
      let '(index, graph) := dag_add_node (tbs_graph b) Loading in
      (index, mkTasksBuilder _ graph (<[target := index]> (targets_to_indexes b)))
  end.

(** [insert_or_update_node] *)
Definition tbs_insert_or_update_node b (task : Task) : WorkspaceTasksBuilder TB :=
  let insert :=
    let '(index, graph) := dag_add_node (tbs_graph b) (Loaded task) in
    mkTasksBuilder _ graph (<[t_target task := index]> (targets_to_indexes b)) in
  match targets_to_indexes b !! t_target task with
  | Some index =>
      match dag_node_weight (tbs_graph b) index with
      | Some _ =>
          mkTasksBuilder _ (dag_set_weight (tbs_graph b) index (Loaded task)) (targets_to_indexes b)
      | None => insert
      end
  | None => insert
  end.

(** The body of the loop over the dependencies of a task. *)
Definition link_task_step (task : Task) (from_index : nat) b (dep_config : TaskDependencyConfig) :
  result (WorkspaceTasksBuilder TB) :=
  let '(to_index, b) := tbs_get_or_insert_node b (dep_target dep_config) in
  let? ' (_, graph) :=
    ok_or (dag_add_edge (tbs_graph b) from_index to_index (dep_type dep_config))
      (RTaskGraph (TG_WouldCycle (id (t_target task)) (id (dep_target dep_config)))) in
  Ok (mkTasksBuilder _ graph (targets_to_indexes b)).

(** The body of the loop of [build]. *)
Definition add_task b (task : Task) : result (WorkspaceTasksBuilder TB) :=
  let '(from_index, b) := tbs_get_or_insert_node b (t_target task) in
  let? b := ofold (link_task_step task from_index) b (t_deps task) in
  Ok (tbs_insert_or_update_node b task).

(** [build] *)
Definition tbs_build b (tasks : list Task) : result (WorkspaceTasksBuilder TB) :=
  ofold add_task b tasks.

Section Finalize.
Context {G : DiGraphOps nat DependencyScope} {D : DagOps nat DependencyScope}
  {T : DagOps nat TaskDependencyType} {M : DagMap TB T} {U : DagUpdate T}.

(** The body of the loop that fills the maps of the task graph. *)
Definition finalize_task (loaded : Dag (DagOps := TB)) (graph : Dag (DagOps := T))
  (s : gmap nat Target * gmap Target TaskNode) (index : nat) :
  result (gmap nat Target * gmap Target TaskNode) :=
  let '(indexes, nodes) := s in
  let? old_index := index_or_panic (dag_node_weight graph index) in
  match dag_node_weight loaded old_index with
  | Some (Loaded task) =>
      Ok (<[index := t_target task]> indexes, <[t_target task := mkTaskNode index task]> nodes)
  | _ => Err (Foreign "called `Option::unwrap()` on a `None` value")
  end.

(** [finalize], and the same part of [WorkspaceBuilder::build] *)
Definition finalize_tasks (project_graph : ProjectGraph G D) (loaded : Dag (DagOps := TB)) :
  result (TaskGraph G D T) :=
  let graph := dag_filter_map loaded
    (λ ni node, match node with Loading => None | Loaded _ => Some ni end) in
  let? ' (indexes, nodes) :=
    ofold (finalize_task loaded graph) (∅, ∅) (seq 0 (dag_node_count graph)) in
  let graph := fold_left (λ graph index, dag_set_weight graph index index)
                 (seq 0 (dag_node_count graph)) graph in
  Ok (mkTaskGraph _ _ _ graph indexes nodes project_graph).

Definition tbs_finalize (project_graph : ProjectGraph G D) b : result (TaskGraph G D T) :=
  finalize_tasks project_graph (tbs_graph b).
End Finalize.
End Tasks.

(** ** [WorkspaceBuilderAsync] *)

Record WorkspaceBuilderAsync {GB : DiGraphOps (NodeState Project) DependencyScope}
    {TB : DagOps (NodeState Task) TaskDependencyType} : Type := mkBuilderAsync {
  wba_projects : WorkspaceProjectsBuilder GB;
  wba_tasks : WorkspaceTasksBuilder TB;
}.
Arguments WorkspaceBuilderAsync : clear implicits.

Section Workspace.
Context {GB : DiGraphOps (NodeState Project) DependencyScope}
  {TB : DagOps (NodeState Task) TaskDependencyType} {UB : DagUpdate TB}
  `{ProjectHost, WorkspaceHost, IdSyntax}.
Context (concurrency : nat) (sched : nat → nat)
  (arrive : list (Id * WorkspaceRelativePath) → list (Id * WorkspaceRelativePath))
  (ctx : WorkspaceBuilderContext).
Implicit Types (b : WorkspaceBuilderAsync GB TB).

(** [WorkspaceBuilderAsync::new], [preload] *)
Definition WorkspaceBuilderAsync_new : WorkspaceBuilderAsync GB TB :=
  mkBuilderAsync _ _ WorkspaceProjectsBuilder_new WorkspaceTasksBuilder_new.

Definition wba_preload b : result (WorkspaceBuilderAsync GB TB) :=
  let? projects := pbs_preload ctx arrive (wba_projects b) in
  Ok (mkBuilderAsync _ _ projects (wba_tasks b)).

(** [has_loaded_graphs] *)
Definition has_loaded_graphs b : bool := 0 <? dg_node_count (pbs_graph (wba_projects b)).

(** [load_graphs] and [load_graphs_for], which only differ in the projects they
    ask for *)
Definition load_graphs_of b (ids : option (list Id)) : result (WorkspaceBuilderAsync GB TB) :=
  if has_loaded_graphs b then Ok b
  else
    let? projects := pbs_build concurrency sched ctx arrive (wba_projects b) ids in
    let? ' (tasks, projects) := extract_tasks projects in
    let? tasks := tbs_build (wba_tasks b) tasks in
    Ok (mkBuilderAsync _ _ projects tasks).

Definition load_graphs b : result (WorkspaceBuilderAsync GB TB) := load_graphs_of b None.

Definition load_graphs_for b (ids : list Id) : result (WorkspaceBuilderAsync GB TB) :=
  load_graphs_of b (Some ids).

(** [build] *)
Definition wba_build {G : DiGraphOps nat DependencyScope} {D : DagOps nat DependencyScope}
  {T : DagOps nat TaskDependencyType} {M : DiGraphMap GB G} {MT : DagMap TB T} {U : DagUpdate T} b :
  result (WorkspaceGraph G D T) :=
  let? _ := enforce_constraints ctx (pbs_graph (wba_projects b)) in
  let? _ := read_vcs in
  let? project_graph := pbs_finalize ctx (wba_projects b) in
  let? task_graph := tbs_finalize project_graph (wba_tasks b) in
  Ok (WorkspaceGraph_new project_graph task_graph (ctx_workspace_root ctx)).
End Workspace.
