(* ===== verification/WorkspaceBuilds.v ===== *)
(** * The finished workspace graphs

[finalize_projects] and [finalize_tasks] turn a graph of loading and loaded
nodes into a project graph and a task graph that keep their invariants. *)

From S2P Require Import Prelude Errors FileSystem PooledTasks Target GraphUtils Config Constraints Dag DiGraph.
From S2P Require Import NodeMaps ProjectGraph ProjectGraphFacts TaskDeps ProjectBuilder.
From S2P Require Import WorkspaceData WorkspaceNodes TaskGraph TaskGraphFacts WorkspaceGraph.
From S2P Require Import WorkspaceAsync Shapes.

(** An edge between loaded nodes with the keys [a] and [b]. *)
Definition loaded_edge {N K E} (key : N → K) (nodes : list (NodeState N)) (es : list (nat * nat * E))
  (a b : K) (e : E) : Prop :=
  ∃ i j n m, nodes !! i = Some (Loaded n) ∧ nodes !! j = Some (Loaded m) ∧ key n = a ∧ key m = b ∧
    (i, j, e) ∈ es.

(** The nodes of the finished graph: [old] are the indexes that are kept. *)
Section Kept.
Context {N K V E : Type} `{Countable K} (key : N → K) (mk : nat → N → V) (val : V → N).
Context (val_mk : ∀ i n, val (mk i n) = n).
Context (index : gmap K nat) (nodes : list (NodeState N)) (ok : keyed key index nodes).
Context (loaded : nat → option (NodeState N)) (loaded_nodes : ∀ o, loaded o = nodes !! o).
Context (old : list nat) (nd : NoDup old).
Context (kept : ∀ i, i ∈ old ↔ ∃ n, nodes !! i = Some (Loaded n)).

Lemma kept_one_key i j n m :
  kept_node old loaded i n → kept_node old loaded j m → key n = key m → i = j.
Proof.
  intros (o & Ho & Hn) (o' & Ho' & Hm) Heq. rewrite loaded_nodes in Hn, Hm.
  destruct (kd_cover _ _ _ ok o) as [k Hk]; [by eapply lookup_lt_Some|].
  destruct (kd_cover _ _ _ ok o') as [k' Hk']; [by eapply lookup_lt_Some|].
  pose proof (kd_loaded _ _ _ ok _ _ _ Hk Hn). pose proof (kd_loaded _ _ _ ok _ _ _ Hk' Hm).
  assert (o = o') as -> by congruence. by eapply NoDup_lookup.
Qed.

Lemma kept_all_loaded o : o ∈ old → ∃ n, loaded o = Some (Loaded n).
Proof. rewrite loaded_nodes. apply kept. Qed.

(** A loaded node is kept. *)
Lemma kept_loaded o n :
  nodes !! o = Some (Loaded n) → ∃ i, i < length old ∧ old !! i = Some o ∧ kept_node old loaded i n.
Proof.
  intros Hn. assert (o ∈ old) as Ho by (apply kept; eauto).
  apply list_elem_of_lookup in Ho as [i Hi]. exists i. split; [by eapply lookup_lt_Some|].
  split; [done|]. exists o. by rewrite loaded_nodes.
Qed.

(** The loop over the nodes fills the maps. *)
Lemma fin_maps new :
  (∀ i, new i = old !! i) →
  ∃ indexes vals, ofold (fin_step key mk new loaded) (∅, ∅) (seq 0 (length old)) = Ok (indexes, vals) ∧
    filled key mk old loaded (length old) indexes vals.
Proof.
  intros Hnew. apply fin_loop; [apply kept_all_loaded|apply kept_one_key|done|lia].
Qed.

Context (indexes : gmap nat K) (vals : gmap K V).
Context (fill : filled key mk old loaded (length old) indexes vals).

Lemma filled_values x n :
  (∃ v, vals !! x = Some v ∧ val v = n) ↔ key n = x ∧ ∃ o, nodes !! o = Some (Loaded n).
Proof.
  setoid_rewrite (fl_node _ _ _ _ _ _ _ fill). split.
  - intros (v & (i & m & _ & (o & Ho & Hm) & <- & ->) & <-). rewrite val_mk. split; [done|].
    exists o. by rewrite <- loaded_nodes.
  - intros (<- & o & Hn). destruct (kept_loaded o n Hn) as (i & Hi & _ & Hk).
    exists (mk i n). split; [eauto 7|apply val_mk].
Qed.

Lemma filled_index i a :
  indexes !! i = Some a ↔ ∃ o n, old !! i = Some o ∧ nodes !! o = Some (Loaded n) ∧ key n = a.
Proof.
  rewrite (fl_index _ _ _ _ _ _ _ fill). split.
  - intros (_ & n & (o & Ho & Hn) & <-). exists o, n. by rewrite <- loaded_nodes.
  - intros (o & n & Ho & Hn & <-). split; [by eapply lookup_lt_Some|]. exists n. split; [|done].
    exists o. by rewrite loaded_nodes.
Qed.

Lemma filled_edges (es es' : list (nat * nat * E)) a b e :
  (∀ x y w, (x, y, w) ∈ es' ↔ ∃ ox oy, old !! x = Some ox ∧ old !! y = Some oy ∧ (ox, oy, w) ∈ es) →
  (∃ i j, indexes !! i = Some a ∧ indexes !! j = Some b ∧ (i, j, e) ∈ es') ↔
  loaded_edge key nodes es a b e.
Proof.
  intros Hes. setoid_rewrite filled_index. split.
  - intros (i & j & (o & n & Ho & Hn & <-) & (o' & m & Ho' & Hm & <-) & He).
    apply Hes in He as (ox & oy & Hx & Hy & He). simplify_eq. exists o, o', n, m. done.
  - intros (o & o' & n & m & Hn & Hm & <- & <- & He).
    destruct (kept_loaded o n Hn) as (i & _ & Hi & _). destruct (kept_loaded o' m Hm) as (j & _ & Hj & _).
    exists i, j. split; [eauto|]. split; [eauto|]. apply Hes. eauto.
Qed.
End Kept.

Section Projects.
Context {GB : DiGraphOps (NodeState Project) DependencyScope} {LB : DiGraphLaws GB}
  {G : DiGraphOps nat DependencyScope} {LG : DiGraphLaws G}
  {D : DagOps nat DependencyScope} {LD : DagLaws D}
  {M : DiGraphMap GB G} {LM : DiGraphMapLaws M LB LG}.

(** What a project graph has of the graph it was made of. *)
Record projects_of (loaded : DiGraph (DiGraphOps := GB)) (g : ProjectGraph G D) : Prop := {
  po_ok : pg_ok g;
  po_nodes : ∀ id p, (∃ node, pg_nodes g !! id = Some node ∧ pn_project node = p) ↔
    p_id p = id ∧ ∃ i, dg_nodes loaded !! i = Some (Loaded p);
  po_edges : ∀ a b scope,
    (∃ i j, pg_indexes g !! i = Some a ∧ pg_indexes g !! j = Some b ∧
            (i, j, scope) ∈ dg_edges (pg_graph g)) ↔
    loaded_edge p_id (dg_nodes loaded) (dg_edges loaded) a b scope;
}.

Definition keep_loaded {N} (ni : nat) (node : NodeState N) : option nat :=
  match node with Loading => None | Loaded _ => Some ni end.

(** Which nodes are kept, from the law of [filter_map]. *)
Lemma keep_loaded_old {N} (nodes : list (NodeState N)) (old : list nat) :
  (∀ i, i ∈ old ↔ ∃ n, nodes !! i = Some n ∧ is_Some (keep_loaded i n)) →
  (∀ i, i ∈ old ↔ ∃ n, nodes !! i = Some (Loaded n)) ∧
  ∀ i, (o ← old !! i; n ← nodes !! o; keep_loaded o n) = old !! i.
Proof.
  intros Hold. assert (∀ i, i ∈ old ↔ ∃ n, nodes !! i = Some (Loaded n)) as Hkept.
  { intros i. rewrite Hold. split.
    - intros ([p|] & Hn & [x Hx]); [eauto|done].
    - intros (p & Hp). exists (Loaded p). split; [done|]. by exists i. }
  split; [done|]. intros i. destruct (old !! i) as [o|] eqn:Ho; [|done]. cbn.
  destruct (proj1 (Hkept o)) as [p Hp]; [by eapply list_elem_of_lookup_2|]. by rewrite Hp.
Qed.

Lemma finalize_projects_ok ctx aliases loaded index :
  dg_wf loaded → keyed p_id index (dg_nodes loaded) →
  (∀ part, acyclic (edge_of (scoped part (dg_edges loaded)))) →
  ∃ g, finalize_projects ctx aliases loaded = Ok g ∧ projects_of loaded g ∧
    pg_aliases g = aliases ∧ pg_default_id g = ctx_default_project ctx.
Proof.
  intros Hwf Hkey Hac. unfold finalize_projects.
  destruct (dg_filter_map_law loaded keep_loaded Hwf) as (old & Hnd & Hwf' & Hold & Hw & Hlen & Hes).
  change (dg_filter_map loaded _) with (dg_filter_map loaded keep_loaded).
  set (graph := dg_filter_map loaded keep_loaded) in *.
  destruct (keep_loaded_old _ _ Hold) as [Hkept Hnew].
  destruct (fin_maps p_id mkProjectNode index (dg_nodes loaded) Hkey (dg_node_weight loaded)
    ltac:(apply dg_node_weight_law) old Hnd Hkept (dg_node_weight graph)) as (indexes & nodes & Hloop & Hfill).
  { intros i. by rewrite dg_node_weight_law, Hw. }
  rewrite dg_node_count_law, Hlen. change (ofold _ _ _) with
    (ofold (fin_step p_id mkProjectNode (dg_node_weight graph) (dg_node_weight loaded)) (∅, ∅)
      (seq 0 (length old))). rewrite Hloop. cbn [obind].
  set (g0 := mkProjectGraph _ _ _ _ _ _ _ _ _ _ _).
  assert (store_ok pn_index pn_project p_id (length (dg_nodes graph)) indexes nodes) as Hst.
  { rewrite Hlen. apply (filled_store p_id pn_index pn_project mkProjectNode ltac:(done) ltac:(done)
      old (dg_node_weight loaded)); [|done].
    apply (kept_all_loaded (dg_nodes loaded)); [apply dg_node_weight_law|done]. }
  pose proof (set_graph_ok g0 graph Hwf') as Hs. destruct (set_graph g0 graph) as [g|e|] eqn:Hg; [|..|done].
  - destruct Hs as [Hgo Heq]. exists g. split; [done|]. split; [|by rewrite Heq]. split.
    + eapply (set_graph_pg_ok g0 graph); [done|exact Hst|done].
    + intros id p. rewrite Heq. by apply (filled_values p_id mkProjectNode pn_project ltac:(done)
        (dg_nodes loaded) (dg_node_weight loaded) ltac:(apply dg_node_weight_law) old Hkept indexes nodes
        Hfill).
    + intros a b scope. rewrite (go_edges _ _ Hgo), Heq. cbn.
      by apply (filled_edges p_id mkProjectNode (dg_nodes loaded) (dg_node_weight loaded)
        ltac:(apply dg_node_weight_law) old Hkept indexes nodes Hfill).
  - destruct Hs as (a & b & scope & _ & _ & []). eapply acyclic_rename; [|apply Hac].
    intros x y e' He. by apply Hes.
Qed.
End Projects.

Section Tasks.
Context {TB : DagOps (NodeState Task) TaskDependencyType} {LB : DagLaws TB}
  {T : DagOps nat TaskDependencyType} {LT : DagLaws T} {M : DagMap TB T} {LM : DagMapLaws M LB LT}
  {U : DagUpdate T} {LU : DagUpdateLaws U LT}
  {G : DiGraphOps nat DependencyScope} {D : DagOps nat DependencyScope}.

(** What a task graph has of the graph it was made of. *)
Record tasks_of (loaded : Dag (DagOps := TB)) (g : TaskGraph G D T) : Prop := {
  to_ok : tg_ok g;
  to_nodes : ∀ target t, (∃ node, tg_nodes g !! target = Some node ∧ tn_task node = t) ↔
    t_target t = target ∧ ∃ i, dag_nodes loaded !! i = Some (Loaded t);
  to_edges : ∀ a b e,
    (∃ i j, tg_indexes g !! i = Some a ∧ tg_indexes g !! j = Some b ∧
            (i, j, e) ∈ dag_edges (tg_graph g)) ↔
    loaded_edge t_target (dag_nodes loaded) (dag_edges loaded) a b e;
}.

(** The loop that gives every node its own index. *)
Lemma own_weights (graph : Dag (DagOps := T)) k :
  dag_wf graph → k ≤ length (dag_nodes graph) →
  let graph' := fold_left (λ graph index, dag_set_weight graph index index) (seq 0 k) graph in
  dag_wf graph' ∧ dag_nodes graph' = seq 0 k ++ drop k (dag_nodes graph) ∧
  dag_edges graph' = dag_edges graph.
Proof.
  intros Hwf. induction k as [|k IH]; intros Hk; [done|].
  rewrite seq_S, fold_left_app. cbn. destruct (IH ltac:(lia)) as (Hw & Hn & He).
  set (graph' := fold_left _ _ _) in *.
  destruct (dag_set_weight_law graph' k k Hw) as (H1 & H2 & H3).
  { rewrite Hn, length_app, length_seq, length_drop. lia. }
  split; [done|]. split; [|by rewrite H3]. rewrite H2, Hn.
  destruct (lookup_lt_is_Some_2 (dag_nodes graph) k) as [x Hx]; [lia|].
  rewrite (drop_S _ _ _ Hx). replace k with (length (seq 0 k) + 0) at 1 by (rewrite length_seq; lia).
  rewrite insert_app_r. by rewrite <- app_assoc.
Qed.

Lemma finalize_tasks_ok (project_graph : ProjectGraph G D) (loaded : Dag (DagOps := TB)) index :
  dag_wf loaded → keyed t_target index (dag_nodes loaded) → acyclic (edge_of (dag_edges loaded)) →
  ∃ g, finalize_tasks project_graph loaded = Ok g ∧ tasks_of loaded g ∧
    tg_project_graph g = project_graph.
Proof.
  intros Hwf Hkey Hac. unfold finalize_tasks.
  destruct (dag_filter_map_law loaded keep_loaded Hwf) as (old & Hnd & Hwf' & Hold & Hw & Hlen & Hes).
  change (dag_filter_map loaded _) with (dag_filter_map loaded keep_loaded).
  set (graph := dag_filter_map loaded keep_loaded) in *.
  destruct (keep_loaded_old _ _ Hold) as [Hkept Hnew].
  destruct (fin_maps t_target mkTaskNode index (dag_nodes loaded) Hkey (dag_node_weight loaded)
    ltac:(apply dag_node_weight_law) old Hnd Hkept (dag_node_weight graph)) as (indexes & nodes & Hloop & Hfill).
  { intros i. by rewrite dag_node_weight_law, Hw. }
  rewrite dag_node_count_law, Hlen. change (ofold _ _ _) with
    (ofold (fin_step t_target mkTaskNode (dag_node_weight graph) (dag_node_weight loaded)) (∅, ∅)
      (seq 0 (length old))). rewrite Hloop. cbn [obind].
  destruct (own_weights graph (length old) Hwf' ltac:(by rewrite Hlen)) as (Hw1 & Hn1 & He1).
  set (graph' := fold_left _ _ _) in *.
  rewrite <- Hlen, drop_all, app_nil_r in Hn1. eexists. split; [done|]. split; [|done].
  assert (length (dag_nodes graph') = length old) as Hlen' by by rewrite Hn1, length_seq.
  split.
  - split; cbn; [done|by rewrite Hn1, length_seq| |].
    + rewrite He1. eapply acyclic_rename_all; [|exact Hac]. intros x y e' He. by apply Hes.
    + rewrite Hlen'. apply (filled_store t_target tn_index tn_task mkTaskNode ltac:(done) ltac:(done)
        old (dag_node_weight loaded)); [|done].
      apply (kept_all_loaded (dag_nodes loaded)); [apply dag_node_weight_law|done].
  - intros id p. by apply (filled_values t_target mkTaskNode tn_task ltac:(done)
      (dag_nodes loaded) (dag_node_weight loaded) ltac:(apply dag_node_weight_law) old Hkept indexes nodes
      Hfill).
  - intros a b e. cbn. rewrite He1.
    by apply (filled_edges t_target mkTaskNode (dag_nodes loaded) (dag_node_weight loaded)
      ltac:(apply dag_node_weight_law) old Hkept indexes nodes Hfill).
Qed.
End Tasks.
