(* ===== verification/WorkspaceAsyncFacts.v ===== *)
(** * Properties of the asynchronous workspace builder

The projects and the tasks that are built are linked by exactly the dependencies
they declare, whatever the executor does, or there is a cycle among them. *)

From S2P Require Import Prelude Errors FileSystem PooledTasks Target GraphUtils Config Constraints Dag DiGraph.
From S2P Require Import NodeMaps ProjectGraph ProjectGraphFacts TaskDeps ProjectBuilder.
From S2P Require Import WorkspaceData WorkspaceNodes TaskGraph TaskGraphFacts WorkspaceGraph.
From S2P Require Import WorkspaceAsync WorkspaceBuilds Shapes.

(** ** Projects *)

Section Projects.
Context {GB : DiGraphOps (NodeState Project) DependencyScope} {LB : DiGraphLaws GB}
  `{HP : ProjectHost, HW : WorkspaceHost, HI : IdSyntax}.
Implicit Types (b : WorkspaceProjectsBuilder GB).

Abbreviation project_named := (list (Id * Id * DependencyScope)).

(** The graph of the builder has the edges [named]. *)
Record pbs_linked (named : project_named) b : Prop := {
  pl_wf : dg_wf (pbs_graph b);
  pl_linked : linked p_id is_production_group named (ids_to_indexes b) (dg_nodes (pbs_graph b))
                (dg_edges (pbs_graph b));
}.

Definition loaded_as b (id : Id) (p : Project) : Prop :=
  ∃ i, ids_to_indexes b !! id = Some i ∧ dg_nodes (pbs_graph b) !! i = Some (Loaded p).

(** The builder has changed in its graph only, and no node was loaded. *)
Record grown b b' : Prop := {
  gr_rest : b' = pbs_set_graph b (ids_to_indexes b') (pbs_graph b');
  gr_indexes : ids_to_indexes b ⊆ ids_to_indexes b';
  gr_loaded : ∀ id p, loaded_as b' id p ↔ loaded_as b id p;
}.

Lemma grown_refl b : grown b b.
Proof. split; [by destruct b|done|done]. Qed.

Lemma grown_trans b1 b2 b3 : grown b1 b2 → grown b2 b3 → grown b1 b3.
Proof.
  intros [H1 H2 H3] [H4 H5 H6]. split.
  - rewrite H4 at 1. rewrite H1 at 1. done.
  - by etrans.
  - intros id p. by rewrite H6, H3.
Qed.

Lemma pbs_linked_new : pbs_linked [] WorkspaceProjectsBuilder_new.
Proof.
  destruct dg_new_law as (Hw & Hn & He). split; cbn; [done|]. rewrite Hn, He. apply linked_empty.
Qed.

Lemma get_or_insert_linked named b k :
  pbs_linked named b →
  let '(i, b') := pbs_get_or_insert_node b k in
  pbs_linked named b' ∧ grown b b' ∧ ids_to_indexes b' !! pbs_resolve_id b k = Some i.
Proof.
  intros [Hw Hl]. unfold pbs_get_or_insert_node. set (id := pbs_resolve_id b k).
  destruct (ids_to_indexes b !! id) as [i|] eqn:Hi.
  - split; [done|]. split; [apply grown_refl|done].
  - pose proof (dg_add_node_law (pbs_graph b) Loading Hw) as (Hw' & Hix & Hn & He).
    destruct (dg_add_node (pbs_graph b) Loading) as [i g]. cbn in *. subst i. split; [|split].
    + split; cbn; [done|]. rewrite Hn, He. by apply linked_new.
    + split; cbn; [done|by apply insert_subseteq|]. intros id' p. unfold loaded_as. cbn. rewrite Hn.
      split.
      * intros (i & Hx & Hp). apply lookup_insert_Some in Hx as [[<- <-]|[Hne Hx]].
        { rewrite lookup_app_r, Nat.sub_diag in Hp by done. done. }
        exists i. split; [done|]. rewrite lookup_app_l in Hp; [done|].
        by eapply (kd_range _ _ _ (lk_keyed _ _ _ _ _ _ Hl)).
      * intros (i & Hx & Hp). exists i. split; [by rewrite lookup_insert_ne by congruence|].
        by apply lookup_app_l_Some.
    + cbn. by rewrite lookup_insert_eq.
Qed.

(** The edges a project declares: dependencies on the root project have none. *)
Definition declared_of (resolve : Id → Id) (pid : Id) (deps : list ProjectDependencyConfig) :
  project_named :=
  flat_map (λ d, if is_root_scope d then [] else [(pid, resolve (pdep_id d), pdep_scope d)]) deps.

Definition declared_deps (resolve : Id → Id) (p : Project) : project_named :=
  declared_of resolve (p_id p) (p_dependencies p).

Definition resolve_dep (resolve : Id → Id) (d : ProjectDependencyConfig) : ProjectDependencyConfig :=
  mkProjectDep (resolve (pdep_id d)) (pdep_scope d).

Lemma link_dep_linked named b pid i deps d :
  pbs_linked named b → ids_to_indexes b !! pid = Some i →
  pbs_resolve_id b (pbs_resolve_id b (pdep_id d)) = pbs_resolve_id b (pdep_id d) →
  let new := if is_root_scope d then []
             else [(pid, pbs_resolve_id b (pdep_id d), pdep_scope d)] in
  match link_dep_step pid i (b, deps) d with
  | Ok (b', deps') => pbs_linked (named ++ new) b' ∧ grown b b' ∧
      deps' = deps ++ [resolve_dep (pbs_resolve_id b) d]
  | Err e => e = RProjectGraph (PG_WouldCycle pid (pbs_resolve_id b (pdep_id d))) ∧
      ¬ named_acyclic is_production_group (named ++ new)
  | OutOfFuel => False
  end.
Proof.
  intros Hb Hi Hres new. unfold link_dep_step. subst new. cbn.
  change (is_root_scope (mkProjectDep _ _)) with (is_root_scope d).
  destruct (is_root_scope d); [rewrite app_nil_r; split; [done|]; split; [apply grown_refl|done]|].
  pose proof (get_or_insert_linked named b (pbs_resolve_id b (pdep_id d)) Hb) as Hg.
  destruct (pbs_get_or_insert_node b _) as [j b']. destruct Hg as (Hb' & Hgr & Hj).
  rewrite Hres in Hj. assert (ids_to_indexes b' !! pid = Some i) as Hi' by
    (eapply lookup_weaken; [exact Hi|apply Hgr]).
  pose proof Hb' as [Hw Hl].
  pose proof (link_scope_edge (pbs_graph b') named (ids_to_indexes b') pid _ i j (pdep_scope d) Hw Hl Hi' Hj)
    as Hlink. destruct (would_cycle_in_scope _ i j _).
  - split; [done|]. eapply scope_path_cycle; [exact Hlink| |apply elem_of_app; right; by left].
    intros x Hx. apply elem_of_app. by left.
  - destruct Hlink as (H1 & H2 & H3). split; [by split|]. split; [|done].
    eapply grown_trans; [exact Hgr|]. split; cbn; [done|done|]. intros id p.
    unfold loaded_as. cbn. by rewrite H2.
Qed.

Lemma grown_resolve b b' k : grown b b' → pbs_resolve_id b' k = pbs_resolve_id b k.
Proof. intros Hg. by rewrite (gr_rest _ _ Hg). Qed.

Lemma link_deps_linked named b pid i deps ds :
  pbs_linked named b → ids_to_indexes b !! pid = Some i →
  (∀ k, pbs_resolve_id b (pbs_resolve_id b k) = pbs_resolve_id b k) →
  let declared := declared_of (pbs_resolve_id b) pid ds in
  match ofold (link_dep_step pid i) (b, deps) ds with
  | Ok (b', deps') => pbs_linked (named ++ declared) b' ∧ grown b b' ∧
      deps' = deps ++ map (resolve_dep (pbs_resolve_id b)) ds
  | Err e => (∃ dep, e = RProjectGraph (PG_WouldCycle pid dep)) ∧
      ¬ named_acyclic is_production_group (named ++ declared)
  | OutOfFuel => False
  end.
Proof.
  revert named b deps. induction ds as [|d ds IH]; intros named b deps Hb Hi Hres declared.
  { cbn. rewrite !app_nil_r. split; [done|]. split; [apply grown_refl|done]. }
  cbn [ofold]. pose proof (link_dep_linked named b pid i deps d Hb Hi (Hres _)) as Hd. cbn zeta in Hd.
  change declared with ((if is_root_scope d then [] else [(pid, pbs_resolve_id b (pdep_id d), pdep_scope d)])
    ++ declared_of (pbs_resolve_id b) pid ds).
  set (new := if is_root_scope d then [] else _) in *. rewrite (assoc_L (++)).
  destruct (link_dep_step pid i (b, deps) d) as [[b1 deps1]|e|]; cbn [obind]; [|..|done].
  - destruct Hd as (Hb1 & Hg1 & ->).
    assert (∀ k, pbs_resolve_id b1 k = pbs_resolve_id b k) as Hsame by (intros; by apply grown_resolve).
    assert (ids_to_indexes b1 !! pid = Some i) as Hi1 by (eapply lookup_weaken; [exact Hi|apply Hg1]).
    pose proof (IH (named ++ new) b1 (deps ++ [resolve_dep (pbs_resolve_id b) d]) Hb1 Hi1) as IH'.
    assert (declared_of (pbs_resolve_id b1) pid ds = declared_of (pbs_resolve_id b) pid ds ∧
      map (resolve_dep (pbs_resolve_id b1)) ds = map (resolve_dep (pbs_resolve_id b)) ds) as [Hd1 Hd2].
    { clear -Hsame. unfold declared_of, resolve_dep.
      induction ds as [|x ds [IH1 IH2]]; [done|]. cbn. by rewrite IH1, IH2, !Hsame. }
    rewrite Hd1, Hd2 in IH'. specialize (IH' ltac:(intros k; by rewrite !Hsame)). cbn zeta in IH'.
    destruct (ofold _ _ ds) as [[b2 deps2]|e|]; [|done..].
    destruct IH' as (Hb2 & Hg2 & ->). split; [done|]. split; [by eapply grown_trans|].
    by rewrite <- (assoc_L (++)).
  - destruct Hd as [-> Hc]. split; [eauto|]. intros Hac. apply Hc.
    eapply named_acyclic_mono; [|exact Hac]. intros x Hx. apply elem_of_app. by left.
Qed.

(** A project with its dependencies resolved. *)
Definition linked_project (resolve : Id → Id) (p : Project) : Project :=
  set_dependencies p (map (resolve_dep resolve) (p_dependencies p)).

(** The tasks that are recorded are tasks of a loaded project. *)
Definition options_ok b : Prop :=
  ∀ id m target o, ids_to_target_options b !! id = Some m → m !! target = Some o →
    ∃ p t, loaded_as b id p ∧ t ∈ (p_tasks p).*2 ∧ t_target t = target.

(** What the loop over the tasks of a project changes. *)
Lemma extract_tasks_data pid ts b :
  let b' := fold_left (extract_task_data pid) ts b in
  pbs_set_tasks b (ids_to_target_options b') (target_to_has_outputs b') (tags_to_ids b)
    (tags_to_targets b') = b' ∧
  ∀ id m target o, ids_to_target_options b' !! id = Some m → m !! target = Some o →
    (∃ m', ids_to_target_options b !! id = Some m' ∧ m' !! target = Some o) ∨
    id = pid ∧ ∃ t, t ∈ ts ∧ t_target t = target.
Proof.
  revert b. induction ts as [|t ts IH]; intros b; [split; [by destruct b|eauto]|]. cbn.
  destruct (IH (extract_task_data pid b t)) as [H1 H2]. split.
  - rewrite <- H1 at 4. done.
  - intros id m target o Hm Ho. destruct (H2 _ _ _ _ Hm Ho) as [(m' & Hm' & Ho')|[-> (t' & Ht' & <-)]].
    + cbn in Hm'. apply lookup_insert_Some in Hm' as [[<- <-]|[Hne Hm']]; [|eauto].
      apply lookup_insert_Some in Ho' as [[<- <-]|[Hne Ho']].
      * right. split; [done|]. exists t. split; [by left|done].
      * destruct (ids_to_target_options b !! pid) as [m0|] eqn:Hp; cbn in Ho'; [eauto|].
        by rewrite lookup_empty in Ho'.
    + right. split; [done|]. exists t'. split; [by right|done].
Qed.

Lemma insert_node_linked named b p i :
  pbs_linked named b → ids_to_indexes b !! p_id p = Some i →
  let b' := pbs_insert_or_update_node b p in
  pbs_linked named b' ∧ b' = pbs_set_graph b (ids_to_indexes b') (pbs_graph b') ∧
  ∀ id q, loaded_as b' id q ↔ (id = p_id p ∧ q = p) ∨ (id ≠ p_id p ∧ loaded_as b id q).
Proof.
  intros [Hw Hl] Hi. pose proof (lk_keyed _ _ _ _ _ _ Hl) as Hk.
  assert (i < length (dg_nodes (pbs_graph b))) as Hlt by by eapply (kd_range _ _ _ Hk).
  unfold pbs_insert_or_update_node. rewrite Hi, dg_node_weight_law.
  destruct (lookup_lt_is_Some_2 _ _ Hlt) as [s Hs]. rewrite Hs.
  destruct (dg_set_weight_law (pbs_graph b) i (Loaded p) Hw Hlt) as (H1 & H2 & H3). split; [|split].
  - split; cbn; [done|]. rewrite H2, H3. by apply linked_set.
  - done.
  - intros id q. unfold loaded_as. cbn. rewrite H2. split.
    + intros (j & Hj & Hq). destruct (decide (id = p_id p)) as [->|Hne].
      * left. simplify_eq. rewrite list_lookup_insert_eq in Hq by done. by simplify_eq.
      * right. split; [done|]. exists j. split; [done|].
        rewrite list_lookup_insert_ne in Hq; [done|]. intros <-. destruct Hne.
        by eapply (kd_inj _ _ _ Hk).
    + intros [[-> ->]|[Hne (j & Hj & Hq)]].
      * exists i. by rewrite list_lookup_insert_eq.
      * exists j. split; [done|]. rewrite list_lookup_insert_ne; [done|]. intros <-. destruct Hne.
        by eapply (kd_inj _ _ _ Hk).
Qed.

(** What stays the same while projects are added. *)
Definition same_settings b b' : Prop :=
  aliases_to_ids b' = aliases_to_ids b ∧ pbs_root_id b' = pbs_root_id b.

Lemma add_project_linked named b p :
  pbs_linked named b → options_ok b →
  (∀ k, pbs_resolve_id b (pbs_resolve_id b k) = pbs_resolve_id b k) →
  pbs_resolve_id b (p_id p) = p_id p → (∀ q, ¬ loaded_as b (p_id p) q) →
  match add_project b p with
  | Ok b' => pbs_linked (named ++ declared_deps (pbs_resolve_id b) p) b' ∧ options_ok b' ∧
      same_settings b b' ∧
      ∀ id q, loaded_as b' id q ↔
        loaded_as b id q ∨ (id = p_id p ∧ q = linked_project (pbs_resolve_id b) p)
  | Err e => (∃ dep, e = RProjectGraph (PG_WouldCycle (p_id p) dep)) ∧
      ¬ named_acyclic is_production_group (named ++ declared_deps (pbs_resolve_id b) p)
  | OutOfFuel => False
  end.
Proof.
  intros Hb Hopt Hres Hid Hnew. unfold add_project.
  pose proof (get_or_insert_linked named b (p_id p) Hb) as Hg. rewrite Hid in Hg.
  destruct (pbs_get_or_insert_node b (p_id p)) as [i b1]. destruct Hg as (Hb1 & Hg1 & Hi1).
  assert (∀ k, pbs_resolve_id b1 k = pbs_resolve_id b k) as Hsame by (intros; by apply grown_resolve).
  pose proof (link_deps_linked named b1 (p_id p) i [] (p_dependencies p) Hb1 Hi1
    ltac:(intros k; by rewrite !Hsame)) as Hd. cbn zeta in Hd.
  assert (pbs_resolve_id b1 = pbs_resolve_id b) as Hsame'.
  { unfold pbs_resolve_id in *. by rewrite (gr_rest _ _ Hg1). }
  rewrite Hsame' in Hd. fold (declared_deps (pbs_resolve_id b) p) in Hd.
  destruct (ofold _ (b1, []) _) as [[b2 deps]|e|]; cbn [obind]; [|done..].
  destruct Hd as (Hb2 & Hg2 & ->). cbn [app].
  change (set_dependencies p _) with (linked_project (pbs_resolve_id b) p).
  set (p' := linked_project (pbs_resolve_id b) p).
  set (b3 := pbs_set_tasks b2 _ _ _ _).
  destruct (extract_tasks_data (p_id p') (p_tasks p').*2 b3) as [H4 Hdata].
  set (b4 := fold_left (extract_task_data (p_id p')) _ b3) in *.
  assert (grown b b2) as Hg by (by eapply grown_trans).
  assert (ids_to_indexes b4 = ids_to_indexes b2 ∧ pbs_graph b4 = pbs_graph b2) as [Hix Hgr] by
    (rewrite <- H4; done).
  destruct (insert_node_linked (named ++ declared_deps (pbs_resolve_id b) p) b4 p' i) as (Hb5 & H5 & Hl5).
  { destruct Hb2 as [Hw Hl]. split; rewrite Hgr; [done|by rewrite Hix]. }
  { rewrite Hix. eapply lookup_weaken; [exact Hi1|apply Hg2]. }
  assert (∀ id q, loaded_as b4 id q ↔ loaded_as b id q) as Hl4.
  { intros id q. rewrite <- (gr_loaded _ _ Hg). unfold loaded_as. by rewrite Hix, Hgr. }
  assert (∀ id q, loaded_as (pbs_insert_or_update_node b4 p') id q ↔
    loaded_as b id q ∨ (id = p_id p ∧ q = p')) as Hl.
  { intros id q. rewrite Hl5, Hl4. split; [tauto|]. intros [Hq|?]; [|by left].
    right. split; [|done]. intros ->. by eapply Hnew. }
  split; [done|]. split; [|split; [|done]].
  - intros id m target o Hm Ho. rewrite H5 in Hm. cbn in Hm. setoid_rewrite Hl.
    destruct (Hdata _ _ _ _ Hm Ho) as [(m' & Hm' & Ho')|[-> (t & Ht & <-)]].
    + assert (ids_to_target_options b !! id = Some m') as Hm0.
      { rewrite <- Hm'. cbn. by rewrite (gr_rest _ _ Hg). }
      destruct (Hopt _ _ _ _ Hm0 Ho') as (q & t & Hq & ?). exists q, t. split; [by left|done].
    + exists p', t. split; [by right|done].
  - assert (same_settings b2 b4) as [Hal Hroot] by (rewrite <- H4; done).
    unfold same_settings. rewrite H5. cbn [aliases_to_ids pbs_root_id pbs_set_graph].
    rewrite Hal, Hroot. by rewrite (gr_rest _ _ Hg).
Qed.

Lemma add_projects_linked named b ps :
  pbs_linked named b → options_ok b →
  (∀ k, pbs_resolve_id b (pbs_resolve_id b k) = pbs_resolve_id b k) →
  Forall (λ p, pbs_resolve_id b (p_id p) = p_id p ∧ ∀ q, ¬ loaded_as b (p_id p) q) ps →
  NoDup (p_id <$> ps) →
  let declared := flat_map (declared_deps (pbs_resolve_id b)) ps in
  match ofold add_project b ps with
  | Ok b' => pbs_linked (named ++ declared) b' ∧ options_ok b' ∧ same_settings b b' ∧
      ∀ id q, loaded_as b' id q ↔ loaded_as b id q ∨
        ∃ p, p ∈ ps ∧ id = p_id p ∧ q = linked_project (pbs_resolve_id b) p
  | Err e => (∃ a c, e = RProjectGraph (PG_WouldCycle a c)) ∧
      ¬ named_acyclic is_production_group (named ++ declared)
  | OutOfFuel => False
  end.
Proof.
  revert named b. induction ps as [|p ps IH]; intros named b Hb Hopt Hres Hps Hnd declared.
  { cbn. rewrite app_nil_r. split_and!; [done..|]. intros id q. split; [by left|].
    intros [?|(p & Hp & _)]; [done|]. by apply elem_of_nil in Hp. }
  apply Forall_cons in Hps as [[Hid Hnew] Hps]. apply NoDup_cons in Hnd as [Hni Hnd].
  cbn [ofold]. pose proof (add_project_linked named b p Hb Hopt Hres Hid Hnew) as Hp.
  change declared with (declared_deps (pbs_resolve_id b) p ++ flat_map (declared_deps (pbs_resolve_id b)) ps).
  rewrite (assoc_L (++)).
  destruct (add_project b p) as [b1|e|]; cbn [obind]; [|..|done].
  - destruct Hp as (Hb1 & Hopt1 & [Hal Hroot] & Hl1).
    assert (pbs_resolve_id b1 = pbs_resolve_id b) as Hsame by (unfold pbs_resolve_id; by rewrite Hal).
    pose proof (IH _ b1 Hb1 Hopt1) as IH'. rewrite Hsame in IH'.
    specialize (IH' Hres). specialize (IH' ltac:(
      apply Forall_forall; intros q Hq; rewrite Forall_forall in Hps; destruct (Hps q Hq) as [H1 H2];
      split; [done|]; intros q'; rewrite Hl1; intros [?|[Heq _]]; [by eapply H2|];
      apply Hni; rewrite <- Heq; by apply list_elem_of_fmap_2)).
    specialize (IH' Hnd). cbn zeta in IH'.
    destruct (ofold add_project b1 ps) as [b2|e|]; [|done..].
    destruct IH' as (Hb2 & Hopt2 & [Hal2 Hroot2] & Hl2). split; [done|]. split; [done|].
    split; [split; congruence|]. intros id q. rewrite Hl2, Hl1. setoid_rewrite elem_of_cons. naive_solver.
  - destruct Hp as [[dep ->] Hc]. split; [eauto|]. intros Hac. apply Hc.
    eapply named_acyclic_mono; [|exact Hac]. intros x Hx. apply elem_of_app. by left.
Qed.
End Projects.

(** ** Tasks *)

Section Tasks.
Context {TB : DagOps (NodeState Task) TaskDependencyType} {LB : DagLaws TB} {UB : DagUpdate TB}
  {LU : DagUpdateLaws UB LB}.
Implicit Types (b : WorkspaceTasksBuilder TB).

Abbreviation task_named := (list (Target * Target * TaskDependencyType)).

(** All edges are in one partition. *)
Definition one_part : TaskDependencyType → bool := λ _, true.

Lemma one_part_all (es : list (nat * nat * TaskDependencyType)) :
  edges_where (in_part one_part true) es = es.
Proof. apply edges_where_all. Qed.

Record tbs_linked (named : task_named) b : Prop := {
  tl_wf : dag_wf (tbs_graph b);
  tl_linked : linked t_target one_part named (targets_to_indexes b) (dag_nodes (tbs_graph b))
                (dag_edges (tbs_graph b));
}.

Definition task_loaded_as b (target : Target) (t : Task) : Prop :=
  ∃ i, targets_to_indexes b !! target = Some i ∧ dag_nodes (tbs_graph b) !! i = Some (Loaded t).

Record task_grown b b' : Prop := {
  tgr_indexes : targets_to_indexes b ⊆ targets_to_indexes b';
  tgr_loaded : ∀ target t, task_loaded_as b' target t ↔ task_loaded_as b target t;
}.

Lemma task_grown_refl b : task_grown b b.
Proof. done. Qed.

Lemma task_grown_trans b1 b2 b3 : task_grown b1 b2 → task_grown b2 b3 → task_grown b1 b3.
Proof.
  intros [H1 H2] [H3 H4]. split; [by etrans|]. intros target t. by rewrite H4, H2.
Qed.

Lemma tbs_linked_new : tbs_linked [] WorkspaceTasksBuilder_new.
Proof.
  split; cbn; [apply dag_new_wf|]. rewrite dag_new_nodes, dag_new_edges. apply linked_empty.
Qed.

Lemma task_get_or_insert_linked named b k :
  tbs_linked named b →
  let '(i, b') := tbs_get_or_insert_node b k in
  tbs_linked named b' ∧ task_grown b b' ∧ targets_to_indexes b' !! k = Some i.
Proof.
  intros [Hw Hl]. unfold tbs_get_or_insert_node. destruct (targets_to_indexes b !! k) as [i|] eqn:Hi.
  { split; [done|]. split; [apply task_grown_refl|done]. }
  destruct (dag_add_node (tbs_graph b) Loading) as [i g] eqn:Ha.
  destruct (dag_add_node_law _ _ _ _ Hw Ha) as (Hw' & -> & Hn & He). split; [|split].
  - split; cbn; [done|]. rewrite Hn, He. by apply linked_new.
  - split; cbn; [by apply insert_subseteq|]. intros target t. unfold task_loaded_as. cbn. rewrite Hn.
    split.
    + intros (i & Hx & Hp). apply lookup_insert_Some in Hx as [[<- <-]|[Hne Hx]].
      { by rewrite lookup_app_r, Nat.sub_diag in Hp. }
      exists i. split; [done|]. rewrite lookup_app_l in Hp; [done|].
      by eapply (kd_range _ _ _ (lk_keyed _ _ _ _ _ _ Hl)).
    + intros (i & Hx & Hp). exists i. split; [by rewrite lookup_insert_ne by congruence|].
      by apply lookup_app_l_Some.
  - cbn. by rewrite lookup_insert_eq.
Qed.

(** The edges a task declares. *)
Definition task_declared (t : Task) : task_named :=
  map (λ d, (t_target t, dep_target d, dep_type d)) (t_deps t).

Lemma link_task_linked named b t i d :
  tbs_linked named b → targets_to_indexes b !! t_target t = Some i →
  let new := [(t_target t, dep_target d, dep_type d)] in
  match link_task_step t i b d with
  | Ok b' => tbs_linked (named ++ new) b' ∧ task_grown b b'
  | Err e => e = RTaskGraph (TG_WouldCycle (id (t_target t)) (id (dep_target d))) ∧
      ¬ named_acyclic one_part (named ++ new)
  | OutOfFuel => False
  end.
Proof.
  intros Hb Hi new. unfold link_task_step.
  pose proof (task_get_or_insert_linked named b (dep_target d) Hb) as Hg.
  destruct (tbs_get_or_insert_node b _) as [j b']. destruct Hg as (Hb' & Hgr & Hj).
  assert (targets_to_indexes b' !! t_target t = Some i) as Hi' by
    (eapply lookup_weaken; [exact Hi|apply Hgr]).
  pose proof Hb' as [Hw Hl]. pose proof (lk_keyed _ _ _ _ _ _ Hl) as Hk.
  assert (i < length (dag_nodes (tbs_graph b'))) as Hlt by by eapply (kd_range _ _ _ Hk).
  assert (j < length (dag_nodes (tbs_graph b'))) as Hlt' by by eapply (kd_range _ _ _ Hk).
  destruct (dag_add_edge (tbs_graph b') i j (dep_type d)) as [[x g]|] eqn:Ha; cbn.
  - destruct (dag_add_edge_Some _ _ _ _ _ _ Hw Hlt Hlt' Ha) as (H1 & _ & H3 & H4 & H5). split.
    + split; cbn; [done|]. rewrite H3, H4. apply linked_edge; [done..|].
      by rewrite one_part_all.
    + eapply task_grown_trans; [exact Hgr|]. split; cbn; [done|]. intros target q.
      unfold task_loaded_as. cbn. by rewrite H3.
  - split; [done|]. intros Hac. apply (Hac true (t_target t)).
    change true with (one_part (dep_type d)). eapply named_cycle; [exact Hl|done|done|].
    change (one_part _) with true. rewrite one_part_all. by eapply dag_add_edge_None.
Qed.

Lemma link_tasks_linked named b t i ds :
  tbs_linked named b → targets_to_indexes b !! t_target t = Some i →
  let declared := map (λ d, (t_target t, dep_target d, dep_type d)) ds in
  match ofold (link_task_step t i) b ds with
  | Ok b' => tbs_linked (named ++ declared) b' ∧ task_grown b b'
  | Err e => (∃ a c, e = RTaskGraph (TG_WouldCycle a c)) ∧ ¬ named_acyclic one_part (named ++ declared)
  | OutOfFuel => False
  end.
Proof.
  revert named b. induction ds as [|d ds IH]; intros named b Hb Hi declared.
  { cbn. rewrite app_nil_r. split; [done|apply task_grown_refl]. }
  cbn [ofold]. pose proof (link_task_linked named b t i d Hb Hi) as Hd. cbn zeta in Hd.
  change declared with ([(t_target t, dep_target d, dep_type d)] ++
    map (λ d, (t_target t, dep_target d, dep_type d)) ds). rewrite (assoc_L (++)).
  destruct (link_task_step t i b d) as [b1|e|]; cbn [obind]; [|..|done].
  - destruct Hd as [Hb1 Hg1]. pose proof (IH _ b1 Hb1
      ltac:(eapply lookup_weaken; [exact Hi|apply Hg1])) as IH'. cbn zeta in IH'.
    destruct (ofold _ b1 ds) as [b2|e|]; [|done..]. destruct IH' as [Hb2 Hg2]. split; [done|].
    by eapply task_grown_trans.
  - destruct Hd as [-> Hc]. split; [eauto|]. intros Hac. apply Hc.
    eapply named_acyclic_mono; [|exact Hac]. intros x Hx. apply elem_of_app. by left.
Qed.

Lemma add_task_linked named b t :
  tbs_linked named b →
  match add_task b t with
  | Ok b' => tbs_linked (named ++ task_declared t) b' ∧
      ∀ target q, task_loaded_as b' target q ↔
        (target = t_target t ∧ q = t) ∨ (target ≠ t_target t ∧ task_loaded_as b target q)
  | Err e => (∃ a c, e = RTaskGraph (TG_WouldCycle a c)) ∧
      ¬ named_acyclic one_part (named ++ task_declared t)
  | OutOfFuel => False
  end.
Proof.
  intros Hb. unfold add_task.
  pose proof (task_get_or_insert_linked named b (t_target t) Hb) as Hg.
  destruct (tbs_get_or_insert_node b _) as [i b1]. destruct Hg as (Hb1 & Hg1 & Hi1).
  pose proof (link_tasks_linked named b1 t i (t_deps t) Hb1 Hi1) as Hd. cbn zeta in Hd.
  fold (task_declared t) in Hd.
  destruct (ofold _ b1 _) as [b2|e|]; cbn [obind]; [|done..]. destruct Hd as [[Hw Hl] Hg2].
  assert (targets_to_indexes b2 !! t_target t = Some i) as Hi2 by
    (eapply lookup_weaken; [exact Hi1|apply Hg2]).
  pose proof (lk_keyed _ _ _ _ _ _ Hl) as Hk.
  assert (i < length (dag_nodes (tbs_graph b2))) as Hlt by by eapply (kd_range _ _ _ Hk).
  unfold tbs_insert_or_update_node. rewrite Hi2, dag_node_weight_law.
  destruct (lookup_lt_is_Some_2 _ _ Hlt) as [s Hs]. rewrite Hs.
  destruct (dag_set_weight_law (tbs_graph b2) i (Loaded t) Hw Hlt) as (H1 & H2 & H3). split.
  - split; cbn; [done|]. rewrite H2, H3. by apply linked_set.
  - intros target q. rewrite <- (tgr_loaded _ _ Hg1), <- (tgr_loaded _ _ Hg2).
    unfold task_loaded_as. cbn. rewrite H2. split.
    + intros (j & Hj & Hq). destruct (decide (target = t_target t)) as [->|Hne].
      * left. simplify_eq. rewrite list_lookup_insert_eq in Hq by done. by simplify_eq.
      * right. split; [done|]. exists j. split; [done|].
        rewrite list_lookup_insert_ne in Hq; [done|]. intros <-. destruct Hne.
        by eapply (kd_inj _ _ _ Hk).
    + intros [[-> ->]|[Hne (j & Hj & Hq)]].
      * exists i. by rewrite list_lookup_insert_eq.
      * exists j. split; [done|]. rewrite list_lookup_insert_ne; [done|]. intros <-. destruct Hne.
        by eapply (kd_inj _ _ _ Hk).
Qed.

Lemma tbs_build_linked named b ts :
  tbs_linked named b →
  let declared := flat_map task_declared ts in
  match tbs_build b ts with
  | Ok b' => tbs_linked (named ++ declared) b' ∧
      (∀ target q, task_loaded_as b' target q → task_loaded_as b target q ∨ (q ∈ ts ∧ t_target q = target)) ∧
      (∀ target, (∃ q, task_loaded_as b target q) ∨ target ∈ t_target <$> ts →
                 ∃ q, task_loaded_as b' target q)
  | Err e => (∃ a c, e = RTaskGraph (TG_WouldCycle a c)) ∧ ¬ named_acyclic one_part (named ++ declared)
  | OutOfFuel => False
  end.
Proof.
  revert named b. induction ts as [|t ts IH]; intros named b Hb declared.
  { cbn. rewrite app_nil_r. split_and!; [done|by left|]. intros target [?|Ht]; [done|].
    by apply elem_of_nil in Ht. }
  unfold tbs_build. cbn [ofold]. pose proof (add_task_linked named b t Hb) as Hp.
  change declared with (task_declared t ++ flat_map task_declared ts). rewrite (assoc_L (++)).
  destruct (add_task b t) as [b1|e|]; cbn [obind]; [|..|done].
  - destruct Hp as [Hb1 Hl1]. pose proof (IH _ b1 Hb1) as IH'. cbn zeta in IH'. unfold tbs_build in IH'.
    destruct (ofold add_task b1 ts) as [b2|e|]; [|done..]. destruct IH' as (Hb2 & Hin & Hout).
    split; [done|]. split.
    + intros target q Hq. destruct (Hin _ _ Hq) as [Hq1|[? ?]].
      * apply Hl1 in Hq1 as [[-> ->]|[_ ?]]; [right; split; [by left|done]|by left].
      * right. split; [by right|done].
    + intros target Ht. apply Hout. setoid_rewrite Hl1. cbn in Ht. rewrite elem_of_cons in Ht.
      destruct (decide (target = t_target t)) as [->|Hne]; [eauto|].
      destruct Ht as [[q Hq]|[?|?]]; [left; eauto|done|by right].
  - destruct Hp as [He Hc]. split; [done|]. intros Hac. apply Hc.
    eapply named_acyclic_mono; [|exact Hac]. intros x Hx. apply elem_of_app. by left.
Qed.
End Tasks.
