(* ===== verification/WorkspaceLoad.v ===== *)
(** * Loading a workspace

How the parts of the asynchronous builder fit together: the tasks that are taken
out of the linked projects depend on tasks that are taken out as well, so that
the finished task graph has an edge for every dependency. *)

From S2P Require Import Prelude Errors FileSystem PooledTasks Target GraphUtils Config Constraints Dag DiGraph.
From S2P Require Import NodeMaps ProjectGraph ProjectGraphFacts TaskDeps TaskDepsFacts.
From S2P Require Import ProjectBuilder WorkspaceData WorkspaceDataFacts WorkspaceNodes TaskGraph.
From S2P Require Import TaskGraphFacts WorkspaceGraph WorkspaceAsync WorkspaceBuilds.
From S2P Require Import WorkspaceAsyncFacts Shapes.

(** ** What the querent finds *)

Section Querent.
Context (aliases : gmap string Id) (options : gmap Id (gmap Target TaskOptions))
  (tag_targets : gmap Id (list Target)).

Abbreviation query := (workspace_query_tasks aliases options tag_targets).

(** A task of one of the projects, in the scope. *)
Definition found_in (ids : list Id) (scope : TargetTaskScope * string) (x : Target * TaskOptions) : Prop :=
  ∃ pid m, pid ∈ ids ∧ options !! default pid (aliases !! pid) = Some m ∧ m !! x.1 = Some x.2 ∧
    task_in_scope tag_targets scope x.1 = Ok true.

Lemma scope_steps_Ok scope tasks found l :
  ofold (scope_step tag_targets scope) found tasks = Ok l →
  ∀ x, x ∈ l ↔ x ∈ found ∨ (x ∈ tasks ∧ task_in_scope tag_targets scope x.1 = Ok true).
Proof.
  revert found. induction tasks as [|y tasks IH]; intros found Hs x; cbn [ofold] in Hs.
  { simplify_eq. rewrite elem_of_nil. tauto. }
  unfold scope_step at 1 in Hs. destruct (task_in_scope tag_targets scope y.1) as [b| |] eqn:Hy; [|done..].
  cbn [obind] in Hs. rewrite (IH _ Hs x), elem_of_cons. destruct b.
  - rewrite elem_of_app, list_elem_of_singleton. split; [|naive_solver].
    intros [[?| ->]|[? ?]]; eauto.
  - split; [naive_solver|]. intros [?|[[-> |?] Hx]]; eauto. by rewrite Hy in Hx.
Qed.

Lemma query_Ok ids scope l : query ids scope = Ok l → ∀ x, x ∈ l ↔ found_in ids scope x.
Proof.
  unfold query. intros Hq x. enough (∀ found, ofold (λ found project_id,
    match options !! default project_id (aliases !! project_id) with
    | Some tasks => ofold (scope_step tag_targets scope) found (map_to_list tasks)
    | None => Ok found
    end) found ids = Ok l → x ∈ l ↔ x ∈ found ∨ found_in ids scope x) as Hi.
  { rewrite (Hi [] Hq), elem_of_nil. tauto. }
  clear Hq. induction ids as [|pid ids IH]; intros found Hs; cbn [ofold] in Hs.
  { simplify_eq. split; [by left|]. intros [?|(? & ? & Hin & _)]; [done|]. by apply elem_of_nil in Hin. }
  assert (found_in (pid :: ids) scope x ↔ found_in ids scope x ∨
    ∃ m, options !! default pid (aliases !! pid) = Some m ∧ m !! x.1 = Some x.2 ∧
      task_in_scope tag_targets scope x.1 = Ok true) as ->.
  { unfold found_in. setoid_rewrite elem_of_cons. naive_solver. }
  destruct (options !! default pid (aliases !! pid)) as [m|] eqn:Hm.
  - destruct (ofold (scope_step tag_targets scope) found (map_to_list m)) as [f1| |] eqn:Hf; [|done..].
    cbn [obind] in Hs. rewrite (IH _ Hs), (scope_steps_Ok _ _ _ _ Hf). destruct x as [t o].
    rewrite elem_of_map_to_list. cbn. naive_solver.
  - rewrite (IH _ Hs). naive_solver.
Qed.
End Querent.

(** ** Taking the tasks out of the projects *)

Section Extract.
Context {GB : DiGraphOps (NodeState Project) DependencyScope} {LB : DiGraphLaws GB}.
Context (querent : TasksQuerent) (root_id : option Id).

(** [t'] is the task [t] with its dependencies resolved, for some state of its
    project. *)
Definition task_extracted (p : Project) (t t' : Task) : Prop :=
  (t_deps t = [] ∧ t' = t) ∨
  ∃ p1 p2, extends p p1 ∧ TaskDepsBuilder_build querent root_id p1 t = Ok (p2, t').

Lemma task_deps_project p t p' t' :
  TaskDepsBuilder_build querent root_id p t = Ok (p', t') →
  extends p p' ∧ ∃ deps, t' = set_deps t deps.
Proof.
  unfold TaskDepsBuilder_build. destruct (ofold _ (p, []) _) as [[p1 deps]| |] eqn:Hf; [|done..].
  intros [= <- <-]. destruct (dep_configs_Ok _ _ _ _ _ _ _ _ (NoDup_nil_2) Hf) as (He & _). eauto.
Qed.

Lemma task_extracted_target p t t' : task_extracted p t t' → t_target t' = t_target t.
Proof. intros [[_ ->]|(p1 & p2 & _ & [_ [deps ->]]%task_deps_project)]; done. Qed.

Lemma extract_task_loop p tasks ts p' tasks' :
  ofold (extract_task querent root_id) (p, tasks) ts = Ok (p', tasks') →
  extends p p' ∧ ∃ new, tasks' = tasks ++ new ∧ Forall2 (task_extracted p) ts new.
Proof.
  revert p tasks. induction ts as [|t ts IH]; intros p tasks Hs; cbn [ofold] in Hs.
  { simplify_eq. split; [apply extends_refl|]. exists []. by rewrite app_nil_r. }
  assert (∃ p1 t', extract_task querent root_id (p, tasks) t = Ok (p1, tasks ++ [t']) ∧ extends p p1 ∧
    task_extracted p t t') as (p1 & t' & H1 & He1 & Ht).
  { unfold extract_task in *. destruct (decide (t_deps t = [])) as [Hd|Hd].
    - exists p, t. split; [done|]. split; [apply extends_refl|by left].
    - destruct (TaskDepsBuilder_build querent root_id p t) as [[p1 t']| |] eqn:Hb; [|done..].
      exists p1, t'. split; [done|]. split; [by apply task_deps_project in Hb as [? _]|].
      right. exists p, p1. split; [apply extends_refl|done]. }
  rewrite H1 in Hs. cbn [obind] in Hs. destruct (IH _ _ Hs) as (He & new & -> & Hf).
  split; [by eapply extends_trans|]. exists (t' :: new). rewrite <- (assoc_L (++)). split; [done|].
  constructor; [done|]. eapply Forall2_impl; [exact Hf|].
  intros x x' [?|(q1 & q2 & Hq & ?)]; [by left|]. right. exists q1, q2. split; [by eapply extends_trans|done].
Qed.

(** A node before and after its tasks were taken. *)
Definition node_extracted (s s' : NodeState Project) : Prop :=
  match s, s' with
  | Loading, Loading => True
  | Loaded p, Loaded p' => extends (set_tasks p []) p'
  | _, _ => False
  end.

(** The tasks [ts] come from the projects that [at_index] selects. *)
Definition tasks_taken (nodes : list (NodeState Project)) (at_index : nat → Prop) (ts : list Task) : Prop :=
  (∀ t', t' ∈ ts → ∃ i p t, at_index i ∧ nodes !! i = Some (Loaded p) ∧ t ∈ (p_tasks p).*2 ∧
     task_extracted (set_tasks p []) t t') ∧
  (∀ i p t, at_index i → nodes !! i = Some (Loaded p) → t ∈ (p_tasks p).*2 →
     ∃ t', t' ∈ ts ∧ task_extracted (set_tasks p []) t t').

Lemma extract_nodes_Ok graph k graph' ts :
  dg_wf graph → k ≤ length (dg_nodes graph) →
  ofold (extract_node querent root_id) (graph, []) (seq 0 k) = Ok (graph', ts) →
  dg_wf graph' ∧ dg_edges graph' = dg_edges graph ∧
  length (dg_nodes graph') = length (dg_nodes graph) ∧
  (∀ i, k ≤ i → dg_nodes graph' !! i = dg_nodes graph !! i) ∧
  (∀ i s, i < k → dg_nodes graph !! i = Some s →
     ∃ s', dg_nodes graph' !! i = Some s' ∧ node_extracted s s') ∧
  tasks_taken (dg_nodes graph) (λ i, i < k) ts.
Proof.
  intros Hwf. revert graph' ts. induction k as [|k IH]; intros graph' ts Hk Hs.
  { cbn in Hs. simplify_eq. split_and!; [done..|intros; lia|]. split; [|intros; lia].
    intros t' Ht. by apply elem_of_nil in Ht. }
  rewrite seq_S, ofold_app in Hs.
  destruct (ofold _ _ (seq 0 k)) as [[g1 ts1]| |] eqn:H1; [|done..]. cbn [obind Nat.add ofold] in Hs.
  destruct (IH g1 ts1 ltac:(lia) eq_refl) as (Hw1 & He1 & Hl1 & Hge1 & Hlt1 & Hin1 & Hall1).
  assert (k < length (dg_nodes g1)) as Hkl by lia.
  unfold extract_node in Hs. rewrite dg_node_weight_law, (Hge1 k) in Hs by lia.
  destruct (lookup_lt_is_Some_2 (dg_nodes graph) k ltac:(lia)) as [s Hsk]. rewrite Hsk in Hs.
  destruct s as [p|].
  - destruct (ofold _ (set_tasks p [], ts1) _) as [[p' ts2]| |] eqn:H2; [|done..]. cbn in Hs. simplify_eq.
    apply extract_task_loop in H2 as (Hext & new & -> & Hnew).
    destruct (dg_set_weight_law g1 k (Loaded p') Hw1 Hkl) as (H3 & H4 & H5).
    split; [done|]. split; [congruence|]. split; [by rewrite H4, length_insert|]. split_and!.
    + intros i Hi. rewrite H4, list_lookup_insert_ne by lia. apply Hge1. lia.
    + intros i s Hi Hs. rewrite H4. destruct (decide (k = i)) as [<-|Hne].
      * simplify_eq. rewrite list_lookup_insert_eq by done. eauto.
      * rewrite list_lookup_insert_ne by done. apply Hlt1; [lia|done].
    + split.
      * intros t' [Ht|Ht]%elem_of_app.
        -- destruct (Hin1 t' Ht) as (i & q & t & ? & ?). exists i, q, t. split; [lia|done].
        -- apply list_elem_of_lookup in Ht as [x Hx].
           destruct (Forall2_lookup_r _ _ _ _ _ Hnew Hx) as (t & Htx & Hte).
           exists k, p, t. split; [lia|]. split; [done|]. split; [by eapply list_elem_of_lookup_2|done].
      * intros i q t Hi Hq Ht. destruct (decide (i = k)) as [->|Hne].
        -- simplify_eq. apply list_elem_of_lookup in Ht as [x Hx].
           destruct (Forall2_lookup_l _ _ _ _ _ Hnew Hx) as (t' & Htx & Hte). exists t'.
           split; [|done]. apply elem_of_app. right. by eapply list_elem_of_lookup_2.
        -- destruct (Hall1 i q t ltac:(lia) Hq Ht) as (t' & ? & ?). exists t'.
           split; [|done]. apply elem_of_app. by left.
  - cbn in Hs. simplify_eq. split_and!; [done..|intros; apply Hge1; lia| |].
    + intros i s Hi Hs. destruct (decide (i = k)) as [->|Hne]; [|apply Hlt1; [lia|done]].
      simplify_eq. exists Loading. split; [|done]. by rewrite (Hge1 k) by lia.
    + split.
      * intros t' Ht. destruct (Hin1 t' Ht) as (i & q & t & ? & ?). exists i, q, t. split; [lia|done].
      * intros i q t Hi Hq Ht. destruct (decide (i = k)) as [->|Hne]; [congruence|].
        apply (Hall1 i q t); [lia|done|done].
Qed.
End Extract.

Section Extracted.
Context {GB : DiGraphOps (NodeState Project) DependencyScope} {LB : DiGraphLaws GB}
  `{HP : ProjectHost, HW : WorkspaceHost, HI : IdSyntax}.
Implicit Types (b : WorkspaceProjectsBuilder GB).

Lemma linked_extracted {E} (part : E → bool) named index nodes nodes' edges :
  length nodes' = length nodes →
  (∀ i s', nodes' !! i = Some s' → ∃ s, nodes !! i = Some s ∧ node_extracted s s') →
  linked p_id part named index nodes edges → linked p_id part named index nodes' edges.
Proof.
  intros Hlen Hn [[Hr Hi Hc Hl] He Ha]. split; [|done|done]. split.
  - intros k i. rewrite Hlen. apply Hr.
  - done.
  - intros i. rewrite Hlen. apply Hc.
  - intros k i p Hk Hp. destruct (Hn _ _ Hp) as ([q|] & Hq & Hx); [|done].
    rewrite (extends_id _ _ Hx). by apply (Hl _ i q).
Qed.

(** The querent of a builder. *)
Definition querent_of b : TasksQuerent :=
  WorkspaceTasksQuerent (aliases_to_ids b) (ids_to_target_options b) (tags_to_ids b) (tags_to_targets b)
    (target_to_has_outputs b).

(** What [extract_tasks] returns. *)
Record extracted b (ts : list Task) b' : Prop := {
  ex_aliases : aliases_to_ids b' = aliases_to_ids b;
  ex_loaded : ∀ id p, loaded_as b id p →
    ∃ p', loaded_as b' id p' ∧ extends (set_tasks p []) p';
  ex_projects : ∀ id p', loaded_as b' id p' →
    ∃ p, loaded_as b id p ∧ extends (set_tasks p []) p';
  ex_tasks : ∀ t', t' ∈ ts → ∃ id p t, loaded_as b id p ∧ t ∈ (p_tasks p).*2 ∧
    task_extracted (querent_of b) (pbs_root_id b) (set_tasks p []) t t';
  ex_all : ∀ id p t, loaded_as b id p → t ∈ (p_tasks p).*2 →
    ∃ t', t' ∈ ts ∧ task_extracted (querent_of b) (pbs_root_id b) (set_tasks p []) t t';
}.

Lemma extract_tasks_linked named b ts b' :
  pbs_linked named b → extract_tasks b = Ok (ts, b') → pbs_linked named b' ∧ extracted b ts b'.
Proof.
  intros [Hw Hl]. unfold extract_tasks. fold (querent_of b). rewrite dg_node_count_law.
  destruct (ofold _ _ _) as [[g' ts']| |] eqn:Hf; [|done..]. intros [= <- <-].
  apply extract_nodes_Ok in Hf as (Hw' & He & Hlen & _ & Hlt & Hin & Hall); [|done|done].
  pose proof (lk_keyed _ _ _ _ _ _ Hl) as Hk.
  assert (∀ i s', dg_nodes g' !! i = Some s' →
    ∃ s, dg_nodes (pbs_graph b) !! i = Some s ∧ node_extracted s s') as Hback.
  { intros i s' Hs'. pose proof (lookup_lt_Some _ _ _ Hs') as Hi. rewrite Hlen in Hi.
    destruct (lookup_lt_is_Some_2 _ _ Hi) as [s Hs]. destruct (Hlt _ _ Hi Hs) as (s1 & Hs1 & Hx).
    simplify_eq. eauto. }
  split; [|split].
  - split; cbn; [done|]. rewrite He. by eapply linked_extracted.
  - done.
  - intros id p (i & Hi & Hp). destruct (Hlt i (Loaded p)) as ([p'|] & Hp' & Hx); [|done|..|done].
    + by eapply (kd_range _ _ _ Hk).
    + exists p'. split; [by exists i|done].
  - intros id p' (i & Hi & Hp'). cbn in Hi, Hp'. destruct (Hback _ _ Hp') as ([p|] & Hp & Hx); [|done].
    exists p. split; [by exists i|done].
  - intros t' Ht. destruct (Hin t' Ht) as (i & p & t & Hi & Hp & Hx).
    destruct (kd_cover _ _ _ Hk i Hi) as [id Hid]. exists id, p, t. split; [by exists i|done].
  - intros id p t (i & Hi & Hp) Ht. apply (Hall i p t); [by eapply (kd_range _ _ _ Hk)|done|done].
Qed.

(** The dependencies of an extracted task are extracted as well. *)
Lemma extracted_closed b ts b' t d :
  options_ok b → extracted b ts b' → t ∈ ts → d ∈ t_deps t → dep_target d ∈ t_target <$> ts.
Proof.
  intros Hopt [_ _ _ Hin Hall] Ht Hd. destruct (Hin t Ht) as (id & p & t0 & _ & _ & Hx).
  destruct Hx as [[Hnil ->]|(p1 & p2 & _ & Hb)]; [rewrite Hnil in Hd; by apply elem_of_nil in Hd|].
  unfold TaskDepsBuilder_build in Hb. destruct (ofold _ (p1, []) _) as [[p3 deps]| |] eqn:Hf; [|done..].
  injection Hb as <- <-.
  destruct (dep_configs_Ok _ _ _ _ _ _ _ _ (NoDup_nil_2) Hf) as (_ & _ & _ & Hfrom & _).
  destruct (Hfrom d Hd) as [Hnil|(c & q & l & _ & _ & _ & [(ids & skip & link & _ & Hq & _)] & Hm)].
  { by apply elem_of_nil in Hnil. }
  destruct Hm as (target & o & Hto & Hc).
  apply check_and_create_dep_Ok in Hc as (_ & -> & _).
  apply (query_Ok _ _ _ _ _ _ Hq) in Hto as (pid & m & _ & Hm & Ho & _). cbn [fst snd] in Ho.
  destruct (Hopt _ _ _ _ Hm Ho) as (q' & t' & Hq' & Ht' & <-).
  destruct (Hall _ _ _ Hq' Ht') as (t'' & Ht'' & Hx). rewrite <- (task_extracted_target _ _ _ _ _ Hx).
  by apply list_elem_of_fmap_2.
Qed.
End Extracted.

(** ** The builder *)

Section Load.
Context {GB : DiGraphOps (NodeState Project) DependencyScope} {LGB : DiGraphLaws GB}
  {TB : DagOps (NodeState Task) TaskDependencyType} {LTB : DagLaws TB} {UB : DagUpdate TB}
  {LUB : DagUpdateLaws UB LTB}
  `{HP : ProjectHost, HW : WorkspaceHost, HI : IdSyntax}.
Context (concurrency : nat) (sched : nat → nat) (ctx : WorkspaceBuilderContext).
Implicit Types (b : WorkspaceProjectsBuilder GB).

(** [ps] are the projects of the queue. *)
Definition projects_built (root : option Id) (mono : bool) (queue : list (Id * ProjectBuildData))
  (ps : list Project) : Prop :=
  Forall2 (λ d p, build_project ctx d.2 d.1 root mono = Ok p) queue ps.

Lemma projects_built_ids root mono queue ps :
  projects_built root mono queue ps → p_id <$> ps = queue.*1.
Proof.
  induction 1 as [|[id d] p queue ps Hp _ IH]; [done|]. cbn. rewrite IH.
  by rewrite (build_project_id _ _ _ _ _ _ _ Hp).
Qed.

(** The pool does what building one project after the other does. *)
Lemma build_graph_Ok b ids data b' :
  build_graph concurrency sched ctx b ids data = Ok b' ↔
  ∃ ps, projects_built (pbs_root_id b) (is_monorepo (pbs_repo_type b)) (build_queue ids data) ps ∧
    ofold add_project b ps = Ok b'.
Proof.
  unfold build_graph. rewrite (pool_result_Ok _ _ _ _ _ _ (run_pooled_tasks_spec concurrency sched _ _ _ _)).
  unfold run_sequentially, projects_built.
  generalize (pbs_root_id b) as root, (is_monorepo (pbs_repo_type b)) as mono. intros root mono.
  revert b. induction (build_queue ids data) as [|[id d] queue IH]; intros c; cbn [ofold].
  { split; [intros Hb; by exists []|]. intros (ps & Hps & Hb). by inversion Hps; subst. }
  unfold run_one at 1. cbn [obind].
  destruct (build_project ctx d id _ _) as [p| |] eqn:Hp; cbn [obind].
  - destruct (add_project c p) as [c1| |] eqn:Hc; cbn [obind].
    + rewrite IH. split.
      * intros (ps & Hps & Hb). exists (p :: ps). split; [by constructor|]. cbn. by rewrite Hc.
      * intros (ps & Hps & Hb). inversion Hps as [|? p' ? ps' Hp' Hps']; subst. cbn in *.
        assert (p' = p) as -> by congruence. rewrite Hc in Hb. eauto.
    + split; [done|]. intros (ps & Hps & Hb). inversion Hps as [|? p' ? ps' Hp' Hps']; subst. cbn in *.
      assert (p' = p) as -> by congruence. by rewrite Hc in Hb.
    + split; [done|]. intros (ps & Hps & Hb). inversion Hps as [|? p' ? ps' Hp' Hps']; subst. cbn in *.
      assert (p' = p) as -> by congruence. by rewrite Hc in Hb.
  - split; [done|]. intros (ps & Hps & _). inversion Hps as [|? p' ? ps' Hp' Hps']; subst. cbn in *. congruence.
  - split; [done|]. intros (ps & Hps & _). inversion Hps as [|? p' ? ps' Hp' Hps']; subst. cbn in *. congruence.
Qed.

Lemma build_queue_NoDup ids (data : ProjectBuildDataMap) : NoDup (build_queue ids data).*1.
Proof.
  unfold build_queue. rewrite merge_sort_Permutation.
  eapply sublist_NoDup; [apply (NoDup_fst_map_to_list data)|]. apply fmap_sublist, sublist_filter.
Qed.

Lemma build_queue_elem ids (data : ProjectBuildDataMap) id d :
  (id, d) ∈ build_queue ids data ↔ data !! id = Some d ∧ requested ids id = true.
Proof.
  unfold build_queue. rewrite merge_sort_Permutation, list_elem_of_filter, elem_of_map_to_list. cbn. tauto.
Qed.

(** What aliases do to identifiers. *)
Lemma alias_resolve aliases data b :
  alias_ok aliases data → aliases_to_ids b = aliases →
  (∀ k, pbs_resolve_id b (pbs_resolve_id b k) = pbs_resolve_id b k) ∧
  ∀ id, is_Some (data !! id) → pbs_resolve_id b id = id.
Proof.
  intros Hok <-. unfold pbs_resolve_id.
  assert (∀ id, is_Some (data !! id) → default id (aliases_to_ids b !! id) = id) as Hid.
  { intros id Hd. destruct (aliases_to_ids b !! id) as [x|] eqn:Hx; [|done].
    destruct (Hok _ _ Hx) as [Hn _]. rewrite Hn in Hd. by destruct Hd. }
  split; [|done]. intros k. destruct (aliases_to_ids b !! k) as [x|] eqn:Hx; cbn; [|by rewrite Hx].
  apply Hid. by destruct (Hok _ _ Hx).
Qed.

(** A builder that has not linked anything yet. *)
Definition unlinked b : Prop :=
  pbs_linked [] b ∧ ids_to_indexes b = ∅ ∧ ids_to_target_options b = ∅.

(** The builder has linked the projects [ps]. *)
Record projects_loaded (resolve : Id → Id) (ps : list Project) b : Prop := {
  pld_linked : pbs_linked (flat_map (declared_deps resolve) ps) b;
  pld_options : options_ok b;
  pld_loaded : ∀ id q, loaded_as b id q ↔ ∃ p, p ∈ ps ∧ id = p_id p ∧ q = linked_project resolve p;
}.

Lemma unlinked_loaded b id q : unlinked b → ¬ loaded_as b id q.
Proof. intros (_ & Hi & _) (i & Hx & _). by rewrite Hi, lookup_empty in Hx. Qed.

(** Linking succeeds exactly when no partition has a cycle. *)
Lemma add_projects_spec aliases data ids b ps :
  unlinked b → alias_ok aliases data → aliases_to_ids b = aliases →
  p_id <$> ps = (build_queue ids data).*1 →
  match ofold add_project b ps with
  | Ok b' => projects_loaded (pbs_resolve_id b) ps b' ∧ same_settings b b' ∧
      named_acyclic is_production_group (flat_map (declared_deps (pbs_resolve_id b)) ps)
  | Err e => (∃ a c, e = RProjectGraph (PG_WouldCycle a c)) ∧
      ¬ named_acyclic is_production_group (flat_map (declared_deps (pbs_resolve_id b)) ps)
  | OutOfFuel => False
  end.
Proof.
  intros Hun Hal Hb Hps. destruct (alias_resolve _ _ _ Hal Hb) as [Hres Hid].
  destruct (Hun) as (Hlk & _ & Hopt).
  pose proof (add_projects_linked [] b ps Hlk) as Hadd. cbn zeta in Hadd. cbn [app] in Hadd.
  assert (options_ok b) as Hok. { intros id m target o Hm. by rewrite Hopt, lookup_empty in Hm. }
  assert (Forall (λ p, pbs_resolve_id b (p_id p) = p_id p ∧ ∀ q, ¬ loaded_as b (p_id p) q) ps) as Hall.
  { apply Forall_forall. intros p Hp. split; [|intros q; by apply unlinked_loaded].
    apply Hid. apply (list_elem_of_fmap_2 p_id) in Hp. rewrite Hps in Hp.
    apply list_elem_of_fmap in Hp as ([id d] & -> & Hd). apply build_queue_elem in Hd as [Hd _]. eauto. }
  specialize (Hadd Hok Hres Hall ltac:(rewrite Hps; apply build_queue_NoDup)).
  destruct (ofold add_project b ps) as [b'|e|]; [|done..].
  destruct Hadd as (Hl & Hopt' & Hs & Hload). split; [|split; [done|]].
  - split; [done|done|]. intros id q. rewrite Hload. split; [|by right].
    intros [Hq|?]; [by apply unlinked_loaded in Hq|done].
  - by eapply linked_named_acyclic, Hl.
Qed.

(** A builder before [build], preloaded or not. *)
Definition fresh b : Prop := unlinked b ∧ aliases_to_ids b = ∅.

Lemma fresh_data b data paths renamed : fresh b → fresh (pbs_set_data b data paths renamed).
Proof. intros [([Hw Hl] & Hi & Ho) Ha]. split; [split; [split|]|]; done. Qed.

Lemma fresh_new : fresh WorkspaceProjectsBuilder_new.
Proof. split; [split; [apply pbs_linked_new|done]|done]. Qed.

Lemma alias_ok_empty data : alias_ok ∅ data.
Proof. intros a id Ha. by rewrite lookup_empty in Ha. Qed.

Lemma pbs_load_fresh arrive b data b' :
  fresh b → pbs_load ctx arrive b = Ok (data, b') → fresh b'.
Proof.
  intros Hf Hload. unfold pbs_load, pbs_load_build_data in Hload.
  destruct (gather_sources ctx) as [sources| |]; [|done..]. cbn [obind] in Hload.
  destruct (load_build_data _ _) as [[d r]| |]; [|done..]. cbn [obind] in Hload.
  destruct workspace_config_files; [cbn [obind] in Hload|done..].
  destruct (check_default_project ctx d); [cbn [obind] in Hload|done..]. injection Hload as <- <-.
  by apply fresh_data, fresh_data.
Qed.

Lemma pbs_preload_fresh arrive b b' : fresh b → pbs_preload ctx arrive b = Ok b' → fresh b'.
Proof.
  intros Hf. unfold pbs_preload. destruct (pbs_load ctx arrive b) as [[d b1]| |] eqn:Hl; [|done..].
  cbn [obind]. intros [= <-]. apply fresh_data, (pbs_load_fresh _ _ _ _ Hf Hl).
Qed.

Lemma extend_build_data_ok b data data' b' :
  fresh b → extend_build_data ctx b data = Ok (data', b') →
  unlinked b' ∧ alias_ok (aliases_to_ids b') data'.
Proof.
  intros [Hu Ha]. unfold extend_build_data.
  destruct (extend_project_build_data_with_plugins _) as [outputs| |]; [|done..]. cbn [obind].
  destruct (ofold _ _ outputs) as [[[paths al] da]| |] eqn:Hf; [|done..]. cbn [obind]. intros [= <- <-].
  split; [by destruct Hu as ([? ?] & ? & ?)|]. cbn.
  apply (ofold_ind (λ s : gset WorkspaceRelativePath * gmap string Id * ProjectBuildDataMap,
    alias_ok s.1.2 s.2)) in Hf; [done| |].
  - intros [[p1 a1] d1] [[pl out] tc] [[p2 a2] d2] _ H1 H2. by apply apply_extend_ok in H2 as [? _].
  - cbn. rewrite Ha. apply alias_ok_empty.
Qed.

(** What [build] does before it builds the projects: the build data, and the builder
    that [build_graph] starts with. *)
Definition pbs_prepare (arrive : list (Id * WorkspaceRelativePath) → list (Id * WorkspaceRelativePath)) b :
  result (ProjectBuildDataMap * WorkspaceProjectsBuilder GB) :=
  let? ' (data, b) :=
    if decide (build_data b = ∅) then pbs_load ctx arrive b
    else Ok (build_data b, pbs_set_data b ∅ (pbs_config_paths b) (renamed_ids b)) in
  let? ' (data, b) := extend_build_data ctx b data in
  let '(repo_type, root_id) := determine_repo_type data (pbs_root_id b) in
  Ok (data, pbs_set_repo b repo_type root_id).

Lemma pbs_build_Ok arrive b ids b' :
  pbs_build concurrency sched ctx arrive b ids = Ok b' ↔
  ∃ data b0, pbs_prepare arrive b = Ok (data, b0) ∧ build_graph concurrency sched ctx b0 ids data = Ok b'.
Proof.
  unfold pbs_build, pbs_prepare.
  destruct (if decide (build_data b = ∅) then _ else _) as [[data b1]| |]; cbn [obind];
    [|by split; [|intros (? & ? & ? & _)]..].
  destruct (extend_build_data ctx b1 data) as [[data2 b2]| |]; cbn [obind];
    [|by split; [|intros (? & ? & ? & _)]..].
  destruct (determine_repo_type data2 (pbs_root_id b2)) as [rt root]. split.
  - intros Hb. eauto.
  - intros (? & ? & [= <- <-] & Hb). done.
Qed.

Lemma pbs_prepare_ok arrive b data b0 :
  fresh b → pbs_prepare arrive b = Ok (data, b0) → unlinked b0 ∧ alias_ok (aliases_to_ids b0) data.
Proof.
  intros Hf. unfold pbs_prepare.
  destruct (if decide (build_data b = ∅) then _ else _) as [[data1 b1]| |] eqn:Hl; [|done..]. cbn [obind].
  assert (fresh b1) as Hf1.
  { destruct (decide (build_data b = ∅)); [by eapply pbs_load_fresh|]. injection Hl as <- <-. by apply fresh_data. }
  destruct (extend_build_data ctx b1 data1) as [[data2 b2]| |] eqn:He; [|done..]. cbn [obind].
  destruct (determine_repo_type data2 (pbs_root_id b2)) as [rt root]. intros [= <- <-].
  destruct (extend_build_data_ok _ _ _ _ Hf1 He) as [Hu Hal].
  split; [by destruct Hu as ([? ?] & ? & ?)|done].
Qed.

(** ** The order in which things happen *)

Lemma pbs_load_order arrive1 arrive2 b r :
  (∀ l, arrive1 l ≡ₚ l) → (∀ l, arrive2 l ≡ₚ l) →
  pbs_load ctx arrive1 b = Ok r → pbs_load ctx arrive2 b = Ok r.
Proof.
  intros H1 H2. unfold pbs_load, pbs_load_build_data. destruct (gather_sources ctx) as [sources| |]; [|done..].
  cbn [obind]. destruct (load_build_data (renamed_ids b) (arrive1 sources)) as [x| |] eqn:Hl; [|done..].
  rewrite (load_build_data_order _ (arrive1 sources) (arrive2 sources) _ ltac:(by rewrite H1, H2) Hl). done.
Qed.
End Load.

Section Order.
Context {GB : DiGraphOps (NodeState Project) DependencyScope}
  {TB : DagOps (NodeState Task) TaskDependencyType} {UB : DagUpdate TB}
  `{HP : ProjectHost, HW : WorkspaceHost, HI : IdSyntax}.

Lemma pbs_build_order c1 s1 arrive1 c2 s2 arrive2 ctx (b : WorkspaceProjectsBuilder GB) ids b' :
  (∀ l, arrive1 l ≡ₚ l) → (∀ l, arrive2 l ≡ₚ l) →
  pbs_build c1 s1 ctx arrive1 b ids = Ok b' → pbs_build c2 s2 ctx arrive2 b ids = Ok b'.
Proof.
  intros H1 H2. unfold pbs_build.
  destruct (if decide (build_data b = ∅) then pbs_load ctx arrive1 b else _) as [[data b1]| |] eqn:Hl; [|done..].
  assert ((if decide (build_data b = ∅) then pbs_load ctx arrive2 b
    else Ok (build_data b, pbs_set_data b ∅ (pbs_config_paths b) (renamed_ids b))) = Ok (data, b1)) as ->.
  { destruct (decide (build_data b = ∅)); [by apply (pbs_load_order ctx arrive1 arrive2)|done]. }
  cbn [obind]. destruct (extend_build_data ctx b1 data) as [[data2 b2]| |]; [|done..]. cbn [obind].
  destruct (determine_repo_type data2 _) as [rt root]. by rewrite !build_graph_Ok.
Qed.

Lemma load_graphs_order c1 s1 arrive1 c2 s2 arrive2 ctx (b : WorkspaceBuilderAsync GB TB) ids b' :
  (∀ l, arrive1 l ≡ₚ l) → (∀ l, arrive2 l ≡ₚ l) →
  load_graphs_of c1 s1 arrive1 ctx b ids = Ok b' → load_graphs_of c2 s2 arrive2 ctx b ids = Ok b'.
Proof.
  intros H1 H2. unfold load_graphs_of. destruct (has_loaded_graphs b); [done|].
  destruct (pbs_build c1 s1 ctx arrive1 _ ids) as [p| |] eqn:Hb; [|done..].
  by rewrite (pbs_build_order _ _ _ c2 s2 _ _ _ _ _ H1 H2 Hb).
Qed.
End Order.
