(* ===== verification/WorkspaceResult.v ===== *)
(** * The workspace graph of the asynchronous builder

What [load_graphs] and [build] of [WorkspaceBuilderAsync] return: a project graph
and a task graph that keep their invariants, with an edge for every declared
dependency and no other, in which expanding a task always ends. *)

From S2P Require Import Prelude Errors FileSystem PooledTasks Target GraphUtils Config Constraints Query Dag.
From S2P Require Import DiGraph NodeMaps ProjectGraph ProjectGraphFacts TaskDeps TaskDepsFacts.
From S2P Require Import ProjectBuilder WorkspaceData WorkspaceDataFacts WorkspaceNodes TaskGraph.
From S2P Require Import TaskGraphFacts WorkspaceGraph WorkspaceGraphFacts WorkspaceAsync.
From S2P Require Import WorkspaceBuilds WorkspaceAsyncFacts WorkspaceLoad Shapes.

Section Result.
Context {GB : DiGraphOps (NodeState Project) DependencyScope} {LGB : DiGraphLaws GB}
  {TB : DagOps (NodeState Task) TaskDependencyType} {LTB : DagLaws TB} {UB : DagUpdate TB}
  {LUB : DagUpdateLaws UB LTB}
  `{HP : ProjectHost, HW : WorkspaceHost, HI : IdSyntax}.
Context (concurrency : nat) (sched : nat → nat)
  (arrive : list (Id * WorkspaceRelativePath) → list (Id * WorkspaceRelativePath))
  (ctx : WorkspaceBuilderContext).
Implicit Types (b : WorkspaceBuilderAsync GB TB).

(** The builder has linked the projects [ps] and the tasks [ts]. *)
Record workspace_loaded (resolve : Id → Id) (ps : list Project) (ts : list Task) b : Prop := {
  wl_projects : pbs_linked (flat_map (declared_deps resolve) ps) (wba_projects b);
  wl_loaded : ∀ id, (∃ q, loaded_as (wba_projects b) id q) ↔ id ∈ p_id <$> ps;
  wl_tasks : tbs_linked (flat_map task_declared ts) (wba_tasks b);
  wl_task_loaded : ∀ target q, task_loaded_as (wba_tasks b) target q → q ∈ ts ∧ t_target q = target;
  wl_task_all : ∀ target, target ∈ t_target <$> ts → ∃ q, task_loaded_as (wba_tasks b) target q;
  wl_closed : ∀ t d, t ∈ ts → d ∈ t_deps t → dep_target d ∈ t_target <$> ts;
}.

(** Where the projects and the tasks come from: the projects are those that are
    asked for, built from the build data, and the tasks are theirs. *)
Record workspace_sources (ids : option (list Id)) (ps : list Project) (ts : list Task) b : Prop := {
  ws_projects : ∃ data q, pbs_prepare ctx arrive WorkspaceProjectsBuilder_new = Ok (data, q) ∧
    aliases_to_ids q = aliases_to_ids (wba_projects b) ∧
    projects_built ctx (pbs_root_id q) (is_monorepo (pbs_repo_type q)) (build_queue ids data) ps;
  ws_tasks : ∀ t', t' ∈ ts → ∃ p t, p ∈ ps ∧ t ∈ (p_tasks p).*2 ∧ t_target t' = t_target t;
  ws_all : ∀ p t, p ∈ ps → t ∈ (p_tasks p).*2 → t_target t ∈ t_target <$> ts;
}.

Lemma task_new_unloaded target q : ¬ task_loaded_as (TB := TB) WorkspaceTasksBuilder_new target q.
Proof. intros (i & Hi & _). cbn in Hi. by rewrite lookup_empty in Hi. Qed.

Lemma load_graphs_Ok ids b :
  load_graphs_of concurrency sched arrive ctx WorkspaceBuilderAsync_new ids = Ok b →
  ∃ ps ts, workspace_loaded (pbs_resolve_id (wba_projects b)) ps ts b ∧ workspace_sources ids ps ts b.
Proof.
  unfold load_graphs_of, has_loaded_graphs. cbn [wba_projects wba_tasks WorkspaceBuilderAsync_new pbs_graph
    WorkspaceProjectsBuilder_new].
  rewrite dg_node_count_law, (proj1 (proj2 dg_new_law)). cbn [length Nat.ltb Nat.leb].
  destruct (pbs_build _ _ _ _ _ _) as [p1| |] eqn:Hb; [|done..]. cbn [obind].
  destruct (extract_tasks p1) as [[ts p2]| |] eqn:He; [|done..]. cbn [obind].
  destruct (tbs_build _ ts) as [tb| |] eqn:Ht; [|done..]. cbn [obind]. intros [= <-].
  apply pbs_build_Ok in Hb as (data & b0 & Hprep & Hg).
  destruct (pbs_prepare_ok _ _ _ _ _ fresh_new Hprep) as [Hun Hal]. apply build_graph_Ok in Hg as (ps & Hps & Hadd).
  pose proof (add_projects_spec concurrency sched (aliases_to_ids b0) data ids b0 ps Hun Hal eq_refl
    (projects_built_ids _ _ _ _ _ Hps)) as Hs. rewrite Hadd in Hs. destruct Hs as ([Hl Ho Hq] & [Hsa _] & _).
  destruct (extract_tasks_linked _ _ _ _ Hl He) as [Hl2 Hex].
  pose proof (tbs_build_linked [] _ ts tbs_linked_new) as Hts. cbn zeta in Hts. rewrite Ht in Hts.
  destruct Hts as (Htl & Hin & Hall).
  assert (aliases_to_ids b0 = aliases_to_ids p2) as Hsame by by rewrite (ex_aliases _ _ _ Hex), Hsa.
  assert (pbs_resolve_id b0 = pbs_resolve_id p2) as Hres by (unfold pbs_resolve_id; by rewrite Hsame).
  rewrite Hres in *. exists ps, ts. split; split; cbn [wba_projects wba_tasks].
  - done.
  - intros id. split.
    + intros (q & (p & Hp & _)%(ex_projects _ _ _ Hex)). apply Hq in Hp as (p' & Hp' & -> & _).
      by apply list_elem_of_fmap_2.
    + intros (p & -> & Hp)%list_elem_of_fmap.
      destruct (ex_loaded _ _ _ Hex (p_id p) (linked_project (pbs_resolve_id p2) p)) as (q & Hq' & _);
        [apply Hq; eauto|eauto].
  - done.
  - intros target q Hx. destruct (Hin _ _ Hx) as [Hx'|?]; [by apply task_new_unloaded in Hx'|done].
  - intros target Hx. apply Hall. by right.
  - intros t d Hx Hd. by eapply extracted_closed.
  - eauto.
  - intros t' Hx. destruct (ex_tasks _ _ _ Hex t' Hx) as (id & p & t & Hp & Hpt & Htx).
    apply Hq in Hp as (p' & Hp' & -> & ->). exists p', t. split; [done|]. split; [done|].
    by eapply task_extracted_target.
  - intros p t Hp Hpt. destruct (ex_all _ _ _ Hex (p_id p) (linked_project (pbs_resolve_id p2) p) t)
      as (t' & Ht' & Htx); [apply Hq; eauto|done|].
    rewrite <- (task_extracted_target _ _ _ _ _ Htx). by apply list_elem_of_fmap_2.
Qed.

(** ** The finished graphs *)

Context {G : DiGraphOps nat DependencyScope} {LG : DiGraphLaws G}
  {D : DagOps nat DependencyScope} {LD : DagLaws D}
  {T : DagOps nat TaskDependencyType} {LT : DagLaws T}
  {M : DiGraphMap GB G} {LM : DiGraphMapLaws M LGB LG}
  {MT : DagMap TB T} {LMT : DagMapLaws MT LTB LT} {U : DagUpdate T} {LU : DagUpdateLaws U LT}.

(** A workspace graph with the projects [ps], the tasks [ts] and their declared
    dependencies. *)
Record workspace_built (resolve : Id → Id) (ps : list Project) (ts : list Task)
    (g : WorkspaceGraph G D T) : Prop := {
  wb_projects_ok : pg_ok (wg_projects g);
  wb_tasks_ok : tg_ok (wg_tasks g);
  wb_projects : tg_project_graph (wg_tasks g) = wg_projects g;
  wb_project_nodes : ∀ id, is_Some (pg_nodes (wg_projects g) !! id) ↔ id ∈ p_id <$> ps;
  wb_project_edges : ∀ a c scope,
    (∃ i j, pg_indexes (wg_projects g) !! i = Some a ∧ pg_indexes (wg_projects g) !! j = Some c ∧
            (i, j, scope) ∈ dg_edges (pg_graph (wg_projects g))) ↔
    (a, c, scope) ∈ flat_map (declared_deps resolve) ps ∧ c ∈ p_id <$> ps;
  wb_task_nodes : ∀ target, is_Some (tg_nodes (wg_tasks g) !! target) ↔ target ∈ t_target <$> ts;
  wb_task_values : ∀ target node, tg_nodes (wg_tasks g) !! target = Some node →
    tn_task node ∈ ts ∧ t_target (tn_task node) = target;
  wb_task_edges : ∀ a c e,
    (∃ i j, tg_indexes (wg_tasks g) !! i = Some a ∧ tg_indexes (wg_tasks g) !! j = Some c ∧
            (i, j, e) ∈ dag_edges (tg_graph (wg_tasks g))) ↔
    (a, c, e) ∈ flat_map task_declared ts;
}.

(** The loaded nodes that carry a key, and the edges between them. *)
Lemma linked_loaded_key {N K E} `{Countable K} (key : N → K) (part : E → bool) named index nodes edges k n :
  linked key part named index nodes edges →
  (key n = k ∧ ∃ i, nodes !! i = Some (Loaded n)) ↔ ∃ i, index !! k = Some i ∧ nodes !! i = Some (Loaded n).
Proof.
  intros Hl. pose proof (lk_keyed _ _ _ _ _ _ Hl) as Hk. split.
  - intros (<- & i & Hn). exists i. split; [|done].
    destruct (kd_cover _ _ _ Hk i) as [a Ha]; [by eapply lookup_lt_Some|].
    by rewrite (kd_loaded _ _ _ Hk _ _ _ Ha Hn).
  - intros (i & Hi & Hn). split; [by eapply (kd_loaded _ _ _ Hk)|eauto].
Qed.

Lemma linked_loaded_edge {N K E} `{Countable K} (key : N → K) (part : E → bool) named index nodes edges a c e :
  linked key part named index nodes edges →
  loaded_edge key nodes edges a c e ↔
  (a, c, e) ∈ named ∧ (∃ n i, index !! a = Some i ∧ nodes !! i = Some (Loaded n)) ∧
  (∃ m j, index !! c = Some j ∧ nodes !! j = Some (Loaded m)).
Proof.
  intros Hl. setoid_rewrite <- (linked_loaded_key _ _ _ _ _ _ _ _ Hl). split.
  - intros (i & j & n & m & Hi & Hj & <- & <- & He). split_and!; [|by eauto..].
    by apply (linked_loaded _ _ _ _ _ _ _ _ _ _ _ Hl Hi Hj).
  - intros (Hin & (n & <- & i & Hi) & (m & <- & j & Hj)). exists i, j, n, m. split_and!; [done..|].
    by apply (linked_loaded _ _ _ _ _ _ _ _ _ _ _ Hl Hi Hj).
Qed.

Lemma declared_source resolve ps a c scope :
  (a, c, scope) ∈ flat_map (declared_deps resolve) ps → a ∈ p_id <$> ps.
Proof.
  intros (p & Hp & Hin)%list_elem_of_In%in_flat_map. unfold declared_deps, declared_of in Hin.
  apply in_flat_map in Hin as (d & _ & Hd). destruct (is_root_scope d); [done|].
  destruct Hd as [[= <- _ _]|[]]. apply list_elem_of_fmap_2. by apply list_elem_of_In.
Qed.

Lemma task_declared_elem ts a c e :
  (a, c, e) ∈ flat_map task_declared ts ↔
  ∃ t d, t ∈ ts ∧ d ∈ t_deps t ∧ a = t_target t ∧ c = dep_target d ∧ e = dep_type d.
Proof.
  rewrite list_elem_of_In, in_flat_map. unfold task_declared. setoid_rewrite in_map_iff.
  setoid_rewrite <- list_elem_of_In. split.
  - intros (t & Ht & d & [= <- <- <-] & Hd). eauto 8.
  - intros (t & d & Ht & Hd & -> & -> & ->). eauto 8.
Qed.

(** A loaded workspace is finished whenever its constraints hold and the version
    control settings can be read. *)
Lemma wba_build_Ok resolve ps ts b :
  workspace_loaded resolve ps ts b →
  enforce_constraints ctx (pbs_graph (wba_projects b)) = Ok tt → read_vcs = Ok tt →
  ∃ g, wba_build ctx b = Ok g ∧ workspace_built resolve ps ts g.
Proof.
  intros [[Hpw Hpl] Hld [Htw Htl] Htin Htall Hcl] Hc Hv. unfold wba_build. rewrite Hc, Hv. cbn [obind].
  destruct (finalize_projects_ok ctx (aliases_to_ids (wba_projects b)) (pbs_graph (wba_projects b))
    (ids_to_indexes (wba_projects b)) Hpw (lk_keyed _ _ _ _ _ _ Hpl)) as (pg & Hpg & [Hp1 Hp2 Hp3] & _).
  { intros part. apply (lk_acyclic _ _ _ _ _ _ Hpl part). }
  unfold pbs_finalize. rewrite Hpg. cbn [obind].
  destruct (finalize_tasks_ok pg (tbs_graph (wba_tasks b)) (targets_to_indexes (wba_tasks b)) Htw
    (lk_keyed _ _ _ _ _ _ Htl)) as (tg & Htg & [Ht1 Ht2 Ht3] & Htp).
  { rewrite <- (one_part_all (dag_edges _)). apply (lk_acyclic _ _ _ _ _ _ Htl true). }
  unfold tbs_finalize. rewrite Htg. cbn [obind]. eexists. split; [done|].
  assert (∀ id q, loaded_as (wba_projects b) id q ↔ ∃ node, pg_nodes pg !! id = Some node ∧ pn_project node = q)
    as Hpn by (intros id q; by rewrite Hp2, (linked_loaded_key _ _ _ _ _ _ _ _ Hpl)).
  assert (∀ x q, task_loaded_as (wba_tasks b) x q ↔ ∃ node, tg_nodes tg !! x = Some node ∧ tn_task node = q)
    as Htn by (intros x q; by rewrite Ht2, (linked_loaded_key _ _ _ _ _ _ _ _ Htl)).
  split; cbn; [done..| | | | |].
  - intros id. rewrite <- Hld. setoid_rewrite Hpn. split.
    + intros [node Hn]. by exists (pn_project node), node.
    + intros (q & node & Hn & _). by exists node.
  - intros a c scope. rewrite Hp3, (linked_loaded_edge _ _ _ _ _ _ _ _ _ Hpl), <- !Hld.
    split; [by intros (? & _ & ?)|]. intros [Hin Hc']. split; [done|]. split; [|done].
    apply Hld. by eapply declared_source.
  - intros target. split.
    + intros [node Hn]. destruct (Htin target (tn_task node)) as [? <-]; [apply Htn; eauto|].
      by apply list_elem_of_fmap_2.
    + intros (q & Hq)%Htall. apply Htn in Hq as (node & Hn & _). by exists node.
  - intros target node Hn. apply Htin, Htn. eauto.
  - intros a c e. rewrite Ht3, (linked_loaded_edge _ _ _ _ _ _ _ _ _ Htl). split; [by intros [? _]|].
    intros Hin. split; [done|]. pose proof Hin as (t & d & Ht & Hd & -> & -> & ->)%task_declared_elem.
    split; [apply Htall; by apply list_elem_of_fmap_2|]. apply Htall. by eapply Hcl.
Qed.

(** ** Expanding the tasks of the finished graph *)

Context {GT : DiGraphOps nat TaskDependencyType} {C : DagGraph T GT} {LGT : DiGraphLaws GT}
  {LC : DagGraphLaws C LT LGT} `{HT : TaskHost}.

(** Expanding tokens does not add dependencies. *)
Definition tokens_keep_deps : Prop :=
  ∀ p t t' d, expand_tokens p t = Ok t' → d ∈ t_deps t' → ∃ d0, d0 ∈ t_deps t ∧ dep_target d0 = dep_target d.

(** A task only looks up tasks it has an edge to. *)
Lemma workspace_lookups resolve ps ts (g : WorkspaceGraph G D T) :
  workspace_built resolve ps ts g → tokens_keep_deps → lookups_linked (wg_tasks g).
Proof.
  intros Hb Hkeep target dep (pid & p & task & t & d & _ & _ & Hget & Htok & Hd & _ & ->).
  destruct (Hkeep _ _ _ _ Htok Hd) as (d0 & Hd0 & Hdt).
  unfold task_get_unexpanded in Hget. destruct (tg_nodes (wg_tasks g) !! target) as [node|] eqn:Hn.
  2: { by destruct (get_task_id target), (get_project_id target). }
  injection Hget as <-. destruct (wb_task_values _ _ _ _ Hb _ _ Hn) as [Hin <-].
  destruct (proj2 (wb_task_edges _ _ _ _ Hb (t_target (tn_task node)) (dep_target d) (dep_type d0)))
    as (i & j & Hi & Hj & He).
  { apply task_declared_elem. exists (tn_task node), d0. done. }
  exists i, j. split; [done|]. split; [done|]. exists (dep_type d0).
  by rewrite dag_graph_edges by apply Hb.
Qed.
End Result.
