(* ===== verification/WorkspaceBuilder.v ===== *)
(** * The sequential workspace builder ([crates/workspace])

[WorkspaceBuilder] ([workspace_builder.rs]) loads a project with the projects it
depends on, and a task with the tasks it depends on, by recursion. An edge to a
project that is still being loaded is deferred until the recursion has ended. *)

From S2P Require Import Prelude Errors FileSystem PooledTasks Target GraphUtils Config Constraints Dag DiGraph.
From S2P Require Import NodeMaps ProjectGraph TaskDeps ProjectBuilder WorkspaceData TaskGraph.
From S2P Require Import WorkspaceGraph WorkspaceAsync Shapes.

(** [TaskBuildData] ([tasks_builder.rs]) *)
Record TaskBuildData : Type := mkTaskBuildData {
  tbd_node_index : option nat;
  tbd_options : TaskOptions;
  tbd_tags : list Id;
  tbd_has_outputs : bool;
}.

(** [TaskBuildData::resolve_target] *)
Definition resolve_target `{IdSyntax} (target : Target) (project_data : ProjectBuildDataMap) :
  result Target :=
  let? project_id := get_project_id target in
  let? task_id := get_task_id target in
  Target_new (resolve_build_id project_id project_data) task_id.

(** ** [WorkspaceBuilderTasksQuerent] ([tasks_querent.rs]) *)

Section Querent.
Context (project_data : ProjectBuildDataMap) (projects_by_tag : gmap Id (list Id))
  (task_data : gmap Target TaskBuildData).

(** The closure of [query_tasks]: whether a task is one of the projects', and in
    the scope. *)
Definition data_in_scope (project_ids : list Id) (task_scope : TargetTaskScope * string)
  (x : Target * TaskBuildData) : option (Target * TaskOptions) :=
  match get_project_id x.1, get_task_id x.1 with
  | Ok other_project_id, Ok other_task_id =>
      if decide (other_project_id ∈ project_ids) then
        let matches := match task_scope with
                       | (TId, task_id) => bool_decide (other_task_id = task_id)
                       | (TTag, tag_id) => bool_decide (tag_id ∈ tbd_tags x.2)
                       end in
        if matches : bool then Some (x.1, tbd_options x.2) else None
      else None
  | _, _ => None
  end.

Definition builder_query_tasks (project_ids : list Id) (task_scope : TargetTaskScope * string) :
  result (list (Target * TaskOptions)) :=
  let project_ids := map (λ id, resolve_build_id id project_data) project_ids in
  Ok (omap (data_in_scope project_ids task_scope) (map_to_list task_data)).

Definition WorkspaceBuilderTasksQuerent : TasksQuerent :=
  mkTasksQuerent (λ tag, Ok (default [] (projects_by_tag !! tag))) builder_query_tasks
    (λ target, match task_data !! target with Some d => tbd_has_outputs d | None => false end).
End Querent.

(** ** The builder *)

(** [DeferredProjectEdge] *)
Record DeferredProjectEdge : Type := mkDeferredEdge {
  source_id : Id;
  source_index : nat;
  target_id : Id;
  target_index : nat;
  deferred_scope : DependencyScope;
}.

(** [WorkspaceBuilder] *)
Record WorkspaceBuilder {GB : DiGraphOps (NodeState Project) DependencyScope}
    {TB : DagOps (NodeState Task) TaskDependencyType} : Type := mkWorkspaceBuilder {
  deferred_project_edges : list DeferredProjectEdge;
  config_paths : list WorkspaceRelativePath;
  plugin_input_paths : gset WorkspaceRelativePath;
  aliases : gmap string Id;
  projects_by_tag : gmap Id (list Id);
  project_data : ProjectBuildDataMap;
  project_graph : DiGraph (DiGraphOps := GB);
  renamed_project_ids : gmap Id Id;
  repo_type : RepoType;
  root_project_id : option Id;
  task_data : gmap Target TaskBuildData;
  task_graph : Dag (DagOps := TB);
}.
Arguments WorkspaceBuilder : clear implicits.

Section Builder.
Context {GB : DiGraphOps (NodeState Project) DependencyScope}
  {TB : DagOps (NodeState Task) TaskDependencyType} {UB : DagUpdate TB}
  `{HP : ProjectHost, HW : WorkspaceHost, HI : IdSyntax}.
Context (ctx : WorkspaceBuilderContext).
Implicit Types (b : WorkspaceBuilder GB TB).

(** The builder with other projects in its graph, other deferred edges, other
    tasks, or other data. *)
Definition set_projects b (data : ProjectBuildDataMap) (graph : DiGraph) : WorkspaceBuilder GB TB :=
  mkWorkspaceBuilder _ _ (deferred_project_edges b) (config_paths b) (plugin_input_paths b) (aliases b)
    (projects_by_tag b) data graph (renamed_project_ids b) (repo_type b) (root_project_id b)
    (task_data b) (task_graph b).

Definition set_project_graph b (graph : DiGraph) : WorkspaceBuilder GB TB :=
  set_projects b (project_data b) graph.

Definition set_deferred b (edges : list DeferredProjectEdge) : WorkspaceBuilder GB TB :=
  mkWorkspaceBuilder _ _ edges (config_paths b) (plugin_input_paths b) (aliases b)
    (projects_by_tag b) (project_data b) (project_graph b) (renamed_project_ids b) (repo_type b)
    (root_project_id b) (task_data b) (task_graph b).

Definition set_task_data b (tags : gmap Id (list Id)) (data : gmap Target TaskBuildData) (graph : Dag) :
  WorkspaceBuilder GB TB :=
  mkWorkspaceBuilder _ _ (deferred_project_edges b) (config_paths b) (plugin_input_paths b) (aliases b)
    tags (project_data b) (project_graph b) (renamed_project_ids b) (repo_type b) (root_project_id b)
    data graph.

Definition set_build_data b (data : ProjectBuildDataMap) (paths : list WorkspaceRelativePath)
  (renamed : gmap Id Id) : WorkspaceBuilder GB TB :=
  mkWorkspaceBuilder _ _ (deferred_project_edges b) paths (plugin_input_paths b) (aliases b)
    (projects_by_tag b) data (project_graph b) renamed (repo_type b) (root_project_id b)
    (task_data b) (task_graph b).

Definition set_extended b (paths : gset WorkspaceRelativePath) (names : gmap string Id)
  (data : ProjectBuildDataMap) : WorkspaceBuilder GB TB :=
  mkWorkspaceBuilder _ _ (deferred_project_edges b) (config_paths b) paths names
    (projects_by_tag b) data (project_graph b) (renamed_project_ids b) (repo_type b)
    (root_project_id b) (task_data b) (task_graph b).

Definition set_repo_type b (type : RepoType) (root : option Id) : WorkspaceBuilder GB TB :=
  mkWorkspaceBuilder _ _ (deferred_project_edges b) (config_paths b) (plugin_input_paths b) (aliases b)
    (projects_by_tag b) (project_data b) (project_graph b) (renamed_project_ids b) type root
    (task_data b) (task_graph b).

(** ** Loading projects *)

(** [build_project] *)
Definition wb_build_project b (id : Id) : result Project :=
  let? build_data := ok_or (project_data b !! id)
    (Foreign "called `Option::unwrap()` on a `None` value") in
  build_project_with (λ dep, resolve_build_id dep (project_data b)) ctx build_data id
    (root_project_id b) (is_monorepo (repo_type b)).

(** The data a project leaves for the dependencies of tasks. *)
Definition record_project b (id : Id) (project : Project) : WorkspaceBuilder GB TB :=
  set_task_data b
    (fold_left (λ tags tag, entry_push tags tag id) (config_tags (p_config project)) (projects_by_tag b))
    (fold_left (λ data task,
       <[t_target task := mkTaskBuildData None (t_options task) (t_tags task) (has_outputs task)]> data)
       (p_tasks project).*2 (task_data b))
    (task_graph b).

Abbreviation project_loader :=
  (string → WorkspaceBuilder GB TB * gset Id → result (option (Id * nat) * (WorkspaceBuilder GB TB * gset Id))).

(** The body of the loop over the dependencies of a project. *)
Definition load_dep_step (load : project_loader) (id : Id) (index : nat)
  (s : WorkspaceBuilder GB TB * gset Id) (dep_config : ProjectDependencyConfig) :
  result (WorkspaceBuilder GB TB * gset Id) :=
  let '(b, cycle) := s in
  if decide (pdep_id dep_config ∈ cycle) then
    let dep_id := resolve_build_id (pdep_id dep_config) (project_data b) in
    match is_root_scope dep_config, project_data b !! dep_id ≫= bd_node_index with
    | false, Some dep_index =>
        Ok (set_deferred b (deferred_project_edges b ++
              [mkDeferredEdge id index dep_id dep_index (pdep_scope dep_config)]), cycle)
    | _, _ => Ok s
    end
  else
    let? ' (dep, (b, cycle)) := load (pdep_id dep_config) s in
    match dep with
    | Some (dep_id, dep_index) =>
        if is_root_scope dep_config then Ok (b, cycle)
        else if would_cycle_in_scope (project_graph b) index dep_index (pdep_scope dep_config)
        then Err (RProjectGraph (PG_WouldCycle id dep_id))
        else Ok (set_project_graph b
                   (dg_add_edge (project_graph b) index dep_index (pdep_scope dep_config)), cycle)
    | None => Ok (b, cycle)
    end.

(** [internal_load_project] *)
Fixpoint internal_load_project (fuel : nat) (id_or_alias : string)
  (s : WorkspaceBuilder GB TB * gset Id) : result (option (Id * nat) * (WorkspaceBuilder GB TB * gset Id)) :=
  match fuel with
  | 0 => OutOfFuel
  | S fuel' =>
      let '(b, cycle) := s in
      let id := resolve_build_id id_or_alias (project_data b) in
      if decide (id ∈ cycle) then Ok (None, s)
      else
        match project_data b !! id with
        | None => Err (RProjectGraph (UnconfiguredID id))
        | Some build_data =>
            match bd_node_index build_data with
            | Some index => Ok (Some (id, index), s)
            | None =>
                let '(index, graph) := dg_add_node (project_graph b) Loading in
                let b := set_projects b (<[id := bd_set_index build_data index]> (project_data b)) graph in
                let? project := wb_build_project b id in
                let? ' (b, _) :=
                  ofold (load_dep_step (internal_load_project fuel') id index)
                    (record_project b id project, {[id]} ∪ cycle) (p_dependencies project) in
                Ok (Some (id, index),
                    (set_project_graph b (dg_set_weight (project_graph b) index (Loaded project)), ∅))
            end
        end
  end.

(** Every nested call gives a project its node. *)
Definition project_fuel b : nat := S (size (project_data b)).

(** [connect_deferred_project_edges] *)
Definition connect_deferred b (edge : DeferredProjectEdge) : WorkspaceBuilder GB TB :=
  if would_cycle_in_scope (project_graph b) (source_index edge) (target_index edge) (deferred_scope edge)
  then b
  else set_project_graph b
         (dg_add_edge (project_graph b) (source_index edge) (target_index edge) (deferred_scope edge)).

Definition connect_deferred_project_edges b : WorkspaceBuilder GB TB :=
  fold_left connect_deferred (deferred_project_edges b) (set_deferred b []).

(** [load_project], [load_projects]; [order] is the order of the hash map. *)
Definition load_project b (id_or_alias : string) : result (WorkspaceBuilder GB TB) :=
  let? ' (_, (b, _)) := internal_load_project (project_fuel b) id_or_alias (b, ∅) in
  Ok (connect_deferred_project_edges b).

Definition load_projects (order : list Id → list Id) b : result (WorkspaceBuilder GB TB) :=
  ofold load_project b (order (map_to_list (project_data b)).*1).

(** ** Loading tasks *)

(** [tasks.remove(id)] *)
Definition tasks_remove (id : Id) (tasks : list (Id * Task)) : list (Id * Task) :=
  filter (λ t, t.1 ≠ id) tasks.

Definition tasks_get (id : Id) (tasks : list (Id * Task)) : option Task :=
  snd <$> List.find (λ t, bool_decide (t.1 = id)) tasks.

Abbreviation task_loader :=
  (Target → WorkspaceBuilder GB TB * gset Target → result (option nat * (WorkspaceBuilder GB TB * gset Target))).

(** The body of the loop over the dependencies of a task. *)
Definition load_task_dep_step (load : task_loader) (task : Task) (index : nat)
  (s : WorkspaceBuilder GB TB * gset Target) (dep_config : TaskDependencyConfig) :
  result (WorkspaceBuilder GB TB * gset Target) :=
  if decide (dep_target dep_config ∈ s.2) then Ok s
  else
    let? ' (dep, (b, cycle)) := load (dep_target dep_config) s in
    match dep with
    | Some dep_index =>
        let? ' (_, graph) := ok_or (dag_add_edge (task_graph b) index dep_index (dep_type dep_config))
          (RTaskGraph (TG_WouldCycle (id (t_target task)) (id (dep_target dep_config)))) in
        Ok (set_task_data b (projects_by_tag b) (task_data b) graph, cycle)
    | None => Ok (b, cycle)
    end.

(** The task is taken out of its project and its dependencies are resolved: the
    builder with the node of the task, and the task. *)
Definition take_task b (target : Target) (build_data : TaskBuildData) (project_index : nat)
  (project : Project) : result (nat * Task * WorkspaceBuilder GB TB) :=
  let '(index, graph) := dag_add_node (task_graph b) Loading in
  let data := <[target := mkTaskBuildData (Some index) (tbd_options build_data) (tbd_tags build_data)
                  (tbd_has_outputs build_data)]> (task_data b) in
  let? task_id := get_task_id target in
  let? task := ok_or (tasks_get task_id (p_tasks project))
    (Foreign "called `Option::unwrap()` on a `None` value") in
  let? ' (project, task) :=
    TaskDepsBuilder_build (WorkspaceBuilderTasksQuerent (project_data b) (projects_by_tag b) data)
      (root_project_id b) (set_tasks project (tasks_remove task_id (p_tasks project))) task in
  Ok (index, task,
      set_task_data
        (set_project_graph b (dg_set_weight (project_graph b) project_index (Loaded project)))
        (projects_by_tag b) data graph).

(** [internal_load_task] *)
Fixpoint internal_load_task (fuel : nat) (target : Target) (s : WorkspaceBuilder GB TB * gset Target) :
  result (option nat * (WorkspaceBuilder GB TB * gset Target)) :=
  match fuel with
  | 0 => OutOfFuel
  | S fuel' =>
      let '(b, cycle) := s in
      let? target := resolve_target target (project_data b) in
      if decide (target ∈ cycle) then Ok (None, s)
      else
        match task_data b !! target with
        | None =>
            let? task_id := get_task_id target in
            let? project_id := get_project_id target in
            Err (RProject (UnknownTask task_id project_id))
        | Some build_data =>
            match tbd_node_index build_data with
            | Some index => Ok (Some index, s)
            | None =>
                let? project_id := get_project_id target in
                let? ' (loaded, (b, _)) := internal_load_project (project_fuel b) project_id (b, ∅) in
                let? ' (_, project_index) :=
                  ok_or loaded (Foreign "Unable to load task, owning project does not exist!") in
                match dg_node_weight (project_graph b) project_index with
                | Some (Loaded project) =>
                    let? build_data := ok_or (task_data b !! target)
                      (Foreign "called `Option::unwrap()` on a `None` value") in
                    let? ' (index, task, b) := take_task b target build_data project_index project in
                    let? ' (b, _) :=
                      ofold (load_task_dep_step (internal_load_task fuel') task index)
                        (b, {[target]} ∪ cycle) (t_deps task) in
                    Ok (Some index,
                        (set_task_data b (projects_by_tag b) (task_data b)
                           (dag_set_weight (task_graph b) index (Loaded task)), ∅))
                | _ => Err (Foreign "Unable to load task, owning project is in a non-loaded state!")
                end
            end
        end
  end.

(** Every nested call gives a task its node. *)
Definition task_fuel b : nat := S (size (task_data b)).

(** [load_task] *)
Definition load_task b (target : Target) : result (WorkspaceBuilder GB TB) :=
  let? ' (_, (b, _)) := internal_load_task (task_fuel b) target (b, ∅) in
  Ok (connect_deferred_project_edges b).

(** The targets of the tasks that are still in their projects. *)
Definition loaded_targets (graph : DiGraph (DiGraphOps := GB)) : list Target :=
  flat_map (λ index,
    match dg_node_weight graph index with
    | Some (Loaded project) => map t_target (p_tasks project).*2
    | _ => []
    end) (seq 0 (dg_node_count graph)).

(** [load_tasks] *)
Definition load_tasks b : result (WorkspaceBuilder GB TB) :=
  ofold load_task b (loaded_targets (project_graph b)).

(** ** Preparing *)

(** [preload_build_data], with [load_project_build_data] *)
Definition preload_build_data b : result (WorkspaceBuilder GB TB) :=
  let? sources := gather_sources ctx in
  let paths := flat_map (λ s, map (source_join s.2) project_file_names) sources in
  let? ' (data, renamed) := load_build_data ∅ sources in
  let? files := workspace_config_files in
  let data := data ∪ project_data b in
  let? _ := check_default_project ctx data in
  Ok (set_build_data b data (config_paths b ++ paths ++ files) (renamed ∪ renamed_project_ids b)).

(** [WorkspaceBuilder::new] *)
Definition WorkspaceBuilder_empty : WorkspaceBuilder GB TB :=
  mkWorkspaceBuilder _ _ [] [] ∅ ∅ ∅ ∅ dg_new ∅ RepoUnknown None ∅ dag_new.

Definition WorkspaceBuilder_new : result (WorkspaceBuilder GB TB) :=
  let? b := preload_build_data WorkspaceBuilder_empty in
  let '(type, root) := determine_repo_type (project_data b) (root_project_id b) in
  Ok (set_repo_type b type root).

(** [extend_projects_from_extensions], [extend_projects_from_toolchains] *)
Definition extend_projects_from (configured is_toolchain : bool)
  (extend_all : gmap Id WorkspaceRelativePath → result (list (Id * ExtendProjectGraphOutput))) b :
  result (WorkspaceBuilder GB TB) :=
  if negb configured then Ok b
  else
    let? outputs := extend_all (map_project_sources (project_data b)) in
    let? ' (paths, names, data) :=
      ofold (λ s '(plugin_id, output), apply_extend_output ctx s plugin_id output is_toolchain)
        (plugin_input_paths b, aliases b, project_data b) outputs in
    Ok (set_extended b paths names data).

(** [extend_projects_from_plugins] *)
Definition extend_projects_from_plugins b : result (WorkspaceBuilder GB TB) :=
  let? b := extend_projects_from extensions_configured false extend_with_extensions b in
  extend_projects_from toolchains_configured true extend_with_toolchains b.

(** What [new_with_cache] does without a cache. *)
Definition load_workspace (order : list Id → list Id) b : result (WorkspaceBuilder GB TB) :=
  let? b := extend_projects_from_plugins b in
  let? b := load_projects order b in
  load_tasks b.

(** ** The workspace graph *)

(** [build] *)
Definition wb_build {G : DiGraphOps nat DependencyScope} {D : DagOps nat DependencyScope}
  {T : DagOps nat TaskDependencyType} {M : DiGraphMap GB G} {MT : DagMap TB T} {U : DagUpdate T} b :
  result (WorkspaceGraph G D T) :=
  let? _ := enforce_constraints ctx (project_graph b) in
  let? _ := read_vcs in
  let? projects := finalize_projects ctx (aliases b) (project_graph b) in
  let? tasks := finalize_tasks projects (task_graph b) in
  Ok (WorkspaceGraph_new projects tasks (ctx_workspace_root ctx)).
End Builder.
