(* ===== verification/WorkspaceBuilderFacts.v ===== *)
(** * Loading projects one after the other

The recursion of [internal_load_project] ends, links only declared dependencies,
keeps every partition of the graph free of cycles, and leaves a dependency out
only where it would close a cycle. *)

From S2P Require Import Prelude Errors FileSystem PooledTasks Target GraphUtils Config Constraints Dag DiGraph.
From S2P Require Import NodeMaps ProjectGraph ProjectGraphFacts TaskDeps TaskDepsFacts.
From S2P Require Import ProjectBuilder WorkspaceData WorkspaceDataFacts WorkspaceNodes TaskGraph.
From S2P Require Import WorkspaceGraph WorkspaceAsync WorkspaceBuilds WorkspaceAsyncFacts.
From S2P Require Import WorkspaceBuilder Shapes.

Section Projects.
Context {GB : DiGraphOps (NodeState Project) DependencyScope} {LB : DiGraphLaws GB}
  {TB : DagOps (NodeState Task) TaskDependencyType} {UB : DagUpdate TB}
  `{HP : ProjectHost, HW : WorkspaceHost, HI : IdSyntax}.
Context (ctx : WorkspaceBuilderContext).
Implicit Types (b : WorkspaceBuilder GB TB) (named : list (Id * Id * DependencyScope)).

(** Building a project reads neither indexes nor how identifiers are resolved
    other than by calling it. *)
Lemma build_project_with_ext r1 r2 d1 d2 id root mono :
  (∀ k, r1 k = r2 k) → bd_set_index d1 0 = bd_set_index d2 0 →
  build_project_with r1 ctx d1 id root mono = build_project_with r2 ctx d2 id root mono.
Proof.
  intros Hr [= Ha Hc He _ Hs]. unfold build_project_with. rewrite Ha, Hc, He, Hs.
  destruct (negb _); [done|].
  destruct (match bd_config d2 with Some _ => _ | None => _ end) as [b1| |]; [|done..]. cbn.
  destruct (inherit_global_configs b1) as [b2| |]; [|done..]. cbn.
  rewrite (ofold_ext (extend_builder r1) (extend_builder r2)); [done|].
  intros s e. unfold extend_builder. erewrite ofold_ext; [done|]. intros b x. cbn. by rewrite Hr.
Qed.

(** ** The state of the builder *)

(** The nodes of the projects. *)
Definition index_of b : gmap Id nat := omap bd_node_index (project_data b).

Definition wb_loaded b (id : Id) (p : Project) : Prop :=
  ∃ i, index_of b !! id = Some i ∧ dg_nodes (project_graph b) !! i = Some (Loaded p).

(** The names of the projects, the projects, and what building one of them gives. *)
Context (names : gmap string Id) (ids : list Id) (proj : Id → result Project)
  (tasks : Dag (DagOps := TB)).

Definition res (k : string) : Id := default k (names !! k).

(** Dependencies between the projects. *)
Definition all_declared : list (Id * Id * DependencyScope) :=
  flat_map (λ id, match proj id with Ok p => declared_deps res p | _ => [] end) ids.

(** Which edges are linked, or will be. *)
Definition accounted (named : list (Id * Id * DependencyScope)) (pend : list DeferredProjectEdge)
  (a c : Id) (scope : DependencyScope) : Prop :=
  (a, c, scope) ∈ named ∨
  (∃ e, e ∈ pend ∧ source_id e = a ∧ target_id e = c ∧ deferred_scope e = scope) ∨
  scope_path named scope c a.

Definition deps_accounted named pend (id : Id) (ds : list ProjectDependencyConfig) : Prop :=
  ∀ d, d ∈ ds → is_root_scope d = false → res (pdep_id d) = pdep_id d →
    accounted named pend id (pdep_id d) (pdep_scope d).

(** The builder while the projects of [stack] are being loaded. *)
Record loading (stack : gset Id) named pend b : Prop := {
  ld_names : alias_ok names (project_data b) ∧ alias_exact names (project_data b);
  ld_ids : ∀ id, is_Some (project_data b !! id) ↔ id ∈ ids;
  ld_proj : ∀ id, id ∈ ids → wb_build_project ctx b id = proj id;
  ld_wf : dg_wf (project_graph b);
  ld_linked : linked p_id is_production_group named (index_of b) (dg_nodes (project_graph b))
                (dg_edges (project_graph b));
  ld_stack : ∀ id, id ∈ stack ↔
    ∃ i, index_of b !! id = Some i ∧ dg_nodes (project_graph b) !! i = Some Loading;
  ld_loaded : ∀ id p, wb_loaded b id p → proj id = Ok p ∧ deps_accounted named pend id (p_dependencies p);
  ld_recorded : ∀ id p t, wb_loaded b id p → t ∈ (p_tasks p).*2 → is_Some (task_data b !! t_target t);
  ld_task_data : ∀ target d, task_data b !! target = Some d → tbd_node_index d = None ∧
    ∃ id p t, is_Some (index_of b !! id) ∧ proj id = Ok p ∧ t ∈ (p_tasks p).*2 ∧ t_target t = target;
  ld_task_graph : task_graph b = tasks;
  ld_sound : ∀ x, x ∈ named → x ∈ all_declared;
  ld_pending : ∀ e, e ∈ pend → index_of b !! source_id e = Some (source_index e) ∧
    index_of b !! target_id e = Some (target_index e) ∧
    (source_id e, target_id e, deferred_scope e) ∈ all_declared;
}.

(** What loading adds. *)
Record wb_grown named b named' b' : Prop := {
  gw_named : ∀ x, x ∈ named → x ∈ named';
  gw_index : index_of b ⊆ index_of b';
  gw_pend : ∀ e, e ∈ deferred_project_edges b → e ∈ deferred_project_edges b';
  gw_tasks : ∀ x, is_Some (task_data b !! x) → is_Some (task_data b' !! x);
}.

Lemma wb_grown_refl named b : wb_grown named b named b.
Proof. by split. Qed.

Lemma wb_grown_trans n1 b1 n2 b2 n3 b3 :
  wb_grown n1 b1 n2 b2 → wb_grown n2 b2 n3 b3 → wb_grown n1 b1 n3 b3.
Proof. intros [H1 H2 H3 H7] [H4 H5 H6 H8]. split; [by eauto|by etrans|by eauto..]. Qed.

Lemma accounted_mono named pend named' pend' a c scope :
  (∀ x, x ∈ named → x ∈ named') → (∀ e, e ∈ pend → e ∈ pend') →
  accounted named pend a c scope → accounted named' pend' a c scope.
Proof.
  intros Hn Hp [H|[(e & He & Hs)|H]].
  - left. by apply Hn.
  - right. left. exists e. split; [by apply Hp|done].
  - right. right. by eapply scope_path_mono.
Qed.

Lemma index_of_lookup b id : index_of b !! id = project_data b !! id ≫= bd_node_index.
Proof. unfold index_of. by rewrite lookup_omap. Qed.

Lemma resolve_res stack named pend b k :
  loading stack named pend b → resolve_build_id k (project_data b) = res k.
Proof. intros Hl. apply resolve_build_id_spec; apply Hl. Qed.

(** A project is not an alias. *)
Lemma res_project stack named pend b id : loading stack named pend b → id ∈ ids → res id = id.
Proof.
  intros Hl Hid%(ld_ids _ _ _ _ Hl). unfold res. destruct (names !! id) as [x|] eqn:Hx; [|done].
  apply (proj1 (ld_names _ _ _ _ Hl)) in Hx as [Hn _]. rewrite Hn in Hid. by destruct Hid.
Qed.

Lemma indexed_project stack named pend b id i :
  loading stack named pend b → index_of b !! id = Some i → id ∈ ids.
Proof.
  intros Hl Hi. apply (ld_ids _ _ _ _ Hl). rewrite index_of_lookup in Hi.
  destruct (project_data b !! id); [by eexists|done].
Qed.

Lemma declared_elem id p d :
  id ∈ ids → proj id = Ok p → p_id p = id → d ∈ p_dependencies p → is_root_scope d = false →
  (id, res (pdep_id d), pdep_scope d) ∈ all_declared.
Proof.
  intros Hid Hp <- Hd Hr. unfold all_declared. apply list_elem_of_In, in_flat_map. exists (p_id p).
  split; [by apply list_elem_of_In|]. rewrite Hp. unfold declared_deps, declared_of. apply in_flat_map.
  exists d. split; [by apply list_elem_of_In|]. rewrite Hr. by left.
Qed.

(** ** Linking *)

(** The graph of the builder with one more edge, or a path back. *)
Lemma loading_edge stack named pend b a c i j scope :
  loading stack named pend b → index_of b !! a = Some i → index_of b !! c = Some j →
  (a, c, scope) ∈ all_declared →
  if would_cycle_in_scope (project_graph b) i j scope then scope_path named scope c a
  else loading stack (named ++ [(a, c, scope)]) pend
         (set_project_graph b (dg_add_edge (project_graph b) i j scope)).
Proof.
  intros Hl Hi Hj Hdec.
  pose proof (link_scope_edge (project_graph b) named (index_of b) a c i j scope (ld_wf _ _ _ _ Hl)
    (ld_linked _ _ _ _ Hl) Hi Hj) as He. destruct (would_cycle_in_scope _ i j scope); [done|].
  destruct He as (H1 & H2 & H3). destruct Hl as [Hn Hid Hpr _ _ Hst Hld Hrc Htd Htg Hs Hp]. split; try done.
  - intros id. rewrite Hst. by setoid_rewrite H2.
  - intros id p (k & Hk & Hkp). cbn in Hkp. rewrite H2 in Hkp. destruct (Hld id p) as [Hpp Hda]; [by exists k|].
    split; [done|]. intros d Hd Hr Hb. eapply accounted_mono; [| |by apply Hda]; [|done].
    intros x Hx. apply elem_of_app. by left.
  - intros id p t (k & Hk & Hkp). cbn in Hkp. rewrite H2 in Hkp. apply (Hrc id). by exists k.
  - intros x [Hx| ->%list_elem_of_singleton]%elem_of_app; [by apply Hs|done].
Qed.

(** ** Loading *)

(** The projects without a node. *)
Definition unindexed b : nat := size (project_data b) - size (index_of b).

(** What can go wrong. *)
Definition load_error (e : Report) : Prop :=
  (∃ a c, e = RProjectGraph (PG_WouldCycle a c) ∧ ¬ named_acyclic is_production_group all_declared) ∨
  (∃ id p d, id ∈ ids ∧ proj id = Ok p ∧ d ∈ p_dependencies p ∧ res (pdep_id d) ∉ ids ∧
     e = RProjectGraph (UnconfiguredID (res (pdep_id d)))) ∨
  (∃ id, id ∈ ids ∧ proj id = Err e).

(** The project that was asked for does not exist. *)
Definition unconfigured (k : string) (e : Report) : Prop :=
  e = RProjectGraph (UnconfiguredID (res k)) ∧ res k ∉ ids.

(** Loading a project, while the projects of [stack] are being loaded. *)
Definition load_spec (n : nat) (load : string → WorkspaceBuilder GB TB * gset Id →
    result (option (Id * nat) * (WorkspaceBuilder GB TB * gset Id))) : Prop :=
  ∀ stack named b cycle k,
    loading stack named (deferred_project_edges b) b → cycle ⊆ stack → unindexed b < n →
    match load k (b, cycle) with
    | Ok (r, (b', cycle')) => ∃ named',
        loading stack named' (deferred_project_edges b') b' ∧ wb_grown named b named' b' ∧
        cycle' ⊆ stack ∧
        match r with
        | Some (id, i) => id = res k ∧ index_of b' !! id = Some i
        | None => res k ∈ cycle
        end
    | Err e => load_error e ∨ unconfigured k e
    | OutOfFuel => False
    end.

(** Nodes are only added. *)
Lemma unindexed_grown stack stack' named pend named' pend' b b' :
  loading stack named pend b → loading stack' named' pend' b' → index_of b ⊆ index_of b' →
  unindexed b' ≤ unindexed b.
Proof.
  intros H1 H2 Hsub. unfold unindexed.
  assert (size (project_data b') = size (project_data b)) as ->.
  { rewrite <- !(size_dom (D := gset Id)). f_equal. apply set_eq. intros id. rewrite !elem_of_dom.
    by rewrite (ld_ids _ _ _ _ H1), (ld_ids _ _ _ _ H2). }
  enough (size (index_of b) ≤ size (index_of b')) by lia. by apply map_subseteq_size.
Qed.

(** A dependency that is being loaded. *)
Lemma loading_defer stack named b id i p d :
  loading stack named (deferred_project_edges b) b → id ∈ ids → index_of b !! id = Some i →
  proj id = Ok p → p_id p = id → d ∈ p_dependencies p → is_root_scope d = false →
  pdep_id d ∈ stack →
  ∃ j, project_data b !! resolve_build_id (pdep_id d) (project_data b) ≫= bd_node_index = Some j ∧
    let e := mkDeferredEdge id i (resolve_build_id (pdep_id d) (project_data b)) j (pdep_scope d) in
    let b' := set_deferred b (deferred_project_edges b ++ [e]) in
    loading stack named (deferred_project_edges b') b' ∧ wb_grown named b named b' ∧
    accounted named (deferred_project_edges b') id (pdep_id d) (pdep_scope d).
Proof.
  intros Hl Hid Hi Hp Hpid Hd Hr Hst. pose proof Hst as (j & Hj & _)%(ld_stack _ _ _ _ Hl).
  rewrite (resolve_res _ _ _ _ _ Hl).
  pose proof (res_project _ _ _ _ _ Hl (indexed_project _ _ _ _ _ _ Hl Hj)) as Hres.
  rewrite Hres, <- index_of_lookup. exists j. split; [done|]. cbn.
  assert (∀ e, e ∈ deferred_project_edges b → e ∈ deferred_project_edges b ++
    [mkDeferredEdge id i (pdep_id d) j (pdep_scope d)]) as Hmono.
  { intros e He. apply elem_of_app. by left. }
  split; [|split; [by split|]].
  - destruct Hl as [Hn Hids Hpr Hw Hlk Hs Hld Hrc Htd Htg Hsd Hpd]. split; try done.
    + intros id' p' Hl'. destruct (Hld id' p' Hl') as [H1 H2]. split; [done|].
      intros d' Hd' Hr' Hb'. eapply accounted_mono; [done|exact Hmono|by apply H2].
    + intros e [He| ->%list_elem_of_singleton]%elem_of_app; [by apply Hpd|]. cbn.
      split; [done|]. split; [done|]. rewrite <- Hres. by eapply declared_elem.
  - right. left. eexists. split; [apply elem_of_app; right; by left|done].
Qed.

Lemma load_dep_loading n load stack named b cycle id i p d :
  load_spec n load → loading stack named (deferred_project_edges b) b → cycle ⊆ stack →
  unindexed b < n → id ∈ ids → index_of b !! id = Some i → proj id = Ok p → p_id p = id →
  d ∈ p_dependencies p →
  match load_dep_step load id i (b, cycle) d with
  | Ok (b', cycle') => ∃ named',
      loading stack named' (deferred_project_edges b') b' ∧ wb_grown named b named' b' ∧
      cycle' ⊆ stack ∧ deps_accounted named' (deferred_project_edges b') id [d]
  | Err e => load_error e
  | OutOfFuel => False
  end.
Proof.
  intros Hload Hl Hc Hn Hid Hi Hp Hpid Hd. unfold load_dep_step.
  destruct (decide (pdep_id d ∈ cycle)) as [Hin|Hin].
  - assert (is_root_scope d = true → deps_accounted named (deferred_project_edges b) id [d]) as Hroot.
    { intros Hr d' ->%list_elem_of_singleton Hr'. congruence. }
    destruct (is_root_scope d) eqn:Hr.
    { exists named. split; [done|]. split; [apply wb_grown_refl|]. split; [done|by apply Hroot]. }
    destruct (loading_defer _ _ _ _ _ _ _ Hl Hid Hi Hp Hpid Hd Hr (Hc _ Hin)) as (j & -> & H1 & H2 & H3).
    exists named. split; [done|]. split; [done|]. split; [done|].
    intros d' ->%list_elem_of_singleton _ _. done.
  - pose proof (Hload stack named b cycle (pdep_id d) Hl Hc Hn) as Hx.
    destruct (load (pdep_id d) (b, cycle)) as [[r [b1 cycle1]]|e|]; cbn [obind]; [| |done].
    2: { destruct Hx as [?|[-> Hno]]; [done|]. right. left. by exists id, p, d. }
    destruct Hx as (named1 & Hl1 & Hg1 & Hc1 & Hr).
    assert (index_of b1 !! id = Some i) as Hi1 by (eapply lookup_weaken; [exact Hi|apply Hg1]).
    destruct r as [[dep_id j]|].
    + destruct Hr as [-> Hj]. destruct (is_root_scope d) eqn:Hr.
      { exists named1. split_and!; try done. intros d' ->%list_elem_of_singleton Hr'. congruence. }
      assert ((id, res (pdep_id d), pdep_scope d) ∈ all_declared) as Hdec by by eapply declared_elem.
      pose proof (loading_edge _ _ _ _ _ _ _ _ (pdep_scope d) Hl1 Hi1 Hj Hdec) as He.
      destruct (would_cycle_in_scope _ i j _).
      * left. eexists _, _. split; [done|]. eapply scope_path_cycle; [exact He|apply Hl1|done].
      * exists (named1 ++ [(id, res (pdep_id d), pdep_scope d)]). split; [exact He|]. split.
        { eapply wb_grown_trans; [exact Hg1|]. split; [|done..]. intros x Hx. apply elem_of_app. by left. }
        split; [done|]. intros d' ->%list_elem_of_singleton _ Hb. left. apply elem_of_app. right.
        rewrite Hb. by left.
    + exists named1. split_and!; try done. intros d' ->%list_elem_of_singleton _ Hb. by rewrite Hb in Hr.
Qed.

Lemma deps_accounted_grown named b named' b' id ds :
  wb_grown named b named' b' → deps_accounted named (deferred_project_edges b) id ds →
  deps_accounted named' (deferred_project_edges b') id ds.
Proof.
  intros [H1 _ H3 _] Hda d Hd Hr Hb. eapply accounted_mono; [exact H1|exact H3|by apply Hda].
Qed.

Lemma load_deps_loading n load stack named b cycle id i p ds :
  load_spec n load → loading stack named (deferred_project_edges b) b → cycle ⊆ stack →
  unindexed b < n → id ∈ ids → index_of b !! id = Some i → proj id = Ok p → p_id p = id →
  (∀ d, d ∈ ds → d ∈ p_dependencies p) →
  match ofold (load_dep_step load id i) (b, cycle) ds with
  | Ok (b', cycle') => ∃ named',
      loading stack named' (deferred_project_edges b') b' ∧ wb_grown named b named' b' ∧
      deps_accounted named' (deferred_project_edges b') id ds
  | Err e => load_error e
  | OutOfFuel => False
  end.
Proof.
  intros Hload Hl Hc Hn Hid Hi Hp Hpid Hds. revert named b cycle Hl Hc Hn Hi.
  induction ds as [|d ds IH]; intros named b cycle Hl Hc Hn Hi; cbn [ofold].
  { exists named. split; [done|]. split; [apply wb_grown_refl|]. intros d Hd. by apply elem_of_nil in Hd. }
  pose proof (load_dep_loading n load stack named b cycle id i p d Hload Hl Hc Hn Hid Hi Hp Hpid
    (Hds d ltac:(left))) as Hs.
  destruct (load_dep_step load id i (b, cycle) d) as [[b1 cycle1]|e|]; cbn [obind]; [|done..].
  destruct Hs as (named1 & Hl1 & Hg1 & Hc1 & Ha1).
  pose proof (unindexed_grown _ _ _ _ _ _ _ _ Hl Hl1 (gw_index _ _ _ _ Hg1)) as Hle.
  specialize (IH ltac:(intros x Hx; apply Hds; by right) named1 b1 cycle1 Hl1 Hc1 ltac:(lia)
    ltac:(eapply lookup_weaken; [exact Hi|apply Hg1])).
  destruct (ofold _ _ ds) as [[b2 cycle2]|e|]; [|done..].
  destruct IH as (named2 & Hl2 & Hg2 & Ha2). exists named2. split; [done|].
  split; [by eapply wb_grown_trans|]. intros x [->|Hx]%elem_of_cons; [|by apply Ha2].
  eapply (deps_accounted_grown _ _ _ _ _ _ Hg2 Ha1). by left.
Qed.

(** A new node for a project. *)
Lemma index_of_insert b id d i g :
  project_data b !! id = Some d →
  index_of (set_projects b (<[id := bd_set_index d i]> (project_data b)) g) = <[id := i]> (index_of b).
Proof. intros _. unfold index_of. cbn. by rewrite (omap_insert_Some _ _ _ _ i). Qed.

(** The number of projects without a node goes down. *)
Lemma unindexed_new b id d i g :
  project_data b !! id = Some d → bd_node_index d = None →
  S (unindexed (set_projects b (<[id := bd_set_index d i]> (project_data b)) g)) ≤ unindexed b.
Proof.
  intros Hd Hnone. assert (index_of b !! id = None) as Hno by by rewrite index_of_lookup, Hd.
  unfold unindexed. rewrite (index_of_insert b id d) by done. rewrite map_size_insert_None by done. cbn.
  rewrite map_size_insert_Some by by eexists.
  enough (size (index_of b) < size (project_data b)) by lia.
  rewrite <- !(size_dom (D := gset Id)). apply subset_size. split.
  - intros x. rewrite !elem_of_dom, index_of_lookup. destruct (project_data b !! x); [by eexists|].
    by intros [? ?].
  - intros Hsub. assert (id ∈ dom (index_of b)) as [? ?]%elem_of_dom; [|congruence].
    apply Hsub, elem_of_dom. by eexists.
Qed.

(** Indexes change neither names nor projects. *)
Lemma reindexed_names b id d i g :
  project_data b !! id = Some d →
  alias_ok names (project_data b) ∧ alias_exact names (project_data b) →
  let b' := set_projects b (<[id := bd_set_index d i]> (project_data b)) g in
  (alias_ok names (project_data b') ∧ alias_exact names (project_data b')) ∧
  (∀ x, is_Some (project_data b' !! x) ↔ is_Some (project_data b !! x)) ∧
  ∀ x, wb_build_project ctx b' x = wb_build_project ctx b x.
Proof.
  intros Hd [Hn1 Hn2] b'.
  assert (dom (<[id := bd_set_index d i]> (project_data b)) = dom (project_data b)) as Hdom by
    (apply dom_insert_lookup_L; eauto).
  assert (alias_ok names (project_data b') ∧ alias_exact names (project_data b')) as Hnames.
  { split; [by eapply alias_ok_dom|by eapply alias_exact_update]. }
  split; [done|]. split; [intros x; cbn; by rewrite <- !elem_of_dom, Hdom|].
  intros x. unfold wb_build_project.
  assert (∀ k, resolve_build_id k (project_data b') = resolve_build_id k (project_data b)) as Hres.
  { intros k. rewrite (resolve_build_id_spec names) by apply Hnames.
    by rewrite (resolve_build_id_spec names). }
  cbn in *. destruct (decide (x = id)) as [->|Hne].
  - rewrite lookup_insert_eq, Hd. cbn. by apply build_project_with_ext.
  - rewrite lookup_insert_ne by done. destruct (project_data b !! x); [|done]. cbn.
    by apply build_project_with_ext.
Qed.

Lemma loading_new stack named pend b id d :
  loading stack named pend b → project_data b !! id = Some d → bd_node_index d = None →
  let '(i, g) := dg_add_node (project_graph b) Loading in
  let b' := set_projects b (<[id := bd_set_index d i]> (project_data b)) g in
  loading ({[id]} ∪ stack) named pend b' ∧ index_of b' = <[id := i]> (index_of b) ∧ id ∉ stack.
Proof.
  intros Hl Hd Hnone. destruct (dg_add_node_law (project_graph b) Loading (ld_wf _ _ _ _ Hl)) as (H1 & H2 & H3 & H4).
  destruct (dg_add_node _ Loading) as [i g]. cbn in H1, H2, H3, H4. subst i.
  set (i := length (dg_nodes (project_graph b))) in *. intros b'.
  assert (index_of b !! id = None) as Hno by by rewrite index_of_lookup, Hd.
  assert (index_of b' = <[id := i]> (index_of b)) as Hix by by apply index_of_insert.
  assert (id ∉ stack) as Hns by (intros (j & Hj & _)%(ld_stack _ _ _ _ Hl); congruence).
  split; [|done]. destruct Hl as [Hn Hids Hpr Hw Hlk Hst Hld Hrc Htd Htg Hsd Hpd].
  destruct (reindexed_names b id d i g Hd Hn) as (Hnames & Hdom & Hbuild).
  assert (∀ x j, index_of b !! x = Some j → j < i) as Hrange
    by (intros x j Hj; eapply (kd_range _ _ _ (lk_keyed _ _ _ _ _ _ Hlk)); exact Hj).
  assert (∀ x p, wb_loaded b' x p → wb_loaded b x p) as Holder.
  { intros x p (j & Hj & Hjn). rewrite Hix in Hj. cbn in Hjn. rewrite H3 in Hjn.
    apply lookup_insert_Some in Hj as [[<- <-]|[Hne Hj]].
    { unfold i in Hjn. by rewrite list_lookup_middle in Hjn. }
    rewrite lookup_app_l in Hjn by by eapply Hrange. by exists j. }
  split; rewrite ?Hix; cbn [project_graph set_projects b']; try done.
  - intros x. by rewrite <- Hids, <- Hdom.
  - intros x Hx. by rewrite <- Hpr, <- Hbuild by done.
  - rewrite H3, H4. by apply linked_new.
  - intros x. rewrite elem_of_union, elem_of_singleton, Hst, H3. split.
    + intros [->|(j & Hj & Hjn)].
      * exists i. by rewrite lookup_insert_eq, list_lookup_middle.
      * exists j. rewrite lookup_insert_ne by congruence. rewrite lookup_app_l by by eapply Hrange. done.
    + intros (j & [[<- <-]|[Hne Hj]]%lookup_insert_Some & Hjn); [by left|right].
      rewrite lookup_app_l in Hjn by by eapply Hrange. eauto.
  - intros x p Hx%Holder. by apply Hld.
  - intros x p t Hx%Holder. by apply (Hrc x).
  - intros x y Hx. destruct (Htd x y Hx) as (E1 & id' & p & t & E2 & E3). split; [done|].
    exists id', p, t. split; [|done]. apply lookup_insert_is_Some'. by right.
  - intros e (He1 & He2 & He3)%Hpd. split_and!; [| |done].
    all: rewrite lookup_insert_ne; [done|congruence].
Qed.

(** A project whose dependencies are linked. *)
Lemma loading_done stack named b id i p :
  loading ({[id]} ∪ stack) named (deferred_project_edges b) b → id ∉ stack → index_of b !! id = Some i →
  proj id = Ok p → p_id p = id → deps_accounted named (deferred_project_edges b) id (p_dependencies p) →
  (∀ t, t ∈ (p_tasks p).*2 → is_Some (task_data b !! t_target t)) →
  let b' := set_project_graph b (dg_set_weight (project_graph b) i (Loaded p)) in
  loading stack named (deferred_project_edges b') b'.
Proof.
  intros [Hn Hids Hpr Hw Hlk Hst Hld Hrc Htd Htg Hsd Hpd] Hns Hi Hp Hpid Ha Hts b'.
  assert (i < length (dg_nodes (project_graph b))) as Hlt
    by by eapply (kd_range _ _ _ (lk_keyed _ _ _ _ _ _ Hlk)).
  destruct (dg_set_weight_law (project_graph b) i (Loaded p) Hw Hlt) as (H1 & H2 & H3).
  assert (∀ x j, index_of b !! x = Some j → x ≠ id → i ≠ j) as Hne.
  { intros x j Hj Hx ->. apply Hx. by eapply (kd_inj _ _ _ (lk_keyed _ _ _ _ _ _ Hlk)). }
  assert (∀ x q, wb_loaded b' x q → (x = id ∧ q = p) ∨ wb_loaded b x q) as Hloaded.
  { intros x q (j & Hj & Hjq). cbn in Hjq. rewrite H2 in Hjq. destruct (decide (x = id)) as [->|Hx].
    - assert (i = j) as <- by (change (index_of b !! id = Some j) in Hj; congruence).
      rewrite list_lookup_insert_eq in Hjq by done. injection Hjq as <-. by left.
    - rewrite list_lookup_insert_ne in Hjq by by eapply Hne. right. by exists j. }
  split; cbn [project_graph set_projects set_project_graph b' deferred_project_edges]; try done.
  - rewrite H2, H3. apply linked_set; [done|by rewrite Hpid].
  - intros x. rewrite H2. split.
    + intros Hx. destruct (proj1 (Hst x)) as (j & Hj & Hjn); [set_solver|]. exists j. split; [done|].
      rewrite list_lookup_insert_ne; [done|]. apply (Hne x); [done|]. intros ->. done.
    + intros (j & Hj & Hjn). destruct (decide (x = id)) as [->|Hx].
      * assert (i = j) as <- by (change (index_of b !! id = Some j) in Hj; congruence). by rewrite list_lookup_insert_eq in Hjn.
      * rewrite list_lookup_insert_ne in Hjn by by eapply Hne.
        assert (x ∈ {[id]} ∪ stack) by (apply Hst; eauto). set_solver.
  - intros x q [[-> ->]|Hx]%Hloaded; [done|by apply Hld].
  - intros x q t [[-> ->]|Hx]%Hloaded; [by apply Hts|by apply (Hrc x)].
Qed.

(** What a project leaves for its tasks. *)
Lemma recorded_tasks ts (data : gmap Target TaskBuildData) :
  let data' := fold_left (λ data task,
    <[t_target task := mkTaskBuildData None (t_options task) (t_tags task) (has_outputs task)]> data) ts data in
  (∀ x, is_Some (data !! x) → is_Some (data' !! x)) ∧ (∀ t, t ∈ ts → is_Some (data' !! t_target t)) ∧
  ∀ x y, data' !! x = Some y → data !! x = Some y ∨ tbd_node_index y = None ∧ ∃ t, t ∈ ts ∧ t_target t = x.
Proof.
  revert data. induction ts as [|t ts IH]; intros data; cbn [fold_left].
  { split; [done|]. split; [|by left]. intros t Ht. by apply elem_of_nil in Ht. }
  set (d1 := <[t_target t := _]> data). destruct (IH d1) as (H1 & H2 & H3).
  assert (∀ x, is_Some (data !! x) → is_Some (d1 !! x)) as Hd by (intros; apply lookup_insert_is_Some'; by right).
  split; [auto|]. split.
  - intros t' [->|Ht]%elem_of_cons; [|by apply H2]. apply H1. unfold d1. by rewrite lookup_insert_eq.
  - intros x y [Hx|(Hn & t' & Ht' & <-)]%H3.
    + apply lookup_insert_Some in Hx as [[<- <-]|[_ ?]]; [|by left]. right. split; [done|]. exists t.
      split; [left|done].
    + right. split; [done|]. exists t'. split; [by right|done].
Qed.

Lemma loading_recorded stack named b id p :
  loading stack named (deferred_project_edges b) b → is_Some (index_of b !! id) → proj id = Ok p →
  let b' := record_project b id p in
  loading stack named (deferred_project_edges b') b' ∧ wb_grown named b named b' ∧
  ∀ t, t ∈ (p_tasks p).*2 → is_Some (task_data b' !! t_target t).
Proof.
  intros [Hn Hids Hpr Hw Hlk Hst Hld Hrc Htd Htg Hsd Hpd] Hi Hp b'.
  destruct (recorded_tasks (p_tasks p).*2 (task_data b)) as (H1 & H2 & H3). fold (record_project b id p) in *.
  split; [|split; [by split|exact H2]]. split; try done.
  - intros x q t Hx Ht. apply H1. by apply (Hrc x q).
  - intros x y [Hx|(Hno & t & Ht & <-)]%H3; [by apply Htd|]. split; [done|]. by exists id, p, t.
Qed.

(** ** The recursion *)

Context (proj_total : ∀ id, id ∈ ids → proj id ≠ OutOfFuel)
  (proj_id : ∀ id p, id ∈ ids → proj id = Ok p → p_id p = id).

Lemma internal_load_spec fuel : load_spec fuel (internal_load_project ctx fuel).
Proof.
  induction fuel as [|fuel IH]; intros stack named b cycle k Hl Hc Hn; [lia|].
  cbn [internal_load_project]. rewrite (resolve_res _ _ _ _ k Hl).
  destruct (decide (res k ∈ cycle)) as [Hin|Hin].
  { exists named. split; [done|]. split; [apply wb_grown_refl|done]. }
  destruct (project_data b !! res k) as [d|] eqn:Hd.
  2: { right. split; [done|]. intros [? ?]%(ld_ids _ _ _ _ Hl). congruence. }
  assert (res k ∈ ids) as Hid by (apply (ld_ids _ _ _ _ Hl); eauto).
  destruct (bd_node_index d) as [i|] eqn:Hix.
  { exists named. split; [done|]. split; [apply wb_grown_refl|]. split; [done|]. split; [done|].
    by rewrite index_of_lookup, Hd. }
  pose proof (loading_new _ _ _ _ _ _ Hl Hd Hix) as Hnew.
  destruct (dg_add_node (project_graph b) Loading) as [i g].
  pose proof (unindexed_new b (res k) d i g Hd Hix) as Hun.
  destruct Hnew as (Hl1 & Hi1 & Hns). set (b1 := set_projects b _ g) in *.
  rewrite (ld_proj _ _ _ _ Hl1 _ Hid). destruct (proj (res k)) as [p|e|] eqn:Hp; cbn [obind].
  2: { left. right. right. exists (res k). done. }
  2: { by destruct (proj_total (res k) Hid). }
  assert (index_of b1 !! res k = Some i) as Hib by by rewrite Hi1, lookup_insert_eq.
  destruct (loading_recorded _ _ b1 (res k) p Hl1 ltac:(by eexists) Hp) as (Hl2 & Hg2 & Hts).
  pose proof (load_deps_loading fuel (internal_load_project ctx fuel) ({[res k]} ∪ stack) named
    (record_project b1 (res k) p) ({[res k]} ∪ cycle) (res k) i p (p_dependencies p) IH Hl2
    ltac:(set_solver) ltac:(change (unindexed (record_project b1 (res k) p)) with (unindexed b1); lia)
    Hid Hib Hp (proj_id _ _ Hid Hp) ltac:(done)) as Hloop.
  destruct (ofold _ _ _) as [[b2 cycle2]|e|]; cbn [obind]; [|by left|done].
  destruct Hloop as (named2 & Hl3 & Hg & Ha).
  assert (index_of b2 !! res k = Some i) as Hi2 by (eapply lookup_weaken; [exact Hib|apply Hg]).
  exists named2. split; [|split; [|done]].
  - eapply loading_done; eauto. intros t Ht. apply (gw_tasks _ _ _ _ Hg). by apply Hts.
  - split; [apply Hg| |exact (gw_pend _ _ _ _ Hg)|].
    + etrans; [|exact (gw_index _ _ _ _ Hg)].
      change (index_of (record_project b1 (res k) p)) with (index_of b1). rewrite Hi1.
      apply insert_subseteq. by rewrite index_of_lookup, Hd.
    + intros x Hx. apply (gw_tasks _ _ _ _ Hg), (gw_tasks _ _ _ _ Hg2), Hx.
Qed.

(** ** Deferred edges *)

(** A pending edge that is linked, or would close a cycle. *)
Lemma loading_drop stack named e pend b :
  loading stack named (e :: pend) b → accounted named [] (source_id e) (target_id e) (deferred_scope e) →
  loading stack named pend b.
Proof.
  intros [Hn Hids Hpr Hw Hlk Hst Hld Hrc Htd Htg Hsd Hpd] Ha. split; try done.
  - intros id p Hl. destruct (Hld id p Hl) as [H1 H2]. split; [done|]. intros d Hd Hr Hb.
    destruct (H2 d Hd Hr Hb) as [?|[(x & [->|Hx]%elem_of_cons & H3 & H4 & H5)|?]].
    + by left.
    + rewrite <- H3, <- H4, <- H5. eapply accounted_mono; [done| |exact Ha].
      intros y Hy. by apply elem_of_nil in Hy.
    + right. left. eauto.
    + by right; right.
  - intros x Hx. apply Hpd. by right.
Qed.

Lemma connect_deferred_loading stack named e pend b :
  loading stack named (e :: pend) b →
  ∃ named', loading stack named' pend (connect_deferred b e) ∧
    index_of (connect_deferred b e) = index_of b ∧
    deferred_project_edges (connect_deferred b e) = deferred_project_edges b.
Proof.
  intros Hl. destruct (ld_pending _ _ _ _ Hl e ltac:(left)) as (Hi & Hj & Hdec).
  pose proof (loading_edge _ _ _ _ _ _ _ _ (deferred_scope e) Hl Hi Hj Hdec) as He.
  unfold connect_deferred. destruct (would_cycle_in_scope _ _ _ _).
  - exists named. split; [|done]. eapply loading_drop; [done|]. by right; right.
  - eexists. split; [|done]. eapply loading_drop; [exact He|]. left. apply elem_of_app. right. by left.
Qed.

Lemma connect_all_loading stack named b :
  loading stack named (deferred_project_edges b) b →
  let b' := connect_deferred_project_edges b in
  ∃ named', loading stack named' [] b' ∧ index_of b' = index_of b ∧ deferred_project_edges b' = [].
Proof.
  intros Hl. unfold connect_deferred_project_edges.
  assert (loading stack named (deferred_project_edges b) (set_deferred b [])) as Hl' by by destruct Hl; split.
  change (index_of b) with (index_of (set_deferred b [])). revert Hl'.
  generalize (deferred_project_edges b) as pend.
  assert (deferred_project_edges (set_deferred b []) = []) as Hnil by done. revert Hnil.
  generalize (set_deferred b []) as x. clear b Hl. intros x Hnil pend. revert named x Hnil.
  induction pend as [|e pend IH]; intros named x Hnil Hl; [by exists named|]. cbn [fold_left].
  destruct (connect_deferred_loading _ _ _ _ _ Hl) as (named1 & Hl1 & Hi1 & Hd1).
  destruct (IH named1 (connect_deferred x e) ltac:(by rewrite Hd1) Hl1) as (named2 & H1 & H2 & H3).
  exists named2. split; [done|]. split; [by rewrite H2|done].
Qed.

(** ** Loading from the outside *)

(** Nothing is being loaded. *)
Definition settled named b : Prop := loading ∅ named [] b ∧ deferred_project_edges b = [].

Lemma load_project_spec named b k :
  settled named b →
  match load_project ctx b k with
  | Ok b' => ∃ named', settled named' b' ∧ index_of b ⊆ index_of b' ∧ is_Some (index_of b' !! res k)
  | Err e => load_error e ∨ unconfigured k e
  | OutOfFuel => False
  end.
Proof.
  intros [Hl Hd]. unfold load_project.
  pose proof (internal_load_spec (project_fuel b) ∅ named b ∅ k ltac:(by rewrite Hd) ltac:(done)
    ltac:(unfold project_fuel, unindexed; lia)) as Hs.
  destruct (internal_load_project _ _ _ _) as [[r [b1 cycle1]]|e|]; cbn [obind]; [|done..].
  destruct Hs as (named1 & Hl1 & Hg & _ & Hr).
  destruct (connect_all_loading _ _ _ Hl1) as (named2 & Hl2 & Hi2 & Hd2).
  exists named2. split; [done|]. rewrite Hi2. split; [apply Hg|].
  destruct r as [[id i]|]; [|set_solver]. destruct Hr as [-> ->]. by eexists.
Qed.

Lemma load_each_spec named b ks :
  settled named b → (∀ k, k ∈ ks → res k ∈ ids) →
  match ofold (load_project ctx) b ks with
  | Ok b' => ∃ named', settled named' b' ∧ index_of b ⊆ index_of b' ∧
      ∀ k, k ∈ ks → is_Some (index_of b' !! res k)
  | Err e => load_error e
  | OutOfFuel => False
  end.
Proof.
  revert named b. induction ks as [|k ks IH]; intros named b Hs Hks; cbn [ofold].
  { exists named. split; [done|]. split; [done|]. intros k Hk. by apply elem_of_nil in Hk. }
  pose proof (load_project_spec named b k Hs) as Hk.
  destruct (load_project ctx b k) as [b1|e|]; cbn [obind]; [| |done].
  2: { destruct Hk as [?|[_ []]]; [done|]. apply Hks. left. }
  destruct Hk as (named1 & Hs1 & Hi1 & Hk1).
  specialize (IH named1 b1 Hs1 ltac:(intros x Hx; apply Hks; by right)).
  destruct (ofold _ b1 ks) as [b2|e|]; [|done..]. destruct IH as (named2 & Hs2 & Hi2 & Hks2).
  exists named2. split; [done|]. split; [by etrans|].
  intros x [->|Hx]%elem_of_cons; [|by apply Hks2]. destruct Hk1 as [i Hi]. exists i.
  by eapply lookup_weaken.
Qed.

(** All projects are loaded. *)
Record projects_settled named b : Prop := {
  ps_settled : settled named b;
  ps_loaded : ∀ id, id ∈ ids ↔ ∃ p, wb_loaded b id p;
}.

Lemma load_projects_spec order named b :
  (∀ l, order l ≡ₚ l) → settled named b →
  match load_projects ctx order b with
  | Ok b' => ∃ named', projects_settled named' b'
  | Err e => load_error e
  | OutOfFuel => False
  end.
Proof.
  intros Hord Hs. unfold load_projects.
  pose proof (load_each_spec named b (order (map_to_list (project_data b)).*1) Hs) as He.
  specialize (He ltac:(intros k; rewrite Hord; intros ([k' d] & -> & Hd%elem_of_map_to_list)%list_elem_of_fmap;
    assert (k' ∈ ids) by (apply (ld_ids _ _ _ _ (proj1 Hs)); by eexists);
    by rewrite (res_project _ _ _ _ _ (proj1 Hs)))).
  destruct (ofold _ b _) as [b'|e|]; [|done..]. destruct He as (named' & Hs' & _ & Hk).
  exists named'. split; [done|]. destruct Hs as [Hl _]. destruct Hs' as [Hl' _]. intros id. split.
  - intros Hid. pose proof Hid as [d Hd]%(ld_ids _ _ _ _ Hl).
    destruct (Hk id) as [i Hi].
    { rewrite Hord. apply list_elem_of_fmap. exists (id, d). by rewrite elem_of_map_to_list. }
    rewrite (res_project _ _ _ _ _ Hl Hid) in Hi.
    assert (i < length (dg_nodes (project_graph b'))) as [[p|] Hn]%lookup_lt_is_Some_2
      by by eapply (kd_range _ _ _ (lk_keyed _ _ _ _ _ _ (ld_linked _ _ _ _ Hl'))).
    + by exists p, i.
    + assert (id ∈ (∅ : gset Id)); [|set_solver]. apply (ld_stack _ _ _ _ Hl'). eauto.
  - intros (p & i & Hi & _). by eapply indexed_project.
Qed.
End Projects.
