(* ===== verification/WorkspaceBuilderTasks.v ===== *)
(** * Loading tasks one after the other

The recursion of [internal_load_task] ends without a panic, every task ends up in
the task graph, the edges are dependencies of tasks, and a dependency is left out
only where it is part of a cycle of dependencies. *)

From S2P Require Import Prelude Errors FileSystem PooledTasks Target GraphUtils Config Constraints Dag DiGraph.
From S2P Require Import NodeMaps ProjectGraph ProjectGraphFacts TaskDeps TaskDepsFacts.
From S2P Require Import ProjectBuilder WorkspaceData WorkspaceDataFacts WorkspaceNodes TaskGraph.
From S2P Require Import WorkspaceGraph WorkspaceAsync WorkspaceBuilds WorkspaceAsyncFacts.
From S2P Require Import WorkspaceLoad WorkspaceBuilder WorkspaceBuilderFacts Shapes.

(** [TaskDepsBuilder] always returns, and only adds dependencies on tasks that the
    querent knows. *)
Section Deps.
Context (querent : TasksQuerent) (root_project_id : option Id).
Context (tag_total : ∀ tag, query_projects_by_tag querent tag ≠ OutOfFuel)
  (tasks_total : ∀ ids scope, querent_tasks querent ids scope ≠ OutOfFuel).

Lemma get_ids_total target : get_project_id target ≠ OutOfFuel ∧ get_task_id target ≠ OutOfFuel.
Proof.
  unfold get_project_id, get_task_id.
  destruct (get_project_scope target) as [[] ?], (get_task_scope target) as [[] ?]; done.
Qed.

Lemma ofold_total {E S A} (f : S → A → outcome E S) s l :
  (∀ s x, f s x ≠ OutOfFuel) → ofold f s l ≠ OutOfFuel.
Proof.
  intros Hf. revert s. induction l as [|x l IH]; intros s; [done|]. cbn.
  specialize (Hf s x). destruct (f s x); [apply IH|done|done].
Qed.

Lemma task_deps_total p t : TaskDepsBuilder_build querent root_project_id p t ≠ OutOfFuel.
Proof.
  unfold TaskDepsBuilder_build. destruct (ofold _ _ _) as [[p' deps]|e|] eqn:Hf; [done..|]. exfalso.
  revert Hf. apply ofold_total. clear -tag_total tasks_total. intros [p1 deps] d. unfold dep_config_step.
  destruct (dep_scope_projects querent p1 t d) as [[[ids skip] link]| |] eqn:Hs; [|done|]; cbn [obind].
  2: { unfold dep_scope_projects in Hs. destruct (get_project_scope _) as [[] v]; try done.
       specialize (tag_total v). by destruct (query_projects_by_tag querent v). }
  specialize (tasks_total ids (get_task_scope (dep_target d))).
  destruct (querent_tasks _ _ _) as [l| |]; [|done..]. cbn [obind]. destruct (_ && _); [done|].
  apply ofold_total. clear. intros [p deps] [target o]. unfold dep_match_step.
  destruct (get_ids_total target) as [_ H1]. destruct (get_ids_total (t_target t)) as [_ H2].
  destruct (match get_project_id target with Ok pid => bool_decide (pid = p_id p) | _ => false end); cbn [obind].
  - destruct (get_task_id target); cbn [obind]; [|done..].
    destruct (get_task_id (t_target t)); cbn [obind]; [|done..]. destruct (bool_decide _); [done|].
    unfold check_and_create_dep. by repeat case_match.
  - unfold check_and_create_dep. by repeat case_match.
Qed.

(** The errors of [TaskDepsBuilder] about the dependencies of [task]: a scope that is not
    allowed, a dependency that matches nothing, or one that may not be depended on. *)
Definition dependency_error (task : string) (x : TasksBuilderError) : Prop :=
  match x with
  | AllowFailureDepRequirement _ t | RunInCiDepRequirement _ t | PersistentDepRequirement _ t
  | UnknownDepTarget _ t | UnknownDepTargetParentScope _ t | UnknownDepTargetTagScope _ t
  | UnsupportedTargetScopeInDeps _ t => t = task
  | _ => False
  end.

(** With a querent that does not fail and finds tasks by identifier, there are no others. *)
Lemma task_deps_error p t e :
  (∀ tag, ∃ ids, query_projects_by_tag querent tag = Ok ids) →
  (∀ ids scope, ∃ l, querent_tasks querent ids scope = Ok l ∧ ∀ x, x ∈ l → is_ok (get_task_id x.1) = true) →
  is_ok (get_task_id (t_target t)) = true →
  TaskDepsBuilder_build querent root_project_id p t = Err e →
  ∃ x, e = RTasksBuilder x ∧ dependency_error (Target.id (t_target t)) x.
Proof.
  intros Htags Htasks Hid. unfold TaskDepsBuilder_build.
  destruct (ofold _ _ _) as [[p' deps]|e'|] eqn:Hf; cbn [obind]; [done| |done]. intros [= ->].
  apply ofold_Err in Hf as ([p1 deps] & d & _ & Hd). unfold dep_config_step in Hd.
  destruct (dep_scope_projects querent p1 t d) as [[[ids skip] link]|e'|] eqn:Hs; cbn [obind] in Hd; [| |done].
  2: { injection Hd as ->. unfold dep_scope_projects in Hs. destruct (get_project_scope _) as [[] v]; simplify_eq.
       - by eexists.
       - destruct (Htags v) as [l Hl]. by rewrite Hl in Hs. }
  destruct (Htasks ids (get_task_scope (dep_target d))) as (l & Hl & Hfound). rewrite Hl in Hd. cbn [obind] in Hd.
  destruct (_ && _).
  { injection Hd as <-. eexists. split; [done|]. unfold missing_dep. by destruct (project (dep_target d)). }
  apply ofold_Err in Hd as ([p2 deps2] & [target o] & Hin & Hm). specialize (Hfound _ Hin). cbn in Hfound.
  assert (∀ c, check_and_create_dep querent t target o c = Err e →
    ∃ x, e = RTasksBuilder x ∧ dependency_error (Target.id (t_target t)) x) as Hcheck.
  { intros c. unfold check_and_create_dep. repeat case_match; intros [= <-]; by eexists. }
  unfold dep_match_step in Hm. destruct (get_task_id target) as [tid| |]; [|done..].
  destruct (get_task_id (t_target t)) as [tid'| |]; [|done..]. cbn [obind] in Hm.
  destruct (match get_project_id target with Ok _ => _ | _ => _ end); cbn [obind] in Hm;
    [destruct (bool_decide _); [done|]|];
    (destruct (check_and_create_dep _ _ _ _ _) as [x|e'|] eqn:Hc; cbn [obind] in Hm; [done| |done]);
    injection Hm as ->; by eapply Hcheck.
Qed.
End Deps.

Section Tasks.
Context {GB : DiGraphOps (NodeState Project) DependencyScope} {LB : DiGraphLaws GB}
  {TB : DagOps (NodeState Task) TaskDependencyType} {LTB : DagLaws TB} {UB : DagUpdate TB}
  {LUB : DagUpdateLaws UB LTB}
  `{HP : ProjectHost, HW : WorkspaceHost, HI : IdSyntax}.
Context (ctx : WorkspaceBuilderContext).
Implicit Types (b : WorkspaceBuilder GB TB) (known : gmap Target Task)
  (tnamed : list (Target * Target * TaskDependencyType)).

(** ** The projects *)

(** [target] is the task [k] of the project [id]. *)
Definition target_of (id k : Id) (target : Target) : Prop :=
  Target_new id k = Ok target ∧ get_project_id target = Ok id ∧ get_task_id target = Ok k.

Definition own_tasks (id : Id) (p : Project) : Prop :=
  NoDup (p_tasks p).*1 ∧ ∀ k t, (k, t) ∈ p_tasks p → target_of id k (t_target t).

(** All projects are loaded, and their tasks are their own. *)
Record projects_ready (named : list (Id * Id * DependencyScope)) b : Prop := {
  pr_wf : dg_wf (project_graph b);
  pr_linked : linked p_id is_production_group named (index_of b) (dg_nodes (project_graph b))
                (dg_edges (project_graph b));
  pr_loaded : ∀ id, is_Some (project_data b !! id) → ∃ p, wb_loaded b id p;
  pr_tasks : ∀ id p, wb_loaded b id p → own_tasks id p;
  pr_deferred : deferred_project_edges b = [];
}.

Lemma resolve_build_id_self data id : is_Some (data !! id) → resolve_build_id id data = id.
Proof. intros Hd. unfold resolve_build_id. by rewrite decide_True. Qed.

(** The project of a task has its node. *)
Lemma load_loaded_project fuel b id p :
  wb_loaded b id p →
  ∃ i, internal_load_project ctx (S fuel) id (b, ∅) = Ok (Some (id, i), (b, ∅)) ∧
    index_of b !! id = Some i ∧ dg_nodes (project_graph b) !! i = Some (Loaded p).
Proof.
  intros (i & Hi & Hp). exists i. split; [|done]. cbn [internal_load_project].
  rewrite index_of_lookup in Hi. destruct (project_data b !! id) as [d|] eqn:Hd; [|done]. cbn in Hi.
  rewrite resolve_build_id_self by by eexists. rewrite decide_False by set_solver. by rewrite Hd, Hi.
Qed.

(** ** The tasks *)

Definition task_index b : gmap Target nat := omap tbd_node_index (task_data b).

Lemma task_index_lookup b x : task_index b !! x = task_data b !! x ≫= tbd_node_index.
Proof. unfold task_index. by rewrite lookup_omap. Qed.

(** The dependencies of the tasks that have a node. *)
Definition dep_of known (a c : Target) : Prop :=
  ∃ t d, known !! a = Some t ∧ d ∈ t_deps t ∧ dep_target d = c.

(** Every task on the stack is a dependency of the next one. *)
Fixpoint chain known (stack : list Target) : Prop :=
  match stack with
  | x :: ((y :: _) as rest) => dep_of known y x ∧ chain known rest
  | _ => True
  end.

(** A dependency is linked, or part of a cycle. *)
Definition dep_linked known tnamed (a : Target) (d : TaskDependencyConfig) : Prop :=
  (a, dep_target d, dep_type d) ∈ tnamed ∨ rtc (dep_of known) (dep_target d) a.

Record tasks_loading (named : list (Id * Id * DependencyScope)) (stack : list Target) known tnamed b :
    Prop := {
  tk_ready : projects_ready named b;
  tk_data : ∀ target d, task_data b !! target = Some d → ∃ id k p, target_of id k target ∧
    wb_loaded b id p ∧
    (tbd_node_index d = None → ∃ t, (k, t) ∈ p_tasks p ∧ t_target t = target);
  tk_recorded : ∀ id p k t, wb_loaded b id p → (k, t) ∈ p_tasks p → is_Some (task_data b !! t_target t);
  tk_wf : dag_wf (task_graph b);
  tk_linked : linked t_target one_part tnamed (task_index b) (dag_nodes (task_graph b))
                (dag_edges (task_graph b));
  tk_known : ∀ target, is_Some (task_index b !! target) ↔ is_Some (known !! target);
  tk_node : ∀ target i t, task_index b !! target = Some i → known !! target = Some t →
    t_target t = target ∧
    dag_nodes (task_graph b) !! i = Some (if decide (target ∈ stack) then Loading else Loaded t);
  tk_stack : ∀ x, x ∈ stack → is_Some (known !! x);
  tk_chain : chain known stack;
  tk_sound : ∀ a c e, (a, c, e) ∈ tnamed →
    ∃ t d, known !! a = Some t ∧ d ∈ t_deps t ∧ c = dep_target d ∧ e = dep_type d;
  tk_complete : ∀ a t d, known !! a = Some t → a ∉ stack → d ∈ t_deps t → dep_linked known tnamed a d;
  tk_closed : ∀ a t d, known !! a = Some t → d ∈ t_deps t → is_Some (task_data b !! dep_target d);
}.

Lemma dep_of_mono known known' a c : known ⊆ known' → dep_of known a c → dep_of known' a c.
Proof. intros Hsub (t & d & Ht & Hd). exists t, d. split; [by eapply lookup_weaken|done]. Qed.

Lemma chain_mono known known' stack : known ⊆ known' → chain known stack → chain known' stack.
Proof.
  intros Hsub. induction stack as [|x [|y stack] IH]; [done..|]. intros [H1 H2].
  split; [by eapply dep_of_mono|by apply IH].
Qed.

Lemma chain_path known x stack y : chain known (x :: stack) → y ∈ x :: stack → rtc (dep_of known) y x.
Proof.
  revert x. induction stack as [|z stack IH]; intros x Hc Hy.
  { apply list_elem_of_singleton in Hy as ->. apply rtc_refl. }
  destruct Hc as [H1 H2]. apply elem_of_cons in Hy as [->|Hy]; [apply rtc_refl|].
  eapply rtc_r; [by apply IH|done].
Qed.

Lemma dep_linked_mono known known' tnamed tnamed' a d :
  known ⊆ known' → (∀ x, x ∈ tnamed → x ∈ tnamed') →
  dep_linked known tnamed a d → dep_linked known' tnamed' a d.
Proof.
  intros Hk Hn [?|Hr]; [left; by apply Hn|right]. eapply rtc_subrel; [|exact Hr].
  intros x y. by apply dep_of_mono.
Qed.

(** What loading adds. *)
Record tk_grown known tnamed b known' tnamed' b' : Prop := {
  tg_known_sub : known ⊆ known';
  tg_named_sub : ∀ x, x ∈ tnamed → x ∈ tnamed';
  tg_index_sub : task_index b ⊆ task_index b';
  tg_data_dom : ∀ x, is_Some (task_data b' !! x) ↔ is_Some (task_data b !! x);
}.

Lemma tk_grown_refl known tnamed b : tk_grown known tnamed b known tnamed b.
Proof. by split. Qed.

Lemma tk_grown_trans k1 n1 b1 k2 n2 b2 k3 n3 b3 :
  tk_grown k1 n1 b1 k2 n2 b2 → tk_grown k2 n2 b2 k3 n3 b3 → tk_grown k1 n1 b1 k3 n3 b3.
Proof.
  intros [A1 A2 A3 A4] [B1 B2 B3 B4]. split; [by etrans|by eauto|by etrans|].
  intros x. by rewrite B4, A4.
Qed.

Definition task_unindexed b : nat := size (task_data b) - size (task_index b).

Lemma task_unindexed_grown known tnamed b known' tnamed' b' :
  tk_grown known tnamed b known' tnamed' b' → task_unindexed b' ≤ task_unindexed b.
Proof.
  intros [_ _ Hi Hd]. unfold task_unindexed.
  assert (size (task_data b') = size (task_data b)) as ->.
  { rewrite <- !(size_dom (D := gset Target)). f_equal. apply set_eq. intros x. by rewrite !elem_of_dom. }
  enough (size (task_index b) ≤ size (task_index b')) by lia. by apply map_subseteq_size.
Qed.

(** A target stands for itself. *)
Lemma resolve_target_own data id k target :
  target_of id k target → is_Some (data !! id) → resolve_target target data = Ok target.
Proof.
  intros (Hn & Hp & Ht) Hd. unfold resolve_target. rewrite Hp, Ht. cbn [obind].
  by rewrite resolve_build_id_self.
Qed.

Lemma tasks_get_elem k t tasks :
  NoDup tasks.*1 → (k, t) ∈ tasks → tasks_get k tasks = Some t.
Proof.
  intros Hnd Hin. unfold tasks_get. destruct (List.find _ tasks) as [[k' t']|] eqn:Hf.
  - apply find_some in Hf as [Hin' Hk%bool_decide_eq_true]. cbn in Hk. subst k'. cbn. f_equal.
    apply list_elem_of_In, list_elem_of_lookup in Hin' as [i Hi]. apply list_elem_of_lookup in Hin as [j Hj].
    assert (i = j) as <- by (eapply (NoDup_lookup _ _ _ k Hnd); by rewrite list_lookup_fmap, ?Hi, ?Hj).
    congruence.
  - eapply find_none in Hf; [|by apply list_elem_of_In]. cbn in Hf. by rewrite bool_decide_true in Hf.
Qed.

(** ** Taking a task out of its project *)

(** The project with fewer tasks. *)
Lemma ready_set named b id i p p' :
  projects_ready named b → index_of b !! id = Some i →
  dg_nodes (project_graph b) !! i = Some (Loaded p) → p_id p' = id → own_tasks id p' →
  let b' := set_project_graph b (dg_set_weight (project_graph b) i (Loaded p')) in
  projects_ready named b' ∧
  ∀ x q, wb_loaded b' x q ↔ (x = id ∧ q = p') ∨ (x ≠ id ∧ wb_loaded b x q).
Proof.
  intros [Hw Hlk Hld Hot Hdf] Hi Hp Hpid Hown b'.
  assert (i < length (dg_nodes (project_graph b))) as Hlt by by eapply lookup_lt_Some.
  destruct (dg_set_weight_law (project_graph b) i (Loaded p') Hw Hlt) as (H1 & H2 & H3).
  assert (∀ x q, wb_loaded b' x q ↔ (x = id ∧ q = p') ∨ (x ≠ id ∧ wb_loaded b x q)) as Hloaded.
  { intros x q. unfold wb_loaded. change (index_of b') with (index_of b). cbn. setoid_rewrite H2. split.
    - intros (j & Hj & Hjq). destruct (decide (x = id)) as [->|Hx].
      + left. assert (i = j) as <- by congruence. rewrite list_lookup_insert_eq in Hjq by done. by simplify_eq.
      + right. split; [done|]. exists j. split; [done|]. rewrite list_lookup_insert_ne in Hjq; [done|].
        intros ->. apply Hx. by eapply (kd_inj _ _ _ (lk_keyed _ _ _ _ _ _ Hlk)).
    - intros [[-> ->]|(Hx & j & Hj & Hjq)].
      + exists i. by rewrite list_lookup_insert_eq.
      + exists j. split; [done|]. rewrite list_lookup_insert_ne; [done|].
        intros ->. apply Hx. by eapply (kd_inj _ _ _ (lk_keyed _ _ _ _ _ _ Hlk)). }
  split; [|done]. split; try done.
  - cbn. rewrite H2, H3. apply linked_set; [done|by rewrite Hpid].
  - intros x Hx. destruct (decide (x = id)) as [->|Hne]; [exists p'; apply Hloaded; by left|].
    destruct (Hld x Hx) as [q Hq]. exists q. apply Hloaded. by right.
  - intros x q [[-> ->]|[_ Hq]]%Hloaded; [done|by apply Hot].
Qed.

Lemma own_tasks_remove id k p p' :
  own_tasks id p → extends (set_tasks p (tasks_remove k (p_tasks p))) p' → own_tasks id p'.
Proof.
  intros [Hnd Ht] [more ->]. cbn. split.
  - eapply sublist_NoDup; [exact Hnd|]. apply fmap_sublist, sublist_filter.
  - intros k' t [_ Hin]%list_elem_of_filter. by apply Ht.
Qed.

(** The builder with a new task and without it in the project. *)
Definition taken b (target : Target) (d : TaskBuildData) (i : nat) (p' : Project) (j : nat) (graph : Dag) :
  WorkspaceBuilder GB TB :=
  set_task_data (set_project_graph b (dg_set_weight (project_graph b) i (Loaded p')))
    (projects_by_tag b)
    (<[target := mkTaskBuildData (Some j) (tbd_options d) (tbd_tags d) (tbd_has_outputs d)]> (task_data b))
    graph.

Lemma task_index_taken b target d i p' j graph :
  task_index (taken b target d i p' j graph) = <[target := j]> (task_index b).
Proof. unfold task_index. cbn. by rewrite (omap_insert_Some _ _ _ _ j). Qed.

(** What [take_task] does with a task that is in its project. *)
Lemma take_task_spec b target d i id k p t :
  own_tasks id p → target_of id k target → (k, t) ∈ p_tasks p → t_target t = target →
  let '(j, g) := dag_add_node (task_graph b) Loading in
  match take_task b target d i p with
  | Ok (j', t', b') => j' = j ∧ t_target t' = target ∧
      ∃ p', extends (set_tasks p (tasks_remove k (p_tasks p))) p' ∧ b' = taken b target d i p' j g ∧
        ∀ x, x ∈ t_deps t' → is_Some (task_data b' !! dep_target x)
  | Err e => ∃ x, e = RTasksBuilder x ∧ dependency_error (Target.id target) x
  | OutOfFuel => False
  end.
Proof.
  intros [Hnd Hown] (_ & _ & Hk) Hin Htt. unfold take_task.
  destruct (dag_add_node (task_graph b) Loading) as [j g]. rewrite Hk. cbn [obind].
  rewrite (tasks_get_elem k t) by done. cbn [obind ok_or].
  set (data := <[target := _]> (task_data b)).
  set (querent := WorkspaceBuilderTasksQuerent (project_data b) (projects_by_tag b) data).
  destruct (TaskDepsBuilder_build _ _ _ _) as [[p' t']|e|] eqn:Hb; cbn [obind].
  3: { revert Hb. by apply task_deps_total. }
  2: { rewrite <- Htt. eapply task_deps_error; [| | |exact Hb].
       - intros tag. by eexists.
       - intros ids scope. eexists. split; [done|]. intros [x o] ([x' d'] & _ & Hs)%list_elem_of_omap.
         unfold data_in_scope in Hs. cbn in Hs |- *.
         destruct (get_project_id x'), (get_task_id x') eqn:Hx; try done. repeat case_match; simplify_eq; by rewrite Hx.
       - by rewrite Htt, Hk. }
  split; [done|]. destruct (task_deps_project _ _ _ _ _ _ Hb) as (He & deps & ->).
  split; [done|]. exists p'. split; [done|]. split; [done|]. intros x Hx. cbn.
  unfold TaskDepsBuilder_build in Hb. destruct (ofold _ _ (t_deps t)) as [[p3 deps3]| |] eqn:Hf; [|done..].
  injection Hb as <- Hdeps.
  destruct (dep_configs_Ok _ _ _ _ _ _ _ _ (NoDup_nil_2) Hf) as (_ & _ & _ & Hfrom & _).
  assert (x ∈ deps3) as Hx3 by (rewrite Hdeps; exact Hx).
  destruct (Hfrom x Hx3) as [?%elem_of_nil|(c & p1 & l & _ & _ & _ & [(ids & skip & link & _ & Hq & _)] & Hm)]; [done|].
  destruct Hm as (tg & o & Hl & Hc).
  assert (dep_target x = tg) as ->.
  { revert Hc. unfold check_and_create_dep. repeat case_match; try done; by intros [= <-]. }
  cbn in Hq. injection Hq as <-. apply list_elem_of_omap in Hl as ([tg' d'] & Hin' & Hs).
  unfold data_in_scope in Hs. cbn in Hs.
  assert (tg' = tg) as -> by (repeat case_match; by simplify_eq).
  exists d'. by apply elem_of_map_to_list.
Qed.

(** The task is the next one on the stack. *)
Definition next_on known (stack : list Target) (target : Target) : Prop :=
  match stack with [] => True | parent :: _ => dep_of known parent target end.

Section Taken.
Context (named : list (Id * Id * DependencyScope)) (stack : list Target) known tnamed b.
Context (Hl : tasks_loading named stack known tnamed b).
Context (target : Target) (d : TaskBuildData) (Hd : task_data b !! target = Some d)
  (Hnone : tbd_node_index d = None).
Context (id k : Id) (Hof : target_of id k target) (i : nat) (p p' : Project)
  (Hi : index_of b !! id = Some i) (Hp : dg_nodes (project_graph b) !! i = Some (Loaded p))
  (Hext : extends (set_tasks p (tasks_remove k (p_tasks p))) p').
Context (j : nat) (g : Dag (DagOps := TB)) (Hg : dag_add_node (task_graph b) Loading = (j, g)).
Context (t' : Task) (Ht' : t_target t' = target).

Let b' := taken b target d i p' j g.

Lemma taken_unknown : task_index b !! target = None ∧ known !! target = None ∧ target ∉ stack.
Proof.
  assert (task_index b !! target = None) as Hix by by rewrite task_index_lookup, Hd.
  assert (known !! target = None) as Hk.
  { apply eq_None_not_Some. intros Hk. apply (tk_known _ _ _ _ _ Hl) in Hk. rewrite Hix in Hk. by destruct Hk. }
  split_and!; [done..|]. intros Hin%(tk_stack _ _ _ _ _ Hl). rewrite Hk in Hin. by destruct Hin.
Qed.

Lemma taken_ready :
  projects_ready named b' ∧ ∀ x q, wb_loaded b' x q ↔ (x = id ∧ q = p') ∨ (x ≠ id ∧ wb_loaded b x q).
Proof.
  pose proof (tk_ready _ _ _ _ _ Hl) as Hr.
  assert (own_tasks id p) as Hown by (apply (pr_tasks _ _ Hr); by exists i).
  assert (p_id p' = id) as Hpid.
  { rewrite (extends_id _ _ Hext). cbn. by eapply (kd_loaded _ _ _ (lk_keyed _ _ _ _ _ _ (pr_linked _ _ Hr))). }
  destruct (ready_set named b id i p p' Hr Hi Hp Hpid (own_tasks_remove _ _ _ _ Hown Hext)) as [H1 H2].
  split; [by destruct H1; split|exact H2].
Qed.

Lemma taken_data x y :
  task_data b' !! x = Some y → ∃ id k p, target_of id k x ∧ wb_loaded b' id p ∧
    (tbd_node_index y = None → ∃ t, (k, t) ∈ p_tasks p ∧ t_target t = x).
Proof.
  destruct taken_ready as [_ Hloaded]. cbn. intros [[<- <-]|[Hne Hy]]%lookup_insert_Some.
  { exists id, k, p'. split; [done|]. split; [apply Hloaded; by left|done]. }
  destruct (tk_data _ _ _ _ _ Hl x y Hy) as (id1 & k1 & p1 & Hof1 & Hp1 & Ht1).
  destruct (decide (id1 = id)) as [->|Hid].
  - exists id, k1, p'. split; [done|]. split; [apply Hloaded; by left|]. intros Hn.
    destruct (Ht1 Hn) as (t1 & Hin1 & Htt). exists t1. split; [|done].
    assert (p1 = p) as ->. { destruct Hp1 as (i1 & Hi1 & Hp1). congruence. }
    destruct Hext as [more ->]. cbn. apply list_elem_of_filter. split; [|done]. cbn. intros ->.
    destruct Hof as [Hof' _], Hof1 as [Hof1' _]. congruence.
  - exists id1, k1, p1. split; [done|]. split; [apply Hloaded; by right|done].
Qed.

Lemma loading_taken :
  (∀ x, x ∈ t_deps t' → is_Some (task_data b' !! dep_target x)) → next_on known stack target →
  tasks_loading named (target :: stack) (<[target := t']> known) tnamed b' ∧
  tk_grown known tnamed b (<[target := t']> known) tnamed b'.
Proof.
  intros Hclosed Hnext. destruct taken_unknown as (Hix & Hk & Hns).
  assert (known ⊆ <[target := t']> known) as Hsub by by apply insert_subseteq.
  assert (∀ x, is_Some (task_data b' !! x) ↔ is_Some (task_data b !! x)) as Hdom.
  { intros x. cbn. rewrite lookup_insert_is_Some'. split; [|by right]. intros [<-|?]; [by eexists|done]. }
  assert (tk_grown known tnamed b (<[target := t']> known) tnamed b') as Hgr.
  { split; [done|done| |done]. unfold b'. rewrite task_index_taken. by apply insert_subseteq. }
  split; [|done]. pose proof (dag_add_node_law _ _ _ _ (tk_wf _ _ _ _ _ Hl) Hg) as (G1 & G2 & G3 & G4).
  pose proof Hl as [Hrd Hdt Hrc Hw Hlk Hkn Hnd Hst Hch Hsd Hcp Hcl].
  assert (∀ x y, task_index b !! x = Some y → y < length (dag_nodes (task_graph b))) as Hrange.
  { intros x y Hy. by eapply (kd_range _ _ _ (lk_keyed _ _ _ _ _ _ Hlk)). }
  split.
  - apply taken_ready.
  - apply taken_data.
  - intros x q k' t1 Hq Hin. apply Hdom. apply taken_ready in Hq as [[-> ->]|[_ Hq]]; [|by eapply Hrc].
    destruct Hext as [more ->]. apply list_elem_of_filter in Hin as [_ Hin]. eapply Hrc; [|exact Hin].
    by exists i.
  - done.
  - unfold b'. rewrite task_index_taken. cbn. rewrite G2, G3, G4. by apply linked_new.
  - intros x. unfold b'. rewrite task_index_taken, !lookup_insert_is_Some'. by rewrite Hkn.
  - intros x y tx. unfold b'. rewrite task_index_taken. cbn. rewrite G3.
    intros [[<- <-]|[Hne Hy]]%lookup_insert_Some.
    + rewrite lookup_insert_eq. intros [= <-]. split; [done|]. rewrite decide_True by left.
      by rewrite G2, list_lookup_middle.
    + rewrite lookup_insert_ne by done. intros Hx. destruct (Hnd x y tx Hy Hx) as [H1 H2]. split; [done|].
      rewrite lookup_app_l by by eapply Hrange. rewrite H2. do 2 f_equal.
      destruct (decide (x ∈ stack)), (decide (x ∈ target :: stack)); try done; set_solver.
  - intros x [->|Hx]%elem_of_cons; rewrite lookup_insert_is_Some'; [by left|right; by apply Hst].
  - destruct stack as [|y rest]; [done|]. split; [by eapply dep_of_mono|by eapply chain_mono].
  - intros a c e (t1 & d1 & H1 & H2)%Hsd. exists t1, d1. split; [by eapply lookup_weaken|done].
  - intros a t1 d1 Ha Hns1 Hd1. apply not_elem_of_cons in Hns1 as [Hne Hns1].
    rewrite lookup_insert_ne in Ha by done. eapply dep_linked_mono; [exact Hsub|done|by eapply Hcp].
  - intros a t1 d1 [[<- <-]|[Hne Ha]]%lookup_insert_Some Hd1; [by apply Hclosed|].
    apply Hdom. by eapply Hcl.
Qed.

Lemma taken_unindexed : S (task_unindexed b') ≤ task_unindexed b.
Proof.
  destruct taken_unknown as (Hix & _ & _). unfold task_unindexed, b'. rewrite task_index_taken.
  rewrite map_size_insert_None by done. cbn. rewrite map_size_insert_Some by by eexists.
  enough (size (task_index b) < size (task_data b)) by lia.
  rewrite <- !(size_dom (D := gset Target)). apply subset_size. split.
  - intros x. rewrite !elem_of_dom, task_index_lookup. destruct (task_data b !! x); [by eexists|].
    by intros [? ?].
  - intros Hsub. assert (target ∈ dom (task_index b)) as [? ?]%elem_of_dom; [|congruence].
    apply Hsub, elem_of_dom. by eexists.
Qed.
End Taken.

(** ** Linking *)

Lemma loading_task_edge named stack known tnamed b a t d i j x g :
  tasks_loading named stack known tnamed b → task_index b !! a = Some i →
  task_index b !! dep_target d = Some j → known !! a = Some t → d ∈ t_deps t →
  dag_add_edge (task_graph b) i j (dep_type d) = Some (x, g) →
  let b' := set_task_data b (projects_by_tag b) (task_data b) g in
  let tnamed' := tnamed ++ [(a, dep_target d, dep_type d)] in
  tasks_loading named stack known tnamed' b' ∧ tk_grown known tnamed b known tnamed' b'.
Proof.
  intros [Hrd Hdt Hrc Hw Hlk Hkn Hnd Hst Hch Hsd Hcp Hcl] Hi Hj Ht Hd Ha b' tnamed'.
  pose proof (lk_keyed _ _ _ _ _ _ Hlk) as Hk.
  assert (i < length (dag_nodes (task_graph b))) as Hlt by by eapply (kd_range _ _ _ Hk).
  assert (j < length (dag_nodes (task_graph b))) as Hlt' by by eapply (kd_range _ _ _ Hk).
  destruct (dag_add_edge_Some _ _ _ _ _ _ Hw Hlt Hlt' Ha) as (H1 & _ & H3 & H4 & H5).
  assert (∀ x, x ∈ tnamed → x ∈ tnamed') as Hsub by (intros y Hy; apply elem_of_app; by left).
  split; [|by split]. split; try done.
  - by destruct Hrd; split.
  - change (task_index b') with (task_index b). cbn. rewrite H3, H4. apply linked_edge; [done..|].
    by rewrite one_part_all.
  - intros x' i' t'. cbn. rewrite H3. apply Hnd.
  - intros a' c e [Hin|Hin]%elem_of_app; [by apply Hsd|]. apply list_elem_of_singleton in Hin.
    simplify_eq. by exists t, d.
  - intros a' t' d' Ha' Hns Hd'. eapply dep_linked_mono; [done|exact Hsub|by eapply Hcp].
Qed.

(** The task is loaded. *)
Lemma loading_task_done named target stack known tnamed b i t :
  tasks_loading named (target :: stack) known tnamed b → target ∉ stack →
  task_index b !! target = Some i → known !! target = Some t →
  (∀ d, d ∈ t_deps t → dep_linked known tnamed target d) →
  tasks_loading named stack known tnamed
    (set_task_data b (projects_by_tag b) (task_data b) (dag_set_weight (task_graph b) i (Loaded t))).
Proof.
  intros [Hrd Hdt Hrc Hw Hlk Hkn Hnd Hst Hch Hsd Hcp Hcl] Hns Hi Ht Hdeps. set (b' := set_task_data b _ _ _).
  pose proof (lk_keyed _ _ _ _ _ _ Hlk) as Hk.
  assert (i < length (dag_nodes (task_graph b))) as Hlt by by eapply (kd_range _ _ _ Hk).
  destruct (dag_set_weight_law (task_graph b) i (Loaded t) Hw Hlt) as (H1 & H2 & H3).
  destruct (Hnd _ _ _ Hi Ht) as [Htt _].
  split; try done.
  - by destruct Hrd; split.
  - change (task_index b') with (task_index b). cbn. rewrite H2, H3. apply linked_set; [done|by rewrite Htt].
  - intros x y tx Hy Hx. change (task_index b !! x = Some y) in Hy. destruct (Hnd _ _ _ Hy Hx) as [E1 E2].
    split; [done|]. cbn. rewrite H2. destruct (decide (x = target)) as [->|Hne].
    + assert (y = i) as -> by congruence. rewrite list_lookup_insert_eq, decide_False by done. congruence.
    + rewrite list_lookup_insert_ne, E2 by (intros ->; apply Hne; by eapply (kd_inj _ _ _ Hk)). do 2 f_equal.
      destruct (decide (x ∈ stack)), (decide (x ∈ target :: stack)); try done; set_solver.
  - intros x Hx. apply Hst. by right.
  - by destruct stack; [|apply Hch].
  - intros a t' d' Ha Ha' Hd'. destruct (decide (a = target)) as [->|Hne].
    + assert (t' = t) as -> by congruence. by apply Hdeps.
    + eapply Hcp; [done| |done]. by apply not_elem_of_cons.
Qed.

(** ** The recursion *)

(** The errors are about a recorded task: a dependency that cannot be resolved or may not
    be depended on, or an edge between two of them that would close a cycle. *)
Definition task_error (recorded : Target → Prop) (e : Report) : Prop :=
  (∃ a c, recorded a ∧ recorded c ∧ e = RTaskGraph (TG_WouldCycle (Target.id a) (Target.id c))) ∨
  (∃ a x, recorded a ∧ e = RTasksBuilder x ∧ dependency_error (Target.id a) x).

Definition recorded b (target : Target) : Prop := is_Some (task_data b !! target).

Lemma task_error_mono (P Q : Target → Prop) e : (∀ x, P x → Q x) → task_error P e → task_error Q e.
Proof. intros HPQ [(a & c & ? & ? & ->)|(a & x & ? & -> & ?)]; [left|right]; eauto 8. Qed.

Lemma task_error_grown known tnamed b known' tnamed' b' e :
  tk_grown known tnamed b known' tnamed' b' → task_error (recorded b') e → task_error (recorded b) e.
Proof. intros Hg. apply task_error_mono. intros x. apply Hg. Qed.

Definition task_load_spec (n : nat) (load : Target → WorkspaceBuilder GB TB * gset Target →
    result (option nat * (WorkspaceBuilder GB TB * gset Target))) : Prop :=
  ∀ named stack known tnamed b cycle target,
    tasks_loading named stack known tnamed b → (∀ x, x ∈ cycle → x ∈ stack) →
    is_Some (task_data b !! target) → task_unindexed b < n → next_on known stack target →
    match load target (b, cycle) with
    | Ok (r, (b', cycle')) => ∃ known' tnamed',
        tasks_loading named stack known' tnamed' b' ∧ tk_grown known tnamed b known' tnamed' b' ∧
        (∀ x, x ∈ cycle' → x ∈ stack) ∧
        match r with
        | Some i => task_index b' !! target = Some i
        | None => target ∈ cycle
        end
    | Err e => task_error (recorded b) e
    | OutOfFuel => False
    end.

Lemma load_task_dep_loading n load named target stack known tnamed b cycle i t d :
  task_load_spec n load → tasks_loading named (target :: stack) known tnamed b →
  (∀ x, x ∈ cycle → x ∈ target :: stack) → task_unindexed b < n →
  task_index b !! target = Some i → known !! target = Some t → d ∈ t_deps t →
  match load_task_dep_step load t i (b, cycle) d with
  | Ok (b', cycle') => ∃ known' tnamed',
      tasks_loading named (target :: stack) known' tnamed' b' ∧
      tk_grown known tnamed b known' tnamed' b' ∧ (∀ x, x ∈ cycle' → x ∈ target :: stack) ∧
      dep_linked known' tnamed' target d
  | Err e => task_error (recorded b) e
  | OutOfFuel => False
  end.
Proof.
  intros Hload Hl Hc Hn Hi Ht Hd. unfold load_task_dep_step. cbn [snd].
  destruct (decide (dep_target d ∈ cycle)) as [Hin|Hin].
  { exists known, tnamed. split; [done|]. split; [apply tk_grown_refl|]. split; [done|]. right.
    eapply chain_path; [apply Hl|]. by apply Hc. }
  pose proof (Hload named (target :: stack) known tnamed b cycle (dep_target d) Hl Hc
    (tk_closed _ _ _ _ _ Hl _ _ _ Ht Hd) Hn ltac:(by exists t, d)) as Hx.
  destruct (load (dep_target d) (b, cycle)) as [[r [b1 cycle1]]|e|]; cbn [obind]; [|done..].
  destruct Hx as (known1 & tnamed1 & Hl1 & Hg1 & Hc1 & Hr). destruct r as [j|]; [|done].
  assert (task_index b1 !! target = Some i) as Hi1 by (eapply lookup_weaken; [exact Hi|apply Hg1]).
  assert (known1 !! target = Some t) as Ht1 by (eapply lookup_weaken; [exact Ht|apply Hg1]).
  destruct (dag_add_edge (task_graph b1) i j (dep_type d)) as [[x g]|] eqn:Ha; cbn [ok_or obind].
  2: { left. exists target, (dep_target d).
       destruct (tk_node _ _ _ _ _ Hl _ _ _ Hi Ht) as [-> _]. split_and!; [| |done].
       - rewrite task_index_lookup in Hi. unfold recorded. by destruct (task_data b !! target).
       - apply (tk_closed _ _ _ _ _ Hl _ _ _ Ht Hd). }
  destruct (loading_task_edge _ _ _ _ _ _ _ _ _ _ _ _ Hl1 Hi1 Hr Ht1 Hd Ha) as [Hl2 Hg2].
  eexists known1, _. split; [exact Hl2|]. split; [by eapply tk_grown_trans|]. split; [done|].
  left. apply elem_of_app. right. by left.
Qed.

Lemma load_task_deps_loading n load named target stack known tnamed b cycle i t ds :
  task_load_spec n load → tasks_loading named (target :: stack) known tnamed b →
  (∀ x, x ∈ cycle → x ∈ target :: stack) → task_unindexed b < n →
  task_index b !! target = Some i → known !! target = Some t → (∀ d, d ∈ ds → d ∈ t_deps t) →
  match ofold (load_task_dep_step load t i) (b, cycle) ds with
  | Ok (b', cycle') => ∃ known' tnamed',
      tasks_loading named (target :: stack) known' tnamed' b' ∧
      tk_grown known tnamed b known' tnamed' b' ∧ (∀ d, d ∈ ds → dep_linked known' tnamed' target d)
  | Err e => task_error (recorded b) e
  | OutOfFuel => False
  end.
Proof.
  intros Hload. revert known tnamed b cycle.
  induction ds as [|d ds IH]; intros known tnamed b cycle Hl Hc Hn Hi Ht Hds; cbn [ofold].
  { exists known, tnamed. split; [done|]. split; [apply tk_grown_refl|]. intros d Hd.
    by apply elem_of_nil in Hd. }
  pose proof (load_task_dep_loading n load named target stack known tnamed b cycle i t d Hload Hl Hc Hn Hi
    Ht (Hds d ltac:(left))) as Hs.
  destruct (load_task_dep_step load t i (b, cycle) d) as [[b1 cycle1]|e|]; cbn [obind]; [|done..].
  destruct Hs as (known1 & tnamed1 & Hl1 & Hg1 & Hc1 & Hd1).
  pose proof (task_unindexed_grown _ _ _ _ _ _ Hg1) as Hle.
  specialize (IH known1 tnamed1 b1 cycle1 Hl1 Hc1 ltac:(lia)
    ltac:(eapply lookup_weaken; [exact Hi|apply Hg1]) ltac:(eapply lookup_weaken; [exact Ht|apply Hg1])
    ltac:(intros x Hx; apply Hds; by right)).
  destruct (ofold _ _ ds) as [[b2 cycle2]|e|]; [|by eapply task_error_grown|done].
  destruct IH as (known2 & tnamed2 & Hl2 & Hg2 & Hd2). exists known2, tnamed2. split; [done|].
  split; [by eapply tk_grown_trans|]. intros x [->|Hx]%elem_of_cons; [|by apply Hd2].
  eapply dep_linked_mono; [apply Hg2|apply Hg2|done].
Qed.

Lemma internal_load_task_spec fuel : task_load_spec fuel (internal_load_task ctx fuel).
Proof.
  induction fuel as [|fuel IH]; intros named stack known tnamed b cycle target Hl Hc Hdt Hn Hnext; [lia|].
  cbn [internal_load_task]. destruct Hdt as [d Hd].
  destruct (tk_data _ _ _ _ _ Hl _ _ Hd) as (id & k & p & Hof & Hp & Htask).
  assert (is_Some (project_data b !! id)) as Hid.
  { destruct Hp as (i & Hi & _). rewrite index_of_lookup in Hi. destruct (project_data b !! id); [by eexists|done]. }
  rewrite (resolve_target_own _ id k target) by done. cbn [obind].
  destruct (decide (target ∈ cycle)) as [Hin|Hin].
  { exists known, tnamed. split; [done|]. split; [apply tk_grown_refl|done]. }
  rewrite Hd. destruct (tbd_node_index d) as [j|] eqn:Hix.
  { exists known, tnamed. split; [done|]. split; [apply tk_grown_refl|]. split; [done|].
    by rewrite task_index_lookup, Hd. }
  pose proof Hof as (_ & -> & _). cbn [obind].
  destruct (load_loaded_project (size (project_data b)) b id p Hp) as (i & Hload & Hi & Hpi).
  unfold project_fuel. rewrite Hload. cbn [obind ok_or]. rewrite dg_node_weight_law, Hpi, Hd. cbn [obind ok_or].
  destruct (Htask eq_refl) as (t & Hkt & Htt).
  pose proof (pr_tasks _ _ (tk_ready _ _ _ _ _ Hl) id p Hp) as Hown.
  pose proof (take_task_spec b target d i id k p t Hown Hof Hkt Htt) as Htake.
  destruct (dag_add_node (task_graph b) Loading) as [j g] eqn:Hadd.
  destruct (take_task b target d i p) as [[[j' t'] b1]|e|]; cbn [obind]; [|right|done].
  2: { destruct Htake as (x & -> & Hx). exists target, x. split; [by eexists|done]. }
  destruct Htake as (-> & Htt' & p' & Hext & -> & Hclosed).
  destruct (loading_taken _ _ _ _ _ Hl target d Hd Hix id k Hof i p p' Hi Hpi Hext j g Hadd t' Htt'
    Hclosed Hnext) as [Hl1 Hg1].
  pose proof (taken_unindexed _ _ _ _ _ Hl target d Hd Hix i p' j g) as Hun.
  pose proof (load_task_deps_loading fuel _ named target stack _ _ _ ({[target]} ∪ cycle) j t' (t_deps t') IH Hl1
    ltac:(intros x [->%elem_of_singleton|Hx]%elem_of_union; [left|right; by apply Hc]) ltac:(lia)
    ltac:(by rewrite task_index_taken, lookup_insert_eq) ltac:(by rewrite lookup_insert_eq) ltac:(done)) as Hloop.
  destruct (ofold _ _ _) as [[b2 cycle2]|e|]; cbn [obind]; [|by eapply task_error_grown|done].
  destruct Hloop as (known2 & tnamed2 & Hl2 & Hg2 & Hdeps).
  assert (task_index b2 !! target = Some j) as Hj2.
  { eapply lookup_weaken; [|apply Hg2]. by rewrite task_index_taken, lookup_insert_eq. }
  assert (known2 !! target = Some t') as Ht2.
  { eapply lookup_weaken; [|apply Hg2]. by rewrite lookup_insert_eq. }
  exists known2, tnamed2. split; [|split; [|split; [set_solver|done]]].
  - eapply loading_task_done; [exact Hl2| |done|done|done].
    by apply (taken_unknown _ _ _ _ _ Hl target d).
  - eapply tk_grown_trans; [exact Hg1|]. destruct Hg2 as [A1 A2 A3 A4]. by split.
Qed.

(** ** Loading from the outside *)

Lemma load_task_spec named known tnamed b target :
  tasks_loading named [] known tnamed b → is_Some (task_data b !! target) →
  match load_task ctx b target with
  | Ok b' => ∃ known' tnamed', tasks_loading named [] known' tnamed' b' ∧
      tk_grown known tnamed b known' tnamed' b' ∧ is_Some (task_index b' !! target)
  | Err e => task_error (recorded b) e
  | OutOfFuel => False
  end.
Proof.
  intros Hl Hd. unfold load_task.
  pose proof (internal_load_task_spec (task_fuel b) named [] known tnamed b ∅ target Hl
    ltac:(set_solver) Hd ltac:(unfold task_fuel, task_unindexed; lia) I) as Hs.
  destruct (internal_load_task _ _ _ _) as [[r [b1 cycle1]]|e|]; cbn [obind]; [|done..].
  destruct Hs as (known1 & tnamed1 & Hl1 & Hg1 & _ & Hr). exists known1, tnamed1.
  unfold connect_deferred_project_edges. rewrite (pr_deferred _ _ (tk_ready _ _ _ _ _ Hl1)). cbn [fold_left].
  split; [|split; [|by destruct r; [eexists|set_solver]]].
  - destruct Hl1 as [[R1 R2 R3 R4 R5] ? ? ? ? ? ? ? ? ? ? ?]. by split.
  - destruct Hg1. by split.
Qed.

Lemma load_each_task_spec named known tnamed b targets :
  tasks_loading named [] known tnamed b → (∀ x, x ∈ targets → is_Some (task_data b !! x)) →
  match ofold (load_task ctx) b targets with
  | Ok b' => ∃ known' tnamed', tasks_loading named [] known' tnamed' b' ∧
      tk_grown known tnamed b known' tnamed' b' ∧ ∀ x, x ∈ targets → is_Some (task_index b' !! x)
  | Err e => task_error (recorded b) e
  | OutOfFuel => False
  end.
Proof.
  revert known tnamed b. induction targets as [|x targets IH]; intros known tnamed b Hl Hd; cbn [ofold].
  { exists known, tnamed. split; [done|]. split; [apply tk_grown_refl|]. intros x Hx. by apply elem_of_nil in Hx. }
  pose proof (load_task_spec named known tnamed b x Hl (Hd x ltac:(left))) as Hx.
  destruct (load_task ctx b x) as [b1|e|]; cbn [obind]; [|done..].
  destruct Hx as (known1 & tnamed1 & Hl1 & Hg1 & Hx1).
  specialize (IH known1 tnamed1 b1 Hl1 ltac:(intros y Hy; apply Hg1; apply Hd; by right)).
  destruct (ofold _ b1 targets) as [b2|e|]; [|by eapply task_error_grown|done]. destruct IH as (known2 & tnamed2 & Hl2 & Hg2 & H2).
  exists known2, tnamed2. split; [done|]. split; [by eapply tk_grown_trans|].
  intros y [->|Hy]%elem_of_cons; [|by apply H2]. destruct Hx1 as [i Hi]. exists i.
  eapply lookup_weaken; [exact Hi|apply Hg2].
Qed.

(** The tasks that are in the projects. *)
Lemma loaded_targets_elem named b x :
  projects_ready named b →
  x ∈ loaded_targets (project_graph b) ↔
  ∃ id p k t, wb_loaded b id p ∧ (k, t) ∈ p_tasks p ∧ t_target t = x.
Proof.
  intros Hr. unfold loaded_targets. rewrite list_elem_of_In, in_flat_map.
  pose proof (lk_keyed _ _ _ _ _ _ (pr_linked _ _ Hr)) as Hk. split.
  - intros (i & _ & Hin). rewrite dg_node_weight_law in Hin.
    destruct (dg_nodes (project_graph b) !! i) as [[p|]|] eqn:Hi; [|done..].
    apply in_map_iff in Hin as (t & <- & Ht). apply list_elem_of_In, list_elem_of_fmap in Ht as ([k t'] & -> & Ht).
    destruct (kd_cover _ _ _ Hk i) as [id Hid]; [by eapply lookup_lt_Some|].
    exists id, p, k, t'. split; [by exists i|done].
  - intros (id & p & k & t & (i & Hi & Hp) & Ht & <-). exists i.
    rewrite in_seq, dg_node_count_law, dg_node_weight_law, Hp. split; [apply lookup_lt_Some in Hp; lia|].
    apply in_map_iff. exists t. split; [done|]. apply list_elem_of_In, list_elem_of_fmap. by exists (k, t).
Qed.

(** All tasks are loaded. *)
Lemma load_tasks_spec named known tnamed b :
  tasks_loading named [] known tnamed b →
  match load_tasks ctx b with
  | Ok b' => ∃ known' tnamed', tasks_loading named [] known' tnamed' b' ∧
      (∀ x, is_Some (task_data b !! x) ↔ is_Some (known' !! x))
  | Err e => task_error (recorded b) e
  | OutOfFuel => False
  end.
Proof.
  intros Hl. unfold load_tasks. pose proof (tk_ready _ _ _ _ _ Hl) as Hr.
  pose proof (load_each_task_spec named known tnamed b (loaded_targets (project_graph b)) Hl) as Hs.
  specialize (Hs ltac:(intros x (id & p & k & t & Hp & Ht & <-)%(loaded_targets_elem named);
    [by eapply (tk_recorded _ _ _ _ _ Hl)|done])).
  destruct (ofold _ b _) as [b'|e|]; [|done..]. destruct Hs as (known' & tnamed' & Hl' & Hg & Hx).
  exists known', tnamed'. split; [done|]. intros x. rewrite <- (tk_known _ _ _ _ _ Hl'). split.
  - intros [d Hd]. destruct (tbd_node_index d) as [i|] eqn:Hi.
    + exists i. eapply lookup_weaken; [|apply Hg]. by rewrite task_index_lookup, Hd.
    + apply Hx. apply (loaded_targets_elem named); [done|].
      destruct (tk_data _ _ _ _ _ Hl _ _ Hd) as (id & k & p & _ & Hp & Ht).
      destruct (Ht Hi) as (t & Hin & Htt). by exists id, p, k, t.
  - intros [i Hi]. apply Hg. rewrite task_index_lookup in Hi.
    by destruct (task_data b' !! x); [eexists|].
Qed.
End Tasks.
