(* ===== verification/WorkspaceBuilderResult.v ===== *)
(** * The workspace graph of the sequential builder

From [WorkspaceBuilder::new] to [build]: a builder that is prepared loads its
projects and tasks, and the finished graphs keep their invariants. *)

From S2P Require Import Prelude Errors FileSystem PooledTasks Target GraphUtils Config Constraints Query Dag.
From S2P Require Import DiGraph NodeMaps ProjectGraph ProjectGraphFacts TaskDeps TaskDepsFacts.
From S2P Require Import ProjectBuilder WorkspaceData WorkspaceDataFacts WorkspaceNodes TaskGraph.
From S2P Require Import TaskGraphFacts WorkspaceGraph WorkspaceAsync WorkspaceBuilds.
From S2P Require Import WorkspaceAsyncFacts WorkspaceLoad WorkspaceResult WorkspaceBuilder.
From S2P Require Import WorkspaceBuilderFacts WorkspaceBuilderTasks Shapes.

(** ** Preparing *)

Section Prepare.
Context {GB : DiGraphOps (NodeState Project) DependencyScope}
  {TB : DagOps (NodeState Task) TaskDependencyType}
  `{HP : ProjectHost, HW : WorkspaceHost, HI : IdSyntax}.
Context (ctx : WorkspaceBuilderContext).
Implicit Types (b : WorkspaceBuilder GB TB).

(** No project has a node. *)
Definition data_fresh (data : ProjectBuildDataMap) : Prop :=
  ∀ id d, data !! id = Some d → bd_node_index d = None.

(** Nothing is loaded yet, and the aliases are those of the build data. *)
Record prepared b : Prop := {
  pp_aliases : alias_ok (aliases b) (project_data b) ∧ alias_exact (aliases b) (project_data b);
  pp_fresh : data_fresh (project_data b);
  pp_graph : project_graph b = dg_new;
  pp_tasks : task_graph b = dag_new ∧ task_data b = ∅;
  pp_deferred : deferred_project_edges b = [];
}.

(** What is loaded has neither a node nor an alias. *)
Definition data_bare (data : ProjectBuildDataMap) : Prop :=
  ∀ id d, data !! id = Some d → bd_node_index d = None ∧ bd_aliases d = ∅.

Lemma load_build_data_bare renamed sources data renamed' :
  load_build_data renamed sources = Ok (data, renamed') → data_bare data.
Proof.
  unfold load_build_data. destruct (ofold _ _ _) as [[[data1 r1] dupes]| |] eqn:Hf; [|done..].
  cbn. intros [= <- _].
  eapply (ofold_ind (λ s, data_bare s.1.1)) in Hf; [exact Hf| |intros id d; cbn; by rewrite lookup_empty].
  intros [[da re] du] [id source] s' _ Hs Hstep. cbn in Hs, Hstep.
  destruct (load_project_config_from_source source) as [config| |]; [|done..]. cbn [obind] in Hstep.
  set (bare := mkBuildData ∅ (Some config) [] (Some id) None source) in Hstep.
  assert (∀ re1 du1 id1, (match da !! id1 with
    | Some existing => if decide (bd_source existing = source)
        then Ok (<[id1 := bd_set_id bare None]> da, re1, du1)
        else Err (RWorkspaceBuilder (DuplicateProjectId id1 (bd_source existing) source))
    | None => Ok (<[id1 := bd_set_id bare None]> da, re1, du1)
    end : result load_state) = Ok s' → data_bare s'.1.1) as Hins.
  { intros re1 du1 id1 Hx. assert (data_bare (<[id1 := bd_set_id bare None]> da)) as Hb.
    { intros k d [[<- <-]|[_ Hd]]%lookup_insert_Some; [done|by apply (Hs k)]. }
    destruct (da !! id1); [destruct (decide _)|]; [|done|]; by injection Hx as <-. }
  destruct (config_id config) as [new|]; [|exact (Hins _ _ _ Hstep)].
  destruct (decide (new ≠ id)); [|exact (Hins _ _ _ Hstep)].
  destruct (track_id_rename re du id new) as [re1 du1]. exact (Hins _ _ _ Hstep).
Qed.

Lemma data_fresh_update data id d d' :
  data_fresh data → data !! id = Some d → bd_node_index d' = bd_node_index d →
  data_fresh (<[id := d']> data).
Proof.
  intros Hf Hd Heq k x [[<- <-]|[_ Hx]]%lookup_insert_Some; [|by eapply Hf]. rewrite Heq. by eapply Hf.
Qed.

Lemma extend_step_fresh inherit plugin al data e al' data' :
  data_fresh data → extend_step inherit plugin (al, data) e = Ok (al', data') → data_fresh data'.
Proof.
  intros Hf. unfold extend_step. destruct e as [pid ext]. destruct (decide (data !! pid = None)); [done|].
  assert (∀ al1 da ex, data_fresh da →
    match da !! pid with
    | Some build_data => Ok (al1, <[pid := bd_extend build_data ex]> da)
    | None => Ok (al1, da)
    end = (Ok (al', data') : result _) → data_fresh data') as Hfin.
  { intros al1 da ex Hda. destruct (da !! pid) as [d|] eqn:Hd; intros [= <- <-]; [|done].
    by eapply data_fresh_update. }
  destruct inherit; [destruct (ext_alias ext) as [alias|]|]; cbn [obind]; [|by apply Hfin..].
  destruct (track_alias al data pid alias plugin) as [[al1 da]| |] eqn:Ht; [|done..]. cbn [obind].
  apply Hfin. revert Ht. unfold track_alias. destruct (negb _); [by intros [= <- <-]|].
  destruct (_ && _); [by intros [= <- <-]|]. destruct (al !! alias); [by intros [= <- <-]|].
  destruct (data !! pid) as [d|] eqn:Hd; [|done]. cbn. intros [= <- <-]. by eapply data_fresh_update.
Qed.

Lemma extend_from_prepared configured is_toolchain extend_all b b' :
  prepared b → extend_projects_from ctx configured is_toolchain extend_all b = Ok b' → prepared b'.
Proof.
  intros Hp. unfold extend_projects_from. destruct (negb configured); [by intros [= <-]|].
  destruct (extend_all _) as [outputs| |]; [|done..]. cbn [obind].
  destruct (ofold _ _ outputs) as [[[paths al] da]| |] eqn:Hf; [|done..]. cbn [obind]. intros [= <-].
  destruct Hp as [[H1 H2] H3 H4 H5 H6].
  apply (ofold_ind (λ s, alias_ok s.1.2 s.2 ∧ alias_exact s.1.2 s.2 ∧ data_fresh s.2)) in Hf;
    [by destruct Hf as (? & ? & ?); split| |done].
  intros [[pa1 al1] da1] [plugin output] [[pa2 al2] da2] _ (A1 & A2 & A3) Hs. cbn [fst snd] in *.
  split; [by apply (apply_extend_ok _ _ _ _ _ _ _ _ _ _ A1 Hs)|]. split; [by eapply apply_extend_exact|].
  unfold apply_extend_output in Hs.
  destruct (ofold _ (al1, da1) _) as [[al3 da3]| |] eqn:Hg; [|done..]. cbn in Hs. injection Hs as _ _ <-.
  eapply (ofold_ind (λ s, data_fresh s.2)) in Hg; [exact Hg| |done].
  intros [al4 da4] e [al5 da5] _ Hda. by apply extend_step_fresh.
Qed.

(** [new] and [extend_projects_from_plugins] prepare the builder. *)
Lemma new_prepared b b' :
  WorkspaceBuilder_new ctx = Ok b → extend_projects_from_plugins ctx b = Ok b' → prepared b'.
Proof.
  intros Hn He. assert (prepared b) as Hp.
  { revert Hn. unfold WorkspaceBuilder_new, preload_build_data.
    destruct (gather_sources ctx) as [sources| |]; [|done..]. cbn [obind].
    destruct (load_build_data ∅ sources) as [[data renamed]| |] eqn:Hl; [|done..]. cbn [obind].
    destruct workspace_config_files as [files| |]; [|done..]. cbn [obind project_data WorkspaceBuilder_empty].
    rewrite (right_id_L ∅ (∪) data). destruct (check_default_project ctx data) as [[]| |]; [|done..]. cbn [obind].
    destruct (determine_repo_type _ _) as [type root]. intros [= <-].
    pose proof (load_build_data_bare _ _ _ _ Hl) as Hb. split; cbn; try done.
    - split; [intros a i Ha; by rewrite lookup_empty in Ha|]. intros a i _. rewrite lookup_empty.
      split; [done|]. intros (d & [_ Hd]%Hb & Ha). rewrite Hd, lookup_empty in Ha. by destruct Ha.
    - intros i d [Hd _]%Hb. done. }
  revert He. unfold extend_projects_from_plugins.
  destruct (extend_projects_from ctx extensions_configured false _ b) as [b1| |] eqn:H1; [|done..]. cbn [obind].
  intros H2. eapply extend_from_prepared; [|exact H2]. by eapply extend_from_prepared.
Qed.
End Prepare.

(** ** From a prepared builder to the workspace graph *)

Section Finish.
Context {GB : DiGraphOps (NodeState Project) DependencyScope} {LGB : DiGraphLaws GB}
  {TB : DagOps (NodeState Task) TaskDependencyType} {LTB : DagLaws TB} {UB : DagUpdate TB}
  {LUB : DagUpdateLaws UB LTB}
  `{HP : ProjectHost, HW : WorkspaceHost, HI : IdSyntax}.
Context (ctx : WorkspaceBuilderContext) (order : list Id → list Id) (order_perm : ∀ l, order l ≡ₚ l).
Implicit Types (b : WorkspaceBuilder GB TB).

(** The projects of a builder. *)
Definition project_ids b : list Id := (map_to_list (project_data b)).*1.

Lemma project_ids_elem b id : id ∈ project_ids b ↔ is_Some (project_data b !! id).
Proof.
  unfold project_ids. rewrite list_elem_of_fmap. split.
  - intros ([k d] & -> & Hd%elem_of_map_to_list). by eexists.
  - intros [d Hd]. exists (id, d). by rewrite elem_of_map_to_list.
Qed.

Definition builder_settled b := settled ctx (aliases b) (project_ids b) (wb_build_project ctx b) (dag_new (DagOps := TB)).

Lemma prepared_settled b : prepared b → builder_settled b [] b.
Proof.
  intros [Hal Hf Hg [Ht Htd] Hdf]. split; [|done].
  assert (index_of b = ∅) as Hix.
  { apply map_eq. intros id. rewrite index_of_lookup, lookup_empty.
    destruct (project_data b !! id) as [d|] eqn:Hd; [|done]. by eapply Hf. }
  destruct dg_new_law as (N1 & N2 & N3).
  assert (∀ id p, ¬ wb_loaded b id p) as Hno.
  { intros id p (i & Hi & _). by rewrite Hix, lookup_empty in Hi. }
  split; rewrite ?Hg, ?Hix, ?Htd; try done.
  - intros id. by rewrite project_ids_elem.
  - rewrite N2, N3. apply linked_empty.
  - intros id. split; [set_solver|]. intros (i & Hi & _). by rewrite lookup_empty in Hi.
  - by intros id p Hl%Hno.
  - by intros id p t Hl%Hno.
  - intros x Hx. by apply elem_of_nil in Hx.
  - intros e He. by apply elem_of_nil in He.
Qed.

Lemma build_project_own b id p : wb_build_project ctx b id = Ok p → p_id p = id.
Proof.
  unfold wb_build_project. destruct (project_data b !! id); [|done]. cbn. apply build_project_id.
Qed.

(** When every project of a prepared builder can be built or has an error. *)
Definition builds_total b : Prop := ∀ id, id ∈ project_ids b → wb_build_project ctx b id ≠ OutOfFuel.

Lemma prepared_load_projects b :
  prepared b → builds_total b →
  match load_projects ctx order b with
  | Ok b' => ∃ named, projects_settled ctx (aliases b) (project_ids b) (wb_build_project ctx b) dag_new named b'
  | Err e => load_error (aliases b) (project_ids b) (wb_build_project ctx b) e
  | OutOfFuel => False
  end.
Proof.
  intros Hp Ht. apply (load_projects_spec ctx (aliases b) (project_ids b) (wb_build_project ctx b) dag_new)
    with (named := []); [done| |done|by apply prepared_settled].
  intros id p _. apply build_project_own.
Qed.

(** The dependencies between the projects of a builder. *)
Definition declared b : list (Id * Id * DependencyScope) :=
  all_declared (aliases b) (project_ids b) (wb_build_project ctx b).

(** A workspace without cycles, missing projects or broken configuration. *)
Record loadable b : Prop := {
  lb_built : ∀ id, id ∈ project_ids b → ∃ p, wb_build_project ctx b id = Ok p ∧
    ∀ d, d ∈ p_dependencies p → res (aliases b) (pdep_id d) ∈ project_ids b;
  lb_acyclic : named_acyclic is_production_group (declared b);
}.

Lemma loadable_loads b :
  prepared b → loadable b →
  ∃ b' named, load_projects ctx order b = Ok b' ∧
    projects_settled ctx (aliases b) (project_ids b) (wb_build_project ctx b) dag_new named b'.
Proof.
  intros Hp [Hb Ha]. pose proof (prepared_load_projects b Hp) as Hl.
  specialize (Hl ltac:(intros id Hid; destruct (Hb id Hid) as (p & -> & _); done)).
  destruct (load_projects ctx order b) as [b'|e|]; [by destruct Hl as [named Hn]; eauto| |done].
  destruct Hl as [(a & c & _ & [])|[(id & p & d & Hid & Hpp & Hd & Hno & _)|(id & Hid & He)]]; [done| |].
  - destruct (Hb id Hid) as (p' & Hp' & Hdeps). rewrite Hpp in Hp'. injection Hp' as <-. by destruct Hno; apply Hdeps.
  - destruct (Hb id Hid) as (p' & Hp' & _). congruence.
Qed.

(** ** Which edges there are *)

Section Edges.
Context (b b' : WorkspaceBuilder GB TB) (named : list (Id * Id * DependencyScope)).
Context (Hset : projects_settled ctx (aliases b) (project_ids b) (wb_build_project ctx b) dag_new named b').

Lemma settled_edges_declared x : x ∈ named → x ∈ declared b.
Proof. destruct Hset as [[Hl _] _]. apply Hl. Qed.

(** A dependency by identifier is linked, or there is a path back. *)
Lemma settled_dep id p d :
  id ∈ project_ids b → wb_build_project ctx b id = Ok p → d ∈ p_dependencies p →
  is_root_scope d = false → res (aliases b) (pdep_id d) = pdep_id d →
  (id, pdep_id d, pdep_scope d) ∈ named ∨ scope_path named (pdep_scope d) (pdep_id d) id.
Proof.
  intros Hid Hp Hd Hr Hres. destruct Hset as [[Hl _] Hall]. apply Hall in Hid as [p' Hp'].
  destruct (ld_loaded _ _ _ _ _ _ _ _ _ Hl id p' Hp') as [Heq Hacc].
  assert (p' = p) as -> by congruence.
  destruct (Hacc d Hd Hr Hres) as [?|[(e & He & _)|?]]; [by left|by apply elem_of_nil in He|by right].
Qed.

(** Without cycles and with dependencies by identifier, all are linked. *)
Lemma settled_exact x :
  named_acyclic is_production_group (declared b) →
  (∀ id p d, id ∈ project_ids b → wb_build_project ctx b id = Ok p → d ∈ p_dependencies p →
     res (aliases b) (pdep_id d) = pdep_id d) →
  x ∈ named ↔ x ∈ declared b.
Proof.
  intros Hac Hres. split; [apply settled_edges_declared|]. intros Hx. pose proof Hx as Hin.
  unfold declared, all_declared in Hin. apply list_elem_of_In, in_flat_map in Hin as (id & Hid & Hin).
  apply list_elem_of_In in Hid. destruct (wb_build_project ctx b id) as [p| |] eqn:Hp; [|done..].
  unfold declared_deps, declared_of in Hin. apply in_flat_map in Hin as (d & Hd & Hin).
  apply list_elem_of_In in Hd. destruct (is_root_scope d) eqn:Hr; [done|]. destruct Hin as [<-|[]].
  rewrite (build_project_own _ _ _ Hp) in *. rewrite (Hres id p d Hid Hp Hd) in *.
  destruct (settled_dep id p d Hid Hp Hd Hr (Hres id p d Hid Hp Hd)) as [?|Hpath]; [done|].
  destruct (scope_path_cycle named (declared b) id (pdep_id d) (pdep_scope d) Hpath settled_edges_declared Hx).
  exact Hac.
Qed.
End Edges.

(** ** Tasks *)

(** The identifiers of projects and tasks are plain ones. *)
Definition plain_ids b : Prop :=
  ∀ id p, id ∈ project_ids b → wb_build_project ctx b id = Ok p →
    plain_project id = true ∧ ∀ k, k ∈ (p_tasks p).*1 → plain_task k = true.

Lemma plain_own_tasks b id p :
  plain_ids b → id ∈ project_ids b → wb_build_project ctx b id = Ok p → own_tasks id p.
Proof.
  intros Hplain Hid Hp. destruct (Hplain id p Hid Hp) as [Hpid Hks].
  unfold wb_build_project in Hp. destruct (project_data b !! id); [|done]. cbn in Hp.
  destruct (build_project_tasks _ _ _ _ _ _ _ Hp) as [Hnd Hown]. split; [done|].
  intros k t Hkt. pose proof (Hown k t Hkt) as Ht. split; [done|].
  apply (Target_new_plain _ _ _ Ht); [done|]. apply Hks. apply list_elem_of_fmap. by exists (k, t).
Qed.

Lemma settled_ready b b' named :
  plain_ids b →
  projects_settled ctx (aliases b) (project_ids b) (wb_build_project ctx b) dag_new named b' →
  tasks_loading named [] ∅ [] b'.
Proof.
  intros Hplain [[Hl Hdf] Hall].
  assert (∀ id p, wb_loaded b' id p → wb_build_project ctx b id = Ok p ∧ own_tasks id p) as Hld.
  { intros id p Hp. destruct (ld_loaded _ _ _ _ _ _ _ _ _ Hl id p Hp) as [Heq _]. split; [done|].
    apply (plain_own_tasks b); [done| |done]. apply Hall. by exists p. }
  assert (projects_ready named b') as Hr.
  { split; [apply Hl|apply Hl| | |done].
    - intros id Hid%(ld_ids _ _ _ _ _ _ _ _ _ Hl). by apply Hall.
    - intros id p [_ ?]%Hld. done. }
  assert (task_index b' = ∅) as Hix.
  { apply map_eq. intros x. rewrite task_index_lookup, lookup_empty.
    destruct (task_data b' !! x) as [d|] eqn:Hd; [|done]. by apply (ld_task_data _ _ _ _ _ _ _ _ _ Hl x d). }
  pose proof (ld_task_graph _ _ _ _ _ _ _ _ _ Hl) as Hg.
  split; rewrite ?Hix, ?Hg; try done.
  - intros x d Hd. destruct (ld_task_data _ _ _ _ _ _ _ _ _ Hl x d Hd) as (_ & id & p & t & [i Hi] & Hp & Ht & <-).
    apply list_elem_of_fmap in Ht as ([k t'] & -> & Hin).
    assert (id ∈ project_ids b) as Hid by by eapply indexed_project.
    apply Hall in Hid as [p' Hp']. pose proof (Hld _ _ Hp') as [Heq [_ Ho]].
    assert (p' = p) as -> by congruence. exists id, k, p. split; [by apply Ho|]. split; [done|]. eauto.
  - intros id p k t Hp Hin. eapply (ld_recorded _ _ _ _ _ _ _ _ _ Hl); [exact Hp|].
    apply list_elem_of_fmap. by exists (k, t).
  - apply dag_new_wf.
  - rewrite dag_new_nodes, dag_new_edges. apply linked_empty.
  - intros x. by rewrite !lookup_empty.
  - intros x Hx. by apply elem_of_nil in Hx.
  - intros a c e Hx. by apply elem_of_nil in Hx.
Qed.

(** ** The workspace graph *)

Context {G : DiGraphOps nat DependencyScope} {LG : DiGraphLaws G}
  {D : DagOps nat DependencyScope} {LD : DagLaws D}
  {T : DagOps nat TaskDependencyType} {LT : DagLaws T}
  {M : DiGraphMap GB G} {LM : DiGraphMapLaws M LGB LG}
  {MT : DagMap TB T} {LMT : DagMapLaws MT LTB LT} {U : DagUpdate T} {LU : DagUpdateLaws U LT}.

(** A workspace graph with the projects [ids], the edges [named] between them, the
    tasks [known] and the edges [tnamed] between these. *)
Record finished (ids : list Id) (named : list (Id * Id * DependencyScope)) (known : gmap Target Task)
    (tnamed : list (Target * Target * TaskDependencyType)) (g : WorkspaceGraph G D T) : Prop := {
  fi_projects_ok : pg_ok (wg_projects g);
  fi_tasks_ok : tg_ok (wg_tasks g);
  fi_projects : tg_project_graph (wg_tasks g) = wg_projects g;
  fi_project_nodes : ∀ id, is_Some (pg_nodes (wg_projects g) !! id) ↔ id ∈ ids;
  fi_project_edges : ∀ a c scope,
    (∃ i j, pg_indexes (wg_projects g) !! i = Some a ∧ pg_indexes (wg_projects g) !! j = Some c ∧
            (i, j, scope) ∈ dg_edges (pg_graph (wg_projects g))) ↔ (a, c, scope) ∈ named;
  fi_task_nodes : ∀ target t,
    (∃ node, tg_nodes (wg_tasks g) !! target = Some node ∧ tn_task node = t) ↔ known !! target = Some t;
  fi_task_edges : ∀ a c e,
    (∃ i j, tg_indexes (wg_tasks g) !! i = Some a ∧ tg_indexes (wg_tasks g) !! j = Some c ∧
            (i, j, e) ∈ dag_edges (tg_graph (wg_tasks g))) ↔ (a, c, e) ∈ tnamed;
}.

(** The ends of an edge are loaded when everything is. *)
Lemma all_loaded_edge {N K E} `{Countable K} (key : N → K) (part : E → bool) named index nodes edges a c e :
  linked key part named index nodes edges →
  (∀ k i, index !! k = Some i → ∃ n, nodes !! i = Some (Loaded n)) →
  loaded_edge key nodes edges a c e ↔ (a, c, e) ∈ named.
Proof.
  intros Hl Hall. rewrite (linked_loaded_edge _ _ _ _ _ _ _ _ _ Hl). split; [by intros [? _]|].
  intros Hin. split; [done|]. destruct (linked_ends _ _ _ _ _ _ _ _ _ Hl Hin) as (i & j & Hi & Hj & _).
  destruct (Hall _ _ Hi) as [n Hn]. destruct (Hall _ _ Hj) as [m Hm].
  split; [by exists n, i|by exists m, j].
Qed.

Lemma wb_build_Ok named known tnamed b :
  tasks_loading named [] known tnamed b →
  enforce_constraints ctx (project_graph b) = Ok tt → read_vcs = Ok tt →
  ∃ g, wb_build ctx b = Ok g ∧ finished (project_ids b) named known tnamed g.
Proof.
  intros Hl Hc Hv. pose proof (tk_ready _ _ _ _ _ Hl) as Hr. unfold wb_build. rewrite Hc, Hv. cbn [obind].
  pose proof (pr_linked _ _ Hr) as Hpl. pose proof (tk_linked _ _ _ _ _ Hl) as Htl.
  destruct (finalize_projects_ok ctx (aliases b) (project_graph b) (index_of b) (pr_wf _ _ Hr)
    (lk_keyed _ _ _ _ _ _ Hpl)) as (pg & -> & [Hp1 Hp2 Hp3] & _).
  { intros part. apply (lk_acyclic _ _ _ _ _ _ Hpl part). }
  cbn [obind].
  destruct (finalize_tasks_ok pg (task_graph b) (task_index b) (tk_wf _ _ _ _ _ Hl)
    (lk_keyed _ _ _ _ _ _ Htl)) as (tg & -> & [Ht1 Ht2 Ht3] & Htp).
  { rewrite <- (one_part_all (dag_edges _)). apply (lk_acyclic _ _ _ _ _ _ Htl true). }
  cbn [obind]. eexists. split; [done|].
  assert (∀ id i, index_of b !! id = Some i → ∃ p, dg_nodes (project_graph b) !! i = Some (Loaded p)) as Hpall.
  { intros id i Hi. destruct (pr_loaded _ _ Hr id) as (p & i' & Hi' & Hp).
    { rewrite index_of_lookup in Hi. by destruct (project_data b !! id); [eexists|]. }
    assert (i' = i) as -> by congruence. eauto. }
  assert (∀ x i, task_index b !! x = Some i →
    ∃ t, known !! x = Some t ∧ dag_nodes (task_graph b) !! i = Some (Loaded t)) as Htall.
  { intros x i Hi. destruct (proj1 (tk_known _ _ _ _ _ Hl x)) as [t Ht]; [by eexists|]. exists t.
    split; [done|]. by apply (tk_node _ _ _ _ _ Hl _ _ _ Hi Ht). }
  split; cbn; [done..| | | |].
  - intros id. rewrite project_ids_elem. split.
    + intros [node Hn]. destruct (proj1 (Hp2 id (pn_project node))) as (<- & i & Hi); [eauto|].
      destruct (proj1 (linked_loaded_key _ _ _ _ _ _ _ _ Hpl)
        (conj eq_refl (ex_intro _ i Hi))) as (j & Hj & _).
      rewrite index_of_lookup in Hj. by destruct (project_data b !! _); [eexists|].
    + intros Hd. destruct (pr_loaded _ _ Hr id Hd) as (p & i & Hi & Hp).
      destruct (proj2 (Hp2 id p)) as (node & Hn & _); [|by exists node].
      apply (linked_loaded_key _ _ _ _ _ _ _ _ Hpl). eauto.
  - intros a c scope. rewrite Hp3. by apply (all_loaded_edge _ _ _ _ _ _ _ _ _ Hpl).
  - intros x t. rewrite Ht2, (linked_loaded_key _ _ _ _ _ _ _ _ Htl). split.
    + intros (i & Hi & Hx). destruct (Htall x i Hi) as (t' & Ht & Hx'). congruence.
    + intros Ht. destruct (proj2 (tk_known _ _ _ _ _ Hl x)) as [i Hi]; [by eexists|].
      exists i. split; [done|]. destruct (Htall x i Hi) as (t' & Ht' & Hx'). congruence.
  - intros a c e. rewrite Ht3. apply (all_loaded_edge _ _ _ _ _ _ _ _ _ Htl).
    intros x i Hi. destruct (Htall x i Hi) as (t & _ & Ht). eauto.
Qed.
End Finish.
