(* ===== verification/WorkspaceCache.v ===== *)
(** * The cached workspace graph ([workspace_cache.rs], [new_with_cache])

Both builders keep what they have loaded on disk, under a hash of the projects,
the configuration files, the files plugins have read, the versions of the plugins
and the environment. *)

From S2P Require Import Prelude Errors FileSystem PooledTasks Target GraphUtils Config Constraints Dag DiGraph.
From S2P Require Import NodeMaps ProjectGraph TaskDeps ProjectBuilder WorkspaceData TaskGraph.
From S2P Require Import WorkspaceGraph WorkspaceAsync WorkspaceBuilder Shapes.

(** [WorkspaceGraphFingerprint] *)
Record WorkspaceGraphFingerprint : Type := mkFingerprint {
  fp_projects : gmap Id WorkspaceRelativePath;
  fp_async_graph_building : bool;
  fp_env : gmap string string;
  fp_extensions : gmap Id string;
  fp_in_docker : bool;
  fp_inputs : gmap WorkspaceRelativePath string;
  fp_toolchains : gmap Id string;
  fp_version : string;
}.

(** What is known about a plugin that was loaded. *)
Record LoadedPlugin : Type := mkLoadedPlugin {
  lp_id : Id;
  lp_manifest_file_names : list string;
  lp_extends_graph : bool;
  lp_version : string;
}.

(** The plugins, the environment, the hashes of files, and the hash of a
    fingerprint. *)
Class CacheHost : Type := {
  extension_plugins : result (list LoadedPlugin);
  toolchain_plugins : result (list LoadedPlugin);
  env_get : string → option string;
  in_docker : bool;
  hash_files : gset WorkspaceRelativePath → result (gmap WorkspaceRelativePath string);
  save_manifest : WorkspaceGraphFingerprint → result string;
  vcs_enabled : bool;
}.

(** [WorkspaceGraphFingerprint::default] *)
Definition fingerprint_default `{CacheHost} : WorkspaceGraphFingerprint :=
  mkFingerprint ∅ false ∅ ∅ in_docker ∅ ∅ (default "" (env_get "MOON_VERSION"))%string.

Definition set_async_graph_building (f : WorkspaceGraphFingerprint) (value : bool) : WorkspaceGraphFingerprint :=
  mkFingerprint (fp_projects f) value (fp_env f) (fp_extensions f) (fp_in_docker f) (fp_inputs f)
    (fp_toolchains f) (fp_version f).

Definition add_projects (f : WorkspaceGraphFingerprint) (projects : gmap Id WorkspaceRelativePath) :
  WorkspaceGraphFingerprint :=
  mkFingerprint (projects ∪ fp_projects f) (fp_async_graph_building f) (fp_env f) (fp_extensions f)
    (fp_in_docker f) (fp_inputs f) (fp_toolchains f) (fp_version f).

Definition add_inputs (f : WorkspaceGraphFingerprint) (inputs : gmap WorkspaceRelativePath string) :
  WorkspaceGraphFingerprint :=
  mkFingerprint (fp_projects f) (fp_async_graph_building f) (fp_env f) (fp_extensions f)
    (fp_in_docker f) (inputs ∪ fp_inputs f) (fp_toolchains f) (fp_version f).

Definition add_extension_versions (f : WorkspaceGraphFingerprint) (versions : gmap Id string) :
  WorkspaceGraphFingerprint :=
  mkFingerprint (fp_projects f) (fp_async_graph_building f) (fp_env f) (versions ∪ fp_extensions f)
    (fp_in_docker f) (fp_inputs f) (fp_toolchains f) (fp_version f).

Definition add_toolchain_versions (f : WorkspaceGraphFingerprint) (versions : gmap Id string) :
  WorkspaceGraphFingerprint :=
  mkFingerprint (fp_projects f) (fp_async_graph_building f) (fp_env f) (fp_extensions f)
    (fp_in_docker f) (fp_inputs f) (versions ∪ fp_toolchains f) (fp_version f).

Definition gather_env `{CacheHost} (f : WorkspaceGraphFingerprint) : WorkspaceGraphFingerprint :=
  mkFingerprint (fp_projects f) (fp_async_graph_building f)
    (fold_left (λ env key, <[key := default "" (env_get key)]> env)
       ["MOON_OUTPUT_STYLE"; "MOON_RETRY_COUNT"] (fp_env f))%string
    (fp_extensions f) (fp_in_docker f) (fp_inputs f) (fp_toolchains f) (fp_version f).

Section Digest.
Context `{WorkspaceHost, CacheHost}.

(** The versions of the plugins that may extend the graph. *)
Definition plugin_versions (plugins : list LoadedPlugin) : gmap Id string :=
  fold_left (λ versions p, if lp_extends_graph p then <[lp_id p := lp_version p]> versions else versions)
    plugins ∅.

(** The manifests of the toolchains, in the workspace and in every project. *)
Definition manifest_paths (plugins : list LoadedPlugin) (sources : list WorkspaceRelativePath) :
  gset WorkspaceRelativePath :=
  list_to_set (flat_map (λ p, flat_map (λ file_name,
    file_name :: map (λ source, source_join source file_name) sources) (lp_manifest_file_names p)) plugins).

(** [generate_graph_cache_digest] *)
Definition generate_graph_cache_digest (projects : gmap Id WorkspaceRelativePath)
  (config_paths plugin_input_paths : gset WorkspaceRelativePath) (async_graph_building : bool) :
  result string :=
  let? extensions := extension_plugins in
  let? toolchains := toolchain_plugins in
  let all_paths :=
    config_paths ∪ manifest_paths toolchains (map_to_list projects).*2 ∪ plugin_input_paths in
  let? inputs := hash_files all_paths in
  save_manifest
    (gather_env
      (add_toolchain_versions
        (add_extension_versions
          (add_inputs
            (add_projects (set_async_graph_building fingerprint_default async_graph_building) projects)
            inputs)
          (plugin_versions extensions))
        (plugin_versions toolchains))).
End Digest.

(** What is on disk: [WorkspaceGraphCacheState], and the builder that was written.
    A state that does not exist yet is the default. *)
Record CacheDisk {B : Type} : Type := mkCacheDisk {
  last_hash : string;
  disk_plugin_input_paths : gset WorkspaceRelativePath;
  disk_graph : option B;
}.
Arguments CacheDisk : clear implicits.
Arguments mkCacheDisk {B} _ _ _.

(** ** The sequential builder *)

Section Sequential.
Context {GB : DiGraphOps (NodeState Project) DependencyScope}
  {TB : DagOps (NodeState Task) TaskDependencyType} {UB : DagUpdate TB}
  `{HP : ProjectHost, HW : WorkspaceHost, HI : IdSyntax, HC : CacheHost}.
Context (ctx : WorkspaceBuilderContext) (order : list Id → list Id).
Implicit Types (b : WorkspaceBuilder GB TB).

(** What is left of build data when it is written and read again. *)
Definition stored_project_data (d : ProjectBuildData) : ProjectBuildData :=
  mkBuildData (bd_aliases d) None (bd_extensions d) None (bd_node_index d) (bd_source d).

Definition stored_task_data (d : TaskBuildData) : TaskBuildData :=
  mkTaskBuildData (tbd_node_index d) TaskOptions_default (tbd_tags d) false.

(** [json::write_file] and [json::read_file], without the fields that are skipped *)
Definition stored b : WorkspaceBuilder GB TB :=
  mkWorkspaceBuilder _ _ [] (config_paths b) ∅ (aliases b) (projects_by_tag b)
    (stored_project_data <$> project_data b) (project_graph b) (renamed_project_ids b) (repo_type b)
    (root_project_id b) (stored_task_data <$> task_data b) (task_graph b).

(** [generate_cache_digest] *)
Definition wb_cache_digest b (paths : gset WorkspaceRelativePath) : result string :=
  generate_graph_cache_digest (map_project_sources (project_data b)) (list_to_set (config_paths b))
    paths false.

(** The part of [new_with_cache] after a miss. *)
Definition wb_rebuild b (disk : CacheDisk (WorkspaceBuilder GB TB)) (digest : string) :
  result (WorkspaceBuilder GB TB * CacheDisk (WorkspaceBuilder GB TB)) :=
  let? b := load_workspace ctx order b in
  let? ' (paths, digest) :=
    if decide (plugin_input_paths b = disk_plugin_input_paths disk)
    then Ok (disk_plugin_input_paths disk, digest)
    else let? digest := wb_cache_digest b (plugin_input_paths b) in Ok (plugin_input_paths b, digest) in
  Ok (b, mkCacheDisk digest paths (Some (stored b))).

(** [new_with_cache] *)
Definition wb_new_with_cache (disk : CacheDisk (WorkspaceBuilder GB TB)) :
  result (WorkspaceBuilder GB TB * CacheDisk (WorkspaceBuilder GB TB)) :=
  let? b := WorkspaceBuilder_new ctx in
  if negb vcs_enabled then let? b := load_workspace ctx order b in Ok (b, disk)
  else
    let? digest := wb_cache_digest b (disk_plugin_input_paths disk) in
    match disk_graph disk with
    | Some cache =>
        if bool_decide (digest = last_hash disk) &&
           bool_decide (dom (project_data cache) = dom (project_data b))
        then Ok (cache, disk)
        else wb_rebuild b disk digest
    | None => wb_rebuild b disk digest
    end.
End Sequential.

(** ** The asynchronous builder *)

Section Asynchronous.
Context {GB : DiGraphOps (NodeState Project) DependencyScope}
  {TB : DagOps (NodeState Task) TaskDependencyType} {UB : DagUpdate TB}
  `{HP : ProjectHost, HW : WorkspaceHost, HI : IdSyntax, HC : CacheHost}.
Context (concurrency : nat) (sched : nat → nat)
  (arrive : list (Id * WorkspaceRelativePath) → list (Id * WorkspaceRelativePath))
  (ctx : WorkspaceBuilderContext).
Implicit Types (b : WorkspaceBuilderAsync GB TB).

(** What is written and read again. *)
Definition stored_projects (p : WorkspaceProjectsBuilder GB) : WorkspaceProjectsBuilder GB :=
  mkProjectsBuilder _ (aliases_to_ids p) (stored_project_data <$> build_data p) (pbs_config_paths p) ∅
    (ids_to_indexes p) (ids_to_target_options p) (target_to_has_outputs p) (pbs_graph p)
    (renamed_ids p) (pbs_repo_type p) (pbs_root_id p) (tags_to_ids p) (tags_to_targets p).

Definition stored_async b : WorkspaceBuilderAsync GB TB :=
  mkBuilderAsync _ _ (stored_projects (wba_projects b)) (wba_tasks b).

Definition wba_cache_digest b (projects : gmap Id WorkspaceRelativePath)
  (paths : gset WorkspaceRelativePath) : result string :=
  generate_graph_cache_digest projects (pbs_config_paths (wba_projects b)) paths true.

Definition wba_rebuild b (projects : gmap Id WorkspaceRelativePath)
  (disk : CacheDisk (WorkspaceBuilderAsync GB TB)) (digest : string) :
  result (WorkspaceBuilderAsync GB TB * CacheDisk (WorkspaceBuilderAsync GB TB)) :=
  let? b := load_graphs concurrency sched arrive ctx b in
  let found := pbs_plugin_input_paths (wba_projects b) in
  let? ' (paths, digest) :=
    if decide (found = disk_plugin_input_paths disk)
    then Ok (disk_plugin_input_paths disk, digest)
    else let? digest := wba_cache_digest b projects found in Ok (found, digest) in
  Ok (b, mkCacheDisk digest paths (Some (stored_async b))).

(** [new_with_cache] *)
Definition wba_new_with_cache (disk : CacheDisk (WorkspaceBuilderAsync GB TB)) :
  result (WorkspaceBuilderAsync GB TB * CacheDisk (WorkspaceBuilderAsync GB TB)) :=
  if negb vcs_enabled then
    let? b := load_graphs concurrency sched arrive ctx WorkspaceBuilderAsync_new in Ok (b, disk)
  else
    let? b := wba_preload arrive ctx WorkspaceBuilderAsync_new in
    let projects := map_project_sources (build_data (wba_projects b)) in
    let? digest := wba_cache_digest b projects (disk_plugin_input_paths disk) in
    match disk_graph disk with
    | Some cache =>
        if bool_decide (digest = last_hash disk) &&
           bool_decide (dom (ids_to_indexes (wba_projects cache)) = dom (build_data (wba_projects b)))
        then Ok (cache, disk)
        else wba_rebuild b projects disk digest
    | None => wba_rebuild b projects disk digest
    end.
End Asynchronous.
