(* ===== verification/WorkspaceCacheFacts.v ===== *)
(** * Properties of the cached workspace graph

Reading a builder from the cache makes the same workspace graph, and a run that
follows another one in the same environment finds what it has written. *)

From S2P Require Import Prelude Errors FileSystem PooledTasks Target GraphUtils Config Constraints Dag DiGraph.
From S2P Require Import NodeMaps ProjectGraph TaskDeps ProjectBuilder WorkspaceData.
From S2P Require Import WorkspaceDataFacts TaskGraph WorkspaceGraph WorkspaceAsync WorkspaceBuilder.
From S2P Require Import WorkspaceCache Shapes.

(** ** The sequential builder *)

Section Sequential.
Context {GB : DiGraphOps (NodeState Project) DependencyScope}
  {TB : DagOps (NodeState Task) TaskDependencyType} {UB : DagUpdate TB}
  `{HP : ProjectHost, HW : WorkspaceHost, HI : IdSyntax, HC : CacheHost}.
Context (ctx : WorkspaceBuilderContext) (order : list Id → list Id).
Implicit Types (b : WorkspaceBuilder GB TB).

(** The cached builder makes the graph of the one that was written. *)
Lemma wb_build_stored {G : DiGraphOps nat DependencyScope} {D : DagOps nat DependencyScope}
  {T : DagOps nat TaskDependencyType} {M : DiGraphMap GB G} {MT : DagMap TB T} {U : DagUpdate T} b :
  wb_build (G := G) (D := D) (T := T) ctx (stored b) = wb_build ctx b.
Proof. done. Qed.

(** Loading changes neither the configuration files nor where projects are. *)
Definition same_inputs b b' : Prop :=
  config_paths b' = config_paths b ∧
  map_project_sources (project_data b') = map_project_sources (project_data b).

Lemma same_inputs_trans b1 b2 b3 : same_inputs b1 b2 → same_inputs b2 b3 → same_inputs b1 b3.
Proof. intros [H1 H2] [H3 H4]. split; congruence. Qed.

Lemma same_inputs_update b data graph id d d' :
  project_data b !! id = Some d → bd_source d' = bd_source d → data = <[id := d']> (project_data b) →
  same_inputs b (set_projects b data graph).
Proof.
  intros Hd Hs ->. split; [done|]. cbn. unfold map_project_sources. rewrite fmap_insert, Hs.
  apply insert_id. by rewrite lookup_fmap, Hd.
Qed.

Lemma load_dep_same load id index b c d b' c' :
  (∀ k b c r b' c', load k (b, c) = Ok (r, (b', c')) → same_inputs b b') →
  load_dep_step load id index (b, c) d = Ok (b', c') → same_inputs b b'.
Proof.
  intros Hload. unfold load_dep_step. destruct (decide _).
  { destruct (is_root_scope d); [by intros [= <- <-]|].
    destruct (project_data b !! _ ≫= bd_node_index); by intros [= <- <-]. }
  destruct (load (pdep_id d) (b, c)) as [[r [b1 c1]]| |] eqn:Hl; [|done..]. cbn [obind].
  apply Hload in Hl as Hs. destruct r as [[dep_id j]|]; [|by intros [= <- <-]].
  destruct (is_root_scope d); [by intros [= <- <-]|].
  destruct (would_cycle_in_scope _ _ _ _); [done|]. by intros [= <- <-].
Qed.

Lemma internal_load_same fuel k b c r b' c' :
  internal_load_project ctx fuel k (b, c) = Ok (r, (b', c')) → same_inputs b b'.
Proof.
  revert k b c r b' c'. induction fuel as [|fuel IH]; intros k b c r b' c'; [done|].
  cbn [internal_load_project]. destruct (decide _); [by intros [= _ <- _]|].
  destruct (project_data b !! _) as [d|] eqn:Hd; [|done].
  destruct (bd_node_index d); [by intros [= _ <- _]|].
  destruct (dg_add_node _ _) as [i g]. set (b1 := set_projects b _ g).
  assert (same_inputs b b1) as Hs1 by (by apply (same_inputs_update b _ g _ d (bd_set_index d i) Hd)).
  destruct (wb_build_project ctx b1 _) as [p| |]; [|done..]. cbn [obind].
  destruct (ofold _ _ _) as [[b2 c2]| |] eqn:Hf; [|done..]. cbn [obind]. intros [= _ <- _].
  eapply (same_inputs_trans b b1); [done|].
  eapply (ofold_ind (λ s, same_inputs b1 s.1)) in Hf; [exact Hf| |done].
  intros [b3 c3] x [b4 c4] _ Hs Hx. cbn in *. eapply same_inputs_trans; [exact Hs|].
  eapply load_dep_same; [exact IH|exact Hx].
Qed.

Lemma connect_same b : same_inputs b (connect_deferred_project_edges b).
Proof.
  unfold connect_deferred_project_edges. generalize (deferred_project_edges b) as edges.
  assert (same_inputs b (set_deferred b [])) as Hs by done. revert Hs.
  generalize (set_deferred b []) as x. intros x Hs edges. revert x Hs.
  induction edges as [|e edges IH]; intros x Hs; [done|]. cbn. apply IH.
  unfold connect_deferred. by destruct (would_cycle_in_scope _ _ _ _).
Qed.

Lemma load_project_same b k b' : load_project ctx b k = Ok b' → same_inputs b b'.
Proof.
  unfold load_project. destruct (internal_load_project _ _ _ _) as [[r [b1 c1]]| |] eqn:Hl; [|done..].
  cbn [obind]. intros [= <-]. eapply same_inputs_trans; [by eapply internal_load_same|apply connect_same].
Qed.

Lemma load_task_dep_same load t index b c d b' c' :
  (∀ x b c r b' c', load x (b, c) = Ok (r, (b', c')) → same_inputs b b') →
  load_task_dep_step load t index (b, c) d = Ok (b', c') → same_inputs b b'.
Proof.
  intros Hload. unfold load_task_dep_step. cbn [snd]. destruct (decide _); [by intros [= <- <-]|].
  destruct (load (dep_target d) (b, c)) as [[r [b1 c1]]| |] eqn:Hl; [|done..]. cbn [obind].
  apply Hload in Hl as Hs. destruct r as [j|]; [|by intros [= <- <-]].
  destruct (dag_add_edge _ _ _ _) as [[x g]|]; [|done]. cbn. by intros [= <- <-].
Qed.

Lemma internal_load_task_same fuel target b c r b' c' :
  internal_load_task ctx fuel target (b, c) = Ok (r, (b', c')) → same_inputs b b'.
Proof.
  revert target b c r b' c'. induction fuel as [|fuel IH]; intros target b c r b' c'; [done|].
  cbn [internal_load_task]. destruct (resolve_target _ _) as [tg| |]; [|done..]. cbn [obind].
  destruct (decide _); [by intros [= _ <- _]|].
  destruct (task_data b !! tg) as [d|]; [|by destruct (get_task_id tg), (get_project_id tg)].
  destruct (tbd_node_index d); [by intros [= _ <- _]|].
  destruct (get_project_id tg) as [pid| |]; [|done..]. cbn [obind].
  destruct (internal_load_project _ _ _ _) as [[loaded [b1 c1]]| |] eqn:Hp; [|done..]. cbn [obind].
  apply internal_load_same in Hp as Hs1. destruct loaded as [[x i]|]; [|done]. cbn [obind ok_or].
  destruct (dg_node_weight _ i) as [[p|]|]; [|done..].
  destruct (task_data b1 !! tg) as [d1|]; [|done]. cbn [obind ok_or].
  destruct (take_task b1 tg d1 i p) as [[[j t] b2]| |] eqn:Ht; [|done..]. cbn [obind].
  assert (same_inputs b1 b2) as Hs2.
  { revert Ht. unfold take_task. destruct (dag_add_node _ _). destruct (get_task_id tg); [|done..]. cbn [obind].
    destruct (tasks_get _ _); [|done]. cbn [obind ok_or].
    destruct (TaskDepsBuilder_build _ _ _ _) as [[p1 t1]| |]; [|done..]. cbn [obind]. by intros [= _ _ <-]. }
  destruct (ofold _ _ _) as [[b3 c3]| |] eqn:Hf; [|done..]. cbn [obind]. intros [= _ <- _].
  eapply (same_inputs_trans b b1); [done|]. eapply (same_inputs_trans b1 b2); [done|].
  eapply (ofold_ind (λ s, same_inputs b2 s.1)) in Hf; [exact Hf| |done].
  intros [b4 c4] y [b5 c5] _ Hs Hx. cbn in *. eapply same_inputs_trans; [exact Hs|].
  eapply load_task_dep_same; [exact IH|exact Hx].
Qed.

Lemma load_task_same b target b' : load_task ctx b target = Ok b' → same_inputs b b'.
Proof.
  unfold load_task. destruct (internal_load_task _ _ _ _) as [[r [b1 c1]]| |] eqn:Hl; [|done..].
  cbn [obind]. intros [= <-]. eapply same_inputs_trans; [by eapply internal_load_task_same|apply connect_same].
Qed.

Lemma ofold_same {A} (f : WorkspaceBuilder GB TB → A → result (WorkspaceBuilder GB TB)) b l b' :
  (∀ b x b', f b x = Ok b' → same_inputs b b') → ofold f b l = Ok b' → same_inputs b b'.
Proof.
  intros Hf Hl. eapply (ofold_ind (same_inputs b)) in Hl; [exact Hl| |done].
  intros b1 x b2 _ Hs Hx. eapply same_inputs_trans; [exact Hs|by eapply Hf].
Qed.

(** Plugins do not move projects. *)
Lemma sources_update (data : ProjectBuildDataMap) id d d' :
  data !! id = Some d → bd_source d' = bd_source d →
  map_project_sources (<[id := d']> data) = map_project_sources data.
Proof.
  intros Hd Hs. unfold map_project_sources. rewrite fmap_insert, Hs. apply insert_id.
  by rewrite lookup_fmap, Hd.
Qed.

Lemma extend_step_sources inherit plugin al data e al' data' :
  extend_step inherit plugin (al, data) e = Ok (al', data') →
  map_project_sources data' = map_project_sources data.
Proof.
  unfold extend_step. destruct e as [pid ext]. destruct (decide (data !! pid = None)); [done|].
  assert (∀ al1 da ex, map_project_sources da = map_project_sources data →
    match da !! pid with
    | Some build_data => Ok (al1, <[pid := bd_extend build_data ex]> da)
    | None => Ok (al1, da)
    end = (Ok (al', data') : result _) → map_project_sources data' = map_project_sources data) as Hfin.
  { intros al1 da ex Hda. destruct (da !! pid) as [d|] eqn:Hd; intros [= <- <-]; [|done].
    by rewrite (sources_update _ _ d). }
  destruct inherit; [destruct (ext_alias ext) as [alias|]|]; cbn [obind]; [|by apply Hfin..].
  destruct (track_alias al data pid alias plugin) as [[al1 da]| |] eqn:Ht; [|done..]. cbn [obind].
  apply Hfin. revert Ht. unfold track_alias. destruct (negb _); [by intros [= <- <-]|].
  destruct (_ && _); [by intros [= <- <-]|]. destruct (al !! alias); [by intros [= <- <-]|].
  destruct (data !! pid) as [d|] eqn:Hd; [|done]. cbn. intros [= <- <-]. by rewrite (sources_update _ _ d).
Qed.

Lemma apply_extend_sources paths al data plugin output tc paths' al' data' :
  apply_extend_output ctx (paths, al, data) plugin output tc = Ok (paths', al', data') →
  map_project_sources data' = map_project_sources data.
Proof.
  unfold apply_extend_output. destruct (ofold _ _ _) as [[al1 da1]| |] eqn:Hf; [|done..].
  cbn [obind]. intros [= _ _ <-].
  eapply (ofold_ind (λ s, map_project_sources s.2 = map_project_sources data)) in Hf; [exact Hf| |done].
  intros [al2 da2] e [al3 da3] _ Hs Hx. cbn in *. rewrite <- Hs. by eapply extend_step_sources.
Qed.

Lemma extend_from_same configured is_toolchain extend_all b b' :
  extend_projects_from ctx configured is_toolchain extend_all b = Ok b' → same_inputs b b'.
Proof.
  unfold extend_projects_from. destruct (negb configured); [by intros [= <-]|].
  destruct (extend_all _) as [outputs| |]; [|done..]. cbn [obind].
  destruct (ofold _ _ outputs) as [[[paths al] da]| |] eqn:Hf; [|done..]. cbn [obind]. intros [= <-].
  split; [done|]. cbn.
  eapply (ofold_ind (λ s, map_project_sources s.2 = map_project_sources (project_data b))) in Hf;
    [exact Hf| |done].
  intros [[pa1 al1] da1] [plugin output] [[pa2 al2] da2] _ Hs Hx. cbn [snd] in *. rewrite <- Hs.
  by eapply apply_extend_sources.
Qed.

Lemma load_workspace_same b b' : load_workspace ctx order b = Ok b' → same_inputs b b'.
Proof.
  unfold load_workspace, extend_projects_from_plugins.
  destruct (extend_projects_from ctx extensions_configured false _ b) as [b1| |] eqn:H1; [|done..]. cbn [obind].
  destruct (extend_projects_from ctx toolchains_configured true _ b1) as [b2| |] eqn:H2; [|done..]. cbn [obind].
  destruct (load_projects ctx order b2) as [b3| |] eqn:H3; [|done..]. cbn [obind]. intros H4.
  eapply same_inputs_trans; [by eapply extend_from_same|].
  eapply same_inputs_trans; [by eapply extend_from_same|].
  eapply same_inputs_trans; [eapply (ofold_same (load_project ctx)); [|exact H3]; apply load_project_same|].
  eapply (ofold_same (load_task ctx)); [|exact H4]. apply load_task_same.
Qed.

Lemma same_inputs_digest b b' paths : same_inputs b b' → wb_cache_digest b' paths = wb_cache_digest b paths.
Proof. intros [H1 H2]. unfold wb_cache_digest. by rewrite H1, H2. Qed.

Lemma sources_dom (data : ProjectBuildDataMap) : dom (map_project_sources data) = dom data.
Proof. unfold map_project_sources. by rewrite dom_fmap_L. Qed.

(** A run that rebuilds is followed by one that does not, whatever the order in
    which it would load projects. *)
Lemma rebuild_then_hit order' b disk digest b' disk' :
  WorkspaceBuilder_new ctx = Ok b → vcs_enabled = true →
  wb_cache_digest b (disk_plugin_input_paths disk) = Ok digest →
  wb_rebuild ctx order b disk digest = Ok (b', disk') →
  wb_new_with_cache ctx order' disk' = Ok (stored b', disk').
Proof.
  intros Hnew Hvcs Hdig. unfold wb_rebuild.
  destruct (load_workspace ctx order b) as [b1| |] eqn:Hl; [|done..]. cbn [obind].
  apply load_workspace_same in Hl as Hs.
  destruct (decide (plugin_input_paths b1 = disk_plugin_input_paths disk)) as [Heq|Hne].
  - cbn [obind]. intros [= <- <-]. unfold wb_new_with_cache. rewrite Hnew, Hvcs. cbn [obind negb disk_plugin_input_paths].
    rewrite Hdig. cbn [obind disk_graph last_hash]. rewrite bool_decide_true by done. cbn [andb].
    rewrite bool_decide_true; [done|]. cbn. rewrite dom_fmap_L, <- !sources_dom. by destruct Hs as [_ ->].
  - destruct (wb_cache_digest b1 (plugin_input_paths b1)) as [digest1| |] eqn:Hd1; [|done..].
    cbn [obind]. intros [= <- <-]. unfold wb_new_with_cache. rewrite Hnew, Hvcs.
    cbn [obind negb disk_plugin_input_paths]. rewrite (same_inputs_digest _ _ _ Hs) in Hd1. rewrite Hd1.
    cbn [obind disk_graph last_hash]. rewrite bool_decide_true by done. cbn [andb].
    rewrite bool_decide_true; [done|]. cbn. rewrite dom_fmap_L, <- !sources_dom. by destruct Hs as [_ ->].
Qed.

(** The second of two runs reads what the first one has written or read. *)
Lemma wb_second_run order' disk b disk' :
  vcs_enabled = true → wb_new_with_cache ctx order disk = Ok (b, disk') →
  ∃ b', wb_new_with_cache ctx order' disk' = Ok (b', disk') ∧ (b' = b ∨ b' = stored b).
Proof.
  intros Hvcs. unfold wb_new_with_cache at 1.
  destruct (WorkspaceBuilder_new ctx) as [b0| |] eqn:Hnew; [|done..]. rewrite Hvcs. cbn [obind negb].
  destruct (wb_cache_digest b0 _) as [digest| |] eqn:Hdig; [|done..]. cbn [obind].
  destruct (disk_graph disk) as [cache|] eqn:Hc.
  - destruct (_ && _) eqn:Hhit.
    + intros [= <- <-]. exists cache. split; [|by left]. unfold wb_new_with_cache. rewrite Hnew, Hvcs.
      cbn [obind negb]. rewrite Hdig. cbn [obind]. by rewrite Hc, Hhit.
    + intros Hr. exists (stored b). split; [by eapply rebuild_then_hit|by right].
  - intros Hr. exists (stored b). split; [by eapply rebuild_then_hit|by right].
Qed.
End Sequential.

(** ** The asynchronous builder *)

Section Asynchronous.
Context {GB : DiGraphOps (NodeState Project) DependencyScope}
  {TB : DagOps (NodeState Task) TaskDependencyType} {UB : DagUpdate TB}
  `{HP : ProjectHost, HW : WorkspaceHost, HI : IdSyntax, HC : CacheHost}.
Context (concurrency : nat) (sched : nat → nat)
  (arrive : list (Id * WorkspaceRelativePath) → list (Id * WorkspaceRelativePath))
  (ctx : WorkspaceBuilderContext).
Implicit Types (b : WorkspaceBuilderAsync GB TB).

Lemma wba_build_stored {G : DiGraphOps nat DependencyScope} {D : DagOps nat DependencyScope}
  {T : DagOps nat TaskDependencyType} {M : DiGraphMap GB G} {MT : DagMap TB T} {U : DagUpdate T} b :
  wba_build (G := G) (D := D) (T := T) ctx (stored_async b) = wba_build ctx b.
Proof. done. Qed.

(** Linking does not change the configuration files. *)
Lemma add_project_config (p : WorkspaceProjectsBuilder GB) project p' :
  add_project p project = Ok p' → pbs_config_paths p' = pbs_config_paths p.
Proof.
  assert (∀ q k, pbs_config_paths (pbs_get_or_insert_node (GB := GB) q k).2 = pbs_config_paths q) as Hget.
  { intros q k. unfold pbs_get_or_insert_node. destruct (ids_to_indexes q !! _); [done|].
    by destruct (dg_add_node _ _). }
  unfold add_project. specialize (Hget p (p_id project)) as Hg1.
  destruct (pbs_get_or_insert_node p (p_id project)) as [i p1]. cbn in Hg1.
  destruct (ofold _ _ _) as [[p2 deps]| |] eqn:Hf; [|done..]. cbn [obind]. intros [= <-].
  assert (pbs_config_paths p2 = pbs_config_paths p1) as Hp2.
  { eapply (ofold_ind (λ s, pbs_config_paths s.1 = pbs_config_paths p1)) in Hf; [exact Hf| |done].
    intros [q ds] d [q' ds'] _ Hq Hx. cbn in *. destruct (is_root_scope _); [by simplify_eq|].
    specialize (Hget q (pbs_resolve_id q (pdep_id d))). destruct (pbs_get_or_insert_node q _) as [j q1].
    destruct (would_cycle_in_scope _ _ _ _); [done|]. simplify_eq. cbn in *. congruence. }
  set (q := pbs_set_tasks p2 _ _ _ _).
  assert (pbs_config_paths (fold_left (extract_task_data (p_id project)) (p_tasks project).*2 q) =
    pbs_config_paths q) as Hq.
  { generalize q as x. induction (p_tasks project).*2 as [|t ts IH]; intros x; [done|]. cbn. by rewrite IH. }
  unfold pbs_insert_or_update_node. rewrite <- Hg1, <- Hp2. cbn in *.
  destruct (ids_to_indexes _ !! _) as [k|]; [destruct (dg_node_weight _ k)|]; cbn; try done.
  all: destruct (dg_add_node _ _); cbn; done.
Qed.

(** Loading again adds the same files. *)
Lemma pbs_load_config (p : WorkspaceProjectsBuilder GB) data p' :
  pbs_load ctx arrive p = Ok (data, p') →
  ∃ paths, pbs_config_paths p' = pbs_config_paths p ∪ paths ∧
    ∀ (q : WorkspaceProjectsBuilder GB) data' q', pbs_load ctx arrive q = Ok (data', q') →
      pbs_config_paths q' = pbs_config_paths q ∪ paths.
Proof.
  unfold pbs_load, pbs_load_build_data. destruct (gather_sources ctx) as [sources| |]; [|done..].
  cbn [obind]. destruct (load_build_data _ _) as [[d r]| |]; [|done..]. cbn [obind].
  destruct workspace_config_files as [files| |]; [|done..]. cbn [obind].
  destruct (check_default_project ctx d) as [[]| |]; [|done..]. cbn [obind]. intros [= _ <-]. cbn.
  eexists. rewrite <- (assoc_L (∪)). split; [done|]. intros q data' q'.
  destruct (load_build_data (renamed_ids q) _) as [[d' r']| |]; [|done..]. cbn [obind].
  destruct (check_default_project ctx d') as [[]| |]; [|done..]. cbn [obind]. intros [= _ <-]. cbn.
  by rewrite <- (assoc_L (∪)).
Qed.

Lemma extend_build_config (p : WorkspaceProjectsBuilder GB) data data' p' :
  extend_build_data ctx p data = Ok (data', p') → pbs_config_paths p' = pbs_config_paths p.
Proof.
  unfold extend_build_data. destruct (extend_project_build_data_with_plugins _); [|done..]. cbn [obind].
  destruct (ofold _ _ _) as [[[paths al] da]| |]; [|done..]. by intros [= _ <-].
Qed.

Lemma load_graphs_config b b' :
  wba_preload arrive ctx WorkspaceBuilderAsync_new = Ok b →
  load_graphs concurrency sched arrive ctx b = Ok b' →
  pbs_config_paths (wba_projects b') = pbs_config_paths (wba_projects b).
Proof.
  unfold wba_preload, pbs_preload. destruct (pbs_load ctx arrive _) as [[data p]| |] eqn:Hl; [|done..].
  cbn [obind]. intros [= <-]. cbn [wba_projects].
  apply pbs_load_config in Hl as (paths & Hpaths & Hagain). cbn in Hpaths.
  unfold load_graphs, load_graphs_of. destruct (has_loaded_graphs _); [by intros [= <-]|]. cbn [wba_projects].
  set (p1 := pbs_set_data p data _ _).
  destruct (pbs_build _ _ _ _ p1 None) as [p2| |] eqn:Hb; [|done..]. cbn [obind].
  destruct (extract_tasks p2) as [[ts p3]| |] eqn:He; [|done..]. cbn [obind].
  destruct (tbs_build _ ts) as [tb| |]; [|done..]. cbn [obind]. intros [= <-]. cbn [wba_projects].
  assert (pbs_config_paths p3 = pbs_config_paths p2) as ->.
  { revert He. unfold extract_tasks. destruct (ofold _ _ _) as [[g ts']| |]; [|done..]. by intros [= _ <-]. }
  revert Hb. unfold pbs_build.
  destruct (if decide (build_data p1 = ∅) then _ else _) as [[d4 p4]| |] eqn:Hl4; [|done..]. cbn [obind].
  destruct (extend_build_data ctx p4 d4) as [[d5 p5]| |] eqn:H5; [|done..]. cbn [obind].
  destruct (determine_repo_type _ _) as [type root]. intros Hg.
  assert (pbs_config_paths p4 = pbs_config_paths p1) as H4.
  { destruct (decide (build_data p1 = ∅)); [|by simplify_eq]. apply Hagain in Hl4. rewrite Hl4.
    change (pbs_config_paths p1) with (pbs_config_paths p). rewrite Hpaths. set_solver. }
  apply extend_build_config in H5. unfold build_graph in Hg.
  apply (pool_result_Ok _ _ _ _ _ _ (run_pooled_tasks_spec concurrency sched _ _ _ _)) in Hg.
  unfold run_sequentially in Hg.
  eapply (ofold_ind (λ q, pbs_config_paths q = pbs_config_paths p5)) in Hg; [by rewrite Hg, H5, H4| |done].
  intros q [id d] q' _ Hq Hx. unfold run_one in Hx. cbn [obind] in Hx.
  destruct (build_project _ _ _ _ _) as [project| |]; [|done..]. apply add_project_config in Hx. congruence.
Qed.

(** After a run that rebuilds, the next one reads what was written if the nodes of
    the graph are those of the projects, and rebuilds otherwise. *)
Lemma wba_second_run disk b b' disk' digest :
  vcs_enabled = true → wba_preload arrive ctx WorkspaceBuilderAsync_new = Ok b →
  wba_cache_digest b (map_project_sources (build_data (wba_projects b))) (disk_plugin_input_paths disk) = Ok digest →
  wba_rebuild concurrency sched arrive ctx b (map_project_sources (build_data (wba_projects b))) disk digest
    = Ok (b', disk') →
  (dom (ids_to_indexes (wba_projects b')) = dom (build_data (wba_projects b)) →
   wba_new_with_cache concurrency sched arrive ctx disk' = Ok (stored_async b', disk')) ∧
  (dom (ids_to_indexes (wba_projects b')) ≠ dom (build_data (wba_projects b)) →
   wba_new_with_cache concurrency sched arrive ctx disk' =
   wba_rebuild concurrency sched arrive ctx b (map_project_sources (build_data (wba_projects b))) disk'
     (last_hash disk')).
Proof.
  intros Hvcs Hpre Hdig. set (projects := map_project_sources (build_data (wba_projects b))) in *.
  unfold wba_rebuild at 1. destruct (load_graphs _ _ _ _ b) as [b1| |] eqn:Hl; [|done..]. cbn [obind].
  pose proof (load_graphs_config _ _ Hpre Hl) as Hc. intros Hr.
  assert (b' = b1 ∧ disk_graph disk' = Some (stored_async b1) ∧
    wba_cache_digest b projects (disk_plugin_input_paths disk') = Ok (last_hash disk')) as (-> & Hgraph & Hd').
  { revert Hr. destruct (decide (pbs_plugin_input_paths (wba_projects b1) = disk_plugin_input_paths disk)) as [Heq|].
    - cbn [obind]. by intros [= <- <-].
    - destruct (wba_cache_digest b1 projects _) as [d1| |] eqn:H1; [|done..]. cbn [obind]. intros [= <- <-].
      split; [done|]. split; [done|]. cbn. rewrite <- H1. unfold wba_cache_digest. by rewrite Hc. }
  unfold wba_new_with_cache at 1 2. rewrite Hvcs. cbn [negb]. rewrite Hpre. cbn [obind]. fold projects.
  rewrite Hd'. cbn [obind]. rewrite Hgraph, (bool_decide_true (last_hash disk' = _)) by done. cbn [andb].
  cbn [wba_projects stored_async stored_projects ids_to_indexes]. split; intros Hdom.
  - by rewrite bool_decide_true.
  - by rewrite bool_decide_false.
Qed.
End Asynchronous.
