(* ===== verification/WorkspaceExamples.v ===== *)
(** * Example workspaces

Small workspaces given as a table of projects, with the file system, the plugins
and the configuration that go with it. The theorems about the builders are
evaluated on them. *)

From S2P Require Import Prelude Errors FileSystem PooledTasks Target GraphUtils Config Constraints Dag DiGraph.
From S2P Require Import NodeMaps ProjectGraph TaskDeps InheritedTasks TasksBuilder ProjectBuilder WorkspaceData TaskGraph.
From S2P Require Import WorkspaceGraph WorkspaceAsync WorkspaceBuilder WorkspaceCache Shapes.

#[local] Open Scope string_scope.

(** A project: its identifier, which is also its source, what it depends on, the
    alias a toolchain finds, and its tasks with their dependencies. *)
Record ExProject : Type := mkExProject {
  ex_id : Id;
  ex_deps : list ProjectDependsOn;
  ex_alias : option string;
  ex_tasks : list (Id * list TaskDependencyConfig);
}.

(** A task that runs nothing. *)
Definition ex_task_config (deps : list TaskDependencyConfig) : TaskConfig :=
  mkTaskConfig None None (ArgsList ["noop"]) ArgsNoop None (Some (DependencyObject <$> deps)) None []
    None None TaskOptionsConfig_default None None None None None.

Definition ex_config (p : ExProject) : ProjectConfig :=
  mkProjectConfig (ex_deps p) [] ∅ None UnknownLanguage UnknownLayer None UnknownStack []
    (list_to_map ((λ t, (t.1, ex_task_config t.2)) <$> ex_tasks p)) None None ∅
    ProjectWorkspaceConfig_default.

Definition ex_task (id : Id) (k : Id) (deps : list TaskDependencyConfig) : Task :=
  set_deps (mkTask noop [] [] [] None [] k [] [] ∅ [] TaskOptions_default [] ∅ [] None None
    TaskState_default [] (match Target_new id k with Ok t => t | _ => Target_default end) ["system"]
    TypeTest) deps.

#[export] Instance ex_syntax : ConfigSyntax := {
  regex_new _ := true;
  path_join root path := root +:+ "/" +:+ path;
}.

Section Example.
Context (ws : list ExProject).

Definition ex_find (id : Id) : option ExProject := List.find (λ p, bool_decide (ex_id p = id)) ws.

#[export] Instance ex_project_host : ProjectHost := {
  source_exists source := match ex_find source with Some _ => true | None => false end;
  project_root source := "/workspace/" +:+ source;
  detect_project_language _ := Ok UnknownLanguage;
  detect_project_toolchain_from_language _ := Ok [];
  detect_project_toolchain_from_usage _ _ := Ok [];
  load_project_config _ := Ok ProjectConfig_default;
  tasks_manager := [];
  project_files := {| exists_in _ _ := false |};
  project_tasks := {|
    parse_args _ := inr "0:0";
    plugin_exe_names _ := Ok [];
    plugin_requirements := Ok [];
    command_on_path _ := true;
    current_os := "linux";
    config_dir_prefix := ".moon";
    config_extensions := ["yml"; "yaml"];
  |};
}.

#[export] Instance ex_workspace_host : WorkspaceHost := {
  id_clean s := Ok s;
  walk_globs _ := Ok [];
  is_file _ := false;
  is_dir _ := false;
  is_ignored _ := false;
  project_file_names := ["moon.yml"];
  source_join source name := source +:+ "/" +:+ name;
  load_project_config_from_source source :=
    match ex_find source with Some p => Ok (ex_config p) | None => Ok ProjectConfig_default end;
  workspace_config_files := Ok [".moon/workspace.yml"];
  workspace_relative _ _ := None;
  finalize_task_config _ := Ok (ex_task_config []);
  extend_with_extensions _ := Ok [];
  extend_with_toolchains _ :=
    Ok [("node", mkExtendProjectGraphOutput
           (map (λ p, (ex_id p, mkExtendProjectOutput (ex_alias p) [] [])) ws) [])];
  extensions_configured := false;
  toolchains_configured := true;
  read_vcs := Ok tt;
}.

Definition ex_ctx : WorkspaceBuilderContext :=
  mkWorkspaceContext [] (mkToolchainsConfig ∅ "") ["workspace"] ["workspace"] None
    (ProjectsSources (map (λ p, (ex_id p, ex_id p)) ws)) false [].

(** A builder that is ready to load the projects. *)
Definition ex_builder : result (WorkspaceBuilder list_graph_ops list_dag_ops) :=
  let? b := WorkspaceBuilder_new ex_ctx in extend_projects_from_plugins ex_ctx b.
End Example.

(** The projects and tasks that are linked, by name. *)
Definition named_edges {GB : DiGraphOps (NodeState Project) DependencyScope} (graph : DiGraph) :
  list (Id * Id) :=
  omap (λ e, match dg_node_weight graph e.1.1, dg_node_weight graph e.1.2 with
             | Some (Loaded p), Some (Loaded q) => Some (p_id p, p_id q)
             | _, _ => None
             end) (dg_edge_references graph).

Definition dep (id : Id) (scope : DependencyScope) : ProjectDependsOn := DependsOnObject (mkProjectDep id scope).

(** [project:task], [project:build], and a dependency on them *)
Definition task_of (project task : Id) : Target :=
  match Target_new project task with Ok t => t | _ => Target_default end.

Definition build_of (project : Id) : Target := task_of project "build".

Definition on_task (project task : Id) (cache : option TaskDependencyCacheStrategy) : TaskDependencyConfig :=
  mkTaskDep [] cache [] (task_of project task) None.

Definition on_build (project : Id) := on_task project "build".

(** Expanding finds no tokens. *)
#[export] Instance ex_task_host : TaskHost := {
  expand_tokens _ task := Ok task;
  path_is_dir _ := false;
}.

(** [app] depends on [lib] and [tool], [lib] on [tool], and so do their tasks. *)
Definition ws_linked : list ExProject := [
  mkExProject "app" [dep "lib" SProduction; dep "tool" SDevelopment] (Some "@org/app")
    [("build", [on_build "lib" None; on_build "tool" None])];
  mkExProject "lib" [dep "tool" SProduction] (Some "@org/lib") [("build", [on_build "tool" (Some CacheOutputs)])];
  mkExProject "tool" [] None [("build", [])]
].

(** What the asynchronous builder makes of a workspace. *)
Definition ex_async (ws : list ExProject) : result (WorkspaceBuilderAsync list_graph_ops list_dag_ops) :=
  load_graphs_of (H := ex_project_host ws) (H0 := ex_workspace_host ws) 2 (λ _, 0) (λ l, l) (ex_ctx ws)
    WorkspaceBuilderAsync_new None.
