(* ===== verification/WorkspaceTheorems.v ===== *)
(** * What the workspace builders promise

The theorems about both builders, from the configuration to the workspace graph,
evaluated on the example workspaces, and the behaviours that differ from what the
comments of the code describe. *)

From S2P Require Import Prelude Errors FileSystem PooledTasks Target GraphUtils Config Constraints Query Dag.
From S2P Require Import DiGraph NodeMaps ProjectGraph ProjectGraphFacts TaskDeps TaskDepsFacts.
From S2P Require Import ProjectBuilder WorkspaceData WorkspaceDataFacts WorkspaceNodes TaskGraph.
From S2P Require Import TaskGraphFacts WorkspaceGraph WorkspaceGraphFacts WorkspaceAsync.
From S2P Require Import WorkspaceBuilds WorkspaceAsyncFacts WorkspaceLoad WorkspaceResult.
From S2P Require Import WorkspaceBuilder WorkspaceBuilderFacts WorkspaceBuilderTasks.
From S2P Require Import WorkspaceBuilderResult WorkspaceCache WorkspaceCacheFacts WorkspaceExamples.
From S2P Require Import Shapes.

(** ** The asynchronous builder *)

Section Async.
Context {GB : DiGraphOps (NodeState Project) DependencyScope} {LGB : DiGraphLaws GB}
  {TB : DagOps (NodeState Task) TaskDependencyType} {LTB : DagLaws TB} {UB : DagUpdate TB}
  {LUB : DagUpdateLaws UB LTB}
  {G : DiGraphOps nat DependencyScope} {LG : DiGraphLaws G}
  {D : DagOps nat DependencyScope} {LD : DagLaws D}
  {T : DagOps nat TaskDependencyType} {LT : DagLaws T}
  {M : DiGraphMap GB G} {LM : DiGraphMapLaws M LGB LG}
  {MT : DagMap TB T} {LMT : DagMapLaws MT LTB LT} {U : DagUpdate T} {LU : DagUpdateLaws U LT}
  {GT : DiGraphOps nat TaskDependencyType} {C : DagGraph T GT} {LGT : DiGraphLaws GT}
  {LC : DagGraphLaws C LT LGT}
  `{HP : ProjectHost, HW : WorkspaceHost, HI : IdSyntax, HT : TaskHost}.
Context (concurrency : nat) (sched : nat → nat)
  (arrive : list (Id * WorkspaceRelativePath) → list (Id * WorkspaceRelativePath))
  (ctx : WorkspaceBuilderContext).

(** C5: what the asynchronous builder makes is exact. If [load_graphs] or
    [load_graphs_for] succeeds, the constraints hold and the version control
    settings can be read, then [build] succeeds, and the workspace graph has one
    project node for every project that was asked for, an edge for every declared
    dependency between two of them that is not on the root project and no other
    edge, one task node for every task of these projects, and exactly the edges of
    the resolved dependencies of the tasks. Both graphs keep their invariants: the
    maps agree with the nodes and neither the tasks nor the projects of a partition
    form a cycle. *)
Theorem load_graphs_build ids (b : WorkspaceBuilderAsync GB TB) :
  load_graphs_of concurrency sched arrive ctx WorkspaceBuilderAsync_new ids = Ok b →
  enforce_constraints ctx (pbs_graph (wba_projects b)) = Ok tt → read_vcs = Ok tt →
  ∃ ps ts (g : WorkspaceGraph G D T), wba_build ctx b = Ok g ∧ workspace_sources arrive ctx ids ps ts b ∧
    workspace_built (pbs_resolve_id (wba_projects b)) ps ts g.
Proof.
  intros Hload Hc Hv. destruct (load_graphs_Ok _ _ _ _ _ _ Hload) as (ps & ts & Hl & Hs).
  destruct (wba_build_Ok ctx _ _ _ _ Hl Hc Hv) as (g & Hg & Hb). by exists ps, ts, g.
Qed.

(** C26: the asynchronous builder does not depend on how its tasks are interleaved.
    With any limit on concurrency, any choices of the executor and any order in
    which configurations arrive, a successful [load_graphs] leaves the same
    builder. *)
Theorem load_graphs_deterministic c2 (s2 : nat → nat)
    (arrive2 : list (Id * WorkspaceRelativePath) → list (Id * WorkspaceRelativePath))
    (b : WorkspaceBuilderAsync GB TB) ids b' :
  (∀ l, arrive l ≡ₚ l) → (∀ l, arrive2 l ≡ₚ l) →
  load_graphs_of concurrency sched arrive ctx b ids = Ok b' →
  load_graphs_of c2 s2 arrive2 ctx b ids = Ok b'.
Proof. apply load_graphs_order. Qed.

(** C27: projects are linked exactly when they can be. Once all projects of the
    queue are built, [build_graph] succeeds if and only if the declared
    dependencies of neither partition, production and development, form a cycle. *)
Theorem build_graph_cycles (q : WorkspaceProjectsBuilder GB) data ids ps :
  pbs_prepare ctx arrive WorkspaceProjectsBuilder_new = Ok (data, q) →
  projects_built ctx (pbs_root_id q) (is_monorepo (pbs_repo_type q)) (build_queue ids data) ps →
  (∃ q', build_graph concurrency sched ctx q ids data = Ok q') ↔
  named_acyclic is_production_group (flat_map (declared_deps (pbs_resolve_id q)) ps).
Proof.
  intros Hprep Hps. destruct (pbs_prepare_ok _ _ _ _ _ fresh_new Hprep) as [Hun Hal].
  pose proof (add_projects_spec concurrency sched (aliases_to_ids q) data ids q ps Hun Hal eq_refl
    (projects_built_ids _ _ _ _ _ Hps)) as Hs.
  setoid_rewrite build_graph_Ok. split.
  - intros (q' & ps' & Hps' & Hadd). assert (ps' = ps) as ->.
    { clear -Hps Hps'. revert ps Hps. induction Hps' as [|x y l l' Hx _ IH]; intros ps Hps;
        inversion Hps; subst; [done|]. f_equal; [congruence|by apply IH]. }
    rewrite Hadd in Hs. apply Hs.
  - intros Hac. destruct (ofold add_project q ps) as [q'|e|] eqn:Hadd; [eauto| |done].
    by destruct Hs as [_ []].
Qed.

(** In a workspace graph from [build], expanding a task always ends, never
    waits for itself, and does not depend on what was expanded before. If
    expanding tokens ends and adds no dependencies, [TaskGraph::get] returns, for
    every target and in every state its cells can be in, what expanding without
    cells gives, and this is not a computation without end. *)
Theorem built_tasks_expand ids (b : WorkspaceBuilderAsync GB TB) (g : WorkspaceGraph G D T) target :
  load_graphs_of concurrency sched arrive ctx WorkspaceBuilderAsync_new ids = Ok b →
  wba_build ctx b = Ok g → tokens_keep_deps → tokens_end (wg_tasks g) →
  returns (task_caches_ok (wg_tasks g)) (TaskGraph_get (wg_fuel g) (wg_tasks g) target)
    (expanded_task (wg_tasks g) target) ∧
  expanded_task (wg_tasks g) target ≠ OutOfFuel.
Proof.
  intros Hload Hg Hkeep Htot. destruct (load_graphs_Ok _ _ _ _ _ _ Hload) as (ps & ts & Hl & _).
  pose proof Hg as Hg'. unfold wba_build in Hg'.
  destruct (enforce_constraints _ _) as [[]| |] eqn:Hc; [|done..].
  destruct read_vcs as [[]| |] eqn:Hv; [|done..]. clear Hg'.
  destruct (wba_build_Ok (D := D) ctx _ _ _ _ Hl Hc Hv) as (g' & Hg' & Hb).
  assert (g' = g) as -> by congruence. pose proof (wb_tasks_ok _ _ _ _ Hb) as Hok.
  pose proof (workspace_lookups _ _ _ _ Hb Hkeep) as Hlink. split.
  - by apply task_get_returns.
  - by apply expanded_task_total.
Qed.
End Async.

(** The asynchronous builder on the example workspace. *)
Section AsyncExample.
#[local] Existing Instances ascii_ids.
#[local] Instance linked_project_host : ProjectHost := ex_project_host ws_linked.
#[local] Instance linked_workspace_host : WorkspaceHost := ex_workspace_host ws_linked.

Lemma ex_async_loads : ∃ b, ex_async ws_linked = Ok b ∧
  ∃ g : WorkspaceGraph list_graph_ops list_dag_ops list_dag_ops, wba_build (ex_ctx ws_linked) b = Ok g.
Proof.
  destruct (is_ok_obind (ex_async ws_linked) (λ b, wba_build (G := list_graph_ops) (D := list_dag_ops)
    (T := list_dag_ops) (ex_ctx ws_linked) b)) as (b & Hb & Hg); [by vm_compute|].
  exists b. split; [done|]. by apply is_ok_Ok.
Qed.

Lemma load_graphs_build_witness : ∃ b, ex_async ws_linked = Ok b ∧
  ∃ ps ts (g : WorkspaceGraph list_graph_ops list_dag_ops list_dag_ops),
    wba_build (ex_ctx ws_linked) b = Ok g ∧ workspace_sources (λ l, l) (ex_ctx ws_linked) None ps ts b ∧
    workspace_built (pbs_resolve_id (wba_projects b)) ps ts g.
Proof.
  destruct ex_async_loads as (b & Hb & _). exists b. split; [done|].
  exact (load_graphs_build 2 (λ _, 0) (λ l, l) (ex_ctx ws_linked) None b Hb eq_refl eq_refl).
Defined.

Lemma load_graphs_deterministic_witness : ∃ b, ex_async ws_linked = Ok b ∧
  load_graphs_of 1 (λ n, S n) (@rev _) (ex_ctx ws_linked) WorkspaceBuilderAsync_new None = Ok b.
Proof.
  destruct ex_async_loads as (b & Hb & _). exists b. split; [done|].
  refine (load_graphs_deterministic 2 (λ _, 0) (λ l, l) (ex_ctx ws_linked) 1 (λ n, S n) (@rev _)
    WorkspaceBuilderAsync_new None b _ _ Hb); [done|].
  intros l. symmetry. apply Permutation_rev.
Defined.

Lemma build_graph_cycles_witness : ∃ data (q : WorkspaceProjectsBuilder list_graph_ops) ps,
  pbs_prepare (ex_ctx ws_linked) (λ l, l) WorkspaceProjectsBuilder_new = Ok (data, q) ∧ length ps = 3 ∧
  ((∃ q', build_graph 2 (λ _, 0) (ex_ctx ws_linked) q None data = Ok q') ↔
   named_acyclic is_production_group (flat_map (declared_deps (pbs_resolve_id q)) ps)).
Proof.
  destruct (is_ok_obind (pbs_prepare (GB := list_graph_ops) (ex_ctx ws_linked) (λ l, l)
    WorkspaceProjectsBuilder_new) (λ r,
    let? ps := omap_list (λ d, build_project (ex_ctx ws_linked) d.2 d.1 (pbs_root_id r.2)
                 (is_monorepo (pbs_repo_type r.2))) (build_queue None r.1) in
    if length ps =? 3 then Ok tt else OutOfFuel)) as ([data q] & Hprep & Hq); [by vm_compute|].
  apply is_ok_obind in Hq as (ps & Hps & Hlen). cbn [fst snd] in Hps, Hlen. exists data, q, ps.
  split_and!; [done|by destruct (length ps =? 3) eqn:He; [apply Nat.eqb_eq in He|]|].
  exact (build_graph_cycles 2 (λ _, 0) (λ l, l) (ex_ctx ws_linked) q data None ps Hprep
    (proj1 (omap_list_Ok _ _ _) Hps)).
Defined.

Lemma built_tasks_expand_witness :
  ∃ b (g : WorkspaceGraph list_graph_ops list_dag_ops list_dag_ops),
    ex_async ws_linked = Ok b ∧ wba_build (ex_ctx ws_linked) b = Ok g ∧
    expanded_task (wg_tasks g) (build_of "app") ≠ OutOfFuel.
Proof.
  destruct ex_async_loads as (b & Hb & g & Hg). exists b, g. split_and!; [done..|].
  refine (proj2 (built_tasks_expand 2 (λ _, 0) (λ l, l) (ex_ctx ws_linked) None b g _ Hb Hg _ _)).
  - intros p t t' d [= <-] Hd. eauto.
  - done.
Defined.
End AsyncExample.

(** ** The sequential builder *)

Section Sequential.
Context {GB : DiGraphOps (NodeState Project) DependencyScope} {LGB : DiGraphLaws GB}
  {TB : DagOps (NodeState Task) TaskDependencyType} {LTB : DagLaws TB} {UB : DagUpdate TB}
  {LUB : DagUpdateLaws UB LTB}
  {G : DiGraphOps nat DependencyScope} {LG : DiGraphLaws G}
  {D : DagOps nat DependencyScope} {LD : DagLaws D}
  {T : DagOps nat TaskDependencyType} {LT : DagLaws T}
  {M : DiGraphMap GB G} {LM : DiGraphMapLaws M LGB LG}
  {MT : DagMap TB T} {LMT : DagMapLaws MT LTB LT} {U : DagUpdate T} {LU : DagUpdateLaws U LT}
  `{HP : ProjectHost, HW : WorkspaceHost, HI : IdSyntax, HC : CacheHost}.
Context (ctx : WorkspaceBuilderContext) (order : list Id → list Id).

(** What [load_projects] leaves behind: the nodes of the projects and the edges
    [named] between them. Neither partition of the edges has a cycle, all projects
    are loaded, edges are declared dependencies, and a dependency by identifier
    that has no edge is one that would have closed a cycle. *)
Record projects_linked (b b' : WorkspaceBuilder GB TB) (named : list (Id * Id * DependencyScope)) : Prop := {
  pl_linked : linked p_id is_production_group named (index_of b') (dg_nodes (project_graph b'))
                (dg_edges (project_graph b'));
  pl_loaded : ∀ id, id ∈ project_ids b ↔ ∃ p, wb_loaded b' id p;
  pl_declared : ∀ x, x ∈ named → x ∈ declared ctx b;
  pl_deps : ∀ id p d, id ∈ project_ids b → wb_build_project ctx b id = Ok p → d ∈ p_dependencies p →
    is_root_scope d = false → res (aliases b) (pdep_id d) = pdep_id d →
    (id, pdep_id d, pdep_scope d) ∈ named ∨ scope_path named (pdep_scope d) (pdep_id d) id;
}.

Lemma settled_linked b b' named :
  projects_settled ctx (aliases b) (project_ids b) (wb_build_project ctx b) dag_new named b' →
  projects_linked b b' named.
Proof.
  intros Hs. split.
  - apply (ps_settled _ _ _ _ _ _ _ Hs).
  - apply Hs.
  - by eapply settled_edges_declared.
  - intros. by eapply settled_dep.
Qed.

(** C6: the sequential builder loads a workspace with cycles too. In any order of
    the hash map, [load_projects] ends, the projects it loads are those of the
    build data, and every dependency by identifier is linked unless its target
    already leads back. It fails only on a project that cannot be built, on a
    dependency that is no project, or, with [WouldCycle], in a workspace that does
    have a cycle. *)
Theorem load_projects_outcome (b0 b : WorkspaceBuilder GB TB) :
  WorkspaceBuilder_new ctx = Ok b0 → extend_projects_from_plugins ctx b0 = Ok b →
  (∀ l, order l ≡ₚ l) → builds_total ctx b →
  match load_projects ctx order b with
  | Ok b' => ∃ named, projects_linked b b' named
  | Err e => load_error (aliases b) (project_ids b) (wb_build_project ctx b) e
  | OutOfFuel => False
  end.
Proof.
  intros Hn He Ho Ht. pose proof (prepared_load_projects ctx order Ho b (new_prepared ctx b0 b Hn He) Ht) as Hl.
  destruct (load_projects ctx order b) as [b'|e|]; [|done..]. destruct Hl as [named Hl].
  exists named. by apply settled_linked.
Qed.

(** Without cycles both builders agree. If the projects of a workspace can be
    built, depend by identifier on projects that exist, and their dependencies form
    no cycle in either partition, [load_projects] succeeds in any order of the hash
    map and its edges are exactly the declared dependencies. *)
Theorem load_projects_exact (b0 b : WorkspaceBuilder GB TB) :
  WorkspaceBuilder_new ctx = Ok b0 → extend_projects_from_plugins ctx b0 = Ok b →
  (∀ l, order l ≡ₚ l) → loadable ctx b →
  (∀ id p d, id ∈ project_ids b → wb_build_project ctx b id = Ok p → d ∈ p_dependencies p →
     res (aliases b) (pdep_id d) = pdep_id d) →
  ∃ b' named, load_projects ctx order b = Ok b' ∧ projects_linked b b' named ∧
    ∀ x, x ∈ named ↔ x ∈ declared ctx b.
Proof.
  intros Hn He Ho Hb Hres.
  destruct (loadable_loads ctx order Ho b (new_prepared ctx b0 b Hn He) Hb) as (b' & named & Hl & Hs).
  exists b', named. split; [done|]. split; [by apply settled_linked|]. intros x.
  apply (settled_exact ctx b b' named Hs x (lb_acyclic _ _ Hb) Hres).
Qed.

(** C15: a workspace that is loaded can be used. Let the identifiers of projects and tasks
    be plain (neither scopes nor tags, and those of projects shorter than 256 bytes) and let
    [load_projects] have succeeded. Then [load_tasks] ends, and it fails only with one of the
    seven errors of [TaskDepsBuilder] about a recorded task or with a [WouldCycle] between two
    of them: no panic, no missing entry and no unknown task is possible. After it, if the
    constraints hold and the version control settings can be read, [build] succeeds: all
    projects are there with the linked edges, every task is there, its edges are resolved
    dependencies, and a dependency without an edge is one that leads back to the task. *)
Theorem load_tasks_build (b0 b b1 : WorkspaceBuilder GB TB) :
  WorkspaceBuilder_new ctx = Ok b0 → extend_projects_from_plugins ctx b0 = Ok b →
  (∀ l, order l ≡ₚ l) → builds_total ctx b → plain_ids ctx b → load_projects ctx order b = Ok b1 →
  match load_tasks ctx b1 with
  | Ok b2 => enforce_constraints ctx (project_graph b2) = Ok tt → read_vcs = Ok tt →
      ∃ named known tnamed (g : WorkspaceGraph G D T),
        projects_linked b b1 named ∧ wb_build ctx b2 = Ok g ∧
        finished (project_ids b2) named known tnamed g ∧
        (∀ target, is_Some (known !! target) ↔ is_Some (task_data b1 !! target)) ∧
        (∀ a t d, known !! a = Some t → d ∈ t_deps t → dep_linked known tnamed a d)
  | Err e => task_error (recorded b1) e
  | OutOfFuel => False
  end.
Proof.
  intros Hn He Ho Ht Hown Hp.
  pose proof (prepared_load_projects ctx order Ho b (new_prepared ctx b0 b Hn He) Ht) as Hl.
  rewrite Hp in Hl. destruct Hl as [named Hs].
  pose proof (load_tasks_spec ctx named ∅ [] b1 (settled_ready ctx b b1 named Hown Hs)) as Hl.
  destruct (load_tasks ctx b1) as [b2|e|]; [|done..]. intros Hc Hv.
  destruct Hl as (known & tnamed & Hl & Hk). destruct (wb_build_Ok ctx named known tnamed b2 Hl Hc Hv) as (g & Hg & Hf).
  exists named, known, tnamed, g. split; [by apply settled_linked|]. split; [done|]. split; [done|]. split.
  - intros target. symmetry. apply Hk.
  - intros a t d Ha. apply (tk_complete _ _ _ _ _ Hl a t d Ha). set_solver.
Qed.

(** C29: the cache of the workspace graph is transparent for the sequential builder.
    With version control, the run after a successful [new_with_cache] reads the stored graph, writes
    nothing, whatever the order of the hash map is now, and [build] makes the same
    workspace graph from it. *)
Theorem cached_run_same_graph order' disk b disk' :
  vcs_enabled = true → wb_new_with_cache (GB := GB) (TB := TB) ctx order disk = Ok (b, disk') →
  ∃ b', wb_new_with_cache ctx order' disk' = Ok (b', disk') ∧
    wb_build (G := G) (D := D) (T := T) ctx b' = wb_build ctx b.
Proof.
  intros Hv Hr. destruct (wb_second_run ctx order order' disk b disk' Hv Hr) as (b' & Hb & He).
  exists b'. split; [done|]. destruct He as [->| ->]; [done|]. apply wb_build_stored.
Qed.
End Sequential.

(** ** The sequential builder on the example workspace *)

(** Edges that decrease a rank form no cycle. *)
Lemma ranked_acyclic {K E} (part : E → bool) (rank : K → nat) (named : list (K * K * E)) :
  forallb (λ x, rank x.1.2 <? rank x.1.1) named = true → named_acyclic part named.
Proof.
  intros Hr. assert (∀ p a c, tc (named_edge part named p) a c → rank c < rank a) as H.
  { intros p a c Hac. induction Hac as [a c (e & He & _)|a c d (e & He & _) _ IH];
      rewrite forallb_forall in Hr; specialize (Hr _ (proj1 (list_elem_of_In _ _) He));
      apply Nat.ltb_lt in Hr; cbn in Hr; lia. }
  intros p a Ha. specialize (H p a a Ha). lia.
Qed.

Section SequentialExample.
#[local] Existing Instances ascii_ids.
#[local] Instance seq_project_host : ProjectHost := ex_project_host ws_linked.
#[local] Instance seq_workspace_host : WorkspaceHost := ex_workspace_host ws_linked.

(** A host without plugins whose only manifest is empty. *)
#[local] Instance seq_cache_host : CacheHost := {
  extension_plugins := Ok [];
  toolchain_plugins := Ok [];
  env_get _ := None;
  in_docker := false;
  hash_files _ := Ok ∅;
  save_manifest _ := Ok "hash"%string;
  vcs_enabled := true;
}.

Definition ex_rank (id : Id) : nat := if decide (id = "app"%string) then 2 else if decide (id = "lib"%string) then 1 else 0.

Definition project_check (b : WorkspaceBuilder list_graph_ops list_dag_ops) (id : Id) : bool :=
  match wb_build_project (ex_ctx ws_linked) b id with
  | Ok p => forallb (λ d, bool_decide (pdep_id d ∈ project_ids b) &&
                          bool_decide (res (aliases b) (pdep_id d) = pdep_id d)) (p_dependencies p) &&
            plain_project id && forallb plain_task (p_tasks p).*1
  | _ => false
  end.

Lemma ex_builder_loadable : ∃ b0 b, WorkspaceBuilder_new (ex_ctx ws_linked) = Ok b0 ∧
  extend_projects_from_plugins (ex_ctx ws_linked) b0 = Ok b ∧
  is_ok (let? b1 := load_projects (ex_ctx ws_linked) (λ l, l) b in load_tasks (ex_ctx ws_linked) b1) = true ∧
  (∀ id, id ∈ project_ids b → project_check b id = true) ∧
  named_acyclic is_production_group (declared (ex_ctx ws_linked) b).
Proof.
  destruct (is_ok_obind (WorkspaceBuilder_new (GB := list_graph_ops) (TB := list_dag_ops) (ex_ctx ws_linked)) (λ b0,
    let? b := extend_projects_from_plugins (ex_ctx ws_linked) b0 in
    if is_ok (let? b1 := load_projects (ex_ctx ws_linked) (λ l, l) b in load_tasks (ex_ctx ws_linked) b1) && forallb (project_check b) (project_ids b) &&
       forallb (λ x, ex_rank x.1.2 <? ex_rank x.1.1) (declared (ex_ctx ws_linked) b)
    then Ok tt else OutOfFuel)) as (b0 & Hn & Hb); [by vm_compute|].
  apply is_ok_obind in Hb as (b & He & Hc). exists b0, b. split; [done|]. split; [done|].
  destruct (_ && _) eqn:H in Hc; [|done]. apply andb_prop in H as [[H1 H2]%andb_prop H3].
  split; [done|]. split; [|by eapply ranked_acyclic].
  intros id Hid%list_elem_of_In. by rewrite forallb_forall in H2; apply H2.
Qed.

Lemma project_check_ok b id : project_check b id = true →
  ∃ p, wb_build_project (ex_ctx ws_linked) b id = Ok p ∧
    (plain_project id = true ∧ ∀ k, k ∈ (p_tasks p).*1 → plain_task k = true) ∧
    ∀ d, d ∈ p_dependencies p → pdep_id d ∈ project_ids b ∧ res (aliases b) (pdep_id d) = pdep_id d.
Proof.
  unfold project_check. destruct (wb_build_project _ b id) as [p| |]; [|done..].
  intros [[Hd Hn]%andb_prop Ht]%andb_prop. exists p. split; [done|]. split.
  - split; [done|]. intros k Hin%list_elem_of_In. rewrite forallb_forall in Ht. by apply Ht.
  - intros d Hin%list_elem_of_In. rewrite forallb_forall in Hd. specialize (Hd _ Hin).
    apply andb_prop in Hd as [?%bool_decide_eq_true ?%bool_decide_eq_true]. done.
Qed.

Lemma load_projects_outcome_witness : ∃ b b' named,
  load_projects (ex_ctx ws_linked) (λ l, l) b = Ok b' ∧ projects_linked (ex_ctx ws_linked) b b' named.
Proof.
  destruct ex_builder_loadable as (b0 & b & Hn & He & Hok & Hc & _). exists b.
  destruct (is_ok_obind _ _ Hok) as (b' & Hb' & _).
  assert (builds_total (ex_ctx ws_linked) b) as Ht.
  { intros id Hid. by destruct (project_check_ok _ _ (Hc id Hid)) as (p & -> & _). }
  pose proof (load_projects_outcome (ex_ctx ws_linked) (λ l, l) b0 b Hn He (λ l, Permutation_refl l) Ht) as Hl.
  rewrite Hb' in Hl. destruct Hl as [named Hl]. exists b', named. split; assumption.
Defined.

Lemma load_projects_exact_witness : ∃ b b' named,
  load_projects (ex_ctx ws_linked) (@rev _) b = Ok b' ∧ projects_linked (ex_ctx ws_linked) b b' named ∧
  ∀ x, x ∈ named ↔ x ∈ declared (ex_ctx ws_linked) b.
Proof.
  destruct ex_builder_loadable as (b0 & b & Hn & He & _ & Hc & Ha). exists b.
  refine (load_projects_exact (ex_ctx ws_linked) (@rev _) b0 b Hn He _ _ _).
  - intros l. symmetry. apply Permutation_rev.
  - split; [|done]. intros id Hid. destruct (project_check_ok _ _ (Hc id Hid)) as (p & Hp & _ & Hd).
    exists p. split; [done|]. intros d Hin. destruct (Hd d Hin) as [? ->]. done.
  - intros id p d Hid Hp Hin. destruct (project_check_ok _ _ (Hc id Hid)) as (p' & Hp' & _ & Hd).
    rewrite Hp in Hp'. injection Hp' as <-. by apply Hd.
Defined.

Lemma load_tasks_build_witness : ∃ b1 b2 named known tnamed
    (g : WorkspaceGraph list_graph_ops list_dag_ops list_dag_ops),
  load_tasks (ex_ctx ws_linked) b1 = Ok b2 ∧ wb_build (ex_ctx ws_linked) b2 = Ok g ∧
  finished (project_ids b2) named known tnamed g.
Proof.
  destruct ex_builder_loadable as (b0 & b & Hn & He & Hok & Hc & _).
  destruct (is_ok_obind _ _ Hok) as (b1 & Hb1 & Hok2). destruct (is_ok_Ok _ Hok2) as [b2 Hb2].
  assert (builds_total (ex_ctx ws_linked) b) as Ht.
  { intros id Hid. by destruct (project_check_ok _ _ (Hc id Hid)) as (p & -> & _). }
  assert (plain_ids (ex_ctx ws_linked) b) as Hown.
  { intros id p Hid Hp. destruct (project_check_ok _ _ (Hc id Hid)) as (p' & Hp' & Ho & _).
    rewrite Hp in Hp'. by injection Hp' as <-. }
  pose proof (load_tasks_build (G := list_graph_ops) (D := list_dag_ops) (T := list_dag_ops)
    (ex_ctx ws_linked) (λ l, l) b0 b b1 Hn He (λ l, Permutation_refl l) Ht Hown Hb1) as Hl.
  rewrite Hb2 in Hl. destruct (Hl eq_refl eq_refl) as (named & known & tnamed & g & _ & Hg & Hf & _).
  exists b1, b2, named, known, tnamed, g. split; [assumption|]. split; assumption.
Defined.

Lemma cached_run_same_graph_witness : ∃ b disk' b',
  wb_new_with_cache (GB := list_graph_ops) (TB := list_dag_ops) (ex_ctx ws_linked) (λ l, l)
    (mkCacheDisk "" ∅ None) = Ok (b, disk') ∧
  wb_new_with_cache (ex_ctx ws_linked) (@rev _) disk' = Ok (b', disk') ∧
  wb_build (G := list_graph_ops) (D := list_dag_ops) (T := list_dag_ops) (ex_ctx ws_linked) b' =
    wb_build (ex_ctx ws_linked) b.
Proof.
  destruct (is_ok_Ok (wb_new_with_cache (GB := list_graph_ops) (TB := list_dag_ops) (ex_ctx ws_linked) (λ l, l)
    (mkCacheDisk "" ∅ None))) as [[b disk'] Hb]; [by vm_compute|].
  exists b, disk'. rewrite Hb.
  destruct (cached_run_same_graph (HC := seq_cache_host) (G := list_graph_ops) (D := list_dag_ops) (T := list_dag_ops) (ex_ctx ws_linked)
    (λ l, l) (@rev _) (mkCacheDisk "" ∅ None) b disk' eq_refl Hb) as (b' & Hb' & Hg).
  exists b'. split; [reflexivity|]. split; assumption.
Defined.
End SequentialExample.
