(* ===== verification/WorkspaceCases.v ===== *)
(** * Where the two workspace builders differ

Small workspaces on which the sequential builder depends on the order of a hash
map, drops an edge, or makes a task graph that cannot be expanded, while the
asynchronous one does not; and one on which the asynchronous cache is never
read. *)

From S2P Require Import Prelude Errors FileSystem PooledTasks Target GraphUtils Config Constraints Query Dag.
From S2P Require Import DiGraph NodeMaps ProjectGraph TaskDeps ProjectBuilder WorkspaceData.
From S2P Require Import TaskGraph WorkspaceGraph WorkspaceAsync WorkspaceBuilder WorkspaceCache.
From S2P Require Import WorkspaceCacheFacts WorkspaceExamples Shapes.

#[local] Open Scope string_scope.
#[local] Existing Instances ascii_ids.

Section Runs.
Context (ws : list ExProject).
#[local] Instance case_project_host : ProjectHost := ex_project_host ws.
#[local] Instance case_workspace_host : WorkspaceHost := ex_workspace_host ws.

(** The edges the sequential builder links, when the hash map has this order. *)
Definition sequential_edges (order : list Id → list Id) : result (list (Id * Id)) :=
  let? b := ex_builder ws in
  let? b := load_projects (ex_ctx ws) order b in
  Ok (named_edges (project_graph b)).

(** The edges the asynchronous builder links. *)
Definition async_edges : result (list (Id * Id)) :=
  let? b := ex_async ws in Ok (named_edges (pbs_graph (wba_projects b))).

(** Expanding a task of the graph the sequential builder makes. *)
Definition sequential_task (target : Target) : result Task :=
  let? b := WorkspaceBuilder_new (GB := list_graph_ops) (TB := list_dag_ops) (ex_ctx ws) in
  let? b := load_workspace (ex_ctx ws) (λ l, l) b in
  let? g := wb_build (G := list_graph_ops) (D := list_dag_ops) (T := list_dag_ops) (ex_ctx ws) b in
  (TaskGraph_get (wg_fuel g) (wg_tasks g) target TaskCaches_new).1.
End Runs.

(** [a] and [b] depend on each other. *)
Definition ws_cycle : list ExProject :=
  [mkExProject "a" [dep "b" SProduction] None []; mkExProject "b" [dep "a" SProduction] None []].

(** A cycle of production dependencies is no error of the sequential builder, and
    which of its edges is missing depends on the order of the hash map; the
    asynchronous builder reports it. *)
Theorem cycle_edge_depends_on_order :
  sequential_edges ws_cycle (λ l, l) = Ok [("a", "b")] ∧
  sequential_edges ws_cycle (@rev _) = Ok [("b", "a")] ∧
  async_edges ws_cycle = Err (RProjectGraph (PG_WouldCycle "b" "a")).
Proof. by vm_compute. Qed.

(** The same cycle, and a project without dependencies that is loaded in between. *)
Definition ws_cleared : list ExProject :=
  [mkExProject "a" [dep "b" SProduction] None [];
   mkExProject "b" [dep "c" SProduction; dep "a" SProduction] None [];
   mkExProject "c" [] None []].

(** The set of projects that are being loaded is cleared when one of them is done:
    the same cycle is an error or is dropped, with the order of the hash map. *)
Theorem cleared_cycle_depends_on_order :
  sequential_edges ws_cleared (λ _, ["a"; "b"; "c"]) = Err (RProjectGraph (PG_WouldCycle "a" "b")) ∧
  is_ok (sequential_edges ws_cleared (λ _, ["c"; "a"; "b"])) = true.
Proof. by vm_compute. Qed.

(** [b] depends on [a] by alias, in the other partition: there is no cycle. *)
Definition ws_alias : list ExProject :=
  [mkExProject "a" [dep "b" SProduction] (Some "@x/a") []; mkExProject "b" [dep "@x/a" SDevelopment] None []].

(** A dependency by alias on a project that is being loaded is neither linked nor
    deferred: the sequential builder loses it if [a] comes first in the hash map. *)
Theorem alias_edge_dropped :
  sequential_edges ws_alias (λ l, l) = Ok [("a", "b")] ∧
  sequential_edges ws_alias (@rev _) = Ok [("b", "a"); ("a", "b")] ∧
  async_edges ws_alias = Ok [("a", "b"); ("b", "a")].
Proof. by vm_compute. Qed.

(** Two tasks need each other's outputs. *)
Definition ws_outputs : list ExProject :=
  [mkExProject "a" [] None [("build", [on_task "a" "test" (Some CacheOutputs)]);
                            ("test", [on_build "a" (Some CacheOutputs)])]].

(** The sequential builder drops one of the edges between them, after which
    expanding one task waits for itself; the asynchronous builder reports the
    cycle. *)
Theorem outputs_cycle_deadlock :
  sequential_task ws_outputs (build_of "a") = Err (Foreign "deadlock") ∧
  err_of (ex_async ws_outputs) = Some (RTaskGraph (TG_WouldCycle "a:test" "a:build")).
Proof. by vm_compute. Qed.

(** [a] depends on a project that does not exist. *)
Definition ws_missing : list ExProject := [mkExProject "a" [dep "gone" SProduction] None []].

Section Missing.
#[local] Instance missing_project_host : ProjectHost := ex_project_host ws_missing.
#[local] Instance missing_workspace_host : WorkspaceHost := ex_workspace_host ws_missing.
#[local] Instance missing_cache_host : CacheHost := {
  extension_plugins := Ok [];
  toolchain_plugins := Ok [];
  env_get _ := None;
  in_docker := false;
  hash_files _ := Ok ∅;
  save_manifest _ := Ok "hash";
  vcs_enabled := true;
}.

Definition missing_run (disk : CacheDisk (WorkspaceBuilderAsync list_graph_ops list_dag_ops)) :=
  wba_new_with_cache 2 (λ _, 0) (λ l, l) (ex_ctx ws_missing) disk.

(** The asynchronous builder leaves a node for it, so that the cached identifiers
    are not those of the projects: nothing has changed, the digests agree, and the
    second run rebuilds the graph. *)
Theorem async_cache_not_read : ∃ b disk b0,
  missing_run (mkCacheDisk "" ∅ None) = Ok (b, disk) ∧
  wba_preload (λ l, l) (ex_ctx ws_missing) WorkspaceBuilderAsync_new = Ok b0 ∧
  wba_cache_digest b0 (map_project_sources (build_data (wba_projects b0))) (disk_plugin_input_paths disk) =
    Ok (last_hash disk) ∧
  missing_run disk = wba_rebuild 2 (λ _, 0) (λ l, l) (ex_ctx ws_missing) b0
    (map_project_sources (build_data (wba_projects b0))) disk (last_hash disk).
Proof.
  destruct (is_ok_obind (wba_preload (GB := list_graph_ops) (TB := list_dag_ops) (λ l, l) (ex_ctx ws_missing)
    WorkspaceBuilderAsync_new) (λ b0,
    let? r := wba_rebuild 2 (λ _, 0) (λ l, l) (ex_ctx ws_missing) b0
      (map_project_sources (build_data (wba_projects b0))) (mkCacheDisk "" ∅ None) "hash" in
    if bool_decide (dom (ids_to_indexes (wba_projects r.1)) = dom (build_data (wba_projects b0)))
    then OutOfFuel
    else if bool_decide (last_hash r.2 = "hash") then Ok tt else OutOfFuel)) as (b0 & Hp & Hb); [by vm_compute|].
  apply is_ok_obind in Hb as ([b disk] & Hr & Hc). cbn [fst snd] in Hc. exists b, disk, b0.
  destruct (bool_decide (dom _ = _)) eqn:Hdom in Hc; [done|]. apply bool_decide_eq_false in Hdom.
  destruct (bool_decide (last_hash _ = _)) eqn:Hh in Hc; [|done]. apply bool_decide_eq_true in Hh.
  assert (missing_run (mkCacheDisk "" ∅ None) = Ok (b, disk)) as Hrun.
  { unfold missing_run, wba_new_with_cache. cbn [vcs_enabled missing_cache_host negb].
    rewrite Hp. cbn [obind]. exact Hr. }
  split; [exact Hrun|]. split; [exact Hp|]. split; [rewrite Hh; reflexivity|].
  exact (proj2 (wba_second_run 2 (λ _, 0) (λ l, l) (ex_ctx ws_missing) (mkCacheDisk "" ∅ None) b0 b disk
    "hash" eq_refl Hp eq_refl Hr) Hdom).
Qed.
End Missing.
