(* ===== verification/GraphTheorems.v ===== *)
(** * What the graphs promise to their clients

Queries, lookups by path, orders and traversals of a partition and the resolved
dependencies of a task, on any workspace graph that keeps its invariants, and
evaluated on the graph of the example workspace. *)

From S2P Require Import Prelude Errors FileSystem PooledTasks Target GraphUtils Config Constraints Query Dag.
From S2P Require Import DiGraph NodeMaps ProjectGraph ProjectGraphFacts TaskDeps TaskDepsFacts.
From S2P Require Import ProjectBuilder WorkspaceData WorkspaceNodes TaskGraph TaskGraphFacts.
From S2P Require Import WorkspaceGraph WorkspaceGraphFacts WorkspaceAsync WorkspaceAsyncFacts.
From S2P Require Import WorkspaceLoad WorkspaceResult WorkspaceExamples Shapes.

(** ** Queries *)

(** C31: the query language reads back what is printed. Every well-formed syntax
    tree is what parsing its text gives, with any nesting of groups, and the parser
    only returns well-formed trees. *)
Theorem query_roundtrip (nodes : list AstNode) :
  (wf_expr nodes → parse_query (print_query nodes) = Ok nodes) ∧
  (∀ input, parse_query input = Ok nodes → wf_expr nodes).
Proof. split; [apply parse_print|intros input; apply parse_query_sound]. Qed.

Section Graph.
Context {G : DiGraphOps nat DependencyScope} {D : DagOps nat DependencyScope}
  {LG : DiGraphLaws G} {LD : DagLaws D}
  {T : DagOps nat TaskDependencyType} {GT : DiGraphOps nat TaskDependencyType}
  {C : DagGraph T GT} {LT : DagLaws T} {LGT : DiGraphLaws GT} {LC : DagGraphLaws C LT LGT}
  {HT : TaskHost} {HR : RelativeTo} {HI : IdSyntax} {HQ : QueryHost}.

(** C11: a query finds exactly the projects it describes. From caches that other
    queries and lookups have filled, [query_projects] returns the expanded projects,
    sorted by identifier and each once, that the text of the query describes: its
    comparisons are combined by groups, [&&] and [||], and each of them says of the
    named field of a project that one of its values is listed, is not listed, is
    matched by a glob or is matched by none. The alternative is an error, of reading a
    glob or of expanding a task of a project. The caches stay sound, so asking again
    gives the same answer. *)
Theorem query_projects_exact (g : WorkspaceGraph G D T) input nodes q c :
  pg_ok (wg_projects g) → tg_ok (wg_tasks g) → lookups_linked (wg_tasks g) → host_returns g →
  parse_query input = Ok nodes → build_query input = Ok q → ws_caches_ok g c →
  ws_caches_ok g (wg_query_projects g q c).2 ∧
  ((∃ ids, (wg_query_projects g q c).1 = omap_list (pure_get (wg_projects g)) ids ∧
     StronglySorted Id_le ids ∧ NoDup ids ∧
     ∀ id, id ∈ ids ↔ ∃ node, pg_nodes (wg_projects g) !! id = Some node ∧
       query_means (project_describes g (pn_project node)) nodes) ∨
   (∃ e id node, (wg_query_projects g q c).1 = Err e ∧
     pg_nodes (wg_projects g) !! id = Some node ∧ leaf_error g (pn_project node) e)).
Proof.
  intros Hp Ht Hl Hh Hparse Hb Hc. destruct (query_projects_returns g Ht Hl input q Hb c Hc) as [Hr Hc'].
  split; [done|]. rewrite Hr. pose proof (query_projects_found g Ht Hl Hh input nodes q Hp Hparse Hb) as Hf.
  destruct (pure_query_projects g q) as [ids|e|]; [|right|done].
  - left. exists ids. split; [done|]. exact Hf.
  - destruct Hf as (id & node & Hf). by exists e, id, node.
Qed.

(** A negated comparison of a field with several values holds as soon as one of them is
    different: [project!=server] finds the project [server] when it has an alias, and a project
    with two tags is found by both [projectTag=a] and [projectTag!=a]. *)
Lemma negated_project_matches (g : WorkspaceGraph G D T) project alias :
  alias ∈ p_aliases project → alias ≠ p_id project →
  project_describes g project "project" NotEqual [p_id project].
Proof. intros Hin Hne. apply (desc_project _ _ _ _ alias); [by right|]. cbn. by rewrite list_elem_of_singleton. Qed.

Lemma negated_tag_matches (g : WorkspaceGraph G D T) project tag other :
  tag ∈ config_tags (p_config project) → other ∈ config_tags (p_config project) → other ≠ tag →
  project_describes g project "projectTag" Equal [tag] ∧ project_describes g project "projectTag" NotEqual [tag].
Proof.
  intros Hin Hother Hne. split; [apply (desc_tag _ _ _ _ _ tag)|apply (desc_tag _ _ _ _ _ other)]; try (by left); try done.
  cbn. by rewrite list_elem_of_singleton.
Qed.

(** C32: a file belongs to the innermost project. [get_from_path] returns the
    project whose source is the longest one that leads to the path and fails with
    [MissingFromPath] exactly when no source does, whatever earlier searches have
    left in the caches. The path has less than 1000 components, with which the search
    starts as the shortest distance, and no project has an empty identifier, which the
    search takes for not found. *)
Theorem get_from_path_innermost {LR : RelativeToLaws HR} (g : ProjectGraph G D) file c :
  pg_nodes g !! ""%string = None → length (search_path g file) < 1000 → caches_ok g c →
  caches_ok g (get_from_path g file c).2 ∧
  ((∃ id node, (get_from_path g file c).1 = pure_get g id ∧ pg_nodes g !! id = Some node ∧
      path_has_prefix (source_of node) (search_path g file) = true ∧
      ∀ id' node', pg_nodes g !! id' = Some node' →
        path_has_prefix (source_of node') (search_path g file) = true →
        length (source_of node') ≤ length (source_of node)) ∨
   ((get_from_path g file c).1 = Err (RProjectGraph (MissingFromPath (str_join "/" (search_path g file)))) ∧
    ∀ id node, pg_nodes g !! id = Some node → path_has_prefix (source_of node) (search_path g file) = false)).
Proof.
  intros He Hlen Hc. destruct (get_from_path_returns g file c Hc) as [Hr Hc']. split; [done|]. rewrite Hr.
  pose proof (pure_search_spec g (search_path g file) He Hlen) as Hs.
  destruct (pure_search g _) as [id|e|]; [left|right|done].
  - destruct Hs as (node & Hn & Hpre & Hall). by exists id, node.
  - destruct Hs as [-> Hall]. done.
Qed.

(** A partition of the project graph can be put in order. In a graph that
    keeps its invariants, sorting the production or the development dependencies
    never fails; the result lists every project once, after all projects it depends
    on in this partition. *)
Theorem partition_toposort {CG : DagGraph D G} {S : DiGraphSort G} {LCG : DagGraphLaws CG LD LG}
    (g : ProjectGraph G D) partition :
  pg_ok g → dg_toposort_ok S (partitioned_graph g partition) →
  ∃ ids, partitioned_toposort g partition = Ok ids ∧ NoDup ids ∧
    (∀ id, id ∈ ids ↔ is_Some (pg_nodes g !! id)) ∧
    ∀ i a b, ids !! i = Some a → partition_edge g partition a b → ∃ j, j < i ∧ ids !! j = Some b.
Proof. apply partitioned_toposort_ok. Qed.

(** Traversing a partition finds all that is reachable and nothing else. From
    a project of the graph, [partitioned_traverse] in either direction ends and
    returns, each once, the projects that a path of dependencies of the partition
    leads to; the project itself is not among them. *)
Theorem partition_traverse {CG : DagGraph D G} {LCG : DagGraphLaws CG LD LG}
    (g : ProjectGraph G D) project partition d :
  pg_ok g → is_Some (pg_nodes g !! p_id project) →
  ∃ ids, partitioned_traverse g project partition d = Ok ids ∧ NoDup ids ∧
    ∀ id, id ∈ ids ↔ tc (partition_towards g partition d) (p_id project) id.
Proof. apply partitioned_traverse_ok. Qed.
End Graph.

(** ** Dependencies of a task *)

(** C30: the dependencies of a built task are those its configuration describes.
    [TaskDepsBuilder::build] changes the dependencies of the task and adds
    dependencies to its project, each on the project of a dependency of the task, and
    nothing else. Each dependency of the task is a match of a configured one, listed
    once, that may be depended on: it cannot fail, it is persistent only if the task
    is, and it runs in CI when the task does, unless the task is skipped there. Every
    match of every configured dependency is there, except the task itself. What a
    configured dependency matches are the tasks of the projects its scope stands for:
    [^] and [^build] mean the dependencies of the project, together with those that
    the build itself has added so far, [~] the project, and the others a project or a
    tag. *)
Theorem task_deps_exact querent root project task project' task' :
  TaskDepsBuilder_build querent root project task = Ok (project', task') →
  extends project project' ∧
  (∀ dep, dep ∈ p_dependencies project' → dep ∈ p_dependencies project ∨
     ∃ d, d ∈ t_deps task' ∧ dep_links root (p_id project) d dep) ∧
  task' = set_deps task (t_deps task') ∧ NoDup (t_deps task') ∧
  (∀ d, d ∈ t_deps task' → ∃ c p l o, c ∈ t_deps task ∧ extends project p ∧ extends p project' ∧
     resolves querent p c l ∧ (dep_target d, o) ∈ l ∧ dep_allowed task o ∧
     dep_args d = dep_args c ∧ dep_env d = dep_env c) ∧
  (∀ c, c ∈ t_deps task → ∃ p l, extends project p ∧ extends p project' ∧ resolves querent p c l ∧
     ∀ target o, (target, o) ∈ l → is_own_task (p_id project) task target = true ∨
       ∃ d, d ∈ t_deps task' ∧ dep_target d = target ∧ dep_args d = dep_args c ∧ dep_env d = dep_env c).
Proof.
  unfold TaskDepsBuilder_build. destruct (ofold _ _ _) as [[p1 deps]| |] eqn:Hf; [|done..].
  cbn [obind]. intros [= <- <-]. cbn. destruct (dep_configs_linked _ _ _ _ _ _ Hf) as [_ Hlinked].
  destruct (dep_configs_Ok _ _ _ _ _ _ _ _ NoDup_nil_2 Hf) as (He & Hnd & _ & Hfrom & Hcov).
  split; [done|]. split; [exact Hlinked|]. split; [done|]. split; [done|]. split.
  - intros d Hd. destruct (Hfrom d Hd) as [[]%elem_of_nil|(c & p & l & Hc & Hp & Hp' & Hr & t & o & Hin & Hok)].
    apply resolved_resolves in Hr. apply check_and_create_dep_Ok in Hok as (Ha & <- & Harg & Henv & _). by exists c, p, l, o.
  - intros c Hc. destruct (Hcov c Hc) as (p & l & Hp & Hp' & Hr & Hall). apply resolved_resolves in Hr.
    exists p, l. split_and!; [done..|]. intros target o Hin. destruct (Hall target o Hin) as [?|(d & Hd & Hok)]; [by left|].
    right. exists d. apply check_and_create_dep_Ok in Hok as (_ & ? & ? & ? & _). done.
Qed.

(** ** The example workspace *)

Section Example.
#[local] Existing Instances ascii_ids.
#[local] Instance graph_project_host : ProjectHost := ex_project_host ws_linked.
#[local] Instance graph_workspace_host : WorkspaceHost := ex_workspace_host ws_linked.
#[local] Open Scope string_scope.

Abbreviation ex_graph := (WorkspaceGraph list_graph_ops list_dag_ops list_dag_ops).

(** The graph of the example keeps its invariants, and what can be evaluated on it
    holds. *)
Lemma ex_graph_ok (check : ex_graph → bool) :
  is_ok (let? b := ex_async ws_linked in let? g := wba_build (ex_ctx ws_linked) b in
         if check g then Ok tt else OutOfFuel) = true →
  ∃ g : ex_graph, pg_ok (wg_projects g) ∧ tg_ok (wg_tasks g) ∧ lookups_linked (wg_tasks g) ∧ check g = true.
Proof.
  intros (b & Hb & Hg)%is_ok_obind. apply is_ok_obind in Hg as (g & Hg & Hc).
  destruct (load_graphs_Ok 2 (λ _, 0) (λ l, l) (ex_ctx ws_linked) None b Hb) as (ps & ts & Hl & _).
  destruct (wba_build_Ok (HW := graph_workspace_host) (D := list_dag_ops) (T := list_dag_ops) (ex_ctx ws_linked) _ _ _ _ Hl eq_refl eq_refl)
    as (g' & Hg' & Hw).
  rewrite Hg in Hg'. injection Hg' as <-. exists g. split; [apply Hw|]. split; [apply Hw|].
  split; [|by destruct (check g)]. eapply workspace_lookups; [exact Hw|].
  intros p t t' d [= <-] Hd. eauto.
Qed.

(** No enumeration of a query is known, and globs are matched literally. *)
#[local] Instance ex_query_host : QueryHost := {
  LanguageType_from_str _ := None;
  LayerType_from_str _ := None;
  StackType_from_str _ := None;
  TaskType_from_str _ := None;
  QueryGlobs := list string;
  QueryGlobs_new patterns := Ok patterns;
  is_included globs s := bool_decide (s ∈ globs);
}.

#[local] Instance ex_relative_to : RelativeTo := {
  relative_to path root := path_strip_prefix root path;
}.

#[local] Instance ex_relative_to_laws : RelativeToLaws ex_relative_to.
Proof. by constructor. Qed.

(** [project=[app,lib] && alias=@org/lib] *)
Definition ex_query : string := "project=[app,lib] && projectAlias=@org/lib".

Lemma query_projects_exact_witness : ∃ (g : ex_graph) q,
  build_query ex_query = Ok q ∧
  ws_caches_ok g (wg_query_projects g q WorkspaceCaches_new).2 ∧ is_ok (wg_query_projects g q WorkspaceCaches_new).1 = true.
Proof.
  destruct (ex_graph_ok (λ g, match build_query ex_query with
    | Ok q => is_ok (wg_query_projects g q WorkspaceCaches_new).1 | _ => false end)) as (g & Hp & Ht & Hl & Hc);
    [by vm_compute|].
  destruct (build_query ex_query) as [q| |] eqn:Hq; [|done..].
  destruct (is_ok_Ok (parse_query ex_query)) as [nodes Hn]; [by vm_compute|].
  exists g, q. split; [reflexivity|]. split; [|exact Hc].
  refine (proj1 (query_projects_exact g ex_query nodes q WorkspaceCaches_new Hp Ht Hl _ Hn Hq _)).
  - by split.
  - apply ws_caches_new.
Defined.

Lemma get_from_path_innermost_witness : ∃ g : ProjectGraph list_graph_ops list_dag_ops,
  (∃ p, (get_from_path g (Some ["workspace"; "lib"; "src"; "main.ts"]) ProjectCaches_new).1 = Ok p ∧ p_id p = "lib") ∧
  caches_ok g (get_from_path g (Some ["workspace"; "lib"; "src"; "main.ts"]) ProjectCaches_new).2.
Proof.
  set (file := Some ["workspace"; "lib"; "src"; "main.ts"]).
  destruct (ex_graph_ok (λ g, bool_decide (pg_nodes (wg_projects g) !! "" = None) &&
    (length (search_path (wg_projects g) file) <? 1000)%nat &&
    match (get_from_path (wg_projects g) file ProjectCaches_new).1 with
    | Ok p => bool_decide (p_id p = "lib") | _ => false end)) as (g & Hp & _ & _ & Hc); [by vm_compute|].
  apply andb_prop in Hc as [[H1%bool_decide_eq_true H2%Nat.ltb_lt]%andb_prop H3].
  exists (wg_projects g). split.
  - destruct (get_from_path _ _ _).1 as [p| |]; [|done..]. apply bool_decide_eq_true in H3. by exists p.
  - refine (proj1 (get_from_path_innermost (wg_projects g) file ProjectCaches_new H1 H2 _)). apply caches_new_ok.
Defined.

(** [l] lists the nodes of a graph, sources before targets. *)
Definition topo_check {E} (n : nat) (edges : list (nat * nat * E)) (l : list nat) : bool :=
  bool_decide (NoDup l) && forallb (λ i, bool_decide (i ∈ seq 0 n)) l && forallb (λ i, bool_decide (i ∈ l)) (seq 0 n) &&
  forallb (λ e, match list_find (λ i, i = e.1.1) l, list_find (λ i, i = e.1.2) l with
                | Some (i, _), Some (j, _) => (i <? j)%nat
                | _, _ => false
                end) edges.

Lemma topo_check_ok {E} n (edges : list (nat * nat * E)) l :
  topo_check n edges l = true →
  NoDup l ∧ (∀ i, i ∈ l ↔ i < n) ∧
  ∀ i a b, l !! i = Some a → edge_of edges a b → ∃ j, i < j ∧ l !! j = Some b.
Proof.
  unfold topo_check. rewrite !andb_true_iff, !forallb_forall.
  intros [[[Hnd%bool_decide_eq_true H1] H2] H3]. split; [done|]. split.
  - intros i. split.
    + intros Hi%list_elem_of_In%H1%bool_decide_eq_true. apply elem_of_seq in Hi. lia.
    + intros Hi. apply (bool_decide_eq_true_1 _), H2, list_elem_of_In, elem_of_seq. lia.
  - intros i a b Hi (e & He%list_elem_of_In%H3). cbn in He.
    destruct (list_find (λ i, i = a) l) as [[i' x]|] eqn:Ha; [|done].
    destruct (list_find (λ i, i = b) l) as [[j y]|] eqn:Hb; [|done].
    apply list_find_Some in Ha as (Ha & -> & _). apply list_find_Some in Hb as (Hb & -> & _).
    rewrite (NoDup_lookup l i i' a Hnd Hi Ha). apply Nat.ltb_lt in He. eauto.
Qed.

(** The nodes that have no edge from the others, again and again. *)
Fixpoint kahn {E} (fuel : nat) (edges : list (nat * nat * E)) (rest : list nat) : option (list nat) :=
  match fuel with
  | 0 => None
  | S fuel =>
      match rest with
      | [] => Some []
      | _ =>
          let free := filter (λ i, Forall (λ e : nat * nat * E, e.1.2 = i → e.1.1 ∉ rest) edges) rest in
          if decide (free = []) then None
          else l ← kahn fuel edges (filter (λ i, i ∉ free) rest); Some (free ++ l)%list
      end
  end.

#[local] Instance ex_sort : DiGraphSort (list_graph_ops (N := nat) (E := DependencyScope)) := {
  dg_toposort g := kahn (S (length (dg_nodes g))) (dg_edges g) (seq 0 (length (dg_nodes g)));
}.

Lemma partition_toposort_witness : ∃ (g : ProjectGraph list_graph_ops list_dag_ops) ids,
  partitioned_toposort g PProduction = Ok ids ∧ NoDup ids ∧
  ∀ id, id ∈ ids ↔ is_Some (pg_nodes g !! id).
Proof.
  destruct (ex_graph_ok (λ g, match dg_toposort (partitioned_graph (wg_projects g) PProduction) with
    | Some l => topo_check (length (dg_nodes (partitioned_graph (wg_projects g) PProduction)))
                  (dg_edges (partitioned_graph (wg_projects g) PProduction)) l
    | None => false end)) as (g & Hp & _ & _ & Hc); [by vm_compute|].
  exists (wg_projects g).
  destruct (dg_toposort (partitioned_graph (wg_projects g) PProduction)) as [l|] eqn:Hs; [|done].
  apply topo_check_ok in Hc.
  destruct (partition_toposort (wg_projects g) PProduction Hp
    (λ _, ex_intro _ l (conj Hs Hc))) as (ids & Hids & Hnd & Hall & _).
  exists ids. split; [exact Hids|]. split; [exact Hnd|exact Hall].
Defined.

Lemma partition_traverse_witness : ∃ (g : ProjectGraph list_graph_ops list_dag_ops) p ids,
  p_id p = "app" ∧ partitioned_traverse g p PProduction Outgoing = Ok ids ∧
  ∀ id, id ∈ ids ↔ tc (partition_towards g PProduction Outgoing) "app" id.
Proof.
  destruct (ex_graph_ok (λ g, match pg_nodes (wg_projects g) !! "app" with
    | Some node => bool_decide (p_id (pn_project node) = "app") | None => false end)) as (g & Hp & _ & _ & Hc);
    [by vm_compute|].
  destruct (pg_nodes (wg_projects g) !! "app") as [node|] eqn:Hn; [|done]. apply bool_decide_eq_true in Hc.
  destruct (partition_traverse (wg_projects g) (pn_project node) PProduction Outgoing Hp) as (ids & Hids & _ & Hall).
  { exists node. by rewrite Hc. }
  exists (wg_projects g), (pn_project node), ids. rewrite Hc in Hall. split; [exact Hc|]. split; [exact Hids|exact Hall].
Defined.

(** A workspace in which every task exists. *)
Definition ex_querent : TasksQuerent :=
  mkTasksQuerent (λ _, Ok []) (λ ids scope, Ok (map (λ id, (task_of id scope.2, TaskOptions_default)) ids)) (λ _, true).

Definition ex_project : Project :=
  mkProject [] ProjectConfig_default [mkProjectDep "lib" SProduction] [] "app" UnknownLanguage UnknownLayer
    "/workspace/app" "app" UnknownStack [] [] ["system"].

Lemma task_deps_exact_witness : ∃ project' task',
  TaskDepsBuilder_build ex_querent None ex_project (ex_task "app" "build" [on_build "lib" None]) = Ok (project', task') ∧
  NoDup (t_deps task') ∧ t_deps task' ≠ [].
Proof.
  destruct (is_ok_obind (TaskDepsBuilder_build ex_querent None ex_project (ex_task "app" "build" [on_build "lib" None]))
    (λ r, if bool_decide (t_deps r.2 = []) then OutOfFuel else Ok tt)) as ([p t] & Hb & Hc); [by vm_compute|].
  exists p, t. split; [exact Hb|].
  split; [exact (proj1 (proj2 (proj2 (proj2 (task_deps_exact ex_querent None ex_project _ p t Hb)))))|].
  cbn [snd] in Hc. by destruct (bool_decide (t_deps t = [])) eqn:He; [|apply bool_decide_eq_false in He].
Defined.
End Example.
