(* ===== verification/Dispatcher.v ===== *)
(** * The action graph and the job dispatcher

[crates/action-graph/src/action_graph.rs] and
[crates/action-pipeline/src/job_dispatcher.rs]: ordering of the finished action
graph, its priority groups, and the choice of the next job to run. *)

From S2P Require Import Prelude Errors Target GraphUtils Config Action Dag.

(** ** [ActionGraph] *)

(** The nodes of the inner graph are weighted by their own index. *)
Record ActionGraph `{D : DagOps nat TaskDependencyType} : Type := mkActionGraph {
  ag_graph : Dag;
  ag_nodes : gmap nat ActionNode;
}.

(** The graph algorithms of [graph_cycles] and [petgraph]. *)
Class TopoSort `{D : DagOps nat TaskDependencyType} : Type := {
  (** the nodes of a cycle, empty if there is none *)
  visit_cycles : Dag → list nat;
  (** the nodes, the source of an edge before its target, or a node on a cycle *)
  toposort : Dag → list nat + nat;
}.

Section Graph.
Context `{D : DagOps nat TaskDependencyType}.

Definition get_node_count (g : ActionGraph) : nat := size (ag_nodes g).

Definition ag_is_empty (g : ActionGraph) : bool := get_node_count g =? 0.

Definition get_node_from_index (g : ActionGraph) (index : nat) : option ActionNode :=
  ag_nodes g !! index.

(** [neighbors_directed(index, Direction::Outgoing)] *)
Definition requirements (g : ActionGraph) (index : nat) : list nat :=
  (dag_children (ag_graph g) index).*2.

(** [groups.entry(priority).or_insert_with(Vec::new).push(index)] on a
    [BTreeMap], whose entries are kept in the order of their keys. *)
Fixpoint groups_push (priority index : nat) (groups : list (nat * list nat)) :
  list (nat * list nat) :=
  match groups with
  | [] => [(priority, [index])]
  | (p, indices) :: groups' =>
      if priority <? p then (priority, [index]) :: groups
      else if priority =? p then (p, indices ++ [index]) :: groups'
      else (p, indices) :: groups_push priority index groups'
  end.

(** [ActionGraph::group_priorities]; a missing node is a panic. *)
Definition group_priorities (g : ActionGraph) (topo_indices : list nat) :
  result (list (nat * list nat)) :=
  ofold (λ groups node_index,
    let? node := ok_or (get_node_from_index g node_index) (Foreign "no entry found for key") in
    Ok (groups_push (ActionNode_get_priority node) node_index groups)) [] topo_indices.

(** The label of a node of the inner graph, for error messages; a missing node
    is a panic. *)
Definition index_label (g : ActionGraph) (index : nat) : result string :=
  match dag_node_weight (ag_graph g) index with
  | Some n =>
      let? node := ok_or (get_node_from_index g n) (Foreign "no entry found for key") in
      Ok (ActionNode_label node)
  | None => Ok "(unknown)"%string
  end.

(** [ActionGraph::sort_topological] *)
Definition sort_topological `{!TopoSort} (g : ActionGraph) : result (list nat) :=
  match visit_cycles (ag_graph g) with
  | [] =>
      match toposort (ag_graph g) with
      | inl indices => Ok (reverse indices)
      | inr node =>
          let? label := index_label g node in
          Err (RActionGraph (CycleDetected label))
      end
  | cycle =>
      let? labels := omap_list (index_label g) cycle in
      Err (RActionGraph (CycleDetected (str_join " → " labels)))
  end.

(** ** [JobDispatcher] *)

Record JobDispatcher : Type := mkDispatcher {
  jd_groups : list (nat * list nat);
  jd_visited : gset nat;
}.

Definition JobDispatcher_new (groups : list (nat * list nat)) : JobDispatcher :=
  mkDispatcher groups ∅.

Definition has_queued_jobs (g : ActionGraph) (d : JobDispatcher) : bool :=
  size (jd_visited d) <? dag_node_count (ag_graph g).

(** The first hit of a search that threads the set of traversed nodes. *)
Fixpoint search_first {A} (f : A → gset nat → result (option nat * gset nat)) (l : list A)
    (traversed : gset nat) : result (option nat * gset nat) :=
  match l with
  | [] => Ok (None, traversed)
  | x :: l' =>
      let? ' (r, traversed) := f x traversed in
      match r with
      | Some index => Ok (Some index, traversed)
      | None => search_first f l' traversed
      end
  end.

(** [JobDispatcher::find_applicable_index].  Every call below the first one is
    for a node that was not traversed before, so the recursion is no deeper than
    the graph has nodes. *)
Fixpoint find_applicable_index (fuel : nat) (g : ActionGraph) (visited : gset nat)
    (group : nat) (completed : gset nat) (index : nat) (traversed : gset nat) :
  result (option nat * gset nat) :=
  match fuel with
  | 0 => OutOfFuel
  | S fuel' =>
      if decide (index ∈ traversed) then Ok (None, traversed) else
      let traversed := {[index]} ∪ traversed in
      if decide (index ∈ visited ∨ index ∈ completed) then Ok (None, traversed)
      else if forallb (λ dep_index, bool_decide (dep_index ∈ completed)) (requirements g index)
      then Ok (Some index, traversed)
      else if group <? 2 then
        search_first (find_applicable_index fuel' g visited group completed)
          (requirements g index) traversed
      else Ok (None, traversed)
  end.

Definition dispatch_fuel (g : ActionGraph) : nat := S (dag_node_count (ag_graph g)).

(** The priority groups, flattened to the order they are walked in. *)
Definition queue_of (groups : list (nat * list nat)) : list (nat * nat) :=
  flat_map (λ '(group, indices), map (pair group) indices) groups.

(** Whether a job with this id is running. *)
Definition id_running (running : gmap nat N) (job_id : N) : bool :=
  existsb (λ r, N.eqb r.2 job_id) (map_to_list running).

(** The loop of [JobDispatcher::next]: the index to dispatch, and the running
    jobs. *)
Fixpoint next_loop (g : ActionGraph) (visited completed : gset nat) (running : gmap nat N)
    (l : list (nat * nat)) (traversed : gset nat) : result (option nat * gmap nat N) :=
  match l with
  | [] => Ok (None, running)
  | (group, maybe_index) :: l' =>
      let? ' (r, traversed) :=
        find_applicable_index (dispatch_fuel g) g visited group completed maybe_index traversed in
      match r with
      | None => next_loop g visited completed running l' traversed
      | Some index =>
          match get_node_from_index g index with
          | Some node =>
              let job_id := ActionNode_get_id node in
              if (0 <? job_id)%N && ActionNode_is_standard node then
                if id_running running job_id
                then next_loop g visited completed running l' traversed
                else Ok (Some index, <[index := job_id]> running)
              else Ok (Some index, running)
          | None => Ok (Some index, running)
          end
      end
  end.

(** [self.groups.retain(..)] *)
Definition retain_groups (completed : gset nat) (groups : list (nat * list nat)) :
  list (nat * list nat) :=
  List.filter (λ '(_, indices), match indices with [] => false | _ => true end)
    (map (λ '(group, indices),
            (group, List.filter (λ index, negb (bool_decide (index ∈ completed))) indices))
       groups).

(** [JobDispatcher::next] *)
Definition JobDispatcher_next (g : ActionGraph) (d : JobDispatcher) (completed : gset nat)
    (running : gmap nat N) : result (option nat * JobDispatcher * gmap nat N) :=
  let? ' (r, running) :=
    next_loop g (jd_visited d) completed running (queue_of (jd_groups d)) ∅ in
  match r with
  | Some index =>
      Ok (Some index, mkDispatcher (jd_groups d) ({[index]} ∪ jd_visited d), running)
  | None =>
      Ok (None, mkDispatcher (retain_groups completed (jd_groups d)) (jd_visited d), running)
  end.
End Graph.

(** ** Properties *)

Section Facts.
Context `{D : DagOps nat TaskDependencyType, L : !DagLaws D}.
Implicit Types (g : ActionGraph) (visited completed : gset nat).

(** A job that may start: not dispatched before, and everything it requires has
    completed. *)
Definition applicable g visited completed (index : nat) : Prop :=
  index ∉ visited ∧ index ∉ completed ∧ ∀ j, j ∈ requirements g index → j ∈ completed.

Lemma requirements_edge g i j :
  dag_wf (ag_graph g) → j ∈ requirements g i ↔ edge_of (dag_edges (ag_graph g)) i j.
Proof.
  intros Hwf. unfold requirements, edge_of. rewrite list_elem_of_fmap. split.
  - intros ([ei j'] & -> & (e & He)%(dag_children_law _ _ _ _ Hwf)).
    exists e. by eapply list_elem_of_lookup_2.
  - intros (e & (ei & He)%list_elem_of_lookup). exists (ei, j). split; [done|].
    apply (dag_children_law _ _ _ _ Hwf). by exists e.
Qed.

Lemma requirements_range g i j :
  dag_wf (ag_graph g) → j ∈ requirements g i →
  i < dag_node_count (ag_graph g) ∧ j < dag_node_count (ag_graph g).
Proof.
  intros Hwf. rewrite requirements_edge, dag_node_count_law by done.
  intros (e & He). by eapply dag_edges_range.
Qed.

(** What a search returns: a job that may start, or none among the nodes it
    traversed. *)
Definition search_post g visited completed (traversed : gset nat)
    (r : result (option nat * gset nat)) (reached : gset nat) : Prop :=
  ∃ o traversed', r = Ok (o, traversed') ∧ traversed ⊆ traversed' ∧
    match o with
    | Some i => applicable g visited completed i ∧ i < dag_node_count (ag_graph g)
    | None => reached ⊆ traversed' ∧
              ∀ x, x ∈ traversed' → x ∉ traversed → ¬ applicable g visited completed x
    end.

Lemma search_first_spec {A} g visited completed (f : A → gset nat → _) (key : A → nat) l tr0 :
  (∀ x tr, x ∈ l → tr0 ⊆ tr → search_post g visited completed tr (f x tr) {[key x]}) →
  ∀ tr, tr0 ⊆ tr →
  search_post g visited completed tr (search_first f l tr) (list_to_set (key <$> l)).
Proof.
  intros Hf. induction l as [|x l IH]; intros tr Htr; cbn.
  { exists None, tr. split_and!; [done..|set_solver]. }
  destruct (Hf x tr) as (o & tr1 & -> & Hsub & Ho); [by left|done|]. cbn.
  destruct o as [i|]; [by exists (Some i), tr1|]. destruct Ho as [Hx Hno].
  destruct IH with (tr := tr1) as (o & tr2 & -> & Hsub2 & Ho2);
    [intros; apply Hf; [by right|done]|set_solver|].
  exists o, tr2. split_and!; [done|set_solver|]. destruct o as [i|]; [done|].
  destruct Ho2 as [Hl Hno2]. split; [set_solver|].
  intros y Hy Hyt. destruct (decide (y ∈ tr1)); auto.
Qed.

(** The indexes of the graph that are not in [s]. *)
Definition unseen g (s : gset nat) : gset nat :=
  set_seq 0 (dag_node_count (ag_graph g)) ∖ s.

Lemma find_applicable_index_spec fuel g visited group completed index traversed :
  dag_wf (ag_graph g) → index < dag_node_count (ag_graph g) →
  size (unseen g traversed) < fuel →
  search_post g visited completed traversed
    (find_applicable_index fuel g visited group completed index traversed) {[index]}.
Proof.
  intros Hwf. revert index traversed.
  induction fuel as [|fuel IH]; intros index tr Hi Hf; [lia|]. cbn [find_applicable_index].
  case_decide as Htr. { exists None, tr. split_and!; [done..|set_solver|set_solver]. }
  assert (size (unseen g ({[index]} ∪ tr)) < size (unseen g tr)) as Hlt.
  { apply subset_size. unfold unseen.
    assert (index ∈ (set_seq 0 (dag_node_count (ag_graph g)) : gset nat))
      by (apply elem_of_set_seq; lia). set_solver. }
  case_decide as Hv.
  { exists None, ({[index]} ∪ tr). split_and!; [done|set_solver|set_solver|].
    intros x Hx Hxt. assert (x = index) as -> by set_solver. intros (? & ? & _). tauto. }
  destruct (forallb _ _) eqn:Hall.
  { exists (Some index), ({[index]} ∪ tr). split_and!; [done|set_solver| |done].
    split_and!; [tauto..|]. rewrite forallb_forall in Hall. intros j Hj.
    apply list_elem_of_In, Hall in Hj. by apply bool_decide_eq_true in Hj. }
  assert (¬ applicable g visited completed index) as Hna.
  { intros (_ & _ & Hj). apply Bool.not_true_iff_false in Hall. apply Hall, forallb_forall.
    intros j Hin%list_elem_of_In. apply bool_decide_eq_true. auto. }
  destruct (group <? 2).
  - destruct (search_first_spec g visited completed
      (find_applicable_index fuel g visited group completed) (λ x, x)
      (requirements g index) ({[index]} ∪ tr)) with (tr := {[index]} ∪ tr)
      as (o & tr' & -> & Hsub & Ho); [|done|].
    + intros x tr2 Hx Htr2. apply IH; [by eapply requirements_range|].
      enough (size (unseen g tr2) ≤ size (unseen g ({[index]} ∪ tr))) by lia.
      apply subseteq_size. unfold unseen. set_solver.
    + exists o, tr'. split_and!; [done|set_solver|]. destruct o; [done|].
      destruct Ho as [_ Hno]. split; [set_solver|]. intros x Hx Hxt.
      destruct (decide (x = index)) as [->|]; [done|]. apply Hno; set_solver.
  - exists None, ({[index]} ∪ tr). split_and!; [done|set_solver|set_solver|].
    intros x Hx Hxt. by assert (x = index) as -> by set_solver.
Qed.

Lemma dispatch_fuel_enough g traversed : size (unseen g traversed) < dispatch_fuel g.
Proof.
  unfold dispatch_fuel, unseen.
  enough (size (set_seq 0 (dag_node_count (ag_graph g)) ∖ traversed)
          ≤ dag_node_count (ag_graph g)) by lia.
  rewrite <- (size_set_seq (C := gset nat) 0 (dag_node_count (ag_graph g))) at 2.
  apply subseteq_size. set_solver.
Qed.

(** What [next_loop] returns for the queue [l]. *)
Definition next_post g visited completed running (l : list (nat * nat)) (traversed : gset nat)
    (r : result (option nat * gmap nat N)) : Prop :=
  ∃ o running', r = Ok (o, running') ∧
    match o with
    | Some i =>
        applicable g visited completed i ∧ i < dag_node_count (ag_graph g) ∧
        (running' = running ∨
         ∃ job_id, id_running running job_id = false ∧ running' = <[i := job_id]> running)
    | None =>
        running' = running ∧
        (running = ∅ → (∀ x, x ∈ traversed → ¬ applicable g visited completed x) →
         ∀ x, x ∈ l.*2 → ¬ applicable g visited completed x)
    end.

Lemma next_loop_spec g visited completed running l traversed :
  dag_wf (ag_graph g) → Forall (λ x, x.2 < dag_node_count (ag_graph g)) l →
  next_post g visited completed running l traversed
    (next_loop g visited completed running l traversed).
Proof.
  intros Hwf Hl. revert traversed. induction Hl as [|[group index] l Hi Hl IH]; intros tr;
    cbn [next_loop].
  { exists None, running. split_and!; [done..|set_solver]. }
  destruct (find_applicable_index_spec (dispatch_fuel g) g visited group completed index tr
    Hwf Hi (dispatch_fuel_enough g tr)) as (o & tr' & -> & Hsub & Ho). cbn [obind].
  destruct o as [i|].
  - destruct Ho as [Hap Hin].
    assert (next_post g visited completed running ((group, index) :: l) tr (Ok (Some i, running)))
      as Hplain by (exists (Some i), running; eauto).
    destruct (get_node_from_index g i) as [node|]; [|done].
    destruct (_ && _); [|done]. destruct (id_running running _) eqn:Hr.
    + destruct (IH tr') as (o & r' & -> & Hpost). exists o, r'. split; [done|].
      destruct o; [done|]. destruct Hpost as [-> _]. split; [done|]. intros ->. done.
    + exists (Some i), (<[i := ActionNode_get_id node]> running). split; [done|].
      split_and!; [done..|]. right. eauto.
  - destruct Ho as [Hx Hno]. destruct (IH tr') as (o & r' & -> & Hpost).
    exists o, r'. split; [done|]. destruct o; [done|]. destruct Hpost as [-> Hnone].
    split; [done|]. intros Hemp Htr.
    assert (∀ x, x ∈ tr' → ¬ applicable g visited completed x) as Htr'.
    { intros x Hxt. destruct (decide (x ∈ tr)); auto. }
    intros x [->|Hin]%elem_of_cons; [apply Htr'; set_solver|by apply Hnone].
Qed.

(** *** Groups *)

Lemma queue_of_elem groups x :
  x ∈ (queue_of groups).*2 ↔ ∃ p indices, (p, indices) ∈ groups ∧ x ∈ indices.
Proof.
  unfold queue_of. rewrite list_elem_of_fmap. setoid_rewrite list_elem_of_In.
  setoid_rewrite in_flat_map. setoid_rewrite <- list_elem_of_In. split.
  - intros ([p y] & -> & [p' indices] & Hin & Hy%list_elem_of_fmap).
    destruct Hy as (z & [= -> ->] & Hz). by exists p', indices.
  - intros (p & indices & Hin & Hx). exists (p, x). split; [done|].
    exists (p, indices). split; [done|]. apply list_elem_of_fmap. by exists x.
Qed.

Lemma queue_of_cons p indices groups :
  (queue_of ((p, indices) :: groups)).*2 = indices ++ (queue_of groups).*2.
Proof.
  unfold queue_of. cbn. rewrite fmap_app. f_equal.
  induction indices as [|x indices IH]; cbn; [done|]. f_equal. apply IH.
Qed.

Lemma groups_push_elem priority index groups x :
  x ∈ (queue_of (groups_push priority index groups)).*2 ↔
  x = index ∨ x ∈ (queue_of groups).*2.
Proof.
  induction groups as [|[p indices] groups IH]; cbn [groups_push].
  { rewrite queue_of_cons. set_solver. }
  destruct (priority <? p); [rewrite !queue_of_cons; set_solver|].
  destruct (priority =? p); rewrite !queue_of_cons, ?elem_of_app, ?IH; set_solver.
Qed.

Lemma group_priorities_elem g l groups x :
  group_priorities g l = Ok groups → x ∈ (queue_of groups).*2 ↔ x ∈ l.
Proof.
  assert (∀ gs gs', ofold (λ groups node_index,
    let? node := ok_or (get_node_from_index g node_index) (Foreign "no entry found for key") in
    Ok (groups_push (ActionNode_get_priority node) node_index groups)) gs l = Ok gs' →
    x ∈ (queue_of gs').*2 ↔ x ∈ (queue_of gs).*2 ∨ x ∈ l) as Hgen.
  { induction l as [|i l IH]; intros gs gs' Hgs; cbn in Hgs.
    - simplify_eq. set_solver.
    - step_ok. rewrite (IH _ _ Hgs), groups_push_elem. set_solver. }
  intros Hg. rewrite (Hgen _ _ Hg). cbn. set_solver.
Qed.

Lemma retain_groups_elem completed groups x :
  x ∈ (queue_of (retain_groups completed groups)).*2 ↔
  x ∈ (queue_of groups).*2 ∧ x ∉ completed.
Proof.
  rewrite !queue_of_elem. unfold retain_groups. setoid_rewrite list_elem_of_In.
  setoid_rewrite filter_In. setoid_rewrite in_map_iff. split.
  - intros (p & indices & [([p' is'] & [= <- <-] & Hin) _] & [Hx Hc]%filter_In).
    apply negb_true_iff, bool_decide_eq_false in Hc. split; [by exists p', is'|done].
  - intros [(p & indices & Hin & Hx) Hc].
    assert (x ∈ List.filter (λ index, negb (bool_decide (index ∈ completed))) indices) as Hx'.
    { apply list_elem_of_In, filter_In. split; [done|]. by rewrite bool_decide_false. }
    eexists p, _. split_and!; [by exists (p, indices)| |by apply list_elem_of_In].
    destruct (List.filter _ indices); [by apply not_elem_of_nil in Hx'|done].
Qed.

(** *** Progress *)

(** An order of the graph in which the requirements of a node come before it. *)
Definition deps_first g (l : list nat) : Prop :=
  (∀ i, i ∈ l ↔ i < dag_node_count (ag_graph g)) ∧
  ∀ i a b, l !! i = Some a → b ∈ requirements g a → ∃ j, j < i ∧ l !! j = Some b.

(** If something is left to do and all dispatched jobs have completed, some job
    may start. *)
Lemma exists_applicable g visited completed l i :
  deps_first g l → visited ⊆ completed → i ∈ l → i ∉ completed →
  ∃ a, a ∈ l ∧ applicable g visited completed a.
Proof.
  intros [_ Hord] Hvis (k & Hk)%list_elem_of_lookup Hi.
  revert i Hk Hi. induction k as [k IH] using lt_wf_ind; intros i Hk Hi.
  destruct (decide (Forall (λ j, j ∈ completed) (requirements g i))) as [Hall|Hex].
  - exists i. split; [by eapply list_elem_of_lookup_2|]. rewrite Forall_forall in Hall.
    split_and!; [set_solver|done|done].
  - apply not_Forall_Exists, Exists_exists in Hex as (j & Hj & Hjc); [|apply _].
    destruct (Hord _ _ _ Hk Hj) as (k' & Hlt & Hk'). by apply (IH k' Hlt j).
Qed.

(** The queue of a dispatcher holds indexes of the graph, and all those that
    have not completed. *)
Definition dispatcher_ok g completed (d : JobDispatcher) : Prop :=
  Forall (λ x, x.2 < dag_node_count (ag_graph g)) (queue_of (jd_groups d)) ∧
  ∀ i, i < dag_node_count (ag_graph g) → i ∉ completed → i ∈ (queue_of (jd_groups d)).*2.

Lemma dispatcher_ok_mono g c c' d : c ⊆ c' → dispatcher_ok g c d → dispatcher_ok g c' d.
Proof. intros Hc [Hr Hin]. split; [done|]. set_solver. Qed.

Lemma dispatcher_ok_new g l groups :
  deps_first g l → group_priorities g l = Ok groups →
  dispatcher_ok g ∅ (JobDispatcher_new groups).
Proof.
  intros [Hl _] Hg. split; cbn.
  - apply Forall_forall. intros [p x] Hx. cbn. apply Hl, (group_priorities_elem _ _ _ x Hg).
    apply list_elem_of_fmap. by exists (p, x).
  - intros i Hi _. by apply (group_priorities_elem _ _ _ _ Hg), Hl.
Qed.

(** One call of [next], without a failure: what it returns and what it leaves. *)
Lemma next_spec g completed d running :
  dag_wf (ag_graph g) → dispatcher_ok g completed d →
  ∃ o d' running', JobDispatcher_next g d completed running = Ok (o, d', running') ∧
    dispatcher_ok g completed d' ∧
    match o with
    | Some i =>
        applicable g (jd_visited d) completed i ∧ i < dag_node_count (ag_graph g) ∧
        jd_visited d' = {[i]} ∪ jd_visited d ∧
        (running' = running ∨
         ∃ job_id, id_running running job_id = false ∧ running' = <[i := job_id]> running)
    | None =>
        jd_visited d' = jd_visited d ∧ running' = running ∧
        (running = ∅ → ∀ x, x < dag_node_count (ag_graph g) →
                             ¬ applicable g (jd_visited d) completed x)
    end.
Proof.
  intros Hwf [Hr Hin]. unfold JobDispatcher_next.
  destruct (next_loop_spec g (jd_visited d) completed running (queue_of (jd_groups d)) ∅ Hwf Hr)
    as (o & running' & -> & Hpost). cbn. destruct o as [i|].
  - eexists _, _, _. split; [done|]. split; [by split|]. cbn. naive_solver.
  - destruct Hpost as [-> Hnone]. eexists _, _, _. split; [done|]. split; [split; cbn|].
    + apply Forall_forall. intros [p x] Hx. cbn.
      assert (x ∈ (queue_of (jd_groups d)).*2) as Hx'.
      { apply (retain_groups_elem completed). apply list_elem_of_fmap. by exists (p, x). }
      apply list_elem_of_fmap in Hx' as (y & -> & Hy). rewrite Forall_forall in Hr. auto.
    + intros i Hi Hc. apply retain_groups_elem. auto.
    + cbn. split_and!; [done..|]. intros Hemp x Hx Hap.
      assert (x ∉ completed) by apply Hap.
      eapply Hnone; [done|set_solver|by apply Hin|done].
Qed.
End Facts.

(** What [visit_cycles] and [toposort] document, of a graph [d]. *)
Record toposort_ok `{D : DagOps nat TaskDependencyType, L : !DagLaws D} (T : TopoSort)
    (d : Dag) : Prop := {
  visit_cycles_acyclic : acyclic (edge_of (dag_edges d)) → visit_cycles d = [];
  toposort_acyclic : acyclic (edge_of (dag_edges d)) →
    ∃ l, toposort d = inl l ∧ NoDup l ∧
      (∀ i, i ∈ l ↔ i < length (dag_nodes d)) ∧
      ∀ i a b, l !! i = Some a → edge_of (dag_edges d) a b →
        ∃ j, i < j ∧ l !! j = Some b;
}.

Lemma group_priorities_total `{D : DagOps nat TaskDependencyType} (g : ActionGraph) l :
  (∀ i, i ∈ l → is_Some (ag_nodes g !! i)) → ∃ groups, group_priorities g l = Ok groups.
Proof.
  unfold group_priorities. generalize (@nil (nat * list nat)).
  induction l as [|i l IH]; intros gs Hl; cbn; [by eauto|].
  destruct (Hl i) as [node Hnode]; [by left|].
  unfold get_node_from_index. rewrite Hnode. cbn. apply IH. intros. apply Hl. by right.
Qed.

(** The reverse of a topological order lists what is required first. *)
Lemma reverse_deps_first `{D : DagOps nat TaskDependencyType, L : !DagLaws D} (g : ActionGraph) l :
  dag_wf (ag_graph g) → (∀ i, i ∈ l ↔ i < length (dag_nodes (ag_graph g))) →
  (∀ i a b, l !! i = Some a → edge_of (dag_edges (ag_graph g)) a b →
     ∃ j, i < j ∧ l !! j = Some b) →
  deps_first g (reverse l).
Proof.
  intros Hwf Hel Hord. split; [intros i; by rewrite elem_of_reverse, dag_node_count_law|].
  intros i a b Hi Hab. apply requirements_edge in Hab; [|done].
  apply lookup_lt_Some in Hi as Hlt. rewrite length_reverse in Hlt.
  rewrite reverse_lookup in Hi by done.
  destruct (Hord _ _ _ Hi Hab) as (j & Hij & Hj). apply lookup_lt_Some in Hj as Hjlt.
  exists (length l - S j). split; [lia|]. rewrite reverse_lookup by lia.
  by replace (length l - S (length l - S j)) with j by lia.
Qed.

Lemma sort_and_group_ok `{D : DagOps nat TaskDependencyType, L : !DagLaws D, T : !TopoSort}
    (g : ActionGraph) :
  toposort_ok T (ag_graph g) → dag_wf (ag_graph g) → acyclic (edge_of (dag_edges (ag_graph g))) →
  (∀ i, i < dag_node_count (ag_graph g) → is_Some (ag_nodes g !! i)) →
  ∃ l groups, sort_topological g = Ok l ∧ NoDup l ∧ deps_first g l ∧
    group_priorities g l = Ok groups ∧
    ∀ i, i ∈ (queue_of groups).*2 ↔ i < dag_node_count (ag_graph g).
Proof.
  intros HT Hwf Hac Hnodes. unfold sort_topological.
  rewrite (visit_cycles_acyclic _ _ HT) by done.
  destruct (toposort_acyclic _ _ HT Hac) as (l & -> & Hnd & Hel & Hord).
  destruct (group_priorities_total g (reverse l)) as (groups & Hg).
  { intros i. rewrite elem_of_reverse, Hel. rewrite <- dag_node_count_law. apply Hnodes. }
  exists (reverse l), groups. split_and!; [done|by rewrite reverse_Permutation| |done|].
  - by apply reverse_deps_first.
  - intros i. rewrite (group_priorities_elem _ _ _ i Hg), elem_of_reverse, dag_node_count_law.
    apply Hel.
Qed.

(** Whatever the priority groups, [JobDispatcher::next] returns, and a job
    it hands out has not been handed out before and has all its requirements
    completed; it is recorded as visited, and as running only if no running job
    has its id. *)
Theorem JobDispatcher_next_safe `{D : DagOps nat TaskDependencyType, L : !DagLaws D}
    (g : ActionGraph) completed d running :
  dag_wf (ag_graph g) → dispatcher_ok g completed d →
  ∃ o d' running', JobDispatcher_next g d completed running = Ok (o, d', running') ∧
    ∀ i, o = Some i →
      i ∉ jd_visited d ∧ i ∉ completed ∧
      (∀ j, edge_of (dag_edges (ag_graph g)) i j → j ∈ completed) ∧
      jd_visited d' = {[i]} ∪ jd_visited d ∧
      (running' = running ∨
       ∃ job_id, id_running running job_id = false ∧ running' = <[i := job_id]> running).
Proof.
  intros Hwf Hok. destruct (next_spec g completed d running Hwf Hok)
    as (o & d' & r' & Heq & _ & Ho).
  exists o, d', r'. split; [done|]. intros i ->.
  destruct Ho as ((Hv & Hc & Hj) & _ & Hvis & Hrun). split_and!; try done.
  intros j Hij. by apply Hj, requirements_edge.
Qed.

(** C37: if every job handed out so far has completed and some node of the graph
    has not, [JobDispatcher::next] hands out a job: the dispatcher never gets
    stuck on its own, whatever the priority groups and the order within them. *)
Theorem JobDispatcher_next_progress `{D : DagOps nat TaskDependencyType, L : !DagLaws D}
    (g : ActionGraph) completed d l i :
  dag_wf (ag_graph g) → deps_first g l → dispatcher_ok g completed d →
  jd_visited d ⊆ completed → i < dag_node_count (ag_graph g) → i ∉ completed →
  ∃ j d' running', JobDispatcher_next g d completed ∅ = Ok (Some j, d', running').
Proof.
  intros Hwf Hord Hok Hvis Hi Hic.
  destruct (next_spec g completed d ∅ Hwf Hok) as ([j|] & d' & r' & Heq & _ & Ho); [by eauto|].
  destruct (exists_applicable g (jd_visited d) completed l i) as (a & Ha & Hap); [done..| |done|].
  { by apply Hord. }
  exfalso. destruct Ho as (_ & _ & Hno). eapply Hno; [done| |exact Hap]. by apply Hord.
Qed.

(** The finished action graph can always be ordered, and both the order and
    the priority groups made from it list every node of the graph; in the order,
    what an action requires comes before it. *)
Theorem sort_and_group `{D : DagOps nat TaskDependencyType, L : !DagLaws D, T : !TopoSort}
    (g : ActionGraph) :
  toposort_ok T (ag_graph g) → dag_wf (ag_graph g) → acyclic (edge_of (dag_edges (ag_graph g))) →
  (∀ i, i < dag_node_count (ag_graph g) → is_Some (ag_nodes g !! i)) →
  ∃ l groups, sort_topological g = Ok l ∧ NoDup l ∧ deps_first g l ∧
    group_priorities g l = Ok groups ∧
    ∀ i, i ∈ (queue_of groups).*2 ↔ i < dag_node_count (ag_graph g).
Proof. apply sort_and_group_ok. Qed.

(** ** A concrete action graph: [RunTask(app:build)] requires [SyncWorkspace]. *)

Definition sample_node : ActionNode :=
  RunTask (RunTaskNode_new (mkTarget "app:build" PId TId 3)).

Definition sample_action_graph : ActionGraph (D := list_dag_ops) :=
  mkActionGraph list_dag_ops (mkListDag [0; 1] [(1, 0, Required)])
    {[0 := SyncWorkspace; 1 := sample_node]}.

Lemma sample_action_graph_wf : dag_wf (DagLaws := list_dag_laws) (ag_graph sample_action_graph).
Proof. repeat constructor. Qed.

Lemma sample_deps_first : deps_first sample_action_graph [0; 1].
Proof.
  split.
  - intros i. cbn. rewrite !elem_of_cons. split; [|intros; destruct i as [|[|]]; [tauto..|lia]].
    intros [->|[->|[]%not_elem_of_nil]]; lia.
  - intros [|[|i]] a b; cbn; [| |done].
    + intros [= <-] []%not_elem_of_nil.
    + intros [= <-] ->%list_elem_of_singleton. exists 0. split; [lia|done].
Qed.

Lemma sample_dispatcher_ok :
  dispatcher_ok sample_action_graph ∅ (JobDispatcher_new [(0, [0]); (2, [1])]).
Proof. eapply dispatcher_ok_new; [apply sample_deps_first|reflexivity]. Qed.

Lemma JobDispatcher_next_safe_witness :
  ∃ o d' running',
    JobDispatcher_next sample_action_graph (JobDispatcher_new [(0, [0]); (2, [1])]) ∅ ∅ =
      Ok (o, d', running') ∧ o = Some 0.
Proof.
  destruct (JobDispatcher_next_safe sample_action_graph ∅ _ ∅ sample_action_graph_wf
    sample_dispatcher_ok) as (o & d' & r' & Heq & _).
  exists o, d', r'. split; [exact Heq|]. vm_compute in Heq. congruence.
Defined.

Lemma JobDispatcher_next_progress_witness :
  ∃ j d' running',
    JobDispatcher_next sample_action_graph (JobDispatcher_new [(0, [0]); (2, [1])]) ∅ ∅ =
      Ok (Some j, d', running').
Proof.
  apply (JobDispatcher_next_progress sample_action_graph ∅ _ [0; 1] 0).
  - apply sample_action_graph_wf.
  - apply sample_deps_first.
  - apply sample_dispatcher_ok.
  - set_solver.
  - cbn. lia.
  - set_solver.
Defined.

Definition sample_toposort : TopoSort (D := list_dag_ops) := {|
  visit_cycles := λ _, [];
  toposort := λ _, inl [1; 0];
|}.

Lemma sort_and_group_witness :
  ∃ l groups, sort_topological (H := sample_toposort) sample_action_graph = Ok l ∧
    group_priorities sample_action_graph l = Ok groups ∧ groups = [(0, [0]); (2, [1])].
Proof.
  destruct (sort_and_group (T := sample_toposort) sample_action_graph)
    as (l & groups & Hl & _ & _ & Hg & _).
  - split; [done|]. intros _. exists [1; 0]. split_and!; [done|by apply (bool_decide_unpack _)| |].
    + intros i. cbn. rewrite !elem_of_cons. split; [|intros; destruct i as [|[|]]; [tauto..|lia]].
      intros [->|[->|[]%not_elem_of_nil]]; lia.
    + intros [|[|i]] a b; cbn; [| |done]; intros [= <-] (e & He); cbn in He;
        apply list_elem_of_singleton in He; simplify_eq. exists 1. split; [lia|done].
  - apply sample_action_graph_wf.
  - intros x Hx. assert (∀ a b, tc (edge_of [(1, 0, Required)]) a b → a = 1 ∧ b = 0) as H.
    { induction 1 as [a b (e & He%list_elem_of_singleton)|a b c (e & He%list_elem_of_singleton) _ IH];
        simplify_eq; lia. }
    apply H in Hx. lia.
  - intros [|[|i]]; cbn; [by eauto..|lia].
  - exists l, groups. split_and!; [exact Hl|exact Hg|].
    injection Hl as <-. vm_compute in Hg. congruence.
Defined.
