(* ===== verification/ActionGraphBuilder.v ===== *)
(** * The action graph builder ([crates/action-graph/src/action_graph_builder.rs])

How the actions that a set of targets needs are inserted into a graph and
linked: synchronization of the workspace and of projects, set up of toolchains
and environments, installation of dependencies, and tasks with their
dependencies and dependents.  The builder is threaded through a state and error
monad; a failed call leaves no builder behind, as every caller drops it. *)

From S2P Require Import Prelude Errors PooledTasks Target GraphUtils Config Affected.
From S2P Require Import ActionContext Action Dag Dispatcher.

(** ** What the builder is given *)

(** [DependenciesWorkspace], [DependenciesWorkspaceRole] ([toolchain/src/shapes.rs]) *)
Record DependenciesWorkspace : Type := mkDependenciesWorkspace {
  dw_root : string;
  dw_members : option (list string);
}.

Inductive DependenciesWorkspaceRole : Type := WorkspaceRoot | WorkspaceMember | PackageRoot.

(** [DefineRequirementsOutput], of the plugin protocol. *)
Record DefineRequirementsOutput : Type := mkRequirements {
  req_requires : list string;
  req_for_setup_environment : bool;
  req_for_setup_toolchain : bool;
}.

(** The toolchain plugins, which are WASM modules, and the path library: calls of
    code outside the repository.  A call gets the toolchain's configuration,
    which depends on the project. *)
Class Plugins : Type := {
  (** [toolchain_registry.load(id)] *)
  plugin_load : Id → result unit;
  has_func : Id → string → bool;
  define_requirements : Id → option Project → result DefineRequirementsOutput;
  plugin_locate_dependencies_root : Id → option Project → result (option DependenciesWorkspace);
  (** [path.relative_to(base)] *)
  relative_to : string → string → result WorkspaceRelativePath;
  (** [path.strip_prefix(base)] *)
  path_strip_prefix : string → string → option string;
  (** [GlobSet::new(patterns)?.matches(path)] *)
  globs_match : list string → string → result bool;
}.

(** The workspace graph, as the builder uses it. *)
Record RunGraph : Type := mkRunGraph {
  rg_workspace : WorkspaceView;
  get_task_from_project : Id → Id → result Task;
  get_tasks_from_project : Id → result (list Task);
  (** [query_projects(build_query(input)?)], and the same for tasks *)
  query_projects : string → result (list Project);
  query_tasks : string → result (list Task);
  get_project_from_path : result Project;
  get_default_project : result Project;
  (** [projects.dependencies_of(project)] *)
  project_dependencies_of : Project → list Id;
}.

(** [ActionGraphBuilderOptions] *)
Record ActionGraphBuilderOptions : Type := mkBuilderOptions {
  opt_install_dependencies : PipelineActionSwitch;
  opt_setup_environment : PipelineActionSwitch;
  opt_setup_toolchains : PipelineActionSwitch;
  opt_sync_projects : PipelineActionSwitch;
  opt_sync_project_dependencies : bool;
  opt_sync_workspace : bool;
}.

Definition ActionGraphBuilderOptions_new (state : bool) : ActionGraphBuilderOptions :=
  mkBuilderOptions (SwitchEnabled state) (SwitchEnabled state) (SwitchEnabled state)
    (SwitchEnabled state) state state.

(** The parts of the builder that do not change: the application context, the
    options and the workspace graph; and the executor of the asynchronous
    affected tracking. *)
Record BuilderEnv : Type := mkBuilderEnv {
  e_toolchains_config : ToolchainsConfig;
  e_workspace_root : string;
  e_async_affected_tracking : bool;
  e_concurrency : nat;
  e_sched : nat → nat;
  e_options : ActionGraphBuilderOptions;
  e_graph : RunGraph;
}.

(** [RunRequirements] *)
Record RunRequirements : Type := mkRunRequirements {
  rr_ci : bool;
  rr_ci_check : bool;
  rr_dependencies : UpstreamScope;
  rr_dependents : DownstreamScope;
  rr_include_relations : bool;
  rr_interactive : bool;
  rr_job : option nat;
  rr_job_total : option nat;
  rr_skip_affected : bool;
}.

(** [RunRequirements::default], [ci] being whether we are in a CI environment *)
Definition RunRequirements_default (ci : bool) : RunRequirements :=
  mkRunRequirements ci false UpDeep DownNone false false None None false.

Definition rr_set_skip_affected (r : RunRequirements) (b : bool) : RunRequirements :=
  mkRunRequirements (rr_ci r) (rr_ci_check r) (rr_dependencies r) (rr_dependents r)
    (rr_include_relations r) (rr_interactive r) (rr_job r) (rr_job_total r) b.

Definition rr_reset_jobs (r : RunRequirements) : RunRequirements :=
  mkRunRequirements (rr_ci r) (rr_ci_check r) (rr_dependencies r) (rr_dependents r)
    (rr_include_relations r) (rr_interactive r) None None (rr_skip_affected r).

(** [RunPartition] *)
Record RunPartition : Type := mkRunPartition {
  rp_targets : gmap nat Target;
  rp_size : option nat;
}.

(** [RunTaskState]; the depth is a [u8]. *)
Record RunTaskState : Type := mkRunTaskState {
  rs_depth : nat;
  rs_via_dependency : bool;
}.

Definition RunTaskState_default : RunTaskState := mkRunTaskState 0 false.

(** [TargetsBlock] ([exec-plan/src/exec_plan.rs]) *)
Inductive TargetsBlock : Type :=
| Partitioned (jobs : list (list TargetLocator))
| Filtered (include : list TargetLocator)
| Included (targets : list TargetLocator).

(** ** The builder *)

(** The query is kept by its input.  The map of nodes is keyed by hash and
    equality: two nodes are the same key when they are the same, the order of
    the environment included. *)
Record ActionGraphBuilder `{D : DagOps ActionNode TaskDependencyType} : Type := mkBuilder {
  b_all_query : option string;
  b_graph : Dag;
  b_nodes : gmap ActionNode nat;
  b_affected : option AffectedTracker;
  b_changed_files : option (list WorkspaceRelativePath);
  b_ignored_dependencies : gmap Target (gset Target);
  b_ignored_dependents : gset Target;
  b_passthrough_targets : gset Target;
  b_primary_targets : gset Target;
  b_serial_edges : gset nat;
}.

Section Builder.
Context `{D : DagOps ActionNode TaskDependencyType}.

(** [ActionGraphBuilder::new] *)
Definition ActionGraphBuilder_new : ActionGraphBuilder :=
  mkBuilder D None dag_new ∅ None None ∅ ∅ ∅ ∅ ∅.

Definition b_set_graph (b : ActionGraphBuilder) (g : Dag) (nodes : gmap ActionNode nat)
    (serial : gset nat) : ActionGraphBuilder :=
  mkBuilder D (b_all_query b) g nodes (b_affected b) (b_changed_files b)
    (b_ignored_dependencies b) (b_ignored_dependents b) (b_passthrough_targets b)
    (b_primary_targets b) serial.

Definition b_set_affected (b : ActionGraphBuilder) (a : option AffectedTracker) :
  ActionGraphBuilder :=
  mkBuilder D (b_all_query b) (b_graph b) (b_nodes b) a (b_changed_files b)
    (b_ignored_dependencies b) (b_ignored_dependents b) (b_passthrough_targets b)
    (b_primary_targets b) (b_serial_edges b).

Definition b_set_targets (b : ActionGraphBuilder) (ignored : gmap Target (gset Target))
    (ignored_dependents passthrough primary : gset Target) : ActionGraphBuilder :=
  mkBuilder D (b_all_query b) (b_graph b) (b_nodes b) (b_affected b) (b_changed_files b)
    ignored ignored_dependents passthrough primary (b_serial_edges b).

(** [set_query], [set_changed_files] *)
Definition set_query (b : ActionGraphBuilder) (input : string) : ActionGraphBuilder :=
  mkBuilder D (Some input) (b_graph b) (b_nodes b) (b_affected b) (b_changed_files b)
    (b_ignored_dependencies b) (b_ignored_dependents b) (b_passthrough_targets b)
    (b_primary_targets b) (b_serial_edges b).

Definition set_changed_files (b : ActionGraphBuilder) (files : list WorkspaceRelativePath) :
  ActionGraphBuilder :=
  mkBuilder D (b_all_query b) (b_graph b) (b_nodes b) (b_affected b) (Some files)
    (b_ignored_dependencies b) (b_ignored_dependents b) (b_passthrough_targets b)
    (b_primary_targets b) (b_serial_edges b).

(** *** Methods that take [&mut self] *)

Definition build_m (A : Type) : Type := ActionGraphBuilder → result (A * ActionGraphBuilder).

#[global] Instance build_m_ret : MRet build_m := λ A a b, Ok (a, b).
#[global] Instance build_m_bind : MBind build_m := λ A B f m b,
  let? ' (a, b) := m b in f a b.

Definition lift {A} (r : result A) : build_m A := λ b, let? a := r in Ok (a, b).
Definition get : build_m ActionGraphBuilder := λ b, Ok (b, b).
Definition put (b : ActionGraphBuilder) : build_m unit := λ _, Ok (tt, b).

(** [for x in l { f(self, x)?; }] *)
Fixpoint for_each {A} (f : A → build_m unit) (l : list A) : build_m unit :=
  match l with
  | [] => mret tt
  | x :: l' => f x;; for_each f l'
  end.

(** ** Nodes and edges *)

Definition get_index_from_node (node : ActionNode) : build_m (option nat) :=
  b ← get; mret (b_nodes b !! node).

(** [ActionGraphBuilder::insert_node] *)
Definition insert_node (node : ActionNode) : build_m nat :=
  b ← get;
  let '(index, g) := dag_add_node (b_graph b) node in
  put (b_set_graph b g (<[node := index]> (b_nodes b)) (b_serial_edges b));;
  mret index.

(** [insert_node_if_missing!], and whether the node was missing, which is where
    [insert_node_or_exit!] does not return. *)
Definition insert_node_if_missing (node : ActionNode) : build_m (nat * bool) :=
  o ← get_index_from_node node;
  match o with
  | Some index => mret (index, false)
  | None => index ← insert_node node; mret (index, true)
  end.

(** The label of a node of the graph; [node_weight(index).unwrap()] panics if
    there is none. *)
Definition weight_label (g : Dag) (index : nat) : result string :=
  let? node := ok_or (dag_node_weight g index)
                 (Foreign "called `Option::unwrap()` on a `None` value") in
  Ok (ActionNode_label node).

(** The loop body of [link_requirements]. *)
Definition link_requirement (index edge : nat) : build_m unit :=
  b ← get;
  match dag_find_edge (b_graph b) index edge with
  | Some _ => mret tt
  | None =>
      match dag_add_edge (b_graph b) index edge Required with
      | Some (_, g) => put (b_set_graph b g (b_nodes b) (b_serial_edges b))
      | None =>
          source_action ← lift (weight_label (b_graph b) index);
          target_action ← lift (weight_label (b_graph b) edge);
          lift (Err (RActionGraph (AG_WouldCycle source_action target_action)))
      end
  end.

(** [ActionGraphBuilder::link_requirements] *)
Definition link_requirements (index : nat) (edges : list nat) : build_m unit :=
  for_each (link_requirement index) edges.

(** [ActionGraphBuilder::link_optional_requirements], [link_first_requirement] *)
Definition link_optional_requirements (index : nat) (edges : list (option nat)) : build_m unit :=
  link_requirements index (omap (λ e, e) edges).

Definition link_first_requirement (index : nat) (edges : list (option nat)) : build_m unit :=
  match omap (λ e, e) edges with
  | edge :: _ => link_requirements index [edge]
  | [] => mret tt
  end.

(** [ActionGraphBuilder::try_link_requirements] *)
Definition try_link_requirements (index edge : nat) : build_m unit :=
  b ← get;
  match dag_find_edge (b_graph b) index edge with
  | Some _ => mret tt
  | None =>
      match dag_add_edge (b_graph b) index edge Required with
      | Some (edge_index, g) =>
          put (b_set_graph b g (b_nodes b) ({[edge_index]} ∪ b_serial_edges b))
      | None => mret tt
      end
  end.

(** Whether the walk of [link_serial_requirements] follows an edge. *)
Definition serial_follows (g : Dag) (serial : gset nat) (c : nat * nat) : bool :=
  negb (bool_decide (c.1 ∈ serial)) &&
  match dag_node_weight g c.2 with Some (RunTask _) => true | _ => false end.

Definition serial_children (g : Dag) (serial : gset nat) (node : nat) : list nat :=
  (List.filter (serial_follows g serial) (dag_children g node)).*2.

(** The [while let Some(node_index) = stack.pop()]; the top of the stack comes
    first. *)
Fixpoint serial_walk (fuel : nat) (g : Dag) (serial : gset nat) (stack ordered : list nat)
    (visited : gset nat) : result (list nat) :=
  match fuel with
  | 0 => OutOfFuel
  | S fuel' =>
      match stack with
      | [] => Ok ordered
      | node :: stack' =>
          if decide (node ∈ visited) then serial_walk fuel' g serial stack' ordered visited
          else serial_walk fuel' g serial (reverse (serial_children g serial node) ++ stack')
                 (ordered ++ [node]) ({[node]} ∪ visited)
      end
  end.

(** Every node is entered once, so at most one entry per edge, and the first
    one, is popped. *)
Definition serial_fuel (g : Dag) : nat :=
  2 + sum_list_with (λ i, length (dag_children g i)) (seq 0 (dag_node_count g)).

(** [ActionGraphBuilder::link_serial_requirements] *)
Definition link_serial_requirements (index previous : nat) : build_m unit :=
  b ← get;
  ordered ← lift (serial_walk (serial_fuel (b_graph b)) (b_graph b) (b_serial_edges b)
                    [index] [] ∅);
  for_each (λ node, try_link_requirements node previous) ordered.
End Builder.

Section Actions.
Context `{D : DagOps ActionNode TaskDependencyType, H : Host, P : Plugins, I : IdSyntax,
  X : FxHasher}.
Variable E : BuilderEnv.
Local Notation W := (rg_workspace (e_graph E)).

(** ** Affected state *)

(** [ActionGraphBuilder::set_affected]; a missing list of files is a panic. *)
Definition set_affected : build_m unit :=
  b ← get;
  match b_affected b with
  | Some _ => mret tt
  | None =>
      files ← lift (ok_or (b_changed_files b)
                      (Foreign "Changed files are required for affected tracking."));
      put (b_set_affected b (Some (AffectedTracker_new W files)))
  end.

(** [ActionGraphBuilder::track_affected] *)
Definition track_affected (upstream : UpstreamScope) (downstream : DownstreamScope)
    (ci_check : bool) : build_m unit :=
  (if decide (downstream = DownNone) then mret tt
   else lift (get_projects W);; lift (get_tasks_with_internal W);; mret tt);;
  set_affected;;
  b ← get;
  match b_affected b with
  | Some affected =>
      let affected := set_scopes (set_ci_check affected ci_check) upstream downstream in
      affected ← lift (if e_async_affected_tracking E
                       then track_projects_async (e_concurrency E) (e_sched E) affected
                       else track_projects affected);
      put (b_set_affected b (Some affected))
  | None => mret tt
  end.

(** [ActionGraphBuilder::is_project_affected] *)
Definition builder_is_project_affected (p : Project) (reqs : RunRequirements) : build_m bool :=
  b ← get;
  match b_affected b, rr_skip_affected reqs with
  | Some affected, false =>
      if (if rr_include_relations reqs then is_project_marked affected p
          else is_project_marked_ignoring_relations affected p)
      then mret true
      else match is_project_affected affected p with
           | Some mark =>
               affected ← lift (mark_project_affected affected p mark);
               put (b_set_affected b (Some affected));; mret true
           | None => mret false
           end
  | _, _ => mret true
  end.

(** [ActionGraphBuilder::is_task_affected] *)
Definition builder_is_task_affected (t : Task) (reqs : RunRequirements) : build_m bool :=
  b ← get;
  match b_affected b, rr_skip_affected reqs with
  | Some affected, false =>
      if (if rr_include_relations reqs then is_task_marked affected t
          else is_task_marked_ignoring_relations affected t)
      then mret true
      else mark ← lift (is_task_affected affected t);
           match mark with
           | Some mark =>
               affected ← lift (mark_task_affected affected t mark);
               put (b_set_affected b (Some affected));; mret true
           | None => mret false
           end
  | _, _ => mret true
  end.

(** ** Toolchains *)

(** [get_workspace_spec], [get_project_spec], [get_spec] *)
Definition get_workspace_spec (toolchain_id : Id) : option ToolchainSpec :=
  match ToolchainsConfig_get_plugin_config (e_toolchains_config E) toolchain_id with
  | Some config =>
      Some (match tc_version config with
            | Some version => ToolchainSpec_new toolchain_id version
            | None => ToolchainSpec_new_global toolchain_id
            end)
  | None => None
  end.

Definition get_project_spec (toolchain_id : Id) (p : Project) : option ToolchainSpec :=
  match lookup_plugin (config_toolchains (p_config p)) toolchain_id with
  | Some config =>
      if negb (ProjectToolchainEntry_is_enabled config) then None else
      match ProjectToolchainEntry_get_version config with
      | Some version => Some (ToolchainSpec_new toolchain_id version)
      | None => get_workspace_spec toolchain_id
      end
  | None => get_workspace_spec toolchain_id
  end.

Definition get_spec (toolchain_id : Id) (p : option Project) : option ToolchainSpec :=
  match p with
  | Some p => get_project_spec toolchain_id p
  | None => get_workspace_spec toolchain_id
  end.

(** [ToolchainPlugin::supports_tier_2], [supports_tier_3]
    ([toolchain-plugin/src/toolchain_plugin.rs]) *)
Definition supports_tier_2 (id : Id) : bool := has_func id "locate_dependencies_root".
Definition supports_tier_3 (id : Id) : bool := has_func id "setup_toolchain".

(** [ToolchainPlugin::in_dependencies_workspace] *)
Definition in_dependencies_workspace (w : DependenciesWorkspace) (path : string) :
  result (option DependenciesWorkspaceRole) :=
  if decide (path = dw_root w) then
    Ok (Some (match dw_members w with Some _ => WorkspaceRoot | None => PackageRoot end))
  else
    match dw_members w with
    | Some members =>
        let? matches := globs_match members (default path (path_strip_prefix path (dw_root w))) in
        Ok (if matches then Some WorkspaceMember else None)
    | None => Ok None
    end.

(** [ActionGraphBuilder::sync_workspace] *)
Definition sync_workspace : build_m (option nat) :=
  if negb (opt_sync_workspace (e_options E)) then mret None
  else '(index, _) ← insert_node_if_missing SyncWorkspace; mret (Some index).

(** [ActionGraphBuilder::setup_proto] *)
Definition setup_proto : build_m (option nat) :=
  '(index, fresh) ← insert_node_if_missing (SetupProto (tcs_proto_version (e_toolchains_config E)));
  mret (Some index).

(** The loops over the toolchains that a toolchain requires; [setup] sets one up. *)
Fixpoint setup_requirements (spec : ToolchainSpec) (p : option Project) (cycle : gset Id)
    (setup : ToolchainSpec → build_m (option nat)) (requires : list string) :
  build_m (list (option nat)) :=
  match requires with
  | [] => mret []
  | require_id :: requires' =>
      lift (id_check require_id);;
      if decide (require_id = spec_id spec) then setup_requirements spec p cycle setup requires'
      else if decide (require_id ∈ cycle) then setup_requirements spec p cycle setup requires'
      else
        match get_spec require_id p with
        | Some require_spec =>
            edge ← setup require_spec;
            edges ← setup_requirements spec p cycle setup requires';
            mret (edge :: edges)
        | None =>
            lift (Err (RActionGraph (MissingToolchainRequirement (spec_id spec) require_id)))
        end
  end.

(** [ActionGraphBuilder::internal_setup_toolchain].  A toolchain that is in
    [cycle] is not entered again, so the recursion is no deeper than there are
    configured toolchains. *)
Fixpoint internal_setup_toolchain (fuel : nat) (spec : ToolchainSpec) (p : option Project)
    (cycle : gset Id) : build_m (option nat) :=
  match fuel with
  | 0 => λ _, OutOfFuel
  | S fuel' =>
      if negb (PipelineActionSwitch_is_enabled (opt_setup_toolchains (e_options E)) (spec_id spec))
         || ToolchainSpec_is_system spec || bool_decide (spec_id spec ∈ cycle)
      then mret None
      else
        lift (plugin_load (spec_id spec));;
        let cycle := {[spec_id spec]} ∪ cycle in
        output ← lift (define_requirements (spec_id spec) p);
        edges ← (if req_for_setup_toolchain output
                 then setup_requirements spec p cycle
                        (λ require_spec, internal_setup_toolchain fuel' require_spec p cycle)
                        (req_requires output)
                 else mret []);
        if negb (supports_tier_3 (spec_id spec)) && bool_decide (edges = []) then mret None
        else
          sync_workspace_index ← sync_workspace;
          proto ← (if bool_decide (is_Some (spec_req spec))
                      || requires_proto (e_toolchains_config E)
                   then index ← setup_proto; mret [index]
                   else mret []);
          '(index, fresh) ← insert_node_if_missing (SetupToolchain spec);
          link_optional_requirements index (edges ++ [sync_workspace_index] ++ proto);;
          mret (Some index)
  end.

(** One identifier per configured toolchain, and its stable and unstable
    variant. *)
Definition toolchain_fuel (p : option Project) : nat :=
  2 + 3 * (size (tcs_plugins (e_toolchains_config E)) +
           from_option (λ p, size (config_toolchains (p_config p))) 0 p).

(** [ActionGraphBuilder::setup_toolchain] *)
Definition setup_toolchain (spec : ToolchainSpec) (p : option Project) : build_m (option nat) :=
  internal_setup_toolchain (toolchain_fuel p) spec p ∅.

(** [ActionGraphBuilder::locate_dependencies_root] *)
Definition locate_dependencies_root (spec : ToolchainSpec) (p : option Project) :
  result (option DependenciesWorkspace) :=
  let? _ := plugin_load (spec_id spec) in
  if negb (supports_tier_2 (spec_id spec)) then Ok None
  else plugin_locate_dependencies_root (spec_id spec) p.

(** [ActionGraphBuilder::internal_setup_environment] *)
Definition internal_setup_environment (spec : ToolchainSpec) (root : WorkspaceRelativePath)
    (p : option Project) (cycle : gset Id) : build_m (option nat) :=
  if negb (PipelineActionSwitch_is_enabled (opt_setup_environment (e_options E)) (spec_id spec))
     || ToolchainSpec_is_system spec || bool_decide (spec_id spec ∈ cycle)
  then mret None
  else
    lift (plugin_load (spec_id spec));;
    let cycle := {[spec_id spec]} ∪ cycle in
    output ← lift (define_requirements (spec_id spec) p);
    edges ← (if req_for_setup_environment output
             then setup_requirements spec p cycle
                    (λ require_spec, setup_toolchain require_spec p) (req_requires output)
             else mret []);
    if negb (has_func (spec_id spec) "setup_environment") && bool_decide (edges = [])
    then mret None
    else
      sync_workspace_index ← sync_workspace;
      setup_toolchain_index ← setup_toolchain spec p;
      '(index, fresh) ← insert_node_if_missing
            (SetupEnvironment (mkSetupEnvironment (p_id <$> p) root (spec_id spec)));
      if negb fresh then mret (Some index) else
      link_optional_requirements index (edges ++ [sync_workspace_index; setup_toolchain_index]);;
      mret (Some index).

(** [ActionGraphBuilder::setup_environment] *)
Definition setup_environment (spec : ToolchainSpec) (root : WorkspaceRelativePath) (p : Project) :
  build_m (option nat) :=
  internal_setup_environment spec root (Some p) ∅.

(** [ActionGraphBuilder::setup_environment_root] *)
Definition setup_environment_root (spec : ToolchainSpec) : build_m (option nat) :=
  if negb (PipelineActionSwitch_is_enabled (opt_setup_environment (e_options E)) (spec_id spec))
     || ToolchainSpec_is_system spec
  then mret None
  else
    o ← lift (locate_dependencies_root spec None);
    match o with
    | Some w =>
        if decide (dw_root w = e_workspace_root E)
        then internal_setup_environment spec "" None ∅
        else mret None
    | None => mret None
    end.

(** ** Dependencies *)

(** The first lines of [internal_install_dependencies] and
    [install_dependencies_root]. *)
Definition install_disabled (spec : ToolchainSpec) : bool :=
  ToolchainSpec_is_system spec
  || negb (PipelineActionSwitch_is_enabled (opt_install_dependencies (e_options E)) (spec_id spec))
  || match ToolchainsConfig_get_plugin_config (e_toolchains_config E) (spec_id spec) with
     | Some config => negb (tc_install_dependencies config)
     | None => false
     end.

(** What is done once a root has been located, and the project has a role in it;
    [None] is to fall through to [setup_toolchain_index]. *)
Definition install_in_workspace (spec : ToolchainSpec) (p : option Project)
    (w : DependenciesWorkspace) (role : DependenciesWorkspaceRole)
    (sync_workspace_index setup_toolchain_index : option nat) : build_m (option nat) :=
  root ← lift (relative_to (dw_root w) (e_workspace_root E));
  let project_id := match role with PackageRoot => p_id <$> p | _ => None end in
  setup_env_index ← internal_setup_environment spec root
    (match project_id with Some _ => p | None => None end) ∅;
  if has_func (spec_id spec) "install_dependencies" then
    '(index, fresh) ← insert_node_if_missing
          (InstallDependencies (mkInstallDependencies (dw_members w) project_id root (spec_id spec)));
    link_first_requirement index [setup_env_index; setup_toolchain_index; sync_workspace_index];;
    mret (Some index)
  else
    match setup_env_index with
    | Some index =>
        link_first_requirement index [setup_toolchain_index; sync_workspace_index];;
        mret (Some index)
    | None => mret None
    end.

(** [ActionGraphBuilder::internal_install_dependencies] *)
Definition internal_install_dependencies (spec : ToolchainSpec) (p : option Project) :
  build_m (option nat) :=
  if install_disabled spec then mret None else
  sync_workspace_index ← sync_workspace;
  setup_toolchain_index ← setup_toolchain spec p;
  lift (plugin_load (spec_id spec));;
  if negb (supports_tier_2 (spec_id spec)) then mret setup_toolchain_index else
  let target_root := match p with Some p => p_root p | None => e_workspace_root E end in
  o ← lift (locate_dependencies_root spec p);
  match o with
  | Some w =>
      role ← lift (in_dependencies_workspace w target_root);
      match role with
      | Some role =>
          index ← install_in_workspace spec p w role sync_workspace_index setup_toolchain_index;
          match index with
          | Some index => mret (Some index)
          | None => mret setup_toolchain_index
          end
      | None => mret setup_toolchain_index
      end
  | None => mret setup_toolchain_index
  end.

(** [install_dependencies], [install_dependencies_by_toolchains],
    [install_dependencies_by_project] *)
Definition install_dependencies (spec : ToolchainSpec) (p : Project) : build_m (option nat) :=
  internal_install_dependencies spec (Some p).

Fixpoint install_dependencies_by_toolchains (p : Project) (toolchains : list Id) :
  build_m (list (option nat)) :=
  match toolchains with
  | [] => mret []
  | toolchain_id :: toolchains' =>
      match get_project_spec toolchain_id p with
      | Some spec =>
          index ← install_dependencies spec p;
          indexes ← install_dependencies_by_toolchains p toolchains';
          mret (index :: indexes)
      | None => install_dependencies_by_toolchains p toolchains'
      end
  end.

Definition install_dependencies_by_project (p : Project) : build_m (list (option nat)) :=
  install_dependencies_by_toolchains p (p_toolchains p).

(** [ActionGraphBuilder::install_dependencies_root] *)
Definition install_dependencies_root (spec : ToolchainSpec) : build_m (option nat) :=
  if install_disabled spec then mret None else
  o ← lift (locate_dependencies_root spec None);
  match o with
  | Some w =>
      if decide (dw_root w = e_workspace_root E)
      then internal_install_dependencies spec None
      else mret None
  | None => mret None
  end.

(** ** Projects *)

(** The loop over the dependencies of a project; [sync] syncs one. *)
Fixpoint sync_dependencies (sync : Project → build_m (option nat)) (index : nat)
    (cycle : gset Id) (ids : list Id) : build_m (list nat) :=
  match ids with
  | [] => mret []
  | dep_project_id :: ids' =>
      if decide (dep_project_id ∈ cycle) then sync_dependencies sync index cycle ids'
      else
        dep_project ← lift (get_project W dep_project_id);
        o ← sync dep_project;
        edges ← sync_dependencies sync index cycle ids';
        mret (match o with
              | Some dep_project_index =>
                  if decide (index = dep_project_index) then edges else dep_project_index :: edges
              | None => edges
              end)
  end.

(** [ActionGraphBuilder::internal_sync_project].  A project that is in [cycle] is
    not entered again, so the recursion is no deeper than there are projects. *)
Fixpoint internal_sync_project (fuel : nat) (p : Project) (reqs : RunRequirements)
    (cycle : gset Id) : build_m (option nat) :=
  match fuel with
  | 0 => λ _, OutOfFuel
  | S fuel' =>
      if negb (PipelineActionSwitch_is_enabled (opt_sync_projects (e_options E)) (p_id p))
         || bool_decide (p_id p ∈ cycle)
      then mret None
      else
        affected ← builder_is_project_affected p reqs;
        if negb affected then mret None else
        let cycle := {[p_id p]} ∪ cycle in
        sync_workspace_index ← sync_workspace;
        '(index, fresh) ← insert_node_if_missing (SyncProject (p_id p));
        if negb fresh then mret (Some index) else
        edges ← (if opt_sync_project_dependencies (e_options E)
                 then sync_dependencies
                        (λ dep_project, internal_sync_project fuel' dep_project reqs cycle)
                        index cycle (project_dependencies_of (e_graph E) p)
                 else mret []);
        link_requirements index
          (match sync_workspace_index with Some i => i :: edges | None => edges end);;
        mret (Some index)
  end.

(** [ActionGraphBuilder::sync_project] *)
Definition sync_project (p : Project) (reqs : RunRequirements) : build_m (option nat) :=
  internal_sync_project (S (project_fuel W)) p reqs ∅.

(** ** Resolving targets *)

(** The tasks of one project, for the second half of
    [internal_resolve_tasks_from_target]. *)
Definition project_tasks (p : Project) (scope : TargetTaskScope) (scope_value : string)
    (bubble_error : bool) : result (list Task) :=
  match scope with
  | TId =>
      match get_task_from_project (e_graph E) (p_id p) scope_value with
      | Ok task => Ok [task]
      | Err error => if bubble_error then Err error else Ok []
      | OutOfFuel => OutOfFuel
      end
  | TTag =>
      let? tasks := get_tasks_from_project (e_graph E) (p_id p) in
      Ok (List.filter (λ task, bool_decide (scope_value ∈ t_tags task)) tasks)
  end.

(** The loop over the tasks of a project. *)
Fixpoint visible_tasks (p : Project) (allow_internal bubble_error : bool) (tasks : list Task) :
  result (list Task) :=
  match tasks with
  | [] => Ok []
  | task :: tasks' =>
      if negb allow_internal && is_internal task then
        if bubble_error then Err (RProject (UnknownTask (t_id task) (p_id p)))
        else visible_tasks p allow_internal bubble_error tasks'
      else
        let? rest := visible_tasks p allow_internal bubble_error tasks' in
        Ok (task :: rest)
  end.

(** [ActionGraphBuilder::internal_resolve_tasks_from_target] *)
Definition resolve_tasks_from_target (all_query : option string) (target : Target)
    (allow_internal : bool) : result (list Task) :=
  let '(scope, scope_value) := get_project_scope target in
  let? ' (projects, bubble_error) :=
    match scope with
    | All =>
        let? projects := match all_query with
                         | Some query => query_projects (e_graph E) query
                         | None => get_projects W
                         end in
        Ok (projects, false)
    | PId => let? p := get_project W scope_value in Ok ([p], true)
    | PTag =>
        let? projects := query_projects (e_graph E) (String.append "projectTag=" scope_value) in
        Ok (projects, false)
    | Deps | DepsOf _ => Err (RTarget NoDepsInRunContext)
    | OwnSelf => Err (RTarget NoSelfInRunContext)
    end in
  let '(scope, scope_value) := get_task_scope target in
  ofold (λ tasks p,
    let? found := project_tasks p scope scope_value bubble_error in
    let? visible := visible_tasks p allow_internal bubble_error found in
    Ok (tasks ++ visible)) [] projects.

(** [tag_query~glob] for a glob that starts with [#], and [query~glob] otherwise *)
Definition glob_query (tag_query query glob : string) : string :=
  match strip_prefix "#" glob with
  | Some tag_glob => String.append tag_query (String.append "~" tag_glob)
  | None => String.append query (String.append "~" glob)
  end.

(** The [TargetLocator::GlobMatch] branch of
    [internal_resolve_tasks_from_target_locator]. *)
Definition resolve_tasks_from_globs (scope : option TargetProjectScope)
    (project_glob : option string) (task_glob : string) (allow_internal : bool) :
  result (list Task) :=
  let? restriction :=
    match project_glob with
    | Some glob =>
        let? projects := query_projects (e_graph E) (glob_query "projectTag" "project" glob) in
        Ok (match projects with
            | [] => None
            | _ => Some (String.append "project=["
                           (String.append (str_join "," (p_id <$> projects)) "] && "))
            end)
    | None => Ok (match scope with Some All => Some ""%string | _ => None end)
    end in
  match restriction with
  | Some restriction =>
      let? tasks := query_tasks (e_graph E)
                      (String.append restriction (glob_query "taskTag" "task" task_glob)) in
      Ok (List.filter (λ task, allow_internal || negb (is_internal task)) tasks)
  | None => Ok []
  end.

(** [ActionGraphBuilder::internal_resolve_tasks_from_target_locator] *)
Definition resolve_tasks_from_target_locator (all_query : option string)
    (locator : TargetLocator) (allow_internal : bool) : result (list Task) :=
  match locator with
  | GlobMatch _ scope project_glob task_glob =>
      resolve_tasks_from_globs scope project_glob task_glob allow_internal
  | Qualified target =>
      let? target :=
        match project target with
        | OwnSelf =>
            let? p := get_project_from_path (e_graph E) in
            let? task_id := get_task_id target in
            Target_new (p_id p) task_id
        | _ => Ok target
        end in
      resolve_tasks_from_target all_query target allow_internal
  | DefaultProject task_id =>
      let? p := map_err (λ _, RProjectGraph (NoDefaultProjectForTask task_id))
                  (get_default_project (e_graph E)) in
      let? target := Target_new (p_id p) task_id in
      resolve_tasks_from_target all_query target allow_internal
  end.

(** The two methods, on the builder. *)
Definition internal_resolve_tasks_from_target (target : Target) (allow_internal : bool) :
  build_m (list Task) :=
  b ← get; lift (resolve_tasks_from_target (b_all_query b) target allow_internal).

Definition internal_resolve_tasks_from_target_locator (locator : TargetLocator)
    (allow_internal : bool) : build_m (list Task) :=
  b ← get; lift (resolve_tasks_from_target_locator (b_all_query b) locator allow_internal).

(** ** Tasks *)

(** How one task is inserted: [internal_run_task], for the loops below. *)
Definition run_one_task : Type :=
  Task → RunRequirements → option TaskDependencyConfig → RunTaskState → build_m (option nat).

(** The inner loop of [run_task_dependencies]. *)
Fixpoint run_dependency_tasks (run : run_one_task) (parallel : bool) (reqs : RunRequirements)
    (state : RunTaskState) (dep : TaskDependencyConfig) (tasks : list Task)
    (acc : list (option nat) * option nat) : build_m (list (option nat) * option nat) :=
  match tasks with
  | [] => mret acc
  | dep_task :: tasks' =>
      o ← run dep_task reqs (Some dep) (mkRunTaskState (rs_depth state) true);
      match o with
      | Some dep_index =>
          match parallel, acc.2 with
          | false, Some previous => link_serial_requirements dep_index previous
          | _, _ => mret tt
          end;;
          run_dependency_tasks run parallel reqs state dep tasks'
            (acc.1 ++ [Some dep_index], Some dep_index)
      | None => run_dependency_tasks run parallel reqs state dep tasks' acc
      end
  end.

(** The outer loop of [run_task_dependencies]. *)
Fixpoint run_dependencies (run : run_one_task) (parallel : bool) (reqs : RunRequirements)
    (state : RunTaskState) (deps : list TaskDependencyConfig)
    (acc : list (option nat) * option nat) : build_m (list (option nat)) :=
  match deps with
  | [] => mret acc.1
  | dep :: deps' =>
      tasks ← internal_resolve_tasks_from_target (dep_target dep) true;
      acc ← run_dependency_tasks run parallel reqs state dep tasks acc;
      run_dependencies run parallel reqs state deps' acc
  end.

(** [ActionGraphBuilder::run_task_dependencies] *)
Definition run_task_dependencies (run : run_one_task) (task : Task) (reqs : RunRequirements)
    (state : RunTaskState) : build_m (list (option nat)) :=
  run_dependencies run (o_run_deps_in_parallel (t_options task)) reqs state (t_deps task) ([], None).

(** [ActionGraphBuilder::run_task_dependents]; no caller uses its result. *)
Definition run_task_dependents (run : run_one_task) (task : Task) (reqs : RunRequirements)
    (state : RunTaskState) : build_m unit :=
  for_each (λ dep_target,
    tasks ← internal_resolve_tasks_from_target dep_target true;
    for_each (λ dep_task,
      run dep_task reqs None (mkRunTaskState (rs_depth state) false);; mret tt) tasks)
    (task_dependents_of W task).

(** The node of a task. *)
Definition run_task_node (task : Task) (reqs : RunRequirements)
    (config : option TaskDependencyConfig) : ActionNode :=
  ActionNode_run_task
    (mkRunTask (from_option dep_args [] config) (from_option dep_env [] config)
       (is_interactive task || rr_interactive reqs) (is_persistent task)
       (get_level (o_priority (t_options task))) (t_target task) None).

(** [self.passthrough_targets.insert(target)] *)
Definition insert_passthrough (target : Target) : build_m unit :=
  b ← get;
  put (b_set_targets b (b_ignored_dependencies b) (b_ignored_dependents b)
         ({[target]} ∪ b_passthrough_targets b) (b_primary_targets b)).

(** [if cond { self.ignored_dependencies.remove(target).is_some() } else { false }],
    and the same for the dependents *)
Definition remove_ignored_dependencies (cond : bool) (target : Target) : build_m bool :=
  if negb cond then mret false else
  b ← get;
  put (b_set_targets b (delete target (b_ignored_dependencies b)) (b_ignored_dependents b)
         (b_passthrough_targets b) (b_primary_targets b));;
  mret (bool_decide (is_Some (b_ignored_dependencies b !! target))).

Definition remove_ignored_dependents (cond : bool) (target : Target) : build_m bool :=
  if negb cond then mret false else
  b ← get;
  put (b_set_targets b (b_ignored_dependencies b) (b_ignored_dependents b ∖ {[target]})
         (b_passthrough_targets b) (b_primary_targets b));;
  mret (bool_decide (target ∈ b_ignored_dependents b)).

(** [self.ignored_dependencies.insert(..)], [self.ignored_dependents.insert(..)] *)
Definition insert_ignored_dependencies (task : Task) : build_m unit :=
  b ← get;
  put (b_set_targets b
         (<[t_target task := list_to_set (dep_target <$> t_deps task)]> (b_ignored_dependencies b))
         (b_ignored_dependents b) (b_passthrough_targets b) (b_primary_targets b)).

Definition insert_ignored_dependents (target : Target) : build_m unit :=
  b ← get;
  put (b_set_targets b (b_ignored_dependencies b) ({[target]} ∪ b_ignored_dependents b)
         (b_passthrough_targets b) (b_primary_targets b)).

(** The initial edges of a task: its project, its toolchains, or at least the
    workspace. *)
Definition initial_edges (p : Project) (task : Task) (reqs : RunRequirements) :
  build_m (list (option nat)) :=
  edge ← sync_project p reqs;
  installs ← install_dependencies_by_toolchains p (t_toolchains task);
  let edges := edge :: installs in
  if forallb (λ e, match e with None => true | Some _ => false end) edges
  then index ← sync_workspace; mret (edges ++ [index])
  else mret edges.

(** [internal_run_task] once the node exists. *)
Definition revisit_task (run : run_one_task) (task : Task) (reqs : RunRequirements)
    (state : RunTaskState) (had_dependencies had_dependents : bool) (index : nat) :
  build_m (option nat) :=
  (if had_dependencies && negb (bool_decide (length (t_deps task) = 0))
   then edges ← run_task_dependencies run task (rr_set_skip_affected reqs true) state;
        link_optional_requirements index edges
   else mret tt);;
  (if had_dependents
   then run_task_dependents run task (rr_set_skip_affected reqs false) state
   else mret tt);;
  mret (Some index).

(** [internal_run_task] when the node is new. *)
Definition insert_task (run : run_one_task) (p : Project) (task : Task) (reqs : RunRequirements)
    (state : RunTaskState) (run_deps run_dependents : bool) (node : ActionNode) :
  build_m (option nat) :=
  edges ← initial_edges p task reqs;
  index ← insert_node node;
  more ← (if bool_decide (length (t_deps task) = 0) then mret []
          else if run_deps
          then run_task_dependencies run task (rr_set_skip_affected reqs true) state
          else insert_ignored_dependencies task;; mret []);
  link_optional_requirements index (edges ++ more);;
  (if run_dependents
   then run_task_dependents run task (rr_set_skip_affected reqs false) state
   else insert_ignored_dependents (t_target task));;
  mret (Some index).

(** [ActionGraphBuilder::internal_run_task] *)
Fixpoint internal_run_task (fuel : nat) (task : Task) (reqs : RunRequirements)
    (config : option TaskDependencyConfig) (state : RunTaskState) : build_m (option nat) :=
  match fuel with
  | 0 => λ _, OutOfFuel
  | S fuel' =>
      let run := internal_run_task fuel' in
      project_id ← lift (get_project_id (t_target task));
      p ← lift (get_project W project_id);
      affected ← builder_is_task_affected task reqs;
      if negb affected then mret None else
      b ← get;
      if decide (t_target task ∈ b_passthrough_targets b) then mret None else
      let run_deps := UpstreamScope_is_in_scope (rr_dependencies reqs) (rs_depth state) in
      let run_dependents := negb (rs_via_dependency state) &&
        DownstreamScope_is_in_scope (rr_dependents reqs) (rs_depth state) in
      let state := mkRunTaskState (as_u8 (rs_depth state + 1)) (rs_via_dependency state) in
      if rr_ci_check reqs && negb (should_run task (rr_ci reqs)) then
        insert_passthrough (t_target task);;
        (if run_dependents
         then run_task_dependents run task (rr_set_skip_affected reqs false) state
         else mret tt);;
        mret None
      else
        let node := run_task_node task reqs config in
        had_dependencies ← remove_ignored_dependencies run_deps (t_target task);
        had_dependents ← remove_ignored_dependents run_dependents (t_target task);
        o ← get_index_from_node node;
        match o with
        | Some index => revisit_task run task reqs state had_dependencies had_dependents index
        | None => insert_task run p task reqs state run_deps run_dependents node
        end
  end.

(** [ActionGraphBuilder::run_task] *)
Definition run_task (fuel : nat) (task : Task) (reqs : RunRequirements) : build_m (option nat) :=
  o ← internal_run_task fuel task reqs None RunTaskState_default;
  match o with
  | Some index =>
      b ← get;
      put (b_set_targets b (b_ignored_dependencies b) (b_ignored_dependents b)
             (b_passthrough_targets b) ({[t_target task]} ∪ b_primary_targets b));;
      mret (Some index)
  | None => mret None
  end.

(** [run_task_with_config], of debug builds *)
Definition run_task_with_config (fuel : nat) (task : Task) (reqs : RunRequirements)
    (config : TaskDependencyConfig) : build_m (option nat) :=
  internal_run_task fuel task reqs (Some config) RunTaskState_default.

(** The loops over the resolved tasks, with the indexes that were inserted and
    the targets they are for. *)
Fixpoint run_all (fuel : nat) (reqs : RunRequirements) (tasks : list Task)
    (targets : gmap nat Target) : build_m (gmap nat Target) :=
  match tasks with
  | [] => mret targets
  | task :: tasks' =>
      o ← run_task fuel task reqs;
      run_all fuel reqs tasks'
        (match o with Some index => <[index := t_target task]> targets | None => targets end)
  end.

(** [run_task_by_target], [run_task_by_target_locator] *)
Definition run_task_by_target (fuel : nat) (target : Target) (reqs : RunRequirements) :
  build_m (gset nat) :=
  tasks ← internal_resolve_tasks_from_target target false;
  targets ← run_all fuel reqs tasks ∅;
  mret (dom targets).

Definition run_task_by_target_locator (fuel : nat) (locator : TargetLocator)
    (reqs : RunRequirements) : build_m (gset nat) :=
  tasks ← internal_resolve_tasks_from_target_locator locator false;
  targets ← run_all fuel reqs tasks ∅;
  mret (dom targets).

(** The affected tracking at the start of [run_tasks]. *)
Definition track_requested (tasks : list Task) (reqs : RunRequirements) : build_m unit :=
  b ← get;
  match b_affected b, rr_skip_affected reqs with
  | Some affected, false =>
      affected ← lift
        (if rr_include_relations reqs then
           if e_async_affected_tracking E
           then track_tasks_async (e_concurrency E) (e_sched E) affected
           else track_tasks affected
         else if e_async_affected_tracking E
         then track_tasks_by_instance_async (e_concurrency E) (e_sched E) affected tasks
         else track_tasks_by_instance affected tasks);
      put (b_set_affected b (Some affected))
  | _, _ => mret tt
  end.

(** [self.is_task_affected(task, reqs)?] as a filter *)
Fixpoint affected_tasks (reqs : RunRequirements) (tasks : list Task) : build_m (list Task) :=
  match tasks with
  | [] => mret []
  | task :: tasks' =>
      affected ← builder_is_task_affected task reqs;
      rest ← affected_tasks reqs tasks';
      mret (if negb affected then rest else task :: rest)
  end.
End Actions.

(** The share of a list that job [job_index] of [job_total] takes, and the size
    of the shares. *)
Definition partition_tasks {A} (job_index job_total : nat) (tasks : list A) : list A * nat :=
  let size := length tasks / job_total + (if length tasks mod job_total =? 0 then 0 else 1) in
  let '(start, stop) :=
    if job_index =? 0 then (0, size)
    else if job_index =? job_total - 1 then (size * job_index, length tasks)
    else (size * job_index, size * (job_index + 1)) in
  (if start <? length tasks then
     if stop <? length tasks then take (stop - start) (drop start tasks)
     else drop start tasks
   else tasks, size).

Section RunTasks.
Context `{D : DagOps ActionNode TaskDependencyType, H : Host, P : Plugins, I : IdSyntax,
  X : FxHasher}.
Variable E : BuilderEnv.

(** The loop over the locators of [run_tasks]. *)
Fixpoint resolve_locators (locators : list TargetLocator) : build_m (list Task) :=
  match locators with
  | [] => mret []
  | locator :: locators' =>
      tasks ← internal_resolve_tasks_from_target_locator E locator false;
      rest ← resolve_locators locators';
      mret (tasks ++ rest)
  end.

(** The tasks of the job, if there is one, and the size of its partition. *)
Definition job_tasks (reqs : RunRequirements) (tasks : list Task) :
  build_m (list Task * option nat) :=
  match rr_job reqs, rr_job_total reqs with
  | Some job_index, Some job_total =>
      if negb (0 <? job_total) then mret (tasks, None)
      else if job_total - 1 <? job_index
      then lift (Err (RActionGraph (InvalidJobIndex job_index job_total)))
      else
        tasks ← (if rr_skip_affected reqs then mret tasks else affected_tasks reqs tasks);
        let '(tasks, size) := partition_tasks job_index job_total tasks in
        mret (tasks, Some size)
  | _, _ => mret (tasks, None)
  end.

(** [ActionGraphBuilder::run_tasks] *)
Definition run_tasks (fuel : nat) (locators : list TargetLocator) (reqs : RunRequirements) :
  build_m RunPartition :=
  tasks ← resolve_locators locators;
  track_requested E tasks reqs;;
  '(tasks, size) ← job_tasks reqs tasks;
  targets ← run_all E fuel reqs tasks ∅;
  mret (mkRunPartition targets size).

(** [ActionGraphBuilder::run_tasks_with_plan]; the plan is its targets. *)
Definition run_tasks_with_plan (fuel : nat) (targets : TargetsBlock) (reqs : RunRequirements) :
  build_m RunPartition :=
  match targets with
  | Partitioned jobs =>
      match rr_job reqs, rr_job_total reqs with
      | Some job_index, Some job_total =>
          if negb (0 <? job_total) then lift (Err (RActionGraph InvalidPlanJobs))
          else if job_total - 1 <? job_index
          then lift (Err (RActionGraph (InvalidJobIndex job_index job_total)))
          else if negb (length jobs =? job_total)
          then lift (Err (RActionGraph (MismatchedPlanJobTotals (length jobs) job_total)))
          else
            let targets := default [] (jobs !! job_index) in
            partition ← run_tasks fuel targets (rr_reset_jobs reqs);
            mret (mkRunPartition (rp_targets partition) (Some (length targets)))
      | _, _ => lift (Err (RActionGraph InvalidPlanJobs))
      end
  | Filtered include => run_tasks fuel include reqs
  | Included targets => run_tasks fuel targets reqs
  end.
End RunTasks.

(** ** The finished graph *)

(** The calls of the graph library that [build] makes: the transitive reduction
    from some roots, and the copy of a graph with its indexes as weights. *)
Class DagBuild (D : DagOps ActionNode TaskDependencyType) (N : DagOps nat TaskDependencyType) :
  Type := {
  transitive_reduce : Dag (DagOps := D) → list nat → Dag (DagOps := D);
  map_indexes : Dag (DagOps := D) → Dag (DagOps := N);
}.

Section Build.
Context `{D : DagOps ActionNode TaskDependencyType, N : DagOps nat TaskDependencyType,
  DB : !DagBuild D N}.

(** [nodes.insert(ni, node.clone())], for every node of the graph *)
Definition graph_nodes (g : Dag (DagOps := D)) : gmap nat ActionNode :=
  list_to_map (omap (λ i, pair i <$> dag_node_weight g i) (seq 0 (dag_node_count g))).

(** The action context that [build] makes. *)
Definition build_context (b : ActionGraphBuilder) : ActionContext :=
  let context := mkActionContext (AffectedTracker_build <$> b_affected b) [] ∅
    (b_ignored_dependencies b) [] (b_primary_targets b) ∅
    (default [] (b_changed_files b)) in
  fold_left (λ context target, set_target_state context target TPassthrough)
    (elements (b_passthrough_targets b)) context.

(** [ActionGraphBuilder::build] *)
Definition ActionGraphBuilder_build (b : ActionGraphBuilder) : ActionContext * ActionGraph :=
  let g := match b_nodes b !! SyncWorkspace with
           | Some index => transitive_reduce (b_graph b) [index]
           | None => b_graph b
           end in
  (build_context b, mkActionGraph N (map_indexes g) (graph_nodes g)).
End Build.
