(* ===== verification/BuilderFacts.v ===== *)
(** * Properties of the action graph builder

Every method of the builder keeps a graph without cycles and without two nodes
for the same action, and only ever adds to it; and the tasks it inserts are
linked to what they depend on. *)

From S2P Require Import Prelude Errors PooledTasks Target GraphUtils Config Affected.
From S2P Require Import ActionContext Action Dag Dispatcher ActionGraphBuilder.

Lemma tc_first {A} (R : relation A) x y : tc R x y → ∃ z, R x z.
Proof. destruct 1; eauto. Qed.

(** The nodes and edges of a builder's graph. *)
Abbreviation nodes_of b := (dag_nodes (b_graph b)).
Abbreviation edges_of b := (dag_edges (b_graph b)).

Section Ok.
Context `{D : DagOps ActionNode TaskDependencyType, L : !DagLaws D}.
Implicit Types (b : ActionGraphBuilder).

(** ** The invariant *)

Record builder_ok b : Prop := {
  ok_wf : dag_wf (b_graph b);
  ok_acyclic : acyclic (edge_of (edges_of b));
  (** the map of nodes is the inverse of the graph's list of nodes *)
  ok_nodes : ∀ node i, b_nodes b !! node = Some i ↔ nodes_of b !! i = Some node;
}.

Lemma builder_ok_NoDup b : builder_ok b → NoDup (nodes_of b).
Proof.
  intros Hok. apply NoDup_alt. intros i j node Hi Hj.
  apply (ok_nodes _ Hok) in Hi, Hj. congruence.
Qed.

Lemma builder_ok_new : builder_ok ActionGraphBuilder_new.
Proof.
  constructor; cbn.
  - apply dag_new_wf.
  - rewrite dag_new_edges. intros x (y & e & He)%tc_first.
    by apply not_elem_of_nil in He.
  - intros node i. by rewrite dag_new_nodes, lookup_empty, lookup_nil.
Qed.

(** ** What the methods do to a builder *)

(** The graph only grows, and so do the targets that are passed through; affected
    tracking is neither started nor stopped. *)
Record grows b b' : Prop := {
  grows_nodes : nodes_of b `prefix_of` nodes_of b';
  grows_edges : edges_of b `prefix_of` edges_of b';
  grows_passthrough : b_passthrough_targets b ⊆ b_passthrough_targets b';
  grows_query : b_all_query b' = b_all_query b;
  grows_affected : b_affected b' = None ↔ b_affected b = None;
}.

#[global] Instance grows_preorder : PreOrder grows.
Proof.
  split.
  - intros b. by constructor.
  - intros b1 b2 b3 [] []. constructor; [by etrans..|set_solver|congruence|by etrans].
Qed.

(** Nodes that are not of tasks may be added. *)
Definition is_run_task (node : ActionNode) : Prop := ∃ inner, node = RunTask inner.

(** What was not run of tasks, and which are passed through. *)
Definition same_ignored b b' : Prop :=
  b_ignored_dependencies b' = b_ignored_dependencies b ∧
  b_ignored_dependents b' = b_ignored_dependents b ∧
  b_passthrough_targets b' = b_passthrough_targets b.

#[global] Instance same_ignored_preorder : PreOrder same_ignored.
Proof. split; [by intros b|]. intros b1 b2 b3 (? & ? & ?) (? & ? & ?). split_and!; congruence. Qed.

Definition adds_no_task b b' : Prop :=
  grows b b' ∧ (∀ i node, length (nodes_of b) ≤ i → nodes_of b' !! i = Some node →
    ¬ is_run_task node) ∧ same_ignored b b'.

#[global] Instance adds_no_task_preorder : PreOrder adds_no_task.
Proof.
  split.
  - intros b. split; [done|]. split; [|done]. intros i node Hi Hn. apply lookup_lt_Some in Hn. lia.
  - intros b1 b2 b3 [H12 [N12 S12]] [H23 [N23 S23]]. split; [by etrans|]. split; [|by etrans].
    intros i node Hi Hn.
    destruct (decide (i < length (nodes_of b2))) as [Hlt|Hge]; [|apply (N23 i); [lia|done]].
    apply N12 with i; [done|]. apply lookup_lt_is_Some in Hlt as [node' Hn'].
    pose proof (prefix_lookup_Some _ _ _ _ Hn' (grows_nodes _ _ H23)). congruence.
Qed.

(** If a call returns, the invariant holds, [R] relates the builder to what it
    was, and [Q] holds of the result. *)
Definition post {A} (R : relation ActionGraphBuilder) b (r : result (A * ActionGraphBuilder))
    (Q : A → ActionGraphBuilder → Prop) : Prop :=
  ∀ a b', r = Ok (a, b') → builder_ok b' ∧ R b b' ∧ Q a b'.

Lemma post_bind {A B} R `{!Transitive R} b (m : build_m A) (f : A → build_m B) Q1 Q :
  post R b (m b) Q1 →
  (∀ a b1, builder_ok b1 → R b b1 → Q1 a b1 → post R b1 (f a b1) Q) →
  post R b ((m ≫= f) b) Q.
Proof.
  intros Hm Hf a b' Hb. unfold mbind, build_m_bind in Hb.
  destruct (m b) as [[a1 b1]|e|] eqn:Hm1; cbn in Hb; [|done..].
  destruct (Hm a1 b1 eq_refl) as (Hok & HR & HQ).
  destruct (Hf a1 b1 Hok HR HQ a b' Hb) as (? & ? & ?). split_and!; [done|by etrans|done].
Qed.

Lemma post_weaken {A} (R R' : relation ActionGraphBuilder) b (r : result (A * _)) Q Q' :
  post R b r Q → (∀ b', R b b' → R' b b') →
  (∀ a b', builder_ok b' → R b b' → Q a b' → Q' a b') → post R' b r Q'.
Proof. intros Hp HR HQ a b' Hb. destruct (Hp a b' Hb) as (? & ? & ?). auto. Qed.

Lemma post_ret {A} R `{!Reflexive R} b (a : A) (Q : A → ActionGraphBuilder → Prop) :
  builder_ok b → Q a b → post R b (mret (M := build_m) a b) Q.
Proof. intros Hok HQ a' b' [= <- <-]. done. Qed.

Lemma post_lift {A} R `{!Reflexive R} b (r : result A) (Q : A → ActionGraphBuilder → Prop) :
  builder_ok b → (∀ a, r = Ok a → Q a b) → post R b (lift r b) Q.
Proof.
  intros Hok HQ a b' Hr. unfold lift in Hr. destruct r; cbn in Hr; simplify_eq. auto.
Qed.

Lemma post_get R `{!Reflexive R} b (Q : ActionGraphBuilder → ActionGraphBuilder → Prop) :
  builder_ok b → Q b b → post R b (get b) Q.
Proof. intros Hok HQ a' b' [= <- <-]. done. Qed.

Lemma post_put R b b' (Q : unit → ActionGraphBuilder → Prop) :
  builder_ok b' → R b b' → Q tt b' → post R b (put b' b) Q.
Proof. intros Hok HR HQ a' b'' [= <- <-]. done. Qed.

Lemma post_for_each {A} R `{!PreOrder R} (f : A → build_m unit) l b
    (Inv : ActionGraphBuilder → Prop) :
  builder_ok b → Inv b →
  (∀ x b, builder_ok b → Inv b → x ∈ l → post R b (f x b) (λ _ b', Inv b')) →
  post R b (for_each f l b) (λ _ b', Inv b').
Proof.
  intros Hok Hinv Hf. revert b Hok Hinv. induction l as [|x l IH]; intros b Hok Hinv; cbn.
  - by apply post_ret; [apply _|..].
  - eapply post_bind; [apply _|apply Hf; [done|done|by left]|].
    intros [] b1 Hok1 _ Hinv1. apply IH; [|done..]. intros y b2 ? ? ?. apply Hf; [done|done|by right].
Qed.

(** ** Nodes and edges *)

(** An index of the graph, or none. *)
Definition in_range b (i : nat) : Prop := i < length (nodes_of b).
Definition opt_in_range (o : option nat) b : Prop := ∀ i, o = Some i → in_range b i.

Lemma in_range_grows b b' i : grows b b' → in_range b i → in_range b' i.
Proof. intros Hg Hi. unfold in_range in *. pose proof (prefix_length _ _ (grows_nodes _ _ Hg)). lia. Qed.

Lemma opt_in_range_grows b b' o : grows b b' → opt_in_range o b → opt_in_range o b'.
Proof. intros Hg Ho i Hi. eauto using in_range_grows. Qed.

Lemma insert_node_spec node b i b' :
  builder_ok b → b_nodes b !! node = None → insert_node node b = Ok (i, b') →
  builder_ok b' ∧ grows b b' ∧ i = length (nodes_of b) ∧
  nodes_of b' = nodes_of b ++ [node] ∧ edges_of b' = edges_of b.
Proof.
  intros [Hwf Hac Hnodes] Hnone Hb. unfold insert_node, mbind, build_m_bind, get in Hb. cbn in Hb.
  destruct (dag_add_node (b_graph b) node) as [j g] eqn:Hadd.
  injection Hb as <- <-.
  destruct (dag_add_node_law _ _ _ _ Hwf Hadd) as (Hwf' & -> & Hn & He).
  cbn. split_and!; [constructor; cbn|constructor; cbn|..]; try done.
  - by rewrite He.
  - intros node' i. rewrite Hn. destruct (decide (node' = node)) as [->|Hne].
    + rewrite lookup_insert_eq. split.
      * intros [= <-]. by rewrite list_lookup_middle.
      * intros [[_ Hi]|[-> _]]%lookup_snoc_Some; [|done].
        apply Hnodes in Hi. congruence.
    + rewrite lookup_insert_ne by done. rewrite Hnodes, lookup_snoc_Some.
      split; [intros Hi; left; split; [by eapply lookup_lt_Some|done]|].
      intros [[_ ?]|[_ ?]]; [done|congruence].
  - rewrite Hn. by apply prefix_app_r.
  - by rewrite He.
Qed.
Lemma insert_node_if_missing_post node b :
  builder_ok b → ¬ is_run_task node →
  post adds_no_task b (insert_node_if_missing node b) (λ r b', nodes_of b' !! r.1 = Some node).
Proof.
  intros Hok Hnt [i fresh] b' Hb.
  unfold insert_node_if_missing, get_index_from_node, mbind, build_m_bind, get in Hb. cbn in Hb.
  destruct (b_nodes b !! node) as [j|] eqn:Hj.
  - injection Hb as <- <- <-. apply (ok_nodes _ Hok) in Hj. split_and!; [done..|]. done.
  - destruct (insert_node node b) as [[j b1]|e|] eqn:Hi; [|done..]. injection Hb as <- <- <-.
    destruct (insert_node_spec _ _ _ _ Hok Hj Hi) as (Hok' & Hg & -> & Hn & _).
    assert (same_ignored b b1) as Hs.
    { unfold insert_node, mbind, build_m_bind, get in Hi. cbn in Hi.
      destruct (dag_add_node _ _). by injection Hi as _ <-. }
    split_and!; [done|split; [done|split; [|done]]|].
    + intros i node' Hi' Hl. rewrite Hn in Hl.
      apply lookup_snoc_Some in Hl as [[? _]|[_ ->]]; [lia|done].
    + cbn. rewrite Hn. by rewrite list_lookup_middle.
Qed.

(** A new edge, if it does not close a cycle. *)
Lemma add_edge_ok b i j e k g serial :
  builder_ok b → in_range b i → in_range b j →
  dag_add_edge (b_graph b) i j e = Some (k, g) →
  builder_ok (b_set_graph b g (b_nodes b) serial) ∧
  adds_no_task b (b_set_graph b g (b_nodes b) serial) ∧
  nodes_of (b_set_graph b g (b_nodes b) serial) = nodes_of b ∧
  edges_of (b_set_graph b g (b_nodes b) serial) = edges_of b ++ [(i, j, e)].
Proof.
  intros [Hwf Hac Hnodes] Hi Hj Hadd. cbn.
  destruct (dag_add_edge_Some _ _ _ _ _ _ Hwf Hi Hj Hadd) as (Hwf' & _ & Hn & He & Hno).
  split_and!; [constructor; cbn|split; [constructor; cbn|split; [|done]]|done|done]; try done.
  - rewrite He. by apply acyclic_add_edge.
  - by rewrite Hn.
  - by rewrite Hn.
  - rewrite He. by apply prefix_app_r.
  - cbn. rewrite Hn. intros k' node Hk Hl. apply lookup_lt_Some in Hl. lia.
Qed.

Lemma find_edge_edge b i j k :
  builder_ok b → dag_find_edge (b_graph b) i j = Some k → edge_of (edges_of b) i j.
Proof.
  intros Hok (e & He)%dag_find_edge_Some; [|apply Hok]. exists e. by eapply list_elem_of_lookup_2.
Qed.

Lemma edge_grows b b' i j : grows b b' → edge_of (edges_of b) i j → edge_of (edges_of b') i j.
Proof.
  intros [_ [k Hk] _ _] (e & He). exists e. rewrite Hk. apply elem_of_app. by left.
Qed.

Lemma link_requirement_post i j b :
  builder_ok b → in_range b i → in_range b j →
  post adds_no_task b (link_requirement i j b) (λ _ b', edge_of (edges_of b') i j).
Proof.
  intros Hok Hi Hj [] b' Hb.
  unfold link_requirement, mbind, build_m_bind, get in Hb. cbn in Hb.
  destruct (dag_find_edge (b_graph b) i j) as [k|] eqn:Hf.
  - injection Hb as <-. split_and!; [done..|]. by eapply find_edge_edge.
  - destruct (dag_add_edge (b_graph b) i j Required) as [[k g]|] eqn:Ha.
    + injection Hb as <-.
      destruct (add_edge_ok b i j Required k g (b_serial_edges b) Hok Hi Hj Ha) as (? & ? & _ & He).
      split_and!; [done..|]. rewrite He. apply edge_of_snoc. by right.
    + unfold lift in Hb. destruct (weight_label _ i), (weight_label _ j); done.
Qed.

Lemma link_requirements_post i edges b :
  builder_ok b → in_range b i → Forall (in_range b) edges →
  post adds_no_task b (link_requirements i edges b)
    (λ _ b', ∀ j, j ∈ edges → edge_of (edges_of b') i j).
Proof.
  intros Hok Hi Hedges. unfold link_requirements. revert b Hok Hi Hedges.
  induction edges as [|j edges IH]; intros b Hok Hi Hedges; cbn.
  - apply post_ret; [apply _|done|]. by intros j Hj%not_elem_of_nil.
  - apply Forall_cons in Hedges as [Hj Hedges].
    eapply post_bind; [apply _|by apply link_requirement_post|]. intros [] b1 Hok1 [Hg1 Hn1] Hij.
    eapply post_weaken; [apply IH; [done|by eapply in_range_grows|]|done|].
    { eapply Forall_impl; [done|]. intros k Hk. by eapply in_range_grows. }
    intros [] b2 _ [Hg2 _] Hall k [->|Hk]%elem_of_cons; [by eapply edge_grows|auto].
Qed.

Lemma opt_in_range_elem b (edges : list (option nat)) :
  Forall (λ o, opt_in_range o b) edges → Forall (in_range b) (omap (λ e, e) edges).
Proof.
  intros Hall. apply Forall_forall. intros j (o & Ho & Hj)%list_elem_of_omap.
  rewrite Forall_forall in Hall. by apply (Hall o Ho).
Qed.

Lemma link_optional_requirements_post i edges b :
  builder_ok b → in_range b i → Forall (λ o, opt_in_range o b) edges →
  post adds_no_task b (link_optional_requirements i edges b)
    (λ _ b', ∀ j, Some j ∈ edges → edge_of (edges_of b') i j).
Proof.
  intros Hok Hi Hall. eapply post_weaken;
    [apply link_requirements_post; [done|done|by apply opt_in_range_elem]|done|].
  intros [] b' _ _ Hq j Hj. apply Hq, list_elem_of_omap. eauto.
Qed.

Lemma link_first_requirement_post i edges b :
  builder_ok b → in_range b i → Forall (λ o, opt_in_range o b) edges →
  post adds_no_task b (link_first_requirement i edges b) (λ _ _, True).
Proof.
  intros Hok Hi Hall%opt_in_range_elem. unfold link_first_requirement.
  destruct (omap (λ e, e) edges) as [|j l]; [by apply post_ret; [apply _|..]|].
  apply Forall_cons in Hall as [Hj _].
  eapply post_weaken; [apply link_requirements_post; [done|done|by repeat constructor]|done..].
Qed.

Lemma try_link_requirements_post i j b :
  builder_ok b → in_range b i → in_range b j →
  post adds_no_task b (try_link_requirements i j b) (λ _ b', nodes_of b' = nodes_of b).
Proof.
  intros Hok Hi Hj [] b' Hb.
  unfold try_link_requirements, mbind, build_m_bind, get in Hb. cbn in Hb.
  destruct (dag_find_edge (b_graph b) i j) as [k|] eqn:Hf; [by injection Hb as <-|].
  destruct (dag_add_edge (b_graph b) i j Required) as [[k g]|] eqn:Ha; injection Hb as <-; [|done].
  destruct (add_edge_ok b i j Required k g ({[k]} ∪ b_serial_edges b) Hok Hi Hj Ha)
    as (? & ? & ? & _). done.
Qed.
(** ** Serial dependencies *)

(** A requirement between tasks that is not there for serial order only. *)
Definition task_edge b (x y : nat) : Prop :=
  ∃ k e inner, edges_of b !! k = Some (x, y, e) ∧ k ∉ b_serial_edges b ∧
    nodes_of b !! y = Some (RunTask inner).

Lemma serial_children_elem b x y :
  builder_ok b → y ∈ serial_children (b_graph b) (b_serial_edges b) x ↔ task_edge b x y.
Proof.
  intros [Hwf _ _]. unfold serial_children, task_edge. rewrite list_elem_of_fmap.
  setoid_rewrite list_elem_of_In. setoid_rewrite filter_In. setoid_rewrite <- list_elem_of_In.
  unfold serial_follows. setoid_rewrite andb_true_iff. setoid_rewrite negb_true_iff.
  setoid_rewrite bool_decide_eq_false. setoid_rewrite dag_node_weight_law. split.
  - intros ([k y'] & -> & (e & He)%(dag_children_law _ _ _ _ Hwf) & Hk & Hw). cbn in *.
    destruct (nodes_of b !! y') as [[]|] eqn:Hn; try done. eauto 10.
  - intros (k & e & inner & He & Hk & Hn). exists (k, y). split; [done|].
    split; [apply (dag_children_law _ _ _ _ Hwf); by exists e|]. cbn. by rewrite Hn.
Qed.

Lemma task_edge_range b x y : builder_ok b → task_edge b x y → in_range b y.
Proof. intros Hok (k & e & inner & _ & _ & Hn). by eapply lookup_lt_Some. Qed.

(** The state of the walk. *)
Record walk_inv b (index : nat) (stack ordered : list nat) (visited : gset nat) : Prop := {
  walk_ordered : ∀ x, x ∈ ordered ↔ x ∈ visited;
  walk_reached : ∀ x, x ∈ visited ∨ x ∈ stack → rtc (task_edge b) index x;
  walk_closed : ∀ x y, x ∈ visited → task_edge b x y → y ∈ visited ∨ y ∈ stack;
  walk_start : index ∈ visited ∨ index ∈ stack;
}.

Lemma walk_inv_skip b index x stack ordered visited :
  x ∈ visited → walk_inv b index (x :: stack) ordered visited →
  walk_inv b index stack ordered visited.
Proof. intros Hx [H1 H2 H3 H4]. constructor; set_solver. Qed.

Lemma walk_inv_enter b index x stack ordered visited :
  builder_ok b → walk_inv b index (x :: stack) ordered visited →
  walk_inv b index
    (reverse (serial_children (b_graph b) (b_serial_edges b) x) ++ stack)
    (ordered ++ [x]) ({[x]} ∪ visited).
Proof.
  intros Hok [H1 H2 H3 H4].
  assert (rtc (task_edge b) index x) as Hx by (apply H2; set_solver).
  assert (∀ y, y ∈ reverse (serial_children (b_graph b) (b_serial_edges b) x) ++ stack ↔
    task_edge b x y ∨ y ∈ stack) as Hs.
  { intros y. by rewrite elem_of_app, elem_of_reverse, serial_children_elem. }
  constructor.
  - intros y. rewrite elem_of_app, list_elem_of_singleton, H1. set_solver.
  - intros y. rewrite Hs. intros [[->%elem_of_singleton|?]%elem_of_union|[?|?]];
      [done|apply H2; by left|by eapply rtc_r|apply H2; set_solver].
  - intros y z. rewrite Hs. intros [->%elem_of_singleton|Hy]%elem_of_union Hyz; [auto|].
    destruct (H3 y z Hy Hyz) as [?|[->|?]%elem_of_cons]; set_solver.
  - rewrite Hs. set_solver.
Qed.

Lemma serial_walk_spec b index fuel stack ordered visited :
  builder_ok b → Forall (in_range b) stack → walk_inv b index stack ordered visited →
  length stack + sum_list_with (λ i, if decide (i ∈ visited) then 0
                                     else length (dag_children (b_graph b) i))
                   (seq 0 (length (nodes_of b))) < fuel →
  ∃ ordered', serial_walk fuel (b_graph b) (b_serial_edges b) stack ordered visited = Ok ordered' ∧
    ∀ x, x ∈ ordered' ↔ rtc (task_edge b) index x.
Proof.
  intros Hok. revert stack ordered visited.
  induction fuel as [|fuel IH]; intros stack ordered visited Hr Hinv Hf; [lia|]. cbn [serial_walk].
  destruct stack as [|x stack].
  - exists ordered. split; [done|]. destruct Hinv as [H1 H2 H3 H4]. intros x. rewrite H1.
    split; [intros; apply H2; by left|].
    assert (∀ y, rtc (task_edge b) y x → y ∈ visited → x ∈ visited) as Hcl.
    { induction 1 as [|y z w Hyz _ IHr]; [done|]. intros Hy. apply IHr.
      destruct (H3 y z Hy Hyz) as [?|?%not_elem_of_nil]; done. }
    intros Hx. apply (Hcl index); [done|]. destruct H4 as [?|?%not_elem_of_nil]; done.
  - apply Forall_cons in Hr as [Hx Hr]. cbn in Hf. destruct (decide (x ∈ visited)) as [Hv|Hv].
    + apply IH; [done|by eapply walk_inv_skip|lia].
    + apply IH; [|by apply walk_inv_enter|].
      { apply Forall_app. split; [|done]. apply Forall_forall. intros y.
        rewrite elem_of_reverse, serial_children_elem by done. by apply task_edge_range. }
      rewrite length_app, length_reverse.
      assert (length (serial_children (b_graph b) (b_serial_edges b) x)
        ≤ length (dag_children (b_graph b) x)) as Hle.
      { unfold serial_children. rewrite length_fmap. apply filter_length_le. }
      assert (sum_list_with
          (λ i, if decide (i ∈ {[x]} ∪ visited) then 0 else length (dag_children (b_graph b) i))
          (seq 0 (length (nodes_of b))) + length (dag_children (b_graph b) x)
        ≤ sum_list_with
          (λ i, if decide (i ∈ visited) then 0 else length (dag_children (b_graph b) i))
          (seq 0 (length (nodes_of b)))) as Hsum; [|lia].
      apply (sum_list_with_lt _ _ _ x).
      * intros i _. repeat case_decide; try lia; set_solver.
      * apply elem_of_seq. unfold in_range in Hx. lia.
      * rewrite decide_True by set_solver. by rewrite decide_False.
Qed.
Lemma serial_walk_start b index :
  builder_ok b → in_range b index →
  ∃ ordered, serial_walk (serial_fuel (b_graph b)) (b_graph b) (b_serial_edges b) [index] [] ∅
      = Ok ordered ∧
    ∀ x, x ∈ ordered ↔ rtc (task_edge b) index x.
Proof.
  intros Hok Hi. apply serial_walk_spec; [done|by repeat constructor| |].
  - constructor; set_solver.
  - unfold serial_fuel. rewrite dag_node_count_law. cbn [length].
    apply (Nat.add_lt_le_mono 1 2); [lia|].
    apply sum_list_with_le. intros i _. case_decide; lia.
Qed.

(** What linking serial dependencies adds: edges to [previous], all recorded. *)
Record serial_links (previous : nat) b b' : Prop := {
  serial_nodes : nodes_of b' = nodes_of b;
  serial_new : ∃ l, edges_of b' = edges_of b ++ ((λ x, (x, previous, Required)) <$> l) ∧
    ∀ k, length (edges_of b) ≤ k → k < length (edges_of b') → k ∈ b_serial_edges b';
  serial_kept : b_serial_edges b ⊆ b_serial_edges b';
  serial_ignored : same_ignored b b';
}.

#[global] Instance serial_links_preorder previous : PreOrder (serial_links previous).
Proof.
  split.
  - intros b. constructor; [done| |done|done]. exists []. cbn. rewrite app_nil_r. split; [done|]. lia.
  - intros b1 b2 b3 [N12 (l1 & E12 & S12) K12 I12] [N23 (l2 & E23 & S23) K23 I23].
    constructor; [congruence| |set_solver|by etrans]. exists (l1 ++ l2).
    rewrite fmap_app, (assoc (++)), <- E12. split; [done|]. intros k Hk1 Hk3.
    destruct (decide (k < length (edges_of b2))); [apply K23, S12; lia|apply S23; lia].
Qed.

Lemma try_link_serial i j b :
  builder_ok b → in_range b i → in_range b j →
  ∃ b', try_link_requirements i j b = Ok (tt, b') ∧ builder_ok b' ∧ serial_links j b b' ∧
    grows b b' ∧
    (edge_of (edges_of b') i j ∨ rtc (edge_of (edges_of b')) j i).
Proof.
  intros Hok Hi Hj. unfold try_link_requirements, mbind, build_m_bind, get. cbn.
  destruct (dag_find_edge (b_graph b) i j) as [k|] eqn:Hf.
  { exists b. split_and!; [done..|left]. by eapply find_edge_edge. }
  destruct (dag_add_edge (b_graph b) i j Required) as [[k g]|] eqn:Ha.
  - exists (b_set_graph b g (b_nodes b) ({[k]} ∪ b_serial_edges b)).
    destruct (add_edge_ok b i j Required k g ({[k]} ∪ b_serial_edges b) Hok Hi Hj Ha)
      as (Hok' & [Hg _] & Hn & He).
    destruct (dag_add_edge_Some _ _ _ _ _ _ (ok_wf _ Hok) Hi Hj Ha) as (_ & -> & _).
    split_and!; [done|done| |done|left; rewrite He; apply edge_of_snoc; by right].
    constructor; [done| |cbn; set_solver|done]. exists [i]. split; [done|].
    intros k. rewrite He, length_app. cbn. intros ? ?.
    assert (k = length (edges_of b)) as -> by lia. set_solver.
  - exists b. split_and!; [done..|right]. eapply dag_add_edge_None; [apply Hok|done..].
Qed.

Lemma edge_rtc_grows b b' i j :
  grows b b' → rtc (edge_of (edges_of b)) i j → rtc (edge_of (edges_of b')) i j.
Proof. intros Hg. apply rtc_subrel. intros x y. by apply edge_grows. Qed.

Lemma try_link_all l previous b :
  builder_ok b → Forall (in_range b) l → in_range b previous →
  ∃ b', for_each (λ node, try_link_requirements node previous) l b = Ok (tt, b') ∧
    builder_ok b' ∧ serial_links previous b b' ∧ grows b b' ∧
    ∀ x, x ∈ l → edge_of (edges_of b') x previous ∨ rtc (edge_of (edges_of b')) previous x.
Proof.
  intros Hok Hl Hp. revert b Hok Hl Hp. induction l as [|i l IH]; intros b Hok Hl Hp.
  - exists b. split_and!; [done..|]. by intros x ?%not_elem_of_nil.
  - apply Forall_cons in Hl as [Hi Hl].
    destruct (try_link_serial i previous b Hok Hi Hp) as (b1 & Hb1 & Hok1 & Hs1 & Hg1 & Hi1).
    destruct (IH b1 Hok1) as (b2 & Hb2 & Hok2 & Hs2 & Hg2 & Hl2).
    + eapply Forall_impl; [done|]. intros. by eapply in_range_grows.
    + by eapply in_range_grows.
    + exists b2. cbn. unfold mbind, build_m_bind. rewrite Hb1. cbn. split_and!; [done..|by etrans|by etrans|].
      intros x [->|Hx]%elem_of_cons; [|auto].
      destruct Hi1 as [?|?]; [left; by eapply edge_grows|right; by eapply edge_rtc_grows].
Qed.

Lemma rtc_task_edge_range b x y : builder_ok b → rtc (task_edge b) x y → in_range b x → in_range b y.
Proof. intros Hok. induction 1; eauto using task_edge_range. Qed.

Lemma link_serial_requirements_ok index previous b :
  builder_ok b → in_range b index → in_range b previous →
  ∃ b', link_serial_requirements index previous b = Ok (tt, b') ∧
    builder_ok b' ∧ serial_links previous b b' ∧ grows b b' ∧
    ∀ x, rtc (task_edge b) index x →
      edge_of (edges_of b') x previous ∨ rtc (edge_of (edges_of b')) previous x.
Proof.
  intros Hok Hi Hp. destruct (serial_walk_start b index Hok Hi) as (ordered & Hw & Hord).
  destruct (try_link_all ordered previous b Hok) as (b' & Hb' & ?); [|done|].
  - apply Forall_forall. intros x Hx%Hord. by eapply rtc_task_edge_range.
  - exists b'. unfold link_serial_requirements, mbind, build_m_bind, get, lift.
    cbn [obind]. rewrite Hw. cbn [obind]. rewrite Hb'. setoid_rewrite <- Hord. done.
Qed.
End Ok.

(** ** The actions that are not tasks *)

(** [pbind H] goes past the first call of a sequence, by the lemma [H] on it. *)
Tactic Notation "pbind" uconstr(H) := eapply post_bind; [apply _|eapply H|]; try done.
(** [grow] chains what is known to grow. *)
Ltac grow := first [eassumption|etrans; [eassumption|grow]].
(** [preturn] ends a sequence. *)
Ltac preturn := apply post_ret; [apply _|done|].

Section Actions.
Context `{D : DagOps ActionNode TaskDependencyType, L : !DagLaws D, H : Host, P : Plugins,
  I : IdSyntax, X : FxHasher}.
Variable E : BuilderEnv.
Implicit Types (b : ActionGraphBuilder) (p : option Project).

Abbreviation all_in_range := (λ (l : list (option nat)) b, Forall (λ o, opt_in_range o b) l).

Lemma all_in_range_grows b b' l : grows b b' → all_in_range l b → all_in_range l b'.
Proof. intros Hg Hl. eapply Forall_impl; [exact Hl|]. intros o. by apply opt_in_range_grows. Qed.

Lemma opt_in_range_Some b i node : nodes_of b !! i = Some node → opt_in_range (Some i) b.
Proof. intros Hi j [= <-]. by eapply lookup_lt_Some. Qed.

Lemma opt_in_range_None b : opt_in_range None b.
Proof. by intros i. Qed.

Lemma set_affected_ok b a :
  (a = None ↔ b_affected b = None) → builder_ok b →
  builder_ok (b_set_affected b a) ∧ adds_no_task b (b_set_affected b a).
Proof.
  intros Ha [Hwf Hac Hn]. split; [by constructor|]. split; [by constructor|]. split; [|done].
  cbn. intros i node Hi Hl. apply lookup_lt_Some in Hl. lia.
Qed.

Lemma put_affected_post b a :
  (a = None ↔ b_affected b = None) → builder_ok b →
  post adds_no_task b (put (b_set_affected b a) b) (λ _ _, True).
Proof. intros Ha Hok. destruct (set_affected_ok b a Ha Hok). by apply post_put. Qed.

Lemma builder_is_project_affected_post pr reqs b :
  builder_ok b → post adds_no_task b (builder_is_project_affected pr reqs b) (λ _ _, True).
Proof.
  intros Hok. unfold builder_is_project_affected.
  eapply post_bind; [apply _|apply (post_get _ _ (λ b1 b2, b1 = b /\ b2 = b)); done|].
  intros b1 b2 Hok2 _ [-> ->].
  destruct (b_affected b) as [a|] eqn:Ha, (rr_skip_affected reqs); try by preturn.
  destruct (if rr_include_relations reqs then _ else _); [by preturn|].
  destruct (is_project_affected a pr) as [mark|]; [|by preturn].
  eapply post_bind; [apply _|apply (post_lift _ _ _ (λ _ b2, b2 = b)); done|].
  intros a' b2 Hok2' _ ->. pbind put_affected_post; [by rewrite Ha|].
  intros [] b3 Hok3 _ _. by preturn.
Qed.

Lemma builder_is_task_affected_post t reqs b :
  builder_ok b →
  post adds_no_task b (builder_is_task_affected t reqs b)
    (λ r b', rr_skip_affected reqs = true ∨ b_affected b' = None → r = true).
Proof.
  intros Hok. unfold builder_is_task_affected.
  eapply post_bind; [apply _|apply (post_get _ _ (λ b1 b2, b1 = b /\ b2 = b)); done|].
  intros b1 b2 Hok2 _ [-> ->].
  destruct (b_affected b) as [a|] eqn:Ha, (rr_skip_affected reqs) eqn:Hskip; try by preturn.
  destruct (if rr_include_relations reqs then _ else _); [by preturn|].
  eapply post_bind; [apply _|apply (post_lift _ _ _ (λ _ b2, b2 = b)); done|].
  intros mark b2 Hok2' _ ->. destruct mark as [mark|]; [|preturn; intros []; congruence].
  eapply post_bind; [apply _|apply (post_lift _ _ _ (λ _ b2, b2 = b)); done|].
  intros a' b2 Hok2'' _ ->. pbind put_affected_post; [by rewrite Ha|].
  intros [] b3 Hok3 _ _. by preturn.
Qed.

Lemma sync_workspace_post b :
  builder_ok b → post adds_no_task b (sync_workspace E b) opt_in_range.
Proof.
  intros Hok. unfold sync_workspace. destruct (negb _); [preturn; apply opt_in_range_None|].
  pbind insert_node_if_missing_post; [by intros [? ?]|]. intros [i fresh] b1 Hok1 _ Hi.
  preturn. by eapply opt_in_range_Some.
Qed.

Lemma setup_proto_post b :
  builder_ok b → post adds_no_task b (setup_proto E b) opt_in_range.
Proof.
  intros Hok. unfold setup_proto.
  pbind insert_node_if_missing_post; [by intros [? ?]|]. intros [i fresh] b1 Hok1 _ Hi.
  preturn. by eapply opt_in_range_Some.
Qed.

Lemma lift_post {A} b (r : result A) :
  builder_ok b → post adds_no_task b (lift r b) (λ a _, r = Ok a).
Proof. intros Hok. by apply post_lift; [apply _|..]. Qed.

Lemma setup_requirements_post spec p cycle setup requires b :
  (∀ spec' b, builder_ok b → post adds_no_task b (setup spec' b) opt_in_range) →
  builder_ok b →
  post adds_no_task b (setup_requirements E spec p cycle setup requires b) all_in_range.
Proof.
  intros Hsetup. revert b. induction requires as [|r requires IH]; intros b Hok; cbn.
  { preturn. constructor. }
  pbind lift_post. intros [] b1 Hok1 _ _.
  case_decide; [by apply IH|]. case_decide; [by apply IH|].
  destruct (get_spec E r p) as [rspec|].
  - pbind Hsetup. intros o b2 Hok2 _ Ho. pbind IH. intros l b3 Hok3 [Hg3 _] Hl. preturn.
    constructor; [by eapply opt_in_range_grows|done].
  - by intros l b' Hb.
Qed.
Lemma internal_setup_toolchain_post fuel spec p cycle b :
  builder_ok b →
  post adds_no_task b (internal_setup_toolchain E fuel spec p cycle b) opt_in_range.
Proof.
  revert spec cycle b. induction fuel as [|fuel IH]; intros spec cycle b Hok; [done|].
  cbn [internal_setup_toolchain]. destruct (_ || _); [preturn; apply opt_in_range_None|].
  pbind lift_post. intros [] b1 Hok1 _ _. pbind lift_post. intros output b2 Hok2 _ _.
  eapply post_bind with (Q1 := all_in_range); [apply _| |].
  { destruct (req_for_setup_toolchain output); [|preturn; constructor].
    apply setup_requirements_post; [|done]. intros. by apply IH. }
  intros edges b3 Hok3 _ Hedges.
  destruct (_ && _); [preturn; apply opt_in_range_None|].
  pbind sync_workspace_post. intros ws b4 Hok4 [Hg4 _] Hws.
  eapply post_bind with (Q1 := all_in_range); [apply _| |].
  { destruct (_ || _); [|preturn; constructor]. pbind setup_proto_post.
    intros o b5 Hok5 _ Ho. preturn. by repeat constructor. }
  intros proto b5 Hok5 [Hg5 _] Hproto.
  pbind insert_node_if_missing_post; [by intros [? ?]|]. intros [index fresh] b6 Hok6 [Hg6 _] Hi.
  assert (grows b3 b6) as Hg36 by grow.
  pbind link_optional_requirements_post.
  - by eapply lookup_lt_Some.
  - rewrite !Forall_app. split_and!.
    + (eapply all_in_range_grows; [|eassumption]; grow).
    + repeat constructor. eapply opt_in_range_grows; [|eassumption]; grow.
    + (eapply all_in_range_grows; [|eassumption]; grow).
  - intros [] b7 Hok7 [Hg7 _] _. preturn. eapply opt_in_range_grows; [done|].
    by eapply opt_in_range_Some.
Qed.

Lemma setup_toolchain_post spec p b :
  builder_ok b → post adds_no_task b (setup_toolchain E spec p b) opt_in_range.
Proof. apply internal_setup_toolchain_post. Qed.

Lemma internal_setup_environment_post spec root p cycle b :
  builder_ok b →
  post adds_no_task b (internal_setup_environment E spec root p cycle b) opt_in_range.
Proof.
  intros Hok. unfold internal_setup_environment.
  destruct (_ || _); [preturn; apply opt_in_range_None|].
  pbind lift_post. intros [] b1 Hok1 _ _. pbind lift_post. intros output b2 Hok2 _ _.
  eapply post_bind with (Q1 := all_in_range); [apply _| |].
  { destruct (req_for_setup_environment output); [|preturn; constructor].
    apply setup_requirements_post; [|done]. intros. by apply setup_toolchain_post. }
  intros edges b3 Hok3 _ Hedges.
  destruct (_ && _); [preturn; apply opt_in_range_None|].
  pbind sync_workspace_post. intros ws b4 Hok4 [Hg4 _] Hws.
  pbind setup_toolchain_post. intros tc b5 Hok5 [Hg5 _] Htc.
  pbind insert_node_if_missing_post; [by intros [? ?]|]. intros [index fresh] b6 Hok6 [Hg6 _] Hi.
  destruct (negb fresh); [preturn; by eapply opt_in_range_Some|].
  pbind link_optional_requirements_post.
  - by eapply lookup_lt_Some.
  - rewrite Forall_app. split; [eapply all_in_range_grows; [|eassumption]; grow|].
    repeat constructor; (eapply opt_in_range_grows; [|eassumption]; grow).
  - intros [] b7 Hok7 [Hg7 _] _. preturn. eapply opt_in_range_grows; [done|].
    by eapply opt_in_range_Some.
Qed.

Lemma setup_environment_root_post spec b :
  builder_ok b → post adds_no_task b (setup_environment_root E spec b) opt_in_range.
Proof.
  intros Hok. unfold setup_environment_root.
  destruct (_ || _); [preturn; apply opt_in_range_None|].
  pbind lift_post. intros o b1 Hok1 _ _.
  destruct o as [w|]; [|preturn; apply opt_in_range_None].
  case_decide; [by apply internal_setup_environment_post|preturn; apply opt_in_range_None].
Qed.

Lemma install_in_workspace_post spec p w role ws tc b :
  builder_ok b → opt_in_range ws b → opt_in_range tc b →
  post adds_no_task b (install_in_workspace E spec p w role ws tc b) opt_in_range.
Proof.
  intros Hok Hws Htc. unfold install_in_workspace.
  pbind lift_post. intros root b1 Hok1 [Hg1 _] _.
  pbind internal_setup_environment_post. intros env b2 Hok2 [Hg2 _] Henv.
  assert (grows b b2) as Hg by by etrans.
  destruct (has_func _ _).
  - pbind insert_node_if_missing_post; [by intros [? ?]|].
    intros [index fresh] b3 Hok3 [Hg3 _] Hi.
    pbind link_first_requirement_post.
    + by eapply lookup_lt_Some.
    + repeat constructor; (eapply opt_in_range_grows; [|eassumption]; grow).
    + intros [] b4 Hok4 [Hg4 _] _. preturn. eapply opt_in_range_grows; [done|].
      by eapply opt_in_range_Some.
  - destruct env as [index|]; [|preturn; apply opt_in_range_None].
    pbind link_first_requirement_post.
    + by apply Henv.
    + repeat constructor; (eapply opt_in_range_grows; [|eassumption]; grow).
    + intros [] b4 Hok4 [Hg4 _] _. preturn. (eapply opt_in_range_grows; [|eassumption]; grow).
Qed.

Lemma internal_install_dependencies_post spec p b :
  builder_ok b → post adds_no_task b (internal_install_dependencies E spec p b) opt_in_range.
Proof.
  intros Hok. unfold internal_install_dependencies.
  destruct (install_disabled E spec); [preturn; apply opt_in_range_None|].
  pbind sync_workspace_post. intros ws b1 Hok1 _ Hws.
  pbind setup_toolchain_post. intros tc b2 Hok2 [Hg2 _] Htc.
  pbind lift_post. intros [] b3 Hok3 [Hg3 _] _.
  assert (opt_in_range tc b3) as Htc3 by (eapply opt_in_range_grows; [|eassumption]; grow).
  destruct (negb _); [by preturn|]. pbind lift_post. intros o b4 Hok4 [Hg4 _] _.
  assert (opt_in_range tc b4) as Htc4 by (eapply opt_in_range_grows; [|eassumption]; grow).
  destruct o as [w|]; [|by preturn]. pbind lift_post. intros role b5 Hok5 [Hg5 _] _.
  assert (opt_in_range tc b5) as Htc5 by (eapply opt_in_range_grows; [|eassumption]; grow).
  destruct role as [role|]; [|by preturn].
  pbind install_in_workspace_post.
  { eapply opt_in_range_grows; [|eassumption]; grow. }
  intros o b6 Hok6 [Hg6 _] Ho. destruct o as [index|]; preturn; [done|].
  (eapply opt_in_range_grows; [|eassumption]; grow).
Qed.

Lemma install_dependencies_root_post spec b :
  builder_ok b → post adds_no_task b (install_dependencies_root E spec b) opt_in_range.
Proof.
  intros Hok. unfold install_dependencies_root.
  destruct (install_disabled E spec); [preturn; apply opt_in_range_None|].
  pbind lift_post. intros o b1 Hok1 _ _.
  destruct o as [w|]; [|preturn; apply opt_in_range_None].
  case_decide; [by apply internal_install_dependencies_post|preturn; apply opt_in_range_None].
Qed.

Lemma install_dependencies_by_toolchains_post pr toolchains b :
  builder_ok b →
  post adds_no_task b (install_dependencies_by_toolchains E pr toolchains b) all_in_range.
Proof.
  revert b. induction toolchains as [|t toolchains IH]; intros b Hok; cbn.
  { preturn. constructor. }
  destruct (get_project_spec E t pr) as [spec|]; [|by apply IH].
  pbind internal_install_dependencies_post. intros o b1 Hok1 _ Ho.
  pbind IH. intros l b2 Hok2 [Hg2 _] Hl. preturn.
  constructor; [(eapply opt_in_range_grows; [|eassumption]; grow)|done].
Qed.

Lemma sync_dependencies_post sync index cycle ids b :
  (∀ pr b, builder_ok b → post adds_no_task b (sync pr b) opt_in_range) →
  builder_ok b →
  post adds_no_task b (sync_dependencies E sync index cycle ids b)
    (λ l b', Forall (in_range b') l).
Proof.
  intros Hsync. revert b. induction ids as [|i ids IH]; intros b Hok; cbn.
  { preturn. constructor. }
  case_decide; [by apply IH|]. pbind lift_post. intros pr b1 Hok1 _ _.
  pbind Hsync. intros o b2 Hok2 _ Ho. pbind IH. intros l b3 Hok3 [Hg3 _] Hl. preturn.
  destruct o as [j|]; [|done]. case_decide; [done|]. constructor; [|done].
  eapply in_range_grows; [done|]. by apply Ho.
Qed.

Lemma internal_sync_project_post fuel pr reqs cycle b :
  builder_ok b →
  post adds_no_task b (internal_sync_project E fuel pr reqs cycle b) opt_in_range.
Proof.
  revert pr cycle b. induction fuel as [|fuel IH]; intros pr cycle b Hok; [done|].
  cbn [internal_sync_project]. destruct (_ || _); [preturn; apply opt_in_range_None|].
  pbind builder_is_project_affected_post. intros affected b1 Hok1 _ _.
  destruct (negb affected); [preturn; apply opt_in_range_None|].
  pbind sync_workspace_post. intros ws b2 Hok2 _ Hws.
  pbind insert_node_if_missing_post; [by intros [? ?]|]. intros [index fresh] b3 Hok3 [Hg3 _] Hi.
  destruct (negb fresh); [preturn; by eapply opt_in_range_Some|].
  eapply post_bind with (Q1 := λ l b', Forall (in_range b') l); [apply _| |].
  { destruct (opt_sync_project_dependencies _); [|preturn; constructor].
    apply sync_dependencies_post; [|done]. intros. by apply IH. }
  intros edges b4 Hok4 [Hg4 _] Hedges. cbn in Hi.
  assert (opt_in_range (Some index) b4) as Hi4
    by (eapply opt_in_range_grows; [done|]; by eapply opt_in_range_Some).
  pbind link_requirements_post.
  - by apply Hi4.
  - destruct ws as [i|]; [|done]. constructor; [|done].
    apply (in_range_grows b2); [grow|]. by apply Hws.
  - intros [] b5 Hok5 [Hg5 _] _. preturn. (eapply opt_in_range_grows; [|eassumption]; grow).
Qed.

Lemma initial_edges_post pr task reqs b :
  builder_ok b → post adds_no_task b (initial_edges E pr task reqs b) all_in_range.
Proof.
  intros Hok. unfold initial_edges, sync_project.
  pbind internal_sync_project_post. intros e b1 Hok1 _ He.
  pbind install_dependencies_by_toolchains_post. intros l b2 Hok2 [Hg2 _] Hl.
  assert (all_in_range (e :: l) b2) as Hel by (constructor; [(eapply opt_in_range_grows; [|eassumption]; grow)|done]).
  destruct (forallb _ _); [|by preturn].
  pbind sync_workspace_post. intros o b3 Hok3 [Hg3 _] Ho. preturn.
  apply Forall_app. split; [(eapply all_in_range_grows; [|exact Hel]; grow)|by repeat constructor].
Qed.
End Actions.
