(* ===== verification/BuilderTasks.v ===== *)
(** * Tasks of the action graph builder

When dependencies are in scope at any depth, every task that is inserted ends up
linked to the tasks it depends on, except to those that are passed through. *)

From S2P Require Import Prelude Errors PooledTasks Target GraphUtils Config Affected.
From S2P Require Import ActionContext Action Dag Dispatcher ActionGraphBuilder BuilderFacts.

Section Tasks.
Context `{D : DagOps ActionNode TaskDependencyType, L : !DagLaws D, H : Host, P : Plugins,
  I : IdSyntax, X : FxHasher}.
Variable E : BuilderEnv.
(** Whether the calls have their dependencies in scope at any depth. *)
Variable deep : bool.
(** The requirements of the request, which its calls only pass on, and the tasks of
    the workspace. *)
Variable base : RunRequirements.
Variable known : Task → Prop.
Implicit Types (b : ActionGraphBuilder) (task : Task).

Definition deep_reqs (reqs : RunRequirements) : Prop :=
  deep = true → rr_dependencies reqs = UpDeep ∧
    rr_ci_check reqs = rr_ci_check base ∧ rr_ci reqs = rr_ci base.

(** A target that is passed through: one of a task that is not to run in CI. *)
Definition passed (target : Target) : Prop :=
  ∃ task, known task ∧ t_target task = target ∧
    rr_ci_check base = true ∧ should_run task (rr_ci base) = false.

(** Node [j] is one of the task [dt]. *)
Definition node_of_task b (j : nat) (dt : Task) : Prop :=
  ∃ inner, nodes_of b !! j = Some (RunTask inner) ∧ run_target inner = t_target dt.

(** Node [i] requires the task [dt], unless that is passed through. *)
Definition dep_linked b (i : nat) (dt : Task) : Prop :=
  t_target dt ∈ b_passthrough_targets b ∨
  ∃ j, edge_of (edges_of b) i j ∧ node_of_task b j dt.

(** Node [i] requires everything that [task] depends on. *)
Definition task_linked b (i : nat) task : Prop :=
  ∀ dep tasks dt, dep ∈ t_deps task →
    resolve_tasks_from_target E (b_all_query b) (dep_target dep) true = Ok tasks → dt ∈ tasks →
    dep_linked b i dt.

(** The tasks that are added are known ones, linked to what they depend on, when that
    is in scope. *)
Definition adds_linked b b' : Prop :=
  ∀ i node, length (nodes_of b) ≤ i → nodes_of b' !! i = Some node → is_run_task node →
    ∃ task reqs config, known task ∧ node = run_task_node task reqs config ∧
      task_linked b' i task.

Definition adds_passed (old new : gset Target) : Prop :=
  ∀ target, target ∈ new → target ∈ old ∨ passed target.

Definition links_tasks b b' : Prop :=
  grows b b' ∧ (deep = true → adds_linked b b' ∧
    adds_passed (b_passthrough_targets b) (b_passthrough_targets b')).

Lemma node_of_task_grows b b' j dt : grows b b' → node_of_task b j dt → node_of_task b' j dt.
Proof.
  intros Hg (inner & Hj & Ht). exists inner. split; [|done].
  eapply prefix_lookup_Some; [done|apply Hg].
Qed.

Lemma dep_linked_grows b b' i dt : grows b b' → dep_linked b i dt → dep_linked b' i dt.
Proof.
  intros Hg [Hp|(j & Hij & Hj)]; [left; by apply (grows_passthrough _ _ Hg)|right].
  exists j. split; [by eapply edge_grows|by eapply node_of_task_grows].
Qed.

Lemma task_linked_grows b b' i task : grows b b' → task_linked b i task → task_linked b' i task.
Proof.
  intros Hg Ht dep tasks dt Hdep Hres Hdt. eapply dep_linked_grows; [done|].
  rewrite (grows_query _ _ Hg) in Hres. eauto.
Qed.

Lemma adds_no_nodes b b' : nodes_of b' = nodes_of b → adds_linked b b'.
Proof. intros Hn i node Hi Hl. rewrite Hn in Hl. apply lookup_lt_Some in Hl. lia. Qed.

#[global] Instance links_tasks_preorder : PreOrder links_tasks.
Proof.
  split.
  - intros b. split; [done|]. intros _. split; [by apply adds_no_nodes|]. by left.
  - intros b1 b2 b3 [H12 N12] [H23 N23]. split; [by etrans|]. intros Hd.
    destruct (N12 Hd) as [L12 P12], (N23 Hd) as [L23 P23]. clear N12 N23. split.
    2: { intros target [?%P12|?]%P23; auto. }
    intros i node Hi Hn Hrt.
    destruct (decide (i < length (nodes_of b2))) as [Hlt|Hge]; [|apply (L23 i); [lia|done..]].
    apply lookup_lt_is_Some in Hlt as [node' Hn'].
    pose proof (prefix_lookup_Some _ _ _ _ Hn' (grows_nodes _ _ H23)). simplify_eq.
    destruct (L12 i node Hi Hn' Hrt) as (task & reqs & config & ? & -> & Ht).
    exists task, reqs, config. split_and!; [done..|by eapply task_linked_grows].
Qed.

Lemma adds_no_task_links b b' : adds_no_task b b' → links_tasks b b'.
Proof.
  intros (Hg & Hn & _ & _ & Hp). split; [done|]. intros _. split.
  - intros i node Hi Hl Hrt. by destruct (Hn i node Hi Hl).
  - intros target. rewrite Hp. by left.
Qed.

Lemma links_of_no_task {A} b (r : result (A * ActionGraphBuilder)) Q :
  post adds_no_task b r Q → post links_tasks b r Q.
Proof. intros Hp. eapply post_weaken; [done|intros; by apply adds_no_task_links|done]. Qed.

Lemma link_serial_requirements_post index previous b :
  builder_ok b → in_range b index → in_range b previous →
  post adds_no_task b (link_serial_requirements index previous b) (λ _ _, True).
Proof.
  intros Hok Hi Hp [] b' Hb.
  destruct (link_serial_requirements_ok index previous b Hok Hi Hp)
    as (b'' & Hb'' & Hok'' & Hs & Hg & _).
  rewrite Hb in Hb''. injection Hb'' as <-. split; [done|]. split; [|done].
  split; [done|]. split; [|apply Hs].
  intros i node Hge Hl. rewrite (serial_nodes _ _ _ Hs) in Hl. apply lookup_lt_Some in Hl. lia.
Qed.

(** ** Loops over dependencies *)

(** What [internal_run_task] does for one task. *)
Definition ran task (reqs : RunRequirements) (config : option TaskDependencyConfig)
    (o : option nat) b : Prop :=
  match o with
  | Some i => nodes_of b !! i = Some (run_task_node task reqs config)
  | None => rr_skip_affected reqs = true ∨ b_affected b = None →
      t_target task ∈ b_passthrough_targets b
  end.

Definition run_ok (run : run_one_task) : Prop :=
  ∀ task reqs config state b, (deep = true → known task) → deep_reqs reqs → builder_ok b →
    post links_tasks b (run task reqs config state b) (ran task reqs config).

(** The task [dt] is among the edges collected, unless it is passed through. *)
Definition collected b (edges : list (option nat)) (dt : Task) : Prop :=
  t_target dt ∈ b_passthrough_targets b ∨ ∃ j, Some j ∈ edges ∧ node_of_task b j dt.

Lemma collected_grows b b' edges edges' dt :
  grows b b' → edges ⊆ edges' → collected b edges dt → collected b' edges' dt.
Proof.
  intros Hg He [Hp|(j & Hj & Hn)]; [left; by apply (grows_passthrough _ _ Hg)|right].
  exists j. split; [by apply He|by eapply node_of_task_grows].
Qed.

Lemma run_task_node_of b j task reqs config :
  nodes_of b !! j = Some (run_task_node task reqs config) → node_of_task b j task.
Proof. intros Hj. eexists. split; [exact Hj|done]. Qed.

(** The state of the loops: the edges so far, and the previous dependency. *)
Definition acc_ok (acc : list (option nat) * option nat) b : Prop :=
  Forall (λ o, opt_in_range o b) acc.1 ∧ opt_in_range acc.2 b.

Lemma acc_ok_grows acc b b' : grows b b' → acc_ok acc b → acc_ok acc b'.
Proof.
  intros Hg [Ha Hp]. split; [|by eapply opt_in_range_grows].
  eapply Forall_impl; [exact Ha|]. intros o. by apply opt_in_range_grows.
Qed.

Lemma run_dependency_tasks_post run parallel reqs state dep tasks acc b :
  run_ok run → deep_reqs reqs → rr_skip_affected reqs = true →
  (deep = true → ∀ dt, dt ∈ tasks → known dt) → builder_ok b → acc_ok acc b →
  post links_tasks b (run_dependency_tasks run parallel reqs state dep tasks acc b)
    (λ acc' b', acc_ok acc' b' ∧ acc.1 ⊆ acc'.1 ∧ ∀ dt, dt ∈ tasks → collected b' acc'.1 dt).
Proof.
  intros Hrun Hdeep Hskip. revert acc b.
  induction tasks as [|t tasks IH]; intros acc b Hkn Hok Hacc; cbn [run_dependency_tasks].
  { apply post_ret; [apply _|done|]. split_and!; [done..|]. by intros dt ?%not_elem_of_nil. }
  assert (deep = true → ∀ dt, dt ∈ tasks → known dt) as Hkn'
    by (intros Hd dt ?; apply (Hkn Hd); by right).
  assert (deep = true → known t) as Hkn1 by (intros Hd; apply (Hkn Hd); by left).
  pbind Hrun. intros o b1 Hok1 [Hg1 _] Ho.
  assert (acc_ok acc b1) as Hacc1 by by eapply acc_ok_grows.
  destruct o as [i|]; cbn in Ho.
  - assert (in_range b1 i) as Hi by exact (lookup_lt_Some _ _ _ Ho).
    eapply post_bind with (Q1 := λ _ _, True); [apply _| |].
    { destruct parallel, (acc.2) as [prev|] eqn:Hprev; try (by apply post_ret; [apply _|..]).
      apply links_of_no_task, link_serial_requirements_post; [done|done|].
      apply Hacc1. by rewrite Hprev. }
    intros [] b2 Hok2 [Hg2 _] _.
    assert (opt_in_range (Some i) b2) as Hi2
      by (intros ? [= <-]; by eapply in_range_grows).
    eapply post_weaken; [apply IH; [done|done|]|done|].
    + split; [|done]. cbn. apply Forall_app. split; [|by repeat constructor].
      apply (acc_ok_grows acc b1 b2 Hg2 Hacc1).
    + cbn. intros acc' b3 Hok3 [Hg3 _] (Hacc' & Hsub & Hall). split_and!; [done|set_solver|].
      intros dt [->|Hdt]%elem_of_cons; [|auto]. right. exists i. split; [set_solver|].
      apply (node_of_task_grows b1); [by etrans|]. exact (run_task_node_of _ _ _ _ _ Ho).
  - eapply post_weaken; [by apply IH|done|]. cbn.
    intros acc' b3 Hok3 [Hg3 _] (Hacc' & Hsub & Hall). split_and!; [done..|].
    intros dt [->|Hdt]%elem_of_cons; [|auto]. left. apply (grows_passthrough _ _ Hg3), Ho. by left.
Qed.

Hypothesis Hknown : deep = true → ∀ all_query target allow_internal tasks t,
  resolve_tasks_from_target E all_query target allow_internal = Ok tasks → t ∈ tasks → known t.

Lemma resolve_post target allow_internal b :
  builder_ok b →
  post links_tasks b (internal_resolve_tasks_from_target E target allow_internal b)
    (λ tasks _, resolve_tasks_from_target E (b_all_query b) target allow_internal = Ok tasks ∧
      (deep = true → ∀ t, t ∈ tasks → known t)).
Proof.
  intros Hok. unfold internal_resolve_tasks_from_target.
  intros tasks b' Hb. unfold mbind, build_m_bind, get, lift in Hb. cbn [obind] in Hb.
  destruct (resolve_tasks_from_target _ _ _ _) as [l|e|] eqn:Hl; cbn in Hb; simplify_eq.
  split_and!; [done..|]. intros Hd t. exact (Hknown Hd _ _ _ _ t Hl).
Qed.

Lemma run_dependencies_post run parallel reqs state deps acc b :
  run_ok run → deep_reqs reqs → rr_skip_affected reqs = true →
  builder_ok b → acc_ok acc b →
  post links_tasks b (run_dependencies E run parallel reqs state deps acc b)
    (λ edges b', Forall (λ o, opt_in_range o b') edges ∧ acc.1 ⊆ edges ∧
      ∀ dep tasks dt, dep ∈ deps →
        resolve_tasks_from_target E (b_all_query b) (dep_target dep) true = Ok tasks →
        dt ∈ tasks → collected b' edges dt).
Proof.
  intros Hrun Hdeep Hskip. revert acc b.
  induction deps as [|d deps IH]; intros acc b Hok Hacc; cbn [run_dependencies].
  { apply post_ret; [apply _|done|]. split_and!; [apply Hacc|done|].
    by intros dep tasks dt ?%not_elem_of_nil. }
  pbind resolve_post. intros tasks b1 Hok1 [Hg1 _] [Hres Hkn].
  pbind run_dependency_tasks_post; [by eapply acc_ok_grows|].
  intros acc2 b2 Hok2 [Hg2 _] (Hacc2 & Hsub2 & Hall2).
  eapply post_weaken; [by apply IH|done|]. cbn.
  intros edges b3 Hok3 [Hg3 _] (He3 & Hsub3 & Hall3). split_and!; [done|set_solver|].
  intros dep tasks' dt [->|Hdep]%elem_of_cons Hres' Hdt.
  - rewrite Hres in Hres'. injection Hres' as <-.
    eapply collected_grows; [exact Hg3|exact Hsub3|auto].
  - apply (Hall3 dep tasks' dt Hdep); [|done].
    rewrite (grows_query _ _ Hg2), (grows_query _ _ Hg1). done.
Qed.

Lemma run_task_dependencies_post run task reqs state b :
  run_ok run → deep_reqs reqs → rr_skip_affected reqs = true → builder_ok b →
  post links_tasks b (run_task_dependencies E run task reqs state b)
    (λ edges b', Forall (λ o, opt_in_range o b') edges ∧
      ∀ dep tasks dt, dep ∈ t_deps task →
        resolve_tasks_from_target E (b_all_query b) (dep_target dep) true = Ok tasks →
        dt ∈ tasks → collected b' edges dt).
Proof.
  intros Hrun Hdeep Hskip Hok.
  eapply post_weaken; [apply run_dependencies_post; [done..|by split]|done|].
  cbn. intros edges b' _ _ (? & _ & ?). done.
Qed.

Lemma run_task_dependents_post run task reqs state b :
  run_ok run → deep_reqs reqs → builder_ok b →
  post links_tasks b (run_task_dependents E run task reqs state b) (λ _ _, True).
Proof.
  intros Hrun Hdeep Hok. unfold run_task_dependents.
  apply (post_for_each links_tasks _ _ _ (λ _, True)); [done|done|].
  intros target b1 Hok1 _ _. pbind resolve_post. intros tasks b2 Hok2 _ [_ Hkn].
  apply (post_for_each links_tasks _ _ _ (λ _, True)); [done|done|].
  intros t b3 Hok3 _ Hin. assert (deep = true → known t) by auto. pbind Hrun. intros o b4 Hok4 _ _. by apply post_ret; [apply _|..].
Qed.

(** ** One task *)

Lemma set_targets_ok b ignored ignored_dependents passthrough primary :
  b_passthrough_targets b ⊆ passthrough →
  (deep = true → adds_passed (b_passthrough_targets b) passthrough) → builder_ok b →
  builder_ok (b_set_targets b ignored ignored_dependents passthrough primary) ∧
  links_tasks b (b_set_targets b ignored ignored_dependents passthrough primary).
Proof.
  intros Hp Hnew [Hwf Hac Hn]. split; [by constructor|]. split; [by constructor|].
  intros Hd. split; [by apply adds_no_nodes|by apply Hnew].
Qed.

Lemma set_others_ok b ignored ignored_dependents primary :
  builder_ok b →
  builder_ok (b_set_targets b ignored ignored_dependents (b_passthrough_targets b) primary) ∧
  links_tasks b (b_set_targets b ignored ignored_dependents (b_passthrough_targets b) primary).
Proof. apply set_targets_ok; [done|]. by left. Qed.

(** Calls that change only the sets of targets. *)
Lemma put_targets_post b ignored ignored_dependents primary :
  builder_ok b →
  post links_tasks b
    (put (b_set_targets b ignored ignored_dependents (b_passthrough_targets b) primary) b)
    (λ _ _, True).
Proof. intros Hok. destruct (set_others_ok b ignored ignored_dependents primary Hok). by apply post_put. Qed.

Lemma insert_passthrough_post target b :
  (deep = true → passed target) → builder_ok b →
  post links_tasks b (insert_passthrough target b) (λ _ b', target ∈ b_passthrough_targets b').
Proof.
  intros Hp Hok. unfold insert_passthrough, mbind, build_m_bind, get. cbn [obind].
  destruct (set_targets_ok b (b_ignored_dependencies b) (b_ignored_dependents b)
    ({[target]} ∪ b_passthrough_targets b) (b_primary_targets b)); [set_solver| |done|].
  - intros Hd t [->%elem_of_singleton|?]%elem_of_union; [right|by left]. by apply Hp.
  - apply post_put; [done..|]. cbn. set_solver.
Qed.

Lemma remove_ignored_dependencies_post cond target b :
  builder_ok b →
  post links_tasks b (remove_ignored_dependencies cond target b) (λ _ b', b_nodes b' = b_nodes b).
Proof.
  intros Hok. unfold remove_ignored_dependencies.
  destruct (negb cond); [by apply post_ret; [apply _|..]|].
  intros r b' Hb. injection Hb as _ <-. by split_and!; [apply set_others_ok..|].
Qed.

Lemma remove_ignored_dependents_post cond target b :
  builder_ok b →
  post links_tasks b (remove_ignored_dependents cond target b) (λ _ b', b_nodes b' = b_nodes b).
Proof.
  intros Hok. unfold remove_ignored_dependents.
  destruct (negb cond); [by apply post_ret; [apply _|..]|].
  intros r b' Hb. injection Hb as _ <-. by split_and!; [apply set_others_ok..|].
Qed.
(** A node of a task that is inserted, and linked later on. *)
Lemma post_insert_task {A} task reqs config index b1 b2 (r : result (A * ActionGraphBuilder)) Q :
  insert_node (run_task_node task reqs config) b1 = Ok (index, b2) →
  (deep = true → known task) → builder_ok b1 → b_nodes b1 !! run_task_node task reqs config = None →
  post links_tasks b2 r (λ o b', Q o b' ∧ (deep = true → task_linked b' index task)) →
  post links_tasks b1 r Q.
Proof.
  intros Hb2 Hkn Hok1 Hnone Hp a b' Hr.
  destruct (insert_node_spec _ _ _ _ Hok1 Hnone Hb2) as (Hok2 & Hg2 & -> & Hn2 & _).
  destruct (Hp a b' Hr) as (Hok' & [Hg' Hl'] & HQ & Hlinked).
  assert (b_passthrough_targets b2 = b_passthrough_targets b1) as Hpass.
  { unfold insert_node, mbind, build_m_bind, get in Hb2. cbn in Hb2.
    destruct (dag_add_node _ _). by injection Hb2 as _ <-. }
  split_and!; [done| |done]. split; [by etrans|]. intros Hd.
  destruct (Hl' Hd) as [Hlink Hpassed]. rewrite Hpass in Hpassed. split; [|done].
  intros i node Hi Hn Hrt. destruct (decide (i = length (nodes_of b1))) as [->|Hne].
  - exists task, reqs, config. split_and!; [by auto| |by auto].
    assert (nodes_of b2 !! length (nodes_of b1) = Some (run_task_node task reqs config)) as Hn'
      by (rewrite Hn2; by rewrite list_lookup_middle).
    pose proof (prefix_lookup_Some _ _ _ _ Hn' (grows_nodes _ _ Hg')). congruence.
  - apply (Hlink i node); [|done..]. rewrite Hn2, length_app. cbn. lia.
Qed.

Lemma missing_after b b1 node :
  builder_ok b → builder_ok b1 → adds_no_task b b1 → is_run_task node →
  b_nodes b !! node = None → b_nodes b1 !! node = None.
Proof.
  intros Hok Hok1 [Hg [Hn _]] Hrt Hnone. destruct (b_nodes b1 !! node) as [i|] eqn:Hi; [|done].
  apply (ok_nodes _ Hok1) in Hi. destruct (decide (i < length (nodes_of b))) as [Hlt|Hge].
  - apply lookup_lt_is_Some in Hlt as [node' Hn'].
    pose proof (prefix_lookup_Some _ _ _ _ Hn' (grows_nodes _ _ Hg)) as Hn''.
    rewrite Hi in Hn''. injection Hn'' as <-. apply (ok_nodes _ Hok) in Hn'. congruence.
  - by destruct (Hn i node) as []; [lia|..].
Qed.

(** The links of a node, to the tasks that were collected for it. *)
Lemma link_task_post index task edges b :
  builder_ok b → in_range b index → Forall (λ o, opt_in_range o b) edges →
  (deep = true → ∀ dep tasks dt, dep ∈ t_deps task →
     resolve_tasks_from_target E (b_all_query b) (dep_target dep) true = Ok tasks → dt ∈ tasks →
     collected b edges dt) →
  post links_tasks b (link_optional_requirements index edges b)
    (λ _ b', deep = true → task_linked b' index task).
Proof.
  intros Hok Hi Hall Hc. apply links_of_no_task.
  eapply post_weaken; [by apply link_optional_requirements_post|done|].
  cbn. intros [] b' _ [Hg _] He Hd dep tasks dt Hdep Hres Hdt.
  rewrite (grows_query _ _ Hg) in Hres.
  destruct (Hc Hd dep tasks dt Hdep Hres Hdt) as [Hp|(j & Hj & Hn)].
  - left. by apply (grows_passthrough _ _ Hg).
  - right. exists j. split; [auto|by eapply node_of_task_grows].
Qed.

Lemma dependents_post run task reqs state (cond : bool) b :
  run_ok run → deep_reqs reqs → builder_ok b →
  post links_tasks b
    ((if cond then run_task_dependents E run task (rr_set_skip_affected reqs false) state
      else mret tt) b) (λ _ _, True).
Proof.
  intros Hrun Hdeep Hok. destruct cond; [|by apply post_ret; [apply _|..]].
  by apply run_task_dependents_post.
Qed.

Lemma new_dependents_post run task reqs state (cond : bool) b :
  run_ok run → deep_reqs reqs → builder_ok b →
  post links_tasks b
    ((if cond then run_task_dependents E run task (rr_set_skip_affected reqs false) state
      else insert_ignored_dependents (t_target task)) b) (λ _ _, True).
Proof.
  intros Hrun Hdeep Hok. destruct cond; [by apply run_task_dependents_post|].
  eapply post_weaken; [by apply put_targets_post|done..].
Qed.

(** What follows the insertion of the node. *)
Definition link_inserted (run : run_one_task) task reqs state (run_deps run_dependents : bool)
    index edges : build_m (option nat) :=
  more ← (if bool_decide (length (t_deps task) = 0) then mret []
          else if run_deps
          then run_task_dependencies E run task (rr_set_skip_affected reqs true) state
          else insert_ignored_dependencies task;; mret []);
  link_optional_requirements index (edges ++ more);;
  (if run_dependents
   then run_task_dependents E run task (rr_set_skip_affected reqs false) state
   else insert_ignored_dependents (t_target task));;
  mret (Some index).

Lemma new_dependencies_post run task reqs state (run_deps : bool) b :
  run_ok run → deep_reqs reqs → (deep = true → run_deps = true) → builder_ok b →
  post links_tasks b
    ((if bool_decide (length (t_deps task) = 0) then mret []
      else if run_deps
      then run_task_dependencies E run task (rr_set_skip_affected reqs true) state
      else insert_ignored_dependencies task;; mret []) b)
    (λ more b', Forall (λ o, opt_in_range o b') more ∧
      (deep = true → ∀ dep tasks dt, dep ∈ t_deps task →
        resolve_tasks_from_target E (b_all_query b) (dep_target dep) true = Ok tasks →
        dt ∈ tasks → collected b' more dt)).
Proof.
  intros Hrun Hdeep Hd Hok. case_bool_decide as Hlen; [|destruct run_deps].
  - apply post_ret; [apply _|done|]. split; [done|].
    intros _ dep tasks dt Hdep. apply nil_length_inv in Hlen. rewrite Hlen in Hdep. set_solver.
  - eapply post_weaken; [by apply run_task_dependencies_post|done|]. cbn. naive_solver.
  - unfold insert_ignored_dependencies. pbind put_targets_post. intros [] b1 Hok1 _ _.
    apply post_ret; [apply _|done|]. split; [done|]. intros Hd'. by specialize (Hd Hd').
Qed.

Lemma link_inserted_post run task reqs config state run_deps run_dependents index edges b :
  run_ok run → deep_reqs reqs → (deep = true → run_deps = true) → builder_ok b →
  nodes_of b !! index = Some (run_task_node task reqs config) →
  Forall (λ o, opt_in_range o b) edges →
  post links_tasks b
    (link_inserted run task reqs state run_deps run_dependents index edges b)
    (λ o b', ran task reqs config o b' ∧ (deep = true → task_linked b' index task)).
Proof.
  intros Hrun Hdeep Hd Hok Hindex Hedges. unfold link_inserted.
  pbind new_dependencies_post.
  intros more b1 Hok1 [Hg1 _] [Hmore Hc]. rewrite <- (grows_query _ _ Hg1) in Hc.
  pose proof (prefix_lookup_Some _ _ _ _ Hindex (grows_nodes _ _ Hg1)) as Hindex1.
  eapply post_bind; [apply _|apply (link_task_post index task); [done| | |]|].
  - exact (lookup_lt_Some _ _ _ Hindex1).
  - apply Forall_app. split; [|done]. eapply Forall_impl; [exact Hedges|].
    intros o. by apply opt_in_range_grows.
  - intros Hd' dep tasks dt Hdep Hres Hdt.
    eapply collected_grows; [reflexivity| |by eapply Hc]. set_solver.
  - intros [] b2 Hok2 [Hg2 _] Hlinked.
    eapply post_bind; [apply _|by apply new_dependents_post|]. intros [] b3 Hok3 [Hg3 _] _.
    apply post_ret; [apply _|done|]. split; [|intros Hd'; eapply task_linked_grows; eauto].
    eapply prefix_lookup_Some; [exact Hindex1|]. etrans; [apply Hg2|apply Hg3].
Qed.

Lemma insert_task_post run pr task reqs config state run_deps run_dependents b :
  run_ok run → (deep = true → known task) → deep_reqs reqs → (deep = true → run_deps = true) → builder_ok b →
  b_nodes b !! run_task_node task reqs config = None →
  post links_tasks b
    (insert_task E run pr task reqs state run_deps run_dependents
       (run_task_node task reqs config) b)
    (ran task reqs config).
Proof.
  intros Hrun Hkn Hdeep Hd Hok Hnone. unfold insert_task.
  intros o b' Hb. unfold mbind, build_m_bind at 1 in Hb.
  destruct (initial_edges E pr task reqs b) as [[edges b1]|e|] eqn:H1; [|done..].
  destruct (initial_edges_post E pr task reqs b Hok edges b1 H1) as (Hok1 & Hn1 & He1).
  pose proof (missing_after _ _ _ Hok Hok1 Hn1 ltac:(by eexists) Hnone) as Hnone1.
  cbn [obind] in Hb. unfold build_m_bind at 1 in Hb.
  destruct (insert_node (run_task_node task reqs config) b1) as [[index b2]|e|] eqn:H2; [|done..].
  cbn [obind] in Hb.
  destruct (insert_node_spec _ _ _ _ Hok1 Hnone1 H2) as (Hok2 & Hg2 & Hindex & Hn2 & _).
  enough (post links_tasks b1 (Ok (o, b')) (ran task reqs config)) as Hpost.
  { destruct (Hpost o b' eq_refl) as (? & ? & ?).
    split_and!; [done|etrans; [by apply adds_no_task_links|done]|done]. }
  rewrite <- Hb. eapply post_insert_task; [exact H2|done..|].
  apply link_inserted_post; [done..| |].
  - rewrite Hn2, Hindex. by rewrite list_lookup_middle.
  - eapply Forall_impl; [exact He1|]. intros ?. by apply opt_in_range_grows.
Qed.

Lemma revisit_task_post run task reqs config state had_dependencies had_dependents index b :
  run_ok run → deep_reqs reqs → builder_ok b →
  nodes_of b !! index = Some (run_task_node task reqs config) →
  post links_tasks b
    (revisit_task E run task reqs state had_dependencies had_dependents index b)
    (ran task reqs config).
Proof.
  intros Hrun Hdeep Hok Hindex. unfold revisit_task.
  eapply post_bind with (Q1 := λ _ _, True); [apply _| |].
  { destruct (_ && _); [|by apply post_ret; [apply _|..]].
    pbind run_task_dependencies_post. intros edges b1 Hok1 [Hg1 _] [He _].
    eapply post_weaken; [apply links_of_no_task, link_optional_requirements_post; [done| |done]|done..].
    eapply in_range_grows; [done|]. exact (lookup_lt_Some _ _ _ Hindex). }
  intros [] b1 Hok1 [Hg1 _] _. eapply post_bind; [apply _|by apply dependents_post|].
  intros [] b2 Hok2 [Hg2 _] _. apply post_ret; [apply _|done|].
  eapply prefix_lookup_Some; [exact Hindex|]. etrans; [apply Hg1|apply Hg2].
Qed.
Lemma get_post b :
  builder_ok b → post links_tasks b (get b) (λ b1 b2, b1 = b ∧ b2 = b).
Proof. intros Hok. by apply (post_get links_tasks b). Qed.

Lemma get_index_from_node_post node b :
  builder_ok b →
  post links_tasks b (get_index_from_node node b) (λ o b', b' = b ∧ o = b_nodes b !! node).
Proof.
  intros Hok. pbind get_post. intros ? ? _ _ [-> ->]. by apply (post_ret links_tasks b).
Qed.

(** [internal_run_task] inserts tasks that are linked to all they depend on. *)
Lemma internal_run_task_ok fuel : run_ok (internal_run_task E fuel).
Proof.
  induction fuel as [|fuel Hrun]; intros task reqs config state b Hkn Hdeep Hok; [done|].
  cbn [internal_run_task].
  eapply post_bind with (Q1 := λ _ _, True); [apply _|by apply post_lift; [apply _|..]|].
  intros id b1 Hok1 _ _.
  eapply post_bind with (Q1 := λ _ _, True); [apply _|by apply post_lift; [apply _|..]|].
  intros pr b2 Hok2 _ _.
  eapply post_bind; [apply _|by apply links_of_no_task, builder_is_task_affected_post|].
  intros affected b3 Hok3 _ Haff. cbn in Haff. destruct affected; cbn [negb]; [clear Haff|].
  2: { apply post_ret; [apply _|done|]. cbn. intros Hskip. by specialize (Haff Hskip). }
  pbind get_post. intros ? ? _ _ [-> ->].
  destruct (decide (t_target task ∈ b_passthrough_targets b3)) as [Hpass|_];
    [apply (post_ret links_tasks b3); [done|by intros _]|].
  destruct (rr_ci_check reqs && _) eqn:Hci.
  - eapply post_bind; [apply _|apply insert_passthrough_post; [|done]|].
    { intros Hd. apply andb_true_iff in Hci as [Hcheck Hrun'%negb_true_iff].
      destruct (Hdeep Hd) as (_ & Hc & Hr). exists task. rewrite <- Hc, <- Hr. auto. }
    intros [] b4 Hok4 _ Hin. cbn in Hin.
    eapply post_bind; [apply _|by apply dependents_post|]. intros [] b5 Hok5 [Hg5 _] _.
    apply post_ret; [apply _|done|]. intros _. by apply (grows_passthrough _ _ Hg5).
  - eapply post_bind; [apply _|by apply remove_ignored_dependencies_post|].
    intros had_dependencies b4 Hok4 _ _.
    eapply post_bind; [apply _|by apply remove_ignored_dependents_post|].
    intros had_dependents b5 Hok5 _ _. pbind get_index_from_node_post.
    cbn. intros o ? _ _ [-> ->]. destruct (b_nodes b5 !! _) as [index|] eqn:Ho.
    + apply revisit_task_post; [done..|]. by apply (ok_nodes _ Hok5).
    + apply insert_task_post; [done..| |done|done]. intros Hd. by rewrite (proj1 (Hdeep Hd)).
Qed.
End Tasks.
