(* ===== verification/BuilderRuns.v ===== *)
(** * Runs of the action graph builder

Sequences of calls of the builder's methods, the graph they leave behind and
what the pipeline is given: the graph is well formed and acyclic, its tasks are
linked, and it can be sorted. *)

From S2P Require Import Prelude Errors PooledTasks Target GraphUtils Config Affected.
From S2P Require Import ActionContext Action Dag Dispatcher ActionGraphBuilder.
From S2P Require Import BuilderFacts BuilderTasks.

Section Calls.
Context `{D : DagOps ActionNode TaskDependencyType, H : Host, P : Plugins, I : IdSyntax,
  X : FxHasher}.
Variable E : BuilderEnv.

(** The public methods that change a builder. *)
Inductive BuilderCall : Type :=
  | CSetAffected
  | CSetQuery (input : string)
  | CSetChangedFiles (files : list WorkspaceRelativePath)
  | CTrackAffected (up : UpstreamScope) (down : DownstreamScope) (ci_check : bool)
  | CInstallDependencies (spec : ToolchainSpec) (p : Project)
  | CInstallDependenciesByToolchains (p : Project) (toolchains : list Id)
  | CInstallDependenciesByProject (p : Project)
  | CInstallDependenciesRoot (spec : ToolchainSpec)
  | CRunTask (task : Task) (reqs : RunRequirements)
  | CRunTaskWithConfig (task : Task) (reqs : RunRequirements) (config : TaskDependencyConfig)
  | CRunTaskByTarget (target : Target) (reqs : RunRequirements)
  | CRunTaskByTargetLocator (locator : TargetLocator) (reqs : RunRequirements)
  | CRunTasks (locators : list TargetLocator) (reqs : RunRequirements)
  | CRunTasksWithPlan (targets : TargetsBlock) (reqs : RunRequirements)
  | CSetupEnvironment (spec : ToolchainSpec) (root : WorkspaceRelativePath) (p : Project)
  | CSetupEnvironmentRoot (spec : ToolchainSpec)
  | CSetupProto
  | CSetupToolchain (spec : ToolchainSpec) (p : option Project)
  | CSyncProject (p : Project) (reqs : RunRequirements)
  | CSyncWorkspace.

Definition ignore {A} (m : build_m A) : build_m unit := m;; mret tt.

Definition run_call (fuel : nat) (c : BuilderCall) : build_m unit :=
  match c with
  | CSetAffected => set_affected E
  | CSetQuery input => b ← get; put (set_query b input)
  | CSetChangedFiles files => b ← get; put (set_changed_files b files)
  | CTrackAffected up down ci_check => track_affected E up down ci_check
  | CInstallDependencies spec p => ignore (install_dependencies E spec p)
  | CInstallDependenciesByToolchains p l => ignore (install_dependencies_by_toolchains E p l)
  | CInstallDependenciesByProject p => ignore (install_dependencies_by_project E p)
  | CInstallDependenciesRoot spec => ignore (install_dependencies_root E spec)
  | CRunTask task reqs => ignore (run_task E fuel task reqs)
  | CRunTaskWithConfig task reqs config => ignore (run_task_with_config E fuel task reqs config)
  | CRunTaskByTarget target reqs => ignore (run_task_by_target E fuel target reqs)
  | CRunTaskByTargetLocator locator reqs => ignore (run_task_by_target_locator E fuel locator reqs)
  | CRunTasks locators reqs => ignore (run_tasks E fuel locators reqs)
  | CRunTasksWithPlan targets reqs => ignore (run_tasks_with_plan E fuel targets reqs)
  | CSetupEnvironment spec root p => ignore (setup_environment E spec root p)
  | CSetupEnvironmentRoot spec => ignore (setup_environment_root E spec)
  | CSetupProto => ignore (setup_proto E)
  | CSetupToolchain spec p => ignore (setup_toolchain E spec p)
  | CSyncProject p reqs => ignore (sync_project E p reqs)
  | CSyncWorkspace => ignore (sync_workspace E)
  end.

(** A builder, after some calls that all succeeded. *)
Definition run_calls (fuel : nat) (calls : list BuilderCall) : result ActionGraphBuilder :=
  let? ' (_, b) := for_each (run_call fuel) calls ActionGraphBuilder_new in Ok b.
End Calls.

Section Posts.
Context `{D : DagOps ActionNode TaskDependencyType, L : !DagLaws D, H : Host, P : Plugins,
  I : IdSyntax, X : FxHasher}.
Variable E : BuilderEnv.
Variable deep : bool.
Variable base : RunRequirements.
Variable known : Task → Prop.
Hypothesis Hknown : deep = true → ∀ all_query target allow_internal tasks t,
  resolve_tasks_from_target E all_query target allow_internal = Ok tasks → t ∈ tasks → known t.
Hypothesis Hqueried : deep = true → ∀ query tasks t,
  query_tasks (e_graph E) query = Ok tasks → t ∈ tasks → known t.
Implicit Types (b : ActionGraphBuilder) (task : Task).

Abbreviation links := (links_tasks E deep base known).

Lemma run_task_post fuel task reqs b :
  (deep = true → known task) → deep_reqs deep base reqs → builder_ok b →
  post links b (run_task E fuel task reqs b) (ran task reqs None).
Proof.
  intros Hkn Hdeep Hok. unfold run_task. pbind internal_run_task_ok. intros o b1 Hok1 _ Ho.
  destruct o as [index|]; [|by apply (post_ret links b1)].
  pbind get_post. intros ? ? _ _ [-> ->].
  eapply post_bind; [apply _| |].
  - apply (post_put _ _ _ (λ _ b', nodes_of b' = nodes_of b1)); [|by apply set_others_ok|done].
    by eapply (set_others_ok E deep base known b1).
  - intros [] b2 Hok2 _ Hn. apply (post_ret links b2); [done|]. cbn in *. by rewrite Hn.
Qed.

(** The indexes of the targets are of nodes of these targets. *)
Definition targets_ok (targets : gmap nat Target) b : Prop :=
  ∀ i target, targets !! i = Some target →
    ∃ inner, nodes_of b !! i = Some (RunTask inner) ∧ run_target inner = target.

Lemma targets_ok_grows targets b b' : grows b b' → targets_ok targets b → targets_ok targets b'.
Proof.
  intros Hg Ht i target (inner & Hi & <-)%Ht. exists inner. split; [|done].
  eapply prefix_lookup_Some; [exact Hi|apply Hg].
Qed.

(** A task is among the targets, unless it is passed through. *)
Definition requested b (targets : gmap nat Target) task : Prop :=
  t_target task ∈ b_passthrough_targets b ∨ ∃ i, targets !! i = Some (t_target task).

Lemma requested_mono b b' targets targets' task :
  grows b b' → targets ⊆ targets' → requested b targets task → requested b' targets' task.
Proof.
  intros Hg Ht [Hp|[i Hi]]; [left; by apply (grows_passthrough _ _ Hg)|right].
  exists i. by eapply lookup_weaken.
Qed.

(** The step of [run_all]. *)
Lemma ran_targets targets task reqs o b b' :
  grows b b' → targets_ok targets b → ran task reqs None o b' →
  let targets' := match o with Some index => <[index := t_target task]> targets
                  | None => targets end in
  targets_ok targets' b' ∧ targets ⊆ targets' ∧
  (rr_skip_affected reqs = true ∨ b_affected b' = None → requested b' targets' task).
Proof.
  intros Hg Ht Ho. apply (targets_ok_grows _ _ _ Hg) in Ht.
  destruct o as [index|]; cbn in *; [|by split_and!; [..|left; auto]]. split_and!.
  - intros i target [[<- <-]|[Hne Hi]]%lookup_insert_Some; [|by apply Ht].
    eexists. split; [exact Ho|done].
  - apply map_subseteq_spec. intros i target Hi.
    destruct (decide (index = i)) as [->|Hne]; [|by rewrite lookup_insert_ne].
    destruct (Ht i target Hi) as (inner & Hn & <-). rewrite Ho in Hn. injection Hn as <-.
    by rewrite lookup_insert_eq.
  - intros _. right. exists index. by rewrite lookup_insert_eq.
Qed.

Lemma run_all_post fuel reqs tasks targets b :
  deep_reqs deep base reqs → (deep = true → ∀ task, task ∈ tasks → known task) → builder_ok b → targets_ok targets b →
  post links b (run_all E fuel reqs tasks targets b)
    (λ targets' b', targets_ok targets' b' ∧ targets ⊆ targets' ∧
      (rr_skip_affected reqs = true ∨ b_affected b = None →
       ∀ task, task ∈ tasks → requested b' targets' task)).
Proof.
  intros Hdeep. revert targets b. induction tasks as [|task tasks IH]; intros targets b Hkn Hok Ht; cbn.
  { apply (post_ret links b); [done|]. split_and!; [done..|]. by intros _ task ?%not_elem_of_nil. }
  assert (deep = true → known task) by (intros Hd; apply (Hkn Hd); by left).
  assert (deep = true → ∀ task, task ∈ tasks → known task)
    by (intros Hd t ?; apply (Hkn Hd); by right).
  pbind run_task_post. intros o b1 Hok1 [Hg1 _] Ho.
  destruct (ran_targets _ _ _ _ _ _ Hg1 Ht Ho) as (Ht1 & Hsub1 & Hreq1).
  eapply post_weaken; [by apply IH|done|]. cbn.
  intros targets' b2 Hok2 [Hg2 _] (Ht2 & Hsub2 & Hreq2). split_and!; [done|by etrans|].
  intros Hskip task' Hin.
  assert (rr_skip_affected reqs = true ∨ b_affected b1 = None) as Hskip1
    by (rewrite (grows_affected _ _ Hg1); done).
  apply elem_of_cons in Hin as [->|Hin]; [|by apply Hreq2].
  eapply requested_mono; [exact Hg2|exact Hsub2|auto].
Qed.

Lemma lift_links_post {A} b (r : result A) :
  builder_ok b → post links b (lift r b) (λ a b', r = Ok a ∧ b' = b).
Proof. intros Hok. by apply post_lift; [apply _|..]. Qed.

Lemma locator_known all_query locator allow_internal tasks t :
  deep = true → resolve_tasks_from_target_locator E all_query locator allow_internal = Ok tasks →
  t ∈ tasks → known t.
Proof.
  intros Hd. unfold resolve_tasks_from_target_locator, resolve_tasks_from_globs.
  destruct locator as [task_id|original scope glob task_glob|target]; intros Hl Hin.
  - apply obind_Ok in Hl as (? & _ & Hl). apply obind_Ok in Hl as (? & _ & Hl). eauto.
  - apply obind_Ok in Hl as ([restriction|] & _ & Hl); [|by simplify_eq; apply not_elem_of_nil in Hin].
    apply obind_Ok in Hl as (found & Hf & [= <-]).
    apply list_elem_of_In, filter_In in Hin as [Hin%list_elem_of_In _]. eauto.
  - apply obind_Ok in Hl as (? & _ & Hl). eauto.
Qed.

Lemma resolve_locator_post locator allow_internal b :
  builder_ok b →
  post links b (internal_resolve_tasks_from_target_locator E locator allow_internal b)
    (λ tasks b', b' = b ∧ (deep = true → ∀ task, task ∈ tasks → known task)).
Proof.
  intros Hok. unfold internal_resolve_tasks_from_target_locator.
  pbind get_post. intros ? ? _ _ [-> ->].
  eapply post_weaken; [by apply lift_links_post|done|]. intros tasks ? _ _ [Ht ->].
  split; [done|]. intros Hd task. by eapply locator_known.
Qed.

Lemma resolve_locators_post locators b :
  builder_ok b → post links b (resolve_locators E locators b)
    (λ tasks b', b' = b ∧ (deep = true → ∀ task, task ∈ tasks → known task)).
Proof.
  revert b. induction locators as [|locator locators IH]; intros b Hok; cbn.
  { apply (post_ret links b); [done|]. split; [done|]. by intros _ task ?%not_elem_of_nil. }
  pbind resolve_locator_post. intros tasks b1 Hok1 _ [-> Hkn].
  pbind IH. intros rest b2 Hok2 _ [-> Hkn']. apply (post_ret links b); [done|].
  split; [done|]. intros Hd task [?|?]%elem_of_app; eauto.
Qed.

Lemma track_requested_post tasks reqs b :
  builder_ok b → post links b (track_requested E tasks reqs b) (λ _ _, True).
Proof.
  intros Hok. unfold track_requested. pbind get_post. intros ? ? _ _ [-> ->].
  destruct (b_affected b) as [a|] eqn:Ha; [|by apply (post_ret links b)].
  destruct (rr_skip_affected reqs); [by apply (post_ret links b)|].
  pbind lift_links_post. intros a' ? _ _ [_ ->].
  apply links_of_no_task, put_affected_post; [by rewrite Ha|done].
Qed.

Lemma affected_tasks_post reqs tasks b :
  builder_ok b →
  post links b (affected_tasks reqs tasks b) (λ l _, ∀ task, task ∈ l → task ∈ tasks).
Proof.
  revert b. induction tasks as [|task tasks IH]; intros b Hok; cbn.
  { by apply (post_ret links b). }
  eapply post_bind; [apply _|by apply links_of_no_task, builder_is_task_affected_post|].
  intros affected b1 Hok1 _ _. pbind IH. intros rest b2 Hok2 _ Hin. apply (post_ret links b2); [done|].
  intros t Ht. destruct affected; set_solver.
Qed.

Lemma partition_tasks_sub {A} i n (l l' : list A) size x :
  partition_tasks i n l = (l', size) → x ∈ l' → x ∈ l.
Proof.
  unfold partition_tasks. destruct (if i =? 0 then _ else _) as [start stop].
  intros [= <- _] Hx. destruct (start <? length l); [|done].
  destruct (stop <? length l); [apply elem_of_take in Hx as (k & Hx & _)|];
    [apply list_elem_of_lookup_2 in Hx|]; rewrite <- (take_drop start l); set_solver.
Qed.

Lemma job_tasks_post reqs tasks b :
  builder_ok b →
  post links b (job_tasks reqs tasks b)
    (λ r _, (∀ task, task ∈ r.1 → task ∈ tasks) ∧
      (rr_job reqs = None ∨ rr_job_total reqs = None → r.1 = tasks)).
Proof.
  intros Hok. unfold job_tasks. destruct (rr_job reqs) as [i|]; [|by apply (post_ret links b)].
  destruct (rr_job_total reqs) as [n|]; [|by apply (post_ret links b)].
  destruct (negb _); [by apply (post_ret links b)|].
  destruct (_ <? _); [by intros ? ?|].
  eapply post_bind with (Q1 := λ l _, ∀ task, task ∈ l → task ∈ tasks); [apply _| |].
  - destruct (rr_skip_affected reqs); [by apply (post_ret links b)|by apply affected_tasks_post].
  - intros tasks' b1 Hok1 _ Hin. destruct (partition_tasks i n tasks') as [l size] eqn:Hl.
    apply (post_ret links b1); [done|]. split; [|by intros []].
    intros task Ht. apply Hin. by eapply partition_tasks_sub.
Qed.

Lemma run_tasks_post fuel locators reqs b :
  deep_reqs deep base reqs → builder_ok b →
  post links b (run_tasks E fuel locators reqs b)
    (λ part b', targets_ok (rp_targets part) b' ∧
      ∃ tasks, resolve_locators E locators b = Ok (tasks, b) ∧
        (rr_skip_affected reqs = true ∨ b_affected b = None →
         rr_job reqs = None ∨ rr_job_total reqs = None →
         ∀ task, task ∈ tasks → requested b' (rp_targets part) task)).
Proof.
  intros Hdeep Hok part b' Hb. unfold run_tasks, mbind, build_m_bind at 1 in Hb.
  destruct (resolve_locators E locators b) as [[tasks b0]|e|] eqn:Hres; [|done..].
  destruct (resolve_locators_post locators b Hok tasks b0 Hres) as (_ & _ & -> & Hkn).
  cbn [obind] in Hb. revert part b' Hb.
  pbind track_requested_post. intros [] b1 Hok1 [Hg1 _] _.
  pbind job_tasks_post. intros [tasks' size] b2 Hok2 [Hg2 _] [Hin Hjob]. cbn in Hin.
  assert (deep = true → ∀ task, task ∈ tasks' → known task) by (intros Hd task ?%Hin; eauto).
  pbind run_all_post. intros targets b3 Hok3 _ (Ht & _ & Hreq).
  apply (post_ret links b3); [done|]. cbn. split; [done|]. exists tasks. split; [done|].
  intros Hskip Hj task Htask. cbn in Hjob. apply Hreq; [|by rewrite (Hjob Hj)].
  by rewrite (grows_affected _ _ Hg2), (grows_affected _ _ Hg1).
Qed.

Lemma run_tasks_with_plan_post fuel targets reqs b :
  deep_reqs deep base reqs → builder_ok b →
  post links b (run_tasks_with_plan E fuel targets reqs b) (λ _ _, True).
Proof.
  intros Hdeep Hok. unfold run_tasks_with_plan.
  destruct targets as [jobs|include|included].
  - destruct (rr_job reqs) as [i|]; [|by intros ? ?]. destruct (rr_job_total reqs) as [n|]; [|by intros ? ?].
    destruct (negb (0 <? n)); [by intros ? ?|]. destruct (_ <? i); [by intros ? ?|].
    destruct (negb _); [by intros ? ?|].
    pbind run_tasks_post. intros part b1 Hok1 _ _. by apply (post_ret links b1).
  - eapply post_weaken; [by apply run_tasks_post|done..].
  - eapply post_weaken; [by apply run_tasks_post|done..].
Qed.
End Posts.

(** ** Any sequence of calls *)

Section CallsOk.
Context `{D : DagOps ActionNode TaskDependencyType, L : !DagLaws D, H : Host, P : Plugins,
  I : IdSyntax, X : FxHasher}.
Variable E : BuilderEnv.
Implicit Types (b : ActionGraphBuilder) (task : Task).

(** Calls of which only the invariant is asked. *)
Definition any b b' : Prop := True.

#[local] Instance any_preorder : PreOrder any.
Proof. by split. Qed.

Lemma any_of {A} R b (r : result (A * ActionGraphBuilder)) Q : post R b r Q → post any b r Q.
Proof. intros Hp. by eapply post_weaken. Qed.

Lemma ignore_post {A} R b (m : build_m A) Q :
  post R b (m b) Q → post any b (ignore m b) (λ _ _, True).
Proof.
  intros Hp. unfold ignore. eapply post_bind; [apply _|by eapply any_of|].
  intros a b1 Hok1 _ _. by apply (post_ret any b1).
Qed.

Lemma put_same_graph b b' :
  builder_ok b → b_graph b' = b_graph b → b_nodes b' = b_nodes b →
  post any b (put b' b) (λ _ _, True).
Proof.
  intros [Hwf Hac Hn] Hg Hm. apply post_put; [|done..].
  constructor; [by rewrite Hg..|]. by rewrite Hg, Hm.
Qed.

Lemma get_any b : builder_ok b → post any b (get b) (λ b1 b2, b1 = b ∧ b2 = b).
Proof. intros Hok. by apply (post_get any b). Qed.

Lemma lift_any {A} b (r : result A) : builder_ok b → post any b (lift r b) (λ _ b', b' = b).
Proof. intros Hok. by apply (post_lift any b). Qed.

Lemma set_affected_any b : builder_ok b → post any b (set_affected E b) (λ _ _, True).
Proof.
  intros Hok. unfold set_affected. pbind get_any. intros ? ? _ _ [-> ->].
  destruct (b_affected b); [by apply (post_ret any b)|].
  pbind lift_any. intros files ? _ _ ->. by apply put_same_graph.
Qed.

Lemma track_affected_any up down ci_check b :
  builder_ok b → post any b (track_affected E up down ci_check b) (λ _ _, True).
Proof.
  intros Hok. unfold track_affected.
  eapply post_bind with (Q1 := λ _ b', b' = b); [apply _| |].
  { case_decide; [by apply (post_ret any b)|].
    pbind lift_any. intros ? ? _ _ ->. pbind lift_any. intros ? ? _ _ ->. by apply (post_ret any b). }
  intros [] ? _ _ ->. pbind set_affected_any. intros [] b1 Hok1 _ _.
  pbind get_any. intros ? ? _ _ [-> ->].
  destruct (b_affected b1) as [a|]; [|by apply (post_ret any b1)].
  pbind lift_any. intros a' ? _ _ ->. by apply put_same_graph.
Qed.

(** Calls with any requirements, of which no links are asked. *)
Abbreviation no_links := (RunRequirements_default false).
Abbreviation any_task := (λ _ : Task, True).

Lemma run_all_any fuel reqs tasks b :
  builder_ok b → post any b ((targets ← run_all E fuel reqs tasks ∅; mret (dom targets)) b)
    (λ _ _, True).
Proof.
  intros Hok. eapply post_bind; [apply _|eapply any_of, (run_all_post E false no_links any_task); [done..|]|].
  - by intros i target ?%lookup_empty_Some.
  - intros targets b1 Hok1 _ _. by apply (post_ret any b1).
Qed.

(** Every call keeps the invariant of the builder. *)
Lemma run_call_ok fuel c b :
  builder_ok b → post any b (run_call E fuel c b) (λ _ _, True).
Proof.
  intros Hok. assert (∀ reqs, deep_reqs false no_links reqs) as Hd by done.
  destruct c; cbn [run_call].
  - by apply set_affected_any.
  - pbind get_any. intros ? ? _ _ [-> ->]. by apply put_same_graph.
  - pbind get_any. intros ? ? _ _ [-> ->]. by apply put_same_graph.
  - by apply track_affected_any.
  - eapply ignore_post. by apply internal_install_dependencies_post.
  - eapply ignore_post. by apply install_dependencies_by_toolchains_post.
  - eapply ignore_post. by apply install_dependencies_by_toolchains_post.
  - eapply ignore_post. by apply install_dependencies_root_post.
  - eapply ignore_post. by apply (run_task_post E false no_links any_task).
  - eapply ignore_post. by apply (internal_run_task_ok E false no_links any_task).
  - eapply (ignore_post any). unfold run_task_by_target.
    eapply post_bind; [apply _|by eapply any_of, (resolve_post E false no_links any_task)|].
    intros tasks b1 Hok1 _ _. by apply run_all_any.
  - eapply (ignore_post any). unfold run_task_by_target_locator.
    eapply post_bind; [apply _|by eapply any_of, (resolve_locator_post E false no_links any_task)|].
    intros tasks b1 Hok1 _ _. by apply run_all_any.
  - eapply ignore_post. by apply (run_tasks_post E false no_links any_task).
  - eapply ignore_post. by apply (run_tasks_with_plan_post E false no_links any_task).
  - eapply ignore_post. by apply internal_setup_environment_post.
  - eapply ignore_post. by apply setup_environment_root_post.
  - eapply ignore_post. by apply setup_proto_post.
  - eapply ignore_post. by apply setup_toolchain_post.
  - eapply ignore_post. by apply internal_sync_project_post.
  - eapply ignore_post. by apply sync_workspace_post.
Qed.

Lemma run_calls_ok fuel calls b : run_calls E fuel calls = Ok b → builder_ok b.
Proof.
  unfold run_calls. intros Hb.
  destruct (for_each (run_call E fuel) calls ActionGraphBuilder_new) as [[[] b1]|e|] eqn:H1;
    cbn in Hb; [|done..]. injection Hb as <-.
  refine (proj1 (post_for_each any _ _ _ (λ _, True) builder_ok_new _ _ tt b1 H1)); [done|].
  intros c b0 Hok0 _ _. by apply run_call_ok.
Qed.
End CallsOk.
