(* ===== verification/BuilderSync.v ===== *)
(** * Syncing projects

[sync_project] succeeds on every workspace whose projects know each other, also
if their dependencies have cycles: the links it makes never close a cycle. *)

From S2P Require Import Prelude Errors PooledTasks Target GraphUtils Config Affected AffectedFacts.
From S2P Require Import ActionContext Action Dag Dispatcher ActionGraphBuilder BuilderFacts.
From S2P Require Import BuilderTasks BuilderRuns.

Section Sync.
Context `{D : DagOps ActionNode TaskDependencyType, L : !DagLaws D, H : Host, P : Plugins,
  I : IdSyntax, X : FxHasher}.
Variable E : BuilderEnv.
Variable reqs : RunRequirements.
Implicit Types (b : ActionGraphBuilder) (cycle : gset Id).
Local Notation W := (rg_workspace (e_graph E)).

(** The call succeeds. *)
Definition succeeds {A} (R : relation ActionGraphBuilder) b (r : result (A * ActionGraphBuilder))
    (Q : A → ActionGraphBuilder → Prop) : Prop :=
  ∃ a b', r = Ok (a, b') ∧ builder_ok b' ∧ R b b' ∧ Q a b'.

Lemma succeeds_bind {A B} R `{!Transitive R} b (m : build_m A) (f : A → build_m B) Q1 Q :
  succeeds R b (m b) Q1 →
  (∀ a b1, builder_ok b1 → R b b1 → Q1 a b1 → succeeds R b1 (f a b1) Q) →
  succeeds R b ((m ≫= f) b) Q.
Proof.
  intros (a & b1 & Hm & Hok1 & HR1 & HQ1) Hf.
  destruct (Hf a b1 Hok1 HR1 HQ1) as (c & b2 & Hc & Hok2 & HR2 & HQ2).
  exists c, b2. split_and!; [|done|by etrans|done].
  unfold mbind, build_m_bind. by rewrite Hm.
Qed.

Lemma succeeds_weaken {A} (R R' : relation ActionGraphBuilder) b (r : result (A * _)) Q Q' :
  succeeds R b r Q → (∀ b', R b b' → R' b b') →
  (∀ a b', builder_ok b' → R b b' → Q a b' → Q' a b') → succeeds R' b r Q'.
Proof. intros (a & b' & ? & ? & ? & ?) HR HQ. exists a, b'. auto. Qed.

Lemma succeeds_ret {A} R `{!Reflexive R} b (a : A) (Q : A → ActionGraphBuilder → Prop) :
  builder_ok b → Q a b → succeeds R b (mret (M := build_m) a b) Q.
Proof. intros Hok HQ. by exists a, b. Qed.

(** The projects on the path of the recursion: no action comes to require them. *)
Definition froze cycle b b' : Prop :=
  grows b b' ∧ ∀ id i x, id ∈ cycle → nodes_of b !! i = Some (SyncProject id) →
    edge_of (edges_of b') x i → edge_of (edges_of b) x i.

#[local] Instance froze_preorder cycle : PreOrder (froze cycle).
Proof.
  split; [by intros b; split|]. intros b1 b2 b3 [H12 F12] [H23 F23]. split; [by etrans|].
  intros id i x Hid Hi Hx. apply (F12 id); [done..|]. apply (F23 id); [done| |done].
  eapply prefix_lookup_Some; [exact Hi|apply H12].
Qed.

Lemma froze_subset cycle cycle' b b' : cycle ⊆ cycle' → froze cycle' b b' → froze cycle b b'.
Proof. intros Hs [Hg Hf]. split; [done|]. intros id i x Hid. apply Hf. by apply Hs. Qed.

(** Nothing requires the action at [i]. *)
Definition unrequired b (i : nat) : Prop := ∀ x, ¬ edge_of (edges_of b) x i.

Lemma froze_unrequired cycle b b' id i :
  froze cycle b b' → id ∈ cycle → nodes_of b !! i = Some (SyncProject id) →
  unrequired b i → unrequired b' i.
Proof. intros [_ Hf] Hid Hi Hu x Hx. eapply Hu, Hf; eauto. Qed.

Lemma edges_in_range b x i : builder_ok b → edge_of (edges_of b) x i → in_range b i.
Proof. intros Hok (e & He). by eapply (dag_edges_range _ _ _ _ (ok_wf _ Hok)), He. Qed.

Lemma insert_node_if_missing_ok cycle node b :
  builder_ok b →
  succeeds (froze cycle) b (insert_node_if_missing node b)
    (λ r b', nodes_of b' !! r.1 = Some node ∧ (r.2 = true → unrequired b' r.1)).
Proof.
  intros Hok. unfold insert_node_if_missing, get_index_from_node.
  unfold mbind, build_m_bind, get. cbn [obind mret build_m_ret].
  destruct (b_nodes b !! node) as [i|] eqn:Hi.
  - exists (i, false), b. repeat (split; [done|]). split; [by apply (ok_nodes _ Hok)|done].
  - destruct (insert_node node b) as [[i b']|e|] eqn:Hb.
    2,3: unfold insert_node, mbind, build_m_bind, get in Hb; cbn in Hb; by destruct (dag_add_node _ _).
    destruct (insert_node_spec _ _ _ _ Hok Hi Hb) as (Hok' & Hg & -> & Hn & He).
    exists (length (nodes_of b), true), b'. split; [done|]. split; [done|]. split; [|split].
    + split; [done|]. intros id i x _ _. by rewrite He.
    + rewrite Hn. by rewrite list_lookup_middle.
    + cbn. intros _ x Hx. rewrite He in Hx. apply edges_in_range in Hx; [|done].
      unfold in_range in Hx. lia.
Qed.

(** Links from an action that nothing requires. *)
Lemma link_requirement_ok i j b :
  builder_ok b → in_range b i → in_range b j → i ≠ j → unrequired b i →
  ∃ b', link_requirement i j b = Ok (tt, b') ∧ builder_ok b' ∧ grows b b' ∧
    ∀ x y, edge_of (edges_of b') x y → edge_of (edges_of b) x y ∨ x = i ∧ y = j.
Proof.
  intros Hok Hi Hj Hne Hu. unfold link_requirement, mbind, build_m_bind, get. cbn.
  destruct (dag_find_edge (b_graph b) i j) as [k|]; [exists b; repeat (split; [done|]); by left|].
  destruct (dag_add_edge (b_graph b) i j Required) as [[k g]|] eqn:Ha.
  - destruct (add_edge_ok b i j Required k g (b_serial_edges b) Hok Hi Hj Ha)
      as (Hok' & [Hg _] & _ & He).
    eexists. split_and!; [done..|]. intros x y. rewrite He.
    intros [?|[-> ->]]%edge_of_snoc; auto.
  - apply (dag_add_edge_None _ _ _ _ (ok_wf _ Hok) Hi Hj) in Ha.
    apply rtc_tc in Ha as [->|Ha]; [done|]. apply tc_last in Ha as (x & _ & Hx). by apply Hu in Hx.
Qed.

Lemma link_requirements_ok i js b :
  builder_ok b → in_range b i → Forall (λ j, in_range b j ∧ i ≠ j) js → unrequired b i →
  ∃ b', link_requirements i js b = Ok (tt, b') ∧ builder_ok b' ∧ grows b b' ∧
    ∀ x y, edge_of (edges_of b') x y → edge_of (edges_of b) x y ∨ x = i ∧ y ∈ js.
Proof.
  unfold link_requirements. revert b. induction js as [|j js IH]; intros b Hok Hi Hjs Hu; cbn.
  { exists b. repeat (split; [done|]). by left. }
  apply Forall_cons in Hjs as [[Hj Hne] Hjs].
  destruct (link_requirement_ok i j b Hok Hi Hj Hne Hu) as (b1 & Hb1 & Hok1 & Hg1 & He1).
  destruct (IH b1) as (b2 & Hb2 & Hok2 & Hg2 & He2); [done|by eapply in_range_grows| | |].
  - eapply Forall_impl; [exact Hjs|]. intros k [Hk ?]. split; [by eapply in_range_grows|done].
  - intros x [Hx|[_ ->]]%He1; [by eapply Hu|done].
  - exists b2. unfold mbind, build_m_bind. rewrite Hb1. cbn [obind].
    split_and!; [done|done|by etrans|].
    intros x y [[?|[-> ->]]%He1|[-> ?]]%He2; [by left|right..]; split; [done|by left|done|by right].
Qed.

(** ** The recursion *)

Variable ps : list Project.
(** The projects that are depended on are known. *)
Hypothesis closed : ∀ p id, p ∈ ps → id ∈ project_dependencies_of (e_graph E) p →
  ∃ q, get_project W id = Ok q ∧ q ∈ ps.

(** Whether a project is affected is not asked. *)
Definition unaffected b : Prop := rr_skip_affected reqs = true ∨ b_affected b = None.

Lemma unaffected_froze cycle b b' : froze cycle b b' → unaffected b → unaffected b'.
Proof. intros [Hg _] [?|Ha]; [by left|right]. by apply (grows_affected _ _ Hg). Qed.

Lemma project_affected p b : unaffected b → builder_is_project_affected p reqs b = Ok (true, b).
Proof.
  intros Hu. unfold builder_is_project_affected, mbind, build_m_bind, get. cbn [obind].
  destruct Hu as [-> | ->]; [by destruct (b_affected b)|done].
Qed.

(** The index of a project that is not in the cycle. *)
Definition outside cycle (j : nat) b : Prop :=
  ∃ id, nodes_of b !! j = Some (SyncProject id) ∧ id ∉ cycle.

Lemma outside_grows cycle j b b' : grows b b' → outside cycle j b → outside cycle j b'.
Proof.
  intros Hg (id & Hj & Hid). exists id. split; [|done].
  eapply prefix_lookup_Some; [exact Hj|apply Hg].
Qed.

(** The action of a project, which is missing if it is disabled or on the path. *)
Definition sync_result cycle p (o : option nat) b : Prop :=
  match o with
  | Some j => nodes_of b !! j = Some (SyncProject (p_id p)) ∧ p_id p ∉ cycle
  | None => PipelineActionSwitch_is_enabled (opt_sync_projects (e_options E)) (p_id p) = false ∨
      p_id p ∈ cycle
  end.

Definition synced cycle (sync : Project → build_m (option nat)) : Prop :=
  ∀ q b, q ∈ ps → builder_ok b → unaffected b →
    succeeds (froze cycle) b (sync q b) (sync_result cycle q).

Lemma sync_dependencies_ok cycle sync index ids b :
  synced cycle sync → (∀ id, id ∈ ids → ∃ q, get_project W id = Ok q ∧ q ∈ ps) →
  builder_ok b → unaffected b →
  succeeds (froze cycle) b (sync_dependencies E sync index cycle ids b)
    (λ l b', Forall (λ j, outside cycle j b' ∧ index ≠ j) l).
Proof.
  intros Hsync. revert b. induction ids as [|id ids IH]; intros b Hids Hok Hu; cbn.
  { by apply succeeds_ret; [apply _|..]. }
  case_decide; [apply IH; [|done..]; intros; apply Hids; by right|].
  destruct (Hids id) as (q & Hq & Hin); [by left|].
  eapply succeeds_bind with (Q1 := λ a b1, a = q ∧ b1 = b); [apply _| |].
  { unfold lift. rewrite Hq. by apply succeeds_ret; [apply _|..]. }
  intros ? ? _ _ [-> ->]. eapply succeeds_bind; [apply _|by apply Hsync|].
  intros o b1 Hok1 Hf1 Ho. eapply succeeds_bind; [apply _|apply IH; [|done|]|].
  { intros; apply Hids; by right. }
  { by eapply unaffected_froze. }
  intros l b2 Hok2 [Hg2 _] Hl. apply succeeds_ret; [apply _|done|].
  destruct o as [j|]; [|done]. case_decide; [done|]. constructor; [|done].
  split; [|done]. eapply outside_grows; [done|]. by exists (p_id q).
Qed.

(** The links of a project do not lead to projects on the path. *)
Lemma link_project_ok cycle index id js b :
  builder_ok b → nodes_of b !! index = Some (SyncProject id) → unrequired b index →
  Forall (λ j, index ≠ j ∧
    (nodes_of b !! j = Some SyncWorkspace ∨ outside cycle j b)) js →
  succeeds (froze cycle) b (link_requirements index js b) (λ _ _, True).
Proof.
  intros Hok Hi Hu Hjs.
  destruct (link_requirements_ok index js b) as (b' & Hb' & Hok' & Hg' & He'); [done| | |done|].
  - exact (lookup_lt_Some _ _ _ Hi).
  - eapply Forall_impl; [exact Hjs|]. intros j [Hne Hj]. split; [|done].
    destruct Hj as [Hj|(? & Hj & _)]; exact (lookup_lt_Some _ _ _ Hj).
  - exists tt, b'. split; [done|]. split; [done|]. split; [|done]. split; [done|].
    intros id' i x Hid Hi' [?|[-> Hij]]%He'; [done|]. exfalso.
    rewrite Forall_forall in Hjs. destruct (Hjs i Hij) as [_ [Hj|(id2 & Hj & Hn)]]; congruence.
Qed.

Definition project_ids : gset Id := list_to_set (p_id <$> ps).

Lemma project_ids_size : size project_ids ≤ length ps.
Proof.
  unfold project_ids. etrans; [apply size_list_to_set_le|]. by rewrite length_fmap.
Qed.

Lemma sync_workspace_ok cycle b :
  builder_ok b →
  succeeds (froze cycle) b (sync_workspace E b)
    (λ o b', ∀ w, o = Some w → nodes_of b' !! w = Some SyncWorkspace).
Proof.
  intros Hok. unfold sync_workspace. destruct (negb _); [by apply succeeds_ret; [apply _|..]|].
  eapply succeeds_bind; [apply _|by apply insert_node_if_missing_ok|].
  intros [i fresh] b1 Hok1 _ [Hi _]. apply succeeds_ret; [apply _|done|]. by intros w [= <-].
Qed.

(** Below a project, the path is longer. *)
Lemma synced_below fuel p cycle index b :
  synced ({[p_id p]} ∪ cycle)
    (λ q, internal_sync_project E fuel q reqs ({[p_id p]} ∪ cycle)) →
  p ∈ ps → builder_ok b → unaffected b →
  nodes_of b !! index = Some (SyncProject (p_id p)) → unrequired b index →
  succeeds (froze cycle) b
    ((if opt_sync_project_dependencies (e_options E)
      then sync_dependencies E
             (λ q, internal_sync_project E fuel q reqs ({[p_id p]} ∪ cycle))
             index ({[p_id p]} ∪ cycle) (project_dependencies_of (e_graph E) p)
      else mret []) b)
    (λ l b', Forall (λ j, outside ({[p_id p]} ∪ cycle) j b' ∧ index ≠ j) l ∧ unrequired b' index).
Proof.
  intros Hsync Hp Hok Hu Hi Hun. destruct (opt_sync_project_dependencies (e_options E)).
  - eapply succeeds_weaken; [apply sync_dependencies_ok; [done| |done..]| |].
    + intros id. by apply closed.
    + intros b'. apply froze_subset. set_solver.
    + cbn. intros l b' _ Hf Hl. split; [done|].
      eapply froze_unrequired; [exact Hf| |exact Hi|done]. set_solver.
  - by apply succeeds_ret; [apply _|..].
Qed.

Lemma path_longer p cycle fuel :
  p ∈ ps → p_id p ∉ cycle → size (project_ids ∖ cycle) < S fuel →
  size (project_ids ∖ ({[p_id p]} ∪ cycle)) < fuel.
Proof.
  clear closed. intros Hp Hid Hlt. assert (p_id p ∈ project_ids) as Hin.
  { apply elem_of_list_to_set, list_elem_of_fmap. by exists p. }
  enough (size (project_ids ∖ ({[p_id p]} ∪ cycle)) < size (project_ids ∖ cycle)) by lia.
  apply subset_size. set_solver.
Qed.

Lemma internal_sync_project_ok fuel p cycle b :
  size (project_ids ∖ cycle) < fuel → p ∈ ps → builder_ok b → unaffected b →
  succeeds (froze cycle) b (internal_sync_project E fuel p reqs cycle b) (sync_result cycle p).
Proof.
  revert p cycle b. induction fuel as [|fuel IH]; intros p cycle b Hfuel Hp Hok Hu; [lia|].
  cbn [internal_sync_project].
  destruct (PipelineActionSwitch_is_enabled _ _) eqn:Hen; cbn [negb orb];
    [|apply succeeds_ret; [apply _|done|by left]].
  case_bool_decide as Hid; [apply succeeds_ret; [apply _|done|by right]|].
  eapply succeeds_bind with (Q1 := λ r b1, r = true ∧ b1 = b); [apply _| |].
  { rewrite project_affected by done. by apply (succeeds_ret (froze cycle)). }
  intros ? ? _ _ [-> ->]. cbn [negb].
  eapply succeeds_bind; [apply _|by apply sync_workspace_ok|]. intros ws b1 Hok1 Hf1 Hws.
  eapply succeeds_bind; [apply _|by apply insert_node_if_missing_ok|].
  intros [index fresh] b2 Hok2 Hf2 [Hi Hun]. cbn in Hi, Hun.
  destruct fresh; cbn [negb]; [specialize (Hun eq_refl)|].
  2: { by apply succeeds_ret; [apply _|..]. }
  assert (unaffected b2) as Hu2 by (do 2 (eapply unaffected_froze; [done|]); done).
  eapply succeeds_bind; [apply _|apply synced_below; [|done..]|].
  { intros q b' Hq Hok' Hu'. apply IH; [by apply path_longer|done..]. }
  intros l b3 Hok3 [Hg3 Hf3] [Hl Hun3].
  pose proof (prefix_lookup_Some _ _ _ _ Hi (grows_nodes _ _ Hg3)) as Hi3.
  eapply succeeds_bind; [apply _|eapply link_project_ok; [done|exact Hi3|done|]|].
  - assert (Forall (λ j, index ≠ j ∧
      (nodes_of b3 !! j = Some SyncWorkspace ∨ outside cycle j b3)) l) as Hl'.
    { eapply Forall_impl; [exact Hl|]. intros j [(id & Hj & Hn) Hne]. split; [done|].
      right. exists id. split; [done|set_solver]. }
    destruct ws as [w|]; [|done]. constructor; [|done].
    assert (nodes_of b3 !! w = Some SyncWorkspace) as Hw.
    { eapply prefix_lookup_Some; [by apply Hws|]. etrans; [apply Hf2|apply Hg3]. }
    split; [congruence|by left].
  - intros [] b4 Hok4 [Hg4 _] _. apply succeeds_ret; [apply _|done|]. split; [|done].
    eapply prefix_lookup_Some; [exact Hi3|apply Hg4].
Qed.
End Sync.
