(* ===== verification/BuilderTerm.v ===== *)
(** * Termination of the action graph builder

The recursions of the builder stop: toolchains and projects are followed along
paths without repetitions, and every task that is run either adds something to
the graph or takes something off the lists of what was put off. *)

From S2P Require Import Prelude Errors PooledTasks Target GraphUtils Config Affected AffectedFacts.
From S2P Require Import ActionContext Action Dag Dispatcher ActionGraphBuilder BuilderFacts.
From S2P Require Import BuilderTasks BuilderRuns BuilderSync.

(** ** The actions that are not tasks *)

(** The calls the builder makes to plugins, to the file system and to the
    workspace graph return, with a result or an error. *)
Record env_returns `{P : Plugins, I : IdSyntax} (E : BuilderEnv) : Prop := {
  load_returns : ∀ id, plugin_load id ≠ OutOfFuel;
  requirements_returns : ∀ id p, define_requirements id p ≠ OutOfFuel;
  locate_returns : ∀ id p, plugin_locate_dependencies_root id p ≠ OutOfFuel;
  relative_returns : ∀ path base, relative_to path base ≠ OutOfFuel;
  globs_returns : ∀ patterns path, globs_match patterns path ≠ OutOfFuel;
  project_returns : ∀ id, get_project (rg_workspace (e_graph E)) id ≠ OutOfFuel;
  projects_returns : get_projects (rg_workspace (e_graph E)) ≠ OutOfFuel;
  query_returns : ∀ query, query_projects (e_graph E) query ≠ OutOfFuel;
  task_returns : ∀ p name, get_task_from_project (e_graph E) p name ≠ OutOfFuel;
  tasks_returns : ∀ p, get_tasks_from_project (e_graph E) p ≠ OutOfFuel;
}.

(** The identifiers under which settings of toolchains are found. *)
Definition plugin_ids {A} (plugins : gmap Id A) : gset Id :=
  dom plugins ∪ set_map Id_stable (dom plugins) ∪
  set_map (String.append "unstable_") (dom plugins).

Lemma lookup_plugin_known {A} (plugins : gmap Id A) id a :
  lookup_plugin plugins id = Some a → id ∈ plugin_ids plugins.
Proof.
  unfold lookup_plugin, stable_and_unstable, plugin_ids. rewrite !elem_of_union, !elem_of_map.
  destruct (plugins !! Id_stable id) as [a'|] eqn:Hs; [intros _|intros Hu].
  - apply elem_of_dom_2 in Hs. unfold Id_stable in Hs.
    destruct (strip_prefix "unstable_" id) as [r|] eqn:Hr; [|by left; left].
    apply strip_prefix_Some in Hr. right. by exists r.
  - apply elem_of_dom_2 in Hu. unfold Id_unstable in Hu.
    destruct (starts_with "unstable_" id); [by left; left|]. left. right.
    eexists. split; [|exact Hu]. unfold Id_stable.
    assert (strip_prefix "unstable_" (String.append "unstable_" id) = Some id) as ->; [|done].
    by apply strip_prefix_Some.
Qed.

Lemma plugin_ids_size {A} (plugins : gmap Id A) : size (plugin_ids plugins) ≤ 3 * size plugins.
Proof.
  unfold plugin_ids. rewrite <- (size_dom plugins).
  pose proof (size_union_le (dom plugins ∪ set_map Id_stable (dom plugins))
    (set_map (String.append "unstable_") (dom plugins))).
  pose proof (size_union_le (dom plugins) (set_map Id_stable (dom plugins))).
  pose proof (size_set_map_le Id_stable (dom plugins)).
  pose proof (size_set_map_le (String.append "unstable_") (dom plugins)). lia.
Qed.

Section Safe.
Context `{D : DagOps ActionNode TaskDependencyType, H : Host, P : Plugins, I : IdSyntax,
  X : FxHasher}.
Variable E : BuilderEnv.
Hypothesis returns_E : env_returns E.
Implicit Types (b : ActionGraphBuilder) (p : option Project) (cycle : gset Id).

(** The call returns, and affected tracking is still off. *)
Definition fine {A} (r : result (A * ActionGraphBuilder)) : Prop :=
  r ≠ OutOfFuel ∧ ∀ a b', r = Ok (a, b') → b_affected b' = None.

Definition safe {A} (m : build_m A) : Prop := ∀ b, b_affected b = None → fine (m b).

Lemma fine_bind {A B} (m : build_m A) (f : A → build_m B) b :
  fine (m b) → (∀ a b1, m b = Ok (a, b1) → b_affected b1 = None → fine (f a b1)) →
  fine ((m ≫= f) b).
Proof.
  intros [Hm Ha] Hf. unfold mbind, build_m_bind. destruct (m b) as [[a b1]|e|]; cbn; [|done..].
  apply Hf; [done|by eapply Ha].
Qed.

Lemma safe_bind {A B} (m : build_m A) (f : A → build_m B) :
  safe m → (∀ a, safe (f a)) → safe (m ≫= f).
Proof. intros Hm Hf b Hb. apply fine_bind; [by apply Hm|]. intros a b1 _ H1. by apply Hf. Qed.

Lemma safe_ret {A} (a : A) : safe (mret a).
Proof. intros b Hb. split; [done|]. by intros ? ? [= _ <-]. Qed.

Lemma safe_lift {A} (r : result A) : r ≠ OutOfFuel → safe (lift r).
Proof.
  intros Hr b Hb. unfold lift. destruct r; cbn; [|by split..]. split; [done|]. by intros ? ? [= _ <-].
Qed.

(** What reads the builder first. *)
Lemma safe_get {A} (f : ActionGraphBuilder → build_m A) :
  (∀ b, b_affected b = None → fine (f b b)) → safe (get ≫= f).
Proof. intros Hf b Hb. apply fine_bind; [split; [done|by intros ? ? [= _ <-]]|].
  intros a b1 [= <- <-] _. by apply Hf. Qed.

Lemma fine_put b b' : b_affected b' = None → fine (put b' b).
Proof. intros Hb. split; [done|]. by intros ? ? [= _ <-]. Qed.

Lemma safe_if {A} (c : bool) (m1 m2 : build_m A) : safe m1 → safe m2 → safe (if c then m1 else m2).
Proof. by destruct c. Qed.

Lemma safe_for_each {A} (f : A → build_m unit) l : (∀ x, safe (f x)) → safe (for_each f l).
Proof.
  intros Hf. induction l as [|x l IH]; cbn; [apply safe_ret|]. by apply safe_bind.
Qed.

Create HintDb safe.

(** Sequences of safe calls. *)
Ltac safely := repeat first
  [ solve [eauto with safe]
  | match goal with
    | |- ∀ _, _ => intro
    | |- safe (mret _) => apply safe_ret
    | |- safe (mbind _ _) => apply safe_bind
    | |- safe (lift _) => apply safe_lift; done
    | |- safe (if ?c then _ else _) => destruct c
    | |- safe (match ?o with _ => _ end) => destruct o
    end ].

Lemma id_check_safe s : safe (lift (id_check s)).
Proof. apply safe_lift. unfold id_check. by destruct (id_new s). Qed.
#[local] Hint Resolve id_check_safe : safe.

Lemma insert_node_safe node : safe (insert_node node).
Proof.
  apply safe_get. intros b Hb. destruct (dag_add_node (b_graph b) node) as [i g].
  apply fine_bind; [by apply fine_put|]. intros [] b1 _ H1. by apply safe_ret.
Qed.
#[local] Hint Resolve insert_node_safe : safe.

Lemma insert_node_if_missing_safe node : safe (insert_node_if_missing node).
Proof.
  unfold insert_node_if_missing, get_index_from_node. apply safe_bind.
  - apply safe_get. intros b Hb. by apply safe_ret.
  - safely.
Qed.
#[local] Hint Resolve insert_node_if_missing_safe : safe.

Lemma weight_label_safe g i : weight_label g i ≠ OutOfFuel.
Proof. unfold weight_label. by destruct (dag_node_weight g i). Qed.

Lemma link_requirement_safe i j : safe (link_requirement i j).
Proof.
  apply safe_get. intros b Hb. destruct (dag_find_edge _ _ _); [by apply safe_ret|].
  destruct (dag_add_edge _ _ _ _) as [[k g]|]; [by apply fine_put|].
  revert b Hb. change (safe (λ b, (source_action ← lift (weight_label (b_graph b) i);
    target_action ← lift (weight_label (b_graph b) j);
    lift (Err (RActionGraph (AG_WouldCycle source_action target_action)) : result unit)) b)).
  intros b Hb. apply fine_bind; [by apply safe_lift; [apply weight_label_safe|]|].
  intros l1 b1 _ H1. apply fine_bind; [by apply safe_lift; [apply weight_label_safe|]|].
  intros l2 b2 _ H2. by apply safe_lift.
Qed.
#[local] Hint Resolve link_requirement_safe : safe.

Lemma link_requirements_safe i js : safe (link_requirements i js).
Proof. apply safe_for_each. auto with safe. Qed.
#[local] Hint Resolve link_requirements_safe : safe.

Lemma link_optional_requirements_safe i js : safe (link_optional_requirements i js).
Proof. apply link_requirements_safe. Qed.
#[local] Hint Resolve link_optional_requirements_safe : safe.

Lemma link_first_requirement_safe i js : safe (link_first_requirement i js).
Proof. unfold link_first_requirement. safely. Qed.
#[local] Hint Resolve link_first_requirement_safe : safe.

Lemma sync_workspace_safe : safe (sync_workspace E).
Proof. unfold sync_workspace. safely. Qed.
#[local] Hint Resolve sync_workspace_safe : safe.

Lemma setup_proto_safe : safe (setup_proto E).
Proof. unfold setup_proto. safely. Qed.
#[local] Hint Resolve setup_proto_safe : safe.

(** *** Toolchains *)

(** The toolchains that can be set up for a project. *)
Definition toolchain_ids p : gset Id :=
  plugin_ids (tcs_plugins (e_toolchains_config E)) ∪
  from_option (λ pr, plugin_ids (config_toolchains (p_config pr))) ∅ p.

Lemma toolchain_ids_size p : 1 + size (toolchain_ids p) < toolchain_fuel E p.
Proof.
  unfold toolchain_ids, toolchain_fuel.
  pose proof (plugin_ids_size (tcs_plugins (e_toolchains_config E))).
  pose proof (size_union_le (plugin_ids (tcs_plugins (e_toolchains_config E)))
    (from_option (λ pr, plugin_ids (config_toolchains (p_config pr))) ∅ p)).
  destruct p as [pr|]; cbn in *; [|rewrite size_empty in *; lia].
  pose proof (plugin_ids_size (config_toolchains (p_config pr))). lia.
Qed.

Lemma get_workspace_spec_known id spec :
  get_workspace_spec E id = Some spec →
  spec_id spec = id ∧ id ∈ plugin_ids (tcs_plugins (e_toolchains_config E)).
Proof.
  unfold get_workspace_spec, ToolchainsConfig_get_plugin_config.
  destruct (lookup_plugin _ id) as [config|] eqn:Hl; [|done].
  apply lookup_plugin_known in Hl. intros [= <-]. by destruct (tc_version config).
Qed.

Lemma get_spec_known p id spec :
  get_spec E id p = Some spec → spec_id spec = id ∧ id ∈ toolchain_ids p.
Proof.
  unfold toolchain_ids. rewrite elem_of_union. destruct p as [pr|]; cbn.
  - unfold get_project_spec. destruct (lookup_plugin _ id) as [config|] eqn:Hl.
    + apply lookup_plugin_known in Hl. destruct (negb _); [done|].
      destruct (ProjectToolchainEntry_get_version config); [intros [= <-]; auto|].
      intros [? ?]%get_workspace_spec_known. auto.
    + intros [? ?]%get_workspace_spec_known. auto.
  - intros [? ?]%get_workspace_spec_known. auto.
Qed.

Lemma setup_requirements_safe spec p cycle setup requires :
  (∀ spec', spec_id spec' ∈ toolchain_ids p → spec_id spec' ∉ cycle → safe (setup spec')) →
  safe (setup_requirements E spec p cycle setup requires).
Proof.
  intros Hsetup. induction requires as [|r requires IH]; cbn; [apply safe_ret|].
  apply safe_bind; [auto with safe|]. intros []. case_decide; [done|]. case_decide; [done|].
  destruct (get_spec E r p) as [rspec|] eqn:Hr; [|by apply safe_lift].
  apply get_spec_known in Hr as [<- Hr]. apply safe_bind; [by apply Hsetup|]. safely.
Qed.

(** One level of the recursion. *)
Lemma setup_toolchain_level fuel spec p cycle :
  (∀ spec', spec_id spec' ∈ toolchain_ids p → spec_id spec' ∉ {[spec_id spec]} ∪ cycle →
     safe (internal_setup_toolchain E fuel spec' p ({[spec_id spec]} ∪ cycle))) →
  safe (internal_setup_toolchain E (S fuel) spec p cycle).
Proof.
  intros Hrec. cbn [internal_setup_toolchain].
  pose proof (load_returns E returns_E (spec_id spec)).
  pose proof (requirements_returns E returns_E (spec_id spec) p).
  apply safe_if; [apply safe_ret|]. apply safe_bind; [by apply safe_lift|]. intros _.
  apply safe_bind; [by apply safe_lift|]. intros output. apply safe_bind.
  - apply safe_if; [by apply setup_requirements_safe|apply safe_ret].
  - intros edges. safely.
Qed.

Lemma internal_setup_toolchain_safe fuel spec p cycle :
  spec_id spec ∈ toolchain_ids p → spec_id spec ∉ cycle → size (toolchain_ids p ∖ cycle) < fuel →
  safe (internal_setup_toolchain E fuel spec p cycle).
Proof.
  revert spec cycle. induction fuel as [|fuel IH]; intros spec cycle Hin Hc Hlt; [lia|].
  apply setup_toolchain_level. intros spec' Hin' Hc'. apply IH; [done..|].
  enough (size (toolchain_ids p ∖ ({[spec_id spec]} ∪ cycle)) < size (toolchain_ids p ∖ cycle)) by lia.
  apply subset_size. clear IH Hlt Hin' Hc'. set_solver.
Qed.

Lemma setup_toolchain_safe spec p : safe (setup_toolchain E spec p).
Proof.
  unfold setup_toolchain. pose proof (toolchain_ids_size p) as Hlt.
  destruct (toolchain_fuel E p) as [|fuel]; [lia|]. apply setup_toolchain_level.
  intros spec' Hin Hc. apply internal_setup_toolchain_safe; [done..|].
  pose proof (subseteq_size (toolchain_ids p ∖ ({[spec_id spec]} ∪ ∅)) (toolchain_ids p)
    ltac:(set_solver)). lia.
Qed.
#[local] Hint Resolve setup_toolchain_safe : safe.

Lemma locate_dependencies_root_safe spec p : safe (lift (locate_dependencies_root spec p)).
Proof.
  apply safe_lift. unfold locate_dependencies_root.
  pose proof (load_returns E returns_E (spec_id spec)).
  destruct (plugin_load (spec_id spec)); cbn; [|done..].
  destruct (negb _); [done|]. apply (locate_returns E returns_E).
Qed.
#[local] Hint Resolve locate_dependencies_root_safe : safe.

Lemma internal_setup_environment_safe spec root p cycle :
  safe (internal_setup_environment E spec root p cycle).
Proof.
  unfold internal_setup_environment.
  pose proof (load_returns E returns_E (spec_id spec)).
  pose proof (requirements_returns E returns_E (spec_id spec) p).
  apply safe_if; [apply safe_ret|]. apply safe_bind; [by apply safe_lift|]. intros _.
  apply safe_bind; [by apply safe_lift|]. intros output. apply safe_bind.
  - apply safe_if; [|apply safe_ret]. apply setup_requirements_safe. auto with safe.
  - safely.
Qed.
#[local] Hint Resolve internal_setup_environment_safe : safe.

Lemma install_in_workspace_safe spec p w role ws tc :
  safe (install_in_workspace E spec p w role ws tc).
Proof.
  unfold install_in_workspace. apply safe_bind; [apply safe_lift, (relative_returns E returns_E)|].
  safely.
Qed.
#[local] Hint Resolve install_in_workspace_safe : safe.

Lemma in_dependencies_workspace_safe w path : safe (lift (in_dependencies_workspace w path)).
Proof.
  apply safe_lift. unfold in_dependencies_workspace. case_decide; [done|].
  destruct (dw_members w) as [members|]; [|done].
  pose proof (globs_returns E returns_E members (default path (path_strip_prefix path (dw_root w)))).
  by destruct (globs_match _ _).
Qed.
#[local] Hint Resolve in_dependencies_workspace_safe : safe.

Lemma internal_install_dependencies_safe spec p : safe (internal_install_dependencies E spec p).
Proof.
  unfold internal_install_dependencies. pose proof (load_returns E returns_E (spec_id spec)).
  safely.
Qed.
#[local] Hint Resolve internal_install_dependencies_safe : safe.

Lemma install_dependencies_by_toolchains_safe pr toolchains :
  safe (install_dependencies_by_toolchains E pr toolchains).
Proof.
  induction toolchains as [|t toolchains IH]; cbn; [apply safe_ret|].
  unfold install_dependencies. safely.
Qed.
#[local] Hint Resolve install_dependencies_by_toolchains_safe : safe.

(** *** Projects *)

Variable ps : list Project.
Hypothesis all_projects : get_projects (rg_workspace (e_graph E)) = Ok ps.
Hypothesis known_project : ∀ id q, get_project (rg_workspace (e_graph E)) id = Ok q → q ∈ ps.

Lemma builder_is_project_affected_safe pr reqs : safe (builder_is_project_affected pr reqs).
Proof. apply safe_get. intros b Hb. rewrite Hb. by apply safe_ret. Qed.
#[local] Hint Resolve builder_is_project_affected_safe : safe.

Lemma sync_dependencies_safe sync index cycle ids :
  (∀ q, q ∈ ps → safe (sync q)) → safe (sync_dependencies E sync index cycle ids).
Proof.
  intros Hsync. induction ids as [|id ids IH]; cbn; [apply safe_ret|].
  case_decide; [done|]. pose proof (project_returns E returns_E id) as Hret.
  destruct (get_project _ id) as [q|e|] eqn:Hq; [|by intros b Hb|done].
  apply known_project in Hq. intros b Hb. apply fine_bind; [by apply safe_lift|].
  intros q' b1 [= <- <-] _. revert b Hb. change (safe (o ← sync q;
    edges ← sync_dependencies E sync index cycle ids;
    mret (match o with
          | Some j => if decide (index = j) then edges else j :: edges
          | None => edges
          end))).
  apply safe_bind; [by apply Hsync|]. safely.
Qed.

Lemma internal_sync_project_safe fuel pr reqs cycle :
  size (project_ids ps ∖ cycle) < fuel → pr ∈ ps →
  safe (internal_sync_project E fuel pr reqs cycle).
Proof.
  revert pr cycle. induction fuel as [|fuel IH]; intros pr cycle Hlt Hpr; [lia|].
  cbn [internal_sync_project].
  destruct (PipelineActionSwitch_is_enabled _ _); cbn [negb orb]; [|apply safe_ret].
  case_bool_decide as Hid; [apply safe_ret|].
  apply safe_bind; [auto with safe|]. intros affected. apply safe_if; [apply safe_ret|].
  apply safe_bind; [auto with safe|]. intros ws.
  apply safe_bind; [auto with safe|]. intros [index fresh]. apply safe_if; [apply safe_ret|].
  apply safe_bind; [|safely]. apply safe_if; [|apply safe_ret].
  apply sync_dependencies_safe. intros q Hq. apply IH; [by apply path_longer|done].
Qed.

Lemma sync_project_safe pr reqs : pr ∈ ps → safe (sync_project E pr reqs).
Proof.
  intros Hpr. apply internal_sync_project_safe; [|done].
  unfold project_fuel. rewrite all_projects, difference_empty_L.
  pose proof (project_ids_size ps). lia.
Qed.

Lemma initial_edges_safe pr task reqs : pr ∈ ps → safe (initial_edges E pr task reqs).
Proof.
  intros Hpr. unfold initial_edges. apply safe_bind; [by apply sync_project_safe|]. safely.
Qed.
End Safe.

(** ** Tasks *)

Lemma length_filter_le {A} (P Q : A → Prop) `{!∀ x, Decision (P x), !∀ x, Decision (Q x)} l :
  (∀ x, x ∈ l → P x → Q x) → length (filter P l) ≤ length (filter Q l).
Proof.
  induction l as [|x l IH]; intros Hpq; [done|].
  assert (length (filter P l) ≤ length (filter Q l)) by (apply IH; intros; apply Hpq; [by right|done]).
  rewrite !filter_cons. case_decide as Hp; case_decide as Hq; cbn; try lia.
  by destruct Hq; apply Hpq; [left|].
Qed.

Lemma length_filter_lt {A} (P Q : A → Prop) `{!∀ x, Decision (P x), !∀ x, Decision (Q x)} l x :
  (∀ x, x ∈ l → P x → Q x) → x ∈ l → Q x → ¬ P x → length (filter P l) < length (filter Q l).
Proof.
  induction l as [|y l IH]; intros Hpq Hx Hq Hp; [by apply not_elem_of_nil in Hx|].
  assert (length (filter P l) ≤ length (filter Q l)).
  { apply length_filter_le. intros; apply Hpq; [by right|done]. }
  rewrite !filter_cons. apply elem_of_cons in Hx as [<-|Hx].
  - rewrite decide_False, decide_True by done. cbn. lia.
  - assert (length (filter P l) < length (filter Q l)).
    { apply IH; [|done..]. intros; apply Hpq; [by right|done]. }
    case_decide as Hp'; case_decide as Hq'; cbn; try lia. by destruct Hq'; apply Hpq; [left|].
Qed.

Lemma length_bind_const {A B} (f : A → list B) l k :
  (∀ x, x ∈ l → length (f x) = k) → length (l ≫= f) = length l * k.
Proof.
  induction l as [|x l IH]; intros Hf; [done|]. rewrite bind_cons, length_app, (Hf x) by (by left).
  rewrite IH; [cbn; lia|]. intros; apply Hf; by right.
Qed.

Section Resolve.
Context `{P : Plugins, I : IdSyntax}.
Variable E : BuilderEnv.
Hypothesis returns_E : env_returns E.
Variable ts : list Task.
(** The tasks that can be found. *)
Hypothesis known_task : ∀ p name t, get_task_from_project (e_graph E) p name = Ok t → t ∈ ts.
Hypothesis known_tasks : ∀ p l t, get_tasks_from_project (e_graph E) p = Ok l → t ∈ l → t ∈ ts.

Lemma project_tasks_known p scope value bubble l t :
  project_tasks E p scope value bubble = Ok l → t ∈ l → t ∈ ts.
Proof.
  unfold project_tasks. destruct scope.
  - destruct (get_task_from_project _ _ _) as [t'|e|] eqn:Ht; [|destruct bubble|]; intros [= <-].
    + intros ->%list_elem_of_singleton. by eapply known_task.
    + by intros ?%not_elem_of_nil.
  - destruct (get_tasks_from_project _ _) as [l'|e|] eqn:Hl; cbn; intros [= <-].
    intros [Ht _]%list_elem_of_In%filter_In. apply list_elem_of_In in Ht. by eapply known_tasks.
Qed.

Lemma visible_tasks_sub p allow bubble l l' t :
  visible_tasks p allow bubble l = Ok l' → t ∈ l' → t ∈ l.
Proof.
  revert l'. induction l as [|x l IH]; intros l'; cbn; [by intros [= <-]|].
  destruct (_ && _).
  - destruct bubble; [done|]. intros Hl Ht. right. by eapply IH.
  - destruct (visible_tasks p allow bubble l) as [rest|e|]; cbn; intros [= <-].
    intros [->|Ht]%elem_of_cons; [by left|right]. by eapply IH.
Qed.

Lemma resolve_known query target allow l t :
  resolve_tasks_from_target E query target allow = Ok l → t ∈ l → t ∈ ts.
Proof.
  unfold resolve_tasks_from_target. destruct (get_project_scope target) as [scope value].
  intros Hl. apply obind_Ok in Hl as ([projects bubble] & _ & Hl).
  destruct (get_task_scope target) as [tscope tvalue].
  revert t. refine (ofold_ind (λ l, ∀ t, t ∈ l → t ∈ ts) _ _ _ _ _ _ Hl).
  2: by intros t ?%not_elem_of_nil.
  intros tasks p tasks' _ IH Hs t Ht. apply obind_Ok in Hs as (found & Hf & Hs).
  apply obind_Ok in Hs as (visible & Hv & [= <-]).
  apply elem_of_app in Ht as [Ht|Ht]; [auto|].
  by eapply project_tasks_known, visible_tasks_sub.
Qed.

Lemma resolve_returns query target allow :
  resolve_tasks_from_target E query target allow ≠ OutOfFuel.
Proof.
  unfold resolve_tasks_from_target. destruct (get_project_scope target) as [scope value].
  apply obind_returns.
  - destruct scope; try done; (apply obind_returns; [|done]);
      [destruct query; [apply (query_returns E returns_E)|apply (projects_returns E returns_E)]
      |apply (project_returns E returns_E)|apply (query_returns E returns_E)].
  - intros [projects bubble]. destruct (get_task_scope target) as [tscope tvalue].
    apply ofold_returns. intros tasks p. apply obind_returns.
    + unfold project_tasks. destruct tscope.
      * pose proof (task_returns E returns_E (p_id p) tvalue) as Ht.
        destruct (get_task_from_project _ _ _); [done|by destruct bubble|done].
      * apply obind_returns; [apply (tasks_returns E returns_E)|done].
    + intros found. apply obind_returns; [|done].
      induction found as [|t found IH]; cbn; [done|]. destruct (_ && _); [by destruct bubble|].
      by apply obind_returns.
Qed.
End Resolve.

(** What is left to do is bounded: every task that is run adds a node that is not
    in the graph yet, or is passed through for the first time, or does what was
    put off before. *)
Section Work.
Context `{D : DagOps ActionNode TaskDependencyType, L : !DagLaws D, H : Host, P : Plugins,
  I : IdSyntax, X : FxHasher}.
Variable E : BuilderEnv.
Hypothesis returns_E : env_returns E.
Variables (ps : list Project) (ts : list Task).
Hypothesis all_projects : get_projects (rg_workspace (e_graph E)) = Ok ps.
Hypothesis known_project : ∀ id q, get_project (rg_workspace (e_graph E)) id = Ok q → q ∈ ps.
Hypothesis known_task : ∀ p name t, get_task_from_project (e_graph E) p name = Ok t → t ∈ ts.
Hypothesis known_tasks : ∀ p l t, get_tasks_from_project (e_graph E) p = Ok l → t ∈ l → t ∈ ts.
(** The requirements of the first call, and the dependency it is for. *)
Variables (reqs0 : RunRequirements) (config0 : option TaskDependencyConfig).
Implicit Types (b : ActionGraphBuilder) (task : Task).

Definition configs : list (option TaskDependencyConfig) :=
  config0 :: None :: (Some <$> (ts ≫= t_deps)).

(** The nodes there can be. *)
Definition task_nodes : list ActionNode :=
  ts ≫= (λ task, run_task_node task reqs0 <$> configs).

Definition same_reqs (reqs : RunRequirements) : Prop := rr_interactive reqs = rr_interactive reqs0.

Lemma run_task_node_elem task reqs config :
  task ∈ ts → config ∈ configs → same_reqs reqs → run_task_node task reqs config ∈ task_nodes.
Proof.
  intros Ht Hc Hr. apply list_elem_of_bind. exists task. split; [|done].
  apply list_elem_of_fmap. exists config. split; [|done].
  unfold run_task_node. by rewrite Hr.
Qed.

Definition missing b : nat := length (filter (λ node, b_nodes b !! node = None) task_nodes).
Definition not_passed b : nat :=
  length (filter (λ task, t_target task ∉ b_passthrough_targets b) ts).
Definition put_off b : nat :=
  size (dom (b_ignored_dependencies b)) + size (b_ignored_dependents b).
Definition work b : nat := 3 * missing b + not_passed b + put_off b.

Lemma missing_le b b' : builder_ok b → builder_ok b' → grows b b' → missing b' ≤ missing b.
Proof.
  intros Hok Hok' Hg. apply length_filter_le. intros node _ Hn.
  destruct (b_nodes b !! node) as [i|] eqn:Hi; [|done].
  apply (ok_nodes _ Hok) in Hi. pose proof (prefix_lookup_Some _ _ _ _ Hi (grows_nodes _ _ Hg)) as Hi'.
  apply (ok_nodes _ Hok') in Hi'. congruence.
Qed.

Lemma not_passed_le b b' : grows b b' → not_passed b' ≤ not_passed b.
Proof.
  intros Hg. apply length_filter_le. intros task _ Hn Hin. apply Hn.
  by apply (grows_passthrough _ _ Hg).
Qed.

Lemma work_no_task b b' : builder_ok b → builder_ok b' → adds_no_task b b' → work b' ≤ work b.
Proof.
  intros Hok Hok' (Hg & _ & Hi & Hd & _). unfold work, put_off. rewrite Hi, Hd.
  pose proof (missing_le b b' Hok Hok' Hg). pose proof (not_passed_le b b' Hg). lia.
Qed.

(** The call returns, with at most [n] left to do. *)
Definition within {A} b (n : nat) (r : result (A * ActionGraphBuilder))
    (Q : A → ActionGraphBuilder → Prop) : Prop :=
  r ≠ OutOfFuel ∧ ∀ a b', r = Ok (a, b') →
    builder_ok b' ∧ grows b b' ∧ b_affected b' = None ∧ work b' ≤ n ∧ Q a b'.

Lemma within_bind {A B} b n n' (m : build_m A) (f : A → build_m B) Q1 Q :
  within b n (m b) Q1 →
  (∀ a b1, builder_ok b1 → grows b b1 → b_affected b1 = None → work b1 ≤ n → Q1 a b1 →
     within b1 n' (f a b1) Q) →
  within b n' ((m ≫= f) b) Q.
Proof.
  intros [Hm Hr] Hf. unfold mbind, build_m_bind.
  destruct (m b) as [[a b1]|e|]; cbn; [|done..].
  destruct (Hr a b1 eq_refl) as (Hok & Hg & Ha & Hw & HQ).
  destruct (Hf a b1 Hok Hg Ha Hw HQ) as [Hm' Hr']. split; [done|].
  intros c b2 Hc. destruct (Hr' c b2 Hc) as (? & ? & ? & ? & ?). split_and!; [done|by etrans|done..].
Qed.

Lemma within_weaken {A} b n n' (r : result (A * _)) (Q Q' : A → ActionGraphBuilder → Prop) :
  within b n r Q → n ≤ n' → (∀ a b', grows b b' → Q a b' → Q' a b') → within b n' r Q'.
Proof.
  intros [Hm Hr] Hn HQ. split; [done|]. intros a b' Hb.
  destruct (Hr a b' Hb) as (? & ? & ? & ? & ?). split_and!; [done..|lia|auto].
Qed.

Lemma within_ret {A} b n (a : A) (Q : A → ActionGraphBuilder → Prop) :
  builder_ok b → b_affected b = None → work b ≤ n → Q a b →
  within b n (mret (M := build_m) a b) Q.
Proof. intros. split; [done|]. by intros ? ? [= <- <-]. Qed.

Lemma within_get b n : builder_ok b → b_affected b = None → work b ≤ n →
  within b n (get b) (λ b1 b2, b1 = b ∧ b2 = b).
Proof. intros. split; [done|]. by intros ? ? [= <- <-]. Qed.

(** Calls that are about no task, and the rest of the development's judgements. *)
Lemma within_no_task {A} b n (m : build_m A) Q :
  safe m → post adds_no_task b (m b) Q → builder_ok b → b_affected b = None → work b ≤ n →
  within b n (m b) Q.
Proof.
  intros Hs Hp Hok Ha Hn. destruct (Hs b Ha) as [Hr Haff]. split; [done|]. intros a b' Hb.
  destruct (Hp a b' Hb) as (Hok' & Hno & HQ). pose proof (work_no_task b b' Hok Hok' Hno).
  split_and!; [done|apply Hno|by eapply Haff|lia|done].
Qed.

Lemma within_lift {A} b n (r : result A) :
  r ≠ OutOfFuel → builder_ok b → b_affected b = None → work b ≤ n →
  within b n (lift r b) (λ a b', r = Ok a ∧ b' = b).
Proof.
  intros Hr Hok Ha Hn. unfold lift. destruct r; cbn; [|by split..]. by apply within_ret.
Qed.

(** *** Loops *)

(** What [internal_run_task] does when there is less than [fuel] left to do. *)
Definition run_within (fuel : nat) (run : run_one_task) : Prop :=
  ∀ task reqs config state b, task ∈ ts → config ∈ configs → same_reqs reqs →
    builder_ok b → b_affected b = None → work b < fuel →
    within b (work b) (run task reqs config state b) (λ o b', opt_in_range o b').

Lemma resolve_within target allow b n :
  builder_ok b → b_affected b = None → work b ≤ n →
  within b n (internal_resolve_tasks_from_target E target allow b)
    (λ tasks b', b' = b ∧ ∀ t, t ∈ tasks → t ∈ ts).
Proof.
  intros Hok Ha Hn. unfold internal_resolve_tasks_from_target.
  eapply within_bind; [by apply within_get|]. intros ? ? _ _ _ _ [-> ->].
  eapply within_weaken; [by apply within_lift; [by apply resolve_returns|..]|done|].
  cbn. intros tasks b' _ [Hr ->]. split; [done|]. intros t. by eapply resolve_known.
Qed.

Lemma run_dependency_tasks_within fuel run parallel reqs state dep tasks acc b n :
  run_within fuel run → same_reqs reqs → Some dep ∈ configs → (∀ t, t ∈ tasks → t ∈ ts) →
  builder_ok b → b_affected b = None → work b ≤ n → n < fuel → acc_ok acc b →
  within b n (run_dependency_tasks run parallel reqs state dep tasks acc b) acc_ok.
Proof.
  intros Hrun Hreqs Hdep. revert acc b.
  induction tasks as [|t tasks IH]; intros acc b Hts Hok Ha Hn Hlt Hacc; cbn [run_dependency_tasks].
  { by apply within_ret. }
  eapply within_bind; [apply Hrun; [apply Hts; by left|done..|lia]|].
  intros o b1 Hok1 Hg1 Ha1 Hw1 Ho. assert (acc_ok acc b1) as Hacc1 by by eapply acc_ok_grows.
  destruct o as [i|]; [|apply IH; [|done|done|lia|done|done]; intros; apply Hts; by right].
  assert (in_range b1 i) as Hi by by apply Ho.
  eapply within_bind with (n := n) (Q1 := λ _ b', True).
  - destruct parallel, (acc.2) as [prev|] eqn:Hprev; try (by apply within_ret; [..|lia|]).
    assert (in_range b1 prev) as Hp by (apply Hacc1; by rewrite Hprev).
    destruct (link_serial_requirements_ok i prev b1 Hok1 Hi Hp) as (b2 & Hb2 & _).
    pose proof (link_serial_requirements_post i prev b1 Hok1 Hi Hp tt b2 Hb2) as (Hok2 & Hno & _).
    rewrite Hb2. split; [done|]. intros [] b' [= <-].
    pose proof (work_no_task b1 b2 Hok1 Hok2 Hno).
    split_and!; [done|apply Hno|by apply (grows_affected _ _ (proj1 Hno))|lia|done].
  - intros [] b2 Hok2 Hg2 Ha2 Hw2 _. apply IH; [|done..|].
    + intros; apply Hts; by right.
    + assert (opt_in_range (Some i) b2) by (intros ? [= <-]; by eapply in_range_grows).
      split; [|done]. cbn. apply Forall_app. split; [|by repeat constructor].
      apply (acc_ok_grows acc b1 b2 Hg2 Hacc1).
Qed.

Lemma run_dependencies_within fuel run parallel reqs state deps acc b n :
  run_within fuel run → same_reqs reqs → (∀ dep, dep ∈ deps → Some dep ∈ configs) →
  builder_ok b → b_affected b = None → work b ≤ n → n < fuel → acc_ok acc b →
  within b n (run_dependencies E run parallel reqs state deps acc b)
    (λ edges b', Forall (λ o, opt_in_range o b') edges).
Proof.
  intros Hrun Hreqs. revert acc b.
  induction deps as [|d deps IH]; intros acc b Hdeps Hok Ha Hn Hlt Hacc; cbn [run_dependencies].
  { apply within_ret; [done..|apply Hacc]. }
  eapply within_bind; [by apply resolve_within|]. intros tasks ? _ _ _ _ [-> Hts].
  eapply within_bind; [apply (run_dependency_tasks_within fuel); [done|done|apply Hdeps; by left|done..]|].
  intros acc2 b2 Hok2 Hg2 Ha2 Hw2 Hacc2. apply IH; [|done..]. intros; apply Hdeps; by right.
Qed.

Lemma run_task_dependencies_within fuel run task reqs state b n :
  run_within fuel run → same_reqs reqs → task ∈ ts →
  builder_ok b → b_affected b = None → work b ≤ n → n < fuel →
  within b n (run_task_dependencies E run task reqs state b)
    (λ edges b', Forall (λ o, opt_in_range o b') edges).
Proof.
  intros Hrun Hreqs Ht Hok Ha Hn Hlt.
  apply (run_dependencies_within fuel); [done|done| |done..|by split].
  intros dep Hdep. do 2 right. apply list_elem_of_fmap. exists dep. split; [done|].
  apply list_elem_of_bind. by exists task.
Qed.

Lemma within_for_each {A} (f : A → build_m unit) l b n :
  (∀ x b, x ∈ l → builder_ok b → b_affected b = None → work b ≤ n →
     within b n (f x b) (λ _ _, True)) →
  builder_ok b → b_affected b = None → work b ≤ n →
  within b n (for_each f l b) (λ _ _, True).
Proof.
  revert b. induction l as [|x l IH]; intros b Hf Hok Ha Hn; cbn; [by apply within_ret|].
  eapply within_bind; [apply Hf; [by left|done..]|]. intros [] b1 Hok1 _ Ha1 Hw1 _.
  apply IH; [|done..]. intros y b2 Hy. apply Hf. by right.
Qed.

Lemma run_task_dependents_within fuel run task reqs state b n :
  run_within fuel run → same_reqs reqs →
  builder_ok b → b_affected b = None → work b ≤ n → n < fuel →
  within b n (run_task_dependents E run task reqs state b) (λ _ _, True).
Proof.
  intros Hrun Hreqs Hok Ha Hn Hlt. apply within_for_each; [|done..].
  intros target b1 _ Hok1 Ha1 Hn1. eapply within_bind; [by apply resolve_within|].
  intros tasks ? _ _ _ _ [-> Hts]. apply within_for_each; [|done..].
  intros t b2 Ht Hok2 Ha2 Hn2. eapply within_bind.
  - apply Hrun; [by apply Hts|by right; left|done..|lia].
  - intros o b3 Hok3 _ Ha3 Hw3 _. by apply within_ret; [..|lia|].
Qed.

(** *** One task *)

(** Changes of the sets of targets. *)
Lemma put_targets_within b n ignored ignored_dependents passthrough primary :
  builder_ok b → b_affected b = None → b_passthrough_targets b ⊆ passthrough →
  work (b_set_targets b ignored ignored_dependents passthrough primary) ≤ n →
  within b n (put (b_set_targets b ignored ignored_dependents passthrough primary) b)
    (λ _ _, True).
Proof.
  intros Hok Ha Hp Hn. split; [done|]. intros [] b' [= <-].
  destruct (set_targets_ok E false (RunRequirements_default false) (λ _, True) b ignored
    ignored_dependents passthrough primary Hp ltac:(done) Hok) as [Hok' [Hg _]]. by split_and!.
Qed.

Lemma passthrough_less b task :
  task ∈ ts → t_target task ∉ b_passthrough_targets b →
  S (work (b_set_targets b (b_ignored_dependencies b) (b_ignored_dependents b)
       ({[t_target task]} ∪ b_passthrough_targets b) (b_primary_targets b))) ≤ work b.
Proof.
  intros Ht Hp. unfold work, missing, not_passed, put_off. cbn.
  enough (length (filter (λ t, t_target t ∉ {[t_target task]} ∪ b_passthrough_targets b) ts) <
    length (filter (λ t, t_target t ∉ b_passthrough_targets b) ts)) by lia.
  apply (length_filter_lt _ _ _ task); [set_solver..|]. intros Hn. apply Hn. set_solver.
Qed.

(** Taking something off a list, and whether it was there. *)
Lemma take_off_within b ignored ignored_dependents (had : bool) :
  builder_ok b → b_affected b = None →
  (if had then 1 else 0) + size (dom ignored) + size ignored_dependents ≤ put_off b →
  within b (work b)
    ((put (b_set_targets b ignored ignored_dependents (b_passthrough_targets b)
        (b_primary_targets b));; mret had : build_m bool) b)
    (λ had b', if had : bool then S (work b') ≤ work b else True).
Proof.
  intros Hok Ha Hoff.
  destruct (set_others_ok E false (RunRequirements_default false) (λ _, True) b ignored
    ignored_dependents (b_primary_targets b) Hok) as [Hok' [Hg _]].
  split; [done|]. intros had' b' [= <- <-].
  unfold work, missing, not_passed, put_off in *. cbn in *.
  split_and!; [done..|destruct had; lia|destruct had; [lia|done]].
Qed.

Lemma remove_ignored_dependencies_within cond target b :
  builder_ok b → b_affected b = None →
  within b (work b) (remove_ignored_dependencies cond target b)
    (λ had b', if had : bool then S (work b') ≤ work b else True).
Proof.
  intros Hok Ha. unfold remove_ignored_dependencies.
  destruct (negb cond); [by apply within_ret|].
  eapply within_bind; [by apply within_get|]. intros ? ? _ _ _ _ [-> ->].
  apply take_off_within; [done..|]. rewrite dom_delete_L. unfold put_off.
  set (d := dom (b_ignored_dependencies b)). case_bool_decide as Hs.
  - apply elem_of_dom in Hs. fold d in Hs.
    pose proof (subset_size (d ∖ {[target]}) d ltac:(set_solver)). lia.
  - pose proof (subseteq_size (d ∖ {[target]}) d ltac:(set_solver)). lia.
Qed.

Lemma remove_ignored_dependents_within cond target b :
  builder_ok b → b_affected b = None →
  within b (work b) (remove_ignored_dependents cond target b)
    (λ had b', if had : bool then S (work b') ≤ work b else True).
Proof.
  intros Hok Ha. unfold remove_ignored_dependents.
  destruct (negb cond); [by apply within_ret|].
  eapply within_bind; [by apply within_get|]. intros ? ? _ _ _ _ [-> ->].
  apply take_off_within; [done..|]. unfold put_off.
  set (d := b_ignored_dependents b). case_bool_decide as Hs.
  - pose proof (subset_size (d ∖ {[target]}) d ltac:(set_solver)). lia.
  - pose proof (subseteq_size (d ∖ {[target]}) d ltac:(set_solver)). lia.
Qed.

Lemma insert_node_within node b n :
  builder_ok b → b_affected b = None → work b ≤ n → b_nodes b !! node = None → node ∈ task_nodes →
  3 ≤ n ∧ within b (n - 3) (insert_node node b) (λ i b', in_range b' i).
Proof.
  intros Hok Ha Hn Hnone Hin.
  destruct (insert_node_safe node b Ha) as [Hr Haff].
  assert (∀ i b', insert_node node b = Ok (i, b') →
    builder_ok b' ∧ grows b b' ∧ in_range b' i ∧ S (missing b') ≤ missing b ∧ same_ignored b b') as Hi.
  { intros i b' Hb. destruct (insert_node_spec _ _ _ _ Hok Hnone Hb) as (Hok' & Hg & -> & Hns & _).
    split_and!; [done|done|unfold in_range; rewrite Hns, length_app; cbn; lia| |].
    - apply (length_filter_lt _ _ _ node); [|done..|].
      + intros node' _ Hn'. destruct (b_nodes b !! node') as [j|] eqn:Hj; [|done].
        apply (ok_nodes _ Hok) in Hj.
        pose proof (prefix_lookup_Some _ _ _ _ Hj (grows_nodes _ _ Hg)) as Hj'.
        apply (ok_nodes _ Hok') in Hj'. congruence.
      + assert (b_nodes b' !! node = Some (length (nodes_of b))) as ->; [|done].
        apply (ok_nodes _ Hok'). rewrite Hns. by rewrite list_lookup_middle.
    - unfold insert_node, mbind, build_m_bind, get in Hb. cbn in Hb.
      destruct (dag_add_node _ _). by injection Hb as _ <-. }
  assert (1 ≤ missing b) as Hm.
  { assert (node ∈ filter (λ node, b_nodes b !! node = None) task_nodes) as Hf
      by (by apply list_elem_of_filter).
    unfold missing. destruct (filter _ _); [by apply not_elem_of_nil in Hf|cbn; lia]. }
  split; [unfold work in Hn; lia|]. split; [done|]. intros i b' Hb.
  destruct (Hi i b' Hb) as (Hok' & Hg & Hrange & Hlt & Hign & Hdep & _).
  split_and!; [done|done|by eapply Haff| |done].
  pose proof (not_passed_le b b' Hg). unfold work, put_off in *. rewrite Hign, Hdep. lia.
Qed.

Lemma insert_ignored_dependencies_within task b n :
  builder_ok b → b_affected b = None → work b ≤ n →
  within b (S n) (insert_ignored_dependencies task b) (λ _ _, True).
Proof.
  intros Hok Ha Hn. unfold insert_ignored_dependencies. apply put_targets_within; [done..|].
  unfold work, missing, not_passed, put_off in *. cbn in *. rewrite dom_insert_L.
  pose proof (size_union_le {[t_target task]} (dom (b_ignored_dependencies b))) as Hs.
  rewrite size_singleton in Hs. lia.
Qed.

Lemma insert_ignored_dependents_within target b n :
  builder_ok b → b_affected b = None → work b ≤ n →
  within b (S n) (insert_ignored_dependents target b) (λ _ _, True).
Proof.
  intros Hok Ha Hn. unfold insert_ignored_dependents. apply put_targets_within; [done..|].
  unfold work, missing, not_passed, put_off in *. cbn in *.
  pose proof (size_union_le {[target]} (b_ignored_dependents b)) as Hs.
  rewrite size_singleton in Hs. lia.
Qed.

Lemma link_optional_within index edges b n :
  builder_ok b → b_affected b = None → work b ≤ n → in_range b index →
  Forall (λ o, opt_in_range o b) edges →
  within b n (link_optional_requirements index edges b) (λ _ _, True).
Proof.
  intros Hok Ha Hn Hi He. apply within_no_task; [apply link_optional_requirements_safe| |done..].
  eapply post_weaken; [by apply link_optional_requirements_post|done..].
Qed.

Lemma insert_task_within fuel run pr task reqs config state run_deps run_dependents b :
  run_within fuel run → same_reqs reqs → task ∈ ts → config ∈ configs → pr ∈ ps →
  builder_ok b → b_affected b = None → work b < S fuel →
  b_nodes b !! run_task_node task reqs config = None →
  within b (work b)
    (insert_task E run pr task reqs state run_deps run_dependents
       (run_task_node task reqs config) b) (λ o b', opt_in_range o b').
Proof.
  intros Hrun Hreqs Ht Hc Hpr Hok Ha Hlt Hnone. unfold insert_task.
  eapply within_bind with (Q1 := λ edges b', Forall (λ o, opt_in_range o b') edges ∧
    adds_no_task b b').
  { apply within_no_task; [by eapply initial_edges_safe| |done..].
    intros edges b' Hb. destruct (initial_edges_post E pr task reqs b Hok edges b' Hb) as (? & ? & ?).
    by split_and!. }
  intros edges b1 Hok1 Hg1 Ha1 Hw1 [He1 Hno].
  pose proof (missing_after _ _ _ Hok Hok1 Hno ltac:(by eexists) Hnone) as Hnone1.
  destruct (insert_node_within (run_task_node task reqs config) b1 (work b)) as [Hge Hin];
    [done..|by apply run_task_node_elem|].
  eapply within_bind; [exact Hin|]. intros index b2 Hok2 Hg2 Ha2 Hw2 Hi2.
  eapply within_bind with (n := work b - 2) (Q1 := λ more b', Forall (λ o, opt_in_range o b') more).
  { case_bool_decide; [apply within_ret; [done|done|lia|done]|]. destruct run_deps.
    - apply (run_task_dependencies_within fuel); [done..|lia|lia].
    - eapply within_bind; [by apply insert_ignored_dependencies_within|].
      intros [] b3 Hok3 _ Ha3 Hw3 _. apply within_ret; [done|done|lia|done]. }
  intros more b3 Hok3 Hg3 Ha3 Hw3 Hmore.
  eapply within_bind; [apply link_optional_within; [done..|by eapply in_range_grows|]|].
  { apply Forall_app. split; [|done]. eapply Forall_impl; [exact He1|].
    intros o. apply opt_in_range_grows. by etrans. }
  intros [] b4 Hok4 Hg4 Ha4 Hw4 _.
  eapply within_bind with (n := work b - 1) (Q1 := λ _ _, True).
  { destruct run_dependents.
    - apply (run_task_dependents_within fuel); [done..|lia|lia].
    - eapply within_weaken; [by apply insert_ignored_dependents_within|lia|done]. }
  intros [] b5 Hok5 Hg5 Ha5 Hw5 _. apply within_ret; [done|done|lia|].
  intros i [= <-]. eapply in_range_grows; [|exact Hi2]. do 2 (etrans; [eassumption|]). done.
Qed.

Lemma revisit_task_within fuel run task reqs state (had_dependencies had_dependents : bool) index b :
  run_within fuel run → same_reqs reqs → task ∈ ts →
  builder_ok b → b_affected b = None → in_range b index →
  (had_dependencies || had_dependents → work b < fuel) →
  within b (work b) (revisit_task E run task reqs state had_dependencies had_dependents index b)
    (λ o b', opt_in_range o b').
Proof.
  intros Hrun Hreqs Ht Hok Ha Hi Hlt. unfold revisit_task.
  eapply within_bind with (n := work b) (Q1 := λ _ _, True).
  { destruct had_dependencies; cbn [andb]; [|by apply within_ret].
    destruct (negb _); [|by apply within_ret].
    eapply within_bind; [apply (run_task_dependencies_within fuel); [done..|by apply Hlt]|].
    intros edges b1 Hok1 Hg1 Ha1 Hw1 He. apply link_optional_within; [done..|by eapply in_range_grows|done]. }
  intros [] b1 Hok1 Hg1 Ha1 Hw1 _. eapply within_bind with (n := work b) (Q1 := λ _ _, True).
  { destruct had_dependents; [|by apply within_ret].
    apply (run_task_dependents_within fuel); [done..|apply Hlt; by destruct had_dependencies]. }
  intros [] b2 Hok2 Hg2 Ha2 Hw2 _. apply within_ret; [done|done|lia|].
  intros i [= <-]. do 2 (eapply in_range_grows; [eassumption|]). done.
Qed.

(** [internal_run_task] stops, if it is given more fuel than there is left to do. *)
Lemma internal_run_task_within fuel : run_within fuel (internal_run_task E fuel).
Proof.
  induction fuel as [|fuel Hrun]; intros task reqs config state b Ht Hc Hreqs Hok Ha Hlt; [lia|].
  cbn [internal_run_task].
  eapply within_bind; [apply within_lift; [|done..]; unfold get_project_id;
    by destruct (get_project_scope _) as [[]]|].
  intros id ? _ _ _ _ [_ ->].
  eapply within_bind; [apply within_lift; [apply (project_returns E returns_E)|done..]|].
  intros pr ? _ _ _ _ [Hpr ->]. apply known_project in Hpr.
  eapply within_bind with (n := work b) (Q1 := λ r b', r = true ∧ b' = b).
  { unfold builder_is_task_affected. eapply within_bind; [by apply within_get|].
    intros ? ? _ _ _ _ [-> ->]. rewrite Ha. by apply within_ret. }
  intros ? ? _ _ _ _ [-> ->]. cbn [negb].
  eapply within_bind; [by apply within_get|]. intros ? ? _ _ _ _ [-> ->].
  destruct (decide (t_target task ∈ b_passthrough_targets b)) as [Hp|Hp].
  { apply within_ret; [done..|]. by intros i. }
  destruct (rr_ci_check reqs && _).
  - eapply within_bind with (n := work b - 1) (Q1 := λ _ _, True).
    { pose proof (passthrough_less b task Ht Hp).
      apply put_targets_within; [done|done|set_solver|lia]. }
    intros [] b1 Hok1 Hg1 Ha1 Hw1 _.
    pose proof (passthrough_less b task Ht Hp).
    eapply within_bind with (n := work b) (Q1 := λ _ _, True).
    { destruct (_ && _); [|by apply within_ret; [..|lia|]].
      eapply within_weaken; [apply (run_task_dependents_within fuel);
        [done|done|done|done|exact Hw1|lia]|lia|done]. }
    intros [] b2 Hok2 _ Ha2 Hw2 _. apply within_ret; [done..|]. by intros i.
  - eapply within_bind; [by apply remove_ignored_dependencies_within|].
    intros had_dependencies b1 Hok1 Hg1 Ha1 Hw1 Hhad1.
    eapply within_bind; [by apply remove_ignored_dependents_within|].
    intros had_dependents b2 Hok2 Hg2 Ha2 Hw2 Hhad2.
    eapply within_bind with (n := work b)
      (Q1 := λ o b', b' = b2 ∧ o = b_nodes b2 !! run_task_node task reqs config).
    { unfold get_index_from_node. eapply within_bind; [by apply within_get|].
      intros ? ? _ _ _ _ [-> ->]. by apply within_ret; [..|lia|]. }
    intros o ? _ _ _ _ [-> ->]. destruct (b_nodes b2 !! _) as [index|] eqn:Ho.
    + eapply within_weaken; [apply (revisit_task_within fuel); [done..| |]|lia|done].
      * apply (ok_nodes _ Hok2) in Ho. exact (lookup_lt_Some _ _ _ Ho).
      * destruct had_dependencies, had_dependents; cbn in *; intros; lia || done.
    + eapply within_weaken; [apply (insert_task_within fuel); [done..|lia|done]|lia|done].
Qed.

Lemma run_task_within fuel task reqs b :
  same_reqs reqs → task ∈ ts → builder_ok b → b_affected b = None → work b < fuel →
  within b (work b) (run_task E fuel task reqs b) (λ _ _, True).
Proof.
  intros Hreqs Ht Hok Ha Hlt. unfold run_task.
  eapply within_bind; [apply internal_run_task_within; [done|by right; left|done..]|].
  intros o b1 Hok1 _ Ha1 Hw1 _. destruct o as [index|]; [|by apply within_ret].
  eapply within_bind; [by apply within_get|]. intros ? ? _ _ _ _ [-> ->].
  eapply within_bind; [apply (put_targets_within b1 (work b)); done|].
  intros [] b2 Hok2 _ Ha2 Hw2 _. by apply within_ret.
Qed.

Lemma run_all_within fuel reqs tasks targets b n :
  same_reqs reqs → (∀ t, t ∈ tasks → t ∈ ts) →
  builder_ok b → b_affected b = None → work b ≤ n → n < fuel →
  within b n (run_all E fuel reqs tasks targets b) (λ _ _, True).
Proof.
  intros Hreqs. revert targets b.
  induction tasks as [|task tasks IH]; intros targets b Hts Hok Ha Hn Hlt; cbn; [by apply within_ret|].
  eapply within_bind; [apply run_task_within; [done|apply Hts; by left|done|done|lia]|].
  intros o b1 Hok1 _ Ha1 Hw1 _. apply IH; [|done|done|lia|done]. intros; apply Hts; by right.
Qed.

Lemma work_bound b :
  work b ≤ 3 * (length ts * (2 + length (ts ≫= t_deps))) + length ts + put_off b.
Proof.
  unfold work. enough (missing b ≤ length ts * (2 + length (ts ≫= t_deps)) ∧ not_passed b ≤ length ts) by lia.
  split; [|apply length_filter]. unfold missing. etrans; [apply length_filter|].
  unfold task_nodes. rewrite (length_bind_const _ _ (2 + length (ts ≫= t_deps))); [done|].
  intros task _. rewrite length_fmap. cbn. by rewrite length_fmap.
Qed.
End Work.

(** The workspace graph finds the projects and the tasks it has. *)
Record workspace_known (E : BuilderEnv) (ps : list Project) (ts : list Task) : Prop := {
  wk_projects : get_projects (rg_workspace (e_graph E)) = Ok ps;
  wk_project : ∀ id q, get_project (rg_workspace (e_graph E)) id = Ok q → q ∈ ps;
  wk_task : ∀ p name t, get_task_from_project (e_graph E) p name = Ok t → t ∈ ts;
  wk_tasks : ∀ p l t, get_tasks_from_project (e_graph E) p = Ok l → t ∈ l → t ∈ ts;
}.

Lemma run_task_by_target_returns `{D : DagOps ActionNode TaskDependencyType, L : !DagLaws D,
    H : Host, P : Plugins, I : IdSyntax, X : FxHasher} E ps ts fuel target reqs b :
  env_returns E → workspace_known E ps ts → builder_ok b → b_affected b = None →
  3 * (length ts * (2 + length (ts ≫= t_deps))) + length ts + put_off b < fuel →
  run_task_by_target E fuel target reqs b ≠ OutOfFuel.
Proof.
  intros HE [Hps Hp Ht Hts] Hok Ha Hlt.
  pose proof (work_bound ts reqs None b) as Hb.
  enough (within ts reqs None b (work ts reqs None b) (run_task_by_target E fuel target reqs b)
    (λ _ _, True)) as Hw by apply Hw.
  unfold run_task_by_target.
  eapply within_bind; [apply (resolve_within E HE ts Ht Hts reqs None target false b
    (work ts reqs None b)); done|]. intros tasks ? _ _ _ _ [-> Hin].
  eapply within_bind; [apply (run_all_within E HE ps ts Hps Hp Ht Hts reqs None fuel reqs tasks ∅ b
    (work ts reqs None b)); [done|done|done|done|done|lia]|].
  intros targets b1 Hok1 _ Ha1 Hw1 _. by apply within_ret.
Qed.
