(* ===== verification/Pipeline.v ===== *)
(** * The action pipeline ([crates/action-pipeline])

The dispatcher, the jobs it spawns and the loop that receives their results, as
a transition system whose steps interleave freely.  A step is one access to the
state that they share: the abort and cancel tokens, the completed and running
jobs, the permits, and the result channel. *)

From S2P Require Import Prelude Errors Target GraphUtils Config Affected ActionContext Action.
From S2P Require Import Dag Dispatcher.

(** ** Running one action ([action_runner.rs]) *)

(** [should_abort_on_failure] *)
Definition should_abort_on_failure (node : ActionNode) : bool :=
  match node with
  | SetupProto _ | SetupToolchain _ | SetupEnvironment _ | InstallDependencies _ => true
  | _ => false
  end.

(** What the body of an action returns: a status, or an error with its message. *)
Definition body_result : Type := ActionStatus + (string * Report).

(** The body of an action records operations, flags and a status on it, and
    keeps its node, label and index. *)
Record body_effect : Type := mkBodyEffect {
  be_allow_failure : bool;
  be_flaky : bool;
  be_operations : OperationList;
  be_status : ActionStatus;
}.

Definition apply_body (a : Action) (e : body_effect) : Action :=
  mkAction (be_allow_failure e) (a_error a) (a_error_report a) (be_flaky e) (a_label a)
    (a_node a) (a_node_index a) (be_operations e) (be_status e).

(** The kinds of actions that emit an event before and after their body. *)
Definition emits_around (node : ActionNode) : bool :=
  match node with NoAction | SetupProto _ => false | _ => true end.

(** [run_action]: [emit k] says whether the event emitted at point [k] was
    handled without error (0 started, 1 before and 2 after the body, 3 completed;
    a project that cannot be loaded counts as point 1).  The flag is false when
    the function returns an error. *)
Definition run_action (emit : nat → bool) (effect : body_effect) (r : body_result)
    (a : Action) : Action * bool :=
  if negb (emit 0) then (a, false) else
  if emits_around (a_node a) && negb (emit 1) then (a, false) else
  let '(a, r) :=
    match a_node a with
    | NoAction => (a, inl Skipped)
    | _ => (apply_body a effect, r)
    end in
  if emits_around (a_node a) && negb (emit 2) then (a, false) else
  let a :=
    match r with
    | inl status => Action_finish a status
    | inr (message, error) => Action_fail (Action_finish a Failed) message error
    end in
  if negb (emit 3) then (a, false) else
  if Action_has_failed a && should_abort_on_failure (a_node a)
  then (Action_abort a, true) else (a, true).

(** ** Shared state ([job_context.rs]) *)

Record JobContext : Type := mkJobContext {
  c_abort : bool;
  c_bail : bool;
  c_cancel : bool;
  c_completed : gset nat;
  c_running : gmap nat N;
}.

Definition is_aborted_or_cancelled (c : JobContext) : bool := c_abort c || c_cancel c.

(** [JobContext::should_abort] *)
Definition should_abort (bail : bool) (a : Action) : bool :=
  Action_should_abort a || bail && Action_should_bail a.

Definition abort_if (c : JobContext) (b : bool) : JobContext :=
  mkJobContext (c_abort c || b) (c_bail c) (c_cancel c) (c_completed c) (c_running c).

Definition cancel (c : JobContext) : JobContext :=
  mkJobContext (c_abort c) (c_bail c) true (c_completed c) (c_running c).

Definition set_running (c : JobContext) (running : gmap nat N) : JobContext :=
  mkJobContext (c_abort c) (c_bail c) (c_cancel c) (c_completed c) running.

(** The two halves of [JobContext::mark_completed]. *)
Definition remove_running (c : JobContext) (index : nat) : JobContext :=
  set_running c (delete index (c_running c)).

Definition insert_completed (c : JobContext) (index : nat) : JobContext :=
  mkJobContext (c_abort c) (c_bail c) (c_cancel c) ({[index]} ∪ c_completed c) (c_running c).

Definition mark_completed (c : JobContext) (index : nat) : JobContext :=
  insert_completed (remove_running c index) index.

(** ** Jobs ([job.rs]) *)

(** Where a spawned job is: waiting for a permit; about to look at the tokens;
    in [run_action]; back from it; in [send_result] before the abort decision,
    before the removal from the running jobs, before it is marked completed, and
    before the result is sent; finished. *)
Inductive job_phase : Type :=
| JWaiting
| JReady
| JRunning
| JRan (a : Action)
| JDeciding (a : Action)
| JUnlocking (a : Action)
| JCompleting (a : Action)
| JSending (a : Action)
| JDone (a : Action).

Record job : Type := mkJob {
  j_node : ActionNode;
  j_permit : bool; (* dispatched through the semaphore *)
  j_phase : job_phase;
}.

Definition set_phase (j : job) (p : job_phase) : job := mkJob (j_node j) (j_permit j) p.

Definition is_done (p : job_phase) : bool := match p with JDone _ => true | _ => false end.

(** Whether a job holds a permit. *)
Definition holds_permit (j : job) : bool :=
  j_permit j && match j_phase j with JWaiting | JDone _ => false | _ => true end.

(** The action a job starts with. *)
Definition job_action (index : nat) (node : ActionNode) : Action :=
  action_with_index (Action_new node) index.

(** [Job::dispatch] before [run_action]. *)
Definition job_start (c : JobContext) (index : nat) (node : ActionNode) : job_phase :=
  if c_abort c then JDeciding (Action_finish (job_action index node) Aborted)
  else if c_cancel c then JDeciding (Action_finish (job_action index node) Skipped)
  else JRunning.

(** [Job::dispatch] after [run_action]. *)
Definition job_recheck (c : JobContext) (a : Action) : job_phase :=
  JDeciding (if c_abort c then Action_finish a Aborted
             else if c_cancel c then Action_finish a Skipped else a).

(** ** The dispatching task and the receiving loop ([action_pipeline.rs]) *)

(** Where [dispatch_jobs] is: at the head of the loop; in [next] with its copy of
    the completed jobs; in [join_next]; in [exhaust_job_handles], within the loop
    or after it; about to spawn the persistent jobs; returned. *)
Inductive control : Type :=
| DLoop
| DSearch (completed : gset nat)
| DJoin
| DExhaust (after_loop : bool)
| DPersistent
| DReturned.

Record dispatching : Type := mkDispatching {
  d_dispatcher : JobDispatcher;
  d_control : control;
  d_persistent : list nat;
  d_handles : gset nat; (* job handles that have not been joined *)
}.

Definition set_control (d : dispatching) (k : control) : dispatching :=
  mkDispatching (d_dispatcher d) k (d_persistent d) (d_handles d).

Record receiving : Type := mkReceiving {
  m_channel : list Action;
  m_open : bool;
  m_actions : list Action;
  m_error : option Report;
  m_status : ActionPipelineStatus;
  m_finished : bool; (* out of the loop *)
}.

Record pipeline : Type := mkPipeline {
  s_context : JobContext;
  s_jobs : gmap nat job;
  s_dispatch : dispatching;
  s_receive : receiving;
  s_actions : ActionContext;
}.

(** One round of [while let Some(mut action) = receiver.recv().await]. *)
Definition receive (total : nat) (c : JobContext) (m : receiving) (a : Action)
    (channel : list Action) : JobContext * receiving :=
  let c := abort_if c (should_abort (c_bail c) a) in
  let '(error, a) :=
    if Action_should_abort a && Action_has_error a && match m_error m with None => true | _ => false end
    then let '(e, a) := Action_get_error a in (Some e, a)
    else (m_error m, a) in
  let actions := m_actions m ++ [a] in
  (c,
   if c_abort c then mkReceiving channel false actions error PipelineAborted false
   else if c_cancel c then mkReceiving channel false actions error PipelineInterrupted false
   else if length actions =? total
   then mkReceiving [] false actions error PipelineCompleted true
   else mkReceiving channel (m_open m) actions error (m_status m) false).

(** [result_sender.send(action)]: fails, without effect, once the receiver is
    closed. *)
Definition send (m : receiving) (a : Action) : receiving :=
  mkReceiving (if m_open m then m_channel m ++ [a] else m_channel m) (m_open m)
    (m_actions m) (m_error m) (m_status m) (m_finished m).

(** [receiver.recv()] returning [None]: the receiver is closed and empty.  The
    pipeline itself keeps a sender, so this is the only way. *)
Definition stop_receiving (m : receiving) : receiving :=
  mkReceiving [] false (m_actions m) (m_error m) (m_status m) true.

Section Steps.
Context `{D : DagOps nat TaskDependencyType}.
Variables (g : ActionGraph) (concurrency : nat).

(** [total_actions] *)
Definition total_actions : nat := get_node_count g.

Definition permits_in_use (jobs : gmap nat job) : nat :=
  size (filter (λ p : nat * job, holds_permit p.2 = true) jobs).

(** *** Steps of the spawned jobs *)

Inductive job_step (i : nat) : pipeline → pipeline → Prop :=
| step_permit c jobs d m x j :
    jobs !! i = Some j → j_phase j = JWaiting → permits_in_use jobs < concurrency →
    job_step i (mkPipeline c jobs d m x) (mkPipeline c (<[i := set_phase j JReady]> jobs) d m x)
| step_start c jobs d m x j :
    jobs !! i = Some j → j_phase j = JReady →
    job_step i (mkPipeline c jobs d m x)
      (mkPipeline c (<[i := set_phase j (job_start c i (j_node j))]> jobs) d m x)
| step_run c jobs d m x x' j emit effect r :
    (* the body may also change the action context *)
    jobs !! i = Some j → j_phase j = JRunning →
    job_step i (mkPipeline c jobs d m x)
      (mkPipeline c (<[i := set_phase j (JRan
         (let '(a, ok) := run_action emit effect r (job_action i (j_node j)) in
          if ok then a else Action_finish a Failed))]> jobs) d m x')
| step_recheck c jobs d m x j a :
    jobs !! i = Some j → j_phase j = JRan a →
    job_step i (mkPipeline c jobs d m x)
      (mkPipeline c (<[i := set_phase j (job_recheck c a)]> jobs) d m x)
| step_decide c jobs d m x j a :
    jobs !! i = Some j → j_phase j = JDeciding a →
    job_step i (mkPipeline c jobs d m x)
      (mkPipeline (abort_if c (should_abort (c_bail c) a))
         (<[i := set_phase j (JUnlocking a)]> jobs) d m x)
| step_unlock c jobs d m x j a :
    jobs !! i = Some j → j_phase j = JUnlocking a →
    job_step i (mkPipeline c jobs d m x)
      (mkPipeline (remove_running c i) (<[i := set_phase j (JCompleting a)]> jobs) d m x)
| step_complete c jobs d m x j a :
    jobs !! i = Some j → j_phase j = JCompleting a →
    job_step i (mkPipeline c jobs d m x)
      (mkPipeline (insert_completed c i) (<[i := set_phase j (JSending a)]> jobs) d m x)
| step_send c jobs d m x j a :
    jobs !! i = Some j → j_phase j = JSending a →
    job_step i (mkPipeline c jobs d m x)
      (mkPipeline c (<[i := set_phase j (JDone a)]> jobs) d (send m a) x).

(** *** Steps of [dispatch_jobs] *)

(** What the loop does with an index that [next] returned. *)
Definition dispatch_index (i : nat) (c : JobContext) (jobs : gmap nat job)
    (dispatcher : JobDispatcher) (persistent : list nat) (handles : gset nat) :
  JobContext * gmap nat job * dispatching :=
  match get_node_from_index g i with
  | None => (mark_completed c i, jobs, mkDispatching dispatcher DLoop persistent handles)
  | Some node =>
      if ActionNode_is_persistent node then
        (mark_completed c i, jobs, mkDispatching dispatcher DLoop (persistent ++ [i]) handles)
      else
        (c, <[i := mkJob node true JWaiting]> jobs,
         mkDispatching dispatcher
           (if ActionNode_is_interactive node then DExhaust false else DLoop)
           persistent ({[i]} ∪ handles))
  end.

(** The persistent jobs, spawned without a permit. *)
Definition spawn_persistent (jobs : gmap nat job) (handles : gset nat) (x : ActionContext)
    (persistent : list nat) : gmap nat job * gset nat * ActionContext :=
  fold_left (λ '(jobs, handles, x) i,
    match get_node_from_index g i with
    | None => (jobs, handles, x)
    | Some node =>
        (<[i := mkJob node false JReady]> jobs, {[i]} ∪ handles,
         match node with
         | RunTask inner => set_target_state x (run_target inner) TPassthrough
         | _ => x
         end)
    end) persistent (jobs, handles, x).

Inductive dispatch_step : pipeline → pipeline → Prop :=
| step_stop c jobs d m x :
    d_control d = DLoop → has_queued_jobs g (d_dispatcher d) = true →
    is_aborted_or_cancelled c = true →
    dispatch_step (mkPipeline c jobs d m x) (mkPipeline c jobs (set_control d DReturned) m x)
| step_read c jobs d m x :
    d_control d = DLoop → has_queued_jobs g (d_dispatcher d) = true →
    is_aborted_or_cancelled c = false →
    dispatch_step (mkPipeline c jobs d m x)
      (mkPipeline c jobs (set_control d (DSearch (c_completed c))) m x)
| step_next_none c jobs d m x completed dispatcher running :
    d_control d = DSearch completed →
    JobDispatcher_next g (d_dispatcher d) completed (c_running c) = Ok (None, dispatcher, running) →
    dispatch_step (mkPipeline c jobs d m x)
      (mkPipeline (set_running c running) jobs
         (mkDispatching dispatcher DJoin (d_persistent d) (d_handles d)) m x)
| step_next_some c jobs d m x completed dispatcher running i c' jobs' d' :
    d_control d = DSearch completed →
    JobDispatcher_next g (d_dispatcher d) completed (c_running c) = Ok (Some i, dispatcher, running) →
    dispatch_index i (set_running c running) jobs dispatcher (d_persistent d) (d_handles d)
      = (c', jobs', d') →
    dispatch_step (mkPipeline c jobs d m x) (mkPipeline c' jobs' d' m x)
| step_join_none c jobs d m x :
    d_control d = DJoin → d_handles d = ∅ →
    dispatch_step (mkPipeline c jobs d m x) (mkPipeline c jobs (set_control d DLoop) m x)
| step_join c jobs d m x i j :
    d_control d = DJoin → i ∈ d_handles d → jobs !! i = Some j → is_done (j_phase j) = true →
    dispatch_step (mkPipeline c jobs d m x)
      (mkPipeline c jobs
         (mkDispatching (d_dispatcher d) DLoop (d_persistent d) (d_handles d ∖ {[i]})) m x)
| step_finish_loop c jobs d m x :
    d_control d = DLoop → has_queued_jobs g (d_dispatcher d) = false →
    dispatch_step (mkPipeline c jobs d m x) (mkPipeline c jobs (set_control d (DExhaust true)) m x)
| step_exhaust c jobs d m x after_loop i j :
    d_control d = DExhaust after_loop → i ∈ d_handles d → jobs !! i = Some j →
    is_done (j_phase j) = true →
    dispatch_step (mkPipeline c jobs d m x)
      (mkPipeline c jobs
         (mkDispatching (d_dispatcher d) (d_control d) (d_persistent d) (d_handles d ∖ {[i]})) m x)
| step_exhausted c jobs d m x after_loop :
    d_control d = DExhaust after_loop → d_handles d = ∅ →
    dispatch_step (mkPipeline c jobs d m x)
      (mkPipeline c jobs
         (set_control d
            (if is_aborted_or_cancelled c then DReturned
             else if after_loop
             then match d_persistent d with [] => DReturned | _ => DPersistent end
             else DLoop)) m x)
| step_persistent c jobs d m x jobs' handles' x' :
    d_control d = DPersistent →
    spawn_persistent jobs (d_handles d) x (d_persistent d) = (jobs', handles', x') →
    dispatch_step (mkPipeline c jobs d m x)
      (mkPipeline c jobs'
         (mkDispatching (d_dispatcher d) DReturned (d_persistent d) handles') m x').

(** *** Steps of [internal_run] and of the signal monitor *)

Inductive receive_step : pipeline → pipeline → Prop :=
| step_receive c jobs d m x a channel c' m' :
    m_finished m = false → m_channel m = a :: channel →
    receive total_actions c m a channel = (c', m') →
    receive_step (mkPipeline c jobs d m x) (mkPipeline c' jobs d m' x)
| step_closed c jobs d m x :
    m_finished m = false → m_channel m = [] → m_open m = false →
    receive_step (mkPipeline c jobs d m x) (mkPipeline c jobs d (stop_receiving m) x).

Inductive signal_step : pipeline → pipeline → Prop :=
| step_signal c jobs d m x :
    signal_step (mkPipeline c jobs d m x) (mkPipeline (cancel c) jobs d m x).

(** A step of the pipeline itself, and one that may also be a signal. *)
Definition run_step (s s' : pipeline) : Prop :=
  (∃ i, job_step i s s') ∨ dispatch_step s s' ∨ receive_step s s'.

Definition step (s s' : pipeline) : Prop := run_step s s' ∨ signal_step s s'.

(** [internal_run] after [dispatch_jobs] has made the groups. *)
Definition pipeline_init (bail : bool) (groups : list (nat * list nat)) (x : ActionContext) :
  pipeline :=
  mkPipeline (mkJobContext false bail false ∅ ∅) ∅
    (mkDispatching (JobDispatcher_new groups) DLoop [] ∅)
    (mkReceiving [] true [] None PipelinePending false) x.
End Steps.
