(* ===== verification/PipelineFacts.v ===== *)
(** * Properties of the action pipeline

Invariants of every reachable state of the pipeline, proved by induction on its
steps, and what follows from them: jobs start after what they require, an abort
is seen by every dependent, permits bound the running jobs, every action has one
result, and without a signal the pipeline always comes to an end. *)

From S2P Require Import Prelude Errors Target GraphUtils Config Affected ActionContext Action.
From S2P Require Import Dag Dispatcher Pipeline.

(** ** Phases *)

(** The action a job has made. *)
Definition phase_action (p : job_phase) : option Action :=
  match p with
  | JRan a | JDeciding a | JUnlocking a | JCompleting a | JSending a | JDone a => Some a
  | _ => None
  end.

(** The action of a job that has taken the abort decision. *)
Definition decided (p : job_phase) : option Action :=
  match p with
  | JUnlocking a | JCompleting a | JSending a | JDone a => Some a
  | _ => None
  end.

(** The action of a job that has been marked as completed. *)
Definition completed_action (p : job_phase) : option Action :=
  match p with JSending a | JDone a => Some a | _ => None end.

Lemma completed_decided p a : completed_action p = Some a → decided p = Some a.
Proof. by destruct p. Qed.

Lemma decided_action p a : decided p = Some a → phase_action p = Some a.
Proof. by destruct p. Qed.

(** The results that have been sent and not been dropped, oldest first. *)
Definition results (m : receiving) : list Action := m_actions m ++ m_channel m.

Lemma get_error_index a e a' : Action_get_error a = (e, a') → a_node_index a' = a_node_index a.
Proof. unfold Action_get_error. destruct (a_error_report a); by intros [= <- <-]. Qed.

Lemma run_action_index emit effect r a :
  a_node_index (run_action emit effect r a).1 = a_node_index a.
Proof.
  unfold run_action. destruct (negb (emit 0)); [done|].
  destruct (_ && negb (emit 1)); [done|].
  destruct (match a_node a with NoAction => _ | _ => _ end) as [a1 r1] eqn:E.
  assert (a_node_index a1 = a_node_index a) as H1 by by destruct (a_node a); simplify_eq.
  destruct (_ && negb (emit 2)); [done|].
  destruct r1 as [status|[message error]]; destruct (negb (emit 3)); try done;
    destruct (_ && _); done.
Qed.

Section Invariant.
Context `{D : DagOps nat TaskDependencyType, L : !DagLaws D}.
Variables (g : ActionGraph) (concurrency : nat).

(** Every index of the graph has a node, and only those. *)
Definition nodes_ok : Prop :=
  ∀ i, i < dag_node_count (ag_graph g) ↔ is_Some (ag_nodes g !! i).

(** The completed jobs that the dispatcher goes by. *)
Definition known_completed (k : control) (c : JobContext) : gset nat :=
  match k with DSearch completed => completed | _ => c_completed c end.

Record pipe_inv (s : pipeline) : Prop := {
  inv_dispatcher : dispatcher_ok g (known_completed (d_control (s_dispatch s)) (s_context s))
    (d_dispatcher (s_dispatch s));
  inv_known : known_completed (d_control (s_dispatch s)) (s_context s)
    ⊆ c_completed (s_context s);
  (** a dispatched index has a job, or waits in the list of persistent ones *)
  inv_visited : ∀ i, i ∈ jd_visited (d_dispatcher (s_dispatch s)) →
    is_Some (s_jobs s !! i) ∨ i ∈ d_persistent (s_dispatch s);
  inv_jobs : ∀ i j, s_jobs s !! i = Some j →
    i ∈ jd_visited (d_dispatcher (s_dispatch s)) ∧
    ag_nodes g !! i = Some (j_node j) ∧
    (j_permit j = false ↔ i ∈ d_persistent (s_dispatch s));
  inv_persistent : ∀ i, i ∈ d_persistent (s_dispatch s) →
    i ∈ jd_visited (d_dispatcher (s_dispatch s)) ∧ i ∈ c_completed (s_context s);
  inv_requirements : ∀ i k, i ∈ jd_visited (d_dispatcher (s_dispatch s)) →
    k ∈ requirements g i → k ∈ c_completed (s_context s);
  inv_completed : ∀ i, i ∈ c_completed (s_context s) →
    i ∈ d_persistent (s_dispatch s) ∨
    ∃ j a, s_jobs s !! i = Some j ∧ completed_action (j_phase j) = Some a;
  inv_decided : ∀ i j a, s_jobs s !! i = Some j → decided (j_phase j) = Some a →
    should_abort (c_bail (s_context s)) a = true → c_abort (s_context s) = true;
  inv_index : ∀ i j a, s_jobs s !! i = Some j → phase_action (j_phase j) = Some a →
    a_node_index a = i;
  inv_results : ∀ a, a ∈ results (s_receive s) →
    ∃ j, s_jobs s !! a_node_index a = Some j ∧ is_done (j_phase j) = true;
  inv_results_once : NoDup (a_node_index <$> results (s_receive s));
  inv_permits : permits_in_use (s_jobs s) ≤ concurrency;
  inv_unspawned : d_control (s_dispatch s) ≠ DReturned →
    ∀ i, i ∈ d_persistent (s_dispatch s) → s_jobs s !! i = None;
  inv_range : ∀ i, i ∈ jd_visited (d_dispatcher (s_dispatch s)) →
    i < dag_node_count (ag_graph g);
}.

Lemma pipe_inv_init bail l groups x :
  deps_first g l → group_priorities g l = Ok groups →
  pipe_inv (pipeline_init bail groups x).
Proof.
  intros Hl Hg. constructor; cbn; try set_solver.
  - by eapply dispatcher_ok_new.
  - apply NoDup_nil_2.
  - unfold permits_in_use. rewrite map_filter_empty, map_size_empty. lia.
Qed.

(** *** Steps of the jobs *)

Lemma permits_insert jobs i j' :
  permits_in_use (<[i := j']> jobs) ≤
  permits_in_use jobs +
  (if holds_permit j' && negb (from_option holds_permit false (jobs !! i)) then 1 else 0).
Proof.
  unfold permits_in_use. rewrite map_filter_insert. case_decide as Hh; cbn in Hh.
  - rewrite Hh, map_size_insert, map_lookup_filter. cbn.
    destruct (jobs !! i) as [j|]; cbn; [|lia].
    case_guard as Hg; cbn in *; [lia|]. destruct (holds_permit j); [done|cbn; lia].
  - destruct (holds_permit j'); [done|]. cbn. rewrite Nat.add_0_r.
    rewrite map_filter_delete. apply map_subseteq_size, delete_subseteq.
Qed.

Lemma permits_update jobs i j p :
  jobs !! i = Some j → (holds_permit (set_phase j p) = true → holds_permit j = true) →
  permits_in_use (<[i := set_phase j p]> jobs) ≤ permits_in_use jobs.
Proof.
  intros Hj Hh. pose proof (permits_insert jobs i (set_phase j p)) as Hle.
  rewrite Hj in Hle. cbn in Hle.
  destruct (holds_permit (set_phase j p)); [rewrite Hh in Hle by done|]; cbn in Hle; lia.
Qed.

(** A step that moves job [i] to the phase [p]. *)
Lemma pipe_inv_job i c jobs d m x j p c' m' x' :
  pipe_inv (mkPipeline c jobs d m x) → jobs !! i = Some j →
  c_bail c' = c_bail c → (c_abort c = true → c_abort c' = true) →
  c_completed c ⊆ c_completed c' →
  (∀ k, k ∈ c_completed c' →
    k ∈ c_completed c ∨ (k = i ∧ is_Some (completed_action p))) →
  (is_Some (completed_action (j_phase j)) → is_Some (completed_action p)) →
  (∀ a, decided p = Some a → should_abort (c_bail c) a = true → c_abort c' = true) →
  (∀ a, phase_action p = Some a → a_node_index a = i) →
  is_done (j_phase j) = false →
  (m' = m ∨ ∃ a, p = JDone a ∧ m' = send m a) →
  permits_in_use (<[i := set_phase j p]> jobs) ≤ concurrency →
  pipe_inv (mkPipeline c' (<[i := set_phase j p]> jobs) d m' x').
Proof.
  intros [I1 I2 I3 I4 I5 I6 I7 I8 I9 I10 I11 I12 I13 I14] Hj Hbail Hab Hcmono Hc Hcomp Hdec Hidx Hnd Hm Hperm.
  cbn in *.
  assert (known_completed (d_control d) c ⊆ known_completed (d_control d) c') as Hk
    by (destruct (d_control d); cbn; set_solver).
  constructor; cbn.
  - by eapply dispatcher_ok_mono.
  - destruct (d_control d); cbn in *; set_solver.
  - intros k Hkv. destruct (I3 k Hkv) as [Hs|?]; [left|by right].
    destruct (decide (k = i)) as [->|]; [by rewrite lookup_insert_eq|by rewrite lookup_insert_ne].
  - intros k jk [[<- <-]|[? Hk']]%lookup_insert_Some; [exact (I4 _ _ Hj)|by apply I4].
  - intros k Hkp. destruct (I5 k Hkp). split; [done|]. by apply Hcmono.
  - intros k k' Hkv Hk'. by apply Hcmono, (I6 k k').
  - intros k [Hkc|[-> [a Ha]]]%Hc.
    + destruct (I7 k Hkc) as [?|(jk & a & Hjk & Ha)]; [by left|right].
      destruct (decide (k = i)) as [->|].
      * assert (jk = j) as -> by congruence. destruct Hcomp as [a' Ha']; [by eauto|].
        exists (set_phase j p), a'. by rewrite lookup_insert_eq.
      * exists jk, a. by rewrite lookup_insert_ne.
    + right. exists (set_phase j p), a. by rewrite lookup_insert_eq.
  - intros k jk a [[<- <-]|[? Hk']]%lookup_insert_Some; rewrite Hbail; [by apply Hdec|].
    intros Ha Hsa. apply Hab. by eapply I8.
  - intros k jk a [[<- <-]|[? Hk']]%lookup_insert_Some; [by apply Hidx|by apply I9].
  - intros a Ha.
    assert (a ∈ results m ∨ p = JDone a) as [Hold|Hnew].
    { destruct Hm as [->|(a' & -> & ->)]; [by left|]. unfold results, send in *. cbn in Ha.
      destruct (m_open m); [|by left]. rewrite (assoc (++)) in Ha.
      apply elem_of_app in Ha as [?| ->%list_elem_of_singleton]; [by left|by right]. }
    + destruct (I10 a Hold) as (ja & Hja & Hda).
      destruct (decide (a_node_index a = i)) as [Heq|]; [rewrite Heq in Hja; congruence|].
      exists ja. by rewrite lookup_insert_ne.
    + subst p. rewrite (Hidx a) by done. exists (set_phase j (JDone a)).
      by rewrite lookup_insert_eq.
  - destruct Hm as [->|(a & -> & ->)]; [done|]. unfold results, send in *. cbn.
    destruct (m_open m); [|done]. rewrite (assoc (++)), fmap_app. cbn.
    apply NoDup_app. split_and!; [done| |apply NoDup_singleton].
    intros k (b & -> & Hb)%list_elem_of_fmap. rewrite list_elem_of_singleton, (Hidx a) by done.
    intros Heq. destruct (I10 b Hb) as (jb & Hjb & Hdb). rewrite Heq in Hjb. congruence.
  - done.
  - intros Hk' k Hkp. specialize (I13 Hk' k Hkp).
    rewrite lookup_insert_ne; [done|]. intros <-. congruence.
  - done.
Qed.

Lemma pipe_inv_job_step i s s' : job_step concurrency i s s' → pipe_inv s → pipe_inv s'.
Proof.
  intros Hs Hinv. destruct Hs as
    [c jobs d m x j Hj Hp Hperm|c jobs d m x j Hj Hp|c jobs d m x x' j emit effect r Hj Hp
    |c jobs d m x j a Hj Hp|c jobs d m x j a Hj Hp|c jobs d m x j a Hj Hp
    |c jobs d m x j a Hj Hp|c jobs d m x j a Hj Hp];
    pose proof (inv_index _ Hinv i j) as Hidx; pose proof (inv_decided _ Hinv i j) as Hdec;
    pose proof (inv_permits _ Hinv) as Hpi; cbn in Hidx, Hdec, Hpi;
    rewrite Hp in Hidx, Hdec;
    (eapply pipe_inv_job; [exact Hinv|exact Hj|..]); cbn; try rewrite Hp; cbn;
    try done; try (by left); try (by intros ? [=]); try (by intros [? [=]]);
    try (etrans; [apply permits_update; [exact Hj|unfold holds_permit; cbn; rewrite Hp; cbn;
           by destruct (j_permit j)]|exact Hpi]).
  all: try (by intros ? [= <-]; apply Hidx).
  all: try (by intros ? [= <-] ?; eapply Hdec).
  - pose proof (permits_insert jobs i (set_phase j JReady)) as Hle.
    destruct (holds_permit _ && _); lia.
  - intros a. unfold job_start. destruct (c_abort c), (c_cancel c); cbn; done.
  - intros a. unfold job_start. destruct (c_abort c), (c_cancel c); cbn; by intros [= <-].
  - intros a [= <-].
    pose proof (run_action_index emit effect r (job_action i (j_node j))) as Hri.
    by destruct (run_action _ _ _ _) as [a' []].
  - intros a0 [= <-]. specialize (Hidx a Hj eq_refl). by destruct (c_abort c), (c_cancel c).
  - by intros ->.
  - intros ? [= <-] ->. apply orb_true_r.
  - set_solver.
  - intros k [->%elem_of_singleton|?]%elem_of_union; eauto.
  - right. eauto.
Qed.

(** *** Steps of the dispatcher *)

(** A step that only moves the control, and may join handles. *)
Lemma pipe_inv_control c jobs d m x k handles :
  pipe_inv (mkPipeline c jobs d m x) →
  known_completed k c = c_completed c ∧ (d_control d = DReturned → k = DReturned) →
  pipe_inv (mkPipeline c jobs (mkDispatching (d_dispatcher d) k (d_persistent d) handles) m x).
Proof.
  intros [I1 I2 I3 I4 I5 I6 I7 I8 I9 I10 I11 I12 I13 I14] [Hk Hret]. constructor; cbn in *; try done.
  - rewrite Hk. by eapply dispatcher_ok_mono.
  - by rewrite Hk.
  - intros Hne. apply I13. intros Heq. by apply Hne, Hret.
Qed.

(** A search that finds nothing only drops completed jobs from the queue. *)
Lemma pipe_inv_next_none c jobs d m x completed dispatcher :
  pipe_inv (mkPipeline c jobs d m x) → d_control d = DSearch completed →
  dispatcher_ok g completed dispatcher → jd_visited dispatcher = jd_visited (d_dispatcher d) →
  pipe_inv (mkPipeline (set_running c (c_running c)) jobs
    (mkDispatching dispatcher DJoin (d_persistent d) (d_handles d)) m x).
Proof.
  intros [I1 I2 I3 I4 I5 I6 I7 I8 I9 I10 I11 I12 I13 I14] Hk Hok Hv.
  constructor; cbn in *; rewrite ?Hv; try done.
  - rewrite Hk in I2. by eapply dispatcher_ok_mono.
  - intros _. apply I13. by rewrite Hk.
Qed.

(** An index that is put off: it counts as completed from now on. *)
Lemma pipe_inv_defer c jobs d m x completed dispatcher i running node :
  pipe_inv (mkPipeline c jobs d m x) → d_control d = DSearch completed →
  dispatcher_ok g completed dispatcher →
  jd_visited dispatcher = {[i]} ∪ jd_visited (d_dispatcher d) →
  applicable g (jd_visited (d_dispatcher d)) completed i → i < dag_node_count (ag_graph g) →
  ag_nodes g !! i = Some node →
  pipe_inv (mkPipeline (mark_completed (set_running c running) i) jobs
    (mkDispatching dispatcher DLoop (d_persistent d ++ [i]) (d_handles d)) m x).
Proof.
  intros [I1 I2 I3 I4 I5 I6 I7 I8 I9 I10 I11 I12 I13 I14] Hk Hok Hv (Hiv & Hic & Hreq) Hi Hnode.
  cbn in *. rewrite Hk in I2, I13. cbn in I2.
  assert (jobs !! i = None) as Hji.
  { destruct (jobs !! i) as [j|] eqn:Hj; [|done]. by destruct (I4 _ _ Hj). }
  constructor; cbn; rewrite ?Hv; try done.
  - eapply dispatcher_ok_mono, Hok. set_solver.
  - intros k [->%elem_of_singleton|Hkv]%elem_of_union; [right; set_solver|].
    destruct (I3 k Hkv); [by left|right; set_solver].
  - intros k j Hj. destruct (I4 _ _ Hj) as (? & ? & Hp). split_and!; [set_solver|done|].
    rewrite Hp, elem_of_app, list_elem_of_singleton. split; [by left|]. intros [|]; congruence.
  - intros k. rewrite elem_of_app, list_elem_of_singleton. intros [Hkp| ->]; [|set_solver].
    destruct (I5 k Hkp). set_solver.
  - intros k k' [->%elem_of_singleton|Hkv]%elem_of_union Hk'; apply elem_of_union_r; [|by eapply I6].
    by apply I2, Hreq.
  - intros k [->%elem_of_singleton|Hkc]%elem_of_union; [left; set_solver|].
    destruct (I7 k Hkc); [left; set_solver|by right].
  - intros _ k. rewrite elem_of_app, list_elem_of_singleton. intros [Hkp| ->]; [|done].
    by apply I13.
  - intros k [->%elem_of_singleton|Hkv]%elem_of_union; [done|by apply I14].
Qed.

(** An index that is spawned through the semaphore. *)
Lemma pipe_inv_spawn c jobs d m x completed dispatcher i running node k handles :
  pipe_inv (mkPipeline c jobs d m x) → d_control d = DSearch completed →
  dispatcher_ok g completed dispatcher →
  jd_visited dispatcher = {[i]} ∪ jd_visited (d_dispatcher d) →
  applicable g (jd_visited (d_dispatcher d)) completed i → i < dag_node_count (ag_graph g) →
  ag_nodes g !! i = Some node →
  known_completed k (set_running c running) = c_completed c →
  pipe_inv (mkPipeline (set_running c running) (<[i := mkJob node true JWaiting]> jobs)
    (mkDispatching dispatcher k (d_persistent d) handles) m x).
Proof.
  intros [I1 I2 I3 I4 I5 I6 I7 I8 I9 I10 I11 I12 I13 I14] Hk Hok Hv (Hiv & Hic & Hreq) Hi Hnode Hkn.
  cbn in *. rewrite Hk in I2, I13. cbn in I2.
  assert (jobs !! i = None) as Hji.
  { destruct (jobs !! i) as [j|] eqn:Hj; [|done]. by destruct (I4 _ _ Hj). }
  assert (i ∉ d_persistent d) as Hip by (intros Hip; by destruct (I5 i Hip)).
  constructor; cbn; rewrite ?Hv, ?Hkn; try done.
  - by eapply dispatcher_ok_mono.
  - intros k' [->%elem_of_singleton|Hkv]%elem_of_union; [left; by rewrite lookup_insert_eq|].
    destruct (I3 k' Hkv) as [Hs|]; [left|by right]. rewrite lookup_insert_ne; [done|congruence].
  - intros k' j [[<- <-]|[? Hj]]%lookup_insert_Some; [|destruct (I4 _ _ Hj); set_solver].
    split_and!; [set_solver|done|]. done.
  - intros k' Hkp. destruct (I5 k' Hkp). set_solver.
  - intros k' k2 [->%elem_of_singleton|Hkv]%elem_of_union Hk'; [|by eapply I6].
    by apply I2, Hreq.
  - intros k' Hkc. destruct (I7 k' Hkc) as [?|(j & a & Hj & Ha)]; [by left|right].
    exists j, a. rewrite lookup_insert_ne; [done|congruence].
  - intros k' j a [[<- <-]|[? Hj]]%lookup_insert_Some; [done|by eapply I8].
  - intros k' j a [[<- <-]|[? Hj]]%lookup_insert_Some; [done|by eapply I9].
  - intros a (j & Hj & Hd)%I10. exists j. rewrite lookup_insert_ne; [done|congruence].
  - etrans; [apply permits_insert|]. cbn. lia.
  - intros _ k' Hkp. rewrite lookup_insert_ne; [apply I13; done|congruence].
  - intros k' [->%elem_of_singleton|Hkv]%elem_of_union; [done|by apply I14].
Qed.

(** What spawning the persistent jobs adds. *)
Lemma spawn_persistent_spec l jobs handles x jobs' handles' x' :
  spawn_persistent g jobs handles x l = (jobs', handles', x') →
  (∀ i, i ∈ l → is_Some (ag_nodes g !! i)) →
  (∀ i, i ∈ l → ∃ node, ag_nodes g !! i = Some node ∧ jobs' !! i = Some (mkJob node false JReady)) ∧
  (∀ i, i ∉ l → jobs' !! i = jobs !! i) ∧
  ∀ i, i ∈ handles' ↔ i ∈ handles ∨ i ∈ l.
Proof.
  unfold spawn_persistent.
  revert jobs handles x. induction l as [|i l IH]; intros jobs handles x Hs Hl; cbn in Hs.
  { simplify_eq. set_solver. }
  destruct (Hl i) as [node Hnode]; [by left|].
  unfold get_node_from_index in Hs at 2. rewrite Hnode in Hs.
  apply IH in Hs as (Hin & Hout & Hh); [|intros; apply Hl; by right]. split_and!.
  - intros k [->|Hk]%elem_of_cons; [|by apply Hin]. exists node. split; [done|].
    destruct (decide (i ∈ l)) as [Hil|Hil].
    + destruct (Hin i Hil) as (node' & ? & ->). congruence.
    + by rewrite (Hout i Hil), lookup_insert_eq.
  - intros k [Hki Hkl]%not_elem_of_cons. rewrite Hout by done. by apply lookup_insert_ne.
  - intros k. rewrite Hh. set_solver.
Qed.

Lemma permits_spawn jobs jobs' (l : list nat) :
  (∀ i, i ∈ l → ∃ node, jobs' !! i = Some (mkJob node false JReady)) →
  (∀ i, i ∉ l → jobs' !! i = jobs !! i) →
  permits_in_use jobs' ≤ permits_in_use jobs.
Proof.
  intros Hin Hout. apply map_subseteq_size, map_subseteq_spec. intros i j.
  rewrite !map_lookup_filter_Some. intros [Hj Hh]. split; [|done].
  destruct (decide (i ∈ l)) as [Hil|Hil]; [|by rewrite <- Hout].
  destruct (Hin i Hil) as (node & Hj'). cbn in Hh. by rewrite Hj' in Hj; simplify_eq.
Qed.

(** The persistent jobs are spawned, each for the first time. *)
Lemma pipe_inv_persistent c jobs d m x jobs' handles' x' :
  nodes_ok → pipe_inv (mkPipeline c jobs d m x) → d_control d = DPersistent →
  spawn_persistent g jobs (d_handles d) x (d_persistent d) = (jobs', handles', x') →
  pipe_inv (mkPipeline c jobs'
    (mkDispatching (d_dispatcher d) DReturned (d_persistent d) handles') m x').
Proof.
  intros Hnodes [I1 I2 I3 I4 I5 I6 I7 I8 I9 I10 I11 I12 I13 I14] Hk Hs. cbn in *.
  rewrite Hk in *. cbn in *. specialize (I13 ltac:(done)).
  apply spawn_persistent_spec in Hs as (Hin & Hout & _);
    [|intros i Hi; apply Hnodes, I14, I5, Hi].
  assert (∀ i j, jobs' !! i = Some j →
    (i ∈ d_persistent d ∧ ag_nodes g !! i = Some (j_node j) ∧ j_permit j = false ∧
     j_phase j = JReady) ∨ (i ∉ d_persistent d ∧ jobs !! i = Some j)) as Hcase.
  { intros i j Hj. destruct (decide (i ∈ d_persistent d)) as [Hi|Hi].
    - left. destruct (Hin i Hi) as (node & ? & Hj'). rewrite Hj' in Hj. by simplify_eq.
    - right. by rewrite <- Hout. }
  assert (∀ i j, jobs !! i = Some j → jobs' !! i = Some j) as Hkeep.
  { intros i j Hj. rewrite Hout; [done|]. intros Hi. rewrite I13 in Hj; done. }
  constructor; cbn; try done.
  - intros i [[j Hj]|?]%I3; [left; exists j; auto|by right].
  - intros i j [(Hi & ? & Hp & _)|[Hi Hj]]%Hcase; [|by apply I4].
    split_and!; [by apply I5|done..].
  - intros i [?|(j & a & Hj & Ha)]%I7; [by left|right]. exists j, a. auto.
  - intros i j a [(_ & _ & _ & ->)|[_ Hj]]%Hcase; [done|by eapply I8].
  - intros i j a [(_ & _ & _ & ->)|[_ Hj]]%Hcase; [done|by eapply I9].
  - intros a (j & Hj & Hd)%I10. exists j. auto.
  - etrans; [|exact I12]. eapply permits_spawn; [|exact Hout]. naive_solver.
Qed.

Lemma pipe_inv_dispatch_step s s' :
  dag_wf (ag_graph g) → nodes_ok → dispatch_step g s s' → pipe_inv s → pipe_inv s'.
Proof.
  intros Hwf Hnodes Hs Hinv.
  destruct Hs as [c jobs d m x Hk _ _|c jobs d m x Hk _ _
    |c jobs d m x completed dispatcher running Hk Hn
    |c jobs d m x completed dispatcher running i c' jobs' d' Hk Hn Hd
    |c jobs d m x Hk _|c jobs d m x i j Hk _ _ _|c jobs d m x Hk _
    |c jobs d m x after i j Hk _ _ _|c jobs d m x after Hk _|c jobs d m x jobs' handles' x' Hk Hs].
  3,4: pose proof (inv_dispatcher _ Hinv) as Hok; cbn in Hok; rewrite Hk in Hok; cbn in Hok;
    destruct (next_spec g completed _ (c_running c) Hwf Hok) as (o & d2 & r2 & Heq & Hok2 & Ho);
    rewrite Heq in Hn; injection Hn as -> -> ->.
  3: destruct Ho as (Hv & -> & _); by eapply pipe_inv_next_none.
  3: { destruct Ho as (Hap & Hi & Hv & _). unfold dispatch_index, get_node_from_index in Hd.
       destruct (proj1 (Hnodes i) Hi) as [node Hnode]. rewrite Hnode in Hd.
       destruct (ActionNode_is_persistent node); simplify_eq; [by eapply pipe_inv_defer|].
       eapply pipe_inv_spawn; [done..|]. by destruct (ActionNode_is_interactive node). }
  all: try (apply pipe_inv_control; [done|]; by rewrite Hk).
  - apply pipe_inv_control; [done|]. rewrite Hk. split; [|done].
    destruct (is_aborted_or_cancelled c), after, (d_persistent d); done.
  - by eapply pipe_inv_persistent.
Qed.

(** *** Steps of the receiver, and signals *)

Lemma receive_results total c m a channel c' m' :
  m_channel m = a :: channel → receive total c m a channel = (c', m') →
  (a_node_index <$> results m') `sublist_of` (a_node_index <$> results m) ∧
  c' = abort_if c (should_abort (c_bail c) a) ∧
  a_node_index <$> m_actions m' = (a_node_index <$> m_actions m) ++ [a_node_index a].
Proof.
  intros Hch. unfold receive.
  match goal with |- context [if ?b then _ else (m_error m, a)] => destruct (if b then _ else (m_error m, a)) as [error a'] eqn:E end.
  assert (a_node_index a' = a_node_index a) as Ha.
  { destruct (_ && _); [|by simplify_eq]. destruct (Action_get_error a) eqn:Hg. simplify_eq.
    by eapply get_error_index. }
  intros [= <- <-].
  assert (∀ l : list Action, l `sublist_of` channel →
    (a_node_index <$> (m_actions m ++ [a']) ++ l) `sublist_of` (a_node_index <$> results m)) as Hl.
  { intros l Hsub. unfold results. rewrite Hch, <- (assoc (++)), !fmap_app. cbn. rewrite Ha.
    apply sublist_app; [done|]. by apply sublist_skip, fmap_sublist. }
  clear E. repeat case_match;
    (split_and!; [apply Hl; by try apply sublist_nil_l|done|cbn; rewrite fmap_app; cbn; by rewrite Ha]).
Qed.

Lemma pipe_inv_receive_step s s' : receive_step g s s' → pipe_inv s → pipe_inv s'.
Proof.
  assert (∀ c jobs d m x c' m',
    pipe_inv (mkPipeline c jobs d m x) → (a_node_index <$> results m') `sublist_of` (a_node_index <$> results m) →
    c_bail c' = c_bail c → c_completed c' = c_completed c → (c_abort c = true → c_abort c' = true) →
    pipe_inv (mkPipeline c' jobs d m' x)) as Hgen.
  { intros c jobs d m x c' m' [I1 I2 I3 I4 I5 I6 I7 I8 I9 I10 I11 I12 I13 I14] Hsub Hb Hc Ha.
    cbn in *.
    assert (known_completed (d_control d) c' = known_completed (d_control d) c) as Hk
      by by destruct (d_control d).
    constructor; cbn; rewrite ?Hk, ?Hc, ?Hb; try done.
    - intros i j a Hj Hd Hsa. eauto.
    - intros a Hin. assert (a_node_index a ∈ (a_node_index <$> results m)) as Hin'.
      { eapply elem_of_sublist; [by apply list_elem_of_fmap_2|done]. }
      apply list_elem_of_fmap in Hin' as (b & -> & Hb'). auto.
    - by eapply sublist_NoDup. }
  intros [c jobs d m x a channel c' m' Hf Hch Hr|c jobs d m x Hf Hch Ho] Hinv.
  - destruct (receive_results _ _ _ _ _ _ _ Hch Hr) as (Hsub & -> & _).
    eapply Hgen; [done|done|done|done|]. by intros Ha; cbn in *; rewrite Ha.
  - eapply Hgen; [done| |done..]. unfold results, stop_receiving. by rewrite Hch.
Qed.

Lemma pipe_inv_signal_step s s' : signal_step s s' → pipe_inv s → pipe_inv s'.
Proof.
  intros [c jobs d m x] [I1 I2 I3 I4 I5 I6 I7 I8 I9 I10 I11 I12 I13 I14]. cbn in *.
  constructor; cbn; try done; by destruct (d_control d).
Qed.

Lemma pipe_inv_step s s' :
  dag_wf (ag_graph g) → nodes_ok → step g concurrency s s' → pipe_inv s → pipe_inv s'.
Proof.
  intros Hwf Hn [[[i Hs]|[Hs|Hs]]|Hs];
    eauto using pipe_inv_job_step, pipe_inv_dispatch_step, pipe_inv_receive_step,
      pipe_inv_signal_step.
Qed.

(** A pipeline over a finished action graph, in the order [sort_topological]
    gave it. *)
Definition starts (bail : bool) (x : ActionContext) (s : pipeline) : Prop :=
  ∃ l groups, deps_first g l ∧ group_priorities g l = Ok groups ∧ s = pipeline_init bail groups x.

Lemma pipe_inv_reachable bail x s0 s :
  dag_wf (ag_graph g) → nodes_ok → starts bail x s0 → rtc (step g concurrency) s0 s → pipe_inv s.
Proof.
  intros Hwf Hn (l & groups & Hl & Hg & ->) Hs.
  assert (pipe_inv (pipeline_init bail groups x)) as H0 by by eapply pipe_inv_init.
  revert H0. induction Hs; eauto using pipe_inv_step.
Qed.
End Invariant.
