(* ===== verification/PipelineLive.v ===== *)
(** * Progress and outcome of the action pipeline

What a pipeline comes to: it ends within a bounded number of steps, it is never
stuck unless a signal came, and what it has received when it ends.  The three
ways in which a run goes wrong are shown at the end, on concrete runs. *)

From S2P Require Import Prelude Errors Target GraphUtils Config Affected ActionContext Action.
From S2P Require Import Dag Dispatcher Pipeline PipelineFacts.

(** A job that may still be among the running ones. *)
Definition may_run (p : job_phase) : bool :=
  match p with JCompleting _ | JSending _ | JDone _ => false | _ => true end.

(** How far a job is from its end; a result that is sent takes two more steps. *)
Definition phase_rank (p : job_phase) : nat :=
  match p with
  | JWaiting => 10
  | JReady => 9
  | JRunning => 8
  | JRan _ => 7
  | JDeciding _ => 6
  | JUnlocking _ => 5
  | JCompleting _ => 4
  | JSending _ => 3
  | JDone _ => 0
  end.

Section Live.
Context `{D : DagOps nat TaskDependencyType, L : !DagLaws D}.
Variables (g : ActionGraph) (concurrency : nat).

(** An action whose job made the pipeline abort, and that was not received. *)
Definition aborting (c : JobContext) (jobs : gmap nat job) (m : receiving) : Prop :=
  ∃ i j a, jobs !! i = Some j ∧ decided (j_phase j) = Some a ∧
    should_abort (c_bail c) a = true ∧ i ∉ (a_node_index <$> m_actions m).

(** The loop of the dispatcher is over. *)
Definition loop_over (k : control) : Prop :=
  k = DExhaust true ∨ k = DPersistent.

Record live_inv (s : pipeline) : Prop := {
  live_handles : ∀ i, i ∈ d_handles (s_dispatch s) → is_Some (s_jobs s !! i);
  live_unjoined : ∀ i j, s_jobs s !! i = Some j → is_done (j_phase j) = false →
    i ∈ d_handles (s_dispatch s);
  live_running : ∀ i, is_Some (c_running (s_context s) !! i) →
    ∃ j, s_jobs s !! i = Some j ∧ may_run (j_phase j) = true;
  live_completed : ∀ i j a, s_jobs s !! i = Some j → completed_action (j_phase j) = Some a →
    i ∈ c_completed (s_context s);
  live_search : ∀ k, d_control (s_dispatch s) = DSearch k →
    has_queued_jobs g (d_dispatcher (s_dispatch s)) = true ∧
    (d_handles (s_dispatch s) = ∅ → jd_visited (d_dispatcher (s_dispatch s)) ⊆ k);
  live_join : d_control (s_dispatch s) = DJoin → d_handles (s_dispatch s) ≠ ∅;
  live_over : loop_over (d_control (s_dispatch s)) →
    has_queued_jobs g (d_dispatcher (s_dispatch s)) = false;
  live_returned : d_control (s_dispatch s) = DReturned →
    is_aborted_or_cancelled (s_context s) = true ∨
    has_queued_jobs g (d_dispatcher (s_dispatch s)) = false ∧
    ∀ i, i ∈ jd_visited (d_dispatcher (s_dispatch s)) → is_Some (s_jobs s !! i);
  live_sent : m_open (s_receive s) = true → ∀ i j a, s_jobs s !! i = Some j →
    j_phase j = JDone a → i ∈ (a_node_index <$> results (s_receive s));
  live_abort : m_open (s_receive s) = true → c_abort (s_context s) = true →
    aborting (s_context s) (s_jobs s) (s_receive s);
}.

(** What the receiver has: its status, and the actions received. *)
Record receive_inv (s : pipeline) : Prop := {
  recv_open : m_open (s_receive s) = true →
    m_status (s_receive s) = PipelinePending ∧ m_finished (s_receive s) = false ∧
    length (m_actions (s_receive s)) < total_actions g;
  recv_closed : m_open (s_receive s) = false →
    m_status (s_receive s) = PipelineAborted ∧ c_abort (s_context s) = true ∨
    m_status (s_receive s) = PipelineInterrupted ∧ c_cancel (s_context s) = true ∨
    m_status (s_receive s) = PipelineCompleted ∧ m_finished (s_receive s) = true;
  recv_completed : m_status (s_receive s) = PipelineCompleted →
    length (m_actions (s_receive s)) = total_actions g;
  recv_clean : m_status (s_receive s) = PipelinePending ∨
      m_status (s_receive s) = PipelineCompleted →
    Forall (λ a, should_abort (c_bail (s_context s)) a = false) (m_actions (s_receive s));
  recv_cause : c_abort (s_context s) = true →
    ∃ i j a, s_jobs s !! i = Some j ∧ decided (j_phase j) = Some a ∧
      should_abort (c_bail (s_context s)) a = true;
  recv_channel : ∀ a, a ∈ m_channel (s_receive s) →
    ∃ j, s_jobs s !! a_node_index a = Some j ∧ j_phase j = JDone a;
}.

Lemma live_inv_init bail groups x : live_inv (pipeline_init bail groups x).
Proof. constructor; cbn; try done; [by intros ? [? ?]|by intros [|]]. Qed.

Lemma receive_inv_init bail groups x :
  0 < total_actions g → receive_inv (pipeline_init bail groups x).
Proof. intros Hn. constructor; try done. by intros a []%not_elem_of_nil. Qed.

(** ** Steps of the jobs *)

Lemma live_inv_job i c jobs d m x j p c' m' x' :
  pipe_inv g concurrency (mkPipeline c jobs d m x) → live_inv (mkPipeline c jobs d m x) →
  jobs !! i = Some j → is_done (j_phase j) = false →
  c_bail c' = c_bail c → c_cancel c' = c_cancel c → c_completed c ⊆ c_completed c' →
  (∀ k, is_Some (c_running c' !! k) →
    is_Some (c_running c !! k) ∧ (k = i → may_run p = true)) →
  (is_Some (completed_action p) → i ∈ c_completed c') →
  (∀ a, decided (j_phase j) = Some a → decided p = Some a) →
  (phase_action p ≠ None → a_node_index <$> phase_action p = Some i) →
  c_abort c' = c_abort c ∨ c_abort c' = true ∧
    (∃ a, decided p = Some a ∧ should_abort (c_bail c) a = true) →
  m' = m ∧ is_done p = false ∨ (∃ a, p = JDone a ∧ m' = send m a) →
  live_inv (mkPipeline c' (<[i := set_phase j p]> jobs) d m' x').
Proof.
  intros Hinv [H1 H2 H3 H4 H5 H6 H7 H8 H9 H10] Hj Hnd Hb Hcan Hcm Hrun Hcomp Hdec Hidx Hab Hm.
  pose proof (inv_results _ _ _ Hinv) as Hres. cbn in *.
  assert (m_open m' = m_open m ∧ m_actions m' = m_actions m) as [Hop Hac]
    by by destruct Hm as [[-> _]|(a & -> & ->)].
  constructor; cbn; rewrite ?Hop; try done.
  - intros k [jk Hk]%H1. destruct (decide (k = i)) as [->|].
    + by rewrite lookup_insert_eq.
    + by rewrite lookup_insert_ne.
  - intros k jk [[<- <-]|[? Hk]]%lookup_insert_Some; [|by apply H2].
    intros _. by apply (H2 i j).
  - intros k [[jk [Hk Hmr]]%H3 Hki]%Hrun. destruct (decide (k = i)) as [->|].
    + exists (set_phase j p). rewrite lookup_insert_eq. auto.
    + exists jk. by rewrite lookup_insert_ne.
  - intros k jk a [[<- <-]|[? Hk]]%lookup_insert_Some Ha; cbn in *; [by eauto|].
    by eapply Hcm, H4.
  - intros Hr. destruct (H8 Hr) as [Hc|[Hq Hs]]; [left|right].
    + unfold is_aborted_or_cancelled in *. rewrite Hcan.
      destruct Hab as [->|[-> _]]; [done|done].
    + split; [done|]. intros k [jk Hk]%Hs. destruct (decide (k = i)) as [->|].
      * by rewrite lookup_insert_eq.
      * by rewrite lookup_insert_ne.
  - intros Ho k jk a [[<- <-]|[? Hk]]%lookup_insert_Some Hd; cbn in *.
    + destruct Hm as [[-> Hf]|(a' & -> & ->)]; [by rewrite Hd in Hf|].
      cbn in Hidx. specialize (Hidx ltac:(done)). injection Hidx as <-.
      unfold results, send. cbn. rewrite Ho, !fmap_app. set_solver.
    + specialize (H9 Ho _ _ _ Hk Hd). destruct Hm as [[-> Hf]|(a' & -> & ->)]; [done|].
      unfold results, send in *. cbn. rewrite Ho, !fmap_app in *. set_solver.
  - intros Ho Hc. unfold aborting. rewrite Hb, Hac.
    destruct Hab as [Heq|[_ (a & Ha & Hsa)]].
    + rewrite Heq in Hc. destruct (H10 Ho Hc) as (k & jk & a & Hk & Ha & Hsa & Hn).
      destruct (decide (k = i)) as [->|].
      * simplify_eq. exists i, (set_phase j p), a. rewrite lookup_insert_eq. cbn. auto.
      * exists k, jk, a. by rewrite lookup_insert_ne.
    + exists i, (set_phase j p), a. rewrite lookup_insert_eq. split_and!; [done..|].
      intros (b & Hbi & Hin)%list_elem_of_fmap.
      destruct (Hres b) as (jb & Hjb & Hdb); [unfold results; set_solver|].
      rewrite <- Hbi in Hjb. simplify_eq. congruence.
Qed.
Lemma live_inv_job_step i s s' :
  job_step concurrency i s s' → pipe_inv g concurrency s → live_inv s → live_inv s'.
Proof.
  intros Hs Hinv Hlive. destruct Hs as
    [c jobs d m x j Hj Hp Hperm|c jobs d m x j Hj Hp|c jobs d m x x' j emit effect r Hj Hp
    |c jobs d m x j a Hj Hp|c jobs d m x j a Hj Hp|c jobs d m x j a Hj Hp
    |c jobs d m x j a Hj Hp|c jobs d m x j a Hj Hp];
    pose proof (inv_index _ _ _ Hinv i j) as Hidx; cbn in Hidx; rewrite Hp in Hidx;
    pose proof (live_completed _ Hlive i j) as Hcomp; cbn in Hcomp; rewrite Hp in Hcomp;
    (eapply live_inv_job; [exact Hinv|exact Hlive|exact Hj|rewrite Hp; done|..]); cbn;
    try rewrite Hp; cbn; try done; try (by left); try (by intros [? [=]]);
    try (intros _; rewrite (Hidx a) by done; done).
  - unfold job_start. by destruct (c_abort c), (c_cancel c).
  - unfold job_start. destruct (c_abort c), (c_cancel c); by intros [? ?].
  - unfold job_start. by destruct (c_abort c), (c_cancel c).
  - left. unfold job_start. by destruct (c_abort c), (c_cancel c).
  - intros _. f_equal.
    pose proof (run_action_index emit effect r (job_action i (j_node j))) as Hri.
    by destruct (run_action _ _ _ _) as [a' []].
  - intros _. f_equal. specialize (Hidx a Hj eq_refl). by destruct (c_abort c), (c_cancel c).
  - destruct (should_abort (c_bail c) a) eqn:Hsa.
    + right. rewrite orb_true_r. eauto.
    + left. by rewrite orb_false_r.
  - intros k [n [Hne Hk]%lookup_delete_Some]. split; [by exists n|]. by intros ->.
  - set_solver.
  - intros k [n Hk]. split; [by exists n|]. intros ->.
    destruct (live_running _ Hlive i) as (jk & Hjk & Hmr); [by exists n|].
    cbn in Hjk. simplify_eq. by rewrite Hp in Hmr.
  - set_solver.
  - intros k [n Hk]. split; [by exists n|]. intros ->.
    destruct (live_running _ Hlive i) as (jk & Hjk & Hmr); [by exists n|].
    cbn in Hjk. simplify_eq. by rewrite Hp in Hmr.
  - intros _. by apply (Hcomp a).
  - eauto.
Qed.
(** What all steps of a job have in common. *)
Lemma job_step_shape i s s' :
  job_step concurrency i s s' → ∃ j p,
    s_jobs s !! i = Some j ∧ s_jobs s' = <[i := set_phase j p]> (s_jobs s) ∧
    s_dispatch s' = s_dispatch s ∧ is_done (j_phase j) = false ∧
    (∀ a, decided (j_phase j) = Some a → decided p = Some a) ∧
    c_bail (s_context s') = c_bail (s_context s) ∧
    c_cancel (s_context s') = c_cancel (s_context s) ∧
    (c_abort (s_context s') = c_abort (s_context s) ∨
     c_abort (s_context s') = true ∧
     ∃ a, decided p = Some a ∧ should_abort (c_bail (s_context s)) a = true) ∧
    phase_rank p < phase_rank (j_phase j) ∧
    (s_receive s' = s_receive s ∨
     ∃ a, j_phase j = JSending a ∧ p = JDone a ∧ s_receive s' = send (s_receive s) a).
Proof.
  intros Hs. destruct Hs as
    [c jobs d m x j Hj Hp Hperm|c jobs d m x j Hj Hp|c jobs d m x x' j emit effect r Hj Hp
    |c jobs d m x j a Hj Hp|c jobs d m x j a Hj Hp|c jobs d m x j a Hj Hp
    |c jobs d m x j a Hj Hp|c jobs d m x j a Hj Hp];
    (eexists j, _; split; [exact Hj|]; split; [reflexivity|]); rewrite Hp; cbn;
    (split_and!; try done); try (by left); try lia.
  - unfold job_start. destruct (c_abort c), (c_cancel c); cbn; lia.
  - destruct (should_abort (c_bail c) a) eqn:Hsa.
    + right. rewrite orb_true_r. eauto.
    + left. by rewrite orb_false_r.
  - right. eauto.
Qed.

Lemma receive_inv_job_step i s s' :
  job_step concurrency i s s' → pipe_inv g concurrency s → receive_inv s → receive_inv s'.
Proof.
  intros (j & p & Hj & Hjobs & _ & Hnd & Hdec & Hb & Hcan & Hab & _ & Hm)%job_step_shape
    Hinv [H1 H2 H3 H4 H5 H6].
  assert (m_open (s_receive s') = m_open (s_receive s) ∧
    m_status (s_receive s') = m_status (s_receive s) ∧
    m_finished (s_receive s') = m_finished (s_receive s) ∧
    m_actions (s_receive s') = m_actions (s_receive s)) as (Ho & Hst & Hf & Ha)
    by by destruct Hm as [->|(a & _ & _ & ->)].
  constructor; rewrite ?Ho, ?Hst, ?Hf, ?Ha, ?Hb, ?Hcan, ?Hjobs; try done.
  - intros Hop. destruct (H2 Hop) as [[? Hc]|[?|?]]; [left|tauto..].
    destruct Hab as [->|[-> _]]; tauto.
  - intros Hc. destruct Hab as [Heq|[_ (a & Hd & Hsa)]].
    + rewrite Heq in Hc. destruct (H5 Hc) as (k & jk & a & Hk & Hd & Hsa).
      destruct (decide (k = i)) as [->|].
      * simplify_eq. exists i, (set_phase j p), a. rewrite lookup_insert_eq. cbn. auto.
      * exists k, jk, a. by rewrite lookup_insert_ne.
    + exists i, (set_phase j p), a. by rewrite lookup_insert_eq.
  - intros a Ha'.
    assert (a ∈ m_channel (s_receive s) ∨ j_phase j = JSending a ∧ p = JDone a) as [Hold|[Hjp ->]].
    { destruct Hm as [Hm|(b & Hjb & -> & Hm)]; rewrite Hm in Ha'; [by left|]. cbn in Ha'.
      destruct (m_open (s_receive s)); [|by left]. set_solver. }
    + destruct (H6 a Hold) as (ja & Hja & Hda). exists ja. rewrite lookup_insert_ne; [done|].
      intros ->. simplify_eq. by rewrite Hda in Hnd.
    + rewrite (inv_index _ _ _ Hinv i j a Hj) by by rewrite Hjp.
      exists (set_phase j (JDone a)). by rewrite lookup_insert_eq.
Qed.

(** ** Steps of the dispatcher *)

(** A step that moves the control within the loop or out of it. *)
Lemma live_inv_control c jobs d m x k handles :
  live_inv (mkPipeline c jobs d m x) →
  handles ⊆ d_handles d →
  (∀ i j, jobs !! i = Some j → is_done (j_phase j) = false → i ∈ handles) →
  match k with
  | DLoop | DExhaust false => True
  | DSearch completed =>
      has_queued_jobs g (d_dispatcher d) = true ∧
      (handles = ∅ → jd_visited (d_dispatcher d) ⊆ completed)
  | DJoin => handles ≠ ∅
  | DExhaust true | DPersistent => has_queued_jobs g (d_dispatcher d) = false
  | DReturned =>
      is_aborted_or_cancelled c = true ∨ has_queued_jobs g (d_dispatcher d) = false ∧
      ∀ i, i ∈ jd_visited (d_dispatcher d) → is_Some (jobs !! i)
  end →
  live_inv (mkPipeline c jobs (mkDispatching (d_dispatcher d) k (d_persistent d) handles) m x).
Proof.
  intros [H1 H2 H3 H4 H5 H6 H7 H8 H9 H10] Hsub Hun Hk. cbn in *.
  constructor; cbn; try done.
  - set_solver.
  - by intros k' ->.
  - by intros ->.
  - by intros [->| ->].
  - by intros ->.
Qed.

(** Once every job has ended, all that was dispatched has completed and nothing
    is running. *)
Lemma all_done_idle s :
  pipe_inv g concurrency s → live_inv s → d_handles (s_dispatch s) = ∅ →
  jd_visited (d_dispatcher (s_dispatch s)) ⊆ c_completed (s_context s) ∧
  c_running (s_context s) = ∅.
Proof.
  intros Hinv Hlive Hh.
  assert (∀ i j, s_jobs s !! i = Some j → is_done (j_phase j) = true) as Hd.
  { intros i j Hj. destruct (is_done (j_phase j)) eqn:E; [done|].
    apply (live_unjoined _ Hlive i j Hj) in E. rewrite Hh in E. set_solver. }
  split.
  - intros i [[j Hj]|Hp]%(inv_visited _ _ _ Hinv); [|by apply (inv_persistent _ _ _ Hinv)].
    specialize (Hd i j Hj). destruct (j_phase j) as [| | | | | | | |a] eqn:Hp; try done.
    apply (live_completed _ Hlive i j a Hj). by rewrite Hp.
  - apply map_empty. intros i. apply eq_None_not_Some.
    intros (j & Hj & Hr)%(live_running _ Hlive). apply Hd in Hj. by destruct (j_phase j).
Qed.
Lemma has_queued_unvisited (d : JobDispatcher) :
  has_queued_jobs g d = true → ∃ i, i < dag_node_count (ag_graph g) ∧ i ∉ jd_visited d.
Proof.
  unfold has_queued_jobs. rewrite Nat.ltb_lt. intros Hlt.
  destruct (set_choose_or_empty (set_seq 0 (dag_node_count (ag_graph g)) ∖ jd_visited d))
    as [[i [Hi Hv]%elem_of_difference]|Hemp].
  - exists i. apply elem_of_set_seq in Hi. split; [lia|done].
  - exfalso. assert ((set_seq 0 (dag_node_count (ag_graph g)) : gset nat) ⊆ jd_visited d) as Hs
      by set_solver.
    apply subseteq_size in Hs. rewrite size_set_seq in Hs. lia.
Qed.

Lemma completed_visited s i :
  pipe_inv g concurrency s → i ∈ c_completed (s_context s) →
  i ∈ jd_visited (d_dispatcher (s_dispatch s)).
Proof.
  intros Hinv [Hp|(j & a & Hj & _)]%(inv_completed _ _ _ Hinv).
  - by apply (inv_persistent _ _ _ Hinv).
  - by apply (inv_jobs _ _ _ Hinv i j).
Qed.

(** A search while no job is outstanding finds one: the dispatcher waits only
    for jobs that will end. *)
Lemma search_finds s l k d' running :
  dag_wf (ag_graph g) → deps_first g l → pipe_inv g concurrency s → live_inv s →
  d_control (s_dispatch s) = DSearch k → d_handles (s_dispatch s) = ∅ →
  JobDispatcher_next g (d_dispatcher (s_dispatch s)) k (c_running (s_context s))
    ≠ Ok (None, d', running).
Proof.
  intros Hwf Hl Hinv Hlive Hk Hh Hnext.
  destruct (live_search _ Hlive k Hk) as [(i & Hi & Hiv)%has_queued_unvisited Hsub].
  destruct (all_done_idle s Hinv Hlive Hh) as [_ Hrun].
  pose proof (inv_dispatcher _ _ _ Hinv) as Hok. pose proof (inv_known _ _ _ Hinv) as Hkn.
  rewrite Hk in Hok, Hkn. cbn in Hok, Hkn.
  destruct (next_spec g k _ (c_running (s_context s)) Hwf Hok) as (o & d2 & r2 & Heq & _ & Ho).
  rewrite Heq in Hnext. simplify_eq. destruct Ho as (_ & _ & Hno).
  destruct (exists_applicable g (jd_visited (d_dispatcher (s_dispatch s))) k l i)
    as (a & Ha & Hap); [done|auto|by apply Hl| |].
  - intros Hik. by apply Hiv, completed_visited, Hkn.
  - eapply Hno; [done|by apply Hl|done].
Qed.

Lemma live_inv_next c jobs d m x completed dispatcher running i c' jobs' d' :
  nodes_ok g → pipe_inv g concurrency (mkPipeline c jobs d m x) →
  live_inv (mkPipeline c jobs d m x) →
  i < dag_node_count (ag_graph g) → d_control d = DSearch completed →
  i ∉ jd_visited (d_dispatcher d) →
  (running = c_running c ∨ ∃ job_id, running = <[i := job_id]> (c_running c)) →
  dispatch_index g i (set_running c running) jobs dispatcher (d_persistent d) (d_handles d)
    = (c', jobs', d') →
  live_inv (mkPipeline c' jobs' d' m x).
Proof.
  intros Hnodes Hinv [H1 H2 H3 H4 H5 H6 H7 H8 H9 H10] Hi Hk Hiv Hrun Hd.
  pose proof (inv_jobs _ _ _ Hinv) as Hjobs. cbn in *.
  unfold dispatch_index, get_node_from_index in Hd.
  destruct (proj1 (Hnodes i) Hi) as [node Hnode]. rewrite Hnode in Hd.
  assert (jobs !! i = None) as Hji.
  { destruct (jobs !! i) as [j|] eqn:Hj; [|done]. by destruct (Hjobs _ _ Hj). }
  assert (∀ k, k ≠ i → is_Some (running !! k) → is_Some (c_running c !! k)) as Hr.
  { intros k Hki. destruct Hrun as [->|[id ->]]; [done|]. by rewrite lookup_insert_ne. }
  destruct (ActionNode_is_persistent node); simplify_eq.
  - constructor; cbn; try done.
    + intros k [id [Hki Hk']%lookup_delete_Some]. apply H3, Hr; [done|by exists id].
    + set_solver.
    + by intros [|].
  - constructor; cbn; try done.
    + intros k [->%elem_of_singleton|Hkh]%elem_of_union; [by rewrite lookup_insert_eq|].
      rewrite lookup_insert_ne; [by apply H1|]. intros ->. apply H1 in Hkh as [? ?]. congruence.
    + intros k j [[<- <-]|[? Hj]]%lookup_insert_Some Hdn; [set_solver|].
      apply elem_of_union_r. by eapply H2.
    + intros k Hkr. destruct (decide (k = i)) as [->|Hne].
      * exists (mkJob node true JWaiting). by rewrite lookup_insert_eq.
      * destruct (H3 k) as (j & Hj & Hm); [by apply Hr|]. exists j. by rewrite lookup_insert_ne.
    + intros k j a [[<- <-]|[? Hj]]%lookup_insert_Some Ha; [done|]. by eapply H4.
    + destruct (ActionNode_is_interactive node); done.
    + destruct (ActionNode_is_interactive node); done.
    + destruct (ActionNode_is_interactive node); by intros [|].
    + destruct (ActionNode_is_interactive node); done.
    + intros Ho k j a [[<- <-]|[? Hj]]%lookup_insert_Some Ha; [done|]. by eapply H9.
    + intros Ho Ha. destruct (H10 Ho Ha) as (k & j & a & Hj & ?).
      exists k, j, a. rewrite lookup_insert_ne; [done|congruence].
Qed.
(** The persistent jobs, spawned: those that were there are left alone. *)
Lemma spawn_cases c jobs d m x jobs' handles' x' :
  nodes_ok g → pipe_inv g concurrency (mkPipeline c jobs d m x) → d_control d = DPersistent →
  spawn_persistent g jobs (d_handles d) x (d_persistent d) = (jobs', handles', x') →
  (∀ i j, jobs !! i = Some j → jobs' !! i = Some j) ∧
  (∀ i j, jobs' !! i = Some j → jobs !! i = Some j ∨ jobs !! i = None ∧
    i ∈ d_persistent d ∧ j_phase j = JReady) ∧
  (∀ i, i ∈ d_persistent d → is_Some (jobs' !! i)) ∧
  ∀ i, i ∈ handles' ↔ i ∈ d_handles d ∨ i ∈ d_persistent d.
Proof.
  intros Hnodes [I1 I2 I3 I4 I5 I6 I7 I8 I9 I10 I11 I12 I13 I14] Hk Hs. cbn in *.
  rewrite Hk in I13. specialize (I13 ltac:(done)).
  apply spawn_persistent_spec in Hs as (Hin & Hout & Hh);
    [|intros i Hi; apply Hnodes, I14, I5, Hi].
  split_and!; [| | |done].
  - intros i j Hj. rewrite Hout; [done|]. intros Hi. rewrite I13 in Hj; done.
  - intros i j Hj. destruct (decide (i ∈ d_persistent d)) as [Hi|Hi].
    + right. destruct (Hin i Hi) as (node & ? & Hj'). rewrite Hj' in Hj.
      simplify_eq. split; [by apply I13|done].
    + left. by rewrite <- Hout.
  - intros i Hi. destruct (Hin i Hi) as (node & _ & ->). done.
Qed.

Lemma live_inv_persistent c jobs d m x jobs' handles' x' :
  nodes_ok g → pipe_inv g concurrency (mkPipeline c jobs d m x) →
  live_inv (mkPipeline c jobs d m x) → d_control d = DPersistent →
  spawn_persistent g jobs (d_handles d) x (d_persistent d) = (jobs', handles', x') →
  live_inv (mkPipeline c jobs'
    (mkDispatching (d_dispatcher d) DReturned (d_persistent d) handles') m x').
Proof.
  intros Hnodes Hinv Hlive Hk Hs.
  destruct (spawn_cases _ _ _ _ _ _ _ _ Hnodes Hinv Hk Hs) as (Hkeep & Hcase & Hall & Hh).
  pose proof (inv_visited _ _ _ Hinv) as Hvis.
  destruct Hlive as [H1 H2 H3 H4 H5 H6 H7 H8 H9 H10]. cbn in *. constructor; cbn; try done.
  - intros i [[j Hj]%H1|Hi]%Hh; [exists j; auto|auto].
  - intros i j [Hj|(_ & Hi & _)]%Hcase Hd; apply Hh; [left; by eapply H2|by right].
  - intros i (j & Hj & Hm)%H3. exists j. auto.
  - intros i j a [Hj|(_ & _ & ->)]%Hcase; [by eapply H4|done].
  - by intros [|].
  - intros _. right. split; [apply H7; by right|].
    intros i [[j Hj]|Hi]%Hvis; [exists j; auto|auto].
  - intros Ho i j a [Hj|(_ & _ & ->)]%Hcase Hd; [by eapply H9|done].
  - intros Ho Ha. destruct (H10 Ho Ha) as (i & j & a & Hj & ?). exists i, j, a. auto.
Qed.

Lemma unjoined_remove c jobs d m x i j :
  live_inv (mkPipeline c jobs d m x) → jobs !! i = Some j → is_done (j_phase j) = true →
  ∀ k jk, jobs !! k = Some jk → is_done (j_phase jk) = false → k ∈ d_handles d ∖ {[i]}.
Proof.
  intros Hlive Hj Hd k jk Hjk Hdk. pose proof (live_unjoined _ Hlive k jk Hjk Hdk) as Hin.
  cbn in Hin. assert (k ≠ i) by congruence. set_solver.
Qed.

Lemma live_inv_dispatch_step s s' l :
  dag_wf (ag_graph g) → nodes_ok g → deps_first g l →
  dispatch_step g s s' → pipe_inv g concurrency s → live_inv s → live_inv s'.
Proof.
  intros Hwf Hnodes Hl Hs Hinv Hlive.
  destruct Hs as [c jobs d m x Hk _ Hc|c jobs d m x Hk Hq _
    |c jobs d m x completed dispatcher running Hk Hn
    |c jobs d m x completed dispatcher running i c' jobs' d' Hk Hn Hd
    |c jobs d m x Hk _|c jobs d m x i j Hk Hi Hj Hd|c jobs d m x Hk Hq
    |c jobs d m x after i j Hk Hi Hj Hd|c jobs d m x after Hk Hh
    |c jobs d m x jobs' handles' x' Hk Hs].
  3,4: pose proof (inv_dispatcher _ _ _ Hinv) as Hok; cbn in Hok; rewrite Hk in Hok; cbn in Hok;
    destruct (next_spec g completed _ (c_running c) Hwf Hok) as (o & d2 & r2 & Heq & Hok2 & Ho).
  all: try (apply live_inv_control; [done|done|apply (live_unjoined _ Hlive)|tauto]).
  - apply live_inv_control; [done|done|apply (live_unjoined _ Hlive)|]. split; [done|].
    apply (all_done_idle _ Hinv Hlive).
  - assert (d_handles d ≠ ∅) as Hne by
      (intros Hh; by eapply (search_finds _ l completed dispatcher running)).
    rewrite Heq in Hn. injection Hn as -> -> ->. destruct Ho as (Hv & -> & _).
    destruct Hlive as [H1 H2 H3 H4 H5 H6 H7 H8 H9 H10]. constructor; cbn in *; try done.
    by intros [|].
  - rewrite Heq in Hn. injection Hn as -> -> ->.
    destruct Ho as ((Hiv & _ & _) & Hi & _ & Hr).
    eapply live_inv_next; [done|done|done|done|done|done| |done]. naive_solver.
  - by apply live_inv_control; [|set_solver|eapply unjoined_remove|].
  - rewrite Hk. apply live_inv_control; [done|set_solver|by eapply unjoined_remove|].
    destruct after; [|done]. apply (live_over _ Hlive). by left.
  - assert (after = true → has_queued_jobs g (d_dispatcher d) = false) as Hq.
    { intros ->. apply (live_over _ Hlive). by left. }
    apply live_inv_control; [done|done|apply (live_unjoined _ Hlive)|].
    destruct (is_aborted_or_cancelled c) eqn:Hc; [by left|]. destruct after; [|done].
    destruct (d_persistent d) eqn:Hp; [|auto]. right. split; [auto|].
    intros i [?|Hi]%(inv_visited _ _ _ Hinv); [done|]. cbn in Hi. rewrite Hp in Hi. set_solver.
  - by eapply live_inv_persistent.
Qed.
Lemma receive_inv_dispatch_step s s' :
  dag_wf (ag_graph g) → nodes_ok g →
  dispatch_step g s s' → pipe_inv g concurrency s → receive_inv s → receive_inv s'.
Proof.
  intros Hwf Hnodes Hs Hinv Hrecv.
  assert (s_receive s' = s_receive s ∧ c_bail (s_context s') = c_bail (s_context s) ∧
    c_abort (s_context s') = c_abort (s_context s) ∧
    c_cancel (s_context s') = c_cancel (s_context s) ∧
    ∀ i j, s_jobs s !! i = Some j → s_jobs s' !! i = Some j) as (Hm & Hb & Ha & Hc & Hj).
  { destruct Hs as [| | |c jobs d m x completed dispatcher running i c' jobs' d' Hk Hn Hd
      | | | | | |c jobs d m x jobs' handles' x' Hk Hs]; try done; [|].
    - pose proof (inv_dispatcher _ _ _ Hinv) as Hok. pose proof (inv_jobs _ _ _ Hinv) as Hjobs.
      cbn in Hok, Hjobs |- *. rewrite Hk in Hok. cbn in Hok.
      destruct (next_spec g completed _ (c_running c) Hwf Hok) as (o & d2 & r2 & Heq & _ & Ho).
      rewrite Heq in Hn. injection Hn as -> -> ->. destruct Ho as ((Hiv & _ & _) & _).
      unfold dispatch_index in Hd. repeat case_match; simplify_eq; try done.
      all: split_and!; try done; intros k j Hj; rewrite lookup_insert_ne; [done|].
      all: intros ->; by destruct (Hjobs _ _ Hj).
    - split_and!; try done. by eapply spawn_cases. }
  destruct Hrecv as [H1 H2 H3 H4 H5 H6]. constructor; rewrite ?Hm, ?Hb, ?Ha, ?Hc; try done.
  - intros (i & j & a & Hji & ?)%H5. exists i, j, a. auto.
  - intros a (j & ? & ?)%H6. exists j. auto.
Qed.

(** ** Steps of the receiver, and signals *)

Lemma receive_cases total c m a channel c' m' :
  receive total c m a channel = (c', m') →
  (c_abort c' = true ∧ m_open m' = false ∧ m_status m' = PipelineAborted) ∨
  (c_abort c' = false ∧ should_abort (c_bail c) a = false ∧ c_abort c = false ∧
   ((c_cancel c = true ∧ m_open m' = false ∧ m_status m' = PipelineInterrupted) ∨
    (c_cancel c = false ∧ m_actions m' = m_actions m ++ [a] ∧
     ((m_open m' = false ∧ m_finished m' = true ∧ m_status m' = PipelineCompleted ∧
       length (m_actions m') = total) ∨
      (m_open m' = m_open m ∧ m_finished m' = false ∧ m_status m' = m_status m ∧
       length (m_actions m') ≠ total ∧ m_channel m' = channel))))).
Proof.
  unfold receive.
  match goal with |- context [if ?b then _ else (m_error m, a)] =>
    destruct (if b then _ else (m_error m, a)) as [error a'] eqn:E end.
  cbn. destruct (c_abort c || should_abort (c_bail c) a) eqn:Hab.
  { intros [= <- <-]. left. cbn. by rewrite Hab. }
  apply orb_false_iff in Hab as [Hca Hsa].
  destruct (c_cancel c) eqn:Hcan;
    [intros [= <- <-]; right; cbn; rewrite Hca, Hsa; split_and!; [done..|by left]|].
  assert (a' = a) as ->.
  { assert (Action_should_abort a = false) as Hna.
    { unfold should_abort in Hsa. by apply orb_false_iff in Hsa as [? _]. }
    rewrite Hna in E. cbn in E. by simplify_eq. }
  destruct (length (m_actions m ++ [a]) =? total) eqn:Hlen; intros [= <- <-]; right; cbn;
    rewrite Hca, Hsa; (split_and!; [done..|]); right; (split_and!; [done..|]).
  - apply Nat.eqb_eq in Hlen. by left.
  - apply Nat.eqb_neq in Hlen. by right.
Qed.

Lemma live_inv_receive_step s s' : receive_step g s s' → live_inv s → live_inv s'.
Proof.
  intros [c jobs d m x a channel c' m' Hf Hch Hr|c jobs d m x Hf Hch Ho]
    [H1 H2 H3 H4 H5 H6 H7 H8 H9 H10]; cbn in *; [|by constructor].
  pose proof (receive_results _ _ _ _ _ _ _ Hch Hr) as (_ & Hc & Hact).
  apply receive_cases in Hr. subst c'. constructor; cbn in *; try done.
  - intros Hk. destruct (H8 Hk) as [Ha|?]; [left|by right].
    unfold is_aborted_or_cancelled in *. cbn. by destruct (c_abort c), (c_cancel c), (should_abort _ _).
  - intros Ho i j b Hj Hp.
    destruct Hr as [(_ & ? & _)|(_ & _ & _ & [(_ & ? & _)|(_ & Hm & [(? & _)|(Hop & _ & _ & _ & Hcn)])])];
      [congruence..|].
    rewrite Hop in Ho. specialize (H9 Ho i j b Hj Hp). unfold results in *.
    rewrite Hm, Hcn, <- (assoc (++)). change ([a] ++ channel) with (a :: channel). by rewrite <- Hch.
  - intros Ho Ha. destruct Hr as [(_ & ? & _)|(? & _)]; congruence.
Qed.

Lemma receive_inv_receive_step s s' :
  receive_step g s s' → pipe_inv g concurrency s → receive_inv s → receive_inv s'.
Proof.
  intros [c jobs d m x a channel c' m' Hf Hch Hr|c jobs d m x Hf Hch Ho] Hinv
    [H1 H2 H3 H4 H5 H6]; cbn in *;
    [|constructor; cbn; try done; [|by intros a []%not_elem_of_nil];
      intros _; destruct (H2 Ho) as [?|[?|[? _]]]; auto].
  pose proof (receive_results _ _ _ _ _ _ _ Hch Hr) as (_ & Hc & Hact).
  assert (m_open m = false → m_status m ≠ PipelineCompleted) as Hnc by
    (intros Ho Hst; destruct (H2 Ho) as [[? _]|[[? _]|[_ ?]]]; congruence).
  assert (∀ b, b ∈ m_channel m' → b ∈ m_channel m) as Hsub.
  { clear -Hr Hch. rewrite Hch. revert Hr. unfold receive.
    repeat case_match; intros [= <- <-]; cbn; set_solver. }
  apply receive_cases in Hr.
  assert (c_bail c' = c_bail c) as Hb by by rewrite Hc.
  assert (c_cancel c' = c_cancel c) as Hcan by by rewrite Hc.
  constructor; cbn in *; rewrite ?Hb, ?Hcan.
  - intros Ho.
    destruct Hr as [(_ & ? & _)|(_ & _ & _ & [(_ & ? & _)|(_ & Hm & [(? & _)|(Hop & Hfin & Hst & Hlen & _)])])];
      [congruence..|].
    rewrite Hop in Ho. destruct (H1 Ho) as (? & ? & Hlt). rewrite Hst. split_and!; [done..|].
    rewrite Hm, length_app in *. cbn in *. lia.
  - intros Ho. destruct Hr as [?|(_ & _ & Hca & [?|(_ & _ & [?|(Hop & _ & Hst & _)])])]; [tauto..|].
    rewrite Hop in Ho. rewrite Hst. destruct (H2 Ho) as [[_ ?]|[[? ?]|[? _]]]; [congruence|tauto|].
    by apply Hnc in Ho.
  - intros Hcm. destruct Hr as [(_ & _ & ?)|(_ & _ & _ & [(_ & _ & ?)|(_ & _ & [?|(Hop & _ & Hst & _)])])];
      [congruence..|tauto|].
    rewrite Hst in Hcm. destruct (m_open m) eqn:Hmo; [destruct (H1 eq_refl); congruence|].
    by apply Hnc in Hcm.
  - intros Hcm. destruct Hr as [(_ & _ & ?)|(_ & Hsa & Hca & [(_ & _ & ?)|(Hcn & Hm & Hst)])];
      [destruct Hcm; congruence..|].
    rewrite Hm. apply Forall_app. split; [|by constructor]. apply H4. left.
    destruct (m_open m) eqn:Hmo; [by apply H1|].
    destruct (H2 eq_refl) as [[_ ?]|[[? ?]|[? ?]]]; congruence.
  - intros Ha. rewrite Hc in Ha. cbn in Ha. apply orb_true_iff in Ha as [Ha|Ha]; [by auto|].
    destruct (H6 a) as (j & Hj & Hp); [rewrite Hch; by left|].
    exists (a_node_index a), j, a. by rewrite Hp.
  - intros b Hbin%Hsub. auto.
Qed.
(** All that holds of a state a pipeline gets to. *)
Record all_inv (s : pipeline) : Prop := {
  all_pipe : pipe_inv g concurrency s;
  all_live : live_inv s;
  all_receive : receive_inv s;
}.

Lemma all_inv_run_step s s' l :
  dag_wf (ag_graph g) → nodes_ok g → deps_first g l →
  run_step g concurrency s s' → all_inv s → all_inv s'.
Proof.
  intros Hwf Hn Hl Hs [Hp Hlive Hr]. constructor.
  - eapply pipe_inv_step; [done..|by left|done].
  - destruct Hs as [[i Hs]|[Hs|Hs]];
      eauto using live_inv_job_step, live_inv_dispatch_step, live_inv_receive_step.
  - destruct Hs as [[i Hs]|[Hs|Hs]];
      eauto using receive_inv_job_step, receive_inv_dispatch_step, receive_inv_receive_step.
Qed.

Lemma all_inv_signal_step s s' : signal_step s s' → all_inv s → all_inv s'.
Proof.
  intros Hs [Hp Hlive Hr]. constructor.
  - by eapply pipe_inv_signal_step.
  - destruct Hs as [c jobs d m x], Hlive as [H1 H2 H3 H4 H5 H6 H7 H8 H9 H10]; cbn in *.
    constructor; cbn; try done. intros _. left. by apply orb_true_r.
  - destruct Hs as [c jobs d m x], Hr as [H1 H2 H3 H4 H5 H6]; cbn in *.
    constructor; cbn; try done. intros Ho. destruct (H2 Ho) as [?|[[? _]|?]]; auto.
Qed.

Lemma total_actions_count : nodes_ok g → total_actions g = dag_node_count (ag_graph g).
Proof.
  unfold nodes_ok. intros Hn. unfold total_actions, get_node_count. rewrite <- size_dom.
  rewrite <- (size_set_seq (C := gset nat) 0 (dag_node_count (ag_graph g))). f_equiv.
  apply set_eq. intros i. rewrite elem_of_dom, elem_of_set_seq, <- Hn. lia.
Qed.

Lemma all_inv_start bail x s0 :
  nodes_ok g → 0 < dag_node_count (ag_graph g) → starts g bail x s0 → all_inv s0.
Proof.
  intros Hn Hpos (l & groups & Hl & Hg & ->). constructor.
  - by eapply pipe_inv_init.
  - apply live_inv_init.
  - apply receive_inv_init. by rewrite total_actions_count.
Qed.

Lemma all_inv_reachable bail x s0 s :
  dag_wf (ag_graph g) → nodes_ok g → 0 < dag_node_count (ag_graph g) → starts g bail x s0 →
  rtc (step g concurrency) s0 s → all_inv s.
Proof.
  intros Hwf Hn Hpos Hst Hs. pose proof (all_inv_start _ _ _ Hn Hpos Hst) as H0.
  destruct Hst as (l & groups & Hl & _). revert H0.
  induction Hs as [|s s' s'' [Hr|Hr] _ IH]; eauto using all_inv_run_step, all_inv_signal_step.
Qed.

(** ** Termination *)

(** What the index [i] still takes: to be dispatched, to run, and to be joined. *)
Definition index_rank (s : pipeline) (i : nat) : nat :=
  (if decide (i ∈ jd_visited (d_dispatcher (s_dispatch s)))
   then from_option (λ j, phase_rank (j_phase j)) 13 (s_jobs s !! i)
   else 17) +
  (if decide (i ∈ d_handles (s_dispatch s)) then 4 else 0).

Definition control_rank (k : control) : nat :=
  match k with
  | DExhaust false => 4
  | DLoop => 3
  | DSearch _ | DExhaust true => 2
  | DJoin | DPersistent => 1
  | DReturned => 0
  end.

Definition rank (s : pipeline) : nat :=
  sum_list_with (index_rank s) (seq 0 (dag_node_count (ag_graph g))) +
  control_rank (d_control (s_dispatch s)) + 2 * length (m_channel (s_receive s)) +
  (if m_finished (s_receive s) then 0 else 1).
Lemma indices_elem i : i ∈ seq 0 (dag_node_count (ag_graph g)) ↔ i < dag_node_count (ag_graph g).
Proof. rewrite elem_of_seq. lia. Qed.

Lemma rank_job_step i s s' :
  job_step concurrency i s s' → pipe_inv g concurrency s → rank s' < rank s.
Proof.
  intros (j & p & Hj & Hjobs & Hd & _ & _ & _ & _ & _ & Hlt & Hm)%job_step_shape Hinv.
  destruct (inv_jobs _ _ _ Hinv i j Hj) as (Hv & _). pose proof (inv_range _ _ _ Hinv i Hv) as Hr.
  assert (sum_list_with (index_rank s') (seq 0 (dag_node_count (ag_graph g)))
    + (phase_rank (j_phase j) - phase_rank p)
    ≤ sum_list_with (index_rank s) (seq 0 (dag_node_count (ag_graph g)))) as Hsum.
  { apply (sum_list_with_lt _ _ _ i); [|by apply indices_elem|].
    - intros k _. unfold index_rank. rewrite Hd, Hjobs. destruct (decide (i = k)) as [->|].
      + rewrite lookup_insert_eq, Hj. cbn. case_decide; lia.
      + by rewrite lookup_insert_ne.
    - unfold index_rank. rewrite Hd, Hjobs, lookup_insert_eq, Hj. cbn.
      destruct (decide (i ∈ jd_visited _)); [lia|done]. }
  unfold rank. rewrite Hd. destruct Hm as [->|(a & Hjp & -> & ->)]; [lia|].
  rewrite Hjp in Hsum. cbn in *. destruct (m_open (s_receive s)); [rewrite length_app; cbn|]; lia.
Qed.

Lemma rank_join c jobs d m x k i :
  i < dag_node_count (ag_graph g) → i ∈ d_handles d →
  rank (mkPipeline c jobs (mkDispatching (d_dispatcher d) k (d_persistent d) (d_handles d ∖ {[i]})) m x)
    + control_rank (d_control d) + 4 ≤ rank (mkPipeline c jobs d m x) + control_rank k.
Proof.
  intros Hr Hi. set (s' := mkPipeline _ _ (mkDispatching _ _ _ _) _ _).
  assert (sum_list_with (index_rank s') (seq 0 (dag_node_count (ag_graph g))) + 4
    ≤ sum_list_with (index_rank (mkPipeline c jobs d m x)) (seq 0 (dag_node_count (ag_graph g))))
    as Hsum.
  { apply (sum_list_with_lt _ _ _ i); [|by apply indices_elem|]; unfold index_rank; cbn.
    - intros k' _. apply Nat.add_le_mono_l. repeat case_decide; try lia. set_solver.
    - rewrite (decide_False (P := i ∈ _ ∖ _)), (decide_True (P := i ∈ d_handles d));
        [lia|done|set_solver]. }
  unfold rank. cbn. lia.
Qed.

(** An index that was not visited and now is. *)
Lemma rank_visit c jobs d m x i jobs' d' c' :
  i < dag_node_count (ag_graph g) → i ∉ jd_visited (d_dispatcher d) → i ∉ d_handles d →
  jd_visited (d_dispatcher d') = {[i]} ∪ jd_visited (d_dispatcher d) →
  (d_handles d' = d_handles d ∧ jobs' = jobs ∧ jobs !! i = None ∧
     control_rank (d_control d') ≤ 3 ∨
   ∃ node, d_handles d' = {[i]} ∪ d_handles d ∧
     jobs' = <[i := mkJob node true JWaiting]> jobs ∧ control_rank (d_control d') ≤ 4) →
  control_rank (d_control d) = 2 →
  rank (mkPipeline c' jobs' d' m x) < rank (mkPipeline c jobs d m x).
Proof.
  intros Hr Hv Hh Hv' Hcase Hk. unfold rank. cbn. rewrite Hk.
  set (s' := mkPipeline c' jobs' d' m x). set (s := mkPipeline c jobs d m x).
  set (l := seq 0 _). assert (i ∈ l) as Hil by by apply indices_elem.
  assert (∀ k, k ≠ i → index_rank s' k = index_rank s k) as Hother.
  { intros k Hki. unfold index_rank, s, s'. cbn. rewrite Hv'.
    rewrite (decide_ext (k ∈ {[i]} ∪ jd_visited (d_dispatcher d))
      (k ∈ jd_visited (d_dispatcher d))) by set_solver.
    destruct Hcase as [(-> & -> & _)|(node & -> & -> & _)]; [done|].
    rewrite lookup_insert_ne by done. f_equal.
    by rewrite (decide_ext (k ∈ {[i]} ∪ d_handles d) (k ∈ d_handles d)) by set_solver. }
  assert (index_rank s i = 17) as Hs
    by (unfold index_rank, s; cbn; by rewrite !decide_False).
  assert (∀ w, index_rank s' i = w → w ≤ 17 →
    sum_list_with (index_rank s') l + (17 - w) ≤ sum_list_with (index_rank s) l) as Hsum.
  { intros w Hw Hle. apply (sum_list_with_lt _ _ _ i); [|done|lia].
    intros k _. destruct (decide (k = i)) as [->|Hne]; [lia|by rewrite Hother]. }
  destruct Hcase as [(Hdh & -> & Hji & Hc)|(node & Hdh & -> & Hc)].
  - assert (index_rank s' i = 13) as Hw.
    { unfold index_rank, s'. cbn. rewrite Hv', Hdh, Hji. rewrite decide_True by set_solver.
      by rewrite decide_False. }
    specialize (Hsum 13 Hw ltac:(lia)). lia.
  - assert (index_rank s' i = 14) as Hw.
    { unfold index_rank, s'. cbn. rewrite Hv', Hdh, lookup_insert_eq.
      by rewrite !decide_True by set_solver. }
    specialize (Hsum 14 Hw ltac:(lia)). lia.
Qed.
Lemma rank_persistent c jobs d m x jobs' handles' x' :
  nodes_ok g → pipe_inv g concurrency (mkPipeline c jobs d m x) → d_control d = DPersistent →
  spawn_persistent g jobs (d_handles d) x (d_persistent d) = (jobs', handles', x') →
  rank (mkPipeline c jobs' (mkDispatching (d_dispatcher d) DReturned (d_persistent d) handles') m x')
  < rank (mkPipeline c jobs d m x).
Proof.
  intros Hn Hinv Hk Hs.
  destruct (spawn_cases _ _ _ _ _ _ _ _ Hn Hinv Hk Hs) as (Hkeep & Hcase & Hall & Hh).
  pose proof (inv_unspawned _ _ _ Hinv) as Hun. pose proof (inv_persistent _ _ _ Hinv) as Hper.
  cbn in *. rewrite Hk in Hun. specialize (Hun ltac:(done)).
  unfold rank. cbn. rewrite Hk. cbn.
  set (s' := mkPipeline c jobs' _ m x'). set (s := mkPipeline c jobs d m x).
  assert (sum_list_with (index_rank s') (seq 0 (dag_node_count (ag_graph g)))
    ≤ sum_list_with (index_rank s) (seq 0 (dag_node_count (ag_graph g)))) as Hsum; [|lia].
  apply sum_list_with_le. intros i _. unfold index_rank, s, s'. cbn.
  destruct (decide (i ∈ d_persistent d)) as [Hi|Hi].
  - rewrite (Hun i Hi). destruct (Hall i Hi) as [j Hj]. rewrite Hj.
    destruct (Hcase i j Hj) as [?|(_ & _ & Hp)]; [rewrite Hun in *; done|]. cbn. rewrite Hp.
    destruct (Hper i Hi) as [Hv _]. repeat case_decide; cbn; try lia; done.
  - rewrite (decide_ext (i ∈ handles') (i ∈ d_handles d)) by (rewrite Hh; tauto).
    apply Nat.add_le_mono_r. case_decide; [|lia].
    destruct (jobs !! i) as [j|] eqn:Hj; [by rewrite (Hkeep i j Hj)|].
    destruct (jobs' !! i) as [j'|] eqn:Hj'; [|done].
    destruct (Hcase i j' Hj') as [?|(_ & ? & _)]; [congruence|done].
Qed.

Lemma rank_dispatch_step s s' :
  dag_wf (ag_graph g) → nodes_ok g →
  dispatch_step g s s' → pipe_inv g concurrency s → live_inv s → rank s' < rank s.
Proof.
  intros Hwf Hnodes Hs Hinv Hlive.
  assert (∀ i, i ∈ d_handles (s_dispatch s) → i < dag_node_count (ag_graph g)) as Hhr.
  { intros i [j Hj]%(live_handles _ Hlive). eapply (inv_range _ _ _ Hinv).
    by apply (inv_jobs _ _ _ Hinv i j). }
  assert (∀ c jobs d m x k, control_rank k < control_rank (d_control d) →
    rank (mkPipeline c jobs (set_control d k) m x) < rank (mkPipeline c jobs d m x)) as Hctl
    by (intros; unfold rank; cbn; apply Nat.add_lt_mono_r, Nat.add_lt_mono_r, Nat.add_lt_mono_l, H).
  destruct Hs as [c jobs d m x Hk _ Hc|c jobs d m x Hk Hq _
    |c jobs d m x completed dispatcher running Hk Hn
    |c jobs d m x completed dispatcher running i c' jobs' d' Hk Hn Hd
    |c jobs d m x Hk Hh|c jobs d m x i j Hk Hi Hj Hd|c jobs d m x Hk Hq
    |c jobs d m x after i j Hk Hi Hj Hd|c jobs d m x after Hk Hh
    |c jobs d m x jobs' handles' x' Hk Hs].
  3,4: pose proof (inv_dispatcher _ _ _ Hinv) as Hok; cbn in Hok; rewrite Hk in Hok; cbn in Hok;
    destruct (next_spec g completed _ (c_running c) Hwf Hok) as (o & d2 & r2 & Heq & Hok2 & Ho);
    rewrite Heq in Hn; injection Hn as -> -> ->.
  all: try (apply Hctl; rewrite Hk; cbn; lia).
  - destruct Ho as (Hv & _). unfold rank, index_rank. cbn. rewrite Hk, Hv. cbn. lia.
  - destruct Ho as ((Hiv & _ & _) & Hi & Hv & _).
    assert (jobs !! i = None) as Hji.
    { destruct (jobs !! i) as [j|] eqn:Hj; [|done]. by destruct (inv_jobs _ _ _ Hinv i j Hj). }
    assert (i ∉ d_handles d) as Hih by
      (intros [j Hj]%(live_handles _ Hlive); cbn in Hj; congruence).
    unfold dispatch_index, get_node_from_index in Hd.
    destruct (proj1 (Hnodes i) Hi) as [node Hnode]. rewrite Hnode in Hd.
    eapply rank_visit; [exact Hi|done|done| | |by rewrite Hk];
      destruct (ActionNode_is_persistent node); simplify_eq; cbn; [done|done|by left|].
    right. exists node. split_and!; [done..|]. destruct (ActionNode_is_interactive node); cbn; lia.
  - by apply (live_join _ Hlive) in Hk.
  - pose proof (rank_join c jobs d m x DLoop i (Hhr i Hi) Hi) as Hj'. rewrite Hk in Hj'. cbn in Hj'. lia.
  - pose proof (rank_join c jobs d m x (d_control d) i (Hhr i Hi) Hi). lia.
  - apply Hctl. rewrite Hk. destruct (is_aborted_or_cancelled c), after, (d_persistent d); cbn; lia.
  - by eapply rank_persistent.
Qed.

Lemma rank_receive_step s s' : receive_step g s s' → rank s' < rank s.
Proof.
  intros [c jobs d m x a channel c' m' Hf Hch Hr|c jobs d m x Hf Hch Ho].
  - assert (length (m_channel m') ≤ length channel) as Hlen.
    { revert Hr. unfold receive. repeat case_match; intros [= <- <-]; cbn; lia. }
    unfold rank, index_rank. cbn. rewrite Hch, Hf. cbn. destruct (m_finished m'); lia.
  - unfold rank, index_rank. cbn. rewrite Hch, Hf. cbn. lia.
Qed.

Lemma rank_run_step s s' :
  dag_wf (ag_graph g) → nodes_ok g → run_step g concurrency s s' → all_inv s → rank s' < rank s.
Proof.
  intros Hwf Hn [[i Hs]|[Hs|Hs]] [Hp Hl _];
    eauto using rank_job_step, rank_dispatch_step, rank_receive_step.
Qed.

Lemma rank_start bail x s0 :
  starts g bail x s0 → rank s0 = 17 * dag_node_count (ag_graph g) + 4.
Proof.
  intros (l & groups & _ & _ & ->). unfold rank. cbn [control_rank pipeline_init
    s_dispatch d_control s_receive m_channel m_finished length].
  assert (∀ k, sum_list_with (index_rank (pipeline_init bail groups x)) (seq k
    (dag_node_count (ag_graph g))) = 17 * dag_node_count (ag_graph g)) as Hsum; [|rewrite Hsum; lia].
  induction (dag_node_count (ag_graph g)) as [|n IH]; intros k; [done|]. cbn [seq sum_list_with].
  rewrite IH. unfold index_rank. cbn [pipeline_init s_dispatch d_dispatcher d_handles s_jobs].
  rewrite !decide_False by (cbn; set_solver). lia.
Qed.
End Live.
