(* ===== verification/PipelineRuns.v ===== *)
(** * What a run of the action pipeline guarantees

The theorems on whole runs: what has completed when a job starts, how many jobs
run at once, how a run ends and that it ends; then concrete runs that show where
the pipeline does not do what it means to. *)

From S2P Require Import Prelude Errors Target GraphUtils Config Affected ActionContext Action.
From S2P Require Import Dag Dispatcher Pipeline PipelineFacts PipelineLive.

Definition is_running (p : job_phase) : bool := match p with JRunning => true | _ => false end.

Section Stuck.
Context `{D : DagOps nat TaskDependencyType, L : !DagLaws D}.
Variables (g : ActionGraph) (concurrency : nat).

(** A job that holds a permit, or needs none, can always go on. *)
Lemma job_can_step s i j :
  s_jobs s !! i = Some j → j_phase j ≠ JWaiting → is_done (j_phase j) = false →
  ∃ s', job_step concurrency i s s'.
Proof.
  destruct s as [c jobs d m x]. cbn. intros Hj Hw Hd.
  destruct (j_phase j) eqn:Hp; try done; eexists.
  - by eapply step_start.
  - by eapply (step_run _ _ _ _ _ _ _ x _ (λ _, true) (mkBodyEffect false false [] Running) (inl Passed)).
  - by eapply step_recheck.
  - by eapply step_decide.
  - by eapply step_unlock.
  - by eapply step_complete.
  - by eapply step_send.
Qed.

Lemma permit_holder jobs :
  0 < permits_in_use jobs → ∃ i j, jobs !! i = Some j ∧ holds_permit j = true.
Proof.
  intros Hpos.
  destruct (map_choose (filter (λ p : nat * job, holds_permit p.2 = true) jobs)) as (i & j & Hij).
  - intros Hemp. unfold permits_in_use in Hpos. rewrite Hemp, map_size_empty in Hpos. lia.
  - apply map_lookup_filter_Some in Hij as [Hj Hh]. eauto.
Qed.

(** If no job can go on, all have ended. *)
Lemma jobs_stuck_done s i j :
  0 < concurrency → (∀ k s', ¬ job_step concurrency k s s') →
  s_jobs s !! i = Some j → is_done (j_phase j) = true.
Proof.
  intros Hpos Hno Hj. destruct (is_done (j_phase j)) eqn:Hd; [done|]. exfalso.
  assert (j_phase j = JWaiting ∨ j_phase j ≠ JWaiting) as [Hw|Hw]
    by (destruct (j_phase j); auto).
  - destruct (decide (permits_in_use (s_jobs s) < concurrency)) as [Hlt|Hge].
    + destruct s as [c jobs d m x]. by eapply Hno, step_permit.
    + destruct (permit_holder (s_jobs s)) as (k & jk & Hjk & Hh); [lia|].
      unfold holds_permit in Hh. apply andb_true_iff in Hh as [_ Hh].
      destruct (job_can_step s k jk) as [s' Hs']; [done|by destruct (j_phase jk)..|].
      by eapply Hno.
  - destruct (job_can_step s i j) as [s' Hs']; [done..|]. by eapply Hno.
Qed.

(** If also the dispatcher cannot go on, it has returned. *)
Lemma dispatcher_stuck_returned s :
  dag_wf (ag_graph g) → all_inv g concurrency s →
  (∀ i j, s_jobs s !! i = Some j → is_done (j_phase j) = true) →
  (∀ s', ¬ dispatch_step g s s') → d_control (s_dispatch s) = DReturned.
Proof.
  intros Hwf [Hinv Hlive _] Hdone Hno. destruct s as [c jobs d m x]. cbn in *.
  assert (∀ i, i ∈ d_handles d → ∃ j, jobs !! i = Some j ∧ is_done (j_phase j) = true) as Hh.
  { intros i [j Hj]%(live_handles _ _ Hlive). eauto. }
  destruct (d_control d) as [|completed| |after| |] eqn:Hk; [..|done]; exfalso.
  - destruct (has_queued_jobs g (d_dispatcher d)) eqn:Hq; [|by eapply Hno, step_finish_loop].
    destruct (is_aborted_or_cancelled c) eqn:Hc; [by eapply Hno, step_stop|by eapply Hno, step_read].
  - pose proof (inv_dispatcher _ _ _ Hinv) as Hok. cbn in Hok. rewrite Hk in Hok. cbn in Hok.
    destruct (next_spec g completed _ (c_running c) Hwf Hok) as ([i|] & d2 & r2 & Heq & _ & _).
    + destruct (dispatch_index g i (set_running c r2) jobs d2 (d_persistent d) (d_handles d))
        as [[c' jobs'] d'] eqn:Hd. by eapply Hno, step_next_some.
    + by eapply Hno, step_next_none.
  - pose proof (live_join _ _ Hlive Hk) as Hne. apply set_choose_L in Hne as [i Hi].
    destruct (Hh i Hi) as (j & Hj & Hd). by eapply Hno, step_join.
  - destruct (set_choose_or_empty (d_handles d)) as [[i Hi]|Hemp%leibniz_equiv].
    + destruct (Hh i Hi) as (j & Hj & Hd). by eapply Hno, step_exhaust.
    + by eapply Hno, step_exhausted.
  - destruct (spawn_persistent g jobs (d_handles d) x (d_persistent d)) as [[jobs' h'] x'] eqn:Hs.
    by eapply Hno, step_persistent.
Qed.

(** All jobs have ended and all of the graph was dispatched: all results have
    been sent. *)
Lemma all_results_received s :
  nodes_ok g → all_inv g concurrency s → m_open (s_receive s) = true →
  m_channel (s_receive s) = [] →
  (∀ i j, s_jobs s !! i = Some j → is_done (j_phase j) = true) →
  has_queued_jobs g (d_dispatcher (s_dispatch s)) = false →
  (∀ i, i ∈ jd_visited (d_dispatcher (s_dispatch s)) → is_Some (s_jobs s !! i)) →
  total_actions g ≤ length (m_actions (s_receive s)).
Proof.
  intros Hn [Hinv Hlive _] Ho Hch Hdone Hq Hall. rewrite total_actions_count by done.
  unfold has_queued_jobs in Hq. apply Nat.ltb_ge in Hq. etrans; [exact Hq|].
  rewrite <- (length_fmap a_node_index).
  transitivity (size (list_to_set (a_node_index <$> m_actions (s_receive s)) : gset nat)).
  - apply subseteq_size. intros i Hi. apply elem_of_list_to_set.
    destruct (Hall i Hi) as [j Hj]. specialize (Hdone i j Hj).
    destruct (j_phase j) as [| | | | | | | |a] eqn:Hp; try done.
    pose proof (live_sent _ _ Hlive Ho i j a Hj Hp) as Hres. unfold results in Hres.
    by rewrite Hch, app_nil_r in Hres.
  - pose proof (inv_results_once _ _ _ Hinv) as Hnd. unfold results in Hnd.
    rewrite Hch, app_nil_r in Hnd. by rewrite size_list_to_set.
Qed.
(** Without a signal, a pipeline that cannot go on has finished. *)
Lemma stuck_finished s :
  dag_wf (ag_graph g) → nodes_ok g → 0 < concurrency → all_inv g concurrency s →
  c_cancel (s_context s) = false → (∀ s', ¬ run_step g concurrency s s') →
  m_finished (s_receive s) = true.
Proof.
  intros Hwf Hn Hpos Hall Hcan Hno. destruct (m_finished (s_receive s)) eqn:Hf; [done|]. exfalso.
  assert (∀ i j, s_jobs s !! i = Some j → is_done (j_phase j) = true) as Hdone.
  { intros i j. apply jobs_stuck_done; [done|]. intros k s' Hs. eapply Hno. left. eauto. }
  assert (d_control (s_dispatch s) = DReturned) as Hret.
  { apply dispatcher_stuck_returned; [done..|]. intros s' Hs. eapply Hno. right. by left. }
  assert (m_channel (s_receive s) = []) as Hch.
  { destruct (m_channel (s_receive s)) as [|a channel] eqn:Hch; [done|]. exfalso.
    destruct s as [c jobs d m x]. cbn in *.
    destruct (receive (total_actions g) c m a channel) as [c' m'] eqn:Hr.
    eapply Hno. right. right. by eapply step_receive. }
  assert (m_open (s_receive s) = true) as Ho.
  { destruct (m_open (s_receive s)) eqn:Ho; [done|]. exfalso.
    destruct s as [c jobs d m x]. eapply Hno. right. right. by eapply step_closed. }
  pose proof (live_returned _ _ (all_live _ _ _ Hall) Hret) as [Hc|[Hq Hvis]].
  - unfold is_aborted_or_cancelled in Hc. rewrite Hcan, orb_false_r in Hc.
    destruct (live_abort _ _ (all_live _ _ _ Hall) Ho Hc) as (i & j & a & Hj & Hd & _ & Hi).
    specialize (Hdone i j Hj). destruct (j_phase j) as [| | | | | | | |b] eqn:Hp; try done.
    pose proof (live_sent _ _ (all_live _ _ _ Hall) Ho i j b Hj Hp) as Hres.
    unfold results in Hres. by rewrite Hch, app_nil_r in Hres.
  - pose proof (all_results_received s Hn Hall Ho Hch Hdone Hq Hvis).
    destruct (recv_open _ _ (all_receive _ _ _ Hall) Ho) as (_ & _ & ?). lia.
Qed.

(** Without a signal nothing is cancelled. *)
Lemma run_step_cancel s s' :
  run_step g concurrency s s' → c_cancel (s_context s') = c_cancel (s_context s).
Proof.
  intros [[i Hs]|[Hs|Hs]].
  - apply job_step_shape in Hs. naive_solver.
  - destruct Hs as [| | |c jobs d m x completed dispatcher running i c' jobs' d' Hk Hn Hd
      | | | | | |]; try done.
    unfold dispatch_index in Hd. by repeat case_match; simplify_eq.
  - destruct Hs as [c jobs d m x a channel c' m' Hf Hch Hr|]; [|done].
    apply receive_results in Hr as (_ & -> & _); done.
Qed.

Lemma run_steps_rank k s s' l :
  dag_wf (ag_graph g) → nodes_ok g → deps_first g l → all_inv g concurrency s →
  nsteps (run_step g concurrency) k s s' → k + rank g s' ≤ rank g s.
Proof.
  intros Hwf Hn Hl. intros Hall Hs. induction Hs as [s|k s s1 s' Hs _ IH]; [done|].
  pose proof (rank_run_step g concurrency s s1 Hwf Hn Hs Hall).
  specialize (IH (all_inv_run_step _ _ _ _ _ Hwf Hn Hl Hs Hall)). lia.
Qed.
Lemma steps_rank s s' l :
  dag_wf (ag_graph g) → nodes_ok g → deps_first g l → all_inv g concurrency s →
  rtc (step g concurrency) s s' → rank g s' ≤ rank g s.
Proof.
  intros Hwf Hn Hl Hall Hs. induction Hs as [s|s s1 s' [Hs|Hs] _ IH]; [done|..].
  - pose proof (rank_run_step g concurrency s s1 Hwf Hn Hs Hall).
    specialize (IH (all_inv_run_step _ _ _ _ _ Hwf Hn Hl Hs Hall)). lia.
  - etrans; [by apply IH; eapply all_inv_signal_step|]. by destruct Hs.
Qed.
End Stuck.

(** ** Runs by hand *)

(** One step of a run: job [i] goes on, its body doing [effect] and returning
    [r]; the dispatcher goes on, joining job [i] if it joins one; the receiver
    goes on; a signal comes. *)
Inductive move : Type :=
| MJob (i : nat) (effect : body_effect) (r : body_result)
| MDispatch (i : nat)
| MReceive
| MSignal.

Section Exec.
Context `{D : DagOps nat TaskDependencyType}.
Variables (g : ActionGraph) (concurrency : nat).

Definition exec_job (i : nat) (effect : body_effect) (r : body_result) (s : pipeline) :
  option pipeline :=
  let '(mkPipeline c jobs d m x) := s in
  j ← jobs !! i;
  let to p := <[i := set_phase j p]> jobs in
  match j_phase j with
  | JWaiting =>
      if decide (permits_in_use jobs < concurrency) then Some (mkPipeline c (to JReady) d m x) else None
  | JReady => Some (mkPipeline c (to (job_start c i (j_node j))) d m x)
  | JRunning =>
      Some (mkPipeline c (to (JRan
        (let '(a, ok) := run_action (λ _, true) effect r (job_action i (j_node j)) in
         if ok then a else Action_finish a Failed))) d m x)
  | JRan a => Some (mkPipeline c (to (job_recheck c a)) d m x)
  | JDeciding a =>
      Some (mkPipeline (abort_if c (should_abort (c_bail c) a)) (to (JUnlocking a)) d m x)
  | JUnlocking a => Some (mkPipeline (remove_running c i) (to (JCompleting a)) d m x)
  | JCompleting a => Some (mkPipeline (insert_completed c i) (to (JSending a)) d m x)
  | JSending a => Some (mkPipeline c (to (JDone a)) d (send m a) x)
  | JDone _ => None
  end.

(** Whether handle [i] can be joined. *)
Definition joinable (i : nat) (jobs : gmap nat job) (d : dispatching) : bool :=
  bool_decide (i ∈ d_handles d) && from_option (λ j, is_done (j_phase j)) false (jobs !! i).

Definition exec_dispatch (i : nat) (s : pipeline) : option pipeline :=
  let '(mkPipeline c jobs d m x) := s in
  let joined k := mkPipeline c jobs
    (mkDispatching (d_dispatcher d) k (d_persistent d) (d_handles d ∖ {[i]})) m x in
  let goto k := mkPipeline c jobs (set_control d k) m x in
  match d_control d with
  | DLoop =>
      Some (goto (if has_queued_jobs g (d_dispatcher d)
                  then if is_aborted_or_cancelled c then DReturned else DSearch (c_completed c)
                  else DExhaust true))
  | DSearch completed =>
      match JobDispatcher_next g (d_dispatcher d) completed (c_running c) with
      | Ok (None, dispatcher, running) =>
          Some (mkPipeline (set_running c running) jobs
                  (mkDispatching dispatcher DJoin (d_persistent d) (d_handles d)) m x)
      | Ok (Some k, dispatcher, running) =>
          let '(c', jobs', d') :=
            dispatch_index g k (set_running c running) jobs dispatcher (d_persistent d) (d_handles d) in
          Some (mkPipeline c' jobs' d' m x)
      | _ => None
      end
  | DJoin => if joinable i jobs d then Some (joined DLoop) else None
  | DExhaust after_loop =>
      if joinable i jobs d then Some (joined (DExhaust after_loop))
      else if bool_decide (d_handles d = ∅)
      then Some (goto (if is_aborted_or_cancelled c then DReturned
                       else if after_loop
                       then match d_persistent d with [] => DReturned | _ => DPersistent end
                       else DLoop))
      else None
  | DPersistent =>
      let '(jobs', handles', x') := spawn_persistent g jobs (d_handles d) x (d_persistent d) in
      Some (mkPipeline c jobs'
              (mkDispatching (d_dispatcher d) DReturned (d_persistent d) handles') m x')
  | DReturned => None
  end.

Definition exec_receive (s : pipeline) : option pipeline :=
  let '(mkPipeline c jobs d m x) := s in
  if m_finished m then None else
  match m_channel m with
  | a :: channel =>
      let '(c', m') := receive (total_actions g) c m a channel in
      Some (mkPipeline c' jobs d m' x)
  | [] => if m_open m then None else Some (mkPipeline c jobs d (stop_receiving m) x)
  end.

Definition exec (v : move) (s : pipeline) : option pipeline :=
  match v with
  | MJob i effect r => exec_job i effect r s
  | MDispatch i => exec_dispatch i s
  | MReceive => exec_receive s
  | MSignal => let '(mkPipeline c jobs d m x) := s in Some (mkPipeline (cancel c) jobs d m x)
  end.

Fixpoint exec_all (l : list move) (s : pipeline) : option pipeline :=
  match l with
  | [] => Some s
  | v :: l' => s ← exec v s; exec_all l' s
  end.

Definition is_signal (v : move) : bool := match v with MSignal => true | _ => false end.

Lemma exec_job_sound i effect r s s' :
  exec_job i effect r s = Some s' → job_step concurrency i s s'.
Proof.
  destruct s as [c jobs d m x]. unfold exec_job. destruct (jobs !! i) as [j|] eqn:Hj; [|done].
  cbn [mbind option_bind]. destruct (j_phase j) eqn:Hp; [case_decide; [|done]|..|done];
    intros [= <-].
  - by apply step_permit.
  - by apply step_start.
  - by apply step_run.
  - by apply step_recheck.
  - by apply step_decide.
  - by apply step_unlock.
  - by apply step_complete.
  - by apply step_send.
Qed.

Lemma joinable_true i jobs d :
  joinable i jobs d = true → i ∈ d_handles d ∧ ∃ j, jobs !! i = Some j ∧ is_done (j_phase j) = true.
Proof.
  unfold joinable. intros [Hi%bool_decide_eq_true Hj]%andb_true_iff. split; [done|].
  destruct (jobs !! i) as [j|]; [by exists j|done].
Qed.

Lemma exec_dispatch_sound i s s' : exec_dispatch i s = Some s' → dispatch_step g s s'.
Proof.
  destruct s as [c jobs d m x]. unfold exec_dispatch. destruct (d_control d) as [|completed| |after| |] eqn:Hk.
  - destruct (has_queued_jobs g _) eqn:Hq; [destruct (is_aborted_or_cancelled c) eqn:Hc|];
      intros [= <-]; [by apply step_stop|by apply step_read|by apply step_finish_loop].
  - destruct (JobDispatcher_next _ _ _ _) as [[[[k|] d2] r2]|e|] eqn:Hn; try done.
    + destruct (dispatch_index _ _ _ _ _ _ _) as [[c' jobs'] d'] eqn:Hd. intros [= <-].
      by eapply step_next_some.
    + intros [= <-]. by eapply step_next_none.
  - destruct (joinable i jobs d) eqn:Hj; [|done]. intros [= <-].
    apply joinable_true in Hj as (Hi & j & Hj & Hd). by eapply step_join.
  - destruct (joinable i jobs d) eqn:Hj.
    + intros [= <-]. apply joinable_true in Hj as (Hi & j & Hj & Hd). rewrite <- Hk.
      by eapply step_exhaust.
    + case_bool_decide as Hh; [|done]. intros [= <-]. by eapply step_exhausted.
  - destruct (spawn_persistent _ _ _ _ _) as [[jobs' h'] x'] eqn:Hs. intros [= <-].
    by eapply step_persistent.
  - done.
Qed.

Lemma exec_receive_sound s s' : exec_receive s = Some s' → receive_step g s s'.
Proof.
  destruct s as [c jobs d m x]. unfold exec_receive. destruct (m_finished m) eqn:Hf; [done|].
  destruct (m_channel m) as [|a channel] eqn:Hch.
  - destruct (m_open m) eqn:Ho; [done|]. intros [= <-]. by apply step_closed.
  - destruct (receive _ _ _ _ _) as [c' m'] eqn:Hr. intros [= <-]. by eapply step_receive.
Qed.

Lemma exec_run v s s' :
  is_signal v = false → exec v s = Some s' → run_step g concurrency s s'.
Proof.
  destruct v as [i effect r|i| |]; intros Hv Hs; [left|right; left|right; right|done].
  - exists i. by eapply exec_job_sound.
  - by eapply exec_dispatch_sound.
  - by apply exec_receive_sound.
Qed.

Lemma exec_all_run l s s' :
  forallb (λ v, negb (is_signal v)) l = true → exec_all l s = Some s' →
  rtc (run_step g concurrency) s s'.
Proof.
  revert s. induction l as [|v l IH]; intros s; cbn; [by intros _ [= ->]|].
  intros [Hv%negb_true_iff Hl]%andb_true_iff.
  destruct (exec v s) as [s1|] eqn:Hs1; [|done]. cbn. intros Hs.
  eapply rtc_l; [by eapply exec_run|by apply IH].
Qed.

Lemma exec_all_step l s s' : exec_all l s = Some s' → rtc (step g concurrency) s s'.
Proof.
  revert s. induction l as [|v l IH]; intros s; cbn; [by intros [= ->]|].
  destruct (exec v s) as [s1|] eqn:Hs1; [|done]. cbn. intros Hs.
  eapply rtc_l; [|by apply IH]. destruct (is_signal v) eqn:Hv; [right|left; by eapply exec_run].
  destruct v; try done. destruct s as [c jobs d m x]. simplify_eq/=. constructor.
Qed.
End Exec.

(** ** Runs in general *)

Section Runs.
Context `{D : DagOps nat TaskDependencyType, L : !DagLaws D}.

(** C1: an action only runs after everything it requires has completed without
    a reason to abort (a persistent action counts as completed when it is
    reached), whatever the interleaving, and whenever signals come. *)
Theorem pipeline_start_safe (g : ActionGraph) concurrency bail x s0 s i j k :
  dag_wf (ag_graph g) → nodes_ok g → starts g bail x s0 → rtc (step g concurrency) s0 s →
  s_jobs s !! i = Some j → j_phase j = JReady → job_start (s_context s) i (j_node j) = JRunning →
  edge_of (dag_edges (ag_graph g)) i k →
  k ∈ d_persistent (s_dispatch s) ∨
  ∃ jk a, s_jobs s !! k = Some jk ∧ completed_action (j_phase jk) = Some a ∧
    should_abort (c_bail (s_context s)) a = false.
Proof.
  intros Hwf Hn Hst Hs Hj Hp Hrun Hik%requirements_edge; [|done].
  pose proof (pipe_inv_reachable _ _ _ _ _ _ Hwf Hn Hst Hs) as Hinv.
  destruct (inv_jobs _ _ _ Hinv i j Hj) as (Hv & _).
  pose proof (inv_requirements _ _ _ Hinv i k Hv Hik) as Hk.
  destruct (inv_completed _ _ _ Hinv k Hk) as [?|(jk & a & Hjk & Ha)]; [by left|right].
  exists jk, a. split_and!; [done..|]. destruct (should_abort _ a) eqn:Hsa; [|done].
  apply (inv_decided _ _ _ Hinv k jk a Hjk) in Hsa; [|by apply completed_decided].
  unfold job_start in Hrun. by rewrite Hsa in Hrun.
Qed.

(** C17: at most as many jobs that were not put off as persistent run at once as
    the pipeline has permits. *)
Theorem pipeline_concurrency (g : ActionGraph) concurrency bail x s0 s :
  dag_wf (ag_graph g) → nodes_ok g → starts g bail x s0 → rtc (step g concurrency) s0 s →
  size (filter (λ p : nat * job, is_running (j_phase p.2) = true ∧ p.1 ∉ d_persistent (s_dispatch s))
          (s_jobs s)) ≤ concurrency.
Proof.
  intros Hwf Hn Hst Hs. pose proof (pipe_inv_reachable _ _ _ _ _ _ Hwf Hn Hst Hs) as Hinv.
  etrans; [|exact (inv_permits _ _ _ Hinv)]. apply map_subseteq_size, map_subseteq_spec.
  intros i j. rewrite !map_lookup_filter_Some. intros (Hj & Hp & Hi). split; [done|]. cbn in *.
  destruct (inv_jobs _ _ _ Hinv i j Hj) as (_ & _ & Hpi). unfold holds_permit.
  destruct (j_permit j); [by destruct (j_phase j)|]. tauto.
Qed.

(** C4: when the pipeline ends as completed, it has received exactly one result
    of every action of the graph, and none of them asked for an abort. *)
Theorem pipeline_completed (g : ActionGraph) concurrency bail x s0 s :
  dag_wf (ag_graph g) → nodes_ok g → 0 < dag_node_count (ag_graph g) → starts g bail x s0 →
  rtc (step g concurrency) s0 s → m_status (s_receive s) = PipelineCompleted →
  a_node_index <$> m_actions (s_receive s) ≡ₚ seq 0 (dag_node_count (ag_graph g)) ∧
  Forall (λ a, should_abort (c_bail (s_context s)) a = false) (m_actions (s_receive s)).
Proof.
  intros Hwf Hn Hpos Hst Hs Hcm.
  destruct (all_inv_reachable _ _ _ _ _ _ Hwf Hn Hpos Hst Hs) as [Hinv _ Hr].
  split; [|apply (recv_clean _ _ Hr); by right].
  pose proof (inv_results_once _ _ _ Hinv) as Hnd. unfold results in Hnd.
  rewrite fmap_app in Hnd. apply NoDup_app in Hnd as (Hnd & _).
  apply submseteq_length_Permutation.
  - apply NoDup_submseteq; [done|]. intros i (a & -> & Ha)%list_elem_of_fmap. apply indices_elem.
    destruct (inv_results _ _ _ Hinv a) as (j & Hj & _); [unfold results; set_solver|].
    by eapply (inv_range _ _ _ Hinv), (inv_jobs _ _ _ Hinv).
  - rewrite length_seq, length_fmap, (recv_completed _ _ Hr Hcm).
    by rewrite total_actions_count.
Qed.

(** C3: from any state a pipeline gets to, it makes at most [17n + 4] more steps
    of its own, where [n] is the number of actions: the dispatcher never polls
    without waiting for a job. *)
Theorem pipeline_terminates (g : ActionGraph) concurrency bail x s0 s s' k :
  dag_wf (ag_graph g) → nodes_ok g → 0 < dag_node_count (ag_graph g) → starts g bail x s0 →
  rtc (step g concurrency) s0 s → nsteps (run_step g concurrency) k s s' →
  k ≤ 17 * dag_node_count (ag_graph g) + 4.
Proof.
  intros Hwf Hn Hpos Hst Hs Hk.
  pose proof (all_inv_reachable _ _ _ _ _ _ Hwf Hn Hpos Hst Hs) as Hall.
  pose proof (all_inv_start g concurrency _ _ _ Hn Hpos Hst) as Hall0.
  rewrite <- (rank_start g _ _ _ Hst). destruct Hst as (l & groups & Hl & _).
  etrans; [|exact (steps_rank g concurrency s0 s l Hwf Hn Hl Hall0 Hs)].
  pose proof (run_steps_rank g concurrency k s s' l Hwf Hn Hl Hall Hk). lia.
Qed.

(** C2: without a signal, a pipeline that cannot go on has finished: it has
    completed, or it was aborted, because of an action that asks for it. *)
Theorem pipeline_finishes (g : ActionGraph) concurrency bail x s0 s :
  dag_wf (ag_graph g) → nodes_ok g → 0 < dag_node_count (ag_graph g) → 0 < concurrency →
  starts g bail x s0 → rtc (run_step g concurrency) s0 s → (∀ s', ¬ run_step g concurrency s s') →
  m_finished (s_receive s) = true ∧
  (m_status (s_receive s) = PipelineCompleted ∨
   m_status (s_receive s) = PipelineAborted ∧
   ∃ i j a, s_jobs s !! i = Some j ∧ decided (j_phase j) = Some a ∧
     should_abort (c_bail (s_context s)) a = true).
Proof.
  intros Hwf Hn Hpos Hconc Hst Hs Hno.
  assert (all_inv g concurrency s) as Hall.
  { eapply all_inv_reachable; [done..|]. eapply rtc_subrel, Hs. intros ???. by left. }
  assert (c_cancel (s_context s) = false) as Hc.
  { destruct Hst as (l & groups & _ & _ & ->). clear -Hs.
    remember (pipeline_init bail groups x) as s0 eqn:E.
    assert (c_cancel (s_context s0) = false) as H0 by by subst. clear E. revert H0.
    induction Hs as [|s1 s2 s3 H12 _ IH]; [done|]. intros H1. apply IH.
    by rewrite (run_step_cancel _ _ _ _ H12). }
  pose proof (stuck_finished g concurrency s Hwf Hn Hconc Hall Hc Hno) as Hf. split; [done|].
  assert (m_open (s_receive s) = false) as Ho.
  { destruct (m_open (s_receive s)) eqn:Ho; [|done].
    destruct (recv_open _ _ (all_receive _ _ _ Hall) Ho) as (_ & ? & _). congruence. }
  destruct (recv_closed _ _ (all_receive _ _ _ Hall) Ho) as [[? Ha]|[[_ ?]|[? _]]];
    [right|congruence|by left].
  split; [done|]. by apply (recv_cause _ _ (all_receive _ _ _ Hall)).
Qed.
End Runs.

(** ** A signal while no job is outstanding *)

(** Every result so far has been received, and more is queued. *)
Definition between_jobs `{D : DagOps nat TaskDependencyType} (g : ActionGraph) (s : pipeline) :
  Prop :=
  (∀ i j, s_jobs s !! i = Some j → is_done (j_phase j) = true) ∧
  m_channel (s_receive s) = [] ∧ m_open (s_receive s) = true ∧ m_finished (s_receive s) = false ∧
  (d_control (s_dispatch s) = DLoop ∨ d_control (s_dispatch s) = DJoin) ∧
  has_queued_jobs g (d_dispatcher (s_dispatch s)) = true.

Section Hang.
Context `{D : DagOps nat TaskDependencyType}.
Variables (g : ActionGraph) (concurrency : nat).

(** Where the pipeline then stays. *)
Definition hung (s : pipeline) : Prop :=
  c_cancel (s_context s) = true ∧
  (∀ i j, s_jobs s !! i = Some j → is_done (j_phase j) = true) ∧
  m_channel (s_receive s) = [] ∧ m_open (s_receive s) = true ∧ m_finished (s_receive s) = false ∧
  (d_control (s_dispatch s) = DReturned ∨
   (d_control (s_dispatch s) = DLoop ∨ d_control (s_dispatch s) = DJoin) ∧
   has_queued_jobs g (d_dispatcher (s_dispatch s)) = true).

Lemma hung_step s s' : step g concurrency s s' → hung s → hung s'.
Proof.
  intros Hs (Hc & Hd & Hch & Ho & Hf & Hk). destruct Hs as [[[i Hs]|[Hs|Hs]]|Hs].
  - exfalso. apply job_step_shape in Hs as (j & p & Hj & _ & _ & Hnd & _).
    specialize (Hd i j Hj). congruence.
  - destruct Hs as [| | | | | | | | |]; cbn in *;
      try (exfalso; destruct Hk as [?|[[?|?] ?]]; congruence).
    + split_and!; auto.
    + unfold is_aborted_or_cancelled in *. rewrite Hc, orb_true_r in *. done.
    + destruct Hk as [?|[_ ?]]; [congruence|]. split_and!; auto.
    + destruct Hk as [?|[_ ?]]; [congruence|]. split_and!; auto.
  - exfalso. destruct Hs; cbn in *; congruence.
  - destruct Hs. cbn in *. split_and!; auto.
Qed.
End Hang.


(** ** Concrete runs *)

Lemma sample_nodes_ok : nodes_ok sample_action_graph.
Proof.
  intros i. destruct i as [|[|i]];
    [split; [intros _; apply (bool_decide_unpack _); by vm_compute|cbn; lia]..|].
  split; [cbn; lia|]. intros [node Hn]. cbn in Hn.
  by rewrite lookup_insert_ne, lookup_singleton_ne in Hn by lia.
Qed.

Definition sample_start : pipeline :=
  pipeline_init false [(0, [0]); (2, [1])] ActionContext_default.

Lemma sample_starts : starts sample_action_graph false ActionContext_default sample_start.
Proof. exists [0; 1], [(0, [0]); (2, [1])]. split; [apply sample_deps_first|done]. Qed.

(** A job that passes, goes on. *)
Definition go (i : nat) : move := MJob i (mkBodyEffect false false [] Running) (inl Passed).

(** [SyncWorkspace] has run and [RunTask] is about to. *)
Definition moves_ready : list move :=
  [MDispatch 0; MDispatch 0; MDispatch 0; MDispatch 0] ++ replicate 8 (go 0) ++
  [MReceive; MDispatch 0; MDispatch 0; MDispatch 0; go 1].

(** The rest of the run. *)
Definition moves_rest : list move :=
  replicate 7 (go 1) ++ [MDispatch 0; MDispatch 1; MDispatch 0; MReceive].

Definition sample_run (l : list move) : option pipeline :=
  exec_all sample_action_graph 4 l sample_start.

(** A job that is about to run. *)
Definition about_to_run (i : nat) (s : pipeline) : option job :=
  j ← s_jobs s !! i;
  match j_phase j, job_start (s_context s) i (j_node j) with
  | JReady, JRunning => Some j
  | _, _ => None
  end.

Lemma about_to_run_spec i s j :
  about_to_run i s = Some j →
  s_jobs s !! i = Some j ∧ j_phase j = JReady ∧ job_start (s_context s) i (j_node j) = JRunning.
Proof.
  unfold about_to_run. destruct (s_jobs s !! i) as [j'|]; [|done]. cbn [mbind option_bind].
  destruct (j_phase j') eqn:Hp, (job_start _ _ _) eqn:Hst; try done. by intros [= ->].
Qed.

Lemma sample_ready :
  ∃ s j, sample_run moves_ready = Some s ∧ about_to_run 1 s = Some j ∧
    d_persistent (s_dispatch s) = [].
Proof.
  destruct (sample_run moves_ready) as [s|] eqn:Hs.
  - assert ((d_persistent ∘ s_dispatch <$> sample_run moves_ready) = Some []) as Hp
      by (vm_compute; reflexivity).
    assert (is_Some (sample_run moves_ready ≫= about_to_run 1)) as [j Hj]
      by (vm_compute; eexists; reflexivity).
    rewrite Hs in Hp, Hj. cbn in Hp, Hj. exists s, j. split_and!; [done..|congruence].
  - exfalso. assert (is_Some (sample_run moves_ready)) as [? H] by (vm_compute; by eexists).
    congruence.
Qed.

Lemma pipeline_start_safe_witness :
  ∃ s jk a, rtc (step sample_action_graph 4) sample_start s ∧ s_jobs s !! 0 = Some jk ∧
    completed_action (j_phase jk) = Some a ∧ should_abort (c_bail (s_context s)) a = false.
Proof.
  destruct sample_ready as (s & j & Hs & (Hj & Hp & Hst)%about_to_run_spec & Hper).
  apply exec_all_step in Hs.
  destruct (pipeline_start_safe sample_action_graph 4 false ActionContext_default sample_start s
    1 j 0 sample_action_graph_wf sample_nodes_ok sample_starts Hs Hj Hp Hst) as [Hk|(jk & a & Hk)].
  - exists Required. apply list_elem_of_singleton. done.
  - rewrite Hper in Hk. by apply not_elem_of_nil in Hk.
  - exists s, jk, a. split; [exact Hs|exact Hk].
Defined.

Lemma pipeline_concurrency_witness :
  ∃ s, rtc (step sample_action_graph 4) sample_start s ∧
    size (filter (λ p : nat * job, is_running (j_phase p.2) = true ∧
      p.1 ∉ d_persistent (s_dispatch s)) (s_jobs s)) ≤ 4.
Proof.
  destruct sample_ready as (s & _ & Hs & _). exists s. apply exec_all_step in Hs.
  split; [exact Hs|].
  exact (pipeline_concurrency sample_action_graph 4 false ActionContext_default sample_start s
    sample_action_graph_wf sample_nodes_ok sample_starts Hs).
Defined.

(** The whole run, to its end. *)
Lemma sample_finished :
  ∃ s, sample_run (moves_ready ++ moves_rest) = Some s ∧
    m_status (s_receive s) = PipelineCompleted ∧
    d_control (s_dispatch s) = DReturned ∧ m_finished (s_receive s) = true ∧
    forallb (λ p : nat * job, is_done (j_phase p.2)) (map_to_list (s_jobs s)) = true.
Proof.
  assert (((λ s, (m_status (s_receive s), m_finished (s_receive s),
      match d_control (s_dispatch s) with DReturned => true | _ => false end,
      forallb (λ p : nat * job, is_done (j_phase p.2)) (map_to_list (s_jobs s))))
    <$> sample_run (moves_ready ++ moves_rest)) = Some (PipelineCompleted, true, true, true)) as H
    by (vm_compute; reflexivity).
  destruct (sample_run (moves_ready ++ moves_rest)) as [s|]; [|done].
  exists s. cbn in H. injection H as H1 H2 H3 H4. split_and!; [done..| |done|done].
  by destruct (d_control (s_dispatch s)).
Qed.

Lemma pipeline_completed_witness :
  ∃ s, rtc (step sample_action_graph 4) sample_start s ∧
    a_node_index <$> m_actions (s_receive s) ≡ₚ [0; 1].
Proof.
  destruct sample_finished as (s & Hs & Hst & _). apply exec_all_step in Hs.
  exists s. split; [exact Hs|].
  destruct (pipeline_completed sample_action_graph 4 false ActionContext_default sample_start s
    sample_action_graph_wf sample_nodes_ok) as [Hp _].
  - cbn. lia.
  - exact sample_starts.
  - exact Hs.
  - exact Hst.
  - exact Hp.
Defined.

Lemma pipeline_terminates_witness :
  ∃ k s, nsteps (run_step sample_action_graph 4) k sample_start s ∧
    m_finished (s_receive s) = true ∧ k ≤ 38.
Proof.
  destruct sample_finished as (s & Hs & _ & _ & Hf & _).
  apply exec_all_run in Hs; [|done]. apply rtc_nsteps in Hs as [k Hk].
  exists k, s. split; [exact Hk|]. split; [exact Hf|].
  apply (pipeline_terminates sample_action_graph 4 false ActionContext_default sample_start
    sample_start s k sample_action_graph_wf sample_nodes_ok).
  - cbn. lia.
  - exact sample_starts.
  - apply rtc_refl.
  - exact Hk.
Defined.

(** A finished pipeline with a dispatcher that returned cannot go on. *)
Lemma finished_stuck `{D : DagOps nat TaskDependencyType} (g : ActionGraph) concurrency s s' :
  d_control (s_dispatch s) = DReturned → m_finished (s_receive s) = true →
  forallb (λ p : nat * job, is_done (j_phase p.2)) (map_to_list (s_jobs s)) = true →
  ¬ run_step g concurrency s s'.
Proof.
  intros Hk Hf Hd [[i Hs]|[Hs|Hs]].
  - apply job_step_shape in Hs as (j & p & Hj & _ & _ & Hnd & _).
    rewrite forallb_forall in Hd. specialize (Hd (i, j)). cbn in Hd. rewrite Hd in Hnd; [done|].
    by apply list_elem_of_In, elem_of_map_to_list.
  - destruct Hs; cbn in *; congruence.
  - destruct Hs; cbn in *; congruence.
Qed.

Lemma pipeline_finishes_witness :
  ∃ s, rtc (run_step sample_action_graph 4) sample_start s ∧
    (m_status (s_receive s) = PipelineCompleted ∨ m_status (s_receive s) = PipelineAborted).
Proof.
  destruct sample_finished as (s & Hs & _ & Hk & Hf & Hd).
  apply exec_all_run in Hs; [|done]. exists s. split; [exact Hs|].
  destruct (pipeline_finishes sample_action_graph 4 false ActionContext_default sample_start s
    sample_action_graph_wf sample_nodes_ok) as (_ & [H|[H _]]).
  - cbn. lia.
  - lia.
  - exact sample_starts.
  - exact Hs.
  - intros s'. by apply finished_stuck.
  - left. exact H.
  - right. exact H.
Defined.


(** *** A lost failure *)

(** [SetupProto] and [SyncWorkspace], independent of each other. *)
Definition two_actions : ActionGraph (D := list_dag_ops) :=
  mkActionGraph list_dag_ops (mkListDag [0; 1] []) {[0 := SyncWorkspace; 1 := SetupProto "0.1.0"]}.

Lemma two_actions_deps_first : deps_first two_actions [0; 1].
Proof.
  split; [apply sample_deps_first|]. intros i a b _ Hb. cbn in Hb. by apply not_elem_of_nil in Hb.
Qed.

Definition two_actions_start : pipeline :=
  pipeline_init false [(0, [0; 1])] ActionContext_default.

Lemma two_actions_starts : starts two_actions false ActionContext_default two_actions_start.
Proof. exists [0; 1], [(0, [0; 1])]. split; [apply two_actions_deps_first|done]. Qed.

(** A job that fails, goes on. *)
Definition go_fail (i : nat) : move :=
  MJob i (mkBodyEffect false false [] Running) (inr ("boom", Foreign "boom")).

(** [SyncWorkspace] passes; [SetupProto] fails and takes the abort decision; then
    the first result is sent and received, which closes the channel; then the
    second result is sent. *)
Definition moves_lost : list move :=
  [MDispatch 0; MDispatch 0; MDispatch 0; MDispatch 0] ++ replicate 7 (go 0) ++
  replicate 5 (go_fail 1) ++ [go 0; MReceive] ++ replicate 3 (go_fail 1) ++
  [MReceive; MDispatch 0; MDispatch 0; MDispatch 1; MDispatch 0].

(** C39: a failure that aborts the pipeline can get lost: the abort token is set
    before the result of the failed action is sent, and the result of another
    action that is received in between closes the channel.  The pipeline then
    ends without an error, and none of the actions it returns has failed. *)
Theorem pipeline_lost_failure :
  ∃ s0 s, starts two_actions false ActionContext_default s0 ∧
    rtc (run_step two_actions 2) s0 s ∧
    m_finished (s_receive s) = true ∧ m_status (s_receive s) = PipelineAborted ∧
    m_error (s_receive s) = None ∧
    forallb (λ a, negb (Action_has_failed a) && negb (Action_should_abort a))
      (m_actions (s_receive s)) = true ∧
    ∃ j a, s_jobs s !! 1 = Some j ∧ j_phase j = JDone a ∧
      Action_should_abort a = true ∧ Action_has_error a = true.
Proof.
  destruct (exec_all two_actions 2 moves_lost two_actions_start) as [s|] eqn:Hs.
  2: { by vm_compute in Hs. }
  exists two_actions_start, s. split; [apply two_actions_starts|].
  split; [by apply exec_all_run in Hs|].
  vm_compute in Hs. injection Hs as <-.
  do 4 (split; [vm_compute; reflexivity|]).
  eexists _, _. split; [vm_compute; reflexivity|]. by vm_compute.
Qed.

(** *** An interactive action next to another one *)

Definition interactive_node : ActionNode :=
  RunTask (mkRunTask [] [] true false 2 (mkTarget "app:init" PId TId 3) None).

Definition interactive_graph : ActionGraph (D := list_dag_ops) :=
  mkActionGraph list_dag_ops (mkListDag [0; 1] []) {[0 := sample_node; 1 := interactive_node]}.

Definition interactive_start : pipeline :=
  pipeline_init false [(2, [0; 1])] ActionContext_default.

Lemma interactive_starts :
  starts interactive_graph false ActionContext_default interactive_start.
Proof. exists [0; 1], [(2, [0; 1])]. split; [apply two_actions_deps_first|done]. Qed.

(** An interactive action is not run in isolation: it is spawned next to the
    jobs that are running, and only then are the handles exhausted. *)
Theorem pipeline_interactive_overlap :
  ∃ s0 s j0 j1, starts interactive_graph false ActionContext_default s0 ∧
    rtc (run_step interactive_graph 2) s0 s ∧
    s_jobs s !! 0 = Some j0 ∧ j_phase j0 = JRunning ∧
    s_jobs s !! 1 = Some j1 ∧ j_phase j1 = JRunning ∧
    ActionNode_is_interactive (j_node j1) = true.
Proof.
  destruct (exec_all interactive_graph 2
    [MDispatch 0; MDispatch 0; go 0; go 0; MDispatch 0; MDispatch 0; go 1; go 1] interactive_start)
    as [s|] eqn:Hs.
  2: { by vm_compute in Hs. }
  exists interactive_start, s. do 2 eexists. split; [apply interactive_starts|].
  split; [by apply exec_all_run in Hs|].
  vm_compute in Hs. injection Hs as <-.
  split; [vm_compute; reflexivity|]. split; [vm_compute; reflexivity|].
  split; [vm_compute; reflexivity|]. by vm_compute.
Qed.
