(* ===== verification/BuilderGraph.v ===== *)
(** * The graph that is built, and the pipeline that runs it

What [ActionGraphBuilder::build] hands to the pipeline, after any sequence of
calls, is what the pipeline's theorems ask for. *)

From S2P Require Import Prelude Errors PooledTasks Target GraphUtils Shapes Config Affected AffectedFacts.
From S2P Require Import ActionContext Action Dag Dispatcher ActionGraphBuilder.
From S2P Require Import BuilderFacts BuilderTasks BuilderRuns BuilderSync BuilderTerm.
From S2P Require Import Pipeline PipelineFacts.

(** What the graph library documents of the two calls of [build]: the transitive
    reduction drops edges but keeps what is reachable, and a mapped graph has the
    same edges. *)
Class DagBuildLaws {D : DagOps ActionNode TaskDependencyType} {N : DagOps nat TaskDependencyType}
    (LD : DagLaws D) (LN : DagLaws N) (B : DagBuild D N) : Prop := {
  reduce_wf : ∀ d roots, dag_wf d → dag_wf (transitive_reduce d roots);
  reduce_nodes : ∀ d roots, dag_wf d → dag_nodes (transitive_reduce d roots) = dag_nodes d;
  reduce_edges : ∀ d roots a b, dag_wf d →
    edge_of (dag_edges (transitive_reduce d roots)) a b → edge_of (dag_edges d) a b;
  reduce_reaches : ∀ d roots a b, dag_wf d →
    tc (edge_of (dag_edges d)) a b → tc (edge_of (dag_edges (transitive_reduce d roots))) a b;
  map_wf : ∀ d, dag_wf d → dag_wf (map_indexes d);
  map_nodes : ∀ d, dag_wf d → dag_nodes (map_indexes d) = seq 0 (length (dag_nodes d));
  map_edges : ∀ d, dag_wf d → dag_edges (map_indexes d) = dag_edges d;
}.

Section Build.
Context `{D : DagOps ActionNode TaskDependencyType, N : DagOps nat TaskDependencyType,
  LD : !DagLaws D, LN : !DagLaws N, B : !DagBuild D N, LB : !DagBuildLaws LD LN B}.
Implicit Types (b : ActionGraphBuilder).

Lemma graph_nodes_lookup (d : Dag (DagOps := D)) i : graph_nodes d !! i = dag_nodes d !! i.
Proof.
  unfold graph_nodes. rewrite dag_node_count_law.
  set (l := omap _ _).
  assert (∀ node, (i, node) ∈ l ↔ dag_nodes d !! i = Some node) as Hl.
  { intros node. unfold l. rewrite list_elem_of_omap. setoid_rewrite elem_of_seq.
    setoid_rewrite dag_node_weight_law. split.
    - intros (j & Hj & Hnode). apply fmap_Some in Hnode as (n & Hn & [= -> ->]). done.
    - intros Hn. exists i. split; [apply lookup_lt_Some in Hn; lia|]. by rewrite Hn. }
  assert (NoDup l.*1) as Hnd.
  { unfold l. clear Hl l. generalize (NoDup_seq 0 (length (dag_nodes d))).
    generalize (seq 0 (length (dag_nodes d))). induction 1 as [|j js Hj Hjs IH]; cbn; [constructor|].
    destruct (dag_node_weight d j); cbn; [|done]. constructor; [|done].
    intros ([j' n] & -> & (k & Hk & Hn)%list_elem_of_omap)%list_elem_of_fmap. cbn in *.
    apply fmap_Some in Hn as (? & ? & [= -> ->]). done. }
  destruct (dag_nodes d !! i) as [node|] eqn:Hi.
  - apply elem_of_list_to_map; [done|by apply Hl].
  - apply not_elem_of_list_to_map. intros ([j node] & -> & Hj)%list_elem_of_fmap.
    apply Hl in Hj. cbn in *. congruence.
Qed.

(** The graph that [build] maps. *)
Lemma reduced b :
  builder_ok b →
  let d := match b_nodes b !! SyncWorkspace with
           | Some index => transitive_reduce (b_graph b) [index]
           | None => b_graph b
           end in
  dag_wf d ∧ dag_nodes d = nodes_of b ∧
  ∀ i j, tc (edge_of (dag_edges d)) i j ↔ tc (edge_of (edges_of b)) i j.
Proof.
  intros [Hwf Hac Hn]. destruct (b_nodes b !! SyncWorkspace) as [index|]; [|done]. cbn.
  split_and!; [by apply reduce_wf|by apply reduce_nodes|]. intros i j. split.
  - apply tc_mono. intros x y. by apply reduce_edges.
  - by apply reduce_reaches.
Qed.

Lemma build_graph b :
  builder_ok b →
  let g := (ActionGraphBuilder_build b).2 in
  dag_wf (ag_graph g) ∧ (∀ i, ag_nodes g !! i = nodes_of b !! i) ∧
  dag_node_count (ag_graph g) = length (nodes_of b) ∧
  ∀ i j, tc (edge_of (dag_edges (ag_graph g))) i j ↔ tc (edge_of (edges_of b)) i j.
Proof.
  intros Hok. destruct (reduced b Hok) as (Hwf & Hn & Htc). cbn in *. split_and!.
  - by apply map_wf.
  - intros i. by rewrite graph_nodes_lookup, Hn.
  - by rewrite dag_node_count_law, map_nodes, length_seq, Hn.
  - intros i j. by rewrite map_edges.
Qed.
End Build.

(** ** What holds of any builder *)

Section Claims.
Context `{D : DagOps ActionNode TaskDependencyType, N : DagOps nat TaskDependencyType,
  LD : !DagLaws D, LN : !DagLaws N, B : !DagBuild D N, LB : !DagBuildLaws LD LN B,
  H : Host, P : Plugins, I : IdSyntax, X : FxHasher}.

(** C16: after any sequence of calls that succeed, the graph that is built is
    ready for the pipeline: it is well formed and acyclic, has one node per
    action, requires what the builder's graph requires, directly or indirectly,
    and can be sorted and grouped, so that a pipeline starts from it. *)
Theorem build_ready (T : TopoSort (D := N)) (E : BuilderEnv) fuel calls b x g bail :
  run_calls E fuel calls = Ok b → ActionGraphBuilder_build b = (x, g) →
  toposort_ok T (ag_graph g) →
  dag_wf (ag_graph g) ∧ nodes_ok g ∧ acyclic (edge_of (dag_edges (ag_graph g))) ∧
  (∀ i j node, ag_nodes g !! i = Some node → ag_nodes g !! j = Some node → i = j) ∧
  (∀ i j, tc (edge_of (dag_edges (ag_graph g))) i j ↔ tc (edge_of (edges_of b)) i j) ∧
  ∃ l groups, sort_topological g = Ok l ∧ group_priorities g l = Ok groups ∧
    starts g bail x (pipeline_init bail groups x).
Proof.
  intros Hb Hg HT. pose proof (run_calls_ok _ _ _ _ Hb) as Hok.
  destruct (build_graph b Hok) as (Hwf & Hnodes & Hcount & Htc). rewrite Hg in *. cbn in *.
  assert (nodes_ok g) as Hnok.
  { intros i. rewrite Hcount, Hnodes, lookup_lt_is_Some. done. }
  assert (acyclic (edge_of (dag_edges (ag_graph g)))) as Hac.
  { intros i Hi%Htc. by apply (ok_acyclic _ Hok) in Hi. }
  destruct (sort_and_group_ok g HT Hwf Hac) as (l & groups & Hl & _ & Hord & Hgr & _);
    [by intros i ?%Hnok|].
  split_and!; try done.
  - intros i j node. rewrite !Hnodes. apply NoDup_lookup, builder_ok_NoDup, Hok.
  - exists l, groups. split_and!; [done..|]. by exists l, groups.
Qed.

(** C10: when dependencies are in scope at any depth, in a workspace whose tasks have
    distinct targets and whose lookups only find its tasks, every task node that
    [run_tasks] adds is of a task of the workspace, and has an edge to a node of
    every task that the dependencies of this task resolve to, however deep in the
    dependencies it was reached, unless that task is passed through. Only tasks
    that are not to run in CI are passed through, and only if the request checks
    for it. The targets that are returned are those of their nodes; and when
    affected tasks are not tracked (or the request skips that) and the request has
    no share of a job, every requested task that is not passed through is among
    them. *)
Theorem run_tasks_linked (E : BuilderEnv) ps ts fuel calls b locators reqs part b' :
  workspace_known E ps ts →
  (∀ query tasks t, query_tasks (e_graph E) query = Ok tasks → t ∈ tasks → t ∈ ts) →
  NoDup (t_target <$> ts) →
  run_calls E fuel calls = Ok b → rr_dependencies reqs = UpDeep →
  run_tasks E fuel locators reqs b = Ok (part, b') →
  (∀ i inner, length (nodes_of b) ≤ i → nodes_of b' !! i = Some (RunTask inner) →
     (∃ task, task ∈ ts ∧ t_target task = run_target inner) ∧
     ∀ task, task ∈ ts → t_target task = run_target inner → task_linked E b' i task) ∧
  (∀ target, target ∈ b_passthrough_targets b' → target ∈ b_passthrough_targets b ∨
     ∃ task, task ∈ ts ∧ t_target task = target ∧
       rr_ci_check reqs = true ∧ should_run task (rr_ci reqs) = false) ∧
  (∀ i target, rp_targets part !! i = Some target →
     ∃ inner, nodes_of b' !! i = Some (RunTask inner) ∧ run_target inner = target) ∧
  ∃ tasks, resolve_locators E locators b = Ok (tasks, b) ∧
    (rr_skip_affected reqs = true ∨ b_affected b = None →
     rr_job reqs = None ∨ rr_job_total reqs = None →
     ∀ task, task ∈ tasks → requested b' (rp_targets part) task).
Proof.
  intros [_ _ Ht Hts] Hq Hnd Hb Hdeep Hrun. pose proof (run_calls_ok _ _ _ _ Hb) as Hok.
  destruct (run_tasks_post E true reqs (λ t, t ∈ ts)
    (λ _ query target allow l t, resolve_known E ts Ht Hts query target allow l t) (λ _, Hq)
    fuel locators reqs b) with part b' as (_ & [_ Hl] & Htargets & Hreq); [done..|].
  destruct (Hl eq_refl) as [Hlink Hpass]. split_and!; [|done..].
  intros i inner Hi Hn.
  destruct (Hlink i _ Hi Hn ltac:(by eexists)) as (task & reqs' & config & Hin & [= ->] & Hlinked).
  split; [by exists task|]. intros task' Hin' Heq. cbn in Heq.
  by rewrite (NoDup_fmap_inj _ _ _ _ Hnd Hin' Hin Heq).
Qed.

(** A serial dependency is made to run after the previous one together
    with all the tasks it leads to: none of them can start before the previous
    one has completed, except those that the previous one needs itself; no cycle
    is made, and the call does not fail. *)
Theorem link_serial_spec (E : BuilderEnv) fuel calls b index previous :
  run_calls E fuel calls = Ok b →
  index < length (nodes_of b) → previous < length (nodes_of b) →
  ∃ b', link_serial_requirements index previous b = Ok (tt, b') ∧
    nodes_of b' = nodes_of b ∧ acyclic (edge_of (edges_of b')) ∧
    (∀ i j, edge_of (edges_of b) i j → edge_of (edges_of b') i j) ∧
    ∀ x, rtc (task_edge b) index x →
      edge_of (edges_of b') x previous ∨ rtc (edge_of (edges_of b')) previous x.
Proof.
  intros Hb Hi Hp. pose proof (run_calls_ok _ _ _ _ Hb) as Hok.
  destruct (link_serial_requirements_ok index previous b Hok Hi Hp) as (b' & Hb' & Hok' & Hs & Hg & Hx).
  exists b'. split_and!; [done|apply Hs|apply Hok'| |done].
  intros i j. by apply edge_grows.
Qed.

(** [sync_project] terminates and succeeds on every workspace whose projects
    know the projects they depend on, also if these dependencies have cycles, and
    whatever was done to the builder before: its links never close a cycle. *)
Theorem sync_project_total (E : BuilderEnv) reqs ps fuel calls b p :
  run_calls E fuel calls = Ok b →
  get_projects (rg_workspace (e_graph E)) = Ok ps →
  (∀ p id, p ∈ ps → id ∈ project_dependencies_of (e_graph E) p →
     ∃ q, get_project (rg_workspace (e_graph E)) id = Ok q ∧ q ∈ ps) →
  p ∈ ps → rr_skip_affected reqs = true ∨ b_affected b = None →
  ∃ o b', sync_project E p reqs b = Ok (o, b') ∧ acyclic (edge_of (edges_of b')) ∧
    match o with
    | Some i => nodes_of b' !! i = Some (SyncProject (p_id p))
    | None => PipelineActionSwitch_is_enabled (opt_sync_projects (e_options E)) (p_id p) = false
    end.
Proof.
  intros Hb Hps Hclosed Hp Hu. pose proof (run_calls_ok _ _ _ _ Hb) as Hok.
  destruct (internal_sync_project_ok E reqs ps Hclosed (S (project_fuel (rg_workspace (e_graph E))))
    p ∅ b) as (o & b' & Hb' & Hok' & _ & Ho); [|done..|].
  - unfold project_fuel. rewrite Hps, difference_empty_L.
    pose proof (project_ids_size ps). lia.
  - exists o, b'. split_and!; [done|apply Hok'|]. destruct o; [by destruct Ho|].
    destruct Ho as [?|?]; [done|set_solver].
Qed.

(** C18: when affected tasks are not tracked, running a target terminates, whatever
    the scopes of dependencies and dependents, and also if the tasks of the
    workspace depend on each other in cycles: with more fuel than three times the number of tasks and of their
    dependencies together, plus what earlier calls have put off, the recursion
    never runs out of it. *)
Theorem run_task_by_target_terminates (E : BuilderEnv) ps ts fuel0 calls b fuel target reqs :
  env_returns E → workspace_known E ps ts →
  run_calls E fuel0 calls = Ok b → b_affected b = None →
  3 * (length ts * (2 + length (ts ≫= t_deps))) + length ts +
    (size (dom (b_ignored_dependencies b)) + size (b_ignored_dependents b)) < fuel →
  run_task_by_target E fuel target reqs b ≠ OutOfFuel.
Proof.
  intros HE Hw Hb Ha Hlt. eapply run_task_by_target_returns; [done|done| |done|exact Hlt].
  by eapply run_calls_ok.
Qed.
End Claims.

(** ** Shares of jobs *)

(** [length.div_ceil(n)] *)
Definition share_size (n len : nat) : nat := len / n + (if len mod n =? 0 then 0 else 1).

Lemma share_size_enough n len : 0 < n → len ≤ n * share_size n len.
Proof.
  intros Hn. unfold share_size. pose proof (Nat.div_mod len n ltac:(lia)) as Hd.
  pose proof (Nat.mod_upper_bound len n ltac:(lia)).
  destruct (Nat.eqb_spec (len mod n) 0); nia.
Qed.

Lemma partition_share {A} (l : list A) n i :
  i < n → share_size n (length l) * i < length l →
  (partition_tasks i n l).1 =
    take (share_size n (length l)) (drop (share_size n (length l) * i) l).
Proof.
  intros Hi Hlt. unfold partition_tasks. fold (share_size n (length l)).
  pose proof (share_size_enough n (length l) ltac:(lia)) as Hen.
  set (s := share_size n (length l)) in *.
  assert (∀ m, length l ≤ s * i + m → drop (s * i) l = take m (drop (s * i) l)) as Hall.
  { intros m Hm. rewrite take_ge; [done|]. rewrite length_drop. lia. }
  destruct (Nat.eqb_spec i 0) as [->|Hi0]; [|destruct (Nat.eqb_spec i (n - 1)) as [->|Hin]]; cbn [fst].
  - rewrite Nat.mul_0_r in *. destruct (Nat.ltb_spec 0 (length l)); [|lia].
    destruct (Nat.ltb_spec s (length l)); cbn; [by rewrite Nat.sub_0_r|]. apply Hall. lia.
  - destruct (Nat.ltb_spec (s * (n - 1)) (length l)); [|lia].
    rewrite Nat.ltb_irrefl. cbn. apply Hall. nia.
  - destruct (Nat.ltb_spec (s * i) (length l)); [|lia].
    destruct (Nat.ltb_spec (s * (i + 1)) (length l)); cbn; [f_equal; nia|]. apply Hall. nia.
Qed.

(** The first [k] shares of size [s], one after the other. *)
Lemma shares_concat {A} (l : list A) s k :
  concat ((λ i, take s (drop (s * i) l)) <$> seq 0 k) = take (s * k) l.
Proof.
  induction k as [|k IH]; [by rewrite Nat.mul_0_r|].
  rewrite seq_S, fmap_app, concat_app, IH. cbn. rewrite app_nil_r.
  rewrite take_take_drop. f_equal. lia.
Qed.

(** The shares of the jobs are the list of tasks, cut into pieces: each task
    is run by exactly one job, as long as the last job has something left to do. *)
Theorem partition_shares {A} (l : list A) n :
  0 < n → share_size n (length l) * (n - 1) < length l →
  concat ((λ i, (partition_tasks i n l).1) <$> seq 0 n) = l.
Proof.
  intros Hn Hlt. pose proof (share_size_enough n (length l) Hn) as Hen.
  assert ((λ i, (partition_tasks i n l).1) <$> seq 0 n =
    (λ i, take (share_size n (length l)) (drop (share_size n (length l) * i) l)) <$> seq 0 n) as ->.
  { apply list_fmap_ext. intros k i [-> Hk]%lookup_seq. apply partition_share; [lia|].
    eapply Nat.le_lt_trans; [apply Nat.mul_le_mono_l|exact Hlt]. lia. }
  rewrite shares_concat, take_ge; [done|lia].
Qed.

Lemma partition_shares_witness :
  concat ((λ i, (partition_tasks i 3 [10; 11; 12; 13; 14; 15; 16]).1) <$> seq 0 3) =
    [10; 11; 12; 13; 14; 15; 16].
Proof. apply (partition_shares [10; 11; 12; 13; 14; 15; 16] 3); vm_compute; lia. Defined.

(** ** Concrete workspaces *)

(** Workspaces without toolchains. *)
Definition no_plugins : Plugins := {|
  plugin_load := λ _, Ok tt;
  has_func := λ _ _, false;
  define_requirements := λ _ _, Ok (mkRequirements [] false false);
  plugin_locate_dependencies_root := λ _ _, Ok None;
  relative_to := λ path _, Ok path;
  path_strip_prefix := λ _ _, None;
  globs_match := λ _ _, Ok false;
|}.

Definition length_hasher : FxHasher := {| hash_finish := λ writes, N.of_nat (length writes) |}.

Definition target_of (project name : Id) : Target :=
  mkTarget (String.append project (String.append ":" name)) PId TId (String.length project).

Definition task_of (project name : Id) (parallel : bool) (deps : list Target) : Task :=
  mkTask (TaskArg_new "make") [] [] ((λ d, mkTaskDep [] None [] d None) <$> deps) None [] name []
    [] ∅ [] (options_with TaskOptions_default false false parallel (Enabled true)) [] ∅ [] None None
    TaskState_default [] (target_of project name) [] TypeBuild.

(** A workspace by its projects and tasks, that are not queried. *)
Definition list_graph (projects : list Project) (tasks : list Task) : RunGraph := {|
  rg_workspace := {|
    get_projects := Ok projects;
    get_project := λ id, ok_or (List.find (λ p, bool_decide (p_id p = id)) projects)
                     (RProjectGraph (UnconfiguredID id));
    project_dependents_of := λ p,
      p_id <$> List.filter (λ q, bool_decide (p_id p ∈ get_dependency_ids q)) projects;
    get_tasks_with_internal := Ok tasks;
    get_task := λ target, ok_or (List.find (λ t, bool_decide (t_target t = target)) tasks)
                     (Foreign "unknown task");
    task_dependents_of := λ t,
      t_target <$> List.filter (λ u, bool_decide (t_target t ∈ dep_target <$> t_deps u)) tasks;
  |};
  get_task_from_project := λ p name,
    ok_or (List.find (λ t, bool_decide (t_target t = target_of p name)) tasks)
      (RProject (UnknownTask name p));
  get_tasks_from_project := λ p,
    Ok (List.filter (λ t, match get_project_id (t_target t) with
                          | Ok q => bool_decide (q = p) | _ => false end) tasks);
  query_projects := λ _, Ok [];
  query_tasks := λ _, Ok [];
  get_project_from_path := Err (Foreign "no project");
  get_default_project := Err (Foreign "no project");
  project_dependencies_of := get_dependency_ids;
|}.

Definition list_env (projects : list Project) (tasks : list Task) : BuilderEnv :=
  mkBuilderEnv (mkToolchainsConfig ∅ "0.50.0") "/workspace" false 1 (λ n, n)
    (ActionGraphBuilderOptions_new true) (list_graph projects tasks).

(** The two calls of [build] on lists.  Nothing requires an action through
    [SyncWorkspace], so a reduction from there drops nothing. *)
Definition list_build : DagBuild list_dag_ops list_dag_ops := {|
  transitive_reduce := λ (d : Dag (DagOps := list_dag_ops)) _, d;
  map_indexes := λ d : Dag (DagOps := list_dag_ops),
    mkListDag (seq 0 (length (ld_nodes d))) (ld_edges d) : Dag (DagOps := list_dag_ops);
|}.

Lemma list_build_laws : DagBuildLaws list_dag_laws list_dag_laws list_build.
Proof.
  constructor; try done.
  intros d Hwf. unfold dag_wf in *. cbn in *. unfold ld_wf in *. cbn. by rewrite length_seq.
Qed.

(** A list that is a topological order, by evaluation. *)
Definition position (x : nat) (l : list nat) : nat := default 0 (fst <$> list_find (x =.) l).

Lemma toposort_ok_by {D : DagOps nat TaskDependencyType} {L : DagLaws D} (T : TopoSort) d l :
  visit_cycles d = [] → toposort d = inl l → NoDup l → l ≡ₚ seq 0 (length (dag_nodes d)) →
  Forall (λ e : nat * nat * TaskDependencyType,
    position e.1.1 l < position e.1.2 l ∧ e.1.2 ∈ l) (dag_edges d) →
  toposort_ok T d.
Proof.
  intros Hv Ht Hnd Hperm Hall. split; [done|]. intros _. exists l. split_and!; [done|done| |].
  - intros i. rewrite Hperm, elem_of_seq. lia.
  - assert (∀ i a, l !! i = Some a → position a l = i) as Hpos.
    { intros i a Hi. unfold position.
      destruct (list_find (a =.) l) as [[j x]|] eqn:Hf.
      - apply list_find_Some in Hf as (Hj & <- & _). cbn. by eapply NoDup_lookup.
      - eapply list_find_None, Forall_lookup_1 in Hf; [|exact Hi]. done. }
    intros i a b Hi (e & He). rewrite Forall_forall in Hall.
    destruct (Hall _ He) as [Hlt Hb]. cbn in *.
    apply list_elem_of_lookup in Hb as [j Hj]. exists j. split; [|done].
    by rewrite (Hpos _ _ Hi), (Hpos _ _ Hj) in Hlt.
Qed.

Section Samples.
#[local] Existing Instances sample_host no_plugins length_hasher list_build list_build_laws.

(** [app:p] runs [app:a] and [app:b] one after the other, and [app:a] needs
    [app:b]. *)
Definition serial_tasks : list Task :=
  [task_of "app" "p" false [target_of "app" "a"; target_of "app" "b"];
   task_of "app" "a" true [target_of "app" "b"];
   task_of "app" "b" true []].
Definition serial_env : BuilderEnv := list_env [sample_project "app" []] serial_tasks.

Definition locate (name : Id) : TargetLocator := Qualified (target_of "app" name).

Definition scope_reqs (dependencies : UpstreamScope) : RunRequirements :=
  mkRunRequirements false false dependencies DownNone false false None None false.

(** Whether tasks can be run together depends on the order in which they are
    named.  With direct dependencies in scope, [app:a] and then [app:p] can be
    run.  The other way around, the serial order of the dependencies of [app:p]
    makes [app:b] require [app:a], since the dependency of [app:a] is not in the
    graph yet, and [app:a] itself then fails, as if the tasks had a cycle. *)
Theorem run_order_would_cycle :
  (∃ part b, run_tasks serial_env 10 [locate "a"; locate "p"] (scope_reqs UpDirect)
    (ActionGraphBuilder_new (D := list_dag_ops)) = Ok (part, b)) ∧
  run_tasks serial_env 10 [locate "p"; locate "a"] (scope_reqs UpDirect)
    (ActionGraphBuilder_new (D := list_dag_ops)) =
    Err (RActionGraph (AG_WouldCycle "RunTask(app:a)" "RunTask(app:b)")).
Proof.
  split; [|apply err_of_Err; vm_compute; reflexivity].
  destruct (is_ok_Ok (run_tasks serial_env 10 [locate "a"; locate "p"] (scope_reqs UpDirect)
    (ActionGraphBuilder_new (D := list_dag_ops)))) as [[part b] Hr]; [vm_compute; reflexivity|].
  by exists part, b.
Qed.

(** Four tasks that do not depend on each other. *)
Definition four_env : BuilderEnv :=
  list_env [sample_project "app" []]
    ((λ name, task_of "app" name true []) <$> ["a"; "b"; "c"; "d"]%string).

(** What job [job_index] of three runs. *)
Definition job_targets (job_index : nat) : gset Target :=
  match run_tasks four_env 10 (locate <$> ["a"; "b"; "c"; "d"]%string)
    (mkRunRequirements false false UpDeep DownNone false false (Some job_index) (Some 3) false)
    (ActionGraphBuilder_new (D := list_dag_ops)) with
  | Ok (part, _) => map_img (rp_targets part)
  | _ => ∅
  end.

(** Four tasks over three jobs: the first two jobs run two tasks each, and
    the last one, for which nothing is left, runs all of them again, because the
    list of tasks is only cut if there is a task where the share starts. *)
Theorem last_job_runs_all :
  job_targets 0 = {[target_of "app" "a"; target_of "app" "b"]} ∧
  job_targets 1 = {[target_of "app" "c"; target_of "app" "d"]} ∧
  job_targets 2 = job_targets 0 ∪ job_targets 1.
Proof. split_and!; apply (bool_decide_unpack _); vm_compute; exact I. Qed.

Definition serial_calls : list BuilderCall :=
  [CSyncWorkspace; CRunTasks [locate "p"] (scope_reqs UpDeep)].

Definition serial_builder : ActionGraphBuilder (D := list_dag_ops) :=
  match run_calls serial_env 10 serial_calls with Ok b => b | _ => ActionGraphBuilder_new end.

Lemma serial_builder_calls : run_calls serial_env 10 serial_calls = Ok serial_builder.
Proof.
  unfold serial_builder.
  destruct (is_ok_Ok (run_calls (D := list_dag_ops) serial_env 10 serial_calls)) as [b ->];
    [vm_compute|]; reflexivity.
Qed.

Definition serial_sort : TopoSort (D := list_dag_ops) := {|
  visit_cycles := λ _, [];
  toposort := λ _, inl [2; 3; 4; 1; 0];
|}.

Definition serial_built : ActionContext * ActionGraph (D := list_dag_ops) :=
  ActionGraphBuilder_build serial_builder.

Lemma serial_sort_ok : toposort_ok serial_sort (ag_graph serial_built.2).
Proof.
  apply (toposort_ok_by serial_sort _ [2; 3; 4; 1; 0]); [done|done| | |].
  - by apply (bool_decide_unpack _).
  - apply (bool_decide_unpack _). vm_compute. exact I.
  - apply (bool_decide_unpack _). vm_compute. exact I.
Qed.

Lemma build_ready_witness :
  nodes_ok serial_built.2 ∧
  ∃ l groups, sort_topological (H := serial_sort) serial_built.2 = Ok l ∧
    starts serial_built.2 true serial_built.1 (pipeline_init true groups serial_built.1).
Proof.
  destruct (build_ready serial_sort serial_env 10 serial_calls serial_builder serial_built.1
    serial_built.2 true serial_builder_calls (surjective_pairing _) serial_sort_ok)
    as (_ & Hn & _ & _ & _ & l & groups & Hl & _ & Hs).
  split; [exact Hn|]. exists l, groups. split; [exact Hl|exact Hs].
Defined.

Definition synced_builder : ActionGraphBuilder (D := list_dag_ops) :=
  match run_calls serial_env 10 [CSyncWorkspace] with Ok b => b | _ => ActionGraphBuilder_new end.

Lemma list_env_known projects tasks : workspace_known (list_env projects tasks) projects tasks.
Proof.
  constructor; cbn -[List.find List.filter]; [done|..].
  - intros id q. destruct (List.find _ _) eqn:Hf; [|done]. intros [= <-].
    by apply find_some in Hf as [?%list_elem_of_In _].
  - intros p name t. destruct (List.find _ _) eqn:Hf; [|done]. intros [= <-].
    by apply find_some in Hf as [?%list_elem_of_In _].
  - intros p l t [= <-] Ht. apply list_elem_of_In, filter_In in Ht as [Ht _].
    by apply list_elem_of_In.
Qed.

Lemma run_tasks_linked_witness :
  ∃ part b' tasks,
    run_tasks serial_env 10 [locate "p"] (scope_reqs UpDeep) synced_builder = Ok (part, b') ∧
    (∀ i inner task, length (nodes_of synced_builder) ≤ i →
       nodes_of b' !! i = Some (RunTask inner) → task ∈ serial_tasks →
       t_target task = run_target inner → task_linked serial_env b' i task) ∧
    resolve_locators serial_env [locate "p"] synced_builder = Ok (tasks, synced_builder) ∧
    ∀ task, task ∈ tasks → requested b' (rp_targets part) task.
Proof.
  destruct (is_ok_Ok (run_tasks serial_env 10 [locate "p"] (scope_reqs UpDeep) synced_builder))
    as [[part b'] Hr]; [vm_compute; reflexivity|].
  destruct (run_tasks_linked serial_env [sample_project "app" []] serial_tasks 10
    [CSyncWorkspace] synced_builder [locate "p"] (scope_reqs UpDeep) part b')
    as (Hlink & _ & _ & tasks & Hres & Hreq).
  - apply list_env_known.
  - intros query tasks t [= <-] Ht. exfalso. exact (not_elem_of_nil _ Ht).
  - apply (bool_decide_unpack _). vm_compute. exact I.
  - unfold synced_builder.
    destruct (is_ok_Ok (run_calls (D := list_dag_ops) serial_env 10 [CSyncWorkspace])) as [b ->];
      [vm_compute|]; reflexivity.
  - reflexivity.
  - exact Hr.
  - exists part, b', tasks. split_and!; [exact Hr| |exact Hres|].
    + intros i inner task Hi Hn. apply (Hlink i inner Hi Hn).
    + apply Hreq; [right|left]; [vm_compute|]; reflexivity.
Defined.

Lemma link_serial_spec_witness :
  ∃ b', link_serial_requirements 3 4 serial_builder = Ok (tt, b') ∧
    nodes_of b' = nodes_of serial_builder.
Proof.
  destruct (link_serial_spec serial_env 10 serial_calls serial_builder 3 4 serial_builder_calls)
    as (b' & Hb' & Hn & _).
  - vm_compute. lia.
  - vm_compute. lia.
  - exists b'. split; [exact Hb'|exact Hn].
Defined.

(** Two projects that depend on each other. *)
Definition cyclic_projects : list Project :=
  [sample_project "app" ["lib"]; sample_project "lib" ["app"]]%string.
Definition cyclic_env : BuilderEnv := list_env cyclic_projects [].

Lemma sync_project_total_witness :
  ∃ o b', sync_project cyclic_env (sample_project "app" ["lib"]%string)
    (scope_reqs UpDeep) (ActionGraphBuilder_new (D := list_dag_ops)) = Ok (o, b') ∧
    acyclic (edge_of (edges_of b')).
Proof.
  destruct (sync_project_total (D := list_dag_ops) cyclic_env (scope_reqs UpDeep) cyclic_projects
    0 [] ActionGraphBuilder_new (sample_project "app" ["lib"]%string)) as (o & b' & Hb' & Hac & _).
  - reflexivity.
  - reflexivity.
  - intros p id [->|[->|[]%not_elem_of_nil]%elem_of_cons]%elem_of_cons ->%list_elem_of_singleton;
      eexists; (split; [reflexivity|]); [right; left|left].
  - left.
  - right. reflexivity.
  - exists o, b'. split; [exact Hb'|exact Hac].
Defined.

(** Three tasks that depend on each other. *)
Definition cyclic_tasks : list Task :=
  [task_of "app" "a" true [target_of "app" "b"]; task_of "app" "b" true [target_of "app" "c"];
   task_of "app" "c" true [target_of "app" "a"]].
Definition cyclic_tasks_env : BuilderEnv := list_env [sample_project "app" []] cyclic_tasks.

Lemma list_env_returns projects tasks : env_returns (list_env projects tasks).
Proof.
  constructor; try done; cbn -[List.find].
  - intros id. by destruct (List.find _ _).
  - intros p name. by destruct (List.find _ _).
Qed.

Lemma run_task_by_target_terminates_witness :
  run_task_by_target cyclic_tasks_env 50 (target_of "app" "a") (scope_reqs UpDeep)
    (ActionGraphBuilder_new (D := list_dag_ops)) ≠ OutOfFuel.
Proof.
  apply (run_task_by_target_terminates (D := list_dag_ops) cyclic_tasks_env
    [sample_project "app" []] cyclic_tasks 0 []).
  - apply list_env_returns.
  - apply list_env_known.
  - reflexivity.
  - reflexivity.
  - vm_compute. lia.
Defined.
End Samples.
