(* ===== verification/Blobs.v ===== *)
(** * Hashes, blobs and the content-addressable store ([crates/hash],
    [crates/blob], [crates/cas])

A blob is a byte string with its digest: a SHA-256 hash and a size.  A [CasStore]
keeps blobs as files whose path is their hash, in directories named after the
first two digits. *)

From S2P Require Import Prelude Errors FileSystem.

#[local] Open Scope string_scope.

(** A method that looks at the state before it acts. *)
Definition with_state {S A} (m : S → stateful S A) : stateful S A := λ s, m s s.

(** [for x in l { b = f(b, x)? }] *)
Fixpoint stateful_fold {S A B} (f : B → A → stateful S B) (b : B) (l : list A) : stateful S B :=
  match l with
  | [] => mret b
  | x :: l' => b' ← f b x; stateful_fold f b' l'
  end.

(** ** Hashes ([content_hash.rs], [digest.rs], [content_hasher.rs]) *)

Abbreviation ContentHash := string.

(** [hash::sha256::from_bytes] of [starbase_utils]; [from_file] hashes the contents
    of a file. *)
Class Sha256 : Type := {
  sha256 : string → string;
}.

Definition is_hexdigit (c : ascii) : bool := is_digit c || in_range "a" "f" c || in_range "A" "F" c.

Definition is_hash (hex : string) : bool :=
  Nat.eqb (String.length hex) 64 && str_all is_hexdigit hex.

(** What it documents: the digest in hexadecimal. *)
Class Sha256Laws (S : Sha256) : Prop := {
  sha256_hex : ∀ bytes, is_hash (sha256 bytes) = true;
}.

(** [ContentHash::from_hex] *)
Definition ContentHash_from_hex (hex : string) : result ContentHash :=
  if is_hash hex then Ok hex else Err (RHash (InvalidContentHash hex)).

(** [ContentHash::prefix], [suffix] *)
Definition hash_prefix (hash : ContentHash) : string := str_take 2 hash.
Definition hash_suffix (hash : ContentHash) : string := str_drop 2 hash.

Record Digest : Type := mkDigest {
  digest_hash : ContentHash;
  digest_size : Z;
}.

#[export] Instance Digest_eq_dec : EqDecision Digest.
Proof. solve_decision. Defined.

#[export] Instance Digest_countable : Countable Digest.
Proof.
  refine (inj_countable' (λ d, (digest_hash d, digest_size d)) (λ '(h, s), mkDigest h s) _).
  by intros [].
Defined.

(** [Digest::default], [Digest::is_valid] *)
Definition Digest_default : Digest := mkDigest "" 0.

Definition Digest_is_valid (d : Digest) : bool :=
  (0 <=? digest_size d)%Z && negb (String.eqb (digest_hash d) "").

Section Hashing.
Context `{Sha256}.

(** [ContentHash::hash_bytes], and [hash_file] of a file with these contents. *)
Definition ContentHash_hash_bytes (bytes : string) : result ContentHash :=
  ContentHash_from_hex (sha256 bytes).

(** [Digest::from_bytes] *)
Definition Digest_from_bytes (bytes : string) : result Digest :=
  let? hash := ContentHash_hash_bytes bytes in
  Ok (mkDigest hash (Z.of_nat (String.length bytes))).

(** [Digest::from_file] *)
Definition Digest_from_file {R} (path : Path) : stateful (World R) Digest :=
  '(bytes, _, _) ← fs_metadata path;
  let size := Z.of_nat (String.length bytes) in
  contents ← read_file_bytes path;
  hash ← pure_result (ContentHash_hash_bytes contents);
  mret (mkDigest hash size).

(** [ContentHasher]: the serialized contents, and the cached results. *)
Record ContentHasher : Type := mkContentHasher {
  content_cache : option string;
  contents : list string;
  hash_cache : option ContentHash;
}.

Definition ContentHasher_new : ContentHasher := mkContentHasher None [] None.

(** [hash_content], of a value that is serialized already. *)
Definition hash_content (h : ContentHasher) (content : string) : ContentHasher :=
  mkContentHasher None (contents h ++ [content])%list None.

(** [serialize] *)
Definition hasher_serialize (h : ContentHasher) : string * ContentHasher :=
  match content_cache h with
  | Some data => (data, h)
  | None =>
      let data := "[" ++ str_join "," (contents h) ++ "]" in
      (data, mkContentHasher (Some data) (contents h) (hash_cache h))
  end.

(** [generate_hash] *)
Definition generate_hash (h : ContentHasher) : result ContentHash * ContentHasher :=
  match hash_cache h with
  | Some hash => (Ok hash, h)
  | None =>
      let '(data, h) := hasher_serialize h in
      match ContentHash_hash_bytes data with
      | Ok hash => (Ok hash, mkContentHasher (content_cache h) (contents h) (Some hash))
      | Err e => (Err e, h)
      | OutOfFuel => (OutOfFuel, h)
      end
  end.

(** [HashEngine::save_manifest] ([cache/src/hash_engine.rs]): the contents are
    written to [<hash>.json] in the directory of hashes. *)
Definition save_manifest {R} (hashes_dir : Path) (h : ContentHasher) : stateful (World R) Digest :=
  let '(hash, h) := generate_hash h in
  hash ← pure_result hash;
  let '(data, _) := hasher_serialize h in
  fs_write_file (hashes_dir ++ [String.append hash ".json"])%list data;;
  mret (mkDigest hash (Z.of_nat (String.length data))).

(** ** Blobs ([blob.rs]) *)

Inductive BlobContent : Type :=
| BlobFile (path : Path)
| Inline (bytes : string).

(** [BlobContent::read_bytes] *)
Definition blob_read_bytes {R} (content : BlobContent) : stateful (World R) string :=
  match content with
  | Inline bytes => mret bytes
  | BlobFile path => read_file_bytes path
  end.

(** [BlobInput], [BlobOutput] *)
Record BlobInput : Type := mkBlobInput {
  input_content : BlobContent;
  input_digest : Digest;
}.

Record BlobOutput : Type := mkBlobOutput {
  output_content : BlobContent;
  output_digest : Digest;
}.

Record Blob : Type := mkBlob {
  blob_bytes : string;
  blob_digest : Digest;
}.

(** [Blob::from_bytes] *)
Definition Blob_from_bytes (bytes : string) : result Blob :=
  let? digest := Digest_from_bytes bytes in Ok (mkBlob bytes digest).

(** [BlobCleanStats] *)
Record BlobCleanStats : Type := mkStats {
  blobs_removed : nat;
  bytes_saved : nat;
}.
End Hashing.

(** ** The store ([cas.rs], [gc.rs]) *)

(** [CasStore], with the option of its configuration that it reads. *)
Record CasStore : Type := mkCasStore {
  objects_dir : Path;
  verify_integrity : bool;
}.

Definition temp_dir (store : CasStore) : Path := (objects_dir store ++ ["temp"])%list.

(** [CasStore::object_path] *)
Definition object_path (store : CasStore) (hash : ContentHash) : Path :=
  (objects_dir store ++ [hash_prefix hash; hash_suffix hash])%list.

(** The directory and the name of an object file; [read_dir] of the store and of
    its directories, the staging directory left out. *)
Definition shard_entry (store : CasStore) (path : Path) : option (string * string) :=
  match path_strip_prefix (objects_dir store) path with
  | Some [shard; name] => Some (shard, name)
  | _ => None
  end.

Definition object_entry (store : CasStore) (path : Path) : option (string * string) :=
  match shard_entry store path with
  | Some (shard, name) => if decide (shard = "temp") then None else Some (shard, name)
  | None => None
  end.

(** [CasStore::object_paths] *)
Definition object_paths (store : CasStore) (fs : FileSystem) : list Path :=
  filter (λ path, is_Some (object_entry store path)) (map_to_list fs).*1.

Section Cas.
Context `{Sha256} {R : Type}.
Implicit Types (store : CasStore).

(** [CasStore::contains_object] *)
Definition contains_object (fs : FileSystem) store (hash : ContentHash) : bool :=
  path_exists fs (object_path store hash).

(** [CasStore::write], [write_file]: staged in a file with a fresh name, which is
    renamed into place. *)
Definition cas_write store (hash : ContentHash) (bytes : string) : stateful (World R) bool := λ w,
  (Ok true, w_set_fs w (<[object_path store hash := FileNode bytes default_mode (w_now w)]> (w_fs w))).

Definition cas_write_file store (hash : ContentHash) (source : Path) : stateful (World R) bool := λ w,
  match file_at (w_fs w) source with
  | Some (bytes, mode, _) =>
      (Ok true,
       w_set_fs w (<[object_path store hash := FileNode bytes (Z.lor mode 128) (w_now w)]> (w_fs w)))
  | None => (not_found source, w)
  end.

(** [CasStore::store_bytes], [store_file] *)
Definition store_bytes store (bytes : string) : stateful (World R) Digest :=
  digest ← pure_result (Digest_from_bytes bytes);
  with_state (λ w,
    if contains_object (w_fs w) store (digest_hash digest) then mret digest
    else _ ← cas_write store (digest_hash digest) bytes; mret digest).

Definition store_file store (path : Path) : stateful (World R) Digest :=
  digest ← Digest_from_file path;
  with_state (λ w,
    if contains_object (w_fs w) store (digest_hash digest) then mret digest
    else _ ← cas_write_file store (digest_hash digest) path; mret digest).

(** [object_path_with_exists_check] *)
Definition object_path_with_exists_check store (hash : ContentHash) : stateful (World R) Path := λ w,
  if contains_object (w_fs w) store hash then (Ok (object_path store hash), w)
  else (Err (RCas (CasNotFound hash)), w).

Definition check_integrity store (hash : ContentHash) (actual : string) : result unit :=
  if verify_integrity store && negb (String.eqb actual hash) then
    Err (RCas (IntegrityMismatch hash actual))
  else Ok tt.

(** [CasStore::read] *)
Definition cas_read store (hash : ContentHash) : stateful (World R) string :=
  path ← object_path_with_exists_check store hash;
  bytes ← read_file_bytes path;
  pure_result (check_integrity store hash (sha256 bytes));;
  mret bytes.

(** [CasStore::read_file] *)
Definition cas_read_file store (hash : ContentHash) (dest : Path) : stateful (World R) unit :=
  path ← object_path_with_exists_check store hash;
  bytes ← read_file_bytes path;
  pure_result (check_integrity store hash (sha256 bytes));;
  fs_remove_file dest;;
  reflink_file path dest.

(** [CasStore::retrieve_blob] *)
Definition retrieve_blob store (hash : ContentHash) : stateful (World R) Blob :=
  bytes ← cas_read store hash;
  mret (mkBlob bytes (mkDigest hash (Z.of_nat (String.length bytes)))).

(** [CasStore::touch] *)
Definition cas_touch store (hash : ContentHash) : stateful (World R) unit :=
  path ← object_path_with_exists_check store hash;
  with_state (λ w, set_modified path (w_now w)).

(** [now.duration_since(modified).unwrap_or_default()] *)
Definition file_age (now mtime : Z) : Z := Z.max 0 (now - mtime).

Definition node_bytes (node : Node) : nat :=
  match node with FileNode bytes _ _ => String.length bytes | LinkNode _ => 0 end.

Definition node_mtime (node : Node) : Z :=
  match node with FileNode _ _ mtime => mtime | LinkNode _ => 0%Z end.

(** The files that [remove] selects are removed, and counted. *)
Definition sweep (remove : Path → Node → bool) (fs : FileSystem) : BlobCleanStats * FileSystem :=
  let removed := filter (λ kv, remove kv.1 kv.2 = true) fs in
  (mkStats (size removed) (sum_list (node_bytes <$> (map_to_list removed).*2)),
   filter (λ kv, remove kv.1 kv.2 = false) fs).

(** [clean_temp_dir]: what was staged more than [max_age] ago. *)
Definition clean_temp_dir store (max_age now : Z) (fs : FileSystem) : FileSystem :=
  filter (λ kv, path_has_prefix (temp_dir store) kv.1 &&
                (max_age <? file_age now (node_mtime kv.2))%Z = false) fs.

Definition hour : Z := 3600000000000.

(** [retain]: the objects that are not in [keep], unless they are young. *)
Definition retain_remove store (keep : gset ContentHash) (grace now : Z) (path : Path) (node : Node) :
  bool :=
  match object_entry store path with
  | Some (shard, name) =>
      let reachable :=
        match ContentHash_from_hex (shard ++ name) with
        | Ok hash => bool_decide (hash ∈ keep)
        | _ => false
        end in
      negb reachable && negb (file_age now (node_mtime node) <=? grace)%Z
  | None => false
  end.

Definition retain store (keep : gset ContentHash) (grace : Z) : stateful (World R) BlobCleanStats := λ w,
  let '(stats, fs) := sweep (retain_remove store keep grace (w_now w)) (w_fs w) in
  (Ok stats, w_set_fs w (clean_temp_dir store hour (w_now w) fs)).

(** [gc], and [purge] with the age zero: every directory of the store, the staging
    directory among them. *)
Definition gc_remove store (max_age now : Z) (path : Path) (node : Node) : bool :=
  match shard_entry store path with
  | Some _ => bool_decide (max_age = 0%Z) || (max_age <? file_age now (node_mtime node))%Z
  | None => false
  end.

Definition gc store (max_age : Z) : stateful (World R) BlobCleanStats := λ w,
  let '(stats, fs) := sweep (gc_remove store max_age (w_now w)) (w_fs w) in
  (Ok stats,
   w_set_fs w
     (if decide (max_age = 0%Z) then
        filter (λ kv, path_has_prefix (temp_dir store) kv.1 = false) fs
      else clean_temp_dir store hour (w_now w) fs)).

Definition purge store : stateful (World R) BlobCleanStats := gc store 0.
End Cas.
