(* ===== verification/Manifest.v ===== *)
(** * Cache manifests ([crates/manifest])

The manifest of the outputs of a task: what files and links there are and the
digests of their contents.  [ManifestPacker] makes one from the files on disk,
[ManifestUnpacker] writes the files of one back; a manifest that comes from a
store is hydrated in between, that is, the blobs it names are fetched. *)

From S2P Require Import Prelude Errors FileSystem Target GraphUtils Shapes Config Affected Action Blobs.

#[local] Open Scope string_scope.

(** ** Data ([manifest.rs]) *)

Record ManifestFile : Type := mkManifestFile {
  mf_bytes : option string;
  mf_digest : option Digest;
  mf_is_executable : bool;
  mf_modified_at : option Z;
  mf_path : WorkspaceRelativePath;
  mf_source_path : option Path;
  mf_unix_mode : option Z;
}.

Record ManifestSymlink : Type := mkManifestSymlink {
  ms_modified_at : option Z;
  ms_path : WorkspaceRelativePath;
  ms_target : WorkspaceRelativePath;
  ms_unix_mode : option Z;
}.

Record Manifest : Type := mkManifest {
  m_files : list ManifestFile;
  m_symlinks : list ManifestSymlink;
  m_exit_code : Z;
  m_stderr_bytes : option string;
  m_stderr_digest : option Digest;
  m_stdout_bytes : option string;
  m_stdout_digest : option Digest;
  m_upload_started_at : option Z;
  m_upload_completed_at : option Z;
  m_digest_source : option ManifestFile;
}.

Definition Manifest_default : Manifest :=
  mkManifest [] [] 0 None None None None None None None.

Definition m_set_files (m : Manifest) (files : list ManifestFile) : Manifest :=
  mkManifest files (m_symlinks m) (m_exit_code m) (m_stderr_bytes m) (m_stderr_digest m)
    (m_stdout_bytes m) (m_stdout_digest m) (m_upload_started_at m) (m_upload_completed_at m)
    (m_digest_source m).

Definition m_set_symlinks (m : Manifest) (symlinks : list ManifestSymlink) : Manifest :=
  mkManifest (m_files m) symlinks (m_exit_code m) (m_stderr_bytes m) (m_stderr_digest m)
    (m_stdout_bytes m) (m_stdout_digest m) (m_upload_started_at m) (m_upload_completed_at m)
    (m_digest_source m).

Definition m_set_uploaded (m : Manifest) (started completed : option Z) : Manifest :=
  mkManifest (m_files m) (m_symlinks m) (m_exit_code m) (m_stderr_bytes m) (m_stderr_digest m)
    (m_stdout_bytes m) (m_stdout_digest m) started completed (m_digest_source m).

(** What is left of a file and a manifest that were serialized: the fields
    marked [serde(skip)] are gone. *)
Definition mf_persisted (f : ManifestFile) : ManifestFile :=
  mkManifestFile None (mf_digest f) (mf_is_executable f) (mf_modified_at f) (mf_path f) None
    (mf_unix_mode f).

Definition m_persisted (m : Manifest) : Manifest :=
  mkManifest (mf_persisted <$> m_files m) (m_symlinks m) (m_exit_code m) None (m_stderr_digest m)
    None (m_stdout_digest m) (m_upload_started_at m) (m_upload_completed_at m) None.

(** ** Hydration *)

(** A digest of something: an empty content has no blob. *)
Definition wanted (digest : option Digest) : option Digest :=
  digest ← digest; if (0 <? digest_size digest)%Z then Some digest else None.

Section Hydrate.
Context {R : Type}.
Implicit Types (m : Manifest) (blobs : gmap Digest BlobContent).

(** The captured output of a stream. *)
Definition hydrate_stdio (bytes : option string) (digest : option Digest) blobs :
  stateful (World R) (option string) :=
  match bytes, digest ≫= (blobs !!.) with
  | None, Some content => bytes ← blob_read_bytes content; mret (Some bytes)
  | _, _ => mret bytes
  end.

Definition hydrate_file blobs (f : ManifestFile) : ManifestFile :=
  match mf_bytes f, mf_source_path f with
  | None, None =>
      match mf_digest f ≫= (blobs !!.) with
      | Some (BlobFile path) =>
          mkManifestFile (mf_bytes f) (mf_digest f) (mf_is_executable f) (mf_modified_at f)
            (mf_path f) (Some path) (mf_unix_mode f)
      | Some (Inline bytes) =>
          mkManifestFile (Some bytes) (mf_digest f) (mf_is_executable f) (mf_modified_at f)
            (mf_path f) (mf_source_path f) (mf_unix_mode f)
      | None => f
      end
  | _, _ => f
  end.

(** [Manifest::hydrate] *)
Definition Manifest_hydrate m blobs : stateful (World R) Manifest :=
  stderr_bytes ← hydrate_stdio (m_stderr_bytes m) (m_stderr_digest m) blobs;
  stdout_bytes ← hydrate_stdio (m_stdout_bytes m) (m_stdout_digest m) blobs;
  mret (mkManifest (hydrate_file blobs <$> m_files m) (m_symlinks m) (m_exit_code m)
    stderr_bytes (m_stderr_digest m) stdout_bytes (m_stdout_digest m)
    (m_upload_started_at m) (m_upload_completed_at m) (m_digest_source m)).

Definition resolved (bytes : option string) (digest : option Digest) : bool :=
  match bytes, digest with
  | Some _, _ | _, None => true
  | None, Some digest => (digest_size digest =? 0)%Z
  end.

Definition is_file_hydrated (f : ManifestFile) : bool :=
  match mf_source_path f with Some _ => true | None => resolved (mf_bytes f) (mf_digest f) end.

(** [Manifest::is_hydrated] *)
Definition is_hydrated m : bool :=
  resolved (m_stderr_bytes m) (m_stderr_digest m) &&
  resolved (m_stdout_bytes m) (m_stdout_digest m) &&
  forallb is_file_hydrated (m_files m).

(** [Manifest::collect_unhydrated_blob_digests] *)
Definition collect_unhydrated_blob_digests m : list Digest :=
  (match m_stderr_bytes m with None => option_list (wanted (m_stderr_digest m)) | Some _ => [] end ++
   match m_stdout_bytes m with None => option_list (wanted (m_stdout_digest m)) | Some _ => [] end ++
   m_files m ≫= λ f,
     match mf_bytes f with None => option_list (wanted (mf_digest f)) | Some _ => [] end)%list.

(** [Manifest::collect_blob_digests] *)
Definition collect_blob_digests m : list Digest :=
  (option_list (wanted (m_stderr_digest m)) ++ option_list (wanted (m_stdout_digest m)) ++
   m_files m ≫= λ f, option_list (wanted (mf_digest f)))%list.
End Hydrate.

(** ** Paths of the workspace

[RelativePath::to_logical_path], [to_path], [starts_with] and [relative_to] of the
crate [relative_path]. *)
Class RelativePathLib : Type := {
  to_logical_path : WorkspaceRelativePath → Path → Path;
  to_path : WorkspaceRelativePath → Path → Path;
  rel_starts_with : WorkspaceRelativePath → WorkspaceRelativePath → bool;
  path_relative_to : Path → Path → result WorkspaceRelativePath;
}.

(** What it documents: [..] pops a component of the base in [to_logical_path],
    without one the paths are appended, a path starts with what
    comes before one of its separators, and a path below the base is relative to it by what follows
    the base. *)
Definition logical_step (base : Path) (part : string) : Path :=
  if decide (part = ".") then base
  else if decide (part = "..") then path_pop base
  else (base ++ [part])%list.

Class RelativePathLaws (L : RelativePathLib) : Prop := {
  to_logical_path_parts : ∀ rel base, starts_with "/" rel = false →
    to_logical_path rel base = fold_left logical_step (path_components rel) base;
  to_path_plain : ∀ rel base, starts_with "/" rel = false → Forall plain_part (path_components rel) →
    to_path rel base = (base ++ path_components rel)%list;
  rel_starts_with_below : ∀ base rest, rel_starts_with (base ++ "/" ++ rest) base = true;
  path_relative_to_below : ∀ base rest, Forall plain_part rest →
    ∃ rel, path_relative_to (base ++ rest)%list base = Ok rel ∧ starts_with "/" rel = false ∧
      path_components rel = rest;
}.

(** [Manifest::collect_blob_inputs] *)
Definition collect_file `{RelativePathLib} (workspace_root : Path) (f : ManifestFile) : option BlobInput :=
  digest ← mf_digest f;
  Some (mkBlobInput
    (if (digest_size digest =? 0)%Z then Inline ""
     else match mf_bytes f, mf_source_path f with
          | Some bytes, _ => Inline bytes
          | None, Some source => BlobFile source
          | None, None => BlobFile (to_logical_path (mf_path f) workspace_root)
          end) digest).

Definition collect_stdio (digest : option Digest) (bytes : option string) : option BlobInput :=
  digest ← digest; bytes ← bytes; Some (mkBlobInput (Inline bytes) digest).

Definition collect_blob_inputs `{RelativePathLib} (m : Manifest) (workspace_root : Path) :
  list BlobInput :=
  (option_list (m_digest_source m ≫= collect_file workspace_root) ++
   omap (collect_file workspace_root) (m_files m) ++
   option_list (collect_stdio (m_stderr_digest m) (m_stderr_bytes m)) ++
   option_list (collect_stdio (m_stdout_digest m) (m_stdout_bytes m)))%list.

(** ** Packing ([manifest_packer.rs]) *)

(** [glob::walk_fast_with_options(dir, ["**/*"], files)] of [starbase_utils]. *)
Class DirWalk : Type := {
  walk_dir : FileSystem → Path → list Path;
}.

(** [is_file_executable], on Unix ([helpers.rs]). *)
Definition is_file_executable (mode : Z) : bool := negb (Z.eqb (Z.land mode 73) 0).

Section Packer.
Context `{Sha256, RelativePathLib, DirWalk} {R : Type} (workspace_root : Path).
Implicit Types (m : Manifest).

(** [ManifestPacker::resolve_rel_path] *)
Definition resolve_rel_path (abs_path : Path) : result WorkspaceRelativePath :=
  match path_relative_to abs_path workspace_root with
  | Ok rel_path => Ok rel_path
  | _ => Err (RManifest (OutputFileOutsideOfWorkspace (path_display abs_path)))
  end.

(** [ManifestPacker::inherit_source] *)
Definition inherit_source m (digest : Digest) (path : Path) : stateful (World R) Manifest :=
  with_state (λ w,
    if path_exists (w_fs w) path then
      rel_path ← pure_result (resolve_rel_path path);
      mret (mkManifest (m_files m) (m_symlinks m) (m_exit_code m) (m_stderr_bytes m)
        (m_stderr_digest m) (m_stdout_bytes m) (m_stdout_digest m) (m_upload_started_at m)
        (m_upload_completed_at m)
        (Some (mkManifestFile None (Some digest) false None rel_path (Some path) None)))
    else mret m).

(** [ManifestPacker::inherit_operation] *)
Definition pack_stdio (output : option string) : result (option string * option Digest) :=
  match output with
  | Some output => let? blob := Blob_from_bytes output in Ok (Some (blob_bytes blob), Some (blob_digest blob))
  | None => Ok (None, None)
  end.

Definition inherit_operation m (operation : Operation) : result Manifest :=
  match get_exec_output operation with
  | Some exec =>
      let? '(stderr_bytes, stderr_digest) := pack_stdio (out_stderr exec) in
      let? '(stdout_bytes, stdout_digest) := pack_stdio (out_stdout exec) in
      Ok (mkManifest (m_files m) (m_symlinks m) (default 0%Z (out_exit_code exec))
        (match stderr_bytes with Some _ => stderr_bytes | None => m_stderr_bytes m end)
        (match stderr_digest with Some _ => stderr_digest | None => m_stderr_digest m end)
        (match stdout_bytes with Some _ => stdout_bytes | None => m_stdout_bytes m end)
        (match stdout_digest with Some _ => stdout_digest | None => m_stdout_digest m end)
        (m_upload_started_at m) (m_upload_completed_at m) (m_digest_source m))
  | None => Ok m
  end.

(** [ManifestPacker::insert_file] *)
Definition insert_file m (abs_path : Path) : stateful (World R) Manifest :=
  '(_, mode, mtime) ← fs_metadata abs_path;
  digest ← Digest_from_file abs_path;
  rel_path ← pure_result (resolve_rel_path abs_path);
  mret (m_set_files m (m_files m ++
    [mkManifestFile None (Some digest) (is_file_executable mode) (Some mtime) rel_path
       (Some abs_path) (Some mode)])%list).

(** [ManifestPacker::insert_symlink] *)
Definition insert_symlink m (abs_path : Path) : stateful (World R) Manifest :=
  with_state (λ w,
    match w_fs w !! abs_path with
    | Some (LinkNode link) =>
        if path_has_prefix workspace_root link then
          '(_, mode, mtime) ← fs_metadata abs_path;
          rel_path ← pure_result (resolve_rel_path abs_path);
          target ← pure_result (resolve_rel_path link);
          mret (m_set_symlinks m (m_symlinks m ++
            [mkManifestSymlink (Some mtime) rel_path target (Some mode)])%list)
        else
          pure_result (Err (RManifest (OutputSymlinkOutsideOfWorkspace
            (path_display abs_path) (path_display link))))
    | _ => pure_result (not_found abs_path)
    end).

(** [ManifestPacker::insert_dir] *)
Definition insert_dir m (abs_path : Path) : stateful (World R) Manifest :=
  with_state (λ w, stateful_fold insert_file m (walk_dir (w_fs w) abs_path)).

(** [ManifestPacker::inherit_output] *)
Definition inherit_output m (abs_path : Path) : stateful (World R) Manifest :=
  if path_has_prefix workspace_root abs_path then
    with_state (λ w,
      if is_symlink (w_fs w) abs_path then insert_symlink m abs_path
      else if is_file (w_fs w) abs_path then insert_file m abs_path
      else if is_dir (w_fs w) abs_path then insert_dir m abs_path
      else mret m)
  else pure_result (Err (RManifest (OutputFileOutsideOfWorkspace (path_display abs_path)))).
End Packer.

(** ** Unpacking ([manifest_unpacker.rs]) *)

Section Unpacker.
Context `{RelativePathLib} {R : Type} (workspace_root : Path).

(** [ManifestUnpacker::resolve_abs_path] *)
Definition resolve_abs_path (rel_path : WorkspaceRelativePath) : result Path :=
  if is_absolute (path_components rel_path) then
    Err (RManifest (OutputFileOutsideOfWorkspace rel_path))
  else
    let output_path := clean_components (to_logical_path rel_path workspace_root) in
    if path_has_prefix workspace_root output_path then Ok output_path
    else Err (RManifest (OutputFileOutsideOfWorkspace (path_display output_path))).

(** [ManifestUnpacker::write_output_file] *)
Definition write_output_file (output_path : Path) (f : ManifestFile) : stateful (World R) unit :=
  match mf_source_path f with
  | Some source => reflink_file source output_path;; grant_owner_write_access output_path
  | None => fs_write_file output_path (default "" (mf_bytes f))
  end;;
  match mf_modified_at f with Some modified => set_modified output_path modified | None => mret tt end;;
  match mf_unix_mode f with Some mode => set_permissions output_path mode | None => mret tt end.

Definition unpack_file (_ : unit) (f : ManifestFile) : stateful (World R) unit :=
  match mf_digest f with
  | None => mret tt
  | Some _ =>
      output_path ← pure_result (resolve_abs_path (mf_path f));
      write_output_file output_path f
  end.

(** [link_output_file], and the loop over the links. *)
Definition unpack_symlink (_ : unit) (link : ManifestSymlink) : stateful (World R) unit :=
  output_path ← pure_result (resolve_abs_path (ms_path link));
  target ← pure_result (map_err
    (λ _, RManifest (OutputSymlinkOutsideOfWorkspace (path_display output_path) (ms_target link)))
    (resolve_abs_path (ms_target link)));
  fs_symlink target output_path.

(** [ManifestUnpacker::unpack] *)
Definition Manifest_unpack (m : Manifest) : stateful (World R) unit :=
  stateful_fold unpack_file tt (m_files m);;
  stateful_fold unpack_symlink tt (m_symlinks m).
End Unpacker.

(** ** Action results ([manifest.rs], [helpers.rs], [hash/src/digest_compat.rs])

The messages of the remote execution API, with the fields that moon uses. *)

Record Timestamp : Type := mkTimestamp { ts_seconds : Z; ts_nanos : Z }.

Record ExternalDigest : Type := mkExternalDigest { ext_hash : string; ext_size_bytes : Z }.

Record NodeProperties : Type := mkNodeProperties {
  np_mtime : option Timestamp;
  np_unix_mode : option Z;
}.

Record OutputFile : Type := mkOutputFile {
  of_contents : string;
  of_digest : option ExternalDigest;
  of_is_executable : bool;
  of_path : string;
  of_node_properties : option NodeProperties;
}.

Record OutputSymlink : Type := mkOutputSymlink {
  os_path : string;
  os_target : string;
  os_node_properties : option NodeProperties;
}.

Record ExecutedActionMetadata : Type := mkExecutedActionMetadata {
  em_upload_completed : option Timestamp;
  em_upload_start : option Timestamp;
}.

Record ActionResult : Type := mkActionResult {
  ar_output_files : list OutputFile;
  ar_output_symlinks : list OutputSymlink;
  ar_exit_code : Z;
  ar_stderr_digest : option ExternalDigest;
  ar_stderr_raw : string;
  ar_stdout_digest : option ExternalDigest;
  ar_stdout_raw : string;
  ar_execution_metadata : option ExecutedActionMetadata;
}.

Definition nanos_per_sec : Z := 1000000000.

(** [create_timestamp]: none before the epoch. *)
Definition create_timestamp (time : Z) : option Timestamp :=
  if (time <? 0)%Z then None
  else Some (mkTimestamp (time / nanos_per_sec) (time mod nanos_per_sec)).

(** [create_from_timestamp] *)
Definition create_from_timestamp (t : Timestamp) : Z :=
  (ts_seconds t * nanos_per_sec + ts_nanos t)%Z.

(** [to_external_digest], [to_internal_digest] *)
Definition to_external_digest (d : Digest) : ExternalDigest :=
  mkExternalDigest (digest_hash d) (digest_size d).

Definition to_internal_digest (d : ExternalDigest) : result Digest :=
  let? hash := ContentHash_from_hex (ext_hash d) in Ok (mkDigest hash (ext_size_bytes d)).

Definition internal_digest_opt (d : option ExternalDigest) : result (option Digest) :=
  match d with
  | Some digest => let? digest := to_internal_digest digest in Ok (Some digest)
  | None => Ok None
  end.

(** [NodeProperties::default], where a message has none. *)
Definition props_of (props : option NodeProperties) : NodeProperties :=
  default (mkNodeProperties None None) props.

Definition into_props (mtime : option Z) (unix_mode : option Z) : NodeProperties :=
  mkNodeProperties (mtime ≫= create_timestamp) unix_mode.

(** [ManifestFile::from_bazel_file], [into_bazel_file] *)
Definition from_bazel_file (file : OutputFile) : result ManifestFile :=
  let props := props_of (of_node_properties file) in
  let bytes :=
    match of_digest file with
    | Some _ => if decide (of_contents file = "") then None else Some (of_contents file)
    | None => None
    end in
  let? digest := internal_digest_opt (of_digest file) in
  Ok (mkManifestFile bytes digest (of_is_executable file) (create_from_timestamp <$> np_mtime props)
        (of_path file) None (np_unix_mode props)).

Definition into_bazel_file (f : ManifestFile) : OutputFile :=
  mkOutputFile (default "" (mf_bytes f)) (to_external_digest <$> mf_digest f) (mf_is_executable f)
    (mf_path f) (Some (into_props (mf_modified_at f) (mf_unix_mode f))).

(** [ManifestSymlink::from_bazel_symlink], [into_bazel_symlink] *)
Definition from_bazel_symlink (file : OutputSymlink) : ManifestSymlink :=
  let props := props_of (os_node_properties file) in
  mkManifestSymlink (create_from_timestamp <$> np_mtime props) (os_path file) (os_target file)
    (np_unix_mode props).

Definition into_bazel_symlink (l : ManifestSymlink) : OutputSymlink :=
  mkOutputSymlink (ms_path l) (ms_target l) (Some (into_props (ms_modified_at l) (ms_unix_mode l))).

(** [Manifest::from_bazel_action_result] *)
Definition from_bazel_action_result (result : ActionResult) : outcome Report Manifest :=
  let metadata := default (mkExecutedActionMetadata None None) (ar_execution_metadata result) in
  let? files := omap_list from_bazel_file (ar_output_files result) in
  let symlinks := from_bazel_symlink <$> ar_output_symlinks result in
  let? stderr_digest := internal_digest_opt (ar_stderr_digest result) in
  let? stdout_digest := internal_digest_opt (ar_stdout_digest result) in
  Ok (mkManifest files symlinks (ar_exit_code result)
    (if decide (ar_stderr_raw result = "") then None else Some (ar_stderr_raw result)) stderr_digest
    (if decide (ar_stdout_raw result = "") then None else Some (ar_stdout_raw result)) stdout_digest
    (create_from_timestamp <$> em_upload_start metadata)
    (create_from_timestamp <$> em_upload_completed metadata) None).

(** [Manifest::into_bazel_action_result] *)
Definition into_bazel_action_result (m : Manifest) (persist_stdio : bool) : ActionResult :=
  mkActionResult (into_bazel_file <$> m_files m) (into_bazel_symlink <$> m_symlinks m) (m_exit_code m)
    (to_external_digest <$> m_stderr_digest m)
    (if persist_stdio then default "" (m_stderr_bytes m) else "")
    (to_external_digest <$> m_stdout_digest m)
    (if persist_stdio then default "" (m_stdout_bytes m) else "")
    (Some (mkExecutedActionMetadata (m_upload_completed_at m ≫= create_timestamp)
             (m_upload_started_at m ≫= create_timestamp))).
