(* ===== verification/CacheStorage.v ===== *)
(** * The cache storage ([crates/cache-storage], [crates/cache-local])

Manifests and blobs are kept in a list of backends, local ones before remote
ones.  [StorageBackend] is the interface of a backend; [LocalStorage] implements
it on two content-addressable stores, the remote services are parameters.
Requests are split into batches. *)

From S2P Require Import Prelude Errors FileSystem Target GraphUtils Shapes Config Affected Action Blobs Manifest.

#[local] Open Scope string_scope.

(** ** Batches ([helpers.rs]) *)

Record Batch (T : Type) : Type := mkBatch {
  batch_items : list T;
  batch_size : Z;
  batch_stream : bool;
  batch_index : nat;
  batch_total : nat;
}.
#[global] Arguments mkBatch {T}.
#[global] Arguments batch_items {T}.
#[global] Arguments batch_size {T}.
#[global] Arguments batch_stream {T}.
#[global] Arguments batch_index {T}.
#[global] Arguments batch_total {T}.

Definition BUFFER : Z := 300.
Definition CHUNK_TARGET_SIZE : nat := 100.
Definition BLOCKING_THREAD_COUNT : nat := 512.

(** [a.div_ceil(b)] *)
Definition div_ceil (a b : nat) : nat := (a + (b - 1)) / b.

Section Batches.
Context {T : Type} (get_size : T → Z).
Implicit Types (items : list T) (batches : list (Batch T)).

(** The order of [sort_unstable_by_key(Reverse(size))]. *)
Definition larger (x y : T) : Prop := (get_size y <= get_size x)%Z.

#[export] Instance larger_dec x y : Decision (larger x y).
Proof. unfold larger. apply _. Defined.

Definition batch_add (batch : Batch T) (item : T) (item_size : Z) : Batch T :=
  mkBatch (batch_items batch ++ [item])%list (batch_size batch + item_size) (batch_stream batch)
    (batch_index batch) (batch_total batch).

(** Into the first batch with room, or into a new one. *)
Fixpoint place_item (max_size item_size : Z) (item : T) batches : list (Batch T) :=
  match batches with
  | [] => [mkBatch [item] item_size false 0 0]
  | batch :: batches' =>
      if negb (batch_stream batch) && (batch_size batch + item_size <=? max_size)%Z then
        batch_add batch item item_size :: batches'
      else batch :: place_item max_size item_size item batches'
  end.

Definition partition_step (max_size : Z) batches (item : T) : list (Batch T) :=
  let item_size := (get_size item + BUFFER)%Z in
  if (max_size <=? item_size)%Z then (batches ++ [mkBatch [item] item_size true 0 0])%list
  else place_item max_size item_size item batches.

(** [batch.index = index + 1; batch.total = total] *)
Definition number_batches batches : list (Batch T) :=
  imap (λ index batch, mkBatch (batch_items batch) (batch_size batch) (batch_stream batch)
    (index + 1) (length batches)) batches.

(** [partition_into_batches] *)
Definition partition_into_batches items (max_size : Z) : list (Batch T) :=
  number_batches (fold_left (partition_step max_size) (merge_sort larger items) []).

(** The loop of [chunk_into_batches]: every round takes at least one item. *)
Fixpoint chunks (fuel chunk_size : nat) items : list (Batch T) :=
  match fuel, items with
  | S fuel', _ :: _ =>
      let chunk := take (chunk_size `min` length items) items in
      mkBatch chunk (foldr Z.add 0%Z (get_size <$> chunk)) false 0 0 ::
      chunks fuel' chunk_size (drop (chunk_size `min` length items) items)
  | _, _ => []
  end.

(** [chunk_into_batches] *)
Definition chunk_into_batches items : list (Batch T) :=
  let len := length items in
  if decide (len = 0) then []
  else
    let batch_count := (div_ceil len CHUNK_TARGET_SIZE) `min` BLOCKING_THREAD_COUNT in
    let chunk_size := div_ceil len batch_count in
    number_batches (chunks len chunk_size items).

(** [create_batches].  Sizes are integers: the cast of the [u64] of a digest to a
    [usize] keeps them where pointers have 64 bits. *)
Definition create_batches items (max_size : Z) : list (Batch T) :=
  if (0 <? max_size)%Z then partition_into_batches items max_size else chunk_into_batches items.
End Batches.

(** ** Backends ([storage_backend.rs]) *)

(** The trait, with the fields of its capabilities that are read. *)
Record StorageBackend (R : Type) : Type := mkStorageBackend {
  b_id : Id;
  b_max_batch_total_size_bytes : Z;
  b_store_manifests : bool;
  b_readable : bool;
  b_writable : bool;
  b_retrieve_manifest : Digest → stateful (World R) (option Manifest);
  b_store_manifest : Digest → Manifest → stateful (World R) unit;
  b_find_missing_blobs : list Digest → stateful (World R) (list Digest);
  b_store_blobs : list BlobInput → bool → stateful (World R) (list Digest);
  b_retrieve_blobs : list Digest → bool → stateful (World R) (list BlobOutput);
}.
#[global] Arguments mkStorageBackend {R}.
#[global] Arguments b_id {R}.
#[global] Arguments b_max_batch_total_size_bytes {R}.
#[global] Arguments b_store_manifests {R}.
#[global] Arguments b_readable {R}.
#[global] Arguments b_writable {R}.
#[global] Arguments b_retrieve_manifest {R}.
#[global] Arguments b_store_manifest {R}.
#[global] Arguments b_find_missing_blobs {R}.
#[global] Arguments b_store_blobs {R}.
#[global] Arguments b_retrieve_blobs {R}.

Record StoreResult : Type := mkStoreResult {
  st_digests : list Digest;
  st_store_count : nat;
  st_stored_count : nat;
  st_missing_count : nat;
  st_success : bool;
}.

Record RetrieveResult : Type := mkRetrieveResult {
  rt_blobs : list BlobOutput;
  rt_retrieve_count : nat;
  rt_retrieved_count : nat;
  rt_success : bool;
}.

(** [match m { Ok(..) => .., Err(..) => .. }]: the error is a value. *)
Definition attempt {S A} (m : stateful S A) : stateful S (result A) := λ s,
  let '(r, s') := m s in (Ok r, s').

(** [check_blob_integrity] ([helpers.rs]) *)
Definition check_blob_integrity `{Sha256} (expected_digest : Digest) (bytes : string) : result bool :=
  if decide (Z.of_nat (String.length bytes) ≠ digest_size expected_digest) then Ok false
  else
    let? actual_digest := Digest_from_bytes bytes in
    Ok (bool_decide (actual_digest = expected_digest)).

Section Backends.
Context {R : Type}.
Implicit Types (b : StorageBackend R).

(** The batches of a request, joined in the order they were spawned in: what
    arrived, and whether a batch failed. *)
Fixpoint join_batches {A B} (run : Batch A → stateful (World R) (list B)) (batches : list (Batch A)) :
  stateful (World R) (list B * bool) :=
  match batches with
  | [] => mret ([], false)
  | batch :: batches' =>
      r ← attempt (run batch);
      '(rest, failed) ← join_batches run batches';
      mret (match r with Ok items => (items ++ rest, failed) | _ => (rest, true) end)%list
  end.

(** [find_missing_blobs_batched]; the size of a digest is the length of its hash. *)
Definition find_missing_blobs_batched b (blob_digests : list Digest) : stateful (World R) (list Digest) :=
  stateful_fold (λ missing batch,
      found ← b_find_missing_blobs b (batch_items batch);
      mret (missing ++ found)%list) []
    (create_batches (λ digest, Z.of_nat (String.length (digest_hash digest))) blob_digests
       (b_max_batch_total_size_bytes b)).

(** [blob_inputs.retain(|input| seen.insert(input.digest))] *)
Fixpoint dedup_inputs (seen : gset Digest) (inputs : list BlobInput) : list BlobInput :=
  match inputs with
  | [] => []
  | input :: inputs' =>
      if decide (input_digest input ∈ seen) then dedup_inputs seen inputs'
      else input :: dedup_inputs ({[input_digest input]} ∪ seen) inputs'
  end.

(** [store_blobs_batched] *)
Definition store_blobs_batched b (blob_inputs : list BlobInput) : stateful (World R) StoreResult :=
  let blob_inputs := dedup_inputs ∅ blob_inputs in
  let store_count := length blob_inputs in
  missing ← attempt (find_missing_blobs_batched b (input_digest <$> blob_inputs));
  match missing with
  | Ok [] => mret (mkStoreResult (input_digest <$> blob_inputs) store_count store_count 0 true)
  | Ok missing_digests =>
      let missing_count := length missing_digests in
      let blob_inputs := filter (λ source, input_digest source ∈ missing_digests) blob_inputs in
      '(uploaded_digests, failed) ←
        join_batches (λ batch, b_store_blobs b (batch_items batch) (batch_stream batch))
          (create_batches (λ source, digest_size (input_digest source)) blob_inputs
             (b_max_batch_total_size_bytes b));
      let stored_count := length uploaded_digests in
      mret (mkStoreResult uploaded_digests store_count stored_count missing_count
        (negb failed && Nat.eqb stored_count missing_count))
  | _ => mret (mkStoreResult [] store_count 0 0 false)
  end.

(** [retrieve_blobs_batched] *)
Definition retrieve_blobs_batched b (blob_digests : list Digest) : stateful (World R) RetrieveResult :=
  '(blobs, failed) ←
    join_batches (λ batch, b_retrieve_blobs b (batch_items batch) (batch_stream batch))
      (create_batches digest_size blob_digests (b_max_batch_total_size_bytes b));
  mret (mkRetrieveResult blobs (length blob_digests) (length blobs)
    (negb failed && Nat.eqb (length blobs) (length blob_digests))).
End Backends.

(** ** The storage ([storage.rs]) *)

Record StorageOptions : Type := mkStorageOptions {
  only_backends : list Id;
  include_local : bool;
  include_remote : bool;
}.

(** [StorageOptions { include_local, include_remote, ..Default::default() }] *)
Definition include_only (include_local include_remote : bool) : StorageOptions :=
  mkStorageOptions [] include_local include_remote.

(** [Storage], without the tasks it runs in the background. *)
Record Storage (R : Type) : Type := mkStorage {
  local_backends : list (StorageBackend R);
  remote_backends : list (StorageBackend R);
  storage_options : StorageOptions;
}.
#[global] Arguments mkStorage {R}.
#[global] Arguments local_backends {R}.
#[global] Arguments remote_backends {R}.
#[global] Arguments storage_options {R}.

Record ManifestSource (R : Type) : Type := mkManifestSource {
  source_backend : StorageBackend R;
  source_manifest : Manifest;
  source_remote : bool;
}.
#[global] Arguments mkManifestSource {R}.
#[global] Arguments source_backend {R}.
#[global] Arguments source_manifest {R}.
#[global] Arguments source_remote {R}.

(** [Storage::is_remote_enabled] *)
Definition Storage_is_remote_enabled {R} (s : Storage R) : bool :=
  match remote_backends s with [] => false | _ => true end.

Section Storage.
Context `{RelativePathLib} {R : Type} (workspace_root : Path).
Implicit Types (s : Storage R) (b : StorageBackend R).

(** Tasks that were spawned and run until the storage is flushed. *)
Abbreviation Background := (list (stateful (World R) unit)).

(** [Storage::with_options] *)
Definition with_options s (options : StorageOptions) : Storage R :=
  mkStorage (local_backends s) (remote_backends s) options.

(** [Storage::get_backends_with_options] *)
Definition get_backends_with_options s (options : StorageOptions) : list (StorageBackend R) :=
  let backends :=
    ((if include_local options then local_backends s else []) ++
     (if include_remote options then remote_backends s else []))%list in
  match only_backends options with
  | [] => backends
  | only => filter (λ backend, b_id backend ∈ only) backends
  end.

Definition get_backends s : list (StorageBackend R) := get_backends_with_options s (storage_options s).

(** [Storage::get_local_backends] *)
Definition get_local_backends s : list (StorageBackend R) :=
  get_backends_with_options s
    (mkStorageOptions (only_backends (storage_options s)) (include_local (storage_options s)) false).

(** [Storage::load_manifest] *)
Fixpoint load_manifest_from s (digest : Digest) (backends : list (StorageBackend R)) :
  stateful (World R) (option (ManifestSource R)) :=
  match backends with
  | [] => mret None
  | backend :: backends' =>
      if b_readable backend then
        manifest ← b_retrieve_manifest backend digest;
        match manifest with
        | Some manifest =>
            mret (Some (mkManifestSource backend manifest
              (existsb (λ remote, bool_decide (b_id remote = b_id backend)) (remote_backends s))))
        | None => load_manifest_from s digest backends'
        end
      else load_manifest_from s digest backends'
  end.

Definition load_manifest s (digest : Digest) : stateful (World R) (option (ManifestSource R)) :=
  load_manifest_from s digest (get_backends s).

(** [persist_manifest_in_backend]: the blobs before the manifest. *)
Definition persist_manifest_in_backend b (digest : Digest) (manifest : Manifest) :
  stateful (World R) unit :=
  let store_manifest manifest :=
    if b_store_manifests b then attempt (b_store_manifest b digest manifest);; mret tt else mret tt in
  match collect_blob_inputs manifest workspace_root with
  | [] => store_manifest manifest
  | blob_inputs =>
      with_state (λ before,
        stored ← store_blobs_batched b blob_inputs;
        with_state (λ after,
          if st_success stored then
            store_manifest (m_set_uploaded manifest (Some (w_now before)) (Some (w_now after)))
          else mret tt))
  end.

(** [Storage::archive_manifest]: in the background, except in the daemon, where the
    first failure is returned. *)
Definition archive_manifest s (in_daemon : bool) (digest : Digest) (manifest : Manifest) :
  stateful (World R) Background :=
  let futures :=
    (λ b, persist_manifest_in_backend b digest manifest) <$>
      filter (λ b, b_writable b = true) (get_backends s) in
  if in_daemon then stateful_fold (λ _ future, future) tt futures;; mret []
  else mret futures.

(** [hydrate_manifest_from_backend] *)
Definition hydrate_manifest_from_backend b (manifest : Manifest) :
  stateful (World R) (gmap Digest BlobContent * Manifest) :=
  received ← retrieve_blobs_batched b (collect_unhydrated_blob_digests manifest);
  let blobs_map : gmap Digest BlobContent :=
    fold_left (λ m blob, <[output_digest blob := output_content blob]> m) (rt_blobs received) ∅ in
  manifest ← Manifest_hydrate manifest blobs_map;
  mret (blobs_map, manifest).

(** [hydrate_manifest_from_backend_and_copy_to_original] *)
Definition hydrate_and_copy original_backend b (manifest : Manifest) : stateful (World R) Manifest :=
  let unhydrated_digests := collect_unhydrated_blob_digests manifest in
  '(blobs_map, manifest) ← hydrate_manifest_from_backend b manifest;
  let blob_inputs := omap (λ digest,
    content ← blobs_map !! digest; Some (mkBlobInput content digest)) unhydrated_digests in
  match blob_inputs with
  | [] => mret manifest
  | _ => if b_writable original_backend then
           store_blobs_batched original_backend blob_inputs;; mret manifest
         else mret manifest
  end.

(** The loop over the other backends. *)
Fixpoint hydrate_from_others original_backend (backends : list (StorageBackend R))
    (manifest : Manifest) : stateful (World R) Manifest :=
  if is_hydrated manifest then mret manifest
  else match backends with
  | [] => mret manifest
  | backend :: backends' =>
      if negb (b_readable backend) || bool_decide (b_id backend = b_id original_backend) then
        hydrate_from_others original_backend backends' manifest
      else
        manifest ← hydrate_and_copy original_backend backend manifest;
        hydrate_from_others original_backend backends' manifest
  end.

(** [Storage::warm_local_backends] *)
Definition warm_local_backends s (digest : Digest) (manifest : Manifest) : Background :=
  (λ b, persist_manifest_in_backend b digest manifest) <$>
    filter (λ b, b_writable b = true) (get_local_backends s).

(** [Storage::hydrate_manifest] *)
Definition hydrate_manifest s (digest : Digest) (source : ManifestSource R) :
  stateful (World R) (option Manifest * Background) :=
  '(_, manifest) ← hydrate_manifest_from_backend (source_backend source) (source_manifest source);
  manifest ← hydrate_from_others (source_backend source) (get_backends s) manifest;
  mret (if is_hydrated manifest then
          (Some manifest, if source_remote source then warm_local_backends s digest manifest else [])
        else (None, [])).

(** [Storage::wait_for_background_tasks], where they end in time: failures are
    swallowed. *)
Fixpoint wait_for_background_tasks (tasks : Background) : stateful (World R) unit :=
  match tasks with
  | [] => mret tt
  | task :: tasks' => attempt task;; wait_for_background_tasks tasks'
  end.
End Storage.

(** ** The local backend ([local_storage.rs]) *)

(** [serde_json::to_vec], [serde_json::from_slice] of a manifest. *)
Class ManifestJson : Type := {
  manifest_to_json : Manifest → string;
  manifest_from_json : string → result Manifest;
}.

(** What they document: a value is read back, without the fields that are
    skipped. *)
Class ManifestJsonLaws (J : ManifestJson) : Prop := {
  manifest_json_roundtrip : ∀ m, manifest_from_json (manifest_to_json m) = Ok (m_persisted m);
}.

Record LocalStorage : Type := mkLocalStorage {
  ls_id : Id;
  ls_blobs : CasStore;
  ls_manifests : CasStore;
}.

(** [LocalStorage::new], on a cache directory with the current structure. *)
Definition LocalStorage_new (cache_dir : Path) (shared cas_verify_integrity : bool) : LocalStorage :=
  mkLocalStorage (if shared then "shared-local-cache" else "local-cache")
    (mkCasStore (cache_dir ++ ["blobs"])%list cas_verify_integrity)
    (mkCasStore (cache_dir ++ ["manifests"])%list false).

Section Local.
Context `{Sha256, ManifestJson} {R : Type}.
Implicit Types (l : LocalStorage).

Definition local_retrieve_manifest l (digest : Digest) : stateful (World R) (option Manifest) :=
  with_state (λ w,
    if contains_object (w_fs w) (ls_manifests l) (digest_hash digest) then
      blob ← cas_read (ls_manifests l) (digest_hash digest);
      manifest ← pure_result (manifest_from_json blob);
      attempt (cas_touch (ls_manifests l) (digest_hash digest));;
      mret (Some manifest)
    else mret None).

Definition local_store_manifest l (digest : Digest) (manifest : Manifest) : stateful (World R) unit :=
  with_state (λ w,
    if contains_object (w_fs w) (ls_manifests l) (digest_hash digest) then mret tt
    else
      blob ← pure_result (Blob_from_bytes (manifest_to_json manifest));
      _ ← cas_write (ls_manifests l) (digest_hash digest) (blob_bytes blob);
      mret tt).

Definition local_find_missing_blobs l (blob_digests : list Digest) : stateful (World R) (list Digest) :=
  with_state (λ w,
    mret (filter (λ digest, contains_object (w_fs w) (ls_blobs l) (digest_hash digest) = false)
      blob_digests)).

Definition local_retrieve_blobs l (blob_digests : list Digest) (stream : bool) :
  stateful (World R) (list BlobOutput) :=
  with_state (λ w,
    mret (omap (λ digest,
      if contains_object (w_fs w) (ls_blobs l) (digest_hash digest) then
        Some (mkBlobOutput (BlobFile (object_path (ls_blobs l) (digest_hash digest))) digest)
      else None) blob_digests)).

Definition local_store_blob l (digests : list Digest) (input : BlobInput) : stateful (World R) (list Digest) :=
  stored ← match input_content input with
           | BlobFile abs_path => cas_write_file (ls_blobs l) (digest_hash (input_digest input)) abs_path
           | Inline bytes => cas_write (ls_blobs l) (digest_hash (input_digest input)) bytes
           end;
  mret (if (stored : bool) then digests ++ [input_digest input] else digests)%list.

Definition local_store_blobs l (blob_inputs : list BlobInput) (stream : bool) :
  stateful (World R) (list Digest) :=
  stateful_fold (local_store_blob l) [] blob_inputs.

Definition local_backend l : StorageBackend R :=
  mkStorageBackend (ls_id l) 0 true true true (local_retrieve_manifest l) (local_store_manifest l)
    (local_find_missing_blobs l) (local_store_blobs l) (local_retrieve_blobs l).

(** *** Garbage collection *)

Definition BLOB_GRACE : Z := hour.

Record Entry : Type := mkEntry {
  entry_path : Path;
  entry_mtime : Z;
  entry_file_size : nat;
  entry_digests : list Digest;
}.

(** The manifests that can be read and parsed. *)
Definition manifest_entry (fs : FileSystem) (path : Path) : option Entry :=
  '(bytes, _, mtime) ← file_at fs path;
  match manifest_from_json bytes with
  | Ok manifest => Some (mkEntry path mtime (String.length bytes) (collect_blob_digests manifest))
  | _ => None
  end.

(** The order of [sort_by_key(Reverse(mtime))]. *)
Definition newer (a b : Entry) : Prop := (entry_mtime b <= entry_mtime a)%Z.

#[export] Instance newer_dec a b : Decision (newer a b).
Proof. unfold newer. apply _. Defined.

Record Eviction : Type := mkEviction {
  ev_keep : gset ContentHash;
  ev_keep_size : Z;
  ev_removed : nat;
  ev_saved : nat;
  ev_fs : FileSystem;
}.

Definition blob_size (digest : Digest) : Z := Z.max 0 (digest_size digest).

(** [for digest in entry.digests { if keep.insert(digest.hash) { .. } }] *)
Definition keep_digest (s : Eviction) (digest : Digest) : Eviction :=
  if decide (digest_hash digest ∈ ev_keep s) then s
  else mkEviction ({[digest_hash digest]} ∪ ev_keep s) (ev_keep_size s + blob_size digest)
         (ev_removed s) (ev_saved s) (ev_fs s).

Definition evict_entry (now lifetime : Z) (max_size : option Z) (s : Eviction) (entry : Entry) : Eviction :=
  let marginal :=
    foldr Z.add 0%Z (blob_size <$> filter (λ digest, digest_hash digest ∉ ev_keep s) (entry_digests entry)) in
  let over_lifetime := (lifetime <? file_age now (entry_mtime entry))%Z in
  let over_budget :=
    match max_size with Some max => (max <? ev_keep_size s + marginal)%Z | None => false end in
  if over_lifetime || over_budget then
    mkEviction (ev_keep s) (ev_keep_size s) (S (ev_removed s)) (ev_saved s + entry_file_size entry)
      (delete (entry_path entry) (ev_fs s))
  else fold_left keep_digest (entry_digests entry) s.

(** [evict_manifests].  Sizes are summed up in [Z], without the overflow that the
    [u64] of the code has beyond 2^64 bytes. *)
Definition evict_manifests (manifests : CasStore) (lifetime : Z) (max_size : option Z) (now : Z)
    (fs : FileSystem) : Eviction :=
  fold_left (evict_entry now lifetime max_size)
    (merge_sort newer (omap (manifest_entry fs) (object_paths manifests fs)))
    (mkEviction ∅ 0 0 0 fs).

(** [LocalStorage::gc] *)
Definition local_gc l (lifetime : Z) (max_size : option Z) : stateful (World R) BlobCleanStats :=
  with_state (λ w,
    let evicted := evict_manifests (ls_manifests l) lifetime max_size (w_now w) (w_fs w) in
    (λ _, (Ok tt, w_set_fs w (ev_fs evicted)));;
    blob_stats ← retain (ls_blobs l) (ev_keep evicted) BLOB_GRACE;
    mret (mkStats (ev_removed evicted + blobs_removed blob_stats)
                  (ev_saved evicted + bytes_saved blob_stats))).
End Local.
