(* ===== verification/CacheFacts.v ===== *)
(** * Lemmas on the cache storage

Batches, the objects of a store, and what the operations of the local backend
leave in it. *)

From S2P Require Import Prelude Errors FileSystem Target GraphUtils Shapes Config Affected Action Blobs Manifest CacheStorage.


#[global] Arguments file_at : simpl never.
#[global] Arguments contains_object : simpl never.
#[global] Arguments object_path : simpl never.
#[global] Arguments path_exists : simpl never.

(** ** Batches *)

Section Batches.
Context {T : Type} (get_size : T → Z).
Implicit Types (items : list T) (batches : list (Batch T)).

Definition all_items batches : list T := batches ≫= batch_items.

Lemma all_items_app b1 b2 : all_items (b1 ++ b2)%list = (all_items b1 ++ all_items b2)%list.
Proof. apply bind_app. Qed.

(** The size a batch has to account for. *)
Definition packed_size items : Z := foldr Z.add 0%Z ((λ item, get_size item + BUFFER)%Z <$> items).

Lemma packed_size_snoc items item :
  packed_size (items ++ [item])%list = (packed_size items + (get_size item + BUFFER))%Z.
Proof.
  unfold packed_size. rewrite fmap_app, foldr_app. cbn.
  induction items as [|x items IH]; cbn in *; [lia|]. rewrite IH. lia.
Qed.

(** A batch that is sent as one request fits; one that does not has a single item. *)
Definition batch_ok (max_size : Z) (batch : Batch T) : Prop :=
  batch_items batch ≠ [] ∧
  if batch_stream batch then ∃ item, batch_items batch = [item] ∧ (max_size <= get_size item + BUFFER)%Z
  else batch_size batch = packed_size (batch_items batch) ∧ (batch_size batch <= max_size)%Z.

Lemma place_item_ok max_size item batches :
  (get_size item + BUFFER < max_size)%Z → Forall (batch_ok max_size) batches →
  let batches' := place_item max_size (get_size item + BUFFER) item batches in
  Forall (batch_ok max_size) batches' ∧ all_items batches' ≡ₚ item :: all_items batches.
Proof.
  intros Hsize Hok. induction Hok as [|batch batches [Hne Hb] Hok [IHok IHitems]]; cbn.
  { split; [|done]. constructor; [|constructor]. split; [done|]. cbn. unfold packed_size. cbn. lia. }
  destruct (batch_stream batch) eqn:Es; cbn.
  { split; [constructor; [|done]; unfold batch_ok; by rewrite Es|]. rewrite IHitems. symmetry. apply Permutation_middle. }
  destruct (Z.leb_spec (batch_size batch + (get_size item + BUFFER)) max_size) as [Hfit|_]; cbn.
  - split.
    + constructor; [|done]. unfold batch_ok, batch_add. cbn [batch_items batch_size batch_stream]. rewrite Es. destruct Hb as [Hb _].
      split; [by destruct (batch_items batch)|]. rewrite packed_size_snoc, Hb. lia.
    + rewrite <- app_assoc. symmetry. apply Permutation_middle.
  - split; [constructor; [|done]; unfold batch_ok; by rewrite Es|]. rewrite IHitems. symmetry. apply Permutation_middle.
Qed.

Lemma partition_loop_ok max_size items batches :
  Forall (batch_ok max_size) batches →
  let batches' := fold_left (partition_step get_size max_size) items batches in
  Forall (batch_ok max_size) batches' ∧ all_items batches' ≡ₚ (items ++ all_items batches)%list.
Proof.
  revert batches. induction items as [|item items IH]; intros batches Hok; cbn; [done|].
  unfold partition_step at 2 4. destruct (Z.leb_spec max_size (get_size item + BUFFER)) as [Hbig|Hsmall].
  - destruct (IH (batches ++ [mkBatch [item] (get_size item + BUFFER) true 0 0])%list) as [Hok' Hitems'].
    { apply Forall_app. split; [done|]. constructor; [|constructor]. split; [done|]. cbn. by exists item. }
    split; [done|]. rewrite Hitems', all_items_app. cbn. rewrite app_assoc.
    rewrite <- Permutation_cons_append. done.
  - destruct (place_item_ok max_size item batches Hsmall Hok) as [Hok1 Hitems1].
    destruct (IH _ Hok1) as [Hok' Hitems']. split; [done|].
    rewrite Hitems', Hitems1. symmetry. apply Permutation_middle.
Qed.

Lemma number_batches_items batches : all_items (number_batches batches) = all_items batches.
Proof.
  unfold number_batches. generalize (length batches). intros total.
  assert (∀ f : nat → Batch T → Batch T, (∀ i b, batch_items (f i b) = batch_items b) →
    all_items (imap f batches) = all_items batches) as Himap; [|by apply Himap].
  unfold all_items. induction batches as [|b batches IH]; intros f Hf; [done|].
  rewrite imap_cons. cbn. rewrite Hf. f_equal. apply IH. intros. apply Hf.
Qed.

Lemma number_batches_lookup batches i batch :
  number_batches batches !! i = Some batch →
  batch_index batch = S i ∧ batch_total batch = length batches ∧
  ∃ batch0, batches !! i = Some batch0 ∧ batch_items batch = batch_items batch0 ∧
    batch_size batch = batch_size batch0 ∧ batch_stream batch = batch_stream batch0.
Proof.
  unfold number_batches. rewrite list_lookup_imap. destruct (batches !! i) as [b|]; [|done].
  intros [= <-]. cbn. split_and!; [lia|done|]. by exists b.
Qed.

(** *** Chunks *)

Lemma chunks_items fuel chunk_size items :
  0 < chunk_size → length items ≤ fuel →
  all_items (chunks get_size fuel chunk_size items) = items ∧
  Forall (λ batch, batch_items batch ≠ [] ∧ batch_stream batch = false)
    (chunks get_size fuel chunk_size items).
Proof.
  intros Hchunk. revert items. induction fuel as [|fuel IH]; intros [|x items] Hlen; cbn in Hlen;
    [by split|lia|by split|].
  cbn [chunks]. set (n := chunk_size `min` length (x :: items)).
  assert (0 < n) as Hn by (subst n; cbn; lia).
  destruct (IH (drop n (x :: items))) as [Hitems Hok]; [rewrite length_drop; cbn; lia|].
  split.
  - unfold all_items in *. cbn [mbind list_bind batch_items]. rewrite Hitems. apply take_drop.
  - constructor; [|done]. split; [|done]. cbn [batch_items]. by destruct n; [lia|].
Qed.

Lemma chunks_length fuel chunk_size items n :
  length items ≤ n * chunk_size → length (chunks get_size fuel chunk_size items) ≤ n.
Proof.
  revert items n. induction fuel as [|fuel IH]; intros [|x items] n Hlen; [cbn; lia..|].
  cbn [chunks length] in *. destruct n as [|n]; [lia|]. apply le_n_S, IH.
  rewrite length_drop. cbn [length]. lia.
Qed.

Lemma div_ceil_le a b : 0 < b → a ≤ b * div_ceil a b.
Proof.
  intros Hb. unfold div_ceil. pose proof (Nat.div_mod (a + (b - 1)) b ltac:(lia)).
  pose proof (Nat.mod_upper_bound (a + (b - 1)) b ltac:(lia)). lia.
Qed.

Lemma div_ceil_pos a b : 0 < a → 0 < b → 0 < div_ceil a b.
Proof. intros. unfold div_ceil. apply Nat.div_str_pos. lia. Qed.
End Batches.

(** ** Methods *)

Section Methods.
Context {S : Type}.

Lemma bind_Ok {A B} (m : stateful S A) (k : A → stateful S B) s b s' :
  (m ≫= k) s = (Ok b, s') ↔ ∃ a s1, m s = (Ok a, s1) ∧ k a s1 = (Ok b, s').
Proof.
  unfold mbind, stateful_bind. destruct (m s) as [[a|e|] s1]; split; [|naive_solver|done| |done|].
  - intros Hk. by exists a, s1.
  - intros (a & s2 & [=] & _).
  - intros (a & s2 & [=] & _).
Qed.

(** Every run of a method relates the states before and after it. *)
Definition evolves {A} (T : S → S → Prop) (m : stateful S A) : Prop := ∀ s, T s (m s).2.

Context (T : S → S → Prop) `{!PreOrder T}.

Lemma evolves_ret {A} (a : A) : evolves T (mret a).
Proof. intros s. cbn. reflexivity. Qed.

Lemma evolves_pure {A} (r : result A) : evolves T (pure_result r).
Proof. intros s. cbn. reflexivity. Qed.

Lemma evolves_bind {A B} (m : stateful S A) (k : A → stateful S B) :
  evolves T m → (∀ a, evolves T (k a)) → evolves T (m ≫= k).
Proof.
  intros Hm Hk s. specialize (Hm s). unfold mbind, stateful_bind.
  destruct (m s) as [[a|e|] s']; cbn in *; [|done..]. etrans; [exact Hm|apply Hk].
Qed.

Lemma evolves_with_state {A} (m : S → stateful S A) : (∀ s, evolves T (m s)) → evolves T (with_state m).
Proof. intros Hm s. apply Hm. Qed.

Lemma evolves_attempt {A} (m : stateful S A) : evolves T m → evolves T (attempt m).
Proof. intros Hm s. specialize (Hm s). unfold attempt. by destruct (m s). Qed.

Lemma evolves_fold {A B} (f : B → A → stateful S B) b l :
  (∀ b x, x ∈ l → evolves T (f b x)) → evolves T (stateful_fold f b l).
Proof.
  revert b. induction l as [|x l IH]; intros b Hf; cbn; [apply evolves_ret|].
  apply evolves_bind; [apply Hf; by left|]. intros. apply IH. intros. apply Hf. by right.
Qed.
End Methods.

(** Split a successful method call in a hypothesis into its steps. *)
Ltac run_ok :=
  repeat match goal with
  | H : (_ ≫= _) _ = (Ok _, _) |- _ =>
      let a := fresh "a" in let s := fresh "w" in let H1 := fresh "Hrun" in
      apply bind_Ok in H as (a & s & H1 & H)
  | H : mret _ _ = (Ok _, _) |- _ => unfold mret, stateful_ret in H; simplify_eq
  | H : pure_result _ _ = (Ok _, _) |- _ => unfold pure_result in H; simplify_eq
  | H : with_state _ _ = (Ok _, _) |- _ => unfold with_state in H
  | H : attempt _ _ = (Ok _, _) |- _ => unfold attempt in H
  end.

Lemma join_batches_evolves {R A B} (T : World R → World R → Prop) `{!PreOrder T}
    (run : Batch A → stateful (World R) (list B)) batches :
  (∀ batch, batch ∈ batches → evolves T (run batch)) → evolves T (join_batches run batches).
Proof.
  induction batches as [|batch batches IH]; intros Hrun; cbn; [by apply evolves_ret|].
  apply evolves_bind; [done|apply evolves_attempt, Hrun; by left|]. intros r.
  apply evolves_bind; [done|apply IH; intros; apply Hrun; by right|]. intros [rest failed].
  by apply evolves_ret.
Qed.

Lemma elem_of_option_list {A} (x : A) (o : option A) : x ∈ option_list o ↔ o = Some x.
Proof. destruct o as [y|]; cbn; [rewrite list_elem_of_singleton; naive_solver|]. by rewrite elem_of_nil. Qed.

(** ** Objects of a store *)

Lemma str_take_drop n s : String.append (str_take n s) (str_drop n s) = s.
Proof. revert s. induction n as [|n IH]; intros [|a s]; cbn; [done..|]. by rewrite IH. Qed.

Lemma hash_parts hash : String.append (hash_prefix hash) (hash_suffix hash) = hash.
Proof. apply str_take_drop. Qed.

Lemma hash_prefix_not_temp hash : hash_prefix hash ≠ "temp"%string.
Proof.
  unfold hash_prefix. by destruct hash as [|a [|b hash]].
Qed.

Lemma object_path_inj store h1 h2 : object_path store h1 = object_path store h2 → h1 = h2.
Proof.
  intros Heq%app_inv_head. injection Heq as Hp Hs.
  by rewrite <- (hash_parts h1), <- (hash_parts h2), Hp, Hs.
Qed.

Lemma object_entry_object store hash :
  object_entry store (object_path store hash) = Some (hash_prefix hash, hash_suffix hash).
Proof.
  unfold object_entry, shard_entry, object_path.
  rewrite (proj2 (path_strip_prefix_Some _ _ _) eq_refl).
  by rewrite decide_False by apply hash_prefix_not_temp.
Qed.

Lemma shard_entry_Some store path shard name :
  shard_entry store path = Some (shard, name) ↔ path = (objects_dir store ++ [shard; name])%list.
Proof.
  unfold shard_entry. rewrite <- path_strip_prefix_Some.
  destruct (path_strip_prefix (objects_dir store) path) as [[|a [|b [|]]]|]; naive_solver.
Qed.

(** An object that is there, as a file. *)
Definition has_object (store : CasStore) (fs : FileSystem) (hash : ContentHash) : Prop :=
  ∃ bytes mode mtime, fs !! object_path store hash = Some (FileNode bytes mode mtime).

(** A store holds files in directories, and nothing else. *)
Definition store_shaped (store : CasStore) (fs : FileSystem) : Prop :=
  ∀ rest node, fs !! (objects_dir store ++ rest)%list = Some node →
  ∃ shard name bytes mode mtime, rest = [shard; name] ∧ node = FileNode bytes mode mtime.

Lemma contains_object_has store fs hash :
  store_shaped store fs → contains_object fs store hash = true ↔ has_object store fs hash.
Proof.
  intros Hshape. unfold contains_object, path_exists, has_object. split.
  - intros [Hf|Hd]%orb_true_iff.
    + unfold is_file, file_at, follow in Hf. unfold follow_links in Hf. fold follow_links in Hf.
      destruct (fs !! object_path store hash) as [[bytes mode mtime|target]|] eqn:E.
      * eauto.
      * destruct (Hshape _ _ E) as (? & ? & ? & ? & ? & _ & [=]).
      * cbn in Hf. by rewrite E in Hf.
    + unfold is_dir, follow, follow_links in Hd. fold follow_links in Hd.
      destruct (fs !! object_path store hash) as [[bytes mode mtime|target]|] eqn:E; [eauto| |].
      { destruct (Hshape _ _ E) as (? & ? & ? & ? & ? & _ & [=]). }
      unfold dir_at in Hd. apply existsb_exists in Hd as (other & Hother & Hprefix).
      apply andb_true_iff in Hprefix as [Hprefix Hne].
      apply path_has_prefix_true in Hprefix as [rest ->].
      apply list_elem_of_In, list_elem_of_fmap in Hother as ([p node] & Heq & Hp%elem_of_map_to_list).
      cbn in Heq. subst p. unfold object_path in Hp, Hne. rewrite <- app_assoc in Hp.
      destruct (Hshape _ _ Hp) as (? & ? & ? & ? & ? & Hrest & _). cbn in Hrest.
      injection Hrest as _ _ ->. by rewrite app_nil_r, bool_decide_eq_true_2 in Hne.
  - intros (bytes & mode & mtime & E). unfold is_file. by rewrite (file_at_file _ _ _ _ _ E).
Qed.
