(* ===== verification/LocalStorageFacts.v ===== *)
(** * Lemmas on the local backend

Storing blobs only adds objects to the store of blobs, and when it succeeds every
blob of the request is there. *)

From S2P Require Import Prelude Errors FileSystem Target GraphUtils Shapes Config Affected Action Blobs Manifest CacheStorage CacheFacts.

Section Local.
Context `{Sha256, ManifestJson, RelativePathLib} {R : Type} (l : LocalStorage).
Implicit Types (w : World R).

Abbreviation blobs := (ls_blobs l).
Abbreviation manifests := (ls_manifests l).

(** Nothing but new and rewritten blob objects. *)
Definition blobs_grow w w' : Prop :=
  w_now w' = w_now w ∧
  (∀ path, path_has_prefix (objects_dir blobs) path = false → w_fs w' !! path = w_fs w !! path) ∧
  (store_shaped blobs (w_fs w) → store_shaped blobs (w_fs w')) ∧
  ∀ hash, has_object blobs (w_fs w) hash → has_object blobs (w_fs w') hash.

#[export] Instance blobs_grow_preorder : PreOrder blobs_grow.
Proof.
  split; [intros w; by split_and!|]. intros w1 w2 w3 (Hn1 & Hf1 & Hs1 & Hh1) (Hn2 & Hf2 & Hs2 & Hh2).
  split_and!; [congruence| |auto|auto]. intros path Hpath. by rewrite Hf2, Hf1.
Qed.

Lemma object_path_below store hash : path_has_prefix (objects_dir store) (object_path store hash) = true.
Proof. apply path_has_prefix_true. eauto. Qed.

Lemma insert_shaped store fs hash bytes mode mtime :
  store_shaped store fs → store_shaped store (<[object_path store hash := FileNode bytes mode mtime]> fs).
Proof.
  intros Hshape rest node [[Heq <-]|[_ E]]%lookup_insert_Some; [|by eapply Hshape].
  apply app_inv_head in Heq as <-. by eexists _, _, _, _, _.
Qed.

Lemma insert_object_grows w hash bytes mode mtime :
  blobs_grow w (w_set_fs w (<[object_path blobs hash := FileNode bytes mode mtime]> (w_fs w))).
Proof.
  split_and!; [done| | |].
  - intros path Hpath. cbn. rewrite lookup_insert_ne; [done|]. intros <-.
    by rewrite object_path_below in Hpath.
  - apply insert_shaped.
  - intros h (b & m & t & E). cbn. unfold has_object.
    destruct (decide (object_path blobs hash = object_path blobs h)) as [->|];
      [rewrite lookup_insert_eq|rewrite lookup_insert_ne by done]; eauto.
Qed.

Lemma cas_write_grows hash bytes : evolves blobs_grow (cas_write blobs hash bytes).
Proof. intros w. apply insert_object_grows. Qed.

Lemma cas_write_file_grows hash source : evolves blobs_grow (cas_write_file blobs hash source).
Proof.
  intros w. unfold cas_write_file. destruct (file_at (w_fs w) source) as [[[bytes mode] mtime]|]; cbn;
    [apply insert_object_grows|reflexivity].
Qed.

Lemma local_store_blob_grows digests input : evolves blobs_grow (local_store_blob l digests input).
Proof.
  apply evolves_bind; [apply _| |intros stored; apply evolves_ret, _].
  destruct (input_content input); [apply cas_write_file_grows|apply cas_write_grows].
Qed.

Lemma local_store_blobs_grows inputs stream : evolves blobs_grow (local_store_blobs l inputs stream).
Proof. apply evolves_fold; [apply _|]. intros. apply local_store_blob_grows. Qed.

(** An input that was stored is there, with its content. *)
Lemma local_store_blob_Ok digests input w digests' w' :
  local_store_blob l digests input w = (Ok digests', w') →
  digests' = (digests ++ [input_digest input])%list ∧
  has_object blobs (w_fs w') (digest_hash (input_digest input)).
Proof.
  unfold local_store_blob. intros Hrun. run_ok.
  assert (a = true ∧ has_object blobs (w_fs w') (digest_hash (input_digest input))) as [-> ?]; [|done].
  destruct (input_content input) as [path|bytes].
  - unfold cas_write_file in Hrun0. destruct (file_at _ path) as [[[bytes mode] mtime]|]; simplify_eq/=.
    split; [done|]. unfold has_object. cbn. rewrite lookup_insert_eq. eauto.
  - unfold cas_write in Hrun0. simplify_eq/=. split; [done|]. unfold has_object. cbn.
    rewrite lookup_insert_eq. eauto.
Qed.

Lemma local_store_blobs_Ok inputs stream w digests w' :
  local_store_blobs l inputs stream w = (Ok digests, w') →
  digests = input_digest <$> inputs ∧
  ∀ input, input ∈ inputs → has_object blobs (w_fs w') (digest_hash (input_digest input)).
Proof.
  unfold local_store_blobs.
  assert (∀ acc w, stateful_fold (local_store_blob l) acc inputs w = (Ok digests, w') →
    digests = (acc ++ (input_digest <$> inputs))%list ∧
    ∀ input, input ∈ inputs → has_object blobs (w_fs w') (digest_hash (input_digest input))) as Hgen;
    [|intros Hrun; apply (Hgen [] w Hrun)].
  clear w. induction inputs as [|input inputs IH]; intros acc w Hrun; cbn in Hrun; run_ok.
  - rewrite app_nil_r. split; [done|]. by intros ? ?%not_elem_of_nil.
  - apply local_store_blob_Ok in Hrun0 as [-> Hin]. destruct (IH _ _ Hrun) as [-> Hall].
    split; [by rewrite <- app_assoc|]. intros other [->|Hother]%elem_of_cons; [|by apply Hall].
    pose proof (evolves_fold blobs_grow (local_store_blob l) (acc ++ [input_digest input])%list inputs
      (λ b x _, local_store_blob_grows b x) w0) as Hgrow. rewrite Hrun in Hgrow. by apply Hgrow.
Qed.

(** *** Requests in batches *)

Lemma chunk_all_items {T} (get_size : T → Z) items :
  all_items (create_batches get_size items 0) = items.
Proof.
  unfold create_batches, chunk_into_batches. cbn [Z.ltb]. change (0 <? 0)%Z with false. cbn iota.
  case_decide as Hlen; [by apply length_zero_iff_nil in Hlen as ->|].
  rewrite number_batches_items. apply chunks_items; [|done].
  apply div_ceil_pos; [lia|]. apply Nat.min_glb_lt; [|unfold BLOCKING_THREAD_COUNT; lia].
  apply div_ceil_pos; unfold CHUNK_TARGET_SIZE; lia.
Qed.

Definition absent (fs : FileSystem) (digest : Digest) : Prop :=
  contains_object fs blobs (digest_hash digest) = false.

#[export] Instance absent_dec fs digest : Decision (absent fs digest).
Proof. unfold absent. apply _. Defined.

Lemma find_missing_local digests w :
  find_missing_blobs_batched (local_backend l) digests w = (Ok (filter (absent (w_fs w)) digests), w).
Proof.
  unfold find_missing_blobs_batched.
  rewrite <- (chunk_all_items (λ digest, Z.of_nat (String.length (digest_hash digest))) digests) at 2.
  cbn [b_max_batch_total_size_bytes local_backend]. generalize (create_batches
    (λ digest, Z.of_nat (String.length (digest_hash digest))) digests 0) as batches. intros batches.
  assert (∀ acc, stateful_fold (λ missing batch,
      found ← b_find_missing_blobs (local_backend l) (batch_items batch);
      mret (missing ++ found)%list) acc batches w =
    (Ok (acc ++ filter (absent (w_fs w)) (all_items batches))%list, w)) as ->; [|done].
  induction batches as [|batch batches IH]; intros acc; cbn; [by rewrite app_nil_r|].
  unfold all_items in *. cbn. rewrite filter_app, app_assoc. apply IH.
Qed.

Lemma join_local_Ok batches w digests w' :
  join_batches (λ batch, b_store_blobs (local_backend l) (batch_items batch) (batch_stream batch))
    batches w = (Ok (digests, false), w') →
  digests = input_digest <$> all_items batches ∧
  ∀ input, input ∈ all_items batches → has_object blobs (w_fs w') (digest_hash (input_digest input)).
Proof.
  revert w digests. induction batches as [|batch batches IH]; intros w digests Hrun; cbn [join_batches] in Hrun;
    run_ok; [split; [done|by intros ? ?%not_elem_of_nil]|].
  destruct (b_store_blobs _ _ _ w) as [r w2] eqn:Hstore. simplify_eq.
  destruct a0 as [rest failed]. destruct a as [items|e|]; run_ok.
  destruct (local_store_blobs_Ok _ (batch_stream batch) _ _ _ Hstore) as [-> Hitems].
  destruct (IH _ _ Hrun1) as [-> Hrest]. unfold all_items in *. cbn. split; [by rewrite fmap_app|].
  intros input [Hin|Hin]%elem_of_app; [|by apply Hrest].
  pose proof (join_batches_evolves blobs_grow
    (λ batch, b_store_blobs (local_backend l) (batch_items batch) (batch_stream batch)) batches
    (λ batch _, local_store_blobs_grows (batch_items batch) (batch_stream batch)) w0) as Hgrow.
  rewrite Hrun1 in Hgrow. by apply Hgrow, Hitems.
Qed.

Lemma dedup_inputs_cover seen inputs input :
  input ∈ inputs → input_digest input ∉ seen →
  ∃ input', input' ∈ dedup_inputs seen inputs ∧ input_digest input' = input_digest input.
Proof.
  revert seen. induction inputs as [|x inputs IH]; intros seen Hin Hseen; [by apply not_elem_of_nil in Hin|].
  apply elem_of_cons in Hin as [->|Hin]; cbn.
  - rewrite decide_False by done. exists x. split; [by left|done].
  - case_decide as Hx; [by apply IH|]. destruct (decide (input_digest x = input_digest input)) as [Heq|Hne].
    + exists x. split; [by left|done].
    + destruct (IH ({[input_digest x]} ∪ seen)) as (input' & ? & ?); [done|set_solver|].
      exists input'. split; [by right|done].
Qed.

Lemma dedup_inputs_sub seen inputs input : input ∈ dedup_inputs seen inputs → input ∈ inputs.
Proof.
  revert seen. induction inputs as [|x inputs IH]; intros seen; cbn; [done|].
  case_decide; [intros ?%IH; by right|]. intros [->|Hin%IH]%elem_of_cons; [by left|by right].
Qed.

Lemma store_blobs_batched_grows inputs : evolves blobs_grow (store_blobs_batched (local_backend l) inputs).
Proof.
  intros w. unfold store_blobs_batched, mbind, stateful_bind, attempt. rewrite find_missing_local. cbn.
  destruct (filter _ _) as [|d ds]; [reflexivity|].
  pose proof (join_batches_evolves blobs_grow
    (λ batch, local_store_blobs l (batch_items batch) (batch_stream batch))
    (create_batches (λ source, digest_size (input_digest source))
       (filter (λ source, input_digest source ∈ d :: ds) (dedup_inputs ∅ inputs)) 0)
    (λ batch _, local_store_blobs_grows (batch_items batch) (batch_stream batch)) w) as Hgrow.
  destruct (join_batches _ _ w) as [[[ups failed]|e|] w']; exact Hgrow.
Qed.

(** When a request succeeds, every blob of it is in the store. *)
Lemma store_blobs_batched_stored inputs w res w' :
  store_shaped blobs (w_fs w) →
  store_blobs_batched (local_backend l) inputs w = (Ok res, w') → st_success res = true →
  ∀ input, input ∈ inputs → has_object blobs (w_fs w') (digest_hash (input_digest input)).
Proof.
  intros Hshape Hrun Hsuccess input Hin.
  destruct (dedup_inputs_cover ∅ inputs input Hin) as (input' & Hin' & <-); [set_solver|].
  pose proof (store_blobs_batched_grows inputs w) as Hgrow. rewrite Hrun in Hgrow. cbn in Hgrow.
  destruct (contains_object (w_fs w) blobs (digest_hash (input_digest input'))) eqn:Hc.
  { apply Hgrow. by apply contains_object_has. }
  unfold store_blobs_batched in Hrun. run_ok. rewrite find_missing_local in Hrun0. simplify_eq.
  assert (input_digest input' ∈ filter (absent (w_fs w0)) (input_digest <$> dedup_inputs ∅ inputs)) as Hmissing.
  { apply list_elem_of_filter. split; [done|]. by apply list_elem_of_fmap_2. }
  destruct (filter (absent (w_fs w0)) _) as [|d ds]; [by apply not_elem_of_nil in Hmissing|].
  run_ok. destruct a as [ups failed]. run_ok. cbn in Hsuccess.
  apply andb_true_iff in Hsuccess as [->%negb_true_iff _].
  apply join_local_Ok in Hrun0 as [_ Hall]. apply Hall. rewrite chunk_all_items.
  by apply list_elem_of_filter.
Qed.

(** ** No manifest without its blobs *)

(** Every manifest that can be read has its blobs in the store. *)
Definition no_dangling (fs : FileSystem) : Prop :=
  ∀ path bytes mode mtime m,
    is_Some (object_entry manifests path) → fs !! path = Some (FileNode bytes mode mtime) →
    manifest_from_json bytes = Ok m →
    ∀ digest, digest ∈ collect_blob_digests m → is_hash (digest_hash digest) = true →
    has_object blobs fs (digest_hash digest).

Definition cache_ok (fs : FileSystem) : Prop :=
  store_shaped blobs fs ∧ store_shaped manifests fs ∧ no_dangling fs.

(** No path is below both stores. *)
Definition stores_apart : Prop :=
  ∀ r1 r2, (objects_dir blobs ++ r1)%list ≠ (objects_dir manifests ++ r2)%list.

Lemma stores_apart_prefix r :
  stores_apart → path_has_prefix (objects_dir blobs) (objects_dir manifests ++ r)%list = false.
Proof.
  intros Hapart. apply not_true_iff_false. intros [rest Heq]%path_has_prefix_true.
  by apply (Hapart rest r).
Qed.

Lemma object_entry_below store path :
  is_Some (object_entry store path) → ∃ rest, path = (objects_dir store ++ rest)%list.
Proof.
  intros [[shard name] Hentry]. unfold object_entry in Hentry.
  destruct (shard_entry store path) as [[]|] eqn:E; [|done]. apply shard_entry_Some in E. eauto.
Qed.

Lemma grow_cache_ok w w' :
  stores_apart → blobs_grow w w' → cache_ok (w_fs w) → cache_ok (w_fs w').
Proof.
  intros Hapart (_ & Hframe & Hshape & Hhas) (Hb & Hm & Hd). split_and!.
  - auto.
  - intros rest node E. rewrite Hframe in E by by apply stores_apart_prefix. by apply Hm in E.
  - intros path bytes mode mtime m Hpath E Hjson digest Hin Hhash. apply Hhas.
    destruct (object_entry_below _ _ Hpath) as [rest ->].
    rewrite Hframe in E by by apply stores_apart_prefix. eauto.
Qed.

(** A manifest whose captured output is known, as a packed and a hydrated one are. *)
Definition stdio_known (m : Manifest) : Prop :=
  (wanted (m_stderr_digest m) ≠ None → m_stderr_bytes m ≠ None) ∧
  (wanted (m_stdout_digest m) ≠ None → m_stdout_bytes m ≠ None).

Lemma wanted_Some digest d : wanted digest = Some d → digest = Some d.
Proof. unfold wanted. destruct digest as [d'|]; [|done]. cbn. by destruct (0 <? _)%Z; intros [= ->]. Qed.

Lemma collect_stdio_input digest bytes d :
  wanted digest = Some d → (wanted digest ≠ None → bytes ≠ None) →
  ∃ input, collect_stdio digest bytes = Some input ∧ input_digest input = d.
Proof.
  intros Hd Hbytes. destruct bytes as [bytes|]; [|destruct (Hbytes ltac:(congruence)); done].
  apply wanted_Some in Hd as ->. by eexists.
Qed.

(** The blobs that a manifest will be asked for are uploaded with it. *)
Lemma collect_blob_inputs_cover workspace_root m digest :
  stdio_known m → digest ∈ collect_blob_digests m →
  ∃ input, input ∈ collect_blob_inputs m workspace_root ∧ input_digest input = digest.
Proof.
  intros [Herr Hout]. unfold collect_blob_digests, collect_blob_inputs.
  intros [Hin|[Hin|Hin]%elem_of_app]%elem_of_app.
  - apply elem_of_option_list in Hin. destruct (collect_stdio_input _ _ _ Hin Herr) as (input & Hinput & <-).
    exists input. split; [|done]. rewrite !elem_of_app, Hinput. right; right; left. by left.
  - apply elem_of_option_list in Hin. destruct (collect_stdio_input _ _ _ Hin Hout) as (input & Hinput & <-).
    exists input. split; [|done]. rewrite !elem_of_app, Hinput. right; right; right. by left.
  - apply list_elem_of_bind in Hin as (f & Hdigest & Hf). apply elem_of_option_list, wanted_Some in Hdigest.
    unfold collect_file. eexists. split.
    + rewrite !elem_of_app. right; left. apply list_elem_of_omap. exists f. split; [done|]. by rewrite Hdigest.
    + done.
Qed.

Lemma collect_persisted m : collect_blob_digests (m_persisted m) = collect_blob_digests m.
Proof.
  unfold collect_blob_digests, m_persisted. cbn. do 2 f_equal.
  induction (m_files m) as [|f files IH]; [done|]. cbn. by rewrite IH.
Qed.

Context {J : ManifestJsonLaws _}.

Lemma insert_manifest_ok fs hash m mode mtime :
  stores_apart → cache_ok fs →
  (∀ digest, digest ∈ collect_blob_digests m → has_object blobs fs (digest_hash digest)) →
  cache_ok (<[object_path manifests hash := FileNode (manifest_to_json m) mode mtime]> fs).
Proof.
  intros Hapart (Hb & Hm & Hd) Hblobs.
  assert (∀ h, has_object blobs fs h →
    has_object blobs (<[object_path manifests hash := FileNode (manifest_to_json m) mode mtime]> fs) h) as Hmono.
  { intros h (b & mo & t & E). unfold has_object. rewrite lookup_insert_ne; [eauto|].
    intros Heq. by eapply Hapart. }
  split_and!.
  - intros rest node [[Heq _]|[_ E]]%lookup_insert_Some; [|by eapply Hb]. by destruct (Hapart rest [hash_prefix hash; hash_suffix hash]).
  - by apply insert_shaped.
  - intros path bytes mode' mtime' m' Hpath E Hjson digest Hin Hhash. apply Hmono.
    apply lookup_insert_Some in E as [[_ [= <- _ _]]|[_ E]]; [|by eapply Hd].
    rewrite manifest_json_roundtrip in Hjson. injection Hjson as <-.
    rewrite collect_persisted in Hin. by apply Hblobs.
Qed.

Lemma store_manifest_ok digest m w :
  stores_apart → cache_ok (w_fs w) →
  (∀ d, d ∈ collect_blob_digests m → has_object blobs (w_fs w) (digest_hash d)) →
  cache_ok (w_fs (local_store_manifest l digest m w).2).
Proof.
  intros Hapart Hok Hblobs. unfold local_store_manifest, with_state.
  destruct (contains_object _ _ _); [done|]. unfold mbind, stateful_bind, pure_result, Blob_from_bytes.
  destruct (Digest_from_bytes _) as [d|e|]; cbn; [|done..]. by apply insert_manifest_ok.
Qed.

(** Persisting a manifest keeps the cache free of dangling manifests. *)
Lemma persist_cache_ok workspace_root digest m w :
  stores_apart → stdio_known m → cache_ok (w_fs w) →
  cache_ok (w_fs (persist_manifest_in_backend workspace_root (local_backend l) digest m w).2).
Proof.
  intros Hapart Hstdio Hok. unfold persist_manifest_in_backend. cbn [b_store_manifests local_backend].
  destruct (collect_blob_inputs m workspace_root) as [|input inputs] eqn:Hinputs.
  - pose proof (store_manifest_ok digest m w Hapart Hok) as Hstored. cbn [b_store_manifest local_backend].
    unfold mbind, stateful_bind, attempt. destruct (local_store_manifest l digest m w) as [r w'].
    apply Hstored. intros d Hd. destruct (collect_blob_inputs_cover workspace_root m d Hstdio Hd) as (? & Hin & _).
    rewrite Hinputs in Hin. by apply not_elem_of_nil in Hin.
  - rewrite <- Hinputs. unfold with_state at 1, mbind at 1, stateful_bind at 1.
    pose proof (store_blobs_batched_grows (collect_blob_inputs m workspace_root) w) as Hgrow.
    destruct (store_blobs_batched _ _ w) as [[res|e|] w1] eqn:Hstore; cbn in Hgrow |- *;
      [|by eapply grow_cache_ok..].
    unfold with_state. destruct (st_success res) eqn:Hsuccess; [|by eapply grow_cache_ok].
    set (m' := m_set_uploaded m (Some (w_now w)) (Some (w_now w1))).
    pose proof (store_manifest_ok digest m' w1 Hapart (grow_cache_ok _ _ Hapart Hgrow Hok)) as Hstored.
    unfold mbind, stateful_bind, attempt. destruct (local_store_manifest l digest m' w1) as [r w'].
    apply Hstored. intros d Hd. change (d ∈ collect_blob_digests m) in Hd.
    destruct (collect_blob_inputs_cover workspace_root m d Hstdio Hd) as (i & Hin & <-).
    destruct Hok as (Hshape & _). by eapply store_blobs_batched_stored.
Qed.

(** Retrieving a manifest only touches it. *)
Lemma retrieve_manifest_cache_ok digest w :
  stores_apart → cache_ok (w_fs w) → cache_ok (w_fs (local_retrieve_manifest l digest w).2).
Proof.
  intros Hapart Hok. unfold local_retrieve_manifest, with_state.
  destruct (contains_object (w_fs w) _ _) eqn:Hc; [|done].
  destruct Hok as (Hb & Hm & Hd). apply contains_object_has in Hc as (bytes & mode & mtime & E); [|done].
  assert (contains_object (w_fs w) manifests (digest_hash digest) = true) as Hc
    by (apply contains_object_has; [done|]; unfold has_object; eauto).
  unfold mbind, stateful_bind, cas_read, mbind, stateful_bind, object_path_with_exists_check. rewrite Hc.
  unfold read_file_bytes. rewrite (file_at_file _ _ _ _ _ E). unfold pure_result.
  destruct (check_integrity _ _ _) as [[]|e|]; cbn; [|done..].
  destruct (manifest_from_json bytes) as [m|e|] eqn:Hjson; cbn; [|done..].
  unfold attempt, cas_touch, mbind, stateful_bind, object_path_with_exists_check, with_state, set_modified.
  rewrite Hc, E. cbn. split_and!.
  - intros rest node [[Heq _]|[_ E']]%lookup_insert_Some; [|by eapply Hb].
    by destruct (Hapart rest [hash_prefix (digest_hash digest); hash_suffix (digest_hash digest)]).
  - by apply insert_shaped.
  - intros path bytes' mode' mtime' m' Hpath E' Hjson' d Hin Hhash.
    assert (has_object blobs (w_fs w) (digest_hash d)) as (b & mo & t & Ed).
    { apply lookup_insert_Some in E' as [[<- [= <- _ _]]|[_ E']]; eauto. }
    unfold has_object. rewrite lookup_insert_ne; [eauto|]. intros Heq. by eapply Hapart.
Qed.
End Local.
