(* ===== verification/CacheGc.v ===== *)
(** * Garbage collection of the local backend

Manifests are the roots: what is evicted, what survives, and that no surviving
manifest loses a blob. *)

From S2P Require Import Prelude Errors FileSystem Target GraphUtils Shapes Config Affected Action Blobs Manifest CacheStorage CacheFacts LocalStorageFacts.

Section Gc.
Context `{Sha256, ManifestJson, RelativePathLib} {R : Type} (l : LocalStorage).

Definition hashes_of (digests : list Digest) : gset ContentHash := list_to_set (digest_hash <$> digests).

(** *** Keeping an entry *)

Lemma keep_digests_spec digests (s : Eviction) :
  let s' := fold_left keep_digest digests s in
  ev_keep s' = ev_keep s ∪ hashes_of digests ∧ ev_fs s' = ev_fs s ∧
  ev_removed s' = ev_removed s ∧ ev_saved s' = ev_saved s.
Proof.
  revert s. induction digests as [|d digests IH]; intros s; cbn; [split_and!; set_solver|].
  destruct (IH (keep_digest s d)) as (Hk & Hf & Hr & Hs). unfold hashes_of in *. cbn.
  rewrite Hk, Hf, Hr, Hs. unfold keep_digest. case_decide; cbn; split_and!; set_solver.
Qed.

Definition total_size (digests : list Digest) : Z := foldr Z.add 0%Z (blob_size <$> digests).

Lemma total_size_nonneg digests : (0 <= total_size digests)%Z.
Proof. induction digests as [|d digests IH]; cbn; [lia|]. unfold total_size, blob_size in *. lia. Qed.

Lemma total_size_filter_mono digests (K K' : gset ContentHash) :
  K ⊆ K' →
  (total_size (filter (λ d, digest_hash d ∉ K') digests) <=
   total_size (filter (λ d, digest_hash d ∉ K) digests))%Z.
Proof.
  intros Hsub. induction digests as [|d digests IH]; [done|]. rewrite !filter_cons.
  assert (0 <= blob_size d)%Z by (unfold blob_size; lia).
  unfold total_size in *. repeat case_decide; cbn; [lia|set_solver|lia|lia].
Qed.

(** What is kept costs no more than the digests that were not kept before. *)
Lemma keep_digests_size digests (s : Eviction) :
  (ev_keep_size s <= ev_keep_size (fold_left keep_digest digests s) <=
   ev_keep_size s + total_size (filter (λ d, digest_hash d ∉ ev_keep s) digests))%Z.
Proof.
  revert s. induction digests as [|d digests IH]; intros s; [cbn; lia|]. cbn [fold_left].
  specialize (IH (keep_digest s d)). rewrite filter_cons. unfold keep_digest in IH |- *.
  destruct (decide (digest_hash d ∈ ev_keep s)) as [Hin|Hnin].
  - rewrite decide_False by (by intros ?). exact IH.
  - rewrite decide_True by done. cbn [ev_keep ev_keep_size] in IH.
    assert (0 <= blob_size d)%Z by (unfold blob_size; lia).
    pose proof (total_size_filter_mono digests (ev_keep s) ({[digest_hash d]} ∪ ev_keep s) ltac:(set_solver)).
    unfold total_size in *. cbn. lia.
Qed.

(** *** The loop *)

(** What the loop over [entries] has done to the files [fs]. *)
Record evicted (lifetime now : Z) (max_size : option Z) (fs : FileSystem) (entries : list Entry)
    (s : Eviction) : Prop := {
  ev_kept : ∀ e, e ∈ entries → ev_fs s !! entry_path e = None ∨
    hashes_of (entry_digests e) ⊆ ev_keep s;
  ev_frame : ∀ path, ev_fs s !! path = fs !! path ∨
    ev_fs s !! path = None ∧ ∃ e, e ∈ entries ∧ path = entry_path e ∧
      ((lifetime < file_age now (entry_mtime e))%Z ∨ max_size ≠ None);
  ev_roots : ∀ hash, hash ∈ ev_keep s → ∃ e, e ∈ entries ∧ hash ∈ hashes_of (entry_digests e);
  ev_budget : ∀ max, max_size = Some max → (0 <= max)%Z → (ev_keep_size s <= max)%Z;
}.

Lemma evict_entry_evicted lifetime now max_size fs entries s e :
  evicted lifetime now max_size fs entries s →
  evicted lifetime now max_size fs (entries ++ [e])%list (evict_entry now lifetime max_size s e).
Proof.
  intros [Hkept Hframe Hroots Hbudget]. unfold evict_entry.
  set (marginal := foldr _ _ _). set (over_budget := match max_size with Some _ => _ | None => _ end).
  destruct ((lifetime <? file_age now (entry_mtime e))%Z || over_budget) eqn:Hover; cbn; split; cbn.
  - intros e' [He'|He'%list_elem_of_singleton]%elem_of_app; [|subst e'; left; apply lookup_delete_eq].
    destruct (Hkept e' He') as [Hnone|Hsub]; [left|by right]. apply lookup_delete_None. by right.
  - intros path. destruct (decide (path = entry_path e)) as [->|Hne].
    + right. split; [apply lookup_delete_eq|]. exists e. split_and!; [apply elem_of_app; right; by left|done|].
      apply orb_true_iff in Hover as [?%Z.ltb_lt|Hb]; [by left|right]. subst over_budget. by destruct max_size.
    + rewrite lookup_delete_ne by done. destruct (Hframe path) as [?|[? (e' & ? & ? & ?)]]; [by left|].
      right. split; [done|]. exists e'. split_and!; [apply elem_of_app; by left|done|done].
  - intros hash Hh. destruct (Hroots hash Hh) as (e' & ? & ?). exists e'. split; [apply elem_of_app; by left|done].
  - done.
  - destruct (keep_digests_spec (entry_digests e) s) as (Hk & Hf & _). rewrite Hk, Hf.
    intros e' [He'|He'%list_elem_of_singleton]%elem_of_app; [|subst e'; right; set_solver].
    destruct (Hkept e' He') as [?|?]; [by left|right; set_solver].
  - destruct (keep_digests_spec (entry_digests e) s) as (_ & Hf & _). rewrite Hf. intros path.
    destruct (Hframe path) as [?|[? (e' & ? & ? & ?)]]; [by left|]. right. split; [done|].
    exists e'. split_and!; [apply elem_of_app; by left|done|done].
  - destruct (keep_digests_spec (entry_digests e) s) as (Hk & _). rewrite Hk.
    intros hash [Hh|Hh]%elem_of_union.
    + destruct (Hroots hash Hh) as (e' & ? & ?). exists e'. split; [apply elem_of_app; by left|done].
    + exists e. split; [apply elem_of_app; right; by left|done].
  - intros max -> Hmax. apply orb_false_iff in Hover as [_ Hb%Z.ltb_ge].
    pose proof (keep_digests_size (entry_digests e) s). unfold total_size in *. subst marginal. lia.
Qed.

Lemma evict_manifests_evicted store lifetime max_size now fs :
  evicted lifetime now max_size fs (omap (manifest_entry fs) (object_paths store fs))
    (evict_manifests store lifetime max_size now fs).
Proof.
  unfold evict_manifests. set (entries := omap _ _).
  assert (∀ e, e ∈ merge_sort newer entries ↔ e ∈ entries) as Hsort
    by (intros e; apply elem_of_Permutation_proper, merge_sort_Permutation).
  assert (evicted lifetime now max_size fs (merge_sort newer entries)
    (fold_left (evict_entry now lifetime max_size) (merge_sort newer entries) (mkEviction ∅ 0 0 0 fs)))
    as [Hkept Hframe Hroots Hbudget]; [|split; [setoid_rewrite <- Hsort; done..|done]].
  clear Hsort. induction (merge_sort newer entries) as [|e es IH] using rev_ind.
  - split; cbn; [by intros ? ?%not_elem_of_nil|by left|set_solver|]. intros; lia.
  - rewrite fold_left_app. by apply evict_entry_evicted.
Qed.

(** *** The budget *)

(** The size of a set of blobs. *)
Definition kept_size (size : ContentHash → Z) (K : gset ContentHash) : Z :=
  foldr Z.add 0%Z (size <$> elements K).

Lemma kept_size_insert size h K :
  h ∉ K → kept_size size ({[h]} ∪ K) = (size h + kept_size size K)%Z.
Proof.
  intros Hh. unfold kept_size.
  assert (∀ xs ys : list ContentHash, xs ≡ₚ ys → foldr Z.add 0%Z (size <$> xs) = foldr Z.add 0%Z (size <$> ys)) as Hperm.
  { induction 1; cbn; lia. }
  rewrite (Hperm _ _ (elements_union_singleton K h Hh)). done.
Qed.

Lemma keep_digests_kept size digests (s : Eviction) :
  Forall (λ d, blob_size d = size (digest_hash d)) digests →
  ev_keep_size s = kept_size size (ev_keep s) →
  ev_keep_size (fold_left keep_digest digests s) = kept_size size (ev_keep (fold_left keep_digest digests s)).
Proof.
  intros Hsizes. revert s. induction Hsizes as [|d digests Hd _ IH]; intros s Hs; [done|]. cbn [fold_left].
  apply IH. unfold keep_digest. case_decide as Hin; [exact Hs|]. cbn. rewrite kept_size_insert by done. lia.
Qed.

Lemma evict_manifests_kept size store lifetime max_size now fs :
  (∀ e, e ∈ omap (manifest_entry fs) (object_paths store fs) →
    Forall (λ d, blob_size d = size (digest_hash d)) (entry_digests e)) →
  let ev := evict_manifests store lifetime max_size now fs in ev_keep_size ev = kept_size size (ev_keep ev).
Proof.
  intros Hsizes. unfold evict_manifests. cbv zeta.
  assert (Forall (λ e, Forall (λ d, blob_size d = size (digest_hash d)) (entry_digests e))
    (merge_sort newer (omap (manifest_entry fs) (object_paths store fs)))) as Hall.
  { apply Forall_forall. intros e He. apply Hsizes. by rewrite merge_sort_Permutation in He. }
  revert Hall. generalize (merge_sort newer (omap (manifest_entry fs) (object_paths store fs))).
  assert (ev_keep_size (mkEviction ∅ 0 0 0 fs) = kept_size size (ev_keep (mkEviction ∅ 0 0 0 fs))) as Hinit by done.
  revert Hinit. generalize (mkEviction ∅ 0 0 0 fs). intros s Hs entries Hall. revert s Hs.
  induction Hall as [|e entries He _ IH]; intros s Hs; [done|]. cbn [fold_left]. apply IH. unfold evict_entry.
  destruct (_ || _); [done|]. cbn. by apply keep_digests_kept.
Qed.

(** *** The sweep *)

Abbreviation blobs := (ls_blobs l).
Abbreviation manifests := (ls_manifests l).

(** The files after a sweep of the blobs. *)
Definition swept (keep : gset ContentHash) (grace now : Z) (fs : FileSystem) : FileSystem :=
  clean_temp_dir blobs hour now (filter (λ kv, retain_remove blobs keep grace now kv.1 kv.2 = false) fs).

Lemma swept_sub keep grace now fs path node :
  swept keep grace now fs !! path = Some node → fs !! path = Some node.
Proof. unfold swept, clean_temp_dir. by intros [[? _]%map_lookup_filter_Some _]%map_lookup_filter_Some. Qed.

Lemma swept_keeps keep grace now fs path node :
  fs !! path = Some node → retain_remove blobs keep grace now path node = false →
  path_has_prefix (temp_dir blobs) path = false → swept keep grace now fs !! path = Some node.
Proof.
  intros E Hremove Htemp. unfold swept, clean_temp_dir. apply map_lookup_filter_Some. split.
  - by apply map_lookup_filter_Some.
  - cbn. by rewrite Htemp.
Qed.

Lemma object_not_temp store hash : path_has_prefix (temp_dir store) (object_path store hash) = false.
Proof.
  apply not_true_iff_false. intros [rest Heq]%path_has_prefix_true. unfold temp_dir, object_path in Heq.
  rewrite <- app_assoc in Heq. apply app_inv_head in Heq. injection Heq as Heq _.
  by apply (hash_prefix_not_temp hash).
Qed.

Lemma swept_frame keep grace now fs path :
  path_has_prefix (objects_dir blobs) path = false → swept keep grace now fs !! path = fs !! path.
Proof.
  intros Hpath.
  assert (∀ rest, path ≠ (objects_dir blobs ++ rest)%list) as Hout.
  { intros rest ->. rewrite (proj2 (path_has_prefix_true _ _)) in Hpath by eauto. done. }
  destruct (fs !! path) as [node|] eqn:E.
  - apply swept_keeps; [done| |].
    + unfold retain_remove, object_entry. destruct (shard_entry blobs path) as [[a b]|] eqn:Es; [|done].
      apply shard_entry_Some in Es. by apply Hout in Es.
    + apply not_true_iff_false. intros [rest ->]%path_has_prefix_true. unfold temp_dir in Hout.
      apply (Hout ("temp"%string :: rest)). by rewrite <- app_assoc.
  - destruct (swept keep grace now fs !! path) as [node|] eqn:E'; [|done]. apply swept_sub in E'. congruence.
Qed.

Lemma swept_reachable keep grace now fs hash :
  is_hash hash = true → hash ∈ keep → has_object blobs fs hash → has_object blobs (swept keep grace now fs) hash.
Proof.
  intros Hhash Hkeep (bytes & mode & mtime & E). exists bytes, mode, mtime. apply swept_keeps; [done| |].
  - unfold retain_remove. rewrite object_entry_object, hash_parts. unfold ContentHash_from_hex.
    rewrite Hhash. by rewrite bool_decide_eq_true_2.
  - apply object_not_temp.
Qed.

(** *** The collection *)

Definition collected (lifetime : Z) (max_size : option Z) (now : Z) (fs : FileSystem) : FileSystem :=
  let ev := evict_manifests manifests lifetime max_size now fs in
  swept (ev_keep ev) BLOB_GRACE now (ev_fs ev).

Lemma local_gc_fs lifetime max_size (w : World R) :
  w_fs (local_gc l lifetime max_size w).2 = collected lifetime max_size (w_now w) (w_fs w).
Proof. done. Qed.

Lemma entry_of_manifest fs path bytes mode mtime m :
  is_Some (object_entry manifests path) → fs !! path = Some (FileNode bytes mode mtime) →
  manifest_from_json bytes = Ok m →
  mkEntry path mtime (String.length bytes) (collect_blob_digests m) ∈
    omap (manifest_entry fs) (object_paths manifests fs).
Proof.
  intros Hpath E Hjson. apply list_elem_of_omap. exists path. split.
  - apply list_elem_of_filter. split; [done|]. apply list_elem_of_fmap. exists (path, FileNode bytes mode mtime).
    split; [done|]. by apply elem_of_map_to_list.
  - unfold manifest_entry. rewrite (file_at_file _ _ _ _ _ E). cbn. by rewrite Hjson.
Qed.

Lemma entry_path_below fs e :
  e ∈ omap (manifest_entry fs) (object_paths manifests fs) →
  ∃ rest, entry_path e = (objects_dir manifests ++ rest)%list.
Proof.
  intros (path & Hpath & He)%list_elem_of_omap. apply list_elem_of_filter in Hpath as [Hpath _].
  unfold manifest_entry in He. destruct (file_at fs path) as [[[bytes mode] mtime]|]; [|done]. cbn in He.
  destruct (manifest_from_json bytes); [|done..]. injection He as <-. by apply object_entry_below.
Qed.

Lemma collected_sub lifetime max_size now fs path node :
  collected lifetime max_size now fs !! path = Some node → fs !! path = Some node.
Proof.
  intros E%swept_sub. pose proof (evict_manifests_evicted manifests lifetime max_size now fs) as Hev.
  destruct (ev_frame _ _ _ _ _ _ Hev path) as [?|[? _]]; congruence.
Qed.

(** No surviving manifest loses a blob. *)
Lemma collected_cache_ok lifetime max_size now fs :
  stores_apart l → cache_ok l fs → cache_ok l (collected lifetime max_size now fs).
Proof.
  intros Hapart (Hb & Hm & Hd). pose proof (evict_manifests_evicted manifests lifetime max_size now fs) as Hev.
  split_and!; [by intros rest node E%collected_sub; eapply Hb|by intros rest node E%collected_sub; eapply Hm|].
  intros path bytes mode mtime m Hpath E Hjson digest Hin Hhash.
  pose proof (collected_sub _ _ _ _ _ _ E) as E0. apply swept_sub in E. apply swept_reachable; [done| |].
  - destruct (ev_kept _ _ _ _ _ _ Hev _ (entry_of_manifest _ _ _ _ _ _ Hpath E0 Hjson)) as [Hnone|Hsub].
    + cbn in Hnone. congruence.
    + apply Hsub. unfold hashes_of. apply elem_of_list_to_set. by apply list_elem_of_fmap_2.
  - destruct (Hd _ _ _ _ _ Hpath E0 Hjson _ Hin Hhash) as (b & mo & t & Ed). exists b, mo, t.
    destruct (ev_frame _ _ _ _ _ _ Hev (object_path blobs (digest_hash digest)))
      as [->|[_ (e & He & Heq & _)]]; [done|].
    destruct (entry_path_below _ _ He) as [rest Hrest]. rewrite Hrest in Heq. by eapply Hapart in Heq.
Qed.

(** Without a budget, a manifest that was used within the lifetime survives. *)
Lemma collected_survives lifetime now fs path bytes mode mtime :
  stores_apart l → is_Some (object_entry manifests path) →
  fs !! path = Some (FileNode bytes mode mtime) → (file_age now mtime <= lifetime)%Z →
  collected lifetime None now fs !! path = Some (FileNode bytes mode mtime).
Proof.
  intros Hapart Hpath E Hage. destruct (object_entry_below _ _ Hpath) as [rest ->].
  unfold collected. rewrite swept_frame by by apply stores_apart_prefix.
  destruct (ev_frame _ _ _ _ _ _ (evict_manifests_evicted manifests lifetime None now fs)
    (objects_dir manifests ++ rest)%list) as [->|[_ (e & He & Heq & [Hold|?])]]; [done| |done].
  apply list_elem_of_omap in He as (p & _ & He). unfold manifest_entry in He.
  destruct (file_at fs p) as [[[b mo] t]|] eqn:Ef; [|done]. cbn in He.
  destruct (manifest_from_json b); [|done..]. injection He as <-. cbn in Heq, Hold. subst p.
  rewrite (file_at_file _ _ _ _ _ E) in Ef. injection Ef as _ _ <-. lia.
Qed.
End Gc.
