(* ===== verification/CacheRoundTrip.v ===== *)
(** * From the outputs of a task into the cache and back

What is packed into a manifest and stored in the local backend is hydrated and
unpacked to the same files. *)

From S2P Require Import Prelude Errors FileSystem Target GraphUtils Shapes Config Affected Action Blobs Manifest CacheStorage CacheFacts LocalStorageFacts.

Section RoundTrip.
Context `{Sha256, ManifestJson, RelativePathLib, DirWalk} {R : Type} (l : LocalStorage).
Context {LS : Sha256Laws _} {LJ : ManifestJsonLaws _} {LP : RelativePathLaws _}.
Implicit Types (w : World R).

Abbreviation blobs := (ls_blobs l).
Abbreviation manifests := (ls_manifests l).

Lemma Digest_from_bytes_Ok bytes :
  Digest_from_bytes bytes = Ok (mkDigest (sha256 bytes) (Z.of_nat (String.length bytes))).
Proof. unfold Digest_from_bytes, ContentHash_hash_bytes, ContentHash_from_hex. by rewrite sha256_hex. Qed.

Lemma Digest_from_file_Ok w path bytes mode mtime :
  w_fs w !! path = Some (FileNode bytes mode mtime) →
  Digest_from_file path w = (Ok (mkDigest (sha256 bytes) (Z.of_nat (String.length bytes))), w).
Proof.
  intros E%file_at_file. unfold Digest_from_file, mbind, stateful_bind, fs_metadata, read_file_bytes.
  rewrite E. cbn. rewrite E.
  unfold pure_result, ContentHash_hash_bytes, ContentHash_from_hex. by rewrite sha256_hex.
Qed.

(** ** Packing *)

Variable root : Path.

(** The entry of the regular file [path]. *)
Definition packs (fs : FileSystem) (path : Path) (f : ManifestFile) : Prop :=
  ∃ bytes mode mtime rel,
    fs !! path = Some (FileNode bytes mode mtime) ∧ path_relative_to path root = Ok rel ∧
    f = mkManifestFile None (Some (mkDigest (sha256 bytes) (Z.of_nat (String.length bytes))))
          (is_file_executable mode) (Some mtime) rel (Some path) (Some mode).

(** A regular file of the workspace. *)
Definition output_file (fs : FileSystem) (path : Path) : Prop :=
  ∃ rest bytes mode mtime, path = (root ++ rest)%list ∧ Forall plain_part rest ∧
    fs !! path = Some (FileNode bytes mode mtime).

Lemma inherit_output_file m w path :
  output_file (w_fs w) path →
  ∃ f, packs (w_fs w) path f ∧
    inherit_output root m path w = (Ok (m_set_files m (m_files m ++ [f])%list), w).
Proof.
  intros (rest & bytes & mode & mtime & -> & Hrest & E).
  destruct (path_relative_to_below root rest Hrest) as (rel & Hrel & _ & _).
  eexists. split; [by exists bytes, mode, mtime, rel|].
  unfold inherit_output. rewrite (proj2 (path_has_prefix_true _ _)) by eauto.
  unfold with_state, is_symlink. rewrite E. unfold is_file. rewrite (file_at_file _ _ _ _ _ E).
  unfold insert_file, mbind, stateful_bind. unfold fs_metadata at 1.
  rewrite (file_at_file _ _ _ _ _ E). rewrite (Digest_from_file_Ok _ _ _ _ _ E). cbn.
  unfold pure_result, resolve_rel_path. by rewrite Hrel.
Qed.

Lemma pack_outputs m w outputs :
  Forall (output_file (w_fs w)) outputs →
  ∃ files, Forall2 (packs (w_fs w)) outputs files ∧
    stateful_fold (inherit_output root) m outputs w = (Ok (m_set_files m (m_files m ++ files)%list), w).
Proof.
  intros Hout. revert m. induction Hout as [|path outputs Hpath _ IH]; intros m.
  - exists []. split; [constructor|]. cbn. rewrite app_nil_r. by destruct m.
  - destruct (inherit_output_file m w path Hpath) as (f & Hf & Hrun).
    destruct (IH (m_set_files m (m_files m ++ [f])%list)) as (files & Hfiles & Hfold).
    exists (f :: files). split; [by constructor|]. cbn [stateful_fold].
    unfold mbind, stateful_bind. rewrite Hrun, Hfold. cbn. by rewrite <- app_assoc.
Qed.

(** ** Contents of the store *)

(** Every object has the hash it is filed under. *)
Definition cas_sound (store : CasStore) (fs : FileSystem) : Prop :=
  ∀ hash bytes mode mtime, fs !! object_path store hash = Some (FileNode bytes mode mtime) →
    sha256 bytes = hash.

Definition input_sound (fs : FileSystem) (input : BlobInput) : Prop :=
  match input_content input with
  | Inline bytes => sha256 bytes = digest_hash (input_digest input)
  | BlobFile path => path_has_prefix (objects_dir blobs) path = false ∧
      ∃ bytes mode mtime, fs !! path = Some (FileNode bytes mode mtime) ∧
        sha256 bytes = digest_hash (input_digest input)
  end.

Lemma input_sound_grow w w' input :
  blobs_grow l w w' → input_sound (w_fs w) input → input_sound (w_fs w') input.
Proof.
  intros (_ & Hframe & _). unfold input_sound. destruct (input_content input) as [path|bytes]; [|done].
  intros [Hpath Hfile]. split; [done|]. by rewrite Hframe.
Qed.

Definition sound_grow (inputs : list BlobInput) w w' : Prop :=
  blobs_grow l w w' ∧
  (Forall (input_sound (w_fs w)) inputs → cas_sound blobs (w_fs w) → cas_sound blobs (w_fs w')).

#[export] Instance sound_grow_preorder inputs : PreOrder (sound_grow inputs).
Proof.
  split; [intros w; split; [reflexivity|done]|].
  intros w1 w2 w3 [Hg1 Hs1] [Hg2 Hs2]. split; [by etrans|]. intros Hin Hsound. apply Hs2; [|auto].
  eapply Forall_impl; [exact Hin|]. intros. by eapply input_sound_grow.
Qed.

Lemma insert_sound fs hash bytes mode mtime :
  cas_sound blobs fs → sha256 bytes = hash →
  cas_sound blobs (<[object_path blobs hash := FileNode bytes mode mtime]> fs).
Proof.
  intros Hsound Hhash h b mo t [[Heq [= <- _ _]]|[_ E]]%lookup_insert_Some; [|by eapply Hsound].
  apply object_path_inj in Heq. congruence.
Qed.

Lemma local_store_blob_sound inputs digests input :
  input ∈ inputs → evolves (sound_grow inputs) (local_store_blob l digests input).
Proof.
  intros Hin w. split; [apply local_store_blob_grows|]. intros Hall Hsound.
  rewrite Forall_forall in Hall. specialize (Hall input Hin).
  unfold local_store_blob, mbind, stateful_bind, input_sound in *.
  destruct (input_content input) as [path|bytes].
  - destruct Hall as (_ & bytes & mode & mtime & E & Hhash). unfold cas_write_file.
    rewrite (file_at_file _ _ _ _ _ E). cbn. by apply insert_sound.
  - unfold cas_write. cbn. by apply insert_sound.
Qed.

Lemma store_blobs_batched_sound inputs :
  evolves (sound_grow inputs) (store_blobs_batched (local_backend l) inputs).
Proof.
  intros w. unfold store_blobs_batched, mbind, stateful_bind, attempt. rewrite find_missing_local. cbn.
  destruct (filter (absent l (w_fs w)) _) as [|d ds]; [reflexivity|].
  set (batches := create_batches (λ source, digest_size (input_digest source))
    (filter (λ source, input_digest source ∈ d :: ds) (dedup_inputs ∅ inputs)) 0).
  assert (evolves (sound_grow inputs) (join_batches
    (λ batch, local_store_blobs l (batch_items batch) (batch_stream batch)) batches)) as Hjoin.
  { apply join_batches_evolves; [apply _|]. intros batch Hbatch.
    apply evolves_fold; [apply _|]. intros b x Hx. apply local_store_blob_sound.
    assert (x ∈ all_items batches) as Hall by (apply list_elem_of_bind; eauto).
    unfold batches in Hall. rewrite chunk_all_items in Hall.
    apply list_elem_of_filter in Hall as [_ Hall]. by eapply dedup_inputs_sub. }
  specialize (Hjoin w). change (chunk_into_batches _ _) with batches.
  destruct (join_batches _ batches w) as [[[ups failed]|e|] w']; exact Hjoin.
Qed.

(** ** Storing succeeds *)

Lemma local_store_blobs_total inputs stream w :
  Forall (input_sound (w_fs w)) inputs → ∃ digests w', local_store_blobs l inputs stream w = (Ok digests, w').
Proof.
  unfold local_store_blobs. generalize (@nil Digest). revert w.
  induction inputs as [|input inputs IH]; intros w acc Hin; [by eexists _, _|].
  apply Forall_cons in Hin as [Hinput Hin]. cbn [stateful_fold].
  assert (∃ ds w1, local_store_blob l acc input w = (Ok ds, w1)) as (ds & w1 & Hrun).
  { unfold local_store_blob, mbind, stateful_bind, input_sound in *.
    destruct (input_content input) as [path|bytes]; [|by eexists _, _].
    destruct Hinput as (_ & bytes & mode & mtime & E & _). unfold cas_write_file.
    rewrite (file_at_file _ _ _ _ _ E). by eexists _, _. }
  unfold mbind, stateful_bind. rewrite Hrun. apply IH. eapply Forall_impl; [exact Hin|].
  intros x. apply input_sound_grow. pose proof (local_store_blob_grows l acc input w) as Hgrow.
  by rewrite Hrun in Hgrow.
Qed.

Lemma join_local_total batches w :
  Forall (input_sound (w_fs w)) (all_items batches) →
  ∃ digests w', join_batches (λ batch, local_store_blobs l (batch_items batch) (batch_stream batch))
    batches w = (Ok (digests, false), w').
Proof.
  revert w. induction batches as [|batch batches IH]; intros w Hin; [by eexists _, _|].
  apply Forall_app in Hin as [Hbatch Hin]. cbn [join_batches].
  destruct (local_store_blobs_total _ (batch_stream batch) w Hbatch) as (ds & w1 & Hrun).
  unfold mbind, stateful_bind, attempt. rewrite Hrun.
  destruct (IH w1) as (digests & w' & Hrest).
  { eapply Forall_impl; [exact Hin|]. intros x. apply input_sound_grow.
    pose proof (local_store_blobs_grows l (batch_items batch) (batch_stream batch) w) as Hgrow.
    by rewrite Hrun in Hgrow. }
  rewrite Hrest. by eexists _, _.
Qed.

Lemma filter_digests_missing (P : Digest → Prop) `{!∀ d, Decision (P d)} (inputs : list BlobInput) :
  input_digest <$> filter (λ i, input_digest i ∈ filter P (input_digest <$> inputs)) inputs =
  filter P (input_digest <$> inputs).
Proof.
  assert (∀ sub : list BlobInput, (∀ i, i ∈ sub → i ∈ inputs) →
    input_digest <$> filter (λ i, input_digest i ∈ filter P (input_digest <$> inputs)) sub =
    filter P (input_digest <$> sub)) as Hgen; [|by apply Hgen].
  intros sub. induction sub as [|i sub IH]; intros Hsub; [done|]. rewrite filter_cons. cbn [fmap list_fmap].
  rewrite filter_cons. destruct (decide (P (input_digest i))) as [HP|HP].
  - rewrite decide_True; [cbn; rewrite IH; [done|]; intros; apply Hsub; by right|].
    apply list_elem_of_filter. split; [done|]. apply list_elem_of_fmap_2, Hsub. by left.
  - rewrite decide_False; [apply IH; intros; apply Hsub; by right|]. by intros [? _]%list_elem_of_filter.
Qed.

Lemma store_blobs_batched_total inputs w :
  Forall (input_sound (w_fs w)) inputs →
  ∃ res w', store_blobs_batched (local_backend l) inputs w = (Ok res, w') ∧ st_success res = true.
Proof.
  intros Hin. unfold store_blobs_batched, mbind, stateful_bind, attempt. rewrite find_missing_local.
  pose proof (filter_digests_missing (absent l (w_fs w)) (dedup_inputs ∅ inputs)) as Hcount.
  destruct (filter (absent l (w_fs w)) _) as [|d ds] eqn:Hmissing; [by eexists _, _|].
  set (sub := filter _ (dedup_inputs ∅ inputs)) in Hcount |- *.
  set (batches := create_batches (λ source, digest_size (input_digest source)) sub 0).
  destruct (join_local_total batches w) as (digests & w' & Hjoin).
  { unfold batches. rewrite chunk_all_items. apply Forall_forall. intros i [_ Hi]%list_elem_of_filter.
    rewrite Forall_forall in Hin. apply Hin. by eapply dedup_inputs_sub. }
  eexists _, w'. split.
  - change (create_batches _ _ _) with batches. change (b_store_blobs (local_backend l)) with (local_store_blobs (R := R) l).
    rewrite Hjoin. cbn. reflexivity.
  - cbn. apply (join_local_Ok l) in Hjoin as [-> _]. unfold batches. rewrite chunk_all_items, Hcount.
    apply Nat.eqb_refl.
Qed.

(** ** Persisting a manifest *)

Lemma store_manifest_stored digest m w :
  store_shaped manifests (w_fs w) → contains_object (w_fs w) manifests (digest_hash digest) = false →
  (attempt (b_store_manifest (local_backend l) digest m);; mret tt) w =
  (Ok tt, w_set_fs w (<[object_path manifests (digest_hash digest) :=
    FileNode (manifest_to_json m) default_mode (w_now w)]> (w_fs w))).
Proof.
  intros Hshape Hfresh. unfold mbind, stateful_bind, attempt. cbn [b_store_manifest local_backend].
  unfold local_store_manifest, with_state. rewrite Hfresh.
  unfold mbind, stateful_bind, pure_result, Blob_from_bytes. by rewrite Digest_from_bytes_Ok.
Qed.

(** What a cache holds after a manifest was persisted in it. *)
Record persisted (digest : Digest) (m : Manifest) (workspace_root : Path) (fs : FileSystem) : Prop := {
  ps_manifest : ∃ m' mode mtime, m_persisted m' = m_persisted (m_set_uploaded m
      (m_upload_started_at m') (m_upload_completed_at m')) ∧
    fs !! object_path manifests (digest_hash digest) = Some (FileNode (manifest_to_json m') mode mtime);
  ps_blobs : ∀ input, input ∈ collect_blob_inputs m workspace_root →
    has_object blobs fs (digest_hash (input_digest input));
  ps_blobs_shaped : store_shaped blobs fs;
  ps_manifests_shaped : store_shaped manifests fs;
  ps_sound : cas_sound blobs fs;
}.

Lemma insert_manifest_persisted digest m m' workspace_root fs mode mtime :
  stores_apart l → store_shaped blobs fs → store_shaped manifests fs → cas_sound blobs fs →
  (∀ input, input ∈ collect_blob_inputs m workspace_root →
    has_object blobs fs (digest_hash (input_digest input))) →
  m_persisted m' = m_persisted (m_set_uploaded m (m_upload_started_at m') (m_upload_completed_at m')) →
  persisted digest m workspace_root
    (<[object_path manifests (digest_hash digest) := FileNode (manifest_to_json m') mode mtime]> fs).
Proof.
  intros Hapart Hsb Hsm Hsound Hblobs Heq.
  assert (∀ r node, fs !! (objects_dir blobs ++ r)%list = node →
    <[object_path manifests (digest_hash digest) := FileNode (manifest_to_json m') mode mtime]> fs
      !! (objects_dir blobs ++ r)%list = node) as Hframe.
  { intros r node <-. apply lookup_insert_ne. intros Hpath. by eapply Hapart. }
  split.
  - exists m', mode, mtime. split; [done|]. apply lookup_insert_eq.
  - intros input (b & mo & t & E)%Hblobs. exists b, mo, t. by apply Hframe.
  - intros rest node E. rewrite (Hframe rest _ eq_refl) in E. by eapply Hsb.
  - by apply insert_shaped.
  - intros h b mo t E. apply (Hsound h b mo t). 
    change (object_path blobs h) with (objects_dir blobs ++ [hash_prefix h; hash_suffix h])%list in E.
    by rewrite (Hframe [hash_prefix h; hash_suffix h] _ eq_refl) in E.
Qed.

Lemma persist_stored workspace_root digest m w :
  stores_apart l → store_shaped blobs (w_fs w) → store_shaped manifests (w_fs w) →
  cas_sound blobs (w_fs w) → contains_object (w_fs w) manifests (digest_hash digest) = false →
  Forall (input_sound (w_fs w)) (collect_blob_inputs m workspace_root) →
  ∃ w', persist_manifest_in_backend workspace_root (local_backend l) digest m w = (Ok tt, w') ∧
    persisted digest m workspace_root (w_fs w').
Proof.
  intros Hapart Hsb Hsm Hsound Hfresh Hinputs. unfold persist_manifest_in_backend.
  cbn [b_store_manifests local_backend].
  destruct (collect_blob_inputs m workspace_root) as [|input inputs] eqn:Hcollect.
  - eexists. split; [by apply store_manifest_stored|]. apply insert_manifest_persisted; [done..| |by destruct m].
    rewrite Hcollect. by intros ? ?%not_elem_of_nil.
  - rewrite <- Hcollect in Hinputs |- *. set (all := collect_blob_inputs m workspace_root) in *.
    destruct (store_blobs_batched_total all w Hinputs) as (res & w1 & Hrun & Hsuccess).
    pose proof (store_blobs_batched_sound all w) as Hgrow. rewrite Hrun in Hgrow.
    destruct Hgrow as [(_ & Hframe & Hshape & _) Hsound1]. cbn in *.
    assert (store_shaped manifests (w_fs w1)) as Hsm1.
    { intros rest node E. rewrite Hframe in E by by apply stores_apart_prefix. by eapply Hsm. }
    assert (contains_object (w_fs w1) manifests (digest_hash digest) = false) as Hfresh1.
    { apply not_true_iff_false. intros (b & mo & t & E)%contains_object_has; [|done].
      unfold object_path in E. rewrite Hframe in E by by apply stores_apart_prefix.
      rewrite <- not_true_iff_false in Hfresh. apply Hfresh, contains_object_has; [done|].
      by exists b, mo, t. }
    unfold with_state at 1, mbind at 1, stateful_bind at 1. rewrite Hrun. unfold with_state. rewrite Hsuccess.
    eexists. split; [by apply store_manifest_stored|].
    apply insert_manifest_persisted; [done|auto|done|auto| |by destruct m].
    intros i Hi. by eapply store_blobs_batched_stored.
Qed.

(** ** Hydrating a stored manifest *)

(** The blobs that are handed out are references to the objects. *)
Definition object_output (digest : Digest) : BlobOutput :=
  mkBlobOutput (BlobFile (object_path blobs (digest_hash digest))) digest.

Lemma omap_all {A B} (f : A → option B) (g : A → B) (xs : list A) :
  (∀ x, x ∈ xs → f x = Some (g x)) → omap f xs = g <$> xs.
Proof.
  induction xs as [|x xs IH]; intros Hf; [done|]. cbn. rewrite (Hf x) by by left.
  f_equal. apply IH. intros. apply Hf. by right.
Qed.

Lemma retrieve_local digests w :
  store_shaped blobs (w_fs w) → (∀ d, d ∈ digests → has_object blobs (w_fs w) (digest_hash d)) →
  ∃ res, retrieve_blobs_batched (local_backend l) digests w = (Ok res, w) ∧
    rt_blobs res = object_output <$> digests.
Proof.
  intros Hshape Hhas. unfold retrieve_blobs_batched. cbn [b_max_batch_total_size_bytes b_retrieve_blobs local_backend].
  assert (∀ batches, (∀ d, d ∈ all_items batches → has_object blobs (w_fs w) (digest_hash d)) →
    join_batches (λ batch, local_retrieve_blobs (R := R) l (batch_items batch) (batch_stream batch)) batches w =
    (Ok (object_output <$> all_items batches, false), w)) as Hjoin.
  { intros batches. induction batches as [|batch batches IH]; intros Hall; [done|].
    unfold all_items in Hall, IH |- *. cbn in Hall |- *.
    assert (local_retrieve_blobs (R := R) l (batch_items batch) (batch_stream batch) w =
      (Ok (object_output <$> batch_items batch), w)) as Hone.
    { unfold local_retrieve_blobs, with_state. rewrite (omap_all _ object_output); [done|].
      intros d Hd. rewrite (proj2 (contains_object_has blobs (w_fs w) (digest_hash d) Hshape)); [done|].
      apply Hall, elem_of_app. by left. }
    unfold mbind, stateful_bind, attempt. rewrite Hone. fold (@stateful_bind (World R)).
    rewrite IH by (intros; apply Hall, elem_of_app; by right). cbn. by rewrite fmap_app. }
  unfold mbind, stateful_bind. rewrite Hjoin by (by rewrite chunk_all_items). rewrite chunk_all_items. by eexists.
Qed.

Lemma blobs_map_lookup digests (d : Digest) :
  fold_left (λ m blob, <[output_digest blob := output_content blob]> m) (object_output <$> digests)
    (∅ : gmap Digest BlobContent) !! d =
  if decide (d ∈ digests) then Some (BlobFile (object_path blobs (digest_hash d))) else None.
Proof.
  induction digests as [|x digests IH] using rev_ind; [done|].
  rewrite fmap_app, fold_left_app. cbn [fmap list_fmap fold_left object_output output_digest output_content].
  destruct (decide (x = d)) as [->|Hne].
  - rewrite lookup_insert_eq, decide_True; [done|]. apply elem_of_app. right. by left.
  - rewrite lookup_insert_ne, IH by done. apply decide_ext.
    rewrite elem_of_app, list_elem_of_singleton. naive_solver.
Qed.

(** A file of a stored manifest once its blob is known. *)
Definition sourced (f : ManifestFile) : ManifestFile :=
  match wanted (mf_digest f) with
  | Some d => mkManifestFile None (mf_digest f) (mf_is_executable f) (mf_modified_at f) (mf_path f)
                (Some (object_path blobs (digest_hash d))) (mf_unix_mode f)
  | None => f
  end.

Lemma wanted_mem m d : d ∈ collect_blob_digests m → wanted (Some d) = Some d.
Proof.
  assert (∀ digest, wanted digest = Some d → wanted (Some d) = Some d) as Hw.
  { intros digest Hd. pose proof (wanted_Some _ _ Hd) as ->. done. }
  unfold collect_blob_digests. rewrite !elem_of_app, list_elem_of_bind.
  intros [Hd%elem_of_option_list|[Hd%elem_of_option_list|(f & Hd%elem_of_option_list & _)]]; by eapply Hw.
Qed.

Lemma unhydrated_persisted m :
  collect_unhydrated_blob_digests (m_persisted m) = collect_blob_digests (m_persisted m).
Proof.
  unfold collect_unhydrated_blob_digests, collect_blob_digests, m_persisted. cbn. do 2 f_equal.
  induction (m_files m) as [|f files IH]; [done|]. cbn. by rewrite IH.
Qed.

Lemma not_wanted d : (0 <= digest_size d)%Z → wanted (Some d) = None → (digest_size d =? 0)%Z = true.
Proof. unfold wanted. cbn. destruct (Z.ltb_spec 0 (digest_size d)); [done|]. intros. apply Z.eqb_eq. lia. Qed.

Definition size_known (digest : option Digest) : Prop :=
  match digest with Some d => (0 <= digest_size d)%Z | None => True end.

Section Hydrated.
Context (w : World R) (digests : list Digest) (blobs_map : gmap Digest BlobContent).
Hypothesis Hmap : ∀ d, blobs_map !! d =
  if decide (d ∈ digests) then Some (BlobFile (object_path blobs (digest_hash d))) else None.
Hypothesis Hhas : ∀ d, d ∈ digests → has_object blobs (w_fs w) (digest_hash d).
Hypothesis Hwanted : ∀ d, d ∈ digests → wanted (Some d) = Some d.

Lemma hydrate_stdio_local digest :
  (∀ d, wanted digest = Some d → d ∈ digests) → size_known digest →
  ∃ bytes, hydrate_stdio None digest blobs_map w = (Ok bytes, w) ∧ resolved bytes digest = true.
Proof.
  intros Hin Hsize. unfold hydrate_stdio. destruct digest as [d|]; [|by eexists]. cbn [mbind option_bind].
  rewrite Hmap. case_decide as Hd.
  - destruct (Hhas d Hd) as (b & mo & t & E). unfold mbind, stateful_bind, blob_read_bytes, read_file_bytes.
    rewrite (file_at_file _ _ _ _ _ E). by eexists.
  - exists None. split; [done|]. cbn [resolved]. apply not_wanted; [done|].
    destruct (wanted (Some d)) as [d'|] eqn:Hw; [|done].
    pose proof (wanted_Some _ _ Hw) as [= <-]. by specialize (Hin d eq_refl).
Qed.

Lemma hydrate_file_local f :
  (∀ d, wanted (mf_digest f) = Some d → d ∈ digests) → size_known (mf_digest f) →
  hydrate_file blobs_map (mf_persisted f) = sourced (mf_persisted f) ∧
  is_file_hydrated (sourced (mf_persisted f)) = true.
Proof.
  intros Hin Hsize. unfold hydrate_file, sourced, mf_persisted, is_file_hydrated.
  cbn [mf_bytes mf_source_path mf_digest]. destruct (mf_digest f) as [d|]; [|done].
  cbn [mbind option_bind]. rewrite Hmap. case_decide as Hd.
  - by rewrite (Hwanted d Hd).
  - destruct (wanted (Some d)) as [d'|] eqn:Hw.
    + pose proof (wanted_Some _ _ Hw) as [= <-]. by specialize (Hin d eq_refl).
    + split; [done|]. cbn. by apply not_wanted.
Qed.
End Hydrated.

(** Every digest of a manifest has a size. *)
Definition sizes_known (m : Manifest) : Prop :=
  size_known (m_stderr_digest m) ∧ size_known (m_stdout_digest m) ∧
  ∀ f, f ∈ m_files m → size_known (mf_digest f).

Lemma hydrate_local m w :
  store_shaped blobs (w_fs w) → sizes_known m →
  (∀ d, d ∈ collect_blob_digests m → has_object blobs (w_fs w) (digest_hash d)) →
  ∃ blobs_map m', hydrate_manifest_from_backend (local_backend l) (m_persisted m) w =
    (Ok (blobs_map, m'), w) ∧
    is_hydrated m' = true ∧ m_files m' = (sourced ∘ mf_persisted) <$> m_files m ∧
    m_symlinks m' = m_symlinks m ∧ m_exit_code m' = m_exit_code m.
Proof.
  intros Hshape (Hserr & Hsout & Hsfiles) Hhas. unfold hydrate_manifest_from_backend.
  rewrite unhydrated_persisted, collect_persisted. set (ds := collect_blob_digests m) in *.
  destruct (retrieve_local ds w Hshape Hhas) as (res & Hret & Hblobs).
  unfold mbind at 1, stateful_bind at 1. rewrite Hret. cbv zeta. rewrite Hblobs.
  pose proof (blobs_map_lookup ds) as Hmap. set (blobs_map := fold_left _ _ _) in Hmap |- *.
  pose proof (wanted_mem m) as Hwanted.
  destruct (hydrate_stdio_local w ds blobs_map Hmap Hhas (m_stderr_digest m)) as (eb & Herr & Herr'); [|done|].
  { intros d Hd. subst ds. unfold collect_blob_digests. rewrite elem_of_app, Hd. left. by left. }
  destruct (hydrate_stdio_local w ds blobs_map Hmap Hhas (m_stdout_digest m)) as (ob & Hout & Hout'); [|done|].
  { intros d Hd. subst ds. unfold collect_blob_digests. rewrite !elem_of_app, Hd. right; left. by left. }
  assert (∀ f, f ∈ m_files m → hydrate_file blobs_map (mf_persisted f) = sourced (mf_persisted f) ∧
    is_file_hydrated (sourced (mf_persisted f)) = true) as Hfiles.
  { intros f Hf. eapply hydrate_file_local; [exact Hmap|exact Hwanted| |by apply Hsfiles].
    intros d Hd. subst ds. unfold collect_blob_digests. rewrite !elem_of_app, list_elem_of_bind.
    right; right. exists f. split; [|done]. by apply elem_of_option_list. }
  unfold Manifest_hydrate, mbind, stateful_bind. cbn [m_stderr_bytes m_stderr_digest m_stdout_bytes m_stdout_digest m_persisted].
  rewrite Herr, Hout. eexists _, _. split; [reflexivity|].
  assert (hydrate_file blobs_map <$> m_files (m_persisted m) = (sourced ∘ mf_persisted) <$> m_files m) as Heq.
  { cbn. rewrite <- list_fmap_compose. apply list_fmap_ext. intros i f Hi. apply Hfiles. by eapply list_elem_of_lookup_2. }
  cbn [m_files m_symlinks m_exit_code]. rewrite Heq. split_and!; [|done..].
  unfold is_hydrated. cbn. rewrite Herr', Hout'. cbn. apply forallb_forall. intros f Hf%list_elem_of_In.
  change ((sourced ∘ mf_persisted) <$> m_files m) with (fmap (sourced ∘ mf_persisted) (m_files m)) in Hf.
  apply list_elem_of_fmap in Hf as (f0 & -> & Hf0). by apply Hfiles.
Qed.

(** ** Loading a stored manifest *)

Lemma load_local s rest_backends digest m w :
  get_backends s = local_backend l :: rest_backends → verify_integrity manifests = false →
  persisted digest m root (w_fs w) →
  ∃ src m' mode,
    load_manifest s digest w = (Ok (Some src), w_set_fs w
      (<[object_path manifests (digest_hash digest) := FileNode (manifest_to_json m') mode (w_now w)]> (w_fs w))) ∧
    source_backend src = local_backend l ∧ source_manifest src = m_persisted m' ∧
    m_persisted m' = m_persisted (m_set_uploaded m (m_upload_started_at m') (m_upload_completed_at m')).
Proof.
  intros Hbackends Hverify [(m' & mode & mtime & Heq & E) _ _ Hshape _].
  unfold load_manifest. rewrite Hbackends. cbn [load_manifest_from b_readable b_retrieve_manifest local_backend].
  assert (contains_object (w_fs w) manifests (digest_hash digest) = true) as Hc.
  { apply contains_object_has; [done|]. by eexists _, _, _. }
  eexists (mkManifestSource (local_backend l) (m_persisted m') _), m', mode. split; [|done].
  unfold mbind at 1, stateful_bind at 1. unfold local_retrieve_manifest, with_state. rewrite Hc.
  unfold mbind, stateful_bind, cas_read, mbind, stateful_bind, object_path_with_exists_check. rewrite Hc.
  unfold read_file_bytes. rewrite (file_at_file _ _ _ _ _ E).
  unfold pure_result, check_integrity. rewrite Hverify. cbn [andb mret stateful_ret].
  cbv beta iota. rewrite manifest_json_roundtrip. unfold attempt, cas_touch, mbind, stateful_bind, object_path_with_exists_check, with_state, set_modified.
  rewrite Hc, E. reflexivity.
Qed.

(** ** Unpacking *)

Context (Hroot : ∃ body, root = "/"%string :: body ∧ Forall plain_part body).

Lemma logical_plain rest base : Forall plain_part rest → fold_left logical_step rest base = (base ++ rest)%list.
Proof.
  intros Hrest. revert base. induction Hrest as [|part rest ((_ & ? & ?) & _) _ IH]; intros base; cbn;
    [by rewrite app_nil_r|]. unfold logical_step at 2. rewrite !decide_False by done.
  by rewrite IH, <- app_assoc.
Qed.

Lemma resolve_packed rest rel :
  Forall plain_part rest → path_relative_to (root ++ rest)%list root = Ok rel →
  resolve_abs_path root rel = Ok (root ++ rest)%list.
Proof.
  intros Hrest Hrel. destruct (path_relative_to_below root rest Hrest) as (rel' & Hrel' & Hslash & Hparts).
  assert (rel' = rel) as -> by congruence. unfold resolve_abs_path. rewrite Hparts.
  assert (is_absolute rest = false) as ->.
  { destruct Hrest as [|part rest ((? & _) & _) _]; [done|]. cbn. by apply String.eqb_neq. }
  rewrite to_logical_path_parts, Hparts, logical_plain by done.
  destruct Hroot as (body & -> & Hbody). cbn [app]. rewrite clean_plain by (apply Forall_app; split; by apply plain_clean).
  change ("/"%string :: body ++ rest) with (("/"%string :: body) ++ rest)%list.
  by rewrite (proj2 (path_has_prefix_true _ _)) by eauto.
Qed.

Lemma write_sourced w path source bytes smode smtime f mode mtime :
  w_fs w !! source = Some (FileNode bytes smode smtime) → mf_source_path f = Some source →
  mf_modified_at f = Some mtime → mf_unix_mode f = Some mode →
  write_output_file path f w = (Ok tt, w_set_fs w (<[path := FileNode bytes mode mtime]> (w_fs w))).
Proof.
  intros E Hsource Hmtime Hmode. unfold write_output_file. rewrite Hsource, Hmtime, Hmode.
  unfold mbind, stateful_bind, reflink_file. rewrite (file_at_file _ _ _ _ _ E).
  unfold grant_owner_write_access, fs_metadata. cbn [w_fs w_set_fs].
  rewrite (file_at_file _ path bytes smode (w_now w)) by apply lookup_insert_eq.
  unfold set_permissions, set_modified. cbn [w_fs w_set_fs w_now w_remote].
  rewrite lookup_insert_eq. cbn. rewrite !lookup_insert_eq. unfold w_set_fs. cbn.
  rewrite !insert_insert_eq, lookup_insert_eq. by rewrite insert_insert_eq.
Qed.

Lemma write_empty w path f mode mtime :
  is_symlink (w_fs w) path = false → mf_source_path f = None → mf_bytes f = None →
  mf_modified_at f = Some mtime → mf_unix_mode f = Some mode →
  write_output_file path f w = (Ok tt, w_set_fs w (<[path := FileNode "" mode mtime]> (w_fs w))).
Proof.
  intros Hlink Hsource Hbytes Hmtime Hmode. unfold write_output_file. rewrite Hsource, Hbytes, Hmtime, Hmode.
  assert (follow (w_fs w) path = Some path) as Hfollow.
  { unfold follow, follow_links, is_symlink in *. fold follow_links. by destruct (w_fs w !! path) as [[]|]. }
  unfold mbind, stateful_bind, fs_write_file. rewrite Hfollow.
  unfold set_permissions, set_modified. cbn [w_fs w_set_fs w_now w_remote].
  rewrite lookup_insert_eq. cbn. rewrite !lookup_insert_eq. unfold w_set_fs. cbn. by rewrite !insert_insert_eq.
Qed.

(** The object of a content, byte for byte. *)
Definition stored_exactly (fs : FileSystem) (bytes : string) : Prop :=
  ∃ mode mtime, fs !! object_path blobs (sha256 bytes) = Some (FileNode bytes mode mtime).

Lemma unpack_packed fs0 w path f :
  packs fs0 path f → output_file fs0 path → is_symlink (w_fs w) path = false →
  (∀ bytes mode mtime, fs0 !! path = Some (FileNode bytes mode mtime) → bytes ≠ ""%string →
    stored_exactly (w_fs w) bytes) →
  ∃ node, fs0 !! path = Some node ∧
    unpack_file root tt (sourced (mf_persisted f)) w = (Ok tt, w_set_fs w (<[path := node]> (w_fs w))).
Proof.
  intros (bytes & mode & mtime & rel & E & Hrel & ->) (rest & _ & _ & _ & -> & Hrest & _) Hlink Hstored.
  exists (FileNode bytes mode mtime). split; [done|]. unfold unpack_file.
  assert (mf_digest (sourced (mf_persisted (mkManifestFile None
    (Some (mkDigest (sha256 bytes) (Z.of_nat (String.length bytes)))) (is_file_executable mode) (Some mtime) rel
    (Some (root ++ rest)%list) (Some mode)))) = Some (mkDigest (sha256 bytes) (Z.of_nat (String.length bytes)))) as ->.
  { unfold sourced, mf_persisted. cbn. by destruct (0 <? _)%Z. }
  unfold mbind, stateful_bind, pure_result.
  assert (mf_path (sourced (mf_persisted (mkManifestFile None
    (Some (mkDigest (sha256 bytes) (Z.of_nat (String.length bytes)))) (is_file_executable mode) (Some mtime) rel
    (Some (root ++ rest)%list) (Some mode)))) = rel) as ->.
  { unfold sourced, mf_persisted. cbn. by destruct (0 <? _)%Z. }
  rewrite (resolve_packed _ _ Hrest Hrel). unfold sourced, mf_persisted. cbn.
  destruct (Z.ltb_spec 0 (Z.of_nat (String.length bytes))) as [Hlen|Hlen].
  - destruct (Hstored _ _ _ E) as (smode & smtime & Es); [by intros ->|].
    by eapply write_sourced.
  - destruct bytes as [|a bytes]; [|cbn in Hlen; lia]. by apply write_empty.
Qed.

Lemma unpack_files fs0 outputs files w :
  Forall2 (packs fs0) outputs files → Forall (output_file fs0) outputs →
  (∀ path, path ∈ outputs → is_symlink (w_fs w) path = false ∧
    path_has_prefix (objects_dir blobs) path = false) →
  (∀ path bytes mode mtime, path ∈ outputs → fs0 !! path = Some (FileNode bytes mode mtime) →
    bytes ≠ ""%string → stored_exactly (w_fs w) bytes) →
  ∃ w', stateful_fold (unpack_file root) tt ((sourced ∘ mf_persisted) <$> files) w = (Ok tt, w') ∧
    (∀ path, path ∈ outputs → w_fs w' !! path = fs0 !! path) ∧
    ∀ path, path ∉ outputs → w_fs w' !! path = w_fs w !! path.
Proof.
  intros Hpacks. revert w. induction Hpacks as [|path f outputs files Hf Hpacks IH]; intros w Hout Hpaths Hstored.
  { exists w. split; [done|]. split; [by intros ? ?%not_elem_of_nil|done]. }
  apply Forall_cons in Hout as [Hpath Hout].
  destruct (unpack_packed fs0 w path f Hf Hpath) as (node & Hnode & Hrun).
  { apply Hpaths. by left. }
  { intros. eapply Hstored; [by left|done..]. }
  set (w1 := w_set_fs w (<[path := node]> (w_fs w))) in Hrun.
  destruct Hpath as (rest & b & mo & t & Hp & _ & Enode). rewrite Hnode in Enode. injection Enode as ->.
  assert (path_has_prefix (objects_dir blobs) path = false) as Hbelow by (apply Hpaths; by left).
  destruct (IH w1 Hout) as (w' & Hrest & Hin & Hnotin).
  { intros p Hp'. destruct (Hpaths p ltac:(by right)) as [Hlink ?]. split; [|done]. unfold is_symlink in *. cbn.
    destruct (decide (path = p)) as [->|]; [by rewrite lookup_insert_eq|by rewrite lookup_insert_ne]. }
  { intros p bytes mode mtime Hp' Ep Hne. destruct (Hstored p bytes mode mtime ltac:(by right) Ep Hne) as (mo' & t' & E).
    exists mo', t'. cbn. rewrite lookup_insert_ne; [done|]. intros Heq.
    rewrite Heq, object_path_below in Hbelow. done. }
  exists w'. cbn [fmap list_fmap stateful_fold]. unfold mbind, stateful_bind. change ((sourced ∘ mf_persisted) f) with (sourced (mf_persisted f)).
  rewrite Hrun. split; [done|]. split.
  - intros p Hp'. destruct (decide (p ∈ outputs)) as [Hpo|Hpo]; [by apply Hin|].
    apply elem_of_cons in Hp' as [->|?]; [|done]. rewrite Hnotin by done. cbn. by rewrite lookup_insert_eq.
  - intros p Hp'. apply not_elem_of_cons in Hp' as [Hne Hp']. rewrite Hnotin by done. cbn. by rewrite lookup_insert_ne.
Qed.

(** The worlds agree on the two stores. *)
Definition same_stores (fs fs' : FileSystem) : Prop :=
  ∀ r, fs' !! (objects_dir blobs ++ r)%list = fs !! (objects_dir blobs ++ r)%list ∧
       fs' !! (objects_dir manifests ++ r)%list = fs !! (objects_dir manifests ++ r)%list.

Lemma same_stores_persisted digest m workspace_root fs fs' :
  same_stores fs fs' → persisted digest m workspace_root fs → persisted digest m workspace_root fs'.
Proof.
  intros Hsame [(m' & mode & mtime & Heq & E) Hblobs Hsb Hsm Hsound].
  assert (∀ h, fs' !! object_path blobs h = fs !! object_path blobs h) as Hb by (intros; apply Hsame).
  assert (∀ h, fs' !! object_path manifests h = fs !! object_path manifests h) as Hm by (intros; apply Hsame).
  split.
  - exists m', mode, mtime. by rewrite Hm.
  - intros input Hi. unfold has_object. rewrite Hb. by apply Hblobs.
  - intros rest node E'. rewrite (proj1 (Hsame rest)) in E'. by eapply Hsb.
  - intros rest node E'. rewrite (proj2 (Hsame rest)) in E'. by eapply Hsm.
  - intros h b mo t E'. rewrite Hb in E'. by eapply Hsound.
Qed.

(** No object of the store has the hash, but not the content, of an output. *)
Definition no_collision (fs0 fs : FileSystem) (outputs : list Path) : Prop :=
  ∀ path bytes mode mtime bytes' mode' mtime', path ∈ outputs →
    fs0 !! path = Some (FileNode bytes mode mtime) →
    fs !! object_path blobs (sha256 bytes) = Some (FileNode bytes' mode' mtime') →
    sha256 bytes' = sha256 bytes → bytes' = bytes.

Lemma stored_outputs digest m fs0 fs outputs :
  Forall2 (packs fs0) outputs (m_files m) → persisted digest m root fs → no_collision fs0 fs outputs →
  ∀ path bytes mode mtime, path ∈ outputs → fs0 !! path = Some (FileNode bytes mode mtime) →
    bytes ≠ ""%string → stored_exactly fs bytes.
Proof.
  intros Hpacks [_ Hblobs _ _ Hsound] Hcoll path bytes mode mtime Hpath E Hne.
  apply list_elem_of_lookup in Hpath as [i Hi]. destruct (Forall2_lookup_l _ _ _ _ _ Hpacks Hi) as (f & Hf & Hpack).
  destruct Hpack as (b & mo & t & rel & E' & _ & ->). rewrite E in E'. injection E' as <- <- <-.
  apply list_elem_of_lookup_2 in Hf, Hi.
  destruct (Hblobs (mkBlobInput (BlobFile path) (mkDigest (sha256 bytes) (Z.of_nat (String.length bytes)))))
    as (b' & mo' & t' & Eo).
  { unfold collect_blob_inputs. rewrite !elem_of_app. right; left. apply list_elem_of_omap.
    eexists. split; [exact Hf|]. unfold collect_file. cbn. do 2 f_equal.
    destruct (Z.eqb_spec (Z.of_nat (String.length bytes)) 0); [|done]. by destruct bytes. }
  cbn in Eo. exists mo', t'. rewrite Eo. do 2 f_equal. eapply Hcoll; [exact Hi|exact E|exact Eo|]. by eapply Hsound.
Qed.

(** All that is needed to bring the outputs back. *)
Record restorable (m : Manifest) (fs0 : FileSystem) (outputs : list Path) (fs : FileSystem) : Prop := {
  ra_shaped : store_shaped blobs fs;
  ra_blobs : ∀ d, d ∈ collect_blob_digests m → has_object blobs fs (digest_hash d);
  ra_outputs : ∀ path bytes mode mtime, path ∈ outputs → fs0 !! path = Some (FileNode bytes mode mtime) →
    bytes ≠ ""%string → stored_exactly fs bytes;
}.

Lemma persisted_restorable digest m fs0 outputs fs :
  Forall2 (packs fs0) outputs (m_files m) → stdio_known m →
  persisted digest m root fs → no_collision fs0 fs outputs → restorable m fs0 outputs fs.
Proof.
  intros Hpacks Hstdio Hp Hcoll. split.
  - by apply (ps_blobs_shaped _ _ _ _ Hp).
  - intros d Hd. destruct (collect_blob_inputs_cover root m d Hstdio Hd) as (i & Hi & <-).
    by apply (ps_blobs _ _ _ _ Hp).
  - by apply (stored_outputs digest m fs0 fs outputs).
Qed.

(** Only the objects matter. *)
Lemma restorable_frame m fs0 outputs fs fs' :
  (∀ r, fs' !! (objects_dir blobs ++ r)%list = fs !! (objects_dir blobs ++ r)%list) →
  restorable m fs0 outputs fs → restorable m fs0 outputs fs'.
Proof.
  intros Hframe [Hshape Hblobs Hout]. split.
  - intros r node E. rewrite Hframe in E. by eapply Hshape.
  - intros d Hd. unfold has_object, object_path. rewrite Hframe. by apply Hblobs.
  - intros path bytes mode mtime Hp E Hne. unfold stored_exactly, object_path. rewrite Hframe.
    by eapply Hout.
Qed.

(** Hydrating and unpacking a manifest restores every output. *)
Lemma hydrate_restores s digest m src started completed fs0 w outputs :
  source_backend src = local_backend l → source_manifest src = m_persisted (m_set_uploaded m started completed) →
  Forall2 (packs fs0) outputs (m_files m) → Forall (output_file fs0) outputs → m_symlinks m = [] →
  sizes_known m → restorable m fs0 outputs (w_fs w) →
  (∀ path, path ∈ outputs → is_symlink (w_fs w) path = false ∧
    path_has_prefix (objects_dir blobs) path = false) →
  ∃ m' background w',
    hydrate_manifest root s digest src w = (Ok (Some m', background), w) ∧
    (source_remote src = false → background = []) ∧
    Manifest_unpack root m' w = (Ok tt, w') ∧ m_exit_code m' = m_exit_code m ∧
    (∀ path, path ∈ outputs → w_fs w' !! path = fs0 !! path) ∧
    ∀ path, path ∉ outputs → w_fs w' !! path = w_fs w !! path.
Proof.
  intros Hsrc Hman Hpacks Hout Hlinks Hsizes [Hshape Hblobs Houtputs] Hpaths.
  set (mu := m_set_uploaded m started completed) in Hman.
  destruct (hydrate_local mu w) as (bmap & mh & Hhyd & Hready & Hfiles & Hsym & Hcode); [done..|].
  destruct (unpack_files fs0 outputs (m_files m) w Hpacks Hout) as (w' & Hunpack & Hrestored & Hframe); [done..|].
  exists mh, (if source_remote src then warm_local_backends root s digest mh else []), w'.
  split_and!; [|by intros ->| |done|done|done].
  - unfold hydrate_manifest, mbind, stateful_bind. rewrite Hsrc, Hman, Hhyd.
    assert (∀ bs, hydrate_from_others (local_backend l) bs mh w = (Ok mh, w)) as ->.
    { intros bs. destruct bs; cbn [hydrate_from_others]; by rewrite Hready. }
    unfold mret, stateful_ret. by rewrite Hready.
  - unfold Manifest_unpack, mbind, stateful_bind. rewrite Hfiles. change (m_files mu) with (m_files m).
    rewrite Hunpack, Hsym. change (m_symlinks mu) with (m_symlinks m). by rewrite Hlinks.
Qed.
End RoundTrip.
