(* ===== verification/CacheExamples.v ===== *)
(** * Concrete services for the cache

Instances of the parameters of the cache crates that evaluate: a hash that keeps
the first bytes of its input, manifests written as numbers, and relative paths
by components. *)

From S2P Require Import Prelude Errors FileSystem Target GraphUtils Shapes Config Affected Action Blobs Manifest CacheStorage.

#[local] Open Scope string_scope.

(** ** A hash *)

Definition hex_digit (n : nat) : ascii :=
  ascii_of_nat (if (n <? 10)%nat then 48 + n else 87 + n)%nat.

Fixpoint hex_encode (s : string) : string :=
  match s with
  | EmptyString => EmptyString
  | String c s' =>
      let n := nat_of_ascii c in
      String (hex_digit (n / 16)) (String (hex_digit (n mod 16)) (hex_encode s'))
  end.

Fixpoint zeros (n : nat) : string := match n with 0 => "" | S n' => String "0" (zeros n') end.

Definition prefix_hash (bytes : string) : string := str_take 64 (hex_encode bytes ++ zeros 64).

#[export] Instance example_sha256 : Sha256 := {| sha256 := prefix_hash |}.

Lemma hex_digit_hex n : (n < 16)%nat → is_hexdigit (hex_digit n) = true.
Proof. intros Hn. do 16 (destruct n as [|n]; [done|]). lia. Qed.

Lemma hex_encode_hex s : str_all is_hexdigit (hex_encode s) = true.
Proof.
  induction s as [|c s IH]; [done|]. cbn [hex_encode]. rewrite !str_all_cons, IH, andb_true_r.
  pose proof (nat_ascii_bounded c). rewrite !hex_digit_hex; [done| |].
  - apply Nat.mod_upper_bound. lia.
  - apply Nat.Div0.div_lt_upper_bound. lia.
Qed.

Lemma str_all_append P a b : str_all P (a ++ b) = str_all P a && str_all P b.
Proof. unfold str_all. by rewrite str_chars_append, forallb_app. Qed.

Lemma str_all_take P n s : str_all P s = true → str_all P (str_take n s) = true.
Proof.
  revert s. induction n as [|n IH]; intros [|c s]; [done..|]. cbn [str_take]. rewrite !str_all_cons.
  intros [-> ?]%andb_true_iff. by apply IH.
Qed.

#[export] Instance example_sha256_laws : Sha256Laws example_sha256.
Proof.
  split. intros bytes. unfold is_hash. apply andb_true_iff. split.
  - apply Nat.eqb_eq. cbn [sha256 example_sha256]. unfold prefix_hash. apply str_take_length.
    rewrite str_append_length. change (String.length (zeros 64)) with 64%nat. lia.
  - apply str_all_take. by rewrite str_all_append, hex_encode_hex.
Qed.

(** ** Manifests as text *)

#[export] Instance ManifestFile_eq_dec : EqDecision ManifestFile.
Proof. solve_decision. Defined.
#[export] Instance ManifestSymlink_eq_dec : EqDecision ManifestSymlink.
Proof. solve_decision. Defined.
#[export] Instance Manifest_eq_dec : EqDecision Manifest.
Proof. solve_decision. Defined.

(** Records are written as the list of their fields. *)
#[export] Instance ManifestFile_countable : Countable ManifestFile.
Proof.
  refine (inj_countable
    (λ f, [encode (mf_bytes f); encode (mf_digest f); encode (mf_is_executable f); encode (mf_modified_at f);
           encode (mf_path f); encode (mf_source_path f); encode (mf_unix_mode f)])
    (λ fields, match fields with
     | [b; d; e; m; p; s; u] =>
         b ← decode b; d ← decode d; e ← decode e; m ← decode m; p ← decode p; s ← decode s; u ← decode u;
         Some (mkManifestFile b d e m p s u)
     | _ => None
     end) _). intros []. cbn. by rewrite !decode_encode.
Defined.

#[export] Instance ManifestSymlink_countable : Countable ManifestSymlink.
Proof.
  refine (inj_countable
    (λ l, [encode (ms_modified_at l); encode (ms_path l); encode (ms_target l); encode (ms_unix_mode l)])
    (λ fields, match fields with
     | [m; p; t; u] => m ← decode m; p ← decode p; t ← decode t; u ← decode u; Some (mkManifestSymlink m p t u)
     | _ => None
     end) _). intros []. cbn. by rewrite !decode_encode.
Defined.

#[export] Instance Manifest_countable : Countable Manifest.
Proof.
  refine (inj_countable
    (λ m, [encode (m_files m); encode (m_symlinks m); encode (m_exit_code m); encode (m_stderr_bytes m);
           encode (m_stderr_digest m); encode (m_stdout_bytes m); encode (m_stdout_digest m);
           encode (m_upload_started_at m); encode (m_upload_completed_at m); encode (m_digest_source m)])
    (λ fields, match fields with
     | [f; s; c; eb; ed; ob; od; us; uc; ds] =>
         f ← decode f; s ← decode s; c ← decode c; eb ← decode eb; ed ← decode ed; ob ← decode ob;
         od ← decode od; us ← decode us; uc ← decode uc; ds ← decode ds;
         Some (mkManifest f s c eb ed ob od us uc ds)
     | _ => None
     end) _). intros []. cbn. by rewrite !decode_encode.
Defined.

Fixpoint bits_of (p : positive) : string :=
  match p with xH => "" | xO p' => String "0" (bits_of p') | xI p' => String "1" (bits_of p') end.

Fixpoint of_bits (s : string) : positive :=
  match s with
  | EmptyString => xH
  | String c s' => if Ascii.eqb c "1" then xI (of_bits s') else xO (of_bits s')
  end.

Lemma of_bits_of p : of_bits (bits_of p) = p.
Proof. induction p as [p IH|p IH|]; cbn; [by rewrite IH..|done]. Qed.

Definition text_of {A} `{Countable A} (a : A) : string := bits_of (encode a).
Definition of_text {A} `{Countable A} (s : string) : result A := ok_or (decode (of_bits s)) (Foreign "invalid").

Lemma of_text_of {A} `{Countable A} (a : A) : of_text (text_of a) = Ok a.
Proof. unfold of_text, text_of. by rewrite of_bits_of, decode_encode. Qed.

#[export] Instance example_json : ManifestJson := {|
  manifest_to_json m := text_of (m_persisted m);
  manifest_from_json := of_text;
|}.

#[export] Instance example_json_laws : ManifestJsonLaws example_json.
Proof. split. intros m. apply of_text_of. Qed.

(** ** Relative paths *)

#[export] Instance example_relative_path : RelativePathLib := {|
  to_logical_path rel base := fold_left logical_step (path_components rel) base;
  to_path rel base := (base ++ path_components rel)%list;
  rel_starts_with path base := String.eqb path base || starts_with (base ++ "/") path;
  path_relative_to path base :=
    match path_strip_prefix base path with
    | Some rest => Ok (str_join "/" rest)
    | None => Err (Foreign "not below")
    end;
|}.

Lemma split_on_cons c s : ∃ part parts, split_on c s = part :: parts.
Proof.
  induction s as [|a s (part & parts & Hs)]; cbn [split_on]; [by eexists _, _|].
  rewrite Hs. destruct (Ascii.eqb a c); by eexists _, _.
Qed.

Lemma split_on_plain part rest :
  str_contains "/" part = false → split_on "/" (part ++ String "/" rest) = part :: split_on "/" rest.
Proof.
  induction part as [|c part IH]; cbn [append split_on].
  - destruct (split_on_cons "/" rest) as (next & parts & ->). done.
  - rewrite str_contains_cons. intros [Hc Hpart]%orb_false_iff. rewrite IH by done.
    rewrite Ascii.eqb_sym, Hc. done.
Qed.

Lemma split_on_alone part : str_contains "/" part = false → split_on "/" part = [part].
Proof.
  induction part as [|c part IH]; [done|]. rewrite str_contains_cons. intros [Hc Hpart]%orb_false_iff.
  cbn [split_on]. rewrite IH by done. by rewrite Ascii.eqb_sym, Hc.
Qed.

Lemma split_on_join parts :
  parts ≠ [] → Forall plain_part parts → split_on "/" (str_join "/" parts) = parts.
Proof.
  intros Hne Hparts. induction Hparts as [|part parts (_ & _ & Hpart) Hparts IH]; [done|].
  destruct parts as [|next parts]; [by apply split_on_alone|].
  change (str_join "/" (part :: next :: parts)) with (part ++ String "/" (str_join "/" (next :: parts))).
  rewrite split_on_plain by done. by rewrite IH.
Qed.

Lemma components_join parts : Forall plain_part parts → path_components (str_join "/" parts) = parts.
Proof.
  intros Hparts. destruct parts as [|part parts]; [done|]. unfold path_components.
  rewrite split_on_join by done.
  assert (filter significant (part :: parts) = part :: parts) as Hfilter.
  { revert Hparts. generalize (part :: parts). induction 1 as [|x l ((_ & ? & _) & ? & _) _ IH]; [done|].
    by rewrite filter_cons_True, IH. }
  apply Forall_cons in Hparts as [((_ & Hdot & _) & Hempty & _) _].
  destruct parts as [|next parts]; [by rewrite decide_False|]. rewrite !decide_False by done. exact Hfilter.
Qed.

Lemma starts_with_append p s : starts_with p (p ++ s) = true.
Proof.
  unfold starts_with. induction p as [|a p IH]; [done|]. cbn [append].
  by rewrite strip_prefix_cons, Ascii.eqb_refl.
Qed.

#[export] Instance example_relative_path_laws : RelativePathLaws example_relative_path.
Proof.
  split; [done..| |].
  - intros base rest. cbn [rel_starts_with example_relative_path]. apply orb_true_iff. right.
    rewrite <- str_append_assoc. apply starts_with_append.
  - intros base rest Hrest. exists (str_join "/" rest). cbn [path_relative_to example_relative_path].
    rewrite (proj2 (path_strip_prefix_Some base (base ++ rest) rest)) by done. split; [done|]. split; [|by apply components_join].
    destruct Hrest as [|part rest (_ & Hempty & Hpart) _]; [done|].
    destruct part as [|c part]; [done|]. rewrite str_contains_cons in Hpart.
    apply orb_false_iff in Hpart as [Hc _]. destruct rest as [|next rest]; cbn [str_join append];
      unfold starts_with; by rewrite strip_prefix_cons, Hc.
Qed.
