(* ===== verification/CacheTheorems.v ===== *)
(** * Properties of the cache

Batches carry every item once, a stored manifest never refers to a blob that is
gone, the collector keeps what is in use and within its budget, and manifests
survive the remote format. *)

From S2P Require Import Prelude Errors FileSystem Target GraphUtils Shapes Config Affected Action Blobs Manifest CacheStorage.
From S2P Require Import CacheFacts LocalStorageFacts CacheGc CacheExamples.

(** ** Batches *)

Section Batches.
Context {T : Type} (get_size : T → Z).

Lemma chunk_into_batches_ok items :
  let batches := chunk_into_batches get_size items in
  all_items batches = items ∧ length batches ≤ BLOCKING_THREAD_COUNT ∧
  Forall (λ batch, batch_items batch ≠ [] ∧ batch_stream batch = false) batches.
Proof.
  unfold chunk_into_batches. case_decide as Hlen; [destruct items; [|done]; cbn; split_and!; [done|lia|done]|].
  set (count := div_ceil (length items) CHUNK_TARGET_SIZE `min` BLOCKING_THREAD_COUNT).
  assert (0 < count ≤ BLOCKING_THREAD_COUNT) as Hcount.
  { pose proof (div_ceil_pos (length items) CHUNK_TARGET_SIZE ltac:(lia) ltac:(unfold CHUNK_TARGET_SIZE; lia)).
    subst count. unfold BLOCKING_THREAD_COUNT in *. lia. }
  destruct (chunks_items get_size (length items) (div_ceil (length items) count) items) as [Hitems Hok];
    [apply div_ceil_pos; lia|done|].
  split_and!.
  - by rewrite number_batches_items.
  - unfold number_batches. rewrite length_imap. etrans; [|apply Hcount]. apply chunks_length.
    apply div_ceil_le. lia.
  - apply Forall_lookup. intros i batch Hi. destruct (number_batches_lookup _ _ _ Hi) as (_ & _ & b & Hb & -> & _ & ->).
    by apply (Forall_lookup_1 _ _ _ _ Hok Hb).
Qed.

Lemma partition_into_batches_ok items max_size :
  let batches := partition_into_batches get_size items max_size in
  all_items batches ≡ₚ items ∧ Forall (batch_ok get_size max_size) batches.
Proof.
  destruct (partition_loop_ok get_size max_size (merge_sort (larger get_size) items) [] (Forall_nil_2 _)) as [Hok Hitems].
  unfold partition_into_batches. split.
  - rewrite number_batches_items, Hitems. cbn. rewrite app_nil_r. apply merge_sort_Permutation.
  - apply Forall_lookup. intros i batch Hi.
    destruct (number_batches_lookup _ _ _ Hi) as (_ & _ & b & Hb & Hi1 & Hi2 & Hi3).
    pose proof (Forall_lookup_1 _ _ _ _ Hok Hb) as Hbatch. unfold batch_ok in *. by rewrite Hi1, Hi2, Hi3.
Qed.

(** C23: splitting requests into batches sends every item exactly once, in batches that are
    not empty and are numbered from one.  With a size limit, a batch is within the limit, with
    the overhead of each of its items, unless it is a single item that is streamed; without
    one, nothing is streamed and there are no more batches than threads. *)
Theorem create_batches_exact items max_size :
  let batches := create_batches get_size items max_size in
  all_items batches ≡ₚ items ∧
  (∀ i batch, batches !! i = Some batch →
    batch_index batch = S i ∧ batch_total batch = length batches ∧ batch_items batch ≠ [] ∧
    if (0 <? max_size)%Z then batch_ok get_size max_size batch else batch_stream batch = false) ∧
  ((max_size <= 0)%Z → length batches ≤ BLOCKING_THREAD_COUNT).
Proof.
  unfold create_batches. destruct (Z.ltb_spec 0 max_size) as [Hmax|Hmax].
  - destruct (partition_into_batches_ok items max_size) as [Hitems Hok]. split_and!; [done| |lia].
    intros i batch Hi. pose proof (Forall_lookup_1 _ _ _ _ Hok Hi) as Hb.
    unfold partition_into_batches in Hi |- *. destruct (number_batches_lookup _ _ _ Hi) as (-> & -> & _).
    split_and!; [done|unfold number_batches; by rewrite length_imap|apply Hb|done].
  - destruct (chunk_into_batches_ok items) as (Hitems & Hlen & Hok). split_and!; [by rewrite Hitems| |done].
    intros i batch Hi. pose proof (Forall_lookup_1 _ _ _ _ Hok Hi) as [Hne Hstream].
    unfold chunk_into_batches in Hi |- *. case_decide; [done|].
    destruct (number_batches_lookup _ _ _ Hi) as (-> & -> & _).
    split_and!; [done|unfold number_batches; by rewrite length_imap|done|done].
Qed.
End Batches.

(** ** No dangling manifests *)

Section Dangling.
Context `{Sha256, ManifestJson, RelativePathLib} {J : ManifestJsonLaws _} {R : Type} (l : LocalStorage) (root : Path).

(** What happens to the local cache: outputs are archived, manifests are looked up, the
    cache is collected, and files outside of it change. *)
Inductive cache_step : World R → World R → Prop :=
| step_persist digest m w : stdio_known m →
    cache_step w (persist_manifest_in_backend root (local_backend l) digest m w).2
| step_retrieve digest w : cache_step w (local_retrieve_manifest l digest w).2
| step_gc lifetime max_size w : cache_step w (local_gc l lifetime max_size w).2
| step_outside w w' :
    (∀ r, w_fs w' !! (objects_dir (ls_blobs l) ++ r)%list = w_fs w !! (objects_dir (ls_blobs l) ++ r)%list ∧
          w_fs w' !! (objects_dir (ls_manifests l) ++ r)%list = w_fs w !! (objects_dir (ls_manifests l) ++ r)%list) →
    cache_step w w'.

Lemma empty_cache_ok fs :
  (∀ r, fs !! (objects_dir (ls_blobs l) ++ r)%list = None ∧ fs !! (objects_dir (ls_manifests l) ++ r)%list = None) →
  cache_ok l fs.
Proof.
  intros Hempty. split_and!.
  - intros r node E. by rewrite (proj1 (Hempty r)) in E.
  - intros r node E. by rewrite (proj2 (Hempty r)) in E.
  - intros path bytes mode mtime m' Hpath E. destruct (object_entry_below _ _ Hpath) as [rest ->].
    by rewrite (proj2 (Hempty rest)) in E.
Qed.

Lemma outside_cache_ok fs fs' :
  (∀ r, fs' !! (objects_dir (ls_blobs l) ++ r)%list = fs !! (objects_dir (ls_blobs l) ++ r)%list ∧
        fs' !! (objects_dir (ls_manifests l) ++ r)%list = fs !! (objects_dir (ls_manifests l) ++ r)%list) →
  cache_ok l fs → cache_ok l fs'.
Proof.
  intros Hsame (Hb & Hm & Hd). split_and!.
  - intros r node E. rewrite (proj1 (Hsame r)) in E. by eapply Hb.
  - intros r node E. rewrite (proj2 (Hsame r)) in E. by eapply Hm.
  - intros path bytes mode mtime m Hpath E Hjson digest Hin Hhash. unfold has_object, object_path.
    rewrite (proj1 (Hsame _)). destruct (object_entry_below _ _ Hpath) as [rest ->].
    rewrite (proj2 (Hsame _)) in E. by eapply Hd.
Qed.

Lemma cache_step_ok w w' : stores_apart l → cache_step w w' → cache_ok l (w_fs w) → cache_ok l (w_fs w').
Proof.
  intros Hapart [digest m w0 Hstdio|digest w0|lifetime max_size w0|w0 w1 Hsame] Hok.
  - by apply persist_cache_ok.
  - by apply retrieve_manifest_cache_ok.
  - rewrite local_gc_fs. by apply collected_cache_ok.
  - by eapply outside_cache_ok.
Qed.

Lemma retrieve_manifest_found digest m (w w' : World R) :
  store_shaped (ls_manifests l) (w_fs w) → local_retrieve_manifest l digest w = (Ok (Some m), w') →
  (∃ bytes mode mtime, w_fs w !! object_path (ls_manifests l) (digest_hash digest) = Some (FileNode bytes mode mtime) ∧
    manifest_from_json bytes = Ok m) ∧
  ∀ path, path ≠ object_path (ls_manifests l) (digest_hash digest) → w_fs w' !! path = w_fs w !! path.
Proof.
  intros Hshape. unfold local_retrieve_manifest, with_state.
  destruct (contains_object (w_fs w) _ _) eqn:Hc; [|done].
  pose proof Hc as (bytes & mode & mtime & E)%contains_object_has; [|done].
  unfold mbind, stateful_bind, cas_read, mbind, stateful_bind, object_path_with_exists_check. rewrite Hc.
  unfold read_file_bytes. rewrite (file_at_file _ _ _ _ _ E). unfold pure_result.
  destruct (check_integrity _ _ _) as [[]|e|]; cbn; [|done..].
  destruct (manifest_from_json bytes) as [m'|e|] eqn:Hjson; cbn; [|done..].
  unfold attempt, cas_touch, mbind, stateful_bind, object_path_with_exists_check, with_state, set_modified.
  rewrite Hc, E. cbn. intros [= <- <-]. split; [by eauto|]. intros path Hne. cbn. by rewrite lookup_insert_ne.
Qed.

(** C8: a manifest of the local cache never refers to a blob that is gone: whatever sequence of
    uploads, lookups, collections and changes elsewhere the cache went through since it was
    empty, all blobs of a manifest that is found are in the store. *)
Theorem cache_never_dangles (w w' w'' : World R) digest m blob :
  stores_apart l →
  (∀ r, w_fs w !! (objects_dir (ls_blobs l) ++ r)%list = None ∧
        w_fs w !! (objects_dir (ls_manifests l) ++ r)%list = None) →
  rtc cache_step w w' → local_retrieve_manifest l digest w' = (Ok (Some m), w'') →
  blob ∈ collect_blob_digests m → is_hash (digest_hash blob) = true →
  contains_object (w_fs w'') (ls_blobs l) (digest_hash blob) = true.
Proof.
  intros Hapart Hempty Hsteps Hfound Hblob Hhash.
  assert (cache_ok l (w_fs w')) as Hok.
  { assert (cache_ok l (w_fs w)) as Hok0 by by apply empty_cache_ok.
    clear Hempty Hfound. induction Hsteps as [|w0 w1 w2 Hstep _ IH]; [done|]. by eapply IH, cache_step_ok. }
  pose proof (retrieve_manifest_cache_ok l digest w' Hapart Hok) as Hok''. rewrite Hfound in Hok''. cbn in Hok''.
  destruct Hok as (_ & Hm & Hd). destruct (retrieve_manifest_found _ _ _ _ Hm Hfound) as [(bytes & mode & mtime & E & Hjson) Hframe].
  apply contains_object_has; [by destruct Hok''|].
  destruct (Hd _ _ _ _ _ ltac:(rewrite object_entry_object; by eexists) E Hjson _ Hblob Hhash) as (b & mo & t & Eb).
  exists b, mo, t. rewrite Hframe; [done|]. intros Heq. by eapply Hapart.
Qed.

(** ** Collection *)


(** C22: with a budget, what survives fits in it: the distinct blobs of all surviving manifests
    take at most the budget. *)
Theorem gc_within_budget lifetime max (w : World R) (size : ContentHash → Z) :
  stores_apart l → (0 <= max)%Z →
  (∀ path bytes mode mtime m, is_Some (object_entry (ls_manifests l) path) →
    w_fs w !! path = Some (FileNode bytes mode mtime) → manifest_from_json bytes = Ok m →
    Forall (λ d, blob_size d = size (digest_hash d)) (collect_blob_digests m)) →
  (∀ path, is_Some (object_entry (ls_manifests l) path) → is_symlink (w_fs w) path = false) →
  let w' := (local_gc l lifetime (Some max) w).2 in
  ∃ kept : gset ContentHash, (kept_size size kept <= max)%Z ∧
    ∀ hash bytes mode mtime m,
      w_fs w' !! object_path (ls_manifests l) hash = Some (FileNode bytes mode mtime) →
      manifest_from_json bytes = Ok m → hashes_of (collect_blob_digests m) ⊆ kept.
Proof.
  intros Hapart Hmax Hsizes Hlinks w'. subst w'. rewrite local_gc_fs.
  pose proof (evict_manifests_evicted (ls_manifests l) lifetime (Some max) (w_now w) (w_fs w)) as Hev.
  exists (ev_keep (evict_manifests (ls_manifests l) lifetime (Some max) (w_now w) (w_fs w))). split.
  - rewrite <- evict_manifests_kept; [by apply (ev_budget _ _ _ _ _ _ Hev max)|].
    intros e (path & Hpath & He)%list_elem_of_omap. apply list_elem_of_filter in Hpath as [Hpath Hin].
    unfold manifest_entry in He. specialize (Hlinks path Hpath). unfold file_at, follow, follow_links in He. fold follow_links in He.
    unfold is_symlink in Hlinks. destruct (w_fs w !! path) as [[bytes mode mtime|target]|] eqn:E; cbn in He; [|done|]; rewrite ?E in He; cbn in He; [|done].
    destruct (manifest_from_json bytes) as [m| |] eqn:Hjson; [|done..]. injection He as <-. by eapply Hsizes.
  - intros hash bytes mode mtime m E Hjson.
    pose proof (collected_sub _ _ _ _ _ _ _ E) as E0. apply swept_sub in E.
    destruct (ev_kept _ _ _ _ _ _ Hev _ (entry_of_manifest l _ _ _ _ _ _ ltac:(rewrite object_entry_object; by eexists) E0 Hjson))
      as [Hnone|Hsub]; [|done]. cbn in Hnone. congruence.
Qed.
End Dangling.

Lemma LocalStorage_new_apart cache_dir shared verify : stores_apart (LocalStorage_new cache_dir shared verify).
Proof. intros r1 r2. cbn. rewrite <- !app_assoc. intros Heq%app_inv_head. discriminate Heq. Qed.

(** A file of a workspace, and a manifest that names it and a log. *)
Definition sample_store : LocalStorage := LocalStorage_new ["/"; "c"]%string false true.

Definition sample_digest (bytes : string) : Digest := mkDigest (sha256 bytes) (Z.of_nat (String.length bytes)).

Definition sample_manifest : Manifest :=
  mkManifest [mkManifestFile None (Some (sample_digest "hello")) false (Some 5%Z) "out" None (Some 420%Z)] [] 0%Z
    None None (Some "log"%string) (Some (sample_digest "log")) None None None.

Definition sample_world : World unit :=
  mkWorld {[ ["/"; "w"; "out"]%string := FileNode "hello" 420 5 ]} 1000000000000000000 tt.

Definition archived_world : World unit :=
  (persist_manifest_in_backend ["/"; "w"]%string (local_backend sample_store) (sample_digest "task") sample_manifest
    sample_world).2.

(** Archived, collected without a budget, and looked up. *)
Lemma cache_never_dangles_witness :
  ∃ w' w'' m,
    rtc (cache_step sample_store ["/"; "w"]%string) sample_world w' ∧
    local_retrieve_manifest sample_store (sample_digest "task") w' = (Ok (Some m), w'') ∧
    contains_object (w_fs w'') (ls_blobs sample_store) (digest_hash (sample_digest "hello")) = true.
Proof.
  set (w' := (local_gc sample_store 1000 None archived_world).2).
  assert (rtc (cache_step sample_store ["/"; "w"]%string) sample_world w') as Hsteps.
  { eapply rtc_l; [apply (step_persist _ _ (sample_digest "task") sample_manifest); split; [by intros []|done]|].
    eapply rtc_l; [apply (step_gc _ _ 1000 None)|]. apply rtc_refl. }
  assert (match (local_retrieve_manifest sample_store (sample_digest "task") w').1 with
    | Ok (Some m) => bool_decide (sample_digest "hello" ∈ collect_blob_digests m) | _ => false end = true) as Hok
    by (vm_compute; reflexivity).
  destruct (local_retrieve_manifest sample_store (sample_digest "task") w') as [[[m|]| |] w''] eqn:Hfound;
    cbn in Hok; [|discriminate Hok..].
  apply bool_decide_eq_true in Hok. exists w', w'', m. split; [exact Hsteps|]. split; [exact Hfound|].
  apply (cache_never_dangles sample_store ["/"; "w"]%string sample_world w' w'' (sample_digest "task") m (sample_digest "hello")).
  - apply LocalStorage_new_apart.
  - intros r. split; apply lookup_singleton_ne; discriminate.
  - exact Hsteps.
  - exact Hfound.
  - exact Hok.
  - vm_compute. reflexivity.
Defined.

Lemma archived_world_ok : cache_ok sample_store (w_fs archived_world).
Proof.
  apply persist_cache_ok; [apply _|apply LocalStorage_new_apart|split; [by intros []|done]|].
  apply empty_cache_ok. intros r. split; apply lookup_singleton_ne; discriminate.
Qed.


Definition sample_size (hash : ContentHash) : Z :=
  if decide (hash = sha256 "hello") then 5 else if decide (hash = sha256 "log") then 3 else 0.

Definition sized_entry (path : Path) (node : Node) : bool :=
  match node with
  | FileNode bytes _ _ =>
      if decide (object_entry (ls_manifests sample_store) path = None) then true
      else match manifest_from_json bytes with
      | Ok m => forallb (λ d, blob_size d =? sample_size (digest_hash d))%Z (collect_blob_digests m)
      | _ => true
      end
  | LinkNode _ => false
  end.

Lemma sized_entries (fs : FileSystem) :
  forallb (λ kv, sized_entry kv.1 kv.2) (map_to_list fs) = true →
  ∀ path node, fs !! path = Some node → sized_entry path node = true.
Proof.
  intros Hall path node E. rewrite forallb_forall in Hall. apply (Hall (path, node)).
  by apply list_elem_of_In, elem_of_map_to_list.
Qed.

Lemma gc_within_budget_witness :
  ∃ kept : gset ContentHash, (kept_size sample_size kept <= 10)%Z ∧
    ∀ hash bytes mode mtime m,
      w_fs (local_gc sample_store 1000 (Some 10%Z) archived_world).2 !! object_path (ls_manifests sample_store) hash =
        Some (FileNode bytes mode mtime) →
      manifest_from_json bytes = Ok m → hashes_of (collect_blob_digests m) ⊆ kept.
Proof.
  assert (forallb (λ kv, sized_entry kv.1 kv.2) (map_to_list (w_fs archived_world)) = true) as Hall by (vm_compute; reflexivity).
  pose proof (sized_entries _ Hall) as Hsized.
  apply (gc_within_budget sample_store 1000 10 archived_world sample_size).
  - apply LocalStorage_new_apart.
  - lia.
  - intros path bytes mode mtime m [entry Hentry] E Hjson. specialize (Hsized _ _ E). unfold sized_entry in Hsized.
    rewrite decide_False, Hjson in Hsized by congruence. rewrite forallb_forall in Hsized. apply Forall_forall. intros d Hd. apply Z.eqb_eq, Hsized.
    by apply list_elem_of_In.
  - intros path _. unfold is_symlink. destruct (w_fs archived_world !! path) as [[]|] eqn:E; [done| |done].
    by specialize (Hsized _ _ E).
Defined.

(** ** The remote format *)

(** What the format of the remote services can carry: hashes that are hashes, times since
    the epoch, and contents that are not empty. *)
Definition digest_fits (digest : option Digest) : Prop :=
  match digest with Some d => is_hash (digest_hash d) = true | None => True end.
Definition time_fits (time : option Z) : Prop := match time with Some t => (0 <= t)%Z | None => True end.
Definition bytes_fit (bytes : option string) : Prop := bytes ≠ Some ""%string.

Record file_fits (f : ManifestFile) : Prop := {
  ff_digest : digest_fits (mf_digest f);
  ff_time : time_fits (mf_modified_at f);
  ff_bytes : bytes_fit (mf_bytes f);
  ff_inline : mf_bytes f ≠ None → mf_digest f ≠ None;
}.

Record manifest_fits (m : Manifest) : Prop := {
  mft_files : Forall file_fits (m_files m);
  mft_symlinks : Forall (λ s, time_fits (ms_modified_at s)) (m_symlinks m);
  mft_stderr : digest_fits (m_stderr_digest m) ∧ bytes_fit (m_stderr_bytes m);
  mft_stdout : digest_fits (m_stdout_digest m) ∧ bytes_fit (m_stdout_bytes m);
  mft_times : time_fits (m_upload_started_at m) ∧ time_fits (m_upload_completed_at m);
}.

(** A manifest without what is only known locally, and without the bytes of the output
    streams unless they are persisted. *)
Definition received (persist_stdio : bool) (m : Manifest) : Manifest :=
  mkManifest ((λ f, mkManifestFile (mf_bytes f) (mf_digest f) (mf_is_executable f) (mf_modified_at f) (mf_path f) None
                      (mf_unix_mode f)) <$> m_files m)
    (m_symlinks m) (m_exit_code m)
    (if persist_stdio then m_stderr_bytes m else None) (m_stderr_digest m)
    (if persist_stdio then m_stdout_bytes m else None) (m_stdout_digest m)
    (m_upload_started_at m) (m_upload_completed_at m) None.

Lemma timestamp_roundtrip time : time_fits time → create_from_timestamp <$> (time ≫= create_timestamp) = time.
Proof.
  destruct time as [t|]; [|done]. cbn. intros Ht. unfold create_timestamp. rewrite (proj2 (Z.ltb_ge t 0)) by done.
  cbn. unfold create_from_timestamp. cbn. f_equal. pose proof (Z.div_mod t nanos_per_sec ltac:(done)). lia.
Qed.

Lemma digest_roundtrip digest : digest_fits digest → internal_digest_opt (to_external_digest <$> digest) = Ok digest.
Proof.
  destruct digest as [[hash size]|]; [|done]. cbn. intros Hd. unfold to_internal_digest, ContentHash_from_hex. cbn.
  by rewrite Hd.
Qed.

Lemma raw_roundtrip bytes : bytes_fit bytes →
  (if decide (default ""%string bytes = ""%string) then None else Some (default ""%string bytes)) = bytes.
Proof. intros Hb. destruct bytes as [b|]; [|done]. cbn. case_decide; [subst; by destruct Hb|done]. Qed.

Lemma file_roundtrip f : file_fits f →
  from_bazel_file (into_bazel_file f) =
  Ok (mkManifestFile (mf_bytes f) (mf_digest f) (mf_is_executable f) (mf_modified_at f) (mf_path f) None (mf_unix_mode f)).
Proof.
  intros [Hd Ht Hb Hi]. unfold from_bazel_file, into_bazel_file. cbn. rewrite digest_roundtrip by done. cbn.
  rewrite timestamp_roundtrip by done. do 2 f_equal. destruct (mf_digest f); cbn; [by apply raw_roundtrip|].
  destruct (mf_bytes f); [by destruct Hi|done].
Qed.

(** C34: a manifest survives its conversion to an action result and back, but for the
    paths of its sources, as long as the format can carry it: hashes that are hashes, times
    since the epoch, and contents that are not empty.  The bytes of its output streams are
    kept only when they are persisted, as the daemon does; the remote backends do not, and
    keep the digests of the streams. *)
Theorem action_result_roundtrip m persist_stdio :
  manifest_fits m →
  from_bazel_action_result (into_bazel_action_result m persist_stdio) = Ok (received persist_stdio m).
Proof.
  intros [Hfiles Hlinks [Hed Heb] [Hod Hob] [Hts Htc]]. unfold from_bazel_action_result, into_bazel_action_result. cbn.
  assert (omap_list from_bazel_file (into_bazel_file <$> m_files m) = Ok (m_files (received persist_stdio m))) as ->.
  { cbn. induction Hfiles as [|f files Hf _ IH]; [done|]. cbn. by rewrite file_roundtrip, IH. }
  assert (from_bazel_symlink <$> (into_bazel_symlink <$> m_symlinks m) = m_symlinks m) as ->.
  { induction Hlinks as [|[] links Hs _ IH]; [done|]. cbn in *. rewrite IH. f_equal.
    unfold from_bazel_symlink. cbn. by rewrite timestamp_roundtrip. }
  cbn. rewrite !digest_roundtrip by done. cbn. rewrite !timestamp_roundtrip by done.
  destruct persist_stdio; [by rewrite !raw_roundtrip|done].
Qed.

Lemma action_result_roundtrip_witness :
  from_bazel_action_result (into_bazel_action_result sample_manifest false) =
    Ok (received false sample_manifest) ∧
  m_stdout_digest (received false sample_manifest) = m_stdout_digest sample_manifest.
Proof.
  split; [|reflexivity]. apply action_result_roundtrip. split.
  - repeat constructor; cbn; try done; lia.
  - constructor.
  - done.
  - split; by vm_compute.
  - done.
Defined.

(** ** A collection during an upload *)

(** The blob of the output is in the store from an earlier run, but no manifest refers to it. *)
Definition leftover_world : World unit :=
  w_set_fs sample_world
    (<[object_path (ls_blobs sample_store) (sha256 "hello") := FileNode "hello" 420 0]> (w_fs sample_world)).

(** The two halves of an upload, with a collection by another process between them. *)
Definition raced_world : World unit :=
  let w := (store_blobs_batched (local_backend sample_store)
              (collect_blob_inputs sample_manifest ["/"; "w"]%string) leftover_world).2 in
  let w := (local_gc sample_store 1000 None w).2 in
  (local_store_manifest sample_store (sample_digest "task") sample_manifest w).2.

(** A blob that is already stored is not written again and keeps its age, so a collection
    that runs before the manifest is stored removes it: the upload leaves a dangling manifest. *)
Lemma collection_during_upload_dangles :
  (∃ m w', local_retrieve_manifest sample_store (sample_digest "task") raced_world = (Ok (Some m), w') ∧
    sample_digest "hello" ∈ collect_blob_digests m) ∧
  contains_object (w_fs raced_world) (ls_blobs sample_store) (sha256 "hello") = false.
Proof.
  split; [|vm_compute; reflexivity].
  assert (match (local_retrieve_manifest sample_store (sample_digest "task") raced_world).1 with
    | Ok (Some m) => bool_decide (sample_digest "hello" ∈ collect_blob_digests m) | _ => false end = true) as Hok
    by (vm_compute; reflexivity).
  destruct (local_retrieve_manifest sample_store (sample_digest "task") raced_world) as [[[m|]| |] w'];
    cbn in Hok; [|discriminate Hok..].
  apply bool_decide_eq_true in Hok. by exists m, w'.
Qed.
