(* ===== verification/TokenExpander.v ===== *)
(** * Tokens ([crates/task-expander], [crates/file-group])

Functions such as [@files(sources)] and variables such as [$projectRoot] in the
settings of a task, and what they stand for.  Together the steps of
[TaskExpander] before its outputs are injected: they implement [expand_tokens]
of [TaskHost]. *)

From stdpp Require Import pretty.
From S2P Require Import Prelude Errors FileSystem Target Shapes Config EnvVar Dag DiGraph ProjectGraph TaskGraph Manifest.

#[local] Open Scope string_scope.

(** ** What an expander is given *)

(** [GraphExpanderContext] ([graph-utils/src/graph_context.rs]), without the configurations, which are not read. *)
Record GraphExpanderContext : Type := mkExpanderContext {
  gx_vcs_branch : string;
  gx_vcs_repository : string;
  gx_vcs_revision : string;
  gx_working_dir : Path;
  gx_workspace_root : Path;
}.

(** The process: constants of its platform, the time in the formats that are asked for, its environment, the
    prefix of the variables of a CI or CD provider, and the files. *)
Record TokenProcess : Type := mkTokenProcess {
  tp_arch : string;
  tp_os : string;
  tp_family : string;
  tp_date : string;
  tp_datetime : string;
  tp_time : string;
  tp_millis : Z;
  tp_bag : GlobalEnvBag;
  tp_ci_prefix : option string;
  tp_cd_prefix : option string;
  tp_fs : FileSystem;
}.

(** Libraries: [RelativePath::strip_prefix] ([relative_path]), [common_path_all] ([common_path]), [diff_paths]
    ([pathdiff]), [glob::walk_fast_with_options] ([starbase_utils]), and the names that [ConfigEnum]
    ([schematic]) gives to variants. *)
Class TokenLib : Type := {
  rel_strip_prefix : WorkspaceRelativePath → WorkspaceRelativePath → option WorkspaceRelativePath;
  common_path_all : list string → option string;
  diff_paths : Path → Path → option Path;
  glob_walk : FileSystem → Path → list string → result (list Path);
  language_to_string : LanguageType → string;
  layer_to_string : LayerType → string;
  stack_to_string : StackType → string;
  task_type_to_string : TaskType → string;
}.

(** ** File groups ([file_group.rs]) *)

(** [path.extension().is_some()] *)
Definition has_extension (path : Path) : bool :=
  match last path with
  | Some name => if decide (name = "..") then false
                 else match rfind_char "." name with Some (S _) => true | _ => false end
  | None => false
  end.

(** The order of paths, by their components. *)
Definition component_rank (part : string) : nat :=
  if decide (part = "/") then 0 else if decide (part = ".") then 1 else if decide (part = "..") then 2 else 3.

Fixpoint path_leb (a b : Path) : bool :=
  match a, b with
  | [], _ => true
  | _ :: _, [] => false
  | x :: a', y :: b' =>
      if decide (x = y) then path_leb a' b'
      else if decide (component_rank x = component_rank y) then String.leb x y
      else (component_rank x <? component_rank y)%nat
  end.

Definition path_le (a b : Path) : Prop := path_leb a b = true.

#[export] Instance path_le_dec : RelDecision path_le.
Proof. intros a b. unfold path_le. apply _. Defined.

Section FileGroups.
Context `{RelativePathLib, TokenLib, ConfigSyntax} (fs : FileSystem) (workspace_root : Path).

(** Whether a file of the group is listed. *)
Definition is_walked (directories loose_check : bool) (file : Path) : bool :=
  if directories then is_dir fs file || (loose_check && negb (has_extension file))
  else is_file fs file || (loose_check && has_extension file).

(** [walk_absolute] *)
Definition walk_absolute (group : FileGroup) (directories loose_check : bool) : result (list Path) :=
  let files := filter (λ file, is_walked directories loose_check file = true)
    ((λ path, to_path path workspace_root) <$> fg_files group) in
  let? found :=
    match fg_globs group with
    | [] => Ok []
    | globs =>
        let? paths := glob_walk fs workspace_root globs in
        Ok (filter (λ path, (if directories then is_dir fs path else is_file fs path) = true) paths)
    end in
  Ok (merge_sort path_le (files ++ found)%list).

(** [walk], [dirs], [files] *)
Definition relative_of (file : Path) : option WorkspaceRelativePath :=
  match path_relative_to file workspace_root with Ok path => Some path | _ => None end.

Definition group_walk (group : FileGroup) (directories loose_check : bool) : result (list WorkspaceRelativePath) :=
  let? files := walk_absolute group directories loose_check in Ok (omap relative_of files).

Definition group_dirs (group : FileGroup) (loose_check : bool) : result (list WorkspaceRelativePath) :=
  group_walk group true loose_check.
Definition group_files (group : FileGroup) (loose_check : bool) : result (list WorkspaceRelativePath) :=
  group_walk group false loose_check.

(** [globs] *)
Definition group_globs (group : FileGroup) : result (list WorkspaceRelativePath) :=
  match fg_globs group with [] => Err (RFileGroup (MissingGlobs (fg_id group))) | globs => Ok globs end.

(** [root] *)
Definition group_root (group : FileGroup) (project_source : string) : result WorkspaceRelativePath :=
  let? dirs := group_dirs group false in
  match dirs with
  | [] => Ok "."
  | _ =>
      match common_path_all (omap (λ dir, rel_strip_prefix dir project_source) dirs) with
      | Some dir => Ok (path_join project_source dir)
      | None => Ok "."
      end
  end.
End FileGroups.

(** ** Finding tokens ([patterns.rs]) *)

(** The first match of [TOKEN_FUNC]: the name and the argument. *)
Fixpoint find_token_func (value : string) : option (string * string) :=
  match match_token_func value with
  | Some (name, arg, _) => Some (name, arg)
  | None => match value with EmptyString => None | String _ value' => find_token_func value' end
  end.

(** [TOKEN_VAR] at the start of a string, and its first match: what is before it, the name, and what follows. *)
Definition match_token_var (value : string) : option (string * string) :=
  rest ← strip_prefix "$" value; head (omap (λ name, pair name <$> strip_prefix name rest) token_vars).

Fixpoint find_token_var (value : string) : option (string * string * string) :=
  match match_token_var value with
  | Some (name, rest) => Some ("", name, rest)
  | None =>
      match value with
      | EmptyString => None
      | String c value' =>
          match find_token_var value' with
          | Some (before, name, rest) => Some (String c before, name, rest)
          | None => None
          end
      end
  end.

(** ** Results and scopes *)

(** [ExpandedResult].  Of the globs of the inputs only the paths are kept, as in [Task]. *)
Record ExpandedResult : Type := mkExpandedResult {
  er_env : list string;
  er_files : list WorkspaceRelativePath;
  er_files_for_input : gmap WorkspaceRelativePath TaskFileInput;
  er_files_for_output : gmap WorkspaceRelativePath bool;
  er_globs : list string;
  er_globs_for_input : list string;
  er_globs_for_output : list string;
  er_token : option string;
  er_value : option string;
}.

Definition ExpandedResult_default : ExpandedResult := mkExpandedResult [] [] ∅ ∅ [] [] [] None None.

Definition add_env (r : ExpandedResult) (env : list string) : ExpandedResult :=
  mkExpandedResult (er_env r ++ env)%list (er_files r) (er_files_for_input r) (er_files_for_output r) (er_globs r)
    (er_globs_for_input r) (er_globs_for_output r) (er_token r) (er_value r).

Definition add_paths (r : ExpandedResult) (files globs : list string) : ExpandedResult :=
  mkExpandedResult (er_env r) (er_files r ++ files)%list (er_files_for_input r) (er_files_for_output r)
    (er_globs r ++ globs)%list (er_globs_for_input r) (er_globs_for_output r) (er_token r) (er_value r).

Definition set_value (r : ExpandedResult) (value : option string) : ExpandedResult :=
  mkExpandedResult (er_env r) (er_files r) (er_files_for_input r) (er_files_for_output r) (er_globs r)
    (er_globs_for_input r) (er_globs_for_output r) (er_token r) value.

Definition add_input_file (r : ExpandedResult) (file : WorkspaceRelativePath) (input : TaskFileInput) : ExpandedResult :=
  mkExpandedResult (er_env r) (er_files r) (<[file := input]> (er_files_for_input r)) (er_files_for_output r) (er_globs r)
    (er_globs_for_input r) (er_globs_for_output r) (er_token r) (er_value r).

Definition add_input_glob (r : ExpandedResult) (glob : string) : ExpandedResult :=
  mkExpandedResult (er_env r) (er_files r) (er_files_for_input r) (er_files_for_output r) (er_globs r)
    (add_glob (er_globs_for_input r) glob) (er_globs_for_output r) (er_token r) (er_value r).

Definition add_output_file (r : ExpandedResult) (file : WorkspaceRelativePath) (optional : bool) : ExpandedResult :=
  mkExpandedResult (er_env r) (er_files r) (er_files_for_input r) (<[file := optional]> (er_files_for_output r))
    (er_globs r) (er_globs_for_input r) (er_globs_for_output r) (er_token r) (er_value r).

Definition add_output_glob (r : ExpandedResult) (glob : string) : ExpandedResult :=
  mkExpandedResult (er_env r) (er_files r) (er_files_for_input r) (er_files_for_output r) (er_globs r)
    (er_globs_for_input r) (add_glob (er_globs_for_output r) glob) (er_token r) (er_value r).

(** [TokenScope], [label] *)
Inductive TokenScope : Type := ScopeCommand | ScopeScript | ScopeArgs | ScopeEnv | ScopeInputs | ScopeOutputs.

#[export] Instance TokenScope_eq_dec : EqDecision TokenScope.
Proof. solve_decision. Defined.

Definition scope_label (scope : TokenScope) : string :=
  match scope with
  | ScopeCommand => "commands"
  | ScopeScript => "scripts"
  | ScopeArgs => "args"
  | ScopeEnv => "env"
  | ScopeInputs => "inputs"
  | ScopeOutputs => "outputs"
  end.

(** [has_token_function], [has_token_variable] *)
Definition has_token_function (scope : TokenScope) (value : string) : bool :=
  str_contains "@" value &&
  (TOKEN_FUNC_DISTINCT value || (is_some (find_token_func value) && bool_decide (scope = ScopeScript))).

Definition has_token_variable (value : string) : bool :=
  str_contains "$" value && is_some (find_token_var value).

(** [check_scope] *)
Definition check_scope (scope : TokenScope) (task : Task) (token : string) (allowed : list TokenScope) : result unit :=
  if decide (scope ∈ allowed) then Ok tt
  else Err (RTokenExpander (InvalidTokenScope (id (t_target task)) token (scope_label scope))).

(** [parse_index]: a number below [2^64] *)
Definition digit_value (c : ascii) : N := N.of_nat (nat_of_ascii c) - 48.

Definition parse_usize (value : string) : option N :=
  if negb (bool_decide (value = "")) && str_all is_digit value then
    let n := fold_left (λ n c, n * 10 + digit_value c)%N (str_chars value) 0%N in
    if (n <? 2 ^ 64)%N then Some n else None
  else None.

Definition parse_index (task : Task) (token value : string) : result N :=
  ok_or (parse_usize value) (RTokenExpander (InvalidTokenIndex (id (t_target task)) token value)).

(** [list.get(index)] *)
Definition get_at {A} (l : list A) (index : N) : option A :=
  if (index <? N.of_nat (length l))%N then l !! N.to_nat index else None.

(** The names of formats. *)
Definition format_str (format : FileGroupInputFormat) : string :=
  match format with
  | FormatStatic => "static"
  | FormatDirs => "dirs"
  | FormatEnvs => "envs"
  | FormatFiles => "files"
  | FormatGlobs => "globs"
  | FormatRoot => "root"
  end.

(** [Project::get_file_group] *)
Definition get_file_group (project : Project) (group_id : string) : result FileGroup :=
  ok_or (index_get (p_file_groups project) group_id) (RProject (UnknownFileGroup group_id (p_id project))).

(** ** Tasks that are being expanded *)

Definition set_input_env (t : Task) (input_env : list string) : Task :=
  mkTask (t_command t) (t_args t) (t_checks t) (t_deps t) (t_description t) (t_env t) (t_id t) (t_inputs t) input_env
    (t_input_files t) (t_input_globs t) (t_options t) (t_outputs t) (t_output_files t) (t_output_globs t) (t_preset t)
    (t_script t) (t_state t) (t_tags t) (t_target t) (t_toolchains t) (t_type_of t).

Definition set_task_env (t : Task) (env : EnvMap) : Task :=
  mkTask (t_command t) (t_args t) (t_checks t) (t_deps t) (t_description t) env (t_id t) (t_inputs t) (t_input_env t)
    (t_input_files t) (t_input_globs t) (t_options t) (t_outputs t) (t_output_files t) (t_output_globs t) (t_preset t)
    (t_script t) (t_state t) (t_tags t) (t_target t) (t_toolchains t) (t_type_of t).

Definition set_line (t : Task) (command : TaskArg) (args : list TaskArg) (script : option string) : Task :=
  mkTask command args (t_checks t) (t_deps t) (t_description t) (t_env t) (t_id t) (t_inputs t) (t_input_env t)
    (t_input_files t) (t_input_globs t) (t_options t) (t_outputs t) (t_output_files t) (t_output_globs t) (t_preset t)
    script (t_state t) (t_tags t) (t_target t) (t_toolchains t) (t_type_of t).

Definition set_outputs (t : Task) (files : gmap WorkspaceRelativePath bool) (globs : list string) : Task :=
  mkTask (t_command t) (t_args t) (t_checks t) (t_deps t) (t_description t) (t_env t) (t_id t) (t_inputs t)
    (t_input_env t) (t_input_files t) (t_input_globs t) (t_options t) (t_outputs t) files globs (t_preset t)
    (t_script t) (t_state t) (t_tags t) (t_target t) (t_toolchains t) (t_type_of t).

Definition set_env_files (o : TaskOptions) (env_files : option (list Input)) : TaskOptions :=
  mkTaskOptions (o_affected_files o) (o_allow_failure o) (o_cache o) (o_cache_key o) (o_cache_lifetime o) env_files
    (o_infer_inputs o) (o_internal o) (o_interactive o) (o_merge_args o) (o_merge_checks o) (o_merge_deps o)
    (o_merge_env o) (o_merge_inputs o) (o_merge_outputs o) (o_merge_tags o) (o_merge_toolchains o) (o_mutex o) (o_os o)
    (o_output_style o) (o_persistent o) (o_priority o) (o_retry_count o) (o_run_deps_in_parallel o) (o_run_in_ci o)
    (o_run_in_sync_phase o) (o_run_from_workspace_root o) (o_shell o) (o_timeout o) (o_unix_shell o) (o_windows_shell o).

Definition set_options (t : Task) (options : TaskOptions) : Task :=
  mkTask (t_command t) (t_args t) (t_checks t) (t_deps t) (t_description t) (t_env t) (t_id t) (t_inputs t)
    (t_input_env t) (t_input_files t) (t_input_globs t) options (t_outputs t) (t_output_files t) (t_output_globs t)
    (t_preset t) (t_script t) (t_state t) (t_tags t) (t_target t) (t_toolchains t) (t_type_of t).

(** [task.state.expanded = true] *)
Definition set_expanded (t : Task) : Task :=
  let s := t_state t in
  mkTask (t_command t) (t_args t) (t_checks t) (t_deps t) (t_description t) (t_env t) (t_id t) (t_inputs t)
    (t_input_env t) (t_input_files t) (t_input_globs t) (t_options t) (t_outputs t) (t_output_files t) (t_output_globs t)
    (t_preset t) (t_script t)
    (mkTaskState (ts_default_inputs s) (ts_empty_inputs s) true (ts_root_level s) (ts_set_run_in_ci s) (ts_shell_disabled s))
    (t_tags t) (t_target t) (t_toolchains t) (t_type_of t).

(** [map.extend(other)] of hash maps and sets. *)
Definition extend_files (files other : gmap WorkspaceRelativePath TaskFileInput) (paths : list WorkspaceRelativePath) :
  gmap WorkspaceRelativePath TaskFileInput :=
  fold_left (λ files path, <[path := mkTaskFileInput None None]> files) paths (other ∪ files).

Definition extend_globs (globs other : list string) : list string := fold_left add_glob other globs.

(** ** The expander ([token_expander.rs]) *)

Section TokenExpander.
Context `{IdSyntax, ConfigSyntax, RelativePathLib, TokenLib}.
Context (context : GraphExpanderContext) (process : TokenProcess) (unexpanded : Id → result Project) (project : Project).

(** *** Variables *)

Definition get_metadata (field : ProjectMetadataConfig → option string) : string :=
  match config_project (p_config project) with
  | Some metadata => default "" (field metadata)
  | None => ""
  end.

(** What the variables stand for, of the match in [replace_variable]. *)
Definition token_values (task : Task) : list (string * string) :=
  [("arch", tp_arch process);
   ("os", tp_os process);
   ("osFamily", tp_family process);
   ("workingDir", path_display (gx_working_dir context));
   ("workspaceRoot", path_display (gx_workspace_root context));
   ("language", language_to_string (p_language project));
   ("project", p_id project);
   ("projectId", p_id project);
   ("projectAlias", default "" (head (p_aliases project)));
   ("projectAliases", str_join "," (p_aliases project));
   ("projectChannel", get_metadata md_channel);
   ("projectLayer", layer_to_string (p_layer project));
   ("projectName", get_metadata md_title);
   ("projectTitle", get_metadata md_title);
   ("projectOwner", get_metadata md_owner);
   ("projectRoot", p_root project);
   ("projectSource", p_source project);
   ("projectStack", stack_to_string (p_stack project));
   ("target", id (t_target task));
   ("task", t_id task);
   ("taskId", t_id task);
   ("taskToolchain", default "unknown" (head (t_toolchains task)));
   ("taskToolchains", str_join "," (t_toolchains task));
   ("taskType", task_type_to_string (t_type_of task));
   ("date", tp_date process);
   ("datetime", tp_datetime process);
   ("time", tp_time process);
   ("timestamp", pretty (tp_millis process / 1000)%Z);
   ("vcsBranch", gx_vcs_branch context);
   ("vcsRepository", gx_vcs_repository context);
   ("vcsRevision", gx_vcs_revision context)].

(** [replace_variable] *)
Definition replace_variable (task : Task) (value : string) : string :=
  match find_token_var value with
  | None => value
  | Some (before, variable, rest) =>
      match index_get (token_values task) variable with
      | Some replaced => before ++ replaced ++ rest
      | None => value
      end
  end.

(** [replace_variables].  Nothing bounds its loop but [fuel]. *)
Fixpoint replace_variables (fuel : nat) (task : Task) (value : string) : result string :=
  match fuel with
  | 0 => OutOfFuel
  | S fuel' => if has_token_variable value then replace_variables fuel' task (replace_variable task value) else Ok value
  end.

(** [replace_variables_and_substitute] *)
Definition replace_variables_and_substitute (fuel : nat) (task : Task) (env : EnvMap) (value : string) : result string :=
  let? value := replace_variables fuel task value in
  Ok (substitute (with_local_vars (with_local_vars (with_global_vars EnvSubstitutor_default (tp_bag process)) (t_env task)) env)
        value).

(** [create_path_for_task] *)
Definition create_path_for_task (fuel : nat) (task : Task) (path : WorkspaceRelativePath) : result WorkspaceRelativePath :=
  replace_variables_and_substitute fuel task (t_env task) path.

(** *** Functions *)

(** [update_result_for_file_group] *)
Definition update_result_for_file_group (scope : TokenScope) (group : FileGroup) (format : string) (r : ExpandedResult) :
  result ExpandedResult :=
  let loose_check := bool_decide (scope = ScopeOutputs) in
  let fs := tp_fs process in
  let root := gx_workspace_root context in
  if decide (format = "root") then let? dir := group_root fs root group (p_source project) in Ok (add_paths r [dir] [])
  else if decide (format = "dirs") then let? dirs := group_dirs fs root group loose_check in Ok (add_paths r dirs [])
  else if decide (format = "envs" ∧ scope = ScopeInputs) then Ok (add_env r (fg_env group))
  else if decide (format = "files") then let? files := group_files fs root group loose_check in Ok (add_paths r files [])
  else if decide (format = "globs") then let? globs := group_globs group in Ok (add_paths r [] globs)
  else if decide (format = "group" ∨ format = "static") then
    let r := add_paths r (fg_files group) (fg_globs group) in
    Ok (if decide (scope = ScopeInputs) then add_env r (fg_env group) else r)
  else Ok r.

(** The value of [@meta]. *)
Definition meta_value (arg : string) : option string :=
  md ← config_project (p_config project);
  if decide (arg = "channel") then md_channel md
  else if decide (arg = "description") then md_description md
  else if decide (arg = "maintainers") then
    match md_maintainers md with [] => None | maintainers => Some (str_join "," maintainers) end
  else if decide (arg = "name" ∨ arg = "title") then md_title md
  else if decide (arg = "owner") then md_owner md
  else md_metadata md !! arg.

Definition group_scopes : list TokenScope := [ScopeScript; ScopeArgs; ScopeEnv; ScopeInputs; ScopeOutputs].
Definition meta_scopes : list TokenScope := [ScopeCommand; ScopeScript; ScopeArgs; ScopeEnv].

(** [replace_function].  An input or output that is a function itself is followed; nothing bounds the recursion
    but [fuel]. *)
Fixpoint replace_function (fuel : nat) (scope : TokenScope) (task : Task) (value : string) : result ExpandedResult :=
  match fuel with
  | 0 => OutOfFuel
  | S fuel' =>
      let? '(func, arg) := index_or_panic (find_token_func value) in
      let token := "@" ++ func ++ "(" ++ arg ++ ")" in
      let r := mkExpandedResult [] [] ∅ ∅ [] [] [] (Some token) None in
      let invalid_reference := Err (RTokenExpander (InvalidTokenIndexReference (id (t_target task)) token)) in
      if decide (func ∈ ["root"; "dirs"; "files"; "globs"; "group"]) then
        check_scope scope task token group_scopes;;?
        let? group := get_file_group project arg in
        update_result_for_file_group scope group func r
      else if decide (func = "in") then
        check_scope scope task token [ScopeScript; ScopeArgs];;?
        let? index := parse_index task token arg in
        let? input := ok_or (get_at (t_inputs task) index)
          (RTokenExpander (MissingInIndex index (id (t_target task)) token)) in
        match input with
        | InFile inner =>
            let? path := create_path_for_task fuel task (file_to_workspace_relative (fin_file inner) (p_source project)) in
            Ok (add_paths r [path] [])
        | InFileGroup inner =>
            let? group := get_file_group project (gin_group inner) in
            update_result_for_file_group scope group (format_str (gin_format inner)) r
        | InGlob inner =>
            let? path := create_path_for_task fuel task (glob_to_workspace_relative (glin_glob inner) (p_source project)) in
            Ok (add_paths r [] [path])
        | InTokenFunc func =>
            let? inner := replace_function fuel' scope task func in
            Ok (add_paths r (er_files inner) (er_globs inner))
        | _ => invalid_reference
        end
      else if decide (func = "out") then
        check_scope scope task token [ScopeScript; ScopeArgs];;?
        let? index := parse_index task token arg in
        let? output := ok_or (get_at (t_outputs task) index)
          (RTokenExpander (MissingOutIndex index (id (t_target task)) token)) in
        match output with
        | OutFile inner =>
            let? path := create_path_for_task fuel task (file_to_workspace_relative (fout_file inner) (p_source project)) in
            Ok (add_paths r [path] [])
        | OutGlob inner =>
            let? path := create_path_for_task fuel task (glob_to_workspace_relative (gout_glob inner) (p_source project)) in
            Ok (add_paths r [] [path])
        | OutTokenFunc func =>
            let? inner := replace_function fuel' scope task func in
            Ok (add_paths r (er_files inner) (er_globs inner))
        | _ => invalid_reference
        end
      else if decide (func = "envs") then
        check_scope scope task token [ScopeInputs];;?
        let? group := get_file_group project arg in
        update_result_for_file_group scope group func r
      else if decide (func = "meta") then
        check_scope scope task token meta_scopes;;?
        Ok (set_value r (meta_value arg))
      else Err (RTokenExpander (UnknownToken token))
  end.

(** *** What a task is inferred to read *)

(** [infer_inputs_from_result] *)
Definition infer_inputs_from_result (task : Task) (r : ExpandedResult) : Task :=
  if o_infer_inputs (t_options task) then
    set_inputs task (extend_files (t_input_files task) (er_files_for_input r) (er_files r))
      (extend_globs (extend_globs (t_input_globs task) (er_globs_for_input r)) (er_globs r))
  else task.

(** [infer_inputs_from_set] *)
Definition env_blacklist : list string :=
  (["HOME"; "USER"; "PWD"; "CI_"; "GIT_"; "BUILD_"; "PR_"; "PULL_"; "COMMIT_HASH"; "COMMIT_REF"; "COMMIT_SHA"; "HEAD";
    "BASE"; "BRANCH"; "_SHA"] ++ option_list (tp_ci_prefix process) ++ option_list (tp_cd_prefix process))%list.

Definition is_blacklisted (key : string) : bool :=
  existsb (λ item, bool_decide (key = item) || starts_with item key || ends_with item key) env_blacklist.

Definition infer_inputs_from_set (task : Task) (set : gset string) : Task :=
  set_input_env task (extend_globs (t_input_env task) (filter (λ key, is_blacklisted key = false) (elements set))).

(** [replace_variables_and_scan] *)
Definition replace_variables_and_scan (fuel : nat) (task : Task) (value : string) : result (string * Task) :=
  let? value := replace_variables fuel task value in
  Ok (value, if o_infer_inputs (t_options task) then infer_inputs_from_set task (scan value) else task).

(** [resolve_path_for_task] *)
Definition resolve_path_for_task (task : Task) (path : WorkspaceRelativePath) : string :=
  let '(path, negated) := match strip_prefix "!" path with Some inner => (inner, "!") | None => (path, "") end in
  if o_run_from_workspace_root (t_options task) then negated ++ path
  else match rel_strip_prefix path (p_source project) with
       | Some proj_path => negated ++ proj_path
       | None =>
           let abs_path := to_logical_path path (gx_workspace_root context) in
           negated ++ path_display (default abs_path (diff_paths abs_path (path_components (p_root project))))
       end.

(** The files, the globs and the value of a result, as they are passed to a command. *)
Definition result_items (task : Task) (r : ExpandedResult) : list string :=
  ((resolve_path_for_task task <$> er_files r) ++ (resolve_path_for_task task <$> er_globs r) ++ option_list (er_value r))%list.

(** *** Settings *)

(** [expand_command] *)
Definition token_expand_command (fuel : nat) (task : Task) : result (string * Task) :=
  let command := TaskArg_get_value (t_command task) in
  let? command :=
    if has_token_function ScopeCommand command then
      let? r := replace_function fuel ScopeCommand task command in
      match er_token r, er_value r with
      | Some token, Some value => Ok (str_replace token value command)
      | _, _ => Ok command
      end
    else Ok command in
  replace_variables_and_scan fuel task command.

(** [expand_script], its loop first; nothing bounds it but [fuel] *)
Fixpoint expand_script_loop (fuel : nat) (task : Task) (script : string) : result (string * Task) :=
  match fuel with
  | 0 => OutOfFuel
  | S fuel' =>
      if has_token_function ScopeScript script then
        let? r := replace_function fuel ScopeScript task script in
        let task := infer_inputs_from_result task r in
        match er_token r with
        | Some token => expand_script_loop fuel' task (str_replace token (str_join " " (result_items task r)) script)
        | None => expand_script_loop fuel' task script
        end
      else Ok (script, task)
  end.

Definition token_expand_script (fuel : nat) (task : Task) : result (string * Task) :=
  let? script := index_or_panic (t_script task) in
  let? '(script, task) := expand_script_loop fuel task script in
  replace_variables_and_scan fuel task script.

(** [expand_args_with_task], the body of its loop first *)
Definition expand_arg (fuel : nat) (s : list string * Task) (arg : string) : result (list string * Task) :=
  let '(args, task) := s in
  if has_token_function ScopeArgs arg then
    let? r := replace_function fuel ScopeArgs task arg in
    let task := infer_inputs_from_result task r in
    Ok ((args ++ result_items task r)%list, task)
  else
    let? '(arg, task) := replace_variables_and_scan fuel task arg in
    Ok ((args ++ [arg])%list, task).

Definition expand_args_with_task (fuel : nat) (task : Task) (args : list string) : result (list string * Task) :=
  ofold (expand_arg fuel) ([], task) args.

(** [expand_env_with_task], the body of its loop first *)
Definition expand_env_entry (fuel : nat) (s : EnvMap * Task) (entry : string * option string) : result (EnvMap * Task) :=
  let '(env, task) := s in
  let '(key, value) := entry in
  match value with
  | None => Ok (index_insert env key None, task)
  | Some value =>
      if has_token_function ScopeEnv value then
        let? r := replace_function fuel ScopeEnv task value in
        let task := infer_inputs_from_result task r in
        Ok (index_insert env key (Some (str_join "," (result_items task r))), task)
      else
        let? value := replace_variables_and_substitute fuel task env value in
        Ok (index_insert env key (Some value), task)
  end.

Definition expand_env_with_task (fuel : nat) (task : Task) (env : EnvMap) : result (EnvMap * Task) :=
  ofold (expand_env_entry fuel) ([], task) env.

(** The names that match [^...$] with [[A-Z0-9_]+] for every star. *)
Fixpoint env_glob_matches (pattern : list ascii) : list ascii → bool :=
  match pattern with
  | [] => λ name, match name with [] => true | _ => false end
  | c :: pattern' =>
      if Ascii.eqb c "*" then
        fix plus name :=
          match name with
          | [] => false
          | d :: name' => env_char d && (env_glob_matches pattern' name' || plus name')
          end
      else λ name, match name with d :: name' => Ascii.eqb c d && env_glob_matches pattern' name' | [] => false end
  end.

(** [expand_inputs], the body of its loop first *)
Definition expand_project_input (fuel : nat) (task : Task) (r : ExpandedResult) (inner : ProjectInput) :
  result ExpandedResult :=
  let? other := unexpanded (pin_project inner) in
  match pin_group inner, pin_filter inner with
  | Some group_id, _ =>
      let? group := get_file_group other group_id in
      update_result_for_file_group ScopeInputs group "static" r
  | None, [] =>
      let? path := create_path_for_task fuel task (path_join (p_source other) "**/*") in Ok (add_input_glob r path)
  | None, filters =>
      ofold (λ r glob,
        let? path := create_path_for_task fuel task (expand_to_workspace_relative (Some (p_source other)) glob) in
        Ok (add_input_glob r path)) r filters
  end.

Definition expand_input (fuel : nat) (task : Task) (r : ExpandedResult) (input : Input) : result ExpandedResult :=
  match input with
  | InEnvVar var => Ok (add_env r [var])
  | InEnvVarGlob var_glob =>
      Ok (add_env r (filter (λ name, env_glob_matches (str_chars var_glob) (str_chars name) = true)
        (bag_list (tp_bag process)).*1))
  | InTokenFunc func =>
      let? inner := replace_function fuel ScopeInputs task func in
      Ok (set_value (add_paths (add_env r (er_env inner)) (er_files inner) (er_globs inner)) (er_value inner))
  | InTokenVar var => Ok (add_paths r [path_join (p_source project) (replace_variable task var)] [])
  | InFile inner =>
      let? path := create_path_for_task fuel task (file_to_workspace_relative (fin_file inner) (p_source project)) in
      Ok (add_input_file r path (mkTaskFileInput (fin_content inner) (fin_optional inner)))
  | InFileGroup inner =>
      let? group := get_file_group project (gin_group inner) in
      update_result_for_file_group ScopeInputs group (format_str (gin_format inner)) r
  | InGlob inner =>
      let? path := create_path_for_task fuel task (glob_to_workspace_relative (glin_glob inner) (p_source project)) in
      Ok (add_input_glob r path)
  | InProject inner => expand_project_input fuel task r inner
  end.

Definition token_expand_inputs (fuel : nat) (task : Task) : result ExpandedResult :=
  ofold (expand_input fuel task) ExpandedResult_default (t_inputs task).

(** [expand_outputs], the body of its loop first *)
Definition expand_output (fuel : nat) (task : Task) (r : ExpandedResult) (output : Output) : result ExpandedResult :=
  match output with
  | OutTokenFunc func =>
      let? inner := replace_function fuel ScopeOutputs task func in
      Ok (set_value (add_paths r (er_files inner) (er_globs inner)) (er_value inner))
  | OutTokenVar var => Ok (add_paths r [path_join (p_source project) (replace_variable task var)] [])
  | OutFile inner =>
      let? path := create_path_for_task fuel task (file_to_workspace_relative (fout_file inner) (p_source project)) in
      Ok (add_output_file r path (default false (fout_optional inner)))
  | OutGlob inner =>
      let? path := create_path_for_task fuel task (glob_to_workspace_relative (gout_glob inner) (p_source project)) in
      Ok (add_output_glob r path)
  end.

Definition token_expand_outputs (fuel : nat) (task : Task) : result ExpandedResult :=
  ofold (expand_output fuel task) ExpandedResult_default (t_outputs task).

(** ** Expanding a task ([task_expander.rs]) *)

(** [expand_script], [expand_command] *)
Definition expand_script (fuel : nat) (task : Task) : result Task :=
  let? '(script, task) := token_expand_script fuel task in Ok (set_line task (t_command task) (t_args task) (Some script)).

Definition expand_command (fuel : nat) (task : Task) : result Task :=
  let? '(command, task) := token_expand_command fuel task in
  Ok (set_line task (TaskArg_new command) (t_args task) (t_script task)).

(** [expand_env]: the variables are taken out of the task first *)
Definition expand_env (fuel : nat) (task : Task) : result Task :=
  let? '(env, task) := expand_env_with_task fuel (set_task_env task []) (t_env task) in Ok (set_task_env task env).

(** [expand_env_files] *)
Definition expand_env_file (fuel : nat) (task : Task) (input : Input) : result Input :=
  match input with
  | InFile inner =>
      let? path := replace_variables_and_substitute fuel task [] (fin_file inner) in Input_parse path
  | _ => Ok input
  end.

Definition expand_env_files (fuel : nat) (task : Task) : result Task :=
  match o_env_files (t_options task) with
  | Some env_files =>
      let? files := omap_list (expand_env_file fuel task) env_files in
      Ok (set_options task (set_env_files (t_options task) (Some files)))
  | None => Ok task
  end.

(** [expand_deps], the body of its loop first: the dependencies are taken out of the task *)
Definition expand_dep (fuel : nat) (s : list TaskDependencyConfig * Task) (dep : TaskDependencyConfig) :
  result (list TaskDependencyConfig * Task) :=
  let '(deps, task) := s in
  let? '(args, task) := expand_args_with_task fuel task (dep_args dep) in
  let? '(env, task) := expand_env_with_task fuel task (dep_env dep) in
  let env := substitute_all (with_local_vars (with_global_vars EnvSubstitutor_default (tp_bag process)) env) env in
  Ok ((deps ++ [mkTaskDep args (dep_cache_strategy dep) env (dep_target dep) (dep_optional dep)])%list, task).

Definition expand_deps (fuel : nat) (task : Task) : result Task :=
  let? '(deps, task) := ofold (expand_dep fuel) ([], set_deps task []) (t_deps task) in Ok (set_deps task deps).

(** [expand_inputs], [expand_outputs] *)
Definition expand_inputs (fuel : nat) (task : Task) : result Task :=
  let? r := token_expand_inputs fuel task in
  let task := set_input_env task (extend_globs (t_input_env task) (er_env r)) in
  Ok (set_inputs task (extend_files (t_input_files task) (er_files_for_input r) (er_files r))
        (extend_globs (extend_globs (t_input_globs task) (er_globs_for_input r)) (er_globs r))).

Definition expand_outputs (fuel : nat) (task : Task) : result Task :=
  let? r := token_expand_outputs fuel task in
  Ok (set_outputs task
        (fold_left (λ files path, <[path := false]> files) (er_files r) (er_files_for_output r ∪ t_output_files task))
        (extend_globs (extend_globs (t_output_globs task) (er_globs_for_output r)) (er_globs r))).

(** [expand_args] *)
Definition expand_args (fuel : nat) (task : Task) : result Task :=
  let? '(args, task) := expand_args_with_task fuel task (TaskArg_get_value <$> t_args task) in
  Ok (set_line task (t_command task) (TaskArg_new <$> args) (t_script task)).

(** [expand], up to the outputs of dependencies *)
Definition expand_task_tokens (fuel : nat) (task : Task) : result Task :=
  let? task := match t_script task with Some _ => expand_script fuel task | None => expand_command fuel task end in
  let? task := expand_env fuel task in
  let? task := expand_env_files fuel task in
  let? task := expand_deps fuel task in
  let? task := expand_inputs fuel task in
  let? task := expand_outputs fuel task in
  let? task := expand_args fuel task in
  Ok (set_expanded task).
End TokenExpander.

(** The expander as what the task graph asks for, in the workspace of a project graph. *)
Definition token_host `{IdSyntax, ConfigSyntax, RelativePathLib, TokenLib}
    {G : DiGraphOps nat DependencyScope} {D : DagOps nat DependencyScope}
    (context : GraphExpanderContext) (process : TokenProcess) (graph : ProjectGraph G D) (fuel : nat) : TaskHost := {|
  expand_tokens project task := expand_task_tokens context process (get_unexpanded graph) project fuel task;
  path_is_dir file :=
    let path := to_path file (gx_workspace_root context) in path_exists (tp_fs process) path && is_dir (tp_fs process) path;
|}.
