(* ===== verification/TokenFacts.v ===== *)
(** * Facts about tokens

When replacing tokens ends, and what expanding a task leaves alone. *)

From S2P Require Import Prelude Errors FileSystem Target Shapes Config EnvVar Dag DiGraph ProjectGraph TaskGraph Manifest TokenExpander.

(** ** Counting characters *)

Fixpoint count_char (c : ascii) (s : string) : nat :=
  match s with
  | EmptyString => 0
  | String d s' => if Ascii.eqb c d then S (count_char c s') else count_char c s'
  end.

Lemma count_char_append c a b : count_char c (String.append a b) = count_char c a + count_char c b.
Proof. induction a as [|d a IH]; cbn; [done|]. destruct (Ascii.eqb c d); cbn; by rewrite IH. Qed.

Lemma count_char_none c s : str_contains c s = false → count_char c s = 0.
Proof.
  induction s as [|d s IH]; [done|]. rewrite str_contains_cons. intros [Hd Hs]%orb_false_iff. cbn. rewrite Hd. by apply IH.
Qed.

Lemma count_char_some c s : str_contains c s = true → 0 < count_char c s.
Proof.
  induction s as [|d s IH]; [done|]. rewrite str_contains_cons. cbn. destruct (Ascii.eqb c d); [lia|]. apply IH.
Qed.

(** ** Variables *)

Lemma match_token_var_Some value name rest :
  match_token_var value = Some (name, rest) → value = String "$" (String.append name rest) ∧ name ∈ token_vars.
Proof.
  unfold match_token_var. intros (r & Hr & Hh)%bind_Some. apply strip_prefix_Some in Hr as ->.
  apply head_Some_elem_of in Hh. apply list_elem_of_omap in Hh as (n & Hn & Hm).
  apply fmap_Some in Hm as (r' & Hr' & [= -> ->]). apply strip_prefix_Some in Hr' as ->. by split.
Qed.

Lemma find_token_var_Some value before name rest :
  find_token_var value = Some (before, name, rest) →
  value = String.append before (String "$" (String.append name rest)) ∧ name ∈ token_vars.
Proof.
  revert before. induction value as [|c value IH]; intros before; cbn [find_token_var].
  - destruct (match_token_var "") as [[n r]|] eqn:Hm; [|done]. by apply match_token_var_Some in Hm as [? _].
  - destruct (match_token_var (String c value)) as [[n r]|] eqn:Hm.
    + intros [= <- <- <-]. by apply match_token_var_Some in Hm.
    + destruct (find_token_var value) as [[[b n] r]|]; [|done]. intros [= <- <- <-].
      destruct (IH b eq_refl) as [-> Hn]. by split.
Qed.

(** ** Functions *)

Lemma span_while_append p s : String.append (span_while p s).1 (span_while p s).2 = s.
Proof. induction s as [|c s IH]; cbn; [done|]. destruct (p c); [|done]. destruct (span_while p s). cbn in *. by rewrite IH. Qed.

Definition token_text (func arg : string) : string :=
  String.append "@" (String.append func (String.append "(" (String.append arg ")"))).

Lemma match_token_func_Some value func arg rest :
  match_token_func value = Some (func, arg, rest) → value = String.append (token_text func arg) rest.
Proof.
  unfold match_token_func, token_text. destruct (strip_prefix "@" value) as [v|] eqn:H1; [|done].
  pose proof (span_while_append is_lower v) as E1. destruct (span_while is_lower v) as [n v1].
  destruct (strip_prefix "(" v1) as [v2|] eqn:H2; [|done].
  pose proof (span_while_append token_arg_char v2) as E2. destruct (span_while token_arg_char v2) as [a v3].
  destruct (strip_prefix ")" v3) as [v4|] eqn:H3; [|done]. case_decide; [done|]. intros [= <- <- <-].
  apply strip_prefix_Some in H1 as ->, H2 as ->, H3 as ->. cbn in E1, E2. subst. by rewrite !str_append_assoc.
Qed.

Lemma find_token_func_Some value func arg :
  find_token_func value = Some (func, arg) → ∃ a b, value = String.append a (String.append (token_text func arg) b).
Proof.
  induction value as [|c value IH]; cbn [find_token_func].
  - destruct (match_token_func "") as [[[n a] r]|] eqn:Hm; [|done]. apply match_token_func_Some in Hm. done.
  - destruct (match_token_func (String c value)) as [[[n a] r]|] eqn:Hm.
    + intros [= <- <-]. apply match_token_func_Some in Hm. by exists ""%string, r.
    + intros (a & b & ->)%IH. by exists (String c a), b.
Qed.

(** Replacing text by text without a character leaves no more of that character, and less if it was
    there. *)
Lemma str_replace_fuel_count c p r fuel s : count_char c r = 0 → count_char c (str_replace_fuel fuel p r s) ≤ count_char c s.
Proof.
  intros Hr. revert s. induction fuel as [|fuel IH]; intros s; cbn [str_replace_fuel]; [done|].
  destruct (strip_prefix p s) as [rest|] eqn:Hp.
  - apply strip_prefix_Some in Hp as ->. rewrite !count_char_append. specialize (IH rest). lia.
  - destruct s as [|d s]; [done|]. cbn. specialize (IH s). destruct (Ascii.eqb c d); lia.
Qed.

Lemma str_replace_count c p r a b :
  count_char c r = 0 → 0 < count_char c p →
  count_char c (str_replace p r (String.append a (String.append p b))) < count_char c (String.append a (String.append p b)).
Proof.
  intros Hr Hp. unfold str_replace. set (s := String.append a _). assert (String.length s < S (String.length s)) as Hf by lia.
  revert Hf. generalize (S (String.length s)) as fuel. unfold s. clear s.
  induction a as [|d a IH]; intros fuel Hf; (destruct fuel as [|fuel]; [lia|]); cbn [append str_replace_fuel].
  - rewrite strip_prefix_append, !count_char_append. pose proof (str_replace_fuel_count c p r fuel b Hr). lia.
  - destruct (strip_prefix p (String d (String.append a (String.append p b)))) as [rest|] eqn:Hs.
    + apply strip_prefix_Some in Hs. rewrite Hs, !count_char_append. pose proof (str_replace_fuel_count c p r fuel rest Hr). lia.
    + cbn in *. specialize (IH fuel ltac:(lia)). destruct (Ascii.eqb c d); lia.
Qed.

Lemma str_join_count c sep xs : count_char c sep = 0 → Forall (λ x, count_char c x = 0) xs → count_char c (str_join sep xs) = 0.
Proof.
  intros Hsep. induction 1 as [|x xs Hx Hxs IH]; [done|]. cbn. destruct xs as [|y xs]; [done|]. rewrite !count_char_append. lia.
Qed.

(** ** Computations that settle

A computation on fuel that gives the same result, one that is not [OutOfFuel], for all fuel from some point on. *)

Definition settles {A} (m : nat → result A) : Prop := ∃ n r, r ≠ OutOfFuel ∧ ∀ fuel, n ≤ fuel → m fuel = r.

Lemma settles_const {A} (r : result A) : r ≠ OutOfFuel → settles (λ _, r).
Proof. intros Hr. by exists 0, r. Qed.

Lemma settles_ok {A} (a : A) : settles (λ _, Ok a).
Proof. by apply settles_const. Qed.

Lemma settles_ext {A} (m m' : nat → result A) : (∀ fuel, m fuel = m' fuel) → settles m → settles m'.
Proof. intros Hm (n & r & Hr & Hs). exists n, r. split; [done|]. intros fuel Hf. rewrite <- Hm. by apply Hs. Qed.

Lemma settles_bind {A B} (m : nat → result A) (k : A → nat → result B) :
  settles m → (∀ a fuel, m fuel = Ok a → settles (k a)) → settles (λ fuel, let? a := m fuel in k a fuel).
Proof.
  intros (n & r & Hr & Hm) Hk. destruct r as [a|e|]; [|exists n, (Err e); split; [done|]; intros fuel Hf; by rewrite Hm|done].
  destruct (Hk a n (Hm n (le_n n))) as (n' & r' & Hr' & Hs). exists (n + n'), r'. split; [done|].
  intros fuel Hf. rewrite Hm by lia. apply Hs. lia.
Qed.

(** A step that may use one unit of fuel less. *)
Lemma settles_step {A} (m : nat → result A) (k : nat → nat → result A) :
  settles m → (∀ fuel, k (S fuel) fuel = m fuel) → settles (λ fuel, match fuel with 0 => OutOfFuel | S fuel' => k fuel fuel' end).
Proof.
  intros (n & r & Hr & Hm) Hk. exists (S n), r. split; [done|]. intros [|fuel] Hf; [lia|]. rewrite Hk. apply Hm. lia.
Qed.

Lemma settles_fold {A S} (I : S → Prop) (f : nat → S → A → result S) s l :
  I s → (∀ s x, x ∈ l → I s → settles (λ fuel, f fuel s x)) → (∀ fuel s x s', x ∈ l → I s → f fuel s x = Ok s' → I s') →
  settles (λ fuel, ofold (f fuel) s l).
Proof.
  intros Hs Hf HI. revert s Hs. induction l as [|x l IH]; intros s Hs; [apply settles_ok|]. cbn [ofold].
  apply (settles_bind (λ fuel, f fuel s x) (λ s' fuel, ofold (f fuel) s' l)); [apply Hf; [left|done]|].
  intros s' fuel Hs'. apply IH.
  - intros. by apply Hf; [right|].
  - intros. eapply HI; [right|..]; done.
  - eapply HI; [left|..]; done.
Qed.

Lemma settles_map {A B} (f : nat → A → result B) l :
  (∀ x, x ∈ l → settles (λ fuel, f fuel x)) → settles (λ fuel, omap_list (f fuel) l).
Proof.
  induction l as [|x l IH]; intros Hf; [apply settles_ok|]. cbn [omap_list].
  apply (settles_bind (λ fuel, f fuel x) (λ y fuel, let? ys := omap_list (f fuel) l in Ok (y :: ys))); [apply Hf; left|].
  intros y _ _. apply (settles_bind (λ fuel, omap_list (f fuel) l) (λ ys _, Ok (y :: ys))).
  - apply IH. intros. apply Hf. by right.
  - intros. apply settles_ok.
Qed.

Lemma settles_S {A} (m : nat → result A) : settles m → settles (λ fuel, m (S fuel)).
Proof. intros (n & r & Hr & Hm). exists n, r. split; [done|]. intros fuel Hf. apply Hm. lia. Qed.

Lemma settles_pred {A} (m : nat → result A) : settles (λ fuel, m (S fuel)) → settles m.
Proof. intros (n & r & Hr & Hm). exists (S n), r. split; [done|]. intros [|fuel] Hf; [lia|]. apply Hm. lia. Qed.

Lemma index_get_elem {A} (l : list (string * A)) key value : index_get l key = Some value → (key, value) ∈ l.
Proof.
  unfold index_get. intros ([k v] & Hf & [= <-])%fmap_Some. apply List.find_some in Hf as [Hin Hk%bool_decide_eq_true]. subst.
  by apply list_elem_of_In.
Qed.

(** A set of paths after [extend]. *)
Lemma extend_globs_elem globs other x : x ∈ extend_globs globs other ↔ x ∈ globs ∨ x ∈ other.
Proof.
  unfold extend_globs. revert globs. induction other as [|y other IH]; intros globs; cbn; [set_solver|]. rewrite IH.
  unfold add_glob. case_decide; set_solver.
Qed.

Lemma insert_all_dom {A} (v : A) (m : gmap string A) paths x :
  is_Some (fold_left (λ files path, <[path := v]> files) paths m !! x) ↔ is_Some (m !! x) ∨ x ∈ paths.
Proof.
  revert m. induction paths as [|y paths IH]; intros m; cbn; [set_solver|]. rewrite IH, lookup_insert_is_Some'. set_solver.
Qed.

Lemma extend_files_dom files other paths x :
  is_Some (extend_files files other paths !! x) ↔ is_Some (files !! x) ∨ is_Some (other !! x) ∨ x ∈ paths.
Proof. unfold extend_files. rewrite insert_all_dom, lookup_union_is_Some. tauto. Qed.

(** ** Facts of the expander *)

(** The library returns: [walk_fast_with_options] gives paths or an error. *)
Class TokenLibReturns `{TokenLib} : Prop := {
  glob_walk_returns : ∀ fs root globs, glob_walk fs root globs ≠ OutOfFuel;
}.

(** A token that is no reference to an input or an output. *)
Definition plain_reference (value : string) : Prop :=
  ∀ func arg, find_token_func value = Some (func, arg) → func ≠ "in"%string ∧ func ≠ "out"%string.

Section Facts.
Context `{IdSyntax, ConfigSyntax, RelativePathLib, TokenLib}.
Context (context : GraphExpanderContext) (process : TokenProcess) (unexpanded : Id → result Project) (project : Project).

#[local] Notation token_values := (token_values context process project).
#[local] Notation replace_variable := (replace_variable context process project).
#[local] Notation replace_variables := (replace_variables context process project).
#[local] Notation replace_function := (replace_function context process project).
#[local] Notation create_path_for_task := (create_path_for_task context process project).

(** What variables stand for has no variables. *)
Definition plain_variables (task : Task) : Prop := ∀ name v, (name, v) ∈ token_values task → str_contains "$" v = false.

Lemma token_values_known task name : name ∈ token_vars → ∃ v, index_get (token_values task) name = Some v ∧ (name, v) ∈ token_values task.
Proof.
  intros Hname. destruct (index_get (token_values task) name) as [v|] eqn:Hv; [exists v; split; [done|]; by apply index_get_elem|].
  apply index_get_None in Hv. destruct Hv. revert name Hname. apply Forall_forall.
  change (Forall (λ name, name ∈ (token_values task).*1) token_vars).
  apply (bool_decide_unpack _). vm_compute. exact I.
Qed.

Lemma replace_variable_count task value :
  plain_variables task → has_token_variable value = true →
  count_char "$" (replace_variable task value) < count_char "$" value.
Proof.
  intros Hplain [_ Hvar]%andb_true_iff. unfold TokenExpander.replace_variable.
  destruct (find_token_var value) as [[[before name] rest]|] eqn:Hf; [|done].
  apply find_token_var_Some in Hf as [-> Hname]. destruct (token_values_known task name Hname) as (v & -> & Hv).
  rewrite !count_char_append. cbn [count_char]. change (Ascii.eqb "$" "$") with true. cbn iota. rewrite count_char_append.
  rewrite (count_char_none "$" v) by by eapply Hplain. lia.
Qed.

(** Replacing variables ends, and leaves none. *)
Lemma replace_variables_settles task value :
  plain_variables task → settles (λ fuel, replace_variables fuel task value).
Proof.
  intros Hplain. remember (count_char "$" value) as n eqn:Hn. revert value Hn.
  induction (lt_wf n) as [n _ IH]. intros value ->. apply settles_pred. cbn [TokenExpander.replace_variables].
  destruct (has_token_variable value) eqn:Hvar; [|apply settles_ok].
  eapply IH; [|done]. by apply replace_variable_count.
Qed.

Lemma replace_variables_none fuel task value out : replace_variables fuel task value = Ok out → has_token_variable out = false.
Proof.
  revert value. induction fuel as [|fuel IH]; intros value; cbn [TokenExpander.replace_variables]; [done|].
  destruct (has_token_variable value) eqn:Hvar; [apply IH|]. by intros [= <-].
Qed.

Lemma substitute_settles task env value :
  plain_variables task → settles (λ fuel, replace_variables_and_substitute context process project fuel task env value).
Proof.
  intros Hplain. unfold replace_variables_and_substitute. apply settles_bind; [by apply replace_variables_settles|].
  intros. apply settles_ok.
Qed.

Lemma create_path_settles task path : plain_variables task → settles (λ fuel, create_path_for_task fuel task path).
Proof. apply substitute_settles. Qed.

Lemma scan_settles task value :
  plain_variables task → settles (λ fuel, replace_variables_and_scan context process project fuel task value).
Proof.
  intros Hplain. unfold replace_variables_and_scan. apply settles_bind; [by apply replace_variables_settles|].
  intros. apply settles_ok.
Qed.

Section Returns.
Context `{!TokenLibReturns} (unexpanded_returns : ∀ id, unexpanded id ≠ OutOfFuel).

Lemma group_walk_returns fs root group directories loose : group_walk fs root group directories loose ≠ OutOfFuel.
Proof.
  unfold group_walk, walk_absolute. destruct (fg_globs group) as [|glob globs]; [done|].
  pose proof (glob_walk_returns fs root (glob :: globs)). by destruct (glob_walk fs root (glob :: globs)).
Qed.

Lemma update_result_returns scope group format r :
  update_result_for_file_group context process project scope group format r ≠ OutOfFuel.
Proof.
  unfold update_result_for_file_group, group_root, group_dirs, group_files, group_globs.
  repeat case_decide; try done;
    repeat match goal with
    | |- context [group_walk ?fs ?root ?g ?d ?l] =>
        let Hw := fresh in pose proof (group_walk_returns fs root g d l) as Hw; destruct (group_walk fs root g d l) as [dirs|e|]; [|done|done];
          clear Hw; cbn [obind]
    end; try done.
  - destruct dirs; [done|]. by destruct (common_path_all _).
  - by destruct (fg_globs group).
Qed.

Lemma file_group_settles scope (p : Project) id format r :
  settles (λ _, let? group := get_file_group p id in update_result_for_file_group context process project scope group format r).
Proof.
  apply settles_const. unfold get_file_group. destruct (index_get (p_file_groups p) id); [|done]. cbn [obind ok_or].
  apply update_result_returns.
Qed.

(** A computation that settles for the rest of the arguments. *)
Ltac settle :=
  repeat first
    [ apply settles_ok
    | match goal with |- settles (λ _, Err _) => by apply settles_const end
    | apply file_group_settles
    | match goal with |- settles (λ _, obind _ _) => apply settles_bind; [|intros; simplify_eq] end
    | progress case_decide
    | done ].

Lemma check_scope_settles scope task token allowed : settles (λ _, check_scope scope task token allowed).
Proof. unfold check_scope. settle. Qed.

Lemma parse_index_settles task token arg : settles (λ _, parse_index task token arg).
Proof. apply settles_const. unfold parse_index. by destruct (parse_usize arg). Qed.

Lemma ok_or_settles {A} (o : option A) e : settles (λ _, ok_or o e).
Proof. apply settles_const. by destruct o. Qed.

(** The body of [replace_function], where the functions it refers to settle. *)
Lemma replace_function_body task scope value :
  plain_variables task →
  (∀ func arg, find_token_func value = Some (func, arg) →
    (func = "in"%string → ∀ inner, InTokenFunc inner ∈ t_inputs task → settles (λ fuel, replace_function fuel scope task inner)) ∧
    (func = "out"%string → ∀ inner, OutTokenFunc inner ∈ t_outputs task → settles (λ fuel, replace_function fuel scope task inner))) →
  settles (λ fuel, replace_function fuel scope task value).
Proof.
  intros Hplain Hinner. apply settles_pred. cbn [TokenExpander.replace_function].
  apply settles_bind; [apply ok_or_settles|]. intros [func arg] _ Hfunc.
  assert (find_token_func value = Some (func, arg)) as Hfind by by destruct (find_token_func value) as [[? ?]|]; simplify_eq/=.
  destruct (Hinner _ _ Hfind) as [Hin Hout]. clear Hinner Hfunc Hfind.
  case_decide; [apply settles_bind; [apply check_scope_settles|]; intros; apply file_group_settles; done|].
  case_decide as Hfin; [|case_decide as Hfout].
  - apply settles_bind; [apply check_scope_settles|]. intros _ _ _.
    apply settles_bind; [apply parse_index_settles|]. intros index _ _.
    apply settles_bind; [apply ok_or_settles|]. intros input _ Hinput.
    destruct input; settle; try (apply (settles_S (λ fuel, create_path_for_task fuel task _)); by apply create_path_settles).
    apply Hin; [done|]. unfold get_at in Hinput. case_match; [|done].
    destruct (t_inputs task !! N.to_nat index) eqn:Hl; simplify_eq/=. by eapply list_elem_of_lookup_2.
  - apply settles_bind; [apply check_scope_settles|]. intros _ _ _.
    apply settles_bind; [apply parse_index_settles|]. intros index _ _.
    apply settles_bind; [apply ok_or_settles|]. intros output _ Houtput.
    destruct output; settle; try (apply (settles_S (λ fuel, create_path_for_task fuel task _)); by apply create_path_settles).
    apply Hout; [done|]. unfold get_at in Houtput. case_match; [|done].
    destruct (t_outputs task !! N.to_nat index) eqn:Hl; simplify_eq/=. by eapply list_elem_of_lookup_2.
  - case_decide; [apply settles_bind; [apply check_scope_settles|]; intros; apply file_group_settles; done|].
    case_decide; [|by apply settles_const]. apply settles_bind; [apply check_scope_settles|]. intros. apply settles_ok.
Qed.

(** *** Tasks without references to references *)

Record references_plain (task : Task) : Prop := {
  rp_variables : plain_variables task;
  rp_inputs : ∀ func, InTokenFunc func ∈ t_inputs task → plain_reference func;
  rp_outputs : ∀ func, OutTokenFunc func ∈ t_outputs task → plain_reference func;
}.

Lemma plain_function_settles task scope value :
  plain_variables task → plain_reference value → settles (λ fuel, replace_function fuel scope task value).
Proof. intros Hplain Hvalue. apply replace_function_body; [done|]. intros func arg Hf. by destruct (Hvalue _ _ Hf). Qed.

Lemma replace_function_settles task scope value :
  references_plain task → settles (λ fuel, replace_function fuel scope task value).
Proof.
  intros []. apply replace_function_body; [done|]. intros func arg _. split; intros _ inner Hinner;
    by apply plain_function_settles; [|eauto].
Qed.
End Returns.

(** *** What expanding leaves alone *)

(** What the tokens of a task depend on. *)
Record kept (a b : Task) : Prop := {
  kept_target : t_target b = t_target a;
  kept_id : t_id b = t_id a;
  kept_toolchains : t_toolchains b = t_toolchains a;
  kept_type : t_type_of b = t_type_of a;
  kept_inputs : t_inputs b = t_inputs a;
  kept_outputs : t_outputs b = t_outputs a;
  kept_checks : t_checks b = t_checks a;
  kept_infer : o_infer_inputs (t_options b) = o_infer_inputs (t_options a);
  kept_root : o_run_from_workspace_root (t_options b) = o_run_from_workspace_root (t_options a);
}.

#[global] Instance kept_preorder : PreOrder kept.
Proof. split; [by intros a|]. intros a b c [] []. split; congruence. Qed.

Lemma kept_token_values a b : kept a b → token_values b = token_values a.
Proof. intros []. unfold TokenExpander.token_values. congruence. Qed.

Lemma kept_plain a b : kept a b → references_plain a → references_plain b.
Proof.
  intros Hk []. split.
  - unfold plain_variables. by rewrite (kept_token_values a b).
  - rewrite (kept_inputs a b) by done. done.
  - rewrite (kept_outputs a b) by done. done.
Qed.

(** Only what a task is inferred to read is added. *)
Definition inferred (a b : Task) : Prop :=
  ∃ env files globs, b = set_input_env (set_inputs a files globs) env ∧
    (∀ file, is_Some (t_input_files a !! file) → is_Some (files !! file)) ∧ t_input_globs a ⊆ globs ∧ t_input_env a ⊆ env.

#[global] Instance inferred_preorder : PreOrder inferred.
Proof using Type.
  split.
  - intros a. exists (t_input_env a), (t_input_files a), (t_input_globs a). by destruct a.
  - intros a b c (e & f & g & -> & ? & ? & ?) (e' & f' & g' & -> & ? & ? & ?). exists e', f', g'.
    split_and!; [done|intros file Hfile; auto|by transitivity g|by transitivity e].
Qed.

Lemma inferred_inv a b : inferred a b → ∃ env files globs, b = set_input_env (set_inputs a files globs) env.
Proof. intros (env & files & globs & -> & _). eauto. Qed.

Lemma inferred_kept a b : inferred a b → kept a b.
Proof. by intros (env & files & globs & ->)%inferred_inv. Qed.

Lemma inferred_env a b : inferred a b → t_env b = t_env a.
Proof. by intros (env & files & globs & ->)%inferred_inv. Qed.

Lemma set_inputs_inferred task r :
  inferred task (set_inputs task (extend_files (t_input_files task) (er_files_for_input r) (er_files r))
    (extend_globs (extend_globs (t_input_globs task) (er_globs_for_input r)) (er_globs r))).
Proof.
  exists (t_input_env task), (extend_files (t_input_files task) (er_files_for_input r) (er_files r)),
    (extend_globs (extend_globs (t_input_globs task) (er_globs_for_input r)) (er_globs r)).
  split; [by destruct task|]. split_and!; [|intros x; rewrite !extend_globs_elem; tauto|done]. intros file. rewrite extend_files_dom. tauto.
Qed.

Lemma set_input_env_inferred task env : inferred task (set_input_env task (extend_globs (t_input_env task) env)).
Proof.
  exists (extend_globs (t_input_env task) env), (t_input_files task), (t_input_globs task). split; [by destruct task|].
  split_and!; [done|done|]. intros x. rewrite extend_globs_elem. tauto.
Qed.

Lemma infer_result_inferred task r : inferred task (infer_inputs_from_result task r).
Proof.
  unfold infer_inputs_from_result. destruct (o_infer_inputs (t_options task)); [apply set_inputs_inferred|done].
Qed.

Lemma scan_inferred fuel task value out :
  replace_variables_and_scan context process project fuel task value = Ok out → inferred task out.2.
Proof.
  unfold replace_variables_and_scan. intros (v & _ & [= <-])%obind_Ok. cbn.
  destruct (o_infer_inputs (t_options task)); [apply set_input_env_inferred|done].
Qed.

(** What a token stands for only depends on what is kept and on the environment. *)
Lemma replace_variables_same fuel a b value : kept a b → replace_variables fuel b value = replace_variables fuel a value.
Proof.
  intros Hk. revert value. induction fuel as [|fuel IH]; intros value; cbn; [done|]. rewrite IH.
  unfold TokenExpander.replace_variable. by rewrite (kept_token_values a b).
Qed.

Lemma create_path_same fuel a b path : kept a b → t_env b = t_env a → create_path_for_task fuel b path = create_path_for_task fuel a path.
Proof.
  intros Hk He. unfold TokenExpander.create_path_for_task, replace_variables_and_substitute. by rewrite (replace_variables_same fuel a b), He.
Qed.

Lemma replace_function_same fuel scope a b value :
  kept a b → t_env b = t_env a → replace_function fuel scope b value = replace_function fuel scope a value.
Proof.
  intros Hk He. revert value. induction fuel as [|fuel IH]; intros value; cbn [TokenExpander.replace_function]; [done|].
  destruct (find_token_func value) as [[func arg]|]; [|done]. cbn [index_or_panic ok_or obind].
  unfold check_scope, parse_index. rewrite (kept_target a b), (kept_inputs a b), (kept_outputs a b) by done.
  repeat case_decide; cbn [obind]; try done.
  - destruct (ok_or (parse_usize arg) _); cbn [obind]; try done. destruct (ok_or (get_at _ _) _) as [input|e|]; cbn [obind]; try done.
    destruct input; try done; by rewrite ?(create_path_same (S fuel) a b), ?IH.
  - destruct (ok_or (parse_usize arg) _); cbn [obind]; try done. destruct (ok_or (get_at _ _) _) as [output|e|]; cbn [obind]; try done.
    destruct output; try done; by rewrite ?(create_path_same (S fuel) a b), ?IH.
Qed.

(** The functions of the token expander only infer inputs. *)
Lemma token_expand_command_inferred fuel task out :
  token_expand_command context process project fuel task = Ok out → inferred task out.2.
Proof. unfold token_expand_command. by intros (command & _ & ?%scan_inferred)%obind_Ok. Qed.

Lemma expand_script_loop_inferred fuel task script out :
  expand_script_loop context process project fuel task script = Ok out → inferred task out.2.
Proof.
  revert task script. induction fuel as [|fuel IH]; intros task script; cbn [expand_script_loop]; [done|].
  destruct (has_token_function ScopeScript script); [|by intros [= <-]]. intros (r & _ & Hr)%obind_Ok.
  transitivity (infer_inputs_from_result task r); [apply infer_result_inferred|].
  destruct (er_token r); by apply IH in Hr.
Qed.

Lemma token_expand_script_inferred fuel task out :
  token_expand_script context process project fuel task = Ok out → inferred task out.2.
Proof.
  unfold token_expand_script. intros (script & _ & ([script' task'] & ?%expand_script_loop_inferred & ?%scan_inferred)%obind_Ok)%obind_Ok.
  by transitivity task'.
Qed.

Lemma expand_arg_inferred fuel s arg s' : expand_arg context process project fuel s arg = Ok s' → inferred s.2 s'.2.
Proof.
  destruct s as [args task]. cbn. destruct (has_token_function ScopeArgs arg).
  - intros (r & _ & [= <-])%obind_Ok. apply infer_result_inferred.
  - intros ([arg' task'] & ?%scan_inferred & [= <-])%obind_Ok. done.
Qed.

Lemma expand_args_inferred fuel task args out :
  expand_args_with_task context process project fuel task args = Ok out → inferred task out.2.
Proof.
  refine (ofold_ind (λ s, inferred task s.2) _ _ _ _ _ _); [|done].
  intros s arg s' _ Hs ?%expand_arg_inferred. by transitivity s.2.
Qed.

Lemma expand_env_entry_inferred fuel s entry s' :
  expand_env_entry context process project fuel s entry = Ok s' → inferred s.2 s'.2.
Proof.
  destruct s as [env task], entry as [key [value|]]; cbn; [|by intros [= <-]]. destruct (has_token_function ScopeEnv value).
  - intros (r & _ & [= <-])%obind_Ok. apply infer_result_inferred.
  - intros (v & _ & [= <-])%obind_Ok. done.
Qed.

Lemma expand_env_inferred fuel task env out :
  expand_env_with_task context process project fuel task env = Ok out → inferred task out.2.
Proof.
  refine (ofold_ind (λ s, inferred task s.2) _ _ _ _ _ _); [|done].
  intros s entry s' _ Hs ?%expand_env_entry_inferred. by transitivity s.2.
Qed.

(** The dependencies keep their targets and how they are cached. *)
Definition same_dep (a b : TaskDependencyConfig) : Prop :=
  dep_target b = dep_target a ∧ dep_cache_strategy b = dep_cache_strategy a ∧ dep_optional b = dep_optional a.

Lemma expand_dep_inferred fuel s dep s' :
  expand_dep context process project fuel s dep = Ok s' →
  inferred s.2 s'.2 ∧ ∃ dep', s'.1 = (s.1 ++ [dep'])%list ∧ same_dep dep dep'.
Proof.
  destruct s as [deps task]. cbn.
  intros ([args t1] & ?%expand_args_inferred & ([env t2] & ?%expand_env_inferred & [= <-])%obind_Ok)%obind_Ok. cbn in *.
  split; [by transitivity t1|]. by eexists.
Qed.

Lemma expand_deps_fold_inferred fuel s l s' :
  ofold (expand_dep context process project fuel) s l = Ok s' →
  inferred s.2 s'.2 ∧ ∃ deps, s'.1 = (s.1 ++ deps)%list ∧ Forall2 same_dep l deps.
Proof.
  revert s. induction l as [|dep l IH]; intros s; cbn [ofold].
  - intros [= <-]. split; [done|]. exists []. by rewrite app_nil_r.
  - intros (s1 & (Hi & dep' & Hd & Hsame)%expand_dep_inferred & (Hi' & deps & Hds & Hall)%IH)%obind_Ok. split; [by transitivity s1.2|].
    exists (dep' :: deps). rewrite Hds, Hd, <- app_assoc. split; [done|]. by constructor.
Qed.

(** *** The steps of an expansion *)

(** What a step keeps: what tokens depend on, the outputs so far, and what is inferred so far. *)
Record steps (a b : Task) : Prop := {
  st_kept : kept a b;
  st_output_files : t_output_files b = t_output_files a;
  st_output_globs : t_output_globs b = t_output_globs a;
}.

#[global] Instance steps_preorder : PreOrder steps.
Proof. split; [by intros a|]. intros a b c [] []. split; [by transitivity b|congruence..]. Qed.

Lemma inferred_steps a b : inferred a b → steps a b.
Proof. intros Hi. split; [by apply inferred_kept|by apply inferred_inv in Hi as (? & ? & ? & ->)..]. Qed.

Lemma expand_script_steps fuel task t :
  expand_script context process project fuel task = Ok t → steps task t ∧ t_env t = t_env task ∧ t_deps t = t_deps task.
Proof.
  intros ([script t'] & Hi%token_expand_script_inferred & [= <-])%obind_Ok. cbn in Hi.
  split_and!; [transitivity t'; [by apply inferred_steps|done]|by apply inferred_inv in Hi as (? & ? & ? & ->)..].
Qed.

Lemma expand_command_steps fuel task t :
  expand_command context process project fuel task = Ok t → steps task t ∧ t_env t = t_env task ∧ t_deps t = t_deps task.
Proof.
  intros ([command t'] & Hi%token_expand_command_inferred & [= <-])%obind_Ok. cbn in Hi.
  split_and!; [transitivity t'; [by apply inferred_steps|done]|by apply inferred_inv in Hi as (? & ? & ? & ->)..].
Qed.

Lemma expand_env_steps fuel task t :
  expand_env context process project fuel task = Ok t → steps task t ∧ t_deps t = t_deps task.
Proof.
  intros ([env t'] & Hi%expand_env_inferred & [= <-])%obind_Ok. cbn in Hi.
  split; [|by apply inferred_inv in Hi as (? & ? & ? & ->)].
  transitivity (set_task_env task []); [done|]. transitivity t'; [by apply inferred_steps|done].
Qed.

Lemma expand_env_files_steps fuel task t :
  expand_env_files context process project fuel task = Ok t → steps task t ∧ t_deps t = t_deps task.
Proof. unfold expand_env_files. destruct (o_env_files (t_options task)); [|by intros [= <-]]. by intros (? & _ & [= <-])%obind_Ok. Qed.

Lemma expand_deps_steps fuel task t :
  expand_deps context process project fuel task = Ok t → steps task t ∧ t_env t = t_env task ∧ Forall2 same_dep (t_deps task) (t_deps t).
Proof.
  intros ([deps t'] & (Hi & deps' & Hdeps & Hall)%expand_deps_fold_inferred & [= <-])%obind_Ok. cbn in Hi, Hdeps. subst deps.
  split_and!; [|by apply inferred_inv in Hi as (? & ? & ? & ->)|done].
  transitivity (set_deps task []); [done|]. transitivity t'; [by apply inferred_steps|done].
Qed.

Lemma expand_args_steps fuel task t :
  expand_args context process project fuel task = Ok t →
  ∃ t' args, inferred task t' ∧ t = set_line t' (t_command t') args (t_script t').
Proof. intros ([args t'] & Hi%expand_args_inferred & [= <-])%obind_Ok. eauto. Qed.

(** The inputs and outputs only depend on what is kept and on the environment. *)
Lemma replace_variable_same a b value : kept a b → replace_variable b value = replace_variable a value.
Proof. intros Hk. unfold TokenExpander.replace_variable. by rewrite (kept_token_values a b). Qed.

Lemma token_expand_outputs_same fuel a b :
  kept a b → t_env b = t_env a → token_expand_outputs context process project fuel b = token_expand_outputs context process project fuel a.
Proof.
  intros Hk He. unfold token_expand_outputs. rewrite (kept_outputs a b) by done. apply ofold_ext. intros r []; cbn [expand_output].
  - by rewrite (create_path_same fuel a b).
  - by rewrite (create_path_same fuel a b).
  - by rewrite (replace_function_same fuel ScopeOutputs a b).
  - by rewrite (replace_variable_same a b).
Qed.

Lemma token_expand_inputs_same fuel a b :
  kept a b → t_env b = t_env a →
  token_expand_inputs context process unexpanded project fuel b = token_expand_inputs context process unexpanded project fuel a.
Proof.
  intros Hk He. unfold token_expand_inputs. rewrite (kept_inputs a b) by done. apply ofold_ext. intros r []; cbn [expand_input].
  - reflexivity.
  - reflexivity.
  - by rewrite (create_path_same fuel a b).
  - reflexivity.
  - by rewrite (create_path_same fuel a b).
  - unfold expand_project_input. destruct (unexpanded _) as [other|e|]; [|reflexivity..]. cbn [obind].
    destruct (pin_group input); [reflexivity|]. destruct (pin_filter input); [by rewrite (create_path_same fuel a b)|].
    apply ofold_ext. intros. by rewrite (create_path_same fuel a b).
  - by rewrite (replace_function_same fuel ScopeInputs a b).
  - by rewrite (replace_variable_same a b).
Qed.

(** What an expansion amounts to: the task keeps what its tokens depend on and what its dependencies are, its
    outputs are those that are declared, as they are with the environment in the end, and its inputs are at least those. *)
Record expanded_to (fuel : nat) (task t : Task) : Prop := {
  ex_kept : kept task t;
  ex_deps : Forall2 same_dep (t_deps task) (t_deps t);
  ex_state : ts_expanded (t_state t) = true;
  ex_outputs : ∃ r, token_expand_outputs context process project fuel t = Ok r ∧
    (∀ file, is_Some (t_output_files t !! file) ↔
      is_Some (t_output_files task !! file) ∨ is_Some (er_files_for_output r !! file) ∨ file ∈ er_files r) ∧
    (∀ glob, glob ∈ t_output_globs t ↔ glob ∈ t_output_globs task ∨ glob ∈ er_globs_for_output r ∨ glob ∈ er_globs r);
  ex_inputs : ∃ r, token_expand_inputs context process unexpanded project fuel t = Ok r ∧
    (∀ file, is_Some (er_files_for_input r !! file) ∨ file ∈ er_files r → is_Some (t_input_files t !! file)) ∧
    (∀ glob, glob ∈ er_globs_for_input r ∨ glob ∈ er_globs r → glob ∈ t_input_globs t) ∧
    (∀ name, name ∈ er_env r → name ∈ t_input_env t);
}.

Lemma expand_inputs_spec fuel task t :
  expand_inputs context process unexpanded project fuel task = Ok t →
  ∃ r, token_expand_inputs context process unexpanded project fuel task = Ok r ∧ inferred task t ∧
    (∀ file, is_Some (er_files_for_input r !! file) ∨ file ∈ er_files r → is_Some (t_input_files t !! file)) ∧
    (∀ glob, glob ∈ er_globs_for_input r ∨ glob ∈ er_globs r → glob ∈ t_input_globs t) ∧
    (∀ name, name ∈ er_env r → name ∈ t_input_env t).
Proof.
  intros (r & Hr & [= <-])%obind_Ok. exists r. split_and!; [done| | | |].
  - transitivity (set_input_env task (extend_globs (t_input_env task) (er_env r))); [apply set_input_env_inferred|].
    exact (set_inputs_inferred (set_input_env task (extend_globs (t_input_env task) (er_env r))) r).
  - intros file. cbn. rewrite extend_files_dom. tauto.
  - intros glob. cbn. rewrite !extend_globs_elem. tauto.
  - intros name. cbn. rewrite extend_globs_elem. tauto.
Qed.

Lemma expand_outputs_spec fuel task t :
  expand_outputs context process project fuel task = Ok t →
  ∃ r, token_expand_outputs context process project fuel task = Ok r ∧
    (∃ files globs, t = set_outputs task files globs) ∧
    (∀ file, is_Some (t_output_files t !! file) ↔
      is_Some (t_output_files task !! file) ∨ is_Some (er_files_for_output r !! file) ∨ file ∈ er_files r) ∧
    (∀ glob, glob ∈ t_output_globs t ↔ glob ∈ t_output_globs task ∨ glob ∈ er_globs_for_output r ∨ glob ∈ er_globs r).
Proof.
  intros (r & Hr & [= <-])%obind_Ok. exists r. split_and!; [done|eauto| |].
  - intros file. cbn. rewrite insert_all_dom, lookup_union_is_Some. tauto.
  - intros glob. cbn. rewrite !extend_globs_elem. tauto.
Qed.

(** Up to the dependencies. *)
Lemma expand_texts_steps fuel task t :
  (let? task := match t_script task with
                | Some _ => expand_script context process project fuel task
                | None => expand_command context process project fuel task
                end in
   let? task := expand_env context process project fuel task in
   let? task := expand_env_files context process project fuel task in
   expand_deps context process project fuel task) = Ok t →
  steps task t ∧ Forall2 same_dep (t_deps task) (t_deps t).
Proof.
  intros (t0 & E0 & (t1 & [E1 D1]%expand_env_steps & (t2 & [E2 D2]%expand_env_files_steps & (E3 & _ & D3)%expand_deps_steps)%obind_Ok)%obind_Ok)%obind_Ok.
  assert (steps task t0 ∧ t_deps t0 = t_deps task) as [Hs D0].
  { destruct (t_script task); [apply expand_script_steps in E0|apply expand_command_steps in E0]; by destruct E0 as (? & _ & ?). }
  rewrite D2, D1, D0 in D3. split; [|done].
  transitivity t0; [done|]. transitivity t1; [done|]. by transitivity t2.
Qed.

Lemma expand_task_tokens_expanded fuel task t :
  expand_task_tokens context process unexpanded project fuel task = Ok t → expanded_to fuel task t.
Proof.
  intros Ht. unfold expand_task_tokens in Ht. apply obind_Ok in Ht as (t0 & E0 & Ht). apply obind_Ok in Ht as (t1 & E1 & Ht).
  apply obind_Ok in Ht as (t2 & E2 & Ht). apply obind_Ok in Ht as (t3 & E3 & Ht).
  destruct (expand_texts_steps fuel task t3) as [[Hk Hof Hog] Hd]; [rewrite E0; cbn [obind]; rewrite E1; cbn [obind]; by rewrite E2|].
  clear E0 E1 E2 E3.
  apply obind_Ok in Ht as (t4 & (ri & Hri & Hi & Hif & Hig & Hie)%expand_inputs_spec & Ht).
  apply obind_Ok in Ht as (t5 & (ro & Hro & (files & globs & ->) & Hoff & Hogg)%expand_outputs_spec & Ht).
  apply obind_Ok in Ht as (t6 & (t' & args & Hi' & ->)%expand_args_steps & [= <-]).
  pose proof (inferred_kept _ _ Hi) as Hk4. pose proof (inferred_env _ _ Hi) as He4.
  destruct Hi' as (env & fs & gs & -> & Hfs & Hgs & Henv).
  apply inferred_inv in Hi as (env4 & fs4 & gs4 & ->).
  split; [by transitivity t3|done|done| |].
  - exists ro. rewrite <- Hro. split; [by apply token_expand_outputs_same|]. rewrite <- Hof, <- Hog. done.
  - exists ri. rewrite <- Hri. split; [by apply token_expand_inputs_same|]. split_and!; [intros file Hf; by apply Hfs, Hif| |].
    + intros glob Hg. by apply Hgs, Hig.
    + intros name Hn. by apply Henv, Hie.
Qed.

(** *** When an expansion ends *)

Lemma update_result_token scope group format r r' :
  update_result_for_file_group context process project scope group format r = Ok r' → er_token r' = er_token r.
Proof.
  unfold update_result_for_file_group. repeat case_decide; try (by intros [= <-]); by intros (? & _ & [= <-])%obind_Ok.
Qed.

Lemma replace_function_token fuel scope task value r :
  replace_function fuel scope task value = Ok r →
  ∃ func arg, find_token_func value = Some (func, arg) ∧ er_token r = Some (token_text func arg).
Proof.
  destruct fuel as [|fuel]; cbn [TokenExpander.replace_function]; [done|].
  destruct (find_token_func value) as [[func arg]|]; [|done]. cbn [index_or_panic ok_or obind]. intros Hr. exists func, arg.
  split; [done|]. revert Hr. repeat case_decide; try done; intros ([] & _ & Hr)%obind_Ok.
  - by apply obind_Ok in Hr as (group & _ & ->%update_result_token).
  - apply obind_Ok in Hr as (index & _ & (input & _ & Hr)%obind_Ok). destruct input; try done;
      apply obind_Ok in Hr as (x & _ & Hr); [by simplify_eq|by apply update_result_token in Hr as ->|by simplify_eq|by simplify_eq].
  - apply obind_Ok in Hr as (index & _ & (output & _ & Hr)%obind_Ok). destruct output; try done;
      apply obind_Ok in Hr as (x & _ & Hr); by simplify_eq.
  - by apply obind_Ok in Hr as (group & _ & ->%update_result_token).
  - by simplify_eq.
Qed.

Lemma result_items_same a b r :
  kept a b → result_items context project b r = result_items context project a r.
Proof.
  intros Hk. unfold result_items.
  assert (∀ path, resolve_path_for_task context project b path = resolve_path_for_task context project a path) as Hp.
  { intros path. unfold resolve_path_for_task. by rewrite (kept_root a b). }
  by rewrite !(list_fmap_ext _ _ _ (λ _ path _, Hp path)).
Qed.

(** Nothing that a function in a script stands for looks like a part of a function. *)
Definition script_plain (task : Task) : Prop :=
  ∀ fuel value r, replace_function fuel ScopeScript task value = Ok r →
    Forall (λ item, str_contains "(" item = false) (result_items context project task r).

Section Settles.
Context `{!TokenLibReturns} (unexpanded_returns : ∀ id, unexpanded id ≠ OutOfFuel)
  (parse_returns : ∀ value, Input_parse value ≠ OutOfFuel).

Lemma expand_script_loop_settles task0 task script :
  references_plain task0 → script_plain task0 → inferred task0 task →
  settles (λ fuel, expand_script_loop context process project fuel task script).
Proof.
  intros Hplain Hscript. remember (count_char "(" script) as n eqn:Hn. revert task script Hn.
  induction (lt_wf n) as [n _ IH]. intros task script -> Hi. apply settles_pred. cbn [expand_script_loop].
  destruct (has_token_function ScopeScript script); [|apply settles_ok]. pose proof (inferred_kept _ _ Hi) as Hk.
  apply settles_bind.
  { apply (settles_S (λ fuel, replace_function fuel ScopeScript task script)), replace_function_settles. by apply (kept_plain task0). }
  intros r fuel Hr. destruct (replace_function_token _ _ _ _ _ Hr) as (func & arg & Hfind & ->).
  assert (inferred task0 (infer_inputs_from_result task r)) as Hi' by (etransitivity; [done|apply infer_result_inferred]).
  rewrite (replace_function_same _ _ task0 task _ Hk (inferred_env _ _ Hi)) in Hr.
  apply find_token_func_Some in Hfind as (a & b & ->). eapply IH; [|done|done].
  apply str_replace_count.
  - apply str_join_count; [done|]. rewrite (result_items_same task0) by by apply inferred_kept.
    eapply Forall_impl; [by eapply Hscript|]. intros item. apply count_char_none.
  - unfold token_text. rewrite !count_char_append. change (count_char "(" "(") with 1. lia.
Qed.

Ltac settle :=
  repeat first
    [ apply settles_ok
    | match goal with |- settles (λ _, Err _) => by apply settles_const end
    | by apply file_group_settles
    | match goal with |- settles (λ _, obind _ _) => apply settles_bind; [|intros; simplify_eq/=] end
    | by apply replace_function_settles
    | by apply create_path_settles, rp_variables
    | by apply scan_settles, rp_variables
    | by apply substitute_settles, rp_variables ].

Lemma token_expand_command_settles task :
  references_plain task → settles (λ fuel, token_expand_command context process project fuel task).
Proof.
  intros Hplain. unfold token_expand_command. destruct (has_token_function _ _); settle.
  destruct (er_token a), (er_value a); settle.
Qed.

Lemma token_expand_script_settles task :
  references_plain task → script_plain task → settles (λ fuel, token_expand_script context process project fuel task).
Proof.
  intros Hplain Hscript. unfold token_expand_script. destruct (t_script task) as [script|]; cbn [index_or_panic ok_or obind];
    [|by apply settles_const]. apply settles_bind; [by eapply expand_script_loop_settles|].
  intros [script' t] fuel Hi%expand_script_loop_inferred. cbn in Hi |- *. apply scan_settles, rp_variables.
  eapply kept_plain; [by apply inferred_kept|done].
Qed.

Lemma expand_args_with_task_settles task args :
  references_plain task → settles (λ fuel, expand_args_with_task context process project fuel task args).
Proof.
  intros Hplain. unfold expand_args_with_task. apply (settles_fold (λ s, references_plain s.2)); [done| |].
  - intros [out t] arg _ Hs. cbn in Hs |- *. destruct (has_token_function ScopeArgs arg); settle. destruct a. settle.
  - intros fuel s arg s' _ Hs Hi%expand_arg_inferred. eapply kept_plain; [by apply inferred_kept|done].
Qed.

Lemma expand_env_with_task_settles task env :
  references_plain task → settles (λ fuel, expand_env_with_task context process project fuel task env).
Proof.
  intros Hplain. unfold expand_env_with_task. apply (settles_fold (λ s, references_plain s.2)); [done| |].
  - intros [out t] [key [value|]] _ Hs; cbn in Hs |- *; [|settle]. destruct (has_token_function ScopeEnv value); settle.
  - intros fuel s entry s' _ Hs Hi%expand_env_entry_inferred. eapply kept_plain; [by apply inferred_kept|done].
Qed.

Lemma expand_dep_settles s dep :
  references_plain s.2 → settles (λ fuel, expand_dep context process project fuel s dep).
Proof.
  destruct s as [deps task]. cbn [snd]. intros Hplain. unfold expand_dep. cbn iota.
  apply settles_bind; [by apply expand_args_with_task_settles|].
  intros [args t] fuel Hi%expand_args_inferred. cbn in Hi. apply settles_bind.
  - apply expand_env_with_task_settles. eapply kept_plain; [by apply inferred_kept|done].
  - intros [env t'] _ _. apply settles_ok.
Qed.

Lemma expand_deps_settles task :
  references_plain task → settles (λ fuel, expand_deps context process project fuel task).
Proof.
  intros Hplain. unfold expand_deps. apply settles_bind; [|intros [deps t] _ _; apply settles_ok].
  apply (settles_fold (λ s, references_plain s.2)).
  - by apply (kept_plain task).
  - intros s dep _ Hs. by apply expand_dep_settles.
  - intros fuel s dep s' _ Hs [Hi _]%expand_dep_inferred. eapply kept_plain; [by apply inferred_kept|done].
Qed.

Lemma expand_env_files_settles task :
  references_plain task → settles (λ fuel, expand_env_files context process project fuel task).
Proof.
  intros Hplain. unfold expand_env_files. destruct (o_env_files (t_options task)) as [files|]; [|apply settles_ok].
  apply settles_bind; [|intros; apply settles_ok]. apply settles_map. intros [] _; cbn; settle. by apply settles_const.
Qed.

Lemma expand_project_input_settles task r input :
  references_plain task → settles (λ fuel, expand_project_input context process unexpanded project fuel task r input).
Proof.
  intros Hplain. unfold expand_project_input. apply settles_bind; [by apply settles_const|]. intros other _ _.
  destruct (pin_group input); [by apply file_group_settles|]. destruct (pin_filter input) as [|glob globs]; [settle|].
  apply (settles_fold (λ _, True)); [done| |done]. intros r' x _ _. settle.
Qed.

Lemma expand_inputs_settles task :
  references_plain task → settles (λ fuel, expand_inputs context process unexpanded project fuel task).
Proof.
  intros Hplain. unfold expand_inputs, token_expand_inputs. apply settles_bind; [|intros; apply settles_ok].
  apply (settles_fold (λ _, True)); [done| |done]. intros r input _ _.
  destruct input; cbn; settle. by apply expand_project_input_settles.
Qed.

Lemma expand_outputs_settles task :
  references_plain task → settles (λ fuel, expand_outputs context process project fuel task).
Proof.
  intros Hplain. unfold expand_outputs, token_expand_outputs. apply settles_bind; [|intros; apply settles_ok].
  apply (settles_fold (λ _, True)); [done| |done]. intros r output _ _. destruct output; cbn; settle.
Qed.

(** Nothing that a token of the task stands for has tokens again. *)
Record tokens_plain (task : Task) : Prop := {
  tpl_references : references_plain task;
  tpl_script : is_Some (t_script task) → script_plain task;
}.

Lemma expand_line_settles task :
  tokens_plain task →
  settles (λ fuel, match t_script task with
                   | Some _ => expand_script context process project fuel task
                   | None => expand_command context process project fuel task
                   end).
Proof.
  intros [Hplain Hscript]. destruct (t_script task) as [script|].
  - unfold expand_script. apply settles_bind; [apply token_expand_script_settles; by eauto|]. intros [] _ _. apply settles_ok.
  - unfold expand_command. apply settles_bind; [by apply token_expand_command_settles|]. intros [] _ _. apply settles_ok.
Qed.

(** Expanding the tokens of such a task ends. *)
Lemma expand_task_tokens_settles task :
  tokens_plain task → settles (λ fuel, expand_task_tokens context process unexpanded project fuel task).
Proof.
  intros Hplain. unfold expand_task_tokens. apply settles_bind; [by apply expand_line_settles|].
  intros t0 f0 E0. assert (steps task t0) as [K0 _ _].
  { destruct (t_script task); [by apply expand_script_steps in E0 as [? _]|by apply expand_command_steps in E0 as [? _]]. }
  pose proof (kept_plain _ _ K0 (tpl_references _ Hplain)) as P0. clear Hplain E0 K0.
  apply settles_bind.
  { unfold expand_env. apply settles_bind; [|intros [] _ _; apply settles_ok]. apply expand_env_with_task_settles.
    by apply (kept_plain t0). }
  intros t1 f1 [[K1 _ _] _]%expand_env_steps. pose proof (kept_plain _ _ K1 P0) as P1.
  apply settles_bind; [by apply expand_env_files_settles|].
  intros t2 f2 [[K2 _ _] _]%expand_env_files_steps. pose proof (kept_plain _ _ K2 P1) as P2.
  apply settles_bind; [by apply expand_deps_settles|].
  intros t3 f3 ([K3 _ _] & _)%expand_deps_steps. pose proof (kept_plain _ _ K3 P2) as P3.
  apply settles_bind; [by apply expand_inputs_settles|].
  intros t4 f4 (r & _ & K4%inferred_kept & _)%expand_inputs_spec. pose proof (kept_plain _ _ K4 P3) as P4.
  apply settles_bind; [by apply expand_outputs_settles|].
  intros t5 f5 (r' & _ & (files & globs & ->) & _)%expand_outputs_spec.
  apply settles_bind; [|intros; apply settles_ok]. unfold expand_args. apply settles_bind; [|intros [] _ _; apply settles_ok].
  apply expand_args_with_task_settles. by apply (kept_plain t4).
Qed.
End Settles.
End Facts.
