(* ===== verification/TokenTheorems.v ===== *)
(** * What expanding a task promises

The token expander as the host of the task graph: when expanding the tasks of a workspace ends, what an expanded task
has, and the tokens that are followed forever. *)

From S2P Require Import Prelude Errors FileSystem PooledTasks Target GraphUtils Shapes Config EnvVar Constraints Query Dag.
From S2P Require Import DiGraph NodeMaps ProjectGraph TaskGraph TaskGraphFacts ProjectBuilder WorkspaceData.
From S2P Require Import WorkspaceGraph WorkspaceGraphFacts WorkspaceNodes WorkspaceAsync WorkspaceBuilds WorkspaceAsyncFacts.
From S2P Require Import WorkspaceLoad WorkspaceResult Manifest TokenExpander TokenFacts.

(** ** The hypotheses of the facts *)

Section Parsing.
Context `{IdSyntax, ConfigSyntax}.

Lemma Input_of_uri_returns uri : Input_of_uri uri ≠ OutOfFuel.
Proof.
  assert (∀ value, Id_parse value ≠ OutOfFuel) as Hid by (intros; unfold Id_parse; by destruct (id_new _)).
  assert (∀ key value, parse_bool_field key value ≠ OutOfFuel) as Hb by (intros; unfold parse_bool_field; by repeat case_decide).
  assert (FileInput_from_uri uri ≠ OutOfFuel) as H1.
  { unfold FileInput_from_uri, FilePath_parse, validate_child_relative_path. destruct (str_contains_str ".." _); [done|].
    cbn [obind]. destruct (is_glob_like _); [done|]. cbn [obind]. apply ofold_returns. intros i [key value]. cbn.
    repeat case_decide; try done; [by destruct (regex_new _)|].
    pose proof (Hb key value). by destruct (parse_bool_field key value). }
  assert (GlobInput_from_uri uri ≠ OutOfFuel) as H2.
  { unfold GlobInput_from_uri, GlobPath_parse, validate_child_relative_path. destruct (str_contains_str ".." _); [done|].
    cbn [obind]. apply ofold_returns. intros i [key value]. cbn. case_decide; [|done].
    pose proof (Hb key value). by destruct (parse_bool_field key value). }
  assert (FileGroupInput_from_uri uri ≠ OutOfFuel) as H3.
  { unfold FileGroupInput_from_uri. case_decide; [done|]. pose proof (Hid (uri_path uri)).
    destruct (Id_parse (uri_path uri)); [|done..]. cbn [obind]. apply ofold_returns. intros i [key value]. cbn.
    case_decide; [|done]. unfold FileGroupInputFormat_from_str. by repeat case_decide. }
  assert (ProjectInput_from_uri uri ≠ OutOfFuel) as H4.
  { unfold ProjectInput_from_uri. case_decide; [done|]. pose proof (Hid (uri_path uri)).
    enough (∀ p, ofold project_input_field (mkProjectInput p [] None) (uri_query uri) ≠ OutOfFuel) as Hp.
    { destruct (starts_with "^" _); cbn [obind]; [apply Hp|]. destruct (Id_parse (uri_path uri)); [apply Hp|done..]. }
    intros p. apply ofold_returns. intros i [key value]. cbn. repeat case_decide; try done. pose proof (Hid value).
    by destruct (Id_parse value). }
  unfold Input_of_uri. repeat case_decide; try done.
  - by destruct (FileInput_from_uri uri).
  - by destruct (GlobInput_from_uri uri).
  - by destruct (FileGroupInput_from_uri uri).
  - by destruct (ProjectInput_from_uri uri).
Qed.

Lemma Input_parse_returns value : Input_parse value ≠ OutOfFuel.
Proof.
  assert ((let? uri := create_uri value in Input_of_uri uri) ≠ OutOfFuel) as Hu.
  { unfold create_uri, Uri_parse. destruct (split_once_str _ _) as [[scheme suffix]|]; [|done].
    destruct (rfind_char _ _); [case_decide|]; cbn [obind]; apply Input_of_uri_returns. }
  unfold Input_parse. destruct (_ && _); [done|]. destruct (strip_prefix "$" value); [|done].
  destruct (ENV_VAR_DISTINCT value); [done|]. destruct (ENV_VAR_GLOB_DISTINCT value); [done|].
  by destruct (TOKEN_VAR_DISTINCT value).
Qed.
End Parsing.

(** ** Expanding the tasks of a workspace *)

Section Workspace.
Context {GB : DiGraphOps (NodeState Project) DependencyScope} {LGB : DiGraphLaws GB}
  {TB : DagOps (NodeState Task) TaskDependencyType} {LTB : DagLaws TB} {UB : DagUpdate TB}
  {LUB : DagUpdateLaws UB LTB}
  {G : DiGraphOps nat DependencyScope} {LG : DiGraphLaws G}
  {D : DagOps nat DependencyScope} {LD : DagLaws D}
  {T : DagOps nat TaskDependencyType} {LT : DagLaws T}
  {M : DiGraphMap GB G} {LM : DiGraphMapLaws M LGB LG}
  {MT : DagMap TB T} {LMT : DagMapLaws MT LTB LT} {U : DagUpdate T} {LU : DagUpdateLaws U LT}
  {GT : DiGraphOps nat TaskDependencyType} {C : DagGraph T GT} {LGT : DiGraphLaws GT}
  {LC : DagGraphLaws C LT LGT}
  `{HP : ProjectHost, HW : WorkspaceHost, HI : IdSyntax, HR : RelativePathLib, HL : TokenLib}.
Context (context : GraphExpanderContext) (process : TokenProcess).

#[local] Notation host g := (token_host context process (tg_project_graph g)).

Lemma unexpanded_returns (g : ProjectGraph G D) id : get_unexpanded g id ≠ OutOfFuel.
Proof. unfold get_unexpanded. by destruct (pg_nodes g !! resolve_id g id). Qed.

(** Expanding adds no dependencies. *)
Lemma token_host_keeps (g : TaskGraph G D T) fuel : @tokens_keep_deps (host g fuel).
Proof.
  intros p t t' d Ht Hd. destruct (expand_task_tokens_expanded _ _ _ _ _ _ _ Ht) as [_ Hdeps _ _ _].
  apply list_elem_of_lookup_1 in Hd as [i Hi]. destruct (Forall2_lookup_r _ _ _ _ _ Hdeps Hi) as (d0 & Hd0 & Hsame & _).
  exists d0. split; [by eapply list_elem_of_lookup_2|done].
Qed.

(** Nothing that a token of a task of the graph stands for has tokens again. *)
Definition graph_tokens_plain (g : TaskGraph G D T) : Prop :=
  ∀ target project_id project task,
    get_project_id target = Ok project_id → get_unexpanded (tg_project_graph g) project_id = Ok project →
    task_get_unexpanded g target = Ok task → tokens_plain context process project task.

Lemma tokens_end_fuel `{!TokenLibReturns} (g : TaskGraph G D T) (targets : list Target) :
  graph_tokens_plain g →
  ∃ n, ∀ fuel, n ≤ fuel → ∀ target project_id project task, target ∈ targets →
    get_project_id target = Ok project_id → get_unexpanded (tg_project_graph g) project_id = Ok project →
    task_get_unexpanded g target = Ok task → @expand_tokens (host g fuel) project task ≠ OutOfFuel.
Proof.
  intros Hplain. induction targets as [|target targets (n & IH)]; [exists 0; intros; set_solver|].
  destruct (get_project_id target) as [pid|e|] eqn:H1.
  2,3: exists n; intros fuel Hf t pid p task [->|Ht]%elem_of_cons; [congruence|by apply IH].
  destruct (get_unexpanded (tg_project_graph g) pid) as [project|e|] eqn:H2.
  2,3: exists n; intros fuel Hf t pid' p task [->|Ht]%elem_of_cons; [congruence|by apply IH].
  destruct (task_get_unexpanded g target) as [task|e|] eqn:H3.
  2,3: exists n; intros fuel Hf t pid' p task [->|Ht]%elem_of_cons; [congruence|by apply IH].
  destruct (expand_task_tokens_settles context process (get_unexpanded (tg_project_graph g)) project
    (unexpanded_returns _) Input_parse_returns task (Hplain _ _ _ _ H1 H2 H3)) as (n' & r & Hr & Hs).
  exists (n `max` n'). intros fuel Hf t pid' p task' [->|Ht]%elem_of_cons; [|apply IH; [lia|done]].
  intros E1 E2 E3. rewrite H1 in E1. injection E1 as <-. rewrite H2 in E2. injection E2 as <-. rewrite H3 in E3.
  injection E3 as <-. cbn. rewrite Hs by lia. done.
Qed.

Lemma tokens_end_graph `{!TokenLibReturns} (g : TaskGraph G D T) :
  graph_tokens_plain g → ∃ n, ∀ fuel, n ≤ fuel → @tokens_end _ _ _ (host g fuel) g.
Proof.
  intros Hplain. destruct (tokens_end_fuel g (map_to_list (tg_nodes g)).*1 Hplain) as (n & Hn). exists n.
  intros fuel Hf target pid p task H1 H2 H3. apply (Hn fuel Hf target pid p task); try done.
  unfold task_get_unexpanded in H3. destruct (tg_nodes g !! target) as [node|] eqn:Hnode.
  - apply list_elem_of_fmap. exists (target, node). split; [done|]. by apply elem_of_map_to_list.
  - by destruct (get_task_id target), (get_project_id target).
Qed.

Context (concurrency : nat) (sched : nat → nat)
  (arrive : list (Id * WorkspaceRelativePath) → list (Id * WorkspaceRelativePath))
  (ctx : WorkspaceBuilderContext).

(** C28: every task of a workspace can be expanded.  In a graph of the asynchronous builder, in which no token
    stands for something that has tokens again, there is a depth of recursion and a number of rounds that is enough for the
    loops over tokens, and for every larger one [TaskGraph::get] returns, for every target and in every state its cells can be
    in, what expanding without cells gives, and never waits for a cell that it is initialising itself. *)
Theorem workspace_tasks_expand `{!TokenLibReturns} ids (b : WorkspaceBuilderAsync GB TB) (g : WorkspaceGraph G D T) :
  load_graphs_of concurrency sched arrive ctx WorkspaceBuilderAsync_new ids = Ok b →
  wba_build ctx b = Ok g → graph_tokens_plain (wg_tasks g) →
  ∃ n, ∀ fuel, n ≤ fuel → ∀ target,
    returns (@task_caches_ok _ _ _ _ _ (host (wg_tasks g) fuel) (wg_tasks g))
      (@TaskGraph_get _ _ _ (host (wg_tasks g) fuel) (wg_fuel g) (wg_tasks g) target)
      (@expanded_task _ _ _ (host (wg_tasks g) fuel) (wg_tasks g) target) ∧
    @expanded_task _ _ _ (host (wg_tasks g) fuel) (wg_tasks g) target ≠ OutOfFuel.
Proof.
  intros Hload Hg Hplain. destruct (load_graphs_Ok _ _ _ _ _ _ Hload) as (ps & ts & Hl & _).
  pose proof Hg as Hg'. unfold wba_build in Hg'.
  destruct (enforce_constraints _ _) as [[]| |] eqn:Hc; [|done..].
  destruct read_vcs as [[]| |] eqn:Hv; [|done..]. clear Hg'.
  destruct (wba_build_Ok (D := D) ctx _ _ _ _ Hl Hc Hv) as (g' & Hg' & Hb).
  assert (g' = g) as -> by congruence. pose proof (wb_tasks_ok _ _ _ _ Hb) as Hok.
  destruct (tokens_end_graph (wg_tasks g) Hplain) as (n & Hn). exists n. intros fuel Hf target.
  pose proof (workspace_lookups (HT := host (wg_tasks g) fuel) _ _ _ _ Hb (token_host_keeps _ _)) as Hlink.
  split; [by apply task_get_returns|]. apply expanded_task_total; [done|done|by apply Hn].
Qed.
End Workspace.

(** ** What an expanded task has *)

Section Expanded.
Context `{IdSyntax, ConfigSyntax, RelativePathLib, TokenLib} {G : DiGraphOps nat DependencyScope} {D : DagOps nat DependencyScope}.
Context (context : GraphExpanderContext) (process : TokenProcess) (graph : ProjectGraph G D) (fuel : nat) {S : Type}.

#[local] Instance expander_host : TaskHost := token_host context process graph fuel.

Lemma inject_dep_inferred (get_task : Target → stateful S Task) task dep s t s' :
  inject_dep get_task task dep s = (Ok t, s') → inferred task t.
Proof.
  unfold inject_dep. destruct (has_cached_outputs dep); [|unfold mret, stateful_ret; by intros [= <- _]].
  unfold mbind, stateful_bind. destruct (get_task (dep_target dep) s) as [[dep_task|e|] s1]; [|done..].
  case_decide; [unfold mret, stateful_ret; by intros [= <- _]|]. unfold mret, stateful_ret. intros [= <- _].
  exists (t_input_env task), (t_input_files task ∪ ((λ optional, mkTaskFileInput None (Some optional)) <$> t_output_files dep_task)),
    (extend_globs (t_input_globs task) (t_output_globs dep_task)).
  split; [by destruct task|]. split_and!; [intros file Hf; rewrite lookup_union_is_Some; by left| |done].
  intros glob Hg. rewrite extend_globs_elem. by left.
Qed.

Lemma inject_deps_inferred (get_task : Target → stateful S Task) deps task s t s' :
  inject_deps get_task task deps s = (Ok t, s') → inferred task t.
Proof.
  revert task s. induction deps as [|dep deps IH]; intros task s; cbn [inject_deps]; [unfold mret, stateful_ret; by intros [= <- _]|].
  unfold mbind, stateful_bind. destruct (inject_dep get_task task dep s) as [[t1|e|] s1] eqn:Hd; [|done..].
  intros Ht. transitivity t1; [by eapply inject_dep_inferred|by eapply IH].
Qed.

Lemma move_input_dir_mono task files globs x : x ∈ globs → x ∈ fold_left (move_input_dir task) files globs.
Proof.
  revert globs. induction files as [|f files IH]; intros globs Hx; cbn; [done|]. apply IH. unfold move_input_dir, add_glob.
  repeat case_decide; try done; destruct (path_is_dir f); set_solver.
Qed.

Lemma move_input_dirs_mono task glob : glob ∈ t_input_globs task → glob ∈ t_input_globs (move_input_dirs_to_globs task).
Proof. apply move_input_dir_mono. Qed.

(** Directories become globs. *)
Lemma move_input_dirs_globs task file :
  is_Some (t_input_files task !! file) → t_output_files task !! file = None → path_is_dir file = true →
  path_join file "**/*" ∈ t_input_globs (move_input_dirs_to_globs task).
Proof.
  intros Hin Hout Hdir. cbn [move_input_dirs_to_globs set_inputs t_input_globs].
  assert (file ∈ (map_to_list (t_input_files task)).*1) as Hl.
  { destruct Hin as [input Hin]. apply list_elem_of_fmap. exists (file, input). split; [done|]. by apply elem_of_map_to_list. }
  revert Hl. generalize (t_input_globs task) as globs. generalize (map_to_list (t_input_files task)).*1 as files.
  induction files as [|f files IH]; intros globs Hl; [set_solver|]. cbn.
  apply elem_of_cons in Hl as [<-|Hl]; [|by apply IH]. apply move_input_dir_mono. unfold move_input_dir. rewrite decide_False by (rewrite Hout; by intros []).
  rewrite Hdir. unfold add_glob. case_decide; set_solver.
Qed.

(** The steps after the tokens: no input that was there is lost, but for outputs and directories. *)
Lemma cleaned_inputs task file :
  let t := remove_input_output_overlaps (move_input_dirs_to_globs task) in
  is_Some (t_input_files task !! file) →
  is_Some (t_input_files t !! file) ∨ is_Some (t_output_files t !! file) ∨
  path_is_dir file = true ∧ (path_join file "**/*" ∈ t_input_globs t ∨ path_join file "**/*" ∈ t_output_globs t).
Proof.
  intros t Hin. destruct (t_output_files task !! file) as [o|] eqn:Hout; [right; left; by exists o|].
  destruct (path_is_dir file) eqn:Hdir.
  - right; right. split; [done|]. pose proof (move_input_dirs_globs task file Hin Hout Hdir) as Hglob.
    destruct (decide (path_join file "**/*" ∈ t_output_globs task)) as [Ho|Ho]; [by right|left].
    apply list_elem_of_filter. by split.
  - left. destruct Hin as [input Hin]. exists input. apply map_lookup_filter_Some. split; [|done].
    apply map_lookup_filter_Some. split; [done|]. unfold is_moved. rewrite Hout, Hdir. by rewrite bool_decide_eq_false_2 by (intros [? [=]]).
Qed.

Lemma cleaned_globs task glob :
  let t := remove_input_output_overlaps (move_input_dirs_to_globs task) in
  glob ∈ t_input_globs task → glob ∈ t_input_globs t ∨ glob ∈ t_output_globs t.
Proof.
  intros t Hin. destruct (decide (glob ∈ t_output_globs task)) as [Ho|Ho]; [by right|left]. apply list_elem_of_filter.
  split; [done|]. by apply move_input_dirs_mono.
Qed.

End Expanded.

(** ** A decidable condition *)

Section Check.
Context `{ProjectHost, IdSyntax, RelativePathLib, TokenLib}.
Context (context : GraphExpanderContext) (process : TokenProcess).

Definition plain_reference_b (value : string) : bool :=
  match find_token_func value with
  | Some (func, _) => negb (bool_decide (func = "in"%string ∨ func = "out"%string))
  | None => true
  end.

Definition tokens_plain_b (project : Project) (task : Task) : bool :=
  forallb (λ entry, negb (str_contains "$" entry.2)) (token_values context process project task) &&
  forallb (λ input, match input with InTokenFunc func => plain_reference_b func | _ => true end) (t_inputs task) &&
  forallb (λ output, match output with OutTokenFunc func => plain_reference_b func | _ => true end) (t_outputs task) &&
  bool_decide (t_script task = None).

Lemma plain_reference_b_ok value : plain_reference_b value = true → plain_reference value.
Proof.
  unfold plain_reference_b. intros Hb func arg Hf. rewrite Hf in Hb. apply negb_true_iff, bool_decide_eq_false in Hb. tauto.
Qed.

Lemma tokens_plain_b_ok project task : tokens_plain_b project task = true → tokens_plain context process project task.
Proof.
  intros [[[Hv Hi]%andb_true_iff Ho]%andb_true_iff Hs%bool_decide_eq_true]%andb_true_iff. rewrite forallb_forall in Hv, Hi, Ho.
  split; [split|rewrite Hs; by intros []].
  - intros name v Hnv%list_elem_of_In. by apply negb_true_iff, (Hv (name, v)).
  - intros func Hf%list_elem_of_In. by apply plain_reference_b_ok, (Hi (InTokenFunc func)).
  - intros func Hf%list_elem_of_In. by apply plain_reference_b_ok, (Ho (OutTokenFunc func)).
Qed.

Definition graph_plain_b {G : DiGraphOps nat DependencyScope} {D : DagOps nat DependencyScope}
    {T : DagOps nat TaskDependencyType} (g : TaskGraph G D T) : bool :=
  forallb (λ '(target, node),
    match (let? id := get_project_id target in get_unexpanded (tg_project_graph g) id) with
    | Ok project => tokens_plain_b project (tn_task node)
    | _ => true
    end) (map_to_list (tg_nodes g)).

Lemma graph_plain_b_ok {G : DiGraphOps nat DependencyScope} {D : DagOps nat DependencyScope}
    {T : DagOps nat TaskDependencyType} (g : TaskGraph G D T) :
  graph_plain_b g = true → graph_tokens_plain context process g.
Proof.
  unfold graph_plain_b. rewrite forallb_forall. intros Hb target pid p task E1 E2 E3.
  unfold task_get_unexpanded in E3. destruct (tg_nodes g !! target) as [node|] eqn:Hn.
  - injection E3 as <-. specialize (Hb (target, node)). cbn iota beta in Hb. rewrite E1 in Hb. cbn [obind] in Hb. rewrite E2 in Hb.
    apply tokens_plain_b_ok, Hb, list_elem_of_In. by apply elem_of_map_to_list.
  - by destruct (get_task_id target), (get_project_id target).
Qed.
End Check.

(** ** The example workspace *)

From S2P Require Import WorkspaceExamples CacheExamples.

Definition after_prefix (path prefix : string) : option string :=
  if decide (prefix = "."%string) then Some path else strip_prefix (String.append prefix "/") path.

#[export] Instance example_token_lib : TokenLib := {|
  rel_strip_prefix := after_prefix;
  common_path_all paths := head paths;
  diff_paths path base := path_strip_prefix base path;
  glob_walk _ _ _ := Ok [];
  language_to_string _ := "unknown"%string;
  layer_to_string _ := "unknown"%string;
  stack_to_string _ := "unknown"%string;
  task_type_to_string _ := "test"%string;
|}.

#[export] Instance example_token_lib_returns : TokenLibReturns.
Proof. by split. Qed.

Definition example_context : GraphExpanderContext :=
  mkExpanderContext "main" "moonrepo/moon" "abcdef" ["/"; "workspace"]%string ["/"; "workspace"]%string.

Definition example_process (fs : FileSystem) : TokenProcess :=
  mkTokenProcess "x86_64" "linux" "unix" "2026-01-01" "2026-01-01_10:00:00" "10:00:00" 1767261600000
    (GlobalEnvBag_instance {["HOME"%string := "/root"%string]}) None None fs.

Section Example.
#[local] Existing Instances ascii_ids example_relative_path.
#[local] Instance tokens_project_host : ProjectHost := ex_project_host ws_linked.
#[local] Instance tokens_workspace_host : WorkspaceHost := ex_workspace_host ws_linked.

Definition example_graph : result (WorkspaceGraph list_graph_ops list_dag_ops list_dag_ops) :=
  let? b := ex_async ws_linked in wba_build (ex_ctx ws_linked) b.

Lemma workspace_tasks_expand_witness :
  ∃ b (g : WorkspaceGraph list_graph_ops list_dag_ops list_dag_ops),
    ex_async ws_linked = Ok b ∧ wba_build (ex_ctx ws_linked) b = Ok g ∧
    ∃ fuel, ∀ target, @expanded_task _ _ _
      (token_host example_context (example_process ∅) (tg_project_graph (wg_tasks g)) fuel) (wg_tasks g) target ≠ OutOfFuel.
Proof.
  assert (match example_graph with
          | Ok g => graph_plain_b example_context (example_process ∅) (wg_tasks g)
          | _ => false
          end = true) as Hcheck by (vm_compute; reflexivity).
  unfold example_graph in Hcheck. destruct (ex_async ws_linked) as [b| |] eqn:Hb; [|discriminate Hcheck..].
  cbn [obind] in Hcheck. destruct (wba_build (ex_ctx ws_linked) b) as [g| |] eqn:Hg; [|discriminate Hcheck..].
  exists b, g. split; [reflexivity|]. split; [exact Hg|].
  destruct (workspace_tasks_expand example_context (example_process ∅) 2 (λ _, 0) (λ l, l) (ex_ctx ws_linked) None b g Hb Hg
    (graph_plain_b_ok _ _ _ Hcheck)) as (n & Hn).
  exists n. intros target. exact (proj2 (Hn n (le_n n) target)).
Defined.
End Example.

(** ** An example *)

Section ExampleTask.
#[local] Existing Instances ascii_ids example_relative_path.
#[local] Open Scope string_scope.

Definition empty_graph : ProjectGraph list_graph_ops list_dag_ops := mkProjectGraph _ _ [] [] ∅ None dg_new dag_new dag_new ∅ ∅.

(** A project with a title and a file group. *)
Definition titled (title : string) : ProjectConfig :=
  mkProjectConfig [] [] ∅ None UnknownLanguage UnknownLayer (Some (mkProjectMetadata (Some title) None None [] None ∅)) UnknownStack []
    ∅ None None ∅ ProjectWorkspaceConfig_default.

Definition token_project (title : string) : Project :=
  mkProject [] (titled title) [] [("sources", mkFileGroup ["CI"] ["app/a.txt"] ["app/src/*"] "sources")] "app" UnknownLanguage
    UnknownLayer "/workspace/app" "app" UnknownStack [] [] [].

Definition token_task (inputs : list Input) (args : list string) : Task :=
  mkTask (TaskArg_new "make") (TaskArg_new <$> args) [] [] None [("OUT", Some "$projectSource/out")] "build" inputs [] ∅ []
    TaskOptions_default [OutFile (mkFileOutput "$OUT" None); OutGlob (mkGlobOutput "gen/*" None)] ∅ [] None None TaskState_default
    [] (mkTarget "app:build" PId TId 3) ["system"] TypeTest.

Definition sample_inputs : list Input := [InTokenFunc "@group(sources)"; InFile (mkFileInput "$OUT" None None)].

Definition no_task (target : Target) : stateful unit Task := λ s, (Err (Foreign "no task"), s).

#[local] Notation expand_sample task :=
  (@TaskExpander_expand (expander_host example_context (example_process ∅) empty_graph 40) unit (token_project "App") no_task task tt).

Definition sample_task : Task := token_task sample_inputs ["@in(0)"; "$projectName"].

Lemma sample_expands : ∃ t, expand_sample sample_task = (Ok t, tt) ∧ (ta_value <$> t_args t) = ["a.txt"; "src/*"; "App"].
Proof.
  assert (match expand_sample sample_task with
          | (Ok t, _) => bool_decide ((ta_value <$> t_args t) = ["a.txt"; "src/*"; "App"])
          | _ => false
          end = true) as Hargs by (vm_compute; reflexivity).
  revert Hargs. generalize (expand_sample sample_task). intros [[t|e|] []] Hargs; [|discriminate Hargs..].
  exists t. split; [reflexivity|exact (bool_decide_eq_true_1 _ Hargs)].
Qed.

End ExampleTask.

(** ** Tokens that are followed forever *)

Section Cycles.
Context `{ConfigSyntax, RelativePathLib, TokenLib}.
Context (context : GraphExpanderContext) (process : TokenProcess) (project : Project).

Lemma reference_cycle_followed task fuel :
  t_inputs task !! 0 = Some (InTokenFunc "@in(0)") →
  replace_function context process project fuel ScopeArgs task "@in(0)" = OutOfFuel.
Proof.
  intros Hin. induction fuel as [|fuel IH]; [done|]. cbn [replace_function].
  change (find_token_func "@in(0)") with (Some ("in", "0")%string). cbn [index_or_panic ok_or obind].
  rewrite decide_False by (vm_compute; set_solver). rewrite decide_True by done. cbn [check_scope obind].
  unfold check_scope. rewrite decide_True by set_solver. cbn [obind].
  change (parse_index task _ "0") with (Ok (A := N) (E := Report) 0%N). cbn [obind].
  assert (get_at (t_inputs task) 0 = Some (InTokenFunc "@in(0)")) as ->.
  { unfold get_at. destruct (t_inputs task); [done|]. done. }
  cbn [ok_or obind]. by rewrite IH.
Qed.

(** An input that refers to itself, by its index, is followed forever when an argument refers to it. *)
Lemma reference_cycle_diverges task fuel :
  t_inputs task !! 0 = Some (InTokenFunc "@in(0)") →
  expand_args_with_task context process project fuel task ["@in(0)"%string] = OutOfFuel.
Proof.
  intros Hin. unfold expand_args_with_task, ofold, expand_arg.
  change (has_token_function ScopeArgs "@in(0)") with true. cbn iota. by rewrite reference_cycle_followed.
Qed.

(** A title that names its own variable is replaced by itself forever. *)
Lemma title_cycle_diverges task fuel :
  get_metadata project md_title = "$projectTitle"%string →
  replace_variables context process project fuel task "$projectTitle" = OutOfFuel.
Proof.
  intros Htitle. induction fuel as [|fuel IH]; [done|]. cbn [replace_variables].
  change (has_token_variable "$projectTitle") with true. cbn iota.
  assert (replace_variable context process project task "$projectTitle" = "$projectTitle"%string) as ->; [|done].
  unfold replace_variable. change (find_token_var "$projectTitle") with (Some ("", "projectTitle", "")%string). cbn iota.
  change (index_get (token_values context process project task) "projectTitle") with (Some (get_metadata project md_title)).
  by rewrite Htitle.
Qed.
End Cycles.
