(* ===== verification/TaskRunner.v ===== *)
(** * The task runner ([crates/task-runner], [crates/cache-item],
    [crates/cache/src/state_engine.rs])

Runs one task: skips it when a dependency failed, generates its hash, reuses the
outputs of an earlier run where there are any, and otherwise runs the checks and
the command, and archives the outputs.  The outcome of the last run is kept in a
state file, so that runs influence each other through the file system. *)

From stdpp Require Import pretty.
From S2P Require Import Prelude Errors FileSystem Target GraphUtils Shapes Config Affected ActionContext Action.
From S2P Require Import Blobs Manifest CacheStorage TasksBuilder.

#[local] Open Scope string_scope.

(** ** Cache items ([cache_mode.rs], [cache_item.rs]) *)

Inductive CacheMode : Type := CacheOff | CacheRead | CacheReadWrite | CacheWrite.

#[export] Instance CacheMode_eq_dec : EqDecision CacheMode.
Proof. solve_decision. Defined.

(** [CacheMode::from], of a value in lower case. *)
Definition CacheMode_from (value : string) : CacheMode :=
  if decide (value = "off") then CacheOff
  else if decide (value = "read") then CacheRead
  else if decide (value = "read-write") then CacheReadWrite
  else if decide (value = "write") then CacheWrite
  else CacheReadWrite.

(** [get_cache_mode], of the variable [MOON_CACHE]. *)
Definition get_cache_mode (var : option string) : CacheMode :=
  match var with Some var => CacheMode_from var | None => CacheReadWrite end.

(** [CacheMode::is_readable], [is_writable] *)
Definition mode_is_readable (mode : CacheMode) : bool :=
  match mode with CacheRead | CacheReadWrite => true | _ => false end.

Definition mode_is_writable (mode : CacheMode) : bool :=
  match mode with CacheWrite | CacheReadWrite => true | _ => false end.

(** ** Processes ([process/src/output.rs]) *)

(** [ChildExit]; a status that is no success may come without a code. *)
Inductive ChildExit : Type :=
| ExitCompleted (code : option Z)
| ExitInterrupted
| ExitKilled
| ExitTerminated.

Record ProcessOutput : Type := mkOutput {
  po_exit : ChildExit;
  po_stderr : string;
  po_stdout : string;
}.

(** [Output::code], [status], [success] *)
Definition Output_code (o : ProcessOutput) : option Z :=
  match po_exit o with ExitCompleted code => code | _ => None end.

Definition Output_success (o : ProcessOutput) : bool :=
  match po_exit o with ExitCompleted code => bool_decide (code = Some 0%Z) | _ => false end.

Definition Output_status (o : ProcessOutput) : option (bool * option Z) :=
  match po_exit o with ExitCompleted code => Some (Output_success o, code) | _ => None end.

Record OutputInfo : Type := mkOutputInfo {
  info_exit_code : option Z;
  info_signal : option nat;
  info_stderr : option string;
  info_stdout : option string;
}.

(** [Output::to_info] *)
Definition to_info (o : ProcessOutput) : OutputInfo :=
  mkOutputInfo (Output_code o)
    (match po_exit o with
     | ExitCompleted _ => None
     | ExitInterrupted => Some 2
     | ExitKilled => Some 9
     | ExitTerminated => Some 15
     end)
    (if decide (po_stderr o = "") then None else Some (str_trim (po_stderr o)))
    (if decide (po_stdout o = "") then None else Some (str_trim (po_stdout o))).

(** [Output::to_error], with a message; the text of a status without a code is
    left out. *)
Definition to_error (o : ProcessOutput) (bin : string) : ProcessError :=
  let status :=
    match po_exit o with
    | ExitCompleted (Some code) => "exit code " ++ pretty code
    | ExitCompleted None => ""
    | ExitInterrupted => "interrupted"
    | ExitKilled => "killed"
    | ExitTerminated => "terminated"
    end in
  let message :=
    if decide (str_trim (po_stderr o) = "") then str_trim (po_stdout o) else str_trim (po_stderr o) in
  ExitNonZeroWithOutput bin status (Output_code o)
    (if decide (message = "") then "" else String "010" (String "010" message)).

(** ** State ([run_state.rs], [console/src/reporter.rs]) *)

Record TaskRunCacheState : Type := mkRunCacheState {
  cs_exit_code : Z;
  cs_hash : string;
  cs_last_run_time : Z; (* milliseconds *)
  cs_target : string;
}.

Definition RunCacheState_default : TaskRunCacheState := mkRunCacheState 0 "" 0 "".

Record TaskRunState : Type := mkTaskRunState {
  st_digest : Digest;
  st_operation : Operation;
  st_target : option TargetState;
  st_local_cas_enabled : bool;
  st_local_cache_readable : bool;
  st_local_cache_writable : bool;
  st_remote_cache_readable : bool;
  st_remote_cache_writable : bool;
}.

(** [TaskReportItem], without the prefix and the style of the output. *)
Record TaskReportItem : Type := mkReportItem {
  ri_attempt_current : nat;
  ri_attempt_total : nat;
  ri_hash : option string;
  ri_output_streamed : bool;
  ri_primary : bool;
}.

Record CheckExecuteResult : Type := mkCheckResult {
  cr_attempt : Operation;
  cr_check : TaskCheck;
  cr_error : option Report;
  cr_output : option ProcessOutput;
}.

Record TaskExecuteResult : Type := mkExecuteResult {
  er_attempts : OperationList;
  er_error : option Report;
  er_run_state : TargetState;
}.

(** ** What a runner is given

The configuration of the workspace, and what is outside of the crate: the
processes, the glob walker, the archive format, the hasher of a task, and the
command builder. *)
Class RunnerHost (R : Type) : Type := {
  rh_workspace_root : Path;
  rh_states_dir : Path;
  rh_hashes_dir : Path;
  rh_outputs_dir : Path;
  rh_storage : Storage R;
  rh_cas_outputs_cache : bool;
  rh_cache_mode : CacheMode;
  rh_vcs_enabled : bool;
  rh_is_ci : bool;
  Command : Type;
  command_line : Command → string;
  (** [json::read_file], [json::write_file] of a state *)
  state_to_json : TaskRunCacheState → string;
  state_from_json : string → result TaskRunCacheState;
  (** [glob::walk_fast_with_options] and [GlobSet] *)
  walk_globs : FileSystem → list string → result (list Path);
  globset_new : list string → result unit;
  globset_matches : list string → WorkspaceRelativePath → bool;
  (** [parse_duration], in nanoseconds *)
  parse_lifetime : string → result Z;
  (** [hash_common_task_contents] and [hash_toolchain_task_contents]: what they hash *)
  hash_task_contents : ActionContext → ActionNode → stateful (World R) (list string);
  fingerprint_to_json : gmap string OutputInfo → string;
  (** [CommandBuilder] *)
  build_command : ActionContext → ActionNode → string → stateful (World R) Command;
  build_check : TaskCheck → stateful (World R) Command;
  (** A process: [None] when it timed out *)
  exec_command : Command → bool → bool → nat → nat → stateful (World R) (option ProcessOutput);
  exec_check : Command → stateful (World R) (option ProcessOutput);
  (** The order in which checks that run in parallel end *)
  join_order : list CheckExecuteResult → list CheckExecuteResult;
  (** [Archiver::pack_from_ext], [unpack_from_ext] of [starbase_archive] *)
  archive_pack : Path → list Path → list string → stateful (World R) unit;
  archive_unpack : Path → list Path → list string → stateful (World R) unit;
}.

Section Runner.
Context `{Sha256, RelativePathLib, DirWalk} {R : Type} `{RunnerHost R}.

(** ** The file of the last run ([state_engine.rs]) *)

(** [StateEngine::get_target_dir] *)
Definition get_target_dir (target : Target) : Path :=
  let name :=
    match get_task_scope target with
    | (TId, value) => value
    | (TTag, value) => "tag-" ++ value
    end in
  let dir :=
    match get_project_scope target with
    | (PId, value) => encode_component value
    | (PTag, value) => "tag-" ++ encode_component value
    | _ => encode_component "_"
    end in
  (rh_states_dir ++ [dir; encode_component name])%list.

Definition last_run_path (target : Target) : Path := (get_target_dir target ++ ["lastRun.json"])%list.
Definition stderr_path (target : Target) : Path := (get_target_dir target ++ ["stderr.log"])%list.
Definition stdout_path (target : Target) : Path := (get_target_dir target ++ ["stdout.log"])%list.

(** [CacheItem::load], [save] *)
Definition CacheItem_load (path : Path) : stateful (World R) TaskRunCacheState :=
  with_state (λ w,
    if mode_is_readable rh_cache_mode && path_exists (w_fs w) path then
      data ← read_file_bytes path; pure_result (state_from_json data)
    else mret RunCacheState_default).

Definition CacheItem_save (path : Path) (data : TaskRunCacheState) : stateful (World R) unit :=
  if mode_is_writable rh_cache_mode then fs_write_file path (state_to_json data) else mret tt.

(** [TaskRunState::new] *)
Definition TaskRunState_new (task : Task) : TaskRunState :=
  let remote_enabled := Storage_is_remote_enabled rh_storage in
  let cache := o_cache (t_options task) in
  mkTaskRunState Digest_default (mkOperation NoOperation Running) None rh_cas_outputs_cache
    (mode_is_readable rh_cache_mode && is_local_enabled cache)
    (mode_is_writable rh_cache_mode && is_local_enabled cache)
    (mode_is_readable rh_cache_mode && is_remote_enabled cache && remote_enabled)
    (mode_is_writable rh_cache_mode && is_remote_enabled cache && remote_enabled).

(** ** The runner and its surroundings *)

(** [TaskRunner], with the writes that the storage still has to finish. *)
Record TaskRunner : Type := mkTaskRunner {
  tr_cache : TaskRunCacheState;
  tr_operations : OperationList;
  tr_report : TaskReportItem;
  tr_state : TaskRunState;
  tr_background : list (stateful (World R) unit);
}.

Record Run : Type := mkRun {
  run_runner : TaskRunner;
  run_context : ActionContext;
  run_world : World R;
}.

Definition on_world {A} (m : stateful (World R) A) : stateful Run A := λ r,
  let '(a, w) := m (run_world r) in (a, mkRun (run_runner r) (run_context r) w).

Definition modify (f : TaskRunner → TaskRunner) : stateful Run unit := λ r,
  (Ok tt, mkRun (f (run_runner r)) (run_context r) (run_world r)).

Definition in_context {A} (f : ActionContext → A * ActionContext) : stateful Run A := λ r,
  let '(a, c) := f (run_context r) in (Ok a, mkRun (run_runner r) c (run_world r)).

Definition set_cache (cache : TaskRunCacheState) (t : TaskRunner) : TaskRunner :=
  mkTaskRunner cache (tr_operations t) (tr_report t) (tr_state t) (tr_background t).

Definition push_operations (operations : OperationList) (t : TaskRunner) : TaskRunner :=
  mkTaskRunner (tr_cache t) (tr_operations t ++ operations)%list (tr_report t) (tr_state t) (tr_background t).

Definition set_report (report : TaskReportItem) (t : TaskRunner) : TaskRunner :=
  mkTaskRunner (tr_cache t) (tr_operations t) report (tr_state t) (tr_background t).

Definition set_run_state (state : TaskRunState) (t : TaskRunner) : TaskRunner :=
  mkTaskRunner (tr_cache t) (tr_operations t) (tr_report t) state (tr_background t).

Definition push_background (tasks : list (stateful (World R) unit)) (t : TaskRunner) : TaskRunner :=
  mkTaskRunner (tr_cache t) (tr_operations t) (tr_report t) (tr_state t) (tr_background t ++ tasks)%list.

Definition state_target (target : option TargetState) (s : TaskRunState) : TaskRunState :=
  mkTaskRunState (st_digest s) (st_operation s) target (st_local_cas_enabled s) (st_local_cache_readable s)
    (st_local_cache_writable s) (st_remote_cache_readable s) (st_remote_cache_writable s).

Definition state_digest (digest : Digest) (s : TaskRunState) : TaskRunState :=
  mkTaskRunState digest (st_operation s) (st_target s) (st_local_cas_enabled s) (st_local_cache_readable s)
    (st_local_cache_writable s) (st_remote_cache_readable s) (st_remote_cache_writable s).

Definition state_operation (operation : Operation) (s : TaskRunState) : TaskRunState :=
  mkTaskRunState (st_digest s) operation (st_target s) (st_local_cas_enabled s) (st_local_cache_readable s)
    (st_local_cache_writable s) (st_remote_cache_readable s) (st_remote_cache_writable s).

(** [self.state.target = Some(..)] *)
Definition set_target (target : TargetState) : stateful Run unit :=
  modify (λ t, set_run_state (state_target (Some target) (tr_state t)) t).

(** [now_millis] ([time/src/lib.rs]) *)
Definition now_millis (w : World R) : Z := (w_now w / 1000000)%Z.

(** [is_stale], of a time in milliseconds and a duration in nanoseconds. *)
Definition is_stale (timestamp duration : Z) (w : World R) : bool :=
  (timestamp =? 0)%Z || (timestamp + duration / 1000000 <=? now_millis w)%Z.

(** [fs::is_stale(path, false, duration)]: by the time of the last change. *)
Definition file_is_stale (path : Path) (duration : Z) : stateful (World R) bool :=
  '(_, _, mtime) ← fs_metadata path;
  with_state (λ w, mret (duration <? file_age (w_now w) mtime)%Z).

(** Constructors of operations ([operation.rs]). *)
Definition process_output_of (command : string) : OperationMetaProcessOutput :=
  mkProcessOutput (Some command) None None None.

Definition no_output : OperationMetaProcessOutput := mkProcessOutput None None None None.

Definition task_execution (command : string) : Operation :=
  mkOperation (TaskExecution (process_output_of command)) Running.

Definition process_execution (command : string) : Operation :=
  mkOperation (ProcessExecution (process_output_of command)) Running.

Section Task.
Variable task : Task.

(** ** Outputs on disk ([task.rs], [output_archiver.rs]) *)

(** [Task::get_output_files] *)
Definition get_output_files (include_non_globs : bool) : stateful (World R) (list Path) :=
  with_state (λ w,
    globbed ← match t_output_globs task with
              | [] => mret []
              | globs => pure_result (walk_globs (w_fs w) globs)
              end;
    mret (remove_dups
      ((if include_non_globs then
          (λ file, to_logical_path file rh_workspace_root) <$> (map_to_list (t_output_files task)).*1
        else []) ++ globbed)%list)).

(** [Task::is_build_type] *)
Definition is_build_type : bool :=
  match t_type_of task with TypeBuild => true | _ => false end || has_outputs task.

(** [Task::get_command_line] *)
Definition Task_get_command_line : string :=
  match t_script task with
  | Some script => script
  | None => TaskArg_get_value (t_command task) ++ " " ++ str_join " " (TaskArg_get_value <$> t_args task)
  end.

(** [Output::is_glob] *)
Definition Output_is_glob (output : Output) : bool := match output with OutGlob _ => true | _ => false end.

(** [OutputArchiver::has_outputs_been_created] *)
Definition has_outputs_been_created (bypass_globs : bool) : stateful (World R) bool :=
  let has_globs := match t_output_globs task with [] => false | _ => true end in
  let all_negated_globs := forallb (starts_with "!") (t_output_globs task) in
  if bypass_globs && has_globs && negb all_negated_globs then mret false
  else with_state (λ w,
    if existsb (λ '(output, optional),
         negb (path_exists (w_fs w) (to_path output rh_workspace_root)) && negb optional)
       (map_to_list (t_output_files task)) then mret false
    else if has_globs && negb all_negated_globs then
      outputs ← get_output_files false;
      mret (negb (bool_decide (outputs = []) &&
        negb (forallb (λ output, Output_is_glob output && Output_is_optional output) (t_outputs task))))
    else mret true).

(** ** Archiving ([output_archiver.rs]) *)

Inductive ArchiveOutcome : Type := ArchiveSkipped | ArchiveQueued.

Definition get_archive_path (hash : string) : Path := (rh_outputs_dir ++ [String.append hash ".tar.gz"])%list.
Definition get_manifest_path (hash : string) : Path := (rh_hashes_dir ++ [String.append hash ".json"])%list.

(** [create_cache_manifest] *)
Definition create_cache_manifest (state : TaskRunState) : stateful (World R) Manifest :=
  outputs ← get_output_files true;
  packed ← stateful_fold (inherit_output rh_workspace_root) Manifest_default outputs;
  packed ← pure_result (inherit_operation packed (st_operation state));
  inherit_source rh_workspace_root packed (st_digest state) (get_manifest_path (digest_hash (st_digest state))).

(** The files of the declared outputs, as the archiver is given them. *)
Definition declared_files : list Path :=
  (λ file, (rh_workspace_root ++ path_components file)%list) <$> (map_to_list (t_output_files task)).*1.

(** [pack_local_archive]: an archive that cannot be written is only reported. *)
Definition pack_local_archive (hash : string) (state : TaskRunState) : stateful (World R) unit :=
  if st_local_cache_writable state then
    attempt (archive_pack (get_archive_path hash)
      (declared_files ++ [stdout_path (t_target task); stderr_path (t_target task)])%list
      (t_output_globs task));;
    mret tt
  else mret tt.

(** [OutputArchiver::archive], without a daemon. *)
Definition OutputArchiver_archive (hash : string) (state : TaskRunState) :
  stateful (World R) (ArchiveOutcome * list (stateful (World R) unit)) :=
  created ← (if is_build_type then has_outputs_been_created false else mret true);
  if negb created then pure_result (Err (RTaskRunner (MissingOutputs (Target.id (t_target task)))))
  else if negb (st_local_cache_writable state || st_remote_cache_writable state) then
    mret (ArchiveSkipped, [])
  else
    let use_local := st_local_cas_enabled state && st_local_cache_writable state in
    let use_remote := st_remote_cache_writable state in
    background ← (if use_local || use_remote then
                    manifest ← create_cache_manifest state;
                    archive_manifest rh_workspace_root
                      (with_options rh_storage (include_only use_local use_remote)) false
                      (st_digest state) manifest
                  else mret []);
    (if negb (st_local_cas_enabled state) && st_local_cache_writable state then
       pack_local_archive hash state
     else mret tt);;
    mret (ArchiveQueued, background).

(** ** Hydrating ([output_hydrater.rs]) *)

Inductive HydrateFrom : Type :=
| PreviousOutput
| LocalArchive
| FromStorage (source : ManifestSource R).

Inductive HydrateOutcome : Type :=
| HydrateSkipped
| HydrateMissed
| HydrateHit
| HitFromStorage (manifest : Manifest) (is_remote : bool).

(** [delete_existing_outputs] *)
Definition delete_existing_outputs : stateful (World R) unit :=
  outputs ← get_output_files true;
  stateful_fold (λ _ output, attempt (fs_remove output);; mret tt) tt outputs.

(** [validate_output_path] *)
Definition validate_output_path (_ : unit) (rel_path : WorkspaceRelativePath) : result unit :=
  if bool_decide (is_Some (t_output_files task !! rel_path)) then Ok tt
  else if existsb (rel_starts_with rel_path) (map_to_list (t_output_files task)).*1 then Ok tt
  else if negb (bool_decide (t_output_globs task = [])) && globset_matches (t_output_globs task) rel_path then
    Ok tt
  else Err (RTaskRunner (OutputFileNotDeclared (Target.id (t_target task))
              (path_display (to_logical_path rel_path rh_workspace_root)))).

(** [validate_output_paths] *)
Definition validate_output_paths (manifest : Manifest) : result unit :=
  let? _ := ofold validate_output_path tt
    (mf_path <$> filter (λ file, is_Some (mf_digest file)) (m_files manifest)) in
  ofold validate_output_path tt (ms_path <$> m_symlinks manifest).

(** [unpack_local_archive] *)
Definition unpack_local_archive (hash : string) (state : TaskRunState) : stateful (World R) HydrateOutcome :=
  with_state (λ w,
    if st_local_cache_readable state && path_exists (w_fs w) (get_archive_path hash) then
      hydrated ← attempt (archive_unpack (get_archive_path hash) declared_files (t_output_globs task));
      match hydrated with
      | Ok _ => mret HydrateHit
      | _ => delete_existing_outputs;; mret HydrateMissed
      end
    else mret HydrateSkipped).

(** [OutputHydrater::hydrate], without a daemon. *)
Definition OutputHydrater_hydrate (from : HydrateFrom) (hash : string) (state : TaskRunState) :
  stateful (World R) (HydrateOutcome * list (stateful (World R) unit)) :=
  match from with
  | PreviousOutput => mret (HydrateHit, [])
  | LocalArchive => outcome ← unpack_local_archive hash state; mret (outcome, [])
  | FromStorage source =>
      if negb (source_remote source) && negb (st_local_cas_enabled state) then
        outcome ← unpack_local_archive hash state; mret (outcome, [])
      else if negb (st_local_cache_readable state || st_remote_cache_readable state) then
        mret (HydrateSkipped, [])
      else
        let use_local := st_local_cas_enabled state && st_local_cache_readable state in
        let use_remote := st_remote_cache_readable state in
        pure_result (validate_output_paths (source_manifest source));;
        delete_existing_outputs;;
        '(manifest, background) ←
          hydrate_manifest rh_workspace_root
            (with_options rh_storage (include_only use_local use_remote)) (st_digest state) source;
        match manifest with
        | Some manifest =>
            Manifest_unpack rh_workspace_root manifest;;
            mret (HitFromStorage manifest (source_remote source), background)
        | None => mret (HydrateMissed, background)
        end
  end.

(** ** The command ([task_executor.rs]) *)

(** The stream option that [TaskExecutor::prepare_state] computes. *)
Definition should_stream (context : ActionContext) : bool :=
  if is_primary_target context (t_target task) && negb rh_is_ci then true
  else match o_output_style (t_options task) with Some StyleStream => true | _ => false end.

(** The rest of [prepare_state], on the report. *)
Definition prepare_report (context : ActionContext) (attempt_total : nat) (report : TaskReportItem) :
  TaskReportItem :=
  mkReportItem 1 attempt_total (ri_hash report) (should_stream context)
    (is_primary_target context (t_target task)).

Definition report_attempt (attempt_index : nat) (report : TaskReportItem) : TaskReportItem :=
  mkReportItem attempt_index (ri_attempt_total report) (ri_hash report) (ri_output_streamed report)
    (ri_primary report).

(** The loop of [TaskExecutor::execute]: the index grows up to the total, so
    [attempt_total] rounds are enough. *)
Fixpoint execute_attempts (fuel : nat) (command : Command) (interactive : bool) (attempt_index attempt_total : nat)
    (attempts : OperationList) (report : TaskReportItem) :
  stateful (World R) (TaskExecuteResult * TaskReportItem) :=
  match fuel with
  | 0 => pure_result OutOfFuel
  | S fuel' =>
      let operation := task_execution (command_line command) in
      let report := report_attempt attempt_index report in
      attempt_result ← attempt (exec_command command (ri_output_streamed report) interactive
                                  attempt_index attempt_total);
      match attempt_result with
      | Ok maybe_output =>
          let is_success := match maybe_output with Some output => Output_success output | None => false end in
          let operation :=
            match maybe_output with
            | Some output =>
                finish_from_output operation (Output_status output) (po_stdout output) (po_stderr output)
            | None => Operation_finish operation TimedOut
            end in
          let attempts := (attempts ++ [operation])%list in
          if is_success then mret (mkExecuteResult attempts None (from_hash (ri_hash report)), report)
          else if (attempt_index <? attempt_total)%nat then
            execute_attempts fuel' command interactive (attempt_index + 1) attempt_total attempts report
          else mret (mkExecuteResult attempts None TFailed, report)
      | Err error =>
          mret (mkExecuteResult (attempts ++ [Operation_finish operation Failed])%list (Some error) TFailed, report)
      | OutOfFuel => pure_result OutOfFuel
      end
  end.

(** [TaskExecutor::new] and [execute]; [retry_count + 1] is an [u8]. *)
Definition TaskExecutor_execute (context : ActionContext) (node : ActionNode) (command : Command)
    (report : TaskReportItem) : stateful (World R) (TaskExecuteResult * TaskReportItem) :=
  let attempt_total := as_u8 (o_retry_count (t_options task) + 1) in
  execute_attempts (S attempt_total) command (ActionNode_is_interactive node || is_interactive task)
    1 attempt_total [] (prepare_report context attempt_total report).

(** ** Checks ([check_executor.rs], [checks_runner.rs]) *)

(** [CheckExecutor::execute] *)
Definition CheckExecutor_execute (command : Command) (check : TaskCheck) :
  stateful (World R) CheckExecuteResult :=
  let operation := process_execution (command_line command) in
  attempt_result ← attempt (exec_check command);
  match attempt_result with
  | Ok (Some output) =>
      mret (mkCheckResult
        (finish_from_output operation (Output_status output) (po_stdout output) (po_stderr output))
        check None (Some output))
  | Ok None => mret (mkCheckResult (Operation_finish operation TimedOut) check None None)
  | Err error => mret (mkCheckResult (Operation_finish operation Failed) check (Some error) None)
  | OutOfFuel => pure_result OutOfFuel
  end.

(** [ChecksRunner::execute]: the commands are built in order, then the checks run
    in parallel. *)
Definition ChecksRunner_execute (wanted : TaskCheck → bool) : stateful (World R) (list CheckExecuteResult) :=
  let checks := List.filter wanted (t_checks task) in
  commands ← stateful_map (λ check, command ← build_check check; mret (check, command)) checks;
  results ← stateful_map (λ '(check, command), CheckExecutor_execute command check) commands;
  mret (join_order results).

Definition is_fingerprint (check : TaskCheck) : bool :=
  match check with CheckFingerprint _ _ => true | _ => false end.

(** ** The runner ([task_runner.rs]) *)

(** [TaskRunner::is_cache_enabled] *)
Definition is_cache_enabled : bool := TaskOptionCache_is_enabled (o_cache (t_options task)) && rh_vcs_enabled.

(** [TaskRunner::new] *)
Definition TaskRunner_new : stateful (World R) TaskRunner :=
  cache ← CacheItem_load (last_run_path (t_target task));
  let cache :=
    if decide (cs_target cache = "") then
      mkRunCacheState (cs_exit_code cache) (cs_hash cache) (cs_last_run_time cache) (Target.id (t_target task))
    else cache in
  pure_result (globset_new (t_output_globs task));;
  mret (mkTaskRunner cache [] (mkReportItem 0 0 None false false) (TaskRunState_new task) []).

(** [TaskRunner::is_dependencies_complete] *)
Fixpoint dependencies_complete (context : ActionContext) (deps : list TaskDependencyConfig) : result bool :=
  match deps with
  | [] => Ok true
  | dep :: deps' =>
      if is_dependency_ignored context (t_target task) (dep_target dep) then dependencies_complete context deps'
      else match ctx_target_states context !! dep_target dep with
           | Some dep_state =>
               if TargetState_is_complete dep_state then dependencies_complete context deps' else Ok false
           | None =>
               Err (RTaskRunner (MissingDependencyHash (Target.id (dep_target dep)) (Target.id (t_target task))))
           end
  end.

Definition is_dependencies_complete (context : ActionContext) : result bool :=
  dependencies_complete context (t_deps task).

(** The closure [is_cache_stale] of [is_cached]. *)
Definition is_cache_stale (cache_lifetime : option Z) (cache : TaskRunCacheState) (w : World R) : bool :=
  match cache_lifetime with
  | Some duration => (0 <? cs_last_run_time cache)%Z && is_stale (cs_last_run_time cache) duration w
  | None => false
  end.

(** The state of the run. *)
Definition get_run : stateful Run Run := λ r, (Ok r, r).

(** [TaskRunner::is_cached] *)
Definition is_cached (hash : string) : stateful Run (option HydrateFrom) :=
  cache_lifetime ← match o_cache_lifetime (t_options task) with
                   | Some lifetime => duration ← pure_result (parse_lifetime lifetime); mret (Some duration)
                   | None => mret None
                   end;
  r ← get_run;
  let cache := tr_cache (run_runner r) in
  let state := tr_state (run_runner r) in
  previous ← (if (cs_exit_code cache =? 0)%Z && bool_decide (cs_hash cache = hash) then
                on_world (has_outputs_been_created true)
              else mret false);
  if (previous : bool) then
    mret (if is_cache_stale cache_lifetime cache (run_world r) then None else Some PreviousOutput)
  else if negb (mode_is_readable rh_cache_mode) then mret None
  else
    modify (set_cache (mkRunCacheState (cs_exit_code cache) hash (cs_last_run_time cache) (cs_target cache)));;
    if (0 <? cs_exit_code cache)%Z then mret None
    else if is_cache_stale cache_lifetime cache (run_world r) then mret None
    else
      let archive_file := get_archive_path hash in
      is_fresh ← (if path_exists (w_fs (run_world r)) archive_file then
                    match cache_lifetime with
                    | Some duration => stale ← on_world (file_is_stale archive_file duration); mret (negb stale)
                    | None => mret true
                    end
                  else mret false);
      if (is_fresh : bool) then mret (Some LocalArchive)
      else if Digest_is_valid (st_digest state) then
        loaded ← attempt (on_world (load_manifest
          (with_options rh_storage
             (include_only (st_local_cas_enabled state && st_local_cache_readable state)
                (st_remote_cache_readable state))) (st_digest state)));
        mret (match loaded with Ok (Some source) => Some (FromStorage source) | _ => None end)
      else mret None.

(** What is hashed of the output of a fingerprint check; nothing when it is
    disabled. *)
Definition fingerprint_info (hash : TaskCheckFingerprint) (info : OutputInfo) : option OutputInfo :=
  match hash with
  | HashEnabled state => if state then Some info else None
  | HashExitCode => Some (mkOutputInfo (info_exit_code info) (info_signal info) None None)
  | HashStderr => Some (mkOutputInfo None (info_signal info) (info_stderr info) None)
  | HashStdout => Some (mkOutputInfo None (info_signal info) None (info_stdout info))
  end.

(** One round of the loop of [hash_checks]. *)
Definition hash_check (fingerprint : gmap string OutputInfo) (result : CheckExecuteResult) :
  stateful Run (gmap string OutputInfo) :=
  match cr_error result with
  | Some error => pure_result (Err error)
  | None =>
      modify (push_operations [cr_attempt result]);;
      match cr_output result with
      | Some output =>
          let script := TaskCheck_get_script (cr_check result) in
          if Output_success output then
            match cr_check result with
            | CheckFingerprint _ hash =>
                mret (match fingerprint_info hash (to_info output) with
                      | Some info => <[script := info]> fingerprint
                      | None => fingerprint
                      end)
            | _ => pure_result (Err (Foreign "unreachable"))
            end
          else
            pure_result (Err (RTaskRunner (FingerprintCheckFailed (Target.id (t_target task)) script
              (to_error output "<fingerprint>"))))
      | None => mret fingerprint
      end
  end.

(** [TaskRunner::hash_checks] *)
Definition hash_checks (hasher : ContentHasher) : stateful Run ContentHasher :=
  checks ← on_world (ChecksRunner_execute is_fingerprint);
  fingerprint ← stateful_fold hash_check ∅ checks;
  mret (if decide (fingerprint = ∅) then hasher
        else hash_content hasher (fingerprint_to_json fingerprint)).

(** [TaskRunner::hash] *)
Definition TaskRunner_hash (node : ActionNode) : stateful Run ContentHash :=
  r ← get_run;
  contents ← on_world (hash_task_contents (run_context r) node);
  hasher ← hash_checks (fold_left hash_content contents ContentHasher_new);
  digest ← on_world (save_manifest rh_hashes_dir hasher);
  modify (λ t,
    set_run_state (state_digest digest (tr_state t))
      (set_report (mkReportItem (ri_attempt_current (tr_report t)) (ri_attempt_total (tr_report t))
                     (Some (digest_hash digest)) (ri_output_streamed (tr_report t)) (ri_primary (tr_report t)))
         (push_operations [mkOperation (HashGeneration (Some (digest_hash digest))) Passed] t)));;
  mret (digest_hash digest).

(** One round of the loop of [execute_checks]: whether there are conditions, and
    whether all of them are met. *)
Definition execute_check (s : bool * bool) (result : CheckExecuteResult) : stateful Run (bool * bool) :=
  let '(has_conditions, all_conditions_met) := s in
  match cr_error result with
  | Some error => pure_result (Err error)
  | None =>
      modify (push_operations [cr_attempt result]);;
      match cr_check result with
      | CheckCondition _ =>
          let passed := match cr_output result with Some output => Output_success output | None => false end in
          mret (true, all_conditions_met && passed)
      | CheckRequirement script =>
          match cr_output result with
          | Some output =>
              if Output_success output then mret s
              else pure_result (Err (RTaskRunner (RequirementCheckFailed (Target.id (t_target task)) script
                     (to_error output "<requirement>"))))
          | None => mret s
          end
      | CheckFingerprint _ _ => pure_result (Err (Foreign "unreachable"))
      end
  end.

(** [TaskRunner::execute_checks] *)
Definition execute_checks : stateful Run bool :=
  checks ← on_world (ChecksRunner_execute (λ check, negb (is_fingerprint check)));
  '(has_conditions, all_conditions_met) ← stateful_fold execute_check (false, true) checks;
  mret (has_conditions && all_conditions_met).

(** [TaskRunner::skip], [skip_conditional], [skip_no_op] *)
Definition skip : stateful Run unit :=
  modify (push_operations [mkOperation (TaskExecution no_output) Skipped]);;
  set_target TSkipped.

Definition skip_conditional : stateful Run unit :=
  r ← get_run;
  modify (push_operations [mkOperation (TaskExecution no_output) Skipped]);;
  set_target (TSkippedConditional (default "passthrough" (ri_hash (tr_report (run_runner r))))).

Definition skip_no_op : stateful Run unit :=
  r ← get_run;
  modify (push_operations [mkOperation NoOperation Passed]);;
  set_target (from_hash (ri_hash (tr_report (run_runner r)))).

(** [TaskRunner::persist_state] *)
Definition persist_state (operation : Operation) : stateful Run unit :=
  modify (λ t, set_run_state (state_operation operation (tr_state t)) t);;
  match get_exec_output operation with
  | Some output =>
      modify (λ t, set_cache (mkRunCacheState (default (-1)%Z (out_exit_code output)) (cs_hash (tr_cache t))
        (cs_last_run_time (tr_cache t)) (cs_target (tr_cache t))) t);;
      on_world (fs_write_file (stderr_path (t_target task)) (default "" (out_stderr output)));;
      on_world (fs_write_file (stdout_path (t_target task)) (default "" (out_stdout output)))
  | None =>
      on_world (fs_remove_file (stderr_path (t_target task)));;
      on_world (fs_remove_file (stdout_path (t_target task)))
  end.

(** [Operation::get_exec_output_status] *)
Definition get_exec_output_status (o : Operation) : string :=
  match get_exec_output o ≫= out_exit_code with
  | Some code => "exit code " ++ pretty code
  | None =>
      match op_status o with
      | Skipped => "skipped"
      | TimedOut => "timed out"
      | _ => "unknown failure"
      end
  end.

(** The mutex of a task; the guard is held until the command has ended. *)
Definition acquire_mutex : stateful Run unit :=
  match o_mutex (t_options task) with
  | Some mutex_name =>
      _ ← in_context (λ c, get_or_create_mutex c mutex_name);
      modify (push_operations [mkOperation MutexAcquisition Passed])
  | None => mret tt
  end.

(** [TaskRunner::execute] *)
Definition TaskRunner_execute (node : ActionNode) : stateful Run unit :=
  if is_no_op task then skip_no_op
  else
    skipped ← execute_checks;
    if (skipped : bool) then skip_conditional
    else
      r ← get_run;
      command ← on_world (build_command (run_context r) node
                            (default "" (ri_hash (tr_report (run_runner r)))));
      acquire_mutex;;
      r ← get_run;
      '(result, report) ← on_world (TaskExecutor_execute (run_context r) node command (tr_report (run_runner r)));
      modify (set_report report);;
      match get_last_execution (er_attempts result) with
      | Some last_attempt => persist_state last_attempt
      | None => mret tt
      end;;
      modify (push_operations (er_attempts result));;
      set_target (er_run_state result);;
      match er_error result with
      | Some error => pure_result (Err error)
      | None =>
          r ← get_run;
          match get_last_execution (tr_operations (run_runner r)) with
          | Some last_attempt =>
              if Operation_has_failed last_attempt then
                pure_result (Err (RTaskRunner (RunFailed (Target.id (t_target task))
                  (ExitNonZero (ta_value (t_command task)) (get_exec_output_status last_attempt)
                     (get_exec_output last_attempt ≫= out_exit_code)))))
              else mret tt
          | None => mret tt
          end
      end.

(** [TaskRunner::archive] *)
Definition TaskRunner_archive (hash : string) : stateful Run bool :=
  r ← get_run;
  if match st_target (tr_state (run_runner r)) with Some state => TargetState_is_skipped state | None => false end
  then mret false
  else
    '(outcome, background) ← on_world (OutputArchiver_archive hash (tr_state (run_runner r)));
    modify (push_background background);;
    match outcome with
    | ArchiveSkipped => modify (push_operations [mkOperation ArchiveCreation Skipped]);; mret false
    | ArchiveQueued => modify (push_operations [mkOperation ArchiveCreation Passed]);; mret true
    end.

(** A log that is there. *)
Definition read_log (path : Path) : stateful (World R) (option string) :=
  with_state (λ w,
    if path_exists (w_fs w) path then log ← read_file_bytes path; mret (set_output None log) else mret None).

(** [TaskRunner::hydrate] *)
Definition TaskRunner_hydrate (hash : string) : stateful Run bool :=
  from ← is_cached hash;
  match from with
  | None => modify (push_operations [mkOperation (OutputHydration no_output) Skipped]);; mret false
  | Some from =>
      r ← get_run;
      '(outcome, background) ← on_world (OutputHydrater_hydrate from hash (tr_state (run_runner r)));
      modify (push_background background);;
      match outcome with
      | HydrateSkipped =>
          modify (push_operations [mkOperation (OutputHydration no_output) Skipped]);; mret false
      | HydrateMissed =>
          modify (push_operations [mkOperation (OutputHydration no_output) Invalid]);; mret false
      | HydrateHit =>
          r ← get_run;
          stderr ← on_world (read_log (stderr_path (t_target task)));
          stdout ← on_world (read_log (stdout_path (t_target task)));
          modify (push_operations [mkOperation (OutputHydration (mkProcessOutput (Some (Task_get_command_line))
            (Some (cs_exit_code (tr_cache (run_runner r)))) stderr stdout)) Cached]);;
          set_target (TPassed hash);;
          mret true
      | HitFromStorage manifest is_remote =>
          let operation := mkOperation (OutputHydration (mkProcessOutput (Some (Task_get_command_line))
            (Some (m_exit_code manifest)) (m_stderr_bytes manifest ≫= set_output None)
            (m_stdout_bytes manifest ≫= set_output None))) (if is_remote then CachedFromRemote else Cached) in
          persist_state operation;;
          modify (push_operations [operation]);;
          set_target (TPassed hash);;
          mret true
      end
  end.

(** [TaskRunner::internal_run] *)
Definition internal_run (node : ActionNode) : stateful Run (option ContentHash) :=
  r ← get_run;
  complete ← pure_result (is_dependencies_complete (run_context r));
  if negb complete then skip;; mret None
  else
    hash ← TaskRunner_hash node;
    if is_cache_enabled then
      hydrated ← TaskRunner_hydrate hash;
      if (hydrated : bool) then mret (Some hash)
      else TaskRunner_execute node;; TaskRunner_archive hash;; mret (Some hash)
    else TaskRunner_execute node;; mret (Some hash).

(** [inject_failed_task_execution] *)
Definition inject_failed_task_execution (t : TaskRunner) : TaskRunner :=
  if existsb (λ operation, is_task_execution (op_meta operation)) (tr_operations t) then t
  else push_operations [mkOperation (TaskExecution
         (mkProcessOutput (Some (ta_value (t_command task))) (Some (-1)%Z) None None)) Aborted] t.

Record TaskRunResult : Type := mkRunResult {
  rr_hash : option ContentHash;
  rr_error : option Report;
  rr_operations : OperationList;
}.

(** [self.operations.take()] *)
Definition take_operations : stateful Run OperationList :=
  r ← get_run;
  modify (λ t, mkTaskRunner (tr_cache t) [] (tr_report t) (tr_state t) (tr_background t));;
  mret (tr_operations (run_runner r)).

(** [context.set_target_state(..)], of the state that was reached or [default]. *)
Definition finish_target (default : TargetState) : stateful Run unit :=
  r ← get_run;
  let state := match st_target (tr_state (run_runner r)) with Some state => state | None => default end in
  modify (λ t, set_run_state (state_target None (tr_state t)) t);;
  in_context (λ c, (tt, set_target_state c (t_target task) state)).

(** [TaskRunner::run] *)
Definition TaskRunner_run (node : ActionNode) : stateful Run TaskRunResult :=
  r ← get_run;
  modify (λ t, set_report (mkReportItem (ri_attempt_current (tr_report t)) (ri_attempt_total (tr_report t))
    (ri_hash (tr_report t)) (ri_output_streamed (tr_report t))
    (is_primary_target (run_context r) (t_target task))) t);;
  result ← attempt (internal_run node);
  r ← get_run;
  let cache := tr_cache (run_runner r) in
  let cache := mkRunCacheState (cs_exit_code cache) (cs_hash cache) (now_millis (run_world r)) (cs_target cache) in
  modify (set_cache cache);;
  on_world (CacheItem_save (last_run_path (t_target task)) cache);;
  match result with
  | Ok maybe_hash =>
      finish_target TPassthrough;;
      operations ← take_operations;
      mret (mkRunResult maybe_hash None operations)
  | Err error =>
      finish_target TFailed;;
      modify inject_failed_task_execution;;
      operations ← take_operations;
      mret (mkRunResult None (Some error) operations)
  | OutOfFuel => pure_result OutOfFuel
  end.

(** A task from start to end: [TaskRunner::new] and [run]. *)
Definition run_task (context : ActionContext) (node : ActionNode) (w : World R) :
  result TaskRunResult * ActionContext * World R * list (stateful (World R) unit) :=
  match TaskRunner_new w with
  | (Ok runner, w) =>
      let '(r, run) := TaskRunner_run node (mkRun runner context w) in
      (r, run_context run, run_world run, tr_background (run_runner run))
  | (Err e, w) => (Err e, context, w, [])
  | (OutOfFuel, w) => (OutOfFuel, context, w, [])
  end.
End Task.
End Runner.
