(* ===== verification/TaskRunnerFacts.v ===== *)
(** * Lemmas on the task runner

The attempts at a command, and what each step of a run leaves in the runner. *)

From S2P Require Import Prelude Errors FileSystem Target GraphUtils Shapes Config Affected ActionContext Action.
From S2P Require Import Blobs Manifest CacheStorage CacheFacts TasksBuilder TaskRunner.

Section Facts.
Context `{Sha256, RelativePathLib, DirWalk} {R : Type} `{RunnerHost R}.
Variable task : Task.
#[local] Abbreviation Run := (@TaskRunner.Run R).

(** ** Attempts *)

(** A process runs to its end, times out or cannot be started. *)
Definition processes_end : Prop :=
  ∀ command streamed interactive index total w,
    (exec_command command streamed interactive index total w).1 ≠ OutOfFuel.

(** How a series of attempts at a command ended. *)
Record attempted (total : nat) (hash : option string) (attempts : OperationList) (res : TaskExecuteResult)
    (report : TaskReportItem) : Prop := {
  at_attempts : er_attempts res = attempts;
  at_count : (1 <= length attempts <= total `max` 1)%nat;
  at_current : ri_attempt_current report = length attempts;
  at_hash : ri_hash report = hash;
  at_executions : Forall (λ o, is_task_execution (op_meta o) = true) attempts;
  at_last : ∃ earlier last, attempts = (earlier ++ [last])%list ∧
    Forall (λ o, Operation_has_failed o = true) earlier ∧
    (er_run_state res = from_hash hash ∧ er_error res = None ∧ op_status last = Passed ∨
     er_run_state res = TFailed ∧ Operation_has_failed last = true ∧
     (er_error res = None → length attempts = total `max` 1));
}.

Lemma finished_execution command output :
  let op := finish_from_output (task_execution command) (Output_status output) (po_stdout output) (po_stderr output) in
  is_task_execution (op_meta op) = true ∧ op_status op = (if Output_success output then Passed else Failed) ∧
  (get_exec_output op ≫= out_exit_code) = Output_code output.
Proof.
  cbn. split; [done|]. unfold Output_status, Output_code, Output_success. destruct (po_exit output) as [code| | |]; cbn; [|done..].
  by destruct code.
Qed.

Lemma execute_attempts_attempted fuel command interactive index total earlier report w :
  processes_end → (1 <= index <= total `max` 1)%nat → (total `max` 1 < fuel + index)%nat → length earlier = (index - 1)%nat →
  Forall (λ o, is_task_execution (op_meta o) = true) earlier →
  Forall (λ o, Operation_has_failed o = true) earlier →
  ∃ attempts res report' w',
    execute_attempts fuel command interactive index total earlier report w = (Ok (res, report'), w') ∧
    attempted total (ri_hash report) attempts res report'.
Proof.
  intros Hend. revert index earlier report w.
  induction fuel as [|fuel IH]; intros index earlier report w Hindex Hfuel Hlen Hexec Hfailed; [lia|].
  cbn [execute_attempts]. unfold mbind at 1, stateful_bind at 1, attempt.
  pose proof (Hend command (ri_output_streamed (report_attempt index report)) interactive index total w) as Hrun.
  destruct (exec_command _ _ _ _ _ w) as [[maybe|e|] w1]; cbn in Hrun; [| |done].
  2: { eexists (earlier ++ [_])%list, _, _, _. split; [reflexivity|]. split; [done| | |done| |].
       - rewrite length_app. cbn. lia.
       - cbn. rewrite length_app. cbn. lia.
       - apply Forall_app; split; [done|by repeat constructor].
       - eexists _, _. split_and!; [done..|]. by right. }
  set (success := match maybe with Some _ => _ | None => false end).
  set (op := match maybe with Some _ => _ | None => _ end).
  assert (is_task_execution (op_meta op) = true ∧
    (if success then op_status op = Passed else Operation_has_failed op = true)) as [Hmeta Hstatus].
  { subst op success. destruct maybe as [output|]; [|done].
    destruct (finished_execution (command_line command) output) as (? & Hs & _). split; [done|].
    destruct (Output_success output); [done|]. unfold Operation_has_failed. by rewrite Hs. }
  assert (Forall (λ o, is_task_execution (op_meta o) = true) (earlier ++ [op])%list)
    by (apply Forall_app; split; [done|by repeat constructor]).
  assert (length (earlier ++ [op])%list = index) by (rewrite length_app; cbn; lia).
  destruct success; [|destruct (Nat.ltb_spec index total)].
  - eexists (earlier ++ [op])%list, _, _, _. split; [reflexivity|]. split; [done|lia|cbn; lia|done|done|].
    eexists _, _. split_and!; [done..|]. by left.
  - destruct (IH (index + 1)%nat (earlier ++ [op])%list (report_attempt index report) w1) as (a & res & rep & w' & Hr & Ha);
      [lia|lia|lia|done|apply Forall_app; split; [done|by repeat constructor]|].
    eauto 6.
  - eexists (earlier ++ [op])%list, _, _, _. split; [reflexivity|]. split; [done|lia|cbn; lia|done|done|].
    eexists _, _. split_and!; [done..|]. right. split_and!; [done..|]. intros _. lia.
Qed.

(** ** Reasoning about the runner *)

(** [wp m Q r]: run from [r], [m] ends as [Q] says. *)
Definition wp {A} (m : stateful Run A) (Q : result A → Run → Prop) (r : Run) : Prop := Q (m r).1 (m r).2.

Lemma wp_bind {A B} (m : stateful Run A) (k : A → stateful Run B) Q r :
  wp m (λ a r', match a with Ok x => wp (k x) Q r' | Err e => Q (Err e) r' | OutOfFuel => Q OutOfFuel r' end) r →
  wp (m ≫= k) Q r.
Proof. unfold wp, mbind, stateful_bind. by destruct (m r) as [[] r']. Qed.

Lemma wp_mono {A} (m : stateful Run A) (Q Q' : result A → Run → Prop) r :
  wp m Q r → (∀ a r', Q a r' → Q' a r') → wp m Q' r.
Proof. unfold wp. auto. Qed.

Lemma wp_ret {A} (x : A) (Q : result A → Run → Prop) r : Q (Ok x) r → wp (mret x) Q r.
Proof. done. Qed.

Lemma wp_pure {A} (x : result A) (Q : result A → Run → Prop) r : Q x r → wp (pure_result x) Q r.
Proof. done. Qed.

Lemma wp_get_run (Q : result Run → Run → Prop) r : Q (Ok r) r → wp get_run Q r.
Proof. done. Qed.

Lemma wp_modify f (Q : result unit → Run → Prop) r :
  Q (Ok tt) (mkRun (f (run_runner r)) (run_context r) (run_world r)) → wp (modify f) Q r.
Proof. done. Qed.

Lemma wp_on_world {A} (m : stateful (World R) A) (Q : result A → Run → Prop) r :
  (∀ a w', m (run_world r) = (a, w') → Q a (mkRun (run_runner r) (run_context r) w')) → wp (on_world m) Q r.
Proof. intros HQ. unfold wp, on_world. destruct (m (run_world r)) as [a w']. by apply HQ. Qed.

Lemma wp_fold {A B} (I : Run → Prop) (f : B → A → stateful Run B) b l r :
  (∀ b x r, I r → wp (f b x) (λ _, I) r) → I r → wp (stateful_fold f b l) (λ _, I) r.
Proof.
  intros Hf. revert b r. induction l as [|x l IH]; intros b r Hr; [done|]. cbn [stateful_fold].
  apply wp_bind. eapply wp_mono; [by apply Hf|]. intros [] r' Hr'; [by apply IH|done..].
Qed.

Lemma get_last_execution_app earlier ops :
  get_last_execution (earlier ++ ops)%list =
  match get_last_execution ops with Some o => Some o | None => get_last_execution earlier end.
Proof.
  unfold get_last_execution, rfind. rewrite reverse_app. induction (reverse ops) as [|o l IH]; [done|].
  cbn. by destruct (is_task_execution (op_meta o)).
Qed.

Lemma get_last_execution_snoc earlier o :
  is_task_execution (op_meta o) = true → get_last_execution (earlier ++ [o])%list = Some o.
Proof. intros Ho. rewrite get_last_execution_app. unfold get_last_execution, rfind. cbn. by rewrite Ho. Qed.

(** What of a run its steps leave alone, beside the operations that they add. *)
Record framed (r r' : Run) : Prop := {
  fr_target : st_target (tr_state (run_runner r')) = st_target (tr_state (run_runner r));
  fr_hash : ri_hash (tr_report (run_runner r')) = ri_hash (tr_report (run_runner r));
  fr_states : ctx_target_states (run_context r') = ctx_target_states (run_context r);
  fr_operations : ∃ added, tr_operations (run_runner r') = (tr_operations (run_runner r) ++ added)%list ∧
    Forall (λ o, is_task_execution (op_meta o) = false) added;
}.

Lemma get_last_execution_is ops o : get_last_execution ops = Some o → is_task_execution (op_meta o) = true.
Proof. unfold get_last_execution, rfind. by intros [_ ?]%find_some. Qed.

Lemma get_last_execution_none ops :
  Forall (λ o, is_task_execution (op_meta o) = false) ops → get_last_execution ops = None.
Proof.
  intros Hops. induction Hops as [|o ops Ho _ IH]; [done|]. change (o :: ops) with ([o] ++ ops)%list.
  rewrite get_last_execution_app, IH. unfold get_last_execution, rfind. cbn. by rewrite Ho.
Qed.

(** No step but the command executes the task. *)
Lemma fr_last r r' :
  framed r r' → get_last_execution (tr_operations (run_runner r')) = get_last_execution (tr_operations (run_runner r)).
Proof.
  intros [_ _ _ (added & Hops & Hadded)]. by rewrite Hops, get_last_execution_app, get_last_execution_none.
Qed.

#[export] Instance framed_preorder : PreOrder framed.
Proof.
  split.
  - intros r. split; [done..|]. exists []. by rewrite app_nil_r.
  - intros r1 r2 r3 [? ? ? (a & Ha & Fa)] [? ? ? (b & Hb & Fb)]. split; [congruence..|]. exists (a ++ b)%list.
    split; [by rewrite Hb, Ha, <- app_assoc|by apply Forall_app].
Qed.
End Facts.

(** Take the next step of a run. *)
Ltac wp_step :=
  first
  [ apply wp_bind
  | apply wp_get_run
  | apply wp_modify
  | apply wp_ret
  | apply wp_pure
  | apply wp_on_world; intros [] ? ?
  | progress cbn beta iota ].

(** Close the goal that a sequence of updates of the runner leaves what [framed] names. *)
Ltac solve_framed :=
  first [ reflexivity | assumption
        | match goal with Hf : framed _ ?r |- framed _ _ => etrans; [exact Hf|] end; solve_framed
        | split; [done..|]; cbn; rewrite <- ?app_assoc;
          first [exists []; split; [by rewrite app_nil_r|constructor] | eexists; split; [done|by repeat constructor]] ].

Section Steps.
Context `{Sha256, RelativePathLib, DirWalk} {R : Type} `{RunnerHost R}.
Variable task : Task.
#[local] Abbreviation Run := (@TaskRunner.Run R).
Implicit Types r : Run.

Lemma wp_framed_bind {A B} (m : stateful Run A) (k : A → stateful Run B) r :
  wp m (λ _, framed r) r → (∀ x r', framed r r' → wp (k x) (λ _, framed r') r') →
  wp (m ≫= k) (λ _, framed r) r.
Proof.
  intros Hm Hk. apply wp_bind. eapply wp_mono; [exact Hm|]. intros [x|e|] r' Hr'; [|done..].
  eapply wp_mono; [by apply Hk|]. intros a r'' Hr''. by etrans.
Qed.

Lemma on_world_framed {A} (m : stateful (World R) A) r : wp (on_world m) (λ _, framed r) r.
Proof. apply wp_on_world. intros. solve_framed. Qed.

Lemma push_framed operation r :
  is_task_execution (op_meta operation) = false → wp (modify (push_operations [operation])) (λ _, framed r) r.
Proof. intros. apply wp_modify. solve_framed. Qed.

(** The attempt at a check is no execution of the task. *)
Definition check_attempt (result : CheckExecuteResult) : Prop :=
  is_task_execution (op_meta (cr_attempt result)) = false.

Lemma execute_check_framed s result r :
  check_attempt result → wp (execute_check task s result) (λ _, framed r) r.
Proof.
  intros Hresult. destruct s as [has all]. unfold execute_check. destruct (cr_error result); [apply wp_pure; reflexivity|].
  apply wp_framed_bind; [by apply push_framed|]. intros _ r' _.
  destruct (cr_check result), (cr_output result) as [output|]; try destruct (Output_success output);
    first [apply wp_ret; reflexivity | apply wp_pure; reflexivity].
Qed.

Lemma hash_check_framed fingerprint result r :
  check_attempt result → wp (hash_check task fingerprint result) (λ _, framed r) r.
Proof.
  intros Hresult. unfold hash_check. destruct (cr_error result); [apply wp_pure; reflexivity|].
  apply wp_framed_bind; [by apply push_framed|]. intros _ r' _.
  destruct (cr_output result) as [output|]; [|apply wp_ret; reflexivity].
  destruct (Output_success output), (cr_check result); first [apply wp_ret; reflexivity | apply wp_pure; reflexivity].
Qed.

Lemma fold_framed {A B} (f : B → A → stateful Run B) (P : A → Prop) b l r :
  (∀ b x r, P x → wp (f b x) (λ _, framed r) r) → Forall P l → wp (stateful_fold f b l) (λ _, framed r) r.
Proof.
  intros Hf Hl. revert b r. induction Hl as [|x l Hx _ IH]; intros b r; [apply wp_ret; reflexivity|].
  cbn [stateful_fold]. apply wp_framed_bind; [by apply Hf|]. intros. apply IH.
Qed.

(** The checks of a task end in some order. *)
Hypothesis Hjoin : ∀ results, join_order results ≡ₚ results.

Lemma CheckExecutor_attempt command check w result w' :
  CheckExecutor_execute command check w = (Ok result, w') → check_attempt result.
Proof.
  unfold CheckExecutor_execute, mbind, stateful_bind, attempt. destruct (exec_check command w) as [[[output|]|e|] w1];
    intros [= <- _]; done.
Qed.

Lemma stateful_map_Forall {S A B} (f : A → stateful S B) (P : B → Prop) l s ys s' :
  (∀ x s y s', f x s = (Ok y, s') → P y) → stateful_map f l s = (Ok ys, s') → Forall P ys.
Proof.
  intros Hf. revert s ys s'. induction l as [|x l IH]; intros s ys s' Hrun; cbn in Hrun; run_ok; [constructor|].
  constructor; [by eapply Hf|by eapply IH].
Qed.

Lemma ChecksRunner_attempts wanted w results w' :
  ChecksRunner_execute task wanted w = (Ok results, w') → Forall check_attempt results.
Proof.
  unfold ChecksRunner_execute. intros Hrun. run_ok. rewrite Hjoin. eapply stateful_map_Forall; [|eassumption].
  intros [check command] s y s' Hcheck. by eapply CheckExecutor_attempt.
Qed.

Lemma wp_checks {B} wanted (f : B → CheckExecuteResult → stateful Run B) b {C} (k : B → stateful Run C) r :
  (∀ b result r, check_attempt result → wp (f b result) (λ _, framed r) r) →
  (∀ b r, wp (k b) (λ _, framed r) r) →
  wp (checks ← on_world (ChecksRunner_execute task wanted); b ← stateful_fold f b checks; k b) (λ _, framed r) r.
Proof.
  intros Hf Hk. apply wp_bind, wp_on_world. intros a w' Hrun. set (r1 := mkRun _ _ w').
  assert (framed r r1) as F1 by (subst r1; solve_framed). destruct a as [results|e|]; [|done..].
  eapply wp_mono; [|intros ? ? F2; etrans; [exact F1|exact F2]].
  apply wp_framed_bind; [|intros; apply Hk]. eapply fold_framed; [exact Hf|]. by eapply ChecksRunner_attempts.
Qed.

Lemma hash_checks_framed hasher r : wp (hash_checks task hasher) (λ _, framed r) r.
Proof. apply wp_checks; [intros; by apply hash_check_framed|]. intros. apply wp_ret. reflexivity. Qed.

Lemma execute_checks_framed r : wp (execute_checks task) (λ _, framed r) r.
Proof. apply wp_checks; [intros; by apply execute_check_framed|]. intros [] ?. apply wp_ret. reflexivity. Qed.

Lemma acquire_mutex_framed r : wp (acquire_mutex task) (λ _, framed r) r.
Proof.
  unfold acquire_mutex. destruct (o_mutex _) as [name|]; [|apply wp_ret; reflexivity].
  apply wp_framed_bind; [|intros; by apply push_framed].
  unfold wp, in_context. unfold get_or_create_mutex.
  destruct (ctx_named_mutexes _ !! name); cbn; solve_framed.
Qed.

Lemma persist_state_framed operation r : wp (persist_state task operation) (λ _, framed r) r.
Proof.
  unfold persist_state. apply wp_framed_bind; [apply wp_modify; solve_framed|]. intros _ r1 _.
  destruct (get_exec_output operation).
  - apply wp_framed_bind; [apply wp_modify; solve_framed|]. intros _ r2 _.
    apply wp_framed_bind; [apply on_world_framed|]. intros. apply on_world_framed.
  - apply wp_framed_bind; [apply on_world_framed|]. intros. apply on_world_framed.
Qed.

Lemma wp_attempt {A} (m : stateful Run A) Q r : wp m (λ a, Q (Ok a)) r → wp (attempt m) Q r.
Proof. unfold wp, attempt. by destruct (m r). Qed.

Lemma attempt_framed {A} (m : stateful Run A) r :
  wp m (λ _, framed r) r → wp (attempt m) (λ _, framed r) r.
Proof. unfold wp, attempt. by destruct (m r). Qed.

Lemma is_cached_framed hash r : wp (is_cached task hash) (λ _, framed r) r.
Proof.
  unfold is_cached. apply wp_framed_bind.
  { destruct (o_cache_lifetime _); [|apply wp_ret; reflexivity].
    apply wp_framed_bind; [apply wp_pure; reflexivity|]. intros. apply wp_ret. reflexivity. }
  intros lifetime r1 _. apply wp_framed_bind; [apply wp_get_run; reflexivity|]. intros r' r2 _.
  apply wp_framed_bind; [case_match; [apply on_world_framed|apply wp_ret; reflexivity]|].
  intros previous r3 _. destruct previous; [apply wp_ret; reflexivity|].
  destruct (negb _); [apply wp_ret; reflexivity|].
  apply wp_framed_bind; [apply wp_modify; solve_framed|]. intros _ r4 _.
  destruct (0 <? _)%Z; [apply wp_ret; reflexivity|]. destruct (is_cache_stale _ _ _); [apply wp_ret; reflexivity|].
  apply wp_framed_bind.
  { destruct (path_exists _ _); [|apply wp_ret; reflexivity]. destruct lifetime; [|apply wp_ret; reflexivity].
    apply wp_framed_bind; [apply on_world_framed|]. intros. apply wp_ret. reflexivity. }
  intros fresh r5 _. destruct fresh; [apply wp_ret; reflexivity|].
  destruct (Digest_is_valid _); [|apply wp_ret; reflexivity].
  apply wp_framed_bind; [apply attempt_framed, on_world_framed|]. intros. apply wp_ret. reflexivity.
Qed.

(** *** The hash *)

Definition with_hash (hash : ContentHash) r r' : Prop :=
  st_target (tr_state (run_runner r')) = st_target (tr_state (run_runner r)) ∧
  ctx_target_states (run_context r') = ctx_target_states (run_context r) ∧
  ri_hash (tr_report (run_runner r')) = Some hash ∧
  get_last_execution (tr_operations (run_runner r')) = get_last_execution (tr_operations (run_runner r)).

Lemma TaskRunner_hash_wp node r :
  wp (TaskRunner_hash task node)
    (λ a r', match a with Ok hash => with_hash hash r r' | _ => framed r r' end) r.
Proof.
  unfold TaskRunner_hash. apply wp_bind, wp_get_run, wp_bind.
  eapply wp_mono; [apply on_world_framed|]. intros [contents|e|] r1 F1; [|done..]. apply wp_bind.
  eapply wp_mono; [apply hash_checks_framed|]. intros [hasher|e|] r2 F2; [|by etrans..]. apply wp_bind.
  eapply wp_mono; [apply on_world_framed|]. intros [digest|e|] r3 F3; [|by do 2 (etrans; [eassumption|])..].
  apply wp_bind, wp_modify, wp_ret.
  assert (framed r r3) as Hframed by (by do 2 (etrans; [eassumption|])).
  pose proof Hframed as [Htarget _ Hstates _].
  split_and!; cbn -[get_last_execution]; [by rewrite Htarget|by rewrite Hstates|done|].
  by rewrite get_last_execution_app, (fr_last _ _ Hframed).
Qed.

(** *** Hydration *)

(** An operation that reused outputs. *)
Definition reused (o : Operation) : Prop :=
  match op_meta o with OutputHydration _ => status_is_cached (op_status o) = true | _ => False end.

Definition hydrated (hash : string) r r' : Prop :=
  st_target (tr_state (run_runner r')) = Some (TPassed hash) ∧
  ctx_target_states (run_context r') = ctx_target_states (run_context r) ∧
  (∃ o, o ∈ tr_operations (run_runner r') ∧ reused o) ∧
  get_last_execution (tr_operations (run_runner r')) = get_last_execution (tr_operations (run_runner r)).

Lemma TaskRunner_hydrate_wp hash r :
  wp (TaskRunner_hydrate task hash)
    (λ a r', match a with Ok true => hydrated hash r r' | _ => framed r r' end) r.
Proof.
  unfold TaskRunner_hydrate. apply wp_bind.
  eapply wp_mono; [apply is_cached_framed|]. intros [[from|]|e|] r1 F1; [| |done..].
  2: { apply wp_bind. eapply wp_mono; [by apply push_framed|]. intros [[]|e|] r2 F2; [apply wp_ret|..]; by etrans. }
  apply wp_bind, wp_get_run, wp_bind.
  eapply wp_mono; [apply on_world_framed|]. intros [[outcome background]|e|] r2 F2; [|by etrans..].
  apply wp_bind, wp_modify.
  set (r3 := mkRun _ _ _). assert (framed r r3) as F3 by (subst r3; do 2 (etrans; [eassumption|]); solve_framed).
  clearbody r3. clear F1 F2 r1 r2. destruct outcome as [| | |manifest is_remote].
  1, 2: apply wp_bind; eapply wp_mono; [by apply push_framed|]; intros [[]|e|] r2 F2; [apply wp_ret|..]; by etrans.
  - apply wp_bind, wp_get_run, wp_bind.
    eapply wp_mono; [apply on_world_framed|]. intros [stderr|e|] r4 F4; [|by etrans..]. apply wp_bind.
    eapply wp_mono; [apply on_world_framed|]. intros [stdout|e|] r5 F5; [|by do 2 (etrans; [eassumption|])..].
    apply wp_bind, wp_modify, wp_bind, wp_modify, wp_ret.
    assert (framed r r5) as Hframed by (by do 2 (etrans; [eassumption|])).
    split_and!; cbn -[get_last_execution]; [done|by rewrite (fr_states _ _ Hframed)| |].
    + eexists. split; [apply elem_of_app; right; by left|done].
    + by rewrite get_last_execution_app, (fr_last _ _ Hframed).
  - apply wp_bind. eapply wp_mono; [apply persist_state_framed|]. intros [[]|e|] r4 F4; [|by etrans..].
    apply wp_bind, wp_modify, wp_bind, wp_modify, wp_ret.
    assert (framed r r4) as Hframed by (by etrans).
    split_and!; cbn -[get_last_execution]; [done|by rewrite (fr_states _ _ Hframed)| |].
    + eexists. split; [apply elem_of_app; right; by left|]. unfold reused. cbn. by destruct is_remote.
    + by rewrite get_last_execution_app, (fr_last _ _ Hframed).
Qed.

(** *** Execution *)

(** The exit code of the last execution is what will be saved. *)
Definition exit_recorded r : Prop := ∀ o code,
  get_last_execution (tr_operations (run_runner r)) = Some o → get_exec_output o ≫= out_exit_code = Some code →
  cs_exit_code (tr_cache (run_runner r)) = code.

Lemma unexecuted_recorded r : get_last_execution (tr_operations (run_runner r)) = None → exit_recorded r.
Proof. intros Hnone o code. by rewrite Hnone. Qed.

Lemma persist_state_exit o r :
  is_task_execution (op_meta o) = true →
  wp (persist_state task o) (λ a r', framed r r' ∧ ∀ code, a = Ok tt → get_exec_output o ≫= out_exit_code = Some code →
    cs_exit_code (tr_cache (run_runner r')) = code) r.
Proof.
  intros Ho. pose proof (persist_state_framed o r) as Hframed. unfold wp in Hframed |- *. split; [exact Hframed|].
  intros code. unfold persist_state, get_exec_output. destruct (op_meta o); try done. cbn.
  unfold mbind, stateful_bind, modify, on_world. cbn.
  destruct (fs_write_file _ _ (run_world r)) as [[[]|e|] w1]; cbn; [|done..].
  destruct (fs_write_file _ _ w1) as [[[]|e|] w2]; cbn; [|done..]. intros _ Hcode. by rewrite Hcode.
Qed.

(** The task has nothing to run, or its command succeeded. *)
Definition ran (ops : OperationList) : Prop :=
  is_no_op task = true ∧ mkOperation NoOperation Passed ∈ ops ∨
  ∃ o, get_last_execution ops = Some o ∧ op_status o = Passed.

Definition skipped_execution : Operation := mkOperation (TaskExecution no_output) Skipped.

Record executed r (a : result unit) r' : Prop := {
  ex_states : ctx_target_states (run_context r') = ctx_target_states (run_context r);
  ex_outcome :
    let hash := ri_hash (tr_report (run_runner r)) in
    let target := st_target (tr_state (run_runner r')) in
    match a with
    | Ok _ =>
        target = Some (from_hash hash) ∧ ran (tr_operations (run_runner r')) ∨
        target = Some (TSkippedConditional (default "passthrough"%string hash)) ∧
        last (tr_operations (run_runner r')) = Some skipped_execution
    | _ => target = st_target (tr_state (run_runner r)) ∨ target = Some TFailed
    end;
  ex_recorded : get_last_execution (tr_operations (run_runner r)) = None → exit_recorded r';
}.

Lemma framed_executed r a r' : framed r r' → (∀ x, a ≠ Ok x) → executed r a r'.
Proof.
  intros Hframed Ha. pose proof Hframed as [Htarget _ Hstates _]. split; [done| |].
  - destruct a as [x| |]; [by destruct (Ha x)|by left..].
  - intros Hnone. apply unexecuted_recorded. by rewrite (fr_last _ _ Hframed).
Qed.

Hypothesis Hend : processes_end.

Lemma TaskExecutor_attempted context node command report w :
  ∃ res report' w',
    TaskExecutor_execute task context node command report w = (Ok (res, report'), w') ∧
    attempted (as_u8 (o_retry_count (t_options task) + 1)) (ri_hash report) (er_attempts res) res report'.
Proof.
  unfold TaskExecutor_execute.
  destruct (execute_attempts_attempted (S (as_u8 (o_retry_count (t_options task) + 1))) command
    (ActionNode_is_interactive node || is_interactive task) 1 (as_u8 (o_retry_count (t_options task) + 1)) []
    (prepare_report task context (as_u8 (o_retry_count (t_options task) + 1)) report) w)
    as (a & res & report' & w' & Hrun & Ha); [done|lia|lia|done..|].
  exists res, report', w'. rewrite (at_attempts _ _ _ _ _ Ha). done.
Qed.

(** The end of [TaskRunner::execute], after the command. *)
Lemma finish_execute r res total hash report r1 :
  attempted total hash (er_attempts res) res report → framed r r1 →
  hash = ri_hash (tr_report (run_runner r)) →
  (∀ o code, get_last_execution (er_attempts res) = Some o → get_exec_output o ≫= out_exit_code = Some code →
    cs_exit_code (tr_cache (run_runner r1)) = code) →
  wp (modify (push_operations (er_attempts res));; set_target (er_run_state res);;
      match er_error res with
      | Some error => pure_result (Err error)
      | None =>
          r ← get_run;
          match get_last_execution (tr_operations (run_runner r)) with
          | Some last_attempt =>
              if Operation_has_failed last_attempt then
                pure_result (Err (RTaskRunner (RunFailed (Target.id (t_target task))
                  (ExitNonZero (ta_value (t_command task)) (get_exec_output_status last_attempt)
                     (get_exec_output last_attempt ≫= out_exit_code)))))
              else mret tt
          | None => mret tt
          end
      end) (executed r) r1.
Proof.
  intros [_ _ _ _ Hexec (earlier & o & Happ & _ & Hcase)] [Htarget _ Hstates _] -> Hexit.
  apply wp_bind, wp_modify, wp_bind, wp_modify.
  assert (is_task_execution (op_meta o) = true) as Ho.
  { rewrite Happ in Hexec. apply Forall_app in Hexec as [_ Hexec]. by apply Forall_inv in Hexec. }
  assert (get_last_execution (tr_operations (run_runner r1) ++ er_attempts res)%list = Some o) as Hlast
    by (by rewrite Happ, app_assoc, (get_last_execution_snoc _ _ Ho)).
  assert (exit_recorded (mkRun (set_run_state (state_target (Some (er_run_state res))
      (tr_state (push_operations (er_attempts res) (run_runner r1)))) (push_operations (er_attempts res) (run_runner r1)))
      (run_context r1) (run_world r1))) as Hrecorded.
  { intros o' code. cbn [run_runner set_run_state push_operations tr_operations tr_cache]. rewrite Hlast. intros [= <-].
    apply Hexit. by rewrite Happ, (get_last_execution_snoc _ _ Ho). }
  destruct Hcase as [(Hstate & -> & Hpassed)|(Hstate & Hfailed & _)].
  - apply wp_bind, wp_get_run. cbn [run_runner set_run_state push_operations tr_operations].
    rewrite Hlast. unfold Operation_has_failed. rewrite Hpassed. apply wp_ret. split; [done| |done]. cbn. left.
    split; [by rewrite Hstate|]. right. by exists o.
  - assert (∀ e, executed r (Err e) (mkRun (set_run_state (state_target (Some (er_run_state res))
      (tr_state (push_operations (er_attempts res) (run_runner r1)))) (push_operations (er_attempts res) (run_runner r1)))
      (run_context r1) (run_world r1))) as Hdone.
    { intros e. split; [done| |done]. cbn. right. by rewrite Hstate. }
    destruct (er_error res) as [e|]; [apply wp_pure, Hdone|].
    apply wp_bind, wp_get_run. cbn [run_runner set_run_state push_operations tr_operations].
    rewrite Hlast, Hfailed. apply wp_pure, Hdone.
Qed.

Lemma TaskRunner_execute_wp node r : wp (TaskRunner_execute task node) (executed r) r.
Proof.
  unfold TaskRunner_execute. destruct (is_no_op task) eqn:Hnoop.
  { unfold skip_no_op. apply wp_bind, wp_get_run, wp_bind, wp_modify, wp_modify. split; [done| |].
    - cbn. left. split; [done|]. left. split; [done|]. apply elem_of_app. right. by left.
    - intros Hnone. apply unexecuted_recorded. cbn [run_runner set_run_state push_operations tr_operations].
      by rewrite get_last_execution_app. }
  apply wp_bind. eapply wp_mono; [apply execute_checks_framed|].
  intros [skipped|e|] r1 F1; [|by apply framed_executed..]. destruct skipped.
  { unfold skip_conditional. apply wp_bind, wp_get_run, wp_bind, wp_modify, wp_modify.
    pose proof F1 as [Ht Hh Hs _]. split; [done| |].
    - cbn. right. rewrite Hh. split; [done|]. apply last_snoc.
    - intros _ o code. cbn [run_runner set_run_state push_operations tr_operations].
      rewrite get_last_execution_snoc by done. by intros [= <-]. }
  apply wp_bind, wp_get_run, wp_bind. eapply wp_mono; [apply on_world_framed|].
  intros [command|e|] r2 F2; [|apply framed_executed; [by etrans|done]..].
  apply wp_bind. eapply wp_mono; [apply acquire_mutex_framed|].
  assert (framed r r2) as F by (by etrans). clear F1 F2 r1.
  intros [[]|e|] r3 F3; [|apply framed_executed; [by etrans|done]..].
  apply wp_bind, wp_get_run, wp_bind, wp_on_world.
  destruct (TaskExecutor_attempted (run_context r3) node command (tr_report (run_runner r3)) (run_world r3))
    as (res & report & w & Hrun & Hres). rewrite Hrun. intros a w' [= <- <-].
  apply wp_bind, wp_modify. set (r4 := mkRun _ _ _).
  assert (framed r r3) as F4 by (by etrans).
  assert (framed r r4) as F5.
  { etrans; [exact F4|]. subst r4. split; cbn; [done|by rewrite (at_hash _ _ _ _ _ Hres)|done|].
    exists []. by rewrite app_nil_r. }
  apply wp_bind.
  apply (wp_mono _ (λ a r', framed r4 r' ∧ ∀ o code, a = Ok tt → get_last_execution (er_attempts res) = Some o →
    get_exec_output o ≫= out_exit_code = Some code → cs_exit_code (tr_cache (run_runner r')) = code)).
  { destruct (get_last_execution _) as [o|] eqn:Hlast; [|apply wp_ret; split; [reflexivity|done]].
    eapply wp_mono; [by apply persist_state_exit; eapply get_last_execution_is|].
    intros a r' [? Hexit]. split; [done|]. intros o' code Ha [= <-]. by apply Hexit. }
  intros [[]|e|] r5 [F6 Hexit]; [|apply framed_executed; [by etrans|done]..].
  eapply finish_execute; [exact Hres|by etrans| |naive_solver]. by rewrite (fr_hash _ _ F4).
Qed.

(** *** Archiving and the whole run *)

Definition target_skipped r : bool :=
  match st_target (tr_state (run_runner r)) with Some state => TargetState_is_skipped state | None => false end.

Record archived r (a : result bool) r' : Prop := {
  ar_framed : framed r r';
  ar_cache : tr_cache (run_runner r') = tr_cache (run_runner r);
  ar_skipped : target_skipped r = true → a = Ok false ∧ r' = r;
}.

Lemma TaskRunner_archive_wp hash r : wp (TaskRunner_archive task hash) (archived r) r.
Proof.
  unfold TaskRunner_archive. apply wp_bind, wp_get_run. fold (target_skipped r).
  destruct (target_skipped r) eqn:Hskip; [apply wp_ret; split; [reflexivity|done|done]|].
  apply wp_bind, wp_on_world. intros [[outcome background]|e|] w' _; [|split; [solve_framed|done|congruence]..].
  apply wp_bind, wp_modify.
  destruct outcome; apply wp_bind, wp_modify, wp_ret; (split; [solve_framed|done|congruence]).
Qed.

Lemma ran_framed r r' :
  framed r r' → ran (tr_operations (run_runner r)) → ran (tr_operations (run_runner r')).
Proof.
  intros Hframed [[Hnoop Hin]|(o & Ho & Hpassed)].
  - left. split; [done|]. destruct Hframed as [_ _ _ (added & -> & _)]. apply elem_of_app. by left.
  - right. exists o. by rewrite (fr_last _ _ Hframed).
Qed.

(** The command succeeded, or its outputs were reused. *)
Definition succeeded (ops : OperationList) : Prop := ran ops ∨ ∃ o, o ∈ ops ∧ reused o.

(** How a run ends. *)
Record ended r (a : result (option ContentHash)) r' : Prop := {
  en_states : ctx_target_states (run_context r') = ctx_target_states (run_context r);
  en_outcome :
    let target := st_target (tr_state (run_runner r')) in
    let ops := tr_operations (run_runner r') in
    match a with
    | Ok None => target = Some TSkipped ∧ ops = (tr_operations (run_runner r) ++ [skipped_execution])%list
    | Ok (Some hash) =>
        target = Some (TPassed hash) ∧ succeeded ops ∨
        target = Some (TSkippedConditional hash) ∧ last ops = Some skipped_execution
    | _ => target = None ∨ target = Some TFailed ∨ (∃ hash, target = Some (TPassed hash)) ∧ succeeded ops
    end;
  en_recorded : get_last_execution (tr_operations (run_runner r)) = None → exit_recorded r';
}.

Lemma executed_archived hash r r1 r2 a r3 :
  with_hash hash r r1 → executed r1 (Ok tt) r2 → archived r2 a r3 →
  ended r (match a with Ok _ => Ok (Some hash) | Err e => Err e | OutOfFuel => OutOfFuel end) r3.
Proof.
  intros (_ & Hs1 & Hhash & Hl1) [Hs2 Hcase Hrec] [Hframed Hcache Hskipped]. cbn in Hcase. rewrite Hhash in Hcase.
  pose proof Hframed as [Ht3 _ Hs3 _]. split; [congruence| |].
  2: { intros Hnone o code. rewrite (fr_last _ _ Hframed), Hcache. apply Hrec. by rewrite Hl1. }
  cbn.
  destruct Hcase as [[Htarget Hran]|[Htarget Hops]].
  - assert (succeeded (tr_operations (run_runner r3))) by (left; by eapply ran_framed).
    rewrite Ht3, Htarget. cbn. destruct a; [by left|right; right; by eauto..].
  - destruct Hskipped as [-> ->]; [by unfold target_skipped; rewrite Htarget|]. by right.
Qed.

Lemma internal_run_wp node r :
  st_target (tr_state (run_runner r)) = None → wp (internal_run task node) (ended r) r.
Proof.
  intros Hnone. unfold internal_run. apply wp_bind, wp_get_run, wp_bind, wp_pure.
  destruct (is_dependencies_complete _ _) as [complete|e|]; [|split; [done|by left|by apply unexecuted_recorded]..].
  destruct complete; cbn [negb].
  2: { apply wp_bind. unfold skip. apply wp_bind, wp_modify, wp_modify, wp_ret. split; [done..|].
       intros _ o code. cbn [run_runner set_run_state push_operations tr_operations].
       rewrite get_last_execution_snoc by done. by intros [= <-]. }
  assert (∀ a r', framed r r' → (∀ x, a ≠ Ok x) → ended r a r') as Hframe.
  { intros a r' Hf Ha. pose proof Hf as [Ht _ Hs _]. split; [done| |].
    - cbn. rewrite Ht. destruct a as [x| |]; [by destruct (Ha x)|by left..].
    - intros Hlast. apply unexecuted_recorded. by rewrite (fr_last _ _ Hf). }
  apply wp_bind. eapply wp_mono; [apply TaskRunner_hash_wp|]. intros [hash|e|] r1 F1; [|by apply Hframe..].
  assert (∀ r1' a r', with_hash hash r r1' → executed r1' a r' → (∀ x, a ≠ Ok x) →
    ended r (match a with Ok _ => Ok (Some hash) | Err e => Err e | OutOfFuel => OutOfFuel end) r') as Hexec.
  { intros r1' a r' (Ht & Hs & _ & Hl) [Hs' Hcase Hrec] Ha. split; [congruence| |rewrite <- Hl; done].
    cbn in Hcase |- *. rewrite Ht, Hnone in Hcase. destruct a as [x| |]; [by destruct (Ha x)|naive_solver..]. }
  destruct is_cache_enabled.
  - apply wp_bind. eapply wp_mono; [apply TaskRunner_hydrate_wp|].
    assert (∀ r2, framed r1 r2 → with_hash hash r r2) as Hnext.
    { intros r2 Hf. pose proof Hf as [Ht Hh Hs _]. destruct F1 as (? & ? & ? & ?). unfold with_hash.
      rewrite (fr_last _ _ Hf). split_and!; congruence. }
    intros [[]|e|] r2 F2.
    + apply wp_ret. destruct F2 as (Ht & Hs & Hreused & Hl), F1 as (_ & Hs1 & _ & Hl1). split; [congruence| |].
      * cbn. left. split; [done|]. by right.
      * intros Hlast. apply unexecuted_recorded. congruence.
    + apply wp_bind. eapply wp_mono; [apply TaskRunner_execute_wp|]. specialize (Hnext r2 F2).
      intros [[]|e|] r3 F3; [|by apply (Hexec _ _ _ Hnext F3)..].
      apply wp_bind. eapply wp_mono; [apply TaskRunner_archive_wp|]. intros a r4 F4.
      pose proof (executed_archived _ _ _ _ _ _ Hnext F3 F4) as Hend'. by destruct a; [apply wp_ret|..].
    + destruct (Hnext r2 F2) as (Ht & Hs & _ & Hl). split; [done|left; by rewrite Ht|].
      intros Hlast. apply unexecuted_recorded. by rewrite Hl.
    + destruct (Hnext r2 F2) as (Ht & Hs & _ & Hl). split; [done|left; by rewrite Ht|].
      intros Hlast. apply unexecuted_recorded. by rewrite Hl.
  - apply wp_bind. eapply wp_mono; [apply TaskRunner_execute_wp|].
    intros [[]|e|] r3 F3; [|by apply (Hexec _ _ _ F1 F3)..]. apply wp_ret.
    destruct F3 as [Hs3 Hcase Hrec], F1 as (_ & Hs1 & Hhash & Hl). split; [congruence| |rewrite <- Hl; done].
    cbn in Hcase |- *. rewrite Hhash in Hcase. cbn in Hcase. destruct Hcase as [[? ?]|?]; [left|by right]. split; [done|by left].
Qed.

(** What the state of the target says of the result of the run. *)
Definition reported (state : TargetState) (res : TaskRunResult) : Prop :=
  match state with
  | TPassed hash => succeeded (rr_operations res) ∧ (rr_error res = None → rr_hash res = Some hash)
  | TFailed => rr_error res ≠ None
  | TSkipped => res = mkRunResult None None [skipped_execution]
  | TSkippedConditional hash =>
      rr_error res = None ∧ rr_hash res = Some hash ∧ last (rr_operations res) = Some skipped_execution
  | TPassthrough => False
  end.

Lemma get_last_execution_exists ops o :
  get_last_execution ops = Some o → existsb (λ operation, is_task_execution (op_meta operation)) ops = true.
Proof.
  unfold get_last_execution, rfind. intros [Hin Ho]%find_some. apply existsb_exists. exists o. split; [|done].
  by apply list_elem_of_In, elem_of_reverse, list_elem_of_In.
Qed.

Lemma inject_succeeded (t : TaskRunner (R := R)) :
  succeeded (tr_operations t) → succeeded (tr_operations (inject_failed_task_execution task t)).
Proof.
  unfold inject_failed_task_execution. destruct (existsb _ _) eqn:Hexists; [done|].
  intros [[[Hnoop Hin]|(o & Ho & _)]|(o & Hin & Ho)].
  - left; left. split; [done|]. apply elem_of_app. by left.
  - apply get_last_execution_exists in Ho. congruence.
  - right. exists o. split; [apply elem_of_app; by left|done].
Qed.

(** The state of the last run was saved, and the world is as it was left after that. *)
Definition saved (res : TaskRunResult) (w' : World R) : Prop :=
  ∃ cache w, CacheItem_save (last_run_path (t_target task)) cache w = (Ok tt, w') ∧
    ∀ o code, get_last_execution (rr_operations res) = Some o → get_exec_output o ≫= out_exit_code = Some code →
      (0 <= code)%Z → cs_exit_code cache = code.

Lemma inject_recorded (t : TaskRunner (R := R)) o code :
  get_last_execution (tr_operations (inject_failed_task_execution task t)) = Some o →
  get_exec_output o ≫= out_exit_code = Some code → (0 <= code)%Z → get_last_execution (tr_operations t) = Some o.
Proof.
  unfold inject_failed_task_execution. destruct (existsb _ _); [done|].
  cbn [push_operations tr_operations]. rewrite get_last_execution_snoc by done. intros [= <-] [= <-]. lia.
Qed.

Lemma TaskRunner_run_wp node r :
  st_target (tr_state (run_runner r)) = None → tr_operations (run_runner r) = [] →
  wp (TaskRunner_run task node) (λ a r', match a with
    | Ok res => saved res (run_world r') ∧ ∃ state, reported state res ∧
        ctx_target_states (run_context r') =
          match ctx_target_states (run_context r) !! t_target task with
          | Some _ => ctx_target_states (run_context r)
          | None => <[t_target task := state]> (ctx_target_states (run_context r))
          end
    | _ => True
    end) r.
Proof.
  intros Hnone Hops. unfold TaskRunner_run. apply wp_bind, wp_get_run, wp_bind, wp_modify, wp_bind.
  apply wp_attempt. eapply wp_mono; [by apply internal_run_wp|]. intros a r2 [Hstates Hcase Hrec].
  cbn in Hstates, Hcase. specialize (Hrec ltac:(cbn; by rewrite Hops)).
  apply wp_bind, wp_get_run, wp_bind, wp_modify, wp_bind, wp_on_world.
  intros [[]|e|] w' Hsave; [|done..]. destruct a as [maybe|e|]; [| |done].
  - apply wp_bind. unfold finish_target. apply wp_bind, wp_get_run, wp_bind, wp_modify.
    unfold wp, in_context, set_target_state. cbn -[get_last_execution]. rewrite Hstates. split.
    { eexists _, _. split; [exact Hsave|]. cbn. intros o code Ho Hcode _. by eapply Hrec. }
    eexists. split; [|by destruct (ctx_target_states (run_context r) !! t_target task)].
    destruct maybe as [hash|]; [destruct Hcase as [[-> ?]|[-> ?]]|destruct Hcase as [-> Heq]]; cbn; [done|done|].
    by rewrite Heq, Hops.
  - apply wp_bind. unfold finish_target. apply wp_bind, wp_get_run, wp_bind, wp_modify.
    unfold wp, in_context, set_target_state. cbn -[get_last_execution inject_failed_task_execution]. rewrite Hstates. split.
    { eexists _, _. split; [exact Hsave|]. cbn -[get_last_execution inject_failed_task_execution].
      intros o code Ho Hcode Hpos. eapply Hrec; [|done]. by eapply inject_recorded in Ho. }
    eexists. split; [|by destruct (ctx_target_states (run_context r) !! t_target task)].
    destruct Hcase as [->|[->|[[hash ->] Hs]]]; cbn -[inject_failed_task_execution]; [done|done|].
    split; [|done]. by apply inject_succeeded.
Qed.
End Steps.
