(* ===== verification/TaskRunnerExamples.v ===== *)
(** * A small workspace to run tasks in

The services of the runner on a workspace with one source file.  The remote
state is the list of commands that ran. *)

From stdpp Require Import pretty.
From S2P Require Import Prelude Errors FileSystem Target GraphUtils Shapes Config Affected ActionContext Action.
From S2P Require Import Blobs Manifest CacheStorage CacheExamples TasksBuilder TaskRunner.

#[local] Open Scope string_scope.

Definition example_root : Path := ["/"; "w"].
Definition source_file : Path := ["/"; "w"; "src"].
Definition gate_file : Path := ["/"; "w"; "gate"].
Definition output_path : Path := ["/"; "w"; "out"].
Definition cache_dir : Path := ["/"; "w"; ".moon"; "cas"].

#[export] Instance TaskRunCacheState_eq_dec : EqDecision TaskRunCacheState.
Proof. solve_decision. Defined.

#[export] Instance TaskRunCacheState_countable : Countable TaskRunCacheState.
Proof.
  refine (inj_countable' (λ s, (cs_exit_code s, cs_hash s, cs_last_run_time s, cs_target s))
    (λ '(c, h, t, g), mkRunCacheState c h t g) _). by intros [].
Defined.

#[export] Instance example_dir_walk : DirWalk := {| walk_dir _ _ := [] |}.

Definition example_storage : LocalStorage := LocalStorage_new cache_dir false true.

Abbreviation Log := (list string).

Definition log_command (command : string) : stateful (World Log) unit := λ w,
  (Ok tt, mkWorld (w_fs w) (w_now w) (command :: w_remote w)).

Definition exits (code : Z) : ProcessOutput := mkOutput (ExitCompleted (Some code)) "" "".

(** [build] copies the source to the output, [flaky] fails twice, [hang] times
    out, and a number is the exit code. *)
Definition example_exec (command : string) (index : nat) : stateful (World Log) (option ProcessOutput) :=
  log_command command;;
  if decide (command = "build") then
    source ← read_file_bytes source_file;
    fs_write_file output_path source;;
    mret (Some (mkOutput (ExitCompleted (Some 0%Z)) "" "built"))
  else if decide (command = "flaky") then mret (Some (exits (if (index <? 3)%nat then 1 else 0)))
  else if decide (command = "hang") then mret None
  else mret (Some (exits (if decide (command = "0") then 0 else 1))).

(** [gate] holds when the gate is there. *)
Definition example_check (script : string) : stateful (World Log) (option ProcessOutput) :=
  with_state (λ w,
    if decide (script = "gate") then
      mret (Some (exits (if path_exists (w_fs w) gate_file then 0 else 1)))
    else if decide (script = "hang") then mret None
    else mret (Some (exits (if decide (script = "0") then 0 else 1)))).

#[export] Instance example_host : RunnerHost Log := {|
  rh_workspace_root := example_root;
  rh_states_dir := ["/"; "w"; ".moon"; "states"];
  rh_hashes_dir := ["/"; "w"; ".moon"; "hashes"];
  rh_outputs_dir := ["/"; "w"; ".moon"; "outputs"];
  rh_storage := mkStorage [local_backend example_storage] [] (mkStorageOptions [] true true);
  rh_cas_outputs_cache := true;
  rh_cache_mode := CacheReadWrite;
  rh_vcs_enabled := true;
  rh_is_ci := false;
  Command := string;
  command_line c := c;
  state_to_json := text_of;
  state_from_json := of_text;
  walk_globs _ _ := Ok [];
  globset_new _ := Ok tt;
  globset_matches _ _ := false;
  parse_lifetime _ := Ok 3600000000000%Z;
  hash_task_contents _ _ := source ← read_file_bytes source_file; mret [source];
  fingerprint_to_json f := str_join "," (map_to_list f).*1;
  build_command _ node _ := mret (match node with RunTask n => str_join " " (run_args n) | _ => "" end);
  build_check check := mret (TaskCheck_get_script check);
  exec_command c _ _ index _ := example_exec c index;
  exec_check := example_check;
  join_order l := l;
  archive_pack _ _ _ := mret tt;
  archive_unpack _ _ _ := mret tt;
|}.

(** ** Tasks *)

Definition example_target : Target := mkTarget "app:build" PId TId 3.
Definition other_target : Target := mkTarget "lib:build" PId TId 3.

Definition retrying (retry_count : nat) : TaskOptions :=
  let o := TaskOptions_default in
  mkTaskOptions (o_affected_files o) (o_allow_failure o) (o_cache o) (o_cache_key o) (o_cache_lifetime o)
    (o_env_files o) (o_infer_inputs o) (o_internal o) (o_interactive o) (o_merge_args o) (o_merge_checks o)
    (o_merge_deps o) (o_merge_env o) (o_merge_inputs o) (o_merge_outputs o) (o_merge_tags o)
    (o_merge_toolchains o) (o_mutex o) (o_os o) (o_output_style o) (o_persistent o) (o_priority o) retry_count
    (o_run_deps_in_parallel o) (o_run_in_ci o) (o_run_in_sync_phase o) (o_run_from_workspace_root o) (o_shell o)
    (o_timeout o) (o_unix_shell o) (o_windows_shell o).

Definition example_task (checks : list TaskCheck) (deps : list Target) (outputs : list string)
    (options : TaskOptions) : Task :=
  mkTask (TaskArg_new "make") [] checks ((λ d, mkTaskDep [] None [] d None) <$> deps) None [] "build" []
    [] ∅ [] options [] (list_to_map ((λ o, (o, false)) <$> outputs)) [] None None TaskState_default []
    example_target [] TypeBuild.

Definition run_node (command : string) : ActionNode :=
  RunTask (mkRunTask [command] [] false false 0 example_target None).

Definition example_world (source : string) : World Log :=
  mkWorld {[ source_file := FileNode source 420 5 ]} 1000000000000000000 [].
