(* ===== verification/TaskRunnerTheorems.v ===== *)
(** * Properties of the task runner

What the state that a run records for its target means, when a task is skipped,
how often its command is attempted, and when the outcome of one run is reused by
the next. *)

From S2P Require Import Prelude Errors FileSystem Target GraphUtils Shapes Config Affected ActionContext Action.
From S2P Require Import Blobs Manifest CacheStorage CacheFacts CacheExamples TasksBuilder TaskRunner TaskRunnerFacts TaskRunnerExamples.

(** The services of the runner behave as documented: processes end, the checks
    that run in parallel all end, and a saved state is read back. *)
Class RunnerLaws {R} (host : RunnerHost R) : Prop := {
  exec_command_ends : processes_end;
  join_order_permutes : ∀ results, join_order results ≡ₚ results;
  state_json_roundtrip : ∀ state, state_from_json (state_to_json state) = Ok state;
}.

#[export] Instance example_host_laws : RunnerLaws example_host.
Proof.
  split.
  - intros command streamed interactive index total w. cbn. unfold example_exec, mbind, stateful_bind, log_command.
    case_decide; [|by repeat case_decide].
    unfold read_file_bytes. destruct (file_at _ _) as [[[bytes mode] mtime]|]; [|done]. cbn.
    unfold fs_write_file. by destruct (follow _ _).
  - done.
  - intros state. apply of_text_of.
Qed.

#[local] Arguments last_run_path : simpl never.
#[local] Arguments follow : simpl never.

Section Theorems.
Context `{Sha256, RelativePathLib, DirWalk} {R : Type} (host : RunnerHost R) {laws : RunnerLaws host}.
Variable task : Task.

Lemma bind_run {S A B} (m : stateful S A) (k : A → stateful S B) s a s' :
  m s = (Ok a, s') → (m ≫= k) s = k a s'.
Proof. unfold mbind, stateful_bind. by intros ->. Qed.

Lemma TaskRunner_new_runner (w : World R) runner w' :
  TaskRunner_new task w = (Ok runner, w') →
  w' = w ∧ st_target (tr_state runner) = None ∧ tr_operations runner = [] ∧
  ∃ cache, CacheItem_load (last_run_path (t_target task)) w = (Ok cache, w) ∧
    cs_exit_code (tr_cache runner) = cs_exit_code cache ∧ cs_hash (tr_cache runner) = cs_hash cache.
Proof.
  intros Hrun. apply bind_Ok in Hrun as (cache & w1 & Hload & Hrun).
  assert (w1 = w) as ->.
  { unfold CacheItem_load, with_state in Hload. destruct (mode_is_readable _ && _); [|by run_ok].
    apply bind_Ok in Hload as (data & w2 & Hread & Hload). unfold read_file_bytes in Hread. run_ok.
    by destruct (file_at _ _) as [[[]]|]; simplify_eq. }
  cbv zeta in Hrun. run_ok. split_and!; [done..|]. exists cache. split; [done|]. cbn. by case_decide.
Qed.

(** C7: the state that a run records for a target with none says what happened:
    [Passed] only when the command of the task succeeded, its outputs were reused or it has
    nothing to run, and then with the hash of the run; [Failed] only with an
    error; [Skipped] when nothing at all was done; [SkippedConditional] when the last
    operation is a skipped execution.  Other targets keep their state. *)
Theorem run_task_reports context node (w : World R) res context' w' background :
  ctx_target_states context !! t_target task = None →
  run_task task context node w = (Ok res, context', w', background) →
  ∃ state, ctx_target_states context' = <[t_target task := state]> (ctx_target_states context) ∧
    reported task state res.
Proof.
  intros Hfree Hrun. unfold run_task in Hrun. destruct (TaskRunner_new task w) as [[runner| |] w0] eqn:Hnew; [|done..].
  destruct (TaskRunner_new_runner _ _ _ Hnew) as (-> & Hnone & Hops & _).
  pose proof (TaskRunner_run_wp task join_order_permutes exec_command_ends node (mkRun runner context w) Hnone Hops) as Hwp.
  unfold wp in Hwp. destruct (TaskRunner_run task node _) as [a run]. cbn in Hwp. simplify_eq.
  destruct Hwp as (_ & state & Hreported & Hstates). rewrite Hfree in Hstates. eauto.
Qed.

(** *** Reuse *)

(** The state file that a run left is there, unchanged, and no symbolic link. *)
Definition state_unchanged (w w' : World R) : Prop :=
  is_symlink (w_fs w) (last_run_path (t_target task)) = false ∧
  file_at (w_fs w') (last_run_path (t_target task)) = file_at (w_fs w) (last_run_path (t_target task)) ∧
  path_exists (w_fs w') (last_run_path (t_target task)) = true.

Lemma CacheItem_save_load cache (w1 w2 w3 : World R) path :
  rh_cache_mode = CacheReadWrite →
  CacheItem_save path cache w1 = (Ok tt, w2) → is_symlink (w_fs w2) path = false →
  file_at (w_fs w3) path = file_at (w_fs w2) path → path_exists (w_fs w3) path = true →
  CacheItem_load path w3 = (Ok cache, w3).
Proof.
  intros Hmode. unfold CacheItem_save, CacheItem_load, with_state. rewrite Hmode. cbn [mode_is_writable mode_is_readable andb].
  intros Hsave Hlink Hsame ->. unfold fs_write_file in Hsave.
  destruct (follow (w_fs w1) path) as [target|] eqn:Hfollow; [|done]. injection Hsave as <-.
  assert (target = path) as ->.
  { unfold follow, follow_links in Hfollow. unfold is_symlink in Hlink. cbn in Hlink.
    destruct (decide (target = path)) as [|Hne]; [done|]. rewrite lookup_insert_ne in Hlink by done.
    fold follow_links in Hfollow. by destruct (w_fs w1 !! path) as [[]|]; simplify_eq. }
  unfold mbind, stateful_bind, read_file_bytes. rewrite Hsame. cbn.
  rewrite (file_at_file _ path (state_to_json cache) _ (w_now w1)) by apply lookup_insert_eq.
  unfold pure_result. by rewrite state_json_roundtrip.
Qed.

(** A state with a positive exit code hits no cache; and if caches are not read, neither
    does a state with another hash. *)
Lemma is_cached_missed hash r :
  (0 < cs_exit_code (tr_cache (run_runner r)))%Z ∨
  cs_hash (tr_cache (run_runner r)) ≠ hash ∧ mode_is_readable rh_cache_mode = false →
  ∀ from, (is_cached task hash r).1 ≠ Ok (Some from).
Proof.
  intros Hmiss from. unfold is_cached.
  assert (∃ lifetime : result (option Z), (match o_cache_lifetime (t_options task) with
    | Some lifetime => duration ← pure_result (parse_lifetime lifetime); mret (Some duration)
    | None => mret None end : stateful Run (option Z)) r = (lifetime, r)) as [lifetime Hlife].
  { destruct (o_cache_lifetime _) as [life|]; [|by eexists].
    unfold mbind, stateful_bind, pure_result. destruct (parse_lifetime life); by eexists. }
  unfold mbind at 1, stateful_bind at 1. rewrite Hlife. destruct lifetime as [lifetime|e|]; [|done..].
  unfold get_run. unfold mbind at 1, stateful_bind at 1. cbv beta iota zeta.
  assert ((cs_exit_code (tr_cache (run_runner r)) =? 0)%Z &&
    bool_decide (cs_hash (tr_cache (run_runner r)) = hash) = false) as ->.
  { apply andb_false_iff. destruct Hmiss as [Hpos|[Hne _]]; [left; by apply Z.eqb_neq; lia|right].
    by apply bool_decide_eq_false. }
  unfold mbind, stateful_bind, mret, stateful_ret.
  destruct (mode_is_readable rh_cache_mode); cbn [negb]; [|done]. unfold modify.
  destruct Hmiss as [Hpos|[_ ?]]; [|done]. by rewrite (proj2 (Z.ltb_lt 0 _)) by done.
Qed.

(** C14: the outcome of a command that exits with a positive code is not reused, unless
    the cache mode is [read] in both runs, in which no state is written.  In every other
    mode the next run of the task hydrates nothing, whatever its hash is and whatever the
    caches hold, as long as the state file that the failed run wrote is unchanged; in
    [read-write] mode because it starts from the exit code of the failed run, in the
    others because nothing is read. *)
Theorem failed_run_not_reused context node (w : World R) res context' w' background o code :
  rh_cache_mode ≠ CacheRead →
  run_task task context node w = (Ok res, context', w', background) →
  get_last_execution (rr_operations res) = Some o → get_exec_output o ≫= out_exit_code = Some code →
  (0 < code)%Z →
  ∀ (w2 w3 : World R) runner,
    (rh_cache_mode = CacheReadWrite → state_unchanged w' w2) →
    TaskRunner_new task w2 = (Ok runner, w3) →
    (rh_cache_mode = CacheReadWrite → cs_exit_code (tr_cache runner) = code) ∧
    ∀ context2 hash, hash ≠ ""%string →
      (TaskRunner_hydrate task hash (mkRun runner context2 w3)).1 ≠ Ok true.
Proof.
  intros Hread Hrun Ho Hcode Hpos w2 w3 runner Hsame Hnew. unfold run_task in Hrun.
  destruct (TaskRunner_new task w) as [[first| |] w0] eqn:Hfirst; [|done..].
  destruct (TaskRunner_new_runner _ _ _ Hfirst) as (-> & Hnone & Hops & _).
  pose proof (TaskRunner_run_wp task join_order_permutes exec_command_ends node (mkRun first context w) Hnone Hops) as Hwp.
  unfold wp in Hwp. destruct (TaskRunner_run task node _) as [a run]. cbn in Hwp. simplify_eq.
  destruct Hwp as ((cache & w1 & Hsave & Hrec) & _). specialize (Hrec o code Ho Hcode ltac:(lia)).
  destruct (TaskRunner_new_runner _ _ _ Hnew) as (-> & _ & _ & cache' & Hload & Hexit & Hhash).
  assert (rh_cache_mode = CacheReadWrite → cs_exit_code (tr_cache runner) = code) as Hrw.
  { intros Hmode. destruct (Hsame Hmode) as (Hlink & Hfile & Hexists).
    rewrite (CacheItem_save_load _ _ _ _ _ Hmode Hsave Hlink Hfile Hexists) in Hload. congruence. }
  split; [exact Hrw|]. intros context2 hash Hne.
  unfold TaskRunner_hydrate, mbind at 1, stateful_bind at 1.
  assert (∀ from, (is_cached task hash (mkRun runner context2 w2)).1 ≠ Ok (Some from)) as Hmiss.
  { apply is_cached_missed. cbn [run_runner]. destruct (decide (rh_cache_mode = CacheReadWrite)) as [Hmode|Hmode].
    - left. rewrite (Hrw Hmode). lia.
    - right. assert (mode_is_readable rh_cache_mode = false) as Hr by by destruct rh_cache_mode.
      split; [|done]. unfold CacheItem_load, with_state in Hload. rewrite Hr in Hload.
      injection Hload as <-. by rewrite Hhash. }
  destruct (is_cached task hash _) as [[[from|]|e|] r]; cbn in Hmiss |- *; [by destruct (Hmiss from)|done..].
Qed.

(** *** Dependencies *)

(** The first dependency that is not ignored and not complete decides. *)
Lemma dependencies_blocked (context : ActionContext) before dep after :
  (∀ d, d ∈ before → is_dependency_ignored context (t_target task) (dep_target d) = true ∨
    ∃ state, ctx_target_states context !! dep_target d = Some state ∧
      TargetState_is_complete state = true) →
  is_dependency_ignored context (t_target task) (dep_target dep) = false →
  dependencies_complete task context (before ++ dep :: after) =
  match ctx_target_states context !! dep_target dep with
  | Some state =>
      if TargetState_is_complete state then dependencies_complete task context after else Ok false
  | None => Err (RTaskRunner (MissingDependencyHash (Target.id (dep_target dep)) (Target.id (t_target task))))
  end.
Proof.
  intros Hbefore Hdep. induction before as [|d before IH]; cbn [app dependencies_complete].
  { by rewrite Hdep. }
  rewrite IH by (intros; apply Hbefore; by right).
  destruct (Hbefore d ltac:(by left)) as [->|(state & -> & ->)]; [done|].
  by destruct (is_dependency_ignored context (t_target task) (dep_target d)).
Qed.

(** A run, from the end of [internal_run]. *)
Definition start_run (context : ActionContext) (runner : TaskRunner) (w : World R) : Run :=
  mkRun (set_report (mkReportItem (ri_attempt_current (tr_report runner)) (ri_attempt_total (tr_report runner))
    (ri_hash (tr_report runner)) (ri_output_streamed (tr_report runner))
    (is_primary_target context (t_target task))) runner) context w.

Lemma run_task_ends context node (w w' : World R) runner a r :
  TaskRunner_new task w = (Ok runner, w) →
  internal_run task node (start_run context runner w) = (a, r) → a ≠ OutOfFuel →
  let cache := tr_cache (run_runner r) in
  CacheItem_save (last_run_path (t_target task))
    (mkRunCacheState (cs_exit_code cache) (cs_hash cache) (now_millis (run_world r)) (cs_target cache))
    (run_world r) = (Ok tt, w') →
  let state d := match st_target (tr_state (run_runner r)) with Some state => state | None => d end in
  run_task task context node w =
    match a with
    | Ok maybe_hash =>
        (Ok (mkRunResult maybe_hash None (tr_operations (run_runner r))),
         set_target_state (run_context r) (t_target task) (state TPassthrough), w',
         tr_background (run_runner r))
    | Err e =>
        (Ok (mkRunResult None (Some e) (tr_operations (inject_failed_task_execution task (run_runner r)))),
         set_target_state (run_context r) (t_target task) (state TFailed), w',
         tr_background (run_runner r))
    | OutOfFuel => (OutOfFuel, run_context r, w', [])
    end.
Proof.
  intros Hnew Hrun Hfuel cache Hsave state. unfold run_task. rewrite Hnew. unfold TaskRunner_run.
  rewrite (bind_run get_run _ _ _ _ eq_refl). erewrite (bind_run _ _ _ tt (start_run context runner w)) by reflexivity.
  rewrite (bind_run _ _ _ a r) by (unfold attempt; by rewrite Hrun).
  rewrite (bind_run get_run _ _ _ _ eq_refl). erewrite bind_run by reflexivity.
  erewrite bind_run.
  2: { unfold on_world. cbn [run_world run_runner]. fold cache. rewrite Hsave. reflexivity. }
  destruct a as [maybe|e|]; [| |done].
  - reflexivity.
  - unfold finish_target, take_operations, inject_failed_task_execution, mbind, stateful_bind, get_run, modify,
      in_context.
    cbn -[existsb]. by destruct (existsb _ _).
Qed.

(** How a run ends that stops at its dependencies. *)
Definition aborted_execution : Operation :=
  mkOperation (TaskExecution (mkProcessOutput (Some (ta_value (t_command task))) (Some (-1)%Z) None None)) Aborted.

(** The state file is written, if the cache is. *)
Lemma CacheItem_save_writes cache (w : World R) :
  is_symlink (w_fs w) (last_run_path (t_target task)) = false →
  ∃ node, CacheItem_save (last_run_path (t_target task)) cache w =
    (Ok tt, if mode_is_writable rh_cache_mode
            then w_set_fs w (<[last_run_path (t_target task) := node]> (w_fs w)) else w) ∧
    ∃ bytes mode mtime, node = FileNode bytes mode mtime.
Proof.
  intros Hlink.
  assert (follow (w_fs w) (last_run_path (t_target task)) = Some (last_run_path (t_target task))) as Hfollow.
  { unfold follow, follow_links, is_symlink in *. fold follow_links.
    by destruct (w_fs w !! last_run_path (t_target task)) as [[]|]. }
  unfold CacheItem_save, fs_write_file. destruct (mode_is_writable rh_cache_mode).
  - rewrite Hfollow. eexists. split; [reflexivity|by eexists _, _, _].
  - exists (FileNode "" 0 0). split; [done|by eexists _, _, _].
Qed.

Lemma stopped_run context node (w : World R) runner (missing : option Report) :
  is_dependencies_complete task context = match missing with Some e => Err e | None => Ok false end →
  TaskRunner_new task w = (Ok runner, w) →
  is_symlink (w_fs w) (last_run_path (t_target task)) = false →
  ∃ node',
    run_task task context node w =
      (Ok (mkRunResult None missing
         [match missing with Some _ => aborted_execution | None => skipped_execution end]),
       set_target_state context (t_target task) (match missing with Some _ => TFailed | None => TSkipped end),
       if mode_is_writable rh_cache_mode
       then w_set_fs w (<[last_run_path (t_target task) := node']> (w_fs w)) else w, []).
Proof.
  intros Hdeps Hnew Hlink.
  assert (tr_operations runner = [] ∧ tr_background runner = [] ∧ st_target (tr_state runner) = None)
    as (Hops & Hbg & Hnone).
  { unfold TaskRunner_new in Hnew. apply bind_Ok in Hnew as (cache & w1 & _ & Hrun). cbv zeta in Hrun. by run_ok. }
  destruct (CacheItem_save_writes (mkRunCacheState (cs_exit_code (tr_cache runner)) (cs_hash (tr_cache runner))
    (now_millis w) (cs_target (tr_cache runner))) w Hlink) as (node' & Hsave & _). exists node'.
  destruct missing as [e|].
  - rewrite (run_task_ends context node w _ runner (Err e) (start_run context runner w) Hnew) with (3 := Hsave); [|..].
    + unfold inject_failed_task_execution. cbn. rewrite Hops. cbn. by rewrite Hops, Hbg, Hnone.
    + unfold internal_run. rewrite (bind_run get_run _ _ _ _ eq_refl).
      unfold mbind, stateful_bind, pure_result. cbn [run_context start_run]. by rewrite Hdeps.
    + done.
  - assert (∃ r, internal_run task node (start_run context runner w) = (Ok None, r) ∧
      tr_cache (run_runner r) = tr_cache runner ∧ run_world r = w ∧ run_context r = context ∧
      tr_operations (run_runner r) = [skipped_execution] ∧ tr_background (run_runner r) = [] ∧
      st_target (tr_state (run_runner r)) = Some TSkipped) as (r & Hrun & Hc & Hw & Hx & Ho & Hb & Ht).
    { unfold internal_run. rewrite (bind_run get_run _ _ _ _ eq_refl).
      unfold mbind, stateful_bind, pure_result. cbn [run_context start_run]. rewrite Hdeps. cbn [negb].
      eexists. split; [reflexivity|]. cbn. by rewrite Hops, Hbg. }
    rewrite <- Hc in Hsave. destruct Hw.
    rewrite (run_task_ends context node _ _ runner (Ok None) r Hnew Hrun ltac:(done) Hsave).
    by rewrite Ho, Hx, Hb, Ht.
Qed.

(** C19: the first dependency of a task that is neither ignored nor complete decides its
    run.  If it failed or was skipped, the task is skipped: its run succeeds without a hash
    and records [Skipped] for the target.  If nothing was recorded for it, the run reports
    that its hash is missing and records [Failed].  In both cases no command runs, no
    background work is started, and of the files only the state of the task is changed (if
    it is not a symbolic link), in the cache modes that write. *)
Theorem failed_dependency_skips context node (w : World R) runner before dep after :
  t_deps task = (before ++ dep :: after)%list →
  (∀ d, d ∈ before → is_dependency_ignored context (t_target task) (dep_target d) = true ∨
    ∃ state, ctx_target_states context !! dep_target d = Some state ∧
      TargetState_is_complete state = true) →
  is_dependency_ignored context (t_target task) (dep_target dep) = false →
  TaskRunner_new task w = (Ok runner, w) →
  is_symlink (w_fs w) (last_run_path (t_target task)) = false →
  ∃ node',
    let w' := if mode_is_writable rh_cache_mode
              then w_set_fs w (<[last_run_path (t_target task) := node']> (w_fs w)) else w in
    match ctx_target_states context !! dep_target dep with
    | Some state =>
        TargetState_is_complete state = false →
        run_task task context node w =
          (Ok (mkRunResult None None [skipped_execution]),
           set_target_state context (t_target task) TSkipped, w', [])
    | None =>
        run_task task context node w =
          (Ok (mkRunResult None
             (Some (RTaskRunner (MissingDependencyHash (Target.id (dep_target dep)) (Target.id (t_target task)))))
             [aborted_execution]),
           set_target_state context (t_target task) TFailed, w', [])
    end.
Proof.
  intros Hdeps Hbefore Hdep Hnew Hlink.
  pose proof (dependencies_blocked context before dep after Hbefore Hdep) as Hc. rewrite <- Hdeps in Hc.
  destruct (ctx_target_states context !! dep_target dep) as [state|].
  - destruct (TargetState_is_complete state); [by exists (FileNode "" 0 0)|].
    destruct (stopped_run context node w runner None Hc Hnew Hlink) as [node' Hrun]. by exists node'.
  - destruct (stopped_run context node w runner (Some _) Hc Hnew Hlink) as [node' Hrun]. by exists node'.
Qed.

(** *** Attempts *)

(** C20: for a retry count below 255, the largest one (for which the number of attempts
    overflows), the command of a task is attempted until it succeeds, and at most one time
    more than the retry count: every attempt but the last failed, the result is passed exactly
    when the last one succeeded, without an error the task fails only after all attempts,
    and the loop always ends. *)
Theorem TaskExecutor_retries context node command report (w : World R) :
  (o_retry_count (t_options task) < 255)%nat →
  ∃ res report' w',
    TaskExecutor_execute task context node command report w = (Ok (res, report'), w') ∧
    attempted (o_retry_count (t_options task) + 1) (ri_hash report) (er_attempts res) res report'.
Proof.
  intros Hcount. destruct (TaskExecutor_attempted task exec_command_ends context node command report w)
    as (res & report' & w' & Hrun & Hres).
  exists res, report', w'. split; [done|]. unfold as_u8 in Hres. by rewrite Nat.mod_small in Hres by lia.
Qed.

(** The largest retry count wraps around to a single attempt. *)
Lemma retry_count_overflow context node command report (w : World R) :
  o_retry_count (t_options task) = 255 →
  ∃ res report' w',
    TaskExecutor_execute task context node command report w = (Ok (res, report'), w') ∧
    length (er_attempts res) = 1.
Proof.
  intros Hcount. destruct (TaskExecutor_attempted task exec_command_ends context node command report w)
    as (res & report' & w' & Hrun & [_ Hlen _ _ _ _]).
  exists res, report', w'. split; [done|]. rewrite Hcount in Hlen. cbn in Hlen. lia.
Qed.
End Theorems.

(** A flaky command that passes at its third attempt. *)
Definition flaky_task : Task := example_task [] [] [] (retrying 3).
Definition flaky_run := run_task flaky_task ActionContext_default (run_node "flaky") (example_world "abc").

Lemma run_task_reports_witness :
  ∃ res context' w' background,
    run_task flaky_task ActionContext_default (run_node "flaky") (example_world "abc") =
      (Ok res, context', w', background) ∧ length (rr_operations res) = 6 ∧
    ∃ state, ctx_target_states context' = <[t_target flaky_task := state]> (ctx_target_states ActionContext_default) ∧
      reported flaky_task state res.
Proof.
  assert (match flaky_run.1.1.1 with Ok res => Nat.eqb (length (rr_operations res)) 6 | _ => false end = true) as Hok
    by (vm_compute; reflexivity).
  unfold flaky_run in Hok.
  destruct (run_task flaky_task ActionContext_default (run_node "flaky") (example_world "abc"))
    as [[[[res| |] context'] w'] background] eqn:Hrun; cbn in Hok; [|discriminate Hok|discriminate Hok].
  exists res, context', w', background. split; [reflexivity|]. split; [by apply Nat.eqb_eq|].
  exact (run_task_reports example_host flaky_task ActionContext_default (run_node "flaky")
      (example_world "abc") res context' w' background eq_refl Hrun).
Defined.

Lemma TaskExecutor_retries_witness :
  (o_retry_count (t_options flaky_task) < 255)%nat ∧
  ∃ res report' w',
    TaskExecutor_execute flaky_task ActionContext_default (run_node "flaky") "flaky"%string (mkReportItem 0 0 None false false)
      (example_world "abc") = (Ok (res, report'), w') ∧
    attempted (o_retry_count (t_options flaky_task) + 1) None (er_attempts res) res report'.
Proof.
  split; [cbn; lia|]. apply (TaskExecutor_retries example_host flaky_task ActionContext_default (run_node "flaky") "flaky"%string
    (mkReportItem 0 0 None false false) (example_world "abc")). cbn. lia.
Defined.

(** A task that depends on one that failed. *)
Definition dependent_task : Task := example_task [] [other_target] [] (retrying 0).
Definition failed_context : ActionContext := set_target_state ActionContext_default other_target TFailed.

Lemma failed_dependency_skips_witness :
  ∃ node',
    run_task dependent_task failed_context (run_node "build") (example_world "abc") =
      (Ok (mkRunResult None None [skipped_execution]), set_target_state failed_context (t_target dependent_task) TSkipped,
       w_set_fs (example_world "abc") (<[last_run_path (t_target dependent_task) := node']> (w_fs (example_world "abc"))), []).
Proof.
  assert (is_ok (TaskRunner_new dependent_task (example_world "abc")).1 = true) as Hok by (vm_compute; reflexivity).
  destruct (TaskRunner_new dependent_task (example_world "abc")) as [[runner| |] w] eqn:Hnew; cbn in Hok; [|done..].
  destruct (TaskRunner_new_runner example_host dependent_task _ _ _ Hnew) as (-> & _).
  destruct (failed_dependency_skips example_host dependent_task failed_context (run_node "build")
    (example_world "abc") runner [] (mkTaskDep [] None [] other_target None) []) as [node' Hrun].
  - reflexivity.
  - intros d Hd. exfalso. exact (not_elem_of_nil d Hd).
  - vm_compute. reflexivity.
  - exact Hnew.
  - vm_compute. reflexivity.
  - exists node'. cbn [dep_target] in Hrun.
    change (ctx_target_states failed_context !! other_target) with (Some TFailed) in Hrun.
    exact (Hrun eq_refl).
Defined.

(** A command that fails, and the next run of the task in the world that it left. *)
Definition failing_task : Task := example_task [] [] [] (retrying 0).

Lemma failed_run_not_reused_witness :
  ∃ res context' w' background runner,
    run_task failing_task ActionContext_default (run_node "1") (example_world "abc") =
      (Ok res, context', w', background) ∧
    TaskRunner_new failing_task w' = (Ok runner, w') ∧ cs_exit_code (tr_cache runner) = 1%Z ∧
    ∀ context2 hash, hash ≠ ""%string →
      (TaskRunner_hydrate failing_task hash (mkRun runner context2 w')).1 ≠ Ok true.
Proof.
  set (run := run_task failing_task ActionContext_default (run_node "1") (example_world "abc")).
  assert (match run.1.1.1 with
    | Ok res => bool_decide ((get_last_execution (rr_operations res) ≫= get_exec_output) ≫= out_exit_code = Some 1%Z)
    | _ => false end = true) as Hok by (vm_compute; reflexivity).
  assert (is_symlink (w_fs run.1.2) (last_run_path (t_target failing_task)) = false) as Hlink by (vm_compute; reflexivity).
  assert (path_exists (w_fs run.1.2) (last_run_path (t_target failing_task)) = true) as Hexists by (vm_compute; reflexivity).
  assert (is_ok (TaskRunner_new failing_task run.1.2).1 = true) as Hnew by (vm_compute; reflexivity).
  destruct run as [[[[res| |] context'] w'] background] eqn:Hrun; cbn in Hok, Hlink, Hexists, Hnew; [|done..].
  destruct (TaskRunner_new failing_task w') as [[runner| |] w3] eqn:Hnew'; cbn in Hnew; [|done..].
  destruct (TaskRunner_new_runner example_host failing_task _ _ _ Hnew') as (-> & _).
  exists res, context', w', background, runner. split; [reflexivity|]. split; [exact Hnew'|].
  apply bool_decide_eq_true in Hok. destruct (get_last_execution (rr_operations res)) as [o|] eqn:Ho; [|done].
  destruct (failed_run_not_reused example_host failing_task ActionContext_default (run_node "1") (example_world "abc")
    res context' w' background o 1%Z ltac:(discriminate) Hrun Ho Hok ltac:(lia) w' w' runner) as [Hcode Hmiss].
  - intros _. split; [exact Hlink|]. split; [reflexivity|exact Hexists].
  - exact Hnew'.
  - split; [exact (Hcode eq_refl)|exact Hmiss].
Defined.

(** ** What the state of a run does not tell *)

(** A task that must create a file, with a command that does not. *)
Definition idle_run :=
  run_task (example_task [] [] ["out"%string] (retrying 0)) ActionContext_default (run_node "0") (example_world "abc").

(** A task that fails because its outputs are missing keeps the state [Passed], so that the
    tasks that depend on it are not skipped. *)
Lemma missing_outputs_still_passed :
  (∃ res, idle_run.1.1.1 = Ok res ∧ rr_error res = Some (RTaskRunner (MissingOutputs "app:build"))) ∧
  ∃ hash, ctx_target_states idle_run.1.1.2 !! example_target = Some (TPassed hash).
Proof. split; eexists; [split|]; vm_compute; reflexivity. Qed.

Definition hanging_run :=
  run_task (example_task [CheckRequirement "hang"] [] [] (retrying 0)) ActionContext_default (run_node "0")
    (example_world "abc").

(** A requirement that times out counts as met. *)
Lemma timed_out_requirement_met :
  (∃ res, hanging_run.1.1.1 = Ok res ∧ rr_error res = None ∧
    List.map op_status (rr_operations res) = [Passed; Skipped; TimedOut; Passed; Passed]) ∧
  w_remote hanging_run.1.2 = ["0"%string].
Proof. split; [eexists|]; vm_compute; repeat split. Qed.

(** A task that is skipped while the gate is there. *)
Definition conditional_task : Task := example_task [CheckCondition "gate"] [] [] (retrying 0).

Definition gate_open : World (list string) :=
  w_set_fs (example_world "abc") (<[gate_file := FileNode "" 420 5]> (w_fs (example_world "abc"))).
Definition skipped_run := run_task conditional_task ActionContext_default (run_node "0") gate_open.
Definition unskipped_run :=
  run_task conditional_task ActionContext_default (run_node "0")
    (w_set_fs skipped_run.1.2 (delete gate_file (w_fs skipped_run.1.2))).

(** A run that was skipped by a condition is reused once the condition no longer holds. *)
Lemma conditional_skip_reused :
  (∃ hash, ctx_target_states skipped_run.1.1.2 !! example_target = Some (TSkippedConditional hash)) ∧
  (∃ res, unskipped_run.1.1.1 = Ok res ∧ rr_error res = None ∧
    List.map op_status (rr_operations res) = [Passed; Cached]) ∧
  w_remote unskipped_run.1.2 = [].
Proof. split_and!; [eexists|eexists|]; vm_compute; repeat split. Qed.
