(* ===== verification/TaskRunnerReuse.v ===== *)
(** * Outcomes that are reused though nothing succeeded

A task whose requirement is not met fails before its command runs, but the state that
it saves is the one of a success.  The next run of the task takes it from the cache. *)

From S2P Require Import Prelude Errors FileSystem Target GraphUtils Shapes Config Affected ActionContext Action.
From S2P Require Import Blobs Manifest CacheStorage CacheFacts CacheExamples TasksBuilder TaskRunner TaskRunnerFacts.
From S2P Require Import TaskRunnerExamples TaskRunnerTheorems.

Section Kept.
Context `{Sha256, RelativePathLib, DirWalk} {R : Type} `{RunnerHost R}.
Variable task : Task.
#[local] Abbreviation Run := (@TaskRunner.Run R).
Implicit Types r : Run.

(** What the steps before the command leave alone. *)
Record kept (r r' : Run) : Prop := {
  kp_cache : tr_cache (run_runner r') = tr_cache (run_runner r);
  kp_target : st_target (tr_state (run_runner r')) = st_target (tr_state (run_runner r));
  kp_context : run_context r' = run_context r;
}.

#[export] Instance kept_preorder : PreOrder kept.
Proof. split; [done|]. intros r1 r2 r3 [] []. split; congruence. Qed.

Lemma wp_kept_bind {A B} (m : stateful Run A) (k : A → stateful Run B) r :
  wp m (λ _, kept r) r → (∀ x r', kept r r' → wp (k x) (λ _, kept r') r') →
  wp (m ≫= k) (λ _, kept r) r.
Proof.
  intros Hm Hk. apply wp_bind. eapply wp_mono; [exact Hm|]. intros [x|e|] r' Hr'; [|done..].
  eapply wp_mono; [by apply Hk|]. intros a r'' Hr''. by etrans.
Qed.

Lemma on_world_kept {A} (m : stateful (World R) A) r : wp (on_world m) (λ _, kept r) r.
Proof. by apply wp_on_world. Qed.

Lemma push_kept operations r : wp (modify (push_operations operations)) (λ _, kept r) r.
Proof. by apply wp_modify. Qed.

Lemma fold_kept {A B} (f : B → A → stateful Run B) b l r :
  (∀ b x r, wp (f b x) (λ _, kept r) r) → wp (stateful_fold f b l) (λ _, kept r) r.
Proof.
  intros Hf. apply wp_fold; [|done]. intros b' x r' Hr'. eapply wp_mono; [apply Hf|].
  intros a r'' Hr''. by etrans.
Qed.

Lemma execute_check_kept s result r : wp (execute_check task s result) (λ _, kept r) r.
Proof.
  destruct s as [has all]. unfold execute_check. destruct (cr_error result); [by apply wp_pure|].
  apply wp_kept_bind; [apply push_kept|]. intros _ r' _.
  destruct (cr_check result), (cr_output result) as [output|]; try destruct (Output_success output);
    first [by apply wp_ret|by apply wp_pure].
Qed.

Lemma hash_check_kept fingerprint result r : wp (hash_check task fingerprint result) (λ _, kept r) r.
Proof.
  unfold hash_check. destruct (cr_error result); [by apply wp_pure|].
  apply wp_kept_bind; [apply push_kept|]. intros _ r' _.
  destruct (cr_output result) as [output|]; [|by apply wp_ret].
  destruct (Output_success output), (cr_check result); first [by apply wp_ret|by apply wp_pure].
Qed.

Lemma TaskRunner_hash_kept node r : wp (TaskRunner_hash task node) (λ _, kept r) r.
Proof.
  unfold TaskRunner_hash. apply wp_kept_bind; [by apply wp_get_run|]. intros r0 r1 _.
  apply wp_kept_bind; [apply on_world_kept|]. intros contents r2 _. apply wp_kept_bind.
  { unfold hash_checks. apply wp_kept_bind; [apply on_world_kept|]. intros checks r3 _.
    apply wp_kept_bind; [apply fold_kept, hash_check_kept|]. intros. by apply wp_ret. }
  intros hasher r3 _. apply wp_kept_bind; [apply on_world_kept|]. intros digest r4 _.
  apply wp_kept_bind; [by apply wp_modify|]. intros. by apply wp_ret.
Qed.

(** The checks fail when a requirement is not met, whatever the other results are. *)
Definition unmet (result : CheckExecuteResult) : Prop :=
  cr_error result = None ∧ ∃ script output,
    cr_check result = CheckRequirement script ∧ cr_output result = Some output ∧
    Output_success output = false.

Lemma execute_check_world s result r :
  ∃ a r', execute_check task s result r = (a, r') ∧ a ≠ OutOfFuel ∧ run_world r' = run_world r ∧
    (unmet result → ∃ e, a = Err e).
Proof.
  destruct s as [has all]. unfold execute_check, unmet.
  destruct (cr_error result) as [error|] eqn:He; [eexists _, _; split; [reflexivity|]; naive_solver|].
  unfold mbind, stateful_bind, modify.
  destruct (cr_check result) as [| |] eqn:Hc, (cr_output result) as [output|] eqn:Ho;
    try destruct (Output_success output) eqn:Hs;
    (eexists _, _; split; [reflexivity|]; split_and!; [done|done|]);
    intros (_ & script' & output' & ? & ? & ?); simplify_eq; first [congruence|by eexists].
Qed.

Lemma unmet_fails results s r :
  (∃ result, result ∈ results ∧ unmet result) →
  ∃ e r', stateful_fold (execute_check task) s results r = (Err e, r') ∧ run_world r' = run_world r.
Proof.
  revert s r. induction results as [|x results IH]; intros s r (result & Hin & Hunmet);
    [by apply not_elem_of_nil in Hin|].
  cbn [stateful_fold]. unfold mbind, stateful_bind.
  destruct (execute_check_world s x r) as (a & r1 & -> & Hfuel & Hworld & Hx).
  destruct a as [s'|e|]; [|by eauto|done].
  destruct (IH s' r1) as (e & r2 & Hr2 & Hw2); [|exists e, r2; split; [done|congruence]].
  apply elem_of_cons in Hin as [<-|Hin]; [|by eauto]. by destruct (Hx Hunmet).
Qed.

Lemma execute_checks_unmet r results w :
  ChecksRunner_execute task (λ check, negb (is_fingerprint check)) (run_world r) = (Ok results, w) →
  (∃ result, result ∈ results ∧ unmet result) →
  ∃ e r', execute_checks task r = (Err e, r') ∧ kept r r' ∧ run_world r' = w.
Proof.
  intros Hrun Hunmet. set (r1 := mkRun (run_runner r) (run_context r) w).
  destruct (unmet_fails results (false, true) r1 Hunmet) as (e & r2 & Hfold & Hw).
  pose proof (fold_kept (execute_check task) (false, true) results r1 execute_check_kept) as Hk.
  unfold wp in Hk. rewrite Hfold in Hk. exists e, r2. split_and!; [|by destruct Hk; split|done].
  unfold execute_checks, mbind, stateful_bind, on_world. rewrite Hrun. fold r1. by rewrite Hfold.
Qed.

(** Looking for a cached outcome leaves the hash in the state of the run, whatever it
    finds, and keeps its exit code. *)
Record looked_up (hash : string) r r' : Prop := {
  lu_exit : cs_exit_code (tr_cache (run_runner r')) = cs_exit_code (tr_cache (run_runner r));
  lu_hash : cs_hash (tr_cache (run_runner r')) = hash;
  lu_target : st_target (tr_state (run_runner r')) = st_target (tr_state (run_runner r));
  lu_context : run_context r' = run_context r;
}.

Lemma looked_up_kept hash r r1 r2 : looked_up hash r r1 → kept r1 r2 → looked_up hash r r2.
Proof. intros [] []. split; congruence. Qed.

Lemma is_cached_looked_up hash r :
  mode_is_readable rh_cache_mode = true →
  wp (is_cached task hash) (λ a r', match a with Ok _ => looked_up hash r r' | _ => True end) r.
Proof.
  intros Hmode. unfold is_cached. apply wp_bind.
  apply (wp_mono _ (λ _ r', r' = r)).
  { destruct (o_cache_lifetime _) as [life|]; [|by apply wp_ret].
    apply wp_bind, wp_pure. by destruct (parse_lifetime life). }
  intros [lifetime|e|] r0 ->; [|done..]. apply wp_bind, wp_get_run, wp_bind.
  apply (wp_mono _ (λ a r', kept r r' ∧ (a = Ok true → cs_hash (tr_cache (run_runner r)) = hash))).
  { destruct ((_ =? 0)%Z && bool_decide _) eqn:Hprev; [|by apply wp_ret].
    apply andb_true_iff in Hprev as [_ Hhash%bool_decide_eq_true]. by apply wp_on_world. }
  intros [previous|e|] r1 [K1 Hhash]; [|done..]. destruct previous.
  { apply wp_ret. destruct K1 as [Hc Ht Hx]. split; [by rewrite Hc|rewrite Hc; by apply Hhash|done|done]. }
  rewrite Hmode. cbn [negb]. apply wp_bind, wp_modify. set (r2 := mkRun _ _ _).
  assert (looked_up hash r r2) as L2 by (destruct K1 as [Hc Ht Hx]; by split).
  clearbody r2. eapply (wp_mono _ (λ _, kept r2)).
  2: { intros [x|e|] r3 K3; [by eapply looked_up_kept|done..]. }
  destruct (0 <? _)%Z; [by apply wp_ret|]. destruct (is_cache_stale _ _ _); [by apply wp_ret|].
  apply wp_kept_bind.
  { destruct (path_exists _ _); [|by apply wp_ret]. destruct lifetime; [|by apply wp_ret].
    apply wp_kept_bind; [apply on_world_kept|]. intros. by apply wp_ret. }
  intros fresh r3 _. destruct fresh; [by apply wp_ret|].
  destruct (Digest_is_valid _); [|by apply wp_ret].
  apply wp_kept_bind; [|intros; by apply wp_ret]. apply wp_attempt, on_world_kept.
Qed.

Lemma TaskRunner_hydrate_missed hash r r' :
  mode_is_readable rh_cache_mode = true →
  TaskRunner_hydrate task hash r = (Ok false, r') → looked_up hash r r'.
Proof.
  intros Hmode Hrun.
  enough (wp (TaskRunner_hydrate task hash)
    (λ a r', match a with Ok false => looked_up hash r r' | _ => True end) r) as Hwp
    by (unfold wp in Hwp; by rewrite Hrun in Hwp).
  unfold TaskRunner_hydrate. apply wp_bind. eapply wp_mono; [by apply is_cached_looked_up|].
  intros [[from|]|e|] r1 L1; [| |done..].
  2: { apply wp_bind, wp_modify, wp_ret. by eapply looked_up_kept. }
  apply wp_bind, wp_get_run, wp_bind, wp_on_world. intros [[outcome background]|e|] w' _; [|done..].
  apply wp_bind, wp_modify. destruct outcome as [| | |manifest is_remote].
  1, 2: apply wp_bind, wp_modify, wp_ret; by eapply looked_up_kept.
  - apply wp_bind, wp_get_run, wp_bind, wp_on_world. intros [stderr|e|] w1 _; [|done..].
    apply wp_bind, wp_on_world. intros [stdout|e|] w2 _; [|done..].
    by apply wp_bind, wp_modify, wp_bind, wp_modify, wp_ret.
  - apply wp_bind. apply (wp_mono _ (λ _ _, True)); [done|]. intros [[]|e|] r2 _; [|done..].
    by apply wp_bind, wp_modify, wp_bind, wp_modify, wp_ret.
Qed.
End Kept.

Section Reuse.
Context `{Sha256, RelativePathLib, DirWalk} {R : Type} (host : RunnerHost R) {laws : RunnerLaws host}.
Variable task : Task.

(** A run up to a requirement that is not met. *)
Record stopped_at_requirement (context : ActionContext) (node : ActionNode) (w : World R) (hash : string)
    (w' : World R) : Prop := {
  sr_run : ∃ runner r1 r2 results,
    TaskRunner_new task w = (Ok runner, w) ∧ cs_exit_code (tr_cache runner) = 0%Z ∧
    is_dependencies_complete task context = Ok true ∧
    TaskRunner_hash task node (start_run task context runner w) = (Ok hash, r1) ∧
    TaskRunner_hydrate task hash r1 = (Ok false, r2) ∧
    ChecksRunner_execute task (λ check, negb (is_fingerprint check)) (run_world r2) = (Ok results, w') ∧
    (∃ result, result ∈ results ∧ unmet result) ∧
    is_symlink (w_fs w') (last_run_path (t_target task)) = false;
}.

(** A run of the task whose hash is [hash], with its outputs and logs in place. *)
Record same_again (context : ActionContext) (node : ActionNode) (w : World R) (hash : string)
    (w' : World R) : Prop := {
  sa_run : ∃ runner r,
    TaskRunner_new task w = (Ok runner, w) ∧ is_dependencies_complete task context = Ok true ∧
    TaskRunner_hash task node (start_run task context runner w) = (Ok hash, r) ∧ run_world r = w' ∧
    (has_outputs_been_created task true w').1 = Ok true ∧
    is_ok (read_log (stderr_path (t_target task)) w').1 = true ∧
    is_ok (read_log (stdout_path (t_target task)) w').1 = true ∧
    is_symlink (w_fs w') (last_run_path (t_target task)) = false;
}.

(** Looking at outputs and logs changes nothing. *)
Lemma has_outputs_world bypass (w : World R) :
  has_outputs_been_created task bypass w = ((has_outputs_been_created task bypass w).1, w).
Proof.
  unfold has_outputs_been_created, with_state, get_output_files, with_state, mbind, stateful_bind,
    pure_result, mret, stateful_ret.
  repeat case_match; simplify_eq/=; done.
Qed.

Lemma read_log_world path (w : World R) : read_log path w = ((read_log path w).1, w).
Proof.
  unfold read_log, with_state, read_file_bytes, mbind, stateful_bind, mret, stateful_ret.
  repeat case_match; simplify_eq/=; done.
Qed.

Hypothesis Henabled : is_cache_enabled task = true.
Hypothesis Hmode : rh_cache_mode = CacheReadWrite.

Lemma new_runner_target (w : World R) runner :
  TaskRunner_new task w = (Ok runner, w) → st_target (tr_state runner) = None ∧ tr_operations runner = [].
Proof. intros Hnew. by destruct (TaskRunner_new_runner host task _ _ _ Hnew) as (_ & ? & ? & _). Qed.

(** What the first run leaves behind. *)
Lemma requirement_run context node (w : World R) hash w1 :
  is_no_op task = false → stopped_at_requirement context node w hash w1 →
  ∃ res cache w' background,
    run_task task context node w = (Ok res, set_target_state context (t_target task) TFailed, w', background) ∧
    rr_hash res = None ∧ is_Some (rr_error res) ∧
    CacheItem_save (last_run_path (t_target task)) cache w1 = (Ok tt, w') ∧
    cs_exit_code cache = 0%Z ∧ cs_hash cache = hash ∧
    is_symlink (w_fs w') (last_run_path (t_target task)) = false.
Proof.
  intros Hnoop [(runner & r1 & r2 & results & Hnew & Hexit & Hdeps & Hhash & Hmiss & Hchecks & Hunmet & Hlink)].
  destruct (new_runner_target w runner Hnew) as [Hnone _].
  pose proof (TaskRunner_hash_kept task node (start_run task context runner w)) as K1.
  unfold wp in K1. rewrite Hhash in K1. destruct K1 as [Hc1 Ht1 Hx1]. cbn in Hc1, Ht1, Hx1.
  destruct (TaskRunner_hydrate_missed task hash r1 r2) as [He2 Hh2 Ht2 Hx2]; [by rewrite Hmode|done|].
  destruct (execute_checks_unmet task r2 results w1 Hchecks Hunmet) as (e & r3 & Hexec & [Hc3 Ht3 Hx3] & Hw3).
  assert (internal_run task node (start_run task context runner w) = (Err e, r3)) as Hrun.
  { unfold internal_run. rewrite (bind_run get_run _ _ _ _ eq_refl).
    erewrite bind_run by (unfold pure_result; cbn [start_run run_context]; by rewrite Hdeps). cbn [negb].
    rewrite (bind_run _ _ _ _ _ Hhash), Henabled, (bind_run _ _ _ _ _ Hmiss).
    unfold mbind at 1, stateful_bind at 1, TaskRunner_execute. rewrite Hnoop.
    unfold mbind at 1, stateful_bind at 1. by rewrite Hexec. }
  pose proof (CacheItem_save_writes host task (mkRunCacheState (cs_exit_code (tr_cache (run_runner r3)))
    (cs_hash (tr_cache (run_runner r3))) (now_millis (run_world r3)) (cs_target (tr_cache (run_runner r3))))
    (run_world r3)) as Hsave. rewrite Hw3 in Hsave.
  destruct (Hsave Hlink) as (node' & Hsaved & bytes & mode & mtime & ->). rewrite Hmode in Hsaved. cbn in Hsaved.
  rewrite <- Hw3 in Hsaved.
  rewrite (run_task_ends host task context node w _ runner (Err e) r3 Hnew Hrun ltac:(done) Hsaved).
  eexists _, _, _, _. split_and!.
  - by rewrite Ht3, Ht2, Ht1, Hx3, Hx2, Hx1, Hnone.
  - done.
  - by eexists.
  - rewrite <- Hw3. exact Hsaved.
  - cbn. by rewrite Hc3, He2, Hc1.
  - cbn. by rewrite Hc3.
  - unfold is_symlink. cbn. by rewrite lookup_insert_eq.
Qed.

(** C40: in a cache that is read and written, a task whose requirement check fails is
    reported as failed, without a hash; but if its last exit code was 0 (or it never ran), it
    leaves a state that the next run takes for a success.  A later run with the same hash and
    that state file, whose outputs are in place, is reported as passed with the hash, without
    an error: neither the requirement is checked again nor the command run, so that the
    world is as after the hash, apart from the state file. *)
Theorem unmet_requirement_reused context node (w : World R) hash w1 :
  is_no_op task = false → o_cache_lifetime (t_options task) = None →
  stopped_at_requirement context node w hash w1 →
  ∃ res w' background,
    run_task task context node w = (Ok res, set_target_state context (t_target task) TFailed, w', background) ∧
    rr_hash res = None ∧ is_Some (rr_error res) ∧
    ∀ context2 node2 w2 w3,
      state_unchanged host task w' w2 → same_again context2 node2 w2 hash w3 →
      ∃ res2 node' background2,
        run_task task context2 node2 w2 =
          (Ok res2, set_target_state context2 (t_target task) (TPassed hash),
           w_set_fs w3 (<[last_run_path (t_target task) := node']> (w_fs w3)), background2) ∧
        rr_hash res2 = Some hash ∧ rr_error res2 = None ∧
        get_last_execution (rr_operations res2) = None.
Proof.
  intros Hnoop Hlife Hstopped.
  destruct (requirement_run context node w hash w1 Hnoop Hstopped)
    as (res & cache & w' & background & Hrun & Hh & He & Hsave & Hexit & Hhash & Hlink').
  exists res, w', background. split_and!; [done..|]. clear Hrun Hstopped.
  intros context2 node2 w2 w3 (Hlink & Hfile & Hexists)
    [(runner & r & Hnew & Hdeps & Hr & Hw & Hout & [stderr Herr]%is_ok_Ok & [stdout Hstd]%is_ok_Ok & Hlink3)].
  destruct (TaskRunner_new_runner host task _ _ _ Hnew) as (_ & Hnone & Hops & cache' & Hload & Hexit' & Hhash').
  rewrite (CacheItem_save_load host _ _ _ _ _ Hmode Hsave Hlink Hfile Hexists) in Hload. injection Hload as <-.
  pose proof (TaskRunner_hash_kept task node2 (start_run task context2 runner w2)) as K1.
  pose proof (TaskRunner_hash_wp task join_order_permutes node2 (start_run task context2 runner w2)) as F1.
  unfold wp in K1, F1. rewrite Hr in K1, F1. destruct K1 as [Hc1 Ht1 Hx1], F1 as (_ & _ & _ & Hl1).
  cbn in Hc1, Hx1. cbn [start_run set_report run_runner tr_operations snd] in Hl1. rewrite Hops in Hl1. subst w3.
  assert (∃ r4, TaskRunner_hydrate task hash r = (Ok true, r4) ∧ run_world r4 = run_world r ∧
    run_context r4 = context2 ∧ st_target (tr_state (run_runner r4)) = Some (TPassed hash) ∧
    get_last_execution (tr_operations (run_runner r4)) = None)
    as (r4 & Hhit & Hw4 & Hx4 & Ht4 & Hl4).
  { unfold TaskRunner_hydrate. erewrite bind_run.
    2: { unfold is_cached. rewrite Hlife. erewrite bind_run by reflexivity.
         rewrite (bind_run get_run _ _ _ _ eq_refl). cbv zeta.
         rewrite Hc1, Hexit', Hexit, Z.eqb_refl, Hhash', Hhash, bool_decide_eq_true_2 by done. cbn [andb].
         erewrite bind_run by (unfold on_world; rewrite has_outputs_world, Hout; reflexivity).
         reflexivity. }
    unfold is_cache_stale. cbv beta iota. rewrite (bind_run get_run _ _ _ _ eq_refl).
    erewrite bind_run by reflexivity. cbv beta iota. erewrite bind_run by reflexivity. cbv beta iota.
    rewrite (bind_run get_run _ _ _ _ eq_refl).
    erewrite bind_run by (unfold on_world; cbn [run_world]; rewrite read_log_world, Herr; reflexivity).
    erewrite bind_run by (unfold on_world; cbn [run_world]; rewrite read_log_world, Hstd; reflexivity).
    erewrite bind_run by reflexivity. erewrite bind_run by reflexivity.
    eexists. split; [reflexivity|]. cbn -[get_last_execution]. split_and!; [done|done|done|].
    by rewrite get_last_execution_app, Hl1. }
  assert (internal_run task node2 (start_run task context2 runner w2) = (Ok (Some hash), r4)) as Hrun.
  { unfold internal_run. rewrite (bind_run get_run _ _ _ _ eq_refl).
    erewrite bind_run by (unfold pure_result; cbn [start_run run_context]; by rewrite Hdeps). cbn [negb].
    by rewrite (bind_run _ _ _ _ _ Hr), Henabled, (bind_run _ _ _ _ _ Hhit). }
  destruct (CacheItem_save_writes host task (mkRunCacheState (cs_exit_code (tr_cache (run_runner r4)))
    (cs_hash (tr_cache (run_runner r4))) (now_millis (run_world r4)) (cs_target (tr_cache (run_runner r4))))
    (run_world r4)) as (node' & Hsaved & _); [by rewrite Hw4|]. rewrite Hmode in Hsaved. cbn in Hsaved.
  rewrite (run_task_ends host task context2 node2 w2 _ runner (Ok (Some hash)) r4 Hnew Hrun ltac:(done) Hsaved).
  rewrite Ht4, Hx4, Hw4. by eexists _, node', _.
Qed.
End Reuse.

(** ** A requirement that is not met, and the run after it *)

Definition gated_task : Task := example_task [CheckRequirement "gate"] [] [] (retrying 0).
Definition gated_node : ActionNode := run_node "0".

Definition unmetb (result : CheckExecuteResult) : bool :=
  match cr_error result, cr_check result, cr_output result with
  | None, CheckRequirement _, Some output => negb (Output_success output)
  | _, _, _ => false
  end.

(** The hash of a run of the task and the world at the requirement. *)
Definition gated_stop (w : World (list string)) : option (string * World (list string)) :=
  match TaskRunner_new gated_task w with
  | (Ok runner, _) =>
      match TaskRunner_hash gated_task gated_node (start_run gated_task ActionContext_default runner w) with
      | (Ok hash, r1) =>
          match TaskRunner_hydrate gated_task hash r1 with
          | (Ok false, r2) =>
              match ChecksRunner_execute gated_task (λ check, negb (is_fingerprint check)) (run_world r2) with
              | (Ok results, w1) =>
                  if (cs_exit_code (tr_cache runner) =? 0)%Z && existsb unmetb results &&
                     negb (is_symlink (w_fs w1) (last_run_path (t_target gated_task)))
                  then Some (hash, w1) else None
              | _ => None
              end
          | _ => None
          end
      | _ => None
      end
  | _ => None
  end.

Lemma gated_stop_spec w hash w1 :
  gated_stop w = Some (hash, w1) →
  stopped_at_requirement example_host gated_task ActionContext_default gated_node w hash w1.
Proof.
  unfold gated_stop. destruct (TaskRunner_new gated_task w) as [[runner| |] w0] eqn:Hnew; [|discriminate..].
  destruct (TaskRunner_new_runner example_host gated_task _ _ _ Hnew) as (-> & _).
  destruct (TaskRunner_hash gated_task gated_node _) as [[hash'| |] r1] eqn:Hhash; [|discriminate..].
  destruct (TaskRunner_hydrate gated_task hash' r1) as [[[]| |] r2] eqn:Hhyd; [discriminate| |discriminate..].
  destruct (ChecksRunner_execute gated_task _ (run_world r2)) as [[results| |] w1'] eqn:Hchecks; [|discriminate..].
  destruct (_ && _) eqn:Hb; [|discriminate]. intros [= <- <-].
  apply andb_true_iff in Hb as [[He%Z.eqb_eq Hu]%andb_true_iff Hl%negb_true_iff].
  split. exists runner, r1, r2, results. split_and!; [done..|reflexivity|done|done|done| |done].
  apply existsb_exists in Hu as (result & Hin%list_elem_of_In & Hu). exists result. split; [done|].
  unfold unmetb in Hu. unfold unmet.
  destruct (cr_error result), (cr_check result), (cr_output result) as [output|]; try discriminate Hu.
  apply negb_true_iff in Hu. eauto 6.
Qed.

(** The same for a run that finds its outputs and logs. *)
Definition gated_again (w : World (list string)) : option (string * World (list string)) :=
  match TaskRunner_new gated_task w with
  | (Ok runner, _) =>
      match TaskRunner_hash gated_task gated_node (start_run gated_task ActionContext_default runner w) with
      | (Ok hash, r) =>
          let w' := run_world r in
          match (has_outputs_been_created gated_task true w').1 with
          | Ok true =>
              if is_ok (read_log (stderr_path (t_target gated_task)) w').1 &&
                 is_ok (read_log (stdout_path (t_target gated_task)) w').1 &&
                 negb (is_symlink (w_fs w') (last_run_path (t_target gated_task)))
              then Some (hash, w') else None
          | _ => None
          end
      | _ => None
      end
  | _ => None
  end.

Lemma gated_again_spec w hash w1 :
  gated_again w = Some (hash, w1) →
  same_again example_host gated_task ActionContext_default gated_node w hash w1.
Proof.
  unfold gated_again. destruct (TaskRunner_new gated_task w) as [[runner| |] w0] eqn:Hnew; [|discriminate..].
  destruct (TaskRunner_new_runner example_host gated_task _ _ _ Hnew) as (-> & _).
  destruct (TaskRunner_hash gated_task gated_node _) as [[hash'| |] r1] eqn:Hhash; [|discriminate..]. cbv zeta.
  destruct (has_outputs_been_created gated_task true (run_world r1)).1 as [[]| |] eqn:Hout; [|discriminate..].
  destruct (_ && _) eqn:Hb; [|discriminate]. intros [= <- <-].
  apply andb_true_iff in Hb as [[He Ho]%andb_true_iff Hl%negb_true_iff].
  split. exists runner, r1. by split_and!.
Qed.

Definition first_run := run_task gated_task ActionContext_default gated_node (example_world "abc").
Definition second_run := run_task gated_task ActionContext_default gated_node first_run.1.2.

Lemma unmet_requirement_reused_witness :
  ∃ res res2 hash context2 w3 background2,
    first_run.1.1.1 = Ok res ∧ is_Some (rr_error res) ∧
    second_run = (Ok res2, context2, w3, background2) ∧
    context2 = set_target_state ActionContext_default (t_target gated_task) (TPassed hash) ∧
    rr_hash res2 = Some hash ∧ rr_error res2 = None ∧ get_last_execution (rr_operations res2) = None.
Proof.
  assert (match gated_stop (example_world "abc"), gated_again first_run.1.2 with
    | Some (hash, _), Some (hash', _) => bool_decide (hash = hash')
    | _, _ => false end = true) as Hb by (vm_compute; reflexivity).
  assert (is_symlink (w_fs first_run.1.2) (last_run_path (t_target gated_task)) = false) as Hlink
    by (vm_compute; reflexivity).
  assert (path_exists (w_fs first_run.1.2) (last_run_path (t_target gated_task)) = true) as Hexists
    by (vm_compute; reflexivity).
  destruct (gated_stop (example_world "abc")) as [[hash w1]|] eqn:Hstop; [|discriminate Hb].
  destruct (gated_again first_run.1.2) as [[hash' w3]|] eqn:Hagain; [|discriminate Hb].
  apply bool_decide_eq_true in Hb. subst hash'.
  apply gated_stop_spec in Hstop. apply gated_again_spec in Hagain.
  destruct (unmet_requirement_reused example_host gated_task eq_refl eq_refl ActionContext_default gated_node
    (example_world "abc") hash w1 eq_refl eq_refl Hstop) as (res & w' & background & Hrun & _ & Herror & Hnext).
  change (first_run = (Ok res, set_target_state ActionContext_default (t_target gated_task) TFailed, w', background))
    in Hrun.
  assert (first_run.1.2 = w') as Hw by (rewrite Hrun; reflexivity).
  destruct (Hnext ActionContext_default gated_node w' w3) as (res2 & node' & background2 & Hrun2 & Hh & He & Hl).
  - rewrite <- Hw. split; [exact Hlink|]. split; [reflexivity|exact Hexists].
  - rewrite <- Hw. exact Hagain.
  - exists res, res2, hash. eexists _, _, background2.
    split; [rewrite Hrun; reflexivity|]. split; [exact Herror|].
    split; [unfold second_run; rewrite Hw; exact Hrun2|]. split; [reflexivity|].
    split; [exact Hh|]. split; [exact He|exact Hl].
Defined.
