(* ===== verification/OutputTheorems.v ===== *)
(** * Outputs through the cache

The archiver and the hydrater of the task runner together: what one stored, the
other brings back. *)

From S2P Require Import Prelude Errors FileSystem Target GraphUtils Shapes Config Affected ActionContext Action.
From S2P Require Import Blobs Manifest CacheStorage CacheFacts LocalStorageFacts CacheRoundTrip CacheExamples CacheTheorems.
From S2P Require Import TasksBuilder TaskRunner TaskRunnerFacts TaskRunnerExamples.

Section Outputs.
Context `{Sha256, ManifestJson, RelativePathLib, DirWalk} {R : Type} (l : LocalStorage).
Context {LS : Sha256Laws _} {LJ : ManifestJsonLaws _} {LP : RelativePathLaws _}.
Context (host : RunnerHost R) (task : Task).

Abbreviation root := (rh_workspace_root (R := R)).
Abbreviation blobs := (ls_blobs l).
Abbreviation manifests := (ls_manifests l).

(** The root is an absolute path. *)
Hypothesis Hroot : ∃ body, root = "/"%string :: body ∧ Forall plain_part body.
(** The local backend is this cache, and no remote one has its name. *)
Hypothesis Hlocal : local_backends rh_storage = [local_backend l].
Hypothesis Hremote : Forall (λ remote, b_id remote ≠ ls_id l) (remote_backends rh_storage).
Hypothesis Hapart : stores_apart l.
Hypothesis Hverify : verify_integrity manifests = false.
(** The outputs are files. *)
Hypothesis Hglobs : t_output_globs task = [].

(** A file below the root, spelled as the workspace does. *)
Record declared (file : WorkspaceRelativePath) : Prop := {
  de_relative : starts_with "/" file = false;
  de_plain : Forall plain_part (path_components file);
  de_spelled : path_relative_to (root ++ path_components file)%list root = Ok file;
}.

Hypothesis Hdeclared : ∀ file, is_Some (t_output_files task !! file) → declared file.

Definition output_paths : list Path :=
  remove_dups (((λ file, to_logical_path file root) <$> (map_to_list (t_output_files task)).*1) ++ [])%list.

(** The outputs and the stores are apart. *)
Hypothesis Houtside : ∀ path r, path ∈ output_paths →
  path_has_prefix (objects_dir blobs) path = false ∧
  path_has_prefix path (objects_dir blobs ++ r)%list = false ∧
  path_has_prefix path (objects_dir manifests ++ r)%list = false.

Lemma declared_logical file : declared file → to_logical_path file root = (root ++ path_components file)%list.
Proof. intros [Hrel Hplain _]. rewrite to_logical_path_parts by done. apply logical_plain. done. Qed.

Lemma output_paths_declared path :
  path ∈ output_paths ↔ ∃ file, is_Some (t_output_files task !! file) ∧ path = (root ++ path_components file)%list.
Proof.
  unfold output_paths. rewrite elem_of_remove_dups, app_nil_r, list_elem_of_fmap. split.
  - intros (file & -> & Hfile). apply list_elem_of_fmap in Hfile as ([f optional] & -> & Hin%elem_of_map_to_list).
    exists f. split; [by eexists|]. apply declared_logical, Hdeclared. by eexists.
  - intros (file & [optional Hfile] & ->). exists file. split.
    + symmetry. apply declared_logical, Hdeclared. by eexists.
    + apply list_elem_of_fmap. exists (file, optional). split; [done|]. by apply elem_of_map_to_list.
Qed.

Lemma get_output_files_all (w : World R) : get_output_files task true w = (Ok output_paths, w).
Proof. unfold get_output_files, with_state. rewrite Hglobs. reflexivity. Qed.

(** *** Deleting *)

Lemma delete_existing_outputs_gone (w : World R) :
  ∃ w', delete_existing_outputs task w = (Ok tt, w') ∧
    (∀ path, path ∈ output_paths → w_fs w' !! path = None) ∧
    (∀ path node, w_fs w' !! path = Some node → w_fs w !! path = Some node) ∧
    ∀ path, (∀ output, output ∈ output_paths → path_has_prefix output path = false) → w_fs w' !! path = w_fs w !! path.
Proof.
  unfold delete_existing_outputs, mbind, stateful_bind. rewrite get_output_files_all. generalize output_paths. intros outputs.
  revert w. induction outputs as [|output outputs IH]; intros w.
  - exists w. split_and!; [done|by intros ? ?%not_elem_of_nil|done|done].
  - cbn [stateful_fold]. unfold mbind, stateful_bind, attempt, fs_remove. cbn.
    destruct (IH (w_set_fs w (filter (λ kv, path_has_prefix output kv.1 = false) (w_fs w)))) as (w' & Hrun & Hgone & Hsub & Hframe).
    exists w'. split_and!; [done| | |].
    + intros path [->|Hpath]%elem_of_cons; [|by apply Hgone].
      destruct (w_fs w' !! output) as [node|] eqn:E; [|done]. apply Hsub in E. cbn in E.
      apply map_lookup_filter_Some in E as [_ Hprefix]. cbn in Hprefix.
      rewrite (proj2 (path_has_prefix_true _ _)) in Hprefix; [done|]. exists []. by rewrite app_nil_r.
    + intros path node E%Hsub. cbn in E. by apply map_lookup_filter_Some in E as [? _].
    + intros path Hpath. rewrite Hframe by (intros; apply Hpath; by right). cbn.
      destruct (w_fs w !! path) as [node|] eqn:E.
      * apply map_lookup_filter_Some. split; [done|]. cbn. apply Hpath. by left.
      * apply map_lookup_filter_None. by left.
Qed.

(** *** Packing *)

(** Captured output with its digest. *)
Definition packed_stdio (bytes : option string) (digest : option Digest) : Prop :=
  digest = (λ b, mkDigest (sha256 b) (Z.of_nat (String.length b))) <$> bytes.

Lemma pack_stdio_Ok output : ∃ bytes digest, pack_stdio output = Ok (bytes, digest) ∧ packed_stdio bytes digest.
Proof.
  destruct output as [b|]; [|by eexists _, _]. unfold pack_stdio, Blob_from_bytes. rewrite Digest_from_bytes_Ok. cbn.
  by eexists _, _.
Qed.

Lemma inherit_operation_packed files operation :
  ∃ m, inherit_operation (m_set_files Manifest_default files) operation = Ok m ∧
    m_files m = files ∧ m_symlinks m = [] ∧ m_digest_source m = None ∧
    packed_stdio (m_stderr_bytes m) (m_stderr_digest m) ∧ packed_stdio (m_stdout_bytes m) (m_stdout_digest m).
Proof.
  unfold inherit_operation. destruct (get_exec_output operation) as [exec|]; [|by eexists].
  destruct (pack_stdio_Ok (out_stderr exec)) as (eb & ed & He & Hed).
  destruct (pack_stdio_Ok (out_stdout exec)) as (ob & od & Ho & Hod). rewrite He, Ho. cbn.
  eexists. split; [done|]. unfold packed_stdio in *. subst. by destruct eb, ob.
Qed.

Lemma packed_stdio_input fs bytes digest :
  packed_stdio bytes digest → Forall (input_sound l fs) (option_list (collect_stdio digest bytes)).
Proof. unfold packed_stdio. intros ->. destruct bytes; cbn; by repeat constructor. Qed.

Section Archive.
Context (state : TaskRunState) (w : World R).

Hypothesis Hfiles : ∀ file, is_Some (t_output_files task !! file) → ∃ bytes mode mtime,
  w_fs w !! (root ++ path_components file)%list = Some (FileNode bytes mode mtime).

(** The manifest of the hash, where there is one, is what was hashed. *)
Definition hashed_source : Prop :=
  let path := get_manifest_path (digest_hash (st_digest state)) in
  path_exists (w_fs w) path = true →
  ∃ rest bytes mode mtime, path = (root ++ rest)%list ∧ Forall plain_part rest ∧
    w_fs w !! path = Some (FileNode bytes mode mtime) ∧ path_has_prefix (objects_dir blobs) path = false ∧
    st_digest state = mkDigest (sha256 bytes) (Z.of_nat (String.length bytes)).
Hypothesis Hsource : hashed_source.

Lemma output_paths_files : Forall (output_file root (w_fs w)) output_paths.
Proof.
  apply Forall_forall. intros path (file & Hfile & ->)%output_paths_declared.
  destruct (Hfiles file Hfile) as (bytes & mode & mtime & E). exists (path_components file), bytes, mode, mtime.
  split_and!; [done| |done]. by apply (de_plain _ (Hdeclared file Hfile)).
Qed.

Record packed (m : Manifest) : Prop := {
  pk_files : Forall2 (packs root (w_fs w)) output_paths (m_files m);
  pk_symlinks : m_symlinks m = [];
  pk_stderr : packed_stdio (m_stderr_bytes m) (m_stderr_digest m);
  pk_stdout : packed_stdio (m_stdout_bytes m) (m_stdout_digest m);
  pk_source : Forall (input_sound l (w_fs w)) (option_list (m_digest_source m ≫= collect_file root));
}.

Lemma file_input_sound path f :
  path ∈ output_paths → packs root (w_fs w) path f → ∀ input, collect_file root f = Some input → input_sound l (w_fs w) input.
Proof.
  intros Hpath (bytes & mode & mtime & rel & E & _ & ->) input. unfold collect_file. cbn. intros [= <-].
  unfold input_sound. cbn. destruct (Z.eqb_spec (Z.of_nat (String.length bytes)) 0) as [Hz|_].
  - by destruct bytes.
  - split; [by apply (Houtside path [])|]. by eexists _, _, _.
Qed.

Lemma packed_inputs m : packed m → Forall (input_sound l (w_fs w)) (collect_blob_inputs m root).
Proof.
  intros [Hf _ He Ho Hs]. unfold collect_blob_inputs. rewrite !Forall_app.
  split_and!; [done| |by apply packed_stdio_input|by apply packed_stdio_input].
  apply Forall_forall. intros input (f & Hin & Hinput)%list_elem_of_omap.
  apply list_elem_of_lookup in Hin as [i Hi]. destruct (Forall2_lookup_r _ _ _ _ _ Hf Hi) as (path & Hp & Hpack).
  eapply file_input_sound; [by eapply list_elem_of_lookup_2|exact Hpack|exact Hinput].
Qed.

Lemma packed_known m : packed m → stdio_known m ∧ sizes_known m.
Proof.
  intros [Hf _ He Ho _]. unfold packed_stdio in *. split; [split|split_and!].
  - intros Hne Hnone. by rewrite He, Hnone in Hne.
  - intros Hne Hnone. by rewrite Ho, Hnone in Hne.
  - rewrite He. destruct (m_stderr_bytes m); cbn; [lia|done].
  - rewrite Ho. destruct (m_stdout_bytes m); cbn; [lia|done].
  - intros f [i Hi]%list_elem_of_lookup. destruct (Forall2_lookup_r _ _ _ _ _ Hf Hi) as (path & _ & Hpack).
    destruct Hpack as (bytes & mode & mtime & rel & _ & _ & ->). cbn. lia.
Qed.

Lemma create_cache_manifest_packed : ∃ m, create_cache_manifest task state w = (Ok m, w) ∧ packed m.
Proof.
  unfold create_cache_manifest, mbind, stateful_bind. rewrite get_output_files_all.
  destruct (pack_outputs root Manifest_default w output_paths output_paths_files) as (files & Hpacks & Hfold).
  rewrite Hfold. cbn [m_files Manifest_default app].
  destruct (inherit_operation_packed files (st_operation state)) as (m & Hop & Hm & Hlinks & Hsrc & He & Ho).
  unfold pure_result. rewrite Hop. unfold inherit_source, with_state.
  destruct (path_exists (w_fs w) (get_manifest_path (digest_hash (st_digest state)))) eqn:Hexists.
  - destruct (Hsource Hexists) as (rest & bytes & mode & mtime & Hpath & Hrest & E & Hout & Hdigest).
    destruct (path_relative_to_below root rest Hrest) as (rel & Hrel & _ & _).
    unfold mbind, stateful_bind, pure_result, resolve_rel_path. rewrite Hpath, Hrel. eexists. split; [done|].
    split; cbn; [by rewrite Hm|done|done|done|]. constructor; [|constructor].
    unfold input_sound. cbn. rewrite Hdigest. cbn.
    destruct (Z.eqb_spec (Z.of_nat (String.length bytes)) 0) as [Hz|_]; [by destruct bytes|].
    rewrite <- Hpath. split; [done|]. by eexists _, _, _.
  - exists m. split; [done|]. split; [by rewrite Hm|done|done|done|]. rewrite Hsrc. constructor.
Qed.

(** The local cache is used in both directions, a remote one in none. *)
Record local_only : Prop := {
  lo_cas : st_local_cas_enabled state = true;
  lo_readable : st_local_cache_readable state = true;
  lo_writable : st_local_cache_writable state = true;
  lo_remote_readable : st_remote_cache_readable state = false;
  lo_remote_writable : st_remote_cache_writable state = false;
}.
Hypothesis Hstate : local_only.

Lemma outputs_created : has_outputs_been_created task false w = (Ok true, w).
Proof.
  unfold has_outputs_been_created. rewrite Hglobs. cbn. unfold with_state.
  replace (existsb _ _) with false; [done|]. symmetry. apply not_true_iff_false. intros [[file optional] [Hin Hex]]%existsb_exists.
  apply list_elem_of_In, elem_of_map_to_list in Hin. assert (is_Some (t_output_files task !! file)) as Hfile by by eexists.
  destruct (Hfiles file Hfile) as (bytes & mode & mtime & E). destruct (Hdeclared file Hfile) as [Hrel Hplain _].
  rewrite to_path_plain in Hex by done. unfold path_exists, is_file in Hex. by rewrite (file_at_file _ _ _ _ _ E) in Hex.
Qed.

Lemma archive_future hash :
  ∃ m, packed m ∧ OutputArchiver_archive task hash state w =
    (Ok (ArchiveQueued, [persist_manifest_in_backend root (local_backend l) (st_digest state) m]), w).
Proof.
  destruct create_cache_manifest_packed as (m & Hm & Hpacked). exists m. split; [done|].
  destruct Hstate as [Hcas Hread Hwrite Hrr Hrw]. unfold OutputArchiver_archive.
  assert ((if is_build_type task then has_outputs_been_created task false else mret true) w = (Ok true, w)) as Hcreated
    by (destruct (is_build_type task); [apply outputs_created|done]).
  unfold mbind at 1, stateful_bind at 1. rewrite Hcreated, Hcas, Hwrite, Hrw. cbn [negb orb andb].
  unfold mbind, stateful_bind. rewrite Hm. unfold archive_manifest, get_backends, get_backends_with_options, with_options.
  cbn. by rewrite Hlocal.
Qed.
End Archive.

(** *** Hydrating *)

Lemma output_validated path f fs :
  path ∈ output_paths → packs root fs path f → validate_output_path task tt (mf_path f) = Ok tt.
Proof.
  intros (file & Hfile & ->)%output_paths_declared (bytes & mode & mtime & rel & _ & Hrel & ->). cbn.
  rewrite (de_spelled _ (Hdeclared file Hfile)) in Hrel. injection Hrel as <-. unfold validate_output_path.
  by rewrite bool_decide_eq_true_2.
Qed.

Lemma outputs_validated fs m started completed :
  Forall2 (packs root fs) output_paths (m_files m) → m_symlinks m = [] →
  validate_output_paths task (m_persisted (m_set_uploaded m started completed)) = Ok tt.
Proof.
  intros Hpacks Hlinks. unfold validate_output_paths. cbn. rewrite Hlinks.
  assert (∀ paths, (∀ p, p ∈ paths → validate_output_path task tt p = Ok tt) →
    ofold (validate_output_path task) tt paths = Ok tt) as Hfold.
  { induction paths as [|p paths IH]; intros Hp; [done|]. cbn. rewrite Hp by by left. apply IH. intros. apply Hp. by right. }
  rewrite Hfold; [done|]. intros p (f' & -> & Hin)%list_elem_of_fmap. apply list_elem_of_filter in Hin as [_ Hin].
  apply list_elem_of_fmap in Hin as (f & -> & Hf). apply list_elem_of_lookup in Hf as [i Hi].
  destruct (Forall2_lookup_r _ _ _ _ _ Hpacks Hi) as (path & Hp & Hpack).
  eapply (output_validated path f fs); [by eapply list_elem_of_lookup_2|done].
Qed.

(** Bringing the outputs back from a cache that holds their manifest. *)
Lemma hydrate_persisted (state : TaskRunState) (w w1 w2 : World R) m hash :
  packed w m → local_only state → Forall (output_file root (w_fs w)) output_paths →
  persisted l (st_digest state) m root (w_fs w1) → no_collision l (w_fs w) (w_fs w1) output_paths →
  same_stores l (w_fs w1) (w_fs w2) →
  ∃ source w3 m' w4,
    load_manifest (with_options rh_storage (include_only true false)) (st_digest state) w2 = (Ok (Some source), w3) ∧
    OutputHydrater_hydrate task (FromStorage source) hash state w3 = (Ok (HitFromStorage m' false, []), w4) ∧
    m_exit_code m' = m_exit_code m ∧
    ∀ path, path ∈ output_paths → w_fs w4 !! path = w_fs w !! path.
Proof.
  intros Hpacked [Hcas Hread _ Hrr _] Hout Hpersisted Hcoll Hsame.
  pose proof Hpacked as [Hpacks Hlinks _ _ _]. destruct (packed_known w m Hpacked) as [Hknown Hsizes].
  set (s := with_options rh_storage (include_only true false)).
  assert (get_backends s = [local_backend l]) as Hbackends
    by (unfold s, get_backends, get_backends_with_options, with_options; cbn; by rewrite Hlocal).
  destruct (load_local l root s [] (st_digest state) m w2 Hbackends Hverify) as (src & mi & mode & Hload & Hsrc & Hman & Hmi);
    [by eapply same_stores_persisted|].
  rewrite Hmi in Hman. clear Hmi. set (w3 := w_set_fs w2 _) in Hload.
  assert (source_remote src = false) as Hlocalsrc.
  { revert Hload. unfold load_manifest. rewrite Hbackends. cbn [load_manifest_from b_readable local_backend].
    unfold mbind at 1, stateful_bind at 1. destruct (b_retrieve_manifest _ _ w2) as [[[mm|]| |] ws]; cbn; [|done..].
    unfold mret, stateful_ret. intros [= <- _]. cbn. apply not_true_iff_false.
    intros (remote & Hin & Hid%bool_decide_eq_true)%existsb_exists. rewrite Forall_forall in Hremote.
    by apply (Hremote remote); [apply list_elem_of_In|]. }
  destruct (delete_existing_outputs_gone w3) as (w3' & Hdelete & Hgone & _ & Hframe).
  assert (∀ r, w_fs w3' !! (objects_dir blobs ++ r)%list = w_fs w1 !! (objects_dir blobs ++ r)%list) as Hblobs.
  { intros r. rewrite Hframe by (intros o Ho; apply (Houtside o r Ho)). unfold w3. cbn.
    rewrite lookup_insert_ne by (intros Heq; symmetry in Heq; by eapply Hapart). by apply Hsame. }
  destruct (hydrate_restores l root Hroot s (st_digest state) m src _ _ (w_fs w) w3' output_paths Hsrc Hman Hpacks Hout
    Hlinks Hsizes) as (m' & bg & w4 & Hhyd & Hbg & Hunpack & Hcode & Hrestored & _).
  { eapply restorable_frame; [exact Hblobs|]. by eapply persisted_restorable. }
  { intros path Hpath. unfold is_symlink. rewrite Hgone by done. split; [done|]. by apply (Houtside path []). }
  exists src, w3, m', w4. split_and!; [done| |done|done].
  unfold OutputHydrater_hydrate. rewrite Hlocalsrc, Hcas, Hread, Hrr. cbn [negb andb orb].
  unfold mbind, stateful_bind, pure_result. rewrite Hman, (outputs_validated (w_fs w)) by done.
  rewrite Hdelete. fold s. rewrite Hhyd, Hunpack, Hbg by done. done.
Qed.

(** The archiver, its background upload and the hydrater. *)
Lemma outputs_restored (state : TaskRunState) (w : World R) hash :
  (∀ file, is_Some (t_output_files task !! file) → ∃ bytes mode mtime,
    w_fs w !! (root ++ path_components file)%list = Some (FileNode bytes mode mtime)) →
  hashed_source state w → local_only state →
  store_shaped blobs (w_fs w) → store_shaped manifests (w_fs w) → cas_sound blobs (w_fs w) →
  contains_object (w_fs w) manifests (digest_hash (st_digest state)) = false →
  ∃ future w1,
    OutputArchiver_archive task hash state w = (Ok (ArchiveQueued, [future]), w) ∧ future w = (Ok tt, w1) ∧
    (no_collision l (w_fs w) (w_fs w1) output_paths → ∀ w2 : World R, same_stores l (w_fs w1) (w_fs w2) →
      ∃ source w3 m' w4,
        load_manifest (with_options rh_storage (include_only true false)) (st_digest state) w2 = (Ok (Some source), w3) ∧
        OutputHydrater_hydrate task (FromStorage source) hash state w3 = (Ok (HitFromStorage m' false, []), w4) ∧
        ∀ path, path ∈ output_paths → w_fs w4 !! path = w_fs w !! path).
Proof.
  intros Hfiles Hsource Hstate Hsb Hsm Hsound Hfresh.
  destruct (archive_future state w Hfiles Hsource Hstate hash) as (m & Hpacked & Harchive).
  destruct (persist_stored l root (st_digest state) m w Hapart Hsb Hsm Hsound Hfresh (packed_inputs w m Hpacked))
    as (w1 & Hpersist & Hpersisted).
  exists (persist_manifest_in_backend root (local_backend l) (st_digest state) m), w1. split_and!; [done|done|].
  intros Hcoll w2 Hsame.
  destruct (hydrate_persisted state w w1 w2 m hash Hpacked Hstate (output_paths_files w Hfiles) Hpersisted Hcoll Hsame)
    as (src & w3 & m' & w4 & Hload & Hhyd & _ & Hrestored).
  by exists src, w3, m', w4.
Qed.
End Outputs.

(** C9: outputs survive the local cache.  The task declares output files and no output globs,
    all of them are regular files in the workspace, and the task uses the local cache in both
    directions and no remote one.  The stores of the cache directory are well formed, hold no
    manifest of this hash yet, and are apart from the outputs; the manifest that the hash was
    taken of, where there is one, has that hash.  Then archiving queues one background upload,
    which succeeds; and in every world in which the two stores are as the upload left them,
    whatever happened to the workspace, the manifest is found and hydrating it restores every
    output with its content, its permissions and its time of modification, unless a stored
    object has the hash but not the content of an output. *)
Theorem archived_outputs_restored `{Sha256, ManifestJson, RelativePathLib, DirWalk, !Sha256Laws _, !ManifestJsonLaws _,
    !RelativePathLaws _} {R : Type} (host : RunnerHost R) (task : Task) cache_dir shared cas_verify_integrity
    (state : TaskRunState) (w : World R) hash :
  let l := LocalStorage_new cache_dir shared cas_verify_integrity in
  (∃ body, rh_workspace_root (R := R) = "/"%string :: body ∧ Forall plain_part body) →
  local_backends rh_storage = [local_backend l] →
  Forall (λ remote, b_id remote ≠ ls_id l) (remote_backends rh_storage) →
  t_output_globs task = [] →
  (∀ file, is_Some (t_output_files task !! file) → declared host file ∧ ∃ bytes mode mtime,
    w_fs w !! (rh_workspace_root (R := R) ++ path_components file)%list = Some (FileNode bytes mode mtime)) →
  (∀ path r, path ∈ output_paths host task →
    path_has_prefix (objects_dir (ls_blobs l)) path = false ∧
    path_has_prefix path (objects_dir (ls_blobs l) ++ r)%list = false ∧
    path_has_prefix path (objects_dir (ls_manifests l) ++ r)%list = false) →
  hashed_source l host state w → local_only state →
  store_shaped (ls_blobs l) (w_fs w) → store_shaped (ls_manifests l) (w_fs w) → cas_sound (ls_blobs l) (w_fs w) →
  contains_object (w_fs w) (ls_manifests l) (digest_hash (st_digest state)) = false →
  ∃ future w1,
    OutputArchiver_archive task hash state w = (Ok (ArchiveQueued, [future]), w) ∧ future w = (Ok tt, w1) ∧
    (no_collision l (w_fs w) (w_fs w1) (output_paths host task) →
     ∀ w2 : World R, same_stores l (w_fs w1) (w_fs w2) →
      ∃ source w3 m' w4,
        load_manifest (with_options rh_storage (include_only true false)) (st_digest state) w2 = (Ok (Some source), w3) ∧
        OutputHydrater_hydrate task (FromStorage source) hash state w3 = (Ok (HitFromStorage m' false, []), w4) ∧
        ∀ path, path ∈ output_paths host task → w_fs w4 !! path = w_fs w !! path).
Proof.
  intros l Hroot Hlocal Hremote Hglobs Hfiles Houtside Hsource Hstate Hsb Hsm Hsound Hfresh.
  apply (outputs_restored l host task); try done.
  - apply LocalStorage_new_apart.
  - intros file Hfile. by apply (Hfiles file).
  - intros file Hfile. by apply (Hfiles file).
Qed.

(** ** A task with one output *)

Definition output_task : Task := example_task [] [] ["out"%string] (retrying 0).

Definition output_world : World (list string) :=
  w_set_fs (example_world "abc") (<[output_path := FileNode "abc" 493 7]> (w_fs (example_world "abc"))).

Definition output_state : TaskRunState :=
  mkTaskRunState (sample_digest "task") (mkOperation NoOperation Passed) None true true true false false.

(** What the background upload leaves at the object of the output. *)
Definition uploaded : option Node :=
  match (OutputArchiver_archive output_task "task" output_state output_world).1 with
  | Ok (_, [future]) => w_fs (future output_world).2 !! object_path (ls_blobs example_storage) (sha256 "abc")
  | _ => None
  end.

Lemma output_task_files file : is_Some (t_output_files output_task !! file) → file = "out"%string.
Proof.
  intros [optional Hfile]. cbn in Hfile. apply lookup_insert_Some in Hfile as [[<- _]|[_ Hfile]]; [done|].
  by apply lookup_empty_Some in Hfile.
Qed.

Lemma output_task_paths path : path ∈ output_paths example_host output_task → path = output_path.
Proof.
  assert (output_paths example_host output_task = [output_path]) as -> by (vm_compute; reflexivity).
  by intros ?%list_elem_of_singleton.
Qed.

Lemma output_world_files path node :
  w_fs output_world !! path = Some node → path = output_path ∧ node = FileNode "abc" 493 7 ∨ path = source_file.
Proof.
  unfold output_world, w_set_fs. cbn [w_fs]. intros [[<- <-]|[_ E]]%lookup_insert_Some; [by left|right].
  unfold example_world in E. cbn [w_fs] in E. by apply lookup_singleton_Some in E as [<- _].
Qed.

Lemma output_world_outside dir r node :
  dir = objects_dir (ls_blobs example_storage) ∨ dir = objects_dir (ls_manifests example_storage) →
  w_fs output_world !! (dir ++ r)%list ≠ Some node.
Proof. by intros [->| ->] [[[=] _]|[=]]%output_world_files. Qed.

Lemma uploaded_no_collision future w1 :
  OutputArchiver_archive output_task "task" output_state output_world = (Ok (ArchiveQueued, [future]), output_world) →
  future output_world = (Ok tt, w1) →
  no_collision example_storage (w_fs output_world) (w_fs w1) (output_paths example_host output_task).
Proof.
  assert (match uploaded with Some (FileNode bytes _ _) => String.eqb bytes "abc" | _ => false end = true) as Hup
    by (vm_compute; reflexivity).
  intros Harchive Hfuture. unfold uploaded in Hup. rewrite Harchive in Hup. cbn [fst] in Hup. rewrite Hfuture in Hup.
  intros path bytes mode mtime bytes' mode' mtime' ->%output_task_paths E E' _.
  apply output_world_files in E as [[_ [= -> -> ->]]|[=]]. cbn [snd] in Hup. rewrite E' in Hup.
  by apply String.eqb_eq in Hup.
Qed.

Lemma archived_outputs_restored_witness :
  ∃ future w1 source w3 m' w4,
    OutputArchiver_archive output_task "task" output_state output_world = (Ok (ArchiveQueued, [future]), output_world) ∧
    future output_world = (Ok tt, w1) ∧
    load_manifest (with_options rh_storage (include_only true false)) (st_digest output_state)
      (w_set_fs w1 (delete output_path (w_fs w1))) = (Ok (Some source), w3) ∧
    OutputHydrater_hydrate output_task (FromStorage source) "task" output_state w3 =
      (Ok (HitFromStorage m' false, []), w4) ∧
    w_fs w4 !! output_path = w_fs output_world !! output_path.
Proof.
  unshelve epose proof (archived_outputs_restored example_host output_task cache_dir false true output_state output_world
    "task" _ _ _ _ _ _ _ _ _ _ _ _) as (future & w1 & Harchive & Hfuture & Hrestore).
  - exists ["w"%string]. split; [reflexivity|]. by apply (bool_decide_unpack _).
  - reflexivity.
  - constructor.
  - reflexivity.
  - intros file ->%output_task_files. split.
    + split; [reflexivity|by apply (bool_decide_unpack _)|vm_compute; reflexivity].
    + exists "abc"%string, 493%Z, 7%Z. vm_compute. reflexivity.
  - intros path r ->%output_task_paths. repeat split.
  - intros Hexists. vm_compute in Hexists. discriminate Hexists.
  - by split.
  - intros r node E. by apply output_world_outside in E; [|left].
  - intros r node E. by apply output_world_outside in E; [|right].
  - intros hash bytes mode mtime E. by apply output_world_outside in E; [|left].
  - vm_compute. reflexivity.
  - destruct (Hrestore (uploaded_no_collision future w1 Harchive Hfuture) (w_set_fs w1 (delete output_path (w_fs w1))))
      as (source & w3 & m' & w4 & Hload & Hhydrate & Hback).
    + intros r. cbn [w_set_fs w_fs]. split; apply lookup_delete_ne; discriminate.
    + exists future, w1, source, w3, m', w4. split; [exact Harchive|]. split; [exact Hfuture|]. split; [exact Hload|].
      split; [exact Hhydrate|]. apply Hback. vm_compute. left.
Defined.

(** ** What the validation of outputs accepts *)

(** Everything that starts with a declared output is accepted, also when it leads out of it: the
    manifest of another machine can name a source file. *)
Lemma validated_outside_of_output `{RelativePathLaws} {R} (host : RunnerHost R) (task : Task) file rest :
  is_Some (t_output_files task !! file) →
  validate_output_path task tt (String.append file (String.append "/" rest)) = Ok tt.
Proof.
  intros Hfile. unfold validate_output_path. case_bool_decide; [done|].
  assert (existsb (rel_starts_with (String.append file (String.append "/" rest))) (map_to_list (t_output_files task)).*1 = true)
    as ->; [|done].
  apply existsb_exists. exists file. split; [|apply rel_starts_with_below].
  destruct Hfile as [optional Hfile]. apply list_elem_of_In, list_elem_of_fmap. exists (file, optional).
  split; [done|]. by apply elem_of_map_to_list.
Qed.

Lemma validated_source_overwritten :
  validate_output_path output_task tt "out/../src" = Ok tt ∧
  resolve_abs_path example_root "out/../src" = Ok source_file.
Proof. split; vm_compute; reflexivity. Qed.
